(* ===== verification/_CoqProject ===== *)
-Q . S2P
Prelude.v
Divide.v
Memory.v
Heap.v
Pmm.v
Pipe.v
Hash.v
Sha256.v
Sha512.v
Sha1.v
Aes.v
Cipher.v
Gcm.v
Ccmp.v
X25519.v
Limbs.v
Rsa.v
Ec.v
Printf.v
Rtc.v
Zone.v
X509.v
Encoded.v
Certs.v
Frames.v
Paging.v
Fork.v
Clone.v
Spaces.v
User.v
Programs.v
Loading.v
Elf.v
Stack.v
Ranges.v
Signal.v
Sched.v
Turns.v
Tcp.v
Link.v
Sockets.v
Path.v
Ramfs.v
Vfs.v
