(* ===== verification/Prelude.v ===== *)
(** * zelr: a model of the kernel's core and what is proved of it

    zelr is an operating system for 64 bit machines, written in C. This library models the
    parts of its kernel that keep state for everyone else or that stand between the machine
    and what others control: memory and its sharing, the scheduler, signals, the loader,
    pipes, paths and files in memory, the clock and its zones, the cryptography under TLS and
    the wireless handshake, certificates, and the connections of TCP. Every definition is the Gallina form
    of a C function or of a named part of one, under the name it has in the source; all of
    them compute.

    ** How the C is read

    - An unsigned object of w bits is a [Z] and [u8], [u16], [u32], [u64] are the conversions
      to it, written where the C converts or wraps; [i32] and [i64] are the signed readings.
      Signed arithmetic that cannot leave its range is left unwrapped, and the file says why.
    - State is passed: each part has a [Record] for what its file keeps in static variables,
      and a function that changes it returns the new one. [option] is failure: [None] where C
      would read what is not there (outside a buffer or a record given back), or a panic; the
      answers the C gives for its own errors are values ([false], -1, an error code).
    - Loops are structural where the C steps through a buffer, and otherwise take fuel. Where
      fuel appears it is enough, by theorem: the ring of tasks is walked with one more than
      there are tasks, the free list with one more than there are blocks, a path with its
      length, the pages of a segment with its size in pages and three, the held segments with
      the square of their number, a port with the 65536 the C itself stops at, the doubling
      of a file's room with thirty-two, the clock with the million polls the C itself stops
      at, and a reap with the 4096 of the C. Calls of TCP that wait on the timer take fuel and
      [Sockets.calls_come_back] gives the amount after which they have an answer.
    - One operation at a time. The kernel runs under one lock (kernel_lock of kernel/sched.c)
      or with interrupts off, which makes a call, an iteration of a loop between two sleeps,
      or a switch one step. Where operations of several parties interleave (pipes, tasks on
      processors, the two ends of a connection) they are steps of a relation and the theorems
      are about every sequence of them.

    ** The files, and what each group of theorems shows

    Shared. [Prelude]: C's operators and widths, lists as arrays, words of bytes, bounded
    loops, and the lemmas and tactics all files use. [Divide] (kernel/divide.c) and [Memory]
    (kernel/string.c): division and the memory and string routines, with alignment loops and
    eight byte steps, equal to their one line specifications.

    Memory.
    - [Heap] (kernel/heap.c): the free list with its headers at addresses is refined to the
      list of its blocks; over any run of allocations and releases blocks in use are
      disjoint, inside the arena and never handed out twice, in heaps of up to the 512 MiB
      that kernel/main.c gives at most; an allocation is first fit.
    - [Pmm] (kernel/pmm.c): the bitmap, the search and the count of holders of a frame; a
      frame somebody holds is never given out, over any run, and the memory map of the loader
      is taken as it says.
    - [Frames] is the interface ([FrameAllocator] with its laws) between the allocator and
      what builds spaces; [Pmm] implements it.
    - [Paging] (kernel/paging.c): tables walked as words of physical memory. [Fork], [Clone]
      and [Spaces] hold the invariant of spaces that share pages until written to (each frame
      counted as often as it is mapped) through the write fault, the copy of a space and its
      end. [Programs] adds the page fault path of kernel/idt.c and the pages of kernel/user.c
      ([User]), and refines all of it to programs that each have a memory of their own.
    - [Loading], [Elf] (kernel/elf.c), [Stack] (kernel/user.c): a space under construction,
      the loader and the start of a program: the pages of a loaded space hold what the file
      says and nothing lies outside the window of programs, and the entry point is reached on
      a stack that holds the arguments. A read outside the file has no result, so what is
      proved to load is read within it; files whose header states an end of its table past
      2^64 are left out, and one is read from before its start (a finding). [Ranges]: what a
      program asked for by mmap, as a map from addresses to protections, and by sbrk, which
      refuses growth past its limit or without frames and nothing else.

    Tasks.
    - [Signal] (kernel/signal.c, with the waking of kernel/wait.c): what is pending is acted
      on as the program chose; a handler is invisible to what it interrupted; the frame a
      return from one leaves in by is one of ring 3, whatever lies on the stack. The memory of the program is an interface
      ([UserMemory] with its laws), which the spaces of [Paging] implement.
    - [Sched] (kernel/sched.c, kernel/wait.c and calls of kernel/syscall.c): the ring, starting,
      forking, replacing and ending tasks, sleeping, waiting, and the switch on each of up to
      sixteen processors. [Turns]: its invariant [wf] through every call; no task is on two
      processors and what a switch gives back no processor runs or has loaded; a ready task
      has its turn within a lap of the ring; a task goes on exactly as it was put down. A call
      whose model has no result is a step that leads nowhere ([step] to [None]): it is proved
      that only one is, a waiting task's look at a record given back, which is a finding, and
      the theorems are of runs up to one. Assumed of the rest of the
      kernel: the heap answers addresses not in use, a new space is in no task, fewer than
      2^32 tasks are started, idle tasks make no calls.
    - [Pipe] (kernel/pipe.c): what is read is what was written, in order, and no reader or
      writer sleeps through the wake meant for it, with any number of threads interleaved.

    Files. [Path]: paths resolve to one absolute name, and where they are cut (255 characters,
    63 a name) what is left does. [Ramfs] (kernel/fs.c): the array of
    files is a map from names to contents. [Vfs] (kernel/vfs.c): the operations over volumes,
    of which the interface [VolumeOps] assumes nothing; an operation touches the volume its
    path is on and no other, and without a disk the files in memory behave as a map.

    Time. [Rtc] (kernel/rtc.c): the chip is a parameter, what its nth read gives; a reading is
    never torn and its encodings are undone. [Zone] (userland/zones.h, kernel/zone.c): the
    calendar is the Gregorian one, every moment has one reading and the rules of summer are
    applied.

    Cryptography. [Hash] is the streaming construction that [Sha256], [Sha512] and [Sha1]
    share; updates in any pieces give the digest of the whole, and the key derivations are the
    standards'. [Aes] and the modes [Gcm] and [Ccmp] over the interface [BlockCipher]
    ([Cipher]): round trips, and nothing is accepted that was not sealed under the key.
    [Limbs] is the Montgomery arithmetic [Rsa] and [Ec] share: [Rsa] accepts exactly the
    signatures whose power is the padded digest; [Ec] computes the chord and tangent law on
    both curves and refuses malformed keys and points. [X25519] equals the function of RFC
    7748. What is not proved of them is hardness: a theorem says what is computed.

    Certificates. [X509] (kernel/x509.c, and the search of kernel/roots.c over a store that is
    an argument): the reader of DER, certificates, signatures by them, names and the walk up a
    chain, where a read outside a buffer, or a loop that does not end, is an outcome of its
    own. [Encoded]: a certificate written as RFC 5280 has it, with a key of the
    kinds the code knows, reads back as what it was written from, and matches the hosts its
    names cover. [Certs]: whatever the bytes nothing outside
    them is read; a chain is accepted only when vouched for, link by link, up to the store,
    and a good one is accepted in whatever order it is sent.

    Formatted output. [Printf] (kernel/printf.c): the text in a buffer is the text on the
    console cut to the buffer, terminated, for every format.

    Connections. [Tcp] (kernel/tcp.c): both halves of a connection and the calls. [Link]: a
    connection and a peer over a network that loses, repeats and reorders; what is read is a
    prefix of what the peer sent, and what the peer takes is what was sent, in order, so
    long as the IP layer takes each segment when it is first handed over; once it has not
    (an address not resolved), of what was given before, the peer still takes nothing but in
    its place. The peer
    is held to RFC 793 ([from_peer]): its acknowledgements are of what it has, its bytes are
    its stream's; and no segment is older than 2 GB of stream, as sequence numbers assume.
    [Sockets]: segments reach the connection they are for, a new connection's port is free,
    and every call comes back. The timer, the IP layer and what each poll of the card
    delivers are parameters, and the card is polled where the code polls it.

    ** What is not modelled

    Device drivers, interrupt controllers and the start of processors (registers and rings
    whose behaviour is the device's); FAT and the generated tree of files (the model of
    [Vfs] takes them as parameters); TLS, HTTP and the wireless handshake above the
    cryptography; drawing and windows; the self test; the programs of ring 3, among them the
    browser; the C library for programs; and the tools of the host. Locks and the interrupt
    flag are the steps described above; caches of translations, names of tasks, open file
    tables and counters shown to a user are left out of the parts they belong to.

    This file is what the others share. *)
From Stdlib Require Export ZArith Lia.
From stdpp Require Export base gmap list strings numbers.

#[global] Open Scope Z_scope.

(** ** Notations of the C operators, in a scope of their own *)

Declare Scope c_scope.
Delimit Scope c_scope with C.
Notation "a .& b" := (Z.land a b) (at level 40, left associativity) : c_scope.
Notation "a .| b" := (Z.lor a b) (at level 50, left associativity) : c_scope.
Notation "a .^ b" := (Z.lxor a b) (at level 50, left associativity) : c_scope.
Notation "a .<< n" := (Z.shiftl a n) (at level 39, left associativity) : c_scope.
Notation "a .>> n" := (Z.shiftr a n) (at level 39, left associativity) : c_scope.
#[global] Open Scope c_scope.

(** ** Machine words: a conversion to the width is the value modulo 2^w *)

Definition u8 (x : Z) : Z := x mod 256.
Definition u16 (x : Z) : Z := x mod 65536.
Definition u32 (x : Z) : Z := x mod 4294967296.
Definition u64 (x : Z) : Z := x mod 18446744073709551616.
Definition u128 (x : Z) : Z := x mod 340282366920938463463374607431768211456.
(** The signed reading of a 32 and a 64 bit word (two's complement). *)
Definition i32 (x : Z) : Z := (x + 2147483648) mod 4294967296 - 2147483648.
Definition i64 (x : Z) : Z :=
  (x + 9223372036854775808) mod 18446744073709551616 - 9223372036854775808.

(** [is_word w x]: x is the value of an unsigned w-bit object. *)
Definition is_word (w x : Z) : Prop := 0 <= x < 2 ^ w.
Notation is_u8 := (is_word 8).
Notation is_u32 := (is_word 32).
Notation is_u64 := (is_word 64).

(** [bytes l]: every element is a byte. *)
Notation bytes := (Forall (is_word 8)).

#[export] Instance is_word_dec w x : Decision (is_word w x).
Proof. unfold is_word. apply _. Defined.

(** ** Arrays of C, as lists indexed by Z *)

Definition getz {A} (d : A) (l : list A) (i : Z) : A := nth (Z.to_nat i) l d.
Definition setz {A} (l : list A) (i : Z) (v : A) : list A := <[Z.to_nat i := v]> l.
Notation "l .[ i ]" := (getz 0 l i) (at level 2, left associativity, format "l .[ i ]") : c_scope.
Notation "l .[ i := v ]" := (setz l i v) (at level 2, left associativity, format "l .[ i := v ]") : c_scope.

(** The length of a list as an integer. *)
Notation zlen l := (Z.of_nat (length l)).

(** [l[at .. at + |src|)] overwritten with [src], the rest kept: what a memcpy
    into an array does. *)
Definition splice {A} (l : list A) (at_ : nat) (src : list A) : list A :=
  take at_ l ++ src ++ drop (at_ + length src) l.

(** [for (i = lo; i < hi; i++) s = body i s], both ends as integers. *)
Definition for_range {S} (lo hi : Z) (body : Z -> S -> S) (s : S) : S :=
  foldl (fun s i => body i s) s (seqZ lo (hi - lo)).
(** The same, counting down: [for (i = hi - 1; i >= lo; i--)]. *)
Definition for_down {S} (lo hi : Z) (body : Z -> S -> S) (s : S) : S :=
  foldr (fun i s => body i s) s (seqZ lo (hi - lo)).

(** ** Tactics *)

Ltac case_bool :=
  match goal with
  | H : context [Z.ltb ?a ?b] |- _ => destruct (Z.ltb_spec a b)
  | H : context [Z.leb ?a ?b] |- _ => destruct (Z.leb_spec a b)
  | H : context [Z.eqb ?a ?b] |- _ => destruct (Z.eqb_spec a b)
  | |- context [Z.ltb ?a ?b] => destruct (Z.ltb_spec a b)
  | |- context [Z.leb ?a ?b] => destruct (Z.leb_spec a b)
  | |- context [Z.eqb ?a ?b] => destruct (Z.eqb_spec a b)
  end.
(** Linear arithmetic with quotients and remainders by constants. *)
Ltac dlia := Z.div_mod_to_equations; lia.
Ltac word_lia := unfold is_word, u8, u16, u32, u64, u128 in *; Z.div_mod_to_equations; lia.
(** Equality of integers bit by bit. *)
Ltac bits := apply Z.bits_inj'; intros ?n ?Hn.

Create HintDb words discriminated.

(** ** Lemmas on words *)

Lemma u8_is_word x : is_word 8 (u8 x).
Proof. apply Z.mod_pos_bound. done. Qed.
Lemma u16_is_word x : is_word 16 (u16 x).
Proof. apply Z.mod_pos_bound. done. Qed.
Lemma u32_is_word x : is_word 32 (u32 x).
Proof. apply Z.mod_pos_bound. done. Qed.
Lemma u64_is_word x : is_word 64 (u64 x).
Proof. apply Z.mod_pos_bound. done. Qed.

Lemma u8_id x : is_word 8 x -> u8 x = x.
Proof. apply Z.mod_small. Qed.
Lemma u16_id x : is_word 16 x -> u16 x = x.
Proof. apply Z.mod_small. Qed.
Lemma u32_id x : is_word 32 x -> u32 x = x.
Proof. apply Z.mod_small. Qed.
Lemma u64_id x : is_word 64 x -> u64 x = x.
Proof. apply Z.mod_small. Qed.
Lemma u128_id x : is_word 128 x -> u128 x = x.
Proof. apply Z.mod_small. Qed.

Lemma is_word_bits w x :
  0 <= w -> is_word w x <-> 0 <= x /\ forall n, w <= n -> Z.testbit x n = false.
Proof.
  intros Hw. unfold is_word. split.
  - intros [H0 H1]. split; [done|]. intros n Hn.
    destruct (decide (x = 0)) as [->|]; [apply Z.testbit_0_l|].
    apply Z.bits_above_log2; [done|]. apply Z.log2_lt_pow2; [lia|].
    apply Z.lt_le_trans with (2 ^ w); [done|]. apply Z.pow_le_mono_r; lia.
  - intros [H0 H]. split; [done|].
    destruct (decide (x < 2 ^ w)); [done|]. exfalso.
    assert (2 ^ w <= x) as Hx by lia.
    assert (0 < x) by (pose proof (Z.pow_pos_nonneg 2 w); lia).
    assert (w <= Z.log2 x) by (apply Z.log2_le_pow2; lia).
    pose proof (H (Z.log2 x) ltac:(done)) as Hb.
    rewrite Z.bit_log2 in Hb by lia. done.
Qed.

Lemma is_word_testbit w x n : 0 <= w -> is_word w x -> w <= n -> Z.testbit x n = false.
Proof. intros ? [_ H]%is_word_bits ?; auto. Qed.

Lemma is_word_lxor w x y : 0 <= w -> is_word w x -> is_word w y -> is_word w (x .^ y).
Proof.
  intros Hw Hx Hy. apply is_word_bits; [done|].
  pose proof Hx as [? _]. pose proof Hy as [? _]. split.
  - apply Z.lxor_nonneg. lia.
  - intros n Hn. rewrite Z.lxor_spec.
    rewrite (is_word_testbit w x n), (is_word_testbit w y n) by done. done.
Qed.
Lemma is_word_lor w x y : 0 <= w -> is_word w x -> is_word w y -> is_word w (x .| y).
Proof.
  intros Hw Hx Hy. apply is_word_bits; [done|].
  pose proof Hx as [? _]. pose proof Hy as [? _]. split.
  - apply Z.lor_nonneg. lia.
  - intros n Hn. rewrite Z.lor_spec.
    rewrite (is_word_testbit w x n), (is_word_testbit w y n) by done. done.
Qed.
Lemma is_word_land_l w x y : 0 <= w -> is_word w x -> is_word w (x .& y).
Proof.
  intros Hw Hx. apply is_word_bits; [done|]. pose proof Hx as [? _]. split.
  - apply Z.land_nonneg. lia.
  - intros n Hn. rewrite Z.land_spec, (is_word_testbit w x n) by done. done.
Qed.
Lemma is_word_land_r w x y : 0 <= w -> is_word w y -> is_word w (x .& y).
Proof. rewrite Z.land_comm. apply is_word_land_l. Qed.
Lemma is_word_shiftr w x n : 0 <= w -> 0 <= n -> is_word w x -> is_word w (x .>> n).
Proof.
  intros Hw Hn [H0 H1]. split; [by apply Z.shiftr_nonneg|].
  rewrite Z.shiftr_div_pow2 by done.
  apply Z.le_lt_trans with x; [|done]. apply Z.div_le_upper_bound.
  - by apply Z.pow_pos_nonneg.
  - pose proof (Z.pow_pos_nonneg 2 n). nia.
Qed.
#[export] Hint Resolve u8_is_word u16_is_word u32_is_word u64_is_word : words.
#[export] Hint Resolve is_word_lxor is_word_lor is_word_land_l is_word_shiftr : words.
#[export] Hint Extern 1 (0 <= _) => lia : words.

Lemma testbit_u8 x n : 0 <= n -> Z.testbit (u8 x) n = (n <? 8) && Z.testbit x n.
Proof.
  intros Hn. unfold u8. change 256 with (2 ^ 8).
  case_bool; cbn.
  - by apply Z.mod_pow2_bits_low.
  - by apply Z.mod_pow2_bits_high.
Qed.

Lemma land_1 x : x .& 1 = x mod 2.
Proof. change 1 with (Z.ones 1). by rewrite Z.land_ones. Qed.
Lemma land_7 x : x .& 7 = x mod 8.
Proof. change 7 with (Z.ones 3). by rewrite Z.land_ones. Qed.
Lemma land_255 x : x .& 255 = x mod 256.
Proof. change 255 with (Z.ones 8). by rewrite Z.land_ones. Qed.

Lemma lxor_involutive a b : (a .^ b) .^ b = a.
Proof. by rewrite Z.lxor_assoc, Z.lxor_nilpotent, Z.lxor_0_r. Qed.

Lemma u8_lxor a b : u8 (a .^ b) = u8 a .^ u8 b.
Proof.
  bits. rewrite testbit_u8, !Z.lxor_spec, !testbit_u8 by done.
  by destruct (n <? 8).
Qed.

(** ** Counted loops *)

Lemma for_range_nil {S} lo hi (body : Z -> S -> S) s : hi <= lo -> for_range lo hi body s = s.
Proof. intros. unfold for_range. by rewrite seqZ_nil by lia. Qed.

Lemma for_range_succ {S} lo hi (body : Z -> S -> S) s :
  lo <= hi -> for_range lo (hi + 1) body s = body hi (for_range lo hi body s).
Proof.
  intros. unfold for_range.
  replace (hi + 1 - lo) with ((hi - lo) + 1) by lia.
  rewrite seqZ_app by lia. rewrite foldl_app.
  replace (lo + (hi - lo)) with hi by lia.
  done.
Qed.

Lemma for_range_cons {S} lo hi (body : Z -> S -> S) s :
  lo < hi -> for_range lo hi body s = for_range (lo + 1) hi body (body lo s).
Proof.
  intros. unfold for_range. rewrite seqZ_cons by lia. cbn.
  f_equal. f_equal; lia.
Qed.

(** The rule of a counted loop: an invariant indexed by the counter. *)
Lemma for_range_inv {S} (P : Z -> S -> Prop) lo hi (body : Z -> S -> S) s :
  lo <= hi -> P lo s ->
  (forall i s, lo <= i < hi -> P i s -> P (i + 1) (body i s)) ->
  P hi (for_range lo hi body s).
Proof.
  intros Hle H0 Hstep.
  assert (forall k, lo <= k <= hi -> P k (for_range lo k body s)) as H; [|apply H; lia].
  intros k Hk. destruct Hk as [Hk1 Hk2]. revert Hk2.
  pattern k. apply (Zlt_lower_bound_ind _ lo); [|done]. clear k Hk1.
  intros k IH Hk Hk2. destruct (decide (k = lo)) as [->|].
  - by rewrite for_range_nil by lia.
  - replace k with ((k - 1) + 1) by lia. rewrite for_range_succ by lia.
    apply Hstep; [lia|]. apply IH; lia.
Qed.

Lemma for_down_inv {S} (P : Z -> S -> Prop) lo hi (body : Z -> S -> S) s :
  lo <= hi -> P hi s ->
  (forall i s, lo <= i < hi -> P (i + 1) s -> P i (body i s)) ->
  P lo (for_down lo hi body s).
Proof.
  intros Hle H0 Hstep. unfold for_down.
  remember (Z.to_nat (hi - lo)) as k eqn:Hk. revert lo Hle Hk Hstep.
  induction k as [|k IH]; intros lo Hle Hk Hstep.
  - rewrite seqZ_nil by lia. cbn. replace lo with hi by lia. done.
  - rewrite seqZ_cons by lia. cbn. apply Hstep; [lia|].
    replace (Z.pred (hi - lo)) with (hi - Z.succ lo) by lia.
    replace (lo + 1) with (Z.succ lo) by lia. apply IH; [lia|lia|].
    intros; apply Hstep; [lia|done].
Qed.

(** A loop undone by the loop that runs back, where each step is undone. *)
Lemma for_undo {S} (I : S -> Prop) lo hi (f g : Z -> S -> S) s :
  (forall i s, lo <= i < hi -> I s -> I (f i s) /\ g i (f i s) = s) -> I s ->
  I (for_range lo hi f s) /\ for_down lo hi g (for_range lo hi f s) = s.
Proof.
  intros Hfg. unfold for_range, for_down.
  assert (Forall (fun i => lo <= i < hi) (seqZ lo (hi - lo))) as Hl.
  { apply Forall_forall. intros i Hi%list_elem_of_In%elem_of_seqZ. lia. }
  revert s. induction Hl as [|i l Hi _ IH]; intros s Hs; cbn [foldl foldr]; [done|].
  destruct (Hfg i s Hi Hs) as [H1 H2]. destruct (IH _ H1) as [H3 H4]. split; [done|]. by rewrite H4.
Qed.

(** Two loops over the same counters, in step. *)
Lemma for_range_rel {S T} (R : S -> T -> Prop) lo hi (f : Z -> S -> S) (g : Z -> T -> T) s t :
  (forall i s t, lo <= i < hi -> R s t -> R (f i s) (g i t)) -> R s t ->
  R (for_range lo hi f s) (for_range lo hi g t).
Proof.
  intros Hfg. unfold for_range.
  assert (Forall (fun i => lo <= i < hi) (seqZ lo (hi - lo))) as Hl.
  { apply Forall_forall. intros i Hi%list_elem_of_In%elem_of_seqZ. lia. }
  revert s t. induction Hl as [|i l Hi _ IH]; intros s t Hst; cbn [foldl]; [done|]. apply IH. by apply Hfg.
Qed.
Lemma for_down_rel {S T} (R : S -> T -> Prop) lo hi (f : Z -> S -> S) (g : Z -> T -> T) s t :
  (forall i s t, lo <= i < hi -> R s t -> R (f i s) (g i t)) -> R s t ->
  R (for_down lo hi f s) (for_down lo hi g t).
Proof.
  intros Hfg Hst. unfold for_down.
  assert (Forall (fun i => lo <= i < hi) (seqZ lo (hi - lo))) as Hl.
  { apply Forall_forall. intros i Hi%list_elem_of_In%elem_of_seqZ. lia. }
  induction Hl as [|i l Hi _ IH]; cbn [foldr]; [done|]. by apply Hfg.
Qed.

(** Checking a property of every byte, and of every pair of bytes, by evaluation. *)
Lemma all_bytes (P : Z -> bool) : forallb P (seqZ 0 256) = true -> forall b, is_u8 b -> P b = true.
Proof.
  intros H b Hb. rewrite forallb_forall in H. apply H, list_elem_of_In, elem_of_seqZ. unfold is_word in Hb. lia.
Qed.
Lemma all_bytes2 (P : Z -> Z -> bool) :
  forallb (fun a => forallb (P a) (seqZ 0 256)) (seqZ 0 256) = true ->
  forall a b, is_u8 a -> is_u8 b -> P a b = true.
Proof. intros H a b Ha Hb. apply all_bytes; [|done]. by apply (all_bytes _ H a). Qed.

Lemma bytes_check l : forallb (fun b => (0 <=? b) && (b <? 256)) l = true -> bytes l.
Proof.
  rewrite forallb_forall. intros H. apply Forall_forall. intros x Hx%H.
  rewrite andb_true_iff, Z.leb_le, Z.ltb_lt in Hx. exact Hx.
Qed.

(** ** Lists as arrays *)

Lemma getz_lookup {A} (d : A) l i : 0 <= i < zlen l -> l !! Z.to_nat i = Some (getz d l i).
Proof.
  intros Hi. unfold getz.
  destruct (lookup_lt_is_Some_2 l (Z.to_nat i)) as [x Hx]; [lia|].
  rewrite Hx. f_equal. symmetry. by apply nth_lookup_Some.
Qed.
Lemma getz_setz_eq {A} (d : A) l i v : 0 <= i < zlen l -> getz d (setz l i v) i = v.
Proof.
  intros Hi. unfold getz, setz. apply nth_lookup_Some.
  apply list_lookup_insert_eq. lia.
Qed.
Lemma getz_setz_ne {A} (d : A) l i j v :
  0 <= i -> 0 <= j -> i <> j -> getz d (setz l i v) j = getz d l j.
Proof.
  intros. unfold getz, setz. rewrite !nth_lookup.
  by rewrite list_lookup_insert_ne by lia.
Qed.
Lemma length_setz {A} (l : list A) i v : length (setz l i v) = length l.
Proof. apply length_insert. Qed.
Lemma Forall_getz {A} (P : A -> Prop) d l i : P d -> Forall P l -> P (getz d l i).
Proof.
  intros Hd Hl. unfold getz. rewrite nth_lookup.
  destruct (l !! Z.to_nat i) eqn:E; [|done]. cbn.
  by eapply Forall_lookup_1.
Qed.
Lemma Forall_setz {A} (P : A -> Prop) l i v : Forall P l -> P v -> Forall P (setz l i v).
Proof. intros. by apply Forall_insert. Qed.

Lemma length_splice {A} (l src : list A) n :
  (n + length src <= length l)%nat -> length (splice l n src) = length l.
Proof. intros. unfold splice. rewrite !length_app, length_take, length_drop. lia. Qed.
Lemma Forall_splice {A} (P : A -> Prop) l src n :
  Forall P l -> Forall P src -> Forall P (splice l n src).
Proof. intros. unfold splice. repeat apply Forall_app_2; auto using Forall_take, Forall_drop. Qed.
Lemma take_splice {A} (l src : list A) n :
  (n <= length l)%nat -> take (n + length src) (splice l n src) = take n l ++ src.
Proof.
  intros. unfold splice. rewrite app_assoc.
  apply take_app_length'. rewrite length_app, length_take. lia.
Qed.

Lemma getz_app {A} (d : A) l1 l2 i :
  0 <= i -> getz d (l1 ++ l2) i = if i <? zlen l1 then getz d l1 i else getz d l2 (i - zlen l1).
Proof.
  intros. unfold getz. case_bool; [by rewrite app_nth1 by lia|].
  rewrite app_nth2 by lia. f_equal. lia.
Qed.
Lemma getz_take {A} (d : A) l n i : 0 <= i < Z.of_nat n -> getz d (take n l) i = getz d l i.
Proof. intros. unfold getz. rewrite !nth_lookup, lookup_take. by rewrite decide_True by lia. Qed.
Lemma getz_drop {A} (d : A) l n i : 0 <= i -> getz d (drop n l) i = getz d l (i + Z.of_nat n).
Proof. intros. unfold getz. rewrite !nth_lookup, lookup_drop. do 2 f_equal. lia. Qed.
Lemma getz_splice {A} (d : A) l src n i :
  0 <= i -> (n + length src <= length l)%nat ->
  getz d (splice l n src) i =
  if (Z.of_nat n <=? i) && (i <? Z.of_nat n + zlen src) then getz d src (i - Z.of_nat n) else getz d l i.
Proof.
  intros Hi Hl. unfold splice. rewrite getz_app, length_take, Nat.min_l by lia.
  destruct (Z.ltb_spec i (Z.of_nat n)).
  - rewrite (proj2 (Z.leb_gt _ _)) by lia. cbn [andb]. by rewrite getz_take by lia.
  - rewrite getz_app, (proj2 (Z.leb_le _ _)) by lia. cbn [andb].
    destruct (Z.ltb_spec (i - Z.of_nat n) (zlen src)); [by rewrite (proj2 (Z.ltb_lt _ _)) by lia|].
    rewrite (proj2 (Z.ltb_ge i _)), getz_drop by lia. f_equal. lia.
Qed.
Lemma drop_splice {A} (l src : list A) n k :
  (n + length src <= length l)%nat -> length src = k -> take k (drop n (splice l n src)) = src.
Proof.
  intros Hl <-. unfold splice. rewrite drop_app_length' by (rewrite length_take; lia). apply take_app_length.
Qed.
Lemma splice_splice {A} (l a b : list A) n :
  (n + length a <= length l)%nat -> length a = length b -> splice (splice l n a) n b = splice l n b.
Proof.
  intros Hl Hab. unfold splice. rewrite take_app_length' by (rewrite length_take; lia). do 2 f_equal.
  rewrite app_assoc, drop_app_length' by (rewrite length_app, length_take; lia). f_equal. lia.
Qed.
Lemma splice_same {A} (l : list A) n k : (n + k <= length l)%nat -> splice l n (take k (drop n l)) = l.
Proof.
  intros Hl. unfold splice. rewrite length_take, length_drop, Nat.min_l by lia.
  rewrite <- (take_drop n l) at 4. f_equal. rewrite <- (take_drop k (drop n l)) at 2. by rewrite drop_drop.
Qed.
Lemma splice_app_r {A} (p l src : list A) n m :
  n = (length p + m)%nat -> splice (p ++ l) n src = p ++ splice l m src.
Proof.
  intros ->. unfold splice. rewrite take_app_add', <- app_assoc by done. do 3 f_equal.
  by rewrite <- Nat.add_assoc, drop_app_add'.
Qed.
Lemma list_eq_getz {A} (d : A) l1 l2 :
  length l1 = length l2 -> (forall i, 0 <= i < zlen l1 -> getz d l1 i = getz d l2 i) -> l1 = l2.
Proof.
  intros Hl H. apply (nth_ext _ _ d d Hl). intros n Hn. specialize (H (Z.of_nat n) ltac:(lia)).
  unfold getz in H. by rewrite Nat2Z.id in H.
Qed.
Lemma getz_fmap_seqZ {A} (d : A) (f : Z -> A) m n i : 0 <= i < n -> getz d (f <$> seqZ m n) i = f (m + i).
Proof.
  intros. unfold getz. rewrite nth_lookup, list_lookup_fmap.
  rewrite (proj2 (lookup_seqZ m n (Z.to_nat i) (m + i))) by lia. done.
Qed.

(** ** Numbers as byte strings, little and big end first *)

Fixpoint le_val (l : list Z) : Z :=
  match l with [] => 0 | b :: l => b + 256 * le_val l end.
Fixpoint le_bytes (n : nat) (x : Z) : list Z :=
  match n with O => [] | S n => u8 x :: le_bytes n (x .>> 8) end.
Definition be_val (l : list Z) : Z := le_val (rev l).
Definition be_bytes (n : nat) (x : Z) : list Z := rev (le_bytes n x).

Lemma length_le_bytes n x : length (le_bytes n x) = n.
Proof. revert x. induction n; intros; cbn; auto. Qed.
Lemma length_be_bytes n x : length (be_bytes n x) = n.
Proof. unfold be_bytes. by rewrite length_rev, length_le_bytes. Qed.
Lemma le_bytes_bytes n x : bytes (le_bytes n x).
Proof. revert x. induction n; intros; cbn; auto with words. Qed.
Lemma be_bytes_bytes n x : bytes (be_bytes n x).
Proof. apply Forall_rev, le_bytes_bytes. Qed.

Lemma le_val_app l1 l2 : le_val (l1 ++ l2) = le_val l1 + 256 ^ zlen l1 * le_val l2.
Proof.
  induction l1 as [|b l1 IH]; cbn [app le_val length]; [lia|].
  rewrite IH, Nat2Z.inj_succ, Z.pow_succ_r by lia. lia.
Qed.
Lemma le_val_bound l : bytes l -> 0 <= le_val l < 256 ^ zlen l.
Proof.
  induction 1 as [|b l Hb _ IH]; cbn [le_val length]; [done|].
  rewrite Nat2Z.inj_succ, Z.pow_succ_r by lia. unfold is_word in Hb. lia.
Qed.
Lemma le_val_bytes n x : le_val (le_bytes n x) = x mod 256 ^ Z.of_nat n.
Proof.
  revert x. induction n as [|n IH]; intros; cbn [le_bytes le_val].
  - by rewrite Z.mod_1_r.
  - rewrite IH, Nat2Z.inj_succ, Z.pow_succ_r, Z.shiftr_div_pow2 by lia.
    change (2 ^ 8) with 256. unfold u8.
    by rewrite Z.rem_mul_r by (try apply Z.pow_nonzero; lia || (pose proof (Z.pow_pos_nonneg 256 (Z.of_nat n)); lia)).
Qed.
Lemma le_bytes_val l : bytes l -> le_bytes (length l) (le_val l) = l.
Proof.
  induction 1 as [|b l Hb _ IH]; cbn [le_val length le_bytes]; [done|].
  rewrite Z.shiftr_div_pow2 by lia. change (2 ^ 8) with 256.
  f_equal; [unfold u8; dlia || (unfold is_word in Hb; dlia)|].
  rewrite <- IH at 3. f_equal. unfold is_word in Hb. dlia.
Qed.
Lemma le_val_inj l1 l2 :
  bytes l1 -> bytes l2 -> length l1 = length l2 -> le_val l1 = le_val l2 -> l1 = l2.
Proof. intros H1 H2 Hl Hv. by rewrite <- (le_bytes_val l1), Hl, Hv, le_bytes_val. Qed.

Lemma le_bytes_lookup n x i :
  (i < n)%nat -> le_bytes n x !! i = Some (u8 (x .>> (8 * Z.of_nat i))).
Proof.
  revert x i. induction n as [|n IH]; intros x i Hi; [lia|].
  destruct i as [|i]; cbn [le_bytes lookup list_lookup].
  - by rewrite Z.shiftr_0_r.
  - rewrite IH by lia. rewrite Z.shiftr_shiftr by lia. do 3 f_equal. lia.
Qed.

Lemma be_val_bytes n x : be_val (be_bytes n x) = x mod 256 ^ Z.of_nat n.
Proof. unfold be_val, be_bytes. by rewrite rev_involutive, le_val_bytes. Qed.
Lemma be_bytes_val l : bytes l -> be_bytes (length l) (be_val l) = l.
Proof.
  intros. unfold be_val, be_bytes. rewrite <- (length_rev l).
  rewrite le_bytes_val by by apply Forall_rev. apply rev_involutive.
Qed.
Lemma be_val_bound l : bytes l -> 0 <= be_val l < 256 ^ zlen l.
Proof. intros. unfold be_val. rewrite <- (length_rev l). by apply le_val_bound, Forall_rev. Qed.
Lemma be_val_inj l1 l2 :
  bytes l1 -> bytes l2 -> length l1 = length l2 -> be_val l1 = be_val l2 -> l1 = l2.
Proof. intros H1 H2 Hl Hv. by rewrite <- (be_bytes_val l1), Hl, Hv, be_bytes_val. Qed.

(** ** Single bits *)

Lemma land_pow2_test x b : 0 <= b -> (x .& (1 .<< b) =? 0) = negb (Z.testbit x b).
Proof.
  intros Hb. rewrite Z.shiftl_1_l. destruct (Z.testbit x b) eqn:E; cbn [negb].
  - apply Z.eqb_neq. intros H. apply (f_equal (fun y => Z.testbit y b)) in H.
    rewrite Z.land_spec, Z.pow2_bits_true, E, Z.testbit_0_l in H by done. done.
  - apply Z.eqb_eq. bits. rewrite Z.land_spec, Z.pow2_bits_eqb, Z.testbit_0_l by done.
    destruct (Z.eqb_spec b n); [subst; by rewrite E|apply andb_false_r].
Qed.
Lemma testbit_set x b n : 0 <= b -> 0 <= n -> Z.testbit (x .| (1 .<< b)) n = (n =? b) || Z.testbit x n.
Proof.
  intros Hb Hn. rewrite Z.shiftl_1_l, Z.lor_spec, Z.pow2_bits_eqb by done.
  rewrite (Z.eqb_sym b n). apply orb_comm.
Qed.
Lemma testbit_u32 x n : 0 <= n -> Z.testbit (u32 x) n = (n <? 32) && Z.testbit x n.
Proof.
  intros Hn. unfold u32. change 4294967296 with (2 ^ 32). case_bool; cbn.
  - by apply Z.mod_pow2_bits_low.
  - by apply Z.mod_pow2_bits_high.
Qed.
Lemma testbit_u64 x n : 0 <= n -> Z.testbit (u64 x) n = (n <? 64) && Z.testbit x n.
Proof.
  intros Hn. unfold u64. change 18446744073709551616 with (2 ^ 64). case_bool; cbn.
  - by apply Z.mod_pow2_bits_low.
  - by apply Z.mod_pow2_bits_high.
Qed.
Lemma testbit_clear32 x b n :
  0 <= b -> 0 <= n < 32 -> Z.testbit (x .& u32 (Z.lnot (1 .<< b))) n = negb (n =? b) && Z.testbit x n.
Proof.
  intros Hb Hn. rewrite Z.land_spec, testbit_u32, Z.lnot_spec by lia.
  rewrite Z.shiftl_1_l, Z.pow2_bits_eqb by done. rewrite (Z.eqb_sym b n).
  rewrite (proj2 (Z.ltb_lt n 32)) by lia. apply andb_comm.
Qed.
(** [x & ~(2^k - 1)] on 64 bit words. *)
Lemma mask_down x k : 0 <= k < 64 -> is_u64 x -> x .& u64 (Z.lnot (2 ^ k - 1)) = x / 2 ^ k * 2 ^ k.
Proof.
  intros Hk Hx. rewrite <- Z.shiftl_mul_pow2, <- Z.shiftr_div_pow2 by lia. bits.
  rewrite Z.land_spec, testbit_u64, Z.lnot_spec, Z.shiftl_spec by lia.
  replace (2 ^ k - 1) with (Z.ones k) by (rewrite Z.ones_equiv; lia).
  destruct (Z.ltb_spec n 64).
  - rewrite Z.testbit_ones_nonneg by lia. case_bool; cbn.
    + rewrite andb_false_r, Z.testbit_neg_r by lia. done.
    + rewrite andb_true_r, Z.shiftr_spec by lia. f_equal. lia.
  - cbn. rewrite andb_false_r. symmetry. rewrite Z.shiftr_spec by lia.
    apply (is_word_testbit 64); [lia|done|lia].
Qed.

(** How many of 0 .. n-1 satisfy a test. *)
Fixpoint cnt (P : Z -> bool) (n : nat) : Z :=
  match n with O => 0 | S n => cnt P n + (if P (Z.of_nat n) then 1 else 0) end.
Lemma cnt_bounds P n : 0 <= cnt P n <= Z.of_nat n.
Proof. induction n as [|n IH]; cbn [cnt]; [lia|]. destruct (P _); lia. Qed.
Lemma cnt_ext P Q n : (forall i, 0 <= i < Z.of_nat n -> P i = Q i) -> cnt P n = cnt Q n.
Proof.
  induction n as [|n IH]; cbn [cnt]; intros H; [done|].
  rewrite IH by (intros; apply H; lia). by rewrite H by lia.
Qed.
Lemma cnt_update P Q n f :
  0 <= f < Z.of_nat n -> (forall i, 0 <= i < Z.of_nat n -> i <> f -> Q i = P i) ->
  cnt Q n = cnt P n - (if P f then 1 else 0) + (if Q f then 1 else 0).
Proof.
  induction n as [|n IH]; cbn [cnt]; intros Hf H; [lia|].
  destruct (decide (f = Z.of_nat n)) as [->|].
  - rewrite (cnt_ext Q P) by (intros; apply H; lia). lia.
  - rewrite IH by first [lia | intros; apply H; lia]. rewrite (H (Z.of_nat n)) by lia. lia.
Qed.
Lemma cnt_all P n : (forall i, 0 <= i < Z.of_nat n -> P i = true) -> cnt P n = Z.of_nat n.
Proof.
  induction n as [|n IH]; cbn [cnt]; intros H; [done|].
  rewrite IH by (intros; apply H; lia). rewrite H by lia. lia.
Qed.
Lemma cnt_none P n : (forall i, 0 <= i < Z.of_nat n -> P i = false) -> cnt P n = 0.
Proof.
  induction n as [|n IH]; cbn [cnt]; intros H; [done|].
  rewrite IH by (intros; apply H; lia). rewrite H by lia. lia.
Qed.
Lemma cnt_pos P n f : 0 <= f < Z.of_nat n -> P f = true -> 0 < cnt P n.
Proof.
  intros Hf HP. destruct (decide (0 < cnt P n)); [done|]. exfalso.
  pose proof (cnt_update P (fun i => if i =? f then false else P i) n f Hf) as H.
  rewrite HP, Z.eqb_refl in H. pose proof (cnt_bounds (fun i => if i =? f then false else P i) n).
  rewrite H in *; [lia|]. intros i Hi Hn. by rewrite (proj2 (Z.eqb_neq i f)).
Qed.

(** ** Bits of sums and of byte strings *)

(** Two numbers whose bits do not meet. *)
Lemma land_shiftl_zero a b k : 0 <= k -> is_word k a -> a .& (b .<< k) = 0.
Proof.
  intros Hk Ha. bits. rewrite Z.land_spec, Z.testbit_0_l, Z.shiftl_spec by done.
  destruct (Z.ltb_spec n k); [rewrite (Z.testbit_neg_r b) by lia; apply andb_false_r|].
  rewrite (is_word_testbit k a n) by done. done.
Qed.
Lemma lor_shiftl_add a b k : 0 <= k -> is_word k a -> a .| (b .<< k) = a + b * 2 ^ k.
Proof.
  intros Hk Ha. rewrite <- Z.shiftl_mul_pow2 by done.
  pose proof (land_shiftl_zero a b k Hk Ha). rewrite <- Z.lxor_lor by done. symmetry. by apply Z.add_nocarry_lxor.
Qed.
Lemma testbit_add_shift a b k n :
  0 <= k -> 0 <= n -> is_word k a -> Z.testbit (a + b * 2 ^ k) n = if n <? k then Z.testbit a n else Z.testbit b (n - k).
Proof.
  intros Hk Hn Ha. rewrite <- lor_shiftl_add by done. rewrite Z.lor_spec, Z.shiftl_spec by done. case_bool.
  - rewrite (Z.testbit_neg_r b) by lia. apply orb_false_r.
  - by rewrite (is_word_testbit k a n) by done.
Qed.

Lemma le_val_testbit l n : bytes l -> 0 <= n -> Z.testbit (le_val l) n = Z.testbit l.[n / 8] (n mod 8).
Proof.
  intros Hl. revert n. induction Hl as [|b l Hb _ IH]; intros n Hn; cbn [le_val].
  - unfold getz. destruct (Z.to_nat _); cbn; by rewrite !Z.testbit_0_l.
  - rewrite Z.mul_comm. change 256 with (2 ^ 8). rewrite testbit_add_shift by done.
    destruct (Z.ltb_spec n 8).
    + rewrite Z.div_small, Z.mod_small by lia. done.
    + rewrite IH by lia. replace ((n - 8) / 8) with (n / 8 - 1) by dlia.
      replace ((n - 8) mod 8) with (n mod 8) by dlia. unfold getz.
      replace (Z.to_nat (n / 8)) with (S (Z.to_nat (n / 8 - 1))) by dlia. done.
Qed.
Lemma getz_rev l i : 0 <= i < zlen l -> (rev l).[i] = l.[zlen l - 1 - i].
Proof. intros. unfold getz. rewrite rev_nth by lia. f_equal. lia. Qed.
Lemma be_val_testbit l n :
  bytes l -> 0 <= n < 8 * zlen l -> Z.testbit (be_val l) n = Z.testbit l.[zlen l - 1 - n / 8] (n mod 8).
Proof.
  intros Hl Hn. unfold be_val. rewrite le_val_testbit by (by apply Forall_rev || lia). by rewrite getz_rev by dlia.
Qed.
Lemma be_val_cons b l : be_val (b :: l) = b * 256 ^ zlen l + be_val l.
Proof. unfold be_val. cbn [rev]. rewrite le_val_app, length_rev. cbn [le_val]. lia. Qed.
Lemma be_val_app l1 l2 : be_val (l1 ++ l2) = be_val l1 * 256 ^ zlen l2 + be_val l2.
Proof. unfold be_val. rewrite rev_app_distr, le_val_app, length_rev. lia. Qed.
Lemma le_val_lxor a b : length a = length b -> bytes a -> bytes b ->
  le_val (zip_with Z.lxor a b) = le_val a .^ le_val b.
Proof.
  intros Hl Ha. revert b Hl. induction Ha as [|x a Hx Ha IH]; intros b Hl Hb; destruct Hb as [|y b Hy Hb];
    cbn [zip_with le_val length] in *; try done.
  rewrite IH by (done || lia). rewrite !(Z.mul_comm 256). change 256 with (2 ^ 8). bits.
  rewrite Z.lxor_spec, !testbit_add_shift, Z.lxor_spec by (done || by apply is_word_lxor).
  case_bool; by rewrite ?Z.lxor_spec.
Qed.
Lemma rev_zip_with {A} (f : A -> A -> A) a b : length a = length b -> rev (zip_with f a b) = zip_with f (rev a) (rev b).
Proof.
  revert b. induction a as [|x a IH]; intros [|y b] H; cbn [length] in *; try done.
  cbn [zip_with rev]. rewrite IH by lia. rewrite zip_with_app by (rewrite !length_rev; lia). done.
Qed.
Lemma be_val_lxor a b : length a = length b -> bytes a -> bytes b ->
  be_val (zip_with Z.lxor a b) = be_val a .^ be_val b.
Proof.
  intros Hl Ha Hb. unfold be_val. rewrite rev_zip_with by done. apply le_val_lxor; [by rewrite !length_rev|by apply Forall_rev..].
Qed.
