(* ===== verification/Divide.v ===== *)
(** The 64 bit division helpers of kernel/divide.c: restoring long division a
    bit at a time, and the signed forms built on it. *)
From S2P Require Import Prelude.

(** The state of the loop of [udivmod64]: the quotient and remainder so far. *)
Record qr := QR { q_of : Z; r_of : Z }.

(** One turn of [for (int i = 63; i >= 0; i--)]. *)
Definition udivmod_step (n d i : Z) (s : qr) : qr :=
  let r := u64 (r_of s .<< 1) .| ((n .>> i) .& 1) in
  if d <=? r then QR (q_of s .| u64 (1 .<< i)) (u64 (r - d)) else QR (q_of s) r.

Definition udivmod64 (n d : Z) : qr :=
  if d =? 0 then QR 0 0 else for_down 0 64 (udivmod_step n d) (QR 0 0).

Definition udivdi3 (a b : Z) : Z := q_of (udivmod64 a b).
Definition umoddi3 (a b : Z) : Z := r_of (udivmod64 a b).

(** [(u64)(-a)] for a negative a, [(u64)a] otherwise. *)
Definition magnitude (a : Z) : Z := if a <? 0 then u64 (- a) else u64 a.

Definition divdi3 (a b : Z) : Z :=
  let neg := xorb (a <? 0) (b <? 0) in
  let q := q_of (udivmod64 (magnitude a) (magnitude b)) in
  if neg then i64 (- i64 q) else i64 q.

Definition moddi3 (a b : Z) : Z :=
  let r := r_of (udivmod64 (magnitude a) (magnitude b)) in
  if a <? 0 then i64 (- i64 r) else i64 r.

(** ** Correctness *)

Lemma shiftr_step n i : 0 <= i -> n .>> i = 2 * (n .>> (i + 1)) + (n .>> i) .& 1.
Proof.
  intros Hi. rewrite <- Z.shiftr_shiftr by lia.
  rewrite (Z.shiftr_div_pow2 _ 1) by lia.
  rewrite land_1. dlia.
Qed.

Lemma lor_double_bit r b : 0 <= b <= 1 -> (2 * r) .| b = 2 * r + b.
Proof.
  intros. assert (b = 0 \/ b = 1) as [->| ->] by lia.
  - rewrite Z.lor_0_r. lia.
  - by destruct r as [|p|[p|p|]].
Qed.

Lemma lor_pow2_add q i : 0 <= i -> (q .<< (i + 1)) .| (1 .<< i) = (2 * q + 1) .<< i.
Proof.
  intros.
  replace (q .<< (i + 1)) with ((q .<< 1) .<< i) by (rewrite Z.shiftl_shiftl by lia; f_equal; lia).
  rewrite <- Z.shiftl_lor. f_equal. rewrite Z.shiftl_mul_pow2 by lia.
  change (2 ^ 1) with 2. rewrite (Z.mul_comm q 2). by apply lor_double_bit.
Qed.

(** What the loop keeps: with the bits above [i] consumed, the remainder and the
    quotient (shifted up) of the part of n read so far. *)
Definition div_inv (n d i : Z) (s : qr) : Prop :=
  r_of s = (n .>> i) mod d /\ q_of s = ((n .>> i) / d) .<< i.

Lemma div_inv_step n d i s :
  is_u64 n -> is_u64 d -> d <> 0 -> 0 <= i < 64 ->
  div_inv n d (i + 1) s -> div_inv n d i (udivmod_step n d i s).
Proof.
  intros Hn Hd Hd0 Hi [Hr Hq]. unfold div_inv, udivmod_step. rewrite Hr, Hq. clear Hr Hq.
  pose proof (shiftr_step n i ltac:(lia)) as Hs.
  set (N := n .>> (i + 1)) in *. set (b := (n .>> i) .& 1) in *.
  assert (0 <= b <= 1) as Hb.
  { subst b. rewrite land_1. dlia. }
  assert (0 <= N < 2 ^ 63) as HN.
  { subst N. rewrite Z.shiftr_div_pow2 by lia. unfold is_word in Hn.
    pose proof (Z.pow_le_mono_r 2 1 (i + 1) ltac:(lia) ltac:(lia)) as Hp.
    split; [apply Z.div_pos; lia|]. apply Z.div_lt_upper_bound; [lia|].
    apply Z.lt_le_trans with (2 ^ 1 * 2 ^ 63); [lia|]. apply Z.mul_le_mono_nonneg_r; lia. }
  pose proof (Z.mod_pos_bound N d ltac:(unfold is_word in Hd; lia)) as Hm.
  pose proof (Z.mod_le N d ltac:(lia) ltac:(unfold is_word in Hd; lia)) as Hm'.
  rewrite (u64_id ((N mod d) .<< 1)), (u64_id (1 .<< i)).
  2:{ rewrite Z.shiftl_1_l. pose proof (Z.pow_lt_mono_r 2 i 64). split; lia. }
  2:{ rewrite Z.shiftl_mul_pow2 by lia. unfold is_word. lia. }
  rewrite Z.shiftl_mul_pow2, Z.mul_comm, lor_double_bit by lia. rewrite Hs.
  pose proof (Z.div_mod N d Hd0) as HD. unfold is_word in Hd.
  case_bool; cbn [r_of q_of].
  - rewrite u64_id by (unfold is_word; lia). rewrite lor_pow2_add by lia. split.
    + apply (Z.mod_unique_pos _ _ (2 * (N / d) + 1)); lia.
    + f_equal. apply (Z.div_unique_pos _ _ _ (2 * (N mod d) + b - d)); lia.
  - split.
    + apply (Z.mod_unique_pos _ _ (2 * (N / d))); lia.
    + rewrite Z.add_comm, <- Z.shiftl_shiftl by lia. f_equal.
      rewrite Z.shiftl_mul_pow2 by lia.
      apply (Z.div_unique_pos _ _ _ (2 * (N mod d) + b)); lia.
Qed.

Lemma udivmod64_spec n d :
  is_u64 n -> is_u64 d -> udivmod64 n d = if d =? 0 then QR 0 0 else QR (n / d) (n mod d).
Proof.
  intros Hn Hd. unfold udivmod64. case_bool; [done|].
  assert (div_inv n d 0 (for_down 0 64 (udivmod_step n d) (QR 0 0))) as [Hr Hq].
  { apply for_down_inv; [lia| |intros; by apply div_inv_step].
    unfold div_inv; cbn. rewrite Z.shiftr_div_pow2 by lia.
    rewrite (Z.div_small n) by exact Hn. by rewrite Z.mod_0_l, Z.div_0_l. }
  rewrite Z.shiftr_0_r in *. rewrite Z.shiftl_0_r in Hq.
  destruct (for_down _ _ _ _); cbn in *. congruence.
Qed.

Lemma magnitude_abs a : - 2 ^ 63 <= a < 2 ^ 63 -> magnitude a = Z.abs a.
Proof. intros. unfold magnitude. case_bool; word_lia. Qed.

Lemma i64_id a : - 2 ^ 63 <= a < 2 ^ 63 -> i64 a = a.
Proof. intros. unfold i64. dlia. Qed.

Lemma magnitude_is_word a : is_u64 (magnitude a).
Proof. unfold magnitude. case_bool; auto with words. Qed.

Lemma quot_signs a b : b <> 0 ->
  Z.quot a b = if xorb (a <? 0) (b <? 0) then - (Z.abs a / Z.abs b) else Z.abs a / Z.abs b.
Proof.
  intros Hb. rewrite Z.quot_div by done.
  destruct (Z.ltb_spec a 0), (Z.ltb_spec b 0); cbn [xorb];
    rewrite ?(Z.sgn_neg a), ?(Z.sgn_neg b), ?(Z.sgn_pos b) by lia; try lia;
    (destruct (decide (a = 0)) as [->|]; [by rewrite ?Z.div_0_l by lia|]);
    rewrite ?(Z.sgn_pos a) by lia; lia.
Qed.

(** For a nonzero divisor the unsigned helpers return the quotient and
    the remainder, the signed ones the quotient rounded toward zero and the
    remainder of the dividend's sign, for every pair of 64 bit operands whose
    quotient is representable; a zero divisor gives zero. *)
Theorem division_helpers_correct n d a b :
  is_u64 n -> is_u64 d ->
  - 2 ^ 63 <= a < 2 ^ 63 -> - 2 ^ 63 <= b < 2 ^ 63 -> b <> 0 -> ~ (a = - 2 ^ 63 /\ b = -1) ->
  udivdi3 n d = (if d =? 0 then 0 else n / d) /\
  umoddi3 n d = (if d =? 0 then 0 else n mod d) /\
  divdi3 a b = Z.quot a b /\ moddi3 a b = Z.rem a b.
Proof.
  intros Hn Hd Ha Hb Hb0 Hov. unfold udivdi3, umoddi3, divdi3, moddi3.
  rewrite !udivmod64_spec by auto using magnitude_is_word.
  rewrite !magnitude_abs by done. rewrite (proj2 (Z.eqb_neq (Z.abs b) 0)) by lia.
  split; [by case_bool|]. split; [by case_bool|]. cbn [q_of r_of].
  pose proof (Z.mod_pos_bound (Z.abs a) (Z.abs b) ltac:(lia)).
  pose proof (Z.div_pos (Z.abs a) (Z.abs b) ltac:(lia) ltac:(lia)).
  pose proof (Z.div_mod (Z.abs a) (Z.abs b) ltac:(lia)).
  assert (Z.abs a / Z.abs b <= Z.abs a) by nia.
  assert (Z.abs a / Z.abs b = 2 ^ 63 -> Z.abs a = 2 ^ 63 /\ Z.abs b = 1) by nia.
  split.
  - rewrite quot_signs by done.
    destruct (Z.ltb_spec a 0), (Z.ltb_spec b 0); cbn [xorb]; unfold i64; dlia.
  - rewrite Z.rem_mod by done.
    destruct (Z.ltb_spec a 0); [rewrite Z.sgn_neg by lia; unfold i64; dlia|].
    rewrite i64_id by lia. destruct (decide (a = 0)) as [->|]; [by rewrite Z.mod_0_l by lia|].
    rewrite Z.sgn_pos by lia. lia.
Qed.

Lemma division_helpers_correct_witness :
  udivdi3 1000 7 = 142 /\ umoddi3 1000 7 = 6 /\ divdi3 (-17) 5 = -3 /\ moddi3 (-17) 5 = -2.
Proof. apply (division_helpers_correct 1000 7 (-17) 5); unfold is_word; lia. Defined.
