(* ===== verification/Memory.v ===== *)
(** kernel/string.c: the memory and string routines every other part calls,
    over a byte addressed memory, with the eight byte steps they take.

    A memory gives every address its byte. [load64] and [store64] are the word
    accesses of the code (little end first). Addresses do not wrap: a C object
    does not run past the end of the address space. *)
From S2P Require Import Prelude.

Abbreviation mem := (Z -> Z).

(** Every address holds a byte. *)
Definition mem_ok (m : mem) : Prop := forall x, is_u8 (m x).
(** Two memories with the same bytes. *)
Definition meq : relation mem := pointwise_relation Z eq.
Infix "≃" := meq (at level 70).

Definition store (a v : Z) (m : mem) : mem := fun x => if x =? a then v else m x.
(** The [n] bytes at [a]. *)
Definition load (m : mem) (a : Z) (n : nat) : list Z := (fun i => m (a + i)) <$> seqZ 0 (Z.of_nat n).
(** The bytes of [l] stored from [a] on. *)
Fixpoint store_bytes (a : Z) (l : list Z) (m : mem) : mem :=
  match l with [] => m | b :: l => store_bytes (a + 1) l (store a b m) end.
Definition load64 (m : mem) (a : Z) : Z := le_val (load m a 8).
Definition store64 (a v : Z) (m : mem) : mem := store_bytes a (le_bytes 8 v) m.

(** ** memset *)

(** [while (n && ((u64)p & 7)) { *p++ = b; n--; }] *)
Fixpoint memset_head (n : nat) (p b : Z) (m : mem) : nat * Z * mem :=
  match n with
  | O => (O, p, m)
  | S n' => if p .& 7 =? 0 then (n, p, m) else memset_head n' (p + 1) b (store p b m)
  end.
(** [while (n >= 8) { *q++ = wide; n -= 8; }] *)
Fixpoint memset_words (n : nat) (q wide : Z) (m : mem) : nat * Z * mem :=
  match n with
  | S (S (S (S (S (S (S (S n'))))))) => memset_words n' (q + 8) wide (store64 q wide m)
  | _ => (n, q, m)
  end.
(** [while (n--) *p++ = b;] *)
Fixpoint memset_tail (n : nat) (p b : Z) (m : mem) : mem :=
  match n with O => m | S n => memset_tail n (p + 1) b (store p b m) end.

Definition memset (d c : Z) (n : nat) (m : mem) : mem :=
  let b := u8 c in
  let '(n, p, m) := memset_head n d b m in
  let wide := u64 (0x0101010101010101 * b) in
  let '(n, p, m) := memset_words n p wide m in
  memset_tail n p b m.

(** ** memcpy and memmove *)

Fixpoint memcpy_head (n : nat) (dp sp : Z) (m : mem) : nat * Z * Z * mem :=
  match n with
  | O => (O, dp, sp, m)
  | S n' => if dp .& 7 =? 0 then (n, dp, sp, m)
            else memcpy_head n' (dp + 1) (sp + 1) (store dp (m sp) m)
  end.
Fixpoint memcpy_words (n : nat) (dw sw : Z) (m : mem) : nat * Z * Z * mem :=
  match n with
  | S (S (S (S (S (S (S (S n'))))))) =>
      memcpy_words n' (dw + 8) (sw + 8) (store64 dw (load64 m sw) m)
  | _ => (n, dw, sw, m)
  end.
Fixpoint memcpy_tail (n : nat) (dp sp : Z) (m : mem) : mem :=
  match n with O => m | S n => memcpy_tail n (dp + 1) (sp + 1) (store dp (m sp) m) end.

Definition memcpy (d s : Z) (n : nat) (m : mem) : mem :=
  let '(n, dp, sp, m) := memcpy_head n d s m in
  let '(n, dp, sp, m) := memcpy_words n dp sp m in
  memcpy_tail n dp sp m.

(** [while (n--) *--dp = *--sp;] *)
Fixpoint memmove_back (n : nat) (dp sp : Z) (m : mem) : mem :=
  match n with O => m | S n => memmove_back n (dp - 1) (sp - 1) (store (dp - 1) (m (sp - 1)) m) end.

Definition memmove (d s : Z) (n : nat) (m : mem) : mem :=
  if (Z.of_nat n =? 0) || (d =? s) then m
  else if (d <? s) || (s + Z.of_nat n <=? d) then memcpy d s n m
  else memmove_back n (d + Z.of_nat n) (s + Z.of_nat n) m.

(** ** memcmp *)

(** The byte loop at the head, up to an eight byte boundary: an answer, or the
    rest of the comparison. *)
Fixpoint memcmp_head (n : nat) (x y : Z) (m : mem) : Z + nat * Z * Z :=
  match n with
  | O => inr (O, x, y)
  | S n' => if x .& 7 =? 0 then inr (n, x, y)
            else if m x =? m y then memcmp_head n' (x + 1) (y + 1) m else inl (m x - m y)
  end.
Fixpoint memcmp_words (n : nat) (x y : Z) (m : mem) : nat * Z * Z :=
  match n with
  | S (S (S (S (S (S (S (S n'))))))) =>
      if load64 m x =? load64 m y then memcmp_words n' (x + 8) (y + 8) m else (n, x, y)
  | _ => (n, x, y)
  end.
Fixpoint memcmp_tail (n : nat) (x y : Z) (m : mem) : Z :=
  match n with
  | O => 0
  | S n => if m x =? m y then memcmp_tail n (x + 1) (y + 1) m else m x - m y
  end.

Definition memcmp (a b : Z) (n : nat) (m : mem) : Z :=
  if (8 <=? Z.of_nat n) && ((a .^ b) .& 7 =? 0) then
    match memcmp_head n a b m with
    | inl r => r
    | inr (n, x, y) => let '(n, x, y) := memcmp_words n x y m in memcmp_tail n x y m
    end
  else memcmp_tail n a b m.

(** ** Strings: memory up to a zero byte

    The loops run until a zero byte; the first argument bounds them. *)

Fixpoint strlen_from (fuel : nat) (s n : Z) (m : mem) : option Z :=
  match fuel with
  | O => None
  | S fuel => if m (s + n) =? 0 then Some n else strlen_from fuel s (n + 1) m
  end.
Definition strlen (fuel : nat) (s : Z) (m : mem) : option Z := strlen_from fuel s 0 m.

Fixpoint strcmp (fuel : nat) (a b : Z) (m : mem) : option Z :=
  match fuel with
  | O => None
  | S fuel => if negb (m a =? 0) && (m a =? m b) then strcmp fuel (a + 1) (b + 1) m
              else Some (u8 (m a) - u8 (m b))
  end.

Fixpoint strncmp (a b : Z) (n : nat) (m : mem) : Z :=
  match n with
  | O => 0
  | S n => if negb (m a =? 0) && (m a =? m b) then strncmp (a + 1) (b + 1) n m
           else u8 (m a) - u8 (m b)
  end.

Fixpoint strcpy (fuel : nat) (d s : Z) (m : mem) : option mem :=
  match fuel with
  | O => None
  | S fuel => let m' := store d (m s) m in
              if m s =? 0 then Some m' else strcpy fuel (d + 1) (s + 1) m'
  end.

(** The second loop of strncpy: the rest of the field zeroed. *)
Fixpoint strncpy_fill (d : Z) (n : nat) (m : mem) : mem :=
  match n with O => m | S n => strncpy_fill (d + 1) n (store d 0 m) end.
Fixpoint strncpy (d s : Z) (n : nat) (m : mem) : mem :=
  match n with
  | O => m
  | S n' => if m s =? 0 then strncpy_fill d n m else strncpy (d + 1) (s + 1) n' (store d (m s) m)
  end.

(** The address of the first [c], 0 for none. *)
Fixpoint strchr (fuel : nat) (s c : Z) (m : mem) : option Z :=
  match fuel with
  | O => None
  | S fuel => if m s =? 0 then Some (if c =? 0 then s else 0)
              else if m s =? u8 c then Some s else strchr fuel (s + 1) c m
  end.

(** ** Equality of memories *)

#[export] Instance meq_equivalence : Equivalence meq.
Proof. unfold meq. apply _. Qed.
#[export] Instance store_proper : Proper (eq ==> eq ==> meq ==> meq) store.
Proof. intros a ? <- v ? <- m1 m2 H x. unfold store. by rewrite H. Qed.
#[export] Instance load_proper : Proper (meq ==> eq ==> eq ==> eq) load.
Proof.
  intros m1 m2 H a ? <- n ? <-. unfold load. apply list_fmap_ext. intros. apply H.
Qed.
#[export] Instance load64_proper : Proper (meq ==> eq ==> eq) load64.
Proof. intros m1 m2 H a ? <-. unfold load64. f_equal. by apply load_proper. Qed.
#[export] Instance store_bytes_proper : Proper (eq ==> eq ==> meq ==> meq) store_bytes.
Proof.
  intros a ? <- l ? <-. revert a. induction l as [|b l IH]; intros a m1 m2 H; cbn; [done|].
  apply IH. by apply store_proper.
Qed.
#[export] Instance store64_proper : Proper (eq ==> eq ==> meq ==> meq) store64.
Proof. intros a ? <- v ? <- m1 m2 H. by apply store_bytes_proper. Qed.

(** Whether [x] is one of the [n] addresses from [d]. *)
Definition inside (d n x : Z) : bool := (d <=? x) && (x <? d + n).
Lemma inside_spec d n x : reflect (d <= x < d + n) (inside d n x).
Proof.
  apply iff_reflect. unfold inside. lia.
Qed.
Ltac case_inside :=
  repeat match goal with |- context [inside ?d ?n ?x] => destruct (inside_spec d n x); try lia end.

Lemma store_bytes_spec a l m x :
  store_bytes a l m x = if inside a (zlen l) x then l.[x - a] else m x.
Proof.
  revert a m. induction l as [|b l IH]; intros a m; cbn [store_bytes length].
  - by case_inside.
  - rewrite IH. unfold store. case_inside; try case_bool; try lia; try done.
    + unfold getz. replace (Z.to_nat (x - a)) with (S (Z.to_nat (x - (a + 1)))) by lia. done.
    + subst. by rewrite Z.sub_diag.
Qed.

Lemma load_getz m a n i : 0 <= i < Z.of_nat n -> (load m a n).[i] = m (a + i).
Proof.
  intros Hi. unfold load, getz. rewrite nth_lookup, list_lookup_fmap.
  rewrite lookup_seqZ_lt by lia. cbn. f_equal. lia.
Qed.
Lemma length_load m a n : length (load m a n) = n.
Proof. unfold load. rewrite length_fmap, length_seqZ. lia. Qed.
Lemma load_bytes m a n : mem_ok m -> bytes (load m a n).
Proof. intros H. apply Forall_fmap, Forall_true. intros. apply H. Qed.

(** ** Copying *)

(** The memory a copy should leave: the bytes at [s] now also at [d]. *)
Definition copied (d s n : Z) (m : mem) : mem :=
  fun x => if inside d n x then m (s + (x - d)) else m x.
(** The memory a fill should leave. *)
Definition filled (d b n : Z) (m : mem) : mem := fun x => if inside d n x then b else m x.

Lemma store64_load64 d s m m' :
  mem_ok m' -> store64 d (load64 m' s) m ≃ fun x => if inside d 8 x then m' (s + (x - d)) else m x.
Proof.
  intros H x. unfold store64, load64. pose proof (length_load m' s 8) as Hl.
  rewrite <- Hl at 1. rewrite le_bytes_val by by apply load_bytes.
  rewrite store_bytes_spec, Hl. change (Z.of_nat 8) with 8. destruct (inside_spec d 8 x); [|done].
  by rewrite load_getz by lia.
Qed.

Section Copy.
Context (m0 : mem) (d s N : Z) (Hok : mem_ok m0).
(** A forward copy reads nothing it has already overwritten. *)
Context (Hsafe : d <= s \/ s + N <= d).

Let Done (k : Z) (m : mem) : Prop := m ≃ copied d s k m0.

Lemma copied_store k m :
  0 <= k < N -> Done k m -> Done (k + 1) (store (d + k) (m (s + k)) m).
Proof.
  intros Hk H x. repeat red in H. unfold store. cbv beta. rewrite !H. unfold copied.
  case_bool; case_inside; try done; f_equal; lia.
Qed.
Lemma copied_store64 k m :
  0 <= k -> k + 8 <= N -> Done k m -> Done (k + 8) (store64 (d + k) (load64 m (s + k)) m).
Proof.
  intros Hk Hk' H. unfold Done in *. setoid_rewrite H. intros x.
  rewrite store64_load64 by (intros y; unfold copied; case_inside; apply Hok).
  unfold copied. case_inside; f_equal; lia.
Qed.

(** What each of the three loops leaves: the copy carried on by as many bytes as
    the counter went down. *)
Lemma memcpy_head_spec n k m :
  0 <= k -> k + Z.of_nat n <= N -> Done k m ->
  exists n' k' m', memcpy_head n (d + k) (s + k) m = (n', d + k', s + k', m') /\
    k' + Z.of_nat n' = k + Z.of_nat n /\ 0 <= k' /\ Done k' m'.
Proof.
  revert k m. induction n as [|n IH]; intros k m Hk HN H; cbn [memcpy_head].
  - by exists O, k, m.
  - case_bool; [by exists (S n), k, m|].
    rewrite <- !Z.add_assoc.
    destruct (IH (k + 1) (store (d + k) (m (s + k)) m)) as (n' & k' & m' & E & ? & ? & ?);
      [lia|lia|apply copied_store; [lia|done]|].
    exists n', k', m'. rewrite E. split; [done|]. split; [lia|done].
Qed.

Lemma memcpy_words_spec n k m :
  0 <= k -> k + Z.of_nat n <= N -> Done k m ->
  exists n' k' m', memcpy_words n (d + k) (s + k) m = (n', d + k', s + k', m') /\
    k' + Z.of_nat n' = k + Z.of_nat n /\ 0 <= k' /\ Done k' m'.
Proof.
  revert k m. induction (lt_wf n) as [n _ IH]; intros k m Hk HN H.
  destruct (decide (n < 8)%nat) as [Hn|Hn].
  { do 8 (destruct n as [|n]; [by eexists _, k, m|]). lia. }
  do 8 (destruct n as [|n]; [lia|]). clear Hn. cbn [memcpy_words].
  rewrite <- !Z.add_assoc.
  destruct (IH n ltac:(lia) (k + 8) (store64 (d + k) (load64 m (s + k)) m))
    as (n' & k' & m' & E & ? & ? & ?); [lia|lia|apply copied_store64; [lia|lia|done]|].
  exists n', k', m'. rewrite E. split; [done|]. split; [lia|done].
Qed.

Lemma memcpy_tail_spec n k m :
  0 <= k -> k + Z.of_nat n <= N -> Done k m ->
  Done (k + Z.of_nat n) (memcpy_tail n (d + k) (s + k) m).
Proof.
  revert k m. induction n as [|n IH]; intros k m Hk HN H; cbn [memcpy_tail].
  - by rewrite Z.add_0_r.
  - replace (k + Z.of_nat (S n)) with (k + 1 + Z.of_nat n) by lia.
    rewrite <- (Z.add_assoc d), <- (Z.add_assoc s).
    apply IH; [lia|lia|apply copied_store; [lia|done]].
Qed.
End Copy.

Lemma memcpy_copied m d s n :
  mem_ok m -> d <= s \/ s + Z.of_nat n <= d -> memcpy d s n m ≃ copied d s (Z.of_nat n) m.
Proof.
  intros Hok Hsafe. unfold memcpy.
  destruct (memcpy_head_spec m d s (Z.of_nat n) Hsafe n 0 m)
    as (n1 & k1 & m1 & E1 & ? & ? & H1); [lia|lia| |].
  { intros x. unfold copied. by case_inside. }
  rewrite !Z.add_0_r in E1. rewrite E1.
  destruct (memcpy_words_spec m d s (Z.of_nat n) Hok Hsafe n1 k1 m1)
    as (n2 & k2 & m2 & E2 & ? & ? & H2); [lia|lia|done|]. rewrite E2.
  pose proof (memcpy_tail_spec m d s (Z.of_nat n) Hsafe n2 k2 m2 ltac:(lia) ltac:(lia) H2) as HT.
  by replace (Z.of_nat n) with (k2 + Z.of_nat n2) by lia.
Qed.

Lemma memmove_back_spec m0 d s N n m :
  s < d -> (n <= N)%nat ->
  (forall x, m x = if inside (d + Z.of_nat n) (Z.of_nat (N - n)) x then m0 (s + (x - d)) else m0 x) ->
  memmove_back n (d + Z.of_nat n) (s + Z.of_nat n) m ≃ copied d s (Z.of_nat N) m0.
Proof.
  intros Hd. revert m. induction n as [|n IH]; intros m HN H; cbn [memmove_back].
  - intros x. rewrite H. unfold copied.
    replace (d + Z.of_nat 0) with d by lia. by replace (N - 0)%nat with N by lia.
  - replace (d + Z.of_nat (S n) - 1) with (d + Z.of_nat n) by lia.
    replace (s + Z.of_nat (S n) - 1) with (s + Z.of_nat n) by lia.
    apply IH; [lia|]. intros x. unfold store. rewrite !H.
    case_bool; case_inside; try done; f_equal; lia.
Qed.

Lemma memmove_copied m d s n : mem_ok m -> memmove d s n m ≃ copied d s (Z.of_nat n) m.
Proof.
  intros Hok. unfold memmove.
  destruct (Z.eqb_spec (Z.of_nat n) 0); [|destruct (Z.eqb_spec d s)]; cbn [orb].
  - intros x. unfold copied. by case_inside.
  - intros x. unfold copied. case_inside; f_equal; lia.
  - destruct (Z.ltb_spec d s); [|destruct (Z.leb_spec (s + Z.of_nat n) d)]; cbn [orb];
      [by apply memcpy_copied; auto with lia..|].
    apply memmove_back_spec; [lia|lia|]. intros x. by case_inside.
Qed.

(** ** Filling *)

Lemma wide_bytes b : is_u8 b -> le_bytes 8 (u64 (0x0101010101010101 * b)) = replicate 8 b.
Proof.
  intros Hb. rewrite u64_id by word_lia.
  replace (0x0101010101010101 * b) with (le_val (replicate 8 b)) by (cbn [replicate le_val]; lia).
  apply (le_bytes_val (replicate 8 b)). by apply Forall_replicate.
Qed.

Section Fill.
Context (m0 : mem) (d b : Z) (Hb : is_u8 b).

Lemma filled_store k m :
  0 <= k -> m ≃ filled d b k m0 -> store (d + k) b m ≃ filled d b (k + 1) m0.
Proof.
  intros Hk H x. repeat red in H. unfold store. cbv beta. rewrite H. unfold filled.
  case_bool; case_inside; done.
Qed.
Lemma filled_store64 k m :
  0 <= k -> m ≃ filled d b k m0 ->
  store64 (d + k) (u64 (0x0101010101010101 * b)) m ≃ filled d b (k + 8) m0.
Proof.
  intros Hk H. setoid_rewrite H. intros x. unfold store64. rewrite wide_bytes by done.
  rewrite store_bytes_spec, length_replicate. change (Z.of_nat 8) with 8. unfold filled.
  case_inside; try done.
  unfold getz. rewrite nth_lookup, lookup_replicate_2 by lia. done.
Qed.

Lemma memset_head_spec n k m :
  0 <= k -> m ≃ filled d b k m0 ->
  exists n' k' m', memset_head n (d + k) b m = (n', d + k', m') /\
    k' + Z.of_nat n' = k + Z.of_nat n /\ 0 <= k' /\ m' ≃ filled d b k' m0.
Proof.
  revert k m. induction n as [|n IH]; intros k m Hk H; cbn [memset_head].
  - by exists O, k, m.
  - case_bool; [by exists (S n), k, m|]. rewrite <- Z.add_assoc.
    destruct (IH (k + 1) (store (d + k) b m)) as (n' & k' & m' & E & ? & ? & ?);
      [lia|by apply filled_store|].
    exists n', k', m'. rewrite E. split; [done|]. split; [lia|done].
Qed.

Lemma memset_words_spec n k m :
  0 <= k -> m ≃ filled d b k m0 ->
  exists n' k' m', memset_words n (d + k) (u64 (0x0101010101010101 * b)) m = (n', d + k', m') /\
    k' + Z.of_nat n' = k + Z.of_nat n /\ 0 <= k' /\ m' ≃ filled d b k' m0.
Proof.
  revert k m. induction (lt_wf n) as [n _ IH]; intros k m Hk H.
  destruct (decide (n < 8)%nat) as [Hn|Hn].
  { do 8 (destruct n as [|n]; [by eexists _, k, m|]). lia. }
  do 8 (destruct n as [|n]; [lia|]). clear Hn. cbn [memset_words]. rewrite <- Z.add_assoc.
  destruct (IH n ltac:(lia) (k + 8) (store64 (d + k) (u64 (0x0101010101010101 * b)) m))
    as (n' & k' & m' & E & ? & ? & ?); [lia|by apply filled_store64|].
  exists n', k', m'. rewrite E. split; [done|]. split; [lia|done].
Qed.

Lemma memset_tail_spec n k m :
  0 <= k -> m ≃ filled d b k m0 ->
  memset_tail n (d + k) b m ≃ filled d b (k + Z.of_nat n) m0.
Proof.
  revert k m. induction n as [|n IH]; intros k m Hk H; cbn [memset_tail].
  - by rewrite Z.add_0_r.
  - replace (k + Z.of_nat (S n)) with (k + 1 + Z.of_nat n) by lia.
    rewrite <- (Z.add_assoc d). apply IH; [lia|by apply filled_store].
Qed.
End Fill.

Lemma memset_filled m d c n : memset d c n m ≃ filled d (u8 c) (Z.of_nat n) m.
Proof.
  unfold memset. pose proof (u8_is_word c) as Hb.
  destruct (memset_head_spec m d (u8 c) n 0 m) as (n1 & k1 & m1 & E1 & ? & ? & H1); [lia| |].
  { intros x. unfold filled. by case_inside. }
  rewrite Z.add_0_r in E1. rewrite E1.
  destruct (memset_words_spec m d (u8 c) Hb n1 k1 m1) as (n2 & k2 & m2 & E2 & ? & ? & H2);
    [lia|done|]. rewrite E2.
  pose proof (memset_tail_spec m d (u8 c) n2 k2 m2 ltac:(lia) H2) as HT.
  by replace (Z.of_nat n) with (k2 + Z.of_nat n2) by lia.
Qed.

(** Memmove leaves at the destination exactly the bytes the source held
    before the call and touches nothing else, however the two overlap and however
    either is aligned; memcpy does the same when the destination does not start
    inside the source, and memset fills its range and nothing else. *)
Theorem memmove_correct m d s n c :
  mem_ok m ->
  (forall x, memmove d s n m x = if inside d (Z.of_nat n) x then m (s + (x - d)) else m x) /\
  (d <= s \/ s + Z.of_nat n <= d ->
   forall x, memcpy d s n m x = if inside d (Z.of_nat n) x then m (s + (x - d)) else m x) /\
  (forall x, memset d c n m x = if inside d (Z.of_nat n) x then u8 c else m x).
Proof.
  intros Hok. split; [apply memmove_copied, Hok|].
  split; [by apply memcpy_copied|]. apply memset_filled.
Qed.

(** ** memcmp is the byte at a time comparison *)

Lemma load64_inj m x y :
  mem_ok m -> load64 m x = load64 m y -> forall i, 0 <= i < 8 -> m (x + i) = m (y + i).
Proof.
  intros Hok H i Hi. unfold load64 in H.
  apply le_val_inj in H; [|by apply load_bytes..|by rewrite !length_load].
  rewrite <- (load_getz m x 8), <- (load_getz m y 8) by lia. by rewrite H.
Qed.

Lemma memcmp_head_spec n x y m :
  match memcmp_head n x y m with
  | inl r => memcmp_tail n x y m = r
  | inr (n', x', y') => memcmp_tail n x y m = memcmp_tail n' x' y' m
  end.
Proof.
  revert x y. induction n as [|n IH]; intros x y; cbn [memcmp_head]; [done|].
  destruct (x .& 7 =? 0); [done|]. cbn [memcmp_tail].
  destruct (m x =? m y); [apply IH|done].
Qed.

Lemma memcmp_tail_skip k n x y m :
  (forall i, 0 <= i < Z.of_nat k -> m (x + i) = m (y + i)) ->
  memcmp_tail (k + n) x y m = memcmp_tail n (x + Z.of_nat k) (y + Z.of_nat k) m.
Proof.
  revert x y. induction k as [|k IH]; intros x y H.
  - by rewrite !Z.add_0_r.
  - cbn [Nat.add memcmp_tail]. pose proof (H 0 ltac:(lia)) as H0.
    rewrite !Z.add_0_r in H0. rewrite H0, Z.eqb_refl, IH.
    + f_equal; lia.
    + intros i Hi. rewrite <- !Z.add_assoc. apply H. lia.
Qed.

Lemma memcmp_words_spec n x y m :
  mem_ok m ->
  let '(n', x', y') := memcmp_words n x y m in memcmp_tail n x y m = memcmp_tail n' x' y' m.
Proof.
  intros Hok. revert x y. induction (lt_wf n) as [n _ IH]. intros x y.
  destruct (decide (n < 8)%nat) as [Hn|Hn].
  { do 8 (destruct n as [|n]; [done|]). lia. }
  do 8 (destruct n as [|n]; [lia|]). clear Hn. cbn [memcmp_words].
  destruct (Z.eqb_spec (load64 m x) (load64 m y)) as [E|]; [|done].
  specialize (IH n ltac:(lia) (x + 8) (y + 8)). destruct (memcmp_words _ _ _ _) as [[? ?] ?].
  rewrite <- IH. apply (memcmp_tail_skip 8). by apply load64_inj.
Qed.

Lemma memcmp_is_tail a b n m : mem_ok m -> memcmp a b n m = memcmp_tail n a b m.
Proof.
  intros Hok. unfold memcmp. destruct (_ && _); [|done].
  pose proof (memcmp_head_spec n a b m) as H.
  destruct (memcmp_head n a b m) as [r|[[n1 x1] y1]]; [done|]. rewrite H.
  pose proof (memcmp_words_spec n1 x1 y1 m Hok) as Hw.
  by destruct (memcmp_words _ _ _ _) as [[? ?] ?].
Qed.

Lemma memcmp_tail_first n a b m :
  (memcmp_tail n a b m = 0 /\ forall i, 0 <= i < Z.of_nat n -> m (a + i) = m (b + i)) \/
  exists i, 0 <= i < Z.of_nat n /\ (forall j, 0 <= j < i -> m (a + j) = m (b + j)) /\
    m (a + i) <> m (b + i) /\ memcmp_tail n a b m = m (a + i) - m (b + i).
Proof.
  revert a b. induction n as [|n IH]; intros a b; cbn [memcmp_tail].
  - left. split; [done|lia].
  - destruct (Z.eqb_spec (m a) (m b)) as [E|E].
    + assert (forall j, (j = 0 \/ m (a + 1 + (j - 1)) = m (b + 1 + (j - 1))) -> m (a + j) = m (b + j)) as Hs.
      { intros j [->|H]; [by rewrite !Z.add_0_r|].
        by replace (a + j) with (a + 1 + (j - 1)) by lia; replace (b + j) with (b + 1 + (j - 1)) by lia. }
      destruct (IH (a + 1) (b + 1)) as [[H0 H]|(i & Hi & Hp & Hd & Hr)].
      * left. split; [done|]. intros j Hj. apply Hs.
        destruct (decide (j = 0)); [auto|right; apply H; lia].
      * right. exists (i + 1). replace (a + (i + 1)) with (a + 1 + i) by lia.
        replace (b + (i + 1)) with (b + 1 + i) by lia. split; [lia|]. split; [|done].
        intros j Hj. apply Hs. destruct (decide (j = 0)); [auto|right; apply Hp; lia].
    + right. exists 0. rewrite !Z.add_0_r. split; [lia|]. split; [lia|done].
Qed.

(** Memcmp, which compares eight bytes at a time when the two sides are
    equally aligned, answers zero exactly when all n bytes agree, and otherwise
    the difference of the first pair of bytes that do not. *)
Theorem memcmp_correct m a b n :
  mem_ok m ->
  (memcmp a b n m = 0 <-> forall i, 0 <= i < Z.of_nat n -> m (a + i) = m (b + i)) /\
  (memcmp a b n m <> 0 -> exists i, 0 <= i < Z.of_nat n /\
     (forall j, 0 <= j < i -> m (a + j) = m (b + j)) /\
     memcmp a b n m = m (a + i) - m (b + i)).
Proof.
  intros Hok. rewrite memcmp_is_tail by done.
  destruct (memcmp_tail_first n a b m) as [[H0 H]|(i & Hi & Hp & Hd & Hr)].
  - split; [done|]. done.
  - split; [|eauto]. split; [lia|]. intros H. by destruct Hd; apply H.
Qed.

(** ** Strings *)

(** The memory holds the string [l] and its zero byte at [s]. *)
Fixpoint cstr (m : mem) (s : Z) (l : list Z) : Prop :=
  match l with
  | [] => m s = 0
  | c :: l => m s = c /\ c <> 0 /\ cstr m (s + 1) l
  end.

Lemma cstr_frame m m' s l :
  (forall x, s <= x <= s + zlen l -> m' x = m x) -> cstr m s l -> cstr m' s l.
Proof.
  revert s. induction l as [|c l IH]; cbn [cstr length]; intros s H.
  - by rewrite H by lia.
  - intros (? & ? & ?). rewrite H by lia. split; [done|]. split; [done|].
    apply IH; [|done]. intros; apply H; lia.
Qed.

Lemma strlen_spec fuel m s l k :
  cstr m (s + k) l -> (length l < fuel)%nat -> strlen_from fuel s k m = Some (k + zlen l).
Proof.
  revert k fuel. induction l as [|c l IH]; cbn [cstr length]; intros k [|fuel] H Hf; try lia;
    cbn [strlen_from].
  - rewrite H. cbn. f_equal. lia.
  - destruct H as (-> & Hc & H). rewrite (proj2 (Z.eqb_neq c 0)) by done.
    rewrite (IH (k + 1)); [f_equal; lia|by rewrite Z.add_assoc|lia].
Qed.

Lemma strcmp_spec fuel m a b la lb :
  mem_ok m -> cstr m a la -> cstr m b lb -> (length la < fuel)%nat ->
  exists r, strcmp fuel a b m = Some r /\ (r = 0 <-> la = lb).
Proof.
  intros Hok. revert a b lb fuel.
  induction la as [|c la IH]; cbn [cstr length]; intros a b lb [|fuel] Ha Hb Hf; try lia;
    cbn [strcmp]; rewrite ?(u8_id (m a)), ?(u8_id (m b)) by apply Hok.
  - rewrite Ha. cbn [Z.eqb negb andb]. eexists. split; [done|].
    destruct lb as [|c' lb]; cbn [cstr] in Hb; [by rewrite Hb|]. destruct Hb as (-> & ? & _).
    split; [lia|done].
  - destruct Ha as (-> & Hc & Ha). rewrite (proj2 (Z.eqb_neq c 0)) by done. cbn [negb andb].
    destruct lb as [|c' lb]; cbn [cstr] in Hb.
    + rewrite Hb, (proj2 (Z.eqb_neq c 0)) by done. eexists. split; [done|]. split; [lia|done].
    + destruct Hb as (-> & Hc' & Hb). destruct (Z.eqb_spec c c') as [->|].
      * destruct (IH (a + 1) (b + 1) lb fuel Ha Hb ltac:(lia)) as (r & E & Hr).
        exists r. split; [done|]. rewrite Hr. split; congruence.
      * eexists. split; [done|]. split; [lia|congruence].
Qed.

Lemma strncpy_fill_spec d n m x :
  strncpy_fill d n m x = if inside d (Z.of_nat n) x then 0 else m x.
Proof.
  revert d m. induction n as [|n IH]; intros d m; cbn [strncpy_fill]; [by case_inside|].
  rewrite IH. unfold store. case_bool; case_inside; done.
Qed.

(** The field strncpy leaves: as much of the string as fits, then zeros. *)
Lemma strncpy_spec d s n m l x :
  cstr m s l -> s + zlen l < d \/ d + Z.of_nat n <= s ->
  strncpy d s n m x = if inside d (Z.of_nat n) x then l.[x - d] else m x.
Proof.
  revert d s n m. induction l as [|c l IH]; cbn [cstr length]; intros d s [|n] m H Hd;
    cbn [strncpy]; try by case_inside.
  - rewrite H, Z.eqb_refl, strncpy_fill_spec. case_inside; try done.
    unfold getz. by destruct (Z.to_nat _).
  - destruct H as (Hc & Hc0 & H). rewrite Hc, (proj2 (Z.eqb_neq c 0)) by done.
    rewrite IH; [|eapply cstr_frame, H; intros y Hy; unfold store; case_bool; [lia|done]|lia].
    unfold store. case_inside; try case_bool; try lia; try done.
    + unfold getz. by replace (Z.to_nat (x - d)) with (S (Z.to_nat (x - (d + 1)))) by lia.
    + subst. by rewrite Z.sub_diag.
Qed.

(** on strings in memory, strlen gives the length, strcmp answers zero
    exactly for equal strings, and strncpy fills its n byte field with the string's
    first bytes, zeros to the end when there is room and no terminator when there
    is not, and writes nothing outside the field. *)
Theorem string_routines_correct m a b la lb n d fuel :
  mem_ok m -> cstr m a la -> cstr m b lb -> (length la < fuel)%nat ->
  a + zlen la < d \/ d + Z.of_nat n <= a ->
  strlen fuel a m = Some (zlen la) /\
  (exists r, strcmp fuel a b m = Some r /\ (r = 0 <-> la = lb)) /\
  (forall x, strncpy d a n m x = if inside d (Z.of_nat n) x then la.[x - d] else m x).
Proof.
  intros Hok Ha Hb Hf Hd. split; [|split].
  - unfold strlen. rewrite (strlen_spec _ _ _ la); [f_equal; lia|by rewrite Z.add_0_r|done].
  - by apply strcmp_spec.
  - intros x. by apply strncpy_spec.
Qed.

(** ** Witnesses: the memory whose byte at x is x modulo 256 *)

Definition demo_mem : mem := fun x => x mod 256.
Lemma demo_mem_ok : mem_ok demo_mem.
Proof. intros x. apply Z.mod_pos_bound. done. Qed.
(** The strings "ab" at 16 and 32. *)
Definition demo_strings : mem := store_bytes 16 [97; 98; 0] (store_bytes 32 [97; 98; 0] (fun _ => 0)).
Lemma demo_strings_ok : mem_ok demo_strings.
Proof. intros x. unfold demo_strings. cbn. unfold store. repeat case_bool; done. Qed.

Lemma memmove_correct_witness : memmove 5 1 20 demo_mem 24 = 20 /\ memset 3 300 30 demo_mem 32 = 44.
Proof.
  destruct (memmove_correct demo_mem 5 1 20 0 demo_mem_ok) as (H1 & _ & _).
  destruct (memmove_correct demo_mem 3 1 30 300 demo_mem_ok) as (_ & _ & H3).
  by rewrite H1, H3.
Defined.
Lemma memcmp_correct_witness : memcmp 8 264 200 demo_mem = 0.
Proof.
  apply (memcmp_correct demo_mem 8 264 200 demo_mem_ok).
  intros i Hi. unfold demo_mem. dlia.
Defined.
Lemma string_routines_correct_witness :
  strlen 10 16 demo_strings = Some 2 /\ strcmp 10 16 32 demo_strings = Some 0 /\
  strncpy 64 16 5 demo_strings 68 = 0.
Proof.
  destruct (string_routines_correct demo_strings 16 32 [97; 98] [97; 98] 5 64 10 demo_strings_ok)
    as (H1 & (r & H2 & Hr) & H3); [done|done|cbn; lia|left; done|].
  split; [done|]. rewrite H2, H3. split; [|done]. f_equal. by apply Hr.
Defined.
