(* ===== verification/Heap.v ===== *)
(** kernel/heap.c: the kernel heap, a first fit free list with boundary tags.

    The headers live at addresses and point at each other; [h_blocks] gives the
    header at an address, and a header left behind by a merge stays where it was,
    as it does in memory. [None] is a read of an address that holds no header.
    The lock and the interrupt flag are not modelled (one operation at a time);
    [heap_test_probe] is the self test's hook and does nothing here. *)
From S2P Require Import Prelude Memory.

(** [sizeof(block_t)]: a u32, a bool, padding and two pointers. *)
Definition HDR : Z := 24.
Definition MIN_SPLIT : Z := 16.

Record block := Block { b_size : Z; b_free : bool; b_next : Z; b_prev : Z }.
Record heap := Heap {
  h_blocks : gmap Z block;
  h_head : Z;
  h_total : Z;
  h_used : Z;
  h_start : Z
}.

Definition set_prev (p : Z) (b : block) : block := Block (b_size b) (b_free b) (b_next b) p.
Definition set_free (f : bool) (b : block) : block := Block (b_size b) f (b_next b) (b_prev b).
Definition set_next (n : Z) (b : block) : block := Block (b_size b) (b_free b) n (b_prev b).
Definition set_size (s : Z) (b : block) : block := Block s (b_free b) (b_next b) (b_prev b).

(** A write through a header pointer. *)
Definition write_at (a : Z) (f : block -> block) (m : gmap Z block) : option (gmap Z block) :=
  b ← m !! a; Some (<[a := f b]> m).
(** [if (p) p->prev = v]. *)
Definition write_prev (a v : Z) (m : gmap Z block) : option (gmap Z block) :=
  if a =? 0 then Some m else write_at a (set_prev v) m.

Definition heap_init (start size : Z) : heap :=
  Heap {[ start := Block (u32 (size - HDR)) true 0 0 ]} start (u32 size) 0 start.

Definition split (m : gmap Z block) (b n : Z) : option (gmap Z block) :=
  B ← m !! b;
  if b_size B <? n + HDR + MIN_SPLIT then Some m else
  let nb := b + HDR + n in
  let m := <[nb := Block (u32 (b_size B - n - HDR)) true (b_next B) b]> m in
  m ← write_prev (b_next B) nb m;
  m ← write_at b (set_next nb) m;
  write_at b (set_size (u32 n)) m.

(** The search of kmalloc: 0 when no block will do. The fuel bounds the walk; the
    number of headers is enough for a list without a cycle. *)
Fixpoint find_fit (fuel : nat) (m : gmap Z block) (b n : Z) : option Z :=
  if b =? 0 then Some 0 else
  match fuel with
  | O => None
  | S fuel => B ← m !! b;
              if b_free B && (n <=? b_size B) then Some b else find_fit fuel m (b_next B) n
  end.

Definition round8 (n : Z) : Z := (n + 7) .& Z.lnot 7.

Definition kmalloc (h : heap) (n : Z) : option (heap * Z) :=
  if (n =? 0) || (0xFFFFFF00 <? n) then Some (h, 0) else
  let n := round8 n in
  b ← find_fit (S (size (h_blocks h))) (h_blocks h) (h_head h) n;
  if b =? 0 then Some (h, 0) else
  m ← split (h_blocks h) b n;
  m ← write_at b (set_free false) m;
  B ← m !! b;
  Some (Heap m (h_head h) (h_total h) (u32 (h_used h + u32 (b_size B + HDR))) (h_start h), b + HDR).

Definition kcalloc (h : heap) (n : Z) (mm : mem) : option (heap * Z * mem) :=
  '(h, p) ← kmalloc h n;
  Some (h, p, if p =? 0 then mm else memset p 0 (Z.to_nat n) mm).

Definition merge_forward (b : Z) (m : gmap Z block) : option (gmap Z block) :=
  B ← m !! b;
  if b_next B =? 0 then Some m else
  N ← m !! b_next B;
  if b_free N then
    m ← write_at b (set_size (u32 (b_size B + (HDR + b_size N)))) m;
    m ← write_at b (set_next (b_next N)) m;
    write_prev (b_next N) b m
  else Some m.

Definition merge_backward (b : Z) (m : gmap Z block) : option (gmap Z block) :=
  B ← m !! b;
  if b_prev B =? 0 then Some m else
  P ← m !! b_prev B;
  if b_free P then
    m ← write_at (b_prev B) (set_size (u32 (b_size P + (HDR + b_size B)))) m;
    m ← write_at (b_prev B) (set_next (b_next B)) m;
    write_prev (b_next B) (b_prev B) m
  else Some m.

Definition kfree (h : heap) (p : Z) : option heap :=
  if p =? 0 then Some h else
  let b := p - HDR in
  B ← h_blocks h !! b;
  if b_free B then Some h else
  m ← write_at b (set_free true) (h_blocks h);
  m ← merge_forward b m;
  m ← merge_backward b m;
  Some (Heap m (h_head h) (h_total h) (u32 (h_used h - u32 (b_size B + HDR))) (h_start h)).

(** The walk of heap_check: [None] is [good = false], otherwise the sums. *)
Fixpoint check_walk (fuel : nat) (h : heap) (b guard sum in_use : Z) : option (Z * Z) :=
  if b =? 0 then Some (sum, in_use) else
  match fuel with
  | O => None
  | S fuel =>
      B ← h_blocks h !! b;
      let after := b + HDR + b_size B in
      if (2 ^ 24 <? guard) || (b <? h_start h) || (h_start h + h_total h <? after) then None else
      let sum := sum + (HDR + b_size B) in
      let in_use := if b_free B then in_use else in_use + (HDR + b_size B) in
      if b_next B =? 0 then
        if after =? h_start h + h_total h then Some (sum, in_use) else None
      else
        N ← h_blocks h !! b_next B;
        if negb (b_next B =? after) || negb (b_prev N =? b) || (b_free B && b_free N) then None
        else check_walk fuel h (b_next B) (guard + 1) sum in_use
  end.

Definition heap_check (h : heap) : bool :=
  (h_head h =? h_start h) &&
  match h_blocks h !! h_head h with Some B => b_prev B =? 0 | None => false end &&
  match check_walk (S (size (h_blocks h))) h (h_head h) 0 0 0 with
  | Some (sum, in_use) => (sum =? h_total h) && (in_use =? h_used h)
  | None => false
  end.

(** ** The abstract heap: the list of its blocks, (payload size, free?) in the order
    of their addresses *)

Abbreviation seg := (Z * bool)%type.

Fixpoint blen (bs : list seg) : Z :=
  match bs with [] => 0 | (sz, _) :: bs => HDR + sz + blen bs end.
Fixpoint in_use (bs : list seg) : Z :=
  match bs with [] => 0 | (sz, fr) :: bs => (if fr : bool then 0 else HDR + sz) + in_use bs end.

(** No two free blocks side by side. *)
Fixpoint coalesced (bs : list seg) : Prop :=
  match bs with
  | (_, f1) :: (((_, f2) :: _) as bs') => ~ (f1 = true /\ f2 = true) /\ coalesced bs'
  | _ => True
  end.

(** First fit: the list after an allocation of [n] bytes (a multiple of eight) and
    the offset of the block it went to. *)
Fixpoint alloc_list (bs : list seg) (n : Z) : option (list seg * Z) :=
  match bs with
  | [] => None
  | (sz, fr) :: bs' =>
      if fr && (n <=? sz) then
        Some (if sz <? n + HDR + MIN_SPLIT then (sz, false) :: bs'
              else (n, false) :: (sz - n - HDR, true) :: bs', 0)
      else match alloc_list bs' n with
           | Some (r, off) => Some ((sz, fr) :: r, HDR + sz + off)
           | None => None
           end
  end.

(** Putting a block of [sz] bytes back between [l1] and [l2]. *)
Definition absorb_next (sz : Z) (l2 : list seg) : list seg :=
  match l2 with
  | (s, true) :: l2 => (sz + (HDR + s), true) :: l2
  | _ => (sz, true) :: l2
  end.
Fixpoint free_list (l1 : list seg) (l : list seg) : list seg :=
  match l1 with
  | [] => l
  | [(s, true)] => match l with (sz, _) :: l => (s + (HDR + sz), true) :: l | [] => [(s, true)] end
  | x :: l1 => x :: free_list l1 l
  end.
Definition free_block (l1 : list seg) (sz : Z) (l2 : list seg) : list seg :=
  free_list l1 (absorb_next sz l2).

(** [first a bs e]: the address of the first block of a list laid out from [a],
    [e] when the list is empty. *)
Definition first (a : Z) (bs : list seg) (e : Z) : Z := match bs with [] => e | _ => a end.
(** The address of the last block of [bs] laid out from [a], [prev] when empty. *)
Fixpoint last_addr (prev a : Z) (bs : list seg) : Z :=
  match bs with [] => prev | (sz, _) :: bs => last_addr a (a + HDR + sz) bs end.

(** The headers in memory are those of [bs] laid out from [a], the first pointing
    back at [prev] and the last on to [e]. *)
Fixpoint chain (m : gmap Z block) (prev a : Z) (bs : list seg) (e : Z) : Prop :=
  match bs with
  | [] => True
  | (sz, fr) :: bs =>
      m !! a = Some (Block sz fr (first (a + HDR + sz) bs e) prev) /\
      chain m a (a + HDR + sz) bs e
  end.

Definition sizes_ok (bs : list seg) : Prop := Forall (fun s => 0 <= s.1) bs.
(** Every block but the last has a payload of whole eight byte words. *)
Fixpoint words_ok (bs : list seg) : Prop :=
  match bs with
  | (sz, _) :: ((_ :: _) as bs') => sz mod 8 = 0 /\ words_ok bs'
  | _ => True
  end.

(** The relation between the heap and its list of blocks. *)
Record heap_rel (h : heap) (bs : list seg) : Prop := {
  hr_head : h_head h = h_start h;
  hr_start : 0 < h_start h /\ h_start h mod 8 = 0;
  hr_nonempty : bs <> [];
  hr_chain : chain (h_blocks h) 0 (h_start h) bs 0;
  hr_sizes : sizes_ok bs;
  hr_words : words_ok bs;
  hr_total : blen bs = h_total h /\ h_total h < 2 ^ 32;
  hr_used : h_used h = in_use bs;
  hr_coalesced : coalesced bs
}.

(** ** Lists of blocks *)

Lemma blen_app l1 l2 : blen (l1 ++ l2) = blen l1 + blen l2.
Proof. induction l1 as [|[sz fr] l1 IH]; cbn [app blen]; lia. Qed.
Lemma in_use_app l1 l2 : in_use (l1 ++ l2) = in_use l1 + in_use l2.
Proof. induction l1 as [|[sz fr] l1 IH]; cbn [app in_use]; lia. Qed.
Lemma blen_nonneg bs : sizes_ok bs -> 0 <= blen bs.
Proof. induction 1 as [|[sz fr] bs H _ IH]; cbn in *; unfold HDR; lia. Qed.
Lemma in_use_bounds bs : sizes_ok bs -> 0 <= in_use bs <= blen bs.
Proof. induction 1 as [|[sz []] bs H _ IH]; cbn in *; unfold HDR; lia. Qed.

Lemma coalesced_app l1 x l2 :
  coalesced (l1 ++ x :: l2) <-> coalesced (l1 ++ [x]) /\ coalesced (x :: l2).
Proof.
  induction l1 as [|[s1 f1] l1 IH]; [destruct x; cbn; tauto|].
  destruct l1 as [|[s2 f2] l1]; destruct x as [s f]; cbn in *; tauto.
Qed.

Lemma chain_app m prev a l1 l2 e :
  chain m prev a (l1 ++ l2) e <->
  chain m prev a l1 (first (a + blen l1) l2 e) /\
  chain m (last_addr prev a l1) (a + blen l1) l2 e.
Proof.
  revert prev a. induction l1 as [|[sz fr] l1 IH]; intros prev a; cbn [app chain blen last_addr].
  - rewrite Z.add_0_r. tauto.
  - rewrite IH. replace (a + HDR + sz + blen l1) with (a + (HDR + sz + blen l1)) by lia.
    replace (first (a + HDR + sz) (l1 ++ l2) e)
      with (first (a + HDR + sz) l1 (first (a + (HDR + sz + blen l1)) l2 e)); [tauto|].
    destruct l1; cbn [first app blen]; [|done]. by rewrite Z.add_0_r, Z.add_assoc.
Qed.

Lemma chain_outside m prev a bs e x b :
  sizes_ok bs -> x < a \/ a + blen bs <= x -> chain m prev a bs e -> chain (<[x := b]> m) prev a bs e.
Proof.
  intros Hs. revert prev a. induction Hs as [|[sz fr] bs H Hs IH]; intros prev a Hx; cbn [chain]; [done|].
  cbn [blen fst] in *. pose proof (blen_nonneg bs Hs). unfold HDR in *.
  intros [Hb Hc]. rewrite lookup_insert_ne by lia. split; [done|]. apply IH; [lia|done].
Qed.

(** Rewriting the first block of a chain, where only its back pointer matters to
    the rest. *)
Lemma chain_prev m p p' a bs e B :
  sizes_ok bs -> chain m p a bs e -> m !! a = Some B -> bs <> [] ->
  chain (<[a := set_prev p' B]> m) p' a bs e.
Proof.
  destruct bs as [|[sz fr] bs]; [done|]. intros Hs Hc HB _. inversion Hs; subst.
  destruct Hc as [Hb Hc]. cbn [chain]. rewrite lookup_insert_eq. split.
  - rewrite Hb in HB. by injection HB as <-.
  - apply chain_outside; [done| |done]. cbn in *. unfold HDR. lia.
Qed.

(** [write_prev] into the block after: the code's [if (b->next) b->next->prev = v]. *)
Lemma write_prev_chain m p v a bs :
  0 < a -> sizes_ok bs -> chain m p a bs 0 ->
  exists m', write_prev (first a bs 0) v m = Some m' /\ chain m' v a bs 0 /\
    (forall x, x < a \/ a + blen bs <= x -> m' !! x = m !! x).
Proof.
  intros Ha Hs Hc. unfold write_prev. destruct bs as [|[sz fr] bs]; cbn [first].
  - by exists m.
  - rewrite (proj2 (Z.eqb_neq a 0)) by lia. unfold write_at. pose proof Hc as [Hb _]. rewrite Hb.
    cbn [mbind option_bind]. eexists. split; [done|]. split; [by eapply chain_prev|].
    intros x Hx. apply lookup_insert_ne. cbn [blen] in Hx. inversion Hs; subst. cbn in *.
    pose proof (blen_nonneg bs ltac:(done)). unfold HDR in *. lia.
Qed.

Lemma chain_agree m m' p a bs e :
  sizes_ok bs -> (forall x, a <= x < a + blen bs -> m' !! x = m !! x) ->
  chain m p a bs e -> chain m' p a bs e.
Proof.
  intros Hs. revert p a. induction Hs as [|[sz fr] bs H Hs IH]; intros p a Hx; cbn [chain]; [done|].
  cbn [blen fst] in *. pose proof (blen_nonneg bs Hs). unfold HDR in *.
  intros [Hb Hc]. rewrite Hx by lia. split; [done|]. apply IH; [|done]. intros; apply Hx; lia.
Qed.

(** A block of the list, in the middle of its neighbours. *)
Lemma chain_mid m a l1 sz fr l2 :
  chain m 0 a (l1 ++ (sz, fr) :: l2) 0 <->
  chain m 0 a l1 (a + blen l1) /\
  m !! (a + blen l1) = Some (Block sz fr (first (a + blen l1 + HDR + sz) l2 0) (last_addr 0 a l1)) /\
  chain m (a + blen l1) (a + blen l1 + HDR + sz) l2 0.
Proof. rewrite chain_app. cbn [first chain]. tauto. Qed.

(** ** The operations on the headers, on the list *)

Lemma split_chain m a l1 sz fr l2 n :
  0 < a -> 0 <= n <= sz -> sz < 2 ^ 32 -> sizes_ok (l1 ++ (sz, fr) :: l2) ->
  chain m 0 a (l1 ++ (sz, fr) :: l2) 0 ->
  exists m', split m (a + blen l1) n = Some m' /\
    chain m' 0 a (l1 ++ (if sz <? n + HDR + MIN_SPLIT then (sz, fr) :: l2
                         else (n, fr) :: (sz - n - HDR, true) :: l2)) 0.
Proof.
  intros Ha Hn Hsz Hs Hc. pose proof Hc as (H1 & HB & H2)%chain_mid.
  apply Forall_app in Hs as [Hs1 Hs2]. inversion Hs2 as [|? ? ? Hs3]; subst.
  pose proof (blen_nonneg l1 Hs1). pose proof (blen_nonneg l2 Hs3).
  set (b := a + blen l1) in *. unfold split. rewrite HB. cbn [mbind option_bind b_size b_next].
  case_bool; [by exists m|]. unfold HDR, MIN_SPLIT in *.
  rewrite !u32_id by (unfold is_word; lia).
  set (m1 := <[b + 24 + n := _]> m).
  destruct (write_prev_chain m1 b (b + 24 + n) (b + 24 + sz) l2) as (m2 & E & H2' & Hout);
    [lia|done|apply chain_outside; [done|lia|done]|]. rewrite E. cbn [mbind option_bind].
  assert (m2 !! b = Some (Block sz fr (first (b + 24 + sz) l2 0) (last_addr 0 a l1))) as HB2.
  { rewrite Hout by lia. unfold m1. by rewrite lookup_insert_ne by lia. }
  unfold write_at. rewrite HB2. cbn [mbind option_bind]. rewrite lookup_insert_eq.
  cbn [mbind option_bind]. eexists. split; [done|]. rewrite insert_insert_eq.
  apply chain_mid. fold b. unfold HDR. split; [|split].
  - apply chain_outside; [done|lia|]. eapply chain_agree, H1; [done|]. intros x Hx.
    rewrite Hout by lia. unfold m1. by rewrite lookup_insert_ne by lia.
  - by rewrite lookup_insert_eq.
  - cbn [chain]. unfold HDR. replace (b + 24 + n + 24 + (sz - n - 24)) with (b + 24 + sz) by lia.
    rewrite lookup_insert_ne by lia. split; [|apply chain_outside; [done|lia|done]].
    rewrite Hout by lia. unfold m1. by rewrite lookup_insert_eq.
Qed.

Lemma set_free_chain m a l1 sz fr l2 f :
  sizes_ok (l1 ++ (sz, fr) :: l2) -> chain m 0 a (l1 ++ (sz, fr) :: l2) 0 ->
  exists m' B, write_at (a + blen l1) (set_free f) m = Some m' /\
    m' !! (a + blen l1) = Some B /\ b_size B = sz /\ chain m' 0 a (l1 ++ (sz, f) :: l2) 0.
Proof.
  intros Hs (H1 & HB & H2)%chain_mid. apply Forall_app in Hs as [Hs1 Hs2].
  inversion Hs2 as [|? ? ? Hs3]; subst. cbn in *. unfold write_at. rewrite HB.
  cbn [mbind option_bind]. eexists _, _. split; [done|]. rewrite lookup_insert_eq.
  split; [done|]. split; [done|]. apply chain_mid. rewrite lookup_insert_eq. unfold HDR in *.
  split; [apply chain_outside; [done|lia|done]|]. split; [done|].
  apply chain_outside; [done|lia|done].
Qed.

Lemma words_app l1 x l2 :
  words_ok (l1 ++ x :: l2) <-> Forall (fun s => s.1 mod 8 = 0) l1 /\ words_ok (x :: l2).
Proof.
  induction l1 as [|[s1 f1] l1 IH]; [cbn; intuition|].
  rewrite Forall_cons_iff. destruct l1 as [|[s2 f2] l1]; cbn in *; [intuition|tauto].
Qed.

(** The walk is never longer than the number of headers. *)
Lemma chain_length m p a bs e : sizes_ok bs -> chain m p a bs e -> (length bs <= size m)%nat.
Proof.
  intros Hs. revert m p a. induction Hs as [|[sz fr] bs H Hs IH]; intros m p a; cbn [chain length]; [lia|].
  intros [Hb Hc]. rewrite <- (insert_delete_id m a _ Hb).
  rewrite map_size_insert_None by apply lookup_delete_eq. apply le_n_S.
  apply (IH _ a (a + HDR + sz)). eapply chain_agree, Hc; [done|].
  intros x Hx. apply lookup_delete_ne. cbn in H. unfold HDR in *. lia.
Qed.

(** A block an allocation of [n] bytes passes over. *)
Definition unfit (n : Z) (s : seg) : Prop := s.2 = false \/ s.1 < n.

Lemma find_fit_spec fuel m p a bs n :
  0 < a -> sizes_ok bs -> chain m p a bs 0 -> (length bs < fuel)%nat ->
  (Forall (unfit n) bs /\ find_fit fuel m (first a bs 0) n = Some 0) \/
  (exists l1 sz l2, bs = l1 ++ (sz, true) :: l2 /\ n <= sz /\ Forall (unfit n) l1 /\
     find_fit fuel m (first a bs 0) n = Some (a + blen l1)).
Proof.
  intros Ha Hs. revert fuel p a Ha. induction Hs as [|[sz fr] bs H Hs IH]; intros [|fuel] p a Ha Hc Hf;
    cbn [length] in Hf; try lia; cbn [first find_fit]; [by left|].
  destruct Hc as [Hb Hc]. rewrite (proj2 (Z.eqb_neq a 0)), Hb by lia.
  cbn [mbind option_bind b_free b_size b_next]. cbn in H. unfold HDR in Hc.
  destruct (fr && (n <=? sz)) eqn:E.
  - right. destruct fr; [|done]. cbn in E. exists [], sz, bs. rewrite Z.add_0_r.
    split; [done|]. split; [lia|done].
  - assert (unfit n (sz, fr)) as Hu by (destruct fr; [right; cbn in *; lia|by left]).
    destruct (IH fuel a (a + 24 + sz) ltac:(lia) Hc ltac:(lia)) as [[Hall E']|(l1 & s & l2 & -> & Hn & Hall & E')].
    + left. split; [by constructor|]. by unfold HDR in *; rewrite E'.
    + right. exists ((sz, fr) :: l1), s, l2. split; [done|]. split; [done|]. split; [by constructor|].
      unfold HDR in *. rewrite E'. cbn [blen]. unfold HDR. f_equal. lia.
Qed.

Lemma alloc_list_none bs n : Forall (unfit n) bs -> alloc_list bs n = None.
Proof.
  induction 1 as [|[sz fr] bs H _ IH]; cbn [alloc_list]; [done|]. rewrite IH.
  destruct H as [H|H]; cbn in H; [by rewrite H|]. rewrite (proj2 (Z.leb_gt n sz)) by lia.
  by rewrite andb_false_r.
Qed.
Lemma alloc_list_some l1 sz l2 n :
  Forall (unfit n) l1 -> n <= sz ->
  alloc_list (l1 ++ (sz, true) :: l2) n =
    Some (l1 ++ (if sz <? n + HDR + MIN_SPLIT then (sz, false) :: l2
                 else (n, false) :: (sz - n - HDR, true) :: l2), blen l1).
Proof.
  intros Hl Hn. induction Hl as [|[s fr] l1 H _ IH]; cbn [app alloc_list blen].
  - rewrite (proj2 (Z.leb_le n sz)) by lia. done.
  - rewrite IH. replace (fr && (n <=? s)) with false; [done|].
    destruct H as [H|H]; cbn in H; [by rewrite H|]. rewrite (proj2 (Z.leb_gt n s)) by lia.
    by rewrite andb_false_r.
Qed.

Lemma round8_spec n : 0 <= n -> round8 n mod 8 = 0 /\ n <= round8 n < n + 8.
Proof.
  intros Hn. unfold round8. rewrite <- Z.ldiff_land.
  change 7 with (Z.ones 3) at 2 4 6. rewrite !Z.ldiff_ones_r by lia.
  rewrite Z.shiftl_mul_pow2, Z.shiftr_div_pow2 by lia. change (2 ^ 3) with 8. dlia.
Qed.

(** What an allocation does to the list. *)
Lemma alloc_list_ok l1 sz l2 n (bs := l1 ++ (sz, true) :: l2)
  (bs' := l1 ++ (if sz <? n + HDR + MIN_SPLIT then (sz, false) :: l2
                 else (n, false) :: (sz - n - HDR, true) :: l2)) :
  0 <= n <= sz -> n mod 8 = 0 -> sizes_ok bs -> words_ok bs -> coalesced bs ->
  sizes_ok bs' /\ words_ok bs' /\ coalesced bs' /\ blen bs' = blen bs /\ bs' <> [].
Proof.
  subst bs bs'. intros Hn H8 [Hs1 Hs2]%Forall_app [Hw1 Hw2]%words_app [Hc1 Hc2]%coalesced_app.
  inversion Hs2 as [|? ? ? Hs3]; subst. rewrite !blen_app. unfold HDR, MIN_SPLIT in *.
  case_bool; cbn [blen]; unfold HDR.
  - split; [by apply Forall_app; split; [|constructor]|]. split; [by apply words_app|].
    split; [|split; [lia|by destruct l1]].
    apply coalesced_app. split; [|by destruct l2 as [|[]]; cbn in *; intuition].
    destruct l1 as [|x l1 _] using rev_ind; [done|].
    rewrite <- app_assoc in *. cbn [app] in *. apply coalesced_app in Hc1 as [? _].
    apply coalesced_app. split; [done|]. by destruct x; cbn; intuition.
  - split; [apply Forall_app; split; [done|]; repeat (constructor; cbn; try lia); done|].
    split; [apply words_app; split; [done|]; cbn; split; [done|]; destruct l2 as [|[]]; [done|];
            cbn in Hw2 |- *; split; [dlia|tauto]|].
    split; [|split; [lia|by destruct l1]].
    apply coalesced_app. split; [|by destruct l2 as [|[]]; cbn in *; intuition].
    destruct l1 as [|x l1 _] using rev_ind; [done|].
    rewrite <- app_assoc in *. cbn [app] in *. apply coalesced_app in Hc1 as [? _].
    apply coalesced_app. split; [done|]. by destruct x; cbn; intuition.
Qed.

Lemma in_use_alloc l1 sz l2 n :
  in_use (l1 ++ (if sz <? n + HDR + MIN_SPLIT then (sz, false) :: l2
                 else (n, false) :: (sz - n - HDR, true) :: l2)) =
  in_use (l1 ++ (sz, true) :: l2) + HDR + (if sz <? n + HDR + MIN_SPLIT then sz else n).
Proof. rewrite !in_use_app. case_bool; cbn [in_use]; lia. Qed.

(** The refinement of kmalloc: first fit on the list, and the address of the
    payload of the block it took, or zero with the heap unchanged. *)
Lemma kmalloc_refines h bs n :
  heap_rel h bs -> 0 < n <= 0xFFFFFF00 ->
  match alloc_list bs (round8 n) with
  | None => kmalloc h n = Some (h, 0)
  | Some (bs', off) =>
      exists h', kmalloc h n = Some (h', h_start h + off + HDR) /\ heap_rel h' bs' /\
                 h_start h' = h_start h /\ h_total h' = h_total h
  end.
Proof.
  intros [Hh [Hst Hst8] Hne Hc Hs Hw [Ht Ht32] Hu Hco] Hn.
  destruct (round8_spec n) as [H8 Hr]; [lia|]. unfold kmalloc.
  rewrite (proj2 (Z.eqb_neq n 0)), (proj2 (Z.ltb_ge 0xFFFFFF00 n)) by lia. cbn [orb].
  rewrite Hh. assert (first (h_start h) bs 0 = h_start h) as Hf by by destruct bs.
  pose proof (chain_length _ _ _ _ _ Hs Hc).
  destruct (find_fit_spec (S (size (h_blocks h))) (h_blocks h) 0 (h_start h) bs (round8 n)
              ltac:(lia) Hs Hc ltac:(lia)) as [[Hall E]|(l1 & sz & l2 & -> & Hle & Hall & E)];
    rewrite Hf in E.
  - rewrite alloc_list_none by done. by rewrite E.
  - rewrite alloc_list_some by done. rewrite E. cbn [mbind option_bind].
    pose proof Hs as [Hs1 Hs2]%Forall_app. inversion Hs2 as [|? ? Hsz Hs3]; subst. cbn in Hsz.
    pose proof (blen_nonneg l1 Hs1). pose proof (blen_nonneg l2 Hs3).
    rewrite blen_app in Ht. cbn [blen] in Ht. unfold HDR in Ht.
    rewrite (proj2 (Z.eqb_neq _ 0)) by lia.
    destruct (split_chain (h_blocks h) (h_start h) l1 sz true l2 (round8 n)) as (m1 & -> & Hc1);
      [lia|lia|lia|done|done|]. cbn [mbind option_bind].
    destruct (alloc_list_ok l1 sz l2 (round8 n)) as (A & B & C & D & F); [lia|done..|].
    pose proof (in_use_bounds _ A) as HU. rewrite D in HU. rewrite in_use_alloc in HU.
    set (sz' := if sz <? round8 n + HDR + MIN_SPLIT then sz else round8 n) in *.
    assert (exists m2 B2, write_at (h_start h + blen l1) (set_free false) m1 = Some m2 /\
      m2 !! (h_start h + blen l1) = Some B2 /\ b_size B2 = sz' /\
      chain m2 0 (h_start h) (l1 ++ (if sz <? round8 n + HDR + MIN_SPLIT then (sz, false) :: l2
                 else (round8 n, false) :: (sz - round8 n - HDR, true) :: l2)) 0)
      as (m2 & B2 & -> & HB2 & Hsz2 & Hc2).
    { subst sz'. destruct (sz <? _); [by apply (set_free_chain _ _ _ _ true)|].
      apply (set_free_chain _ _ _ _ true); [|done].
      apply Forall_app; split; [done|]. apply Forall_app in A as [_ A].
      inversion A; subst. by constructor. }
    cbn [mbind option_bind]. rewrite HB2. cbn [mbind option_bind]. eexists. split; [done|].
    split; [|done]. rewrite Hsz2. rewrite !blen_app in D. rewrite blen_app in HU. cbn [blen] in D, HU. unfold HDR in D, HU.
    constructor; cbn [h_head h_start h_blocks h_total h_used]; try done.
    + split; [rewrite blen_app; unfold HDR; lia|done].
    + rewrite in_use_alloc, Hu. fold sz'. unfold HDR.
      pose proof (in_use_bounds _ Hs) as HU'.
      rewrite (u32_id (sz' + 24)), u32_id; unfold is_word; try lia.
      all: subst sz'; case_bool; lia.
Qed.

(** ** Freeing *)

Lemma free_list_nil l : free_list [] l = l.
Proof. done. Qed.
Lemma free_list_used l1 s l : free_list (l1 ++ [(s, false)]) l = l1 ++ (s, false) :: l.
Proof.
  induction l1 as [|x l1 IH]; [done|]. cbn [app free_list]. rewrite IH.
  destruct x as [? []]; [|done]. by destruct l1.
Qed.
Lemma free_list_free l1 s sz f l :
  free_list (l1 ++ [(s, true)]) ((sz, f) :: l) = l1 ++ (s + (HDR + sz), true) :: l.
Proof.
  induction l1 as [|x l1 IH]; [done|]. cbn [app free_list]. rewrite IH.
  destruct x as [? []]; [|done]. by destruct l1.
Qed.

Lemma last_addr_snoc p a l1 sz fr : last_addr p a (l1 ++ [(sz, fr)]) = a + blen l1.
Proof.
  revert p a. induction l1 as [|[s f] l1 IH]; intros p a; cbn [app last_addr blen]; [lia|].
  rewrite IH. lia.
Qed.

(** Two free neighbours made one: what both merges do to the headers. *)
Lemma merge_chain m a l1 s1 s2 f2 l2 :
  0 < a -> sizes_ok (l1 ++ (s1, true) :: (s2, f2) :: l2) ->
  blen (l1 ++ (s1, true) :: (s2, f2) :: l2) < 2 ^ 32 ->
  chain m 0 a (l1 ++ (s1, true) :: (s2, f2) :: l2) 0 ->
  let b := a + blen l1 in
  exists m1 m2 m3,
    write_at b (set_size (u32 (s1 + (HDR + s2)))) m = Some m1 /\
    write_at b (set_next (first (b + HDR + s1 + HDR + s2) l2 0)) m1 = Some m2 /\
    write_prev (first (b + HDR + s1 + HDR + s2) l2 0) b m2 = Some m3 /\
    chain m3 0 a (l1 ++ (s1 + (HDR + s2), true) :: l2) 0.
Proof.
  intros Ha Hs Hlen Hc b. pose proof Hc as (H1 & HB & [HN H2])%chain_mid. fold b in HB, HN, H2.
  apply Forall_app in Hs as [Hs1 Hs2]. inversion Hs2 as [|? ? Hsz1 Hs3]; subst.
  inversion Hs3 as [|? ? Hsz2 Hs4]; subst. cbn in Hsz1, Hsz2.
  pose proof (blen_nonneg l1 Hs1). pose proof (blen_nonneg l2 Hs4).
  rewrite blen_app in Hlen. cbn [blen] in Hlen. unfold HDR in *. subst b. set (b := a + blen l1) in *.
  set (B := Block s1 true _ _) in HB. set (e := first (b + 24 + s1 + 24 + s2) l2 0) in *.
  set (B1 := set_size (u32 (s1 + (24 + s2))) B). set (m2 := <[b := set_next e B1]> m).
  destruct (write_prev_chain m2 (b + 24 + s1) b (b + 24 + s1 + 24 + s2) l2) as (m3 & E & Hc3 & Hout);
    [lia|done|apply chain_outside; [done|lia|done]|].
  exists (<[b := B1]> m), m2, m3. unfold write_at. rewrite HB, lookup_insert_eq.
  cbn [mbind option_bind]. rewrite insert_insert_eq. do 3 (split; [done|]).
  apply chain_mid. fold b. unfold HDR.
  rewrite Hout by lia. unfold m2. rewrite lookup_insert_eq.
  split; [|split].
  - eapply chain_agree, H1; [done|]. intros x Hx. rewrite Hout by lia. unfold m2.
    by rewrite lookup_insert_ne by lia.
  - unfold B1, B, set_next, set_size. cbn [b_size b_free b_next b_prev].
    rewrite u32_id by (unfold is_word; lia). do 2 f_equal. unfold e. f_equal. lia.
  - by replace (b + 24 + (s1 + (24 + s2))) with (b + 24 + s1 + 24 + s2) by lia.
Qed.

Lemma merge_forward_chain m a l1 sz l2 :
  0 < a -> sizes_ok (l1 ++ (sz, true) :: l2) -> blen (l1 ++ (sz, true) :: l2) < 2 ^ 32 ->
  chain m 0 a (l1 ++ (sz, true) :: l2) 0 ->
  exists m', merge_forward (a + blen l1) m = Some m' /\ chain m' 0 a (l1 ++ absorb_next sz l2) 0.
Proof.
  intros Ha Hs Hlen Hc. pose proof Hc as (H1 & HB & H2)%chain_mid.
  unfold merge_forward. rewrite HB. cbn [mbind option_bind b_next b_size].
  destruct l2 as [|[s f] l2]; cbn [first]; [by exists m|].
  apply Forall_app in Hs as Hs'. destruct Hs' as [Hs1 Hs2]. inversion Hs2 as [|? ? Hsz1 Hs3]; subst.
  cbn in Hsz1. pose proof (blen_nonneg l1 Hs1). unfold HDR in *.
  rewrite (proj2 (Z.eqb_neq _ 0)) by lia. destruct H2 as [HN H2]. unfold HDR in HN. rewrite HN.
  cbn [mbind option_bind b_free b_size b_next]. destruct f; [|by exists m].
  destruct (merge_chain m a l1 sz s true l2 Ha Hs Hlen Hc) as (m1 & m2 & m3 & E1 & E2 & E3 & Hc3).
  unfold HDR in *. rewrite E1. cbn [mbind option_bind]. rewrite E2. cbn [mbind option_bind].
  rewrite E3. by exists m3.
Qed.

Lemma merge_backward_chain m a l1 sz l2 :
  0 < a -> sizes_ok (l1 ++ (sz, true) :: l2) -> blen (l1 ++ (sz, true) :: l2) < 2 ^ 32 ->
  chain m 0 a (l1 ++ (sz, true) :: l2) 0 ->
  exists m', merge_backward (a + blen l1) m = Some m' /\ chain m' 0 a (free_list l1 ((sz, true) :: l2)) 0.
Proof.
  intros Ha Hs Hlen Hc. pose proof Hc as (H1 & HB & H2)%chain_mid.
  unfold merge_backward. rewrite HB. cbn [mbind option_bind b_next b_size b_prev].
  destruct l1 as [|[s f] l1 _] using rev_ind; [cbn; by exists m|].
  rewrite last_addr_snoc. apply Forall_app in Hs as Hs'. destruct Hs' as [Hs1 _].
  apply Forall_app in Hs1 as [Hs1 Hs2]. pose proof (blen_nonneg l1 Hs1).
  rewrite (proj2 (Z.eqb_neq _ 0)) by lia.
  rewrite <- app_assoc in *. cbn [app] in *. pose proof Hc as (_ & HP & _)%chain_mid. rewrite HP.
  cbn [mbind option_bind b_free b_size]. destruct f.
  - rewrite free_list_free. rewrite blen_app. cbn [blen].
    destruct (merge_chain m a l1 s sz true l2 Ha Hs Hlen Hc) as (m1 & m2 & m3 & E1 & E2 & E3 & Hc3).
    rewrite E1. cbn [mbind option_bind].
    replace (a + (blen l1 + (HDR + s + 0)) + HDR + sz) with (a + blen l1 + HDR + s + HDR + sz) by lia.
    rewrite E2. cbn [mbind option_bind]. rewrite E3. by exists m3.
  - rewrite free_list_used. by exists m.
Qed.

(** The list laws of the two merges. *)
Definition list_ok (bs : list seg) : Prop := sizes_ok bs /\ words_ok bs /\ coalesced bs.

Lemma list_ok_app l1 x l2 :
  list_ok (l1 ++ x :: l2) <->
  sizes_ok l1 /\ Forall (fun s => s.1 mod 8 = 0) l1 /\ coalesced (l1 ++ [x]) /\ list_ok (x :: l2).
Proof.
  unfold list_ok, sizes_ok. rewrite Forall_app, words_app, coalesced_app. tauto.
Qed.

Lemma absorb_next_ok sz l2 :
  list_ok ((sz, false) :: l2) ->
  exists sz' l2', absorb_next sz l2 = (sz', true) :: l2' /\ list_ok ((sz', true) :: l2') /\
    blen (absorb_next sz l2) = blen ((sz, false) :: l2) /\
    in_use (absorb_next sz l2) = in_use ((sz, false) :: l2) - (HDR + sz).
Proof.
  unfold list_ok, sizes_ok. rewrite Forall_cons_iff. cbn [fst].
  intros ([Hsz Hs] & Hw & Hc). destruct l2 as [|[s f] l2]; cbn [absorb_next].
  - exists sz, []. split; [done|]. cbn. repeat split; try done; [by repeat constructor|lia].
  - apply Forall_cons_iff in Hs as [Hsz2 Hs]. cbn in Hsz2. destruct Hw as [Hw1 Hw2].
    destruct Hc as [_ Hc]. destruct f.
    + exists (sz + (HDR + s)), l2. split; [done|]. cbn [blen in_use]. unfold HDR. split; [|lia].
      split; [constructor; [cbn; lia|done]|]. destruct l2 as [|[s3 f3] l2]; cbn in *; [done|].
      split; [split; [dlia|tauto]|]. tauto.
    + exists sz, ((s, false) :: l2). split; [done|]. cbn [blen in_use]. split; [|lia].
      split; [by repeat constructor|]. split; [done|]. split; [|done]. by intros [].
Qed.

Lemma coalesced_snoc_ext l1 x y :
  coalesced (l1 ++ [x]) -> (x.2 = y.2) -> coalesced (l1 ++ [y]).
Proof.
  intros H E. induction l1 as [|[s f] l1 IH]; [by destruct y|].
  destruct l1 as [|[s2 f2] l1]; destruct x as [? fx], y as [? fy]; cbn in *; subst; tauto.
Qed.

Lemma free_list_ok l1 sz l2 :
  sizes_ok l1 -> Forall (fun s => s.1 mod 8 = 0) l1 -> coalesced l1 -> list_ok ((sz, true) :: l2) ->
  let bs' := free_list l1 ((sz, true) :: l2) in
  list_ok bs' /\ bs' <> [] /\ blen bs' = blen (l1 ++ (sz, true) :: l2) /\
  in_use bs' = in_use (l1 ++ (sz, true) :: l2).
Proof.
  intros Hs1 Hw1 Hc1 Hok. destruct l1 as [|[s f] l1 _] using rev_ind; [done|].
  apply Forall_app in Hs1 as [Hs1 Hs]. apply Forall_app in Hw1 as [Hw1 Hw].
  apply Forall_cons_iff in Hs as [Hs _]. apply Forall_cons_iff in Hw as [Hw _]. cbn in Hs, Hw.
  rewrite <- app_assoc. cbn [app]. destruct f.
  - rewrite free_list_free. cbv zeta. rewrite !blen_app, !in_use_app. cbn [blen in_use].
    split; [|split; [by destruct l1|split; lia]].
    apply list_ok_app. split; [done|]. split; [done|].
    split; [by eapply coalesced_snoc_ext; [exact Hc1|]|].
    destruct Hok as (A & B & C). apply Forall_cons_iff in A as [A1 A2]. cbn in A1.
    split; [constructor; [cbn; unfold HDR; lia|done]|]. unfold HDR.
    destruct l2 as [|[s3 f3] l2]; cbn in *; [done|]. split; [split; [dlia|tauto]|done].
  - rewrite free_list_used. cbv zeta. split; [|split; [by destruct l1|done]].
    apply list_ok_app. split; [done|]. split; [done|]. split; [done|].
    destruct Hok as (A & B & C). split; [by constructor|]. split; [done|]. split; [|done].
    by intros [].
Qed.

Lemma coalesced_prefix l1 x : coalesced (l1 ++ [x]) -> coalesced l1.
Proof.
  destruct l1 as [|y l1 _] using rev_ind; [done|]. rewrite <- app_assoc. cbn [app].
  by intros [? _]%coalesced_app.
Qed.

Lemma free_block_ok l1 sz l2 :
  list_ok (l1 ++ (sz, false) :: l2) ->
  let bs' := free_block l1 sz l2 in
  list_ok bs' /\ bs' <> [] /\ blen bs' = blen (l1 ++ (sz, false) :: l2) /\
  in_use bs' = in_use (l1 ++ (sz, false) :: l2) - (HDR + sz).
Proof.
  intros (A & B & C & D)%list_ok_app. cbv zeta. unfold free_block.
  destruct (absorb_next_ok sz l2 D) as (sz' & l2' & E & Hok & Hb & Hu).
  rewrite E in Hb, Hu |- *. rewrite !blen_app, !in_use_app, <- Hb.
  destruct (free_list_ok l1 sz' l2' A B (coalesced_prefix _ _ C) Hok) as (F & G & H & I).
  rewrite H, I, blen_app, in_use_app. split; [done|]. split; [done|]. split; [done|]. lia.
Qed.

(** The refinement of kfree: the block goes back, merged with a free neighbour on
    either side. *)
Lemma kfree_refines h l1 sz l2 :
  heap_rel h (l1 ++ (sz, false) :: l2) ->
  exists h', kfree h (h_start h + blen l1 + HDR) = Some h' /\
    heap_rel h' (free_block l1 sz l2) /\ h_start h' = h_start h /\ h_total h' = h_total h.
Proof.
  intros [Hh [Hst Hst8] Hne Hc Hs Hw [Ht Ht32] Hu Hco].
  destruct (free_block_ok l1 sz l2) as (Hok & Hne' & Hb & Hi); [done|].
  pose proof Hc as (_ & HB & _)%chain_mid. pose proof (in_use_bounds _ Hs) as HU.
  pose proof Hok as (Hs' & _ & _). pose proof (in_use_bounds _ Hs') as HU'. rewrite Hi in HU'.
  pose proof Hs as [Hs1 Hs2]%Forall_app. pose proof (blen_nonneg l1 Hs1).
  apply Forall_cons_iff in Hs2 as [Hsz Hs3]. cbn in Hsz. pose proof (blen_nonneg l2 Hs3).
  assert (sz + HDR <= h_total h) as Hszt by (rewrite <- Ht, blen_app; cbn [blen]; unfold HDR; lia).
  unfold kfree. rewrite (proj2 (Z.eqb_neq _ 0)) by (unfold HDR; lia).
  replace (h_start h + blen l1 + HDR - HDR) with (h_start h + blen l1) by lia.
  rewrite HB. cbn [mbind option_bind b_free b_size].
  destruct (set_free_chain _ _ _ _ _ _ true Hs Hc) as (m1 & B1 & -> & _ & _ & Hc1).
  cbn [mbind option_bind].
  assert (sizes_ok (l1 ++ (sz, true) :: l2)) as Hst1 by (apply Forall_app; split; [done|by constructor]).
  assert (blen (l1 ++ (sz, true) :: l2) < 2 ^ 32) as Hbt.
  { rewrite blen_app in Ht |- *. cbn [blen] in Ht |- *. lia. }
  destruct (merge_forward_chain _ _ _ _ _ Hst Hst1 Hbt Hc1) as (m2 & -> & Hc2).
  cbn [mbind option_bind].
  destruct (absorb_next_ok sz l2) as (sz' & l2' & E & (Hs4 & _ & _) & Hb2 & _).
  { by apply (list_ok_app l1). }
  rewrite E in Hc2, Hb2. unfold free_block in *. rewrite E in *.
  assert (sizes_ok (l1 ++ (sz', true) :: l2')) as Hst2 by (apply Forall_app; split; [done|done]).
  assert (blen (l1 ++ (sz', true) :: l2') < 2 ^ 32) as Hbt2.
  { rewrite blen_app, Hb2. rewrite blen_app in Ht. lia. }
  destruct (merge_backward_chain _ _ _ _ _ Hst Hst2 Hbt2 Hc2) as (m3 & -> & Hc3).
  cbn [mbind option_bind]. eexists. split; [done|]. split; [|done].
  destruct Hok as (? & ? & ?). constructor; cbn [h_head h_start h_blocks h_total h_used]; try done.
  - split; [by rewrite Hb|done].
  - rewrite Hu, Hi, (Z.add_comm sz), (u32_id (HDR + sz)) by (unfold is_word, HDR in *; lia).
    apply u32_id. unfold is_word. lia.
Qed.

(** ** The self check *)

Lemma check_walk_ok h fuel p a bs g sum iu :
  sizes_ok bs -> coalesced bs -> chain (h_blocks h) p a bs 0 -> bs <> [] ->
  0 < h_start h <= a -> a + blen bs = h_start h + h_total h ->
  0 <= g -> g + zlen bs <= 2 ^ 24 + 1 -> (length bs <= fuel)%nat ->
  check_walk fuel h a g sum iu = Some (sum + blen bs, iu + in_use bs).
Proof.
  intros Hs. revert fuel p a g sum iu.
  induction Hs as [|[sz fr] bs Hsz Hs IH]; [done|]. intros [|fuel] p a g sum iu Hco Hc _ Ha Hend Hg Hg' Hf;
    cbn [length] in *; [lia|]. cbn [check_walk]. destruct Hc as [Hb Hc]. cbn in Hsz.
  pose proof (blen_nonneg bs Hs). cbn [blen] in Hend.
  rewrite (proj2 (Z.eqb_neq a 0)), Hb by lia. cbn [mbind option_bind b_size b_free b_next].
  unfold HDR in *. rewrite (proj2 (Z.ltb_ge _ g)), (proj2 (Z.ltb_ge a _)), (proj2 (Z.ltb_ge _ (a + 24 + sz))) by lia.
  cbn [orb blen in_use]. unfold HDR. destruct bs as [|[s2 f2] bs]; cbn [first].
  - cbn [blen in_use] in *. rewrite (proj2 (Z.eqb_eq (a + 24 + sz) _)) by lia.
    cbn [Z.eqb]. do 2 f_equal; [lia|]. by destruct fr; cbn; f_equal; lia.
  - rewrite (proj2 (Z.eqb_neq (a + 24 + sz) 0)) by lia. pose proof Hc as [HN _]. unfold HDR in HN.
    rewrite HN. cbn [mbind option_bind b_prev b_free]. rewrite !Z.eqb_refl. cbn [negb orb].
    destruct Hco as [Hf12 Hco]. replace (fr && f2) with false by (destruct fr, f2; try done; tauto).
    rewrite (IH fuel a (a + 24 + sz) (g + 1)); try done; cbn [length] in *; try lia.
    do 2 f_equal; [lia|]. by destruct fr; lia.
Qed.

Lemma heap_check_ok h bs : heap_rel h bs -> zlen bs <= 2 ^ 24 + 1 -> heap_check h = true.
Proof.
  intros [Hh [Hst Hst8] Hne Hc Hs Hw [Ht Ht32] Hu Hco] Hlen. unfold heap_check.
  rewrite Hh, Z.eqb_refl. pose proof (chain_length _ _ _ _ _ Hs Hc).
  rewrite (check_walk_ok h (S (size (h_blocks h))) 0 (h_start h) bs 0 0 0); try done; try lia.
  rewrite !Z.add_0_l, Hu, Ht, !Z.eqb_refl. destruct bs as [|[sz fr] bs]; [done|].
  destruct Hc as [-> _]. done.
Qed.

(** Blocks with room for [c] bytes at least. *)
Definition roomy (c : Z) (bs : list seg) : Prop := Forall (fun s => c <= s.1) bs.
Lemma roomy_count c bs : roomy c bs -> (HDR + c) * zlen bs <= blen bs.
Proof. induction 1 as [|[sz fr] bs H _ IH]; cbn [blen length fst] in *; unfold HDR in *; lia. Qed.
Lemma roomy_alloc c l1 sz l2 n :
  c <= n -> c <= MIN_SPLIT -> roomy c (l1 ++ (sz, true) :: l2) ->
  roomy c (l1 ++ (if sz <? n + HDR + MIN_SPLIT then (sz, false) :: l2
                  else (n, false) :: (sz - n - HDR, true) :: l2)).
Proof.
  unfold roomy. rewrite !Forall_app, Forall_cons_iff. cbn [fst]. intros Hn Hc (H1 & H2 & H3).
  split; [done|]. case_bool; repeat (constructor; cbn [fst]; try done); lia.
Qed.
Lemma roomy_free_list c l1 l : 0 <= c -> roomy c l1 -> roomy c l -> roomy c (free_list l1 l).
Proof.
  unfold roomy. intros Hc Hl1. induction Hl1 as [|[s f] l1 H _ IH]; [done|]. intros Hl. cbn [fst] in H. specialize (IH Hl).
  destruct l1 as [|y l1]; [|by destruct f; constructor]. destruct f; cbn [free_list] in *; [|by constructor].
  destruct Hl as [|[sz f'] l Hz Hl]; cbn [fst] in *; constructor; try done; cbn [fst]; unfold HDR; lia.
Qed.
Lemma roomy_free c l1 sz l2 : 0 <= c -> roomy c (l1 ++ (sz, false) :: l2) -> roomy c (free_block l1 sz l2).
Proof.
  unfold roomy. rewrite Forall_app, Forall_cons_iff. cbn [fst]. intros Hc (H1 & H2 & H3). apply roomy_free_list; [done|done|].
  unfold roomy. destruct H3 as [|[s f] l2 Hs Hl2]; cbn [absorb_next fst] in *; [by repeat constructor|].
  destruct f; repeat (constructor; cbn [fst]; try done). unfold HDR. lia.
Qed.

Lemma heap_init_rel start size :
  0 < start -> start mod 8 = 0 -> HDR <= size < 2 ^ 32 ->
  heap_rel (heap_init start size) [(size - HDR, true)].
Proof.
  intros. unfold heap_init. rewrite !u32_id by (unfold is_word, HDR in *; lia).
  constructor; cbn [h_head h_start h_blocks h_total h_used]; try done.
  - cbn. by rewrite lookup_singleton_eq.
  - constructor; [cbn; lia|done].
  - cbn. lia.
Qed.

(** ** Blocks by their offset *)

Fixpoint at_off (bs : list seg) (o s : Z) (f : bool) : Prop :=
  match bs with
  | [] => False
  | (s0, f0) :: bs => (o = 0 /\ s = s0 /\ f = f0) \/ at_off bs (o - (HDR + s0)) s f
  end.

Lemma at_off_app l1 l2 o s f :
  at_off (l1 ++ l2) o s f <-> at_off l1 o s f \/ at_off l2 (o - blen l1) s f.
Proof.
  revert o. induction l1 as [|[s0 f0] l1 IH]; intros o; cbn [app at_off blen].
  - rewrite Z.sub_0_r. tauto.
  - rewrite IH. replace (o - (HDR + s0) - blen l1) with (o - (HDR + s0 + blen l1)) by lia. tauto.
Qed.
Lemma at_off_split bs o s f :
  at_off bs o s f -> exists l1 l2, bs = l1 ++ (s, f) :: l2 /\ o = blen l1.
Proof.
  revert o. induction bs as [|[s0 f0] bs IH]; intros o; cbn [at_off]; [done|].
  intros [(-> & -> & ->)|H]; [by exists [], bs|].
  destruct (IH _ H) as (l1 & l2 & -> & Ho). exists ((s0, f0) :: l1), l2.
  split; [done|]. cbn [blen]. lia.
Qed.
Lemma at_off_bounds bs o s f :
  sizes_ok bs -> at_off bs o s f -> 0 <= o /\ 0 <= s /\ o + HDR + s <= blen bs.
Proof.
  intros Hs (l1 & l2 & -> & ->)%at_off_split. apply Forall_app in Hs as [H1 H2].
  apply Forall_cons_iff in H2 as [H2 H3]. cbn in H2. pose proof (blen_nonneg l1 H1).
  pose proof (blen_nonneg l2 H3). rewrite blen_app. cbn [blen]. unfold HDR. lia.
Qed.
Lemma at_off_aligned bs o s f : words_ok bs -> at_off bs o s f -> o mod 8 = 0.
Proof.
  intros Hw (l1 & l2 & -> & ->)%at_off_split. apply words_app in Hw as [Hw _].
  induction Hw as [|[sz fr] l1 H _ IH]; cbn [blen]; [done|]. cbn in H. unfold HDR. dlia.
Qed.
Lemma at_off_disjoint bs o1 s1 f1 o2 s2 f2 :
  sizes_ok bs -> at_off bs o1 s1 f1 -> at_off bs o2 s2 f2 ->
  (o1 = o2 /\ s1 = s2 /\ f1 = f2) \/ o1 + HDR + s1 <= o2 \/ o2 + HDR + s2 <= o1.
Proof.
  intros Hs. revert o1 o2. induction Hs as [|[s0 f0] bs H Hs IH]; intros o1 o2; cbn [at_off]; [done|].
  intros [(-> & -> & ->)|H1] [(-> & -> & ->)|H2]; [by left|..].
  - apply at_off_bounds in H2; [|done]. lia.
  - apply at_off_bounds in H1; [|done]. lia.
  - destruct (IH _ _ H1 H2) as [|[]]; [left|right; left|right; right]; intuition lia.
Qed.

Lemma at_off_alloc l1 sz l2 n o s :
  at_off (l1 ++ (sz, true) :: l2) o s false ->
  at_off (l1 ++ (if sz <? n + HDR + MIN_SPLIT then (sz, false) :: l2
                 else (n, false) :: (sz - n - HDR, true) :: l2)) o s false.
Proof.
  rewrite !at_off_app. intros [H|H]; [by left|right]. cbn [at_off] in H.
  destruct H as [(_ & _ & ?)|H]; [done|]. case_bool; cbn [at_off]; [by right|].
  right. right. by replace (o - blen l1 - (HDR + n) - (HDR + (sz - n - HDR))) with
    (o - blen l1 - (HDR + sz)) by lia.
Qed.

Lemma at_off_free l1 sz l2 o s :
  at_off (l1 ++ (sz, false) :: l2) o s false -> o <> blen l1 ->
  at_off (free_block l1 sz l2) o s false.
Proof.
  intros H Ho. assert (at_off (l1 ++ absorb_next sz l2) o s false) as H1.
  { rewrite at_off_app in H |- *. destruct H as [H|H]; [by left|right]. cbn [at_off] in H.
    destruct H as [(? & _ & _)|H]; [lia|]. destruct l2 as [|[s2 []] l2]; [done|..]; cbn [at_off absorb_next] in *.
    - destruct H as [(_ & _ & ?)|H]; [done|]. right.
      by replace (o - blen l1 - (HDR + (sz + (HDR + s2)))) with (o - blen l1 - (HDR + sz) - (HDR + s2)) by lia.
    - by right. }
  unfold free_block. destruct (absorb_next sz l2) as [|[s' f'] l] eqn:E; [by destruct l2 as [|[? []]]|].
  assert (f' = true) as -> by (destruct l2 as [|[? []]]; cbn in E; congruence).
  clear H E. destruct l1 as [|[s1 f1] l1 _] using rev_ind; [done|].
  rewrite <- app_assoc in H1. cbn [app] in H1. destruct f1.
  - rewrite free_list_free. rewrite at_off_app in H1 |- *. destruct H1 as [H|H]; [by left|right].
    cbn [at_off] in *. destruct H as [(_ & _ & ?)|[(_ & _ & ?)|H]]; try done. right.
    by replace (o - blen l1 - (HDR + (s1 + (HDR + s')))) with (o - blen l1 - (HDR + s1) - (HDR + s')) by lia.
  - by rewrite free_list_used.
Qed.

Lemma alloc_list_inv bs n bs' off :
  alloc_list bs n = Some (bs', off) ->
  exists l1 sz l2, bs = l1 ++ (sz, true) :: l2 /\ n <= sz /\ off = blen l1 /\ Forall (unfit n) l1 /\
    bs' = l1 ++ (if sz <? n + HDR + MIN_SPLIT then (sz, false) :: l2
                 else (n, false) :: (sz - n - HDR, true) :: l2).
Proof.
  revert bs' off. induction bs as [|[sz fr] bs IH]; intros bs' off; cbn [alloc_list]; [done|].
  destruct (fr && (n <=? sz)) eqn:E.
  - apply andb_true_iff in E as [-> E]. intros [= <- <-]. exists [], sz, bs.
    split; [done|]. split; [lia|done].
  - destruct (alloc_list bs n) as [[r o]|]; [|done]. intros [= <- <-].
    destruct (IH _ _ eq_refl) as (l1 & s & l2 & -> & ? & -> & ? & ->).
    exists ((sz, fr) :: l1), s, l2. do 3 (split; [done|]). split; [|done]. constructor; [|done].
    destruct fr; [right; cbn in *; lia|by left].
Qed.

Lemma alloc_list_none_inv bs n : alloc_list bs n = None -> Forall (unfit n) bs.
Proof.
  induction bs as [|[sz fr] bs IH]; cbn [alloc_list]; [done|].
  destruct (fr && (n <=? sz)) eqn:E; [done|]. destruct (alloc_list bs n) as [[]|]; [done|].
  intros _. constructor; [|by apply IH]. destruct fr; [right; cbn in *; lia|by left].
Qed.
Lemma unfit_at_off bs n o s : Forall (unfit n) bs -> at_off bs o s true -> s < n.
Proof.
  intros H (l1 & l2 & -> & _)%at_off_split. apply Forall_app in H as [_ H].
  apply Forall_cons_iff in H as [[?|?] _]; [done|]. cbn in *. lia.
Qed.

Lemma alloc_at_off l1 sz l2 n :
  n <= sz -> exists s, n <= s /\
  at_off (l1 ++ (if sz <? n + HDR + MIN_SPLIT then (sz, false) :: l2
                 else (n, false) :: (sz - n - HDR, true) :: l2)) (blen l1) s false.
Proof.
  intros Hn. exists (if sz <? n + HDR + MIN_SPLIT then sz else n).
  rewrite at_off_app, Z.sub_diag. case_bool; (split; [lia|]); by right; left.
Qed.

(** ** Runs of the allocator *)

(** What clients do: allocate, and free what they hold. [live] maps each pointer
    handed out and not yet freed to the size asked for. *)
Inductive reach (start total : Z) : heap -> gmap Z Z -> Prop :=
| reach_init : reach start total (heap_init start total) ∅
| reach_malloc h live n h' p :
    reach start total h live -> 0 <= n -> kmalloc h n = Some (h', p) -> p <> 0 ->
    reach start total h' (<[p := n]> live)
| reach_malloc_none h live n h' :
    reach start total h live -> 0 <= n -> kmalloc h n = Some (h', 0) -> reach start total h' live
| reach_free h live p n h' :
    reach start total h live -> live !! p = Some n -> kfree h p = Some h' ->
    reach start total h' (delete p live).

Definition live_ok (h : heap) (bs : list seg) (live : gmap Z Z) : Prop :=
  forall p n, live !! p = Some n ->
    exists s, 0 < n <= s /\ at_off bs (p - h_start h - HDR) s false.

Section Reach.
Context (start total : Z) (Hst : 0 < start) (Hst8 : start mod 8 = 0) (Ht : HDR <= total < 2 ^ 32).

(** The one lemma behind the three properties: each call on a related heap gives an
    answer and a related heap. *)
Lemma kmalloc_total h bs n :
  heap_rel h bs -> 0 <= n ->
  (kmalloc h n = Some (h, 0)) \/
  (exists l1 sz l2 h', bs = l1 ++ (sz, true) :: l2 /\ round8 n <= sz /\ 0 < n <= 0xFFFFFF00 /\
    kmalloc h n = Some (h', h_start h + blen l1 + HDR) /\
    heap_rel h' (l1 ++ (if sz <? round8 n + HDR + MIN_SPLIT then (sz, false) :: l2
                 else (round8 n, false) :: (sz - round8 n - HDR, true) :: l2)) /\
    h_start h' = h_start h /\ h_total h' = h_total h).
Proof.
  intros Hr Hn. destruct (decide (0 < n <= 0xFFFFFF00)) as [Hn'|Hn'].
  - pose proof (kmalloc_refines h bs n Hr Hn') as H.
    destruct (alloc_list bs (round8 n)) as [[bs' off]|] eqn:E; [|by left]. right.
    apply alloc_list_inv in E as (l1 & sz & l2 & -> & Hle & -> & _ & ->).
    destruct H as (h' & E & Hr' & Hs & Hto). exists l1, sz, l2, h'. done.
  - left. unfold kmalloc. destruct (Z.eqb_spec n 0); cbn [orb]; [done|].
    by rewrite (proj2 (Z.ltb_lt _ n)) by lia.
Qed.

Lemma reach_rel h live :
  reach start total h live ->
  exists bs, heap_rel h bs /\ live_ok h bs live /\ h_start h = start /\ h_total h = total /\ roomy (Z.min 8 (total - HDR)) bs.
Proof.
  induction 1 as [|h live n h' p Hreach (bs & Hr & Hl & Hs & Hto & Hro) Hn E Hp
                  |h live n h' Hreach (bs & Hr & Hl & Hs & Hto & Hro) Hn E
                  |h live p n h' Hreach (bs & Hr & Hl & Hs & Hto & Hro) Hp E].
  - exists [(total - HDR, true)]. split; [by apply heap_init_rel|]. split; [by intros ? ?|].
    split; [done|]. split; [cbn; apply u32_id; unfold is_word, HDR in *; lia|]. constructor; [cbn [fst]; lia|constructor].
  - destruct (kmalloc_total h bs n Hr Hn) as [E'|(l1 & sz & l2 & h2 & -> & Hle & Hn' & E' & Hr' & Hs' & Hto')];
      rewrite E in E'; injection E' as -> ->; [done|].
    pose proof (round8_spec n Hn) as [H8m H8].
    eexists. split; [done|]. split; [|rewrite Hs', Hto'; split; [done|split; [done|apply roomy_alloc; [dlia|unfold MIN_SPLIT; lia|done]]]]. intros q k. rewrite Hs'.
    destruct (decide (q = h_start h + blen l1 + HDR)) as [->|Hq].
    + rewrite lookup_insert_eq. intros [= <-]. destruct (alloc_at_off l1 sz l2 (round8 n) Hle) as (s & ? & ?).
      exists s. split; [lia|]. by replace (h_start h + blen l1 + HDR - h_start h - HDR) with (blen l1) by lia.
    + rewrite lookup_insert_ne by done. intros (s & ? & ?)%Hl. exists s. split; [done|]. by apply at_off_alloc.
  - destruct (kmalloc_total h bs n Hr Hn) as [E'|(l1 & sz & l2 & h2 & -> & Hle & Hn' & E' & Hr' & Hs' & Hto')];
      rewrite E in E'; injection E' as ->; [by exists bs|]. exfalso.
    destruct Hr as [_ _ _ _ Hsz _ _ _ _]. apply Forall_app in Hsz as [Hsz _].
    pose proof (blen_nonneg _ Hsz). unfold HDR in *. lia.
  - destruct (Hl p n Hp) as (s & Hns & (l1 & l2 & -> & Ho)%at_off_split).
    destruct (kfree_refines h l1 s l2 Hr) as (h2 & E' & Hr' & Hs' & Hto').
    replace p with (h_start h + blen l1 + HDR) in E by lia. rewrite E in E'. injection E' as ->.
    eexists. split; [done|]. split; [|rewrite Hs', Hto'; split; [done|split; [done|apply roomy_free; [unfold HDR in *; lia|done]]]].
    intros q k. rewrite lookup_delete. case_decide as Hq; [done|].
    intros (s' & ? & ?)%Hl. exists s'. split; [done|]. rewrite Hs'. apply at_off_free; [done|].
    intros Hbl. apply Hq. lia.
Qed.
End Reach.

(** C12: In a heap of up to 512 MiB, the most kernel/main.c gives it, at a start aligned
    to eight bytes: whatever sequence of kmalloc and kfree calls a client makes, freeing only
    what it holds, every call returns (no read of a stray address, the search ends), the
    payloads of the pointers it holds lie inside the heap, are aligned to eight bytes and
    never overlap, and heap_check says the heap is good. *)
Theorem heap_runs_safe start total h live :
  0 < start -> start mod 8 = 0 -> HDR <= total <= 2 ^ 29 -> reach start total h live ->
  heap_check h = true /\
  (forall n, 0 <= n -> exists r, kmalloc h n = Some r) /\
  (forall p n, live !! p = Some n ->
     start + HDR <= p /\ p + n <= start + total /\ p mod 8 = 0 /\ (exists h', kfree h p = Some h')) /\
  (forall p1 n1 p2 n2, live !! p1 = Some n1 -> live !! p2 = Some n2 -> p1 <> p2 ->
     p1 + n1 <= p2 - HDR \/ p2 + n2 <= p1 - HDR).
Proof.
  intros Hst Hst8 Ht Hreach.
  destruct (reach_rel start total Hst Hst8 ltac:(unfold HDR in *; lia) h live Hreach)
    as (bs & Hr & Hl & Hs & Hto & Hro). pose proof Hr as [_ _ _ _ Hsz Hw [Hbl _] _ _].
  split; [|split; [|split]].
  - apply (heap_check_ok h bs Hr). pose proof (roomy_count _ _ Hro) as Hn. unfold HDR in *.
    destruct (Z.min_spec 8 (total - 24)) as [[? E]|[? E]]; rewrite E in Hn; nia.
  - intros n Hn. destruct (kmalloc_total h bs n Hr Hn) as [E|(? & ? & ? & ? & _ & _ & _ & E & _)]; eauto.
  - intros p n Hp. destruct (Hl p n Hp) as (s & Hns & Ho).
    destruct (at_off_bounds _ _ _ _ Hsz Ho) as (? & ? & ?). pose proof (at_off_aligned _ _ _ _ Hw Ho).
    split; [lia|]. split; [lia|]. split; [unfold HDR in *; dlia|].
    apply at_off_split in Ho as (l1 & l2 & -> & Ho). destruct (kfree_refines h l1 s l2 Hr) as (h' & E & _).
    exists h'. by replace p with (h_start h + blen l1 + HDR) by lia.
  - intros p1 n1 p2 n2 H1 H2 Hne. destruct (Hl _ _ H1) as (s1 & ? & O1). destruct (Hl _ _ H2) as (s2 & ? & O2).
    destruct (at_off_disjoint _ _ _ _ _ _ _ Hsz O1 O2) as [(? & _)|[]]; lia.
Qed.

(** Kmalloc is first fit on the list of blocks the headers describe: it
    returns the payload of the lowest free block that is large enough, split when
    what is left would hold a header and sixteen bytes, and returns zero, changing
    nothing, exactly when no free block is large enough. *)
Theorem kmalloc_first_fit h bs n :
  heap_rel h bs -> 0 < n <= 0xFFFFFF00 ->
  match alloc_list bs (round8 n) with
  | None => kmalloc h n = Some (h, 0) /\ forall o s, at_off bs o s true -> s < round8 n
  | Some (bs', off) =>
      exists h', kmalloc h n = Some (h', h_start h + off + HDR) /\ heap_rel h' bs' /\
        (exists s, n <= s /\ at_off bs' off s false) /\
        forall o s, at_off bs o s true -> o < off -> s < round8 n
  end.
Proof.
  intros Hr Hn. pose proof (kmalloc_refines h bs n Hr Hn) as H. pose proof Hr as [_ _ _ _ Hsz _ _ _ _].
  destruct (alloc_list bs (round8 n)) as [[bs' off]|] eqn:E.
  - destruct H as (h' & E' & Hr' & _). exists h'. split; [done|]. split; [done|].
    pose proof (round8_spec n ltac:(lia)) as [_ H8].
    apply alloc_list_inv in E as (l1 & sz & l2 & -> & Hle & -> & Hun & ->).
    destruct (alloc_at_off l1 sz l2 (round8 n) Hle) as (s & ? & ?). split; [exists s; split; [lia|done]|].
    intros o s' Ho Hlt. apply at_off_app in Ho as [Ho|Ho]; [by eapply unfit_at_off|].
    apply Forall_app in Hsz as [_ Hsz]. apply at_off_bounds in Ho; [lia|done].
  - split; [done|]. intros o s Ho. eapply unfit_at_off; [|done]. by apply alloc_list_none_inv.
Qed.

(** ** A free undoes an allocation *)

Lemma free_undoes_alloc l1 sz l2 n :
  coalesced (l1 ++ (sz, true) :: l2) ->
  exists s r, (if sz <? n + HDR + MIN_SPLIT then (sz, false) :: l2
           else (n, false) :: (sz - n - HDR, true) :: l2) = (s, false) :: r /\
         free_block l1 s r = l1 ++ (sz, true) :: l2.
Proof.
  intros [Hc1 Hc2]%coalesced_app.
  assert (forall r, free_list l1 ((sz, true) :: r) = l1 ++ (sz, true) :: r) as Hl.
  { intros r. destruct l1 as [|[s1 f1] l1 _] using rev_ind; [done|].
    rewrite <- app_assoc in Hc1. apply coalesced_app in Hc1 as [_ Hc1].
    destruct f1; [cbn in Hc1; tauto|]. by rewrite free_list_used, <- app_assoc. }
  unfold free_block. case_bool; eexists _, _; (split; [done|]); cbn [absorb_next].
  - destruct l2 as [|[s2 []] l2]; cbn [absorb_next]; try apply Hl. cbn in Hc2. tauto.
  - replace (n + (HDR + (sz - n - HDR))) with sz by lia. apply Hl.
Qed.

(** Freeing what was just allocated puts the heap back exactly: the same
    blocks with the same sizes in the same places, and the same count of bytes in
    use. *)
Theorem kfree_kmalloc_roundtrip h bs n h' p :
  heap_rel h bs -> 0 <= n -> kmalloc h n = Some (h', p) -> p <> 0 ->
  exists h'', kfree h' p = Some h'' /\ heap_rel h'' bs /\ h_used h'' = h_used h.
Proof.
  intros Hr Hn E Hp. pose proof Hr as [_ _ _ _ _ _ _ Hu Hco].
  destruct (kmalloc_total h bs n Hr Hn) as [E'|(l1 & sz & l2 & h2 & -> & _ & _ & E' & Hr' & Hs' & _)];
    rewrite E in E'; injection E' as -> ->; [done|].
  destruct (free_undoes_alloc l1 sz l2 (round8 n) Hco) as (s & r & Eq & Hf).
  rewrite Eq in Hr'. destruct (kfree_refines h2 l1 s r Hr') as (h'' & E' & Hr'' & _).
  rewrite Hs' in E'. exists h''. split; [done|]. rewrite Hf in Hr''. split; [done|].
  destruct Hr'' as [_ _ _ _ _ _ _ Hu'' _]. congruence.
Qed.

(** ** A second free is ignored *)

Definition flag (m : gmap Z block) (x : Z) : option bool := b_free <$> m !! x.

Lemma write_at_flag a f m m' x :
  (forall B, b_free (f B) = b_free B) -> write_at a f m = Some m' -> flag m' x = flag m x.
Proof.
  intros Hf. unfold write_at, flag. destruct (m !! a) as [B|] eqn:E; [|done]. intros [= <-].
  destruct (decide (x = a)) as [->|]; [|by rewrite lookup_insert_ne].
  rewrite lookup_insert_eq, E. cbn. by rewrite Hf.
Qed.
Lemma write_prev_flag a v m m' x : write_prev a v m = Some m' -> flag m' x = flag m x.
Proof.
  unfold write_prev. case_bool; [by intros [= <-]|]. by apply write_at_flag.
Qed.
Ltac opt_inv H :=
  repeat match type of H with
  | (_ ≫= _) = Some _ => let E := fresh "E" in apply bind_Some in H as (? & E & H)
  | (if ?b then _ else _) = Some _ => destruct b
  end.
Ltac flags := repeat match goal with
  | E : write_prev _ _ _ = Some ?m |- context [flag ?m _] => rewrite (write_prev_flag _ _ _ _ _ E)
  | E : write_at _ _ _ = Some ?m |- context [flag ?m _] =>
      erewrite (write_at_flag _ _ _ m); [| |exact E]; [|done]
  end.
Lemma merge_flags b m m1 m2 x :
  merge_forward b m = Some m1 -> merge_backward b m1 = Some m2 -> flag m2 x = flag m x.
Proof.
  unfold merge_forward, merge_backward. intros H1 H2. opt_inv H1; opt_inv H2; simplify_eq; by flags.
Qed.

(** freeing a pointer again right after freeing it does nothing, whatever
    merging the first free did: its stale header still says free. *)
Theorem double_free_ignored h h' p : kfree h p = Some h' -> kfree h' p = Some h'.
Proof.
  intros H. unfold kfree in *. case_bool; [done|].
  destruct (h_blocks h !! (p - HDR)) as [B|] eqn:EB; cbn [mbind option_bind] in H; [|done].
  destruct (b_free B) eqn:EF; [injection H as <-; by rewrite EB; cbn; rewrite EF|].
  unfold write_at in H. rewrite EB in H. cbn [mbind option_bind] in H.
  destruct (merge_forward _ _) as [m1|] eqn:E1; cbn [mbind option_bind] in H; [|done].
  destruct (merge_backward _ _) as [m2|] eqn:E2; cbn [mbind option_bind] in H; [|done].
  injection H as <-. cbn [h_blocks]. pose proof (merge_flags _ _ _ _ (p - HDR) E1 E2) as Hf.
  unfold flag in Hf. rewrite lookup_insert_eq in Hf. destruct (m2 !! (p - HDR)) as [B2|]; [|done].
  cbn in Hf |- *. by injection Hf as ->.
Qed.

(** ** Witnesses: a heap of 1 KiB at 4096 and one allocation of a hundred bytes *)

Definition demo_init : heap := heap_init 4096 1024.
Definition demo_after : heap :=
  match kmalloc demo_init 100 with Some (h, _) => h | None => demo_init end.

Lemma demo_kmalloc : kmalloc demo_init 100 = Some (demo_after, 4120).
Proof. vm_compute. reflexivity. Qed.
Lemma demo_rel : heap_rel demo_init [(1000, true)].
Proof. by apply (heap_init_rel 4096 1024). Qed.

Lemma heap_runs_safe_witness :
  exists (h : heap) (live : gmap Z Z), live !! 4120 = Some 100 /\ heap_check h = true /\ exists h', kfree h 4120 = Some h'.
Proof.
  exists demo_after, {[ 4120 := 100 ]}.
  assert (reach 4096 1024 demo_after {[ 4120 := 100 ]}) as H.
  { apply (reach_malloc 4096 1024 demo_init ∅ 100); [apply reach_init|done|apply demo_kmalloc|done]. }
  destruct (heap_runs_safe 4096 1024 demo_after {[ 4120 := 100 ]}) as (H1 & _ & H2 & _);
    [done|done|done|done|].
  destruct (H2 4120 100 eq_refl) as (_ & _ & _ & H3). split; [done|]. by split.
Defined.

Lemma kmalloc_first_fit_witness :
  exists h', kmalloc demo_init 100 = Some (h', 4120) /\ heap_rel h' [(104, false); (872, true)].
Proof.
  destruct (kmalloc_first_fit demo_init [(1000, true)] 100 demo_rel ltac:(done)) as (h' & E & H & _).
  by exists h'.
Defined.

Lemma kfree_kmalloc_roundtrip_witness :
  exists h'', kfree demo_after 4120 = Some h'' /\ heap_rel h'' [(1000, true)].
Proof.
  destruct (kfree_kmalloc_roundtrip demo_init [(1000, true)] 100 demo_after 4120) as (h'' & E & H & _);
    [apply demo_rel|done|apply demo_kmalloc|done|]. by exists h''.
Defined.

Lemma double_free_ignored_witness :
  exists h', kfree demo_after 4120 = Some h' /\ kfree h' 4120 = Some h'.
Proof.
  destruct (kfree demo_after 4120) as [h'|] eqn:E; [|by vm_compute in E].
  exists h'. split; [done|]. by apply (double_free_ignored demo_after).
Defined.
