(* ===== verification/Pmm.v ===== *)
(** kernel/pmm.c: the physical frame allocator, one bit per 4 KiB frame, the
    search hint, and the byte a frame counting the holders past the first.

    The lock is not modelled (one operation at a time) and [pmm_test_probe] is the
    self test's hook. The heap's answer to [kcalloc] in [pmm_share_init] is an
    argument. *)
From S2P Require Import Prelude.

Definition PAGE_SIZE : Z := 4096.
Definition KERNEL_SPACE_MAX_GB : Z := 64.
Definition MEM_USABLE : Z := 1.

Record mem_region := Region { r_base : Z; r_len : Z; r_type : Z }.

Record pmm := Pmm {
  bitmap : list Z;          (* u32 words *)
  bitmap_bytes : Z;
  total_frames : Z;
  used_frames : Z;
  next_hint : Z;
  test_allocs_left : Z;
  extra : option (list Z);  (* u8 a frame, null until pmm_share_init *)
  shared_now : Z
}.

Definition with_bits (p : pmm) (b : list Z) (u : Z) : pmm :=
  Pmm b (bitmap_bytes p) (total_frames p) u (next_hint p) (test_allocs_left p) (extra p) (shared_now p).
Definition with_hint (p : pmm) (h : Z) : pmm :=
  Pmm (bitmap p) (bitmap_bytes p) (total_frames p) (used_frames p) h (test_allocs_left p) (extra p) (shared_now p).
Definition with_left (p : pmm) (n : Z) : pmm :=
  Pmm (bitmap p) (bitmap_bytes p) (total_frames p) (used_frames p) (next_hint p) n (extra p) (shared_now p).
Definition with_extra (p : pmm) (e : option (list Z)) (s : Z) : pmm :=
  Pmm (bitmap p) (bitmap_bytes p) (total_frames p) (used_frames p) (next_hint p) (test_allocs_left p) e s.

Definition FRAME_IDX (a : Z) : Z := a / PAGE_SIZE.
Definition IDX_ADDR (i : Z) : Z := i * PAGE_SIZE.
Definition page_down (a : Z) : Z := a .& u64 (Z.lnot (PAGE_SIZE - 1)).

Definition mark_used (frame : Z) (p : pmm) : pmm :=
  if total_frames p <=? frame then p else
  let i := frame / 32 in let b := frame mod 32 in
  if (bitmap p).[i] .& (1 .<< b) =? 0
  then with_bits p (bitmap p).[i := (bitmap p).[i] .| (1 .<< b)] (u64 (used_frames p + 1))
  else p.

Definition mark_free (frame : Z) (p : pmm) : pmm :=
  if total_frames p <=? frame then p else
  let i := frame / 32 in let b := frame mod 32 in
  if (bitmap p).[i] .& (1 .<< b) =? 0 then p
  else with_bits p (bitmap p).[i := (bitmap p).[i] .& u32 (Z.lnot (1 .<< b))] (u64 (used_frames p - 1)).

Definition is_used (p : pmm) (frame : Z) : bool :=
  if total_frames p <=? frame then true
  else negb ((bitmap p).[frame / 32] .& (1 .<< (frame mod 32)) =? 0).

Definition pmm_frame_free (p : pmm) (addr : Z) : bool := negb (is_used p (FRAME_IDX addr)).

(** [for (u64 a = first; a < last; a += PAGE_SIZE) f(FRAME_IDX(a))], [first] and
    [last] whole pages: the pages, in order. *)
Definition pages (first last : Z) : list Z :=
  (fun i => FRAME_IDX (first + i * PAGE_SIZE)) <$> seqZ 0 ((last - first) / PAGE_SIZE).
Definition mark_pages (f : Z -> pmm -> pmm) (first last : Z) (p : pmm) : pmm :=
  foldl (fun p i => f i p) p (pages first last).

Definition pmm_reserve (start size : Z) (p : pmm) : pmm :=
  let first := page_down start in
  let last := page_down (u64 (start + size + PAGE_SIZE - 1)) in
  mark_pages mark_used first last p.

(** The highest address the loader described as usable. *)
Definition highest_usable (regions : list mem_region) : Z :=
  foldl (fun h r => if negb (r_type r =? MEM_USABLE) then h
                    else if h <? u64 (r_base r + r_len r) then u64 (r_base r + r_len r) else h) 0 regions.

(** The address of the bitmap: the page after the kernel image. *)
Definition bitmap_at (kernel_end : Z) : Z := page_down (u64 (kernel_end + PAGE_SIZE - 1)).

(** How far the allocator reaches: capped by the kernel's space and by what a bitmap
    in the gap below [limit] can describe. *)
Definition clamp_highest (highest kernel_end limit : Z) : Z :=
  let highest := if highest =? 0 then 64 * 1024 * 1024 else highest in
  let cap := KERNEL_SPACE_MAX_GB * 1024 * 1024 * 1024 in
  let highest := if cap <? highest then cap else highest in
  let bm := bitmap_at kernel_end in
  let room := if bm <? limit then limit - bm else 0 in
  let describable := u64 (u64 (room * 8) * PAGE_SIZE) in
  if describable <? highest then describable else highest.

(** [memset(bitmap, 0xFF, n)] on memory holding the words [old]. *)
Definition fill_words (n : Z) (old : list Z) : list Z :=
  imap (fun i w => let k := n - 4 * Z.of_nat i in
          if k <=? 0 then w else if 4 <=? k then 0xFFFFFFFF
          else (w .& u32 (Z.lnot (Z.ones (8 * k)))) .| Z.ones (8 * k)) old.

(** The frames of a usable region, released. The loop stops at [highest], so
    [highest / PAGE_SIZE + 1] rounds are enough ([release_loop_ok]). *)
Fixpoint release_loop (fuel : nat) (a z highest : Z) (p : pmm) : pmm :=
  match fuel with
  | O => p
  | S fuel => if (u64 (a + PAGE_SIZE) <=? z) && (a <? highest)
              then release_loop fuel (u64 (a + PAGE_SIZE)) z highest (mark_free (FRAME_IDX a) p) else p
  end.
Definition release_region (highest : Z) (p : pmm) (r : mem_region) : pmm :=
  if negb (r_type r =? MEM_USABLE) then p else
  let a := page_down (u64 (r_base r + PAGE_SIZE - 1)) in
  let z := page_down (u64 (r_base r + r_len r)) in
  release_loop (Z.to_nat (highest / PAGE_SIZE + 1)) a z highest p.

(** [old]: the words in memory where the bitmap goes. *)
Definition pmm_init (regions : list mem_region) (limit kernel_start kernel_end : Z) (old : list Z) : pmm :=
  let highest := clamp_highest (highest_usable regions) kernel_end limit in
  let total := highest / PAGE_SIZE in
  let nbytes := (total + 7) / 8 in
  let p := Pmm (fill_words nbytes old) nbytes total total 0 0xFFFFFFFF None 0 in
  let p := foldl (release_region highest) p regions in
  let p := mark_pages mark_used 0 0x100000 p in
  let kstart := page_down kernel_start in
  let kend := page_down (u64 (bitmap_at kernel_end + nbytes + PAGE_SIZE - 1)) in
  mark_pages mark_used kstart kend p.

Definition pmm_test_fail_after (n : Z) (p : pmm) : pmm := with_left p n.

(** The search of pmm_alloc_frame, from [n] frames past the hint on. *)
Fixpoint alloc_search (p : pmm) (n : Z) (fuel : nat) : option Z :=
  match fuel with
  | O => None
  | S fuel =>
      let i := next_hint p + n in
      let i := if total_frames p <=? i then i - total_frames p else i in
      if is_used p i then alloc_search p (n + 1) fuel else Some i
  end.

Definition pmm_take (i : Z) (p : pmm) : pmm :=
  let p := mark_used i p in
  with_hint p (if total_frames p <=? i + 1 then 0 else i + 1).

Definition pmm_alloc_frame (p : pmm) : pmm * Z :=
  let limited := negb (test_allocs_left p =? 0xFFFFFFFF) in
  if limited && (test_allocs_left p =? 0) then (p, 0) else
  let p := if limited then with_left p (test_allocs_left p - 1) else p in
  match alloc_search p 0 (Z.to_nat (total_frames p)) with
  | Some i => (pmm_take i p, IDX_ADDR i)
  | None => (p, 0)
  end.

(** ** Sharing *)

(** [got]: whether the heap had room for the table. *)
Definition pmm_share_init (got : bool) (p : pmm) : pmm :=
  match extra p with
  | Some _ => p
  | None => if total_frames p =? 0 then p
            else if got then with_extra p (Some (replicate (Z.to_nat (total_frames p)) 0)) (shared_now p)
            else p
  end.

Definition pmm_share_ready (p : pmm) : bool := if extra p is Some _ then true else false.

Definition pmm_share (addr : Z) (p : pmm) : pmm * bool :=
  match extra p with
  | None => (p, false)
  | Some e =>
      if addr =? 0 then (p, false) else
      let f := FRAME_IDX addr in
      if total_frames p <=? f then (p, false) else
      if e.[f] =? 255 then (p, false)
      else (with_extra p (Some e.[f := u8 (e.[f] + 1)])
              (if e.[f] =? 0 then u64 (shared_now p + 1) else shared_now p), true)
  end.

Definition pmm_holders (p : pmm) (addr : Z) : Z :=
  if addr =? 0 then 0 else
  let f := FRAME_IDX addr in
  if total_frames p <=? f then 0 else 1 + (if extra p is Some e then e.[f] else 0).

Definition pmm_free_frame (addr : Z) (p : pmm) : pmm :=
  if addr =? 0 then p else
  let f := FRAME_IDX addr in
  match extra p with
  | Some e =>
      if (f <? total_frames p) && negb (e.[f] =? 0) then
        let v := u8 (e.[f] - 1) in
        with_extra p (Some e.[f := v]) (if v =? 0 then u64 (shared_now p - 1) else shared_now p)
      else mark_free f p
  | None => mark_free f p
  end.

Definition pmm_shared_frames (p : pmm) : Z := shared_now p.
Definition pmm_free_frames (p : pmm) : Z := total_frames p - used_frames p.

(** ** The invariant *)

Definition extra_of (p : pmm) (f : Z) : Z := if extra p is Some e then e.[f] else 0.
(** How many hold a frame, zero for a free one. *)
Definition hold (p : pmm) (f : Z) : Z :=
  if (0 <=? f) && (f <? total_frames p) && is_used p f then 1 + extra_of p f else 0.

Record bits_ok (p : pmm) : Prop := {
  bo_total : 0 <= total_frames p < 2 ^ 32;
  bo_room : total_frames p <= 32 * zlen (bitmap p);
  bo_words : Forall (is_word 32) (bitmap p);
  bo_used : used_frames p = cnt (is_used p) (Z.to_nat (total_frames p))
}.
Record pmm_ok (p : pmm) : Prop := {
  po_bits : bits_ok p;
  po_hint : 0 <= next_hint p /\ (next_hint p < total_frames p \/ next_hint p = 0);
  po_zero : is_used p 0 = true;
  po_extra : match extra p with
             | None => shared_now p = 0
             | Some e => zlen e = total_frames p /\ bytes e /\
                 (forall f, 0 <= f < total_frames p -> e.[f] <> 0 -> is_used p f = true) /\
                 shared_now p = cnt (fun f => negb (e.[f] =? 0)) (Z.to_nat (total_frames p))
             end
}.

Lemma is_used_bit p f : 0 <= f < total_frames p -> is_used p f = Z.testbit (bitmap p).[f / 32] (f mod 32).
Proof.
  intros Hf. unfold is_used. rewrite (proj2 (Z.leb_gt (total_frames p) f)) by lia.
  rewrite land_pow2_test by dlia. apply negb_involutive.
Qed.

Lemma word_index f g : 0 <= f -> 0 <= g -> f / 32 <> g / 32 \/ (f / 32 = g / 32 /\ (f mod 32 = g mod 32 <-> f = g)).
Proof. intros. destruct (decide (f / 32 = g / 32)); [right|by left]. split; [done|]. dlia. Qed.

(** Changing one bit of the bitmap. *)
Lemma set_word_used p f w u g (q := with_bits p (bitmap p).[f / 32 := w] u) v :
  bits_ok p -> 0 <= f < total_frames p -> 0 <= g < total_frames p ->
  (forall n, 0 <= n < 32 -> Z.testbit w n = if n =? f mod 32 then v else Z.testbit (bitmap p).[f / 32] n) ->
  is_used q g = if g =? f then v else is_used p g.
Proof.
  intros [_ Hr _ _] Hf Hg Hw. rewrite !is_used_bit by done. unfold q, with_bits; cbn [bitmap].
  destruct (word_index g f ltac:(lia) ltac:(lia)) as [Hne|[He Hm]].
  - rewrite getz_setz_ne by first [dlia | congruence]. case_bool; [by subst|done].
  - rewrite He, getz_setz_eq by dlia. rewrite Hw by dlia.
    destruct (Z.eqb_spec g f), (Z.eqb_spec (g mod 32) (f mod 32)); try done; tauto.
Qed.

Lemma bits_ok_set p f w u v (q := with_bits p (bitmap p).[f / 32 := w] u) :
  bits_ok p -> 0 <= f < total_frames p -> is_word 32 w ->
  (forall n, 0 <= n < 32 -> Z.testbit w n = if n =? f mod 32 then v else Z.testbit (bitmap p).[f / 32] n) ->
  u = used_frames p - (if is_used p f then 1 else 0) + (if v : bool then 1 else 0) ->
  bits_ok q /\ (forall g, 0 <= g < total_frames p -> is_used q g = if g =? f then v else is_used p g).
Proof.
  intros Hp Hf Hw Hb Hu. pose proof Hp as [Ht Hr Hws Hus].
  assert (forall g, 0 <= g < total_frames p -> is_used q g = if g =? f then v else is_used p g) as HU.
  { intros g Hg. by apply set_word_used. }
  split; [|done]. constructor.
  - done.
  - change (total_frames p <= 32 * zlen (setz (bitmap p) (f / 32) w)). by rewrite length_setz.
  - by apply Forall_setz.
  - change (u = cnt (is_used q) (Z.to_nat (total_frames p))).
    rewrite (cnt_update (is_used p) (is_used q) _ f); [|lia|].
    + rewrite (HU f) by lia. rewrite Z.eqb_refl. lia.
    + intros i Hi Hn. rewrite HU by lia. by rewrite (proj2 (Z.eqb_neq i f)).
Qed.

Lemma Forall_word_getz w l i : 0 <= w -> Forall (is_word w) l -> is_word w l.[i].
Proof.
  intros. apply (Forall_getz (is_word w)); [|done]. split; [done|]. by apply Z.pow_pos_nonneg.
Qed.

Lemma used_count_bounds p f :
  bits_ok p -> 0 <= f < total_frames p ->
  (is_used p f = false -> 0 <= used_frames p < total_frames p) /\
  (is_used p f = true -> 0 < used_frames p <= total_frames p).
Proof.
  intros [Ht _ _ ->] Hf. pose proof (cnt_bounds (is_used p) (Z.to_nat (total_frames p))). split; intros E.
  - pose proof (cnt_update (is_used p) (fun i => if i =? f then true else is_used p i) (Z.to_nat (total_frames p)) f ltac:(lia)) as H'.
    rewrite E, Z.eqb_refl in H'.
    pose proof (cnt_bounds (fun i => if i =? f then true else is_used p i) (Z.to_nat (total_frames p))).
    rewrite H' in *; [lia|]. intros i Hi Hn. by rewrite (proj2 (Z.eqb_neq i f)).
  - pose proof (cnt_pos (is_used p) (Z.to_nat (total_frames p)) f ltac:(lia) E). lia.
Qed.

Lemma mark_used_ok f p :
  bits_ok p -> 0 <= f ->
  bits_ok (mark_used f p) /\ total_frames (mark_used f p) = total_frames p /\
  (forall g, 0 <= g < total_frames p -> is_used (mark_used f p) g = (g =? f) || is_used p g).
Proof.
  intros Hp Hf. unfold mark_used. case_bool.
  { split; [done|]. split; [done|]. intros g Hg. by rewrite (proj2 (Z.eqb_neq g f)) by lia. }
  rewrite land_pow2_test by dlia. pose proof (is_used_bit p f ltac:(lia)) as Hu.
  destruct (Z.testbit _ _); cbn [negb].
  { split; [done|]. split; [done|]. intros g Hg. case_bool; [subst; by rewrite Hu|done]. }
  pose proof (used_count_bounds p f Hp ltac:(lia)) as [Hc _]. pose proof Hp as [Ht _ Hw _].
  specialize (Hc Hu). rewrite u64_id by (unfold is_word; lia).
  assert (0 <= f mod 32 < 32) by dlia.
  destruct (bits_ok_set p f ((bitmap p).[f / 32] .| (1 .<< (f mod 32))) (used_frames p + 1) true Hp) as [H1 H2].
  - lia.
  - apply is_word_lor; [done|by apply Forall_word_getz|].
    rewrite Z.shiftl_1_l. split; [apply Z.pow_nonneg; lia|apply Z.pow_lt_mono_r; lia].
  - intros n Hn. rewrite testbit_set by lia. by case_bool.
  - rewrite Hu. lia.
  - split; [done|]. split; [done|]. intros g Hg. rewrite H2 by done. by case_bool.
Qed.

Lemma mark_free_ok f p :
  bits_ok p -> 0 <= f ->
  bits_ok (mark_free f p) /\ total_frames (mark_free f p) = total_frames p /\
  (forall g, 0 <= g < total_frames p -> is_used (mark_free f p) g = negb (g =? f) && is_used p g).
Proof.
  intros Hp Hf. unfold mark_free. case_bool.
  { split; [done|]. split; [done|]. intros g Hg. by rewrite (proj2 (Z.eqb_neq g f)) by lia. }
  rewrite land_pow2_test by dlia. pose proof (is_used_bit p f ltac:(lia)) as Hu.
  destruct (Z.testbit _ _); cbn [negb].
  2: { split; [done|]. split; [done|]. intros g Hg. case_bool; [subst; by rewrite Hu|done]. }
  pose proof (used_count_bounds p f Hp ltac:(lia)) as [_ Hc]. pose proof Hp as [Ht _ Hw _].
  specialize (Hc Hu). rewrite u64_id by (unfold is_word; lia).
  assert (0 <= f mod 32 < 32) by dlia.
  destruct (bits_ok_set p f ((bitmap p).[f / 32] .& u32 (Z.lnot (1 .<< (f mod 32)))) (used_frames p - 1) false Hp) as [H1 H2].
  - lia.
  - apply is_word_land_l; [done|by apply Forall_word_getz].
  - intros n Hn. rewrite testbit_clear32 by lia. by case_bool.
  - rewrite Hu. lia.
  - split; [done|]. split; [done|]. intros g Hg. rewrite H2 by done. by case_bool.
Qed.

(** ** Allocation *)

Lemma alloc_search_some p n fuel i :
  0 <= n -> n + Z.of_nat fuel <= total_frames p -> 0 <= next_hint p < total_frames p ->
  alloc_search p n fuel = Some i -> 0 <= i < total_frames p /\ is_used p i = false.
Proof.
  revert n. induction fuel as [|fuel IH]; intros n Hn Hf Hh; cbn [alloc_search]; [done|].
  set (j := if _ <=? _ then _ else _).
  assert (0 <= j < total_frames p) by (subst j; case_bool; lia).
  destruct (is_used p j) eqn:E; [apply IH; lia|]. by intros [= <-].
Qed.
Lemma alloc_search_none p n fuel k :
  alloc_search p n fuel = None -> n <= k < n + Z.of_nat fuel ->
  is_used p (if total_frames p <=? next_hint p + k then next_hint p + k - total_frames p else next_hint p + k) = true.
Proof.
  revert n. induction fuel as [|fuel IH]; intros n; cbn [alloc_search]; [lia|].
  match goal with |- context [if is_used p ?x then alloc_search _ _ _ else _] =>
    destruct (is_used p x) eqn:E; [|done] end. intros H Hk.
  destruct (decide (k = n)) as [->|]; [done|]. apply (IH (n + 1)); [done|lia].
Qed.

Lemma alloc_search_spec p :
  pmm_ok p ->
  match alloc_search p 0 (Z.to_nat (total_frames p)) with
  | Some i => 0 < i < total_frames p /\ is_used p i = false
  | None => forall f, 0 <= f < total_frames p -> is_used p f = true
  end.
Proof.
  intros [[Ht _ _ _] Hh Hz _]. destruct (alloc_search p 0 _) as [i|] eqn:E.
  - assert (0 < total_frames p) by (destruct (Z.to_nat (total_frames p)) eqn:E'; [done|lia]).
    destruct (alloc_search_some p 0 (Z.to_nat (total_frames p)) i ltac:(lia) ltac:(lia) ltac:(lia) E) as [Hi Hu].
    split; [|done]. destruct (decide (i = 0)) as [->|]; [congruence|lia].
  - intros f Hf.
    destruct (decide (next_hint p <= f)).
    + pose proof (alloc_search_none _ _ _ (f - next_hint p) E ltac:(lia)) as H.
      rewrite (proj2 (Z.leb_gt _ _)) in H by lia. by replace (next_hint p + (f - next_hint p)) with f in H by lia.
    + pose proof (alloc_search_none _ _ _ (f - next_hint p + total_frames p) E ltac:(lia)) as H.
      rewrite (proj2 (Z.leb_le _ _)) in H by lia.
      by replace (next_hint p + (f - next_hint p + total_frames p) - total_frames p) with f in H by lia.
Qed.

Lemma extra_unused p f : pmm_ok p -> 0 <= f < total_frames p -> is_used p f = false -> extra_of p f = 0.
Proof.
  intros [_ _ _ He] Hf Hu. unfold extra_of. destruct (extra p) as [e|]; [|done].
  destruct He as (_ & _ & He & _). destruct (decide (e.[f] = 0)); [done|].
  by rewrite He in Hu.
Qed.

Lemma extra_mono p q :
  total_frames q = total_frames p -> extra q = extra p -> shared_now q = shared_now p ->
  (forall f, 0 <= f < total_frames p -> is_used p f = true -> is_used q f = true \/ extra_of p f = 0) ->
  match extra p with
  | None => shared_now p = 0
  | Some e => zlen e = total_frames p /\ bytes e /\
      (forall f, 0 <= f < total_frames p -> e.[f] <> 0 -> is_used p f = true) /\
      shared_now p = cnt (fun f => negb (e.[f] =? 0)) (Z.to_nat (total_frames p))
  end ->
  match extra q with
  | None => shared_now q = 0
  | Some e => zlen e = total_frames q /\ bytes e /\
      (forall f, 0 <= f < total_frames q -> e.[f] <> 0 -> is_used q f = true) /\
      shared_now q = cnt (fun f => negb (e.[f] =? 0)) (Z.to_nat (total_frames q))
  end.
Proof.
  intros -> He -> Hu. unfold extra_of in Hu. rewrite He. destruct (extra p) as [e|]; [|done].
  intros (? & ? & H & ?). split; [done|]. split; [done|]. split; [|done].
  intros f Hf Hne. destruct (Hu f Hf (H f Hf Hne)); [done|]. congruence.
Qed.

Lemma extra_mark_used f p : extra (mark_used f p) = extra p /\ shared_now (mark_used f p) = shared_now p
  /\ next_hint (mark_used f p) = next_hint p.
Proof. unfold mark_used. case_bool; [done|]. by destruct (_ =? 0). Qed.
Lemma extra_mark_free f p : extra (mark_free f p) = extra p /\ shared_now (mark_free f p) = shared_now p
  /\ next_hint (mark_free f p) = next_hint p.
Proof. unfold mark_free. case_bool; [done|]. by destruct (_ =? 0). Qed.

Lemma hold_nonneg p f : pmm_ok p -> 0 <= hold p f <= 256.
Proof.
  intros [_ _ _ He]. unfold hold, extra_of. destruct (_ && _); [|lia].
  destruct (extra p) as [e|]; [|lia]. destruct He as (_ & He & _).
  pose proof (Forall_word_getz 8 e f ltac:(lia) He) as H. unfold is_word in H. lia.
Qed.

Lemma pmm_take_ok i p :
  pmm_ok p -> 0 < i < total_frames p -> is_used p i = false ->
  pmm_ok (pmm_take i p) /\ (forall f, hold (pmm_take i p) f = if f =? i then 1 else hold p f) /\
  total_frames (pmm_take i p) = total_frames p.
Proof.
  intros Hp Hi Hu. pose proof Hp as [Hb Hh Hz He].
  destruct (mark_used_ok i p Hb ltac:(lia)) as (Hb' & Ht & HU).
  destruct (extra_mark_used i p) as (Ee & Es & _). unfold pmm_take.
  set (q := mark_used i p) in *. rewrite Ht.
  split; [|split; [|done]].
  - constructor.
    + destruct Hb' as [A B C D]. by constructor.
    + cbn [with_hint next_hint total_frames]. rewrite Ht. case_bool; lia.
    + change (is_used q 0 = true). rewrite HU, Hz by lia. apply orb_true_r.
    + apply (extra_mono p (with_hint q _)); [done|done|done| |done]. intros f Hf Hf'. left.
      change (is_used q f = true). rewrite HU, Hf' by done. apply orb_true_r.
  - intros f. unfold hold. change (total_frames (with_hint q _)) with (total_frames q).
    change (is_used (with_hint q _) f) with (is_used q f).
    change (extra_of (with_hint q _) f) with (if extra q is Some e then e.[f] else 0). rewrite Ht, Ee.
    fold (extra_of p f). destruct (Z.eqb_spec f i) as [->|].
    + rewrite (proj2 (Z.leb_le 0 i)), (proj2 (Z.ltb_lt i _)), HU, Z.eqb_refl by lia. cbn [andb orb].
      rewrite (extra_unused p i) by (done || lia). done.
    + destruct (Z.leb_spec 0 f), (Z.ltb_spec f (total_frames p)); cbn [andb]; try done.
      rewrite HU by lia. by rewrite (proj2 (Z.eqb_neq f i)).
Qed.

Lemma with_left_ok n p : pmm_ok p -> pmm_ok (with_left p n).
Proof. by intros [[] ? ? ?]; constructor; [constructor|..]. Qed.

Lemma pmm_alloc_spec p :
  pmm_ok p ->
  pmm_ok (pmm_alloc_frame p).1 /\ total_frames (pmm_alloc_frame p).1 = total_frames p /\
  (((pmm_alloc_frame p).2 = 0 /\ (forall f, hold (pmm_alloc_frame p).1 f = hold p f) /\
     (test_allocs_left p <> 0 -> forall f, 0 <= f < total_frames p -> 0 < hold p f)) \/
   exists i, 0 < i < total_frames p /\ (pmm_alloc_frame p).2 = IDX_ADDR i /\ hold p i = 0 /\
     (forall f, hold (pmm_alloc_frame p).1 f = if f =? i then 1 else hold p f)).
Proof.
  intros Hp. unfold pmm_alloc_frame. set (lim := negb _).
  destruct (Z.eqb_spec (test_allocs_left p) 0) as [E0|E0].
  { destruct lim eqn:El; [|unfold lim in El; by rewrite E0 in El]. cbn [andb fst snd].
    split; [done|]. split; [done|]. left. done. }
  rewrite andb_false_r. set (q := if lim then _ else _).
  assert (pmm_ok q) as Hq by (unfold q; destruct lim; [by apply with_left_ok|done]).
  assert (total_frames q = total_frames p /\ forall f, hold q f = hold p f) as [Ht Hh]
    by (unfold q; by destruct lim).
  pose proof (alloc_search_spec q Hq) as Hs. destruct (alloc_search q 0 _) as [i|]; cbn [fst snd].
  - destruct Hs as [Hi Hu]. destruct (pmm_take_ok i q Hq Hi Hu) as (A & B & C).
    split; [done|]. split; [congruence|]. right. exists i. split; [lia|]. split; [done|].
    split; [rewrite <- Hh; unfold hold; by rewrite Hu, andb_false_r|]. intros f. by rewrite B, Hh.
  - split; [done|]. split; [done|]. left. split; [done|]. split; [done|]. intros _ f Hf.
    rewrite <- Hh. unfold hold. rewrite Hs by lia.
    rewrite (proj2 (Z.leb_le 0 f)), (proj2 (Z.ltb_lt f _)) by lia. cbn [andb].
    pose proof (hold_nonneg q f Hq) as H. unfold hold in H. rewrite Hs in H by lia.
    rewrite (proj2 (Z.leb_le 0 f)), (proj2 (Z.ltb_lt f _)) in H by lia. cbn [andb] in H.
    destruct Hq as [_ _ _ He]. unfold extra_of. destruct (extra q) as [e|]; [|lia].
    destruct He as (_ & He & _). pose proof (Forall_word_getz 8 e f ltac:(lia) He) as Hw.
    unfold is_word in Hw. lia.
Qed.

(** ** Sharing and giving back *)

Lemma FRAME_IDX_ADDR f : FRAME_IDX (IDX_ADDR f) = f.
Proof. unfold FRAME_IDX, IDX_ADDR, PAGE_SIZE. by apply Z.div_mul. Qed.

(** Changing one entry of the table of extra holders. *)
Lemma set_extra_ok p e f v (q := with_extra p (Some e.[f := v])
    (shared_now p - (if e.[f] =? 0 then 0 else 1) + (if v =? 0 then 0 else 1))) :
  pmm_ok p -> extra p = Some e -> 0 <= f < total_frames p -> is_used p f = true -> is_u8 v ->
  pmm_ok q /\ (forall g, hold q g = if g =? f then 1 + v else hold p g).
Proof.
  intros [Hb Hh Hz He] Ee Hf Hu Hv. rewrite Ee in He. destruct He as (Hl & Hbs & Hus & Hc).
  assert (forall g, 0 <= g -> (e.[f := v]).[g] = if g =? f then v else e.[g]) as Hg.
  { intros g Hg. case_bool; [subst; by rewrite getz_setz_eq by lia|].
    by rewrite getz_setz_ne by lia. }
  split.
  - constructor; [by destruct Hb; constructor|done|done|].
    cbn [q with_extra extra total_frames shared_now]. rewrite length_setz. split; [done|].
    split; [by apply Forall_setz|]. split.
    + intros g Hg1. change (is_used q g) with (is_used p g). rewrite Hg by lia.
      case_bool; [by subst|by apply Hus].
    + rewrite (cnt_update (fun g => negb (e.[g] =? 0)) _ _ f); [|lia|].
      * rewrite Hg, Z.eqb_refl, <- Hc by lia. by destruct (e.[f] =? 0), (v =? 0).
      * intros g Hg1 Hn. rewrite Hg by lia. by rewrite (proj2 (Z.eqb_neq g f)).
  - intros g. unfold hold. change (total_frames q) with (total_frames p).
    change (is_used q g) with (is_used p g). change (extra_of q g) with ((e.[f := v]).[g]).
    destruct (Z.eqb_spec g f) as [->|].
    + rewrite Hu, (proj2 (Z.leb_le 0 f)), (proj2 (Z.ltb_lt f _)), Hg, Z.eqb_refl by lia. done.
    + destruct (Z.leb_spec 0 g); [|done]. unfold extra_of. rewrite Ee, Hg by lia.
      by rewrite (proj2 (Z.eqb_neq g f)).
Qed.

Lemma hold_pos p f : 0 < hold p f -> 0 <= f < total_frames p /\ is_used p f = true /\ hold p f = 1 + extra_of p f.
Proof.
  unfold hold. destruct (Z.leb_spec 0 f), (Z.ltb_spec f (total_frames p)), (is_used p f); cbn [andb]; lia.
Qed.

Lemma shared_bounds p e f :
  pmm_ok p -> extra p = Some e -> 0 <= f < total_frames p ->
  (e.[f] = 0 -> 0 <= shared_now p < total_frames p) /\ (e.[f] <> 0 -> 0 < shared_now p <= total_frames p).
Proof.
  intros [_ _ _ He] Ee Hf. rewrite Ee in He. destruct He as (_ & _ & _ & ->).
  set (P := fun f => negb (e.[f] =? 0)). pose proof (cnt_bounds P (Z.to_nat (total_frames p))). split; intros E.
  - pose proof (cnt_update P (fun i => if i =? f then true else P i) (Z.to_nat (total_frames p)) f ltac:(lia)) as H'.
    assert (P f = false) as HP by (unfold P; by rewrite E). rewrite HP, Z.eqb_refl in H'.
    pose proof (cnt_bounds (fun i => if i =? f then true else P i) (Z.to_nat (total_frames p))).
    rewrite H' in *; [lia|]. intros i Hi Hn. by rewrite (proj2 (Z.eqb_neq i f)).
  - pose proof (cnt_pos P (Z.to_nat (total_frames p)) f ltac:(lia)) as H1. split; [|lia].
    apply H1. unfold P. by rewrite (proj2 (Z.eqb_neq _ 0)).
Qed.

Lemma pmm_share_spec p f :
  pmm_ok p -> 0 < f -> 0 < hold p f ->
  pmm_ok (pmm_share (IDX_ADDR f) p).1 /\ total_frames (pmm_share (IDX_ADDR f) p).1 = total_frames p /\
  (pmm_share (IDX_ADDR f) p).2 = pmm_share_ready p && (hold p f <? 256) /\
  (forall g, hold (pmm_share (IDX_ADDR f) p).1 g =
     if (g =? f) && (pmm_share (IDX_ADDR f) p).2 then hold p f + 1 else hold p g).
Proof.
  intros Hp Hf0 (Hf & Hu & Hh)%hold_pos. unfold pmm_share, pmm_share_ready.
  destruct (extra p) as [e|] eqn:Ee; cbn [fst snd andb].
  2: { split; [done|]. split; [done|]. split; [done|]. intros g. by rewrite andb_false_r. }
  rewrite FRAME_IDX_ADDR, (proj2 (Z.eqb_neq (IDX_ADDR f) 0)) by (unfold IDX_ADDR, PAGE_SIZE; lia).
  rewrite (proj2 (Z.leb_gt _ f)) by lia. rewrite Hh. unfold extra_of. rewrite Ee.
  pose proof Hp as [[Ht _ _ _] _ _ He]. rewrite Ee in He. destruct He as (_ & He & _).
  pose proof (Forall_word_getz 8 e f ltac:(lia) He) as Hb. unfold is_word in Hb.
  destruct (Z.eqb_spec e.[f] 255) as [E|E]; cbn [fst snd].
  - rewrite E. split; [done|]. split; [done|]. split; [done|]. intros g. by rewrite andb_false_r.
  - destruct (set_extra_ok p e f (u8 (e.[f] + 1)) Hp Ee Hf Hu (u8_is_word _)) as [H1 H2].
    rewrite u8_id in * by (unfold is_word; lia).
    destruct (shared_bounds p e f Hp Ee Hf) as [Hs1 Hs2].
    rewrite (proj2 (Z.eqb_neq (e.[f] + 1) 0)) in H1, H2 by lia.
    replace (if e.[f] =? 0 then u64 (shared_now p + 1) else shared_now p)
      with (shared_now p - (if e.[f] =? 0 then 0 else 1) + 1)
      by (case_bool; [rewrite u64_id by (unfold is_word; lia); lia|lia]).
    split; [done|]. split; [done|]. split; [by rewrite (proj2 (Z.ltb_lt _ 256)) by lia|].
    intros g. rewrite H2. destruct (g =? f); cbn [andb]; [lia|done].
Qed.

Lemma pmm_free_spec p f :
  pmm_ok p -> 0 < f -> 0 < hold p f ->
  pmm_ok (pmm_free_frame (IDX_ADDR f) p) /\ total_frames (pmm_free_frame (IDX_ADDR f) p) = total_frames p /\
  (forall g, hold (pmm_free_frame (IDX_ADDR f) p) g = if g =? f then hold p f - 1 else hold p g).
Proof.
  intros Hp Hf0 (Hf & Hu & Hh)%hold_pos. unfold pmm_free_frame.
  rewrite FRAME_IDX_ADDR, (proj2 (Z.eqb_neq (IDX_ADDR f) 0)) by (unfold IDX_ADDR, PAGE_SIZE; lia).
  pose proof Hp as [Hb Hhint Hz He].
  assert (extra_of p f = 0 -> pmm_ok (mark_free f p) /\ total_frames (mark_free f p) = total_frames p /\
    (forall g, hold (mark_free f p) g = if g =? f then hold p f - 1 else hold p g)) as Hfree.
  { intros E0. destruct (mark_free_ok f p Hb ltac:(lia)) as (Hb' & Ht & HU).
    destruct (extra_mark_free f p) as (E1 & E2 & E3). split; [|split; [done|]].
    - constructor; [done|by rewrite E3, Ht| |].
      + rewrite HU, Hz by lia. by rewrite (proj2 (Z.eqb_neq 0 f)) by lia.
      + apply (extra_mono p); [done|done|done| |done]. intros g Hg Hgu.
        destruct (decide (g = f)) as [->|]; [by right|left]. rewrite HU, Hgu by done.
        by rewrite (proj2 (Z.eqb_neq g f)).
    - intros g. unfold hold, extra_of. rewrite Ht, E1. fold (extra_of p g) (extra_of p f).
      destruct (Z.eqb_spec g f) as [->|].
      + rewrite HU, Z.eqb_refl, (proj2 (Z.leb_le 0 f)), (proj2 (Z.ltb_lt f _)), Hu by lia. cbn [negb andb]. lia.
      + destruct (Z.leb_spec 0 g), (Z.ltb_spec g (total_frames p)); cbn [andb]; try done.
        rewrite HU by lia. by rewrite (proj2 (Z.eqb_neq g f)). }
  unfold extra_of in Hfree, Hh. destruct (extra p) as [e|] eqn:Ee; [|by apply Hfree].
  rewrite (proj2 (Z.ltb_lt f _)) by lia. cbn [andb].
  destruct (Z.eqb_spec e.[f] 0) as [E|E]; cbn [negb]; [by apply Hfree|].
  destruct He as (_ & He & _). pose proof (Forall_word_getz 8 e f ltac:(lia) He) as Hbb. unfold is_word in Hbb.
  destruct (set_extra_ok p e f (u8 (e.[f] - 1)) Hp Ee Hf Hu (u8_is_word _)) as [H1 H2].
  rewrite u8_id in * by (unfold is_word; lia). destruct (shared_bounds p e f Hp Ee Hf) as [_ Hs].
  pose proof Hb as [Ht _ _ _]. rewrite (proj2 (Z.eqb_neq e.[f] 0)) in H1, H2 by done.
  replace (if e.[f] - 1 =? 0 then u64 (shared_now p - 1) else shared_now p)
    with (shared_now p - 1 + (if e.[f] - 1 =? 0 then 0 else 1))
    by (case_bool; [rewrite u64_id by (unfold is_word; lia); lia|lia]).
  split; [done|]. split; [done|]. intros g. rewrite H2. destruct (g =? f); [lia|done].
Qed.

Lemma pmm_share_init_spec p got :
  pmm_ok p ->
  pmm_ok (pmm_share_init got p) /\ total_frames (pmm_share_init got p) = total_frames p /\
  (forall g, hold (pmm_share_init got p) g = hold p g).
Proof.
  intros Hp. unfold pmm_share_init. pose proof Hp as [Hb Hh Hz He].
  destruct (extra p) as [e|] eqn:Ee; [done|]. case_bool; [done|]. destruct got; [|done].
  assert (forall g, (replicate (Z.to_nat (total_frames p)) 0).[g] = 0) as H0.
  { intros g. unfold getz. rewrite nth_lookup.
    destruct (replicate _ _ !! Z.to_nat g) eqn:E; [|done]. by apply lookup_replicate in E as [-> _]. }
  split; [|split; [done|]].
  - constructor; [by destruct Hb; constructor|done|done|].
    cbn [with_extra extra total_frames shared_now]. destruct Hb as [Ht _ _ _].
    rewrite length_replicate. split; [lia|]. split; [by apply Forall_replicate|].
    split; [intros f _; by rewrite H0|]. rewrite He. symmetry. apply cnt_none.
    intros f _. by rewrite H0.
  - intros g. unfold hold, extra_of. cbn [with_extra extra]. rewrite Ee, H0. done.
Qed.

(** ** Reserving ranges, and pmm_init *)

Lemma page_down_eq a : is_u64 a -> page_down a = a / PAGE_SIZE * PAGE_SIZE.
Proof. intros. unfold page_down, PAGE_SIZE. exact (mask_down a 12 ltac:(lia) H). Qed.

Lemma elem_of_pages first last g :
  first mod PAGE_SIZE = 0 -> last mod PAGE_SIZE = 0 ->
  (g ∈ pages first last <-> first <= IDX_ADDR g < last).
Proof.
  unfold pages, FRAME_IDX, IDX_ADDR, PAGE_SIZE. intros Hf Hl. rewrite list_elem_of_fmap. split.
  - intros (i & -> & Hi%elem_of_seqZ). dlia.
  - intros Hg. exists (g - first / 4096). split; [dlia|]. apply elem_of_seqZ. dlia.
Qed.

Lemma mark_pages_used first last p :
  bits_ok p -> 0 <= first -> first mod PAGE_SIZE = 0 -> last mod PAGE_SIZE = 0 ->
  bits_ok (mark_pages mark_used first last p) /\
  total_frames (mark_pages mark_used first last p) = total_frames p /\
  (forall g, 0 <= g < total_frames p -> is_used (mark_pages mark_used first last p) g =
     bool_decide (first <= IDX_ADDR g < last) || is_used p g).
Proof.
  intros Hp H0 Hf Hl.
  assert (forall l, (forall g, g ∈ l -> 0 <= g) -> forall p, bits_ok p ->
    let q := foldl (fun p i => mark_used i p) p l in
    bits_ok q /\ total_frames q = total_frames p /\
    forall g, 0 <= g < total_frames p -> is_used q g = bool_decide (g ∈ l) || is_used p g) as H.
  { induction l as [|i l IH]; intros Hl' q Hq; cbn [foldl]; [done|].
    destruct (mark_used_ok i q Hq) as (A & B & C); [apply Hl'; left|].
    destruct (IH ltac:(intros; apply Hl'; by right) _ A) as (D & E & F). split; [done|].
    split; [congruence|]. intros g Hg. rewrite F, C by lia.
    repeat case_bool_decide; case_bool; cbn [orb]; try done; set_solver. }
  destruct (H (pages first last)) with (p := p) as (A & B & C).
  - intros g Hg%elem_of_pages; [unfold IDX_ADDR, PAGE_SIZE in Hg; lia|done|done].
  - done.
  - split; [done|]. split; [done|]. intros g Hg. unfold mark_pages. rewrite C by done. f_equal.
    apply bool_decide_ext. by apply elem_of_pages.
Qed.

Lemma extra_mark_pages first last p :
  extra (mark_pages mark_used first last p) = extra p /\
  shared_now (mark_pages mark_used first last p) = shared_now p /\
  next_hint (mark_pages mark_used first last p) = next_hint p.
Proof.
  unfold mark_pages. generalize (pages first last) as l. intros l. revert p.
  induction l as [|i l IH]; intros p; cbn [foldl]; [done|].
  destruct (IH (mark_used i p)) as (-> & -> & ->). apply extra_mark_used.
Qed.

(** [p_free p f]: f is a frame the allocator knows and holds free. *)
Lemma release_loop_ok fuel a z highest p :
  bits_ok p -> 0 <= a < 2 ^ 64 -> 0 <= z < 2 ^ 64 -> a mod PAGE_SIZE = 0 -> z mod PAGE_SIZE = 0 ->
  0 <= highest < 2 ^ 63 -> total_frames p = highest / PAGE_SIZE ->
  (a < highest -> highest < a + Z.of_nat fuel * PAGE_SIZE) ->
  bits_ok (release_loop fuel a z highest p) /\
  total_frames (release_loop fuel a z highest p) = total_frames p /\
  (extra (release_loop fuel a z highest p) = extra p /\ shared_now (release_loop fuel a z highest p) = shared_now p
    /\ next_hint (release_loop fuel a z highest p) = next_hint p) /\
  (forall g, 0 <= g < total_frames p -> is_used (release_loop fuel a z highest p) g =
     negb (bool_decide (a <= IDX_ADDR g < z)) && is_used p g).
Proof.
  revert a p. induction fuel as [|fuel IH]; intros a p Hp Ha Hz Hma Hmz Hh Ht Hfuel; cbn [release_loop].
  - split; [done|]. split; [done|]. split; [done|]. intros g Hg. rewrite bool_decide_eq_false_2; [done|].
    unfold IDX_ADDR, PAGE_SIZE in *. dlia.
  - destruct (Z.ltb_spec a highest) as [Hlt|Hge].
    2: { rewrite andb_false_r. split; [done|]. split; [done|]. split; [done|]. intros g Hg.
         rewrite bool_decide_eq_false_2; [done|]. unfold IDX_ADDR, PAGE_SIZE in *. dlia. }
    rewrite u64_id by (unfold is_word, PAGE_SIZE in *; dlia).
    destruct (Z.leb_spec (a + PAGE_SIZE) z); cbn [andb].
    2: { split; [done|]. split; [done|]. split; [done|]. intros g Hg.
         rewrite bool_decide_eq_false_2; [done|]. unfold IDX_ADDR, PAGE_SIZE in *. dlia. }
    destruct (mark_free_ok (FRAME_IDX a) p Hp) as (A & B & C); [unfold FRAME_IDX, PAGE_SIZE; dlia|].
    destruct (extra_mark_free (FRAME_IDX a) p) as (E1 & E2 & E3).
    destruct (IH (a + PAGE_SIZE) (mark_free (FRAME_IDX a) p)) as (D & E & (F1 & F2 & F3) & F); try done.
    + unfold PAGE_SIZE in *. dlia.
    + unfold PAGE_SIZE in *. dlia.
    + congruence.
    + unfold PAGE_SIZE in *. dlia.
    + split; [done|]. split; [congruence|]. split; [by rewrite F1, F2, F3|]. intros g Hg.
      rewrite F, C by lia. unfold FRAME_IDX, IDX_ADDR, PAGE_SIZE in *.
      destruct (Z.eqb_spec g (a / 4096)); repeat case_bool_decide; cbn [negb andb]; try done; dlia.
Qed.

Definition region_ok (r : mem_region) : Prop :=
  0 <= r_base r /\ 0 <= r_len r /\ r_base r + r_len r + PAGE_SIZE <= 2 ^ 64.
(** Frame [g] lies wholly inside the usable region [r]. *)
Definition covers (g : Z) (r : mem_region) : bool :=
  (r_type r =? MEM_USABLE) && (r_base r <=? IDX_ADDR g) && (IDX_ADDR g + PAGE_SIZE <=? r_base r + r_len r).

Lemma release_region_ok highest p r :
  bits_ok p -> region_ok r -> 0 <= highest < 2 ^ 63 -> total_frames p = highest / PAGE_SIZE ->
  bits_ok (release_region highest p r) /\
  total_frames (release_region highest p r) = total_frames p /\
  (extra (release_region highest p r) = extra p /\ shared_now (release_region highest p r) = shared_now p
    /\ next_hint (release_region highest p r) = next_hint p) /\
  (forall g, 0 <= g < total_frames p -> is_used (release_region highest p r) g = negb (covers g r) && is_used p g).
Proof.
  intros Hp (Hb & Hl & Hs) Hh Ht. unfold release_region, covers.
  destruct (r_type r =? MEM_USABLE); cbn [negb andb]; [|done].
  unfold PAGE_SIZE in Hs. rewrite !(u64_id (r_base r + _)), !u64_id
    by (unfold is_word, PAGE_SIZE; lia).
  rewrite !page_down_eq by (unfold is_word, PAGE_SIZE; lia).
  edestruct (release_loop_ok (Z.to_nat (highest / PAGE_SIZE + 1))
    ((r_base r + PAGE_SIZE - 1) / PAGE_SIZE * PAGE_SIZE) ((r_base r + r_len r) / PAGE_SIZE * PAGE_SIZE) highest p Hp)
    as (A & B & C & D); try done; try (unfold PAGE_SIZE; dlia).
  split; [done|]. split; [done|]. split; [done|]. intros g Hg. rewrite D by done. do 2 f_equal.
  unfold IDX_ADDR, PAGE_SIZE in *. case_bool_decide; symmetry.
  - apply andb_true_iff. rewrite !Z.leb_le. dlia.
  - apply not_true_iff_false. rewrite andb_true_iff, !Z.leb_le. dlia.
Qed.

Lemma release_regions_ok highest regions p :
  bits_ok p -> Forall region_ok regions -> 0 <= highest < 2 ^ 63 -> total_frames p = highest / PAGE_SIZE ->
  let q := foldl (release_region highest) p regions in
  bits_ok q /\ total_frames q = total_frames p /\
  (extra q = extra p /\ shared_now q = shared_now p /\ next_hint q = next_hint p) /\
  (forall g, 0 <= g < total_frames p -> is_used q g = negb (existsb (covers g) regions) && is_used p g).
Proof.
  revert p. induction regions as [|r regions IH]; intros p Hp Hr Hh Ht; cbn [foldl existsb]; [done|].
  apply Forall_cons_iff in Hr as [Hr Hrs].
  destruct (release_region_ok highest p r Hp Hr Hh Ht) as (A & B & (C1 & C2 & C3) & D).
  destruct (IH (release_region highest p r) A Hrs Hh) as (E & F & (G1 & G2 & G3) & H); [congruence|].
  split; [done|]. split; [congruence|]. split; [by rewrite G1, G2, G3|]. intros g Hg.
  rewrite H, D by lia. destruct (covers g r), (existsb (covers g) regions); done.
Qed.

Lemma highest_usable_bound regions : 0 <= highest_usable regions < 2 ^ 64.
Proof.
  unfold highest_usable.
  assert (forall h, 0 <= h < 2 ^ 64 -> 0 <= foldl (fun h r => if negb (r_type r =? MEM_USABLE) then h
    else if h <? u64 (r_base r + r_len r) then u64 (r_base r + r_len r) else h) h regions < 2 ^ 64) as H;
    [|apply H; lia].
  induction regions as [|r regions IH]; intros h Hh; cbn [foldl]; [done|].
  apply IH. destruct (negb _); [done|]. destruct (_ <? _); [apply Z.mod_pos_bound; lia|done].
Qed.

Lemma clamp_bounds h ke limit :
  0 <= h -> 0 <= limit < 2 ^ 48 -> 0 <= bitmap_at ke ->
  0 <= clamp_highest h ke limit <= 2 ^ 36 /\
  clamp_highest h ke limit <= (if h =? 0 then 64 * 1024 * 1024 else h) /\
  bitmap_at ke + (clamp_highest h ke limit / PAGE_SIZE + 7) / 8 <= Z.max limit (bitmap_at ke).
Proof.
  intros Hh Hl Hk. unfold clamp_highest, KERNEL_SPACE_MAX_GB, PAGE_SIZE. set (bm := bitmap_at ke) in *.
  set (h0 := if h =? 0 then _ else h). assert (0 <= h0) by (unfold h0; case_bool; lia).
  set (h1 := if _ <? h0 then _ else h0). assert (0 <= h1 <= 2 ^ 36 /\ h1 <= h0) by (unfold h1; case_bool; lia).
  set (room := if bm <? limit then limit - bm else 0).
  assert (0 <= room < 2 ^ 48 /\ bm + room = Z.max limit bm) by (unfold room; case_bool; lia).
  rewrite !u64_id by (unfold is_word; rewrite ?u64_id by (unfold is_word; lia); lia).
  clearbody room bm h0. clear Hl Hh. clearbody h1. case_bool; dlia.
Qed.

Lemma length_fill_words n old : length (fill_words n old) = length old.
Proof. unfold fill_words. apply length_imap. Qed.

Lemma lnot_ones_word k w : 0 <= k -> is_word 32 w -> is_word 32 ((w .& u32 (Z.lnot (Z.ones k))) .| (Z.ones k .& Z.ones 32)).
Proof.
  intros Hk Hw. apply is_word_lor; [done|by apply is_word_land_l|].
  rewrite Z.land_ones by done. apply Z.mod_pos_bound. done.
Qed.

Lemma fill_words_word n old : Forall (is_word 32) old -> Forall (is_word 32) (fill_words n old).
Proof.
  intros H. apply Forall_lookup. intros i w Hw. unfold fill_words in Hw. rewrite list_lookup_imap in Hw.
  destruct (old !! i) as [v|] eqn:E; [|done]. injection Hw as <-.
  pose proof (Forall_lookup_1 _ _ _ _ H E) as Hv. cbn zeta. set (k := n - 4 * Z.of_nat i).
  destruct (Z.leb_spec k 0); [done|]. destruct (Z.leb_spec 4 k); [by split|].
  pose proof (lnot_ones_word (8 * k) v ltac:(lia) Hv) as Hr.
  assert (Z.ones (8 * k) .& Z.ones 32 = Z.ones (8 * k)) as He; [|by rewrite He in Hr].
  rewrite Z.land_ones by done. apply Z.mod_small. rewrite Z.ones_equiv.
  pose proof (Z.pow_lt_mono_r 2 (8 * k) 32). pose proof (Z.pow_pos_nonneg 2 (8 * k)). lia.
Qed.

Lemma fill_words_bit n old f :
  0 <= f < 8 * n -> f / 32 < zlen old -> Z.testbit (fill_words n old).[f / 32] (f mod 32) = true.
Proof.
  intros Hf Hl. assert (0 <= f / 32) by dlia.
  destruct (lookup_lt_is_Some_2 old (Z.to_nat (f / 32))) as [v Hv]; [lia|].
  unfold getz. rewrite nth_lookup. unfold fill_words. rewrite list_lookup_imap, Hv. cbn [fmap option_fmap option_map default id].
  rewrite Z2Nat.id by done. set (k := n - 4 * (f / 32)). cbn zeta.
  assert (0 < k) by (unfold k; dlia). rewrite (proj2 (Z.leb_gt k 0)) by done.
  destruct (Z.leb_spec 4 k).
  - change 0xFFFFFFFF with (Z.ones 32). rewrite Z.testbit_ones_nonneg by dlia. apply Z.ltb_lt. dlia.
  - rewrite Z.lor_spec, Z.testbit_ones_nonneg by dlia. rewrite (proj2 (Z.ltb_lt _ _)); [apply orb_true_r|].
    unfold k. dlia.
Qed.

(** The pages the kernel image and the bitmap take. *)
Definition own_pages (regions : list mem_region) (limit kernel_start kernel_end f : Z) : Prop :=
  let total := clamp_highest (highest_usable regions) kernel_end limit / PAGE_SIZE in
  IDX_ADDR f + PAGE_SIZE > kernel_start /\ IDX_ADDR f < bitmap_at kernel_end + (total + 7) / 8.

Record boot_ok (regions : list mem_region) (limit kernel_start kernel_end : Z) (old : list Z) : Prop := {
  bk_regions : Forall region_ok regions;
  bk_limit : 0 <= limit < 2 ^ 48;
  bk_kernel : 0 <= kernel_start <= kernel_end /\ kernel_end < 2 ^ 48;
  bk_old : Forall (is_word 32) old;
  bk_room : clamp_highest (highest_usable regions) kernel_end limit / PAGE_SIZE <= 32 * zlen old
}.

Lemma bitmap_at_eq ke : 0 <= ke < 2 ^ 48 -> bitmap_at ke = (ke + PAGE_SIZE - 1) / PAGE_SIZE * PAGE_SIZE.
Proof.
  intros. unfold bitmap_at. rewrite u64_id by (unfold is_word, PAGE_SIZE; lia).
  apply page_down_eq. unfold is_word, PAGE_SIZE; lia.
Qed.

Lemma bytes_mark_pages first last q : bitmap_bytes (mark_pages mark_used first last q) = bitmap_bytes q.
Proof.
  unfold mark_pages. generalize (pages first last) as l. intros l. revert q.
  induction l as [|i l IH]; intros q; cbn [foldl]; [done|]. rewrite IH.
  unfold mark_used. case_bool; [done|]. by destruct (_ =? 0).
Qed.
Lemma bytes_release highest regions q : bitmap_bytes (foldl (release_region highest) q regions) = bitmap_bytes q.
Proof.
  assert (forall n a z h q, bitmap_bytes (release_loop n a z h q) = bitmap_bytes q) as H.
  { induction n as [|n IH]; intros; cbn [release_loop]; [done|]. destruct (_ && _); [|done]. rewrite IH.
    unfold mark_free. case_bool; [done|]. by destruct (_ =? 0). }
  revert q. induction regions as [|r l IH]; intros q; cbn [foldl]; [done|].
  rewrite IH. unfold release_region. by destruct (negb _).
Qed.

Lemma pmm_init_spec regions limit ks ke old (p := pmm_init regions limit ks ke old) :
  boot_ok regions limit ks ke old ->
  pmm_ok p /\ total_frames p = clamp_highest (highest_usable regions) ke limit / PAGE_SIZE /\
  bitmap_at ke + bitmap_bytes p <= Z.max limit (bitmap_at ke) /\
  forall f, 0 <= f < total_frames p ->
    is_used p f = true <-> existsb (covers f) regions = false \/ f < 256 \/ own_pages regions limit ks ke f.
Proof.
  intros [Hr Hl [Hks Hke] Ho Hroom].
  pose proof (highest_usable_bound regions) as Hhu.
  pose proof (bitmap_at_eq ke ltac:(lia)) as Hbm. assert (0 <= bitmap_at ke) as Hb0 by (rewrite Hbm; unfold PAGE_SIZE; dlia).
  destruct (clamp_bounds (highest_usable regions) ke limit ltac:(lia) Hl Hb0) as (Hc1 & _ & Hc3).
  unfold own_pages. unfold p, pmm_init. set (highest := clamp_highest _ _ _) in *.
  set (total := highest / PAGE_SIZE) in *. set (nb := (total + 7) / 8) in *.
  set (p0 := Pmm _ nb total total 0 0xFFFFFFFF None 0).
  assert (0 <= total < 2 ^ 32) as Htot by (unfold total, PAGE_SIZE; dlia).
  assert (0 <= nb <= 2 ^ 30) by (unfold nb; dlia).
  assert (forall f, 0 <= f < total -> is_used p0 f = true) as H0.
  { intros f Hf. rewrite is_used_bit by done. apply fill_words_bit; [unfold nb; dlia|dlia]. }
  assert (bits_ok p0) as Hp0.
  { constructor; cbn [p0 total_frames bitmap used_frames]; [done|by rewrite length_fill_words|by apply fill_words_word|].
    rewrite cnt_all; [lia|]. intros i Hi. apply H0. lia. }
  destruct (release_regions_ok highest regions p0 Hp0 Hr ltac:(lia) eq_refl) as (A1 & A2 & (A3 & A4 & A5) & A6).
  set (p1 := foldl _ p0 regions) in *.
  destruct (mark_pages_used 0 0x100000 p1 A1 ltac:(lia) eq_refl eq_refl) as (B1 & B2 & B3).
  destruct (extra_mark_pages 0 0x100000 p1) as (B4 & B5 & B6).
  set (p2 := mark_pages mark_used 0 0x100000 p1) in *.
  rewrite (page_down_eq ks), (u64_id (bitmap_at ke + _ + _ - 1)), page_down_eq
    by (unfold is_word, PAGE_SIZE in *; dlia).
  set (s := ks / PAGE_SIZE * PAGE_SIZE). set (e := _ / PAGE_SIZE * PAGE_SIZE).
  destruct (mark_pages_used s e p2 B1) as (C1 & C2 & C3);
    [unfold s, PAGE_SIZE; dlia|unfold s, PAGE_SIZE; dlia|unfold e, PAGE_SIZE; dlia|].
  destruct (extra_mark_pages s e p2) as (C4 & C5 & C6). set (p3 := mark_pages mark_used s e p2) in *.
  assert (total_frames p3 = total) as Ht3 by (rewrite C2, B2, A2; done).
  assert (forall f, 0 <= f < total -> is_used p3 f =
    bool_decide (s <= IDX_ADDR f < e) || (bool_decide (0 <= IDX_ADDR f < 0x100000) || negb (existsb (covers f) regions))) as HU.
  { intros f Hf. rewrite C3, B3, A6, H0 by (rewrite ?B2, ?A2; done). by rewrite andb_true_r. }
  split; [|split; [done|split]].
  - constructor; [done|rewrite C6, B6, A5; cbn; lia| |].
    + destruct (decide (0 < total)); [by rewrite HU, orb_true_r by lia|].
      unfold is_used. by rewrite (proj2 (Z.leb_le _ 0)) by lia.
    + rewrite C4, B4, A3, C5, B5, A4. done.
  - unfold p3, p2, p1. by rewrite !bytes_mark_pages, bytes_release.
  - rewrite Ht3. intros f Hf. rewrite HU by done.
    rewrite !orb_true_iff, !bool_decide_eq_true, negb_true_iff. fold total nb.
    assert (s <= IDX_ADDR f < e <-> IDX_ADDR f + PAGE_SIZE > ks /\ IDX_ADDR f < bitmap_at ke + nb) as ->
      by (unfold s, e, IDX_ADDR, PAGE_SIZE; dlia).
    assert (0 <= IDX_ADDR f < 0x100000 <-> f < 256) as -> by (unfold IDX_ADDR, PAGE_SIZE; lia). tauto.
Qed.

(** ** Clients: the frames given out, with how often each is held *)

Inductive op := Alloc | Share (f : Z) | Free (f : Z) | ShareInit (got : bool).

(** One occurrence of [f] less. *)
Fixpoint drop_one (f : Z) (l : list Z) : list Z :=
  match l with [] => [] | x :: l => if x =? f then l else x :: drop_one f l end.
Definition holds (l : list Z) (f : Z) : Z := Z.of_nat (count_occ Z.eq_dec l f).

(** Running client operations, each on a frame the client holds ([None] otherwise). *)
Definition run1 (o : op) (p : pmm) (l : list Z) : option (pmm * list Z) :=
  match o with
  | Alloc => let '(p, a) := pmm_alloc_frame p in Some (p, if a =? 0 then l else FRAME_IDX a :: l)
  | Share f => if bool_decide (f ∈ l)
               then let '(p, took) := pmm_share (IDX_ADDR f) p in Some (p, if took : bool then f :: l else l)
               else None
  | Free f => if bool_decide (f ∈ l) then Some (pmm_free_frame (IDX_ADDR f) p, drop_one f l) else None
  | ShareInit got => Some (pmm_share_init got p, l)
  end.
Fixpoint run (ops : list op) (p : pmm) (l : list Z) : option (pmm * list Z) :=
  match ops with
  | [] => Some (p, l)
  | o :: ops => match run1 o p l with Some (p, l) => run ops p l | None => None end
  end.

(** Every hold on a frame is a client's or was there from the start ([p0]). *)
Record accounted (p0 p : pmm) (l : list Z) : Prop := {
  ac_ok : pmm_ok p;
  ac_total : total_frames p = total_frames p0;
  ac_pos : Forall (fun f => 0 < f) l;
  ac_hold : forall f, hold p f = hold p0 f + holds l f
}.

Lemma holds_cons x l f : holds (x :: l) f = holds l f + (if f =? x then 1 else 0).
Proof.
  unfold holds. cbn [count_occ]. destruct (Z.eq_dec x f), (Z.eqb_spec f x); try congruence; lia.
Qed.
Lemma holds_drop x l f : x ∈ l -> holds (drop_one x l) f = holds l f - (if f =? x then 1 else 0).
Proof.
  induction l as [|y l IH]; intros Hx; [set_solver|]. cbn [drop_one]. rewrite holds_cons.
  destruct (Z.eqb_spec y x) as [->|]; [lia|]. rewrite holds_cons, IH by set_solver. lia.
Qed.
Lemma holds_pos l f : f ∈ l -> 0 < holds l f.
Proof.
  intros H%list_elem_of_In%(count_occ_In Z.eq_dec). unfold holds. lia.
Qed.
Lemma drop_one_Forall (P : Z -> Prop) x l : Forall P l -> Forall P (drop_one x l).
Proof.
  induction 1 as [|y l Hy Hl IH]; cbn [drop_one]; [done|]. destruct (y =? x); [done|by constructor].
Qed.

Lemma held_hold p0 p l f : pmm_ok p0 -> accounted p0 p l -> f ∈ l -> 0 < f /\ 0 < hold p f.
Proof.
  intros H0 [Hok Ht Hp Hh] Hf. pose proof (holds_pos l f Hf). pose proof (hold_nonneg p0 f H0).
  rewrite Hh. rewrite List.Forall_forall in Hp. split; [by apply Hp, list_elem_of_In|lia].
Qed.

Lemma run1_accounted p0 o p l p' l' :
  pmm_ok p0 -> accounted p0 p l -> run1 o p l = Some (p', l') -> accounted p0 p' l'.
Proof.
  intros H0 Ha. pose proof Ha as [Hok Ht Hp Hh]. destruct o as [|f|f|got]; cbn [run1].
  - pose proof (pmm_alloc_spec p Hok) as (A & B & C). destruct (pmm_alloc_frame p) as [q a]; cbn [fst snd] in *.
    intros [= <- <-]. destruct C as [(-> & C & _)|(i & Hi & -> & Hz & C)].
    + constructor; [done|congruence|done|]. intros f. by rewrite C.
    + rewrite (proj2 (Z.eqb_neq _ 0)) by (unfold IDX_ADDR, PAGE_SIZE; lia). rewrite FRAME_IDX_ADDR.
      constructor; [done|congruence|constructor; [lia|done]|]. intros f. rewrite C, holds_cons.
      destruct (Z.eqb_spec f i) as [->|]; [|by rewrite Hh; lia]. rewrite Hh in Hz. lia.
  - case_bool_decide as Hf; [|done]. destruct (held_hold p0 p l f H0 Ha Hf) as [Hf0 Hf1].
    pose proof (pmm_share_spec p f Hok Hf0 Hf1) as (A & B & C & D).
    destruct (pmm_share (IDX_ADDR f) p) as [q took]; cbn [fst snd] in *. intros [= <- <-].
    destruct took; constructor; try done; try congruence; try by constructor.
    + intros g. rewrite D, holds_cons, andb_true_r. destruct (Z.eqb_spec g f) as [->|]; rewrite Hh; lia.
    + intros g. by rewrite D, andb_false_r.
  - case_bool_decide as Hf; [|done]. destruct (held_hold p0 p l f H0 Ha Hf) as [Hf0 Hf1].
    pose proof (pmm_free_spec p f Hok Hf0 Hf1) as (A & B & C). intros [= <- <-].
    constructor; [done|congruence|by apply drop_one_Forall|]. intros g. rewrite C, holds_drop by done.
    destruct (Z.eqb_spec g f) as [->|]; rewrite Hh; lia.
  - intros [= <- <-]. destruct (pmm_share_init_spec p got Hok) as (A & B & C).
    constructor; [done|congruence|done|]. intros g. by rewrite C.
Qed.

Lemma run_accounted p0 ops p l p' l' :
  pmm_ok p0 -> accounted p0 p l -> run ops p l = Some (p', l') -> accounted p0 p' l'.
Proof.
  intros H0. revert p l. induction ops as [|o ops IH]; intros p l Ha; cbn [run]; [by intros [= <- <-]|].
  destruct (run1 o p l) as [[q m]|] eqn:E; [|done]. apply IH. by eapply run1_accounted.
Qed.

Lemma accounted_start p : pmm_ok p -> accounted p p [].
Proof. intros H. constructor; [done|done|constructor|]. intros f. unfold holds. cbn. lia. Qed.

Lemma hold_zero p f : pmm_ok p -> 0 <= f < total_frames p -> hold p f = 0 <-> is_used p f = false.
Proof.
  intros [_ _ _ He] Hf. unfold hold. rewrite (proj2 (Z.leb_le 0 f)), (proj2 (Z.ltb_lt f _)) by lia. cbn [andb].
  destruct (is_used p f); [|done]. unfold extra_of. destruct (extra p) as [e|]; [|lia].
  destruct He as (_ & He & _). pose proof (Forall_word_getz 8 e f ltac:(lia) He) as Hw. unfold is_word in Hw.
  split; [lia|done].
Qed.

(** ** What the allocator promises *)

(** C17: start from what pmm_init leaves and run any sequence of allocations,
    shares and frees by holders. A frame's holds are always exactly the clients' on it
    plus the reservation made at boot, so a frame is free for reuse exactly when
    nobody holds it; the next allocation returns such a frame, never frame 0, and
    fails (without the test's limit) only when there is none; the used count and
    the count of shared frames are those of the frames held once, and more than once. *)
Theorem pmm_never_reuses_a_held_frame regions limit ks ke old ops p l :
  boot_ok regions limit ks ke old ->
  run ops (pmm_init regions limit ks ke old) [] = Some (p, l) ->
  (forall f, 0 <= f < total_frames p ->
     hold p f = hold (pmm_init regions limit ks ke old) f + holds l f /\
     (is_used p f = false <-> hold p f = 0)) /\
  (let '(p', a) := pmm_alloc_frame p in
   (a = 0 /\ (test_allocs_left p <> 0 -> forall f, 0 <= f < total_frames p -> 0 < hold p f)) \/
   (exists f, 0 < f < total_frames p /\ a = IDX_ADDR f /\ holds l f = 0 /\
      hold (pmm_init regions limit ks ke old) f = 0 /\ hold p' f = 1 /\
      forall g, g <> f -> hold p' g = hold p g)) /\
  used_frames p = cnt (fun f => negb (hold p f =? 0)) (Z.to_nat (total_frames p)) /\
  shared_now p = cnt (fun f => 1 <? hold p f) (Z.to_nat (total_frames p)).
Proof.
  intros Hb Hrun. destruct (pmm_init_spec regions limit ks ke old Hb) as (H0 & _).
  set (p0 := pmm_init _ _ _ _ _) in *.
  destruct (run_accounted p0 ops p0 [] p l H0 (accounted_start p0 H0) Hrun) as [Hok Ht Hp Hh].
  split; [|split; [|split]].
  - intros f Hf. split; [apply Hh|]. symmetry. by apply hold_zero.
  - pose proof (pmm_alloc_spec p Hok) as (A & B & C). destruct (pmm_alloc_frame p) as [q a]; cbn [fst snd] in *.
    destruct C as [(? & _ & ?)|(i & Hi & -> & Hz & C)]; [by left|right]. exists i.
    pose proof (hold_nonneg p0 i H0). assert (0 <= holds l i) by (unfold holds; lia).
    rewrite Hh in Hz. rewrite C, Z.eqb_refl. repeat split; try lia.
    intros g Hg. by rewrite C, (proj2 (Z.eqb_neq g i)).
  - destruct (po_bits p Hok) as [_ _ _ ->]. apply cnt_ext. intros f Hf.
    pose proof (hold_zero p f Hok ltac:(lia)) as Hz. destruct (is_used p f), (Z.eqb_spec (hold p f) 0); try done; tauto || naive_solver.
  - pose proof (po_extra p Hok) as He. destruct (extra p) as [e|] eqn:Ee.
    + destruct He as (_ & He & Hu & ->). apply cnt_ext. intros f Hf. unfold hold, extra_of. rewrite Ee.
      pose proof (Forall_word_getz 8 e f ltac:(lia) He) as Hw. unfold is_word in Hw.
      rewrite (proj2 (Z.leb_le 0 f)), (proj2 (Z.ltb_lt f _)) by lia. cbn [andb].
      destruct (Z.eqb_spec e.[f] 0) as [->|Hn]; cbn [negb]; [by destruct (is_used p f)|].
      rewrite Hu by (done || lia). symmetry. apply Z.ltb_lt. lia.
    + rewrite He. symmetry. apply cnt_none. intros f _. unfold hold, extra_of. rewrite Ee. by destruct (_ && _).
Qed.

(** After pmm_init a frame is free exactly when it lies wholly inside a
    region the loader called usable, above the first megabyte, and holds no part of
    the kernel image or of the bitmap; the bitmap ends below the limit it was given,
    and no frame reaches past the highest usable address or the kernel's space. *)
Theorem pmm_init_frees_usable_memory regions limit ks ke old (p := pmm_init regions limit ks ke old) :
  boot_ok regions limit ks ke old ->
  (forall f, 0 <= f < total_frames p ->
     pmm_frame_free p (IDX_ADDR f) = true <->
     (exists r, r ∈ regions /\ r_type r = MEM_USABLE /\ r_base r <= IDX_ADDR f /\
        IDX_ADDR f + PAGE_SIZE <= r_base r + r_len r) /\
     0x100000 <= IDX_ADDR f /\ ~ own_pages regions limit ks ke f) /\
  bitmap_at ke + bitmap_bytes p <= Z.max limit (bitmap_at ke) /\
  IDX_ADDR (total_frames p) <= (if highest_usable regions =? 0 then 64 * 1024 * 1024 else highest_usable regions) /\
  IDX_ADDR (total_frames p) <= KERNEL_SPACE_MAX_GB * 1024 * 1024 * 1024.
Proof.
  intros Hb. destruct (pmm_init_spec regions limit ks ke old Hb) as (_ & Ht & Hbm & HU).
  destruct Hb as [Hr Hl [Hks Hke] _ _]. split; [|split; [done|]].
  - intros f Hf. unfold pmm_frame_free. rewrite FRAME_IDX_ADDR, negb_true_iff. fold p in HU.
    specialize (HU f Hf).
    assert (existsb (covers f) regions = true <-> exists r, r ∈ regions /\ r_type r = MEM_USABLE /\
      r_base r <= IDX_ADDR f /\ IDX_ADDR f + PAGE_SIZE <= r_base r + r_len r) as <-.
    { rewrite existsb_exists. unfold covers. setoid_rewrite andb_true_iff. setoid_rewrite andb_true_iff.
      setoid_rewrite Z.eqb_eq. setoid_rewrite Z.leb_le. setoid_rewrite list_elem_of_In. naive_solver. }
    assert (0x100000 <= IDX_ADDR f <-> ~ f < 256) as -> by (unfold IDX_ADDR, PAGE_SIZE; lia).
    rewrite <- not_true_iff_false, HU, <- not_false_iff_true. tauto.
  - pose proof (highest_usable_bound regions).
    destruct (clamp_bounds (highest_usable regions) ke limit) as (A & B & _); [lia|lia|rewrite bitmap_at_eq by lia; unfold PAGE_SIZE; dlia|].
    fold p in Ht. rewrite Ht. unfold IDX_ADDR, KERNEL_SPACE_MAX_GB, PAGE_SIZE in *. split; [|dlia].
    etransitivity; [|exact B]. dlia.
Qed.

(** A machine of 4 MB with the kernel in its second. *)
Definition small_regions : list mem_region := [Region 0 0x9FC00 1; Region 0xF0000 0x10000 2; Region 0x100000 0x300000 1].
Definition small : pmm := Eval vm_compute in pmm_init small_regions 0x300000 0x100000 0x1A0010 (replicate 32 0).

Lemma small_eq : small = pmm_init small_regions 0x300000 0x100000 0x1A0010 (replicate 32 0).
Proof. vm_compute. reflexivity. Qed.
Lemma small_boot : boot_ok small_regions 0x300000 0x100000 0x1A0010 (replicate 32 0).
Proof.
  constructor.
  - repeat apply List.Forall_cons; [..|apply List.Forall_nil]; unfold region_ok, PAGE_SIZE; cbn; lia.
  - lia.
  - lia.
  - apply Forall_replicate. by split.
  - vm_compute. discriminate.
Qed.

Definition small_ops : list op := [Alloc; ShareInit true; Alloc; Share 418; Free 418; Free 418; Alloc].
Lemma pmm_never_reuses_a_held_frame_witness : exists p l,
  run small_ops (pmm_init small_regions 0x300000 0x100000 0x1A0010 (replicate 32 0)) [] = Some (p, l) /\
  l = [420; 419] /\ used_frames p = cnt (fun f => negb (hold p f =? 0)) (Z.to_nat (total_frames p)).
Proof.
  destruct (run small_ops (pmm_init small_regions 0x300000 0x100000 0x1A0010 (replicate 32 0)) []) as [[p l]|] eqn:E.
  - exists p, l. split; [reflexivity|]. split.
    + rewrite <- small_eq in E. vm_compute in E. congruence.
    + exact (proj1 (proj2 (proj2 (pmm_never_reuses_a_held_frame _ _ _ _ _ small_ops p l small_boot E)))).
  - exfalso. rewrite <- small_eq in E. vm_compute in E. discriminate.
Defined.

Lemma pmm_init_frees_usable_memory_witness :
  total_frames small = 1024 /\ pmm_frame_free small (IDX_ADDR 418) = true /\
  0x1A1000 + 128 <= 0x300000.
Proof.
  destruct (pmm_init_frees_usable_memory _ _ _ _ _ small_boot) as (H & H2 & _).
  split; [reflexivity|]. split; [|exact H2].
  rewrite small_eq. apply H; [rewrite <- small_eq; split; [discriminate|reflexivity]|].
  split; [|split; [discriminate|]].
  - exists (Region 0x100000 0x300000 1). split; [do 2 right; left|]. split; [reflexivity|split; discriminate].
  - intros [_ Hx]. vm_compute in Hx. discriminate.
Defined.
