(* ===== verification/Pipe.v ===== *)
(** kernel/pipe.c: the ring, the blocking read and write calls and the closing of
    ends; and the calls of several threads interleaved over one pipe.

    A call is a sequence of iterations of its loop; between two iterations it
    sleeps in [wait_on], which another thread's [wake_all] ends or the 200 ms run
    out. The kernel's lock makes an iteration one step. The poll wakeup
    ([fd_poll_wake]) has no effect on the pipe and is left out. *)
From S2P Require Import Prelude.

Definition PIPE_SIZE : Z := 65536.
Definition PIPE_GIVE_UP_MS : Z := 10000.
Definition PIPE_POLL_MS : Z := 200.

Record pipe := Pipe {
  buf : list Z; head : Z; tail : Z; count : Z; readers : Z; writers : Z
}.

(** ** The ring *)

Definition ring_in (p : pipe) (src : list Z) : pipe :=
  let n := zlen src in
  let first := if PIPE_SIZE - tail p <? n then PIPE_SIZE - tail p else n in
  let b := splice (buf p) (Z.to_nat (tail p)) (take (Z.to_nat first) src) in
  let b := if first <? n then splice b 0 (drop (Z.to_nat first) src) else b in
  Pipe b (head p) ((tail p + n) mod PIPE_SIZE) (count p) (readers p) (writers p).

Definition ring_out (p : pipe) (n : Z) : pipe * list Z :=
  let first := if PIPE_SIZE - head p <? n then PIPE_SIZE - head p else n in
  let out := take (Z.to_nat first) (drop (Z.to_nat (head p)) (buf p)) in
  let out := if first <? n then out ++ take (Z.to_nat (n - first)) (buf p) else out in
  (Pipe (buf p) ((head p + n) mod PIPE_SIZE) (tail p) (count p) (readers p) (writers p), out).

Definition with_count (p : pipe) (c : Z) : pipe :=
  Pipe (buf p) (head p) (tail p) c (readers p) (writers p).

(** [kcalloc]'s answer is the argument. *)
Definition pipe_new (got : bool) (live : Z) : option pipe * Z :=
  if got then (Some (Pipe (replicate (Z.to_nat PIPE_SIZE) 0) 0 0 0 1 1), u32 (live + 1)) else (None, live).
Definition pipe_count (p : option pipe) : Z := if p is Some p then count p else 0.

(** ** One iteration of a call *)

(** Where a call stands: about to run an iteration, asleep (and woken or not yet),
    or returned with its value and the bytes stored at [dst]. *)
Inductive thread :=
  | Reading (len waited : Z)
  | ReadSleep (len waited : Z) (woken : bool)
  | Writing (data : list Z) (done waited : Z)
  | WriteSleep (data : list Z) (done waited : Z) (woken : bool)
  | Returned (data : list Z) (r : Z) (out : list Z).

Inductive channel := HasData | HasSpace.
#[export] Instance channel_eq_dec : EqDecision channel.
Proof. solve_decision. Defined.

Definition pipe_read_iter (p : pipe) (len waited : Z) : pipe * thread * list channel :=
  if count p =? 0 then
    if writers p =? 0 then (p, Returned [] 0 [], [])
    else (p, ReadSleep len waited false, [])
  else
    let n := if count p <? len then count p else len in
    let '(p, out) := ring_out p n in
    (with_count p (count p - n), Returned [] (i32 n) out, [HasSpace]).

(** What follows [wait_on]'s return. *)
Definition pipe_read_woken (len waited : Z) (woken : bool) : thread :=
  if woken then Reading len waited else
  let waited := waited + PIPE_POLL_MS in
  if PIPE_GIVE_UP_MS <=? waited then Returned [] 0 [] else Reading len waited.

Definition partial (done : Z) : Z := if done =? 0 then -1 else i32 done.

Definition pipe_write_iter (p : pipe) (data : list Z) (done waited : Z) : pipe * thread * list channel :=
  if zlen data <=? done then (p, Returned data (i32 done) [], []) else
  if readers p =? 0 then (p, Returned data (partial done) [], []) else
  if count p =? PIPE_SIZE then (p, WriteSleep data done waited false, []) else
  let room := PIPE_SIZE - count p in
  let n := zlen data - done in
  let n := if room <? n then room else n in
  let p := ring_in p (take (Z.to_nat n) (drop (Z.to_nat done) data)) in
  (with_count p (count p + n), Writing data (done + n) 0, [HasData]).

Definition pipe_write_woken (data : list Z) (done waited : Z) (woken : bool) : thread :=
  if woken then Writing data done waited else
  let waited := waited + PIPE_POLL_MS in
  if PIPE_GIVE_UP_MS <=? waited then Returned data (partial done) [] else Writing data done waited.

Definition thread_iter (p : pipe) (t : thread) : pipe * thread * list channel :=
  match t with
  | Reading len waited => pipe_read_iter p len waited
  | ReadSleep len waited woken => (p, pipe_read_woken len waited woken, [])
  | Writing data done waited => pipe_write_iter p data done waited
  | WriteSleep data done waited woken => (p, pipe_write_woken data done waited woken, [])
  | Returned _ _ _ => (p, t, [])
  end.

(** ** The calls, from entry to return

    [world k] is the k-th sleep: whether it ended by a wakeup, and what the others
    did to the pipe meanwhile. *)

Definition asleep (woken : bool) (t : thread) : thread :=
  match t with
  | ReadSleep len waited _ => ReadSleep len waited woken
  | WriteSleep data done waited _ => WriteSleep data done waited woken
  | _ => t
  end.
Definition sleeping (t : thread) : bool :=
  match t with ReadSleep _ _ _ | WriteSleep _ _ _ _ => true | _ => false end.

Fixpoint call (fuel : nat) (world : nat -> bool * (pipe -> pipe)) (k : nat) (p : pipe) (t : thread) : option (pipe * Z * list Z) :=
  match t with
  | Returned _ r out => Some (p, r, out)
  | _ =>
      match fuel with
      | O => None
      | S fuel =>
          let '(p, t, _) := thread_iter p t in
          if sleeping t then let '(woken, others) := world k in call fuel world (S k) (others p) (asleep woken t)
          else call fuel world k p t
      end
  end.

(** A null [dst] or [src] is [None]; [room]: [dst] points at storage. *)
Definition pipe_read fuel world (p : option pipe) (room : bool) (len : Z) : option (option pipe * Z * list Z) :=
  match p with
  | None => Some (None, -1, [])
  | Some p0 =>
      if negb room then Some (p, -1, []) else
      if len =? 0 then Some (p, 0, []) else
      (fun '(p, r, out) => (Some p, r, out)) <$> call fuel world 0 p0 (Reading len 0)
  end.
Definition pipe_write fuel world (p : option pipe) (src : option (list Z)) : option (option pipe * Z) :=
  match p, src with
  | Some p0, Some data =>
      if zlen data =? 0 then Some (p, 0) else
      (fun '(p, r, _) => (Some p, r)) <$> call fuel world 0 p0 (Writing data 0 0)
  | _, _ => Some (p, -1)
  end.

(** What closing an end leaves ([None]: freed), the channels woken, and [live]. *)
Definition pipe_close (p : pipe) (write_end : bool) (live : Z) : option pipe * list channel * Z :=
  let p :=
    if write_end then Pipe (buf p) (head p) (tail p) (count p) (readers p) (if writers p =? 0 then 0 else writers p - 1)
    else Pipe (buf p) (head p) (tail p) (count p) (if readers p =? 0 then 0 else readers p - 1) (writers p) in
  let woken := if write_end then if writers p =? 0 then [HasData] else []
               else if readers p =? 0 then [HasSpace] else [] in
  if (readers p =? 0) && (writers p =? 0) then (None, woken, if live =? 0 then 0 else live - 1)
  else (Some p, woken, live).

(** ** Threads over one pipe *)

Definition wakes (c : channel) (t : thread) : thread :=
  match c, t with
  | HasData, ReadSleep len waited _ => ReadSleep len waited true
  | HasSpace, WriteSleep data done waited _ => WriteSleep data done waited true
  | _, _ => t
  end.
Definition wake_all (cs : list channel) (ts : list thread) : list thread :=
  foldr (fun c ts => wakes c <$> ts) ts cs.

(** [fed] and [drained]: every byte put into the ring and taken out of it, in order,
    with the thread that did it. *)
Record sys := Sys {
  s_pipe : option pipe; s_threads : list thread; s_live : Z;
  s_fed : list (nat * Z); s_drained : list (nat * Z)
}.

Inductive event := Read (len : Z) | Write (data : list Z) | Run (i : nat) | Close (write_end : bool).

(** The bytes a step of thread [t] that ended as [t'] moved. *)
Definition moved_in (t t' : thread) : list Z :=
  match t, t' with
  | Writing data done _, Writing _ done' _ => take (Z.to_nat (done' - done)) (drop (Z.to_nat done) data)
  | _, _ => []
  end.
Definition moved_out (t t' : thread) : list Z :=
  match t, t' with Reading _ _, Returned _ _ out => out | _, _ => [] end.

Definition step (e : event) (s : sys) : sys :=
  match s_pipe s with
  | None => s
  | Some p =>
      match e with
      | Read len => Sys (Some p) (s_threads s ++ [if len <=? 0 then Returned [] 0 [] else Reading len 0]) (s_live s) (s_fed s) (s_drained s)
      | Write data => Sys (Some p) (s_threads s ++ [if zlen data =? 0 then Returned [] 0 [] else Writing data 0 0]) (s_live s) (s_fed s) (s_drained s)
      | Run i =>
          match s_threads s !! i with
          | None => s
          | Some t =>
              let '(p, t', cs) := thread_iter p t in
              Sys (Some p) (wake_all cs (<[i := t']> (s_threads s))) (s_live s)
                (s_fed s ++ ((fun b => (i, b)) <$> moved_in t t')) (s_drained s ++ ((fun b => (i, b)) <$> moved_out t t'))
          end
      | Close write_end =>
          let '(p, cs, live) := pipe_close p write_end (s_live s) in
          Sys p (wake_all cs (s_threads s)) live (s_fed s) (s_drained s)
      end
  end.
Definition run (es : list event) (s : sys) : sys := foldl (fun s e => step e s) s es.
Definition start : sys := let '(p, live) := pipe_new true 0 in Sys p [] live [] [].

(** ** The ring holds a queue *)

(** The bytes in the pipe, oldest first. *)
Definition contents (p : pipe) : list Z :=
  (fun i => (buf p).[(head p + i) mod PIPE_SIZE]) <$> seqZ 0 (count p).

Record pipe_ok (p : pipe) : Prop := {
  pk_buf : zlen (buf p) = PIPE_SIZE;
  pk_head : 0 <= head p < PIPE_SIZE;
  pk_count : 0 <= count p <= PIPE_SIZE;
  pk_tail : tail p = (head p + count p) mod PIPE_SIZE;
  pk_ends : 0 <= readers p /\ 0 <= writers p
}.

Lemma length_contents p : pipe_ok p -> zlen (contents p) = count p.
Proof. intros [_ _ Hc _ _]. unfold contents. rewrite length_fmap, length_seqZ. lia. Qed.
Lemma contents_getz p i : 0 <= i < count p -> (contents p).[i] = (buf p).[(head p + i) mod PIPE_SIZE].
Proof. intros. unfold contents. by rewrite getz_fmap_seqZ by done. Qed.

(** What ring_in leaves at each index of the buffer. *)
Lemma ring_in_buf p src j :
  pipe_ok p -> zlen src <= PIPE_SIZE - count p -> 0 <= j < PIPE_SIZE ->
  zlen (buf (ring_in p src)) = PIPE_SIZE /\
  (buf (ring_in p src)).[j] =
    (if (j - tail p) mod PIPE_SIZE <? zlen src then src.[(j - tail p) mod PIPE_SIZE] else (buf p).[j]).
Proof.
  intros [Hb Hh Hc Ht _] Hn Hj. unfold ring_in. cbn [buf]. set (n := zlen src) in *.
  assert (0 <= tail p < PIPE_SIZE) as Htb by (rewrite Ht; unfold PIPE_SIZE; dlia).
  set (first := if PIPE_SIZE - tail p <? n then PIPE_SIZE - tail p else n).
  assert (0 <= first <= n /\ first <= PIPE_SIZE - tail p /\ (first < n -> first = PIPE_SIZE - tail p)) as (Hf1 & Hf2 & Hf3)
    by (unfold first; case_bool; lia).
  clearbody first. assert (length (take (Z.to_nat first) src) = Z.to_nat first) as Hlt by (rewrite length_take; lia).
  assert ((Z.to_nat (tail p) + length (take (Z.to_nat first) src) <= length (buf p))%nat) as Hfit by lia.
  assert (length (drop (Z.to_nat first) src) = Z.to_nat (n - first)) as Hld by (rewrite length_drop; lia).
  assert (0 <= count p) by lia. clear Ht Hc.
  destruct (Z.ltb_spec first n) as [Hw|Hw].
  - specialize (Hf3 Hw).
    assert ((0 + length (drop (Z.to_nat first) src) <= length (splice (buf p) (Z.to_nat (tail p)) (take (Z.to_nat first) src)))%nat)
      by (rewrite length_splice by done; lia).
    split; [by rewrite !length_splice by done|]. rewrite getz_splice by (done || lia). rewrite Hld.
    destruct (Z.ltb_spec j (n - first)).
    + rewrite (proj2 (Z.leb_le _ j)), (proj2 (Z.ltb_lt j _)) by lia. cbn [andb]. rewrite getz_drop by lia.
      replace ((j - tail p) mod PIPE_SIZE) with (j + first) by (subst first; unfold PIPE_SIZE in *; dlia).
      rewrite (proj2 (Z.ltb_lt _ _)) by lia. f_equal. lia.
    + rewrite (proj2 (Z.ltb_ge j _)) by lia. rewrite andb_false_r. rewrite getz_splice by (done || lia).
      rewrite Hlt. destruct (Z.leb_spec (Z.of_nat (Z.to_nat (tail p))) j).
      * rewrite (proj2 (Z.ltb_lt j _)) by lia. cbn [andb]. rewrite getz_take by lia.
        replace ((j - tail p) mod PIPE_SIZE) with (j - tail p) by (unfold PIPE_SIZE in *; dlia).
        rewrite (proj2 (Z.ltb_lt _ _)) by lia. f_equal. lia.
      * cbn [andb]. rewrite (proj2 (Z.ltb_ge _ _)); [done|]. unfold PIPE_SIZE in *; dlia.
  - split; [by rewrite length_splice by done|]. assert (first = n) as -> by lia. clear Hf3.
    rewrite getz_splice by (done || lia). rewrite Hlt.
    destruct (Z.leb_spec (Z.of_nat (Z.to_nat (tail p))) j).
    + replace ((j - tail p) mod PIPE_SIZE) with (j - tail p) by (unfold PIPE_SIZE in *; dlia). cbn [andb].
      destruct (Z.ltb_spec j (Z.of_nat (Z.to_nat (tail p)) + Z.of_nat (Z.to_nat n))).
      * rewrite (proj2 (Z.ltb_lt _ _)) by lia. rewrite getz_take by lia. f_equal. lia.
      * by rewrite (proj2 (Z.ltb_ge _ _)) by lia.
    + cbn [andb]. rewrite (proj2 (Z.ltb_ge _ _)); [done|]. unfold PIPE_SIZE in *; dlia.
Qed.

Lemma ring_in_spec p src (q := with_count (ring_in p src) (count p + zlen src)) :
  pipe_ok p -> zlen src <= PIPE_SIZE - count p ->
  pipe_ok q /\ contents q = contents p ++ src.
Proof.
  intros Hp Hn. pose proof Hp as [Hb Hh Hc Ht He].
  assert (pipe_ok q) as Hq.
  { constructor; cbn [q with_count ring_in head count tail readers writers]; [|done|lia| |done].
    - apply (ring_in_buf p src 0 Hp Hn). done.
    - rewrite Ht. unfold PIPE_SIZE. dlia. }
  split; [done|]. apply (list_eq_getz 0).
  - pose proof (length_contents p Hp). pose proof (length_contents q Hq) as H'.
    rewrite length_app. cbn [q with_count count] in H'. lia.
  - intros i Hi. rewrite (length_contents q Hq) in Hi. rewrite contents_getz by done.
    cbn [q with_count buf head count] in Hi |- *. change (head (ring_in p src)) with (head p).
    destruct (ring_in_buf p src ((head p + i) mod PIPE_SIZE) Hp Hn) as [_ ->]; [apply Z.mod_pos_bound; done|].
    rewrite getz_app by lia. rewrite (length_contents p Hp).
    replace (((head p + i) mod PIPE_SIZE - tail p) mod PIPE_SIZE) with ((i - count p) mod PIPE_SIZE)
      by (rewrite Ht; unfold PIPE_SIZE; dlia).
    destruct (Z.ltb_spec i (count p)).
    + rewrite (proj2 (Z.ltb_ge _ _)) by (unfold PIPE_SIZE in *; dlia). by rewrite contents_getz by lia.
    + replace ((i - count p) mod PIPE_SIZE) with (i - count p) by (unfold PIPE_SIZE in *; dlia).
      by rewrite (proj2 (Z.ltb_lt _ _)) by lia.
Qed.

Lemma ring_out_spec p n (q := with_count (ring_out p n).1 (count p - n)) :
  pipe_ok p -> 0 <= n <= count p ->
  pipe_ok q /\ (ring_out p n).2 = take (Z.to_nat n) (contents p) /\ contents q = drop (Z.to_nat n) (contents p).
Proof.
  intros Hp Hn. pose proof Hp as [Hb Hh Hc Ht He]. pose proof (length_contents p Hp) as Hl.
  assert (pipe_ok q) as Hq.
  { constructor; cbn [q with_count ring_out fst buf head count tail readers writers]; [done| |lia| |done].
    - apply Z.mod_pos_bound. done.
    - rewrite Ht. unfold PIPE_SIZE. dlia. }
  split; [done|]. split.
  - unfold ring_out. cbn [snd]. set (first := if PIPE_SIZE - head p <? n then PIPE_SIZE - head p else n).
    assert (0 <= first <= n /\ first <= PIPE_SIZE - head p /\ (first < n -> first = PIPE_SIZE - head p)) as (Hf1 & Hf2 & Hf3)
      by (unfold first; case_bool; lia). clearbody first.
    assert (length (take (Z.to_nat first) (drop (Z.to_nat (head p)) (buf p))) = Z.to_nat first) as Hl1
      by (rewrite length_take, length_drop; lia).
    assert (forall i, 0 <= i < first -> (take (Z.to_nat first) (drop (Z.to_nat (head p)) (buf p))).[i] = (take (Z.to_nat n) (contents p)).[i]) as H1.
    { intros i Hi. rewrite !getz_take, contents_getz, getz_drop by lia. f_equal. unfold PIPE_SIZE in *. dlia. }
    destruct (Z.ltb_spec first n) as [Hw|Hw].
    + apply (list_eq_getz 0); [rewrite length_app, Hl1, !length_take; lia|].
      rewrite length_app, Hl1, length_take. intros i Hi. rewrite getz_app by lia. rewrite Hl1.
      destruct (Z.ltb_spec i (Z.of_nat (Z.to_nat first))); [apply H1; lia|].
      rewrite !getz_take, contents_getz by lia. f_equal. specialize (Hf3 Hw). unfold PIPE_SIZE in *. dlia.
    + apply (list_eq_getz 0); [rewrite Hl1, length_take; lia|]. rewrite Hl1. intros i Hi. apply H1. lia.
  - apply (list_eq_getz 0).
    + pose proof (length_contents q Hq) as Hlq. rewrite length_drop. cbn [q with_count count] in Hlq. lia.
    + intros i Hi. rewrite (length_contents q Hq) in Hi. rewrite contents_getz by done.
      cbn [q with_count ring_out fst buf head count] in Hi |- *.
      rewrite getz_drop, contents_getz by lia. f_equal. unfold PIPE_SIZE. dlia.
Qed.

(** ** Calls interleaved *)

(** What a call has put in and taken out so far: nothing for a reader, a prefix of
    its data for a writer, and the value it returned says how much. *)
Definition accounts (t : thread) (win wout : list Z) : Prop :=
  match t with
  | Reading len _ | ReadSleep len _ _ => 0 < len /\ win = [] /\ wout = []
  | Writing data done _ | WriteSleep data done _ _ =>
      0 < zlen data /\ 0 <= done <= zlen data /\ win = take (Z.to_nat done) data /\ wout = []
  | Returned data r out =>
      wout = out /\
      ((data = [] /\ win = [] /\ r = zlen out) \/
       (out = [] /\ exists done, 0 <= done <= zlen data /\ win = take (Z.to_nat done) data /\ r = partial done))
  end.

(** A call asleep and not woken really has nothing to do. *)
Definition sleeps_rightly (p : pipe) (t : thread) : Prop :=
  match t with
  | ReadSleep _ _ false => count p = 0 /\ writers p <> 0
  | WriteSleep _ _ _ false => count p = PIPE_SIZE /\ readers p <> 0
  | _ => True
  end.

Lemma take_split_at {A} (l : list A) n m : 0 <= n -> 0 <= m ->
  take (Z.to_nat n) l ++ take (Z.to_nat m) (drop (Z.to_nat n) l) = take (Z.to_nat (n + m)) l.
Proof. intros. rewrite Z2Nat.inj_add by done. apply take_take_drop. Qed.

Ltac call_done := cbn [moved_in moved_out accounts sleeps_rightly app]; rewrite ?app_nil_r;
  repeat match goal with |- _ /\ _ => split | |- _ -> _ => intro end; try lia; auto; try (right; set_solver).

Lemma thread_iter_spec p t win wout p' t' cs :
  pipe_ok p -> accounts t win wout ->
  thread_iter p t = (p', t', cs) ->
  pipe_ok p' /\ accounts t' (win ++ moved_in t t') (wout ++ moved_out t t') /\
  contents p ++ moved_in t t' = moved_out t t' ++ contents p' /\
  readers p' = readers p /\ writers p' = writers p /\
  (count p = 0 -> count p' = 0 \/ HasData ∈ cs) /\
  (count p = PIPE_SIZE -> count p' = PIPE_SIZE \/ HasSpace ∈ cs) /\
  sleeps_rightly p' t'.
Proof.
  intros Hp Ha E. pose proof Hp as [_ _ Hc _ _]. destruct t as [len waited|len waited woken|data done waited|data done waited woken|data r out]; cbn [thread_iter] in E.
  - destruct Ha as (Hlen & -> & ->). unfold pipe_read_iter in E. destruct (Z.eqb_spec (count p) 0) as [E0|E0].
    + destruct (Z.eqb_spec (writers p) 0); injection E as <- <- <-; call_done.
    + set (n := if count p <? len then _ else _) in E.
      assert (0 < n <= count p /\ n <= len) as [Hn Hn2] by (unfold n; case_bool; lia). clearbody n.
      pose proof (ring_out_spec p n Hp ltac:(lia)) as (A & B & C).
      destruct (ring_out p n) as [q out] eqn:Eo. cbn [fst snd] in A, B, C. injection E as <- <- <-.
      assert (count q = count p) as Eq by (unfold ring_out in Eo; by injection Eo as <- _).
      rewrite Eq. cbn [moved_in moved_out accounts sleeps_rightly app].
      assert (zlen out = n) as Hout by (rewrite B, length_take; pose proof (length_contents p Hp); lia).
      split; [done|]. split; [split; [done|]; left|].
      { split; [done|]. split; [done|]. rewrite Hout. unfold i32. unfold PIPE_SIZE in Hc. dlia. }
      split; [by rewrite app_nil_r, C, B, take_drop|].
      unfold ring_out in Eo. injection Eo as <- _. cbn [readers writers with_count]. call_done.
  - destruct Ha as (Hlen & -> & ->). injection E as <- <- <-. unfold pipe_read_woken.
    destruct woken; [|case_bool]; call_done.
  - destruct Ha as (Hl & Hd & -> & ->). unfold pipe_write_iter in E. destruct (Z.leb_spec (zlen data) done).
    { injection E as <- <- <-. call_done. right. split; [done|]. exists done. repeat split; try lia.
      unfold partial. by rewrite (proj2 (Z.eqb_neq done 0)) by lia. }
    destruct (Z.eqb_spec (readers p) 0) as [Er|Er].
    { injection E as <- <- <-. call_done; eauto. }
    destruct (Z.eqb_spec (count p) PIPE_SIZE) as [Ef|Ef].
    { injection E as <- <- <-. call_done. }
    set (n := if _ <? _ then _ else _) in E.
    assert (0 < n <= PIPE_SIZE - count p /\ n <= zlen data - done) as [Hn Hn2] by (unfold n; case_bool; lia). clearbody n.
    set (src := take (Z.to_nat n) (drop (Z.to_nat done) data)) in E.
    assert (zlen src = n) as Hs by (unfold src; rewrite length_take, length_drop; lia).
    pose proof (ring_in_spec p src Hp ltac:(lia)) as (A & B). rewrite Hs in A, B.
    injection E as <- <- <-. change (count (ring_in p src)) with (count p).
    cbn [moved_in moved_out accounts sleeps_rightly app]. replace (done + n - done) with n by lia.
    rewrite take_split_at by lia. call_done.
  - destruct Ha as (Hl & Hd & -> & ->). injection E as <- <- <-. unfold pipe_write_woken.
    destruct woken; [|case_bool]; call_done; eauto.
  - destruct Ha as [Ha1 Ha2]. injection E as <- <- <-. call_done.
Qed.

Definition by_thread (i : nat) (l : list (nat * Z)) : list Z := (filter (fun x => x.1 = i) l).*2.

Lemma by_thread_app i l1 l2 : by_thread i (l1 ++ l2) = by_thread i l1 ++ by_thread i l2.
Proof. unfold by_thread. by rewrite list.filter_app, fmap_app. Qed.
Lemma by_thread_tag i j l : by_thread i ((fun b => (j, b)) <$> l) = if decide (j = i) then l else [].
Proof.
  unfold by_thread. induction l as [|b l IH]; cbn [fmap list_fmap]; [by destruct (decide _)|].
  rewrite list.filter_cons. cbn [fst]. destruct (decide (j = i)); cbn [fmap list_fmap snd]; [by f_equal|done].
Qed.
Lemma snd_tag (j : nat) (l : list Z) : ((fun b => (j, b)) <$> l).*2 = l.
Proof. induction l as [|b l IH]; cbn; [done|by f_equal]. Qed.

Definition wake_one_thread (cs : list channel) (t : thread) : thread := foldr wakes t cs.
Lemma wake_all_lookup cs ts i : wake_all cs ts !! i = wake_one_thread cs <$> (ts !! i).
Proof.
  unfold wake_all, wake_one_thread. induction cs as [|c cs IH]; cbn [foldr]; [by destruct (ts !! i)|].
  rewrite list_lookup_fmap, IH. by destruct (ts !! i).
Qed.
Lemma accounts_wakes c t win wout : accounts t win wout -> accounts (wakes c t) win wout.
Proof. by destruct c, t. Qed.
Lemma accounts_wake cs t win wout : accounts t win wout -> accounts (wake_one_thread cs t) win wout.
Proof. intros H. induction cs as [|c cs IH]; [done|]. by apply accounts_wakes. Qed.

(** Waking what the change of the pipe calls for keeps every sleep right. *)
Lemma sleeps_rightly_wakes c p t : sleeps_rightly p t -> sleeps_rightly p (wakes c t).
Proof. by destruct c, t as [| ? ? [] | | ? ? ? [] |]. Qed.
Lemma sleeps_rightly_wake p p' cs t :
  readers p' = readers p \/ readers p' <> 0 \/ HasSpace ∈ cs ->
  writers p' = writers p \/ writers p' <> 0 \/ HasData ∈ cs ->
  (count p = 0 -> count p' = 0 \/ HasData ∈ cs) ->
  (count p = PIPE_SIZE -> count p' = PIPE_SIZE \/ HasSpace ∈ cs) ->
  sleeps_rightly p t -> sleeps_rightly p' (wake_one_thread cs t).
Proof.
  intros Hr Hw Hd Hs Ht.
  assert (forall c, c ∈ cs -> forall q, match c, t with HasData, ReadSleep _ _ _ | HasSpace, WriteSleep _ _ _ _ => True | _, _ => False end ->
    sleeps_rightly q (wake_one_thread cs t)) as Hin.
  { clear -t. induction cs as [|d cs IH]; intros c Hc q Hm; [set_solver|]. cbn [wake_one_thread foldr].
    apply elem_of_cons in Hc as [->|Hc]; [|by apply sleeps_rightly_wakes, (IH c)].
    fold (wake_one_thread cs t). assert (forall ds, match wake_one_thread ds t, t with
      | ReadSleep _ _ _, ReadSleep _ _ _ | WriteSleep _ _ _ _, WriteSleep _ _ _ _ => True
      | _, ReadSleep _ _ _ | _, WriteSleep _ _ _ _ => False | _, _ => True end) as Hk.
    { intros ds. induction ds as [|e ds IHd]; cbn [wake_one_thread foldr]; [by destruct t|].
      fold (wake_one_thread ds t) in *. destruct e, (wake_one_thread ds t), t; done. }
    specialize (Hk cs). destruct d, t, (wake_one_thread cs _); done. }
  assert (forall ds, sleeps_rightly p' t -> sleeps_rightly p' (wake_one_thread ds t)) as Hk
    by (induction ds; [done|intros; by apply sleeps_rightly_wakes, IHds]).
  destruct t as [|? ? []| |? ? ? []|]; try (by apply Hk); cbn [sleeps_rightly] in Ht; destruct Ht as [H1 H2].
  - destruct (decide (HasData ∈ cs)) as [Hc|Hc]; [by eapply Hin|]. apply Hk. cbn.
    split; [naive_solver|]. destruct Hw as [->|[?|?]]; done.
  - destruct (decide (HasSpace ∈ cs)) as [Hc|Hc]; [by eapply Hin|]. apply Hk. cbn.
    split; [naive_solver|]. destruct Hr as [->|[?|?]]; done.
Qed.

Record sys_ok (s : sys) (p : pipe) : Prop := {
  so_pipe : pipe_ok p;
  so_fifo : (s_fed s).*2 = (s_drained s).*2 ++ contents p;
  so_threads : forall i t, s_threads s !! i = Some t ->
    accounts t (by_thread i (s_fed s)) (by_thread i (s_drained s)) /\ sleeps_rightly p t;
  so_new : forall i, (length (s_threads s) <= i)%nat -> by_thread i (s_fed s) = [] /\ by_thread i (s_drained s) = []
}.

Lemma close_spec p w live p' cs live' :
  pipe_ok p -> pipe_close p w live = (Some p', cs, live') ->
  pipe_ok p' /\ contents p' = contents p /\ count p' = count p /\
  (readers p' = readers p \/ readers p' <> 0 \/ HasSpace ∈ cs) /\
  (writers p' = writers p \/ writers p' <> 0 \/ HasData ∈ cs).
Proof.
  intros [Hb Hh Hc Ht [Hr Hw]] E. unfold pipe_close in E. destruct w; cbn [readers writers] in E;
    destruct (_ && _); try done; injection E as <- <- _; cbn [readers writers];
    (split; [constructor; cbn; try done; split; try done; case_bool; lia|]); (split; [done|]); (split; [done|]).
  - split; [by left|]. right. destruct (Z.eqb_spec (writers p) 0); [right|destruct (Z.eqb_spec (writers p - 1) 0); [right|left; lia]]; set_solver.
  - split; [|by left]. right. destruct (Z.eqb_spec (readers p) 0); [right|destruct (Z.eqb_spec (readers p - 1) 0); [right|left; lia]]; set_solver.
Qed.

Lemma step_threads_ok s p p' cs ts fed drained :
  sys_ok s p ->
  (forall i t, ts !! i = Some t -> accounts t (by_thread i fed) (by_thread i drained) /\ sleeps_rightly p' (wake_one_thread cs t)) ->
  forall i t, wake_all cs ts !! i = Some t -> accounts t (by_thread i fed) (by_thread i drained) /\ sleeps_rightly p' t.
Proof.
  intros _ H i t Ht. rewrite wake_all_lookup in Ht. destruct (ts !! i) as [t0|] eqn:E; [|done].
  injection Ht as <-. destruct (H i t0 E). split; [by apply accounts_wake|done].
Qed.

Lemma step_new_thread s p t :
  sys_ok s p -> accounts t [] [] -> sleeps_rightly p t ->
  sys_ok (Sys (Some p) (s_threads s ++ [t]) (s_live s) (s_fed s) (s_drained s)) p.
Proof.
  intros [Hp Hf Ht Hn] Ha Hs. constructor; cbn [s_pipe s_threads s_fed s_drained]; [done|done| |].
  - intros i u Hi. apply lookup_app_Some in Hi as [Hi|[Hl Hi]]; [by apply Ht|].
    apply list_lookup_singleton_Some in Hi as [Hz <-]. destruct (Hn i) as [-> ->]; [lia|]. done.
  - intros i Hi. apply Hn. rewrite length_app in Hi. lia.
Qed.

Lemma length_wake_all cs ts : length (wake_all cs ts) = length ts.
Proof. unfold wake_all. induction cs; cbn [foldr]; [done|]. by rewrite length_fmap. Qed.

Lemma step_ok e s p p' :
  sys_ok s p -> s_pipe s = Some p -> s_pipe (step e s) = Some p' -> sys_ok (step e s) p'.
Proof.
  intros Hs Ep. pose proof Hs as [Hp Hf Ht Hn]. unfold step. rewrite Ep. destruct e as [len|data|i|w].
  - intros [= <-]. apply step_new_thread; [done|..]; destruct (Z.leb_spec len 0); cbn; auto.
  - intros [= <-]. apply step_new_thread; [done|..]; destruct (Z.eqb_spec (zlen data) 0); cbn; auto. repeat split; auto; lia.
  - destruct (s_threads s !! i) as [t|] eqn:Et; [|by rewrite Ep; intros [= <-]].
    destruct (Ht i t Et) as [Ha Hr]. destruct (thread_iter p t) as [[q t'] cs] eqn:Ei.
    destruct (thread_iter_spec p t _ _ q t' cs Hp Ha Ei) as (A & B & C & D1 & D2 & D3 & D4 & D5).
    intros [= <-]. constructor; cbn [s_threads s_fed s_drained]; [done| | |].
    + by rewrite !fmap_app, !snd_tag, Hf, <- app_assoc, C, app_assoc.
    + apply (step_threads_ok s p); [done|]. intros j u Hj.
      rewrite !by_thread_app, !by_thread_tag. destruct (decide (i = j)) as [<-|Hne].
      * rewrite list_lookup_insert_eq in Hj by (by eapply lookup_lt_Some). injection Hj as <-. split; [done|].
        clear -D5. induction cs; [done|]. by apply sleeps_rightly_wakes.
      * rewrite list_lookup_insert_ne in Hj by done. rewrite !app_nil_r. destruct (Ht j u Hj) as [Ha' Hr']. split; [done|].
        apply (sleeps_rightly_wake p); auto.
    + intros j Hj. rewrite length_wake_all, length_insert in Hj. pose proof (lookup_lt_Some _ _ _ Et).
      rewrite !by_thread_app, !by_thread_tag, !decide_False, !app_nil_r by lia. by apply Hn.
  - destruct (pipe_close p w (s_live s)) as [[q cs] live] eqn:Ec. cbn [s_pipe]. intros ->.
    destruct (close_spec p w (s_live s) p' cs live Hp Ec) as (A & B & C & D & E).
    constructor; cbn [s_threads s_fed s_drained]; [done|by rewrite B| |].
    + apply (step_threads_ok s p); [done|]. intros j u Hj. destruct (Ht j u Hj) as [Ha' Hr']. split; [done|].
      apply (sleeps_rightly_wake p); auto; rewrite C; auto.
    + intros j Hj. rewrite length_wake_all in Hj. by apply Hn.
Qed.

Lemma step_freed e s : s_pipe s = None -> step e s = s.
Proof. intros H. unfold step. by rewrite H. Qed.

Lemma start_ok : exists p, s_pipe start = Some p /\ sys_ok start p.
Proof.
  eexists. split; [reflexivity|]. constructor; [|done|done|done].
  by constructor.
Qed.

Lemma run_ok es p : s_pipe (run es start) = Some p -> sys_ok (run es start) p.
Proof.
  unfold run. revert p. induction es as [|e es IH] using rev_ind; intros p.
  - destruct start_ok as (q & E & H). cbn [foldl]. rewrite E. by intros [= <-].
  - rewrite foldl_app. cbn [foldl]. destruct (s_pipe (foldl _ start es)) as [q|] eqn:E.
    + by apply (step_ok e _ q), E; apply IH.
    + rewrite step_freed by done. by rewrite E.
Qed.

(** ** A call comes to an end *)

Lemma pipe_read_now p len waited :
  pipe_ok p -> count p <> 0 -> 0 < len ->
  exists p', pipe_read_iter p len waited = (p', Returned [] (Z.min (count p) len) (take (Z.to_nat len) (contents p)), [HasSpace]) /\
    pipe_ok p' /\ contents p' = drop (Z.to_nat len) (contents p).
Proof.
  intros Hp Hc Hlen. unfold pipe_read_iter. rewrite (proj2 (Z.eqb_neq _ 0)) by done.
  pose proof (pk_count p Hp) as Hb. pose proof (length_contents p Hp) as Hl.
  assert ((if count p <? len then count p else len) = Z.min (count p) len) as -> by (case_bool; lia).
  pose proof (ring_out_spec p (Z.min (count p) len) Hp ltac:(lia)) as (A & B & C).
  destruct (ring_out p (Z.min (count p) len)) as [q out] eqn:Eo. cbn [fst snd] in A, B, C.
  assert (count q = count p) as -> by (unfold ring_out in Eo; by injection Eo as <- _).
  replace (i32 (Z.min (count p) len)) with (Z.min (count p) len) by (unfold i32, PIPE_SIZE in *; dlia).
  eexists. split; [|split; [exact A|]].
  - subst out. do 3 f_equal. destruct (decide (count p <= len)).
    + rewrite !take_ge by lia. done.
    + do 2 f_equal. lia.
  - rewrite C. destruct (decide (count p <= len)); [by rewrite !drop_ge by lia|f_equal; lia].
Qed.

Definition tries (waited : Z) : Z := (PIPE_GIVE_UP_MS - waited + 199) / 200.
(** How many iterations a call can still make when no sleep from the [w]-th on ends by a wakeup. *)
Definition steps_left (w k : nat) (t : thread) : Z :=
  2 * Z.of_nat (w - k) +
  match t with
  | Reading _ waited => 2 * tries waited + 1
  | ReadSleep _ waited woken => 2 * tries waited + (if woken then 2 else 0)
  | Writing data done waited => 101 * (zlen data - done) + 2 * tries waited + 1
  | WriteSleep data done waited woken => 101 * (zlen data - done) + 2 * tries waited + (if woken then 2 else 0)
  | Returned _ _ _ => 0
  end.
Definition in_call (t : thread) : Prop :=
  match t with
  | Reading len waited | ReadSleep len waited _ => 0 < len /\ 0 <= waited < PIPE_GIVE_UP_MS
  | Writing data done waited | WriteSleep data done waited _ => 0 <= done <= zlen data /\ 0 <= waited < PIPE_GIVE_UP_MS
  | Returned _ _ _ => True
  end.

Lemma call_step_progress w k woken p t p' t' cs :
  pipe_ok p -> in_call t -> ((w <= k)%nat -> woken = false) ->
  thread_iter p t = (p', t', cs) ->
  pipe_ok p' /\ in_call t' /\
  (match t with Returned _ _ _ => False | _ => True end ->
   (if sleeping t' then steps_left w (S k) (asleep woken t') else steps_left w k t') < steps_left w k t).
Proof.
  intros Hp Hin Hw E. pose proof (pk_count p Hp) as Hc.
  assert (2 * Z.of_nat (w - S k) + (if woken : bool then 2 else 0) <= 2 * Z.of_nat (w - k)) as Hk
    by (destruct woken; [destruct (decide (w <= k)%nat) as [H|]; [by specialize (Hw H)|lia]|lia]).
  destruct t as [len waited|len waited b|data done waited|data done waited b|data r out]; cbn [thread_iter] in E; cbn [in_call] in Hin.
  - destruct (decide (count p = 0)) as [E0|E0].
    + unfold pipe_read_iter in E. rewrite E0, Z.eqb_refl in E. destruct (writers p =? 0); injection E as <- <- <-;
        (split; [done|]); (split; [done|]); intros _; cbn [sleeping asleep]; unfold steps_left, tries, PIPE_GIVE_UP_MS in *; [|destruct woken]; dlia.
    + destruct (pipe_read_now p len waited Hp E0 ltac:(lia)) as (q & Eq & Hq & _). rewrite Eq in E. injection E as <- <- <-.
      split; [done|]. split; [done|]. intros _. cbn [sleeping]. unfold steps_left, tries, PIPE_GIVE_UP_MS in *. dlia.
  - injection E as <- <- <-. split; [done|]. unfold pipe_read_woken. clear Hk Hw.
    destruct b; [|destruct (Z.leb_spec PIPE_GIVE_UP_MS (waited + PIPE_POLL_MS))];
      (split; [cbn; unfold PIPE_POLL_MS in *; lia || done|]); intros _; cbn [sleeping]; unfold steps_left, tries, PIPE_GIVE_UP_MS, PIPE_POLL_MS in *; dlia.
  - unfold pipe_write_iter in E. destruct (Z.leb_spec (zlen data) done).
    { injection E as <- <- <-. split; [done|]. split; [done|]. intros _. cbn [sleeping].
      unfold steps_left, tries, PIPE_GIVE_UP_MS in *. dlia. }
    destruct (readers p =? 0).
    { injection E as <- <- <-. split; [done|]. split; [done|]. intros _. cbn [sleeping].
      unfold steps_left, tries, PIPE_GIVE_UP_MS in *. dlia. }
    destruct (Z.eqb_spec (count p) PIPE_SIZE) as [Ef|Ef].
    { injection E as <- <- <-. split; [done|]. split; [done|]. intros _. cbn [sleeping asleep].
      unfold steps_left, tries, PIPE_GIVE_UP_MS in *. destruct woken; dlia. }
    set (n := if _ <? _ then _ else _) in E.
    assert (0 < n <= PIPE_SIZE - count p /\ n <= zlen data - done) as [Hn Hn2] by (unfold n; case_bool; lia). clearbody n.
    set (src := take (Z.to_nat n) (drop (Z.to_nat done) data)) in E.
    assert (zlen src = n) as Hs by (unfold src; rewrite length_take, length_drop; lia).
    pose proof (ring_in_spec p src Hp ltac:(lia)) as (A & B). rewrite Hs in A.
    injection E as <- <- <-. change (count (ring_in p src)) with (count p). split; [done|].
    split; [cbn; unfold PIPE_GIVE_UP_MS; lia|]. intros _. cbn [sleeping]. clear -Hn Hn2 Hin.
    unfold steps_left, tries, PIPE_GIVE_UP_MS in *. dlia.
  - injection E as <- <- <-. split; [done|]. unfold pipe_write_woken. clear Hk Hw.
    destruct b; [|destruct (Z.leb_spec PIPE_GIVE_UP_MS (waited + PIPE_POLL_MS))];
      (split; [cbn; unfold PIPE_POLL_MS in *; lia || done|]); intros _; cbn [sleeping]; unfold steps_left, tries, PIPE_GIVE_UP_MS, PIPE_POLL_MS in *; dlia.
  - injection E as <- <- <-. done.
Qed.

Lemma call_returns w world fuel k p t :
  (forall k p, pipe_ok p -> pipe_ok ((world k).2 p)) -> (forall k, (w <= k)%nat -> (world k).1 = false) ->
  pipe_ok p -> in_call t -> steps_left w k t <= Z.of_nat fuel -> is_Some (call fuel world k p t).
Proof.
  intros Hothers Hw. revert k p t. induction fuel as [|fuel IH]; intros k p t Hp Hin Hf.
  - destruct t; cbn [call]; try done; exfalso; cbn [in_call] in Hin; unfold steps_left, tries, PIPE_GIVE_UP_MS in *;
      try destruct woken; dlia.
  - destruct (thread_iter p t) as [[q t'] cs] eqn:E.
    destruct (call_step_progress w k (world k).1 p t q t' cs Hp Hin (Hw k) E) as (A & B & C).
    assert (match t with Returned _ _ _ => True | _ => call (S fuel) world k p t =
      if sleeping t' then call fuel world (S k) ((world k).2 q) (asleep (world k).1 t') else call fuel world k q t' end) as Hc.
    { destruct t; try done; cbn [call]; rewrite E; destruct (sleeping t'); try done; by destruct (world k). }
    destruct t; try (cbn [call]; done); rewrite Hc; specialize (C I); destruct (sleeping t') eqn:Es.
    all: try (apply IH; [by apply Hothers|by destruct t'|lia]).
    all: apply IH; [done|done|lia].
Qed.

(** C3: however calls from several threads interleave over a pipe, the bytes
    taken out followed by those still in the ring are the bytes put in, in order;
    what thread [i] put in is a prefix of its data of the length its call returned
    ([-1] for none), and what it took out is what its call returned. *)
Theorem pipe_fifo es p :
  s_pipe (run es start) = Some p ->
  let s := run es start in
  (s_fed s).*2 = (s_drained s).*2 ++ contents p /\ zlen (contents p) = count p /\ 0 <= count p <= PIPE_SIZE /\
  forall i t, s_threads s !! i = Some t -> accounts t (by_thread i (s_fed s)) (by_thread i (s_drained s)).
Proof.
  intros H s. destruct (run_ok es p H) as [Hp Hf Ht _]. split; [done|]. split; [by apply length_contents|].
  split; [apply Hp|]. intros i t Hi. by apply Ht.
Qed.

(** C22: no wakeup is lost. A call asleep that no one has woken is asleep
    rightly: a reader on an empty pipe that still has a writer, a writer on a full
    pipe that still has a reader. *)
Theorem pipe_no_lost_wakeup es p i t :
  s_pipe (run es start) = Some p -> s_threads (run es start) !! i = Some t -> sleeps_rightly p t.
Proof. intros H Hi. destruct (run_ok es p H) as [_ _ Ht _]. by apply (Ht i t). Qed.

(** A read of a pipe with bytes in it returns at once what is there, up to
    what was asked for; and every read and write comes to an end, giving up after
    fifty timed out sleeps without progress, unless it is woken for ever: when no
    sleep from the [w]-th on ends by a wakeup, [2 * w + 101] iterations are enough
    for a read and [2 * w + 101 * (len + 1)] for a write. *)
Theorem pipe_calls_return w world p room len data :
  (forall k p, pipe_ok p -> pipe_ok ((world k).2 p)) -> (forall k, (w <= k)%nat -> (world k).1 = false) -> pipe_ok p -> 0 <= len ->
  (count p <> 0 -> 0 < len -> exists p', contents p' = drop (Z.to_nat len) (contents p) /\
     pipe_read 1 world (Some p) true len = Some (Some p', Z.min (count p) len, take (Z.to_nat len) (contents p))) /\
  is_Some (pipe_read (2 * w + 101) world (Some p) room len) /\
  is_Some (pipe_write (2 * w + 101 * (length data + 1)) world (Some p) (Some data)).
Proof.
  intros Ho Hw Hp Hlen. split; [|split].
  - intros Hc Hl. destruct (pipe_read_now p len 0 Hp Hc Hl) as (q & Eq & _ & Hq). exists q. split; [done|].
    unfold pipe_read. cbn [negb]. rewrite (proj2 (Z.eqb_neq len 0)) by lia. cbn [call thread_iter]. by rewrite Eq.
  - unfold pipe_read. destruct (negb room); [done|]. destruct (Z.eqb_spec len 0); [done|].
    destruct (call_returns w world (2 * w + 101) 0 p (Reading len 0) Ho Hw Hp) as [[[q r] o] Hc].
    + cbn. unfold PIPE_GIVE_UP_MS. lia.
    + unfold steps_left, tries, PIPE_GIVE_UP_MS. dlia.
    + rewrite Hc. done.
  - unfold pipe_write. destruct (zlen data =? 0); [done|].
    destruct (call_returns w world (2 * w + 101 * (length data + 1)) 0 p (Writing data 0 0) Ho Hw Hp) as [[[q r] o] Hc].
    + cbn. unfold PIPE_GIVE_UP_MS. lia.
    + unfold steps_left, tries, PIPE_GIVE_UP_MS. dlia.
    + rewrite Hc. done.
Qed.

(** A reader that sleeps first, a writer, and the reader again. *)
Definition some_events : list event := [Read 2; Run 0; Write [7; 8; 9]; Run 1; Run 1; Run 0; Run 0].

Definition alive (s : sys) : bool := if s_pipe s is Some _ then true else false.
Lemma some_run : alive (run some_events start) = true.
Proof. vm_compute. reflexivity. Qed.
Lemma some_run2 : alive (run [Read 2; Run 0] start) = true.
Proof. vm_compute. reflexivity. Qed.

Lemma pipe_fifo_witness : exists p, s_pipe (run some_events start) = Some p /\
  (s_fed (run some_events start)).*2 = (s_drained (run some_events start)).*2 ++ contents p /\
  s_drained (run some_events start) = [(0%nat, 7); (0%nat, 8)].
Proof.
  destruct (s_pipe (run some_events start)) as [p|] eqn:E.
  - exists p. split; [reflexivity|]. split; [exact (proj1 (pipe_fifo some_events p E))|vm_compute; reflexivity].
  - exfalso. pose proof some_run as H. unfold alive in H. rewrite E in H. discriminate.
Defined.

Lemma pipe_no_lost_wakeup_witness : exists p, s_pipe (run [Read 2; Run 0] start) = Some p /\
  s_threads (run [Read 2; Run 0] start) = [ReadSleep 2 0 false] /\ count p = 0 /\ writers p <> 0.
Proof.
  destruct (s_pipe (run [Read 2; Run 0] start)) as [p|] eqn:E.
  - exists p. split; [reflexivity|]. split; [vm_compute; reflexivity|].
    apply (pipe_no_lost_wakeup [Read 2; Run 0] p 0 (ReadSleep 2 0 false) E). vm_compute. reflexivity.
  - exfalso. pose proof some_run2 as H. unfold alive in H. rewrite E in H. discriminate.
Defined.

Definition fresh : pipe := Pipe (replicate (Z.to_nat PIPE_SIZE) 0) 0 0 0 1 1.
Lemma fresh_ok : pipe_ok fresh.
Proof. by constructor. Qed.
Lemma pipe_calls_return_witness :
  is_Some (pipe_write (2 * 0 + 101 * (2 + 1)) (fun _ => (false, id)) (Some fresh) (Some [1; 2])).
Proof.
  refine (proj2 (proj2 (pipe_calls_return 0 (fun _ => (false, id)) fresh true 1 [1; 2] _ _ fresh_ok _))).
  - intros k p Hp. exact Hp.
  - intros k _. reflexivity.
  - discriminate.
Defined.
