(* ===== verification/Hash.v ===== *)
(** The streaming construction the three hashes of kernel/sha256.c, kernel/sha512.c
    and kernel/crypto.c share: a buffer of one block filled by any number of
    updates, a compression of every full block, and padding at the end.

    [update] is the body of sha256_update, sha512_update and sha1_update; what
    differs is the block size and the compression, which are parameters. [digest] is
    the specification: the compression folded over the padded message. *)
From S2P Require Import Prelude.

Record stream := Stream { h : list Z; nbits : Z; sbuf : list Z; have : Z }.

(** Big end first words, the form of a digest. *)
Definition words_out (n : nat) (l : list Z) : list Z := concat (be_bytes n <$> l).

Section stream.
  Context (B : Z) (compress : list Z -> list Z -> list Z).

(** The loop of an update; [length p] rounds are enough, each takes a byte ([update_ok]). *)
Fixpoint update_loop (fuel : nat) (s : stream) (p : list Z) : stream :=
  match fuel with
  | O => s
  | S fuel =>
      if zlen p =? 0 then s else
      let room := B - have s in
      let n := if zlen p <? room then zlen p else room in
      let b := splice (sbuf s) (Z.to_nat (have s)) (take (Z.to_nat n) p) in
      let hv := have s + n in
      let s := if hv =? B then Stream (compress (h s) b) (nbits s) b 0
               else Stream (h s) (nbits s) b hv in
      update_loop fuel s (drop (Z.to_nat n) p)
  end.

Definition update (s : stream) (data : list Z) : stream :=
  update_loop (length data) (Stream (h s) (u64 (nbits s + zlen data * 8)) (sbuf s) (have s)) data.

(** [while (s->have != n) update(s, &zero, 1)]: fewer than a block of rounds. *)
Fixpoint pad_zeros (fuel : nat) (n : Z) (s : stream) : stream :=
  match fuel with
  | O => s
  | S fuel => if have s =? n then s else pad_zeros fuel n (update s [0])
  end.

(** [s->buf[s->have++] = b] for each byte. *)
Definition push_bytes (s : stream) (l : list Z) : stream :=
  foldl (fun s b => Stream (h s) (nbits s) (sbuf s).[have s := b] (have s + 1)) s l.

(** ** What the stream computes *)

(** The compression over the first [n] blocks, and over every whole block. *)
Fixpoint absorb (n : nat) (h0 : list Z) (m : list Z) : list Z :=
  match n with
  | O => h0
  | S n => absorb n (compress h0 (take (Z.to_nat B) m)) (drop (Z.to_nat B) m)
  end.
Definition fold_blocks (h0 m : list Z) : list Z := absorb (Z.to_nat (zlen m / B)) h0 m.

(** The stream has taken in [m] since it was initialised with [h0]. *)
Record holds (h0 m : list Z) (s : stream) : Prop := {
  ho_have : have s = zlen m mod B;
  ho_len : zlen (sbuf s) = B;
  ho_h : h s = fold_blocks h0 m;
  ho_buf : take (Z.to_nat (have s)) (sbuf s) = drop (Z.to_nat (zlen m / B * B)) m
}.

Context (HB : 0 < B).

Lemma absorb_app n h0 m m' :
  Z.of_nat n * B <= zlen m -> absorb n h0 (m ++ m') = absorb n h0 m.
Proof.
  revert h0 m. induction n as [|n IH]; intros h0 m Hn; cbn [absorb]; [done|].
  rewrite take_app_le by lia. rewrite drop_app_le by lia. apply IH. rewrite length_drop. lia.
Qed.
Lemma absorb_add n k h0 m :
  absorb (n + k) h0 m = absorb k (absorb n h0 m) (drop (Z.to_nat (Z.of_nat n * B)) m).
Proof.
  revert h0 m. induction n as [|n IH]; intros h0 m; cbn [absorb Nat.add]; [done|].
  rewrite IH, drop_drop. do 2 f_equal. lia.
Qed.

Lemma zlen_split (m : list Z) : zlen m = zlen m / B * B + zlen m mod B /\ 0 <= zlen m mod B < B /\ 0 <= zlen m / B.
Proof.
  pose proof (Z.div_mod (zlen m) B ltac:(lia)). pose proof (Z.mod_pos_bound (zlen m) B HB).
  split; [lia|]. split; [done|]. apply Z.div_pos; lia.
Qed.
Lemma div_mod_eq a q r : 0 <= r < B -> a = q * B + r -> a / B = q /\ a mod B = r.
Proof. intros. split; [symmetry; apply (Z.div_unique _ _ _ r); lia|symmetry; apply (Z.mod_unique _ _ q); lia]. Qed.

(** Bytes that do not fill the block change nothing but the rest. *)
Lemma fold_blocks_short h0 m x :
  zlen m mod B + zlen x < B -> fold_blocks h0 (m ++ x) = fold_blocks h0 m.
Proof.
  intros Hx. destruct (zlen_split m) as (Hm & Hr & Hq). unfold fold_blocks.
  destruct (div_mod_eq (zlen (m ++ x)) (zlen m / B) (zlen m mod B + zlen x)) as [-> _];
    [lia|rewrite length_app; lia|]. apply absorb_app. rewrite Z2Nat.id by done. lia.
Qed.
(** Bytes that fill it compress the block they complete. *)
Lemma fold_blocks_full h0 m x :
  zlen m mod B + zlen x = B ->
  fold_blocks h0 (m ++ x) = compress (fold_blocks h0 m) (drop (Z.to_nat (zlen m / B * B)) m ++ x).
Proof.
  intros Hx. destruct (zlen_split m) as (Hm & Hr & Hq). unfold fold_blocks.
  destruct (div_mod_eq (zlen (m ++ x)) (zlen m / B + 1) 0) as [-> _]; [lia|rewrite length_app; lia|].
  rewrite Z2Nat.inj_add by lia. rewrite absorb_add. change (Z.to_nat 1) with 1%nat. cbn [absorb].
  rewrite absorb_app by (rewrite Z2Nat.id by done; lia). f_equal.
  rewrite Z2Nat.id by done. rewrite drop_app_le by lia. apply take_ge. rewrite length_app, length_drop. lia.
Qed.
Lemma rest_app (m x : list Z) :
  zlen m mod B + zlen x < B ->
  drop (Z.to_nat (zlen (m ++ x) / B * B)) (m ++ x) = drop (Z.to_nat (zlen m / B * B)) m ++ x /\
  zlen (m ++ x) mod B = zlen m mod B + zlen x.
Proof.
  intros Hx. destruct (zlen_split m) as (Hm & Hr & Hq).
  destruct (div_mod_eq (zlen (m ++ x)) (zlen m / B) (zlen m mod B + zlen x)) as [-> ->];
    [lia|rewrite length_app; lia|]. split; [|done]. apply drop_app_le. lia.
Qed.

Lemma update_loop_ok h0 fuel m s p :
  holds h0 m s -> (length p <= fuel)%nat ->
  holds h0 (m ++ p) (update_loop fuel s p) /\ nbits (update_loop fuel s p) = nbits s.
Proof.
  revert m s p. induction fuel as [|fuel IH]; intros m s p Hs Hf; cbn [update_loop].
  { destruct p; [by rewrite app_nil_r|cbn in Hf; lia]. }
  destruct (Z.eqb_spec (zlen p) 0) as [E|E]; [destruct p; [by rewrite app_nil_r|done]|].
  destruct Hs as [H1 H2 H3 H4]. destruct (zlen_split m) as (Hm & Hr & Hq).
  set (n := if zlen p <? B - have s then zlen p else B - have s).
  assert (0 < n <= zlen p /\ n <= B - have s /\ (n < B - have s -> n = zlen p)) as (Hn1 & Hn2 & Hn3)
    by (unfold n; destruct (Z.ltb_spec (zlen p) (B - have s)); lia). clearbody n.
  set (x := take (Z.to_nat n) p). assert (zlen x = n) as Hx by (unfold x; rewrite length_take; lia).
  assert (length (splice (sbuf s) (Z.to_nat (have s)) x) = length (sbuf s)) as Hlen by (apply length_splice; lia).
  assert (take (Z.to_nat (have s + n)) (splice (sbuf s) (Z.to_nat (have s)) x) = drop (Z.to_nat (zlen m / B * B)) m ++ x) as Hbuf.
  { rewrite <- H4, <- take_splice by lia. f_equal. lia. }
  replace (m ++ p) with ((m ++ x) ++ drop (Z.to_nat n) p) by (rewrite <- app_assoc; unfold x; by rewrite take_drop).
  destruct (Z.eqb_spec (have s + n) B) as [Ef|Ef].
  - edestruct (IH (m ++ x) (Stream (compress (h s) (splice (sbuf s) (Z.to_nat (have s)) x)) (nbits s)
      (splice (sbuf s) (Z.to_nat (have s)) x) 0) (drop (Z.to_nat n) p)) as [A C]; [|rewrite length_drop; lia|by split].
    destruct (div_mod_eq (zlen (m ++ x)) (zlen m / B + 1) 0) as [Hd Hmod]; [lia|rewrite length_app; lia|].
    constructor; cbn [have sbuf h]; [done|lia| |].
    + rewrite fold_blocks_full by lia. rewrite H3, <- Hbuf. f_equal. symmetry. apply take_ge. lia.
    + rewrite Hd. rewrite drop_ge by (rewrite length_app; lia). done.
  - destruct (rest_app m x ltac:(lia)) as [Hd Hmod].
    edestruct (IH (m ++ x) (Stream (h s) (nbits s) (splice (sbuf s) (Z.to_nat (have s)) x) (have s + n))
      (drop (Z.to_nat n) p)) as [A C]; [|rewrite length_drop; lia|by split].
    constructor; cbn [have sbuf h]; [lia|lia| |].
    + by rewrite fold_blocks_short by lia.
    + by rewrite Hbuf, Hd.
Qed.

Lemma update_ok h0 m s p :
  holds h0 m s -> holds h0 (m ++ p) (update s p) /\ nbits (update s p) = u64 (nbits s + zlen p * 8).
Proof.
  intros [H1 H2 H3 H4]. unfold update.
  destruct (update_loop_ok h0 (length p) m (Stream (h s) (u64 (nbits s + zlen p * 8)) (sbuf s) (have s)) p) as [A C];
    [by constructor|done|]. split; [done|]. by rewrite C.
Qed.

(** The stream has taken in [m], its length counted. *)
Definition stream_of (h0 m : list Z) (s : stream) : Prop := holds h0 m s /\ nbits s = u64 (zlen m * 8).

Lemma update_stream h0 m s p : stream_of h0 m s -> stream_of h0 (m ++ p) (update s p).
Proof.
  intros [Hs Hb]. destruct (update_ok h0 m s p Hs) as [A C]. split; [done|]. rewrite C, Hb.
  unfold u64. rewrite Zplus_mod_idemp_l, length_app. f_equal. lia.
Qed.
Lemma updates_stream h0 m s parts : stream_of h0 m s -> stream_of h0 (m ++ concat parts) (foldl update s parts).
Proof.
  revert m s. induction parts as [|p parts IH]; intros m s Hs; cbn [foldl concat]; [by rewrite app_nil_r|].
  rewrite app_assoc. by apply IH, update_stream.
Qed.

(** The zeros that bring the fill to [n] bytes. *)
Lemma pad_zeros_ok h0 m s n fuel :
  holds h0 m s -> 0 <= n < B -> (n - have s) mod B <= Z.of_nat fuel ->
  let k := Z.to_nat ((n - zlen m) mod B) in
  holds h0 (m ++ replicate k 0) (pad_zeros fuel n s) /\ have (pad_zeros fuel n s) = n.
Proof.
  revert m s. induction fuel as [|fuel IH]; intros m s Hs Hn Hf; cbn zeta.
  - assert ((n - have s) mod B = 0) as E by (pose proof (Z.mod_pos_bound (n - have s) B HB); lia).
    pose proof Hs as [H1 _ _ _]. destruct (zlen_split m) as (Hm & Hr & Hq).
    assert (n = have s) as -> by (apply Z.mod_divide in E as [q E]; [|lia]; destruct (decide (q = 0)); nia).
    rewrite H1 in *. rewrite Zminus_mod_idemp_l, Z.sub_diag, Z.mod_0_l by lia. cbn [pad_zeros replicate Z.to_nat].
    by rewrite app_nil_r, H1.
  - cbn [pad_zeros]. pose proof Hs as [H1 _ _ _]. destruct (zlen_split m) as (Hm & Hr & Hq).
    destruct (Z.eqb_spec (have s) n) as [E|E].
    + rewrite <- E, H1. rewrite Zminus_mod_idemp_l, Z.sub_diag, Z.mod_0_l by lia. cbn [replicate Z.to_nat].
      by rewrite app_nil_r.
    + destruct (update_ok h0 m s [0] Hs) as [A _]. set (r := (n - have s) mod B) in *.
      assert (0 < r < B) as Hr'.
      { pose proof (Z.mod_pos_bound (n - have s) B HB). unfold r. destruct (decide ((n - have s) mod B = 0)) as [E'|]; [|lia].
        exfalso. apply Z.mod_divide in E' as [q E']; [|lia]. destruct (decide (q = 0)); nia. }
      assert (forall a, (n - zlen m) mod B = r /\ (n - zlen (m ++ [a])) mod B = r - 1) as Hk.
      { intros a. assert (exists q, n - have s = B * q + r) as [q Eq] by (exists ((n - have s) / B); apply Z.div_mod; lia).
        split; symmetry.
        - apply (Z.mod_unique _ _ (q - zlen m / B)); [lia|]. lia.
        - apply (Z.mod_unique _ _ (q - zlen m / B)); [lia|]. rewrite length_app. cbn [length]. lia. }
      destruct (IH (m ++ [0]) (update s [0]) A Hn) as [D1 D2].
      { destruct A as [-> _ _ _]. rewrite Zminus_mod_idemp_r. rewrite (proj2 (Hk 0)). lia. }
      rewrite (proj1 (Hk 0)). rewrite (proj2 (Hk 0)) in D1. rewrite <- app_assoc in D1.
      change ([0] ++ replicate (Z.to_nat (r - 1)) 0) with (replicate (S (Z.to_nat (r - 1))) 0) in D1.
      replace (S (Z.to_nat (r - 1))) with (Z.to_nat r) in D1 by lia. by split.
Qed.

(** Bytes pushed up to the end of the block. *)
Lemma push_bytes_buf l s :
  0 <= have s -> have s + zlen l <= zlen (sbuf s) ->
  h (push_bytes s l) = h s /\ zlen (sbuf (push_bytes s l)) = zlen (sbuf s) /\
  take (Z.to_nat (have s + zlen l)) (sbuf (push_bytes s l)) = take (Z.to_nat (have s)) (sbuf s) ++ l.
Proof.
  unfold push_bytes. revert s. induction l as [|b l IH]; intros s H0 Hl; cbn [foldl].
  - rewrite app_nil_r. replace (have s + zlen []) with (have s) by (cbn; lia). done.
  - cbn [length] in Hl. edestruct (IH (Stream (h s) (nbits s) (sbuf s).[have s := b] (have s + 1))) as (A & C & D);
      cbn [have sbuf h] in *; rewrite ?length_setz; [lia|lia|]. rewrite A, C, length_setz. split; [done|]. split; [done|].
    cbn [length]. replace (have s + Z.of_nat (S (length l))) with (have s + 1 + zlen l) by lia. rewrite D.
    replace (Z.to_nat (have s + 1)) with (S (Z.to_nat (have s))) by lia. unfold setz.
    rewrite (take_S_r _ _ b) by (apply list_lookup_insert_eq; lia).
    rewrite take_insert, decide_False by lia. by rewrite <- app_assoc.
Qed.

Lemma push_full h0 m s l :
  holds h0 m s -> have s + zlen l = B ->
  compress (h (push_bytes s l)) (sbuf (push_bytes s l)) = fold_blocks h0 (m ++ l).
Proof.
  intros [H1 H2 H3 H4] Hl. destruct (zlen_split m) as (Hm & Hr & Hq).
  destruct (push_bytes_buf l s) as (A & C & D); [lia|lia|].
  rewrite A, H3, fold_blocks_full by lia. f_equal. rewrite <- H4, <- D. symmetry. apply take_ge. lia.
Qed.

Lemma holds_start h0 nb b : zlen b = B -> holds h0 [] (Stream h0 nb b 0).
Proof.
  intros Hb. constructor; cbn [have sbuf h]; [done|done| |].
  - unfold fold_blocks. cbn. done.
  - cbn. by rewrite drop_nil.
Qed.

Lemma stream_start h0 b : zlen b = B -> stream_of h0 [] (Stream h0 0 b 0).
Proof. intros. split; [by apply holds_start|done]. Qed.

End stream.

(** A message padded to whole blocks of [B] bytes, its length in the last [8 + gap]. *)
Definition padded (B gap : Z) (m : list Z) : list Z :=
  m ++ [0x80] ++ replicate (Z.to_nat ((B - gap - 8 - (zlen m + 1)) mod B)) 0 ++
  replicate (Z.to_nat gap) 0 ++ be_bytes 8 (u64 (zlen m * 8)).

(** ** HMAC, as RFC 2104 states it *)

Definition xor_pad (k : list Z) (c : Z) : list Z := (fun b => u8 (b .^ c)) <$> k.
Definition hmac_key (H : list Z -> list Z) (B : Z) (key : list Z) : list Z :=
  let k := if B <? zlen key then H key else key in k ++ replicate (Z.to_nat (B - zlen k)) 0.
Definition hmac (H : list Z -> list Z) (B : Z) (key text : list Z) : list Z :=
  let k := hmac_key H B key in H (xor_pad k 0x5c ++ H (xor_pad k 0x36 ++ text)).

Lemma be_bytes_8 x : (fun i => u8 (x .>> (i * 8))) <$> [7; 6; 5; 4; 3; 2; 1; 0] = be_bytes 8 x.
Proof.
  cbn [fmap list_fmap be_bytes le_bytes rev app]. unfold be_bytes. cbn [le_bytes rev app].
  rewrite !Z.shiftr_shiftr by lia. rewrite ?Z.shiftr_0_r. done.
Qed.

Lemma splice_zeros n x : (length x <= n)%nat -> splice (replicate n 0) 0 x = x ++ replicate (n - length x) 0.
Proof. intros. unfold splice. cbn [take app Nat.add]. by rewrite drop_replicate. Qed.

(** The first [need] bytes of a block and what follows it. *)
Lemma take_block (need : Z) (b rest : list Z) :
  0 <= need ->
  take (Z.to_nat need) (b ++ rest) =
  take (Z.to_nat (Z.min (zlen b) need)) b ++ take (Z.to_nat (need - Z.min (zlen b) need)) rest.
Proof.
  intros. destruct (decide (zlen b <= need)).
  - rewrite Z.min_l by done. rewrite take_app. rewrite !(take_ge b) by lia. do 2 f_equal. lia.
  - rewrite Z.min_r by lia. rewrite take_app_le by lia. rewrite Z.sub_diag. by rewrite app_nil_r.
Qed.

(** Words out have [n] bytes each. *)
Lemma length_words_out n l : length (words_out n l) = (n * length l)%nat.
Proof.
  unfold words_out. induction l as [|x l IH]; cbn [fmap list_fmap concat length]; [lia|].
  rewrite length_app, length_be_bytes, IH. lia.
Qed.
Lemma words_out_bytes n l : bytes (words_out n l).
Proof.
  unfold words_out. induction l as [|x l IH]; cbn [fmap list_fmap concat]; [done|].
  apply Forall_app_2; [apply be_bytes_bytes|done].
Qed.
