(* ===== verification/Sha256.v ===== *)
(** kernel/sha256.c: SHA-256, HMAC, HKDF and the TLS 1.2 and 1.3 key derivations.

    A key, label or message is the list of its bytes; an output buffer is the list
    written to it, [None] when the call returns false. *)
From S2P Require Import Prelude Hash.

Definition K : list Z := Eval cbv in
  [0x428a2f98; 0x71374491; 0xb5c0fbcf; 0xe9b5dba5] ++
  [0x3956c25b; 0x59f111f1; 0x923f82a4; 0xab1c5ed5] ++
  [0xd807aa98; 0x12835b01; 0x243185be; 0x550c7dc3] ++
  [0x72be5d74; 0x80deb1fe; 0x9bdc06a7; 0xc19bf174] ++
  [0xe49b69c1; 0xefbe4786; 0x0fc19dc6; 0x240ca1cc] ++
  [0x2de92c6f; 0x4a7484aa; 0x5cb0a9dc; 0x76f988da] ++
  [0x983e5152; 0xa831c66d; 0xb00327c8; 0xbf597fc7] ++
  [0xc6e00bf3; 0xd5a79147; 0x06ca6351; 0x14292967] ++
  [0x27b70a85; 0x2e1b2138; 0x4d2c6dfc; 0x53380d13] ++
  [0x650a7354; 0x766a0abb; 0x81c2c92e; 0x92722c85] ++
  [0xa2bfe8a1; 0xa81a664b; 0xc24b8b70; 0xc76c51a3] ++
  [0xd192e819; 0xd6990624; 0xf40e3585; 0x106aa070] ++
  [0x19a4c116; 0x1e376c08; 0x2748774c; 0x34b0bcb5] ++
  [0x391c0cb3; 0x4ed8aa4a; 0x5b9cca4f; 0x682e6ff3] ++
  [0x748f82ee; 0x78a5636f; 0x84c87814; 0x8cc70208] ++
  [0x90befffa; 0xa4506ceb; 0xbef9a3f7; 0xc67178f2].

Definition ror (x n : Z) : Z := (x .>> n) .| u32 (x .<< (32 - n)).

(** The message schedule. *)
Definition schedule (block : list Z) : list Z :=
  let w := for_range 0 16 (fun i w =>
    w.[i := u32 (block.[i * 4] .<< 24) .| u32 (block.[i * 4 + 1] .<< 16) .| (block.[i * 4 + 2] .<< 8) .| block.[i * 4 + 3]])
    (replicate 64 0) in
  for_range 16 64 (fun i w =>
    let s0 := ror w.[i - 15] 7 .^ ror w.[i - 15] 18 .^ (w.[i - 15] .>> 3) in
    let s1 := ror w.[i - 2] 17 .^ ror w.[i - 2] 19 .^ (w.[i - 2] .>> 10) in
    w.[i := u32 (w.[i - 16] + s0 + w.[i - 7] + s1)]) w.

Record regs := Regs { ra : Z; rb : Z; rc : Z; rd : Z; re : Z; rf : Z; rg : Z; rh : Z }.

Definition round (w : list Z) (i : Z) (r : regs) : regs :=
  let '(Regs a b c d e f g hh) := r in
  let S1 := ror e 6 .^ ror e 11 .^ ror e 25 in
  let ch := (e .& f) .^ (u32 (Z.lnot e) .& g) in
  let t1 := u32 (hh + S1 + ch + K.[i] + w.[i]) in
  let S0 := ror a 2 .^ ror a 13 .^ ror a 22 in
  let maj := (a .& b) .^ (a .& c) .^ (b .& c) in
  let t2 := u32 (S0 + maj) in
  Regs (u32 (t1 + t2)) a b c (u32 (d + t1)) e f g.

Definition compress (h : list Z) (block : list Z) : list Z :=
  let w := schedule block in
  let '(Regs a b c d e f g hh) := for_range 0 64 (round w) (Regs h.[0] h.[1] h.[2] h.[3] h.[4] h.[5] h.[6] h.[7]) in
  [u32 (h.[0] + a); u32 (h.[1] + b); u32 (h.[2] + c); u32 (h.[3] + d);
   u32 (h.[4] + e); u32 (h.[5] + f); u32 (h.[6] + g); u32 (h.[7] + hh)].

Definition SHA256_BLOCK : Z := 64.
Definition SHA256_SIZE : Z := 32.
Definition IV : list Z :=
  [0x6a09e667; 0xbb67ae85; 0x3c6ef372; 0xa54ff53a; 0x510e527f; 0x9b05688c; 0x1f83d9ab; 0x5be0cd19].

Definition sha256_init (s : stream) : stream := Stream IV 0 (sbuf s) 0.
Definition sha256_update : stream -> list Z -> stream := update SHA256_BLOCK compress.

Definition sha256_final (s : stream) : list Z :=
  let bits := nbits s in
  let s := sha256_update s [0x80] in
  let s := pad_zeros SHA256_BLOCK compress 64 (SHA256_BLOCK - 8) s in
  let s := push_bytes s ((fun i => u8 (bits .>> (i * 8))) <$> [7; 6; 5; 4; 3; 2; 1; 0]) in
  words_out 4 (compress (h s) (sbuf s)).

(** A stream on the stack: its buffer holds whatever was there. *)
Definition stack_stream : stream := Stream [] 0 (replicate 64 0) 0.

Definition sha256 (data : list Z) : list Z :=
  sha256_final (sha256_update (sha256_init stack_stream) data).

Definition hmac_sha256 (key data : list Z) : list Z :=
  let k := replicate 64 0 in
  let k := if SHA256_BLOCK <? zlen key then splice k 0 (sha256 key) else splice k 0 key in
  let pad := (fun b => u8 (b .^ 0x36)) <$> k in
  let inner := sha256_final (sha256_update (sha256_update (sha256_init stack_stream) pad) data) in
  let pad := (fun b => u8 (b .^ 0x5c)) <$> k in
  sha256_final (sha256_update (sha256_update (sha256_init stack_stream) pad) inner).

(** A null or empty salt is [None] or [[]]. *)
Definition hkdf_extract (salt : option (list Z)) (ikm : list Z) : list Z :=
  let salt := match salt with
              | None | Some [] => replicate 32 0
              | Some salt => salt end in
  hmac_sha256 salt ikm.

(** The loop, [need] bytes from the end; a round gives at least one byte. *)
Fixpoint hkdf_expand_loop (fuel : nat) (prk info block : list Z) (counter need : Z) (out : list Z) : option (list Z) :=
  match fuel with
  | O => Some out
  | S fuel =>
      if need =? 0 then Some out else
      let msg := if 1 <? counter then block else [] in
      if 256 <? zlen info then None else
      let block := hmac_sha256 prk (msg ++ info ++ [counter]) in
      let n := if SHA256_SIZE <? need then SHA256_SIZE else need in
      hkdf_expand_loop fuel prk info block (u8 (counter + 1)) (need - n) (out ++ take (Z.to_nat n) block)
  end.
Definition hkdf_expand (prk info : list Z) (out_len : Z) : option (list Z) :=
  if 255 * SHA256_SIZE <? out_len then None else
  hkdf_expand_loop (Z.to_nat out_len) prk info [] 1 out_len [].

(** The bytes of "tls13 ". *)
Definition tls13_ : list Z := [116; 108; 115; 49; 51; 32].

Definition hkdf_expand_label (secret label ctx : list Z) (out_len : Z) : option (list Z) :=
  let label_len := zlen label in
  if (32 <? label_len) || (64 <? zlen ctx) then None else
  let info := [u8 (out_len .>> 8); u8 out_len; u8 (6 + label_len)] ++ tls13_ ++ label ++ [u8 (zlen ctx)] ++ ctx in
  hkdf_expand secret info out_len.

Definition tls13_derive_secret (secret label transcript_hash : list Z) : option (list Z) :=
  hkdf_expand_label secret label transcript_hash SHA256_SIZE.

Fixpoint prf_loop (fuel : nat) (secret ls a : list Z) (out_len : Z) (out : list Z) : list Z :=
  match fuel with
  | O => out
  | S fuel =>
      if out_len =? 0 then out else
      let block := hmac_sha256 secret (a ++ ls) in
      let n := if out_len <? SHA256_SIZE then out_len else SHA256_SIZE in
      prf_loop fuel secret ls (hmac_sha256 secret a) (out_len - n) (out ++ take (Z.to_nat n) block)
  end.
(** What it puts in [out], or [None] when it is refused; and no result at all for a label of
    2^32 characters, at whose end it never comes, and for lengths whose sum wraps to one that
    passes, which it copies past the end of [ls]. *)
Definition tls12_prf (secret label seed : list Z) (out_len : Z) : option (option (list Z)) :=
  let label_len := zlen label in
  let seed_len := zlen seed in
  if 2 ^ 32 <=? label_len then None else
  if 96 <? u32 (label_len + seed_len) then Some None else
  if 96 <? label_len + seed_len then None else
  let ls := label ++ seed in
  Some (Some (prf_loop (Z.to_nat out_len) secret ls (hmac_sha256 secret ls) out_len [])).

(** ** The digest as FIPS 180-4 states it *)

Definition digest (m : list Z) : list Z :=
  words_out 4 (fold_blocks SHA256_BLOCK compress IV (padded SHA256_BLOCK 0 m)).

Lemma sha256_final_digest m s :
  stream_of SHA256_BLOCK compress IV m s -> sha256_final s = digest m.
Proof.
  intros [Hs Hb]. unfold sha256_final, digest. f_equal. rewrite be_bytes_8, Hb.
  destruct (update_ok SHA256_BLOCK compress eq_refl IV m s [0x80] Hs) as [A _].
  destruct (pad_zeros_ok SHA256_BLOCK compress eq_refl IV _ _ (SHA256_BLOCK - 8) 64 A) as [C D]; [done| |].
  { pose proof (Z.mod_pos_bound (SHA256_BLOCK - 8 - have (update SHA256_BLOCK compress s [128])) SHA256_BLOCK eq_refl).
    unfold SHA256_BLOCK in *. lia. }
  unfold sha256_update. rewrite (push_full SHA256_BLOCK compress eq_refl IV _ _ _ C) by (rewrite D, length_be_bytes; done).
  f_equal. unfold padded. rewrite <- !app_assoc, length_app. cbn [length app]. do 6 f_equal. unfold SHA256_BLOCK. f_equal. lia.
Qed.

Lemma sha256_init_stream s : zlen (sbuf s) = SHA256_BLOCK -> stream_of SHA256_BLOCK compress IV [] (sha256_init s).
Proof. apply (stream_start SHA256_BLOCK compress). Qed.

Lemma sha256_digest m : sha256 m = digest m.
Proof.
  unfold sha256. apply sha256_final_digest. apply (update_stream SHA256_BLOCK compress eq_refl IV []). by apply sha256_init_stream.
Qed.

Example sha256_abc : sha256 [97; 98; 99] =
  be_bytes 32 0xba7816bf8f01cfea414140de5dae2223b00361a396177a9cb410ff61f20015ad.
Proof. vm_compute. reflexivity. Qed.

Lemma length_sha256 m : zlen (sha256 m) = SHA256_SIZE.
Proof.
  rewrite sha256_digest. unfold digest. rewrite length_words_out. generalize (padded SHA256_BLOCK 0 m) as p. intros p.
  unfold fold_blocks. generalize (Z.to_nat (zlen p / SHA256_BLOCK)) as n.
  assert (length IV = 8%nat) as H by done. revert H. generalize IV as h0. intros h0 H n. revert h0 p H.
  induction n as [|n IH]; intros h0 p H; cbn [absorb]; [by rewrite H|]. apply IH.
  unfold compress. by destruct (for_range _ _ _ _).
Qed.
Lemma sha256_bytes m : bytes (sha256 m).
Proof. rewrite sha256_digest. apply words_out_bytes. Qed.

Lemma two_updates a b :
  sha256_final (sha256_update (sha256_update (sha256_init stack_stream) a) b) = sha256 (a ++ b).
Proof.
  rewrite sha256_digest. apply sha256_final_digest. apply (update_stream SHA256_BLOCK compress eq_refl IV a).
  apply (update_stream SHA256_BLOCK compress eq_refl IV []). by apply sha256_init_stream.
Qed.

#[local] Opaque sha256.

Lemma hmac_sha256_spec key data : hmac_sha256 key data = hmac sha256 SHA256_BLOCK key data.
Proof.
  unfold hmac_sha256, hmac, hmac_key, xor_pad. rewrite !two_updates. cbn zeta.
  assert ((if SHA256_BLOCK <? zlen key then splice (replicate 64 0) 0 (sha256 key) else splice (replicate 64 0) 0 key) =
    (if SHA256_BLOCK <? zlen key then sha256 key else key) ++
    replicate (Z.to_nat (SHA256_BLOCK - zlen (if SHA256_BLOCK <? zlen key then sha256 key else key))) 0) as ->; [|done].
  pose proof (length_sha256 key) as Hl. unfold SHA256_BLOCK, SHA256_SIZE in *.
  destruct (Z.ltb_spec 64 (zlen key)); rewrite splice_zeros by lia; do 2 f_equal; lia.
Qed.
Lemma length_hmac_sha256 key data : zlen (hmac_sha256 key data) = SHA256_SIZE.
Proof. rewrite hmac_sha256_spec. unfold hmac. apply length_sha256. Qed.
#[local] Opaque hmac hmac_sha256.

(** The blocks of RFC 5869: T(0) is empty, T(i) = HMAC(PRK, T(i-1) | info | i). *)
Fixpoint hkdf_T (prk info : list Z) (i : nat) : list Z :=
  match i with O => [] | S j => hmac sha256 SHA256_BLOCK prk (hkdf_T prk info j ++ info ++ [Z.of_nat i]) end.
(** A(i) of RFC 5246, section 5. *)
Fixpoint prf_A (secret ls : list Z) (i : nat) : list Z :=
  match i with O => ls | S i => hmac sha256 SHA256_BLOCK secret (prf_A secret ls i) end.

Lemma hkdf_loop_spec fuel prk info i need out k :
  0 <= need <= Z.of_nat fuel -> need <= 32 * Z.of_nat k -> Z.of_nat i + Z.of_nat k <= 255 -> zlen info <= 256 ->
  hkdf_expand_loop fuel prk info (hkdf_T prk info i) (Z.of_nat i + 1) need out =
  Some (out ++ take (Z.to_nat need) (concat (hkdf_T prk info <$> seq (S i) k))).
Proof.
  revert i need out k. induction fuel as [|fuel IH]; intros i need out k Hn Hk Hi Hinfo; cbn [hkdf_expand_loop].
  { replace need with 0 by lia. cbn. by rewrite app_nil_r. }
  destruct (Z.eqb_spec need 0) as [->|Hne]; [cbn; by rewrite app_nil_r|].
  destruct k as [|k]; [lia|]. rewrite (proj2 (Z.ltb_ge 256 _)) by lia.
  assert ((if 1 <? Z.of_nat i + 1 then hkdf_T prk info i else []) = hkdf_T prk info i) as ->
    by (destruct i; [done|by rewrite (proj2 (Z.ltb_lt _ _)) by lia]).
  assert (hmac_sha256 prk (hkdf_T prk info i ++ info ++ [Z.of_nat i + 1]) = hkdf_T prk info (S i)) as ->
    by (rewrite hmac_sha256_spec; replace (Z.of_nat i + 1) with (Z.of_nat (S i)) by lia; reflexivity).
  cbn [seq fmap list_fmap concat].
  assert (zlen (hkdf_T prk info (S i)) = 32) as Hl by (cbn [hkdf_T]; rewrite <- hmac_sha256_spec; apply length_hmac_sha256).
  rewrite take_block by lia. rewrite Hl, app_assoc.
  assert ((if SHA256_SIZE <? need then SHA256_SIZE else need) = Z.min 32 need) as -> by (unfold SHA256_SIZE; case_bool; lia).
  destruct (decide (need - Z.min 32 need = 0)) as [E|E].
  - rewrite E. cbn [Z.to_nat take]. rewrite app_nil_r. destruct fuel; cbn [hkdf_expand_loop]; done.
  - rewrite u8_id by (unfold is_word; lia). replace (Z.of_nat i + 1 + 1) with (Z.of_nat (S i) + 1) by lia.
    apply IH; lia.
Qed.

Lemma prf_loop_spec fuel secret ls i need out k :
  0 <= need <= Z.of_nat fuel -> need <= 32 * Z.of_nat k ->
  prf_loop fuel secret ls (prf_A secret ls i) need out =
  out ++ take (Z.to_nat need) (concat ((fun j => hmac sha256 SHA256_BLOCK secret (prf_A secret ls j ++ ls)) <$> seq i k)).
Proof.
  revert i need out k. induction fuel as [|fuel IH]; intros i need out k Hn Hk; cbn [prf_loop].
  { replace need with 0 by lia. cbn. by rewrite app_nil_r. }
  destruct (Z.eqb_spec need 0) as [->|Hne]; [cbn; by rewrite app_nil_r|].
  destruct k as [|k]; [lia|]. cbn [seq fmap list_fmap concat]. rewrite !hmac_sha256_spec.
  assert (zlen (hmac sha256 SHA256_BLOCK secret (prf_A secret ls i ++ ls)) = 32) as Hl
    by (rewrite <- hmac_sha256_spec; apply length_hmac_sha256).
  rewrite take_block by lia. rewrite Hl, app_assoc.
  assert ((if need <? SHA256_SIZE then need else SHA256_SIZE) = Z.min 32 need) as -> by (unfold SHA256_SIZE; case_bool; lia).
  change (hmac sha256 SHA256_BLOCK secret (prf_A secret ls i)) with (prf_A secret ls (S i)). apply IH; lia.
Qed.

(** The three checks of lengths of the PRF, with the sum that wraps told from one that does not. *)
Lemma prf_lengths_spec {A} (label_len seed_len : Z) (a : A) : 0 <= label_len -> 0 <= seed_len ->
  (if 2 ^ 32 <=? label_len then None else if 96 <? u32 (label_len + seed_len) then Some None else if 96 <? label_len + seed_len then None else Some (Some a)) =
  if 2 ^ 32 <=? label_len + seed_len then (if (2 ^ 32 <=? label_len) || (u32 (label_len + seed_len) <=? 96) then None else Some None)
  else Some (if 96 <? label_len + seed_len then None else Some a).
Proof.
  intros Hl Hs. destruct (Z.leb_spec (2 ^ 32) (label_len + seed_len)) as [H|H].
  - destruct (2 ^ 32 <=? label_len); [done|]. cbn [orb]. rewrite Z.leb_antisym, (proj2 (Z.ltb_lt 96 (label_len + seed_len))) by lia. by destruct (96 <? u32 _).
  - rewrite (proj2 (Z.leb_gt _ _)) by lia. unfold u32. rewrite Z.mod_small by lia. by destruct (96 <? _).
Qed.

(** C37: SHA-256 of a message fed in any pieces is the compression folded over the
    message padded as FIPS 180-4 says; sha256 is the one piece case, and the digest
    is thirty two bytes. *)
Theorem sha256_streaming parts s :
  zlen (sbuf s) = SHA256_BLOCK ->
  sha256_final (foldl sha256_update (sha256_init s) parts) = digest (concat parts) /\
  sha256 (concat parts) = digest (concat parts) /\ zlen (sha256 (concat parts)) = SHA256_SIZE.
Proof.
  intros Hs. split; [|split; [apply sha256_digest|apply length_sha256]]. apply sha256_final_digest.
  apply (updates_stream SHA256_BLOCK compress eq_refl IV []). by apply sha256_init_stream.
Qed.
Lemma sha256_streaming_witness :
  sha256_final (foldl sha256_update (sha256_init stack_stream) [[97]; []; [98; 99]]) = digest [97; 98; 99] /\
  digest [97; 98; 99] = be_bytes 32 0xba7816bf8f01cfea414140de5dae2223b00361a396177a9cb410ff61f20015ad.
Proof.
  split; [exact (proj1 (sha256_streaming [[97]; []; [98; 99]] stack_stream eq_refl))|vm_compute; reflexivity].
Defined.

(** C38: hmac_sha256 is RFC 2104's HMAC; hkdf_expand gives the first [out_len]
    bytes of RFC 5869's blocks, and fails exactly for a length over 255 blocks or,
    when any output is asked for, an info over 256 bytes; tls12_prf gives the first
    [out_len] bytes of RFC 5246's P_SHA256, and fails exactly when label and seed
    exceed 96 bytes, of a label and seed of less than 2^32 bytes together; when there are
    more it has a result only if the sum, wrapped to 32 bits, is over 96, which is a refusal. *)
Theorem key_derivation_correct key data prk info label seed out_len :
  0 <= out_len ->
  hmac_sha256 key data = hmac sha256 SHA256_BLOCK key data /\
  hkdf_expand prk info out_len =
    (if (255 * 32 <? out_len) || ((0 <? out_len) && (256 <? zlen info)) then None
     else Some (take (Z.to_nat out_len) (concat (hkdf_T prk info <$> seq 1 255)))) /\
  forall k, out_len <= 32 * Z.of_nat k ->
  tls12_prf prk label seed out_len =
    (if 2 ^ 32 <=? zlen label + zlen seed then
       (if (2 ^ 32 <=? zlen label) || (u32 (zlen label + zlen seed) <=? 96) then None else Some None)
     else Some (if 96 <? zlen label + zlen seed then None
     else Some (take (Z.to_nat out_len)
       (concat ((fun i => hmac sha256 SHA256_BLOCK prk (prf_A prk (label ++ seed) i ++ label ++ seed)) <$> seq 1 k))))).
Proof.
  intros Hn. split; [apply hmac_sha256_spec|]. split.
  - unfold hkdf_expand, SHA256_SIZE. destruct (Z.ltb_spec (255 * 32) out_len); cbn [orb]; [done|].
    destruct (Z.ltb_spec 256 (zlen info)) as [Hi|Hi].
    + rewrite andb_true_r. destruct (Z.to_nat out_len) as [|f] eqn:Ef; cbn [hkdf_expand_loop].
      * by replace out_len with 0 by lia.
      * rewrite (proj2 (Z.eqb_neq out_len 0)), (proj2 (Z.ltb_lt 0 out_len)), (proj2 (Z.ltb_lt 256 _)) by lia. done.
    + rewrite andb_false_r. change [] with (hkdf_T prk info 0) at 1.
      rewrite (hkdf_loop_spec _ prk info 0 out_len [] 255) by lia. done.
  - intros k Hk. unfold tls12_prf. rewrite <- prf_lengths_spec by lia. rewrite hmac_sha256_spec. repeat (case_match; [done|]). do 2 f_equal. rewrite (prf_loop_spec _ prk (label ++ seed) 1 out_len [] k) by lia. done.
Qed.
Lemma key_derivation_correct_witness :
  hkdf_expand [1] [2] 33 = Some (take 33 (concat (hkdf_T [1] [2] <$> seq 1 255))) /\
  exists out, tls12_prf [1] [2] [3] 40 = Some (Some out).
Proof.
  destruct (key_derivation_correct [] [] [1] [2] [2] [3] 33 ltac:(discriminate)) as (_ & H1 & _).
  split; [exact H1|].
  rewrite (proj2 (proj2 (key_derivation_correct [] [] [1] [2] [2] [3] 40 ltac:(discriminate))) 2%nat ltac:(discriminate)).
  eexists. reflexivity.
Defined.
