(* ===== verification/Sha512.v ===== *)
(** kernel/sha512.c: SHA-512 and SHA-384. *)
From S2P Require Import Prelude Hash.

Definition K : list Z :=
  [0x428a2f98d728ae22; 0x7137449123ef65cd; 0xb5c0fbcfec4d3b2f; 0xe9b5dba58189dbbc;
   0x3956c25bf348b538; 0x59f111f1b605d019; 0x923f82a4af194f9b; 0xab1c5ed5da6d8118;
   0xd807aa98a3030242; 0x12835b0145706fbe; 0x243185be4ee4b28c; 0x550c7dc3d5ffb4e2;
   0x72be5d74f27b896f; 0x80deb1fe3b1696b1; 0x9bdc06a725c71235; 0xc19bf174cf692694;
   0xe49b69c19ef14ad2; 0xefbe4786384f25e3; 0x0fc19dc68b8cd5b5; 0x240ca1cc77ac9c65;
   0x2de92c6f592b0275; 0x4a7484aa6ea6e483; 0x5cb0a9dcbd41fbd4; 0x76f988da831153b5;
   0x983e5152ee66dfab; 0xa831c66d2db43210; 0xb00327c898fb213f; 0xbf597fc7beef0ee4;
   0xc6e00bf33da88fc2; 0xd5a79147930aa725; 0x06ca6351e003826f; 0x142929670a0e6e70;
   0x27b70a8546d22ffc; 0x2e1b21385c26c926; 0x4d2c6dfc5ac42aed; 0x53380d139d95b3df;
   0x650a73548baf63de; 0x766a0abb3c77b2a8; 0x81c2c92e47edaee6; 0x92722c851482353b;
   0xa2bfe8a14cf10364; 0xa81a664bbc423001; 0xc24b8b70d0f89791; 0xc76c51a30654be30;
   0xd192e819d6ef5218; 0xd69906245565a910; 0xf40e35855771202a; 0x106aa07032bbd1b8;
   0x19a4c116b8d2d0c8; 0x1e376c085141ab53; 0x2748774cdf8eeb99; 0x34b0bcb5e19b48a8;
   0x391c0cb3c5c95a63; 0x4ed8aa4ae3418acb; 0x5b9cca4f7763e373; 0x682e6ff3d6b2b8a3;
   0x748f82ee5defb2fc; 0x78a5636f43172f60; 0x84c87814a1f0ab72; 0x8cc702081a6439ec;
   0x90befffa23631e28; 0xa4506cebde82bde9; 0xbef9a3f7b2c67915; 0xc67178f2e372532b;
   0xca273eceea26619c; 0xd186b8c721c0c207; 0xeada7dd6cde0eb1e; 0xf57d4f7fee6ed178;
   0x06f067aa72176fba; 0x0a637dc5a2c898a6; 0x113f9804bef90dae; 0x1b710b35131c471b;
   0x28db77f523047d84; 0x32caab7b40c72493; 0x3c9ebe0a15c9bebc; 0x431d67c49c100d4c;
   0x4cc5d4becb3e42b6; 0x597f299cfc657e2a; 0x5fcb6fab3ad6faec; 0x6c44198c4a475817].

Definition ror (x n : Z) : Z := (x .>> n) .| u64 (x .<< (64 - n)).

Definition schedule (block : list Z) : list Z :=
  let w := for_range 0 16 (fun i w =>
    w.[i := for_range 0 8 (fun j x => u64 (x .<< 8) .| block.[i * 8 + j]) 0]) (replicate 80 0) in
  for_range 16 80 (fun i w =>
    let s0 := ror w.[i - 15] 1 .^ ror w.[i - 15] 8 .^ (w.[i - 15] .>> 7) in
    let s1 := ror w.[i - 2] 19 .^ ror w.[i - 2] 61 .^ (w.[i - 2] .>> 6) in
    w.[i := u64 (w.[i - 16] + s0 + w.[i - 7] + s1)]) w.

Record regs := Regs { ra : Z; rb : Z; rc : Z; rd : Z; re : Z; rf : Z; rg : Z; rh : Z }.

Definition round (w : list Z) (i : Z) (r : regs) : regs :=
  let '(Regs a b c d e f g hh) := r in
  let S1 := ror e 14 .^ ror e 18 .^ ror e 41 in
  let ch := (e .& f) .^ (u64 (Z.lnot e) .& g) in
  let t1 := u64 (hh + S1 + ch + K.[i] + w.[i]) in
  let S0 := ror a 28 .^ ror a 34 .^ ror a 39 in
  let maj := (a .& b) .^ (a .& c) .^ (b .& c) in
  let t2 := u64 (S0 + maj) in
  Regs (u64 (t1 + t2)) a b c (u64 (d + t1)) e f g.

Definition compress (h : list Z) (block : list Z) : list Z :=
  let w := schedule block in
  let '(Regs a b c d e f g hh) := for_range 0 80 (round w) (Regs h.[0] h.[1] h.[2] h.[3] h.[4] h.[5] h.[6] h.[7]) in
  [u64 (h.[0] + a); u64 (h.[1] + b); u64 (h.[2] + c); u64 (h.[3] + d);
   u64 (h.[4] + e); u64 (h.[5] + f); u64 (h.[6] + g); u64 (h.[7] + hh)].

Definition SHA512_BLOCK : Z := 128.
Definition SHA512_SIZE : Z := 64.
Definition SHA384_SIZE : Z := 48.
Definition IV512 : list Z :=
  [0x6a09e667f3bcc908; 0xbb67ae8584caa73b; 0x3c6ef372fe94f82b; 0xa54ff53a5f1d36f1;
   0x510e527fade682d1; 0x9b05688c2b3e6c1f; 0x1f83d9abfb41bd6b; 0x5be0cd19137e2179].
Definition IV384 : list Z :=
  [0xcbbb9d5dc1059ed8; 0x629a292a367cd507; 0x9159015a3070dd17; 0x152fecd8f70e5939;
   0x67332667ffc00b31; 0x8eb44a8768581511; 0xdb0c2e0d64f98fa7; 0x47b5481dbefa4fa4].

(** A stream and the length of its digest. *)
Definition sha512_t : Type := stream * Z.
Definition sha512_init (s : sha512_t) : sha512_t := (Stream IV512 0 (sbuf s.1) 0, SHA512_SIZE).
Definition sha384_init (s : sha512_t) : sha512_t := (Stream IV384 0 (sbuf s.1) 0, SHA384_SIZE).
Definition sha512_update (s : sha512_t) (data : list Z) : sha512_t :=
  (update SHA512_BLOCK compress s.1 data, s.2).

Definition sha512_final (s : sha512_t) : list Z :=
  let '(s, out_len) := s in
  let bits := nbits s in
  let s := update SHA512_BLOCK compress s [0x80] in
  let s := pad_zeros SHA512_BLOCK compress 128 (SHA512_BLOCK - 16) s in
  let s := push_bytes s (replicate 8 0) in
  let s := push_bytes s ((fun i => u8 (bits .>> (i * 8))) <$> [7; 6; 5; 4; 3; 2; 1; 0]) in
  let h := compress (h s) (sbuf s) in
  (fun i => u8 (h.[i / 8] .>> (56 - i mod 8 * 8))) <$> seqZ 0 out_len.

Definition stack_stream : sha512_t := (Stream [] 0 (replicate 128 0) 0, 0).
Definition sha512 (data : list Z) : list Z := sha512_final (sha512_update (sha512_init stack_stream) data).
Definition sha384 (data : list Z) : list Z := sha512_final (sha512_update (sha384_init stack_stream) data).

(** ** The digests as FIPS 180-4 states them *)

Definition digest (iv : list Z) (n : nat) (m : list Z) : list Z :=
  take n (words_out 8 (fold_blocks SHA512_BLOCK compress iv (padded SHA512_BLOCK 8 m))).

Lemma length_compress h b : length (compress h b) = 8%nat.
Proof. unfold compress. by destruct (for_range _ _ _ _). Qed.

(** The byte loop of the output. *)
Lemma out_bytes l n :
  length l = 8%nat -> 0 <= n <= 64 ->
  (fun i => u8 (l.[i / 8] .>> (56 - i mod 8 * 8))) <$> seqZ 0 n = take (Z.to_nat n) (words_out 8 l).
Proof.
  intros Hl Hn. transitivity (take (Z.to_nat n) ((fun i => u8 (l.[i / 8] .>> (56 - i mod 8 * 8))) <$> seqZ 0 64)).
  - replace (seqZ 0 64) with (seqZ 0 (n + (64 - n))) by (f_equal; lia). rewrite seqZ_app, fmap_app by lia.
    rewrite take_app_length'; [done|]. rewrite length_fmap, length_seqZ. lia.
  - f_equal. do 9 (destruct l as [|? l]; try done).
Qed.

Lemma length_fold iv m : length iv = 8%nat -> length (fold_blocks SHA512_BLOCK compress iv m) = 8%nat.
Proof.
  unfold fold_blocks. generalize (Z.to_nat (zlen m / SHA512_BLOCK)) as n. intros n. revert iv m.
  induction n as [|n IH]; intros iv m H; cbn [absorb]; [done|]. apply IH, length_compress.
Qed.

Lemma push_app s l1 l2 : push_bytes (push_bytes s l1) l2 = push_bytes s (l1 ++ l2).
Proof. unfold push_bytes. by rewrite foldl_app. Qed.

Lemma sha512_final_digest iv m s n :
  length iv = 8%nat -> 0 <= n <= 64 ->
  stream_of SHA512_BLOCK compress iv m s -> sha512_final (s, n) = digest iv (Z.to_nat n) m.
Proof.
  intros Hiv Hn [Hs Hb]. unfold sha512_final, digest. rewrite be_bytes_8, Hb, push_app.
  destruct (update_ok SHA512_BLOCK compress eq_refl iv m s [0x80] Hs) as [A _].
  destruct (pad_zeros_ok SHA512_BLOCK compress eq_refl iv _ _ (SHA512_BLOCK - 16) 128 A) as [C D]; [done| |].
  { pose proof (Z.mod_pos_bound (SHA512_BLOCK - 16 - have (update SHA512_BLOCK compress s [128])) SHA512_BLOCK eq_refl).
    unfold SHA512_BLOCK in *. lia. }
  rewrite (push_full SHA512_BLOCK compress eq_refl iv _ _ _ C) by (rewrite D, length_app, length_be_bytes, length_replicate; done).
  rewrite out_bytes by (done || by apply length_fold). do 3 f_equal.
  unfold padded. rewrite <- !app_assoc, length_app. cbn [length app]. do 5 f_equal. unfold SHA512_BLOCK. f_equal. lia.
Qed.

Lemma update_fold parts s n : foldl sha512_update (s, n) parts = (foldl (update SHA512_BLOCK compress) s parts, n).
Proof. revert s. induction parts as [|p parts IH]; intros s; cbn [foldl]; [done|]. apply IH. Qed.

(** SHA-512 and SHA-384 of a message fed in any pieces are the first 64 and 48
    bytes of the compression folded over the message padded as FIPS 180-4 says, from
    their initial values; sha512 and sha384 are the one piece case. *)
Theorem sha512_streaming parts s :
  zlen (sbuf s.1) = SHA512_BLOCK ->
  sha512_final (foldl sha512_update (sha512_init s) parts) = digest IV512 64 (concat parts) /\
  sha512_final (foldl sha512_update (sha384_init s) parts) = digest IV384 48 (concat parts) /\
  sha512 (concat parts) = digest IV512 64 (concat parts) /\ sha384 (concat parts) = digest IV384 48 (concat parts).
Proof.
  intros Hs.
  assert (forall iv b l, zlen b = SHA512_BLOCK -> stream_of SHA512_BLOCK compress iv (concat l) (foldl (update SHA512_BLOCK compress) (Stream iv 0 b 0) l)) as H.
  { intros iv b l Hb. apply (updates_stream SHA512_BLOCK compress eq_refl iv []). by apply stream_start. }
  unfold sha512_init, sha384_init. rewrite !update_fold.
  split; [by apply sha512_final_digest; [..|apply H]|]. split; [by apply sha512_final_digest; [..|apply H]|].
  unfold sha512, sha384, sha512_init, sha384_init, sha512_update. cbn [fst snd].
  split; (apply sha512_final_digest; [done|done|]); specialize (H);
    (apply (update_stream SHA512_BLOCK compress eq_refl _ []); by apply stream_start).
Qed.
Lemma sha512_streaming_witness :
  sha512_final (foldl sha512_update (sha384_init stack_stream) [[97]; [98; 99]]) = digest IV384 48 [97; 98; 99] /\
  digest IV384 48 [97; 98; 99] = be_bytes 48 0xcb00753f45a35e8bb5a03d699ac65007272c32ab0eded1631a8b605a43ff5bed8086072ba1e7cc2358baeca134c825a7.
Proof.
  split; [exact (proj1 (proj2 (sha512_streaming [[97]; [98; 99]] stack_stream eq_refl)))|vm_compute; reflexivity].
Defined.
