(* ===== verification/Sha1.v ===== *)
(** kernel/crypto.c, first half: SHA-1, HMAC-SHA1 and PBKDF2. *)
From S2P Require Import Prelude Hash.

Definition rol (v n : Z) : Z := u32 (v .<< n) .| (v .>> (32 - n)).

Record regs := Regs { ra : Z; rb : Z; rc : Z; rd : Z; re : Z }.

Definition schedule (p : list Z) : list Z :=
  let w := for_range 0 16 (fun i w =>
    w.[i := u32 (p.[i * 4] .<< 24) .| u32 (p.[i * 4 + 1] .<< 16) .| (p.[i * 4 + 2] .<< 8) .| p.[i * 4 + 3]])
    (replicate 80 0) in
  for_range 16 80 (fun i w => w.[i := rol (w.[i - 3] .^ w.[i - 8] .^ w.[i - 14] .^ w.[i - 16]) 1]) w.

Definition round (w : list Z) (i : Z) (r : regs) : regs :=
  let '(Regs a b c d e) := r in
  let '(f, k) :=
    if i <? 20 then ((b .& c) .| (u32 (Z.lnot b) .& d), 0x5A827999)
    else if i <? 40 then (b .^ c .^ d, 0x6ED9EBA1)
    else if i <? 60 then ((b .& c) .| (b .& d) .| (c .& d), 0x8F1BBCDC)
    else (b .^ c .^ d, 0xCA62C1D6) in
  let t := u32 (rol a 5 + f + e + k + w.[i]) in
  Regs t a (rol b 30) c d.

Definition sha1_block (h : list Z) (p : list Z) : list Z :=
  let w := schedule p in
  let '(Regs a b c d e) := for_range 0 80 (round w) (Regs h.[0] h.[1] h.[2] h.[3] h.[4]) in
  [u32 (h.[0] + a); u32 (h.[1] + b); u32 (h.[2] + c); u32 (h.[3] + d); u32 (h.[4] + e)].

Definition SHA1_SIZE : Z := 20.
Definition IV : list Z := [0x67452301; 0xEFCDAB89; 0x98BADCFE; 0x10325476; 0xC3D2E1F0].

Definition sha1_init (s : stream) : stream := Stream IV 0 (sbuf s) 0.
Definition sha1_update : stream -> list Z -> stream := update 64 sha1_block.
Definition set_bits (b : Z) (s : stream) : stream := Stream (h s) b (sbuf s) (have s).

(** [while (s->have != 56) { update with a zero; s->bits = bits; }] *)
Fixpoint sha1_pad (fuel : nat) (bits : Z) (s : stream) : stream :=
  match fuel with
  | O => s
  | S fuel => if have s =? 56 then s else sha1_pad fuel bits (set_bits bits (sha1_update s [0]))
  end.

Definition sha1_final (s : stream) : list Z :=
  let bits := nbits s in
  let s := set_bits bits (sha1_update s [0x80]) in
  let s := sha1_pad 64 bits s in
  let tail := (fun i => u8 (bits .>> (56 - i * 8))) <$> [0; 1; 2; 3; 4; 5; 6; 7] in
  let s := sha1_update s tail in
  words_out 4 (h s).

Definition stack_stream : stream := Stream [] 0 (replicate 64 0) 0.
Definition sha1 (data : list Z) : list Z := sha1_final (sha1_update (sha1_init stack_stream) data).

Definition hmac_sha1_vector (key : list Z) (parts : list (list Z)) : list Z :=
  let k := replicate 64 0 in
  let k := if 64 <? zlen key then splice k 0 (sha1 key) else splice k 0 key in
  let pad := (fun b => u8 (b .^ 0x36)) <$> k in
  let s := sha1_update (sha1_init stack_stream) pad in
  let inner := sha1_final (foldl sha1_update s parts) in
  let pad := (fun b => u8 (b .^ 0x5c)) <$> k in
  sha1_final (sha1_update (sha1_update (sha1_init stack_stream) pad) inner).

Definition hmac_sha1 (key data : list Z) : list Z := hmac_sha1_vector key [data].

(** [acc[j] ^= u[j]] *)
Definition xor_into (acc u : list Z) : list Z := zip_with Z.lxor acc u.

Definition pbkdf2_rounds (password : list Z) (iterations : Z) (u : list Z) : list Z :=
  (for_range 1 iterations (fun _ '(u, acc) => let u := hmac_sha1 password u in (u, xor_into acc u)) (u, u)).2.

Fixpoint pbkdf2_loop (fuel : nat) (password salt : list Z) (iterations block out_len : Z) (out : list Z) : list Z :=
  match fuel with
  | O => out
  | S fuel =>
      if out_len =? 0 then out else
      let counter := [u8 (block .>> 24); u8 (block .>> 16); u8 (block .>> 8); u8 block] in
      let u := hmac_sha1_vector password [salt; counter] in
      let acc := pbkdf2_rounds password iterations u in
      let n := if out_len <? SHA1_SIZE then out_len else SHA1_SIZE in
      pbkdf2_loop fuel password salt iterations (u32 (block + 1)) (out_len - n) (out ++ take (Z.to_nat n) acc)
  end.
Definition pbkdf2_sha1 (password salt : list Z) (iterations out_len : Z) : list Z :=
  pbkdf2_loop (Z.to_nat out_len) password salt iterations 1 out_len [].

(** ** The digest as FIPS 180-4 states it *)

Definition digest (m : list Z) : list Z := words_out 4 (fold_blocks 64 sha1_block IV (padded 64 0 m)).

Lemma be_bytes_8_up x : (fun i => u8 (x .>> (56 - i * 8))) <$> [0; 1; 2; 3; 4; 5; 6; 7] = be_bytes 8 x.
Proof.
  unfold be_bytes. cbn -[Z.shiftr u8]. rewrite !Z.shiftr_shiftr by lia. done.
Qed.

Lemma holds_set_bits h0 m b s : holds 64 sha1_block h0 m s -> holds 64 sha1_block h0 m (set_bits b s).
Proof. intros [? ? ? ?]; constructor; assumption. Qed.

Lemma length_block h p : length (sha1_block h p) = 5%nat.
Proof. unfold sha1_block. by destruct (for_range _ _ _ _). Qed.
#[local] Opaque sha1_block.

(** The loop pads as the shared one does, whatever the count of bits. *)
Lemma update_bits s b p : update 64 sha1_block (set_bits b s) p = set_bits (u64 (b + zlen p * 8)) (update 64 sha1_block s p).
Proof.
  unfold update. change (nbits (set_bits b s)) with b. cbn [h sbuf have set_bits].
  assert (forall fuel q c s, update_loop 64 sha1_block fuel (set_bits c s) q = set_bits c (update_loop 64 sha1_block fuel s q)) as H.
  { induction fuel as [|fuel IH]; intros q c t; cbn [update_loop]; [done|]. destruct (zlen q =? 0); [done|].
    cbn [set_bits have sbuf h nbits]. rewrite <- IH. by destruct (_ =? 64). }
  rewrite <- H. done.
Qed.
Lemma sha1_pad_eq fuel bits s :
  exists b, sha1_pad fuel bits s = set_bits b (pad_zeros 64 sha1_block fuel 56 s).
Proof.
  assert (forall t, t = set_bits (nbits t) t) as Hid by (by intros []).
  assert (forall fuel c s, exists b, pad_zeros 64 sha1_block fuel 56 (set_bits c s) = set_bits b (pad_zeros 64 sha1_block fuel 56 s)) as Hp.
  { clear -Hid. induction fuel as [|fuel IH]; intros c s; cbn [pad_zeros]; [by eexists|]. cbn [set_bits have].
    destruct (have s =? 56); [by eexists|]. fold (set_bits c s). rewrite update_bits. apply IH. }
  revert s. induction fuel as [|fuel IH]; intros s; cbn [sha1_pad pad_zeros]; [by eexists|].
  destruct (have s =? 56); [by eexists|].
  destruct (IH (set_bits bits (sha1_update s [0]))) as [b ->]. destruct (Hp fuel bits (sha1_update s [0])) as [b' ->].
  by eexists.
Qed.

Lemma sha1_final_digest m s : stream_of 64 sha1_block IV m s -> sha1_final s = digest m.
Proof.
  intros [Hs Hb]. unfold sha1_final, digest. f_equal. rewrite be_bytes_8_up.
  destruct (update_ok 64 sha1_block eq_refl IV m s [0x80] Hs) as [A _].
  destruct (sha1_pad_eq 64 (nbits s) (set_bits (nbits s) (sha1_update s [0x80]))) as [b ->].
  apply (holds_set_bits _ _ (nbits s)) in A.
  destruct (pad_zeros_ok 64 sha1_block eq_refl IV _ _ 56 64 A) as [C D]; [done| |].
  { apply Z.lt_le_incl, Z.mod_pos_bound. done. }
  apply (holds_set_bits _ _ b) in C.
  destruct (update_ok 64 sha1_block eq_refl IV _ _ (be_bytes 8 (nbits s)) C) as [[_ _ E _] _].
  unfold sha1_update in *. rewrite E. f_equal. rewrite Hb. unfold padded. rewrite <- !app_assoc, length_app.
  cbn [length app]. do 5 f_equal. f_equal. lia.
Qed.

Lemma sha1_init_stream s : zlen (sbuf s) = 64 -> stream_of 64 sha1_block IV [] (sha1_init s).
Proof. apply (stream_start 64 sha1_block). Qed.
Lemma parts_digest s parts :
  zlen (sbuf s) = 64 -> sha1_final (foldl sha1_update (sha1_init s) parts) = digest (concat parts).
Proof.
  intros Hs. apply sha1_final_digest. apply (updates_stream 64 sha1_block eq_refl IV []). by apply sha1_init_stream.
Qed.
Lemma sha1_digest m : sha1 m = digest m.
Proof. pose proof (parts_digest stack_stream [m] eq_refl) as H. cbn [concat] in H. by rewrite app_nil_r in H. Qed.
Lemma length_sha1 m : zlen (sha1 m) = SHA1_SIZE.
Proof.
  rewrite sha1_digest. unfold digest. rewrite length_words_out. generalize (padded 64 0 m) as p. intros p.
  unfold fold_blocks. generalize (Z.to_nat (zlen p / 64)) as n.
  assert (length IV = 5%nat) as H by done. revert H. generalize IV as h0. intros h0 H n. revert h0 p H.
  induction n as [|n IH]; intros h0 p H; cbn [absorb]; [by rewrite H|]. apply IH, length_block.
Qed.

#[local] Opaque sha1.

Lemma hmac_sha1_vector_spec key parts : hmac_sha1_vector key parts = hmac sha1 64 key (concat parts).
Proof.
  unfold hmac_sha1_vector, hmac, hmac_key, xor_pad. cbn zeta.
  assert (forall a l, sha1_final (foldl sha1_update (sha1_update (sha1_init stack_stream) a) l) = sha1 (a ++ concat l)) as H.
  { intros a l. rewrite sha1_digest. apply (parts_digest stack_stream (a :: l)). done. }
  rewrite H. pose proof (fun a b => H a [b]) as H1. cbn [foldl concat] in H1. rewrite H1, app_nil_r.
  assert ((if 64 <? zlen key then splice (replicate 64 0) 0 (sha1 key) else splice (replicate 64 0) 0 key) =
    (if 64 <? zlen key then sha1 key else key) ++
    replicate (Z.to_nat (64 - zlen (if 64 <? zlen key then sha1 key else key))) 0) as ->; [|done].
  pose proof (length_sha1 key) as Hl. unfold SHA1_SIZE in *.
  destruct (Z.ltb_spec 64 (zlen key)); rewrite splice_zeros by lia; do 2 f_equal; lia.
Qed.
Lemma length_hmac_sha1 key parts : zlen (hmac_sha1_vector key parts) = SHA1_SIZE.
Proof. rewrite hmac_sha1_vector_spec. unfold hmac. apply length_sha1. Qed.

#[local] Opaque hmac hmac_sha1_vector.

(** U_1, U_2, ... of RFC 8018, section 5.2, and the block F folds them into. *)
Fixpoint U (password salt : list Z) (i : Z) (c : nat) : list Z :=
  match c with
  | O => hmac sha1 64 password (salt ++ be_bytes 4 i)
  | S c => hmac sha1 64 password (U password salt i c)
  end.
Definition F (password salt : list Z) (count i : Z) : list Z :=
  foldl (fun acc c => xor_into acc (U password salt i c)) (U password salt i 0) (seq 1 (Z.to_nat (count - 1))).

Lemma rounds_spec password salt count i :
  pbkdf2_rounds password count (U password salt i 0) = F password salt count i.
Proof.
  unfold pbkdf2_rounds, F. destruct (decide (count <= 1)).
  { rewrite for_range_nil by lia. replace (Z.to_nat (count - 1)) with 0%nat by lia. done. }
  pose proof (for_range_inv (fun k (s : list Z * list Z) => s.1 = U password salt i (Z.to_nat (k - 1)) /\
    s.2 = foldl (fun acc c => xor_into acc (U password salt i c)) (U password salt i 0) (seq 1 (Z.to_nat (k - 1))))
    1 count (fun _ '(u, acc) => let u := hmac_sha1 password u in (u, xor_into acc u))
    (U password salt i 0, U password salt i 0)) as H.
  apply H; [lia|done|]. intros k [u acc] Hk. cbn [fst snd]. intros [-> ->].
  replace (Z.to_nat (k + 1 - 1)) with (S (Z.to_nat (k - 1))) by lia.
  unfold hmac_sha1. rewrite hmac_sha1_vector_spec. cbn [concat]. rewrite app_nil_r. split; [done|].
  rewrite seq_S, foldl_app. cbn [foldl]. done.
Qed.

Lemma length_F password salt count i : zlen (F password salt count i) = 20.
Proof.
  assert (forall c, zlen (U password salt i c) = 20) as HU.
  { intros c. pose proof (fun t => length_hmac_sha1 password [t]) as H. destruct c; cbn [U];
      (rewrite <- (app_nil_r (_ ++ _)) || idtac); match goal with |- zlen (hmac _ _ _ ?t) = _ =>
        specialize (H t); rewrite hmac_sha1_vector_spec in H; cbn [concat] in H; by rewrite ?app_nil_r in * end. }
  unfold F. assert (forall l a, zlen a = 20 -> zlen (foldl (fun acc c => xor_into acc (U password salt i c)) a l) = 20) as Hf.
  { induction l as [|c l IH]; intros a Ha; cbn [foldl]; [done|]. apply IH. unfold xor_into. rewrite length_zip_with.
    specialize (HU c). lia. }
  apply Hf, HU.
Qed.

Lemma pbkdf2_loop_spec fuel password salt count i need out k :
  0 <= need <= Z.of_nat fuel -> need <= 20 * Z.of_nat k -> Z.of_nat i + Z.of_nat k < 2 ^ 32 ->
  pbkdf2_loop fuel password salt count (Z.of_nat i) need out =
  out ++ take (Z.to_nat need) (concat ((fun j => F password salt count (Z.of_nat j)) <$> seq i k)).
Proof.
  revert i need out k. induction fuel as [|fuel IH]; intros i need out k Hn Hk Hi; cbn [pbkdf2_loop].
  { replace need with 0 by lia. cbn. by rewrite app_nil_r. }
  destruct (Z.eqb_spec need 0) as [->|Hne]; [cbn; by rewrite app_nil_r|].
  destruct k as [|k]; [lia|]. cbn [seq fmap list_fmap concat].
  assert (hmac_sha1_vector password [salt; [u8 (Z.of_nat i .>> 24); u8 (Z.of_nat i .>> 16); u8 (Z.of_nat i .>> 8); u8 (Z.of_nat i)]]
    = U password salt (Z.of_nat i) 0) as ->.
  { rewrite hmac_sha1_vector_spec. cbn [concat U]. rewrite app_nil_r. reflexivity. }
  rewrite rounds_spec, take_block by lia. rewrite length_F, app_assoc.
  assert ((if need <? SHA1_SIZE then need else SHA1_SIZE) = Z.min 20 need) as -> by (unfold SHA1_SIZE; case_bool; lia).
  rewrite u32_id by (unfold is_word; lia). replace (Z.of_nat i + 1) with (Z.of_nat (S i)) by lia. apply IH; lia.
Qed.

(** SHA-1 of a message fed in any pieces is the compression folded over the
    message padded as FIPS 180-4 says; hmac_sha1_vector is RFC 2104's HMAC of its
    parts joined; pbkdf2_sha1 gives the first [out_len] bytes of RFC 8018's blocks. *)
Theorem sha1_family_correct parts s key password salt count out_len k :
  zlen (sbuf s) = 64 -> 0 <= out_len < 2 ^ 32 -> out_len <= 20 * Z.of_nat k -> Z.of_nat k < 2 ^ 32 - 1 ->
  sha1_final (foldl sha1_update (sha1_init s) parts) = digest (concat parts) /\
  sha1 (concat parts) = digest (concat parts) /\
  hmac_sha1_vector key parts = hmac sha1 64 key (concat parts) /\
  pbkdf2_sha1 password salt count out_len =
    take (Z.to_nat out_len) (concat ((fun i => F password salt count (Z.of_nat i)) <$> seq 1 k)).
Proof.
  intros Hs Hn Hk Hk2. split; [by apply parts_digest|]. split; [apply sha1_digest|].
  split; [apply hmac_sha1_vector_spec|]. unfold pbkdf2_sha1.
  apply (pbkdf2_loop_spec _ password salt count 1 out_len []); lia.
Qed.
Lemma sha1_family_correct_witness :
  digest [97; 98; 99] = be_bytes 20 0xa9993e364706816aba3e25717850c26c9cd0d89d /\
  sha1_final (foldl sha1_update (sha1_init stack_stream) [[97]; [98; 99]]) = digest [97; 98; 99] /\
  pbkdf2_sha1 [112] [115] 2 25 = take 25 (concat ((fun i => F [112] [115] 2 (Z.of_nat i)) <$> seq 1 2)).
Proof.
  split; [vm_compute; reflexivity|].
  assert (zlen (sbuf stack_stream) = 64) as P1 by reflexivity.
  assert (0 <= 25 < 2 ^ 32) as P2 by (split; [discriminate|reflexivity]).
  assert (25 <= 20 * Z.of_nat 2) as P3 by discriminate.
  assert (Z.of_nat 2 < 2 ^ 32 - 1) as P4 by reflexivity.
  pose proof (sha1_family_correct [[97]; [98; 99]] stack_stream [] [112] [115] 2 25 2 P1 P2 P3 P4) as H.
  split; [exact (proj1 H)|exact (proj2 (proj2 (proj2 H)))].
Defined.
