(* ===== verification/Aes.v ===== *)
(** kernel/crypto.c, second half: AES with 128 and 256 bit keys, block by block, and
    the key wrap of RFC 3394.

    A block is the list of its sixteen bytes. [inv_ready] only saves building the
    inverse table twice, so the table is a constant here. *)
From Stdlib Require Import Btauto.
From S2P Require Import Prelude.

Definition SBOX : list Z :=
  [0x63; 0x7c; 0x77; 0x7b; 0xf2; 0x6b; 0x6f; 0xc5; 0x30; 0x01; 0x67; 0x2b; 0xfe; 0xd7; 0xab; 0x76;
   0xca; 0x82; 0xc9; 0x7d; 0xfa; 0x59; 0x47; 0xf0; 0xad; 0xd4; 0xa2; 0xaf; 0x9c; 0xa4; 0x72; 0xc0;
   0xb7; 0xfd; 0x93; 0x26; 0x36; 0x3f; 0xf7; 0xcc; 0x34; 0xa5; 0xe5; 0xf1; 0x71; 0xd8; 0x31; 0x15;
   0x04; 0xc7; 0x23; 0xc3; 0x18; 0x96; 0x05; 0x9a; 0x07; 0x12; 0x80; 0xe2; 0xeb; 0x27; 0xb2; 0x75;
   0x09; 0x83; 0x2c; 0x1a; 0x1b; 0x6e; 0x5a; 0xa0; 0x52; 0x3b; 0xd6; 0xb3; 0x29; 0xe3; 0x2f; 0x84;
   0x53; 0xd1; 0x00; 0xed; 0x20; 0xfc; 0xb1; 0x5b; 0x6a; 0xcb; 0xbe; 0x39; 0x4a; 0x4c; 0x58; 0xcf;
   0xd0; 0xef; 0xaa; 0xfb; 0x43; 0x4d; 0x33; 0x85; 0x45; 0xf9; 0x02; 0x7f; 0x50; 0x3c; 0x9f; 0xa8;
   0x51; 0xa3; 0x40; 0x8f; 0x92; 0x9d; 0x38; 0xf5; 0xbc; 0xb6; 0xda; 0x21; 0x10; 0xff; 0xf3; 0xd2;
   0xcd; 0x0c; 0x13; 0xec; 0x5f; 0x97; 0x44; 0x17; 0xc4; 0xa7; 0x7e; 0x3d; 0x64; 0x5d; 0x19; 0x73;
   0x60; 0x81; 0x4f; 0xdc; 0x22; 0x2a; 0x90; 0x88; 0x46; 0xee; 0xb8; 0x14; 0xde; 0x5e; 0x0b; 0xdb;
   0xe0; 0x32; 0x3a; 0x0a; 0x49; 0x06; 0x24; 0x5c; 0xc2; 0xd3; 0xac; 0x62; 0x91; 0x95; 0xe4; 0x79;
   0xe7; 0xc8; 0x37; 0x6d; 0x8d; 0xd5; 0x4e; 0xa9; 0x6c; 0x56; 0xf4; 0xea; 0x65; 0x7a; 0xae; 0x08;
   0xba; 0x78; 0x25; 0x2e; 0x1c; 0xa6; 0xb4; 0xc6; 0xe8; 0xdd; 0x74; 0x1f; 0x4b; 0xbd; 0x8b; 0x8a;
   0x70; 0x3e; 0xb5; 0x66; 0x48; 0x03; 0xf6; 0x0e; 0x61; 0x35; 0x57; 0xb9; 0x86; 0xc1; 0x1d; 0x9e;
   0xe1; 0xf8; 0x98; 0x11; 0x69; 0xd9; 0x8e; 0x94; 0x9b; 0x1e; 0x87; 0xe9; 0xce; 0x55; 0x28; 0xdf;
   0x8c; 0xa1; 0x89; 0x0d; 0xbf; 0xe6; 0x42; 0x68; 0x41; 0x99; 0x2d; 0x0f; 0xb0; 0x54; 0xbb; 0x16].

Definition build_inverse : list Z :=
  for_range 0 256 (fun i t => t.[SBOX.[i] := u8 i]) (replicate 256 0).
Definition INV_SBOX : list Z := Eval vm_compute in build_inverse.

Definition xtime (v : Z) : Z := u8 ((v .<< 1) .^ (if v .& 0x80 =? 0 then 0x00 else 0x1B)).

(** [while (b)]: a byte is gone after eight shifts. *)
Fixpoint mul_loop (fuel : nat) (a b r : Z) : Z :=
  match fuel with
  | O => r
  | S fuel =>
      if b =? 0 then r else
      mul_loop fuel (xtime a) (b .>> 1) (if b .& 1 =? 0 then r else r .^ a)
  end.
Definition mul (a b : Z) : Z := mul_loop 8 a b 0.

Record aes := Aes { round_key : list Z; rounds : Z }.

(** [SBOX] over a word of the schedule. *)
Definition sub_word (t : list Z) : list Z := (fun b => SBOX.[b]) <$> t.

Definition schedule_step (nk i : Z) (s : list Z * Z) : list Z * Z :=
  let '(rk, rcon) := s in
  let t := take 4 (drop (Z.to_nat ((i - 1) * 4)) rk) in
  let '(t, rcon) :=
    if i mod nk =? 0 then ([SBOX.[t.[1]] .^ rcon; SBOX.[t.[2]]; SBOX.[t.[3]]; SBOX.[t.[0]]], xtime rcon)
    else if (6 <? nk) && (i mod nk =? 4) then (sub_word t, rcon)
    else (t, rcon) in
  (for_range 0 4 (fun j rk => rk.[i * 4 + j := rk.[(i - nk) * 4 + j] .^ t.[j]]) rk, rcon).

Definition aes_set_key (a : aes) (key : list Z) (bits : Z) : aes * bool :=
  let '(nk, r) := if bits =? 128 then (4, 10) else if bits =? 256 then (8, 14) else (0, 0) in
  if r =? 0 then (Aes (round_key a) 0, false) else
  let total := 4 * (r + 1) in
  let rk := splice (round_key a) 0 (take (Z.to_nat (nk * 4)) key) in
  (Aes (for_range nk total (schedule_step nk) (rk, 1)).1 r, true).

Definition add_round_key (s rk : list Z) : list Z := zip_with Z.lxor s rk.
(** The sixteen bytes of the schedule a round uses. *)
Definition key_of (a : aes) (r : Z) : list Z := take 16 (drop (Z.to_nat (r * 16)) (round_key a)).
Definition sub_bytes (s : list Z) : list Z := (fun b => SBOX.[b]) <$> s.
Definition inv_sub_bytes (s : list Z) : list Z := (fun b => INV_SBOX.[b]) <$> s.

Definition shift_rows (s : list Z) : list Z :=
  let t := s in
  for_range 1 4 (fun r s => for_range 0 4 (fun c s => s.[c * 4 + r := t.[(c + r) mod 4 * 4 + r]]) s) s.
Definition inv_shift_rows (s : list Z) : list Z :=
  let t := s in
  for_range 1 4 (fun r s => for_range 0 4 (fun c s => s.[(c + r) mod 4 * 4 + r := t.[c * 4 + r]]) s) s.

Definition mix_columns (s : list Z) : list Z :=
  for_range 0 4 (fun c s =>
    let a0 := s.[c * 4] in let a1 := s.[c * 4 + 1] in let a2 := s.[c * 4 + 2] in let a3 := s.[c * 4 + 3] in
    let s := s.[c * 4 := mul a0 2 .^ mul a1 3 .^ a2 .^ a3] in
    let s := s.[c * 4 + 1 := a0 .^ mul a1 2 .^ mul a2 3 .^ a3] in
    let s := s.[c * 4 + 2 := a0 .^ a1 .^ mul a2 2 .^ mul a3 3] in
    s.[c * 4 + 3 := mul a0 3 .^ a1 .^ a2 .^ mul a3 2]) s.
Definition inv_mix_columns (s : list Z) : list Z :=
  for_range 0 4 (fun c s =>
    let a0 := s.[c * 4] in let a1 := s.[c * 4 + 1] in let a2 := s.[c * 4 + 2] in let a3 := s.[c * 4 + 3] in
    let s := s.[c * 4 := mul a0 14 .^ mul a1 11 .^ mul a2 13 .^ mul a3 9] in
    let s := s.[c * 4 + 1 := mul a0 9 .^ mul a1 14 .^ mul a2 11 .^ mul a3 13] in
    let s := s.[c * 4 + 2 := mul a0 13 .^ mul a1 9 .^ mul a2 14 .^ mul a3 11] in
    s.[c * 4 + 3 := mul a0 11 .^ mul a1 13 .^ mul a2 9 .^ mul a3 14]) s.

Definition enc_round (a : aes) (r : Z) (s : list Z) : list Z :=
  add_round_key (mix_columns (shift_rows (sub_bytes s))) (key_of a r).
Definition aes_encrypt_block (a : aes) (in_ : list Z) : list Z :=
  let s := add_round_key in_ (key_of a 0) in
  let s := for_range 1 (rounds a) (enc_round a) s in
  add_round_key (shift_rows (sub_bytes s)) (key_of a (rounds a)).

Definition dec_round (a : aes) (r : Z) (s : list Z) : list Z :=
  inv_mix_columns (add_round_key (inv_sub_bytes (inv_shift_rows s)) (key_of a r)).
Definition aes_decrypt_block (a : aes) (in_ : list Z) : list Z :=
  let s := add_round_key in_ (key_of a (rounds a)) in
  let s := for_down 1 (rounds a) (dec_round a) s in
  add_round_key (inv_sub_bytes (inv_shift_rows s)) (key_of a 0).

(** ** Wrapping a key *)

(** [acc[7] ^= (u8)t; acc[6] ^= (u8)(t >> 8); ...] *)
Definition fold_count (acc : list Z) (t : Z) : list Z :=
  let acc := acc.[7 := acc.[7] .^ u8 t] in
  let acc := acc.[6 := acc.[6] .^ u8 (t .>> 8)] in
  let acc := acc.[5 := acc.[5] .^ u8 (t .>> 16)] in
  acc.[4 := acc.[4] .^ u8 (t .>> 24)].

Definition wrap_step (a : aes) (n round i : Z) (s : list Z * list Z) : list Z * list Z :=
  let '(acc, out) := s in
  let block := aes_encrypt_block a (acc ++ take 8 (drop (Z.to_nat (i * 8)) out)) in
  let t := u32 (n * round + i) in
  (fold_count (take 8 block) t, splice out (Z.to_nat (i * 8)) (drop 8 block)).

(** An [aes_t] on the stack. *)
Definition stack_aes : aes := Aes (replicate 240 0) 0.

(** The result and the bytes written to [out], the first eight last. *)
Definition aes_wrap_key (kek : list Z) (kek_bits : Z) (in_ : list Z) : bool * list Z :=
  let in_len := zlen in_ in
  if (in_len <? 16) || negb (in_len mod 8 =? 0) then (false, []) else
  let '(a, ok) := aes_set_key stack_aes kek kek_bits in
  if negb ok then (false, []) else
  let n := in_len / 8 in
  let acc := replicate 8 0xA6 in
  let out := replicate 8 0 ++ in_ in
  let '(acc, out) := for_range 0 6 (fun round s => for_range 1 (n + 1) (wrap_step a n round) s) (acc, out) in
  (true, splice out 0 acc).

Definition unwrap_step (a : aes) (n round i : Z) (s : list Z * list Z) : list Z * list Z :=
  let '(acc, out) := s in
  let t := u32 (n * round + i) in
  let block := fold_count acc t ++ take 8 (drop (Z.to_nat ((i - 1) * 8)) out) in
  let block := aes_decrypt_block a block in
  (take 8 block, splice out (Z.to_nat ((i - 1) * 8)) (drop 8 block)).

Definition aes_unwrap_key (kek : list Z) (kek_bits : Z) (in_ : list Z) : bool * list Z :=
  let in_len := zlen in_ in
  if (in_len <? 16) || negb (in_len mod 8 =? 0) then (false, []) else
  let '(a, ok) := aes_set_key stack_aes kek kek_bits in
  if negb ok then (false, []) else
  let n := in_len / 8 - 1 in
  let acc := take 8 in_ in
  let out := take (Z.to_nat (n * 8)) (drop 8 in_) in
  let '(acc, out) := for_down 0 6 (fun round s => for_down 1 (n + 1) (unwrap_step a n round) s) (acc, out) in
  (forallb (fun b => b =? 0xA6) (take 8 acc), out).

Definition key128 : list Z := seqZ 0 16.
Definition plain : list Z := (fun i => i * 17) <$> seqZ 0 16.
Example fips197_128 : aes_encrypt_block (aes_set_key stack_aes key128 128).1 plain = be_bytes 16 0x69c4e0d86a7b0430d8cdb78070b4c55a.
Proof. vm_compute. reflexivity. Qed.
Example fips197_256 : aes_encrypt_block (aes_set_key stack_aes (seqZ 0 32) 256).1 plain = be_bytes 16 0x8ea2b7ca516745bfeafc49904b496089.
Proof. vm_compute. reflexivity. Qed.
Example rfc3394 : aes_wrap_key key128 128 plain = (true, be_bytes 24 0x1FA68B0A8112B447AEF34BD8FB5A7B829D3E862371D2CFE5).
Proof. vm_compute. reflexivity. Qed.

(** ** The field, and the tables *)

(** Carry-less multiplication and reduction by x^8 + x^4 + x^3 + x + 1, with no early
    end: what [mul] computes. *)
Definition clmul (a b : Z) : Z := for_range 0 8 (fun i r => if Z.testbit b i then r .^ (a .<< i) else r) 0.
Definition reduce (p : Z) : Z := for_down 8 15 (fun i r => if Z.testbit r i then r .^ (0x11B .<< (i - 8)) else r) p.
Definition gf_mul (a b : Z) : Z := reduce (clmul a b).
(** The affine map of FIPS-197, 5.1.1. *)
Definition rotl8 (x k : Z) : Z := u8 (x .<< k) .| (x .>> (8 - k)).
Definition affine (x : Z) : Z := x .^ rotl8 x 1 .^ rotl8 x 2 .^ rotl8 x 3 .^ rotl8 x 4 .^ 0x63.

Lemma mul_gf a b : is_u8 a -> is_u8 b -> mul a b = gf_mul a b /\ is_u8 (mul a b).
Proof.
  intros Ha Hb. apply (all_bytes2 (fun a b => (mul a b =? gf_mul a b) && (0 <=? mul a b) && (mul a b <? 256))) with (b := b) in Ha;
    [|vm_compute; reflexivity|done].
  rewrite !andb_true_iff, Z.eqb_eq, Z.leb_le, Z.ltb_lt in Ha. unfold is_word. tauto.
Qed.

(** The multiplications of the columns are sums of doublings, hence linear. *)
Definition xt (a : Z) : Z := u8 (a .<< 1) .^ (if Z.testbit a 7 then 0x1b else 0).
Lemma xt_lxor a b : xt (a .^ b) = xt a .^ xt b.
Proof.
  unfold xt. rewrite Z.shiftl_lxor, u8_lxor, Z.lxor_spec. bits.
  rewrite !Z.lxor_spec. destruct (Z.testbit a 7), (Z.testbit b 7); cbn [xorb]; rewrite ?Z.testbit_0_l; btauto.
Qed.
Lemma mul_xt a : is_u8 a ->
  mul a 2 = xt a /\ mul a 3 = xt a .^ a /\ mul a 9 = xt (xt (xt a)) .^ a /\ mul a 11 = xt (xt (xt a)) .^ xt a .^ a /\
  mul a 13 = xt (xt (xt a)) .^ xt (xt a) .^ a /\ mul a 14 = xt (xt (xt a)) .^ xt (xt a) .^ xt a.
Proof.
  intros Ha.
  apply (all_bytes (fun a => (mul a 2 =? xt a) && (mul a 3 =? xt a .^ a) && (mul a 9 =? xt (xt (xt a)) .^ a) &&
    (mul a 11 =? xt (xt (xt a)) .^ xt a .^ a) && (mul a 13 =? xt (xt (xt a)) .^ xt (xt a) .^ a) &&
    (mul a 14 =? xt (xt (xt a)) .^ xt (xt a) .^ xt a))) in Ha; [|vm_compute; reflexivity].
  rewrite !andb_true_iff, !Z.eqb_eq in Ha. tauto.
Qed.
Lemma mul_lxor a b c : is_u8 a -> is_u8 b -> c ∈ [2; 3; 9; 11; 13; 14] -> mul (a .^ b) c = mul a c .^ mul b c.
Proof.
  intros Ha Hb Hc. assert (is_u8 (a .^ b)) as Hab by auto with words.
  destruct (mul_xt a Ha) as (A2&A3&A9&A11&A13&A14), (mul_xt b Hb) as (B2&B3&B9&B11&B13&B14),
    (mul_xt _ Hab) as (C2&C3&C9&C11&C13&C14). rewrite !elem_of_cons in Hc.
  destruct Hc as [->|[->|[->|[->|[->|[->|Hc]]]]]]; [..|by apply not_elem_of_nil in Hc];
    rewrite ?A2, ?A3, ?A9, ?A11, ?A13, ?A14, ?B2, ?B3, ?B9, ?B11, ?B13, ?B14, ?C2, ?C3, ?C9, ?C11, ?C13, ?C14, !xt_lxor;
    bits; rewrite !Z.lxor_spec; btauto.
Qed.

Lemma sbox_tables b : is_u8 b ->
  is_u8 SBOX.[b] /\ is_u8 INV_SBOX.[b] /\ INV_SBOX.[SBOX.[b]] = b /\ SBOX.[INV_SBOX.[b]] = b /\
  exists i, is_u8 i /\ SBOX.[b] = affine i /\ (if b =? 0 then i = 0 else mul b i = 1).
Proof.
  intros Hb.
  apply (all_bytes (fun b => (0 <=? SBOX.[b]) && (SBOX.[b] <? 256) && (0 <=? INV_SBOX.[b]) && (INV_SBOX.[b] <? 256) &&
    (INV_SBOX.[SBOX.[b]] =? b) && (SBOX.[INV_SBOX.[b]] =? b) &&
    existsb (fun i => (SBOX.[b] =? affine i) && (if b =? 0 then i =? 0 else mul b i =? 1)) (seqZ 0 256))) in Hb;
    [|vm_compute; reflexivity].
  rewrite !andb_true_iff, !Z.leb_le, !Z.ltb_lt, !Z.eqb_eq, existsb_exists in Hb.
  destruct Hb as [[[[[[? ?] ?] ?] ?] ?] (i & Hi & He)]. unfold is_word. repeat (split; [done|]).
  apply list_elem_of_In, elem_of_seqZ in Hi. exists i. split; [lia|].
  apply andb_true_iff in He as [He1 He2]. rewrite Z.eqb_eq in He1. split; [done|].
  by destruct (b =? 0); apply Z.eqb_eq in He2.
Qed.

(** A block: sixteen bytes. *)
Definition block (s : list Z) : Prop := length s = 16%nat /\ bytes s.

Lemma block_cases s : block s -> exists a0 a1 a2 a3 b0 b1 b2 b3 c0 c1 c2 c3 d0 d1 d2 d3,
  s = [a0; a1; a2; a3; b0; b1; b2; b3; c0; c1; c2; c3; d0; d1; d2; d3] /\
  bytes [a0; a1; a2; a3] /\ bytes [b0; b1; b2; b3] /\ bytes [c0; c1; c2; c3] /\ bytes [d0; d1; d2; d3].
Proof.
  intros [Hl Hb]. do 17 (destruct s as [|? s]; try done). do 16 eexists. split; [done|].
  rewrite !Forall_cons_iff in *. intuition.
Qed.

Lemma inv_shift_shift s : block s -> inv_shift_rows (shift_rows s) = s /\ block (shift_rows s).
Proof.
  intros (a0 & a1 & a2 & a3 & b0 & b1 & b2 & b3 & c0 & c1 & c2 & c3 & d0 & d1 & d2 & d3 & -> & Ha & Hb & Hc & Hd)%block_cases.
  split; [reflexivity|]. split; [done|]. rewrite !Forall_cons_iff in *.
  match goal with |- Forall _ ?l => let l' := eval vm_compute in l in change l with l' end.
  rewrite !Forall_cons_iff. intuition.
Qed.

Lemma inv_sub_sub s : block s -> inv_sub_bytes (sub_bytes s) = s /\ block (sub_bytes s).
Proof.
  intros [Hl Hb]. unfold inv_sub_bytes, sub_bytes, block. rewrite length_fmap. split; [|split; [done|]].
  - clear Hl. induction Hb as [|x s Hx _ IH]; cbn [fmap list_fmap]; [done|]. rewrite IH. f_equal. apply (sbox_tables x Hx).
  - apply Forall_fmap. revert Hb. apply Forall_impl. intros x Hx. apply (sbox_tables x Hx).
Qed.

Lemma add_key_involutive s rk : block s -> block rk -> add_round_key (add_round_key s rk) rk = s /\ block (add_round_key s rk).
Proof.
  intros [Hl Hb] [Hl' Hb']. unfold add_round_key, block. split; [|split; [rewrite length_zip_with; lia|]].
  - assert (length s = length rk) as He by lia. clear -He. revert rk He.
    induction s as [|x s IH]; intros [|y rk] He; cbn in *; try done. rewrite IH by lia. by rewrite lxor_involutive.
  - clear Hl Hl'. revert rk Hb'. induction Hb as [|x s Hx _ IH]; intros rk Hb'; [done|].
    destruct Hb' as [|y rk Hy Hb']; cbn [zip_with]; [done|]. constructor; [by apply is_word_lxor|by apply IH].
Qed.

(** ** Columns *)

Definition mix4 (a0 a1 a2 a3 : Z) : list Z :=
  [mul a0 2 .^ mul a1 3 .^ a2 .^ a3; a0 .^ mul a1 2 .^ mul a2 3 .^ a3;
   a0 .^ a1 .^ mul a2 2 .^ mul a3 3; mul a0 3 .^ a1 .^ a2 .^ mul a3 2].
Definition inv_mix4 (a0 a1 a2 a3 : Z) : list Z :=
  [mul a0 14 .^ mul a1 11 .^ mul a2 13 .^ mul a3 9; mul a0 9 .^ mul a1 14 .^ mul a2 11 .^ mul a3 13;
   mul a0 13 .^ mul a1 9 .^ mul a2 14 .^ mul a3 11; mul a0 11 .^ mul a1 13 .^ mul a2 9 .^ mul a3 14].

#[local] Opaque mul.
Lemma mix_columns_eq a0 a1 a2 a3 b0 b1 b2 b3 c0 c1 c2 c3 d0 d1 d2 d3 :
  mix_columns [a0; a1; a2; a3; b0; b1; b2; b3; c0; c1; c2; c3; d0; d1; d2; d3] =
  mix4 a0 a1 a2 a3 ++ mix4 b0 b1 b2 b3 ++ mix4 c0 c1 c2 c3 ++ mix4 d0 d1 d2 d3.
Proof. reflexivity. Qed.
Lemma inv_mix_columns_eq a0 a1 a2 a3 b0 b1 b2 b3 c0 c1 c2 c3 d0 d1 d2 d3 :
  inv_mix_columns [a0; a1; a2; a3; b0; b1; b2; b3; c0; c1; c2; c3; d0; d1; d2; d3] =
  inv_mix4 a0 a1 a2 a3 ++ inv_mix4 b0 b1 b2 b3 ++ inv_mix4 c0 c1 c2 c3 ++ inv_mix4 d0 d1 d2 d3.
Proof. reflexivity. Qed.

(** One byte through both matrices: what each entry of their product does to it. *)
Lemma mix_product a : is_u8 a ->
  mul (mul a 2) 14 .^ mul a 11 .^ mul a 13 .^ mul (mul a 3) 9 = a /\
  mul (mul a 2) 9 .^ mul a 14 .^ mul a 11 .^ mul (mul a 3) 13 = 0 /\
  mul (mul a 2) 13 .^ mul a 9 .^ mul a 14 .^ mul (mul a 3) 11 = 0 /\
  mul (mul a 2) 11 .^ mul a 13 .^ mul a 9 .^ mul (mul a 3) 14 = 0 /\ mul a 1 = a.
Proof.
  intros Ha.
  apply (all_bytes (fun a => (mul (mul a 2) 14 .^ mul a 11 .^ mul a 13 .^ mul (mul a 3) 9 =? a) &&
    (mul (mul a 2) 9 .^ mul a 14 .^ mul a 11 .^ mul (mul a 3) 13 =? 0) &&
    (mul (mul a 2) 13 .^ mul a 9 .^ mul a 14 .^ mul (mul a 3) 11 =? 0) &&
    (mul (mul a 2) 11 .^ mul a 13 .^ mul a 9 .^ mul (mul a 3) 14 =? 0) && (mul a 1 =? a))) in Ha;
    [|vm_compute; reflexivity].
  rewrite !andb_true_iff, !Z.eqb_eq in Ha. tauto.
Qed.

Lemma mul_u8 a b : is_u8 a -> b ∈ [2; 3; 9; 11; 13; 14] -> is_u8 (mul a b).
Proof.
  intros Ha Hb. apply mul_gf; [done|]. rewrite !elem_of_cons in Hb. unfold is_word.
  destruct Hb as [->|[->|[->|[->|[->|[->|Hb]]]]]]; [lia..|by apply not_elem_of_nil in Hb].
Qed.
Ltac in_list := repeat first [left; reflexivity | right].
Ltac u8_tac := repeat first [assumption | apply is_word_lxor; [discriminate|..] | apply mul_u8; [|in_list]].

Lemma mul_lxor4 a b c d k :
  is_u8 a -> is_u8 b -> is_u8 c -> is_u8 d -> k ∈ [2; 3; 9; 11; 13; 14] ->
  mul (a .^ b .^ c .^ d) k = mul a k .^ mul b k .^ mul c k .^ mul d k.
Proof. intros. rewrite !mul_lxor; [done|assumption..|u8_tac|assumption|assumption|u8_tac|assumption|assumption]. Qed.

(** Sixteen terms of four groups, regrouped. *)
Lemma lxor_regroup w x y z a1 a2 a3 a4 b1 b2 b3 b4 c1 c2 c3 c4 d1 d2 d3 d4 :
  a1 .^ a2 .^ a3 .^ a4 = w -> b1 .^ b2 .^ b3 .^ b4 = x -> c1 .^ c2 .^ c3 .^ c4 = y -> d1 .^ d2 .^ d3 .^ d4 = z ->
  (a1 .^ b1 .^ c1 .^ d1) .^ (a2 .^ b2 .^ c2 .^ d2) .^ (a3 .^ b3 .^ c3 .^ d3) .^ (a4 .^ b4 .^ c4 .^ d4) = w .^ x .^ y .^ z.
Proof. intros <- <- <- <-. bits. rewrite !Z.lxor_spec. btauto. Qed.
Lemma lxor_rotate a b c d w : a .^ b .^ c .^ d = w -> d .^ a .^ b .^ c = w.
Proof. intros <-. bits. rewrite !Z.lxor_spec. btauto. Qed.
Ltac column := first [eassumption | apply lxor_rotate; column].

Lemma inv_mix_mix4 a0 a1 a2 a3 :
  bytes [a0; a1; a2; a3] ->
  bytes (mix4 a0 a1 a2 a3) /\
  match mix4 a0 a1 a2 a3 with [b0; b1; b2; b3] => inv_mix4 b0 b1 b2 b3 = [a0; a1; a2; a3] | _ => False end.
Proof.
  rewrite !Forall_cons_iff. intros (H0 & H1 & H2 & H3 & _). unfold mix4, inv_mix4. split.
  - repeat apply Forall_cons_2; u8_tac. apply Forall_nil_2.
  - rewrite !mul_lxor4 by (u8_tac; in_list).
    destruct (mix_product a0 H0) as (A1 & A2 & A3 & A4 & _), (mix_product a1 H1) as (B1 & B2 & B3 & B4 & _),
      (mix_product a2 H2) as (C1 & C2 & C3 & C4 & _), (mix_product a3 H3) as (D1 & D2 & D3 & D4 & _).
    repeat f_equal; (etransitivity; [apply lxor_regroup; column|]); rewrite ?Z.lxor_0_r; try reflexivity;
      rewrite ?Z.lxor_0_l; reflexivity.
Qed.

Lemma inv_mix_mix s : block s -> inv_mix_columns (mix_columns s) = s /\ block (mix_columns s).
Proof.
  intros (a0 & a1 & a2 & a3 & b0 & b1 & b2 & b3 & c0 & c1 & c2 & c3 & d0 & d1 & d2 & d3 & -> & Ha & Hb & Hc & Hd)%block_cases.
  rewrite mix_columns_eq.
  destruct (inv_mix_mix4 _ _ _ _ Ha) as [Ba Ea], (inv_mix_mix4 _ _ _ _ Hb) as [Bb Eb],
    (inv_mix_mix4 _ _ _ _ Hc) as [Bc Ec], (inv_mix_mix4 _ _ _ _ Hd) as [Bd Ed].
  unfold mix4 in *. split; [|split; [done|by repeat apply Forall_app_2]].
  cbn [app]. rewrite inv_mix_columns_eq, Ea, Eb, Ec, Ed. done.
Qed.

(** ** Blocks *)

Record aes_ok (a : aes) : Prop := {
  ao_rounds : 1 <= rounds a;
  ao_len : 16 * (rounds a + 1) <= zlen (round_key a);
  ao_bytes : bytes (round_key a)
}.

Lemma key_block a r : aes_ok a -> 0 <= r <= rounds a -> block (key_of a r).
Proof.
  intros [H1 H2 H3] Hr. split; [unfold key_of; rewrite length_take, length_drop; lia|].
  by apply Forall_take, Forall_drop.
Qed.

Lemma enc_round_block a r s : aes_ok a -> 0 <= r <= rounds a -> block s -> block (enc_round a r s).
Proof.
  intros Ha Hr Hs. unfold enc_round. apply add_key_involutive; [|by apply key_block].
  apply inv_mix_mix, inv_shift_shift, inv_sub_sub, Hs.
Qed.

Lemma enc_rounds_block a s : aes_ok a -> block s -> block (for_range 1 (rounds a) (enc_round a) s).
Proof.
  intros Ha Hs. apply (for_range_inv (fun _ s => block s)); [apply Ha|done|].
  intros i t Hi Ht. apply enc_round_block; [done|lia|done].
Qed.

Lemma decrypt_encrypt a s :
  aes_ok a -> block s -> aes_decrypt_block a (aes_encrypt_block a s) = s /\ block (aes_encrypt_block a s).
Proof.
  intros Ha Hs. pose proof (ao_rounds a Ha) as Hr. unfold aes_encrypt_block.
  destruct (add_key_involutive s (key_of a 0) Hs (key_block a 0 Ha ltac:(lia))) as [E0 B0].
  set (x0 := add_round_key s (key_of a 0)) in *. pose proof (enc_rounds_block a x0 Ha B0) as Bn.
  set (fin := fun x => shift_rows (sub_bytes x)).
  assert (forall x, block x -> inv_sub_bytes (inv_shift_rows (fin x)) = x /\ block (fin x)) as Hfin.
  { intros x Hx. unfold fin. destruct (inv_sub_sub x Hx) as [E B]. destruct (inv_shift_shift _ B) as [E' B'].
    split; [by rewrite E', E|done]. }
  set (xn := for_range 1 (rounds a) (enc_round a) x0) in *. destruct (Hfin xn Bn) as [_ Bf].
  destruct (add_key_involutive (fin xn) (key_of a (rounds a)) Bf (key_block a (rounds a) Ha ltac:(lia))) as [E1 B1].
  fold (fin xn). split; [|done]. unfold aes_decrypt_block. rewrite E1.
  assert (for_down 1 (rounds a) (dec_round a) (fin xn) = fin x0) as ->; [|by rewrite (proj1 (Hfin x0 B0))].
  apply (for_down_inv (fun i t => t = fin (for_range 1 i (enc_round a) x0))); [done|done|].
  intros i t Hi ->. rewrite for_range_succ by lia.
  assert (block (for_range 1 i (enc_round a) x0)) as Bi.
  { apply (for_range_inv (fun _ s => block s)); [lia|done|]. intros j u Hj Hu. apply enc_round_block; [done|lia|done]. }
  set (x := for_range 1 i (enc_round a) x0) in *. unfold dec_round.
  destruct (Hfin (enc_round a i x)) as [-> _]; [apply enc_round_block; [done|lia|done]|].
  unfold enc_round. fold (fin x). destruct (inv_mix_mix (fin x)) as [Em Bm]; [by apply Hfin|].
  destruct (add_key_involutive (mix_columns (fin x)) (key_of a i) Bm (key_block a i Ha ltac:(lia))) as [-> _]. done.
Qed.

(** ** The key schedule *)

Lemma sbox_u8 b : is_u8 b -> is_u8 SBOX.[b].
Proof. intros H. apply (sbox_tables b H). Qed.
Lemma getz_u8 l i : bytes l -> is_u8 l.[i].
Proof. intros. apply Forall_getz; [by split|done]. Qed.
Lemma xtime_u8 x : is_u8 (xtime x).
Proof. apply u8_is_word. Qed.

Lemma schedule_step_ok nk i rk rcon :
  bytes rk -> is_u8 rcon ->
  bytes (schedule_step nk i (rk, rcon)).1 /\ is_u8 (schedule_step nk i (rk, rcon)).2 /\
  length (schedule_step nk i (rk, rcon)).1 = length rk.
Proof.
  intros Hk Hc. unfold schedule_step. set (t := take 4 _). assert (bytes t) as Ht by (by apply Forall_take, Forall_drop).
  set (u := if i mod nk =? 0 then _ else _). assert (bytes u.1 /\ is_u8 u.2) as [Hu1 Hu2].
  { unfold u. destruct (i mod nk =? 0); cbn [fst snd].
    - split; [|apply xtime_u8]. repeat apply Forall_cons_2; try (apply is_word_lxor; [discriminate| |done]);
        try apply sbox_u8, getz_u8, Ht. apply Forall_nil_2.
    - destruct (_ && _); cbn [fst snd]; [|done]. split; [|done]. unfold sub_word. apply Forall_fmap. revert Ht.
      apply Forall_impl. intros x Hx. by apply sbox_u8. }
  destruct u as [t' rcon']. cbn [fst snd] in *.
  assert (bytes (for_range 0 4 (fun j rk => rk.[i * 4 + j := rk.[(i - nk) * 4 + j] .^ t'.[j]]) rk) /\
    length (for_range 0 4 (fun j rk => rk.[i * 4 + j := rk.[(i - nk) * 4 + j] .^ t'.[j]]) rk) = length rk) as [A B]; [|done].
  apply (for_range_inv (fun _ l => bytes l /\ length l = length rk)); [lia|done|]. intros j l _ [Hl He]. split.
  - apply Forall_setz; [done|]. apply is_word_lxor; [discriminate| |]; by apply getz_u8.
  - by rewrite length_setz.
Qed.

Lemma set_key_ok a key bits :
  zlen (round_key a) = 240 -> bytes (round_key a) -> bytes key -> 8 * zlen key = bits ->
  (bits = 128 \/ bits = 256 -> (aes_set_key a key bits).2 = true /\ aes_ok (aes_set_key a key bits).1) /\
  (~ (bits = 128 \/ bits = 256) -> (aes_set_key a key bits).2 = false).
Proof.
  intros Hl Hb Hk Hbits. unfold aes_set_key.
  assert (forall nk r, 0 <= nk -> zlen key = 4 * nk -> 4 * nk <= 240 -> 1 <= r -> 16 * (r + 1) <= 240 -> nk <= 4 * (r + 1) ->
    aes_ok (Aes (for_range nk (4 * (r + 1)) (schedule_step nk) (splice (round_key a) 0 (take (Z.to_nat (nk * 4)) key), 1)).1 r)) as H.
  { intros nk r H0 H1 H2 H3 H4 H5. assert (length (take (Z.to_nat (nk * 4)) key) = Z.to_nat (4 * nk)) as Ht by (rewrite length_take; lia).
    pose proof (for_range_inv (fun _ (s : list Z * Z) => bytes s.1 /\ is_u8 s.2 /\ length s.1 = 240%nat) nk (4 * (r + 1)) (schedule_step nk)
      (splice (round_key a) 0 (take (Z.to_nat (nk * 4)) key), 1)) as Hi.
    destruct Hi as (A & _ & C); [done| | |constructor; cbn [rounds round_key]; [done|lia|done]].
    - cbn [fst snd]. split; [apply Forall_splice; [done|by apply Forall_take]|]. split; [by split|].
      rewrite length_splice; lia.
    - intros i [rk rcon] _ (A & B & C). cbn [fst snd] in A, B, C. destruct (schedule_step_ok nk i rk rcon A B) as (D & E & F).
      split; [done|]. split; [done|lia]. }
  destruct (Z.eqb_spec bits 128) as [E|E]; [|destruct (Z.eqb_spec bits 256) as [E'|E']]; cbn [fst snd Z.eqb].
  - split; [intros _|tauto]. split; [done|]. apply H; lia.
  - split; [intros _|tauto]. split; [done|]. apply H; lia.
  - split; [tauto|done].
Qed.

(** ** Wrapping *)

Lemma fold_count_eq a b c d e f g h t :
  fold_count [a; b; c; d; e; f; g; h] t =
  [a; b; c; d; e .^ u8 (t .>> 24); f .^ u8 (t .>> 16); g .^ u8 (t .>> 8); h .^ u8 t].
Proof. reflexivity. Qed.
Lemma fold_count_involutive acc t : length acc = 8%nat -> fold_count (fold_count acc t) t = acc.
Proof.
  intros Hl. do 9 (destruct acc as [|? acc]; try done). by rewrite !fold_count_eq, !lxor_involutive.
Qed.
Lemma fold_count_bytes acc t : length acc = 8%nat -> bytes acc -> length (fold_count acc t) = 8%nat /\ bytes (fold_count acc t).
Proof.
  intros Hl Hb. do 9 (destruct acc as [|? acc]; try done). rewrite fold_count_eq. split; [done|].
  rewrite !Forall_cons_iff in *.
  repeat match goal with |- _ /\ _ => split end; try apply Hb; apply is_word_lxor; try discriminate; try apply u8_is_word; apply Hb.
Qed.

(** The check value and the blocks of the key, of which there are [n]. *)
Definition wrap_state (n : Z) (s : list Z * list Z) : Prop :=
  length s.1 = 8%nat /\ bytes s.1 /\ zlen s.2 = 8 * n /\ bytes s.2.

(** The wrap's step without the first eight bytes of [out]. *)
Definition wrap_core (a : aes) (n round i : Z) (s : list Z * list Z) : list Z * list Z :=
  let block := aes_encrypt_block a (s.1 ++ take 8 (drop (Z.to_nat ((i - 1) * 8)) s.2)) in
  (fold_count (take 8 block) (u32 (n * round + i)), splice s.2 (Z.to_nat ((i - 1) * 8)) (drop 8 block)).

Lemma wrap_core_undo a n round i s :
  aes_ok a -> 1 <= i <= n -> wrap_state n s ->
  wrap_state n (wrap_core a n round i s) /\ unwrap_step a n round i (wrap_core a n round i s) = s.
Proof.
  intros Ha Hi (H1 & H2 & H3 & H4). destruct s as [acc out]. cbn [fst snd] in *. unfold wrap_core, unwrap_step. cbn [fst snd].
  set (k := Z.to_nat ((i - 1) * 8)). set (t := u32 _). set (sl := take 8 (drop k out)).
  assert (length sl = 8%nat) as Hsl by (unfold sl; rewrite length_take, length_drop; lia).
  assert (block (acc ++ sl)) as Hbl.
  { split; [rewrite length_app; lia|]. apply Forall_app_2; [done|]. by apply Forall_take, Forall_drop. }
  destruct (decrypt_encrypt a (acc ++ sl) Ha Hbl) as [Ed [El Eb]].
  set (b := aes_encrypt_block a (acc ++ sl)) in *.
  assert (length (take 8 b) = 8%nat /\ length (drop 8 b) = 8%nat) as [L1 L2] by (rewrite length_take, length_drop; lia).
  assert (bytes (take 8 b) /\ bytes (drop 8 b)) as [B1 B2] by (split; [by apply Forall_take|by apply Forall_drop]).
  destruct (fold_count_bytes (take 8 b) t L1 B1) as [F1 F2].
  split.
  - unfold wrap_state. cbn [fst snd]. split; [done|]. split; [done|]. split; [rewrite length_splice; lia|]. by apply Forall_splice.
  - rewrite fold_count_involutive by done. fold k. rewrite drop_splice by lia. rewrite take_drop, Ed.
    f_equal; [by apply take_app_length'|].
    rewrite drop_app_length' by done. rewrite splice_splice by lia. unfold sl. apply splice_same. lia.
Qed.

Lemma wrap_step_core a n round i acc pre out :
  length pre = 8%nat -> 1 <= i ->
  wrap_step a n round i (acc, pre ++ out) =
  ((wrap_core a n round i (acc, out)).1, pre ++ (wrap_core a n round i (acc, out)).2).
Proof.
  intros Hp Hi. unfold wrap_step, wrap_core. cbn [fst snd].
  assert (Z.to_nat (i * 8) = (length pre + Z.to_nat ((i - 1) * 8))%nat) as -> by lia.
  rewrite drop_app_add' by done. f_equal. by apply splice_app_r.
Qed.

Lemma for_range_fst_snd {A} lo hi (f g : Z -> list A * list A -> list A * list A) (pre : list A) acc out :
  (forall i acc out, lo <= i < hi -> f i (acc, pre ++ out) = ((g i (acc, out)).1, pre ++ (g i (acc, out)).2)) ->
  for_range lo hi f (acc, pre ++ out) = ((for_range lo hi g (acc, out)).1, pre ++ (for_range lo hi g (acc, out)).2).
Proof.
  intros H. unfold for_range.
  assert (Forall (fun i => lo <= i < hi) (seqZ lo (hi - lo))) as Hl.
  { apply Forall_forall. intros i Hi%list_elem_of_In%elem_of_seqZ. lia. }
  revert acc out. induction Hl as [|i l Hi _ IH]; intros acc out; cbn [foldl]; [done|].
  rewrite H by done. destruct (g i (acc, out)) as [acc' out']. cbn [fst snd]. apply IH.
Qed.

Lemma wrap_rounds_undo a n s :
  aes_ok a -> 0 <= n -> wrap_state n s ->
  let w := for_range 0 6 (fun round s => for_range 1 (n + 1) (wrap_core a n round) s) s in
  wrap_state n w /\ for_down 0 6 (fun round s => for_down 1 (n + 1) (unwrap_step a n round) s) w = s.
Proof.
  intros Ha Hn Hs. apply (for_undo (wrap_state n)); [|done]. intros round u _ Hu.
  apply (for_undo (wrap_state n)); [|done]. intros i v Hi Hv. apply wrap_core_undo; [done|lia|done].
Qed.

Lemma key128_bytes : bytes key128.
Proof. apply bytes_check. vm_compute. reflexivity. Qed.
Lemma plain_bytes : bytes plain.
Proof. apply bytes_check. vm_compute. reflexivity. Qed.
Lemma stack_aes_ok : zlen (round_key stack_aes) = 240 /\ bytes (round_key stack_aes).
Proof. split; [done|]. apply Forall_replicate. by split. Qed.

(** C33: AES with a key of 128 or 256 bits is a permutation of blocks:
    aes_decrypt_block undoes aes_encrypt_block, and the result is sixteen bytes. *)
Theorem aes_decrypt_inverts_encrypt a key bits s :
  zlen (round_key a) = 240 -> bytes (round_key a) -> bytes key -> 8 * zlen key = bits -> bits = 128 \/ bits = 256 ->
  length s = 16%nat -> bytes s ->
  let k := (aes_set_key a key bits).1 in
  (aes_set_key a key bits).2 = true /\
  aes_decrypt_block k (aes_encrypt_block k s) = s /\
  length (aes_encrypt_block k s) = 16%nat /\ bytes (aes_encrypt_block k s).
Proof.
  intros Hl Hb Hk Hbits Hor Hs Hsb k. destruct (set_key_ok a key bits Hl Hb Hk Hbits) as [H _]. destruct (H Hor) as [Hok Ha].
  destruct (decrypt_encrypt k s Ha (conj Hs Hsb)) as [E [B1 B2]]. done.
Qed.
Lemma aes_decrypt_inverts_encrypt_witness :
  aes_decrypt_block (aes_set_key stack_aes key128 128).1 (be_bytes 16 0x69c4e0d86a7b0430d8cdb78070b4c55a) = plain.
Proof.
  pose proof (proj1 (proj2 (aes_decrypt_inverts_encrypt stack_aes key128 128 plain
    eq_refl (proj2 stack_aes_ok) key128_bytes eq_refl (or_introl eq_refl) eq_refl plain_bytes))) as H.
  rewrite fips197_128 in H. exact H.
Defined.

(** The tables are FIPS-197's: [mul] is multiplication in GF(2^8) by
    x^8 + x^4 + x^3 + x + 1, each entry of SBOX is the affine map of the inverse
    there, and INV_SBOX is its inverse, as build_inverse leaves it. *)
Theorem aes_tables_correct a b :
  is_u8 a -> is_u8 b ->
  mul a b = gf_mul a b /\
  (exists i, is_u8 i /\ (if a =? 0 then i = 0 else gf_mul a i = 1) /\ SBOX.[a] = affine i) /\
  build_inverse.[SBOX.[a]] = a /\ SBOX.[build_inverse.[a]] = a.
Proof.
  intros Ha Hb. destruct (sbox_tables a Ha) as (_ & _ & H1 & H2 & i & Hi & H3 & H4).
  split; [by apply mul_gf|]. split; [|by split]. exists i. split; [done|]. split; [|done].
  destruct (a =? 0); [done|]. rewrite <- H4. symmetry. by apply mul_gf.
Qed.
Lemma aes_tables_correct_witness : mul 0x57 0x83 = gf_mul 0x57 0x83 /\ gf_mul 0x57 0x83 = 0xC1.
Proof.
  split; [|vm_compute; reflexivity].
  assert (is_u8 0x57) as H1 by (split; [discriminate|reflexivity]).
  assert (is_u8 0x83) as H2 by (split; [discriminate|reflexivity]).
  exact (proj1 (aes_tables_correct 0x57 0x83 H1 H2)).
Defined.

Lemma wrap_spec kek kek_bits key (a := (aes_set_key stack_aes kek kek_bits).1) (n := zlen key / 8) :
  16 <= zlen key -> zlen key mod 8 = 0 -> (aes_set_key stack_aes kek kek_bits).2 = true ->
  let w := for_range 0 6 (fun round s => for_range 1 (n + 1) (wrap_core a n round) s) (replicate 8 0xA6, key) in
  aes_wrap_key kek kek_bits key = (true, splice (replicate 8 0 ++ w.2) 0 w.1).
Proof.
  intros Hl Hm Hok w. unfold aes_wrap_key. rewrite (proj2 (Z.ltb_ge _ 16)), Hm by done. cbn [orb negb Z.eqb].
  subst a. destruct (aes_set_key stack_aes kek kek_bits) as [a ok]. cbn [fst snd] in *. rewrite Hok. cbn [negb].
  fold n. rewrite (for_range_fst_snd 0 6 _ (fun round s => for_range 1 (n + 1) (wrap_core a n round) s)).
  - done.
  - intros round acc out _. apply for_range_fst_snd. intros i acc' out' Hi. apply wrap_step_core; [done|lia].
Qed.

(** Aes_unwrap_key undoes aes_wrap_key: the wrapped key is eight bytes longer
    and unwrapping it with the same key passes the check and gives the key back, for
    every key of at least two blocks of eight bytes; other lengths and key sizes are
    refused. *)
Theorem key_wrap_roundtrip kek kek_bits key :
  bytes kek -> 8 * zlen kek = kek_bits -> bytes key ->
  (16 <= zlen key -> zlen key mod 8 = 0 -> kek_bits = 128 \/ kek_bits = 256 ->
   exists w, aes_wrap_key kek kek_bits key = (true, w) /\ zlen w = zlen key + 8 /\
     aes_unwrap_key kek kek_bits w = (true, key)) /\
  (zlen key < 16 \/ zlen key mod 8 <> 0 \/ ~ (kek_bits = 128 \/ kek_bits = 256) ->
   aes_wrap_key kek kek_bits key = (false, []) /\ aes_unwrap_key kek kek_bits key = (false, [])).
Proof.
  intros Hk Hbits Hkey. destruct stack_aes_ok as [L B].
  destruct (set_key_ok stack_aes kek kek_bits L B Hk Hbits) as [Hyes Hno]. split.
  - intros Hl Hm Hor. destruct (Hyes Hor) as [Hok Ha]. pose proof (wrap_spec kek kek_bits key Hl Hm Hok) as Hw. cbn zeta in Hw.
    set (a := (aes_set_key stack_aes kek kek_bits).1) in *. set (n := zlen key / 8) in *.
    assert (zlen key = 8 * n /\ 0 <= n) as [Hn Hn0] by (unfold n; dlia).
    assert (wrap_state n (replicate 8 0xA6, key)) as Hs by (repeat split; try done; by apply Forall_replicate).
    destruct (wrap_rounds_undo a n _ Ha Hn0 Hs) as [(W1 & W2 & W3 & W4) Hundo].
    set (w := for_range 0 6 _ _) in *. destruct w as [acc out]. cbn [fst snd] in *.
    exists (acc ++ out). assert (splice (replicate 8 0 ++ out) 0 acc = acc ++ out) as Hsp.
    { unfold splice. cbn [take app Nat.add]. rewrite W1. done. }
    rewrite Hsp in Hw. split; [done|]. split; [rewrite length_app; lia|]. unfold aes_unwrap_key.
    rewrite length_app, (proj2 (Z.ltb_ge _ 16)) by lia.
    replace (Z.of_nat (length acc + length out)) with (8 * (n + 1)) by lia.
    rewrite Z.mul_comm, Z_mod_mult. cbn [orb negb Z.eqb]. rewrite Z.div_mul by done.
    replace (n + 1 - 1) with n by lia. subst a.
    destruct (aes_set_key stack_aes kek kek_bits) as [a ok]. cbn [fst snd] in *. rewrite Hok. cbn [negb].
    rewrite take_app_length', drop_app_length', take_ge by lia. rewrite Hundo. done.
  - intros Hbad. unfold aes_wrap_key, aes_unwrap_key.
    destruct (Z.ltb_spec (zlen key) 16); cbn [orb]; [done|].
    destruct (Z.eqb_spec (zlen key mod 8) 0); cbn [negb]; [|done].
    destruct (aes_set_key stack_aes kek kek_bits) as [a ok]. cbn [snd] in Hno. rewrite Hno; [done|]. tauto || naive_solver lia.
Qed.
Lemma key_wrap_roundtrip_witness : exists w, aes_wrap_key key128 128 plain = (true, w) /\
  aes_unwrap_key key128 128 w = (true, plain) /\ w = be_bytes 24 0x1FA68B0A8112B447AEF34BD8FB5A7B829D3E862371D2CFE5.
Proof.
  destruct (proj1 (key_wrap_roundtrip key128 128 plain key128_bytes eq_refl plain_bytes) ltac:(discriminate) eq_refl (or_introl eq_refl))
    as (w & H1 & _ & H2).
  exists w. split; [exact H1|]. split; [exact H2|]. rewrite rfc3394 in H1. congruence.
Defined.
