(* ===== verification/Cipher.v ===== *)
(** What the modes of kernel/gcm.c and kernel/ccmp.c need of a block cipher, the
    interface aes_encrypt_block is used through, and the byte loops they share. *)
From S2P Require Import Prelude Aes.

(** A keyed permutation of sixteen byte blocks, of which a mode only uses one way. *)
Class BlockCipher (A : Type) := {
  encrypt_block : A -> list Z -> list Z;
  cipher_ok : A -> Prop;
  encrypt_is_block a s : cipher_ok a -> block s -> block (encrypt_block a s)
}.

#[export] Instance aes_cipher : BlockCipher aes := {|
  encrypt_block := aes_encrypt_block;
  cipher_ok := aes_ok;
  encrypt_is_block a s Ha Hs := proj2 (decrypt_encrypt a s Ha Hs)
|}.

(** [a[i] ^= b[i]] over the bytes of [a]. *)
Definition xor_bytes (a b : list Z) : list Z := zip_with Z.lxor a b.

Lemma length_xor_bytes a b : (length a <= length b)%nat -> length (xor_bytes a b) = length a.
Proof. intros. unfold xor_bytes. rewrite length_zip_with. lia. Qed.
Lemma xor_bytes_involutive a b : (length a <= length b)%nat -> xor_bytes (xor_bytes a b) b = a.
Proof.
  unfold xor_bytes. revert b. induction a as [|x a IH]; intros [|y b] H; cbn in *; try done; [lia|].
  rewrite IH by lia. by rewrite lxor_involutive.
Qed.
Lemma xor_bytes_bytes a b : bytes a -> bytes b -> bytes (xor_bytes a b).
Proof.
  intros Ha. revert b. unfold xor_bytes. induction Ha as [|x a Hx _ IH]; intros b Hb; [done|].
  destruct Hb as [|y b Hy Hb]; cbn [zip_with]; [done|]. constructor; [by apply is_word_lxor|by apply IH].
Qed.

(** [diff |= a[i] ^ b[i]]: zero exactly for equal strings. *)
Definition difference (a b : list Z) : Z := foldl Z.lor 0 (xor_bytes a b).
Lemma difference_zero a b : length a = length b -> difference a b = 0 <-> a = b.
Proof.
  unfold difference, xor_bytes. intros Hl.
  assert (forall l acc, foldl Z.lor acc l = 0 <-> acc = 0 /\ Forall (fun x => x = 0) l) as H.
  { induction l as [|x l IH]; intros acc; cbn [foldl]; [split; [done|tauto]|].
    rewrite IH, Z.lor_eq_0_iff, Forall_cons_iff. tauto. }
  rewrite H. clear H. revert b Hl. induction a as [|x a IH]; intros [|y b] Hl; cbn [zip_with length] in *; try done.
  rewrite Forall_cons_iff, Z.lxor_eq_0_iff. specialize (IH b ltac:(lia)). split.
  - intros (_ & -> & H). f_equal. tauto.
  - intros [= -> ->]. tauto.
Qed.

(** A block of at most sixteen bytes, zeros after it. *)
Definition pad16 (l : list Z) : list Z := splice (replicate 16 0) 0 l.
Lemma pad16_block l : (length l <= 16)%nat -> bytes l -> block (pad16 l).
Proof.
  intros Hl Hb. split; [by apply length_splice|]. apply Forall_splice; [|done]. apply Forall_replicate. by split.
Qed.
