(* ===== verification/Gcm.v ===== *)
(** kernel/gcm.c: AES-GCM over the cipher's interface.

    [data] is encrypted in place: the result is the buffer afterwards. The loops that
    step through a buffer sixteen bytes at a time recurse on what is left of it. *)
From S2P Require Import Prelude Aes Cipher.

(** ** Multiplication in GF(2^128) *)

(** The body of [gf_mul]'s loop for bit [i] of [x]. *)
Definition gf_step (x : list Z) (i : Z) (s : list Z * list Z) : list Z * list Z :=
  let '(v, acc) := s in
  let bit := (x.[i .>> 3] .>> (7 - (i .& 7))) .& 1 in
  let mask := u8 (0 - bit) in
  let acc := zip_with (fun a w => a .^ (w .& mask)) acc v in
  let lsb := v.[15] .& 1 in
  let v := for_down 1 16 (fun j v => v.[j := (v.[j] .>> 1) .| u8 (v.[j - 1] .<< 7)]) v in
  let v := v.[0 := v.[0] .>> 1] in
  let v := v.[0 := v.[0] .^ (0xe1 .& u8 (0 - lsb))] in
  (v, acc).
Definition gf_mul (x y : list Z) : list Z := (for_range 0 128 (gf_step x) (y, replicate 16 0)).2.

Section gcm.
  Context `{BlockCipher A}.

Record gcm := Gcm { g_aes : A; g_h : list Z }.

Definition ghash_block (g : gcm) (y blk : list Z) : list Z := gf_mul (xor_bytes y (pad16 blk)) (g_h g).

(** [for (i = 0; i < len; i += 16) ghash_block(g, y, l + i, min(16, len - i))] *)
Fixpoint ghash_blocks (fuel : nat) (g : gcm) (y l : list Z) : list Z :=
  match fuel with
  | O => y
  | S fuel => if zlen l =? 0 then y else ghash_blocks fuel g (ghash_block g y (take 16 l)) (drop 16 l)
  end.

Definition ghash (g : gcm) (aad ct : list Z) : list Z :=
  let y := replicate 16 0 in
  let y := ghash_blocks (length aad) g y aad in
  let y := ghash_blocks (length ct) g y ct in
  let a_bits := u64 (zlen aad * 8) in
  let c_bits := u64 (zlen ct * 8) in
  let lens := ((fun i => u8 (a_bits .>> (56 - i * 8))) <$> seqZ 0 8) ++ ((fun i => u8 (c_bits .>> (56 - i * 8))) <$> seqZ 0 8) in
  ghash_block g y lens.

(** [for (j = 15; j >= 12; j--) if (++counter[j]) break;] *)
Fixpoint bump (fuel : nat) (j : Z) (counter : list Z) : list Z :=
  match fuel with
  | O => counter
  | S fuel => let c := u8 (counter.[j] + 1) in
              let counter := counter.[j := c] in
              if negb (c =? 0) then counter else bump fuel (j - 1) counter
  end.

Fixpoint ctr_blocks (fuel : nat) (g : gcm) (counter data : list Z) : list Z :=
  match fuel with
  | O => data
  | S fuel =>
      if zlen data =? 0 then data else
      let counter := bump 4 15 counter in
      let stream := encrypt_block (g_aes g) counter in
      xor_bytes (take 16 data) stream ++ ctr_blocks fuel g counter (drop 16 data)
  end.
Definition ctr_xor (g : gcm) (counter data : list Z) : list Z := ctr_blocks (length data) g counter data.

Definition counter0 (iv : list Z) : list Z := iv ++ [0; 0; 0; 1].

(** [gcm_init], from the key set up. *)
Definition gcm_of (a : A) : gcm := Gcm a (encrypt_block a (replicate 16 0)).

Definition gcm_seal (g : gcm) (iv aad data : list Z) : list Z * list Z :=
  let j0 := counter0 iv in
  let mask := encrypt_block (g_aes g) j0 in
  let data := ctr_xor g j0 data in
  let h := ghash g aad data in
  (data, xor_bytes h mask).

Definition gcm_open (g : gcm) (iv aad data tag : list Z) : bool * list Z :=
  let j0 := counter0 iv in
  let mask := encrypt_block (g_aes g) j0 in
  let h := ghash g aad data in
  let want := xor_bytes h mask in
  let diff := difference want tag in
  if negb (diff =? 0) then (false, replicate (length data) 0) else
  (true, ctr_xor g j0 data).

End gcm.
#[global] Arguments gcm : clear implicits.

Definition gcm_init (g : gcm aes) (key : list Z) (bits : Z) : gcm aes * bool :=
  let '(a, ok) := aes_set_key (g_aes g) key bits in
  if negb ok then (Gcm a (g_h g), false) else (gcm_of a, true).

Example gcm_zero_vector :
  gcm_seal (gcm_init (Gcm stack_aes []) (replicate 16 0) 128).1 (replicate 12 0) [] (replicate 16 0) =
  (be_bytes 16 0x0388dace60b6a392f328c2b971b2fe78, be_bytes 16 0xab6e47d42cec13bdf53a67b21257bddf).
Proof. vm_compute. reflexivity. Qed.

(** ** The field as SP 800-38D states it, over 128 bit integers *)

Definition mul_step (x i : Z) (s : Z * Z) : Z * Z :=
  let '(v, z) := s in
  ((if Z.odd v then (v .>> 1) .^ (0xe1 .<< 120) else v .>> 1),
   (if Z.testbit x (127 - i) then z .^ v else z)).
Definition mul128 (x y : Z) : Z := (for_range 0 128 (mul_step x) (y, 0)).2.

(** Shifting a string of bytes one bit right, [p] the byte before it. *)
Fixpoint shr1 (p : Z) (l : list Z) : list Z :=
  match l with [] => [] | b :: l => ((b .>> 1) .| u8 (p .<< 7)) :: shr1 b l end.

Lemma shr1_byte b p : is_u8 b -> (b .>> 1) .| u8 (p .<< 7) = b / 2 + (p mod 2) * 2 ^ 7.
Proof.
  intros Hb. rewrite Z.shiftr_div_pow2 by done. change (2 ^ 1) with 2.
  assert (u8 (p .<< 7) = (p mod 2) .<< 7) as ->.
  { rewrite !Z.shiftl_mul_pow2 by done. unfold u8. change 256 with (2 * 2 ^ 7). by rewrite Z.mul_mod_distr_r. }
  apply lor_shiftl_add; [done|]. unfold is_word in *. dlia.
Qed.
Lemma shr1_val p l : bytes l -> be_val (shr1 p l) = ((p mod 2) * 256 ^ zlen l + be_val l) / 2.
Proof.
  intros Hl. revert p. induction Hl as [|b l Hb _ IH]; intros p.
  - cbn. change (be_val []) with 0. dlia.
  - cbn [shr1]. rewrite !be_val_cons, IH, shr1_byte by done.
    assert (length (shr1 b l) = length l) as -> by (clear; revert b; induction l as [|c l IH]; intros; cbn; [done|by rewrite IH]).
    cbn [length]. rewrite Nat2Z.inj_succ, Z.pow_succ_r by lia. set (n := 256 ^ zlen l). set (v := be_val l).
    replace (p mod 2 * (256 * n) + (b * n + v)) with ((b mod 2 * n + v) + (b / 2 * n + p mod 2 * 128 * n) * 2)
      by (pose proof (Z.div_mod b 2 ltac:(lia)); nia).
    rewrite Z.div_add by lia. change (2 ^ 7) with 128. lia.
Qed.
Lemma shr1_bytes p l : bytes l -> bytes (shr1 p l) /\ length (shr1 p l) = length l.
Proof.
  intros Hl. revert p. induction Hl as [|b l Hb _ IH]; intros p; cbn [shr1 length]; [done|].
  destruct (IH b) as [H1 H2]. split; [|by rewrite H2]. constructor; [|done].
  apply is_word_lor; [done|by apply is_word_shiftr|apply u8_is_word].
Qed.

(** The loop of [gf_mul] shifts the whole string. *)
Lemma shift_loop v : block v ->
  let v1 := for_down 1 16 (fun j v => v.[j := (v.[j] .>> 1) .| u8 (v.[j - 1] .<< 7)]) v in
  v1.[0 := v1.[0] .>> 1] = shr1 0 v.
Proof.
  intros (a0 & a1 & a2 & a3 & b0 & b1 & b2 & b3 & c0 & c1 & c2 & c3 & d0 & d1 & d2 & d3 & -> & Ha & Hb & Hc & Hd)%block_cases.
  cbn zeta. cbn [shr1]. change (u8 (0 .<< 7)) with 0. rewrite Z.lor_0_r. reflexivity.
Qed.

Lemma bit_of x i : block x -> 0 <= i < 128 ->
  (x.[i .>> 3] .>> (7 - (i .& 7))) .& 1 = if Z.testbit (be_val x) (127 - i) then 1 else 0.
Proof.
  intros [Hl Hb] Hi. rewrite be_val_testbit by (done || lia). rewrite Hl, land_7, land_1, (Z.shiftr_div_pow2 i 3) by done.
  change (2 ^ 3) with 8. replace (Z.of_nat 16 - 1 - (127 - i) / 8) with (i / 8) by dlia.
  replace ((127 - i) mod 8) with (7 - i mod 8) by dlia. rewrite <- Z.bit0_mod, Z.shiftr_spec by done.
  rewrite Z.add_0_l. by destruct (Z.testbit _ _).
Qed.

Lemma land_255_id w : is_u8 w -> w .& 255 = w.
Proof. intros H. rewrite land_255. by apply u8_id. Qed.

Lemma masked_xor acc v (b : bool) :
  bytes v -> length acc = length v ->
  zip_with (fun a w => a .^ (w .& u8 (0 - (if b then 1 else 0)))) acc v = if b then xor_bytes acc v else acc.
Proof.
  intros Hv. revert acc. induction Hv as [|y v Hy _ IH]; intros [|x acc] Hl; cbn [zip_with length] in *; try done; [by destruct b|].
  rewrite IH by lia. unfold xor_bytes. destruct b; cbn [zip_with].
  - change (u8 (0 - 1)) with 255. by rewrite land_255_id.
  - change (u8 (0 - 0)) with 0. by rewrite Z.land_0_r, Z.lxor_0_r.
Qed.

Lemma be_val_odd v : block v -> v.[15] .& 1 = (if Z.odd (be_val v) then 1 else 0).
Proof.
  intros [Hl Hb]. rewrite land_1, <- Z.bit0_mod, <- Z.bit0_odd, be_val_testbit by (done || lia). rewrite Hl.
  change (Z.of_nat 16 - 1 - 0 / 8) with 15. change (0 mod 8) with 0. by destruct (Z.testbit _ _).
Qed.

Lemma xor_first l m : l <> [] -> is_u8 m -> bytes l ->
  be_val l.[0 := l.[0] .^ m] = be_val l .^ (m .<< (8 * (zlen l - 1))) /\ bytes l.[0 := l.[0] .^ m].
Proof.
  intros Hne Hm Hb. destruct l as [|b l]; [done|]. apply Forall_cons_iff in Hb as [Hb Hl].
  change ((b :: l).[0 := (b :: l).[0] .^ m]) with ((b .^ m) :: l).
  assert (is_u8 (b .^ m)) by (by apply is_word_lxor). split; [|by constructor].
  rewrite !be_val_cons. cbn [length]. replace (8 * (Z.of_nat (S (length l)) - 1)) with (8 * zlen l) by lia.
  pose proof (be_val_bound l Hl) as Hv. rewrite !(Z.add_comm (_ * _)).
  change 256 with (2 ^ 8) in *. rewrite <- Z.pow_mul_r in * by lia. bits.
  rewrite Z.lxor_spec, Z.shiftl_spec, !testbit_add_shift by (done || lia).
  destruct (Z.ltb_spec n (8 * zlen l)); [by rewrite (Z.testbit_neg_r m), xorb_false_r by lia|apply Z.lxor_spec].
Qed.

Lemma gf_step_spec x i v acc :
  block x -> block v -> block acc -> 0 <= i < 128 ->
  let s := gf_step x i (v, acc) in
  block s.1 /\ block s.2 /\ mul_step (be_val x) i (be_val v, be_val acc) = (be_val s.1, be_val s.2).
Proof.
  intros Hx Hv [Al Ab] Hi. unfold gf_step. rewrite (bit_of x i Hx Hi), (be_val_odd v Hv).
  pose proof Hv as [Vl Vb]. rewrite masked_xor by (done || lia). pose proof (shift_loop v Hv) as Hs. cbn zeta in Hs.
  cbn zeta. rewrite !Hs. destruct (shr1_bytes 0 v Vb) as [Sb Sl]. cbn [fst snd].
  assert (be_val (shr1 0 v) = be_val v .>> 1) as Hval.
  { rewrite shr1_val by done. rewrite Z.shiftr_div_pow2 by done. done. }
  assert (is_u8 (0xe1 .& u8 (0 - (if Z.odd (be_val v) then 1 else 0)))) as Hm by (by destruct (Z.odd _)).
  destruct (xor_first (shr1 0 v) _ ltac:(destruct (shr1 0 v); [cbn in Sl; lia|done]) Hm Sb) as [Hxv Hxb].
  split; [|split].
  - split; [by rewrite length_setz, Sl|done].
  - destruct (Z.testbit _ _); [|done]. split; [rewrite length_xor_bytes; lia|by apply xor_bytes_bytes].
  - unfold mul_step. f_equal.
    + rewrite Hxv, Hval, Sl, Vl. destruct (Z.odd (be_val v)).
      * change (0xe1 .& u8 (0 - 1)) with 0xe1. done.
      * change (0xe1 .& u8 (0 - 0)) with 0. by rewrite Z.shiftl_0_l, Z.lxor_0_r.
    + destruct (Z.testbit _ _); [|done]. unfold xor_bytes. by rewrite be_val_lxor by (done || lia).
Qed.

Lemma gf_mul_spec x y : block x -> block y ->
  block (gf_mul x y) /\ be_val (gf_mul x y) = mul128 (be_val x) (be_val y).
Proof.
  intros Hx Hy. unfold gf_mul, mul128.
  assert (block (replicate 16 0)) as Hz by (split; [done|apply Forall_replicate; by split]).
  set (t0 := (be_val y, 0)).
  assert (t0 = (be_val y, be_val (replicate 16 0))) as Ht by done.
  assert (forall k, 0 <= k <= 128 -> let s := for_range 0 k (gf_step x) (y, replicate 16 0) in
    block s.1 /\ block s.2 /\ for_range 0 k (mul_step (be_val x)) t0 = (be_val s.1, be_val s.2)) as H.
  { intros k Hk. destruct Hk as [Hk0 Hk]. revert Hk. pattern k. apply natlike_ind; [| |done].
    - intros _. rewrite !for_range_nil by done. cbn. by rewrite Ht.
    - intros j Hj IH Hk. destruct IH as (A & B & C); [lia|]. cbn zeta. rewrite <- Z.add_1_r, !for_range_succ by lia. rewrite C.
      destruct (for_range 0 j (gf_step x) (y, replicate 16 0)) as [v acc]. cbn [fst snd] in *. apply gf_step_spec; [done..|lia]. }
  destruct (H 128 ltac:(lia)) as (_ & B & C). rewrite C. cbn [snd]. exact (conj B eq_refl).
Qed.

#[local] Opaque gf_mul mul128.

(** ** The mode as SP 800-38D states it *)

(** The whole blocks of a string, the last filled with zeros. *)
Fixpoint blocks16 (fuel : nat) (l : list Z) : list (list Z) :=
  match fuel with
  | O => []
  | S fuel => if zlen l =? 0 then [] else pad16 (take 16 l) :: blocks16 fuel (drop 16 l)
  end.
Definition blocks_of (l : list Z) : list (list Z) := blocks16 (length l) l.
(** GHASH of header and cipher text: Horner's rule in the field. *)
Definition ghash_spec (h : Z) (aad ct : list Z) : Z :=
  foldl (fun y b => mul128 (y .^ be_val b) h) 0
    (blocks_of aad ++ blocks_of ct ++ [be_bytes 8 (u64 (zlen aad * 8)) ++ be_bytes 8 (u64 (zlen ct * 8))]).

Section spec.
  Context `{BlockCipher A}.

(** The counter block with count [i], and the key stream from count [i] on, [n] blocks. *)
Definition count_block (iv : list Z) (i : Z) : list Z := iv ++ be_bytes 4 i.
Definition keystream (a : A) (iv : list Z) (i : Z) (n : nat) : list Z :=
  concat ((fun k => encrypt_block a (count_block iv k)) <$> seqZ i (Z.of_nat n)).
Definition seal_spec (a : A) (iv aad data : list Z) : list Z * Z :=
  let ct := xor_bytes data (keystream a iv 2 (length data)) in
  (ct, ghash_spec (be_val (encrypt_block a (replicate 16 0))) aad ct .^ be_val (encrypt_block a (count_block iv 1))).

Record gcm_ok (g : gcm A) : Prop := {
  go_cipher : cipher_ok (g_aes g);
  go_h : block (g_h g)
}.

Lemma replicate_block : block (replicate 16 0).
Proof. split; [done|]. apply Forall_replicate. by split. Qed.

Lemma gcm_of_ok a : cipher_ok a -> gcm_ok (gcm_of a).
Proof. intros Ha. constructor; [done|]. apply encrypt_is_block; [done|apply replicate_block]. Qed.

Lemma xor_block a b : block a -> block b -> block (xor_bytes a b) /\ be_val (xor_bytes a b) = be_val a .^ be_val b.
Proof.
  intros [La Ba] [Lb Bb]. split; [split; [rewrite length_xor_bytes; lia|by apply xor_bytes_bytes]|].
  apply be_val_lxor; [lia|done..].
Qed.

Lemma ghash_block_spec g y b :
  gcm_ok g -> block y -> block (pad16 b) ->
  block (ghash_block g y b) /\ be_val (ghash_block g y b) = mul128 (be_val y .^ be_val (pad16 b)) (be_val (g_h g)).
Proof.
  intros [_ Hh] Hy Hb. unfold ghash_block. destruct (xor_block y (pad16 b) Hy Hb) as [B E].
  destruct (gf_mul_spec _ (g_h g) B Hh) as [B' E']. split; [done|]. by rewrite E', E.
Qed.

Lemma ghash_blocks_spec fuel g y l :
  gcm_ok g -> block y -> bytes l ->
  block (ghash_blocks fuel g y l) /\
  be_val (ghash_blocks fuel g y l) = foldl (fun y b => mul128 (y .^ be_val b) (be_val (g_h g))) (be_val y) (blocks16 fuel l).
Proof.
  intros Hg. revert y l. induction fuel as [|fuel IH]; intros y l Hy Hl; cbn [ghash_blocks blocks16]; [done|].
  destruct (zlen l =? 0); [done|]. cbn [foldl].
  assert (block (pad16 (take 16 l))) as Hp by (apply pad16_block; [rewrite length_take; lia|by apply Forall_take]).
  destruct (ghash_block_spec g y (take 16 l) Hg Hy Hp) as [B E]. rewrite <- E. apply IH; [done|by apply Forall_drop].
Qed.

Lemma be_bytes_8_seq x : (fun i => u8 (x .>> (56 - i * 8))) <$> seqZ 0 8 = be_bytes 8 x.
Proof. unfold be_bytes. cbn -[Z.shiftr u8]. rewrite !Z.shiftr_shiftr by lia. reflexivity. Qed.

Lemma pad16_full l : length l = 16%nat -> pad16 l = l.
Proof. intros Hl. unfold pad16, splice. cbn [take app Nat.add]. rewrite Hl. cbn. apply app_nil_r. Qed.

Lemma ghash_is_spec g aad ct :
  gcm_ok g -> bytes aad -> bytes ct ->
  block (ghash g aad ct) /\ be_val (ghash g aad ct) = ghash_spec (be_val (g_h g)) aad ct.
Proof.
  intros Hg Ha Hc. unfold ghash, ghash_spec. rewrite !be_bytes_8_seq, !foldl_app. cbn [foldl].
  destruct (ghash_blocks_spec (length aad) g (replicate 16 0) aad Hg replicate_block Ha) as [B1 E1].
  destruct (ghash_blocks_spec (length ct) g _ ct Hg B1 Hc) as [B2 E2].
  set (lens := be_bytes 8 (u64 (zlen aad * 8)) ++ be_bytes 8 (u64 (zlen ct * 8))).
  assert (length lens = 16%nat /\ bytes lens) as [Ll Bl]
    by (unfold lens; rewrite length_app, !length_be_bytes; split; [done|apply Forall_app_2; apply be_bytes_bytes]).
  assert (block (pad16 lens)) as Hp by (apply pad16_block; [lia|done]).
  destruct (ghash_block_spec g _ lens Hg B2 Hp) as [B3 E3]. split; [done|].
  rewrite E3, E2, E1, pad16_full by done. done.
Qed.

(** ** The counter *)

Lemma be_bytes_4_eq x : be_bytes 4 x = [u8 (x / 16777216); u8 (x / 65536); u8 (x / 256); u8 x].
Proof.
  unfold be_bytes. cbn -[Z.shiftr u8 Z.div]. rewrite !Z.shiftr_shiftr by done. rewrite !Z.shiftr_div_pow2 by done. done.
Qed.

Lemma bump_eq i0 i1 i2 i3 i4 i5 i6 i7 i8 i9 i10 i11 a b c d (iv := [i0; i1; i2; i3; i4; i5; i6; i7; i8; i9; i10; i11]) :
  bump 4 15 (iv ++ [a; b; c; d]) =
  if negb (u8 (d + 1) =? 0) then iv ++ [a; b; c; u8 (d + 1)]
  else if negb (u8 (c + 1) =? 0) then iv ++ [a; b; u8 (c + 1); u8 (d + 1)]
  else if negb (u8 (b + 1) =? 0) then iv ++ [a; u8 (b + 1); u8 (c + 1); u8 (d + 1)]
  else if negb (u8 (a + 1) =? 0) then iv ++ [u8 (a + 1); u8 (b + 1); u8 (c + 1); u8 (d + 1)]
  else iv ++ [u8 (a + 1); u8 (b + 1); u8 (c + 1); u8 (d + 1)].
Proof. reflexivity. Qed.

Lemma list4_eq (a b c d a' b' c' d' : Z) : a = a' -> b = b' -> c = c' -> d = d' -> [a; b; c; d] = [a'; b'; c'; d'].
Proof. by intros -> -> -> ->. Qed.

Lemma bump_spec iv x : length iv = 12%nat -> bump 4 15 (count_block iv x) = count_block iv (x + 1).
Proof.
  intros Hl. unfold count_block. rewrite !be_bytes_4_eq. do 13 (destruct iv as [|? iv]; try done). clear Hl.
  rewrite bump_eq. unfold u8.
  destruct (Z.eqb_spec ((x mod 256 + 1) mod 256) 0); cbn [negb]; [|f_equal; apply list4_eq; dlia].
  destruct (Z.eqb_spec (((x / 256) mod 256 + 1) mod 256) 0); cbn [negb]; [|f_equal; apply list4_eq; dlia].
  destruct (Z.eqb_spec (((x / 65536) mod 256 + 1) mod 256) 0); cbn [negb]; [|f_equal; apply list4_eq; dlia].
  destruct (negb _); f_equal; apply list4_eq; dlia.
Qed.

Lemma count_block_block iv i : length iv = 12%nat -> bytes iv -> block (count_block iv i).
Proof.
  intros Hl Hb. unfold count_block. split; [rewrite length_app, length_be_bytes; lia|].
  apply Forall_app_2; [done|apply be_bytes_bytes].
Qed.

Lemma ctr_blocks_spec fuel g iv i data n :
  gcm_ok g -> length iv = 12%nat -> bytes iv -> (length data <= fuel)%nat -> (length data <= 16 * n)%nat ->
  ctr_blocks fuel g (count_block iv i) data = xor_bytes data (keystream (g_aes g) iv (i + 1) n).
Proof.
  intros Hg Hl Hb. revert i data n. induction fuel as [|fuel IH]; intros i data n Hf Hn; cbn [ctr_blocks].
  { destruct data; [done|cbn in Hf; lia]. }
  destruct (Z.eqb_spec (zlen data) 0) as [E|E]; [by destruct data|].
  destruct n as [|n]; [lia|]. rewrite bump_spec by done.
  unfold keystream. rewrite seqZ_cons by lia. cbn [fmap list_fmap concat].
  pose proof (encrypt_is_block (g_aes g) _ (go_cipher g Hg) (count_block_block iv (i + 1) Hl Hb)) as [Lb _].
  set (k := encrypt_block (g_aes g) (count_block iv (i + 1))) in *.
  rewrite (IH (i + 1) (drop 16 data) n) by (rewrite length_drop; lia). unfold keystream.
  replace (Z.succ (i + 1)) with (i + 1 + 1) by lia. replace (Z.pred (Z.of_nat (S n))) with (Z.of_nat n) by lia.
  unfold xor_bytes. by rewrite zip_with_app_r, Lb.
Qed.

Lemma keystream_bytes a iv i n : cipher_ok a -> length iv = 12%nat -> bytes iv ->
  bytes (keystream a iv i n) /\ length (keystream a iv i n) = (16 * n)%nat.
Proof.
  intros Ha Hl Hb. unfold keystream. revert i. induction n as [|n IH]; intros i; [done|].
  rewrite seqZ_cons by lia. cbn [fmap list_fmap concat].
  pose proof (encrypt_is_block a _ Ha (count_block_block iv i Hl Hb)) as [L B].
  destruct (IH (Z.succ i)) as [B' L']. replace (Z.pred (Z.of_nat (S n))) with (Z.of_nat n) by lia.
  split; [by apply Forall_app_2|]. rewrite length_app, L, L'. lia.
Qed.

(** [counter0] is the block with count one. *)
Lemma ctr_xor_spec g iv data :
  gcm_ok g -> length iv = 12%nat -> bytes iv ->
  ctr_xor g (counter0 iv) data = xor_bytes data (keystream (g_aes g) iv 2 (length data)).
Proof. intros. unfold ctr_xor. apply (ctr_blocks_spec _ g iv 1); (done || lia). Qed.

Lemma ctr_xor_twice g iv data :
  gcm_ok g -> length iv = 12%nat -> bytes iv -> bytes data ->
  ctr_xor g (counter0 iv) (ctr_xor g (counter0 iv) data) = data /\
  bytes (ctr_xor g (counter0 iv) data) /\ length (ctr_xor g (counter0 iv) data) = length data.
Proof.
  intros Hg Hl Hb Hd. rewrite !ctr_xor_spec by done.
  destruct (keystream_bytes (g_aes g) iv 2 (length data) (go_cipher g Hg) Hl Hb) as [KB KL].
  rewrite length_xor_bytes by lia. split; [apply xor_bytes_involutive; lia|]. split; [by apply xor_bytes_bytes|done].
Qed.

(** The tag of a header and a cipher text. *)
Lemma tag_spec g iv aad ct :
  gcm_ok g -> length iv = 12%nat -> bytes iv -> bytes aad -> bytes ct ->
  let t := xor_bytes (ghash g aad ct) (encrypt_block (g_aes g) (counter0 iv)) in
  block t /\ be_val t = ghash_spec (be_val (g_h g)) aad ct .^ be_val (encrypt_block (g_aes g) (count_block iv 1)).
Proof.
  intros Hg Hl Hb Ha Hc. destruct (ghash_is_spec g aad ct Hg Ha Hc) as [B E].
  pose proof (encrypt_is_block (g_aes g) _ (go_cipher g Hg) (count_block_block iv 1 Hl Hb)) as B'.
  change (counter0 iv) with (count_block iv 1). destruct (xor_block _ _ B B') as [B2 E2]. cbn zeta. split; [exact B2|]. rewrite E2, E. reflexivity.
Qed.

#[local] Opaque ghash ctr_xor ghash_spec keystream.

(** C39: gcm_seal is GCM of SP 800-38D for a twelve byte nonce: the data xored with
    the cipher over the counts from two, and the tag GHASH of header and cipher text,
    in GF(2^128) over 128 bit integers, masked with the cipher over count one. *)
Theorem gcm_seal_is_gcm a iv aad data :
  cipher_ok a -> length iv = 12%nat -> bytes iv -> bytes aad -> bytes data ->
  let '(ct, tag) := gcm_seal (gcm_of a) iv aad data in
  (ct, be_val tag) = seal_spec a iv aad data /\ length tag = 16%nat /\ bytes tag.
Proof.
  intros Ha Hl Hb Haad Hd. pose proof (gcm_of_ok a Ha) as Hg. unfold gcm_seal, seal_spec.
  destruct (ctr_xor_twice (gcm_of a) iv data Hg Hl Hb Hd) as (_ & Hc & _).
  destruct (tag_spec (gcm_of a) iv aad _ Hg Hl Hb Haad Hc) as [[B1 B2] E]. split; [|by split].
  rewrite E, ctr_xor_spec by done. done.
Qed.

(** C34: gcm_open accepts exactly what gcm_seal made: it returns true with [data] in
    the buffer just when sealing [data] gives that cipher text and that tag, and
    otherwise returns false with the buffer zeroed. *)
Theorem gcm_open_accepts_only_sealed a iv aad ct tag :
  cipher_ok a -> length iv = 12%nat -> bytes iv -> bytes aad -> bytes ct -> length tag = 16%nat ->
  (forall data, bytes data ->
     gcm_open (gcm_of a) iv aad ct tag = (true, data) <-> gcm_seal (gcm_of a) iv aad data = (ct, tag)) /\
  (forall out, gcm_open (gcm_of a) iv aad ct tag = (false, out) -> out = replicate (length ct) 0).
Proof.
  intros Ha Hl Hb Haad Hc Ht. pose proof (gcm_of_ok a Ha) as Hg. unfold gcm_open, gcm_seal.
  destruct (ctr_xor_twice (gcm_of a) iv ct Hg Hl Hb Hc) as (Hct & _ & _).
  destruct (tag_spec (gcm_of a) iv aad ct Hg Hl Hb Haad Hc) as [[B1 _] _].
  pose proof (difference_zero (xor_bytes (ghash (gcm_of a) aad ct) (encrypt_block (g_aes (gcm_of a)) (counter0 iv))) tag ltac:(lia)) as Hdiff.
  split.
  - intros data Hd. destruct (ctr_xor_twice (gcm_of a) iv data Hg Hl Hb Hd) as (Hdd & _ & _).
    destruct (Z.eqb_spec (difference (xor_bytes (ghash (gcm_of a) aad ct) (encrypt_block (g_aes (gcm_of a)) (counter0 iv))) tag) 0) as [E|E]; cbn [negb].
    + apply Hdiff in E. split; intros H1.
      * apply (f_equal snd) in H1. cbn [snd] in H1. subst data. rewrite Hct, E. reflexivity.
      * apply (f_equal fst) in H1. cbn [fst] in H1. rewrite <- H1, Hdd. reflexivity.
    + split; intros H1; [by apply (f_equal fst) in H1|]. exfalso. apply E, Hdiff.
      pose proof (f_equal fst H1) as H2. pose proof (f_equal snd H1) as H3. cbn [fst snd] in H2, H3.
      rewrite H2 in H3. exact H3.
  - intros out. destruct (negb _); intros H1; [|by apply (f_equal fst) in H1].
    apply (f_equal snd) in H1. symmetry. exact H1.
Qed.
End spec.

Definition zero_key : aes := Eval vm_compute in (aes_set_key stack_aes (replicate 16 0) 128).1.
Lemma zero_key_ok : cipher_ok zero_key.
Proof.
  constructor; [discriminate|discriminate|]. apply bytes_check. vm_compute. reflexivity.
Qed.
Lemma zeros_bytes n : bytes (replicate n 0).
Proof. apply Forall_replicate. by split. Qed.

Lemma gcm_seal_is_gcm_witness :
  seal_spec zero_key (replicate 12 0) [] (replicate 16 0) =
  (be_bytes 16 0x0388dace60b6a392f328c2b971b2fe78, 0xab6e47d42cec13bdf53a67b21257bddf).
Proof.
  pose proof (gcm_seal_is_gcm zero_key (replicate 12 0) [] (replicate 16 0) zero_key_ok eq_refl
    (zeros_bytes 12) (List.Forall_nil _) (zeros_bytes 16)) as H.
  change (gcm_of zero_key) with (gcm_init (Gcm stack_aes []) (replicate 16 0) 128).1 in H.
  rewrite gcm_zero_vector in H. destruct H as [H _]. rewrite <- H. reflexivity.
Defined.

Lemma gcm_open_accepts_only_sealed_witness :
  gcm_open (gcm_of zero_key) (replicate 12 0) [] (be_bytes 16 0x0388dace60b6a392f328c2b971b2fe78)
    (be_bytes 16 0xab6e47d42cec13bdf53a67b21257bddf) = (true, replicate 16 0).
Proof.
  destruct (gcm_open_accepts_only_sealed zero_key (replicate 12 0) [] (be_bytes 16 0x0388dace60b6a392f328c2b971b2fe78)
    (be_bytes 16 0xab6e47d42cec13bdf53a67b21257bddf) zero_key_ok eq_refl (zeros_bytes 12) (List.Forall_nil _)
    (be_bytes_bytes 16 _) eq_refl) as [H _].
  apply (proj2 (H (replicate 16 0) (zeros_bytes 16))).
  change (gcm_of zero_key) with (gcm_init (Gcm stack_aes []) (replicate 16 0) 128).1. exact gcm_zero_vector.
Defined.
