(* ===== verification/Ccmp.v ===== *)
(** kernel/ccmp.c: CCM with an eight byte MIC over the cipher's interface, and the
    802.11 frame around it.

    Buffers written are results; the loops that step through a buffer sixteen bytes at
    a time recurse on what is left of it. *)
From Stdlib Require Import Btauto.
From S2P Require Import Prelude Aes Cipher.

Definition CCMP_HDR_LEN : Z := 8.
Definition CCMP_MIC_LEN : Z := 8.

Section ccm.
  Context `{BlockCipher A}.

(** The blocks of the AAD; [b] holds what is in the block before [fill]. *)
Fixpoint mac_aad (fuel : nat) (a : A) (x b : list Z) (fill : Z) (aad : list Z) : list Z :=
  match fuel with
  | O => x
  | S fuel =>
      if zlen aad =? 0 then x else
      let n := Z.to_nat (16 - fill) in
      let b := splice b (Z.to_nat fill) (take n aad) in
      let b := xor_bytes b x in
      mac_aad fuel a (encrypt_block a b) (replicate 16 0) 0 (drop n aad)
  end.

Fixpoint mac_msg (fuel : nat) (a : A) (x msg : list Z) : list Z :=
  match fuel with
  | O => x
  | S fuel =>
      if zlen msg =? 0 then x else
      mac_msg fuel a (encrypt_block a (xor_bytes x (pad16 (take 16 msg)))) (drop 16 msg)
  end.

Definition ccm_mac (a : A) (nonce aad msg : list Z) : list Z :=
  let b := [u8 ((if zlen aad =? 0 then 0 else 0x40) .| (3 .<< 3) .| 1)] ++ nonce ++ [u8 (zlen msg .>> 8); u8 (zlen msg)] in
  let x := encrypt_block a b in
  let x := if zlen aad =? 0 then x else
    let b := splice (replicate 16 0) 0 [u8 (zlen aad .>> 8); u8 (zlen aad)] in
    mac_aad (length aad) a x b 2 aad in
  mac_msg (length msg) a x msg.

Definition ccm_ctr (a : A) (nonce : list Z) (i : Z) : list Z :=
  encrypt_block a ([1] ++ nonce ++ [u8 (i .>> 8); u8 i]).

Fixpoint crypt_blocks (fuel : nat) (a : A) (nonce : list Z) (i : Z) (l : list Z) : list Z :=
  match fuel with
  | O => []
  | S fuel =>
      if zlen l =? 0 then [] else
      xor_bytes (take 16 l) (ccm_ctr a nonce i) ++ crypt_blocks fuel a nonce (u32 (i + 1)) (drop 16 l)
  end.
Definition ccm_crypt (a : A) (nonce l : list Z) : list Z := crypt_blocks (length l) a nonce 1 l.

Definition ccm_encrypt (a : A) (nonce aad l : list Z) : list Z * list Z :=
  let t := ccm_mac a nonce aad l in
  let s0 := ccm_ctr a nonce 0 in
  (ccm_crypt a nonce l, take (Z.to_nat CCMP_MIC_LEN) (xor_bytes t s0)).

Definition ccm_decrypt (a : A) (nonce aad l mic : list Z) : bool * list Z :=
  let out := ccm_crypt a nonce l in
  let t := ccm_mac a nonce aad out in
  let s0 := ccm_ctr a nonce 0 in
  let diff := foldl Z.lor 0 (xor_bytes (xor_bytes (take (Z.to_nat CCMP_MIC_LEN) mic) t) s0) in
  (diff =? 0, out).

(** ** The frame *)

(** The header's length, zero for something too short to be one. *)
Definition ccmp_hdr_len (frame : list Z) : Z :=
  let len := zlen frame in
  if len <? 24 then 0 else
  let type := (frame.[0] .>> 2) .& 3 in
  let subtype := frame.[0] .>> 4 in
  let n := 24 in
  let n := if type =? 2 then
             let n := if frame.[1] .& 3 =? 3 then n + 6 else n in
             if subtype .& 8 =? 0 then n else n + 2
           else n in
  if n <=? len then n else 0.

(** The AAD and the nonce. *)
Definition ccmp_aad_nonce (hdr : list Z) (hdr_len pn : Z) : list Z * list Z :=
  let type := (hdr.[0] .>> 2) .& 3 in
  let qos := (type =? 2) && negb (hdr.[0] .& 0x80 =? 0) in
  let a4 := (type =? 2) && (hdr.[1] .& 3 =? 3) in
  let fc0 := if type =? 2 then u8 (hdr.[0] .& 0x8F) else hdr.[0] in
  let fc1 := u8 (hdr.[1] .& Z.lnot (0x08 .| 0x10 .| 0x20)) in
  let fc1 := fc1 .| 0x40 in
  let fc1 := if qos then fc1 .& u8 (Z.lnot 0x80) else fc1 in
  let aad := [fc0; fc1] ++ take 18 (drop 4 hdr) ++ [u8 (hdr.[22] .& 0x0F); 0] in
  let aad := if a4 then aad ++ take 6 (drop 24 hdr) else aad in
  let has_tid := qos && ((if a4 then 32 else 26) <=? hdr_len) in
  let tid := if has_tid then u8 (hdr.[if a4 then 30 else 24] .& 0x0F) else 0 in
  let aad := if has_tid then aad ++ [tid; 0] else aad in
  (aad, [u8 (tid .| (if type =? 0 then 0x10 else 0))] ++ take 6 (drop 10 hdr) ++
        ((fun i => u8 (pn .>> (8 * (5 - i)))) <$> seqZ 0 6)).

(** The eight bytes of the CCMP header. *)
Definition ccmp_header (pn key_id : Z) : list Z :=
  [u8 pn; u8 (pn .>> 8); 0; u8 (0x20 .| ((key_id .& 3) .<< 6)); u8 (pn .>> 16); u8 (pn .>> 24); u8 (pn .>> 32); u8 (pn .>> 40)].

(** The frame written to [out]; the call returns its length. The AAD is read from the
    buffer, where the CCMP header already follows the frame's. *)
Definition ccmp_encrypt (tk : A) (pn key_id : Z) (hdr body : list Z) : list Z :=
  let out := hdr.[1 := hdr.[1] .| 0x40] in
  let ch := ccmp_header pn key_id in
  let '(aad, nonce) := ccmp_aad_nonce (out ++ ch) (zlen hdr) pn in
  let '(ct, mic) := ccm_encrypt tk nonce aad body in
  out ++ ch ++ ct ++ mic.

(** The body and the packet number, [None] for -1. *)
Definition ccmp_decrypt (tk : A) (frame : list Z) (hdr_len : Z) : option (list Z * Z) :=
  let len := zlen frame in
  if (len <? hdr_len + CCMP_HDR_LEN + CCMP_MIC_LEN) || (frame.[1] .& 0x40 =? 0) then None else
  let ch := drop (Z.to_nat hdr_len) frame in
  if ch.[3] .& 0x20 =? 0 then None else
  let p := ch.[0] .| (ch.[1] .<< 8) .| (ch.[4] .<< 16) .| (ch.[5] .<< 24) .| (ch.[6] .<< 32) .| (ch.[7] .<< 40) in
  let '(aad, nonce) := ccmp_aad_nonce frame hdr_len p in
  let n := len - hdr_len - CCMP_HDR_LEN - CCMP_MIC_LEN in
  let '(ok, out) := ccm_decrypt tk nonce aad (take (Z.to_nat n) (drop (Z.to_nat CCMP_HDR_LEN) ch))
                      (drop (Z.to_nat (len - CCMP_MIC_LEN)) frame) in
  if ok then Some (out, p) else None.

(** ** CCM *)

Lemma two_bytes x y : bytes [u8 x; u8 y].
Proof. apply Forall_cons_2; [apply u8_is_word|]. apply Forall_cons_2; [apply u8_is_word|apply Forall_nil_2]. Qed.
Lemma first_block f nonce x y : is_u8 f -> length nonce = 13%nat -> bytes nonce -> block ([f] ++ nonce ++ [u8 x; u8 y]).
Proof.
  intros Hf Hn Hb. split; [rewrite !length_app; cbn; lia|]. cbn [app]. apply Forall_cons_2; [done|].
  apply Forall_app_2; [done|apply two_bytes].
Qed.
Lemma zero_block : block (replicate 16 0).
Proof. split; [done|]. apply Forall_replicate. by split. Qed.

Lemma crypt_twice fuel a nonce i l :
  cipher_ok a -> length nonce = 13%nat -> bytes nonce -> bytes l -> (length l <= fuel)%nat ->
  crypt_blocks fuel a nonce i (crypt_blocks fuel a nonce i l) = l /\
  length (crypt_blocks fuel a nonce i l) = length l /\ bytes (crypt_blocks fuel a nonce i l).
Proof.
  intros Ha Hn Hb. revert i l. induction fuel as [|fuel IH]; intros i l Hl Hf; cbn [crypt_blocks].
  { destruct l; [done|cbn in Hf; lia]. }
  destruct (Z.eqb_spec (zlen l) 0) as [E|E]; [destruct l; [by cbn|done]|].
  assert (block (ccm_ctr a nonce i)) as [Lk Bk].
  { apply encrypt_is_block; [done|]. by apply first_block. }
  set (k := ccm_ctr a nonce i) in *. set (t := take 16 l).
  assert (length t <= 16)%nat as Ht by (unfold t; rewrite length_take; lia).
  assert (length (xor_bytes t k) = length t) as Hx by (apply length_xor_bytes; lia).
  destruct (IH (u32 (i + 1)) (drop 16 l)) as (H1 & H2 & H3); [by apply Forall_drop|rewrite length_drop; lia|].
  assert (length (crypt_blocks fuel a nonce (u32 (i + 1)) (drop 16 l)) = length l - 16)%nat as H4 by (by rewrite H2, length_drop).
  split; [|split].
  - rewrite (proj2 (Z.eqb_neq _ 0)) by (rewrite length_app, Hx, H4; unfold t; rewrite length_take; lia).
    destruct (decide (length l <= 16)%nat) as [Hs|Hs].
    + rewrite (drop_ge l) in * by done. destruct (crypt_blocks fuel a nonce (u32 (i + 1)) []) as [|? ?] eqn:Ec; [|cbn in H4; lia].
      rewrite app_nil_r. rewrite take_ge, drop_ge by lia. rewrite Ec, app_nil_r.
      rewrite xor_bytes_involutive by lia. unfold t. by apply take_ge.
    + assert (length t = 16%nat) as Ht' by (unfold t; rewrite length_take; lia).
      rewrite take_app_length', drop_app_length' by lia. rewrite H1, xor_bytes_involutive by lia. apply take_drop.
  - rewrite length_app, Hx, H4. unfold t. rewrite length_take. lia.
  - apply Forall_app_2; [|done]. apply xor_bytes_bytes; [by apply Forall_take|done].
Qed.

Lemma ccm_crypt_twice a nonce l :
  cipher_ok a -> length nonce = 13%nat -> bytes nonce -> bytes l ->
  ccm_crypt a nonce (ccm_crypt a nonce l) = l /\ length (ccm_crypt a nonce l) = length l /\ bytes (ccm_crypt a nonce l).
Proof.
  intros Ha Hn Hb Hl. unfold ccm_crypt. destruct (crypt_twice (length l) a nonce 1 l Ha Hn Hb Hl ltac:(lia)) as (H1 & H2 & H3).
  by rewrite H2.
Qed.

Lemma mac_msg_block fuel a x msg : cipher_ok a -> block x -> bytes msg -> block (mac_msg fuel a x msg).
Proof.
  intros Ha. revert x msg. induction fuel as [|fuel IH]; intros x msg Hx Hm; cbn [mac_msg]; [done|].
  destruct (zlen msg =? 0); [done|]. apply IH; [|by apply Forall_drop]. apply encrypt_is_block; [done|].
  destruct (pad16_block (take 16 msg)) as [L B]; [rewrite length_take; lia|by apply Forall_take|].
  destruct Hx as [Lx Bx]. split; [rewrite length_xor_bytes; lia|by apply xor_bytes_bytes].
Qed.

Lemma mac_aad_block fuel a x b fill aad :
  cipher_ok a -> block x -> block b -> 0 <= fill <= 16 -> bytes aad -> block (mac_aad fuel a x b fill aad).
Proof.
  intros Ha. revert x b fill aad. induction fuel as [|fuel IH]; intros x b fill aad Hx [Lb Bb] Hf Hm; cbn [mac_aad]; [done|].
  destruct (zlen aad =? 0); [done|]. apply IH; [|apply zero_block|lia|by apply Forall_drop].
  apply encrypt_is_block; [done|]. destruct Hx as [Lx Bx].
  assert (length (splice b (Z.to_nat fill) (take (Z.to_nat (16 - fill)) aad)) = 16%nat)
    by (rewrite length_splice; [done|rewrite length_take; lia]).
  split; [rewrite length_xor_bytes; lia|]. apply xor_bytes_bytes; [|done].
  apply Forall_splice; [done|by apply Forall_take].
Qed.

Lemma ccm_mac_block a nonce aad msg :
  cipher_ok a -> length nonce = 13%nat -> bytes nonce -> bytes aad -> bytes msg -> block (ccm_mac a nonce aad msg).
Proof.
  intros Ha Hn Hb Haad Hm. unfold ccm_mac. cbn zeta. apply mac_msg_block; [done| |done].
  set (x := encrypt_block a _). assert (block x) as Hx.
  { apply encrypt_is_block; [done|]. apply first_block; [apply u8_is_word|done|done]. }
  destruct (zlen aad =? 0); [done|]. apply mac_aad_block; [done|done| |lia|done].
  split; [rewrite length_splice; [done|cbn; lia]|]. apply Forall_splice; [apply zero_block|apply two_bytes].
Qed.

Lemma ccm_ctr_block a nonce i : cipher_ok a -> length nonce = 13%nat -> bytes nonce -> block (ccm_ctr a nonce i).
Proof.
  intros Ha Hn Hb. apply encrypt_is_block; [done|]. by apply first_block.
Qed.

(** The comparison of the MIC, all of it at once. *)
Lemma mic_check (mic t s0 : list Z) :
  length mic = 8%nat -> length t = 16%nat -> length s0 = 16%nat ->
  foldl Z.lor 0 (xor_bytes (xor_bytes mic t) s0) = 0 <-> take 8 (xor_bytes t s0) = mic.
Proof.
  intros Lm Lt Ls. replace (xor_bytes (xor_bytes mic t) s0) with (xor_bytes mic (take 8 (xor_bytes t s0))).
  - fold (difference mic (take 8 (xor_bytes t s0))). rewrite difference_zero; [done|].
    rewrite length_take, length_xor_bytes; lia.
  - unfold xor_bytes. do 9 (destruct mic as [|? mic]; try done). clear Lm.
    do 9 (destruct t as [|? t]; try done). do 9 (destruct s0 as [|? s0]; try done). cbn [zip_with take].
    by rewrite !Z.lxor_assoc.
Qed.

Lemma ccm_decrypt_iff a nonce aad ct mic out :
  cipher_ok a -> length nonce = 13%nat -> bytes nonce -> bytes aad -> bytes ct -> bytes out -> length mic = 8%nat ->
  ccm_decrypt a nonce aad ct mic = (true, out) <-> ccm_encrypt a nonce aad out = (ct, mic).
Proof.
  intros Ha Hn Hb Haad Hct Hout Hm. unfold ccm_decrypt, ccm_encrypt, CCMP_MIC_LEN. change (Z.to_nat 8) with 8%nat.
  destruct (ccm_crypt_twice a nonce ct Ha Hn Hb Hct) as (T1 & _ & B1).
  destruct (ccm_crypt_twice a nonce out Ha Hn Hb Hout) as (T2 & _ & _).
  rewrite (take_ge mic) by lia.
  pose proof (mic_check mic (ccm_mac a nonce aad (ccm_crypt a nonce ct)) (ccm_ctr a nonce 0) Hm) as Hc.
  rewrite Hc || specialize (Hc ltac:(by apply ccm_mac_block) ltac:(by apply ccm_ctr_block)).
  split; intros E.
  - pose proof (f_equal fst E) as E1. pose proof (f_equal snd E) as E2. cbn [fst snd] in E1, E2.
    apply Z.eqb_eq, Hc in E1. rewrite <- E2. by rewrite T1, E1.
  - pose proof (f_equal fst E) as E1. pose proof (f_equal snd E) as E2. cbn [fst snd] in E1, E2.
    rewrite <- E1, T2 in Hc |- *. f_equal. apply Z.eqb_eq, Hc. exact E2.
Qed.

(** ** The frame *)

Definition header_bits : list Z := [0x08; 0x10; 0x20].

Lemma aad_nonce_ok hdr hdr_len pn :
  bytes hdr -> 24 <= zlen hdr ->
  bytes (ccmp_aad_nonce hdr hdr_len pn).1 /\
  length (ccmp_aad_nonce hdr hdr_len pn).2 = 13%nat /\ bytes (ccmp_aad_nonce hdr hdr_len pn).2.
Proof.
  intros Hb Hl. unfold ccmp_aad_nonce. cbn zeta. cbn [fst snd].
  set (qos := (_ =? 2) && negb _). set (a4 := (_ =? 2) && (_ =? 3)). set (has := qos && _).
  assert (is_u8 (if has then u8 (hdr.[if a4 then 30 else 24] .& 15) else 0)) as Ht by (destruct has; [apply u8_is_word|by split]).
  set (tid := if has then u8 _ else 0) in *.
  assert (is_u8 hdr.[0]) as H0 by (apply Forall_getz; [by split|done]).
  split; [|split].
  - set (fc1 := u8 (hdr.[1] .& _) .| 0x40). assert (is_u8 fc1) as Hf by (apply is_word_lor; [done|apply u8_is_word|by split]).
    assert (bytes ([if (hdr.[0] .>> 2) .& 3 =? 2 then u8 (hdr.[0] .& 143) else hdr.[0]; if qos then fc1 .& u8 (Z.lnot 128) else fc1]
      ++ take 18 (drop 4 hdr) ++ [u8 (hdr.[22] .& 15); 0])) as Hm.
    { apply Forall_app_2; [|apply Forall_app_2; [by apply Forall_take, Forall_drop|]].
      - apply Forall_cons_2; [destruct (_ =? 2); [apply u8_is_word|done]|]. apply Forall_cons_2; [|apply Forall_nil_2].
        destruct qos; [by apply is_word_land_l|done].
      - apply Forall_cons_2; [apply u8_is_word|]. apply Forall_cons_2; [by split|apply Forall_nil_2]. }
    set (m := _ ++ _) in *. assert (bytes (if a4 then m ++ take 6 (drop 24 hdr) else m)) as Hm2
      by (destruct a4; [apply Forall_app_2; [done|by apply Forall_take, Forall_drop]|done]).
    destruct has; [|done]. apply Forall_app_2; [done|]. apply Forall_cons_2; [done|]. apply Forall_cons_2; [by split|apply Forall_nil_2].
  - rewrite !length_app, length_fmap, length_seqZ, length_take, length_drop. cbn [length]. lia.
  - apply Forall_app_2; [apply Forall_cons_2; [apply u8_is_word|apply Forall_nil_2]|].
    apply Forall_app_2; [by apply Forall_take, Forall_drop|]. apply Forall_fmap, List.Forall_forall. intros x _. apply u8_is_word.
Qed.

(** Only the first thirty two bytes of the buffer are read. *)
Lemma aad_nonce_prefix l r hdr_len pn :
  32 <= zlen l -> ccmp_aad_nonce (l ++ r) hdr_len pn = ccmp_aad_nonce l hdr_len pn.
Proof.
  intros Hl. unfold ccmp_aad_nonce.
  assert (forall i, 0 <= i < 32 -> (l ++ r).[i] = l.[i]) as Hg.
  { intros i Hi. rewrite getz_app by lia. by rewrite (proj2 (Z.ltb_lt _ _)) by lia. }
  assert (forall n m, (n + m <= 32)%nat -> take n (drop m (l ++ r)) = take n (drop m l)) as Ht.
  { intros n m Hnm. rewrite drop_app_le by lia. apply take_app_le. rewrite length_drop. lia. }
  rewrite !Hg by lia. rewrite !Ht by lia.
  set (a4 := (_ =? 2) && (_ =? 3)). rewrite (Hg (if a4 then 30 else 24)) by (destruct a4; lia). done.
Qed.

Lemma six_bytes a b c d e f : is_u8 a -> is_u8 b -> is_u8 c -> is_u8 d -> is_u8 e -> is_u8 f ->
  a .| (b .<< 8) .| (c .<< 16) .| (d .<< 24) .| (e .<< 32) .| (f .<< 40) =
  a + b * 2 ^ 8 + c * 2 ^ 16 + d * 2 ^ 24 + e * 2 ^ 32 + f * 2 ^ 40.
Proof.
  unfold is_word. intros. rewrite (lor_shiftl_add a b 8) by (unfold is_word; lia).
  rewrite (lor_shiftl_add _ c 16) by (unfold is_word; lia). rewrite (lor_shiftl_add _ d 24) by (unfold is_word; lia).
  rewrite (lor_shiftl_add _ e 32) by (unfold is_word; lia). rewrite (lor_shiftl_add _ f 40) by (unfold is_word; lia). done.
Qed.
(** The packet number out of the six bytes it was put into. *)
Lemma pn_bytes pn : is_word 48 pn ->
  u8 pn .| (u8 (pn .>> 8) .<< 8) .| (u8 (pn .>> 16) .<< 16) .| (u8 (pn .>> 24) .<< 24) .| (u8 (pn .>> 32) .<< 32) .| (u8 (pn .>> 40) .<< 40) = pn.
Proof.
  intros Hp. rewrite six_bytes by apply u8_is_word. rewrite !Z.shiftr_div_pow2 by done. unfold u8.
  unfold is_word in Hp. clear -Hp. dlia.
Qed.

Lemma ext_iv_bit x : u8 (0x20 .| x) .& 0x20 =? 0 = false.
Proof.
  apply Z.eqb_neq. intros E. apply (f_equal (fun y => Z.testbit y 5)) in E.
  rewrite Z.land_spec, testbit_u8, Z.lor_spec in E by done. done.
Qed.
Lemma protected_bit x : (x .| 0x40) .& 0x40 =? 0 = false.
Proof.
  apply Z.eqb_neq. intros E. apply (f_equal (fun y => Z.testbit y 6)) in E.
  rewrite Z.land_spec, Z.lor_spec, Z.testbit_0_l in E. change (Z.testbit 64 6) with true in E.
  by rewrite orb_true_r in E.
Qed.

(** What the header says that the nonce and the AAD are made of. *)
Definition same_claims (h h' : list Z) : Prop :=
  length h = length h' /\ h.[0] = h'.[0] /\
  h.[1] .& Z.lnot (0x08 .| 0x10 .| 0x20) = h'.[1] .& Z.lnot (0x08 .| 0x10 .| 0x20) /\
  take 18 (drop 4 h) = take 18 (drop 4 h') /\ h.[22] .& 0x0F = h'.[22] .& 0x0F /\ drop 24 h = drop 24 h'.

Lemma same_claims_aad h h' hdr_len pn :
  same_claims h h' -> 24 <= zlen h -> ccmp_aad_nonce h hdr_len pn = ccmp_aad_nonce h' hdr_len pn.
Proof.
  intros (Hl & H0 & H1 & Ht & H22 & Hd) Hlen. unfold ccmp_aad_nonce. rewrite H0, H1, H22, Ht, Hd.
  assert (h.[1] .& 3 = h'.[1] .& 3) as ->.
  { assert (forall x, x .& 3 = (x .& Z.lnot (0x08 .| 0x10 .| 0x20)) .& 3) as Hm
      by (intros x; by rewrite <- Z.land_assoc).
    by rewrite (Hm h.[1]), (Hm h'.[1]), H1. }
  assert (take 6 (drop 10 h) = take 6 (drop 10 h')) as ->.
  { assert (forall l : list Z, take 6 (drop 10 l) = take 6 (drop 6 (take 18 (drop 4 l)))) as Hm.
    { intros l. rewrite skipn_firstn_comm, drop_drop, take_take. done. }
    by rewrite (Hm h), (Hm h'), Ht. }
  set (a4 := (_ =? 2) && (_ =? 3)).
  assert (h.[if a4 then 30 else 24] = h'.[if a4 then 30 else 24]) as ->; [|done].
  assert (forall i, 24 <= i -> h.[i] = h'.[i]) as Hi.
  { intros i Hi. pose proof (f_equal (fun l => l.[i - 24]) Hd) as E. cbn beta in E. rewrite !getz_drop in E by lia.
    replace (i - 24 + Z.of_nat 24) with i in E by lia. done. }
  destruct a4; apply Hi; lia.
Qed.

Lemma encrypt_shape tk pn key_id hdr body :
  let out := hdr.[1 := hdr.[1] .| 0x40] in
  exists ch, length ch = 8%nat /\ bytes ch /\
    (ch.[3] .& 0x20 =? 0) = false /\
    (is_word 48 pn -> ch.[0] .| (ch.[1] .<< 8) .| (ch.[4] .<< 16) .| (ch.[5] .<< 24) .| (ch.[6] .<< 32) .| (ch.[7] .<< 40) = pn) /\
    ccmp_encrypt tk pn key_id hdr body =
      out ++ ch ++ (ccm_encrypt tk (ccmp_aad_nonce (out ++ ch) (zlen hdr) pn).2 (ccmp_aad_nonce (out ++ ch) (zlen hdr) pn).1 body).1 ++
      (ccm_encrypt tk (ccmp_aad_nonce (out ++ ch) (zlen hdr) pn).2 (ccmp_aad_nonce (out ++ ch) (zlen hdr) pn).1 body).2.
Proof.
  intros out. exists (ccmp_header pn key_id). split; [done|]. split; [|split; [|split]].
  4: { unfold ccmp_encrypt. fold out. destruct (ccmp_aad_nonce _ _ _) as [aad nonce].
       destruct (ccm_encrypt _ _ _ _) as [ct mic]. cbn [fst snd]. reflexivity. }
  - repeat apply Forall_cons_2; try apply u8_is_word; [by split|apply Forall_nil_2].
  - apply ext_iv_bit.
  - apply pn_bytes.
Qed.

(** C35: decrypting a frame ccmp_encrypt made gives back its body and its packet
    number, for any header, payload and 48 bit number, also when on the way the retry,
    power management and more data bits, the duration or the sequence number were
    changed. *)
Theorem ccmp_roundtrip tk pn key_id hdr body sent :
  cipher_ok tk -> bytes hdr -> 24 <= zlen hdr -> bytes body -> is_word 48 pn ->
  let frame := ccmp_encrypt tk pn key_id hdr body in
  same_claims frame sent -> bytes sent -> 0x40 = sent.[1] .& 0x40 ->
  zlen frame = zlen hdr + CCMP_HDR_LEN + zlen body + CCMP_MIC_LEN /\
  ccmp_decrypt tk sent (zlen hdr) = Some (body, pn).
Proof.
  intros Ha Hh Hl Hb Hpn frame Hs Hsb Hprot.
  destruct (encrypt_shape tk pn key_id hdr body) as (ch & Lch & Bch & Hext & Hp & Ef). fold frame in Ef.
  set (out := hdr.[1 := hdr.[1] .| 0x40]) in *. assert (zlen out = zlen hdr) as Lo by (unfold out; by rewrite length_setz).
  assert (bytes out) as Bo.
  { apply Forall_setz; [done|]. apply is_word_lor; [done|apply Forall_getz; [by split|done]|by split]. }
  set (an := ccmp_aad_nonce (out ++ ch) (zlen hdr) pn) in *.
  destruct (aad_nonce_ok (out ++ ch) (zlen hdr) pn) as (Ba & Ln & Bn); [by apply Forall_app_2|rewrite length_app; lia|].
  fold an in Ba, Ln, Bn. set (e := ccm_encrypt tk an.2 an.1 body) in *.
  destruct (ccm_crypt_twice tk an.2 body Ha Ln Bn Hb) as (_ & Lc & Bc).
  assert (zlen e.1 = zlen body) as Le by (unfold e, ccm_encrypt; cbn [fst]; by rewrite Lc).
  assert (length e.2 = 8%nat) as Lm.
  { unfold e, ccm_encrypt, CCMP_MIC_LEN. cbn [snd]. destruct (ccm_mac_block tk an.2 an.1 body Ha Ln Bn Ba Hb) as [L1 _].
    destruct (ccm_ctr_block tk an.2 0 Ha Ln Bn) as [L2 _]. rewrite length_take, length_xor_bytes; lia. }
  assert (zlen frame = zlen hdr + CCMP_HDR_LEN + zlen body + CCMP_MIC_LEN) as Lf.
  { rewrite Ef, !length_app. unfold CCMP_HDR_LEN, CCMP_MIC_LEN. lia. }
  split; [done|]. pose proof Hs as (Hl' & _ & _ & _ & _ & Hd). unfold ccmp_decrypt.
  rewrite <- Hl', Lf, (proj2 (Z.ltb_ge _ _)), <- Hprot by (unfold CCMP_HDR_LEN, CCMP_MIC_LEN; lia). cbn [orb Z.eqb].
  assert (forall n, (24 <= n)%nat -> drop n sent = drop n frame) as Hdrop.
  { intros n Hn. replace n with (24 + (n - 24))%nat by lia. by rewrite <- !drop_drop, Hd. }
  unfold CCMP_HDR_LEN, CCMP_MIC_LEN in *. rewrite !Hdrop by lia.
  assert (drop (Z.to_nat (zlen hdr)) frame = ch ++ e.1 ++ e.2) as Hch by (rewrite Ef; apply drop_app_length'; lia).
  rewrite Hch.
  assert (forall i, 0 <= i < 8 -> (ch ++ e.1 ++ e.2).[i] = ch.[i]) as Hg
    by (intros i Hi; rewrite getz_app by lia; by rewrite (proj2 (Z.ltb_lt _ _)) by lia).
  rewrite !Hg, Hext, (Hp Hpn) by lia.
  assert (ccmp_aad_nonce sent (zlen hdr) pn = an) as Han.
  { rewrite <- (same_claims_aad frame sent) by (done || lia). rewrite Ef, app_assoc. apply aad_nonce_prefix. rewrite length_app. lia. }
  rewrite Han. destruct an as [aad nonce]. cbn [fst snd] in *.
  replace (Z.to_nat (zlen hdr + 8 + zlen body + 8 - zlen hdr - 8 - 8)) with (length e.1) by lia.
  rewrite drop_app_length' by lia. rewrite take_app_length.
  assert (drop (Z.to_nat (zlen hdr + 8 + zlen body + 8 - 8)) frame = e.2) as ->.
  { rewrite Ef, !app_assoc. apply drop_app_length'. rewrite !length_app. lia. }
  assert (ccm_decrypt tk nonce aad e.1 e.2 = (true, body)) as ->; [|done].
  apply ccm_decrypt_iff; try done.
Qed.

(** Ccm_decrypt accepts exactly what ccm_encrypt makes: it says true and leaves
    [out] just when encrypting [out] gives that cipher text and that MIC. *)
Theorem ccm_accepts_only_encrypted a nonce aad ct mic out :
  cipher_ok a -> length nonce = 13%nat -> bytes nonce -> bytes aad -> bytes ct -> bytes out -> length mic = 8%nat ->
  ccm_decrypt a nonce aad ct mic = (true, out) <-> ccm_encrypt a nonce aad out = (ct, mic).
Proof. apply ccm_decrypt_iff. Qed.
End ccm.

Definition test_key : aes := Eval vm_compute in (aes_set_key stack_aes key128 128).1.
Lemma test_key_ok : cipher_ok test_key.
Proof. constructor; [discriminate|discriminate|]. apply bytes_check. vm_compute. reflexivity. Qed.
(** A QoS data frame from the DS, and it with the retry bit set. *)
Definition test_hdr : list Z := [0x88; 0x02; 0x2c; 0x00] ++ seqZ 1 18 ++ [0x31; 0x02; 0x05; 0x00].
Definition test_frame : list Z := Eval vm_compute in ccmp_encrypt test_key 0x0102030405 1 test_hdr [9; 8; 7].
Definition test_sent : list Z := test_frame.[1 := test_frame.[1] .| 8].

Lemma ccmp_roundtrip_witness : ccmp_decrypt test_key test_sent 26 = Some ([9; 8; 7], 0x0102030405).
Proof.
  assert (bytes test_hdr) as B1 by (apply bytes_check; vm_compute; reflexivity).
  assert (bytes [9; 8; 7]) as B2 by (apply bytes_check; vm_compute; reflexivity).
  assert (bytes test_sent) as B3 by (apply bytes_check; vm_compute; reflexivity).
  assert (is_word 48 0x0102030405) as Hp by (split; [discriminate|reflexivity]).
  assert (same_claims (ccmp_encrypt test_key 0x0102030405 1 test_hdr [9; 8; 7]) test_sent) as Hs
    by (unfold same_claims; repeat match goal with |- _ /\ _ => split end; vm_compute; reflexivity).
  assert (24 <= zlen test_hdr) as Hl by (vm_compute; discriminate).
  assert (0x40 = test_sent.[1] .& 0x40) as Hb by (vm_compute; reflexivity).
  pose proof (ccmp_roundtrip (H := aes_cipher) test_key 0x0102030405 1 test_hdr [9; 8; 7] test_sent test_key_ok B1 Hl B2 Hp) as H.
  cbv zeta in H. exact (proj2 (H Hs B3 Hb)).
Defined.

Definition test_sealed : list Z * list Z := Eval vm_compute in ccm_encrypt test_key (replicate 13 1) [2] [3; 4].
Lemma ccm_accepts_only_encrypted_witness :
  ccm_decrypt test_key (replicate 13 1) [2] test_sealed.1 test_sealed.2 = (true, [3; 4]).
Proof.
  assert (bytes (replicate 13 1) /\ bytes [2] /\ bytes test_sealed.1 /\ bytes [3; 4]) as (B1 & B2 & B3 & B4)
    by (repeat split; apply bytes_check; vm_compute; reflexivity).
  assert (ccm_encrypt test_key (replicate 13 1) [2] [3; 4] = (test_sealed.1, test_sealed.2)) as E by (vm_compute; reflexivity).
  exact (proj2 (ccm_accepts_only_encrypted (H := aes_cipher) test_key (replicate 13 1) [2] test_sealed.1 test_sealed.2 [3; 4]
    test_key_ok eq_refl B1 B2 B3 B4 eq_refl) E).
Defined.
