(* ===== verification/X25519.v ===== *)
(** X25519 (kernel/x25519.c, include/x25519.h): field elements as five limbs of
    fifty one bits, the Montgomery ladder, and the key agreement; proved equal
    to the function of RFC 7748 over the integers modulo 2^255 - 19. *)
From S2P Require Import Prelude.

(** ** The code *)

(** [typedef u64 fe[5]]. *)
#[local] Notation fe := (list Z).

Definition MASK51 : Z := 0x7ffffffffffff.
Definition X25519_LEN : nat := 32.

Definition fe_zero : fe := [0; 0; 0; 0; 0].
Definition fe_one : fe := fe_zero.[0 := 1].

Definition fe_add (f g : fe) : fe := zip_with (fun x y => u64 (x + y)) f g.

Definition fe_sub (f g : fe) : fe :=
  [u64 (f.[0] + 0xfffffffffffda - g.[0]); u64 (f.[1] + 0xffffffffffffe - g.[1]);
   u64 (f.[2] + 0xffffffffffffe - g.[2]); u64 (f.[3] + 0xffffffffffffe - g.[3]);
   u64 (f.[4] + 0xffffffffffffe - g.[4])].

Definition fe_carry (h : fe) : fe :=
  let c := h.[0] .>> 51 in let h0 := h.[0] .& MASK51 in let h1 := u64 (h.[1] + c) in
  let c := h1 .>> 51 in let h1 := h1 .& MASK51 in let h2 := u64 (h.[2] + c) in
  let c := h2 .>> 51 in let h2 := h2 .& MASK51 in let h3 := u64 (h.[3] + c) in
  let c := h3 .>> 51 in let h3 := h3 .& MASK51 in let h4 := u64 (h.[4] + c) in
  let c := h4 .>> 51 in let h4 := h4 .& MASK51 in let h0 := u64 (h0 + u64 (c * 19)) in
  let c := h0 .>> 51 in let h0 := h0 .& MASK51 in let h1 := u64 (h1 + c) in
  [h0; h1; h2; h3; h4].

(** The carries of the double width sums, low to high: the limbs, and what
    runs over the top. *)
Definition carry_chain (t : list Z) : fe * Z :=
  let t1 := u128 (t.[1] + u64 (t.[0] .>> 51)) in let out0 := u64 t.[0] .& MASK51 in
  let t2 := u128 (t.[2] + u64 (t1 .>> 51)) in let out1 := u64 t1 .& MASK51 in
  let t3 := u128 (t.[3] + u64 (t2 .>> 51)) in let out2 := u64 t2 .& MASK51 in
  let t4 := u128 (t.[4] + u64 (t3 .>> 51)) in let out3 := u64 t3 .& MASK51 in
  let c := u64 (t4 .>> 51) in let out4 := u64 t4 .& MASK51 in
  ([out0; out1; out2; out3; out4], c).

(** The five double width sums of a product. *)
Definition mul_sums (f g : fe) : list Z :=
  [u128 (f.[0] * g.[0] + 19 * (f.[1] * g.[4] + f.[2] * g.[3] + f.[3] * g.[2] + f.[4] * g.[1]));
   u128 (f.[0] * g.[1] + f.[1] * g.[0] + 19 * (f.[2] * g.[4] + f.[3] * g.[3] + f.[4] * g.[2]));
   u128 (f.[0] * g.[2] + f.[1] * g.[1] + f.[2] * g.[0] + 19 * (f.[3] * g.[4] + f.[4] * g.[3]));
   u128 (f.[0] * g.[3] + f.[1] * g.[2] + f.[2] * g.[1] + f.[3] * g.[0] + 19 * (f.[4] * g.[4]));
   u128 (f.[0] * g.[4] + f.[1] * g.[3] + f.[2] * g.[2] + f.[3] * g.[1] + f.[4] * g.[0])].

Definition fe_mul (f g : fe) : fe :=
  let '(out, c) := carry_chain (mul_sums f g) in
  let out0 := u64 (out.[0] + u64 (c * 19)) in
  let c := out0 .>> 51 in let out0 := out0 .& MASK51 in let out1 := u64 (out.[1] + c) in
  let c := out1 .>> 51 in let out1 := out1 .& MASK51 in let out2 := u64 (out.[2] + c) in
  [out0; out1; out2; out.[3]; out.[4]].

Definition fe_sq (f : fe) : fe := fe_mul f f.

Definition fe_mul121665 (f : fe) : fe :=
  let '(out, c) := carry_chain ((fun x => u128 (x * 121665)) <$> f) in
  let out0 := u64 (out.[0] + u64 (c * 19)) in
  let c := out0 .>> 51 in let out0 := out0 .& MASK51 in let out1 := u64 (out.[1] + c) in
  [out0; out1; out.[2]; out.[3]; out.[4]].

Definition fe_cswap (a b : fe) (bit : Z) : fe * fe :=
  let mask := u64 (0 - bit) in
  let x := zip_with (fun p q => mask .& (p .^ q)) a b in
  (zip_with Z.lxor a x, zip_with Z.lxor b x).

Definition load64 (s : list Z) (i : Z) : Z :=
  for_range 0 8 (fun j w => w .| (s.[i * 8 + j] .<< (j * 8))) 0.

Definition fe_frombytes (s : list Z) : fe :=
  let w := load64 s <$> [0; 1; 2; 3] in
  [w.[0] .& MASK51;
   ((w.[0] .>> 51) .| u64 (w.[1] .<< 13)) .& MASK51;
   ((w.[1] .>> 38) .| u64 (w.[2] .<< 26)) .& MASK51;
   ((w.[2] .>> 25) .| u64 (w.[3] .<< 39)) .& MASK51;
   (w.[3] .>> 12) .& MASK51].

(** Whether the element is not below the modulus, from its carry. *)
Definition tobytes_q (t : fe) : Z :=
  let q := u64 (t.[0] + 19) .>> 51 in
  let q := u64 (t.[1] + q) .>> 51 in
  let q := u64 (t.[2] + q) .>> 51 in
  let q := u64 (t.[3] + q) .>> 51 in
  u64 (t.[4] + q) .>> 51.

(** The modulus taken off when [q] says so. *)
Definition tobytes_reduce (t : fe) : fe :=
  let t0 := u64 (t.[0] + u64 (19 * tobytes_q t)) in
  let c := t0 .>> 51 in let t0 := t0 .& MASK51 in let t1 := u64 (t.[1] + c) in
  let c := t1 .>> 51 in let t1 := t1 .& MASK51 in let t2 := u64 (t.[2] + c) in
  let c := t2 .>> 51 in let t2 := t2 .& MASK51 in let t3 := u64 (t.[3] + c) in
  let c := t3 .>> 51 in let t3 := t3 .& MASK51 in let t4 := u64 (t.[4] + c) in
  [t0; t1; t2; t3; t4 .& MASK51].

Definition tobytes_words (t : fe) : list Z :=
  [t.[0] .| u64 (t.[1] .<< 51);
   (t.[1] .>> 13) .| u64 (t.[2] .<< 38);
   (t.[2] .>> 26) .| u64 (t.[3] .<< 25);
   (t.[3] .>> 39) .| u64 (t.[4] .<< 12)].

Definition fe_tobytes (f : fe) : list Z :=
  let w := tobytes_words (tobytes_reduce (fe_carry f)) in
  mjoin ((fun i => (fun j => u8 (w.[i] .>> (j * 8))) <$> seqZ 0 8) <$> seqZ 0 4).

(** [for (i = 0; i < n; i++) fe_sq(t, t)]. *)
Definition fe_nsq (n : Z) (t : fe) : fe := for_range 0 n (fun _ t => fe_sq t) t.

Definition fe_invert (z : fe) : fe :=
  let z2 := fe_sq z in
  let t := fe_sq (fe_sq z2) in
  let z9 := fe_mul t z in
  let z11 := fe_mul z9 z2 in
  let t := fe_sq z11 in
  let z2_5_0 := fe_mul t z9 in
  let t := fe_nsq 4 (fe_sq z2_5_0) in
  let z2_10_0 := fe_mul t z2_5_0 in
  let t := fe_nsq 9 (fe_sq z2_10_0) in
  let z2_20_0 := fe_mul t z2_10_0 in
  let t := fe_nsq 19 (fe_sq z2_20_0) in
  let t := fe_mul t z2_20_0 in
  let t := fe_nsq 10 t in
  let z2_50_0 := fe_mul t z2_10_0 in
  let t := fe_nsq 49 (fe_sq z2_50_0) in
  let z2_100_0 := fe_mul t z2_50_0 in
  let t := fe_nsq 99 (fe_sq z2_100_0) in
  let t := fe_mul t z2_100_0 in
  let t := fe_nsq 50 t in
  let t := fe_mul t z2_50_0 in
  let t := fe_nsq 5 t in
  fe_mul t z11.

(** The variables of the ladder that live across its steps. *)
Record ladder_vars := LadderVars { lx2 : fe; lz2 : fe; lx3 : fe; lz3 : fe; lswap : Z }.

Definition ladder_step (scalar : list Z) (x1 : fe) (pos : Z) (v : ladder_vars) : ladder_vars :=
  let bit := (scalar.[pos .>> 3] .>> (pos .& 7)) .& 1 in
  let swap := lswap v .^ bit in
  let '(x2, x3) := fe_cswap (lx2 v) (lx3 v) swap in
  let '(z2, z3) := fe_cswap (lz2 v) (lz3 v) swap in
  let swap := bit in
  let a := fe_carry (fe_add x2 z2) in
  let aa := fe_sq a in
  let b := fe_carry (fe_sub x2 z2) in
  let bb := fe_sq b in
  let e := fe_carry (fe_sub aa bb) in
  let c := fe_carry (fe_add x3 z3) in
  let d := fe_carry (fe_sub x3 z3) in
  let da := fe_mul d a in
  let cb := fe_mul c b in
  let t := fe_carry (fe_add da cb) in
  let x3 := fe_sq t in
  let t := fe_carry (fe_sub da cb) in
  let t := fe_sq t in
  let z3 := fe_mul x1 t in
  let x2 := fe_mul aa bb in
  let t := fe_mul121665 e in
  let t := fe_carry (fe_add t aa) in
  let z2 := fe_mul e t in
  LadderVars x2 z2 x3 z3 swap.

Definition ladder (scalar : list Z) (x1 : fe) : fe * fe :=
  let v := for_down 0 255 (ladder_step scalar x1) (LadderVars fe_one fe_zero x1 fe_one 0) in
  (fst (fe_cswap (lx2 v) (lx3 v) (lswap v)), fst (fe_cswap (lz2 v) (lz3 v) (lswap v))).

Definition clamp (secret : list Z) : list Z :=
  let k := take 32 secret in
  let k := k.[0 := k.[0] .& 248] in
  let k := k.[31 := k.[31] .& 127] in
  k.[31 := k.[31] .| 64].

Definition all_zero (p : list Z) : bool := for_range 0 32 (fun i acc => acc .| p.[i]) 0 =? 0.

Definition x25519 (secret peer : list Z) : bool * list Z :=
  let k := clamp secret in
  let x1 := fe_frombytes peer in
  let '(x2, z2) := ladder k x1 in
  let zi := fe_invert z2 in
  let x2 := fe_mul x2 zi in
  let out := fe_tobytes x2 in
  if all_zero out then (false, replicate X25519_LEN 0) else (true, out).

Definition base_point : list Z := [9] ++ replicate 31 0.

Definition x25519_public (secret : list Z) : list Z := snd (x25519 secret base_point).

(** ** The specification: RFC 7748 over the integers modulo p *)

Definition p25519 : Z := 2 ^ 255 - 19.

Definition decode_scalar (secret : list Z) : Z := (le_val secret / 8 * 8) mod 2 ^ 254 + 2 ^ 254.
Definition decode_u (peer : list Z) : Z := le_val peer mod 2 ^ 255.

Record rfc_vars := RfcVars { rx2 : Z; rz2 : Z; rx3 : Z; rz3 : Z; rswap : bool }.

Definition rfc_step (k x1 : Z) (t : Z) (v : rfc_vars) : rfc_vars :=
  let k_t := Z.testbit k t in
  let swap := xorb (rswap v) k_t in
  let x2 := if swap then rx3 v else rx2 v in let x3 := if swap then rx2 v else rx3 v in
  let z2 := if swap then rz3 v else rz2 v in let z3 := if swap then rz2 v else rz3 v in
  let A := x2 + z2 in let AA := A ^ 2 in
  let B := x2 - z2 in let BB := B ^ 2 in
  let E := AA - BB in
  let C := x3 + z3 in let D := x3 - z3 in
  let DA := D * A in let CB := C * B in
  RfcVars ((AA * BB) mod p25519) ((E * (AA + 121665 * E)) mod p25519)
    (((DA + CB) ^ 2) mod p25519) ((x1 * (DA - CB) ^ 2) mod p25519) k_t.

Definition rfc_ladder (k x1 : Z) : Z * Z :=
  let v := for_down 0 255 (rfc_step k x1) (RfcVars 1 0 x1 1 false) in
  if rswap v then (rx3 v, rz3 v) else (rx2 v, rz2 v).

(** The result as a number: x2 * z2^(p - 2), reduced. *)
Definition rfc_x25519 (k u : Z) : Z :=
  let '(x2, z2) := rfc_ladder k u in (x2 * z2 ^ (2 ^ 255 - 21)) mod p25519.

(** ** The field operations *)

Definition fe_val (h : fe) : Z :=
  h.[0] + 2251799813685248 * h.[1] + 5070602400912917605986812821504 * h.[2] +
  11417981541647679048466287755595961091061972992 * h.[3] +
  25711008708143844408671393477458601640355247900524685364822016 * h.[4].

(** Five limbs, each below a bound. *)
Definition limbs (b : Z) (h : fe) : Prop := length h = 5%nat /\ Forall (fun x => 0 <= x < b) h.
(** What every operation of the ladder takes and leaves: limbs of at most 2^51. *)
Notation tight := (limbs 2251799813685249).
Notation loose := (limbs 18014398509481984).

Lemma limbs_cases b h : limbs b h ->
  exists h0 h1 h2 h3 h4, h = [h0; h1; h2; h3; h4] /\
    0 <= h0 < b /\ 0 <= h1 < b /\ 0 <= h2 < b /\ 0 <= h3 < b /\ 0 <= h4 < b.
Proof.
  intros [Hl H]. destruct h as [|h0 [|h1 [|h2 [|h3 [|h4 [|]]]]]]; try done.
  rewrite !Forall_cons_iff in H. exists h0, h1, h2, h3, h4. naive_solver.
Qed.
Lemma limbs_intro b h0 h1 h2 h3 h4 :
  0 <= h0 < b -> 0 <= h1 < b -> 0 <= h2 < b -> 0 <= h3 < b -> 0 <= h4 < b -> limbs b [h0; h1; h2; h3; h4].
Proof. intros. split; [done|]. by repeat (apply Forall_cons_2; [done|]). Qed.
Ltac limbs_of H := destruct (limbs_cases _ _ H) as (?&?&?&?&?&->&?&?&?&?&?).
Lemma limbs_le b c h : limbs b h -> b <= c -> limbs c h.
Proof. intros H Hbc. limbs_of H. apply limbs_intro; lia. Qed.

Lemma mask51 x : x .& MASK51 = x mod 2251799813685248.
Proof. change MASK51 with (Z.ones 51). by rewrite Z.land_ones. Qed.
Lemma shr51 x : x .>> 51 = x / 2251799813685248.
Proof. by rewrite Z.shiftr_div_pow2. Qed.

(** [u64 x] and [u128 x] of a number that fits. *)
Lemma u64_small x : 0 <= x < 18446744073709551616 -> u64 x = x.
Proof. apply u64_id. Qed.
Lemma u128_small x : 0 <= x < 340282366920938463463374607431768211456 -> u128 x = x.
Proof. apply u128_id. Qed.
Lemma carry_split x : exists q r,
  x / 2251799813685248 = q /\ x mod 2251799813685248 = r /\ x = r + 2251799813685248 * q /\ 0 <= r < 2251799813685248.
Proof. exists (x / 2251799813685248), (x mod 2251799813685248). dlia. Qed.

Lemma get0 (a : Z) l : (a :: l).[0] = a.
Proof. done. Qed.
Lemma get1 (a b : Z) l : (a :: b :: l).[1] = b.
Proof. done. Qed.
Lemma get2 (a b c : Z) l : (a :: b :: c :: l).[2] = c.
Proof. done. Qed.
Lemma get3 (a b c d : Z) l : (a :: b :: c :: d :: l).[3] = d.
Proof. done. Qed.
Lemma get4 (a b c d e : Z) l : (a :: b :: c :: d :: e :: l).[4] = e.
Proof. done. Qed.
Ltac limb_cbn := cbn [fst snd zip_with fmap list_fmap]; rewrite ?get0, ?get1, ?get2, ?get3, ?get4.
(** One carry: the innermost quotient and remainder become variables, and the
    words that now fit lose their conversion. *)
Ltac no_carry x := lazymatch x with
  | context [_ / _] => fail | context [_ mod _] => fail | context [u64 _] => fail | context [u128 _] => fail | _ => idtac end.
Ltac carry_one :=
  match goal with
  | |- context [u64 ?x] => no_carry x; rewrite (u64_small x) by lia
  | |- context [u128 ?x] => no_carry x; rewrite (u128_small x) by lia
  | |- context [?x / 2251799813685248] => no_carry x;
      destruct (carry_split x) as (?&?&?Hquo&?Hrem&?&?); rewrite ?Hquo, ?Hrem; clear Hquo Hrem
  | |- context [?x mod 2251799813685248] => no_carry x;
      destruct (carry_split x) as (?&?&?Hquo&?Hrem&?&?); rewrite ?Hquo, ?Hrem; clear Hquo Hrem
  end.

(** Congruence modulo p from an explicit multiple of it. *)
Lemma mod_p_eq a b k : a = b + k * p25519 -> a mod p25519 = b mod p25519.
Proof. intros ->. by apply Z.mod_add. Qed.

Definition p25519_lit : p25519 = 57896044618658097711785492504343953926634992332820282019728792003956564819949 := eq_refl.
Ltac val_lia := unfold fe_val; limb_cbn; rewrite ?p25519_lit; lia.

Lemma fe_carry_ok h : limbs 9223372036854775808 h ->
  tight (fe_carry h) /\ fe_val (fe_carry h) mod p25519 = fe_val h mod p25519.
Proof.
  intros H. limbs_of H. unfold fe_carry. limb_cbn.
  rewrite !mask51, !shr51. repeat carry_one. split; [apply limbs_intro; lia|].
  match goal with H : _ + ?c * 19 = _ |- _ => apply (mod_p_eq _ _ (- c)) end. val_lia.
Qed.

Lemma fe_add_ok f g : tight f -> tight g ->
  limbs 9223372036854775808 (fe_add f g) /\ fe_val (fe_add f g) = fe_val f + fe_val g.
Proof.
  intros Hf Hg. limbs_of Hf. limbs_of Hg. unfold fe_add. limb_cbn. repeat carry_one.
  split; [apply limbs_intro; lia|val_lia].
Qed.
Lemma fe_sub_ok f g : tight f -> tight g ->
  limbs 9223372036854775808 (fe_sub f g) /\ fe_val (fe_sub f g) = fe_val f - fe_val g + 2 * p25519.
Proof.
  intros Hf Hg. limbs_of Hf. limbs_of Hg. unfold fe_sub. limb_cbn. repeat carry_one.
  split; [apply limbs_intro; lia|val_lia].
Qed.

(** The double width sums that a carry chain can take: the bounds a product of
    loose elements stays under. *)
Definition chain_in (t : list Z) : Prop :=
  length t = 5%nat /\ Forall (fun x => 0 <= x < 77 * 2 ^ 108) t /\ t.[4] < 5 * 2 ^ 108.

Lemma carry_chain_ok t : chain_in t ->
  exists o0 o1 o2 o3 o4 c,
    carry_chain t = ([o0; o1; o2; o3; o4], c) /\
    limbs 2251799813685248 [o0; o1; o2; o3; o4] /\ 0 <= c /\ c * 2251799813685248 <= t.[4] + 2 ^ 64 /\
    fe_val [o0; o1; o2; o3; o4] + 2 ^ 255 * c = fe_val t.
Proof.
  intros (Hl & H & H4). destruct t as [|t0 [|t1 [|t2 [|t3 [|t4 [|]]]]]]; try done.
  rewrite get4 in *. rewrite !Forall_cons_iff in H. destruct H as (?&?&?&?&?&_).
  assert (forall x, u64 x mod 2251799813685248 = x mod 2251799813685248) as Hm.
  { intros x. unfold u64. by rewrite <- Znumtheory.Zmod_div_mod by (done || by exists 8192). }
  unfold carry_chain. limb_cbn. rewrite !mask51, !shr51, !Hm. repeat carry_one.
  do 6 eexists. split; [reflexivity|]. split; [apply limbs_intro; lia|]. split; [lia|]. split; [lia|val_lia].
Qed.

Lemma prod_bound x y : 0 <= x < 18014398509481984 -> 0 <= y < 18014398509481984 -> 0 <= x * y < 2 ^ 108.
Proof. nia. Qed.

(** The same sums without the width, and a bound for all of them. *)
Definition exact_sums (f g : fe) : list Z :=
  [f.[0] * g.[0] + 19 * (f.[1] * g.[4] + f.[2] * g.[3] + f.[3] * g.[2] + f.[4] * g.[1]);
   f.[0] * g.[1] + f.[1] * g.[0] + 19 * (f.[2] * g.[4] + f.[3] * g.[3] + f.[4] * g.[2]);
   f.[0] * g.[2] + f.[1] * g.[1] + f.[2] * g.[0] + 19 * (f.[3] * g.[4] + f.[4] * g.[3]);
   f.[0] * g.[3] + f.[1] * g.[2] + f.[2] * g.[1] + f.[3] * g.[0] + 19 * (f.[4] * g.[4]);
   f.[0] * g.[4] + f.[1] * g.[3] + f.[2] * g.[2] + f.[3] * g.[1] + f.[4] * g.[0]].

Lemma mul_sums_exact f g : loose f -> loose g -> mul_sums f g = exact_sums f g /\ chain_in (exact_sums f g).
Proof.
  intros Hf Hg.
  destruct (limbs_cases _ _ Hf) as (f0&f1&f2&f3&f4&->&?&?&?&?&?).
  destruct (limbs_cases _ _ Hg) as (g0&g1&g2&g3&g4&->&?&?&?&?&?).
  unfold mul_sums, exact_sums, chain_in. limb_cbn.
  repeat match goal with
  | |- context [?x * ?y] => is_var x; is_var y;
      pose proof (prod_bound x y ltac:(done) ltac:(done)); generalize dependent (x * y); intros
  end.
  rewrite !u128_small by lia. split; [done|]. split; [done|]. split; [|lia].
  repeat (apply Forall_cons_2; [lia|]). by apply Forall_nil.
Qed.

Lemma exact_sums_val f g : length f = 5%nat -> length g = 5%nat ->
  fe_val (exact_sums f g) mod p25519 = (fe_val f * fe_val g) mod p25519.
Proof.
  destruct f as [|f0 [|f1 [|f2 [|f3 [|f4 [|]]]]]]; try done. destruct g as [|g0 [|g1 [|g2 [|g3 [|g4 [|]]]]]]; try done.
  intros _ _. apply (mod_p_eq _ _ (- (f1 * g4 + f2 * g3 + f3 * g2 + f4 * g1 +
    2 ^ 51 * (f2 * g4 + f3 * g3 + f4 * g2) + 2 ^ 102 * (f3 * g4 + f4 * g3) + 2 ^ 153 * (f4 * g4)))).
  unfold fe_val, exact_sums. limb_cbn. rewrite p25519_lit. ring.
Qed.

Lemma mod_sub_p a c : (a + 2 ^ 255 * c) mod p25519 = (a + 19 * c) mod p25519.
Proof. apply (mod_p_eq _ _ c). rewrite p25519_lit. lia. Qed.

Lemma fe_mul_ok f g : loose f -> loose g ->
  tight (fe_mul f g) /\ fe_val (fe_mul f g) mod p25519 = (fe_val f * fe_val g) mod p25519.
Proof.
  intros Hf Hg. destruct (mul_sums_exact f g Hf Hg) as [He Hc].
  destruct (carry_chain_ok _ Hc) as (o0&o1&o2&o3&o4&c&Hch&Ho&Hc0&Hc1&Hv).
  unfold fe_mul. rewrite He, Hch. destruct Hc as (_&_&H4).
  rewrite <- exact_sums_val by (apply Hf || apply Hg). rewrite <- Hv, mod_sub_p. clear Hv Hch He.
  generalize dependent (exact_sums f g).[4]. intros t4 ??. limbs_of Ho. simplify_eq.
  limb_cbn. rewrite !mask51, !shr51. repeat carry_one.
  split; [apply limbs_intro; lia|]. f_equal. val_lia.
Qed.

Lemma fe_mul121665_ok f : loose f ->
  tight (fe_mul121665 f) /\ fe_val (fe_mul121665 f) mod p25519 = (fe_val f * 121665) mod p25519.
Proof.
  intros Hf. destruct (limbs_cases _ _ Hf) as (f0&f1&f2&f3&f4&->&?&?&?&?&?).
  unfold fe_mul121665. limb_cbn. rewrite !u128_small by lia.
  destruct (carry_chain_ok [f0 * 121665; f1 * 121665; f2 * 121665; f3 * 121665; f4 * 121665])
    as (o0&o1&o2&o3&o4&c&Hch&Ho&Hc0&Hc1&Hv).
  { split; [done|]. split; [|rewrite get4; lia]. repeat (apply Forall_cons_2; [lia|]). by apply Forall_nil. }
  rewrite Hch. rewrite get4 in Hc1.
  replace (fe_val [f0; f1; f2; f3; f4] * 121665) with (fe_val [o0; o1; o2; o3; o4] + 2 ^ 255 * c) by (rewrite Hv; val_lia).
  rewrite mod_sub_p. clear Hv Hch. limbs_of Ho. simplify_eq.
  limb_cbn. rewrite !mask51, !shr51. repeat carry_one.
  split; [apply limbs_intro; lia|]. f_equal. val_lia.
Qed.

Lemma fe_cswap_0 a b : length a = length b -> fe_cswap a b 0 = (a, b).
Proof.
  intros Hl. unfold fe_cswap. change (u64 (0 - 0)) with 0.
  assert (forall l, length l = length b -> zip_with Z.lxor l (zip_with (fun p q => 0 .& (p .^ q)) a b) = l) as H.
  { revert b Hl. induction a as [|x a IH]; intros [|y b] Hl [|z l] Hz; cbn [length zip_with] in *; try done.
    f_equal; [apply Z.lxor_0_r|]. apply IH; lia. }
  by rewrite !H.
Qed.
Lemma ones64_land x : is_u64 x -> 18446744073709551615 .& x = x.
Proof.
  intros. change 18446744073709551615 with (Z.ones 64). rewrite Z.land_comm, Z.land_ones by done. by apply Z.mod_small.
Qed.
Lemma fe_cswap_1 a b : length a = length b -> Forall (is_word 64) a -> Forall (is_word 64) b -> fe_cswap a b 1 = (b, a).
Proof.
  intros Hl Ha Hb. unfold fe_cswap. change (u64 (0 - 1)) with 18446744073709551615. f_equal.
  - revert b Hl Hb. induction Ha as [|x a Hx Ha IH]; intros b Hl Hb; destruct Hb as [|y b Hy Hb]; cbn [length zip_with] in *; try done.
    rewrite ones64_land by auto with words. f_equal; [|apply IH; lia || done].
    by rewrite (Z.lxor_comm x y), Z.lxor_comm, lxor_involutive.
  - revert b Hl Hb. induction Ha as [|x a Hx Ha IH]; intros b Hl Hb; destruct Hb as [|y b Hy Hb]; cbn [length zip_with] in *; try done.
    rewrite ones64_land by auto with words. f_equal; [|apply IH; lia || done].
    by rewrite Z.lxor_comm, lxor_involutive.
Qed.
Lemma fe_cswap_ok a b (sw : bool) : tight a -> tight b ->
  fe_cswap a b (Z.b2z sw) = if sw then (b, a) else (a, b).
Proof.
  intros [La Ha] [Lb Hb]. destruct sw; [apply fe_cswap_1|apply fe_cswap_0]; try congruence;
    (eapply Forall_impl; [|eassumption]; unfold is_word; intros; cbn in *; lia).
Qed.

(** ** Bytes *)

Lemma load64_ok s i : bytes s -> 0 <= i -> (8 * Z.to_nat i + 8 <= length s)%nat ->
  load64 s i = le_val (take 8 (drop (8 * Z.to_nat i) s)).
Proof.
  intros Hs Hi Hl. unfold load64.
  assert (take 8 (drop (8 * Z.to_nat i) s) = (fun j => s.[i * 8 + j]) <$> seqZ 0 8) as ->.
  { apply (list_eq_getz 0); rewrite ?length_fmap, length_take, length_drop, ?length_seqZ; [lia|].
    intros j Hj. rewrite getz_take, getz_drop, getz_fmap_seqZ by lia. f_equal. lia. }
  assert (forall j, is_u8 s.[i * 8 + j]) as Hb by (intros; by apply (Forall_getz (is_word 8))).
  unfold for_range. change (seqZ 0 (8 - 0)) with [0;1;2;3;4;5;6;7].
  change (seqZ 0 8) with [0;1;2;3;4;5;6;7]. cbn [foldl fmap list_fmap le_val].
  unfold is_word in Hb. generalize (Hb 0) (Hb 1) (Hb 2) (Hb 3) (Hb 4) (Hb 5) (Hb 6) (Hb 7). intros.
  change (1 * 8) with 8. change (2 * 8) with 16. change (3 * 8) with 24. change (4 * 8) with 32.
  change (5 * 8) with 40. change (6 * 8) with 48. change (7 * 8) with 56.
  rewrite Z.lor_0_l, Z.shiftl_0_r.
  repeat match goal with
  | |- context [?a .| (?b .<< ?k)] =>
      lazymatch a with context [Z.lor] => fail | _ => rewrite (lor_shiftl_add a b k) by (unfold is_word; lia) end
  end.
  lia.
Qed.
Lemma le_val_4 s : bytes s -> length s = 32%nat ->
  le_val s = load64 s 0 + 2 ^ 64 * load64 s 1 + 2 ^ 128 * load64 s 2 + 2 ^ 192 * load64 s 3 /\
  forall i, 0 <= i < 4 -> 0 <= load64 s i < 2 ^ 64.
Proof.
  intros Hs Hl. split.
  - rewrite !load64_ok by (done || lia).
    rewrite <- (take_drop 8 s) at 1. rewrite <- (take_drop 8 (drop 8 s)) at 1.
    rewrite <- (take_drop 8 (drop 8 (drop 8 s))) at 1. rewrite !drop_drop, !le_val_app, !length_take, !length_drop, Hl.
    change (8 * Z.to_nat 0)%nat with 0%nat. change (8 * Z.to_nat 1)%nat with 8%nat. change (8 * Z.to_nat 2)%nat with 16%nat.
    change (8 * Z.to_nat 3)%nat with 24%nat. rewrite drop_0.
    rewrite (take_ge (drop 24 s)) by (rewrite length_drop; lia). cbn [Nat.add Nat.min Nat.sub].
    change (256 ^ Z.of_nat 8) with (2 ^ 64). lia.
  - intros i Hi. rewrite load64_ok by (done || lia).
    pose proof (le_val_bound (take 8 (drop (8 * Z.to_nat i) s))) as H.
    rewrite length_take, length_drop, Nat.min_l in H by lia. apply H. by apply Forall_take, Forall_drop.
Qed.

(** [(x >> a) | (y << k)] where x has no more than a + k bits. *)
Lemma words_join x y a k :
  0 <= a -> 0 <= k <= 64 -> 0 <= x < 2 ^ (a + k) ->
  (x .>> a) .| u64 (y .<< k) = x / 2 ^ a + 2 ^ k * (y mod 2 ^ (64 - k)).
Proof.
  intros Ha Hk Hx. unfold u64. replace 18446744073709551616 with (2 ^ (64 - k) * 2 ^ k).
  2: { rewrite <- Z.pow_add_r by lia. by replace (64 - k + k) with 64 by lia. }
  rewrite Z.shiftl_mul_pow2, Zmult_mod_distr_r, <- Z.shiftl_mul_pow2 by lia.
  rewrite Z.shiftr_div_pow2 by lia. assert (is_word k (x / 2 ^ a)).
  { split; [apply Z.div_pos; [lia|by apply Z.pow_pos_nonneg]|]. apply Z.div_lt_upper_bound; [by apply Z.pow_pos_nonneg|]. rewrite <- Z.pow_add_r by lia. lia. }
  rewrite lor_shiftl_add by (done || lia). lia.
Qed.

Lemma fe_frombytes_ok s : bytes s -> length s = 32%nat ->
  limbs 2251799813685248 (fe_frombytes s) /\ fe_val (fe_frombytes s) = decode_u s.
Proof.
  intros Hs Hl. destruct (le_val_4 s Hs Hl) as [Hv Hw]. unfold decode_u. rewrite Hv.
  unfold fe_frombytes. cbn [fmap list_fmap]. rewrite get0, get1, get2, get3.
  generalize (Hw 0 ltac:(lia)) (Hw 1 ltac:(lia)) (Hw 2 ltac:(lia)) (Hw 3 ltac:(lia)).
  generalize (load64 s 0) (load64 s 1) (load64 s 2) (load64 s 3). intros w0 w1 w2 w3 H0 H1 H2 H3.
  rewrite !words_join by lia. rewrite !mask51, Z.shiftr_div_pow2 by lia.
  split; [apply limbs_intro; dlia|]. unfold fe_val. limb_cbn. dlia.
Qed.

Lemma tobytes_q_ok t : tight t ->
  tobytes_q t = if fe_val t <? p25519 then 0 else 1.
Proof.
  intros H. limbs_of H. unfold tobytes_q. limb_cbn. rewrite !shr51. repeat carry_one.
  unfold fe_val. limb_cbn. rewrite p25519_lit. case_bool; lia.
Qed.
Lemma tobytes_reduce_ok t : tight t ->
  limbs 2251799813685248 (tobytes_reduce t) /\ fe_val (tobytes_reduce t) = fe_val t mod p25519.
Proof.
  intros H. unfold tobytes_reduce. rewrite tobytes_q_ok by done.
  assert (fe_val t mod p25519 = if fe_val t <? p25519 then fe_val t else fe_val t - p25519) as ->.
  { limbs_of H. unfold fe_val. limb_cbn. rewrite p25519_lit.
    case_bool; [apply Z.mod_small; lia|symmetry; apply Z.mod_unique with 1; lia]. }
  destruct (Z.ltb_spec (fe_val t) p25519) as [HV|HV]; limbs_of H; revert HV; unfold fe_val; limb_cbn; rewrite ?p25519_lit;
    intros HV; rewrite !mask51, !shr51; repeat carry_one; (split; [apply limbs_intro; lia|lia]).
Qed.

Lemma bytes_of_word w : ((fun j => u8 (w .>> (j * 8))) <$> seqZ 0 8) = le_bytes 8 w.
Proof.
  change (seqZ 0 8) with [0; 1; 2; 3; 4; 5; 6; 7]. cbn [fmap list_fmap le_bytes].
  rewrite !Z.shiftr_shiftr by done. by rewrite Z.shiftr_0_r.
Qed.

Lemma fe_tobytes_ok f : tight f -> fe_tobytes f = le_bytes 32 (fe_val f mod p25519).
Proof.
  intros H. apply (limbs_le _ 9223372036854775808) in H; [|done].
  destruct (fe_carry_ok f H) as [Hc <-]. unfold fe_tobytes.
  destruct (tobytes_reduce_ok _ Hc) as [Ht <-]. clear Hc H.
  generalize dependent (tobytes_reduce (fe_carry f)). intros t Ht. limbs_of Ht.
  unfold tobytes_words. limb_cbn. rewrite <- (Z.shiftr_0_r x). rewrite !words_join by lia. rewrite Z.shiftr_0_r.
  change (seqZ 0 4) with [0; 1; 2; 3]. cbn [fmap list_fmap mjoin list_join]. rewrite get0, get1, get2, get3.
  rewrite !bytes_of_word, app_nil_r.
  apply le_val_inj.
  - repeat apply Forall_app_2; apply le_bytes_bytes.
  - apply le_bytes_bytes.
  - by rewrite !length_app, !length_le_bytes.
  - rewrite !le_val_app, !le_val_bytes, !length_le_bytes. unfold fe_val. limb_cbn. 
    change (256 ^ Z.of_nat 8) with (2 ^ 64). change (256 ^ Z.of_nat 32) with (2 ^ 256). dlia.
Qed.

(** ** Elements as representatives *)

(** [rep h v]: the limbs are in range and stand for v modulo p. *)
Definition rep (h : fe) (v : Z) : Prop := tight h /\ fe_val h mod p25519 = v mod p25519.

Lemma rep_ext h v w : rep h v -> v mod p25519 = w mod p25519 -> rep h w.
Proof. intros [??] ?. split; congruence. Qed.
Lemma tight_loose h : tight h -> loose h.
Proof. intros. by eapply limbs_le. Qed.

Lemma rep_mul f g a b : rep f a -> rep g b -> rep (fe_mul f g) (a * b).
Proof.
  intros [Hf Ha] [Hg Hb]. destruct (fe_mul_ok f g) as [Ht Hv]; [by apply tight_loose..|].
  split; [done|]. by rewrite Hv, Z.mul_mod, Ha, Hb, <- Z.mul_mod by done.
Qed.
Lemma rep_sq f a : rep f a -> rep (fe_sq f) (a * a).
Proof. intros. by apply rep_mul. Qed.
Lemma rep_add f g a b : rep f a -> rep g b -> rep (fe_carry (fe_add f g)) (a + b).
Proof.
  intros [Hf Ha] [Hg Hb]. destruct (fe_add_ok f g Hf Hg) as [Hl Hv]. destruct (fe_carry_ok _ Hl) as [Ht Hc].
  split; [done|]. by rewrite Hc, Hv, Z.add_mod, Ha, Hb, <- Z.add_mod by done.
Qed.
Lemma rep_sub f g a b : rep f a -> rep g b -> rep (fe_carry (fe_sub f g)) (a - b).
Proof.
  intros [Hf Ha] [Hg Hb]. destruct (fe_sub_ok f g Hf Hg) as [Hl Hv]. destruct (fe_carry_ok _ Hl) as [Ht Hc].
  split; [done|]. by rewrite Hc, Hv, Z.mod_add, Zminus_mod, Ha, Hb, <- Zminus_mod by done.
Qed.
Lemma rep_mul121665 f a : rep f a -> rep (fe_mul121665 f) (a * 121665).
Proof.
  intros [Hf Ha]. destruct (fe_mul121665_ok f) as [Ht Hv]; [by apply tight_loose|].
  split; [done|]. by rewrite Hv, Z.mul_mod, Ha, <- Z.mul_mod by done.
Qed.
Lemma rep_frombytes s : bytes s -> length s = 32%nat -> rep (fe_frombytes s) (decode_u s).
Proof. intros Hs Hl. destruct (fe_frombytes_ok s Hs Hl) as [Ht Hv]. split; [by eapply limbs_le|by rewrite Hv]. Qed.
Lemma rep_tobytes f a : rep f a -> fe_tobytes f = le_bytes 32 (a mod p25519).
Proof. intros [Hf <-]. by apply fe_tobytes_ok. Qed.
Lemma rep_cswap f g a b sw : rep f a -> rep g b ->
  fe_cswap f g (Z.b2z sw) = if sw then (g, f) else (f, g).
Proof. intros [??] [??]. by apply fe_cswap_ok. Qed.
#[local] Hint Resolve rep_mul rep_sq rep_add rep_sub rep_mul121665 : words.

(** ** The inverse *)

#[local] Opaque fe_sq fe_mul fe_nsq rep.

Lemma rep_pow_mul f g z a b c : rep f (z ^ a) -> rep g (z ^ b) -> 0 <= a -> 0 <= b -> a + b = c -> rep (fe_mul f g) (z ^ c).
Proof. intros. subst c. rewrite Z.pow_add_r by done. by apply rep_mul. Qed.
Lemma rep_pow_sq f z a c : rep f (z ^ a) -> 0 <= a -> a + a = c -> rep (fe_sq f) (z ^ c).
Proof. intros. subst c. rewrite Z.pow_add_r by done. by apply rep_sq. Qed.
Lemma rep_pow_nsq n f z a c : rep f (z ^ a) -> 0 <= a -> 0 <= n -> a * 2 ^ n = c -> rep (fe_nsq n f) (z ^ c).
Proof.
  intros Hf Ha Hn <-. with_strategy transparent [fe_nsq] unfold fe_nsq.
  apply (for_range_inv (fun i t => rep t (z ^ (a * 2 ^ i))) 0 n); [done|by rewrite Z.mul_1_r|].
  intros i t Hi Ht. eapply rep_pow_sq; [exact Ht| |].
  - apply Z.mul_nonneg_nonneg; [done|]. apply Z.pow_nonneg. lia.
  - rewrite (Z.add_1_r i), Z.pow_succ_r by lia. lia.
Qed.

(** One line of the chain: the element it makes stands for z ^ c. *)
Ltac pow_arith :=
  lazymatch goal with
  | |- _ <= _ => vm_compute; discriminate
  | |- _ = ?c => tryif is_evar c then reflexivity else (vm_compute; reflexivity)
  end.
Ltac pow_solve :=
  lazymatch goal with
  | |- rep (fe_sq _) _ => eapply rep_pow_sq; [pow_solve|pow_arith..]
  | |- rep (fe_nsq _ _) _ => eapply rep_pow_nsq; [pow_solve|pow_arith..]
  | |- rep (fe_mul _ _) _ => eapply rep_pow_mul; [pow_solve|pow_solve|pow_arith..]
  | H : rep ?l _ |- rep ?l _ => exact H
  end.
Ltac pow_let z c :=
  lazymatch goal with
  | |- rep (let x := ?e in @?b x) ?v =>
      assert (rep e (z ^ c)) by pow_solve; change (rep (b e) v); cbv beta; generalize dependent e; intros
  end.

(** The addition chain is the power p - 2. *)
Lemma rep_invert f z : rep f z -> rep (fe_invert f) (z ^ (2 ^ 255 - 21)).
Proof.
  intros H. rewrite <- (Z.pow_1_r z) in H. cbv delta [fe_invert]. cbv beta.
  pow_let z 2. pow_let z 8. pow_let z 9. pow_let z 11. pow_let z 22. pow_let z (2 ^ 5 - 1).
  pow_let z (2 ^ 10 - 2 ^ 5). pow_let z (2 ^ 10 - 1). pow_let z (2 ^ 20 - 2 ^ 10). pow_let z (2 ^ 20 - 1).
  pow_let z (2 ^ 40 - 2 ^ 20). pow_let z (2 ^ 40 - 1). pow_let z (2 ^ 50 - 2 ^ 10). pow_let z (2 ^ 50 - 1).
  pow_let z (2 ^ 100 - 2 ^ 50). pow_let z (2 ^ 100 - 1). pow_let z (2 ^ 200 - 2 ^ 100). pow_let z (2 ^ 200 - 1).
  pow_let z (2 ^ 250 - 2 ^ 50). pow_let z (2 ^ 250 - 1). pow_let z (2 ^ 255 - 2 ^ 5). pow_solve.
Qed.

(** ** The ladder *)

#[local] Opaque fe_carry fe_add fe_sub fe_mul121665 fe_cswap.

Lemma rep_mod h v : rep h v -> rep h (v mod p25519).
Proof. intros H. eapply rep_ext; [exact H|]. by rewrite Z.mod_mod. Qed.

Lemma scalar_bit k pos : bytes k -> 0 <= pos ->
  (k.[pos .>> 3] .>> (pos .& 7)) .& 1 = Z.b2z (Z.testbit (le_val k) pos).
Proof.
  intros Hk Hp. rewrite land_1, land_7, le_val_testbit, Z.testbit_spec' by (done || dlia).
  rewrite !Z.shiftr_div_pow2 by dlia. done.
Qed.
Lemma b2z_lxor a b : Z.b2z a .^ Z.b2z b = Z.b2z (xorb a b).
Proof. by destruct a, b. Qed.

(** The variables of the code stand for those of the specification. *)
Definition vars_rep (v : ladder_vars) (w : rfc_vars) : Prop :=
  rep (lx2 v) (rx2 w) /\ rep (lz2 v) (rz2 w) /\ rep (lx3 v) (rx3 w) /\ rep (lz3 v) (rz3 w) /\
  lswap v = Z.b2z (rswap w).

Lemma ladder_step_ok k x1 u pos v w :
  bytes k -> 0 <= pos -> rep x1 u -> vars_rep v w ->
  vars_rep (ladder_step k x1 pos v) (rfc_step (le_val k) u pos w).
Proof.
  intros Hk Hpos Hx1 (H2 & G2 & H3 & G3 & Hs). unfold ladder_step, rfc_step.
  rewrite scalar_bit, Hs, b2z_lxor by done.
  generalize (Z.testbit (le_val k) pos) as bit. intros bit. set (sw := xorb (rswap w) bit).
  rewrite (rep_cswap _ _ _ _ sw H2 H3), (rep_cswap _ _ _ _ sw G2 G3).
  destruct v as [x2 z2 x3 z3 swap], w as [X2 Z2 X3 Z3 sb]; cbn [lx2 lz2 lx3 lz3 rx2 rz2 rx3 rz3] in *.
  destruct sw; unfold vars_rep; cbn [lx2 lz2 lx3 lz3 rx2 rz2 rx3 rz3 lswap rswap];
    (split; [|split; [|split; [|split; [|done]]]]); apply rep_mod; rewrite ?Z.pow_2_r, ?(Z.mul_comm 121665 _), ?(Z.add_comm _ (_ * 121665));
    auto 8 with words.
Qed.

Lemma rep_one : rep fe_one 1.
Proof. with_strategy transparent [rep] (split; [by apply limbs_intro|done]). Qed.
Lemma rep_zero : rep fe_zero 0.
Proof. with_strategy transparent [rep] (split; [by apply limbs_intro|done]). Qed.

Lemma ladder_ok k x1 u : bytes k -> rep x1 u ->
  rep (fst (ladder k x1)) (fst (rfc_ladder (le_val k) u)) /\ rep (snd (ladder k x1)) (snd (rfc_ladder (le_val k) u)).
Proof.
  intros Hk Hx. unfold ladder, rfc_ladder.
  destruct (for_down_rel vars_rep 0 255 (ladder_step k x1) (rfc_step (le_val k) u)
    (LadderVars fe_one fe_zero x1 fe_one 0) (RfcVars 1 0 u 1 false)) as (H2 & G2 & H3 & G3 & Hs).
  - intros. apply ladder_step_ok; done || lia.
  - unfold vars_rep. cbn. auto using rep_one, rep_zero.
  - rewrite Hs, (rep_cswap _ _ _ _ _ H2 H3), (rep_cswap _ _ _ _ _ G2 G3). by destruct (rswap _).
Qed.

(** ** The scalar and the check of the result *)

Lemma ends_of (s : list Z) : length s = 32%nat -> exists b0 mid b31, s = b0 :: mid ++ [b31] /\ length mid = 30%nat.
Proof.
  intros Hl. destruct s as [|b0 s]; [done|]. destruct s as [|b31 mid _] using rev_ind; [done|].
  exists b0, mid, b31. cbn [length] in Hl. rewrite length_app in Hl. cbn [length] in Hl. split; [done|lia].
Qed.
Lemma set_last (b0 : Z) mid b31 v : length mid = 30%nat -> (b0 :: mid ++ [b31]).[31 := v] = b0 :: mid ++ [v].
Proof.
  intros Hm. unfold setz. change (<[_ := v]> (b0 :: ?l)) with (b0 :: <[30%nat := v]> l).
  rewrite insert_app_r_alt by lia. by rewrite Hm.
Qed.
Lemma get_last (b0 : Z) mid b31 : length mid = 30%nat -> (b0 :: mid ++ [b31]).[31] = b31.
Proof. intros Hm. unfold getz. change (Z.to_nat 31) with 31%nat. cbn [nth]. rewrite app_nth2 by lia. by rewrite Hm. Qed.

Lemma clamp_ok s : bytes s -> length s = 32%nat -> bytes (clamp s) /\ le_val (clamp s) = decode_scalar s.
Proof.
  intros Hs Hl. destruct (ends_of s Hl) as (b0 & mid & b31 & -> & Hm).
  apply Forall_cons_iff in Hs as [H0 Hs]. apply Forall_app in Hs as [Hmid H31].
  apply Forall_cons_iff in H31 as [H31 _].
  assert (clamp (b0 :: mid ++ [b31]) = b0 / 8 * 8 :: mid ++ [b31 mod 64 + 64]) as ->.
  { unfold clamp. rewrite take_ge by lia. change (setz (b0 :: ?l) 0 ?v) with (v :: l).
    rewrite get0, get_last, set_last, get_last, set_last by done.
    rewrite (proj1 (Z.eqb_eq _ _) (all_bytes (fun b => b .& 248 =? b / 8 * 8) ltac:(vm_compute; reflexivity) b0 H0)).
    by rewrite (proj1 (Z.eqb_eq _ _) (all_bytes (fun b => (b .& 127) .| 64 =? b mod 64 + 64) ltac:(vm_compute; reflexivity) b31 H31)). }
  split.
  - apply Forall_cons_2; [unfold is_word in *; dlia|]. apply Forall_app_2; [done|].
    apply Forall_cons_2; [unfold is_word in *; dlia|by apply Forall_nil].
  - unfold decode_scalar. cbn [le_val]. rewrite !le_val_app. cbn [le_val].
    pose proof (le_val_bound mid Hmid) as Hv. rewrite Hm in *. change (256 ^ Z.of_nat 30) with (2 ^ 240) in *.
    unfold is_word in *. dlia.
Qed.

Lemma for_range_getz {S} (f : S -> Z -> S) l s : for_range 0 (zlen l) (fun i s => f s l.[i]) s = foldl f s l.
Proof.
  unfold for_range. rewrite Z.sub_0_r.
  assert ((fun i => l.[i]) <$> seqZ 0 (zlen l) = l) as He.
  { apply (list_eq_getz 0); rewrite length_fmap, length_seqZ; [lia|]. intros i Hi. by rewrite getz_fmap_seqZ by lia. }
  rewrite <- He at 2. generalize (seqZ 0 (zlen l)). intros ns. revert s.
  induction ns as [|i ns IH]; intros s; cbn; [done|]. apply IH.
Qed.
Lemma lor_all_zero l a : bytes l -> 0 <= a -> foldl Z.lor a l = 0 <-> a = 0 /\ le_val l = 0.
Proof.
  intros Hl. revert a. induction Hl as [|b l Hb Hl IH]; intros a Ha; cbn [foldl le_val]; [naive_solver|].
  unfold is_word in Hb. pose proof (le_val_bound l Hl).
  rewrite IH by (apply Z.lor_nonneg; lia). rewrite Z.lor_eq_0_iff. lia.
Qed.
Lemma all_zero_ok l : length l = 32%nat -> bytes l -> all_zero l = (le_val l =? 0).
Proof.
  intros Hl Hb. unfold all_zero. change 32 with (Z.of_nat 32). rewrite <- Hl, for_range_getz.
  apply eq_bool_prop_intro. rewrite !Is_true_true, !Z.eqb_eq, lor_all_zero by done. lia.
Qed.

Lemma x25519_ok secret peer : bytes secret -> bytes peer -> length secret = 32%nat -> length peer = 32%nat ->
  x25519 secret peer =
  (negb (rfc_x25519 (decode_scalar secret) (decode_u peer) =? 0),
   le_bytes 32 (rfc_x25519 (decode_scalar secret) (decode_u peer))).
Proof.
  intros Hs Hp Ls Lp. unfold x25519, rfc_x25519.
  destruct (clamp_ok secret Hs Ls) as [Hk <-].
  destruct (ladder_ok _ _ _ Hk (rep_frombytes peer Hp Lp)) as [H2 G2].
  destruct (ladder (clamp secret) (fe_frombytes peer)) as [x2 z2]. cbn [fst snd] in H2, G2.
  destruct (rfc_ladder (le_val (clamp secret)) (decode_u peer)) as [X Z]. cbn [fst snd] in H2, G2.
  pose proof (rep_tobytes _ _ (rep_mul _ _ _ _ H2 (rep_invert _ _ G2))) as ->.
  pose proof (Z.mod_pos_bound (X * Z ^ (2 ^ 255 - 21)) p25519 eq_refl) as Hr.
  generalize dependent ((X * Z ^ (2 ^ 255 - 21)) mod p25519). clear. intros r Hr. rewrite p25519_lit in Hr.
  rewrite all_zero_ok, le_val_bytes by (apply length_le_bytes || apply le_bytes_bytes).
  change (256 ^ Z.of_nat 32) with (2 ^ 256). rewrite Z.mod_small by lia.
  destruct (Z.eqb_spec r 0) as [->|]; done.
Qed.

(** ** Properties *)

(** C27: the key agreement is the X25519 function of RFC 7748: the bytes left in
    [out] are the number x2 * z2^(p-2) mod p of its ladder over the integers
    modulo p = 2^255 - 19, little end first, for the clamped scalar and the
    peer's coordinate with its top bit dropped, and the call answers false
    exactly when that number is zero, the buffer then being zero too. *)
Theorem x25519_is_rfc7748 secret peer
  (Hs : bytes secret) (Hp : bytes peer) (Ls : length secret = X25519_LEN) (Lp : length peer = X25519_LEN) :
  let r := rfc_x25519 (decode_scalar secret) (decode_u peer) in
  x25519 secret peer = (negb (r =? 0), le_bytes 32 r).
Proof. by apply x25519_ok. Qed.

Definition secret1 : list Z := le_bytes 32 0xc49a44ba44226a50185afcc10a4c1462dd5e46824b15163b9d7c52f06be346a5.
Definition peer1 : list Z := le_bytes 32 0x4c1cabd0a603a9103b35b326ec2466727c5fb124a4c19435db3030586768dbe6.

Lemma x25519_is_rfc7748_witness :
  bytes secret1 /\ bytes peer1 /\ length secret1 = X25519_LEN /\ length peer1 = X25519_LEN /\
  x25519 secret1 peer1 =
    (negb (rfc_x25519 (decode_scalar secret1) (decode_u peer1) =? 0),
     le_bytes 32 (rfc_x25519 (decode_scalar secret1) (decode_u peer1))).
Proof.
  assert (bytes secret1) as Hs by apply le_bytes_bytes. assert (bytes peer1) as Hp by apply le_bytes_bytes.
  assert (length secret1 = X25519_LEN) as Ls by apply length_le_bytes.
  assert (length peer1 = X25519_LEN) as Lp by apply length_le_bytes.
  split; [exact Hs|]. split; [exact Hp|]. split; [exact Ls|]. split; [exact Lp|].
  exact (x25519_is_rfc7748 secret1 peer1 Hs Hp Ls Lp).
Defined.

(** The limbs stay in range through every operation of a ladder step: from
    limbs of at most 2^51 no sum of the 128 bit products wraps, no limb of a
    subtraction goes below zero, and the result has limbs of at most 2^51
    again and stands for the exact result modulo p. *)
Theorem fe_operations_in_range f g (Hf : tight f) (Hg : tight g) :
  mul_sums f g = exact_sums f g /\
  tight (fe_mul f g) /\ fe_val (fe_mul f g) mod p25519 = (fe_val f * fe_val g) mod p25519 /\
  tight (fe_carry (fe_add f g)) /\ fe_val (fe_add f g) = fe_val f + fe_val g /\
  tight (fe_carry (fe_sub f g)) /\ fe_val (fe_sub f g) = fe_val f - fe_val g + 2 * p25519 /\
  tight (fe_mul121665 f) /\ fe_val (fe_mul121665 f) mod p25519 = (fe_val f * 121665) mod p25519.
Proof.
  pose proof (tight_loose f Hf) as Lf. pose proof (tight_loose g Hg) as Lg.
  destruct (mul_sums_exact f g Lf Lg) as [He _]. destruct (fe_mul_ok f g Lf Lg) as [Hm Hmv].
  destruct (fe_add_ok f g Hf Hg) as [Ha Hav]. destruct (fe_carry_ok _ Ha) as [Hac _].
  destruct (fe_sub_ok f g Hf Hg) as [Hs Hsv]. destruct (fe_carry_ok _ Hs) as [Hsc _].
  destruct (fe_mul121665_ok f Lf) as [Hk Hkv]. by repeat split_and.
Qed.

Definition top_limbs : fe := replicate 5 2251799813685248.
Lemma fe_operations_in_range_witness :
  tight top_limbs /\ tight (fe_mul top_limbs fe_one) /\ fe_val (fe_sub top_limbs top_limbs) = 2 * p25519.
Proof.
  assert (tight top_limbs) as Ht by by apply limbs_intro. assert (tight fe_one) as Ho by by apply limbs_intro.
  split; [exact Ht|]. split; [exact (proj1 (proj2 (fe_operations_in_range top_limbs fe_one Ht Ho)))|].
  pose proof (fe_operations_in_range top_limbs top_limbs Ht Ht) as (_ & _ & _ & _ & _ & _ & H & _). lia.
Defined.
