(* ===== verification/Limbs.v ===== *)
(** Numbers of several 64 bit limbs, little end first, and Montgomery
    multiplication on them: the loops that kernel/rsa.c and kernel/ec.c have in
    common. A number here is the list of its limbs in use. *)
From S2P Require Import Prelude.

(** ** The loops *)

(** [x - y - borrow] limb by limb, the borrow found by comparisons: the limbs
    and the last borrow. *)
Fixpoint sub_limbs (a b : list Z) (borrow : Z) : list Z * Z :=
  match a, b with
  | x :: a, y :: b =>
      let d := u64 (x - y - borrow) in
      let yb := u64 (y + borrow) in
      let borrow := if (x <? yb) || (negb (borrow =? 0) && (yb =? 0)) then 1 else 0 in
      let '(l, borrow) := sub_limbs a b borrow in (d :: l, borrow)
  | _, _ => ([], borrow)
  end.

(** The comparison from the top limb down. *)
Fixpoint ge_scan (a b : list Z) : bool :=
  match a, b with
  | x :: a, y :: b => if negb (x =? y) then y <? x else ge_scan a b
  | _, _ => true
  end.
Definition ge_limbs (a b : list Z) : bool := ge_scan (rev a) (rev b).

(** One bit to the left: the limbs and the bit that left the top. *)
Fixpoint shl1_limbs (a : list Z) (carry : Z) : list Z * Z :=
  match a with
  | x :: a =>
      let v := u64 (x .<< 1) .| carry in
      let '(l, c) := shl1_limbs a (x .>> 63) in (v :: l, c)
  | [] => ([], carry)
  end.

(** [n0_inverse]: Newton's method, six steps. *)
Definition newton (n0 inv : Z) : Z := u64 (inv * u64 (2 - u64 (n0 * inv))).
Definition n0_inverse (n0 : Z) : Z := u64 (0 - for_range 0 6 (fun _ inv => newton n0 inv) 1).

(** A row of products added to limbs: [t[j] = k * a[j] + t[j] + carry]. *)
Fixpoint mac_limbs (a t : list Z) (k carry : Z) : list Z * Z :=
  match a, t with
  | x :: a, y :: t =>
      let p := u128 (x * k + y + carry) in
      let '(l, c) := mac_limbs a t k (u64 (p .>> 64)) in (u64 p :: l, c)
  | _, _ => ([], carry)
  end.

(** One outer step of the multiplication: the product with a limb [bi] of b added,
    the multiple of n that clears the bottom limb added, and everything one
    limb down. The state is the limbs of t below len, and t[len]. *)
Definition cios_step (a n : list Z) (n0inv bi : Z) (t : list Z * Z) : list Z * Z :=
  let '(tl, top) := t in
  let '(tl, carry) := mac_limbs a tl bi 0 in
  let s := u128 (top + carry) in
  let top := u64 s in
  let top1 := u64 (s .>> 64) in
  let m := u64 (tl.[0] * n0inv) in
  let p := u128 (m * n.[0] + tl.[0]) in
  let '(lo, carry) := mac_limbs (tail n) (tail tl) m (u64 (p .>> 64)) in
  let s := u128 (top + carry) in
  (lo ++ [u64 s], u64 (top1 + u64 (s .>> 64))).

Definition cios (a b n : list Z) (n0inv : Z) : list Z * Z :=
  foldl (fun t bi => cios_step a n n0inv bi t) (replicate (length n) 0, 0) b.

(** Big end first bytes into limbs, and back. *)
Definition load_be (b : list Z) (limbs : nat) : list Z :=
  for_range 0 (zlen b) (fun i v =>
    let pos := zlen b - 1 - i in
    v.[pos / 8 := v.[pos / 8] .| u64 (b.[i] .<< (pos mod 8 * 8))]) (replicate limbs 0).
Definition store_be (v : list Z) (len : Z) : list Z :=
  (fun i => let pos := len - 1 - i in
    if pos / 8 <? zlen v then u8 (v.[pos / 8] .>> (pos mod 8 * 8)) else 0) <$> seqZ 0 len.

(** ** Values *)

Notation B64 := 18446744073709551616.
Fixpoint lval (l : list Z) : Z := match l with [] => 0 | x :: l => x + B64 * lval l end.
Notation words64 := (Forall (is_word 64)).

Lemma lval_app a b : lval (a ++ b) = lval a + B64 ^ zlen a * lval b.
Proof.
  induction a as [|x a IH]; cbn [app lval length]; [lia|].
  rewrite IH, Nat2Z.inj_succ, Z.pow_succ_r by lia. lia.
Qed.
Lemma lval_bound l : words64 l -> 0 <= lval l < B64 ^ zlen l.
Proof.
  induction 1 as [|x l Hx _ IH]; cbn [lval length]; [done|].
  rewrite Nat2Z.inj_succ, Z.pow_succ_r by lia. unfold is_word in Hx. lia.
Qed.
Lemma lval_zeros n : lval (replicate n 0) = 0.
Proof. induction n as [|n IH]; cbn [replicate lval]; lia. Qed.
Lemma words64_zeros n : words64 (replicate n 0).
Proof. by apply Forall_replicate. Qed.
Lemma lval_one n : lval (1 :: replicate n 0) = 1.
Proof. cbn [lval]. rewrite lval_zeros. lia. Qed.
Lemma B64_pow_pos n : 0 <= n -> 0 < B64 ^ n.
Proof. intros. by apply Z.pow_pos_nonneg. Qed.

(** Equal values of equal lengths are equal limbs. *)
Lemma lval_inj a b : words64 a -> words64 b -> length a = length b -> lval a = lval b -> a = b.
Proof.
  intros Ha. revert b. induction Ha as [|x a Hx Ha IH]; intros b Hb Hl Hv; destruct Hb as [|y b Hy Hb]; try done.
  cbn [lval length] in *. unfold is_word in *. f_equal; [lia|]. apply IH; try done; lia.
Qed.

Lemma sub_limbs_ok a b c : length a = length b -> words64 a -> words64 b -> 0 <= c <= 1 ->
  let '(l, c') := sub_limbs a b c in
  length l = length a /\ words64 l /\ 0 <= c' <= 1 /\ lval l = lval a - lval b - c + B64 ^ zlen a * c'.
Proof.
  intros Hl Ha. revert b Hl c. induction Ha as [|x a Hx Ha IH]; intros b Hl c Hb Hc; destruct Hb as [|y b Hy Hb];
    cbn [length sub_limbs lval] in *; try done.
  - split_and!; try done; lia.
  - set (c1 := if (x <? u64 (y + c)) || (negb (c =? 0) && (u64 (y + c) =? 0)) then 1 else 0).
    assert (0 <= c1 <= 1 /\ u64 (x - y - c) = x - y - c + B64 * c1) as [Hc1 Hd].
    { subst c1. unfold is_word, u64 in *.
      repeat case_bool; cbn [andb orb negb]; dlia. }
    clearbody c1. specialize (IH b ltac:(lia) c1 Hb Hc1). destruct (sub_limbs a b c1) as [l c2].
    destruct IH as (Hl2 & Hw & Hc2 & Hv). split_and!; cbn [length lval]; try lia.
    + apply Forall_cons_2; [apply u64_is_word|done].
    + rewrite Nat2Z.inj_succ, Z.pow_succ_r, Hd, Hv by lia. lia.
Qed.

Lemma ge_scan_app a b x y : length a = length b -> ge_scan (a ++ [x]) (b ++ [y]) =
  if decide (a = b) then y <=? x else ge_scan a b.
Proof.
  revert b. induction a as [|u a IH]; intros [|v b] Hl; cbn [length app ge_scan] in *; try done.
  - destruct (Z.eqb_spec x y); cbn [negb]; [symmetry; apply Z.leb_le; lia|].
    destruct (Z.ltb_spec y x), (Z.leb_spec y x); lia || done.
  - rewrite IH by lia. destruct (Z.eqb_spec u v) as [->|]; cbn [negb].
    + destruct (decide (a = b)) as [->|]; [by rewrite decide_True|by rewrite decide_False by congruence].
    + by rewrite decide_False by congruence.
Qed.
Lemma ge_limbs_ok a b : length a = length b -> words64 a -> words64 b -> ge_limbs a b = (lval b <=? lval a).
Proof.
  intros Hl Ha. revert b Hl. unfold ge_limbs.
  induction Ha as [|x a Hx Ha IH]; intros b Hl Hb; destruct Hb as [|y b Hy Hb]; cbn [length rev lval] in *; try done.
  rewrite ge_scan_app by (rewrite !length_rev; lia). unfold is_word in *. destruct (decide (rev a = rev b)) as [He|He].
  - apply (f_equal (@rev Z)) in He. rewrite !rev_involutive in He. subst b. repeat case_bool; lia || done.
  - rewrite IH by (lia || done).
    assert (lval a <> lval b) by (intros Hv; apply He; f_equal; apply lval_inj; done || lia).
    repeat case_bool; lia || done.
Qed.

Lemma shl1_limbs_ok a c : words64 a -> 0 <= c <= 1 ->
  let '(l, c') := shl1_limbs a c in
  length l = length a /\ words64 l /\ 0 <= c' <= 1 /\ lval l + B64 ^ zlen a * c' = 2 * lval a + c.
Proof.
  intros Ha. revert c. induction Ha as [|x a Hx Ha IH]; intros c Hc; cbn [shl1_limbs lval length].
  - split_and!; try done; lia.
  - assert (x .>> 63 = x / 9223372036854775808) as Hs by (by rewrite Z.shiftr_div_pow2).
    assert (0 <= x .>> 63 <= 1) as Hc1 by (rewrite Hs; unfold is_word in Hx; dlia).
    specialize (IH _ Hc1). destruct (shl1_limbs a (x .>> 63)) as [l c']. destruct IH as (Hl & Hw & Hc' & Hv).
    assert (u64 (x .<< 1) .| c = 2 * (x mod 9223372036854775808) + c) as He.
    { rewrite Z.lor_comm. replace (u64 (x .<< 1)) with ((x mod 9223372036854775808) .<< 1).
      - rewrite lor_shiftl_add by (unfold is_word; lia). lia.
      - rewrite !Z.shiftl_mul_pow2 by done. unfold u64, is_word in *. dlia. }
    split_and!; cbn [length lval]; try lia.
    + apply Forall_cons_2; [|done]. rewrite He. unfold is_word in *. dlia.
    + rewrite Nat2Z.inj_succ, Z.pow_succ_r, He by lia. unfold is_word in Hx. rewrite Hs in *. dlia.
Qed.

(** ** The inverse of the bottom limb *)

(** Each step squares the error. *)
Lemma newton_ok n0 inv : (n0 * newton n0 inv) mod B64 = (1 - (1 - n0 * inv) ^ 2) mod B64.
Proof.
  unfold newton, u64. rewrite Z.mul_mod_idemp_r by done.
  replace (n0 * (inv * ((2 - (n0 * inv) mod B64) mod B64))) with ((n0 * inv) * ((2 - (n0 * inv) mod B64) mod B64)) by lia.
  rewrite Z.mul_mod_idemp_r by done. rewrite Z.mul_mod, Zminus_mod_idemp_r, <- Z.mul_mod by done. f_equal. lia.
Qed.

Lemma mod_eq_ex a b m : m <> 0 -> a mod m = b mod m <-> exists q, a = b + q * m.
Proof.
  intros Hm. split.
  - intros H. exists (a / m - b / m). pose proof (Z.div_mod a m Hm). pose proof (Z.div_mod b m Hm). lia.
  - intros [q ->]. by apply Z.mod_add.
Qed.

Lemma newton_error n0 inv k : 0 <= k ->
  (exists e, (n0 * inv) mod B64 = (1 - 2 ^ k * e) mod B64) ->
  exists e, (n0 * newton n0 inv) mod B64 = (1 - 2 ^ (k + k) * e) mod B64.
Proof.
  intros Hk [e [q He]%mod_eq_ex]; [|done]. exists (e * e). rewrite newton_ok, He, Z.pow_add_r by done.
  apply mod_eq_ex; [done|]. exists (2 * q * (2 ^ k * e) - q * q * B64). lia.
Qed.

Lemma n0_inverse_ok n0 : n0 mod 2 = 1 -> (n0 * n0_inverse n0 + 1) mod B64 = 0 /\ is_u64 (n0_inverse n0).
Proof.
  intros Hodd. unfold n0_inverse. split; [|apply u64_is_word].
  assert (exists e, (n0 * for_range 0 6 (fun _ inv => newton n0 inv) 1) mod B64 = (1 - 2 ^ 64 * e) mod B64) as [e He].
  { unfold for_range. change (seqZ 0 (6 - 0)) with [0; 1; 2; 3; 4; 5]. cbn [foldl].
    apply (newton_error n0 _ 32), (newton_error n0 _ 16), (newton_error n0 _ 8),
      (newton_error n0 _ 4), (newton_error n0 _ 2), (newton_error n0 _ 1); try done.
    exists (- (n0 / 2)). f_equal. dlia. }
  unfold u64. rewrite <- Z.add_mod_idemp_l, Z.mul_mod_idemp_r, Z.add_mod_idemp_l by done.
  replace (n0 * (0 - _) + 1) with (1 - n0 * for_range 0 6 (fun _ inv => newton n0 inv) 1) by lia.
  rewrite Zminus_mod, He. change (2 ^ 64) with B64. rewrite <- Zminus_mod.
  replace (1 - (1 - B64 * e)) with (e * B64) by lia. by rewrite Z.mod_mul.
Qed.

(** ** Montgomery multiplication *)

Lemma mac_limbs_ok a t k c : length a = length t -> words64 a -> words64 t -> is_u64 k -> is_u64 c ->
  let '(l, c') := mac_limbs a t k c in
  length l = length a /\ words64 l /\ is_u64 c' /\ lval l + B64 ^ zlen a * c' = lval t + k * lval a + c.
Proof.
  intros Hl Ha. revert t Hl c. induction Ha as [|x a Hx Ha IH]; intros t Hl c Ht Hk Hc; destruct Ht as [|y t Hy Ht];
    cbn [length mac_limbs lval] in *; try done.
  - split_and!; try done; lia.
  - assert (0 <= x * k + y + c < B64 * B64) as Hp by (unfold is_word in *; nia).
    unfold u128. rewrite (Z.mod_small (x * k + y + c)) by lia. set (p := x * k + y + c) in *.
    assert (u64 (p .>> 64) = p / B64) as ->.
    { rewrite Z.shiftr_div_pow2 by done. change (2 ^ 64) with B64. apply Z.mod_small. dlia. }
    assert (is_u64 (p / B64)) as Hq by (unfold is_word; dlia).
    specialize (IH t ltac:(lia) _ Ht Hk Hq). destruct (mac_limbs a t k (p / B64)) as [l c'].
    destruct IH as (Hl2 & Hw & Hc' & Hv). split_and!; cbn [length lval]; try done; try lia.
    + apply Forall_cons_2; [apply u64_is_word|done].
    + rewrite Nat2Z.inj_succ, Z.pow_succ_r by lia. unfold u64. subst p. dlia.
Qed.

(** What the multiplication needs of its modulus. *)
Record mont_mod (n : list Z) (n0inv : Z) : Prop := {
  mm_words : words64 n;
  mm_len : (0 < length n)%nat;
  mm_inv : (n.[0] * n0inv + 1) mod B64 = 0;
}.

Lemma get_head (l : list Z) : (0 < length l)%nat -> l = l.[0] :: tail l.
Proof. by destruct l; cbn; [lia|]. Qed.

(** One outer step divides by 2^64 exactly, modulo n, and stays small. *)
Lemma cios_step_ok a n n0inv bi tl top :
  mont_mod n n0inv -> length a = length n -> length tl = length n -> words64 a -> words64 tl ->
  is_u64 bi -> is_u64 top -> lval a <= lval n -> lval tl + B64 ^ zlen n * top < lval n + lval a ->
  let '(tl', top') := cios_step a n n0inv bi (tl, top) in
  length tl' = length n /\ words64 tl' /\ is_u64 top' /\ lval tl' + B64 ^ zlen n * top' < lval n + lval a /\
  exists m, B64 * (lval tl' + B64 ^ zlen n * top') = lval tl + B64 ^ zlen n * top + bi * lval a + m * lval n.
Proof.
  intros [Hn Hlen Hinv] Hla Hlt Ha Htl Hbi Htop Han Hbound. unfold cios_step.
  pose proof (mac_limbs_ok a tl bi 0 ltac:(lia) Ha Htl Hbi ltac:(done)) as Hmac.
  destruct (mac_limbs a tl bi 0) as [t1 c1]. destruct Hmac as (Hl1 & Hw1 & Hc1 & Hv1).
  assert (0 < B64 ^ zlen n) as HB by (apply B64_pow_pos; lia).
  pose proof (lval_bound n Hn) as Hnb. pose proof (lval_bound a Ha) as Hab. rewrite Hla in *.
  set (top1 := u64 (u128 (top + c1) .>> 64)). set (top0 := u64 (u128 (top + c1))).
  assert (top + c1 = top0 + B64 * top1 /\ is_u64 top0 /\ 0 <= top1 <= 1) as (Htop1 & Ht0 & Ht1).
  { subst top0 top1. unfold u128, u64, is_word in *. rewrite Z.shiftr_div_pow2 by done. change (2 ^ 64) with B64. dlia. }
  clearbody top0 top1.
  set (m := u64 (t1.[0] * n0inv)). assert (is_u64 m) as Hm by apply u64_is_word.
  assert (lval n = n.[0] + B64 * lval (tail n)) as Hnv by (rewrite (get_head n Hlen) at 1; done).
  rewrite (get_head n Hlen) in Hn. rewrite (get_head t1) in Hw1, Hv1 by lia.
  apply Forall_cons_iff in Hn as [Hn0 Hn']. apply Forall_cons_iff in Hw1 as [Ht0' Hw'].
  assert ((m * n.[0] + t1.[0]) mod B64 = 0) as Hzero.
  { subst m. unfold u64. rewrite <- Z.add_mod_idemp_l, Z.mul_mod_idemp_l, Z.add_mod_idemp_l by done.
    replace (t1.[0] * n0inv * n.[0] + t1.[0]) with (t1.[0] * (n.[0] * n0inv + 1)) by lia.
    rewrite <- Z.mul_mod_idemp_r, Hinv by done. by rewrite Z.mul_0_r. }
  clearbody m. set (p := u128 (m * n.[0] + t1.[0])).
  assert (p = m * n.[0] + t1.[0]) as Hp by (subst p; unfold u128, is_word in *; apply Z.mod_small; nia).
  assert (u64 (p .>> 64) = p / B64 /\ is_u64 (p / B64)) as [-> Hc].
  { rewrite Z.shiftr_div_pow2 by done. change (2 ^ 64) with B64. unfold u64, is_word in *.
    assert (0 <= p < B64 * B64) by nia. split; [apply Z.mod_small|]; dlia. }
  assert (p = B64 * (p / B64)) as Hpq by (rewrite <- Hp in Hzero; dlia).
  pose proof (mac_limbs_ok (tail n) (tail t1) m (p / B64)) as Hmac.
  assert (length (tail n) = length (tail t1)) as Hlt' by (destruct n, t1; cbn [tail length] in *; lia).
  specialize (Hmac Hlt' Hn' Hw' Hm Hc). generalize dependent (p / B64). intros c Hc Hpq Hmac.
  destruct (mac_limbs (tail n) (tail t1) m c) as [lo c2]. destruct Hmac as (Hl2 & Hw2 & Hc2 & Hv2).
  set (s := u128 (top0 + c2)).
  assert (u64 s + B64 * u64 (top1 + u64 (s .>> 64)) = top0 + c2 + B64 * top1 /\
          is_u64 (u64 (top1 + u64 (s .>> 64)))) as [Hs Hst].
  { split; [|apply u64_is_word]. subst s. unfold u128, u64, is_word in *. rewrite Z.shiftr_div_pow2 by done.
    change (2 ^ 64) with B64. dlia. }
  assert (zlen n = zlen (tail n) + 1) as Hzn by (destruct n; cbn [tail length] in *; lia).
  assert (B64 ^ zlen n = B64 * B64 ^ zlen (tail n)) as HBn by (rewrite Hzn, Z.add_1_r, Z.pow_succ_r by lia; lia).
  assert (B64 * (lval (lo ++ [u64 s]) + B64 ^ zlen n * u64 (top1 + u64 (s .>> 64))) =
          lval tl + B64 ^ zlen n * top + bi * lval a + m * lval n) as Hval.
  { rewrite lval_app, Hl2, HBn. cbn [lval] in *. rewrite HBn in *.
    generalize dependent (u64 (top1 + u64 (s .>> 64))). generalize dependent (B64 ^ zlen (tail n)).
    intros Bn. intros. apply (f_equal (Z.mul Bn)) in Hs. apply (f_equal (Z.mul Bn)) in Htop1. lia. }
  split; [rewrite length_app; cbn [length]; lia|].
  split; [apply Forall_app_2; [done|apply Forall_cons_2; [apply u64_is_word|by apply Forall_nil]]|].
  split; [done|]. split; [|by exists m].
  apply (Zmult_gt_0_lt_reg_r _ _ B64); [lia|]. rewrite Z.mul_comm, Hval. unfold is_word in *. 
  assert (0 <= lval n) by lia. nia.
Qed.

Lemma cios_loop_ok a n n0inv b : mont_mod n n0inv -> length a = length n -> words64 a -> lval a <= lval n ->
  words64 b -> forall tl top,
  length tl = length n -> words64 tl -> is_u64 top -> lval tl + B64 ^ zlen n * top < lval n + lval a ->
  let '(tl', top') := foldl (fun t bi => cios_step a n n0inv bi t) (tl, top) b in
  length tl' = length n /\ words64 tl' /\ is_u64 top' /\ lval tl' + B64 ^ zlen n * top' < lval n + lval a /\
  exists m, B64 ^ zlen b * (lval tl' + B64 ^ zlen n * top') =
    lval tl + B64 ^ zlen n * top + lval a * lval b + m * lval n.
Proof.
  intros Hn Hla Ha Han Hb. induction Hb as [|bi b Hbi Hb IH]; intros tl top Hlt Htl Htop Hbound; cbn [foldl length lval].
  - split_and!; try done. exists 0. rewrite Z.pow_0_r. lia.
  - pose proof (cios_step_ok a n n0inv bi tl top Hn Hla Hlt Ha Htl Hbi Htop Han Hbound) as Hs.
    destruct (cios_step a n n0inv bi (tl, top)) as [t1 top1]. destruct Hs as (Hl1 & Hw1 & Ht1 & Hb1 & m1 & Hm1).
    specialize (IH t1 top1 Hl1 Hw1 Ht1 Hb1). destruct (foldl _ (t1, top1) b) as [t2 top2].
    destruct IH as (Hl2 & Hw2 & Ht2 & Hb2 & m2 & Hm2). split_and!; try done.
    exists (m1 + B64 * m2). rewrite Nat2Z.inj_succ, Z.pow_succ_r by lia.
    rewrite <- Z.mul_assoc, Hm2. lia.
Qed.

Lemma cios_ok a b n n0inv : mont_mod n n0inv -> length a = length n -> words64 a -> lval a <= lval n -> 0 < lval n ->
  words64 b ->
  let '(t, top) := cios a b n n0inv in
  length t = length n /\ words64 t /\ is_u64 top /\ lval t + B64 ^ zlen n * top < 2 * lval n /\
  exists m, B64 ^ zlen b * (lval t + B64 ^ zlen n * top) = lval a * lval b + m * lval n.
Proof.
  intros Hn Hla Ha Han Hpos Hb. unfold cios. pose proof (lval_bound a Ha).
  pose proof (cios_loop_ok a n n0inv b Hn Hla Ha Han Hb (replicate (length n) 0) 0) as H1.
  rewrite length_replicate, lval_zeros in H1. specialize (H1 eq_refl (words64_zeros _) ltac:(done) ltac:(lia)).
  destruct (foldl _ _ b) as [t top]. destruct H1 as (H2 & H3 & H4 & H5 & m & Hm). split_and!; try done; [lia|].
  exists m. lia.
Qed.

(** A number of len limbs and a carry, once reduced by a modulus it is below twice of. *)
Definition cond_sub (t n : list Z) (top : Z) : list Z :=
  if negb (top =? 0) || ge_limbs t n then fst (sub_limbs t n 0) else t.
Lemma cond_sub_ok t n top : length t = length n -> words64 t -> words64 n -> 0 <= top ->
  lval t + B64 ^ zlen n * top <= 2 * lval n ->
  length (cond_sub t n top) = length n /\ words64 (cond_sub t n top) /\
  lval (cond_sub t n top) =
    (if lval n <=? lval t + B64 ^ zlen n * top then lval t + B64 ^ zlen n * top - lval n
     else lval t + B64 ^ zlen n * top).
Proof.
  intros Hl Ht Hn Htop Hb. unfold cond_sub. rewrite ge_limbs_ok by done.
  pose proof (sub_limbs_ok t n 0 Hl Ht Hn ltac:(lia)) as Hs. destruct (sub_limbs t n 0) as [l c].
  destruct Hs as (Hll & Hw & Hc & Hv). cbn [fst]. rewrite Hl in *.
  pose proof (lval_bound t Ht). pose proof (lval_bound n Hn). pose proof (lval_bound l Hw). rewrite Hl, Hll in *.
  assert (0 < B64 ^ zlen n) by (apply B64_pow_pos; lia).
  destruct (Z.eqb_spec top 0) as [->|]; cbn [negb orb].
  - replace (lval t + B64 ^ zlen n * 0) with (lval t) by lia.
    destruct (Z.leb_spec (lval n) (lval t)); split_and!; try done. assert (c = 0 \/ c = 1) as [->| ->] by lia; lia.
  - assert (top = 1) as -> by nia. rewrite (proj2 (Z.leb_le _ _)) by lia. split_and!; try done.
    assert (c = 0 \/ c = 1) as [->| ->] by lia; lia.
Qed.

(** a = 2a mod n. *)
Definition dbl_limbs (a n : list Z) : list Z :=
  let '(l, carry) := shl1_limbs a 0 in cond_sub l n carry.
Lemma dbl_limbs_ok a n : length a = length n -> words64 a -> words64 n -> lval a <= lval n ->
  length (dbl_limbs a n) = length n /\ words64 (dbl_limbs a n) /\ lval (dbl_limbs a n) <= lval n /\
  exists m, lval (dbl_limbs a n) = 2 * lval a + m * lval n.
Proof.
  intros Hl Ha Hn Hle. unfold dbl_limbs.
  pose proof (shl1_limbs_ok a 0 Ha ltac:(lia)) as Hs. destruct (shl1_limbs a 0) as [l c].
  destruct Hs as (Hll & Hw & Hc & Hv). rewrite Hl in *.
  destruct (cond_sub_ok l n c) as (H1 & H2 & H3); [lia|done|done|lia|lia|].
  split_and!; try done; rewrite H3; case_bool; try lia.
  - exists (-1). lia.
  - exists 0. lia.
Qed.

(** Doubling over and over: a power of two. *)
Lemma dbl_iter_ok a n k : 0 <= k -> length a = length n -> words64 a -> words64 n -> lval a <= lval n ->
  let r := for_range 0 k (fun _ a => dbl_limbs a n) a in
  length r = length n /\ words64 r /\ lval r <= lval n /\ exists m, lval r = 2 ^ k * lval a + m * lval n.
Proof.
  intros Hk Hl Ha Hn Hle. cbv zeta.
  apply (for_range_inv (fun i r => length r = length n /\ words64 r /\ lval r <= lval n /\
    exists m, lval r = 2 ^ i * lval a + m * lval n)); [done| |].
  - split_and!; try done. exists 0. lia.
  - intros i r Hi (H1 & H2 & H3 & m & H4). destruct (dbl_limbs_ok r n H1 H2 Hn H3) as (G1 & G2 & G3 & m' & G4).
    split_and!; try done. exists (2 * m + m'). rewrite G4, H4, Z.add_1_r, Z.pow_succ_r by lia. lia.
Qed.

(** ** R is invertible modulo an odd number *)

Lemma pow2_inverse N k : 0 < N -> N mod 2 = 1 -> 0 <= k -> (2 ^ k * ((N + 1) / 2) ^ k) mod N = 1 mod N.
Proof.
  intros HN Hodd Hk. rewrite <- Z.pow_mul_l. replace (2 * ((N + 1) / 2)) with (1 + 1 * N) by dlia.
  rewrite <- Z.mod_pow_l, Z.mod_add, Z.mod_pow_l by lia. by rewrite Z.pow_1_l.
Qed.
Lemma B64_pow k : 0 <= k -> B64 ^ k = 2 ^ (64 * k).
Proof. intros. change B64 with (2 ^ 64). by rewrite <- Z.pow_mul_r. Qed.
Lemma R_cancel N k x y : 0 < N -> N mod 2 = 1 -> 0 <= k ->
  (B64 ^ k * x) mod N = (B64 ^ k * y) mod N -> x mod N = y mod N.
Proof.
  intros HN Hodd Hk H. rewrite B64_pow in H by done.
  pose proof (pow2_inverse N (64 * k) HN Hodd ltac:(lia)) as Hi. set (r := ((N + 1) / 2) ^ (64 * k)) in *.
  apply (f_equal (fun z => (r * z) mod N)) in H. rewrite !Z.mul_mod_idemp_r, !Z.mul_assoc in H by lia.
  rewrite (Z.mul_comm r), <- !(Z.mul_mod_idemp_l (_ * r)), Hi, !Z.mul_mod_idemp_l, !Z.mul_1_l in H by lia. done.
Qed.

(** ** Bytes *)

Lemma lval_testbit l n : words64 l -> 0 <= n -> Z.testbit (lval l) n = Z.testbit l.[n / 64] (n mod 64).
Proof.
  intros Hl. revert n. induction Hl as [|b l Hb _ IH]; intros n Hn; cbn [lval].
  - unfold getz. destruct (Z.to_nat _); cbn; by rewrite !Z.testbit_0_l.
  - rewrite Z.mul_comm. change B64 with (2 ^ 64). rewrite testbit_add_shift by done.
    destruct (Z.ltb_spec n 64).
    + rewrite Z.div_small, Z.mod_small by lia. done.
    + rewrite IH by lia. replace ((n - 64) / 64) with (n / 64 - 1) by dlia.
      replace ((n - 64) mod 64) with (n mod 64) by dlia. unfold getz.
      replace (Z.to_nat (n / 64)) with (S (Z.to_nat (n / 64 - 1))) by dlia. done.
Qed.

(** Bits of a byte moved up inside a limb. *)
Lemma testbit_byte_at b r k : is_u8 b -> 0 <= r < 8 -> 0 <= k < 64 ->
  Z.testbit (u64 (b .<< (r * 8))) k = (k / 8 =? r) && Z.testbit b (k mod 8).
Proof.
  intros Hb Hr Hk. rewrite testbit_u64, (proj2 (Z.ltb_lt _ _)), Z.shiftl_spec by lia. cbn [andb].
  destruct (Z.eqb_spec (k / 8) r) as [<-|Hne]; cbn [andb]; [f_equal; dlia|].
  destruct (decide (k < r * 8)); [apply Z.testbit_neg_r; lia|]. apply (is_word_testbit 8); [done|done|dlia].
Qed.

(** After i bytes: the limbs hold the bits of those bytes. *)
Definition loaded (b : list Z) (limbs : nat) (i : Z) (v : list Z) : Prop :=
  length v = limbs /\ words64 v /\ forall n, 0 <= n ->
  Z.testbit (lval v) n =
    let j := zlen b - 1 - n / 8 in (0 <=? j) && (j <? i) && Z.testbit b.[j] (n mod 8).

Lemma loaded_step b limbs i v : bytes b -> zlen b <= 8 * Z.of_nat limbs -> 0 <= i < zlen b -> loaded b limbs i v ->
  let pos := zlen b - 1 - i in
  loaded b limbs (i + 1) v.[pos / 8 := v.[pos / 8] .| u64 (b.[i] .<< (pos mod 8 * 8))].
Proof.
  intros Hb Hl Hi (H1 & H2 & H3). cbv zeta. set (pos := zlen b - 1 - i).
  assert (is_u8 b.[i]) as Hbi by (by apply (Forall_getz (is_word 8))).
  assert (is_u64 v.[pos / 8]) as Hv by (by apply (Forall_getz (is_word 64))).
  assert (words64 v.[pos / 8 := v.[pos / 8] .| u64 (b.[i] .<< (pos mod 8 * 8))]) as Hw.
  { apply Forall_setz; [done|]. auto with words. }
  split; [by rewrite length_setz|]. split; [done|]. intros n Hn. rewrite lval_testbit by done.
  specialize (H3 n Hn). rewrite lval_testbit in H3 by done. cbv zeta in *.
  destruct (Z.eqb_spec (n / 64) (pos / 8)) as [He|Hne].
  - rewrite He, getz_setz_eq, Z.lor_spec, <- He, H3 by dlia.
    rewrite testbit_byte_at by first [done | dlia].
    replace (n mod 64 / 8 =? pos mod 8) with (zlen b - 1 - n / 8 =? i).
    2: { apply eq_bool_prop_intro. rewrite !Is_true_true, !Z.eqb_eq. subst pos. dlia. }
    replace ((n mod 64) mod 8) with (n mod 8) by dlia.
    destruct (Z.eqb_spec (zlen b - 1 - n / 8) i) as [->|].
    + rewrite (proj2 (Z.leb_le 0 i)), (proj2 (Z.ltb_ge i i)), (proj2 (Z.ltb_lt i (i + 1))) by lia. done.
    + cbn [andb]. rewrite orb_false_r. do 2 f_equal. repeat case_bool; lia || done.
  - rewrite getz_setz_ne, H3 by (subst pos; dlia). do 2 f_equal. subst pos. repeat case_bool; try done; dlia.
Qed.

Lemma load_be_ok b limbs : bytes b -> zlen b <= 8 * Z.of_nat limbs ->
  length (load_be b limbs) = limbs /\ words64 (load_be b limbs) /\ lval (load_be b limbs) = be_val b.
Proof.
  intros Hb Hl. assert (loaded b limbs (zlen b) (load_be b limbs)) as (H1 & H2 & H3).
  { unfold load_be. apply (for_range_inv (loaded b limbs)); [lia| |].
    - split; [apply length_replicate|]. split; [apply words64_zeros|]. intros n Hn. cbv zeta.
      rewrite lval_zeros, Z.testbit_0_l. repeat case_bool; try done. lia.
    - intros i v Hi Hv. by apply loaded_step. }
  split; [done|]. split; [done|]. bits. rewrite H3 by done. cbv zeta.
  destruct (Z.ltb_spec n (8 * zlen b)).
  - rewrite be_val_testbit by done. rewrite (proj2 (Z.leb_le _ _)), (proj2 (Z.ltb_lt _ _)) by dlia. done.
  - rewrite (proj2 (Z.leb_gt _ _)) by dlia. cbn [andb]. symmetry. apply (is_word_testbit (8 * zlen b)); [lia| |done].
    pose proof (be_val_bound b Hb) as Hbv. change 256 with (2 ^ 8) in Hbv. by rewrite <- Z.pow_mul_r in Hbv by lia.
Qed.

Lemma be_bytes_getz n x i : 0 <= i < Z.of_nat n -> (be_bytes n x).[i] = u8 (x .>> (8 * (Z.of_nat n - 1 - i))).
Proof.
  intros Hi. unfold be_bytes. rewrite getz_rev by (rewrite length_le_bytes; lia). rewrite length_le_bytes.
  unfold getz. rewrite nth_lookup, le_bytes_lookup by lia. cbn. do 3 f_equal. lia.
Qed.
Lemma store_be_ok v len : words64 v -> 0 <= len -> store_be v len = be_bytes (Z.to_nat len) (lval v).
Proof.
  intros Hv Hl. unfold store_be. apply (list_eq_getz 0); rewrite length_fmap, length_seqZ; [by rewrite length_be_bytes|].
  intros i Hi. rewrite getz_fmap_seqZ, be_bytes_getz by lia. cbv zeta. rewrite Z.add_0_l, Z2Nat.id by lia.
  bits. rewrite testbit_u8 by done. destruct (Z.ltb_spec n 8); cbn [andb].
  - rewrite Z.shiftr_spec, lval_testbit by (done || lia).
    replace ((n + 8 * (len - 1 - i)) / 64) with ((len - 1 - i) / 8) by dlia.
    replace ((n + 8 * (len - 1 - i)) mod 64) with ((len - 1 - i) mod 8 * 8 + n) by dlia.
    destruct (Z.ltb_spec ((len - 1 - i) / 8) (zlen v)).
    + rewrite testbit_u8, (proj2 (Z.ltb_lt n 8)) by lia. rewrite Z.shiftr_spec by lia. cbn [andb]. f_equal. lia.
    + rewrite Z.testbit_0_l. unfold getz. rewrite nth_overflow by lia. by rewrite Z.testbit_0_l.
  - case_bool; [|apply Z.testbit_0_l]. rewrite testbit_u8 by done. by rewrite (proj2 (Z.ltb_ge n 8)).
Qed.

(** ** Left to right binary loops *)

Lemma div_pow2_step e i : 0 <= i -> e / 2 ^ i = 2 * (e / 2 ^ (i + 1)) + Z.b2z (Z.testbit e i).
Proof.
  intros Hi. rewrite Z.pow_add_r, <- Z.div_div by (try lia; by apply Z.pow_nonzero).
  rewrite Z.testbit_spec' by done. change (2 ^ 1) with 2. apply Z.div_mod. lia.
Qed.
(** A loop over the bits of e from the top: if every step takes q to 2q and the bit,
    the loop takes nought to e. *)
Lemma binary_loop {S} (R : Z -> S -> Prop) e k (step : Z -> S -> S) s :
  0 <= k -> 0 <= e < 2 ^ k -> R 0 s ->
  (forall i q s, 0 <= i < k -> 0 <= q -> R q s -> R (2 * q + Z.b2z (Z.testbit e i)) (step i s)) ->
  R e (for_down 0 k step s).
Proof.
  intros Hk He H0 Hstep. rewrite <- (Z.div_1_r e). change 1 with (2 ^ 0).
  apply (for_down_inv (fun i s => R (e / 2 ^ i) s)); [done|by rewrite Z.div_small|].
  intros i t Hi Ht. rewrite (div_pow2_step e i) by lia. apply Hstep; [done| |done].
  apply Z.div_pos; [lia|]. apply Z.pow_pos_nonneg; lia.
Qed.
Lemma limb_bit l i : words64 l -> 0 <= i -> (l.[i / 64] .>> (i mod 64)) .& 1 = Z.b2z (Z.testbit (lval l) i).
Proof. intros Hl Hi. rewrite land_1, lval_testbit, Z.testbit_spec', Z.shiftr_div_pow2 by (done || dlia). done. Qed.
Lemma b2z_nonzero b : negb (Z.b2z b =? 0) = b.
Proof. by destruct b. Qed.

(** ** Montgomery form *)

Definition mont_limbs (a b n : list Z) (n0inv : Z) : list Z :=
  let '(t, top) := cios a b n n0inv in cond_sub t n top.

Lemma lval_odd n : n.[0] mod 2 = 1 -> lval n mod 2 = 1 /\ (0 < length n)%nat.
Proof.
  destruct n as [|x n]; [done|]. cbn [lval length]. change (x :: n).[0] with x. intros H. split; [dlia|lia].
Qed.
Lemma mont_mod_intro n : words64 n -> n.[0] mod 2 = 1 -> mont_mod n (n0_inverse n.[0]).
Proof. intros Hn Ho. constructor; [done|by apply lval_odd|by apply n0_inverse_ok]. Qed.

Section mont.
Context (n : list Z) (n0inv : Z) (Hn : mont_mod n n0inv) (Hodd : lval n mod 2 = 1).

Notation N := (lval n).
Notation R := (B64 ^ zlen n).

(** Limbs of the modulus' length, of a number of at most the modulus. *)
Definition in_field (x : list Z) : Prop := length x = length n /\ words64 x /\ lval x <= N.
(** [mrep x v]: x is v in Montgomery form. *)
Definition mrep (x : list Z) (v : Z) : Prop := in_field x /\ lval x mod N = (R * v) mod N.

Lemma N_pos : 0 < N.
Proof. pose proof (lval_bound n (mm_words _ _ Hn)). destruct (decide (N = 0)) as [E|]; [by rewrite E in Hodd|lia]. Qed.

Lemma mont_limbs_ok a b : in_field a -> length b = length n -> words64 b ->
  in_field (mont_limbs a b n n0inv) /\ lval (mont_limbs a b n n0inv) < N /\
  (R * lval (mont_limbs a b n n0inv)) mod N = (lval a * lval b) mod N.
Proof.
  intros (Hla & Ha & Han) Hlb Hb. pose proof N_pos. unfold mont_limbs.
  pose proof (cios_ok a b n n0inv Hn Hla Ha Han ltac:(done) Hb) as Hc.
  destruct (cios a b n n0inv) as [t top]. destruct Hc as (H1 & H2 & H3 & H4 & m & Hm).
  destruct (cond_sub_ok t n top H1 H2 (mm_words _ _ Hn) ltac:(unfold is_word in *; lia) ltac:(lia)) as (G1 & G2 & G3).
  rewrite Hlb in Hm. unfold in_field. rewrite G3.
  destruct (Z.leb_spec N (lval t + R * top)); split_and!; try done; try lia; (apply mod_eq_ex; [lia|]).
  - exists (m - R). lia.
  - exists m. lia.
Qed.

Lemma mrep_ext x v w : mrep x v -> v mod N = w mod N -> mrep x w.
Proof.
  intros [H1 H2] Hv. split; [done|]. pose proof N_pos. by rewrite H2, <- Z.mul_mod_idemp_r, Hv, Z.mul_mod_idemp_r by lia.
Qed.
Lemma mrep_mul x y a b : mrep x a -> mrep y b -> mrep (mont_limbs x y n n0inv) (a * b).
Proof.
  intros [Hx Ea] [(Hly & Hy & Hyn) Eb]. destruct (mont_limbs_ok x y Hx Hly Hy) as (H1 & H2 & H3). split; [done|].
  pose proof N_pos. apply (R_cancel N (zlen n)); [lia|done|lia|].
  rewrite H3, Z.mul_mod, Ea, Eb, <- Z.mul_mod by lia. f_equal. lia.
Qed.
(** Into Montgomery form by a product with R^2, and out of it by one with 1. *)
Lemma mrep_enter x rr : in_field x -> in_field rr -> lval rr mod N = (R * R) mod N -> mrep (mont_limbs x rr n n0inv) (lval x).
Proof.
  intros Hx (Hl & Hr & Hle) Err. destruct (mont_limbs_ok x rr Hx Hl Hr) as (H1 & H2 & H3). split; [done|].
  pose proof N_pos. apply (R_cancel N (zlen n)); [lia|done|lia|].
  rewrite H3, <- Z.mul_mod_idemp_r, Err, Z.mul_mod_idemp_r by lia. f_equal. lia.
Qed.
Lemma mrep_leave x one v : mrep x v -> length one = length n -> words64 one -> lval one = 1 ->
  lval (mont_limbs x one n n0inv) = v mod N /\ in_field (mont_limbs x one n n0inv).
Proof.
  intros [Hx Ev] Hl Ho Hone. destruct (mont_limbs_ok x one Hx Hl Ho) as (H1 & H2 & H3). split; [|done].
  pose proof N_pos. rewrite Hone, Z.mul_1_r, Ev in H3. apply R_cancel in H3; [|lia|done|lia].
  rewrite <- H3. symmetry. apply Z.mod_small. split; [|done].
  destruct H1 as (G1 & G2 & _). apply lval_bound in G2. lia.
Qed.
End mont.
Arguments in_field : clear implicits.
Arguments mrep : clear implicits.
