(* ===== verification/Rsa.v ===== *)
(** RSA signature verification (kernel/rsa.c, include/rsa.h): the modular
    exponentiation in Montgomery form, and the two paddings. [Limbs] has the
    loops on limbs; the hash of the mask generating function is [Sha256.sha256]. *)
From Stdlib Require Import Btauto.
From S2P Require Import Prelude Hash Sha256 Limbs.

Definition RSA_MAX_BYTES : Z := 512.
Definition LIMBS : Z := RSA_MAX_BYTES / 8.

(** A [bn_t]: the limbs in use, [len] of them. *)
Definition bn_t : Type := list Z.

(** [rsa_key_t]: the array of the modulus, its length in use, the exponent. *)
Record rsa_key_t := RsaKey { kn : list Z; n_len : Z; ke : Z }.

Definition bn_zero (len : nat) : bn_t := replicate len 0.

Definition bn_from_bytes (b : list Z) (want_limbs : Z) : option bn_t :=
  if LIMBS <? want_limbs then None else
  if want_limbs * 8 <? zlen b then None else
  Some (load_be b (Z.to_nat want_limbs)).

Definition bn_to_bytes (a : bn_t) (len : Z) : list Z := store_be a len.

Definition bn_ge (a b : bn_t) : bool := ge_limbs a b.
Definition bn_sub (a b : bn_t) : bn_t := fst (sub_limbs a b 0).

Definition bn_dbl_mod (a n : bn_t) : bn_t :=
  let '(a, carry) := shl1_limbs a 0 in
  if negb (carry =? 0) || bn_ge a n then bn_sub a n else a.

Definition mont_mul (a b n : bn_t) (n0inv : Z) : bn_t :=
  let '(t, top) := cios a b n n0inv in
  if negb (top =? 0) || bn_ge t n then bn_sub t n else t.

(** [while (top > 0 && !((e >> top) & 1)) top--]. *)
Fixpoint top_bit (e : Z) (top : nat) : nat :=
  match top with
  | O => O
  | S t => if negb ((e .>> Z.of_nat top) .& 1 =? 0) then top else top_bit e t
  end.

Definition exp_step (e : Z) (base_m n : bn_t) (n0inv : Z) (i : Z) (acc : bn_t) : bn_t :=
  let sq := mont_mul acc acc n n0inv in
  if negb ((e .>> i) .& 1 =? 0) then mont_mul sq base_m n n0inv else sq.

Definition bn_mod_exp (base : bn_t) (e : Z) (n : bn_t) : bn_t :=
  let n0inv := n0_inverse n.[0] in
  let len := length n in
  let r2 := (bn_zero len).[0 := 1] in
  let r2 := for_range 0 (2 * Z.of_nat len * 64) (fun _ r2 => bn_dbl_mod r2 n) r2 in
  let base_m := mont_mul base r2 n n0inv in
  let one := (bn_zero len).[0 := 1] in
  let acc := mont_mul one r2 n n0inv in
  let top := top_bit e 31 in
  let acc := for_down 0 (Z.of_nat top + 1) (exp_step e base_m n n0inv) acc in
  mont_mul acc one n n0inv.

(** The block a signature opens to, or nothing when it is refused. *)
Definition rsa_public (key : rsa_key_t) (sig : list Z) (em_len : Z) : option (list Z) :=
  if (n_len key =? 0) || (RSA_MAX_BYTES <? n_len key) then None else
  if negb (zlen sig =? n_len key) || negb (em_len =? n_len key) then None else
  if (ke key <? 3) || (ke key .& 1 =? 0) then None else
  let limbs := u32 (n_len key + 7) / 8 in
  match bn_from_bytes (take (Z.to_nat (n_len key)) (kn key)) limbs with None => None | Some n =>
  match bn_from_bytes sig limbs with None => None | Some s =>
  if n.[0] .& 1 =? 0 then None else
  if bn_ge s n then None else
  Some (bn_to_bytes (bn_mod_exp s (ke key) n) em_len)
  end end.

(** [same(a, b, len)]. *)
Definition same (a b : list Z) (len : Z) : bool :=
  for_range 0 len (fun i diff => diff .| u8 (a.[i] .^ b.[i])) 0 =? 0.

Definition SHA256_DER : list Z :=
  [0x30; 0x31; 0x30; 0x0d; 0x06; 0x09; 0x60; 0x86; 0x48; 0x01; 0x65;
   0x03; 0x04; 0x02; 0x01; 0x05; 0x00; 0x04; 0x20].
Definition SHA384_DER : list Z :=
  [0x30; 0x41; 0x30; 0x0d; 0x06; 0x09; 0x60; 0x86; 0x48; 0x01; 0x65;
   0x03; 0x04; 0x02; 0x02; 0x05; 0x00; 0x04; 0x30].
Definition SHA512_DER : list Z :=
  [0x30; 0x51; 0x30; 0x0d; 0x06; 0x09; 0x60; 0x86; 0x48; 0x01; 0x65;
   0x03; 0x04; 0x02; 0x03; 0x05; 0x00; 0x04; 0x40].

Definition der_for (hash_len : Z) : option (list Z) :=
  if hash_len =? 32 then Some SHA256_DER else
  if hash_len =? 48 then Some SHA384_DER else
  if hash_len =? 64 then Some SHA512_DER else None.

Definition rsa_verify_pkcs1 (key : rsa_key_t) (sig hash : list Z) : bool :=
  let hash_len := zlen hash in
  match der_for hash_len with None => false | Some der =>
  let der_len := zlen der in
  match rsa_public key sig (n_len key) with None => false | Some em =>
  let want := 3 + der_len + hash_len in
  if n_len key <? want + 8 then false else
  let pad_len := n_len key - 2 - 1 - der_len - hash_len in
  let bad := em.[0] in
  let bad := bad .| u8 (em.[1] .^ 0x01) in
  let bad := for_range 0 pad_len (fun i bad => bad .| u8 (em.[2 + i] .^ 0xff)) bad in
  let bad := bad .| em.[2 + pad_len] in
  if negb (bad =? 0) then false else
  let p := drop (Z.to_nat (3 + pad_len)) em in
  if negb (same p der der_len) then false else
  same (drop (Z.to_nat der_len) p) hash hash_len
  end end.

(** [mgf1], [need] bytes from the end of the mask; a round makes at least one. *)
Fixpoint mgf1_loop (fuel : nat) (seed : list Z) (counter need : Z) (mask : list Z) : list Z :=
  match fuel with
  | O => mask
  | S fuel =>
      if need =? 0 then mask else
      let c := [u8 (counter .>> 24); u8 (counter .>> 16); u8 (counter .>> 8); u8 counter] in
      let s := sha256_init stack_stream in
      let s := sha256_update s seed in
      let s := sha256_update s c in
      let block := sha256_final s in
      let n := if SHA256_SIZE <? need then SHA256_SIZE else need in
      mgf1_loop fuel seed (u32 (counter + 1)) (need - n) (mask ++ take (Z.to_nat n) block)
  end.
Definition mgf1 (seed : list Z) (mask_len : Z) : list Z := mgf1_loop (Z.to_nat mask_len) seed 0 mask_len [].

(** [while (i < stop && db[i] == 0) i++], from the left. *)
Fixpoint zeros_upto (fuel : nat) (stop : Z) (db : list Z) (i : Z) : Z :=
  match fuel with
  | O => i
  | S fuel => if (i <? stop) && (db.[i] =? 0) then zeros_upto fuel stop db (i + 1) else i
  end.

Definition rsa_verify_pss (key : rsa_key_t) (sig hash : list Z) : bool :=
  if negb (zlen hash =? SHA256_SIZE) then false else
  let em_len := n_len key in
  match rsa_public key sig em_len with None => false | Some em =>
  let h_len := SHA256_SIZE in let s_len := SHA256_SIZE in
  if em_len <? h_len + s_len + 2 then false else
  if negb (em.[em_len - 1] =? 0xbc) then false else
  let masked_db := em in
  let h := take 32 (drop (Z.to_nat (em_len - h_len - 1)) em) in
  let db_len := em_len - h_len - 1 in
  if negb (em.[0] .& 0x80 =? 0) then false else
  let db := mgf1 h db_len in
  let db := zip_with Z.lxor db (take (Z.to_nat db_len) masked_db) in
  let db := db.[0 := db.[0] .& 0x7f] in
  let i := zeros_upto (Z.to_nat db_len) (db_len - s_len - 1) db 0 in
  if negb (i =? db_len - s_len - 1) then false else
  if negb (db.[i] =? 0x01) then false else
  let salt := drop (Z.to_nat (db_len - s_len)) db in
  let s := sha256_init stack_stream in
  let s := sha256_update s (replicate 8 0) in
  let s := sha256_update s (take 32 hash) in
  let s := sha256_update s salt in
  let want := sha256_final s in
  same want h h_len
  end.

(** ** The exponentiation *)

Lemma bn_dbl_mod_eq a n : bn_dbl_mod a n = dbl_limbs a n.
Proof. done. Qed.
Lemma bn_mont_mul_eq a b n n0inv : mont_mul a b n n0inv = mont_limbs a b n n0inv.
Proof. done. Qed.

Lemma set_one len : (0 < len)%nat -> (bn_zero len).[0 := 1] = 1 :: replicate (len - 1) 0.
Proof. destruct len as [|len]; [lia|]. intros _. cbn. by rewrite Nat.sub_0_r. Qed.
Lemma one_ok len : (0 < len)%nat ->
  length (bn_zero len).[0 := 1] = len /\ words64 (bn_zero len).[0 := 1] /\ lval (bn_zero len).[0 := 1] = 1.
Proof.
  intros H. rewrite set_one by done. rewrite lval_one. cbn [length]. rewrite length_replicate.
  split; [lia|]. split; [|done]. apply Forall_cons_2; [done|apply words64_zeros].
Qed.

Lemma bit_odd e i : 0 <= i -> negb ((e .>> i) .& 1 =? 0) = Z.odd (e / 2 ^ i).
Proof.
  intros Hi. rewrite land_1, Z.shiftr_div_pow2 by done. rewrite Zmod_odd. by destruct (Z.odd _).
Qed.

Lemma top_bit_ok e t : 0 <= e < 2 ^ (Z.of_nat t + 1) -> e < 2 ^ (Z.of_nat (top_bit e t) + 1).
Proof.
  induction t as [|t IH]; intros He; cbn [top_bit]; [lia|].
  rewrite bit_odd by lia. destruct (Z.odd _) eqn:E; [lia|]. apply IH. split; [lia|].
  replace (Z.of_nat t + 1) with (Z.of_nat (S t)) by lia.
  rewrite Z.pow_add_r in He by lia.
  pose proof (Z.pow_pos_nonneg 2 (Z.of_nat (S t))) as Hp. specialize (Hp ltac:(lia) ltac:(lia)).
  destruct (decide (e < 2 ^ Z.of_nat (S t))); [done|]. exfalso.
  assert (e / 2 ^ Z.of_nat (S t) = 1) as Hq by (symmetry; apply Z.div_unique with (e - 2 ^ Z.of_nat (S t)); lia).
  by rewrite Hq in E.
Qed.

Lemma exp_loop_ok base_m n n0inv e b acc top :
  mont_mod n n0inv -> lval n mod 2 = 1 -> mrep n base_m b -> mrep n acc 1 -> 0 <= top -> 0 <= e < 2 ^ (top + 1) ->
  mrep n (for_down 0 (top + 1) (exp_step e base_m n n0inv) acc) (b ^ e).
Proof.
  intros Hn Hodd Hb Hacc Ht He.
  apply (binary_loop (fun q a => mrep n a (b ^ q))); [lia|done|done|].
  intros i q a Hi Hq Ha. unfold exp_step. rewrite land_1, Z.shiftr_div_pow2, <- Z.testbit_spec', b2z_nonzero, !bn_mont_mul_eq by lia.
  pose proof (mrep_mul n n0inv Hn Hodd _ _ _ _ Ha Ha) as Hsq. destruct (Z.testbit e i); cbn [Z.b2z].
  - replace (2 * q + 1) with (q + q + 1) by lia. rewrite !Z.pow_add_r, Z.pow_1_r by lia.
    by apply (mrep_mul n n0inv Hn Hodd).
  - replace (2 * q + 0) with (q + q) by lia. by rewrite Z.pow_add_r by lia.
Qed.

(** [bn_mod_exp] is the power, for any modulus that is odd. *)
Lemma bn_mod_exp_ok base e n :
  words64 n -> n.[0] mod 2 = 1 -> in_field n base -> 0 <= e < 2 ^ 32 ->
  in_field n (bn_mod_exp base e n) /\ lval (bn_mod_exp base e n) = lval base ^ e mod lval n.
Proof.
  intros Hw H0 Hbase He. pose proof (mont_mod_intro n Hw H0) as Hn. destruct (lval_odd n H0) as [Hodd Hlen].
  unfold bn_mod_exp. set (n0inv := n0_inverse n.[0]) in *.
  destruct (one_ok (length n) Hlen) as (L1 & W1 & V1). set (one := (bn_zero (length n)).[0 := 1]) in *.
  pose proof (N_pos n n0inv Hn Hodd) as HN.
  assert (in_field n one) as F1 by (split_and!; try done; lia).
  destruct (dbl_iter_ok one n (2 * Z.of_nat (length n) * 64) ltac:(lia) L1 W1 Hw ltac:(lia)) as (L2 & W2 & V2 & m & Hm).
  change (for_range 0 (2 * zlen n * 64) (fun _ r2 => bn_dbl_mod r2 n) one)
    with (for_range 0 (2 * zlen n * 64) (fun _ a => dbl_limbs a n) one).
  set (r2 := for_range 0 (2 * zlen n * 64) _ one) in *.
  assert (lval r2 mod lval n = (B64 ^ zlen n * B64 ^ zlen n) mod lval n) as Hr2.
  { apply mod_eq_ex; [lia|]. exists m. rewrite Hm, V1, Z.mul_1_r, <- Z.pow_add_r by lia.
    rewrite B64_pow by lia. by replace (2 * zlen n * 64) with (64 * (zlen n + zlen n)) by lia. }
  clearbody r2. assert (in_field n r2) as F2 by done.
  pose proof (mrep_enter n n0inv Hn Hodd base r2 Hbase F2 Hr2) as Hb.
  pose proof (mrep_enter n n0inv Hn Hodd one r2 F1 F2 Hr2) as Ha. rewrite V1 in Ha.
  rewrite !bn_mont_mul_eq.
  pose proof (exp_loop_ok _ n n0inv e _ _ (Z.of_nat (top_bit e 31)) Hn Hodd Hb Ha ltac:(lia)) as Hl.
  assert (0 <= e < 2 ^ (Z.of_nat (top_bit e 31) + 1)) as Het by (split; [lia|by apply top_bit_ok]).
  specialize (Hl Het).
  destruct (mrep_leave n n0inv Hn Hodd _ one _ Hl L1 W1 V1) as [Hv Hf]. done.
Qed.

(** ** Opening a signature *)

(** A key the parser can have made: arrays of their sizes, fields in their widths. *)
Record key_wf (key : rsa_key_t) : Prop := {
  kw_len : zlen (kn key) = RSA_MAX_BYTES; kw_bytes : bytes (kn key);
  kw_n : is_u32 (n_len key); kw_e : is_u32 (ke key);
}.
Definition modulus (key : rsa_key_t) : Z := be_val (take (Z.to_nat (n_len key)) (kn key)).

(** What a key and a signature must be for anything to be computed. *)
Definition admissible (key : rsa_key_t) (sig : list Z) : Prop :=
  0 < n_len key <= RSA_MAX_BYTES /\ zlen sig = n_len key /\ 3 <= ke key /\ ke key mod 2 = 1 /\
  modulus key mod 2 = 1 /\ be_val sig < modulus key.
#[export] Instance admissible_dec key sig : Decision (admissible key sig).
Proof. unfold admissible. apply _. Defined.

(** The number a signature opens to. *)
Definition opened (key : rsa_key_t) (sig : list Z) : Z := be_val sig ^ ke key mod modulus key.

Lemma bn_from_bytes_ok b limbs : bytes b -> 0 <= limbs <= LIMBS -> zlen b <= limbs * 8 ->
  exists v, bn_from_bytes b limbs = Some v /\ length v = Z.to_nat limbs /\ words64 v /\ lval v = be_val b.
Proof.
  intros Hb Hl Hlen. unfold bn_from_bytes. rewrite (proj2 (Z.ltb_ge _ _)), (proj2 (Z.ltb_ge _ _)) by lia.
  destruct (load_be_ok b (Z.to_nat limbs) Hb ltac:(lia)) as (H1 & H2 & H3). by eexists.
Qed.

Lemma low_limb_odd v : (0 < length v)%nat -> lval v mod 2 = v.[0] mod 2.
Proof. destruct v as [|x v]; cbn [length lval]; [lia|]. intros _. change (x :: v).[0] with x. dlia. Qed.

Lemma rsa_public_ok key sig : key_wf key -> bytes sig ->
  rsa_public key sig (n_len key) =
  if decide (admissible key sig) then Some (be_bytes (Z.to_nat (n_len key)) (opened key sig)) else None.
Proof.
  intros [Hkl Hkb Hkn Hke] Hs. unfold rsa_public.
  destruct (Z.eqb_spec (n_len key) 0); [rewrite decide_False; [done|unfold admissible; lia]|].
  destruct (Z.ltb_spec RSA_MAX_BYTES (n_len key)); [rewrite decide_False; [done|unfold admissible; lia]|].
  destruct (Z.eqb_spec (zlen sig) (n_len key)); [|rewrite decide_False; [done|unfold admissible; lia]].
  rewrite Z.eqb_refl. cbn [negb orb].
  destruct (Z.ltb_spec (ke key) 3); [rewrite decide_False; [done|unfold admissible; lia]|].
  rewrite land_1. destruct (Z.eqb_spec (ke key mod 2) 0); [rewrite decide_False; [done|unfold admissible; lia]|].
  cbn [orb]. unfold is_word in *.
  assert (u32 (n_len key + 7) / 8 = (n_len key + 7) / 8) as -> by (unfold u32, RSA_MAX_BYTES in *; dlia).
  set (limbs := (n_len key + 7) / 8).
  assert (0 < limbs <= LIMBS /\ n_len key <= limbs * 8) as [Hlimbs Hbytes] by (subst limbs; unfold LIMBS, RSA_MAX_BYTES in *; dlia).
  destruct (bn_from_bytes_ok (take (Z.to_nat (n_len key)) (kn key)) limbs) as (nn & -> & Ln & Wn & Vn);
    [by apply Forall_take|lia|rewrite length_take; lia|].
  destruct (bn_from_bytes_ok sig limbs) as (s & -> & Ls & Ws & Vs); [done|lia|lia|].
  fold (modulus key) in Vn. unfold bn_ge. rewrite land_1, <- low_limb_odd by lia.
  rewrite ge_limbs_ok, Vn, Vs by (done || lia).
  destruct (Z.eqb_spec (modulus key mod 2) 0); [rewrite decide_False; [done|unfold admissible; lia]|].
  destruct (Z.leb_spec (modulus key) (be_val sig)); [rewrite decide_False; [done|unfold admissible; lia]|].
  rewrite decide_True by (unfold admissible; split_and!; try done; dlia). f_equal.
  assert (nn.[0] mod 2 = 1) as Hodd by (rewrite <- low_limb_odd, Vn by lia; dlia).
  destruct (bn_mod_exp_ok s (ke key) nn Wn Hodd) as [(Lm & Wm & _) Hm];
    [split_and!; [lia|done|lia]|unfold is_word in *; lia|].
  unfold bn_to_bytes. rewrite store_be_ok by (done || lia). by rewrite Hm, Vn, Vs.
Qed.

Lemma same_spec a b len : 0 <= len <= zlen a -> len <= zlen b -> bytes a -> bytes b ->
  same a b len = true <-> take (Z.to_nat len) a = take (Z.to_nat len) b.
Proof.
  intros Hla Hlb Ha Hb. unfold same. rewrite Z.eqb_eq.
  assert (for_range 0 len (fun i diff => diff .| u8 (a.[i] .^ b.[i])) 0 = 0 <->
    forall i, 0 <= i < len -> a.[i] = b.[i]) as ->.
  { apply (for_range_inv (fun k diff => diff = 0 <-> forall i, 0 <= i < k -> a.[i] = b.[i])); [lia|split; [lia|done]|].
    intros i s Hi IH. rewrite Z.lor_eq_0_iff, IH.
    assert (is_u8 a.[i]) by (by apply (Forall_getz (is_word 8))). assert (is_u8 b.[i]) by (by apply (Forall_getz (is_word 8))).
    rewrite u8_id by auto with words. rewrite Z.lxor_eq_0_iff. split.
    - intros [H1 H2] j Hj. destruct (decide (j = i)) as [->|]; [done|]. apply H1. lia.
    - intros H1. split; [intros; apply H1; lia|apply H1; lia]. }
  split.
  - intros H. apply (list_eq_getz 0); rewrite !length_take; [lia|]. intros i Hi. rewrite !getz_take by lia. apply H. lia.
  - intros H i Hi. apply (f_equal (fun l => l.[i])) in H. by rewrite !getz_take in H by lia.
Qed.

(** ** PKCS#1 v1.5 *)

(** The block a signature must open to (RFC 8017, 9.2). *)
Definition pkcs1_prefix (pad : Z) : list Z := [0x00; 0x01] ++ replicate (Z.to_nat pad) 0xff ++ [0x00].
Definition emsa_pkcs1 (der hash : list Z) (em_len : Z) : list Z :=
  pkcs1_prefix (em_len - 3 - zlen der - zlen hash) ++ der ++ hash.

Lemma prefix_getz pad i : 0 <= pad -> 0 <= i < 3 + pad ->
  (pkcs1_prefix pad).[i] = if i =? 0 then 0 else if i =? 1 then 1 else if i <? 2 + pad then 255 else 0.
Proof.
  intros Hp Hi. unfold pkcs1_prefix. rewrite getz_app by lia. cbn [length].
  destruct (Z.eqb_spec i 0) as [->|]; [done|]. destruct (Z.eqb_spec i 1) as [->|]; [done|].
  rewrite (proj2 (Z.ltb_ge _ _)) by lia. rewrite getz_app, length_replicate by lia.
  destruct (Z.ltb_spec i (2 + pad)).
  - rewrite (proj2 (Z.ltb_lt _ _)) by lia. unfold getz. rewrite nth_lookup, lookup_replicate_2 by lia. done.
  - rewrite (proj2 (Z.ltb_ge _ _)) by lia. replace i with (2 + pad) by lia.
    by replace (2 + pad - Z.of_nat 2 - Z.of_nat (Z.to_nat pad)) with 0 by lia.
Qed.
Lemma length_prefix pad : 0 <= pad -> zlen (pkcs1_prefix pad) = 3 + pad.
Proof. intros. unfold pkcs1_prefix. rewrite !length_app, length_replicate. cbn [length]. lia. Qed.

(** The accumulated differences vanish exactly on that prefix. *)
Lemma bad_spec em pad : bytes em -> 0 <= pad -> 3 + pad <= zlen em ->
  for_range 0 pad (fun i bad => bad .| u8 (em.[2 + i] .^ 0xff)) (em.[0] .| u8 (em.[1] .^ 0x01)) .| em.[2 + pad] = 0 <->
  take (Z.to_nat (3 + pad)) em = pkcs1_prefix pad.
Proof.
  intros He Hp Hl. rewrite Z.lor_eq_0_iff.
  assert (forall i, is_u8 em.[i]) as Hb by (intros; by apply (Forall_getz (is_word 8))).
  assert (for_range 0 pad (fun i bad => bad .| u8 (em.[2 + i] .^ 0xff)) (em.[0] .| u8 (em.[1] .^ 0x01)) = 0 <->
    em.[0] = 0 /\ em.[1] = 1 /\ forall i, 0 <= i < pad -> em.[2 + i] = 255) as ->.
  { apply (for_range_inv (fun k bad => bad = 0 <-> em.[0] = 0 /\ em.[1] = 1 /\ forall i, 0 <= i < k -> em.[2 + i] = 255)); [done| |].
    - rewrite Z.lor_eq_0_iff, u8_id, Z.lxor_eq_0_iff by (apply is_word_lxor; done). split; [|tauto].
      intros [? ?]. split_and!; try done. lia.
    - intros i s Hi IH. rewrite Z.lor_eq_0_iff, IH, u8_id, Z.lxor_eq_0_iff by (apply is_word_lxor; done). split.
      + intros [(H0 & H1 & H2) H3]. split_and!; try done. intros j Hj. destruct (decide (j = i)) as [->|]; [done|]. apply H2. lia.
      + intros (H0 & H1 & H2). split_and!; try done; [intros; apply H2; lia|apply H2; lia]. }
  split.
  - intros [(H0 & H1 & H2) H3]. apply (list_eq_getz 0).
    + pose proof (length_prefix pad Hp). rewrite length_take. lia.
    + rewrite length_take. intros i Hi. rewrite getz_take, prefix_getz by lia.
      destruct (Z.eqb_spec i 0) as [->|]; [done|]. destruct (Z.eqb_spec i 1) as [->|]; [done|].
      destruct (Z.ltb_spec i (2 + pad)).
      * replace i with (2 + (i - 2)) by lia. apply H2. lia.
      * replace i with (2 + pad) by lia. done.
  - intros H. assert (forall i, 0 <= i < 3 + pad -> em.[i] = (pkcs1_prefix pad).[i]) as Hi.
    { intros i Hi. rewrite <- H, getz_take by lia. done. }
    rewrite !Hi by lia. rewrite !prefix_getz by lia. split_and!; try done.
    + intros i Hi'. rewrite Hi, prefix_getz by lia. repeat case_bool; try lia; done.
    + repeat case_bool; try lia; done.
Qed.

Lemma der_for_length l der : der_for l = Some der -> zlen der = 19 /\ bytes der /\ (l = 32 \/ l = 48 \/ l = 64).
Proof.
  unfold der_for. intros H. repeat (case_bool; [injection H as <-; split_and!; [done|by apply bytes_check|tauto]|]).
  done.
Qed.

(** Two byte strings one after the other, compared with [same] one after the other. *)
Lemma same_both p a b : bytes p -> bytes a -> bytes b -> zlen p = zlen a + zlen b ->
  (if negb (same p a (zlen a)) then false else same (drop (length a) p) b (zlen b)) = true <-> p = a ++ b.
Proof.
  intros Hp Ha Hb Hl.
  assert (same p a (zlen a) = true <-> take (length a) p = a) as H1.
  { rewrite same_spec by (done || lia). by rewrite Nat2Z.id, (take_ge a). }
  assert (same (drop (length a) p) b (zlen b) = true <-> drop (length a) p = b) as H2.
  { rewrite same_spec; [|rewrite ?length_drop; lia|lia|by apply Forall_drop|done].
    rewrite Nat2Z.id, (take_ge b), take_ge by (rewrite ?length_drop; lia). done. }
  destruct (same p a (zlen a)); cbn [negb].
  - rewrite H2. split; [|intros ->; apply drop_app_length]. intros <-. rewrite <- (proj1 H1 eq_refl) at 1. by rewrite take_drop.
  - split; [done|]. intros ->. apply H1. apply take_app_length.
Qed.

Lemma be_bytes_eq_iff n x l : bytes l -> length l = n -> 0 <= x < 256 ^ Z.of_nat n ->
  be_bytes n x = l <-> x = be_val l.
Proof.
  intros Hl <- Hx. split.
  - intros <-. by rewrite be_val_bytes, Z.mod_small.
  - intros ->. by apply be_bytes_val.
Qed.

Lemma modulus_bound key : key_wf key -> 0 <= n_len key <= RSA_MAX_BYTES -> modulus key <= 256 ^ n_len key.
Proof.
  intros [Hl Hb _ _] Hn. unfold modulus.
  pose proof (be_val_bound (take (Z.to_nat (n_len key)) (kn key)) (Forall_take _ _ _ Hb)) as H.
  rewrite length_take in H. replace (Z.of_nat _) with (n_len key) in H by lia. lia.
Qed.
Lemma opened_bound key sig : key_wf key -> bytes sig -> admissible key sig -> 0 <= opened key sig < 256 ^ n_len key.
Proof.
  intros Hk Hs (H1 & H2 & H3 & H4 & H5 & H6). pose proof (modulus_bound key Hk ltac:(lia)).
  pose proof (be_val_bound sig Hs). pose proof (Z.mod_pos_bound (be_val sig ^ ke key) (modulus key) ltac:(lia)).
  unfold opened. lia.
Qed.

#[local] Opaque rsa_public be_bytes.

Lemma pkcs1_ok key sig hash : key_wf key -> bytes sig -> bytes hash ->
  rsa_verify_pkcs1 key sig hash = true <->
  exists der, der_for (zlen hash) = Some der /\ admissible key sig /\ 8 <= n_len key - 3 - zlen der - zlen hash /\
    opened key sig = be_val (emsa_pkcs1 der hash (n_len key)).
Proof.
  intros Hk Hs Hh. unfold rsa_verify_pkcs1. destruct (der_for (zlen hash)) as [der|] eqn:Ed; [|naive_solver].
  destruct (der_for_length _ _ Ed) as (Hd1 & Hd2 & Hd3). rewrite rsa_public_ok by done.
  destruct (decide (admissible key sig)) as [Ha|]; [|naive_solver].
  pose proof (opened_bound key sig Hk Hs Ha) as Hob. pose proof Ha as (Hn & _).
  destruct (Z.ltb_spec (n_len key) (3 + zlen der + zlen hash + 8)).
  { split; [done|]. intros (d & Hd & _ & ? & _). injection Hd as ->. lia. }
  set (em := be_bytes (Z.to_nat (n_len key)) (opened key sig)).
  assert (bytes em) as He by apply be_bytes_bytes.
  assert (zlen em = n_len key) as Hle by (subst em; rewrite length_be_bytes; lia).
  set (pad := n_len key - 2 - 1 - zlen der - zlen hash).
  assert (emsa_pkcs1 der hash (n_len key) = pkcs1_prefix pad ++ der ++ hash) as Hem
    by (unfold emsa_pkcs1; do 2 f_equal; subst pad; lia).
  assert (em = pkcs1_prefix pad ++ der ++ hash <->
    take (Z.to_nat (3 + pad)) em = pkcs1_prefix pad /\ drop (Z.to_nat (3 + pad)) em = der ++ hash) as Hsplit.
  { pose proof (length_prefix pad ltac:(lia)) as Hlp. replace (Z.to_nat (3 + pad)) with (length (pkcs1_prefix pad)) by lia. split.
    - intros ->. by rewrite take_app_length, drop_app_length.
    - intros [H1 H2]. by rewrite <- (take_drop (length (pkcs1_prefix pad)) em), H1, H2. }
  assert (bytes (pkcs1_prefix pad)) as Hpb.
  { unfold pkcs1_prefix. repeat apply Forall_app_2; try by apply bytes_check. by apply Forall_replicate. }
  assert (em = pkcs1_prefix pad ++ der ++ hash <-> opened key sig = be_val (pkcs1_prefix pad ++ der ++ hash)) as Heq.
  { subst em. apply be_bytes_eq_iff.
    - apply Forall_app_2; [done|]. by apply Forall_app_2.
    - rewrite !length_app. pose proof (length_prefix pad ltac:(lia)). lia.
    - by rewrite Z2Nat.id by lia. }
  assert (zlen (drop (Z.to_nat (3 + pad)) em) = zlen der + zlen hash) as Hlq by (rewrite length_drop; lia).
  pose proof (same_both (drop (Z.to_nat (3 + pad)) em) der hash (Forall_drop _ _ _ He) Hd2 Hh Hlq) as Hsame.
  pose proof (bad_spec em pad He ltac:(lia) ltac:(lia)) as Hbad.
  rewrite Nat2Z.id. destruct (Z.eqb_spec (for_range 0 pad (fun i bad => bad .| u8 (em.[2 + i] .^ 0xff))
    (em.[0] .| u8 (em.[1] .^ 0x01)) .| em.[2 + pad]) 0) as [Hz|Hz]; cbn [negb].
  - rewrite Hsame. split.
    + intros Hq. exists der. split_and!; try done; [lia|]. rewrite Hem. apply Heq, Hsplit. by rewrite <- Hbad.
    + intros (d & Hd & _ & _ & Ho). injection Hd as <-. rewrite Hem in Ho. by apply Hsplit, Heq.
  - split; [done|]. intros (d & Hd & _ & _ & Ho). injection Hd as <-. rewrite Hem in Ho. exfalso. by apply Hz, Hbad, Hsplit, Heq.
Qed.

(** ** PSS *)

(** MGF1 of RFC 8017, B.2.1: the hashes of the seed and a four byte counter, cut. *)
Fixpoint mgf1_blocks (n : nat) (seed : list Z) (counter : Z) : list Z :=
  match n with
  | O => []
  | S n => sha256 (seed ++ be_bytes 4 counter) ++ mgf1_blocks n seed (counter + 1)
  end.
Definition mgf1_spec (seed : list Z) (len : Z) : list Z :=
  take (Z.to_nat len) (mgf1_blocks (Z.to_nat ((len + 31) / 32)) seed 0).

#[local] Opaque sha256.

Lemma counter_bytes c : [u8 (c .>> 24); u8 (c .>> 16); u8 (c .>> 8); u8 c] = be_bytes 4 c.
Proof.
  with_strategy transparent [be_bytes] unfold be_bytes. cbn [le_bytes rev app]. by rewrite !Z.shiftr_shiftr by done.
Qed.

Lemma mgf1_loop_ok fuel seed counter need mask : 0 <= need <= Z.of_nat fuel -> 0 <= counter -> counter + need < 2 ^ 32 ->
  mgf1_loop fuel seed counter need mask =
  mask ++ take (Z.to_nat need) (mgf1_blocks (Z.to_nat ((need + 31) / 32)) seed counter).
Proof.
  revert counter need mask. induction fuel as [|fuel IH]; intros counter need mask Hn Hc Hb; cbn [mgf1_loop].
  - replace need with 0 by lia. cbn. by rewrite app_nil_r.
  - destruct (Z.eqb_spec need 0) as [->|]; [cbn; by rewrite app_nil_r|].
    rewrite counter_bytes, two_updates. pose proof (length_sha256 (seed ++ be_bytes 4 counter)) as Hlen. unfold SHA256_SIZE in *.
    set (cut := if 32 <? need then 32 else need).
    assert (cut = Z.min 32 need) as Hmin by (subst cut; case_bool; lia). clearbody cut.
    assert (u32 (counter + 1) = counter + 1) as -> by (unfold u32; apply Z.mod_small; lia).
    rewrite IH by lia. rewrite <- app_assoc. f_equal.
    replace (Z.to_nat ((need + 31) / 32)) with (S (Z.to_nat ((need - cut + 31) / 32))).
    2: { subst cut. destruct (decide (need <= 32)); [rewrite Z.min_r by lia|rewrite Z.min_l by lia]; dlia. }
    cbn [mgf1_blocks]. rewrite take_block by lia. rewrite Hlen. do 3 f_equal; lia.
Qed.
Lemma mgf1_ok seed len : 0 <= len < 2 ^ 32 -> mgf1 seed len = mgf1_spec seed len.
Proof. intros. unfold mgf1. by rewrite mgf1_loop_ok by lia. Qed.

Lemma mgf1_length seed len : 0 <= len -> zlen (mgf1_spec seed len) = len /\ bytes (mgf1_spec seed len).
Proof.
  intros Hl. unfold mgf1_spec.
  assert (forall n c, zlen (mgf1_blocks n seed c) = 32 * Z.of_nat n /\ bytes (mgf1_blocks n seed c)) as H.
  { induction n as [|n IH]; intros c; cbn [mgf1_blocks]; [done|]. destruct (IH (c + 1)) as [H1 H2].
    rewrite length_app. pose proof (length_sha256 (seed ++ be_bytes 4 c)). unfold SHA256_SIZE in *.
    split; [lia|]. apply Forall_app_2; [apply sha256_bytes|done]. }
  destruct (H (Z.to_nat ((len + 31) / 32)) 0) as [H1 H2]. split; [|by apply Forall_take].
  rewrite length_take. dlia.
Qed.

Lemma three_updates a b c :
  sha256_final (sha256_update (sha256_update (sha256_update (sha256_init stack_stream) a) b) c) = sha256 (a ++ b ++ c).
Proof.
  rewrite sha256_digest, app_assoc. apply sha256_final_digest.
  apply (update_stream SHA256_BLOCK compress eq_refl IV (a ++ b)), (update_stream SHA256_BLOCK compress eq_refl IV a).
  apply (update_stream SHA256_BLOCK compress eq_refl IV []). by apply sha256_init_stream.
Qed.

Lemma zeros_upto_ok fuel stop db i : 0 <= i <= stop -> stop - i <= Z.of_nat fuel ->
  zeros_upto fuel stop db i = stop <-> forall j, i <= j < stop -> db.[j] = 0.
Proof.
  revert i. induction fuel as [|fuel IH]; intros i Hi Hf; cbn [zeros_upto].
  - split; [lia|intros _; lia].
  - destruct (Z.ltb_spec i stop); cbn [andb]; [|split; [lia|intros; lia]].
    destruct (Z.eqb_spec db.[i] 0) as [Hz|Hz].
    + rewrite IH by lia. split; intros H1 j Hj; [|apply H1; lia]. destruct (decide (j = i)) as [->|]; [done|]. apply H1. lia.
    + split; [lia|]. intros H1. exfalso. apply Hz, H1. lia.
Qed.

(** The encoding of RFC 8017, 9.1.1, with a salt of 32 bytes and the top bit of
    the block clear. *)
Definition pss_hash (hash salt : list Z) : list Z := sha256 (replicate 8 0 ++ hash ++ salt).
Definition clear_top (l : list Z) : list Z := l.[0 := l.[0] .& 0x7f].
Definition emsa_pss (hash salt : list Z) (em_len : Z) : list Z :=
  let h := pss_hash hash salt in
  let db := replicate (Z.to_nat (em_len - 66)) 0 ++ [0x01] ++ salt in
  clear_top (zip_with Z.lxor db (mgf1_spec h (em_len - 33))) ++ h ++ [0xbc].

Lemma clear_top_getz l i : 0 <= i < zlen l -> (clear_top l).[i] = if i =? 0 then l.[0] .& 0x7f else l.[i].
Proof.
  intros Hi. unfold clear_top. destruct (Z.eqb_spec i 0) as [->|]; [by rewrite getz_setz_eq|by rewrite getz_setz_ne by lia].
Qed.
Lemma length_clear_top l : length (clear_top l) = length l.
Proof. apply length_setz. Qed.
Lemma getz_xor a b i : length a = length b -> 0 <= i < zlen a -> (zip_with Z.lxor a b).[i] = a.[i] .^ b.[i].
Proof.
  intros Hl Hi. unfold getz. rewrite !nth_lookup, lookup_zip_with.
  destruct (lookup_lt_is_Some_2 a (Z.to_nat i)) as [x ->]; [lia|].
  destruct (lookup_lt_is_Some_2 b (Z.to_nat i)) as [y ->]; [lia|]. done.
Qed.
Lemma clear_bit7 x : is_u8 x -> (x .& 0x80 =? 0) = true <-> x .& 0x7f = x.
Proof.
  intros Hx. apply (all_bytes (fun x => Bool.eqb (x .& 0x80 =? 0) (x .& 0x7f =? x))) in Hx; [|vm_compute; reflexivity].
  apply Bool.eqb_prop in Hx. by rewrite Hx, Z.eqb_eq.
Qed.

(** Taking the mask off is undone by putting it on, while the top bit stays clear. *)
Lemma unmask_mask m x : length m = length x -> (0 < length x)%nat -> x.[0] .& 0x7f = x.[0] ->
  clear_top (zip_with Z.lxor (clear_top (zip_with Z.lxor m x)) m) = x.
Proof.
  intros Hl Hpos H0. assert (zlen (zip_with Z.lxor m x) = zlen x) as Hlz by (rewrite length_zip_with; lia).
  assert (length (clear_top (zip_with Z.lxor m x)) = length m) as Hl1 by (rewrite length_clear_top; lia).
  apply (list_eq_getz 0); rewrite length_clear_top, length_zip_with, Hl1; [lia|]. intros i Hi.
  rewrite clear_top_getz, !getz_xor, !clear_top_getz, !getz_xor by (rewrite ?length_zip_with; lia).
  rewrite Z.eqb_refl. destruct (Z.eqb_spec i 0) as [->|].
  - rewrite <- H0. bits. rewrite !Z.land_spec, !Z.lxor_spec, !Z.land_spec, !Z.lxor_spec, Z.land_spec. btauto.
  - by rewrite (Z.lxor_comm m.[i]), lxor_involutive.
Qed.

Lemma pss_hash_eq hash salt : sha256 (replicate 8 0 ++ hash ++ salt) = pss_hash hash salt.
Proof. reflexivity. Qed.

#[local] Opaque mgf1 mgf1_spec pss_hash.

(** What is checked of the data block. *)
Lemma db_shape db n : zlen db = n + 33 -> 0 <= n -> 
  (zeros_upto (length db) n db 0 = n /\ db.[n] = 1) <-> db = replicate (Z.to_nat n) 0 ++ [1] ++ drop (Z.to_nat (n + 1)) db.
Proof.
  intros Hl Hn. rewrite zeros_upto_ok by lia. split.
  - intros [H1 H2]. apply (list_eq_getz 0).
    + rewrite !length_app, length_replicate, length_drop. cbn [length]. lia.
    + intros i Hi. rewrite getz_app, length_replicate by lia. case_bool.
      * rewrite H1 by lia. unfold getz. rewrite nth_lookup, lookup_replicate_2 by lia. done.
      * rewrite getz_app by lia. cbn [length]. case_bool.
        -- replace i with n by lia. rewrite H2. by replace (n - Z.of_nat (Z.to_nat n)) with 0 by lia.
        -- rewrite getz_drop by lia. f_equal. lia.
  - intros Hd. split.
    + intros j Hj. rewrite Hd, getz_app, length_replicate, (proj2 (Z.ltb_lt _ _)) by lia.
      unfold getz. rewrite nth_lookup, lookup_replicate_2 by lia. done.
    + rewrite Hd, getz_app, length_replicate, (proj2 (Z.ltb_ge _ _)) by lia. by replace (n - Z.of_nat (Z.to_nat n)) with 0 by lia.
Qed.

(** The three parts of the block. *)
Lemma em_parts em len : zlen em = len -> 66 <= len ->
  em = take (Z.to_nat (len - 33)) em ++ take 32 (drop (Z.to_nat (len - 33)) em) ++ [em.[len - 1]].
Proof.
  intros Hl H66. rewrite <- (take_drop (Z.to_nat (len - 33)) em) at 1. f_equal.
  rewrite <- (take_drop 32 (drop (Z.to_nat (len - 33)) em)) at 1. f_equal. rewrite drop_drop.
  apply (list_eq_getz 0); rewrite length_drop; cbn [length]; [lia|]. intros i Hi. rewrite getz_drop by lia.
  replace i with 0 by lia. change ([em.[len - 1]].[0]) with em.[len - 1]. f_equal. lia.
Qed.

Definition pss_db (salt : list Z) (n : Z) : list Z := replicate (Z.to_nat n) 0 ++ [0x01] ++ salt.
Lemma pss_db_top salt n : (pss_db salt n).[0] .& 0x7f = (pss_db salt n).[0].
Proof. unfold pss_db. by destruct (Z.to_nat n). Qed.

Lemma zip_lxor_comm a b : zip_with Z.lxor a b = zip_with Z.lxor b a.
Proof. revert b. induction a as [|x a IH]; intros [|y b]; cbn; try done. by rewrite IH, Z.lxor_comm. Qed.

Lemma pss_hash_length hash salt : length (pss_hash hash salt) = 32%nat /\ bytes (pss_hash hash salt).
Proof.
  with_strategy transparent [pss_hash] unfold pss_hash. pose proof (length_sha256 (replicate 8 0 ++ hash ++ salt)) as H.
  unfold SHA256_SIZE in H. split; [lia|apply sha256_bytes].
Qed.

Lemma zip_lxor_bytes a b : bytes a -> bytes b -> bytes (zip_with Z.lxor a b).
Proof.
  intros Ha. revert b. induction Ha as [|x a Hx Ha IH]; intros b Hb; destruct Hb as [|y b Hy Hb]; cbn [zip_with]; try apply Forall_nil_2.
  apply Forall_cons_2; [auto with words|by apply IH].
Qed.

(** The checks after the exponentiation accept exactly the encodings. *)
Lemma pss_checks_ok em hash len : zlen em = len -> 66 <= len -> len <= RSA_MAX_BYTES -> bytes em ->
  let h := take 32 (drop (Z.to_nat (len - 33)) em) in
  let db := clear_top (zip_with Z.lxor (mgf1_spec h (len - 33)) (take (Z.to_nat (len - 33)) em)) in
  (em.[len - 1] = 0xbc /\ em.[0] .& 0x7f = em.[0] /\
   (zeros_upto (length db) (len - 66) db 0 = len - 66 /\ db.[len - 66] = 1) /\
   pss_hash hash (drop (Z.to_nat (len - 65)) db) = h) <->
  exists salt, bytes salt /\ length salt = 32%nat /\ em = emsa_pss hash salt len.
Proof.
  intros Hl H66 Hmax Hb h db.
  assert (length h = 32%nat) as Hlh by (subst h; rewrite length_take, length_drop; lia).
  destruct (mgf1_length h (len - 33) ltac:(lia)) as [Hlm Hbm].
  set (x := take (Z.to_nat (len - 33)) em) in *.
  assert (zlen x = len - 33) as Hlx by (subst x; rewrite length_take; lia).
  assert (x.[0] = em.[0]) as Hx0 by (subst x; rewrite getz_take by lia; done).
  assert (zlen db = len - 33) as Hldb by (subst db; rewrite length_clear_top, length_zip_with; lia).
  assert (bytes db) as Hbdb.
  { assert (bytes (zip_with Z.lxor (mgf1_spec h (len - 33)) x)) as Hbz.
    { apply zip_lxor_bytes; [done|by apply Forall_take]. }
    apply Forall_setz; [done|]. apply is_word_land_l; [done|]. by apply (Forall_getz (is_word 8)). }
  pose proof (em_parts em len Hl H66) as Hem. fold h x in Hem. split.
  - intros (Hlast & Htop & Hshape & Hh).
    apply (db_shape db (len - 66)) in Hshape; [|lia|lia].
    replace (len - 66 + 1) with (len - 65) in Hshape by lia.
    exists (drop (Z.to_nat (len - 65)) db). split; [by apply Forall_drop|]. split; [rewrite length_drop; lia|].
    unfold emsa_pss. rewrite Hh, <- Hshape. rewrite Hem at 1. rewrite Hlast. f_equal. symmetry.
    apply unmask_mask; [lia|lia|by rewrite Hx0].
  - intros (salt & Hbs & Hls & He). unfold emsa_pss in He. fold (pss_db salt (len - 66)) in He.
    destruct (pss_hash_length hash salt) as [Hlp Hbp]. set (hp := pss_hash hash salt) in *.
    destruct (mgf1_length hp (len - 33) ltac:(lia)) as [Hlmp _].
    assert (zlen (pss_db salt (len - 66)) = len - 33) as Hldb0.
    { unfold pss_db. rewrite !length_app, length_replicate, Hls. cbn [length]. lia. }
    rewrite Hem in He. apply app_inj_1 in He as [Hx He].
    2: { rewrite length_clear_top, length_zip_with. lia. }
    apply app_inj_1 in He as [Hh He]; [|lia]. injection He as Hlast.
    assert (db = pss_db salt (len - 66)) as Hdb.
    { subst db. rewrite Hh, Hx, zip_lxor_comm, (zip_lxor_comm (pss_db _ _)).
      apply unmask_mask; [lia|lia|apply pss_db_top]. }
    split; [done|]. split.
    { rewrite <- Hx0, Hx, clear_top_getz by (rewrite length_zip_with; lia). cbn [Z.eqb].
      by rewrite <- Z.land_assoc. }
    assert (drop (Z.to_nat (len - 65)) (pss_db salt (len - 66)) = salt) as Hdrop.
    { unfold pss_db. rewrite app_assoc, drop_app_length'; [done|]. rewrite length_app, length_replicate. cbn [length]. lia. }
    split; [|by rewrite Hdb, Hdrop, Hh]. apply (db_shape db (len - 66)); [lia|lia|].
    replace (len - 66 + 1) with (len - 65) by lia. by rewrite Hdb, Hdrop.
Qed.

Lemma emsa_pss_bytes hash salt len : bytes salt -> length salt = 32%nat -> 66 <= len ->
  bytes (emsa_pss hash salt len) /\ length (emsa_pss hash salt len) = Z.to_nat len.
Proof.
  intros Hb Hl H66. unfold emsa_pss. fold (pss_db salt (len - 66)).
  destruct (pss_hash_length hash salt) as [Hlp Hbp]. destruct (mgf1_length (pss_hash hash salt) (len - 33) ltac:(lia)) as [Hlm Hbm].
  assert (length (pss_db salt (len - 66)) = Z.to_nat (len - 33)) as Hld.
  { unfold pss_db. rewrite !length_app, length_replicate. cbn [length]. lia. }
  assert (bytes (pss_db salt (len - 66))) as Hbd.
  { unfold pss_db. apply Forall_app_2; [apply Forall_replicate; by split|]. apply Forall_cons_2; [by split|exact Hb]. }
  pose proof (zip_lxor_bytes _ _ Hbd Hbm) as Hz. split.
  - apply Forall_app_2; [|apply Forall_app_2; [exact Hbp|apply bytes_check; reflexivity]].
    apply Forall_setz; [exact Hz|]. apply is_word_land_l; [discriminate|].
    apply (Forall_getz (is_word 8)); [split; [discriminate|reflexivity]|exact Hz].
  - rewrite !length_app, length_clear_top, length_zip_with. cbn [length]. lia.
Qed.

(** The early returns as one conjunction. *)
Lemma guards (x y i n : Z) (b sm : bool) (f : Z -> Z) :
  (if negb (x =? y) then false else if negb b then false else if negb (i =? n) then false
   else if negb (f i =? 1) then false else sm) = true <->
  x = y /\ b = true /\ (i = n /\ f n = 1) /\ sm = true.
Proof.
  destruct (Z.eqb_spec x y), b, (Z.eqb_spec i n) as [->|]; cbn [negb]; try (split; [done|intuition congruence]).
  destruct (Z.eqb_spec (f n) 1); cbn [negb]; intuition congruence.
Qed.

Lemma pss_ok key sig hash : key_wf key -> bytes sig -> bytes hash ->
  rsa_verify_pss key sig hash = true <->
  zlen hash = SHA256_SIZE /\ admissible key sig /\ 66 <= n_len key /\
  exists salt, bytes salt /\ zlen salt = SHA256_SIZE /\ opened key sig = be_val (emsa_pss hash salt (n_len key)).
Proof.
  intros Hk Hs Hh. unfold rsa_verify_pss.
  destruct (Z.eqb_spec (zlen hash) SHA256_SIZE) as [Hlh|]; cbn [negb]; [|naive_solver].
  rewrite rsa_public_ok by done. destruct (decide (admissible key sig)) as [Ha|]; [|naive_solver].
  pose proof (opened_bound key sig Hk Hs Ha) as Hob. pose proof Ha as (Hn & _). unfold SHA256_SIZE in *.
  destruct (Z.ltb_spec (n_len key) (32 + 32 + 2)); [split; [done|lia]|].
  set (em := be_bytes (Z.to_nat (n_len key)) (opened key sig)).
  assert (bytes em) as He by apply be_bytes_bytes.
  assert (zlen em = n_len key) as Hle by (subst em; rewrite length_be_bytes; lia).
  pose proof (pss_checks_ok em hash (n_len key) Hle ltac:(lia) ltac:(lia) He) as Hc. cbv zeta in Hc.
  replace (n_len key - 32 - 1) with (n_len key - 33) by lia.
  rewrite (take_ge hash) by lia. rewrite three_updates. rewrite mgf1_ok by (unfold RSA_MAX_BYTES in *; lia).
  replace (n_len key - 33 - 32 - 1) with (n_len key - 66) by lia. replace (n_len key - 33 - 32) with (n_len key - 65) by lia.
  set (h := take 32 (drop (Z.to_nat (n_len key - 33)) em)) in *.
  change (setz ?l 0 (getz 0 ?l 0 .& 0x7f)) with (clear_top l).
  set (db := clear_top (zip_with Z.lxor (mgf1_spec h (n_len key - 33)) (take (Z.to_nat (n_len key - 33)) em))) in *.
  assert (length db = Z.to_nat (n_len key - 33)) as Hldb.
  { destruct (mgf1_length h (n_len key - 33) ltac:(lia)).
    subst db. rewrite length_clear_top, length_zip_with, length_take. lia. }
  rewrite <- Hldb. rewrite pss_hash_eq.
  assert ((exists salt, bytes salt /\ length salt = 32%nat /\ em = emsa_pss hash salt (n_len key)) <->
    (exists salt, bytes salt /\ zlen salt = 32 /\ opened key sig = be_val (emsa_pss hash salt (n_len key)))) as Hex.
  { split; intros (salt & Hb & Hl & Hv); exists salt; (split; [done|]); (split; [lia|]); revert Hv;
      apply be_bytes_eq_iff; try (apply emsa_pss_bytes; done || lia); by rewrite Z2Nat.id by lia. }
  rewrite <- Hex, <- Hc. clear Hex Hc.
  assert (same (pss_hash hash (drop (Z.to_nat (n_len key - 65)) db)) h 32 = true <->
    pss_hash hash (drop (Z.to_nat (n_len key - 65)) db) = h) as Hsame.
  { destruct (pss_hash_length hash (drop (Z.to_nat (n_len key - 65)) db)) as [Hlp Hbp].
    assert (length h = 32%nat) as Hl2 by (subst h; rewrite length_take, length_drop; lia).
    rewrite same_spec; [|lia|lia|done|by apply Forall_take, Forall_drop]. by rewrite !take_ge by lia. }
  assert (is_u8 em.[0]) as H0 by (by apply (Forall_getz (is_word 8))). rewrite <- (clear_bit7 _ H0), <- Hsame.
  etransitivity; [apply (guards _ _ _ _ _ _ (fun i => db.[i]))|]. cbv beta. split.
  - intros H'. split; [exact Hlh|]. split; [exact Ha|]. split; [lia|exact H'].
  - intros (_ & _ & _ & H'). exact H'.
Qed.

(** ** Properties *)

(** Modular exponentiation is right for every odd modulus of any number of
    limbs, every base up to it and every 32 bit exponent: the result has the
    modulus' limbs and is base^e mod n. *)
Theorem bn_mod_exp_is_power base e n
  (Hn : words64 n) (Hodd : n.[0] mod 2 = 1) (Hl : length base = length n) (Hb : words64 base)
  (Hle : lval base <= lval n) (He : is_u32 e) :
  length (bn_mod_exp base e n) = length n /\ words64 (bn_mod_exp base e n) /\
  lval (bn_mod_exp base e n) = lval base ^ e mod lval n.
Proof. destruct (bn_mod_exp_ok base e n Hn Hodd) as [(H1 & H2 & _) H3]; done. Qed.

Lemma bn_mod_exp_is_power_witness :
  lval (bn_mod_exp [5; 7] 65537 [11; 13]) = lval [5; 7] ^ 65537 mod lval [11; 13].
Proof.
  assert (forall a b, is_u64 a -> is_u64 b -> words64 [a; b]) as Hw
    by (intros; apply Forall_cons_2; [done|]; apply Forall_cons_2; [done|apply Forall_nil_2]).
  assert (words64 [11; 13]) as H1 by (apply Hw; split; [discriminate|reflexivity|discriminate|reflexivity]).
  assert (words64 [5; 7]) as H2 by (apply Hw; split; [discriminate|reflexivity|discriminate|reflexivity]).
  assert (lval [5; 7] <= lval [11; 13]) as H3 by discriminate.
  assert (is_u32 65537) as H4 by (split; [discriminate|reflexivity]).
  exact (proj2 (proj2 (bn_mod_exp_is_power [5; 7] 65537 [11; 13] H1 eq_refl eq_refl H2 H3 H4))).
Defined.

(** C21: a signature is accepted exactly when it should be. For PKCS#1 v1.5: the
    key and signature are admissible and sig^e mod n is the number of the one
    encoding of the hash, 00 01 ff..ff 00, the prefix of the hash's kind and the
    hash, with at least eight ff bytes. For PSS: sig^e mod n is an encoding of
    RFC 8017 of the hash for some salt of 32 bytes. *)
Theorem rsa_verify_accepts_exactly key sig hash (Hk : key_wf key) (Hs : bytes sig) (Hh : bytes hash) :
  (rsa_verify_pkcs1 key sig hash = true <->
   exists der, der_for (zlen hash) = Some der /\ admissible key sig /\ 8 <= n_len key - 3 - zlen der - zlen hash /\
     opened key sig = be_val (emsa_pkcs1 der hash (n_len key))) /\
  (rsa_verify_pss key sig hash = true <->
   zlen hash = SHA256_SIZE /\ admissible key sig /\ 66 <= n_len key /\
   exists salt, bytes salt /\ zlen salt = SHA256_SIZE /\ opened key sig = be_val (emsa_pss hash salt (n_len key))).
Proof. split; [by apply pkcs1_ok|by apply pss_ok]. Qed.

(** A modulus of 62 bytes chosen as s^3 less an encoding, so that s is a signature of
    that hash with exponent 3. *)
Definition hash1 : list Z := be_bytes 32 0xba7816bf8f01cfea414140de5dae2223b00361a396177a9cb410ff61f20015ad.
Definition sig1 : list Z := be_bytes 62 0x24a1a052d217b3f30a32515c25c557e891883294f0.
Definition key1 : rsa_key_t := RsaKey
  (be_bytes 62 0xc00000000000000000000000000000000000000000664010c81e89fbeb191af4a5f96d8e340ba42f2b198897ad1d56971d8bb64f878b53275d5c500eda53
   ++ replicate 450 0) 62 3.
Lemma rsa_verify_accepts_exactly_witness :
  key_wf key1 /\ bytes sig1 /\ bytes hash1 /\ rsa_verify_pkcs1 key1 sig1 hash1 = true.
Proof.
  assert (key_wf key1) as Hk.
  { constructor.
    - vm_compute. reflexivity.
    - apply bytes_check. vm_compute. reflexivity.
    - split; [discriminate|reflexivity].
    - split; [discriminate|reflexivity]. }
  assert (bytes sig1) as Hs by apply be_bytes_bytes. assert (bytes hash1) as Hh by apply be_bytes_bytes.
  split; [exact Hk|]. split; [exact Hs|]. split; [exact Hh|].
  assert (der_for (zlen hash1) = Some SHA256_DER) as Hd by (vm_compute; reflexivity).
  assert (admissible key1 sig1) as Ha by (apply (bool_decide_unpack _); vm_compute; exact I).
  assert (8 <= n_len key1 - 3 - zlen SHA256_DER - zlen hash1) as Hp by (vm_compute; discriminate).
  assert (opened key1 sig1 = be_val (emsa_pkcs1 SHA256_DER hash1 (n_len key1))) as Ho by (vm_compute; reflexivity).
  exact (proj2 (proj1 (rsa_verify_accepts_exactly key1 sig1 hash1 Hk Hs Hh))
    (ex_intro _ SHA256_DER (conj Hd (conj Ha (conj Hp Ho))))).
Defined.
