(* ===== verification/Ec.v ===== *)
(** ECDSA and key agreement over P-256 and P-384 (kernel/ec.c, include/ec.h): the
    two fields in Montgomery form, Jacobian points, the ladders, and the checks
    around them. [Limbs] has the loops it shares with kernel/rsa.c. *)
From Stdlib Require Import Znumtheory.
From S2P Require Import Prelude Limbs.

(** ** Fixed width arithmetic *)

(** An [fe]: its limbs in use, as many as the modulus of its field has. *)
#[local] Notation fe := (list Z).

Record field_t := Field { fm : list Z; n0inv : Z; rr : fe; fone : fe }.
(** [f->n]. *)
Definition fn (f : field_t) : nat := length (fm f).

Definition fe_zero (n : nat) : fe := replicate n 0.
(** [fe one; fe_zero(&one); one.v[0] = 1]. *)
Definition fe_unit (n : nat) : fe := (fe_zero n).[0 := 1].

Definition fe_is_zero (a : fe) : bool := foldl Z.lor 0 a =? 0.
Definition fe_eq (a b : fe) : bool := foldl Z.lor 0 (zip_with Z.lxor a b) =? 0.
Definition ge_mod (a m : list Z) : bool := ge_limbs a m.

Fixpoint sub_in_place (a b : list Z) (borrow : Z) : list Z * Z :=
  match a, b with
  | x :: a, y :: b =>
      let d := u128 (x - y - borrow) in
      let '(l, c) := sub_in_place a b (u64 (d .>> 64) .& 1) in (u64 d :: l, c)
  | _, _ => ([], borrow)
  end.
Fixpoint add_in_place (a b : list Z) (carry : Z) : list Z * Z :=
  match a, b with
  | x :: a, y :: b =>
      let t := u128 (x + y + carry) in
      let '(l, c) := add_in_place a b (u64 (t .>> 64)) in (u64 t :: l, c)
  | _, _ => ([], carry)
  end.

Definition reduce_once (a : list Z) (carry : Z) (m : list Z) : list Z :=
  let '(t, borrow) := sub_in_place a m 0 in
  let keep := u64 (0 - ((carry .| (borrow .^ 1)) .& 1)) in
  zip_with (fun t a => (t .& keep) .| (a .& u64 (Z.lnot keep))) t a.

Definition fe_add_mod (a b : fe) (f : field_t) : fe :=
  let '(t, carry) := add_in_place a b 0 in reduce_once t carry (fm f).

Definition fe_sub_mod (a b : fe) (f : field_t) : fe :=
  let '(t, borrow) := sub_in_place a b 0 in
  let mask := u64 (0 - borrow) in
  let back := (fun m => m .& mask) <$> fm f in
  fst (add_in_place t back 0).

Definition fe_dbl_mod (a m : list Z) : list Z :=
  let '(a, carry) := shl1_limbs a 0 in
  if negb (carry =? 0) || ge_mod a m then fst (sub_in_place a m 0) else a.

Definition n0_inverse (m0 : Z) : Z := Limbs.n0_inverse m0.

Definition mont_mul (a b : fe) (f : field_t) : fe :=
  let '(t, top) := cios a b (fm f) (n0inv f) in reduce_once t top (fm f).
Definition mont_sq (a : fe) (f : field_t) : fe := mont_mul a a f.

Definition field_setup (m : list Z) : field_t :=
  let n := length m in
  let rr := for_range 0 (2 * Z.of_nat n * 64) (fun _ a => fe_dbl_mod a m) (fe_unit n) in
  let one := for_range 0 (Z.of_nat n * 64) (fun _ a => fe_dbl_mod a m) (fe_unit n) in
  Field m (n0_inverse m.[0]) rr one.

Definition to_mont (a : fe) (f : field_t) : fe := mont_mul a (rr f) f.
Definition from_mont (a : fe) (f : field_t) : fe := mont_mul a (fe_unit (fn f)) f.

Definition inv_step (e : list Z) (base : fe) (f : field_t) (i : Z) (acc : fe) : fe :=
  let acc := mont_sq acc f in
  if negb ((e.[i / 64] .>> (i mod 64)) .& 1 =? 0) then mont_mul acc base f else acc.
Definition fe_inv (a : fe) (f : field_t) : fe :=
  let e := fst (sub_in_place (fm f) (fe_zero (fn f)).[0 := 2] 0) in
  for_down 0 (Z.of_nat (fn f) * 64) (inv_step e a f) (fone f).

(** As many limbs as the bytes fill: the callers pass a coordinate's width. *)
Definition fe_from_bytes (b : list Z) : fe := load_be b (length b / 8).
Definition fe_to_bytes (a : fe) (len : Z) : list Z := store_be a len.

(** ** Points *)

Record point_t := Point { px : fe; py : fe; pz : fe }.

Definition pt_is_inf (p : point_t) : bool := fe_is_zero (pz p).
Definition pt_inf (n : nat) : point_t := Point (fe_zero n) (fe_zero n) (fe_zero n).

Definition pt_double (a : point_t) (f : field_t) : point_t :=
  if pt_is_inf a || fe_is_zero (py a) then pt_inf (fn f) else
  let delta := mont_sq (pz a) f in
  let gamma := mont_sq (py a) f in
  let beta := mont_mul (px a) gamma f in
  let t1 := fe_sub_mod (px a) delta f in
  let t2 := fe_add_mod (px a) delta f in
  let alpha := mont_mul t1 t2 f in
  let t1 := fe_add_mod alpha alpha f in
  let alpha := fe_add_mod t1 alpha f in
  let x3 := mont_sq alpha f in
  let t1 := fe_add_mod beta beta f in
  let t1 := fe_add_mod t1 t1 f in
  let x3 := fe_sub_mod x3 t1 f in
  let x3 := fe_sub_mod x3 t1 f in
  let t2 := fe_add_mod (py a) (pz a) f in
  let z3 := mont_sq t2 f in
  let z3 := fe_sub_mod z3 gamma f in
  let z3 := fe_sub_mod z3 delta f in
  let t2 := fe_sub_mod t1 x3 f in
  let y3 := mont_mul alpha t2 f in
  let t1 := mont_sq gamma f in
  let t1 := fe_add_mod t1 t1 f in
  let t1 := fe_add_mod t1 t1 f in
  let t1 := fe_add_mod t1 t1 f in
  let y3 := fe_sub_mod y3 t1 f in
  Point x3 y3 z3.

Definition pt_add (a b : point_t) (f : field_t) : point_t :=
  if pt_is_inf a then b else
  if pt_is_inf b then a else
  let z1z1 := mont_sq (pz a) f in
  let z2z2 := mont_sq (pz b) f in
  let u1 := mont_mul (px a) z2z2 f in
  let u2 := mont_mul (px b) z1z1 f in
  let t1 := mont_mul (pz b) z2z2 f in
  let s1 := mont_mul (py a) t1 f in
  let t2 := mont_mul (pz a) z1z1 f in
  let s2 := mont_mul (py b) t2 f in
  if fe_eq u1 u2 then
    if fe_eq s1 s2 then pt_double a f else pt_inf (fn f)
  else
  let h := fe_sub_mod u2 u1 f in
  let t1 := fe_add_mod h h f in
  let i := mont_sq t1 f in
  let j := mont_mul h i f in
  let t2 := fe_sub_mod s2 s1 f in
  let r := fe_add_mod t2 t2 f in
  let v := mont_mul u1 i f in
  let x3 := mont_sq r f in
  let x3 := fe_sub_mod x3 j f in
  let x3 := fe_sub_mod x3 v f in
  let x3 := fe_sub_mod x3 v f in
  let t1 := fe_sub_mod v x3 f in
  let y3 := mont_mul r t1 f in
  let t2 := mont_mul s1 j f in
  let t2 := fe_add_mod t2 t2 f in
  let y3 := fe_sub_mod y3 t2 f in
  let t1 := fe_add_mod (pz a) (pz b) f in
  let t1 := mont_sq t1 f in
  let t1 := fe_sub_mod t1 z1z1 f in
  let t1 := fe_sub_mod t1 z2z2 f in
  let z3 := mont_mul t1 h f in
  Point x3 y3 z3.

Definition bit_of (k : list Z) (i : Z) : Z := k.[i / 64] .>> (i mod 64).
Definition mul_step (k : fe) (p : point_t) (f : field_t) (i : Z) (acc : point_t) : point_t :=
  let acc := pt_double acc f in
  if negb (bit_of k i .& 1 =? 0) then pt_add acc p f else acc.
Definition pt_mul (k : fe) (p : point_t) (f : field_t) : point_t :=
  for_down 0 (Z.of_nat (fn f) * 64) (mul_step k p f) (pt_inf (fn f)).

Definition pt_affine_x (p : point_t) (f : field_t) : option fe :=
  if pt_is_inf p then None else
  let zi := fe_inv (pz p) f in
  let zi2 := mont_sq zi f in
  Some (mont_mul (px p) zi2 f).

Definition pt_affine_xy (p : point_t) (f : field_t) : option (fe * fe) :=
  if pt_is_inf p then None else
  let zi := fe_inv (pz p) f in
  let zi2 := mont_sq zi f in
  let zi3 := mont_mul zi2 zi f in
  Some (mont_mul (px p) zi2 f, mont_mul (py p) zi3 f).

Definition pt_select (a b : point_t) (take : Z) : point_t :=
  let m := u64 (0 - (take .& 1)) in
  let pick := zip_with (fun x y => (x .& u64 (Z.lnot m)) .| (y .& m)) in
  Point (pick (px a) (px b)) (pick (py a) (py b)) (pick (pz a) (pz b)).

(** ** The curves *)

Inductive ec_curve_t := EC_P256 | EC_P384.

Definition P256_P : list Z :=
  [0xffffffffffffffff; 0x00000000ffffffff; 0x0000000000000000; 0xffffffff00000001].
Definition P256_N : list Z :=
  [0xf3b9cac2fc632551; 0xbce6faada7179e84; 0xffffffffffffffff; 0xffffffff00000000].
Definition P384_P : list Z :=
  [0x00000000ffffffff; 0xffffffff00000000; 0xfffffffffffffffe; 0xffffffffffffffff; 0xffffffffffffffff; 0xffffffffffffffff].
Definition P384_N : list Z :=
  [0xecec196accc52973; 0x581a0db248b0a77a; 0xc7634d81f4372ddf; 0xffffffffffffffff; 0xffffffffffffffff; 0xffffffffffffffff].
(** The byte tables, written as the numbers they hold. *)
Definition P256_B : list Z := Eval vm_compute in be_bytes 32 0x5ac635d8aa3a93e7b3ebbd55769886bc651d06b0cc53b0f63bce3c3e27d2604b.
Definition P256_GX : list Z := Eval vm_compute in be_bytes 32 0x6b17d1f2e12c4247f8bce6e563a440f277037d812deb33a0f4a13945d898c296.
Definition P256_GY : list Z := Eval vm_compute in be_bytes 32 0x4fe342e2fe1a7f9b8ee7eb4a7c0f9e162bce33576b315ececbb6406837bf51f5.
Definition P384_B : list Z := Eval vm_compute in
  be_bytes 48 0xb3312fa7e23ee7e4988e056be3f82d19181d9c6efe8141120314088f5013875ac656398d8a2ed19d2a85c8edd3ec2aef.
Definition P384_GX : list Z := Eval vm_compute in
  be_bytes 48 0xaa87ca22be8b05378eb1c71ef320ad746e1d3b628ba79b9859f741e082542a385502f25dbf55296c3a545e3872760ab7.
Definition P384_GY : list Z := Eval vm_compute in
  be_bytes 48 0x3617de4a96262c6f5d9e98bf9292dc29f8f41dbd289a147ce9da3113b5f0b8c00a60b1ce1d7e819d7a431d7c90ea0e5f.

Record curve_t := Curve { cbytes : Z; fp : field_t; fnn : field_t; cb : fe; gx : fe; gy : fe }.

Definition curve_setup (which : ec_curve_t) : curve_t :=
  let '(bytes, p, n, b, gx, gy) :=
    match which with
    | EC_P256 => (32, P256_P, P256_N, P256_B, P256_GX, P256_GY)
    | EC_P384 => (48, P384_P, P384_N, P384_B, P384_GX, P384_GY)
    end in
  let fp := field_setup p in
  let fnn := field_setup n in
  Curve bytes fp fnn (to_mont (fe_from_bytes b) fp) (to_mont (fe_from_bytes gx) fp) (to_mont (fe_from_bytes gy) fp).

(** k + n or k + 2n, whichever reaches past the order's top bit, with one limb more. *)
Definition secret_multiple (k order : list Z) : list Z :=
  let n := length order in
  let k1 := take n k ++ [0] in
  let order := order ++ [0] in
  let k1 := fst (add_in_place k1 order 0) in
  let k2 := fst (add_in_place k1 order 0) in
  let first := u64 (0 - (k1.[Z.of_nat n] .& 1)) in
  zip_with (fun a b => (a .& first) .| (b .& u64 (Z.lnot first))) k1 k2.

Definition secret_step (k1 : list Z) (p : point_t) (f : field_t) (i : Z) (acc : point_t) : point_t :=
  let acc := pt_double acc f in
  let sum := pt_add acc p f in
  pt_select acc sum (bit_of k1 i).
Definition pt_mul_secret (k : fe) (p : point_t) (c : curve_t) : point_t :=
  let k1 := secret_multiple k (fm (fnn c)) in
  for_down 0 (Z.of_nat (fn (fp c)) * 64) (secret_step k1 p (fp c)) p.

Definition on_curve (c : curve_t) (x y : fe) : bool :=
  let f := fp c in
  let lhs := mont_sq y f in
  let x3 := mont_sq x f in
  let x3 := mont_mul x3 x f in
  let three_x := fe_add_mod x x f in
  let three_x := fe_add_mod three_x x f in
  let t := fe_sub_mod x3 three_x f in
  let t := fe_add_mod t (cb c) f in
  fe_eq lhs t.

Definition ec_field_bytes (curve : ec_curve_t) : Z := match curve with EC_P384 => 48 | EC_P256 => 32 end.

(** [if (ge_mod(a, m)) sub_in_place(a, m)]. *)
Definition reduce_order (a m : list Z) : list Z := if ge_mod a m then fst (sub_in_place a m 0) else a.

(** A scalar of a signature, written right aligned into as many bytes as the curve has. *)
Definition scalar_bytes (c : curve_t) (b : list Z) : list Z :=
  splice (replicate (Z.to_nat (cbytes c)) 0) (Z.to_nat (cbytes c - zlen b)) b.
(** The leftmost bytes of the hash as a number below the order. *)
Definition hash_scalar (c : curve_t) (hash : list Z) : fe :=
  let hb := if cbytes c <=? zlen hash then take (Z.to_nat (cbytes c)) hash else scalar_bytes c hash in
  reduce_order (fe_from_bytes hb) (fm (fnn c)).

(** An uncompressed point: its two coordinates in Montgomery form, when it is on the curve. *)
Definition peer_point (c : curve_t) (key : list Z) : option (fe * fe) :=
  if negb (zlen key =? 1 + 2 * cbytes c) then None else
  if negb (key.[0] =? 0x04) then None else
  let n := Z.to_nat (cbytes c) in
  let x_raw := fe_from_bytes (take n (drop 1 key)) in
  let y_raw := fe_from_bytes (take n (drop (1 + n) key)) in
  if ge_mod x_raw (fm (fp c)) then None else
  if ge_mod y_raw (fm (fp c)) then None else
  let x := to_mont x_raw (fp c) in
  let y := to_mont y_raw (fp c) in
  if negb (on_curve c x y) then None else Some (x, y).

(** The scalars e/s and r/s modulo the order. *)
Definition verify_scalars (c : curve_t) (e r s : fe) : fe * fe :=
  let s_m := to_mont s (fnn c) in
  let si := fe_inv s_m (fnn c) in
  let e_m := to_mont e (fnn c) in
  let r_m := to_mont r (fnn c) in
  let u1 := mont_mul e_m si (fnn c) in
  let u2 := mont_mul r_m si (fnn c) in
  (from_mont u1 (fnn c), from_mont u2 (fnn c)).

Definition ec_verify (curve : ec_curve_t) (pubkey hash r_bytes s_bytes : list Z) : bool :=
  let c := curve_setup curve in
  if negb (zlen pubkey =? 1 + 2 * cbytes c) then false else
  if negb (pubkey.[0] =? 0x04) then false else
  if (zlen r_bytes =? 0) || (cbytes c <? zlen r_bytes) then false else
  if (zlen s_bytes =? 0) || (cbytes c <? zlen s_bytes) then false else
  if (zlen hash =? 0) || (64 <? zlen hash) then false else
  let r := fe_from_bytes (scalar_bytes c r_bytes) in
  let s := fe_from_bytes (scalar_bytes c s_bytes) in
  if fe_is_zero r || fe_is_zero s then false else
  if ge_mod r (fm (fnn c)) || ge_mod s (fm (fnn c)) then false else
  match peer_point c pubkey with None => false | Some (qx, qy) =>
  let e := hash_scalar c hash in
  let '(u1, u2) := verify_scalars c e r s in
  let g := Point (gx c) (gy c) (fone (fp c)) in
  let q := Point qx qy (fone (fp c)) in
  let p1 := pt_mul u1 g (fp c) in
  let p2 := pt_mul u2 q (fp c) in
  let sum := pt_add p1 p2 (fp c) in
  match pt_affine_x sum (fp c) with None => false | Some xm =>
  let x := from_mont xm (fp c) in
  let x := reduce_order x (fm (fnn c)) in
  fe_eq x r
  end end.

Definition ec_base_x (curve : ec_curve_t) (k : list Z) : option (list Z) :=
  let c := curve_setup curve in
  if negb (zlen k =? cbytes c) then None else
  let g := Point (gx c) (gy c) (fone (fp c)) in
  let r := pt_mul (fe_from_bytes k) g (fp c) in
  match pt_affine_x r (fp c) with None => None | Some xm =>
  Some (fe_to_bytes (from_mont xm (fp c)) (cbytes c)) end.

Definition secret_scalar (c : curve_t) (priv : list Z) : option fe :=
  if negb (zlen priv =? cbytes c) then None else
  let k := fe_from_bytes priv in
  if negb (fe_is_zero k) && negb (ge_mod k (fm (fnn c))) then Some k else None.

Definition ec_public (curve : ec_curve_t) (priv : list Z) : option (list Z) :=
  let c := curve_setup curve in
  match secret_scalar c priv with None => None | Some k =>
  let g := Point (gx c) (gy c) (fone (fp c)) in
  let q := pt_mul_secret k g c in
  match pt_affine_xy q (fp c) with None => None | Some (xm, ym) =>
  Some ([0x04] ++ fe_to_bytes (from_mont xm (fp c)) (cbytes c) ++ fe_to_bytes (from_mont ym (fp c)) (cbytes c))
  end end.

Definition ec_agree (curve : ec_curve_t) (priv peer : list Z) : option (list Z) :=
  let c := curve_setup curve in
  match secret_scalar c priv with None => None | Some k =>
  match peer_point c peer with None => None | Some (x, y) =>
  let p := Point x y (fone (fp c)) in
  let r := pt_mul_secret k p c in
  match pt_affine_x r (fp c) with None => None | Some xm =>
  Some (fe_to_bytes (from_mont xm (fp c)) (cbytes c)) end end end.

(** ** What the loops compute *)

Lemma sub_in_place_ok a b c : length a = length b -> words64 a -> words64 b -> 0 <= c <= 1 ->
  let '(l, c') := sub_in_place a b c in
  length l = length a /\ words64 l /\ 0 <= c' <= 1 /\ lval l = lval a - lval b - c + B64 ^ zlen a * c'.
Proof.
  intros Hl Ha. revert b Hl c. induction Ha as [|x a Hx Ha IH]; intros b Hl c Hb Hc; destruct Hb as [|y b Hy Hb];
    cbn [length sub_in_place lval] in *; try done.
  - split_and!; try done; lia.
  - set (d := u128 (x - y - c)).
    assert (0 <= u64 (d .>> 64) .& 1 <= 1 /\ u64 d = x - y - c + B64 * (u64 (d .>> 64) .& 1)) as [Hc1 Hd].
    { subst d. rewrite land_1, Z.shiftr_div_pow2 by done. change (2 ^ 64) with B64. unfold is_word, u64, u128 in *. dlia. }
    generalize dependent (u64 (d .>> 64) .& 1). intros c1 Hc1 Hd.
    specialize (IH b ltac:(lia) c1 Hb Hc1). destruct (sub_in_place a b c1) as [l c2].
    destruct IH as (Hl2 & Hw & Hc2 & Hv). split_and!; cbn [length lval]; try lia.
    + apply Forall_cons_2; [apply u64_is_word|done].
    + rewrite Nat2Z.inj_succ, Z.pow_succ_r, Hd, Hv by lia. lia.
Qed.

Lemma add_in_place_ok a b c : length a = length b -> words64 a -> words64 b -> 0 <= c <= 1 ->
  let '(l, c') := add_in_place a b c in
  length l = length a /\ words64 l /\ 0 <= c' <= 1 /\ lval l + B64 ^ zlen a * c' = lval a + lval b + c.
Proof.
  intros Hl Ha. revert b Hl c. induction Ha as [|x a Hx Ha IH]; intros b Hl c Hb Hc; destruct Hb as [|y b Hy Hb];
    cbn [length add_in_place lval] in *; try done.
  - split_and!; try done; lia.
  - set (t := u128 (x + y + c)).
    assert (0 <= u64 (t .>> 64) <= 1 /\ u64 t + B64 * u64 (t .>> 64) = x + y + c) as [Hc1 Hd].
    { subst t. rewrite Z.shiftr_div_pow2 by done. change (2 ^ 64) with B64. unfold is_word, u64, u128 in *. dlia. }
    generalize dependent (u64 (t .>> 64)). intros c1 Hc1 Hd.
    specialize (IH b ltac:(lia) c1 Hb Hc1). destruct (add_in_place a b c1) as [l c2].
    destruct IH as (Hl2 & Hw & Hc2 & Hv). split_and!; cbn [length lval]; try lia.
    + apply Forall_cons_2; [apply u64_is_word|done].
    + rewrite Nat2Z.inj_succ, Z.pow_succ_r by lia. lia.
Qed.

(** Choosing between two numbers with a mask. *)
Lemma mask_ones x : is_u64 x -> x .& 18446744073709551615 = x.
Proof. intros. change 18446744073709551615 with (Z.ones 64). rewrite Z.land_ones by done. by apply Z.mod_small. Qed.
Lemma pick_ok t a (b : bool) : length t = length a -> words64 t -> words64 a ->
  let keep := u64 (0 - Z.b2z b) in
  zip_with (fun t a => (t .& keep) .| (a .& u64 (Z.lnot keep))) t a = if b then t else a.
Proof.
  intros Hl Ht. revert a Hl. destruct b; cbn [Z.b2z]; change (u64 (0 - 1)) with 18446744073709551615; change (u64 (0 - 0)) with 0;
    change (u64 (Z.lnot 18446744073709551615)) with 0; change (u64 (Z.lnot 0)) with 18446744073709551615; cbv zeta;
    induction Ht as [|x t Hx Ht IH]; intros a Hl Ha; destruct Ha as [|y a Hy Ha]; cbn [length zip_with] in *; try done;
    rewrite mask_ones, Z.land_0_r by done; (rewrite Z.lor_0_r || rewrite Z.lor_0_l); f_equal; apply IH; done || lia.
Qed.

Lemma reduce_once_ok t carry m : length t = length m -> words64 t -> words64 m -> 0 <= carry ->
  lval t + B64 ^ zlen m * carry < 2 * lval m ->
  length (reduce_once t carry m) = length m /\ words64 (reduce_once t carry m) /\
  lval (reduce_once t carry m) =
    (if lval m <=? lval t + B64 ^ zlen m * carry then lval t + B64 ^ zlen m * carry - lval m
     else lval t + B64 ^ zlen m * carry).
Proof.
  intros Hl Ht Hm Hc Hb. unfold reduce_once.
  pose proof (sub_in_place_ok t m 0 Hl Ht Hm ltac:(lia)) as Hs. destruct (sub_in_place t m 0) as [l br].
  destruct Hs as (Hll & Hw & Hbr & Hv). rewrite Hl in *.
  pose proof (lval_bound t Ht). pose proof (lval_bound m Hm). pose proof (lval_bound l Hw). rewrite Hl, Hll in *.
  assert (0 < B64 ^ zlen m) as HB by (apply B64_pow_pos; lia). assert (carry <= 1) as Hc1 by nia.
  assert ((carry .| (br .^ 1)) .& 1 = Z.b2z (lval m <=? lval t + B64 ^ zlen m * carry)) as ->.
  { assert (carry = 0 \/ carry = 1) as [->| ->] by lia; assert (br = 0 \/ br = 1) as [->| ->] by lia;
      case_bool; solve [reflexivity | exfalso; lia]. }
  rewrite pick_ok by (done || lia). case_bool; split_and!; try done; try lia;
    (assert (carry = 0 \/ carry = 1) as [->| ->] by lia; assert (br = 0 \/ br = 1) as [->| ->] by lia; lia).
Qed.

(** ** Fields *)

(** What [field_setup] makes of an odd modulus above one. *)
Record field_ok (f : field_t) : Prop := {
  fo_mod : mont_mod (fm f) (n0inv f);
  fo_odd : lval (fm f) mod 2 = 1;
  fo_rr : in_field (fm f) (rr f);
  fo_rr_val : lval (rr f) mod lval (fm f) = (B64 ^ zlen (fm f) * B64 ^ zlen (fm f)) mod lval (fm f);
  fo_one_len : length (fone f) = fn f;
  fo_one_words : words64 (fone f);
  fo_one_val : lval (fone f) = B64 ^ zlen (fm f) mod lval (fm f);
}.

(** [frep f x v]: x is the reduced Montgomery form of v. *)
Definition frep (f : field_t) (x : fe) (v : Z) : Prop :=
  length x = fn f /\ words64 x /\ lval x = (B64 ^ zlen (fm f) * v) mod lval (fm f).

Section field.
Context (f : field_t) (Hf : field_ok f).
Notation N := (lval (fm f)).
Notation R := (B64 ^ zlen (fm f)).

Lemma fN_pos : 0 < N.
Proof. eapply N_pos; [apply (fo_mod f Hf)|apply (fo_odd f Hf)]. Qed.
Lemma fm_words : words64 (fm f).
Proof. apply (mm_words _ _ (fo_mod f Hf)). Qed.

Lemma frep_bound x v : frep f x v -> 0 <= lval x < N.
Proof. intros (_ & _ & ->). apply Z.mod_pos_bound, fN_pos. Qed.
Lemma frep_mrep x v : frep f x v -> mrep (fm f) x v.
Proof.
  intros H. pose proof (frep_bound x v H). destruct H as (H1 & H2 & H3). pose proof fN_pos.
  split; [split_and!; [done|done|lia]|]. by rewrite H3, Z.mod_mod by lia.
Qed.
Lemma frep_ext x v w : frep f x v -> v mod N = w mod N -> frep f x w.
Proof.
  intros (H1 & H2 & H3) Hv. pose proof fN_pos. split_and!; try done.
  by rewrite H3, <- Z.mul_mod_idemp_r, Hv, Z.mul_mod_idemp_r by lia.
Qed.

(** The product with the reduction of this file is the one of [Limbs]. *)
Lemma mont_mul_eq a b : in_field (fm f) a -> length b = fn f -> words64 b ->
  mont_mul a b f = mont_limbs a b (fm f) (n0inv f) /\ lval (mont_mul a b f) < N.
Proof.
  intros (Hla & Ha & Han) Hlb Hb. pose proof fN_pos. unfold mont_mul, mont_limbs.
  pose proof (cios_ok a b _ _ (fo_mod f Hf) Hla Ha Han ltac:(done) Hb) as Hc.
  destruct (cios a b (fm f) (n0inv f)) as [t top]. destruct Hc as (H1 & H2 & H3 & H4 & _).
  destruct (reduce_once_ok t top (fm f) H1 H2 fm_words ltac:(unfold is_word in *; lia) H4) as (G1 & G2 & G3).
  destruct (cond_sub_ok t (fm f) top H1 H2 fm_words ltac:(unfold is_word in *; lia) ltac:(lia)) as (K1 & K2 & K3).
  split; [|rewrite G3; case_bool; lia]. apply lval_inj; [done..|lia|]. by rewrite G3, K3.
Qed.
Lemma mrep_frep x v : mrep (fm f) x v -> lval x < N -> frep f x v.
Proof.
  intros [(H1 & H2 & _) H3] Hlt. pose proof (lval_bound x H2). split_and!; try done. rewrite <- H3. symmetry. apply Z.mod_small. lia.
Qed.

Lemma frep_mul x y a b : frep f x a -> frep f y b -> frep f (mont_mul x y f) (a * b).
Proof.
  intros Hx Hy. pose proof (frep_mrep _ _ Hx) as Mx. pose proof (frep_mrep _ _ Hy) as My. destruct Hy as (Hly & Hwy & _).
  destruct (mont_mul_eq x y (proj1 Mx) Hly Hwy) as [He Hlt]. apply mrep_frep; [|done]. rewrite He.
  apply mrep_mul; try done; apply Hf.
Qed.
Lemma frep_sq x a : frep f x a -> frep f (mont_sq x f) (a * a).
Proof. intros. by apply frep_mul. Qed.

Lemma frep_add x y a b : frep f x a -> frep f y b -> frep f (fe_add_mod x y f) (a + b).
Proof.
  intros Hx Hy. pose proof (frep_bound _ _ Hx). pose proof (frep_bound _ _ Hy). destruct Hx as (Lx & Wx & Vx), Hy as (Ly & Wy & Vy).
  unfold fe_add_mod. pose proof (add_in_place_ok x y 0 ltac:(congruence) Wx Wy ltac:(lia)) as Ha.
  destruct (add_in_place x y 0) as [t c]. destruct Ha as (Lt & Wt & Hc & Hv). rewrite Lx in *.
  destruct (reduce_once_ok t c (fm f)) as (G1 & G2 & G3); [done|done|apply fm_words|lia|unfold fn in *; lia|].
  unfold fn in Hv. rewrite Hv, Z.add_0_r in G3. split_and!; try done. rewrite G3.
  rewrite Z.mul_add_distr_l, Z.add_mod, <- Vx, <- Vy by lia.
  case_bool; [apply Z.mod_unique with 1; lia|symmetry; apply Z.mod_small; lia].
Qed.

Lemma mask_list m (b : bool) : words64 m ->
  (fun x => x .& u64 (0 - Z.b2z b)) <$> m = if b then m else replicate (length m) 0.
Proof.
  induction 1 as [|x m Hx _ IH]; [by destruct b|]. rewrite fmap_cons, IH. cbn [length replicate].
  destruct b; cbn [Z.b2z]; [change (u64 (0 - 1)) with 18446744073709551615; by rewrite mask_ones|].
  change (u64 (0 - 0)) with 0. by rewrite Z.land_0_r.
Qed.
Lemma frep_sub x y a b : frep f x a -> frep f y b -> frep f (fe_sub_mod x y f) (a - b).
Proof.
  intros Hx Hy. pose proof (frep_bound _ _ Hx). pose proof (frep_bound _ _ Hy). destruct Hx as (Lx & Wx & Vx), Hy as (Ly & Wy & Vy).
  unfold fe_sub_mod. pose proof (sub_in_place_ok x y 0 ltac:(congruence) Wx Wy ltac:(lia)) as Ha.
  destruct (sub_in_place x y 0) as [t c]. destruct Ha as (Lt & Wt & Hc & Hv). rewrite Lx in *.
  assert (exists b : bool, c = Z.b2z b) as [bw ->] by (assert (c = 0 \/ c = 1) as [->| ->] by lia; [by exists false|by exists true]).
  rewrite mask_list by apply fm_words.
  assert (length (if bw then fm f else replicate (length (fm f)) 0) = fn f /\ words64 (if bw then fm f else replicate (length (fm f)) 0) /\
    lval (if bw then fm f else replicate (length (fm f)) 0) = Z.b2z bw * N) as (Lb & Wb & Vb).
  { destruct bw; cbn [Z.b2z]; split_and!; [done|apply fm_words|lia|apply length_replicate|apply words64_zeros|rewrite lval_zeros; lia]. }
  generalize dependent (if bw then fm f else replicate (length (fm f)) 0). intros back Lb Wb Vb.
  pose proof (add_in_place_ok t back 0 ltac:(congruence) Wt Wb ltac:(lia)) as Ha.
  destruct (add_in_place t back 0) as [t2 c2]. destruct Ha as (Lt2 & Wt2 & Hc2 & Hv2). cbn [fst].
  pose proof (lval_bound t Wt). pose proof (lval_bound t2 Wt2). pose proof (lval_bound _ fm_words). rewrite ?Lt2, ?Lt, ?Lx in *. unfold fn in *.
  split; [unfold fn; congruence|]. split; [done|]. rewrite Z.mul_sub_distr_l, Zminus_mod, <- Vx, <- Vy by lia.
  destruct bw; cbn [Z.b2z] in *; assert (c2 = 0 \/ c2 = 1) as [->| ->] by lia; try lia.
  - apply Z.mod_unique with (-1); lia.
  - symmetry. rewrite Z.mod_small; lia.
Qed.

(** Zero and equality of residues, from the limbs. *)
Lemma lor_zero l a : words64 l -> 0 <= a -> foldl Z.lor a l = 0 <-> a = 0 /\ lval l = 0.
Proof.
  intros Hl. revert a. induction Hl as [|b l Hb Hl IH]; intros a Ha; cbn [foldl lval]; [naive_solver|].
  unfold is_word in Hb. pose proof (lval_bound l Hl). rewrite IH by (apply Z.lor_nonneg; lia). rewrite Z.lor_eq_0_iff. lia.
Qed.
Lemma fe_is_zero_ok a : words64 a -> fe_is_zero a = (lval a =? 0).
Proof.
  intros Ha. unfold fe_is_zero. apply eq_bool_prop_intro. rewrite !Is_true_true, !Z.eqb_eq, lor_zero by done. tauto.
Qed.
Lemma lxor_zero a b : length a = length b -> words64 a -> words64 b ->
  words64 (zip_with Z.lxor a b) /\ (lval (zip_with Z.lxor a b) = 0 <-> a = b).
Proof.
  intros Hl Ha. revert b Hl. induction Ha as [|x a Hx Ha IH]; intros b Hl Hb; destruct Hb as [|y b Hy Hb];
    cbn [length zip_with lval] in *; try done.
  destruct (IH b ltac:(lia) Hb) as [H1 H2]. pose proof (lval_bound _ H1).
  assert (is_u64 (x .^ y)) as Hxy by auto with words. split; [by apply Forall_cons_2|].
  unfold is_word in Hxy. split.
  - intros H3. assert (x .^ y = 0) as ->%Z.lxor_eq by lia. f_equal. apply H2. lia.
  - intros [= -> ->]. rewrite Z.lxor_nilpotent. rewrite (proj2 H2) by done. lia.
Qed.
Lemma fe_eq_ok a b : length a = length b -> words64 a -> words64 b -> fe_eq a b = (lval a =? lval b).
Proof.
  intros Hl Ha Hb. destruct (lxor_zero a b Hl Ha Hb) as [H1 H2]. unfold fe_eq. apply eq_bool_prop_intro.
  rewrite !Is_true_true, !Z.eqb_eq, lor_zero, H2 by done. split; [by intros [_ ->]|].
  intros H. split; [done|]. by apply lval_inj.
Qed.

Lemma frep_eq x y a b : frep f x a -> frep f y b -> fe_eq x y = (a mod N =? b mod N).
Proof.
  intros (Lx & Wx & Vx) (Ly & Wy & Vy). rewrite fe_eq_ok, Vx, Vy by (done || congruence). pose proof fN_pos.
  apply eq_bool_prop_intro. rewrite !Is_true_true, !Z.eqb_eq. split.
  - apply R_cancel; [lia|apply Hf|lia].
  - intros H1. by rewrite <- Z.mul_mod_idemp_r, H1, Z.mul_mod_idemp_r by lia.
Qed.
Lemma frep_zero : frep f (fe_zero (fn f)) 0.
Proof.
  split_and!; [apply length_replicate|apply words64_zeros|]. unfold fe_zero. rewrite lval_zeros, Z.mul_0_r. done.
Qed.
Lemma frep_is_zero x a : frep f x a -> fe_is_zero x = (a mod N =? 0).
Proof.
  intros Hx. pose proof (frep_eq _ _ _ _ Hx frep_zero) as H. rewrite Z.mod_0_l in H by (pose proof fN_pos; lia).
  rewrite <- H. destruct Hx as (Lx & Wx & _). rewrite fe_is_zero_ok, fe_eq_ok by (done || apply words64_zeros || (unfold fe_zero; by rewrite length_replicate)).
  unfold fe_zero. by rewrite lval_zeros.
Qed.
Lemma frep_one : frep f (fone f) 1.
Proof. split_and!; try apply Hf. rewrite Z.mul_1_r. apply Hf. Qed.

(** In and out of Montgomery form. *)
Lemma frep_to_mont x : length x = fn f -> words64 x -> lval x <= N -> frep f (to_mont x f) (lval x).
Proof.
  intros Hl Hw Hle. assert (in_field (fm f) x) as Hx by done. unfold to_mont.
  destruct (fo_rr f Hf) as (Lr & Wr & Hr). destruct (mont_mul_eq x (rr f) Hx Lr Wr) as [He Hlt].
  apply mrep_frep; [|done]. rewrite He. apply mrep_enter; try apply Hf. done.
Qed.
Lemma unit_ok n : (0 < n)%nat -> length (fe_unit n) = n /\ words64 (fe_unit n) /\ lval (fe_unit n) = 1.
Proof.
  intros Hn. destruct n as [|n]; [lia|]. unfold fe_unit, fe_zero. change ((replicate (S n) 0).[0 := 1]) with (1 :: replicate n 0).
  rewrite lval_one. cbn [length]. rewrite length_replicate. split_and!; try done.
  apply Forall_cons_2; [done|apply words64_zeros].
Qed.
Lemma frep_from_mont x a : frep f x a ->
  length (from_mont x f) = fn f /\ words64 (from_mont x f) /\ lval (from_mont x f) = a mod N.
Proof.
  intros Hx. pose proof (frep_mrep _ _ Hx) as Mx. destruct (unit_ok (fn f) (mm_len _ _ (fo_mod f Hf))) as (L1 & W1 & V1).
  destruct (mont_mul_eq x (fe_unit (fn f)) (proj1 Mx) L1 W1) as [He _]. unfold from_mont. rewrite He.
  destruct (mrep_leave _ _ (fo_mod f Hf) (fo_odd f Hf) x (fe_unit (fn f)) a Mx L1 W1 V1) as [Hv (H1 & H2 & _)]. done.
Qed.

(** The inverse is the power N - 2. *)
Lemma frep_inv x a : 1 < N -> frep f x a -> frep f (fe_inv x f) (a ^ (N - 2)).
Proof.
  intros HN Hx. unfold fe_inv.
  pose proof (mm_len _ _ (fo_mod f Hf)) as Hlen.
  assert (length (fe_zero (fn f)).[0 := 2] = fn f /\ words64 (fe_zero (fn f)).[0 := 2] /\ lval (fe_zero (fn f)).[0 := 2] = 2) as (L2 & W2 & V2).
  { unfold fn, fe_zero in *. destruct (length (fm f)) as [|n]; [lia|].
    change ((replicate (S n) 0).[0 := 2]) with (2 :: replicate n 0). cbn [length lval]. rewrite length_replicate, lval_zeros.
    split_and!; [done|apply Forall_cons_2; [done|apply words64_zeros]|lia]. }
  pose proof (sub_in_place_ok (fm f) _ 0 (eq_sym L2) fm_words W2 ltac:(lia)) as Hs.
  destruct (sub_in_place (fm f) _ 0) as [e c]. destruct Hs as (Le & We & Hc & Hv). cbn [fst].
  pose proof (lval_bound e We) as Hb. pose proof (lval_bound _ fm_words). rewrite Le in Hb.
  pose proof (fo_odd f Hf) as Hodd.
  assert (N <> 2) as HN2 by (intros H2; by rewrite H2 in Hodd).
  assert (lval e = N - 2) as Hve by (assert (c = 0 \/ c = 1) as [->| ->] by lia; lia).
  assert (0 <= lval e < 2 ^ (zlen (fm f) * 64)) as Hbe.
  { rewrite Hve. rewrite B64_pow in * by lia. replace (zlen (fm f) * 64) with (64 * zlen (fm f)) by lia. lia. }
  rewrite <- Hve. unfold fn.
  apply (binary_loop (fun q acc => frep f acc (a ^ q))); [lia|done|apply frep_one|].
  intros i q acc Hi Hq Hacc. unfold inv_step. rewrite limb_bit, b2z_nonzero by (done || lia).
  pose proof (frep_sq _ _ Hacc) as Hsq. destruct (Z.testbit (lval e) i); cbn [Z.b2z].
  - replace (2 * q + 1) with (q + q + 1) by lia. rewrite !Z.pow_add_r, Z.pow_1_r by lia. by apply frep_mul.
  - replace (2 * q + 0) with (q + q) by lia. by rewrite Z.pow_add_r by lia.
Qed.
End field.

(** [field_setup] is right for every odd modulus above one. *)
Lemma fe_dbl_mod_eq a m : length a = length m -> words64 a -> words64 m -> lval a < lval m ->
  length (fe_dbl_mod a m) = length m /\ words64 (fe_dbl_mod a m) /\ lval (fe_dbl_mod a m) = (2 * lval a) mod lval m.
Proof.
  intros Hl Ha Hm Hlt. unfold fe_dbl_mod.
  pose proof (shl1_limbs_ok a 0 Ha ltac:(lia)) as Hs. destruct (shl1_limbs a 0) as [l c].
  destruct Hs as (Hll & Hw & Hc & Hv). rewrite Hl in *. unfold ge_mod. rewrite ge_limbs_ok by (done || lia).
  pose proof (sub_in_place_ok l m 0 Hll Hw Hm ltac:(lia)) as Hs. destruct (sub_in_place l m 0) as [t br].
  destruct Hs as (Lt & Wt & Hbr & Vt). cbn [fst]. rewrite Hll in *.
  pose proof (lval_bound a Ha). pose proof (lval_bound m Hm). pose proof (lval_bound t Wt). pose proof (lval_bound l Hw). rewrite ?Lt, ?Hll, ?Hl in *.
  assert (c = 0 \/ c = 1) as [->| ->] by lia; assert (br = 0 \/ br = 1) as [->| ->] by lia; cbn [Z.eqb negb orb].
  all: try case_bool; (split; [done|]); (split; [done|]); try (exfalso; lia).
  all: first [symmetry; rewrite Z.mod_small; lia | apply Z.mod_unique with 1; lia].
Qed.
Lemma dbl_setup_ok m k : (0 < length m)%nat -> words64 m -> 1 < lval m -> 0 <= k ->
  let r := for_range 0 k (fun _ a => fe_dbl_mod a m) (fe_unit (length m)) in
  length r = length m /\ words64 r /\ lval r = 2 ^ k mod lval m.
Proof.
  intros Hlen Hm H1 Hk. cbv zeta. destruct (unit_ok (length m) Hlen) as (L1 & W1 & V1).
  apply (for_range_inv (fun i r => length r = length m /\ words64 r /\ lval r = 2 ^ i mod lval m)); [done| |].
  - split_and!; try done. rewrite V1. symmetry. apply Z.mod_small. lia.
  - intros i r Hi (Lr & Wr & Vr). pose proof (Z.mod_pos_bound (2 ^ i) (lval m) ltac:(lia)).
    destruct (fe_dbl_mod_eq r m Lr Wr Hm ltac:(lia)) as (L2 & W2 & V2). split_and!; try done.
    rewrite V2, Vr, Z.mul_mod_idemp_r, Z.add_1_r, Z.pow_succ_r by lia. done.
Qed.
Lemma field_setup_ok m : words64 m -> m.[0] mod 2 = 1 -> 1 < lval m -> field_ok (field_setup m).
Proof.
  intros Hm Ho H1. destruct (lval_odd m Ho) as [Hodd Hlen]. unfold field_setup.
  destruct (dbl_setup_ok m (2 * zlen m * 64) Hlen Hm H1 ltac:(lia)) as (L1 & W1 & V1).
  destruct (dbl_setup_ok m (zlen m * 64) Hlen Hm H1 ltac:(lia)) as (L2 & W2 & V2).
  pose proof (Z.mod_pos_bound (2 ^ (2 * zlen m * 64)) (lval m) ltac:(lia)).
  constructor; cbn [fm n0inv rr fone].
  - by apply mont_mod_intro.
  - done.
  - split_and!; try done. lia.
  - rewrite V1, Z.mod_mod by lia. rewrite <- Z.pow_add_r, B64_pow by lia. do 2 f_equal. lia.
  - done.
  - done.
  - rewrite V2, B64_pow by lia. do 2 f_equal. lia.
Qed.

(** ** The chord and tangent law *)

(** A point of the curve over the integers modulo p, by representatives. *)
Inductive affine := Inf | Aff (x y : Z).

Inductive double_spec (p : Z) : affine -> affine -> Prop :=
| double_inf : double_spec p Inf Inf
| double_flat x y : y mod p = 0 -> double_spec p (Aff x y) Inf
| double_tangent x y l :
    y mod p <> 0 -> (l * (2 * y)) mod p = (3 * x ^ 2 - 3) mod p ->
    double_spec p (Aff x y) (let x3 := l ^ 2 - 2 * x in Aff x3 (l * (x - x3) - y)).

Inductive add_spec (p : Z) : affine -> affine -> affine -> Prop :=
| add_inf_l B : add_spec p Inf B B
| add_inf_r A : add_spec p A Inf A
| add_same x1 y1 x2 y2 C : x1 mod p = x2 mod p -> y1 mod p = y2 mod p ->
    double_spec p (Aff x1 y1) C -> add_spec p (Aff x1 y1) (Aff x2 y2) C
| add_opposite x1 y1 x2 y2 : x1 mod p = x2 mod p -> y1 mod p <> y2 mod p -> add_spec p (Aff x1 y1) (Aff x2 y2) Inf
| add_chord x1 y1 x2 y2 l :
    x1 mod p <> x2 mod p -> (l * (x2 - x1)) mod p = (y2 - y1) mod p ->
    add_spec p (Aff x1 y1) (Aff x2 y2) (let x3 := l ^ 2 - x1 - x2 in Aff x3 (l * (x1 - x3) - y1)).

(** The multiple of a point by the bits of k, the top one first. *)
Inductive mul_spec (p : Z) (A : affine) : Z -> affine -> Prop :=
| mul_none : mul_spec p A 0 Inf
| mul_bit0 k B C : 0 <= k -> mul_spec p A k B -> double_spec p B C -> mul_spec p A (2 * k) C
| mul_bit1 k B C D : 0 <= k -> mul_spec p A k B -> double_spec p B C -> add_spec p C A D -> mul_spec p A (2 * k + 1) D.

(** A Jacobian point and the affine point it stands for. *)
Definition jac (f : field_t) (P : point_t) (A : affine) : Prop :=
  exists X Y Z, frep f (px P) X /\ frep f (py P) Y /\ frep f (pz P) Z /\
  match A with
  | Inf => Z mod lval (fm f) = 0
  | Aff x y => Z mod lval (fm f) <> 0 /\ X mod lval (fm f) = (x * Z ^ 2) mod lval (fm f) /\
      Y mod lval (fm f) = (y * Z ^ 3) mod lval (fm f)
  end.

Section curve.
Context (f : field_t) (Hf : field_ok f) (Hp : prime (lval (fm f))).
Notation N := (lval (fm f)).

Lemma prime_zero a b : (a * b) mod N = 0 <-> a mod N = 0 \/ b mod N = 0.
Proof.
  pose proof (prime_ge_2 _ Hp). split.
  - intros H1. apply Z.mod_divide in H1; [|lia]. destruct (prime_mult _ Hp _ _ H1) as [H2|H2].
    + left. apply Z.mod_divide; [lia|done].
    + right. apply Z.mod_divide; [lia|done].
  - intros [H1|H1]; [rewrite <- Z.mul_mod_idemp_l, H1|rewrite <- Z.mul_mod_idemp_r, H1, Z.mul_0_r]; try lia; by rewrite Z.mod_0_l by lia.
Qed.
Lemma mod_sub_zero a b : a mod N = b mod N <-> (a - b) mod N = 0.
Proof.
  pose proof (prime_ge_2 _ Hp). split.
  - intros H1. rewrite Zminus_mod, H1, Z.sub_diag. apply Z.mod_0_l. lia.
  - intros H1. apply Z.mod_divide in H1 as [k H1]; [|lia]. apply mod_eq_ex; [lia|]. exists k. lia.
Qed.
Lemma cancel a b z : z mod N <> 0 -> (a * z) mod N = (b * z) mod N <-> a mod N = b mod N.
Proof.
  intros Hz. rewrite !mod_sub_zero. replace (a * z - b * z) with ((a - b) * z) by lia. rewrite prime_zero. tauto.
Qed.
Lemma nonzero_mul a b : a mod N <> 0 -> b mod N <> 0 -> (a * b) mod N <> 0.
Proof. rewrite prime_zero. tauto. Qed.
Lemma two_nonzero : 2 mod N <> 0.
Proof.
  pose proof (prime_ge_2 _ Hp). pose proof (fo_odd f Hf) as Ho.
  assert (N <> 2) by (intros E; by rewrite E in Ho). rewrite Z.mod_small; lia.
Qed.
(** Division by a number that is not nought. *)
Lemma quotient d e : d mod N <> 0 -> exists l, (l * d) mod N = e mod N.
Proof.
  intros Hd. pose proof (prime_ge_2 _ Hp).
  assert (rel_prime d N) as Hr.
  { apply rel_prime_sym, prime_rel_prime; [done|]. intros H1. apply Hd. apply Z.mod_divide; [lia|done]. }
  destruct (rel_prime_bezout _ _ Hr) as [u v Huv]. exists (u * e). apply mod_eq_ex; [lia|]. exists (- v * e).
  replace (u * e * d) with (e * (u * d)) by lia. replace (u * d) with (1 - v * N) by lia. lia.
Qed.
Lemma mod_mul_eq a b c : a mod N = b mod N -> (a * c) mod N = (b * c) mod N.
Proof. intros H1. pose proof (prime_ge_2 _ Hp). by rewrite <- Z.mul_mod_idemp_l, H1, Z.mul_mod_idemp_l by lia. Qed.

(** The coordinates of a finite point can be taken as the affine ones times powers of Z. *)
Lemma jac_aff P x y : jac f P (Aff x y) ->
  exists Z, Z mod N <> 0 /\ frep f (px P) (x * Z ^ 2) /\ frep f (py P) (y * Z ^ 3) /\ frep f (pz P) Z.
Proof.
  intros (X & Y & Z & HX & HY & HZ & Hz & Ex & Ey). exists Z.
  split_and!; try done; by eapply frep_ext; [done|eassumption|].
Qed.
Lemma jac_inf_zero : jac f (pt_inf (fn f)) Inf.
Proof. exists 0, 0, 0. split_and!; try apply frep_zero; done. Qed.

#[local] Opaque mont_mul mont_sq fe_add_mod fe_sub_mod fe_is_zero fe_eq frep.

(** Values of the field elements that a straight line of operations makes. *)
Ltac rep_step :=
  lazymatch goal with
  | |- frep _ (mont_sq _ _) _ => apply frep_sq; [assumption|rep_step]
  | |- frep _ (mont_mul _ _ _) _ => apply frep_mul; [assumption|rep_step|rep_step]
  | |- frep _ (fe_add_mod _ _ _) _ => apply frep_add; [assumption|rep_step|rep_step]
  | |- frep _ (fe_sub_mod _ _ _) _ => apply frep_sub; [assumption|rep_step|rep_step]
  | |- frep _ _ _ => eassumption
  end.
Ltac rep_eq v := eapply (frep_ext f Hf _ _ v); [rep_step|f_equal; ring].

(** Doubling: the sum of the tangent's third point, for a point that is not its
    own opposite. *)
Lemma pt_double_tangent a x y z l :
  z mod N <> 0 -> y mod N <> 0 -> (l * (2 * y)) mod N = (3 * x ^ 2 - 3) mod N ->
  frep f (px a) (x * z ^ 2) -> frep f (py a) (y * z ^ 3) -> frep f (pz a) z ->
  let x3 := l ^ 2 - 2 * x in jac f (pt_double a f) (Aff x3 (l * (x - x3) - y)).
Proof.
  intros Hz Hy Hl HX HY HZ x3. unfold pt_double, pt_is_inf.
  rewrite (frep_is_zero f Hf _ _ HZ), (frep_is_zero f Hf _ _ HY).
  assert ((y * z ^ 3) mod N <> 0) as Hyz.
  { replace (y * z ^ 3) with (y * (z * z * z)) by ring. by repeat apply nonzero_mul. }
  rewrite (proj2 (Z.eqb_neq _ _) Hz), (proj2 (Z.eqb_neq _ _) Hyz). cbn [orb]. cbv zeta.
  assert (frep f (fe_add_mod (fe_add_mod (mont_mul (fe_sub_mod (px a) (mont_sq (pz a) f) f) (fe_add_mod (px a) (mont_sq (pz a) f) f) f)
     (mont_mul (fe_sub_mod (px a) (mont_sq (pz a) f) f) (fe_add_mod (px a) (mont_sq (pz a) f) f) f) f)
     (mont_mul (fe_sub_mod (px a) (mont_sq (pz a) f) f) (fe_add_mod (px a) (mont_sq (pz a) f) f) f) f) (l * (2 * y) * z ^ 4)) as Ha.
  { eapply (frep_ext f Hf _ ((3 * x ^ 2 - 3) * z ^ 4)); [rep_eq ((3 * x ^ 2 - 3) * z ^ 4)|].
    apply mod_mul_eq. by rewrite Hl. }
  generalize dependent (fe_add_mod (fe_add_mod (mont_mul (fe_sub_mod (px a) (mont_sq (pz a) f) f) (fe_add_mod (px a) (mont_sq (pz a) f) f) f)
     (mont_mul (fe_sub_mod (px a) (mont_sq (pz a) f) f) (fe_add_mod (px a) (mont_sq (pz a) f) f) f) f)
     (mont_mul (fe_sub_mod (px a) (mont_sq (pz a) f) f) (fe_add_mod (px a) (mont_sq (pz a) f) f) f) f).
  intros alpha Ha.
  exists (x3 * (2 * y * z ^ 4) ^ 2), ((l * (x - x3) - y) * (2 * y * z ^ 4) ^ 3), (2 * y * z ^ 4). cbn [px py pz].
  split; [subst x3; rep_eq ((l ^ 2 - 2 * x) * (2 * y * z ^ 4) ^ 2)|].
  split; [subst x3; rep_eq ((l * (x - (l ^ 2 - 2 * x)) - y) * (2 * y * z ^ 4) ^ 3)|].
  split; [rep_eq (2 * y * z ^ 4)|]. split; [|done].
  replace (2 * y * z ^ 4) with (2 * y * (z * z * (z * z))) by ring.
  pose proof two_nonzero. by repeat apply nonzero_mul.
Qed.

Lemma pt_double_ok a A : jac f a A -> exists C, double_spec N A C /\ jac f (pt_double a f) C.
Proof.
  intros Ha. destruct A as [|x y].
  - exists Inf. split; [constructor|]. destruct Ha as (X & Y & Z & _ & _ & HZ & Hz). unfold pt_double, pt_is_inf.
    rewrite (frep_is_zero f Hf _ _ HZ), Hz. by apply jac_inf_zero.
  - destruct (jac_aff a x y Ha) as (z & Hz & HX & HY & HZ). destruct (decide (y mod N = 0)) as [Hy|Hy].
    + exists Inf. split; [by constructor|]. unfold pt_double, pt_is_inf. rewrite (frep_is_zero f Hf _ _ HY).
      assert ((y * z ^ 3) mod N = 0) as -> by (apply prime_zero; by left).
      rewrite orb_true_r. by apply jac_inf_zero.
    + destruct (quotient (2 * y) (3 * x ^ 2 - 3)) as [l Hl]; [apply nonzero_mul; [apply two_nonzero|done]|].
      eexists. split; [by apply (double_tangent N x y l)|]. by apply (pt_double_tangent a x y z l).
Qed.

(** Addition of points with different x: the chord's third point, mirrored. *)
Lemma pt_add_chord a b x1 y1 z1 x2 y2 z2 l :
  z1 mod N <> 0 -> z2 mod N <> 0 -> x1 mod N <> x2 mod N -> (l * (x2 - x1)) mod N = (y2 - y1) mod N ->
  frep f (px a) (x1 * z1 ^ 2) -> frep f (py a) (y1 * z1 ^ 3) -> frep f (pz a) z1 ->
  frep f (px b) (x2 * z2 ^ 2) -> frep f (py b) (y2 * z2 ^ 3) -> frep f (pz b) z2 ->
  let x3 := l ^ 2 - x1 - x2 in jac f (pt_add a b f) (Aff x3 (l * (x1 - x3) - y1)).
Proof.
  intros H1 H2 Hx Hl X1 Y1 Z1 X2 Y2 Z2 x3. unfold pt_add, pt_is_inf.
  rewrite (frep_is_zero f Hf _ _ Z1), (frep_is_zero f Hf _ _ Z2), (proj2 (Z.eqb_neq _ _) H1), (proj2 (Z.eqb_neq _ _) H2).
  cbv zeta.
  assert (frep f (mont_mul (px a) (mont_sq (pz b) f) f) (x1 * (z1 * z2) ^ 2)) as U1 by (rep_eq (x1 * (z1 * z2) ^ 2)).
  assert (frep f (mont_mul (px b) (mont_sq (pz a) f) f) (x2 * (z1 * z2) ^ 2)) as U2 by (rep_eq (x2 * (z1 * z2) ^ 2)).
  rewrite (frep_eq f Hf _ _ _ _ U1 U2).
  assert ((z1 * z2) ^ 2 mod N <> 0) as Hzz.
  { replace ((z1 * z2) ^ 2) with ((z1 * z2) * (z1 * z2)) by ring. by repeat apply nonzero_mul. }
  rewrite (proj2 (Z.eqb_neq _ _)) by (by rewrite cancel).
  assert (frep f (py b) ((y1 + l * (x2 - x1)) * z2 ^ 3)) as Y2'.
  { eapply (frep_ext f Hf); [exact Y2|]. apply mod_mul_eq. pose proof (prime_ge_2 _ Hp).
    rewrite <- Z.add_mod_idemp_r, Hl, Z.add_mod_idemp_r by lia. f_equal. lia. }
  set (d := x2 - x1) in *. clear Y2.
  exists (x3 * (2 * (z1 * z2) ^ 3 * d) ^ 2), ((l * (x1 - x3) - y1) * (2 * (z1 * z2) ^ 3 * d) ^ 3), (2 * (z1 * z2) ^ 3 * d).
  cbn [px py pz].
  split; [subst x3 d; rep_eq ((l ^ 2 - x1 - x2) * (2 * (z1 * z2) ^ 3 * (x2 - x1)) ^ 2)|].
  split; [subst x3 d; rep_eq ((l * (x1 - (l ^ 2 - x1 - x2)) - y1) * (2 * (z1 * z2) ^ 3 * (x2 - x1)) ^ 3)|].
  split; [subst d; rep_eq (2 * (z1 * z2) ^ 3 * (x2 - x1))|]. split; [|done].
  replace (2 * (z1 * z2) ^ 3 * d) with (2 * (z1 * z2 * (z1 * z2) * (z1 * z2)) * d) by ring.
  assert (d mod N <> 0) by (subst d; intros E; apply Hx; symmetry; by apply mod_sub_zero).
  pose proof two_nonzero. by repeat apply nonzero_mul.
Qed.

Lemma pt_add_ok a b A B : jac f a A -> jac f b B -> exists C, add_spec N A B C /\ jac f (pt_add a b f) C.
Proof.
  intros Ha Hb. destruct A as [|x1 y1].
  { exists B. split; [constructor|]. destruct Ha as (X & Y & Z & _ & _ & HZ & Hz). unfold pt_add, pt_is_inf.
    by rewrite (frep_is_zero f Hf _ _ HZ), Hz. }
  destruct (jac_aff a x1 y1 Ha) as (z1 & H1 & X1 & Y1 & Z1). destruct B as [|x2 y2].
  { exists (Aff x1 y1). split; [constructor|]. destruct Hb as (X & Y & Z & _ & _ & HZ & Hz). unfold pt_add, pt_is_inf.
    rewrite (frep_is_zero f Hf _ _ Z1), (proj2 (Z.eqb_neq _ _) H1). by rewrite (frep_is_zero f Hf _ _ HZ), Hz. }
  destruct (jac_aff b x2 y2 Hb) as (z2 & H2 & X2 & Y2 & Z2).
  destruct (decide (x1 mod N = x2 mod N)) as [Hx|Hx].
  - unfold pt_add, pt_is_inf.
    rewrite (frep_is_zero f Hf _ _ Z1), (frep_is_zero f Hf _ _ Z2), (proj2 (Z.eqb_neq _ _) H1), (proj2 (Z.eqb_neq _ _) H2).
    cbv zeta.
    assert (frep f (mont_mul (px a) (mont_sq (pz b) f) f) (x1 * (z1 * z2) ^ 2)) as U1 by (rep_eq (x1 * (z1 * z2) ^ 2)).
    assert (frep f (mont_mul (px b) (mont_sq (pz a) f) f) (x2 * (z1 * z2) ^ 2)) as U2 by (rep_eq (x2 * (z1 * z2) ^ 2)).
    rewrite (frep_eq f Hf _ _ _ _ U1 U2), (mod_mul_eq _ _ ((z1 * z2) ^ 2) Hx), Z.eqb_refl.
    assert (frep f (mont_mul (py a) (mont_mul (pz b) (mont_sq (pz b) f) f) f) (y1 * (z1 * z2) ^ 3)) as S1 by (rep_eq (y1 * (z1 * z2) ^ 3)).
    assert (frep f (mont_mul (py b) (mont_mul (pz a) (mont_sq (pz a) f) f) f) (y2 * (z1 * z2) ^ 3)) as S2 by (rep_eq (y2 * (z1 * z2) ^ 3)).
    rewrite (frep_eq f Hf _ _ _ _ S1 S2).
    assert ((z1 * z2) ^ 3 mod N <> 0) as Hzz.
    { replace ((z1 * z2) ^ 3) with ((z1 * z2) * (z1 * z2) * (z1 * z2)) by ring. by repeat apply nonzero_mul. }
    destruct (Z.eqb_spec ((y1 * (z1 * z2) ^ 3) mod N) ((y2 * (z1 * z2) ^ 3) mod N)) as [Hy|Hy]; rewrite cancel in Hy by done.
    + destruct (pt_double_ok a _ Ha) as (C & HC & HJ). exists C. split; [by apply add_same|done].
    + exists Inf. split; [by apply add_opposite|by apply jac_inf_zero].
  - destruct (quotient (x2 - x1) (y2 - y1)) as [l Hl].
    { intros E. apply Hx. symmetry. by apply mod_sub_zero. }
    eexists. split; [by apply (add_chord N x1 y1 x2 y2 l)|]. by apply (pt_add_chord a b x1 y1 z1 x2 y2 z2 l).
Qed.

Lemma pt_mul_ok k p A : length k = fn f -> words64 k -> jac f p A ->
  exists C, mul_spec N A (lval k) C /\ jac f (pt_mul k p f) C.
Proof.
  intros Hl Hk Hj. unfold pt_mul.
  pose proof (lval_bound k Hk) as Hb. rewrite Hl in Hb.
  apply (binary_loop (fun q acc => exists C, mul_spec N A q C /\ jac f acc C)); [lia| |exists Inf; split; [constructor|by apply jac_inf_zero]|].
  - rewrite B64_pow in Hb by lia. by replace (Z.of_nat (fn f) * 64) with (64 * Z.of_nat (fn f)) by lia.
  - intros i q acc Hi Hq (B & HB & HJ). unfold mul_step, bit_of. rewrite limb_bit, b2z_nonzero by (done || lia).
    destruct (pt_double_ok acc B HJ) as (C & HC & HJC). destruct (Z.testbit (lval k) i); cbn [Z.b2z].
    + destruct (pt_add_ok _ p C A HJC Hj) as (D & HD & HJD). exists D. split; [by eapply mul_bit1|done].
    + exists C. rewrite Z.add_0_r. split; [by eapply mul_bit0|done].
Qed.
End curve.

(** ** What a peer's point and a signature must be *)

(** The domain parameters of FIPS 186-4, D.1.2. *)
Definition curve_p (which : ec_curve_t) : Z :=
  match which with
  | EC_P256 => 2 ^ 256 - 2 ^ 224 + 2 ^ 192 + 2 ^ 96 - 1
  | EC_P384 => 2 ^ 384 - 2 ^ 128 - 2 ^ 96 + 2 ^ 32 - 1
  end.
Definition curve_n (which : ec_curve_t) : Z :=
  match which with
  | EC_P256 => 0xffffffff00000000ffffffffffffffffbce6faada7179e84f3b9cac2fc632551
  | EC_P384 => 0xffffffffffffffffffffffffffffffffffffffffffffffffc7634d81f4372ddf581a0db248b0a77aecec196accc52973
  end.
Definition curve_b (which : ec_curve_t) : Z :=
  match which with
  | EC_P256 => 0x5ac635d8aa3a93e7b3ebbd55769886bc651d06b0cc53b0f63bce3c3e27d2604b
  | EC_P384 => 0xb3312fa7e23ee7e4988e056be3f82d19181d9c6efe8141120314088f5013875ac656398d8a2ed19d2a85c8edd3ec2aef
  end.

Lemma fe_from_bytes_ok b n : bytes b -> length b = (8 * n)%nat ->
  length (fe_from_bytes b) = n /\ words64 (fe_from_bytes b) /\ lval (fe_from_bytes b) = be_val b.
Proof.
  intros Hb Hl. unfold fe_from_bytes. rewrite Hl, Nat.mul_comm, Nat.div_mul by lia. apply load_be_ok; [done|lia].
Qed.

Record curve_ok (which : ec_curve_t) (c : curve_t) : Prop := {
  co_fp : field_ok (fp c); co_fn : field_ok (fnn c);
  co_p : lval (fm (fp c)) = curve_p which; co_n : lval (fm (fnn c)) = curve_n which;
  co_bytes : cbytes c = ec_field_bytes which; co_plen : cbytes c = 8 * Z.of_nat (fn (fp c)); co_nlen : fn (fnn c) = fn (fp c);
  co_b : frep (fp c) (cb c) (curve_b which);
}.

Lemma words64_check l : forallb (fun b => (0 <=? b) && (b <? B64)) l = true -> words64 l.
Proof.
  rewrite forallb_forall. intros H. apply Forall_forall. intros x Hx%H.
  rewrite andb_true_iff, Z.leb_le, Z.ltb_lt in Hx. exact Hx.
Qed.

#[local] Opaque to_mont field_setup fe_from_bytes.

Lemma curve_setup_ok which : curve_ok which (curve_setup which).
Proof.
  assert (forall m, forallb (fun b => (0 <=? b) && (b <? B64)) m = true -> m.[0] mod 2 = 1 -> (1 <? lval m) = true ->
    field_ok (field_setup m) /\ fm (field_setup m) = m) as Hset.
  { intros m H1 H2 H3. split; [|by with_strategy transparent [field_setup] unfold field_setup].
    apply field_setup_ok; [by apply words64_check|done|by apply Z.ltb_lt]. }
  assert (forall m b n v, field_ok (field_setup m) -> fm (field_setup m) = m -> length m = n ->
    forallb (fun b => (0 <=? b) && (b <? 256)) b = true -> length b = (8 * n)%nat -> be_val b = v -> (v <? lval m) = true ->
    frep (field_setup m) (to_mont (fe_from_bytes b) (field_setup m)) v) as Hb.
  { intros m b n v Hf Hm Hn Hb Hl Hv Hlt. destruct (fe_from_bytes_ok b n (bytes_check _ Hb) Hl) as (L & W & V).
    rewrite <- Hv, <- V. apply frep_to_mont; [done|unfold fn; congruence|done|]. rewrite Hm, V, Hv. apply Z.ltb_lt in Hlt. lia. }
  destruct which; cbn [curve_setup];
    (destruct (Hset P256_P eq_refl eq_refl eq_refl) as [F1 M1]); (destruct (Hset P256_N eq_refl eq_refl eq_refl) as [F2 M2]);
    (destruct (Hset P384_P eq_refl eq_refl eq_refl) as [F3 M3]); (destruct (Hset P384_N eq_refl eq_refl eq_refl) as [F4 M4]);
    constructor; cbn [fp fnn cb cbytes]; try assumption; unfold fn; rewrite ?M1, ?M2, ?M3, ?M4; try reflexivity.
  - by apply (Hb P256_P P256_B 4%nat).
  - by apply (Hb P384_P P384_B 6%nat).
Qed.

#[local] Opaque curve_setup.

(** The curve's equation, on representatives. *)
Definition on_equation (which : ec_curve_t) (x y : Z) : Prop :=
  (y ^ 2) mod curve_p which = (x ^ 3 - 3 * x + curve_b which) mod curve_p which.

Lemma on_curve_ok which c x y X Y : curve_ok which c -> frep (fp c) x X -> frep (fp c) y Y ->
  on_curve c x y = true <-> on_equation which X Y.
Proof.
  intros Hc Hx Hy. pose proof (co_fp _ _ Hc) as Hf. unfold on_curve, on_equation. cbv zeta.
  assert (frep (fp c) (mont_sq y (fp c)) (Y ^ 2)) as HY.
  { eapply (frep_ext (fp c) Hf _ (Y * Y)); [by apply frep_sq|f_equal; ring]. }
  set (t := fe_add_mod _ (cb c) (fp c)).
  assert (frep (fp c) t (X ^ 3 - 3 * X + curve_b which)) as HX.
  { subst t. eapply (frep_ext (fp c) Hf _ (X * X * X - (X + X + X) + curve_b which)); [|f_equal; ring].
    apply frep_add; [done| |apply (co_b _ _ Hc)]. apply frep_sub; [done| |].
    - apply frep_mul; [done|by apply frep_sq|done].
    - apply frep_add; [done|by apply frep_add|done]. }
  rewrite (frep_eq (fp c) Hf _ _ _ _ HY HX), (co_p _ _ Hc). by rewrite Z.eqb_eq.
Qed.

(** A public key: the uncompressed encoding of a point of the curve. *)
Definition valid_point (which : ec_curve_t) (key : list Z) : Prop :=
  let n := Z.to_nat (ec_field_bytes which) in
  let x := be_val (take n (drop 1 key)) in let y := be_val (take n (drop (1 + n) key)) in
  zlen key = 1 + 2 * ec_field_bytes which /\ key.[0] = 4 /\
  x < curve_p which /\ y < curve_p which /\ on_equation which x y.
(** A scalar of a key or a signature. *)
Definition valid_scalar (which : ec_curve_t) (b : list Z) : Prop := 0 < be_val b < curve_n which.

Lemma coord_ok which c l : curve_ok which c -> bytes l -> zlen l = cbytes c ->
  length (fe_from_bytes l) = fn (fp c) /\ words64 (fe_from_bytes l) /\ lval (fe_from_bytes l) = be_val l.
Proof. intros Hc Hb Hl. apply fe_from_bytes_ok; [done|]. pose proof (co_plen _ _ Hc). lia. Qed.

Lemma ge_mod_false which c l (f : field_t) m : curve_ok which c -> bytes l -> zlen l = cbytes c ->
  field_ok f -> fn f = fn (fp c) -> lval (fm f) = m ->
  ge_mod (fe_from_bytes l) (fm f) = false -> be_val l < m.
Proof.
  intros Hc Hb Hl Hf Hn Hm. destruct (coord_ok which c l Hc Hb Hl) as (L & W & V).
  unfold ge_mod. rewrite ge_limbs_ok, V, Hm; [|unfold fn in *; congruence|done|apply (mm_words _ _ (fo_mod f Hf))].
  intros H1%Z.leb_gt. lia.
Qed.

Lemma peer_point_ok which c key x y : curve_ok which c -> bytes key -> peer_point c key = Some (x, y) ->
  valid_point which key.
Proof.
  intros Hc Hk. unfold peer_point. pose proof (co_bytes _ _ Hc) as Hcb. pose proof (co_plen _ _ Hc) as Hpl.
  assert (0 <= cbytes c) by (rewrite Hcb; by destruct which).
  destruct (Z.eqb_spec (zlen key) (1 + 2 * cbytes c)) as [Hl|]; [|done]. destruct (Z.eqb_spec key.[0] 4) as [H4|]; [|done].
  cbn [negb]. cbv zeta. set (xb := take (Z.to_nat (cbytes c)) (drop 1 key)).
  set (yb := take (Z.to_nat (cbytes c)) (drop (1 + Z.to_nat (cbytes c)) key)).
  assert (zlen xb = cbytes c /\ zlen yb = cbytes c) as [Lx Ly] by (subst xb yb; rewrite !length_take, !length_drop; lia).
  assert (bytes xb /\ bytes yb) as [Bx By] by (split; by apply Forall_take, Forall_drop).
  destruct (ge_mod (fe_from_bytes xb) (fm (fp c))) eqn:Gx; [done|]. destruct (ge_mod (fe_from_bytes yb) (fm (fp c))) eqn:Gy; [done|].
  apply (ge_mod_false which c xb (fp c) (curve_p which) Hc Bx Lx (co_fp _ _ Hc) eq_refl (co_p _ _ Hc)) in Gx.
  apply (ge_mod_false which c yb (fp c) (curve_p which) Hc By Ly (co_fp _ _ Hc) eq_refl (co_p _ _ Hc)) in Gy.
  destruct (coord_ok which c xb Hc Bx Lx) as (L1 & W1 & V1). destruct (coord_ok which c yb Hc By Ly) as (L2 & W2 & V2).
  destruct (on_curve c _ _) eqn:Eoc; [|done]. intros _.
  apply (on_curve_ok which c _ _ (be_val xb) (be_val yb) Hc) in Eoc.
  - unfold valid_point. rewrite <- Hcb. done.
  - rewrite <- V1. apply frep_to_mont; [apply Hc|done|done|]. rewrite V1, (co_p _ _ Hc). lia.
  - rewrite <- V2. apply frep_to_mont; [apply Hc|done|done|]. rewrite V2, (co_p _ _ Hc). lia.
Qed.

Lemma scalar_bytes_ok c b : bytes b -> zlen b <= cbytes c ->
  bytes (scalar_bytes c b) /\ zlen (scalar_bytes c b) = cbytes c /\ be_val (scalar_bytes c b) = be_val b.
Proof.
  intros Hb Hl. unfold scalar_bytes.
  assert (splice (replicate (Z.to_nat (cbytes c)) 0) (Z.to_nat (cbytes c - zlen b)) b = replicate (Z.to_nat (cbytes c - zlen b)) 0 ++ b) as ->.
  { unfold splice. rewrite take_replicate, drop_ge by (rewrite length_replicate; lia). rewrite app_nil_r. do 2 f_equal. lia. }
  split_and!.
  - apply Forall_app_2; [by apply Forall_replicate|done].
  - rewrite length_app, length_replicate. lia.
  - rewrite be_val_app. assert (forall n, be_val (replicate n 0) = 0) as Hz.
    { induction n as [|n IH]; [done|]. cbn [replicate]. rewrite be_val_cons, IH. lia. }
    rewrite Hz. lia.
Qed.

Lemma scalar_in_range which c l : curve_ok which c -> bytes l -> zlen l = cbytes c ->
  fe_is_zero (fe_from_bytes l) = false -> ge_mod (fe_from_bytes l) (fm (fnn c)) = false -> valid_scalar which l.
Proof.
  intros Hc Hb Hl Hz Hg. destruct (coord_ok which c l Hc Hb Hl) as (L & W & V).
  apply (ge_mod_false which c l (fnn c) _ Hc Hb Hl (co_fn _ _ Hc) (co_nlen _ _ Hc) (co_n _ _ Hc)) in Hg.
  rewrite fe_is_zero_ok in Hz by done. apply Z.eqb_neq in Hz. pose proof (be_val_bound l Hb). unfold valid_scalar. lia.
Qed.

Lemma ec_verify_valid which pubkey hash r s : bytes pubkey -> bytes r -> bytes s ->
  ec_verify which pubkey hash r s = true ->
  valid_point which pubkey /\ valid_scalar which r /\ valid_scalar which s /\ 0 < zlen hash <= 64 /\
  zlen r <= ec_field_bytes which /\ zlen s <= ec_field_bytes which.
Proof.
  intros Hk Hr Hs. unfold ec_verify. pose proof (curve_setup_ok which) as Hc. generalize dependent (curve_setup which). intros c Hc.
  cbv zeta. pose proof (co_bytes _ _ Hc) as Hcb.
  destruct (negb (zlen pubkey =? 1 + 2 * cbytes c)); [done|]. destruct (negb (pubkey.[0] =? 4)); [done|].
  destruct (Z.eqb_spec (zlen r) 0); [done|]. destruct (Z.ltb_spec (cbytes c) (zlen r)); [done|]. cbn [orb].
  destruct (Z.eqb_spec (zlen s) 0); [done|]. destruct (Z.ltb_spec (cbytes c) (zlen s)); [done|]. cbn [orb].
  destruct (Z.eqb_spec (zlen hash) 0); [done|]. destruct (Z.ltb_spec 64 (zlen hash)); [done|]. cbn [orb].
  destruct (scalar_bytes_ok c r Hr ltac:(lia)) as (Br & Lr & Vr). destruct (scalar_bytes_ok c s Hs ltac:(lia)) as (Bs & Ls & Vs).
  destruct (fe_is_zero (fe_from_bytes (scalar_bytes c r))) eqn:Zr; [done|].
  destruct (fe_is_zero (fe_from_bytes (scalar_bytes c s))) eqn:Zs; [done|]. cbn [orb].
  destruct (ge_mod (fe_from_bytes (scalar_bytes c r)) _) eqn:Gr; [done|].
  destruct (ge_mod (fe_from_bytes (scalar_bytes c s)) _) eqn:Gs; [done|]. cbn [orb].
  destruct (peer_point c pubkey) as [[qx qy]|] eqn:Ep; [|done]. intros _.
  pose proof (scalar_in_range which c _ Hc Br Lr Zr Gr) as Sr. pose proof (scalar_in_range which c _ Hc Bs Ls Zs Gs) as Ss.
  unfold valid_scalar in *. rewrite Vr in Sr. rewrite Vs in Ss. rewrite <- Hcb.
  split; [by eapply peer_point_ok|]. split_and!; lia.
Qed.

Lemma ec_agree_valid which priv peer out : bytes priv -> bytes peer -> ec_agree which priv peer = Some out ->
  valid_point which peer /\ zlen priv = ec_field_bytes which /\ valid_scalar which priv /\ zlen out = ec_field_bytes which.
Proof.
  intros Hk Hp. unfold ec_agree. pose proof (curve_setup_ok which) as Hc. generalize dependent (curve_setup which). intros c Hc.
  cbv zeta. pose proof (co_bytes _ _ Hc) as Hcb. unfold secret_scalar.
  destruct (Z.eqb_spec (zlen priv) (cbytes c)); [|done]. cbn [negb]. cbv zeta.
  destruct (fe_is_zero (fe_from_bytes priv)) eqn:Zr; [done|].
  destruct (ge_mod (fe_from_bytes priv) (fm (fnn c))) eqn:Gr; [done|]. cbn [negb andb].
  destruct (peer_point c peer) as [[x y]|] eqn:Ep; [|done]. destruct (pt_affine_x _ _) as [xm|]; [|done].
  intros Ho. split; [by eapply peer_point_ok|]. split; [congruence|]. split; [by eapply scalar_in_range|].
  apply (f_equal (option_map (@length Z))) in Ho. cbn [option_map] in Ho. injection Ho as <-. unfold fe_to_bytes, store_be.
  rewrite length_fmap, length_seqZ. destruct which; rewrite Hcb; done.
Qed.

(** ** Properties *)

(** C29: over a prime field the Jacobian formulas in Montgomery form are the
    chord and tangent law of y^2 = x^3 - 3x + b, in every case: doubling, adding
    equal, opposite and different points, and the identity on either side; and
    the ladder makes the multiple of a point by the bits of its scalar. *)
Theorem points_follow_chord_and_tangent f a b k A B
  (Hf : field_ok f) (Hp : prime (lval (fm f))) (Ha : jac f a A) (Hb : jac f b B) (Hl : length k = fn f) (Hk : words64 k) :
  (exists C, double_spec (lval (fm f)) A C /\ jac f (pt_double a f) C) /\
  (exists C, add_spec (lval (fm f)) A B C /\ jac f (pt_add a b f) C) /\
  (exists C, mul_spec (lval (fm f)) A (lval k) C /\ jac f (pt_mul k a f) C).
Proof. split; [by apply pt_double_ok|]. split; [by apply pt_add_ok|by apply pt_mul_ok]. Qed.

(** The field of 23 elements, and two points over it. *)
Definition f23 : field_t := field_setup [23].
Definition point23 (x y : Z) : point_t := Point (to_mont [x] f23) (to_mont [y] f23) (fone f23).
Lemma f23_ok : field_ok f23 /\ fm f23 = [23].
Proof. split; [by apply field_setup_ok; [apply words64_check|..]|done]. Qed.
Lemma prime_23 : prime 23.
Proof.
  constructor; [done|]. intros n Hn. apply Zgcd_1_rel_prime.
  assert (forallb (fun n => Z.gcd n 23 =? 1) (seqZ 1 22) = true) as H by (vm_compute; reflexivity).
  rewrite forallb_forall in H. apply Z.eqb_eq, H, list_elem_of_In, elem_of_seqZ. lia.
Qed.
Lemma point23_jac x y : 0 <= x < 23 -> 0 <= y < 23 -> jac f23 (point23 x y) (Aff x y).
Proof.
  intros Hx Hy. destruct f23_ok as [Hf Hm].
  assert (forall v, 0 <= v < 23 -> frep f23 (to_mont [v] f23) v) as Hr.
  { intros v Hv. replace v with (lval [v]) at 2 by (cbn; lia). apply frep_to_mont; [done|unfold fn; by rewrite Hm| |].
    - apply Forall_cons_2; [unfold is_word; lia|by apply Forall_nil].
    - rewrite Hm. cbn. lia. }
  exists x, y, 1. split; [by apply Hr|]. split; [by apply Hr|]. split; [by apply frep_one|].
  rewrite Hm. split; [done|]. split; f_equal; lia.
Qed.
Lemma points_follow_chord_and_tangent_witness :
  exists C, add_spec (lval (fm f23)) (Aff 3 10) (Aff 9 7) C /\ jac f23 (pt_add (point23 3 10) (point23 9 7) f23) C.
Proof.
  destruct f23_ok as [Hf Hm].
  assert (prime (lval (fm f23))) as Hp by (rewrite Hm; exact prime_23).
  assert (jac f23 (point23 3 10) (Aff 3 10)) as Ha by (apply point23_jac; lia).
  assert (jac f23 (point23 9 7) (Aff 9 7)) as Hb by (apply point23_jac; lia).
  assert (length [5] = fn f23) as Hl by (unfold fn; rewrite Hm; reflexivity).
  assert (words64 [5]) as Hk by (apply words64_check; reflexivity).
  exact (proj1 (proj2 (points_follow_chord_and_tangent f23 (point23 3 10) (point23 9 7) [5] (Aff 3 10) (Aff 9 7) Hf Hp Ha Hb Hl Hk))).
Defined.

(** C31: nothing malformed gets past the checks. A signature is only accepted,
    and a key only agreed, with a public key that is the uncompressed encoding of
    two coordinates below the prime on the curve's equation, with the parameters
    of the standard; the scalars of a signature and the private scalar are
    between one and the order. *)
Theorem ec_refuses_malformed which (pubkey hash r s priv peer out : list Z)
  (Hk : bytes pubkey) (Hr : bytes r) (Hs : bytes s) (Hpriv : bytes priv) (Hpeer : bytes peer) :
  (ec_verify which pubkey hash r s = true ->
   valid_point which pubkey /\ valid_scalar which r /\ valid_scalar which s /\ 0 < zlen hash <= 64 /\
   zlen r <= ec_field_bytes which /\ zlen s <= ec_field_bytes which) /\
  (ec_agree which priv peer = Some out ->
   valid_point which peer /\ zlen priv = ec_field_bytes which /\ valid_scalar which priv /\ zlen out = ec_field_bytes which).
Proof. split; [by apply ec_verify_valid|by apply ec_agree_valid]. Qed.

(** A point off the curve: no signature verifies under it. *)
Definition off_curve : list Z := [4] ++ be_bytes 32 1 ++ be_bytes 32 1.
Lemma ec_refuses_malformed_witness :
  bytes off_curve /\ ec_verify EC_P256 off_curve [1] [1] [1] <> true.
Proof.
  assert (bytes off_curve) as Hk by (apply bytes_check; vm_compute; reflexivity).
  assert (bytes [1]) as H1 by (apply bytes_check; reflexivity).
  split; [exact Hk|]. intros Hv.
  destruct (proj1 (ec_refuses_malformed EC_P256 off_curve [1] [1] [1] [1] [1] [] Hk H1 H1 H1 H1) Hv) as [(_ & _ & _ & _ & He) _].
  revert He. unfold on_equation. vm_compute. discriminate.
Defined.
