(* ===== verification/Printf.v ===== *)
(** Formatted output (kernel/printf.c): the conversions, the sinks, and the
    formatter over both. A format string is the array it is stored in, its
    terminator included; reading past the end of that array, and an argument that is
    missing or of another type, are [None]. *)
From S2P Require Import Prelude.

(** ** The code *)

(** Where a formatted run is going: a buffer, or, with none, the console, of which
    only the characters handed to it are kept. *)
Record sink_t := Sink { sbuf : option (list Z); scap : Z; slen : Z; console : list Z }.

Definition emit (s : sink_t) (c : Z) : sink_t :=
  match sbuf s with
  | None => Sink None (scap s) (slen s) (console s ++ [c])
  | Some b =>
      Sink (Some (if u64 (slen s + 1) <? scap s then b.[slen s := c] else b)) (scap s) (u64 (slen s + 1)) (console s)
  end.
Definition emit_str (s : sink_t) (p : list Z) : sink_t := foldl emit s p.
Definition emit_pad (s : sink_t) (c n : Z) : sink_t := foldl emit s (replicate (Z.to_nat n) c).

(** Characters by their codes. *)
Definition digits_of (upper : bool) : list Z :=
  seqZ 48 10 ++ (if upper then seqZ 65 6 else seqZ 97 6).

(** [while (v) { buf[n++] = digits[v % base]; v /= base; }]: thirty two rounds are
    enough for a 32 bit number and a base of two or more. *)
Fixpoint digit_loop (fuel : nat) (digits : list Z) (base v : Z) (buf : list Z) : list Z :=
  match fuel with
  | O => buf
  | S fuel => if v =? 0 then buf else digit_loop fuel digits base (v / base) (buf ++ [digits.[v mod base]])
  end.

Definition put_uint (s : sink_t) (v base : Z) (upper : bool) (width pad : Z) (left : bool) : sink_t :=
  let digits := digits_of upper in
  let buf := if v =? 0 then [48] else [] in
  let buf := digit_loop 32 digits base v buf in
  let digits_len := zlen buf in
  let s := if negb left then emit_pad s pad (width - digits_len) else s in
  let s := foldl emit s (rev buf) in
  if left then emit_pad s 32 (width - digits_len) else s.

Definition put_ptr (s : sink_t) (v : Z) : sink_t :=
  let s := emit_str s [48; 120] in
  foldl (fun s shift => emit s (digits_of false).[(v .>> shift) .& 0xF]) s
    [60; 56; 52; 48; 44; 40; 36; 32; 28; 24; 20; 16; 12; 8; 4; 0].

(** [for (m = mag; m >= 10; m /= 10) digits++]. *)
Fixpoint count_digits (fuel : nat) (m digits : Z) : Z :=
  match fuel with
  | O => digits
  | S fuel => if 10 <=? m then count_digits fuel (m / 10) (digits + 1) else digits
  end.

Definition put_int (s : sink_t) (v width pad : Z) (left : bool) : sink_t :=
  if 0 <=? v then put_uint s (u32 v) 10 false width pad left else
  let mag := u32 (0 - u32 v) in
  if negb left && (pad =? 32) then
    let digits := count_digits 10 mag 1 in
    let s := emit_pad s 32 (width - digits - 1) in
    let s := emit s 45 in
    put_uint s mag 10 false 0 pad false
  else
    let s := emit s 45 in
    put_uint s mag 10 false (if negb (width =? 0) then width - 1 else 0) pad left.

(** What a caller can pass after the format. *)
Inductive arg := ANum (v : Z) | APtr (v : Z) | AStr (s : option (list Z)).

(** Flags, padding and width: [fmt] is at the character after the percent sign, and
    ends at the conversion. *)
Record spec_t := Spec { sp_left : bool; sp_pad : Z; sp_width : Z }.
Fixpoint read_width (fmt : list Z) (width : Z) : option (Z * list Z) :=
  match fmt with
  | [] => None
  | c :: rest => if (48 <=? c) && (c <=? 57) then read_width rest (i32 (width * 10 + (c - 48))) else Some (width, fmt)
  end.
Definition skip_char (ch : Z) (fmt : list Z) : option (bool * list Z) :=
  match fmt with
  | [] => None
  | c :: rest => Some (if c =? ch then (true, rest) else (false, fmt))
  end.
Definition read_spec (fmt : list Z) : option (spec_t * list Z) :=
  match skip_char 45 fmt with None => None | Some (minus, fmt) =>
  match skip_char 48 fmt with None => None | Some (zero, fmt) =>
  match read_width fmt 0 with None => None | Some (width, fmt) =>
  Some (Spec minus (if zero then 48 else 32) width, fmt)
  end end end.

Definition null_text : list Z := [40; 110; 117; 108; 108; 41].

(** The switch on the conversion character. *)
Definition convert (s : sink_t) (sp : spec_t) (c : Z) (ap : list arg) : option (sink_t * list arg) :=
  let width := sp_width sp in let pad := sp_pad sp in let left := sp_left sp in
  if (c =? 100) || (c =? 105) then
    match ap with ANum v :: ap => Some (put_int s (i32 v) width pad left, ap) | _ => None end
  else if c =? 117 then
    match ap with ANum v :: ap => Some (put_uint s (u32 v) 10 false width pad left, ap) | _ => None end
  else if c =? 120 then
    match ap with ANum v :: ap => Some (put_uint s (u32 v) 16 false width pad left, ap) | _ => None end
  else if c =? 88 then
    match ap with ANum v :: ap => Some (put_uint s (u32 v) 16 true width pad left, ap) | _ => None end
  else if c =? 98 then
    match ap with ANum v :: ap => Some (put_uint s (u32 v) 2 false width pad left, ap) | _ => None end
  else if c =? 112 then
    match ap with APtr v :: ap => Some (put_ptr s v, ap) | _ => None end
  else if c =? 99 then
    match ap with
    | ANum v :: ap =>
        let s := if negb left then emit_pad s 32 (width - 1) else s in
        let s := emit s (u8 v) in
        Some (if left then emit_pad s 32 (width - 1) else s, ap)
    | _ => None end
  else if c =? 115 then
    match ap with
    | AStr str :: ap =>
        let str := match str with Some str => str | None => null_text end in
        let n := zlen str in
        let s := if negb left then emit_pad s 32 (width - n) else s in
        let s := emit_str s str in
        Some (if left then emit_pad s 32 (width - n) else s, ap)
    | _ => None end
  else if c =? 37 then Some (emit s 37, ap)
  else Some (emit (emit s 37) c, ap).

(** A round takes at least a character of the array: [length fmt] rounds are enough. *)
Fixpoint format_loop (fuel : nat) (s : sink_t) (fmt : list Z) (ap : list arg) : option sink_t :=
  match fuel with
  | O => None
  | S fuel =>
      match fmt with
      | [] => None
      | c :: rest =>
          if c =? 0 then Some s else
          if negb (c =? 37) then format_loop fuel (emit s c) rest ap else
          match read_spec rest with
          | Some (sp, c :: rest) =>
              match convert s sp c ap with
              | Some (s, ap) => format_loop fuel s rest ap
              | None => None
              end
          | _ => None
          end
      end
  end.
Definition format (s : sink_t) (fmt : list Z) (ap : list arg) : option sink_t := format_loop (length fmt) s fmt ap.

(** The characters the console is handed. *)
Definition kprintf (fmt : list Z) (ap : list arg) : option (list Z) :=
  option_map console (format (Sink None 0 0 []) fmt ap).

(** The buffer and the answer; no buffer is [None]. *)
Definition kformat (buf : option (list Z)) (cap : Z) (fmt : list Z) (ap : list arg) : option (option (list Z) * Z) :=
  match buf with
  | None => Some (None, 0)
  | Some b =>
      if cap =? 0 then Some (Some b, 0) else
      match format (Sink (Some b) cap 0 []) fmt ap with
      | Some (Sink (Some b) _ len _) => Some (Some b.[if len <? cap then len else cap - 1 := 0], i32 len)
      | _ => None
      end
  end.

Example kformat_d : kformat (Some (replicate 8 7)) 8 [37; 53; 100; 0] [ANum 4294967291] = Some (Some [32; 32; 32; 45; 53; 0; 7; 7], 5).
Proof. reflexivity. Qed.

(** ** Every conversion hands characters to the sink, and looks at nothing in it *)

Notation emit_all := (foldl emit).
Lemma emit_all_app s a b : emit_all (emit_all s a) b = emit_all s (a ++ b).
Proof. by rewrite foldl_app. Qed.

Definition digits_text (v base : Z) (upper : bool) : list Z :=
  rev (digit_loop 32 (digits_of upper) base v (if v =? 0 then [48] else [])).
Definition pad_text (pad n : Z) : list Z := replicate (Z.to_nat n) pad.
Definition uint_text (v base : Z) (upper : bool) (width pad : Z) (left : bool) : list Z :=
  let d := digits_text v base upper in
  if left then d ++ pad_text 32 (width - zlen d) else pad_text pad (width - zlen d) ++ d.
Lemma put_uint_text s v base upper width pad left :
  put_uint s v base upper width pad left = emit_all s (uint_text v base upper width pad left).
Proof.
  unfold put_uint, uint_text, digits_text, emit_pad, pad_text. rewrite length_rev.
  destruct left; cbn [negb]; by rewrite emit_all_app.
Qed.

Definition int_text (v width pad : Z) (left : bool) : list Z :=
  if 0 <=? v then uint_text (u32 v) 10 false width pad left else
  let mag := u32 (0 - u32 v) in
  if negb left && (pad =? 32) then
    pad_text 32 (width - count_digits 10 mag 1 - 1) ++ [45] ++ uint_text mag 10 false 0 pad false
  else [45] ++ uint_text mag 10 false (if negb (width =? 0) then width - 1 else 0) pad left.
Lemma put_int_text s v width pad left : put_int s v width pad left = emit_all s (int_text v width pad left).
Proof.
  unfold put_int, int_text. destruct (0 <=? v); [apply put_uint_text|]. cbv zeta.
  destruct (negb left && (pad =? 32)); rewrite put_uint_text; unfold emit_pad, pad_text.
  - change (emit ?s 45) with (emit_all s [45]). by rewrite !emit_all_app.
  - change (emit ?s 45) with (emit_all s [45]). by rewrite !emit_all_app.
Qed.

Definition ptr_text (v : Z) : list Z :=
  [48; 120] ++ ((fun shift => (digits_of false).[(v .>> shift) .& 0xF]) <$>
    [60; 56; 52; 48; 44; 40; 36; 32; 28; 24; 20; 16; 12; 8; 4; 0]).
Lemma emit_map (f : Z -> Z) l s : foldl (fun s x => emit s (f x)) s l = emit_all s (f <$> l).
Proof. revert s. induction l as [|x l IH]; intros s; [done|]. rewrite fmap_cons. cbn [foldl]. apply IH. Qed.
Lemma put_ptr_text s v : put_ptr s v = emit_all s (ptr_text v).
Proof. unfold put_ptr, ptr_text, emit_str. by rewrite (emit_map (fun shift => _)), emit_all_app. Qed.
Definition padded_text (t : list Z) (width : Z) (left : bool) : list Z :=
  if left then t ++ pad_text 32 (width - zlen t) else pad_text 32 (width - zlen t) ++ t.

(** The text of one conversion. *)
Definition conversion_text (sp : spec_t) (c : Z) (ap : list arg) : option (list Z * list arg) :=
  let width := sp_width sp in let pad := sp_pad sp in let left := sp_left sp in
  if (c =? 100) || (c =? 105) then match ap with ANum v :: ap => Some (int_text (i32 v) width pad left, ap) | _ => None end
  else if c =? 117 then match ap with ANum v :: ap => Some (uint_text (u32 v) 10 false width pad left, ap) | _ => None end
  else if c =? 120 then match ap with ANum v :: ap => Some (uint_text (u32 v) 16 false width pad left, ap) | _ => None end
  else if c =? 88 then match ap with ANum v :: ap => Some (uint_text (u32 v) 16 true width pad left, ap) | _ => None end
  else if c =? 98 then match ap with ANum v :: ap => Some (uint_text (u32 v) 2 false width pad left, ap) | _ => None end
  else if c =? 112 then match ap with APtr v :: ap => Some (ptr_text v, ap) | _ => None end
  else if c =? 99 then match ap with ANum v :: ap => Some (padded_text [u8 v] width left, ap) | _ => None end
  else if c =? 115 then
    match ap with AStr str :: ap => Some (padded_text (match str with Some str => str | None => null_text end) width left, ap) | _ => None end
  else if c =? 37 then Some ([37], ap) else Some ([37; c], ap).

Lemma emit_padded s t width (left : bool) :
  (let s := if negb left then emit_all s (pad_text 32 (width - zlen t)) else s in
   let s := emit_all s t in
   if left then emit_all s (pad_text 32 (width - zlen t)) else s) = emit_all s (padded_text t width left).
Proof. unfold padded_text. destruct left; cbn [negb]; by rewrite !emit_all_app. Qed.

Lemma convert_text s sp c ap :
  convert s sp c ap = match conversion_text sp c ap with Some (t, ap) => Some (emit_all s t, ap) | None => None end.
Proof.
  unfold convert, conversion_text. cbv zeta.
  destruct ((c =? 100) || (c =? 105)).
  { destruct ap as [|[v|v|str] ap]; [reflexivity| |reflexivity..]. rewrite put_int_text. reflexivity. }
  do 4 (match goal with |- context [c =? ?n] => destruct (c =? n) end;
    [destruct ap as [|[v|v|str] ap]; [reflexivity| |reflexivity..]; rewrite put_uint_text; reflexivity|]).
  destruct (c =? 112).
  { destruct ap as [|[v|v|str] ap]; [reflexivity..| |reflexivity]. rewrite put_ptr_text. reflexivity. }
  destruct (c =? 99).
  { destruct ap as [|[v|v|str] ap]; [reflexivity| |reflexivity..]. f_equal. f_equal.
    exact (emit_padded s [u8 v] (sp_width sp) (sp_left sp)). }
  destruct (c =? 115); [|destruct (c =? 37); reflexivity].
  destruct ap as [|[v|v|str] ap]; [reflexivity..|]. f_equal. f_equal.
  exact (emit_padded s _ (sp_width sp) (sp_left sp)).
Qed.

(** The text of a format and its arguments. *)
Fixpoint text_loop (fuel : nat) (fmt : list Z) (ap : list arg) : option (list Z) :=
  match fuel with
  | O => None
  | S fuel =>
      match fmt with
      | [] => None
      | c :: rest =>
          if c =? 0 then Some [] else
          if negb (c =? 37) then option_map (cons c) (text_loop fuel rest ap) else
          match read_spec rest with
          | Some (sp, c :: rest) =>
              match conversion_text sp c ap with
              | Some (t, ap) => option_map (app t) (text_loop fuel rest ap)
              | None => None
              end
          | _ => None
          end
      end
  end.
Lemma format_loop_text fuel s fmt ap : format_loop fuel s fmt ap = option_map (emit_all s) (text_loop fuel fmt ap).
Proof.
  revert s fmt ap. induction fuel as [|fuel IH]; intros s fmt ap; cbn [format_loop text_loop]; [done|].
  destruct fmt as [|c rest]; [done|]. destruct (c =? 0); [done|]. destruct (c =? 37); cbn [negb].
  - destruct (read_spec rest) as [[sp [|c2 rest2]]|]; try done. rewrite convert_text.
    destruct (conversion_text sp c2 ap) as [[t ap2]|]; [|done]. rewrite IH.
    destruct (text_loop fuel rest2 ap2); [|done]. cbn [option_map]. by rewrite emit_all_app.
  - rewrite IH. by destruct (text_loop fuel rest ap).
Qed.
Lemma emit_console t c l k : emit_all (Sink None c l k) t = Sink None c l (k ++ t).
Proof.
  revert k. induction t as [|x t IH]; intros k; cbn [foldl]; [by rewrite app_nil_r|].
  unfold emit at 2. cbn [sbuf console scap slen]. rewrite IH. by rewrite <- app_assoc.
Qed.
Lemma kprintf_text fmt ap : kprintf fmt ap = text_loop (length fmt) fmt ap.
Proof.
  unfold kprintf, format. rewrite format_loop_text. destruct (text_loop _ fmt ap); [|done]. cbn [option_map].
  by rewrite emit_console.
Qed.

(** ** Into a buffer *)

Lemma emit_buffer b cap k t : 0 < cap <= zlen b -> zlen t < 2 ^ 64 -> cap < 2 ^ 64 ->
  emit_all (Sink (Some b) cap 0 k) t = Sink (Some (splice b 0 (take (Z.to_nat (cap - 1)) t))) cap (zlen t) k.
Proof.
  intros Hcap Ht H64. induction t as [|c t IH] using rev_ind.
  - cbn [foldl length]. rewrite take_nil. unfold splice. by rewrite Nat.add_0_r.
  - rewrite length_app in Ht. cbn [length] in Ht. rewrite foldl_app, IH by lia. cbn [foldl]. unfold emit. cbn [sbuf scap slen console].
    rewrite length_app. cbn [length].
    assert (u64 (zlen t + 1) = zlen t + 1) as -> by (unfold u64; apply Z.mod_small; lia).
    replace (Z.of_nat (length t + 1)) with (zlen t + 1) by lia. do 2 f_equal.
    destruct (Z.ltb_spec (zlen t + 1) cap).
    + rewrite (take_ge t), (take_ge (t ++ [c])) by (rewrite ?length_app; cbn [length]; lia).
      unfold splice, setz. rewrite take_0. cbn [app Nat.add]. rewrite Nat2Z.id, length_app. cbn [length].
      rewrite insert_app_r_alt, Nat.sub_diag by lia. rewrite <- app_assoc. f_equal.
      rewrite <- (take_drop 1 (drop (length t) b)). rewrite drop_drop.
      destruct (drop (length t) b) as [|x l] eqn:E; [apply (f_equal length) in E; rewrite length_drop in E; cbn in E; lia|]. done.
    + f_equal. by rewrite take_app_le by lia.
Qed.

Lemma set_terminator b m t : (m < length b)%nat -> length t = m ->
  (splice b 0 t).[Z.of_nat m := 0] = t ++ [0] ++ drop (m + 1) b.
Proof.
  intros Hm Hl. unfold splice, setz. rewrite take_0. cbn [app Nat.add]. rewrite Nat2Z.id, insert_app_r_alt by lia.
  rewrite Hl, Nat.sub_diag. f_equal. destruct (drop m b) as [|x l] eqn:E; [apply (f_equal length) in E; rewrite length_drop in E; cbn in E; lia|].
  cbn. f_equal. rewrite <- drop_drop, E. done.
Qed.

Lemma kformat_text b cap fmt ap : 0 < cap <= zlen b -> cap < 2 ^ 64 ->
  (forall t, kprintf fmt ap = Some t -> zlen t < 2 ^ 64) ->
  kformat (Some b) cap fmt ap =
  option_map (fun t => let kept := take (Z.to_nat (cap - 1)) t in
    (Some (kept ++ [0] ++ drop (length kept + 1) b), i32 (zlen t))) (kprintf fmt ap).
Proof.
  intros Hcap H64 Ht. rewrite kprintf_text in *. unfold kformat, format. rewrite (proj2 (Z.eqb_neq _ _)) by lia.
  rewrite format_loop_text. destruct (text_loop (length fmt) fmt ap) as [t|]; [|done]. cbn [option_map].
  specialize (Ht t eq_refl). rewrite emit_buffer by done. do 3 f_equal. cbv zeta.
  replace (if zlen t <? cap then zlen t else cap - 1) with (zlen (take (Z.to_nat (cap - 1)) t)).
  - rewrite set_terminator; [done|rewrite length_take; lia|done].
  - rewrite length_take. case_bool; lia.
Qed.

(** ** Reading a printed number back *)

(** The value of a digit, or -1. *)
Definition digit_value (c : Z) : Z :=
  if (48 <=? c) && (c <=? 57) then c - 48
  else if (65 <=? c) && (c <=? 70) then c - 55
  else if (97 <=? c) && (c <=? 102) then c - 87 else -1.
Fixpoint read_digits (base : Z) (t : list Z) (acc : Z) : Z :=
  match t with
  | c :: t => let d := digit_value c in if (0 <=? d) && (d <? base) then read_digits base t (acc * base + d) else acc
  | [] => acc
  end.
(** Leading spaces, a sign, digits. *)
Fixpoint read_number (base : Z) (t : list Z) : Z :=
  match t with
  | c :: rest =>
      if c =? 32 then read_number base rest
      else if c =? 45 then - read_digits base rest 0 else read_digits base t 0
  | [] => 0
  end.

Lemma digit_of_value upper d : 0 <= d < 16 -> digit_value (digits_of upper).[d] = d.
Proof.
  intros Hd. assert (forallb (fun d => digit_value (digits_of upper).[d] =? d) (seqZ 0 16) = true) as H by (by destruct upper).
  rewrite forallb_forall in H. apply Z.eqb_eq, H, list_elem_of_In, elem_of_seqZ. lia.
Qed.

(** Digits only, of a number, the most significant first. *)
Definition digits_for (base v : Z) (t : list Z) : Prop :=
  forall acc rest, read_digits base (t ++ rest) acc = read_digits base rest (acc * base ^ zlen t + v).

Lemma digits_nil base : digits_for base 0 [].
Proof. intros acc rest. cbn [app length]. rewrite Z.pow_0_r. f_equal. lia. Qed.
Lemma digits_app base v w a b : digits_for base v a -> digits_for base w b -> digits_for base (v * base ^ zlen b + w) (a ++ b).
Proof.
  intros Ha Hb acc rest. rewrite <- app_assoc, Ha, Hb. f_equal.
  rewrite length_app, Nat2Z.inj_add, Z.pow_add_r by lia. lia.
Qed.
Lemma digits_one base c : 0 <= digit_value c < base -> digits_for base (digit_value c) [c].
Proof.
  intros Hc acc rest. cbn [app read_digits length]. rewrite (proj2 (Z.leb_le _ _)), (proj2 (Z.ltb_lt _ _)) by lia.
  cbn [andb]. change (Z.of_nat 1) with 1. by rewrite Z.pow_1_r.
Qed.
Lemma digits_zeros base n : 0 < base -> digits_for base 0 (replicate n 48).
Proof.
  intros Hb. induction n as [|n IH]; [apply digits_nil|]. cbn [replicate].
  pose proof (digits_app base 0 0 [48] (replicate n 48) (digits_one base 48 ltac:(change (digit_value 48) with 0; lia)) IH) as H.
  exact H.
Qed.

Lemma digit_loop_ok fuel upper base v buf : 2 <= base <= 16 -> 0 <= v < 2 ^ Z.of_nat fuel -> 
  exists ds, digit_loop fuel (digits_of upper) base v buf = buf ++ ds /\ digits_for base v (rev ds) /\ (0 < v -> ds <> []).
Proof.
  intros Hb. revert v buf. induction fuel as [|fuel IH]; intros v buf Hv; cbn [digit_loop].
  - exists []. replace v with 0 by (change (2 ^ Z.of_nat 0) with 1 in Hv; lia). rewrite app_nil_r. split; [done|]. split; [apply digits_nil|lia].
  - destruct (Z.eqb_spec v 0) as [->|Hne].
    + exists []. rewrite app_nil_r. split; [done|]. split; [apply digits_nil|lia].
    + rewrite Nat2Z.inj_succ, Z.pow_succ_r in Hv by lia.
      assert (0 <= v / base < 2 ^ Z.of_nat fuel) as Hq.
      { split; [apply Z.div_pos; lia|]. apply Z.div_lt_upper_bound; [lia|].
        pose proof (Z.pow_pos_nonneg 2 (Z.of_nat fuel)). nia. }
      destruct (IH (v / base) (buf ++ [(digits_of upper).[v mod base]]) Hq) as (ds & -> & Hds & _).
      exists ((digits_of upper).[v mod base] :: ds). rewrite <- app_assoc. split; [done|]. split; [|done].
      cbn [rev]. pose proof (Z.mod_pos_bound v base ltac:(lia)) as Hm.
      pose proof (digits_one base (digits_of upper).[v mod base]) as H1. rewrite digit_of_value in H1 by lia.
      pose proof (digits_app base _ _ _ _ Hds (H1 Hm)) as H2. cbn [length] in H2. change (Z.of_nat 1) with 1 in H2.
      rewrite Z.pow_1_r, Z.mul_comm, <- Z.div_mod in H2 by lia. done.
Qed.

Lemma digits_text_ok v base upper : 2 <= base <= 16 -> is_u32 v ->
  digits_for base v (digits_text v base upper) /\
  exists c t, digits_text v base upper = c :: t /\ 0 <= digit_value c < base.
Proof.
  intros Hb Hv. unfold digits_text.
  destruct (digit_loop_ok 32 upper base v (if v =? 0 then [48] else []) Hb) as (ds & -> & Hds & Hne); [exact Hv|].
  assert (digits_for base v (rev ((if v =? 0 then [48] else []) ++ ds))) as Hd.
  { rewrite rev_app_distr. destruct (Z.eqb_spec v 0) as [->|]; cbn [rev app]; [|by rewrite app_nil_r].
    pose proof (digits_app base 0 0 _ _ Hds (digits_one base 48 ltac:(change (digit_value 48) with 0; lia))) as H. exact H. }
  split; [exact Hd|].
  set (t := rev ((if v =? 0 then [48] else []) ++ ds)) in *.
  assert (t <> []) as Hnil.
  { subst t. intros E. apply (f_equal (@rev Z)) in E. rewrite rev_involutive in E. cbn in E.
    destruct (Z.eqb_spec v 0); [done|]. cbn in E. apply Hne; [unfold is_word in Hv; lia|done]. }
  destruct t as [|c t]; [done|]. exists c, t. split; [done|].
  (* a character that is no digit would end the reading at once *)
  destruct (decide (0 <= digit_value c < base)) as [|Hbad]; [done|]. exfalso.
  pose proof (Hd 0 []) as H0. pose proof (Hd 1 []) as H1. rewrite app_nil_r in *. cbn [read_digits] in *.
  destruct (Z.leb_spec 0 (digit_value c)), (Z.ltb_spec (digit_value c) base); cbn [andb] in *; try lia.
  all: cbn [length] in H0, H1; rewrite Nat2Z.inj_succ, Z.pow_succ_r in H0, H1 by lia;
    pose proof (Z.pow_pos_nonneg base (zlen t) ltac:(lia) ltac:(lia)); unfold is_word in Hv; nia.
Qed.

Lemma read_number_digit base c t : 0 <= digit_value c -> read_number base (c :: t) = read_digits base (c :: t) 0.
Proof.
  intros Hc. cbn [read_number]. destruct (Z.eqb_spec c 32) as [->|]; [done|]. by destruct (Z.eqb_spec c 45) as [->|].
Qed.
Lemma read_number_spaces base n t : read_number base (replicate n 32 ++ t) = read_number base t.
Proof. by induction n. Qed.
Lemma read_digits_spaces base n acc : read_digits base (replicate n 32) acc = acc.
Proof. by destruct n. Qed.

(** A number right after the place reading starts, with what padding may follow. *)
Lemma uint_text_digits v base upper width pad left : 2 <= base <= 16 -> is_u32 v -> pad = 32 \/ pad = 48 ->
  exists n t, uint_text v base upper width pad left = replicate n 32 ++ t /\ (pad = 48 \/ left = true -> n = O) /\
    read_digits base t 0 = v /\ exists c t', t = c :: t' /\ 0 <= digit_value c.
Proof.
  intros Hb Hv Hpad. destruct (digits_text_ok v base upper Hb Hv) as (Hd & c & t & Et & Hc). unfold uint_text, pad_text.
  set (w := Z.to_nat (width - zlen (digits_text v base upper))). destruct left.
  - exists O. eexists. split; [reflexivity|]. split; [done|]. split.
    + rewrite Hd. by rewrite read_digits_spaces.
    + rewrite Et. exists c. eexists. split; [reflexivity|lia].
  - destruct Hpad as [->| ->].
    + exists w, (digits_text v base upper). split; [done|]. split; [by intros [|]|].
      split; [|exists c, t; split; [done|lia]]. rewrite <- (app_nil_r (digits_text _ _ _)), Hd. done.
    + exists O, (replicate w 48 ++ digits_text v base upper). split; [done|]. split; [done|]. split.
      * pose proof (digits_app base _ _ _ _ (digits_zeros base w ltac:(lia)) Hd 0 []) as H. rewrite app_nil_r in H. rewrite H. cbn. lia.
      * destruct w; cbn [replicate app]; [rewrite Et; exists c, t; split; [done|lia]|]. by eexists _, _.
Qed.
Lemma uint_text_reads v base upper width pad left : 2 <= base <= 16 -> is_u32 v -> pad = 32 \/ pad = 48 ->
  read_number base (uint_text v base upper width pad left) = v.
Proof.
  intros Hb Hv Hpad. destruct (uint_text_digits v base upper width pad left Hb Hv Hpad) as (n & t & -> & _ & Ht & c & t2 & -> & Hc).
  by rewrite read_number_spaces, read_number_digit.
Qed.
Lemma uint_text_length v base upper width pad left :
  zlen (uint_text v base upper width pad left) = Z.max width (zlen (digits_text v base upper)).
Proof. unfold uint_text, pad_text. destruct left; rewrite length_app, length_replicate; lia. Qed.

Lemma count_digits_ok fuel f2 m k buf : 0 < m < 10 ^ Z.of_nat fuel -> m < 2 ^ Z.of_nat f2 ->
  count_digits fuel m k = k - 1 + (zlen (digit_loop f2 (digits_of false) 10 m buf) - zlen buf).
Proof.
  revert f2 m k buf. induction fuel as [|fuel IH]; intros f2 m k buf Hm H2; [change (10 ^ Z.of_nat 0) with 1 in Hm; lia|].
  destruct f2 as [|f2]; [change (2 ^ Z.of_nat 0) with 1 in H2; lia|].
  rewrite Nat2Z.inj_succ, Z.pow_succ_r in Hm, H2 by lia. cbn [count_digits digit_loop].
  rewrite (proj2 (Z.eqb_neq m 0)) by lia. destruct (Z.leb_spec 10 m).
  - rewrite (IH f2 _ _ (buf ++ [(digits_of false).[m mod 10]])).
    + rewrite length_app. cbn [length]. lia.
    + dlia.
    + apply Z.div_lt_upper_bound; lia.
  - replace (m / 10) with 0 by dlia. assert (forall f b, digit_loop f (digits_of false) 10 0 b = b) as -> by (by intros []).
    rewrite length_app. cbn [length]. lia.
Qed.

Lemma neg_mag v : - 2 ^ 31 <= v < 0 -> u32 (0 - u32 v) = - v.
Proof. intros Hv. unfold u32. dlia. Qed.

Lemma int_text_reads v width pad left : - 2 ^ 31 <= v < 2 ^ 31 -> pad = 32 \/ pad = 48 ->
  read_number 10 (int_text v width pad left) = v /\
  zlen (int_text v width pad left) =
    Z.max width (zlen (digits_text (Z.abs v) 10 false) + (if v <? 0 then 1 else 0)).
Proof.
  intros Hv Hpad. unfold int_text. destruct (Z.leb_spec 0 v).
  - assert (u32 v = v) as -> by (unfold u32; apply Z.mod_small; lia).
    split; [apply uint_text_reads; [lia| |done]; unfold is_word; lia|].
    rewrite uint_text_length, (proj2 (Z.ltb_ge v 0)), Z.abs_eq by lia. lia.
  - cbv zeta. rewrite neg_mag, (proj2 (Z.ltb_lt v 0)), Z.abs_neq by lia. set (mag := - v).
    assert (is_u32 mag) as Hm by (unfold is_word; lia).
    assert (forall w p l, p = 48 \/ l = true \/ w = 0 -> p = 32 \/ p = 48 ->
      read_digits 10 (uint_text mag 10 false w p l) 0 = mag) as Hu.
    { intros w p l Hc Hp. destruct (uint_text_digits mag 10 false w p l ltac:(lia) Hm Hp) as (n & t & E & Hn & Ht & _).
      destruct Hc as [Hc|[Hc|Hc]]; [rewrite E, (Hn (or_introl Hc)); done|rewrite E, (Hn (or_intror Hc)); done|].
      subst w. destruct (digits_text_ok mag 10 false ltac:(lia) Hm) as (Hd & _). unfold uint_text, pad_text.
      replace (Z.to_nat (0 - _)) with O by lia. cbn [replicate app]. rewrite ?app_nil_r.
      rewrite <- (app_nil_r (digits_text _ _ _)), !app_nil_r. pose proof (Hd 0 []) as H0. rewrite app_nil_r in H0. by destruct l. }
    destruct (negb left && (pad =? 32)) eqn:E.
    + split; [unfold pad_text; rewrite read_number_spaces; cbn [app read_number Z.eqb Pos.eqb]; rewrite Hu by tauto; subst mag; lia|].
      rewrite !length_app, !Nat2Z.inj_add, uint_text_length. unfold pad_text. rewrite length_replicate. cbn [length].
      rewrite (count_digits_ok 10 32 mag 1 []) by lia. cbn [length].
      assert (zlen (digits_text mag 10 false) = zlen (digit_loop 32 (digits_of false) 10 mag [])) as ->.
      { unfold digits_text. rewrite (proj2 (Z.eqb_neq mag 0)) by lia. by rewrite length_rev. }
      lia.
    + split.
      * cbn [app read_number Z.eqb Pos.eqb]. rewrite Hu; [subst mag; lia| |done].
        apply andb_false_iff in E as [E|E]; [destruct left; [tauto|done]|]. apply Z.eqb_neq in E. tauto.
      * rewrite length_app, Nat2Z.inj_add, uint_text_length. cbn [length]. destruct (Z.eqb_spec width 0); cbn [negb]; lia.
Qed.

(** ** Properties *)

(** What one numeric conversion hands to the console. *)
Definition printed (sp : spec_t) (c v : Z) : option (list Z) :=
  option_map (fun r => console (fst r)) (convert (Sink None 0 0 []) sp c [ANum v]).
Lemma printed_text sp c v : printed sp c v = option_map fst (conversion_text sp c [ANum v]).
Proof.
  unfold printed. rewrite convert_text. destruct (conversion_text sp c [ANum v]) as [[t ap]|]; [|done].
  cbn [option_map fst]. by rewrite emit_console.
Qed.

Lemma uint_conversion sp v base upper : sp_pad sp = 32 \/ sp_pad sp = 48 -> 2 <= base <= 16 ->
  let t := uint_text (u32 v) base upper (sp_width sp) (sp_pad sp) (sp_left sp) in
  read_number base t = u32 v /\ sp_width sp <= zlen t.
Proof.
  intros Hpad Hb. split; [|rewrite uint_text_length; lia].
  apply uint_text_reads; [done| |done]. unfold is_word, u32. apply Z.mod_pos_bound. lia.
Qed.

(** A number printed with %d, %i, %u, %x, %X or %b, with any padding, width
    and side, is read back as itself, the most negative one and zero included, and
    takes at least the width that was asked for. *)
Theorem printed_numbers_read_back (sp : spec_t) (v : Z) (Hpad : sp_pad sp = 32 \/ sp_pad sp = 48) :
  (forall c, c = 100 \/ c = 105 ->
    exists t, printed sp c v = Some t /\ read_number 10 t = i32 v /\ sp_width sp <= zlen t) /\
  (forall c base, (c, base) ∈ [(117, 10); (120, 16); (88, 16); (98, 2)] ->
    exists t, printed sp c v = Some t /\ read_number base t = u32 v /\ sp_width sp <= zlen t).
Proof.
  split.
  - intros c Hc. exists (int_text (i32 v) (sp_width sp) (sp_pad sp) (sp_left sp)). split.
    { rewrite printed_text. unfold conversion_text. by destruct Hc as [-> | ->]. }
    assert (- 2 ^ 31 <= i32 v < 2 ^ 31) as Hv.
    { unfold i32. dlia. }
    destruct (int_text_reads (i32 v) (sp_width sp) (sp_pad sp) (sp_left sp) Hv Hpad) as [-> ->]. split; [done|lia].
  - intros c base Hc. rewrite printed_text. unfold conversion_text.
    repeat (apply elem_of_cons in Hc as [[= -> ->]|Hc]; [eexists; split; [reflexivity|]; apply uint_conversion; [done|lia]|]).
    by apply elem_of_nil in Hc.
Qed.

Lemma printed_numbers_read_back_witness :
  printed (Spec false 32 6) 100 4294967291 = Some [32; 32; 32; 32; 45; 53] /\
  exists t, printed (Spec true 48 0) 100 2147483648 = Some t /\ read_number 10 t = - 2147483648.
Proof.
  split; [reflexivity|].
  destruct (proj1 (printed_numbers_read_back (Spec true 48 0) 2147483648 (or_intror eq_refl)) 100 (or_introl eq_refl)) as (t & H1 & H2 & _).
  exists t. split; [exact H1|exact H2].
Defined.

(** C36: Formatting into a buffer writes the characters the console would have
    been handed, cut to what fits with the terminator after them, nothing beyond the
    terminator changes, and the answer is the length the whole text would have had. *)
Theorem kformat_is_truncated_kprintf (b : list Z) (cap : Z) (fmt : list Z) (ap : list arg) (t : list Z)
    (Hcap : 0 < cap <= zlen b) (H64 : cap < 2 ^ 64) (Ht : kprintf fmt ap = Some t) (Hlen : zlen t < 2 ^ 31) :
  exists b', kformat (Some b) cap fmt ap = Some (Some b', zlen t) /\ zlen b' = zlen b /\
    let n := Nat.min (length t) (Z.to_nat (cap - 1)) in
    take n b' = take n t /\ b'.[Z.of_nat n] = 0 /\ drop (S n) b' = drop (S n) b.
Proof.
  rewrite kformat_text by (done || (rewrite Ht; intros ? [= <-]; lia)). rewrite Ht. cbn [option_map]. cbv zeta.
  set (n := Nat.min (length t) (Z.to_nat (cap - 1))).
  assert (take (Z.to_nat (cap - 1)) t = take n t) as ->.
  { subst n. destruct (Nat.min_spec (length t) (Z.to_nat (cap - 1))) as [[H ->]|[H ->]]; [|done].
    by rewrite !take_ge by lia. }
  assert (length (take n t) = n) as Hn by (rewrite length_take; lia).
  assert (i32 (zlen t) = zlen t) as -> by (unfold i32; rewrite Z.mod_small by lia; lia).
  eexists. split; [reflexivity|].
  split; [rewrite !length_app, length_drop, Hn; cbn [length]; lia|].
  split; [by rewrite take_app_le, take_ge by lia|]. split.
  - rewrite getz_app by lia. rewrite Hn, (proj2 (Z.ltb_ge _ _)), Z.sub_diag by lia. done.
  - rewrite drop_app_ge, Hn by (rewrite Hn; lia).
    replace (S n - n)%nat with 1%nat by lia. by rewrite Nat.add_1_r.
Qed.

Lemma kformat_is_truncated_kprintf_witness :
  exists b', kformat (Some (replicate 4 7)) 3 [37; 117; 33; 0] [ANum 451] = Some (Some b', 4) /\ zlen b' = 4 /\
    take 2 b' = [52; 53] /\ b'.[2] = 0 /\ drop 3 b' = [7].
Proof.
  apply (kformat_is_truncated_kprintf (replicate 4 7) 3 [37; 117; 33; 0] [ANum 451] [52; 53; 49; 33]);
    [split; [reflexivity|discriminate]|reflexivity..].
Defined.

(** ** A percent sign at the end *)

(** A format that ends in a percent sign: the switch takes the terminator for a
    conversion, hands it to the sink, and the loop steps over it. *)
Lemma percent_at_the_end (t : list Z) (ap : list arg) : Forall (fun c => c <> 0 /\ c <> 37) t ->
  kprintf (t ++ [37; 0]) ap = None.
Proof.
  rewrite kprintf_text, length_app. cbn [length]. induction 1 as [|c t [H0 H37] _ IH]; [reflexivity|].
  cbn [length Nat.add text_loop app]. rewrite (proj2 (Z.eqb_neq c 0)), (proj2 (Z.eqb_neq c 37)) by done. cbn [negb].
  by rewrite IH.
Qed.
