(* ===== verification/Rtc.v ===== *)
(** The clock chip (kernel/rtc.c): waiting for its updates, reading it until two
    readings agree, its encodings, and the texts the panel shows. The chip is a
    parameter: what its [n]th read gives for a register. *)
From S2P Require Import Prelude.

(** ** The code *)

Record rtc_time_t := Rtc {
  year : Z; month : Z; day : Z; hour : Z; minute : Z; second : Z; weekday : Z }.

Definition REG_SECOND := 0x00.
Definition REG_MINUTE := 0x02.
Definition REG_HOUR := 0x04.
Definition REG_WEEKDAY := 0x06.
Definition REG_DAY := 0x07.
Definition REG_MONTH := 0x08.
Definition REG_YEAR := 0x09.
Definition REG_STATUS_A := 0x0A.
Definition REG_STATUS_B := 0x0B.
Definition STATUS_A_UPDATING := 0x80.
Definition STATUS_B_24HOUR := 0x02.
Definition STATUS_B_BINARY := 0x04.

(** [present], [binary_mode] and [hour24]. *)
Record rtc_state := State { present : bool; binary_mode : bool; hour24 : bool }.

Definition from_bcd (v : Z) : Z := u8 ((v .& 0x0F) + (v .>> 4) * 10).

Definition same (a b : rtc_time_t) : bool :=
  (second a =? second b) && (minute a =? minute b) && (hour a =? hour b) && (day a =? day b) &&
  (month a =? month b) && (year a =? year b).

(** What [rtc_read] does to the reading it settled on. *)
Definition decode (st : rtc_state) (t : rtc_time_t) : rtc_time_t :=
  let t :=
    if negb (binary_mode st) then
      let pm := u8 (hour t .& 0x80) in
      Rtc (from_bcd (u8 (year t))) (from_bcd (month t)) (from_bcd (day t))
        (u8 (from_bcd (u8 (hour t .& 0x7F)) .| pm)) (from_bcd (minute t)) (from_bcd (second t)) (from_bcd (weekday t))
    else t in
  let t :=
    if negb (hour24 st) then
      let pm := u8 (hour t .& 0x80) in
      let h := u8 (hour t .& 0x7F) in
      let h := if h =? 12 then 0 else h in
      Rtc (year t) (month t) (day t) (if negb (pm =? 0) then u8 (h + 12) else h) (minute t) (second t) (weekday t)
    else t in
  Rtc (if year t <? 70 then u32 (year t + 2000) else u32 (year t + 1900))
    (month t) (day t) (hour t) (minute t) (second t) (weekday t).

Definition SPINS := 1000000.

Section Chip.
(** The value the [n]th read of the data port gives for a register. *)
Variable chip : Z -> Z -> Z.

Definition cmos_read (reg n : Z) : Z * Z := (chip n reg, n + 1).
Definition updating (n : Z) : bool * Z :=
  let (a, n) := cmos_read REG_STATUS_A n in (negb (a .& STATUS_A_UPDATING =? 0), n).

(** [while (updating() && spins++ < 1000000) { }]: the spins and the reads made. *)
Fixpoint wait_loop (fuel : nat) (spins n : Z) : Z * Z :=
  match fuel with
  | O => (spins, n)
  | S fuel =>
      let (u, n) := updating n in
      if u then if spins <? SPINS then wait_loop fuel (spins + 1) n else (spins + 1, n) else (spins, n)
  end.
(** One round more than the limit: the test fails there. *)
Definition wait (n : Z) : Z * Z := wait_loop (S (Z.to_nat SPINS)) 0 n.

Definition sample (n : Z) : rtc_time_t * Z :=
  let (second, n) := cmos_read REG_SECOND n in
  let (minute, n) := cmos_read REG_MINUTE n in
  let (hour, n) := cmos_read REG_HOUR n in
  let (weekday, n) := cmos_read REG_WEEKDAY n in
  let (day, n) := cmos_read REG_DAY n in
  let (month, n) := cmos_read REG_MONTH n in
  let (year, n) := cmos_read REG_YEAR n in
  (Rtc year month day hour minute second weekday, n).

(** The readings after the first, until two agree or there were eight. *)
Fixpoint agree (tries : nat) (first : rtc_time_t) (n : Z) : rtc_time_t * Z :=
  match tries with
  | O => (first, n)
  | S tries =>
      let n := snd (wait n) in
      let (second, n) := sample n in
      if same first second then (second, n) else agree tries second n
  end.

Definition rtc_read (st : rtc_state) (n : Z) : option rtc_time_t * Z :=
  let (spins, n) := wait n in
  if SPINS <=? spins then (None, n) else
  let (first, n) := sample n in
  let (second, n) := agree 8 first n in
  (Some (decode st second), n).

Definition rtc_init (st : rtc_state) (n : Z) : bool * rtc_state * Z :=
  let st := State false (binary_mode st) (hour24 st) in
  let (a, n) := cmos_read REG_STATUS_A n in
  let (b, n) := cmos_read REG_STATUS_B n in
  if (a =? 0xFF) && (b =? 0xFF) then (false, st, n) else
  let st := State false (negb (b .& STATUS_B_BINARY =? 0)) (negb (b .& STATUS_B_24HOUR =? 0)) in
  match rtc_read st n with
  | (None, n) => (false, st, n)
  | (Some t, n) =>
      if (month t <? 1) || (12 <? month t) then (false, st, n)
      else if (day t <? 1) || (31 <? day t) then (false, st, n)
      else if (23 <? hour t) || (59 <? minute t) || (59 <? second t) then (false, st, n)
      else (true, State true (binary_mode st) (hour24 st), n)
  end.

(** [out] holds what the caller's array does, [cap] or more characters. *)
Definition two (out : list Z) (at_ v : Z) : list Z :=
  out.[at_ := 48 + (v / 10) mod 10].[at_ + 1 := 48 + v mod 10].

Definition rtc_format (st : rtc_state) (n : Z) (out : list Z) (cap : Z) : list Z :=
  if cap <? 20 then if negb (cap =? 0) then out.[0 := 0] else out else
  match fst (rtc_read st n) with
  | None => splice out 0 [110; 111; 32; 99; 108; 111; 99; 107; 0]
  | Some t =>
      let out := out.[0 := 48 + (year t / 1000) mod 10] in
      let out := out.[1 := 48 + (year t / 100) mod 10] in
      let out := out.[2 := 48 + (year t / 10) mod 10] in
      let out := out.[3 := 48 + year t mod 10] in
      let out := two out.[4 := 45] 5 (month t) in
      let out := two out.[7 := 45] 8 (day t) in
      let out := two out.[10 := 32] 11 (hour t) in
      let out := two out.[13 := 58] 14 (minute t) in
      let out := two out.[16 := 58] 17 (second t) in
      out.[19 := 0]
  end.

Definition rtc_format_short (st : rtc_state) (n : Z) (out : list Z) (cap : Z) : list Z :=
  if cap <? 6 then if negb (cap =? 0) then out.[0 := 0] else out else
  match fst (rtc_read st n) with
  | None => splice out 0 [45; 45; 58; 45; 45; 0]
  | Some t =>
      let out := two out 0 (hour t) in
      let out := out.[2 := 58] in
      let out := two out 3 (minute t) in
      out.[5 := 0]
  end.
End Chip.

(** ** Waiting *)

Section Waiting.
Context (chip : Z -> Z -> Z).

Definition update_bit (n : Z) : bool := negb (chip n REG_STATUS_A .& STATUS_A_UPDATING =? 0).

Lemma wait_loop_later fuel spins n : n <= snd (wait_loop chip fuel spins n).
Proof.
  revert spins n. induction fuel as [|fuel IH]; intros spins n; cbn [wait_loop]; [cbn; lia|].
  unfold updating, cmos_read. destruct (negb _); [|cbn; lia]. destruct (spins <? SPINS); [|cbn; lia].
  specialize (IH (spins + 1) (n + 1)). lia.
Qed.
Lemma wait_later n : n <= snd (wait chip n).
Proof. apply wait_loop_later. Qed.

Lemma wait_loop_clear fuel spins n i : 0 <= i < Z.of_nat fuel -> update_bit (n + i) = false -> spins + i <= SPINS ->
  fst (wait_loop chip fuel spins n) <= spins + i.
Proof.
  revert spins n i. induction fuel as [|fuel IH]; intros spins n i Hi Hb Hs; [lia|]. cbn [wait_loop].
  unfold updating, cmos_read. fold (update_bit n). destruct (update_bit n) eqn:E; [|cbn; lia].
  destruct (Z.eq_dec i 0) as [->|]; [by rewrite Z.add_0_r, E in Hb|].
  rewrite (proj2 (Z.ltb_lt _ _)) by lia. specialize (IH (spins + 1) (n + 1) (i - 1)).
  replace (n + 1 + (i - 1)) with (n + i) in IH by lia. specialize (IH ltac:(lia) Hb ltac:(lia)). lia.
Qed.
Lemma wait_loop_stuck fuel spins n : spins <= SPINS -> SPINS < spins + Z.of_nat fuel ->
  (forall i, 0 <= i < Z.of_nat fuel -> update_bit (n + i) = true) -> SPINS < fst (wait_loop chip fuel spins n).
Proof.
  revert spins n. induction fuel as [|fuel IH]; intros spins n Hs Hf Hb; [lia|]. cbn [wait_loop].
  unfold updating, cmos_read. fold (update_bit n).
  assert (update_bit n = true) as -> by (rewrite <- (Z.add_0_r n); apply Hb; lia).
  destruct (Z.ltb_spec spins SPINS); [|cbn; lia]. apply IH; [lia..|]. intros i Hi. rewrite <- Z.add_assoc. apply Hb. lia.
Qed.

Lemma sample_at n : sample chip n =
  (Rtc (chip (n + 6) REG_YEAR) (chip (n + 5) REG_MONTH) (chip (n + 4) REG_DAY) (chip (n + 2) REG_HOUR)
     (chip (n + 1) REG_MINUTE) (chip n REG_SECOND) (chip (n + 3) REG_WEEKDAY), n + 7).
Proof. unfold sample, cmos_read. by rewrite <- !Z.add_assoc. Qed.
End Waiting.

(** ** Two readings that agree *)

Lemma same_refl t : same t t = true.
Proof. unfold same. by rewrite !Z.eqb_refl. Qed.
Lemma same_true a b : same a b = true <->
  second a = second b /\ minute a = minute b /\ hour a = hour b /\ day a = day b /\ month a = month b /\ year a = year b.
Proof. unfold same. rewrite !andb_true_iff, !Z.eqb_eq. tauto. Qed.
Lemma same_decode st a b : same a b = true -> same (decode st a) (decode st b) = true.
Proof.
  rewrite !same_true. intros (H1 & H2 & H3 & H4 & H5 & H6). unfold decode.
  destruct (binary_mode st), (hour24 st); cbn [negb second minute hour day month year]; by rewrite H1, H2, H3, H4, H5, H6.
Qed.

(** What the registers hold at a moment. *)
Definition regs (r : Z -> Z) : rtc_time_t :=
  Rtc (r REG_YEAR) (r REG_MONTH) (r REG_DAY) (r REG_HOUR) (r REG_MINUTE) (r REG_SECOND) (r REG_WEEKDAY).
Definition time_regs : list Z := [REG_SECOND; REG_MINUTE; REG_HOUR; REG_WEEKDAY; REG_DAY; REG_MONTH; REG_YEAR].

Section Tick.
(** The registers hold one time up to the [k]th read, and another from there on. *)
Context (chip : Z -> Z -> Z) (before after : Z -> Z) (k : Z)
  (Hchip : forall n reg, reg ∈ time_regs -> chip n reg = if n <? k then before reg else after reg).

Lemma sample_before n : n + 7 <= k -> fst (sample chip n) = regs before.
Proof. intros Hn. rewrite sample_at. cbn [fst]. unfold regs. rewrite !Hchip by set_solver. repeat case_bool; (done || lia). Qed.
Lemma sample_after n : k <= n -> fst (sample chip n) = regs after.
Proof. intros Hn. rewrite sample_at. cbn [fst]. unfold regs. rewrite !Hchip by set_solver. repeat case_bool; (done || lia). Qed.
Lemma sample_ends n : snd (sample chip n) = n + 7.
Proof. by rewrite sample_at. Qed.

Lemma agree_after tries first n : (0 < tries)%nat -> k <= n -> fst (agree chip tries first n) = regs after.
Proof.
  revert first n. induction tries as [|tries IH]; intros first n Ht Hn; [lia|]. cbn [agree].
  pose proof (wait_later chip n) as Hw. pose proof (sample_after (snd (wait chip n)) ltac:(lia)) as Hs.
  pose proof (sample_ends (snd (wait chip n))) as He.
  destruct (sample chip (snd (wait chip n))) as [t n2]. cbn [fst snd] in *. subst t n2.
  destruct (same first _); [done|]. destruct tries; [done|]. apply IH; lia.
Qed.
Lemma agree_before tries n : (1 < tries)%nat ->
  same (regs before) (fst (agree chip tries (regs before) n)) = true \/ fst (agree chip tries (regs before) n) = regs after.
Proof.
  intros Ht. destruct tries as [|tries]; [lia|]. cbn [agree]. set (n1 := snd (wait chip n)).
  pose proof (sample_ends n1) as He. pose proof (sample_before n1) as Hb.
  destruct (sample chip n1) as [t n2]. cbn [fst snd] in *. subst n2.
  destruct (same (regs before) t) eqn:E; [by left|]. right. apply agree_after; [lia|].
  destruct (Z.le_gt_cases k (n1 + 7)) as [|Hk]; [done|]. rewrite Hb, same_refl in E by lia. done.
Qed.

Lemma rtc_read_tick st n t : fst (rtc_read chip st n) = Some t ->
  same (decode st (regs before)) t = true \/ same (decode st (regs after)) t = true.
Proof.
  unfold rtc_read. destruct (wait chip n) as [spins n1]. destruct (SPINS <=? spins); [done|].
  pose proof (sample_ends n1) as He. pose proof (sample_before n1) as Hb.
  destruct (sample chip n1) as [t0 n2]. cbn [fst snd] in *. subst n2.
  destruct (agree chip 8 t0 (n1 + 7)) as [t1 n3] eqn:E. cbn [fst]. intros [= <-].
  destruct (Z.le_gt_cases k (n1 + 7)) as [Hk|Hk].
  - right. pose proof (agree_after 8 t0 (n1 + 7) ltac:(lia) Hk) as H. rewrite E in H. cbn [fst] in H. subst t1. apply same_refl.
  - rewrite Hb in E by lia. pose proof (agree_before 8 (n1 + 7) ltac:(lia)) as H. rewrite E in H. cbn [fst] in H.
    destruct H as [H| ->]; [left; by apply same_decode|right; apply same_refl].
Qed.
End Tick.

(** ** What the chip keeps *)

Definition bcd (v : Z) : Z := v / 10 * 16 + v mod 10.
(** An hour the way the chip keeps it: counted to twelve, with noon and midnight as
    twelve and the top bit in the afternoon, unless it counts to twenty four. *)
Definition chip_hour (st : rtc_state) (h : Z) : Z :=
  let enc v := if binary_mode st then v else bcd v in
  if hour24 st then enc h
  else enc (if h mod 12 =? 0 then 12 else h mod 12) + (if 12 <=? h then 0x80 else 0).
Definition chip_time (st : rtc_state) (t : rtc_time_t) : rtc_time_t :=
  let enc v := if binary_mode st then v else bcd v in
  Rtc (enc (year t mod 100)) (enc (month t)) (enc (day t)) (chip_hour st (hour t)) (enc (minute t)) (enc (second t)) (enc (weekday t)).
(** A time the two digits of a year can tell. *)
Definition clock_time (t : rtc_time_t) : Prop :=
  1970 <= year t < 2070 /\ 1 <= month t <= 12 /\ 1 <= day t <= 31 /\ 0 <= hour t < 24 /\ 0 <= minute t < 60 /\
  0 <= second t < 60 /\ 0 <= weekday t < 7.

Lemma from_bcd_bcd v : 0 <= v < 100 -> from_bcd (bcd v) = v.
Proof.
  intros Hv. assert (forallb (fun v => from_bcd (bcd v) =? v) (seqZ 0 100) = true) as H by (vm_compute; reflexivity).
  rewrite forallb_forall in H. apply Z.eqb_eq, H, list_elem_of_In, elem_of_seqZ. lia.
Qed.
Lemma bcd_u8 v : 0 <= v < 100 -> u8 (bcd v) = bcd v.
Proof. intros Hv. unfold u8, bcd. apply Z.mod_small. dlia. Qed.

(** The hour a decoding gives, by itself. *)
Definition decode_hour (st : rtc_state) (h : Z) : Z := hour (decode st (Rtc 0 0 0 h 0 0 0)).
Lemma decode_hour_chip st h : 0 <= h < 24 -> decode_hour st (chip_hour st h) = h.
Proof.
  intros Hh. destruct st as [p b f].
  assert (forallb (fun h => decode_hour (State p b f) (chip_hour (State p b f) h) =? h) (seqZ 0 24) = true) as H.
  { destruct b, f; vm_compute; reflexivity. }
  rewrite forallb_forall in H. apply Z.eqb_eq, H, list_elem_of_In, elem_of_seqZ. lia.
Qed.

Lemma decode_chip st t : clock_time t -> decode st (chip_time st t) = t.
Proof.
  intros (Hy & Hm & Hd & Hh & Hmi & Hs & Hw). pose proof (decode_hour_chip st (hour t) Hh) as H.
  assert (0 <= year t mod 100 < 100) as Hy2 by (apply Z.mod_pos_bound; lia).
  assert ((if year t mod 100 <? 70 then u32 (year t mod 100 + 2000) else u32 (year t mod 100 + 1900)) = year t) as Hyear.
  { unfold u32. destruct (Z.ltb_spec (year t mod 100) 70); dlia. }
  unfold decode_hour in H. destruct t as [y mo d h mi s w]. cbn [year month day hour minute second weekday] in *.
  unfold decode, chip_time in *. destruct (binary_mode st), (hour24 st);
    cbn [negb year month day hour minute second weekday] in *;
    rewrite ?bcd_u8, ?from_bcd_bcd by lia; rewrite ?from_bcd_bcd by lia; by rewrite ?Hyear, ?H.
Qed.

Definition digits2 (v : Z) : list Z := [48 + v / 10 mod 10; 48 + v mod 10].
Definition digits4 (v : Z) : list Z := digits2 (v / 100) ++ digits2 v.

Section Steady.
(** A chip that keeps still, and is not updating. *)
Context (chip : Z -> Z -> Z) (st : rtc_state) (t : rtc_time_t)
  (Hregs : forall n, regs (chip n) = chip_time st t) (Ha : forall n, chip n REG_STATUS_A .& STATUS_A_UPDATING = 0).

Lemma wait_steady n : wait chip n = (0, n + 1).
Proof. unfold wait. cbn [wait_loop]. unfold updating, cmos_read. by rewrite Ha. Qed.
Lemma sample_steady n : sample chip n = (chip_time st t, n + 7).
Proof.
  rewrite sample_at. f_equal. pose proof (fun m => Hregs m) as H. unfold regs, chip_time in H.
  pose proof (H n) as H0. pose proof (H (n + 1)) as H1. pose proof (H (n + 2)) as H2. pose proof (H (n + 3)) as H3.
  pose proof (H (n + 4)) as H4. pose proof (H (n + 5)) as H5. pose proof (H (n + 6)) as H6.
  injection H0 as _ _ _ _ _ -> _. injection H1 as _ _ _ _ -> _ _. injection H2 as _ _ _ -> _ _ _.
  injection H3 as _ _ _ _ _ _ ->. injection H4 as _ _ -> _ _ _ _. injection H5 as _ -> _ _ _ _ _.
  injection H6 as -> _ _ _ _ _ _. reflexivity.
Qed.
Lemma rtc_read_steady p n : clock_time t -> fst (rtc_read chip (State p (binary_mode st) (hour24 st)) n) = Some t.
Proof.
  intros Ht. unfold rtc_read. rewrite wait_steady. change (SPINS <=? 0) with false. cbv iota.
  rewrite sample_steady. cbn [agree]. rewrite wait_steady. cbn [snd]. rewrite sample_steady, same_refl. cbn [fst].
  f_equal. exact (decode_chip st t Ht).
Qed.
End Steady.

(** C30: When the registers go from one time to another while they are being
    read, however often and long the chip says it is updating, what a read gives is
    one of the two times and never a mixture of them (the day of the week apart). *)
Theorem rtc_read_never_torn (chip : Z -> Z -> Z) (before after : Z -> Z) (k : Z) (st : rtc_state) (n : Z) (t : rtc_time_t)
    (Hchip : forall n reg, reg ∈ time_regs -> chip n reg = if n <? k then before reg else after reg)
    (Hread : fst (rtc_read chip st n) = Some t) :
  same (decode st (regs before)) t = true \/ same (decode st (regs after)) t = true.
Proof. by apply (rtc_read_tick chip before after k Hchip st n). Qed.

(** A chip at 11:59:59, in BCD, that goes to 12:00:00 between the reads of the minute
    and the hour. *)
Definition eleven (reg : Z) : Z := if reg =? REG_HOUR then 0x11 else if (reg =? REG_MINUTE) || (reg =? REG_SECOND) then 0x59 else 1.
Definition twelve (reg : Z) : Z := if reg =? REG_HOUR then 0x12 else if (reg =? REG_MINUTE) || (reg =? REG_SECOND) then 0 else 1.
Definition ticking (n reg : Z) : Z :=
  if reg =? REG_STATUS_A then 0 else if n <? 3 then eleven reg else twelve reg.

Lemma rtc_read_never_torn_witness :
  let st := State true false true in
  fst (rtc_read ticking st 0) = Some (Rtc 2001 1 1 12 0 0 1) /\ fst (sample ticking 1) = Rtc 1 1 1 0x12 0x59 0x59 1 /\
  (same (decode st (regs eleven)) (Rtc 2001 1 1 12 0 0 1) = true \/ same (decode st (regs twelve)) (Rtc 2001 1 1 12 0 0 1) = true).
Proof.
  cbv zeta. split; [reflexivity|]. split; [reflexivity|].
  apply (rtc_read_never_torn ticking eleven twelve 3 (State true false true) 0); [|reflexivity].
  intros n reg Hreg. unfold ticking.
  assert (reg =? REG_STATUS_A = false) as -> by (apply Z.eqb_neq; intros ->; unfold time_regs in Hreg; set_solver). reflexivity.
Defined.

(** Starting on a chip that keeps a time of 1970 to 2069, in BCD or binary,
    counting hours to twelve or to twenty four, finds the clock there, and reading it
    gives that time. *)
Theorem rtc_reads_what_the_chip_keeps (chip : Z -> Z -> Z) (st : rtc_state) (t : rtc_time_t) (n : Z) (Ht : clock_time t)
    (Hregs : forall n, regs (chip n) = chip_time st t) (Ha : forall n, chip n REG_STATUS_A .& STATUS_A_UPDATING = 0)
    (Hb : forall n, negb (chip n REG_STATUS_B .& STATUS_B_BINARY =? 0) = binary_mode st /\
                    negb (chip n REG_STATUS_B .& STATUS_B_24HOUR =? 0) = hour24 st) :
  fst (rtc_init chip (State false false false) n) = (true, State true (binary_mode st) (hour24 st)) /\
  forall p m, fst (rtc_read chip (State p (binary_mode st) (hour24 st)) m) = Some t.
Proof.
  assert (forall p m, fst (rtc_read chip (State p (binary_mode st) (hour24 st)) m) = Some t) as Hread
    by (intros p m; by apply rtc_read_steady).
  split; [|exact Hread]. unfold rtc_init, cmos_read. destruct (Hb (n + 1)) as [-> ->].
  destruct (Z.eqb_spec (chip n REG_STATUS_A) 0xFF) as [E|_]; [specialize (Ha n); by rewrite E in Ha|]. cbn [andb].
  specialize (Hread false (n + 1 + 1)). destruct (rtc_read _ _ _) as [r n2]. cbn [fst] in Hread. subst r.
  destruct Ht as (Hy & Hm & Hd & Hh & Hmi & Hs & Hw). repeat case_bool; cbn [orb]; (done || lia).
Qed.

(** Twelve minutes past midnight, in BCD, counting to twelve. *)
Definition midnight (n reg : Z) : Z :=
  if reg =? REG_STATUS_A then 0x26 else if reg =? REG_STATUS_B then 0
  else if reg =? REG_HOUR then 0x12 else if reg =? REG_MINUTE then 0x12 else if reg =? REG_DAY then 0x31
  else if reg =? REG_MONTH then 0x12 else if reg =? REG_YEAR then 0x69 else 0.
Lemma rtc_reads_what_the_chip_keeps_witness :
  fst (rtc_init midnight (State false false false) 0) = (true, State true false false) /\
  fst (rtc_read midnight (State true false false) 9) = Some (Rtc 2069 12 31 0 12 0 0).
Proof.
  destruct (rtc_reads_what_the_chip_keeps midnight (State true false false) (Rtc 2069 12 31 0 12 0 0) 0) as [H1 H2].
  - repeat split; cbn; lia.
  - intros n. reflexivity.
  - intros n. reflexivity.
  - intros n. split; reflexivity.
  - split; [exact H1|exact (H2 true 9)].
Defined.

(** A chip that is never updating for a million polls on end is read, every
    time; one that says it is updating for that long is given up on, and what the
    caller had is left alone. *)
Theorem rtc_read_answers (chip : Z -> Z -> Z) (st : rtc_state) :
  ((forall n, exists i, 0 <= i < SPINS /\ update_bit chip (n + i) = false) ->
    forall n, exists t, fst (rtc_read chip st n) = Some t) /\
  (forall n, (forall i, 0 <= i <= SPINS -> update_bit chip (n + i) = true) -> fst (rtc_read chip st n) = None).
Proof.
  split.
  - intros H n. destruct (H n) as (i & Hi & Hb). unfold rtc_read.
    pose proof (wait_loop_clear chip (S (Z.to_nat SPINS)) 0 n i ltac:(lia) Hb ltac:(lia)) as Hw. unfold wait.
    destruct (wait_loop chip (S (Z.to_nat SPINS)) 0 n) as [spins n1]. cbn [fst] in Hw.
    rewrite (proj2 (Z.leb_gt _ _)) by lia. destruct (sample chip n1) as [t0 n2].
    destruct (agree chip 8 t0 n2) as [t1 n3]. by eexists.
  - intros n H. unfold rtc_read. assert (0 <= SPINS) as H0 by discriminate.
    pose proof (wait_loop_stuck chip (S (Z.to_nat SPINS)) 0 n ltac:(lia) ltac:(lia)) as Hw. unfold wait.
    destruct (wait_loop chip (S (Z.to_nat SPINS)) 0 n) as [spins n1]. cbn [fst] in Hw.
    rewrite (proj2 (Z.leb_le _ _)); [done|]. apply Z.lt_le_incl, Hw. intros i Hi. apply H. lia.
Qed.

Lemma rtc_read_answers_witness :
  (exists t, fst (rtc_read ticking (State true false true) 0) = Some t) /\
  fst (rtc_read (fun _ _ => 0xFF) (State true false true) 0) = None.
Proof.
  split.
  - apply (proj1 (rtc_read_answers ticking (State true false true))). intros n. exists 0. split; [split; [discriminate|reflexivity]|reflexivity].
  - apply (proj2 (rtc_read_answers (fun _ _ => 0xFF) (State true false true))). intros i _. reflexivity.
Defined.

(** ** The texts *)

Lemma rtc_format_text chip st n out cap t : 20 <= cap <= zlen out -> fst (rtc_read chip st n) = Some t ->
  rtc_format chip st n out cap =
    digits4 (year t) ++ [45] ++ digits2 (month t) ++ [45] ++ digits2 (day t) ++ [32] ++
    digits2 (hour t) ++ [58] ++ digits2 (minute t) ++ [58] ++ digits2 (second t) ++ [0] ++ drop 20 out.
Proof.
  intros Hcap Ht. unfold rtc_format. rewrite (proj2 (Z.ltb_ge _ _)), Ht by lia. unfold digits4, digits2, two.
  rewrite Z.div_div by lia. change (100 * 10) with 1000.
  do 20 (destruct out as [|? out]; [cbn [length] in Hcap; lia|]). reflexivity.
Qed.
Lemma rtc_format_short_text chip st n out cap t : 6 <= cap <= zlen out -> fst (rtc_read chip st n) = Some t ->
  rtc_format_short chip st n out cap = digits2 (hour t) ++ [58] ++ digits2 (minute t) ++ [0] ++ drop 6 out.
Proof.
  intros Hcap Ht. unfold rtc_format_short. rewrite (proj2 (Z.ltb_ge _ _)), Ht by lia. unfold digits2, two.
  do 6 (destruct out as [|? out]; [cbn [length] in Hcap; lia|]). reflexivity.
Qed.
