(* ===== verification/Zone.v ===== *)
(** Time zones (userland/zones.h, which the kernel shares, and kernel/zone.c): the
    calendar, the rules for summer, the zones by name, and the clock in the zone set.
    The 64 bit arithmetic is signed, so it is not wrapped: no moment a clock can tell
    takes it out of range. *)
From S2P Require Import Prelude Printf Rtc.
From Stdlib Require Import Ascii String.

(** ** The code *)

Inductive rule_t := TZR_NONE | TZR_US | TZR_EU | TZR_AU | TZR_NZ.
Record zone_t := Z_ {
  z_name : string; z_offset : Z; z_rule : rule_t;
  s_std : option string; s_dst : option string; l_std : option string; l_dst : option string }.

Definition ZONES : list zone_t := [
  Z_ "UTC" 0 TZR_NONE (Some "UTC") (Some "UTC") (Some "Coordinated Universal Time") (Some "Coordinated Universal Time");
  Z_ "America/New_York" (-300) TZR_US (Some "EST") (Some "EDT") (Some "Eastern Standard Time") (Some "Eastern Daylight Time");
  Z_ "America/Detroit" (-300) TZR_US (Some "EST") (Some "EDT") (Some "Eastern Standard Time") (Some "Eastern Daylight Time");
  Z_ "America/Toronto" (-300) TZR_US (Some "EST") (Some "EDT") (Some "Eastern Standard Time") (Some "Eastern Daylight Time");
  Z_ "America/Chicago" (-360) TZR_US (Some "CST") (Some "CDT") (Some "Central Standard Time") (Some "Central Daylight Time");
  Z_ "America/Winnipeg" (-360) TZR_US (Some "CST") (Some "CDT") (Some "Central Standard Time") (Some "Central Daylight Time");
  Z_ "America/Denver" (-420) TZR_US (Some "MST") (Some "MDT") (Some "Mountain Standard Time") (Some "Mountain Daylight Time");
  Z_ "America/Edmonton" (-420) TZR_US (Some "MST") (Some "MDT") (Some "Mountain Standard Time") (Some "Mountain Daylight Time");
  Z_ "America/Phoenix" (-420) TZR_NONE (Some "MST") (Some "MST") (Some "Mountain Standard Time") (Some "Mountain Standard Time");
  Z_ "America/Los_Angeles" (-480) TZR_US (Some "PST") (Some "PDT") (Some "Pacific Standard Time") (Some "Pacific Daylight Time");
  Z_ "America/Vancouver" (-480) TZR_US (Some "PST") (Some "PDT") (Some "Pacific Standard Time") (Some "Pacific Daylight Time");
  Z_ "America/Anchorage" (-540) TZR_US (Some "AKST") (Some "AKDT") (Some "Alaska Standard Time") (Some "Alaska Daylight Time");
  Z_ "Pacific/Honolulu" (-600) TZR_NONE (Some "HST") (Some "HST") (Some "Hawaii-Aleutian Standard Time") (Some "Hawaii-Aleutian Standard Time");
  Z_ "America/Halifax" (-240) TZR_US (Some "AST") (Some "ADT") (Some "Atlantic Standard Time") (Some "Atlantic Daylight Time");
  Z_ "America/Mexico_City" (-360) TZR_NONE (Some "CST") (Some "CST") (Some "Central Standard Time") (Some "Central Standard Time");
  Z_ "America/Bogota" (-300) TZR_NONE None None (Some "Colombia Standard Time") (Some "Colombia Standard Time");
  Z_ "America/Lima" (-300) TZR_NONE None None (Some "Peru Standard Time") (Some "Peru Standard Time");
  Z_ "America/Sao_Paulo" (-180) TZR_NONE None None (Some "Brasilia Standard Time") (Some "Brasilia Standard Time");
  Z_ "America/Argentina/Buenos_Aires" (-180) TZR_NONE None None (Some "Argentina Standard Time") (Some "Argentina Standard Time");
  Z_ "Europe/London" 0 TZR_EU (Some "GMT") None (Some "Greenwich Mean Time") (Some "British Summer Time");
  Z_ "Europe/Dublin" 0 TZR_EU (Some "GMT") None (Some "Greenwich Mean Time") (Some "Irish Standard Time");
  Z_ "Europe/Lisbon" 0 TZR_EU None None (Some "Western European Standard Time") (Some "Western European Summer Time");
  Z_ "Europe/Paris" 60 TZR_EU None None (Some "Central European Standard Time") (Some "Central European Summer Time");
  Z_ "Europe/Berlin" 60 TZR_EU None None (Some "Central European Standard Time") (Some "Central European Summer Time");
  Z_ "Europe/Madrid" 60 TZR_EU None None (Some "Central European Standard Time") (Some "Central European Summer Time");
  Z_ "Europe/Rome" 60 TZR_EU None None (Some "Central European Standard Time") (Some "Central European Summer Time");
  Z_ "Europe/Amsterdam" 60 TZR_EU None None (Some "Central European Standard Time") (Some "Central European Summer Time");
  Z_ "Europe/Brussels" 60 TZR_EU None None (Some "Central European Standard Time") (Some "Central European Summer Time");
  Z_ "Europe/Vienna" 60 TZR_EU None None (Some "Central European Standard Time") (Some "Central European Summer Time");
  Z_ "Europe/Zurich" 60 TZR_EU None None (Some "Central European Standard Time") (Some "Central European Summer Time");
  Z_ "Europe/Stockholm" 60 TZR_EU None None (Some "Central European Standard Time") (Some "Central European Summer Time");
  Z_ "Europe/Oslo" 60 TZR_EU None None (Some "Central European Standard Time") (Some "Central European Summer Time");
  Z_ "Europe/Copenhagen" 60 TZR_EU None None (Some "Central European Standard Time") (Some "Central European Summer Time");
  Z_ "Europe/Warsaw" 60 TZR_EU None None (Some "Central European Standard Time") (Some "Central European Summer Time");
  Z_ "Europe/Prague" 60 TZR_EU None None (Some "Central European Standard Time") (Some "Central European Summer Time");
  Z_ "Europe/Budapest" 60 TZR_EU None None (Some "Central European Standard Time") (Some "Central European Summer Time");
  Z_ "Europe/Athens" 120 TZR_EU None None (Some "Eastern European Standard Time") (Some "Eastern European Summer Time");
  Z_ "Europe/Helsinki" 120 TZR_EU None None (Some "Eastern European Standard Time") (Some "Eastern European Summer Time");
  Z_ "Europe/Kyiv" 120 TZR_EU None None (Some "Eastern European Standard Time") (Some "Eastern European Summer Time");
  Z_ "Europe/Kiev" 120 TZR_EU None None (Some "Eastern European Standard Time") (Some "Eastern European Summer Time");
  Z_ "Europe/Bucharest" 120 TZR_EU None None (Some "Eastern European Standard Time") (Some "Eastern European Summer Time");
  Z_ "Europe/Istanbul" 180 TZR_NONE None None None None;
  Z_ "Europe/Moscow" 180 TZR_NONE None None (Some "Moscow Standard Time") (Some "Moscow Standard Time");
  Z_ "Africa/Lagos" 60 TZR_NONE None None (Some "West Africa Standard Time") (Some "West Africa Standard Time");
  Z_ "Africa/Johannesburg" 120 TZR_NONE None None (Some "South Africa Standard Time") (Some "South Africa Standard Time");
  Z_ "Africa/Nairobi" 180 TZR_NONE None None (Some "East Africa Time") (Some "East Africa Time");
  Z_ "Asia/Dubai" 240 TZR_NONE None None (Some "Gulf Standard Time") (Some "Gulf Standard Time");
  Z_ "Asia/Karachi" 300 TZR_NONE None None (Some "Pakistan Standard Time") (Some "Pakistan Standard Time");
  Z_ "Asia/Kolkata" 330 TZR_NONE None None (Some "India Standard Time") (Some "India Standard Time");
  Z_ "Asia/Calcutta" 330 TZR_NONE None None (Some "India Standard Time") (Some "India Standard Time");
  Z_ "Asia/Kathmandu" 345 TZR_NONE None None (Some "Nepal Time") (Some "Nepal Time");
  Z_ "Asia/Dhaka" 360 TZR_NONE None None (Some "Bangladesh Standard Time") (Some "Bangladesh Standard Time");
  Z_ "Asia/Bangkok" 420 TZR_NONE None None (Some "Indochina Time") (Some "Indochina Time");
  Z_ "Asia/Jakarta" 420 TZR_NONE None None (Some "Western Indonesia Time") (Some "Western Indonesia Time");
  Z_ "Asia/Ho_Chi_Minh" 420 TZR_NONE None None (Some "Indochina Time") (Some "Indochina Time");
  Z_ "Asia/Shanghai" 480 TZR_NONE None None (Some "China Standard Time") (Some "China Standard Time");
  Z_ "Asia/Hong_Kong" 480 TZR_NONE None None (Some "Hong Kong Standard Time") (Some "Hong Kong Standard Time");
  Z_ "Asia/Singapore" 480 TZR_NONE None None (Some "Singapore Standard Time") (Some "Singapore Standard Time");
  Z_ "Asia/Taipei" 480 TZR_NONE None None (Some "Taipei Standard Time") (Some "Taipei Standard Time");
  Z_ "Asia/Manila" 480 TZR_NONE None None (Some "Philippine Standard Time") (Some "Philippine Standard Time");
  Z_ "Australia/Perth" 480 TZR_NONE None None (Some "Australian Western Standard Time") (Some "Australian Western Standard Time");
  Z_ "Asia/Seoul" 540 TZR_NONE None None (Some "Korean Standard Time") (Some "Korean Standard Time");
  Z_ "Asia/Tokyo" 540 TZR_NONE None None (Some "Japan Standard Time") (Some "Japan Standard Time");
  Z_ "Australia/Darwin" 570 TZR_NONE None None (Some "Australian Central Standard Time") (Some "Australian Central Standard Time");
  Z_ "Australia/Adelaide" 570 TZR_AU None None (Some "Australian Central Standard Time") (Some "Australian Central Daylight Time");
  Z_ "Australia/Brisbane" 600 TZR_NONE None None (Some "Australian Eastern Standard Time") (Some "Australian Eastern Standard Time");
  Z_ "Australia/Sydney" 600 TZR_AU None None (Some "Australian Eastern Standard Time") (Some "Australian Eastern Daylight Time");
  Z_ "Australia/Melbourne" 600 TZR_AU None None (Some "Australian Eastern Standard Time") (Some "Australian Eastern Daylight Time");
  Z_ "Australia/Canberra" 600 TZR_AU None None (Some "Australian Eastern Standard Time") (Some "Australian Eastern Daylight Time");
  Z_ "Australia/Hobart" 600 TZR_AU None None (Some "Australian Eastern Standard Time") (Some "Australian Eastern Daylight Time");
  Z_ "Pacific/Auckland" 720 TZR_NZ None None (Some "New Zealand Standard Time") (Some "New Zealand Daylight Time")
]%string.

Definition zone_days_from_civil (y m d : Z) : Z :=
  let y := y - Z.b2z (m <=? 2) in
  let era := Z.quot (if 0 <=? y then y else y - 399) 400 in
  let yoe := y - era * 400 in
  let mp := if 2 <? m then m - 3 else m + 9 in
  let doy := Z.quot (153 * mp + 2) 5 + d - 1 in
  let doe := yoe * 365 + Z.quot yoe 4 - Z.quot yoe 100 + doy in
  era * 146097 + doe - 719468.

Definition zone_civil_from_days (z : Z) : Z * Z * Z :=
  let z := z + 719468 in
  let era := Z.quot (if 0 <=? z then z else z - 146096) 146097 in
  let doe := z - era * 146097 in
  let yoe := Z.quot (doe - Z.quot doe 1460 + Z.quot doe 36524 - Z.quot doe 146096) 365 in
  let doy := doe - (365 * yoe + Z.quot yoe 4 - Z.quot yoe 100) in
  let mp := Z.quot (5 * doy + 2) 153 in
  let d := doy - Z.quot (153 * mp + 2) 5 + 1 in
  let m := if mp <? 10 then mp + 3 else mp - 9 in
  (yoe + era * 400 + Z.b2z (m <=? 2), m, d).

Definition zone_day_of (t : Z) : Z :=
  let d := Z.quot t 86400 in if Z.rem t 86400 <? 0 then d - 1 else d.

Definition zone_weekday (day : Z) : Z :=
  let w := Z.rem (day + 4) 7 in if w <? 0 then w + 7 else w.

(** [while (day + 7 < len) day += 7]: a month has five rounds of it at most. *)
Fixpoint last_week (fuel : nat) (day len : Z) : Z :=
  match fuel with
  | O => day
  | S fuel => if day + 7 <? len then last_week fuel (day + 7) len else day
  end.

Definition zone_sunday (year month nth hour off : Z) : Z :=
  let first := zone_days_from_civil year month 1 in
  let day := Z.rem (7 - zone_weekday first) 7 in
  let day :=
    if 0 <? nth then day + 7 * (nth - 1)
    else
      let len := zone_days_from_civil (if month =? 12 then year + 1 else year) (if month =? 12 then 1 else month + 1) 1 - first in
      last_week 5 day len in
  (first + day) * 86400 + hour * 3600 - off * 60.

Definition zone_in_summer (z : zone_t) (t : Z) : bool :=
  let '(y, m, d) := zone_civil_from_days (zone_day_of t) in
  let o := z_offset z in
  match z_rule z with
  | TZR_NONE => false
  | TZR_US => (zone_sunday y 3 2 2 o <=? t) && (t <? zone_sunday y 11 1 1 o)
  | TZR_EU => (zone_sunday y 3 0 1 0 <=? t) && (t <? zone_sunday y 10 0 1 0)
  | TZR_AU => (t <? zone_sunday y 4 1 2 o) || (zone_sunday y 10 1 2 o <=? t)
  | TZR_NZ => (t <? zone_sunday y 4 1 2 o) || (zone_sunday y 9 0 2 o <=? t)
  end.

Definition zone_offset_at (z : zone_t) (t : Z) : Z := z_offset z + (if zone_in_summer z t then 60 else 0).

Definition zone_low (c : ascii) : Z :=
  let c := Z.of_N (N_of_ascii c) in if (65 <=? c) && (c <=? 90) then c + 32 else c.
(** Two names, without their terminators. *)
Fixpoint zone_same (a b : string) : bool :=
  match a, b with
  | EmptyString, EmptyString => true
  | String x a, String y b => if zone_low x =? zone_low y then zone_same a b else false
  | _, _ => false
  end.

Definition UTCS : list string := ["utc"; "etc/utc"; "gmt"; "etc/gmt"; "etc/universal"; "universal"; "zulu"; "etc/zulu"]%string.
Fixpoint find_from (i : Z) (zs : list zone_t) (name : string) : Z :=
  match zs with
  | [] => -1
  | z :: zs => if zone_same name (z_name z) then i else find_from (i + 1) zs name
  end.
Definition zone_find (name : string) : Z :=
  if existsb (zone_same name) UTCS then 0 else find_from 0 ZONES name.
Definition zone_count : Z := zlen ZONES.

(** [current], [fixed] and [adjust]. *)
Record zone_state := ZState { current : Z; fixed : Z; adjust : Z }.
Definition no_zone : zone_t := Z_ EmptyString 0 TZR_NONE None None None None.
Definition current_zone (st : zone_state) : zone_t := getz no_zone ZONES (current st).

Definition zone_set (st : zone_state) (name : string) : bool * zone_state :=
  let i := zone_find name in
  if i <? 0 then (false, st) else (true, ZState i (fixed st) (adjust st)).
Definition zone_set_adjust (st : zone_state) (seconds : Z) : zone_state := ZState (current st) (fixed st) seconds.
Definition zone_test_fix (st : zone_state) (utc : Z) : zone_state := ZState (current st) utc (adjust st).
Definition zone_name (st : zone_state) : string := z_name (current_zone st).
Definition zone_name_at (i : Z) : option string :=
  if (0 <=? i) && (i <? zone_count) then Some (z_name (getz no_zone ZONES i)) else None.

Definition zone_utc_of (t : rtc_time_t) : Z :=
  zone_days_from_civil (year t) (month t) (day t) * 86400 + hour t * 3600 + minute t * 60 + second t.

Definition civil (t : Z) : rtc_time_t :=
  let day := zone_day_of t in
  let rest := t - day * 86400 in
  let '(y, m, d) := zone_civil_from_days day in
  Rtc (u32 y) (u8 m) (u8 d) (u8 (Z.quot rest 3600)) (u8 (Z.rem (Z.quot rest 60) 60)) (u8 (Z.rem rest 60)) (u8 (zone_weekday day)).

Record zone_time_t := ZTime { local : rtc_time_t; at_utc : rtc_time_t; utc : Z; offset : Z; summer : bool }.
Definition zone_at (st : zone_state) (utc : Z) : zone_time_t :=
  let z := current_zone st in
  let off := zone_offset_at z utc in
  ZTime (civil (utc + off * 60)) (civil utc) utc off (negb (off =? z_offset z)).

(** [clock_local] is the setting of that name. *)
Definition zone_from_reading (st : zone_state) (clock_local : bool) (reading : rtc_time_t) : zone_time_t :=
  let r := zone_utc_of reading in
  let r :=
    if clock_local then
      let z := current_zone st in
      let summer := r - (z_offset z + 60) * 60 in
      if negb (match z_rule z with TZR_NONE => true | _ => false end) && (zone_offset_at z summer =? z_offset z + 60) then summer
      else r - z_offset z * 60
    else r in
  zone_at st (r + adjust st).

(** [reading] is what [rtc_read] answers. *)
Definition zone_now (st : zone_state) (clock_local present : bool) (reading : option rtc_time_t) : option zone_time_t :=
  if 0 <=? fixed st then Some (zone_at st (fixed st)) else
  if negb present then None else
  match reading with
  | None => None
  | Some t => Some (zone_from_reading st clock_local t)
  end.

(** A format and its terminator. *)
Definition fmt (s : string) : list Z := ((fun c => Z.of_N (N_of_ascii c)) <$> list_ascii_of_string s) ++ [0].
Definition zone_offset_text (offset : Z) (out : option (list Z)) (cap : Z) : option (option (list Z) * Z) :=
  let a := if offset <? 0 then - offset else offset in
  let sign := ANum (if offset <? 0 then 45 else 43) in
  if offset =? 0 then kformat out cap (fmt "UTC") []
  else if negb (Z.rem a 60 =? 0) then kformat out cap (fmt "UTC%c%d:%02d") [sign; ANum (Z.quot a 60); ANum (Z.rem a 60)]
  else kformat out cap (fmt "UTC%c%d") [sign; ANum (Z.quot a 60)].

(** ** The calendar *)

Ltac qlia := Z.to_euclidean_division_equations; lia.

(** Years are counted from March, four hundred to an era: the days before a year of the
    era, and whether the February that ends it has a twenty ninth. *)
Definition year_start (yoe : Z) : Z := 365 * yoe + yoe / 4 - yoe / 100.
Definition leap (y : Z) : bool := (y mod 4 =? 0) && (negb (y mod 100 =? 0) || (y mod 400 =? 0)).
Definition month_days (y m : Z) : Z :=
  if m =? 2 then if leap y then 29 else 28 else if existsb (Z.eqb m) [4; 6; 9; 11] then 30 else 31.
Definition valid_date (v : Z * Z * Z) : Prop := let '(y, m, d) := v in 1 <= m <= 12 /\ 1 <= d <= month_days y m.
(** The day after. *)
Definition next_day (v : Z * Z * Z) : Z * Z * Z :=
  let '(y, m, d) := v in
  if d <? month_days y m then (y, m, d + 1) else if m <? 12 then (y, m + 1, 1) else (y + 1, 1, 1).

Lemma days_floor y m d : 1 <= m <= 12 ->
  zone_days_from_civil y m d =
    let y := y - Z.b2z (m <=? 2) in
    y / 400 * 146097 + year_start (y mod 400) + (153 * (if 2 <? m then m - 3 else m + 9) + 2) / 5 + d - 719469.
Proof.
  intros Hm. unfold zone_days_from_civil, year_start. cbv zeta. set (s := y - Z.b2z (m <=? 2)).
  assert (Z.quot (if 0 <=? s then s else s - 399) 400 = s / 400) as ->.
  { destruct (Z.leb_spec 0 s); qlia. }
  pose proof (Z.div_mod s 400 ltac:(lia)). pose proof (Z.mod_pos_bound s 400 ltac:(lia)).
  replace (s - s / 400 * 400) with (s mod 400) by lia. rewrite !(Z.quot_div_nonneg (s mod 400)) by lia.
  rewrite Z.quot_div_nonneg by (destruct (Z.ltb_spec 2 m); lia). lia.
Qed.

Definition year_of (doe : Z) : Z := (doe - doe / 1460 + doe / 36524 - doe / 146096) / 365.
Lemma year_of_ok doe : 0 <= doe < 146097 ->
  0 <= year_of doe < 400 /\ year_start (year_of doe) <= doe /\ (year_of doe < 399 -> doe < year_start (year_of doe + 1)).
Proof.
  intros H. unfold year_of, year_start.
  assert (doe = 146096 \/ doe < 146096) as [->|H1] by lia.
  { vm_compute. split; [split; [discriminate|reflexivity]|split; discriminate]. }
  rewrite (Z.div_small doe 146096) by lia.
  assert (doe / 36524 = 0 \/ doe / 36524 = 1 \/ doe / 36524 = 2 \/ doe / 36524 = 3) as Hc by dlia.
  repeat split; dlia.
Qed.
Lemma year_of_unique doe yoe : 0 <= doe < 146097 -> 0 <= yoe < 400 -> year_start yoe <= doe ->
  (yoe < 399 -> doe < year_start (yoe + 1)) -> year_of doe = yoe.
Proof.
  intros Hd Hy H1 H2. destruct (year_of_ok doe Hd) as (Hy' & H1' & H2'). set (w := year_of doe) in *. clearbody w.
  assert (forall a b, 0 <= a < b -> year_start (a + 1) <= year_start b) as Hmono.
  { intros a b Hab. unfold year_start. dlia. }
  destruct (Z.lt_trichotomy w yoe) as [Hlt|[->|Hlt]]; [|done|].
  - specialize (Hmono w yoe ltac:(lia)). lia.
  - specialize (Hmono yoe w ltac:(lia)). lia.
Qed.

Lemma civil_floor z :
  zone_civil_from_days z =
    let z := z + 719468 in
    let doe := z mod 146097 in
    let yoe := year_of doe in
    let doy := doe - year_start yoe in
    let mp := (5 * doy + 2) / 153 in
    let m := if mp <? 10 then mp + 3 else mp - 9 in
    (yoe + z / 146097 * 400 + Z.b2z (m <=? 2), m, doy - (153 * mp + 2) / 5 + 1).
Proof.
  unfold zone_civil_from_days. cbv zeta. set (t := z + 719468).
  assert (Z.quot (if 0 <=? t then t else t - 146096) 146097 = t / 146097) as ->.
  { destruct (Z.leb_spec 0 t); qlia. }
  pose proof (Z.div_mod t 146097 ltac:(lia)). pose proof (Z.mod_pos_bound t 146097 ltac:(lia)) as Hd.
  replace (t - t / 146097 * 146097) with (t mod 146097) by lia. set (doe := t mod 146097) in *. clearbody doe.
  destruct (year_of_ok doe Hd) as (Hy & Hs & _).
  assert (Z.quot (doe - Z.quot doe 1460 + Z.quot doe 36524 - Z.quot doe 146096) 365 = year_of doe) as ->.
  { unfold year_of. rewrite !(Z.quot_div_nonneg doe) by lia. apply Z.quot_div_nonneg; dlia. }
  rewrite !(Z.quot_div_nonneg (year_of doe)) by lia. fold (year_start (year_of doe)).
  set (doy := doe - year_start (year_of doe)) in *. assert (0 <= doy) as Hdoy by lia. clearbody doy.
  rewrite (Z.quot_div_nonneg (5 * doy + 2)) by lia.
  rewrite (Z.quot_div_nonneg (153 * ((5 * doy + 2) / 153) + 2)) by dlia. reflexivity.
Qed.

Definition march (y : Z) : Z := y / 400 * 146097 + year_start (y mod 400).
Lemma leap_spec y : leap y = true <-> y mod 4 = 0 /\ (y mod 100 <> 0 \/ y mod 400 = 0).
Proof. unfold leap. rewrite andb_true_iff, orb_true_iff, negb_true_iff, !Z.eqb_eq, Z.eqb_neq. tauto. Qed.
Lemma leap_cases y : (leap y = true /\ y mod 4 = 0 /\ (y mod 100 <> 0 \/ y mod 400 = 0)) \/
  (leap y = false /\ (y mod 4 <> 0 \/ y mod 100 = 0 /\ y mod 400 <> 0)).
Proof. pose proof (leap_spec y) as H. destruct (leap y); [left; tauto|right]. split; [done|]. lia. Qed.
Lemma march_next y : march y = march (y - 1) + 365 + Z.b2z (leap y).
Proof.
  unfold march, year_start.
  assert (exists e r, y = 400 * e + r /\ 0 <= r < 400) as (e & r & -> & Hr).
  { exists (y / 400), (y mod 400). split; [apply Z.div_mod; lia|apply Z.mod_pos_bound; lia]. }
  assert ((400 * e + r) / 400 = e /\ (400 * e + r) mod 400 = r) as [-> ->] by dlia.
  assert ((r = 0 /\ (400 * e + r - 1) / 400 = e - 1 /\ (400 * e + r - 1) mod 400 = 399) \/
          (0 < r /\ (400 * e + r - 1) / 400 = e /\ (400 * e + r - 1) mod 400 = r - 1)) as [(-> & -> & ->)|(Hr0 & -> & ->)] by dlia.
  - assert (leap (400 * e + 0) = true) as -> by (apply leap_spec; dlia). change (Z.b2z true) with 1. dlia.
  - destruct (leap_cases (400 * e + r)) as [[-> H]|[-> H]]; cbn [Z.b2z]; dlia.
Qed.
Lemma leap_era y e : leap (y + e * 400) = leap y.
Proof. pose proof (leap_cases y). pose proof (leap_cases (y + e * 400)). destruct (leap y), (leap (y + e * 400)); (done || exfalso; dlia). Qed.
Lemma year_length yoe : 0 <= yoe < 400 ->
  (if yoe =? 399 then 146097 else year_start (yoe + 1)) = year_start yoe + 365 + Z.b2z (leap (yoe + 1)).
Proof.
  intros Hy. pose proof (march_next (yoe + 1)) as H. unfold march in H. rewrite Z.add_simpl_r in H.
  rewrite (Z.div_small yoe), (Z.mod_small yoe) in H by lia. destruct (Z.eqb_spec yoe 399) as [->|]; [vm_compute; reflexivity|].
  rewrite (Z.div_small (yoe + 1)), (Z.mod_small (yoe + 1)) in H by lia. lia.
Qed.

(** The months of a year that starts in March, [doy] its days: both ways, and how long
    each is but for the last one, February. *)
Definition month_of (doy : Z) : Z := let mp := (5 * doy + 2) / 153 in if mp <? 10 then mp + 3 else mp - 9.
Definition day_of (doy : Z) : Z := doy - (153 * ((5 * doy + 2) / 153) + 2) / 5 + 1.
Definition doy_of (m d : Z) : Z := (153 * (if 2 <? m then m - 3 else m + 9) + 2) / 5 + d - 1.
Definition long_month (m : Z) : Z := if m =? 2 then 29 else month_days 1 m.

Lemma months_there doy : 0 <= doy <= 365 ->
  1 <= month_of doy <= 12 /\ 1 <= day_of doy <= long_month (month_of doy) /\
  (month_of doy = 2 -> day_of doy = 29 -> doy = 365) /\ doy_of (month_of doy) (day_of doy) = doy.
Proof.
  intros H. assert (forallb (fun doy => let m := month_of doy in let d := day_of doy in
    (1 <=? m) && (m <=? 12) && (1 <=? d) && (d <=? long_month m) && (doy_of m d =? doy) &&
    (negb ((m =? 2) && (d =? 29)) || (doy =? 365))) (seqZ 0 366) = true) as Hall by (vm_compute; reflexivity).
  rewrite forallb_forall in Hall. specialize (Hall doy). cbv zeta in Hall.
  assert (In doy (seqZ 0 366)) as Hin by (apply list_elem_of_In, elem_of_seqZ; lia). specialize (Hall Hin).
  rewrite !andb_true_iff, orb_true_iff, negb_true_iff, andb_false_iff in Hall. lia.
Qed.
Lemma months_back m d : 1 <= m <= 12 -> 1 <= d <= long_month m ->
  month_of (doy_of m d) = m /\ day_of (doy_of m d) = d /\ 0 <= doy_of m d <= 365 /\ (doy_of m d = 365 -> m = 2 /\ d = 29).
Proof.
  intros Hm Hd. assert (long_month m <= 31) as H31.
  { unfold long_month, month_days. destruct (m =? 2); [lia|]. destruct (existsb _ _); lia. }
  assert (forallb (fun m => forallb (fun d => negb (d <=? long_month m) ||
    ((month_of (doy_of m d) =? m) && (day_of (doy_of m d) =? d) && (0 <=? doy_of m d) && (doy_of m d <=? 365) &&
     (negb (doy_of m d =? 365) || ((m =? 2) && (d =? 29))))) (seqZ 1 31)) (seqZ 1 12) = true) as Hall by (vm_compute; reflexivity).
  rewrite forallb_forall in Hall. specialize (Hall m ltac:(apply list_elem_of_In, elem_of_seqZ; lia)).
  rewrite forallb_forall in Hall. specialize (Hall d ltac:(apply list_elem_of_In, elem_of_seqZ; lia)).
  rewrite (proj2 (Z.leb_le _ _)) in Hall by lia. cbn [negb orb] in Hall.
  rewrite !andb_true_iff, orb_true_iff, negb_true_iff, andb_true_iff in Hall. lia.
Qed.
Lemma month_days_long y m : month_days y m = long_month m - Z.b2z ((m =? 2) && negb (leap y)).
Proof. unfold long_month, month_days. destruct (m =? 2); [|cbn; lia]. by destruct (leap y). Qed.

Lemma days_march y m d : 1 <= m <= 12 ->
  zone_days_from_civil y m d = march (y - Z.b2z (m <=? 2)) + doy_of m d - 719468.
Proof. intros Hm. rewrite days_floor by done. unfold march, doy_of. cbv zeta. lia. Qed.

(** A day is a valid date, and the date is that day. *)
Lemma civil_ok z : valid_date (zone_civil_from_days z) /\
  let '(y, m, d) := zone_civil_from_days z in zone_days_from_civil y m d = z.
Proof.
  rewrite civil_floor. cbv zeta. set (t := z + 719468).
  pose proof (Z.div_mod t 146097 ltac:(lia)) as Ht. pose proof (Z.mod_pos_bound t 146097 ltac:(lia)) as Hd.
  set (doe := t mod 146097) in *. clearbody doe. destruct (year_of_ok doe Hd) as (Hy & Hs & He).
  set (yoe := year_of doe) in *. clearbody yoe. pose proof (year_length yoe Hy) as Hl.
  set (doy := doe - year_start yoe) in *.
  assert (0 <= doy <= 364 + Z.b2z (leap (yoe + 1))) as Hdoy.
  { subst doy. destruct (Z.eqb_spec yoe 399); [lia|]. specialize (He ltac:(lia)). lia. }
  assert (doy <= 365) as H365 by (destruct (leap (yoe + 1)); cbn in Hdoy; lia).
  destruct (months_there doy ltac:(lia)) as (Hm & Hday & Hfeb & Hdoy').
  fold (month_of doy). fold (day_of doy). set (m := month_of doy) in *. set (d := day_of doy) in *.
  set (y := yoe + t / 146097 * 400 + Z.b2z (m <=? 2)). split.
  - split; [done|]. split; [lia|]. rewrite month_days_long. destruct (Z.eqb_spec m 2) as [E|_]; [|cbn; lia].
    destruct (leap y) eqn:El; [cbn; lia|]. cbn [andb negb Z.b2z].
    assert (leap (yoe + 1) = false) as Hlf.
    { rewrite <- El. subst y. rewrite E. cbn [Z.leb Z.compare Z.b2z Pos.compare Pos.compare_cont].
      rewrite <- (leap_era (yoe + 1) (t / 146097)). f_equal. lia. }
    rewrite Hlf in Hdoy. cbn in Hdoy. rewrite E in Hday |- *. change (long_month 2) with 29 in *. destruct (Z.eq_dec d 29); [|lia].
    specialize (Hfeb E ltac:(lia)). lia.
  - rewrite days_march, Hdoy' by done. replace (y - Z.b2z (m <=? 2)) with (yoe + t / 146097 * 400) by (subst y; lia).
    unfold march. rewrite Z.div_add, Z.mod_add, (Z.div_small yoe), (Z.mod_small yoe) by lia. subst doy. lia.
Qed.

(** The day of a valid date is that date. *)
Lemma days_ok y m d : valid_date (y, m, d) -> zone_civil_from_days (zone_days_from_civil y m d) = (y, m, d).
Proof.
  intros (Hm & Hd). rewrite month_days_long in Hd.
  destruct (months_back m d Hm ltac:(destruct (_ && _); cbn in Hd; lia)) as (Em & Ed & Hdoy & H365).
  rewrite civil_floor, days_march by done. cbv zeta. set (s := y - Z.b2z (m <=? 2)).
  pose proof (Z.div_mod s 400 ltac:(lia)) as Hs. pose proof (Z.mod_pos_bound s 400 ltac:(lia)) as Hyoe.
  unfold march. set (yoe := s mod 400) in *. set (e := s / 400) in *. clearbody yoe e.
  set (doy := doy_of m d) in *. clearbody doy.
  pose proof (year_length yoe Hyoe) as Hl.
  assert (doy <= 364 + Z.b2z (leap (yoe + 1))) as Hle.
  { destruct (leap (yoe + 1)) eqn:El; cbn; [lia|]. destruct (Z.eq_dec doy 365) as [E|]; [|lia]. destruct (H365 E) as [-> ->].
    exfalso. assert (leap y = false) as Hf; [|rewrite Hf in Hd; cbn in Hd; lia].
    rewrite <- El, <- (leap_era (yoe + 1) e). f_equal. subst s. cbn in Hs. lia. }
  assert (0 <= year_start yoe) as H0 by (unfold year_start; dlia).
  assert (year_start yoe <= 145731) as H1 by (unfold year_start; dlia).
  replace (e * 146097 + year_start yoe + doy - 719468 + 719468) with (year_start yoe + doy + e * 146097) by lia.
  rewrite Z.div_add, Z.mod_add by lia.
  assert (year_start yoe + doy < 146097) as Hlt by (destruct (Z.eqb_spec yoe 399); [lia|]; destruct (leap (yoe + 1)); cbn in *; lia).
  rewrite (Z.div_small (_ + _)), (Z.mod_small (_ + _)) by lia.
  rewrite (year_of_unique _ yoe); [|lia|done|lia|intros H; destruct (Z.eqb_spec yoe 399); lia].
  replace (year_start yoe + doy - year_start yoe) with doy by lia. fold (month_of doy). fold (day_of doy).
  rewrite Em, Ed. f_equal. f_equal. subst s. lia.
Qed.

Lemma month_step m : 1 <= m < 12 -> doy_of (m + 1) 1 = if m =? 2 then 0 else doy_of m (long_month m) + 1.
Proof.
  intros Hm. assert (forallb (fun m => doy_of (m + 1) 1 =? if m =? 2 then 0 else doy_of m (long_month m) + 1) (seqZ 1 11) = true) as H
    by (vm_compute; reflexivity).
  rewrite forallb_forall in H. apply Z.eqb_eq, H, list_elem_of_In, elem_of_seqZ. lia.
Qed.
(** The date after a valid date is the day after. *)
Lemma next_day_ok y m d : valid_date (y, m, d) ->
  let '(y', m', d') := next_day (y, m, d) in zone_days_from_civil y' m' d' = zone_days_from_civil y m d + 1.
Proof.
  intros (Hm & Hd). unfold next_day. destruct (Z.ltb_spec d (month_days y m)) as [Hlt|Hge].
  { rewrite !days_march by done. unfold doy_of. lia. }
  assert (d = month_days y m) as -> by lia. clear Hd Hge. pose proof (march_next y) as Hn.
  destruct (Z.ltb_spec m 12).
  - rewrite !days_march, month_step, month_days_long by lia. destruct (Z.eqb_spec m 2) as [->|]; cbn [andb].
    + change (2 + 1 <=? 2) with false. change (2 <=? 2) with true. unfold doy_of. change (long_month 2) with 29.
      rewrite Z.sub_0_r. destruct (leap y); cbn -[march] in *; change ((153 * (2 + 9) + 2) / 5) with 337; lia.
    + assert ((m + 1 <=? 2) = (m <=? 2)) as -> by (destruct (Z.leb_spec (m + 1) 2), (Z.leb_spec m 2); lia). cbn [Z.b2z]. rewrite Z.sub_0_r. lia.
  - assert (m = 12) as -> by lia. rewrite !days_march by lia. unfold doy_of, month_days. cbn -[march leap].
    rewrite Z.sub_0_r, Z.add_simpl_r.
    change ((153 * (1 + 9) + 2) / 5) with 306. change ((153 * (12 - 3) + 2) / 5) with 275. lia.
Qed.
Lemma civil_next z : zone_civil_from_days (z + 1) = next_day (zone_civil_from_days z).
Proof.
  destruct (civil_ok z) as [Hv Hz]. destruct (zone_civil_from_days z) as [[y m] d] eqn:E.
  pose proof (next_day_ok y m d Hv) as Hn. rewrite Hz in Hn. destruct (next_day (y, m, d)) as [[y' m'] d'] eqn:En.
  rewrite <- Hn. apply days_ok. destruct Hv as [Hm Hd]. unfold next_day in En.
  assert (forall y m, 1 <= month_days y m) as Hpos.
  { intros y0 m0. unfold month_days. repeat case_match; lia. }
  destruct (Z.ltb_spec d (month_days y m)); [injection En as <- <- <-; split; lia|].
  specialize (Hpos y' m'). destruct (Z.ltb_spec m 12); injection En as <- <- <-; split; lia.
Qed.

(** ** Moments *)

Lemma zone_day_of_floor t : zone_day_of t = t / 86400.
Proof. unfold zone_day_of. destruct (Z.ltb_spec (Z.rem t 86400) 0); qlia. Qed.
Lemma zone_weekday_floor day : zone_weekday day = (day + 4) mod 7.
Proof. unfold zone_weekday. destruct (Z.ltb_spec (Z.rem (day + 4) 7) 0); qlia. Qed.

(** Moments whose year the record can hold: the years 0 to 2{^32}-1. *)
Definition year_fits (t : Z) : Prop := is_u32 (fst (fst (zone_civil_from_days (zone_day_of t)))).
(** A date and time as [rtc_time_t] says it is. *)
Definition time_ok (t : rtc_time_t) : Prop :=
  valid_date (year t, month t, day t) /\ 0 <= hour t < 24 /\ 0 <= minute t < 60 /\ 0 <= second t < 60 /\ 0 <= weekday t < 7.

Lemma month_days_31 y m : month_days y m <= 31.
Proof. unfold month_days. repeat case_match; lia. Qed.
Lemma civil_fields t : year_fits t ->
  civil t =
    let '(y, m, d) := zone_civil_from_days (t / 86400) in
    Rtc y m d (t mod 86400 / 3600) (t mod 86400 / 60 mod 60) (t mod 86400 mod 60) (zone_weekday (t / 86400)).
Proof.
  unfold year_fits, civil. rewrite zone_day_of_floor. intros Hy.
  replace (t - t / 86400 * 86400) with (t mod 86400) by dlia. rewrite ?zone_weekday_floor.
  pose proof (Z.mod_pos_bound t 86400 ltac:(lia)) as Hr. set (rest := t mod 86400) in *. clearbody rest.
  destruct (civil_ok (t / 86400)) as [Hv _]. destruct (zone_civil_from_days (t / 86400)) as [[y m] d]. cbn [fst] in Hy.
  destruct Hv as [Hm Hd]. pose proof (month_days_31 y m). rewrite !(Z.quot_div_nonneg rest), !Z.rem_mod_nonneg by dlia.
  assert (u32 y = y) as -> by (unfold u32; apply Z.mod_small; exact Hy). unfold u8. rewrite !(Z.mod_small _ 256) by dlia.
  reflexivity.
Qed.

Lemma civil_time_ok t : year_fits t -> time_ok (civil t) /\ zone_utc_of (civil t) = t.
Proof.
  intros Hy. rewrite civil_fields by done. destruct (civil_ok (t / 86400)) as [Hv Hz].
  destruct (zone_civil_from_days (t / 86400)) as [[y m] d]. unfold time_ok, zone_utc_of.
  cbn [year month day hour minute second weekday]. rewrite Hz, zone_weekday_floor.
  split; [split; [exact Hv|]; repeat split; dlia|]. dlia.
Qed.

(** ** Sundays *)

Lemma last_week_ok fuel day len : 0 <= day < len -> len <= day + 7 * Z.of_nat fuel + 7 ->
  let r := last_week fuel day len in len - 7 <= r < len /\ exists k, r = day + 7 * k.
Proof.
  revert day. induction fuel as [|fuel IH]; intros day Hd Hl; cbn [last_week]; cbv zeta.
  - split; [lia|]. exists 0. lia.
  - destruct (Z.ltb_spec (day + 7) len).
    + destruct (IH (day + 7) ltac:(lia) ltac:(lia)) as [H1 [k H2]]. split; [exact H1|]. exists (k + 1). lia.
    + split; [lia|]. exists 0. lia.
Qed.

Lemma days_in_month y m d : 1 <= m <= 12 -> zone_days_from_civil y m d = zone_days_from_civil y m 1 + (d - 1).
Proof. intros Hm. rewrite !days_march by done. unfold doy_of. lia. Qed.
Lemma month_days_pos y m : 28 <= month_days y m <= 31.
Proof. unfold month_days. repeat case_match; lia. Qed.
Lemma month_length y m : 1 <= m <= 12 ->
  zone_days_from_civil (if m =? 12 then y + 1 else y) (if m =? 12 then 1 else m + 1) 1 - zone_days_from_civil y m 1 = month_days y m.
Proof.
  intros Hm. pose proof (month_days_pos y m) as Hp. pose proof (next_day_ok y m (month_days y m)) as H.
  unfold next_day in H. rewrite Z.ltb_irrefl in H. assert (valid_date (y, m, month_days y m)) as Hv by (split; lia).
  specialize (H Hv). rewrite (days_in_month y m (month_days y m)) in H by done.
  destruct (Z.eqb_spec m 12), (Z.ltb_spec m 12); lia.
Qed.

Lemma zone_sunday_ok y m nth hour off : 1 <= m <= 12 -> 0 <= nth <= 4 ->
  exists d, zone_sunday y m nth hour off = zone_days_from_civil y m d * 86400 + hour * 3600 - off * 60 /\
    zone_weekday (zone_days_from_civil y m d) = 0 /\ valid_date (y, m, d) /\
    (if nth =? 0 then month_days y m - 7 < d else 7 * (nth - 1) < d <= 7 * nth).
Proof.
  intros Hm Hn. unfold zone_sunday. cbv zeta. rewrite month_length by done. pose proof (month_days_pos y m) as Hp.
  rewrite !zone_weekday_floor. set (first := zone_days_from_civil y m 1).
  assert (Z.rem (7 - (first + 4) mod 7) 7 = (- (first + 4)) mod 7) as -> by qlia.
  set (day := (- (first + 4)) mod 7). assert (0 <= day < 7 /\ (first + day + 4) mod 7 = 0) as [Hd Hs] by (subst day; dlia).
  clearbody day.
  assert (forall r k, r = day + 7 * k -> 0 <= r < month_days y m -> (if nth =? 0 then month_days y m - 7 <= r else 7 * (nth - 1) <= r < 7 * nth) ->
    exists d, (first + r) * 86400 + hour * 3600 - off * 60 = zone_days_from_civil y m d * 86400 + hour * 3600 - off * 60 /\
    zone_weekday (zone_days_from_civil y m d) = 0 /\ valid_date (y, m, d) /\
    (if nth =? 0 then month_days y m - 7 < d else 7 * (nth - 1) < d <= 7 * nth)) as Hfin.
  { intros r k -> Hr Hb. exists (day + 7 * k + 1). rewrite zone_weekday_floor, days_in_month by done. fold first.
    split; [lia|]. split; [dlia|]. split; [split; lia|]. destruct (nth =? 0); lia. }
  destruct (Z.ltb_spec 0 nth).
  - apply (Hfin _ (nth - 1)); [lia..|]. destruct (Z.eqb_spec nth 0); lia.
  - destruct (last_week_ok 5 day (month_days y m) ltac:(lia) ltac:(lia)) as [H1 [k H2]].
    apply (Hfin _ k); [exact H2|lia|]. destruct (Z.eqb_spec nth 0); lia.
Qed.

(** ** Properties *)

(** C32: The calendar is the Gregorian one, and its two directions are inverse: day
    nought is the first of January 1970, the date of each next day is the day after the
    date, every date is the date of its day and every day the day of its date. *)
Theorem zone_calendar :
  zone_civil_from_days 0 = (1970, 1, 1) /\
  (forall z, zone_civil_from_days (z + 1) = next_day (zone_civil_from_days z)) /\
  (forall z, let '(y, m, d) := zone_civil_from_days z in zone_days_from_civil y m d = z) /\
  (forall y m d, valid_date (y, m, d) -> zone_civil_from_days (zone_days_from_civil y m d) = (y, m, d)).
Proof.
  split; [reflexivity|]. split; [apply civil_next|]. split; [|apply days_ok]. intros z. apply civil_ok.
Qed.
Lemma zone_calendar_witness :
  valid_date (2000, 2, 29) /\ zone_days_from_civil 2000 2 29 = 11016 /\ zone_civil_from_days (zone_days_from_civil 2000 2 29) = (2000, 2, 29) /\
  zone_civil_from_days (11016 + 1) = (2000, 3, 1).
Proof.
  assert (valid_date (2000, 2, 29)) as Hv by (split; split; discriminate).
  split; [exact Hv|]. split; [reflexivity|]. split; [exact (proj2 (proj2 (proj2 zone_calendar)) 2000 2 29 Hv)|].
  rewrite (proj1 (proj2 zone_calendar)). reflexivity.
Defined.

(** The Sunday a rule names is a Sunday, in the week of the month it says or in
    the last seven days of it, and the moment is the hour asked for on that day on a clock
    that far from UTC. *)
Theorem zone_sunday_is_that_sunday (y m nth hour off : Z) (Hm : 1 <= m <= 12) (Hn : 0 <= nth <= 4) (Hh : 0 <= hour < 24) :
  let local := zone_sunday y m nth hour off + off * 60 in
  let day := zone_day_of local in
  let '(y', m', d) := zone_civil_from_days day in
  y' = y /\ m' = m /\ zone_weekday day = 0 /\ local = day * 86400 + hour * 3600 /\
  (if nth =? 0 then month_days y m - 7 < d else 7 * (nth - 1) < d <= 7 * nth).
Proof.
  cbv zeta. destruct (zone_sunday_ok y m nth hour off Hm Hn) as (d & -> & Hs & Hv & Hd).
  replace (_ - off * 60 + off * 60) with (zone_days_from_civil y m d * 86400 + hour * 3600) by lia.
  rewrite zone_day_of_floor. replace ((zone_days_from_civil y m d * 86400 + hour * 3600) / 86400) with (zone_days_from_civil y m d) by dlia.
  by rewrite days_ok.
Qed.
Lemma zone_sunday_is_that_sunday_witness :
  zone_civil_from_days (zone_day_of (zone_sunday 2026 3 0 1 0 + 0 * 60)) = (2026, 3, 29) /\ month_days 2026 3 - 7 < 29.
Proof.
  pose proof (zone_sunday_is_that_sunday 2026 3 0 1 0 ltac:(split; discriminate) ltac:(split; discriminate) ltac:(split; [discriminate|reflexivity])) as H.
  vm_compute in H. split; [reflexivity|]. apply H.
Defined.

(** A moment as the zone set has it is well formed: both its wall clock and its
    UTC time are dates of the calendar and times of day, and taken as UTC they are the
    moment that many minutes on, and the moment; the offset is the zone's, or an hour
    more in its summer. *)
Theorem zone_at_well_formed (st : zone_state) (t : Z) (Hu : year_fits t) (Hl : year_fits (t + offset (zone_at st t) * 60)) :
  let a := zone_at st t in
  time_ok (local a) /\ time_ok (at_utc a) /\ zone_utc_of (at_utc a) = t /\ zone_utc_of (local a) = t + offset a * 60 /\
  offset a = z_offset (current_zone st) + (if summer a then 60 else 0) /\ summer a = zone_in_summer (current_zone st) t.
Proof.
  cbv zeta. unfold zone_at in *. cbn [local at_utc offset summer utc] in *.
  destruct (civil_time_ok _ Hu) as [H1 H2]. destruct (civil_time_ok _ Hl) as [H3 H4].
  do 4 (split; [done|]). unfold zone_offset_at. destruct (zone_in_summer (current_zone st) t).
  - rewrite (proj2 (Z.eqb_neq _ _)) by lia. done.
  - rewrite (proj2 (Z.eqb_eq _ _)) by lia. done.
Qed.
Lemma zone_at_well_formed_witness :
  let a := zone_at (ZState 1 (-1) 0) 1700000000 in
  local a = Rtc 2023 11 14 17 13 20 2 /\ time_ok (local a) /\ zone_utc_of (local a) = 1700000000 - 300 * 60.
Proof.
  destruct (zone_at_well_formed (ZState 1 (-1) 0) 1700000000) as (H1 & _ & _ & H2 & _).
  - vm_compute. split; [discriminate|reflexivity].
  - vm_compute. split; [discriminate|reflexivity].
  - split; [vm_compute; reflexivity|]. split; [exact H1|exact H2].
Defined.

(** A clock chip read back gives the moment it showed, whether it keeps UTC or
    the zone's wall clock, but for the hour after summer ends: its wall clock readings are
    those of the hour before, which is the moment they give. *)
Theorem zone_reading_read_back (st : zone_state) (t : Z) (Hu : year_fits t) (Hl : year_fits (t + offset (zone_at st t) * 60)) :
  let z := current_zone st in
  let again := negb (zone_in_summer z t) && zone_in_summer z (t - 3600) in
  zone_from_reading st false (at_utc (zone_at st t)) = zone_at st (t + adjust st) /\
  zone_from_reading st true (local (zone_at st t)) = zone_at st ((if again then t - 3600 else t) + adjust st).
Proof.
  cbv zeta. unfold zone_at at 1 3. cbn [at_utc local]. unfold zone_at in Hl. cbn [offset] in Hl.
  unfold zone_from_reading. rewrite (proj2 (civil_time_ok _ Hu)), (proj2 (civil_time_ok _ Hl)).
  split; [done|]. f_equal. f_equal.
  set (z := current_zone st). unfold zone_offset_at. destruct (zone_in_summer z t) eqn:E.
  - replace (t + (z_offset z + 60) * 60 - (z_offset z + 60) * 60) with t by lia. rewrite E, Z.eqb_refl.
    cbn [negb andb]. unfold zone_in_summer in E. destruct (zone_civil_from_days _) as [[y m] d].
    by destruct (z_rule z).
  - replace (t + (z_offset z + 0) * 60 - (z_offset z + 60) * 60) with (t - 3600) by lia. cbn [negb andb].
    replace (t + (z_offset z + 0) * 60 - z_offset z * 60) with t by lia.
    destruct (zone_in_summer z (t - 3600)) eqn:E2.
    + rewrite Z.eqb_refl. unfold zone_in_summer in E2. destruct (zone_civil_from_days (zone_day_of (t - 3600))) as [[y m] d].
      by destruct (z_rule z).
    + rewrite (proj2 (Z.eqb_neq (z_offset z + 0) _)) by lia. by rewrite andb_false_r.
Qed.
(** London, half an hour before its clocks go back in 2026 and half an hour after. *)
Lemma zone_reading_read_back_witness :
  let st := ZState 19 (-1) 0 in
  zone_from_reading st true (local (zone_at st 1792888200)) = zone_at st 1792888200 /\
  zone_from_reading st true (local (zone_at st 1792891800)) = zone_at st 1792888200 /\
  local (zone_at st 1792888200) = local (zone_at st 1792891800).
Proof.
  cbv zeta. split; [|split].
  - apply (zone_reading_read_back (ZState 19 (-1) 0) 1792888200); (vm_compute; split; [discriminate|reflexivity]).
  - apply (zone_reading_read_back (ZState 19 (-1) 0) 1792891800); (vm_compute; split; [discriminate|reflexivity]).
  - vm_compute. reflexivity.
Defined.

(** ** Names and offsets as text *)

(** A zone's name finds it, whatever the case. *)
Fixpoint upper (s : string) : string :=
  match s with
  | EmptyString => EmptyString
  | String c s => String (if (97 <=? Z.of_N (N_of_ascii c)) && (Z.of_N (N_of_ascii c) <=? 122) then ascii_of_N (N_of_ascii c - 32) else c) (upper s)
  end.
Lemma names_found i : 0 <= i < zone_count ->
  exists name, zone_name_at i = Some name /\ zone_find name = i /\ zone_find (upper name) = i.
Proof.
  intros Hi. assert (forallb (fun i => match zone_name_at i with
    | Some name => (zone_find name =? i) && (zone_find (upper name) =? i) | None => false end) (seqZ 0 zone_count) = true) as H
    by (vm_compute; reflexivity).
  rewrite forallb_forall in H. specialize (H i ltac:(apply list_elem_of_In, elem_of_seqZ; lia)).
  destruct (zone_name_at i) as [name|]; [|done]. apply andb_true_iff in H as [H1 H2]. exists name.
  split; [done|]. split; by apply Z.eqb_eq.
Qed.
Lemma zone_set_keeps st name : zone_find name < 0 -> zone_set st name = (false, st).
Proof. intros H. unfold zone_set. by rewrite (proj2 (Z.ltb_lt _ _)). Qed.

Example offset_newfoundland : zone_offset_text (-210) (Some (replicate 12 7)) 12 = Some (Some (fmt "UTC-3:30" ++ [7; 7; 7]), 8).
Proof. reflexivity. Qed.
