(* ===== verification/X509.v ===== *)
(** Certificates (kernel/x509.c, include/x509.h): reading one, checking a signature and a name
    by it, and the chain a server sends against the store of kernel/roots.c. A certificate is
    the bytes of its buffer, and what was read of it are offsets into them. *)
From S2P Require Import Prelude Sha256 Sha512 Rsa Ec Rtc Zone.

(** What a function that reads a stranger's bytes comes to: an answer, false, or a read
    outside the buffer (which a loop that does not end counts as). *)
Inductive read (A : Type) := Reads (x : A) | Refused | Outside.
#[global] Arguments Reads {A} _.
#[global] Arguments Refused {A}.
#[global] Arguments Outside {A}.
#[export] Instance read_bind : MBind read := fun A B f r =>
  match r with Reads x => f x | Refused => Refused | Outside => Outside end.
Definition accept (b : bool) : read unit := if b then Reads tt else Refused.
(** What came of a call whose failure its caller looks at. *)
Definition attempt {A} (r : read A) : read (option A) :=
  match r with Reads x => Reads (Some x) | Refused => Reads None | Outside => Outside end.
Definition truth (r : read unit) : read bool := o ← attempt r; Reads (match o with Some _ => true | None => false end).

(** Where in a buffer, and how many bytes. *)
Definition view : Type := Z * Z.

(** ** DER *)

Record der_t := Der { p : Z; end_ : Z }.
Definition der_init (v : view) : der_t := Der v.1 (v.1 + v.2).
Definition der_done (d : der_t) : bool := end_ d <=? p d.

Definition DER_INT := 0x02.
Definition DER_BITS := 0x03.
Definition DER_OCTET := 0x04.
Definition DER_OID := 0x06.
Definition DER_SEQ := 0x30.
Definition DER_UTC := 0x17.
Definition DER_GEN := 0x18.
Definition DER_BOOL := 0x01.

Section Reading.
Context (buf : list Z).

Definition byte (i : Z) : read Z := if (0 <=? i) && (i <? zlen buf) then Reads buf.[i] else Outside.
Definition slice (v : view) : read (list Z) :=
  if v.2 =? 0 then Reads [] else
  if (0 <=? v.1) && (v.1 + v.2 <=? zlen buf) then Reads (take (Z.to_nat v.2) (drop (Z.to_nat v.1) buf)) else Outside.

(** [n] more bytes of a number, the high ones first, in 32 bits. *)
Fixpoint number (n : nat) (acc at_ : Z) : read Z :=
  match n with
  | O => Reads acc
  | S n => b ← byte at_; number n (u32 (acc .<< 8) .| b) (at_ + 1)
  end.

(** One element: the reader after it, its tag and its content. *)
Definition der_read (d : der_t) : read (der_t * (Z * view)) :=
  if end_ d - p d <? 2 then Refused else
  tag ← byte (p d);
  n ← byte (p d + 1);
  let p := p d + 2 in
  if n =? 0x80 then Refused else
  '(n, p) ←
    (if n .& 0x80 =? 0 then Reads (n, p) else
     let count := n .& 0x7f in
     if 4 <? count then Refused else
     if u32 (end_ d - p) <? count then Refused else
     n ← number (Z.to_nat count) 0 p;
     if (count =? 1) && (n <? 0x80) then Refused else Reads (n, p + count));
  if u32 (end_ d - p) <? n then Refused else
  Reads (Der (p + n) (end_ d), (tag, (p, n))).
Definition der_expect (d : der_t) (want : Z) : read (der_t * view) :=
  '(d, (tag, v)) ← der_read d; if tag =? want then Reads (d, v) else Refused.
Definition der_enter (d : der_t) (want : Z) : read (der_t * der_t) :=
  '(d, v) ← der_expect d want; Reads (d, der_init v).

Definition oid_is (v : view) (want : list Z) : read bool :=
  if v.2 =? zlen want then bs ← slice v; Reads (bool_decide (bs = want)) else Reads false.
End Reading.

Definition OID_RSA : list Z := [0x2a; 0x86; 0x48; 0x86; 0xf7; 0x0d; 0x01; 0x01; 0x01].
Definition OID_RSA_SHA256 : list Z := [0x2a; 0x86; 0x48; 0x86; 0xf7; 0x0d; 0x01; 0x01; 0x0b].
Definition OID_RSA_SHA384 : list Z := [0x2a; 0x86; 0x48; 0x86; 0xf7; 0x0d; 0x01; 0x01; 0x0c].
Definition OID_RSA_SHA512 : list Z := [0x2a; 0x86; 0x48; 0x86; 0xf7; 0x0d; 0x01; 0x01; 0x0d].
Definition OID_RSA_PSS : list Z := [0x2a; 0x86; 0x48; 0x86; 0xf7; 0x0d; 0x01; 0x01; 0x0a].
Definition OID_EC_KEY : list Z := [0x2a; 0x86; 0x48; 0xce; 0x3d; 0x02; 0x01].
Definition OID_P256 : list Z := [0x2a; 0x86; 0x48; 0xce; 0x3d; 0x03; 0x01; 0x07].
Definition OID_P384 : list Z := [0x2b; 0x81; 0x04; 0x00; 0x22].
Definition OID_ECDSA_SHA256 : list Z := [0x2a; 0x86; 0x48; 0xce; 0x3d; 0x04; 0x03; 0x02].
Definition OID_ECDSA_SHA384 : list Z := [0x2a; 0x86; 0x48; 0xce; 0x3d; 0x04; 0x03; 0x03].
Definition OID_BASIC_CONSTRAINTS : list Z := [0x55; 0x1d; 0x13].
Definition OID_SAN : list Z := [0x55; 0x1d; 0x11].

Inductive x509_sig_t := X509_SIG_NONE | X509_SIG_RSA_SHA256 | X509_SIG_RSA_SHA384 | X509_SIG_RSA_SHA512 | X509_SIG_RSA_PSS
  | X509_SIG_ECDSA_SHA256 | X509_SIG_ECDSA_SHA384.
#[export] Instance x509_sig_eq_dec : EqDecision x509_sig_t.
Proof. solve_decision. Defined.
(** The public key, of either kind. *)
Inductive key_t := X509_KEY_RSA (rsa : rsa_key_t) | X509_KEY_EC (curve : ec_curve_t) (point : list Z).

(** What the extensions say. *)
Record exts_t := Exts { has_basic_constraints : bool; is_ca : bool; path_len : Z; san : option view }.
Definition no_exts : exts_t := Exts false false (-1) None.
Record x509_t := X509 {
  tbs : view; sig_alg : x509_sig_t; sig : view; issuer : view; subject : view; not_before : Z; not_after : Z;
  key : key_t; exts : exts_t }.

Section Parsing.
Context (buf : list Z).

Definition sig_alg_from_oid (v : view) : read x509_sig_t :=
  a ← oid_is buf v OID_RSA_SHA256; if a : bool then Reads X509_SIG_RSA_SHA256 else
  a ← oid_is buf v OID_RSA_SHA384; if a : bool then Reads X509_SIG_RSA_SHA384 else
  a ← oid_is buf v OID_RSA_SHA512; if a : bool then Reads X509_SIG_RSA_SHA512 else
  a ← oid_is buf v OID_RSA_PSS; if a : bool then Reads X509_SIG_RSA_PSS else
  a ← oid_is buf v OID_ECDSA_SHA256; if a : bool then Reads X509_SIG_ECDSA_SHA256 else
  a ← oid_is buf v OID_ECDSA_SHA384; if a : bool then Reads X509_SIG_ECDSA_SHA384 else Reads X509_SIG_NONE.

(** ** Times *)

Fixpoint digits_from (n : nat) (v at_ : Z) : read Z :=
  match n with
  | O => Reads v
  | S n => c ← byte buf at_; if (c <? 48) || (57 <? c) then Refused else digits_from n (u32 (v * 10 + (c - 48))) (at_ + 1)
  end.
Definition digits (at_ n : Z) : read Z := digits_from (Z.to_nat n) 0 at_.

Definition parse_time (tag : Z) (v : view) : read Z :=
  let '(p, len) := v in
  '(year, i) ←
    (if tag =? DER_UTC then
       if len <? 11 then Refused else
       yy ← digits p 2; Reads (if yy <? 50 then 2000 + yy else 1900 + yy, 2)
     else if tag =? DER_GEN then
       if len <? 13 then Refused else
       year ← digits p 4; Reads (year, 4)
     else Refused);
  if len <? i + 8 then Refused else
  mon ← digits (p + i) 2;
  day ← digits (p + i + 2) 2;
  hour ← digits (p + i + 4) 2;
  min ← digits (p + i + 6) 2;
  let i := i + 8 in
  sec ← (if len <? i + 2 then Reads 0 else
         c ← byte buf (p + i);
         if (48 <=? c) && (c <=? 57) then digits (p + i) 2 else Reads 0);
  if (mon <? 1) || (12 <? mon) || (day <? 1) || (31 <? day) then Refused else
  if (23 <? hour) || (59 <? min) || (60 <? sec) then Refused else
  Reads (year * 10000000000 + mon * 100000000 + day * 1000000 + hour * 10000 + min * 100 + sec).

(** ** The public key *)

(** [while (len && p[0] == 0) p++, len--]. *)
Fixpoint strip_zeros (n : nat) (at_ : Z) : read view :=
  match n with
  | O => Reads (at_, 0)
  | S n' => b ← byte buf at_; if b =? 0 then strip_zeros n' (at_ + 1) else Reads (at_, Z.of_nat n)
  end.
Definition stripped (v : view) : read view := strip_zeros (Z.to_nat v.2) v.1.

Definition parse_rsa (bits : view) : read key_t :=
  '(_, seq) ← der_enter buf (der_init bits) DER_SEQ;
  '(seq, n) ← der_expect buf seq DER_INT;
  '(seq, e) ← der_expect buf seq DER_INT;
  n ← stripped n;
  if (n.2 =? 0) || (RSA_MAX_BYTES <? n.2) then Refused else
  if n.2 <? 128 then Refused else
  e ← stripped e;
  if (e.2 =? 0) || (4 <? e.2) then Refused else
  ev ← number buf (Z.to_nat e.2) 0 e.1;
  if (ev <? 3) || (ev .& 1 =? 0) then Refused else
  nb ← slice buf n;
  Reads (X509_KEY_RSA (RsaKey (nb ++ replicate (Z.to_nat (RSA_MAX_BYTES - n.2)) 0) n.2 ev)).

Definition parse_ec (alg : der_t) (bits : view) : read key_t :=
  '(_, curve) ← der_expect buf alg DER_OID;
  p256 ← oid_is buf curve OID_P256;
  p384 ← (if p256 : bool then Reads false else oid_is buf curve OID_P384);
  if negb p256 && negb p384 then Refused else
  let curve := if p256 : bool then EC_P256 else EC_P384 in
  if negb (bits.2 =? 1 + 2 * ec_field_bytes curve) then Refused else
  b ← byte buf bits.1;
  if negb (b =? 0x04) then Refused else
  pt ← slice buf bits; Reads (X509_KEY_EC curve pt).

Definition parse_spki (v : view) : read key_t :=
  '(_, spki) ← der_enter buf (der_init v) DER_SEQ;
  '(spki, alg) ← der_enter buf spki DER_SEQ;
  '(alg, oid) ← der_expect buf alg DER_OID;
  '(_, bits) ← der_expect buf spki DER_BITS;
  if bits.2 <? 2 then Refused else
  b ← byte buf bits.1;
  if negb (b =? 0) then Refused else
  let bits := (bits.1 + 1, bits.2 - 1) in
  rsa ← oid_is buf oid OID_RSA;
  if rsa : bool then parse_rsa bits else
  ec ← oid_is buf oid OID_EC_KEY;
  if ec : bool then parse_ec alg bits else Refused.

(** ** Extensions *)

Definition parse_constraints (v : view) (sans : option view) : read exts_t :=
  '(_, inner) ← der_enter buf (der_init v) DER_SEQ;
  '(inner, ca) ←
    (if der_done inner then Reads (inner, false) else
     '(after, (t, v)) ← der_read buf inner;
     if t =? DER_BOOL then
       if v.2 =? 1 then b ← byte buf v.1; Reads (after, negb (b =? 0)) else Reads (after, false)
     else Reads (inner, false));
  len ←
    (if der_done inner then Reads (-1) else
     o ← attempt (der_expect buf inner DER_INT);
     match o with
     | Some (_, v) => if (v.2 =? 0) || (2 <? v.2) then Reads (-1) else number buf (Z.to_nat v.2) 0 v.1
     | None => Reads (-1)
     end);
  Reads (Exts true ca len sans).

Definition parse_extension (ext : der_t) (out : exts_t) : read exts_t :=
  '(ext, oid) ← der_expect buf ext DER_OID;
  '(after, (tag, v)) ← der_read buf ext;
  '(_, (tag, v)) ← der_read buf (if tag =? DER_BOOL then after else ext);
  if negb (tag =? DER_OCTET) then Refused else
  bc ← oid_is buf oid OID_BASIC_CONSTRAINTS;
  if bc : bool then parse_constraints v (san out) else
  alt ← oid_is buf oid OID_SAN;
  if alt : bool then Reads (Exts (has_basic_constraints out) (is_ca out) (path_len out) (Some v)) else Reads out.
Fixpoint extensions_from (fuel : nat) (d : der_t) (out : exts_t) : read exts_t :=
  match fuel with
  | O => Outside
  | S fuel =>
      if der_done d then Reads out else
      '(d, ext) ← der_enter buf d DER_SEQ;
      out ← parse_extension ext out;
      extensions_from fuel d out
  end.
(** An element has two bytes at least, so a reader comes to its end in as many steps as it
    has bytes. *)
Definition steps (d : der_t) : nat := S (Z.to_nat (end_ d - p d)).
Definition parse_extensions (d : der_t) (out : exts_t) : read exts_t := extensions_from (steps d) d out.

(** ** A whole certificate *)

(** The element's bytes with its header, from where the reader was. *)
Definition from_start (before after : der_t) : view := (p before, u32 (p after - p before)).

Fixpoint trailer_from (fuel : nat) (d : der_t) (out : exts_t) : read exts_t :=
  match fuel with
  | O => Outside
  | S fuel =>
      if der_done d then Reads out else
      '(d, (tag, v)) ← der_read buf d;
      if tag =? 0xa3 then
        '(_, exts) ← der_enter buf (der_init v) DER_SEQ;
        out ← parse_extensions exts out;
        trailer_from fuel d out
      else trailer_from fuel d out
  end.

(** What is signed: the serial number is stepped over, the algorithm must be the outer one. *)
Definition parse_tbs (tbs : der_t) (oid : view) : read (view * view * Z * Z * key_t * exts_t) :=
  '(after, (tag, _)) ← der_read buf tbs;
  let tbs := if negb (tag =? 0xa0) then tbs else after in
  '(tbs, _) ← der_expect buf tbs DER_INT;
  '(tbs, inner_alg) ← der_enter buf tbs DER_SEQ;
  '(_, ioid) ← der_expect buf inner_alg DER_OID;
  want ← (if ioid.2 =? oid.2 then slice buf oid else Reads []);
  same ← (if ioid.2 =? oid.2 then got ← slice buf ioid; Reads (bool_decide (got = want)) else Reads false);
  if negb same then Refused else
  let start := tbs in
  '(tbs, _) ← der_expect buf tbs DER_SEQ;
  let issuer := from_start start tbs in
  '(tbs, validity) ← der_enter buf tbs DER_SEQ;
  '(validity, (t1, v1)) ← der_read buf validity;
  '(_, (t2, v2)) ← der_read buf validity;
  not_before ← parse_time t1 v1;
  not_after ← parse_time t2 v2;
  let start := tbs in
  '(tbs, _) ← der_expect buf tbs DER_SEQ;
  let subject := from_start start tbs in
  let start := tbs in
  '(tbs, _) ← der_expect buf tbs DER_SEQ;
  key ← parse_spki (from_start start tbs);
  exts ← trailer_from (steps tbs) tbs no_exts;
  Reads (issuer, subject, not_before, not_after, key, exts).

Definition x509_parse : read x509_t :=
  '(_, cert) ← der_enter buf (der_init (0, zlen buf)) DER_SEQ;
  let start := cert in
  '(cert, tbs) ← der_enter buf cert DER_SEQ;
  let signed := from_start start cert in
  '(cert, outer_alg) ← der_enter buf cert DER_SEQ;
  '(_, oid) ← der_expect buf outer_alg DER_OID;
  alg ← sig_alg_from_oid oid;
  '(_, sig) ← der_expect buf cert DER_BITS;
  if sig.2 <? 2 then Refused else
  b ← byte buf sig.1;
  if negb (b =? 0) then Refused else
  '(issuer, subject, not_before, not_after, key, exts) ← parse_tbs tbs oid;
  Reads (X509 signed alg (sig.1 + 1, sig.2 - 1) issuer subject not_before not_after key exts).

Definition x509_ecdsa_split (v : view) : read (view * view) :=
  '(_, seq) ← der_enter buf (der_init v) DER_SEQ;
  '(seq, r) ← der_expect buf seq DER_INT;
  '(seq, s) ← der_expect buf seq DER_INT;
  if negb (der_done seq) then Refused else
  r ← stripped r;
  s ← stripped s;
  if negb (r.2 =? 0) && negb (s.2 =? 0) then Reads (r, s) else Refused.
End Parsing.

(** ** Checking a signature *)

(** A certificate: its buffer, and what was read of it. *)
Definition cert : Type := list Z * x509_t.
Definition field (f : x509_t -> view) (c : cert) : read (list Z) := slice c.1 (f c.2).

Definition hash_for (alg : x509_sig_t) (data : list Z) : read (list Z) :=
  match alg with
  | X509_SIG_RSA_SHA256 | X509_SIG_RSA_PSS | X509_SIG_ECDSA_SHA256 => Reads (sha256 data)
  | X509_SIG_RSA_SHA384 | X509_SIG_ECDSA_SHA384 => Reads (sha384 data)
  | X509_SIG_RSA_SHA512 => Reads (sha512 data)
  | X509_SIG_NONE => Refused
  end.
Definition x509_signed_by (child issuer : cert) : read unit :=
  data ← field tbs child;
  h ← hash_for (sig_alg child.2) data;
  s ← field sig child;
  match sig_alg child.2, key issuer.2 with
  | X509_SIG_RSA_SHA256, X509_KEY_RSA k | X509_SIG_RSA_SHA384, X509_KEY_RSA k | X509_SIG_RSA_SHA512, X509_KEY_RSA k =>
      accept (rsa_verify_pkcs1 k s h)
  | X509_SIG_RSA_PSS, X509_KEY_RSA k => accept (rsa_verify_pss k s h)
  | X509_SIG_ECDSA_SHA256, X509_KEY_EC curve pt | X509_SIG_ECDSA_SHA384, X509_KEY_EC curve pt =>
      '(r, t) ← x509_ecdsa_split child.1 (sig child.2);
      r ← slice child.1 r;
      t ← slice child.1 t;
      accept (ec_verify curve pt h r t)
  | _, _ => Refused
  end.

(** ** Names *)

Definition lower (c : Z) : Z := if (65 <=? c) && (c <=? 90) then c + 32 else c.
(** A host is the characters before its terminator. *)
Fixpoint same_fold (a b : list Z) : bool :=
  match a, b with
  | [], [] => true
  | x :: a, y :: b => (lower x =? lower y) && same_fold a b
  | _, _ => false
  end.
(** From the first dot on; nothing when there is none. *)
Fixpoint from_dot (host : list Z) : list Z :=
  match host with [] => [] | c :: rest => if c =? 46 then host else from_dot rest end.
Definition one_name_matches (name host : list Z) : bool :=
  if bool_decide (name = []) then false else
  if bool_decide (take 2 name = [42; 46]) then
    match from_dot host with
    | [] => false
    | _ :: after => negb (zlen (from_dot host) =? zlen host) && same_fold (drop 2 name) after
    end
  else same_fold name host.

Fixpoint names_from (buf : list Z) (fuel : nat) (d : der_t) (host : list Z) : read unit :=
  match fuel with
  | O => Outside
  | S fuel =>
      if der_done d then Refused else
      '(d, (tag, v)) ← der_read buf d;
      if tag =? 0x82 then
        name ← slice buf v;
        if one_name_matches name host then Reads tt else names_from buf fuel d host
      else names_from buf fuel d host
  end.
Definition x509_host_matches (c : cert) (host : list Z) : read unit :=
  if bool_decide (host = []) then Refused else
  match san (exts c.2) with
  | None => Refused
  | Some v =>
      if v.2 =? 0 then Refused else
      '(_, names) ← der_enter c.1 (der_init v) DER_SEQ;
      names_from c.1 (steps names) names host
  end.

(** ** The chain *)

Inductive x509_result_t := X509_OK | X509_BAD_PARSE | X509_BAD_SIGNATURE | X509_NOT_YET_VALID | X509_EXPIRED | X509_UNTRUSTED
  | X509_WRONG_NAME | X509_NOT_A_CA | X509_UNSUPPORTED.
#[export] Instance x509_result_eq_dec : EqDecision x509_result_t.
Proof. solve_decision. Defined.
Definition X509_MAX_CHAIN : Z := 8.

(** The time packed as the dates are, 0 without a clock; the arguments are [zone_now]'s. *)
Definition x509_now (st : zone_state) (clock_local present : bool) (reading : option rtc_time_t) : Z :=
  match zone_now st clock_local present reading with
  | None => 0
  | Some z =>
      let t := at_utc z in
      u64 (year t * 10000000000 + month t * 100000000 + day t * 1000000 + hour t * 10000 + minute t * 100 + second t)
  end.

(** Why the dates are not good, if they are not. *)
Definition dates_ok (c : cert) (now : Z) : option x509_result_t :=
  if now =? 0 then None else
  if now <? not_before c.2 then Some X509_NOT_YET_VALID else
  if not_after c.2 <? now then Some X509_EXPIRED else None.

(** [root_t] of include/roots.h. *)
Record root_t := Root { der : list Z; sub_off : Z; sub_len : Z }.

Section Chain.
Context (ROOTS : list root_t) (host : list Z) (now : Z).

Fixpoint roots_in (l : list root_t) (subject : list Z) : read (option (list Z)) :=
  match l with
  | [] => Reads None
  | r :: l =>
      if negb (sub_len r =? zlen subject) then roots_in l subject else
      s ← slice (der r) (sub_off r, sub_len r);
      if bool_decide (s = subject) then Reads (Some (der r)) else roots_in l subject
  end.
Definition roots_find (subject : list Z) : read (option (list Z)) :=
  match subject with [] => Reads None | _ => roots_in ROOTS subject end.
Definition roots_find_for (f : x509_t -> view) (c : cert) : read (option (list Z)) := s ← field f c; roots_find s.

(** The chain as it was read: [None] where a certificate could not be. *)
Definition chain_t : Type := list (option cert).
Fixpoint parse_rest (ders : list (list Z)) : read chain_t :=
  match ders with
  | [] => Reads []
  | d :: ders => o ← attempt (x509_parse d); rest ← parse_rest ders; Reads (match o with Some x => Some (d, x) | None => None end :: rest)
  end.
(** The mask of those that could not be read, and of the leaf. *)
Definition unreadable (chain : chain_t) : Z :=
  foldl (fun m k => if chain !! k is Some None then m .| (1 .<< Z.of_nat k) else m) 0 (seq 0 (length chain)).

(** The first certificate not used whose subject is this one's issuer. *)
Fixpoint find_parent (chain : chain_t) (k : nat) (used : Z) (top : cert) : read (option (nat * cert)) :=
  match chain with
  | [] => Reads None
  | o :: chain =>
      match o with
      | Some c =>
          if negb (used .& (1 .<< Z.of_nat k) =? 0) then find_parent chain (S k) used top else
          if negb ((subject c.2).2 =? (issuer top.2).2) then find_parent chain (S k) used top else
          s ← field subject c;
          i ← field issuer top;
          if bool_decide (s = i) then Reads (Some (k, c)) else find_parent chain (S k) used top
      | None => find_parent chain (S k) used top
      end
  end.
Definition self_signed (c : cert) : read bool :=
  if (subject c.2).2 =? (issuer c.2).2 then s ← field subject c; i ← field issuer c; Reads (bool_decide (s = i)) else Reads false.

(** Where the walk up the chain ends: with an answer, or at a top and what is under it. *)
Inductive climbed := Answer (r : x509_result_t) | Top (top : cert) (below : option cert).
Definition may_sign (c : cert) (depth : Z) : bool :=
  has_basic_constraints (exts c.2) && is_ca (exts c.2) && negb ((0 <=? path_len (exts c.2)) && (path_len (exts c.2) <? depth)).
Fixpoint climb (fuel : nat) (chain : chain_t) (used : Z) (top : cert) (below : option cert) (depth : Z) : read climbed :=
  match fuel with
  | O => Outside
  | S fuel =>
      root ← roots_find_for subject top;
      if bool_decide (is_Some root) then Reads (Top top below) else
      self ← self_signed top;
      if self : bool then Reads (Top top below) else
      found ← find_parent chain 0 used top;
      match found with
      | None => Reads (Top top below)
      | Some (k, parent) =>
          root ← roots_find_for subject parent;
          if bool_decide (is_Some root) then Reads (Top parent (Some top)) else
          if negb (may_sign parent depth) then Reads (Answer X509_NOT_A_CA) else
          match dates_ok parent now with
          | Some why => Reads (Answer why)
          | None =>
              ok ← truth (x509_signed_by top parent);
              if negb ok then Reads (Answer X509_BAD_SIGNATURE) else
              climb fuel chain (used .| (1 .<< Z.of_nat k)) parent (Some top) (depth + 1)
          end
      end
  end.

(** A certificate checked with the store's own copy of what signed it. *)
Definition under_root (c : cert) (root : list Z) : read x509_result_t :=
  anchor ← attempt (x509_parse root);
  match anchor with
  | None => Reads X509_BAD_PARSE
  | Some anchor =>
      if negb (has_basic_constraints (exts anchor)) || negb (is_ca (exts anchor)) then Reads X509_NOT_A_CA else
      ok ← truth (x509_signed_by c (root, anchor));
      Reads (if ok : bool then X509_OK else X509_BAD_SIGNATURE)
  end.
Definition anchored (top : cert) (below : option cert) (unreadable : Z) : read x509_result_t :=
  root ← roots_find_for subject top;
  match root with
  | Some root => match below with None => Reads X509_UNTRUSTED | Some c => under_root c root end
  | None =>
      root ← roots_find_for issuer top;
      match root with
      | None => Reads (if negb (unreadable =? 0) then X509_BAD_PARSE else X509_UNTRUSTED)
      | Some root => under_root top root
      end
  end.

Definition verify_with (ders : list (list Z)) : read x509_result_t :=
  match ders with
  | [] => Outside
  | d :: rest =>
      leaf ← attempt (x509_parse d);
      match leaf with
      | None => Reads X509_BAD_PARSE
      | Some leaf =>
          let leaf : cert := (d, leaf) in
          others ← parse_rest rest;
          let chain : chain_t := Some leaf :: others in
          matches ← truth (x509_host_matches leaf host);
          if negb matches then Reads X509_WRONG_NAME else
          match dates_ok leaf now with
          | Some why => Reads why
          | None =>
              at_ ← climb (S (length chain)) chain (1 .| unreadable chain) leaf None 0;
              match at_ with
              | Answer r => Reads r
              | Top top below => anchored top below (unreadable chain)
              end
          end
      end
  end.
(** [room]: whether the heap had room for the chain. *)
Definition x509_verify_chain (room : bool) (ders : list (list Z)) : read x509_result_t :=
  if (zlen ders =? 0) || (X509_MAX_CHAIN <? zlen ders) then Reads X509_BAD_PARSE else
  if negb room then Reads X509_BAD_PARSE else verify_with ders.
End Chain.
