(* ===== verification/Encoded.v ===== *)
(** Certificates as they are written: the encoding of RFC 5280 for the parts kernel/x509.c
    reads, that reading one gives back what was written, and the hosts its names cover. *)
From S2P Require Import Prelude Sha256 Sha512 Rsa Ec Rtc Zone X509.

(** ** Elements *)

Definition der_length (n : Z) : list Z :=
  if n <? 0x80 then [n] else if n <? 0x100 then [0x81; n] else
  if n <? 0x10000 then 0x82 :: be_bytes 2 n else if n <? 0x1000000 then 0x83 :: be_bytes 3 n else 0x84 :: be_bytes 4 n.
Definition tlv (tag : Z) (content : list Z) : list Z := tag :: der_length (zlen content) ++ content.
Lemma length_tlv t c : zlen (tlv t c) = 1 + zlen (der_length (zlen c)) + zlen c.
Proof. unfold tlv. cbn [length]. rewrite length_app. lia. Qed.
Lemma tlv_long t c : 2 <= zlen (tlv t c).
Proof. pose proof (length_tlv t c) as H. unfold der_length in H. repeat destruct (_ <? _); cbn [length] in H; lia. Qed.
Lemma concat_long {A} (f : A -> list Z) (l : list A) : (forall x, 2 <= zlen (f x)) -> 2 * zlen l <= zlen (concat (f <$> l)).
Proof. intros H. induction l as [|x l IH]; [done|]. cbn [fmap list_fmap concat length]. rewrite length_app. specialize (H x). lia. Qed.

Section Lies.
Context (buf : list Z) (Hlen : zlen buf < 4294967296).

(** The bytes from a place on. *)
Definition lies (q : Z) (l : list Z) : Prop := exists pre post, buf = pre ++ l ++ post /\ zlen pre = q.
Lemma lies_bound q l : lies q l -> 0 <= q /\ q + zlen l <= zlen buf.
Proof. intros (pre & post & E & <-). rewrite E, !length_app. lia. Qed.
Lemma lies_app q l1 l2 : lies q (l1 ++ l2) -> lies q l1 /\ lies (q + zlen l1) l2.
Proof.
  intros (pre & post & E & <-). rewrite <- app_assoc in E. split; [by exists pre, (l2 ++ post)|]. exists (pre ++ l1), post. rewrite <- app_assoc, length_app. split; [done|lia].
Qed.
Lemma lies_byte q b l : lies q (b :: l) -> byte buf q = Reads b /\ lies (q + 1) l.
Proof.
  intros H. split; [|exact (proj2 (lies_app q [b] l H))]. pose proof (lies_bound _ _ H) as [H0 H1]. cbn in H1. unfold byte. rewrite (proj2 (Z.leb_le _ _)), (proj2 (Z.ltb_lt _ _)) by lia. cbn.
  destruct H as (pre & post & E & <-). rewrite E, getz_app by lia. rewrite (proj2 (Z.ltb_ge _ _)) by lia. by rewrite Z.sub_diag.
Qed.
Lemma lies_slice q l : lies q l -> slice buf (q, zlen l) = Reads l.
Proof.
  intros H. pose proof (lies_bound _ _ H) as [H0 H1]. unfold slice. cbn [fst snd]. destruct (Z.eqb_spec (zlen l) 0) as [E|]; [by destruct l|].
  rewrite (proj2 (Z.leb_le _ _)), (proj2 (Z.leb_le _ _)) by lia. cbn. destruct H as (pre & post & E & <-). rewrite E, !Nat2Z.id, drop_app_length, take_app_length. done.
Qed.
Lemma lies_number q l acc : lies q l -> bytes l -> 0 <= acc -> acc * 256 ^ zlen l + be_val l < 4294967296 -> number buf (length l) acc q = Reads (acc * 256 ^ zlen l + be_val l).
Proof.
  revert q acc. induction l as [|b l IH]; intros q acc H Hb Ha Hs; cbn [length number].
  - unfold be_val. cbn. by rewrite Z.mul_1_r, Z.add_0_r.
  - inversion_clear Hb as [|? ? Hb0 Hb']. rewrite be_val_cons in *. destruct (lies_byte _ _ _ H) as [-> H']. cbn [mbind read_bind]. pose proof (be_val_bound l Hb') as Hl.
    cbn [length] in *. rewrite Nat2Z.inj_succ, Z.pow_succ_r in * by lia.
    assert (0 < 256 ^ zlen l) by (apply Z.pow_pos_nonneg; lia). unfold is_word in Hb0. change (2 ^ 8) with 256 in Hb0.
    assert (acc * 256 < 4294967296) by nia.
    assert (u32 (acc .<< 8) .| b = acc * 256 + b) as ->.
    { rewrite u32_id by (rewrite Z.shiftl_mul_pow2 by lia; unfold is_word; lia). rewrite Z.lor_comm, (lor_shiftl_add _ _ 8) by (unfold is_word; lia). lia. }
    rewrite IH; [|done|done|lia|nia]. f_equal. ring.
Qed.

Lemma short_length n : 0 <= n < 128 -> (n .& 128 =? 0) = true /\ (n =? 128) = false.
Proof. intros Hn. pose proof (all_bytes (fun n => negb (n <? 128) || ((n .& 128 =? 0) && negb (n =? 128))) ltac:(vm_compute; reflexivity) n ltac:(unfold is_word; lia)) as H. cbn beta in H. rewrite (proj2 (Z.ltb_lt n 128)) in H by lia. cbn in H. apply andb_prop in H as [? ?%negb_true_iff]. done. Qed.
(** What a reader has left is exactly these bytes. *)
Definition over (d : der_t) (l : list Z) : Prop := lies (p d) l /\ end_ d = p d + zlen l.
(** A view of exactly these bytes. *)
Definition views (v : view) (l : list Z) : Prop := lies v.1 l /\ v.2 = zlen l.
Lemma views_slice v l : views v l -> slice buf v = Reads l.
Proof. intros [H E]. destruct v. cbn in *. subst. by apply lies_slice. Qed.
Lemma views_over v l : views v l -> over (der_init v) l.
Proof. intros [H E]. split; cbn; [done|lia]. Qed.

Lemma der_read_long (l c rest : list Z) t d : 0 < zlen l <= 4 -> bytes l -> be_val l = zlen c -> (zlen l = 1 -> 128 <= zlen c) -> over d (t :: (128 + zlen l) :: l ++ c ++ rest) ->
  der_read buf d = Reads (Der (p d + 2 + zlen l + zlen c) (end_ d), (t, (p d + 2 + zlen l, zlen c))).
Proof.
  intros Hl Hb Hv H1 [Ho He]. pose proof (lies_bound _ _ Ho) as [B0 B1]. cbn [length] in *. rewrite !length_app in *. destruct (lies_byte _ _ _ Ho) as [E1 Ho1]. destruct (lies_byte _ _ _ Ho1) as [E2 Ho2].
  destruct (lies_app _ _ _ Ho2) as [Ho3 _]. unfold der_read. rewrite (proj2 (Z.ltb_ge _ _)) by lia. rewrite E1. cbn [mbind read_bind]. rewrite E2. cbn [mbind read_bind].
  rewrite (proj2 (Z.eqb_neq _ _)) by lia. assert (((128 + zlen l) .& 128 =? 0) = false /\ (128 + zlen l) .& 127 = zlen l) as [-> ->].
  { assert (zlen l = 1 \/ zlen l = 2 \/ zlen l = 3 \/ zlen l = 4) as [-> | [-> | [-> | ->]]] by lia; done. }
  rewrite (proj2 (Z.ltb_ge 4 _)) by lia. rewrite u32_id by (unfold is_word; lia). rewrite (proj2 (Z.ltb_ge _ _)) by lia. rewrite Nat2Z.id.
  rewrite <- Z.add_assoc in Ho3. change (1 + 1) with 2 in Ho3. rewrite (lies_number _ _ 0 Ho3) by (try done; lia). cbn [mbind read_bind]. rewrite Z.mul_0_l, Z.add_0_l, Hv.
  assert ((zlen l =? 1) && (zlen c <? 128) = false) as ->. { destruct (Z.eqb_spec (zlen l) 1); [|done]. rewrite (proj2 (Z.ltb_ge _ _)) by lia. done. }
  cbn [mbind read_bind]. rewrite u32_id by (unfold is_word; lia). by rewrite (proj2 (Z.ltb_ge _ _)) by lia.
Qed.
Lemma reads_eq q q' e (t v v' n : Z) : q = q' -> v = v' -> Reads (Der q e, (t, (v, n))) = Reads (Der q' e, (t, (v', n))).
Proof. by intros -> ->. Qed.
Lemma der_read_tlv t c rest d : over d (tlv t c ++ rest) ->
  der_read buf d = Reads (Der (p d + zlen (tlv t c)) (end_ d), (t, (p d + zlen (tlv t c) - zlen c, zlen c))).
Proof.
  intros Ho. unfold tlv in *. pose proof (lies_bound _ _ (proj1 Ho)) as [B0 B1]. unfold der_length in *. cbn [app length] in *. rewrite !length_app in *.
  assert (forall n, bytes (be_bytes n (zlen c))) as Hb by (intros; apply be_bytes_bytes). assert (forall n, be_val (be_bytes n (zlen c)) = zlen c mod 256 ^ Z.of_nat n) as Hv by (intros; apply be_val_bytes).
  destruct (Z.ltb_spec (zlen c) 128) as [H1|H1]; [|destruct (Z.ltb_spec (zlen c) 256) as [H2|H2]; [|destruct (Z.ltb_spec (zlen c) 65536) as [H3|H3]; [|destruct (Z.ltb_spec (zlen c) 16777216) as [H4|H4]]]].
  - destruct Ho as [Ho He]. destruct (lies_byte _ _ _ Ho) as [E1 Ho1]. destruct (lies_byte _ _ _ Ho1) as [E2 _]. cbn [app length] in *. rewrite !length_app in *.
    unfold der_read. rewrite (proj2 (Z.ltb_ge _ _)) by lia. rewrite E1. cbn [mbind read_bind]. rewrite E2. cbn [mbind read_bind]. destruct (short_length (zlen c) ltac:(lia)) as [-> ->]. cbn [mbind read_bind].
    rewrite u32_id by (unfold is_word; lia). rewrite (proj2 (Z.ltb_ge _ _)) by lia. apply reads_eq; lia.
  - pose proof (der_read_long [zlen c] c rest t d) as E. cbn [app length] in *. rewrite E; [apply reads_eq; lia|lia| |by unfold be_val; cbn; lia|lia|].
    + constructor; [unfold is_word; lia|constructor].
    + exact Ho.
  - pose proof (der_read_long (be_bytes 2 (zlen c)) c rest t d) as E. cbn [app length] in *. rewrite !length_be_bytes in *. rewrite E; [apply reads_eq; lia|lia|done|rewrite Hv; apply Z.mod_small; lia|lia|].
    by rewrite <- app_assoc in Ho.
  - pose proof (der_read_long (be_bytes 3 (zlen c)) c rest t d) as E. cbn [app length] in *. rewrite !length_be_bytes in *. rewrite E; [apply reads_eq; lia|lia|done|rewrite Hv; apply Z.mod_small; lia|lia|].
    by rewrite <- app_assoc in Ho.
  - pose proof (der_read_long (be_bytes 4 (zlen c)) c rest t d) as E. cbn [app length] in *. rewrite !length_be_bytes in *. rewrite E; [apply reads_eq; lia|lia|done|rewrite Hv; apply Z.mod_small; lia|lia|].
    by rewrite <- app_assoc in Ho.
Qed.

(** ** Readers over what was written *)

(** One element read: the reader is over the rest, the content is where it says, and so are
    the element's bytes with their header. *)
Definition took (d d' : der_t) (v : view) (t : Z) (c rest : list Z) : Prop :=
  over d' rest /\ views v c /\ views (from_start d d') (tlv t c).
Lemma read_over d t c rest : over d (tlv t c ++ rest) -> exists d' v, der_read buf d = Reads (d', (t, v)) /\ took d d' v t c rest.
Proof.
  intros Ho. eexists _, _. split; [by apply (der_read_tlv t c rest)|]. destruct Ho as [Ho He]. pose proof (lies_bound _ _ Ho) as [B0 B1]. destruct (lies_app _ _ _ Ho) as [H1 H2]. rewrite length_app in *. pose proof (length_tlv t c) as Hl.
  split; [split; cbn [p end_]; [done|lia]|]. split.
  - split; [|done]. cbn [fst]. unfold tlv in H1. destruct (lies_byte _ _ _ H1) as [_ H1']. destruct (lies_app _ _ _ H1') as [_ H1'']. replace (p d + zlen (tlv t c) - zlen c) with (p d + 1 + zlen (der_length (zlen c))) by lia. exact H1''.
  - split; [done|]. unfold from_start. cbn [p end_ snd]. rewrite u32_id by (unfold is_word; lia). lia.
Qed.
Lemma expect_over d t c rest : over d (tlv t c ++ rest) -> exists d' v, der_expect buf d t = Reads (d', v) /\ took d d' v t c rest.
Proof. intros Ho. destruct (read_over _ _ _ _ Ho) as (d' & v & E & T). exists d', v. split; [|done]. unfold der_expect. rewrite E. cbn. by rewrite Z.eqb_refl. Qed.
Lemma enter_over d t c rest : over d (tlv t c ++ rest) -> exists d' i, der_enter buf d t = Reads (d', i) /\ over d' rest /\ over i c /\ views (from_start d d') (tlv t c).
Proof.
  intros Ho. destruct (expect_over _ _ _ _ Ho) as (d' & v & E & T1 & T2 & T3). exists d', (der_init v). split; [unfold der_enter; by rewrite E|]. split; [done|]. split; [by apply views_over|done].
Qed.
Lemma done_over d : over d [] -> der_done d = true.
Proof. intros [_ E]. unfold der_done. cbn in E. apply Z.leb_le. lia. Qed.
Lemma not_done_over d t c rest : over d (tlv t c ++ rest) -> der_done d = false.
Proof. intros [_ E]. unfold der_done. rewrite length_app in E. pose proof (length_tlv t c). apply Z.leb_gt. lia. Qed.
Lemma oid_over v c want : views v c -> oid_is buf v want = Reads (bool_decide (c = want)).
Proof.
  intros Hv. unfold oid_is. rewrite (views_slice _ _ Hv). destruct Hv as [_ ->]. destruct (Z.eqb_spec (zlen c) (zlen want)); [done|]. rewrite bool_decide_false; [done|]. by intros ->.
Qed.
Lemma byte_over v b c : views v (b :: c) -> byte buf v.1 = Reads b /\ views (v.1 + 1, v.2 - 1) c.
Proof. intros [H E]. destruct (lies_byte _ _ _ H) as [-> H']. split; [done|]. split; cbn in *; [done|lia]. Qed.
Lemma number_over v c : views v c -> bytes c -> zlen c <= 4 -> number buf (Z.to_nat v.2) 0 v.1 = Reads (be_val c).
Proof.
  intros [H ->] Hb Hl. rewrite Nat2Z.id. rewrite lies_number; [done|done|done|done|]. pose proof (be_val_bound c Hb) as [H0 H1]. assert (256 ^ zlen c <= 256 ^ 4) by (apply Z.pow_le_mono_r; lia). lia.
Qed.
Lemma strip_over n c v : views v (replicate n 0 ++ c) -> c <> [] -> c.[0] <> 0 -> exists w, stripped buf v = Reads w /\ views w c.
Proof.
  intros Hv Hne H0. destruct v as [q m]. unfold stripped. cbn [fst snd]. destruct Hv as [Hv E]. cbn [fst snd] in Hv, E. rewrite E, Nat2Z.id. clear E. revert q Hv. induction n as [|n IH]; intros q Hv.
  - destruct c as [|b c]; [done|]. cbn [replicate app length strip_zeros] in *. destruct (lies_byte _ _ _ Hv) as [-> _]. cbn [mbind read_bind]. change ((b :: c).[0]) with b in H0. rewrite (proj2 (Z.eqb_neq _ _) H0). eexists. split; [done|]. done.
  - cbn [replicate app length strip_zeros] in *. destruct (lies_byte _ _ _ Hv) as [-> Hv']. cbn. by apply IH.
Qed.
End Lies.

(** ** What a certificate is written from *)

Definition two_digits (v : Z) : list Z := [48 + v / 10; 48 + v mod 10].
(** A moment, by RFC 5280: in two digits of the year up to 2049, in four from there on. *)
Definition time_text (t : rtc_time_t) : list Z := two_digits (month t) ++ two_digits (day t) ++ two_digits (hour t) ++ two_digits (minute t) ++ two_digits (second t) ++ [90].
Definition time_tlv (t : rtc_time_t) : list Z :=
  if (1950 <=? year t) && (year t <? 2050) then tlv DER_UTC (two_digits (year t mod 100) ++ time_text t)
  else tlv DER_GEN (two_digits (year t / 100) ++ two_digits (year t mod 100) ++ time_text t).
Definition moment (t : rtc_time_t) : Prop :=
  0 <= year t < 10000 /\ 1 <= month t <= 12 /\ 1 <= day t <= 31 /\ 0 <= hour t <= 23 /\ 0 <= minute t <= 59 /\ 0 <= second t <= 60.
Definition stamp (t : rtc_time_t) : Z :=
  year t * 10000000000 + month t * 100000000 + day t * 1000000 + hour t * 10000 + minute t * 100 + second t.

(** A positive number: its bytes, with a zero before them when the first has its top bit. *)
Definition der_uint (l : list Z) : list Z := tlv DER_INT (if 128 <=? l.[0] then 0 :: l else l).
Inductive key_data := RsaData (n e : list Z) | EcData (curve : ec_curve_t) (point : list Z).
Definition curve_oid (c : ec_curve_t) : list Z := match c with EC_P256 => OID_P256 | EC_P384 => OID_P384 end.
Definition spki_tlv (k : key_data) : list Z :=
  tlv DER_SEQ (match k with
    | RsaData n e => tlv DER_SEQ (tlv DER_OID OID_RSA ++ [0x05; 0x00]) ++ tlv DER_BITS (0 :: tlv DER_SEQ (der_uint n ++ der_uint e))
    | EcData c pt => tlv DER_SEQ (tlv DER_OID OID_EC_KEY ++ tlv DER_OID (curve_oid c)) ++ tlv DER_BITS (0 :: pt)
    end).
Definition key_read (k : key_data) : key_t :=
  match k with
  | RsaData n e => X509_KEY_RSA (RsaKey (n ++ replicate (Z.to_nat (RSA_MAX_BYTES - zlen n)) 0) (zlen n) (be_val e))
  | EcData c pt => X509_KEY_EC c pt
  end.
Definition key_data_ok (k : key_data) : Prop :=
  match k with
  | RsaData n e => n.[0] <> 0 /\ 128 <= zlen n <= RSA_MAX_BYTES /\ bytes e /\ e <> [] /\ e.[0] <> 0 /\ zlen e <= 4 /\ 3 <= be_val e /\ be_val e .& 1 = 1
  | EcData c pt => zlen pt = 1 + 2 * ec_field_bytes c /\ pt.[0] = 4
  end.

Inductive ext_data := Constraints (critical ca : bool) (len : option Z) | AltNames (critical : bool) (names : list (Z * list Z)) | OtherExt (critical : bool) (oid value : list Z).
Definition constraints_value (ca : bool) (len : option Z) : list Z :=
  tlv DER_SEQ ((if ca then tlv DER_BOOL [255] else []) ++ match len with None => [] | Some n => tlv DER_INT (if n <? 128 then [n] else be_bytes 2 n) end).
Definition names_value (names : list (Z * list Z)) : list Z := tlv DER_SEQ (concat ((fun n => tlv n.1 n.2) <$> names)).
Definition ext_body (oid : list Z) (critical : bool) (value : list Z) : list Z := tlv DER_OID oid ++ (if critical then tlv DER_BOOL [255] else []) ++ tlv DER_OCTET value.
Definition ext_tlv (e : ext_data) : list Z :=
  tlv DER_SEQ (match e with
    | Constraints critical ca len => ext_body OID_BASIC_CONSTRAINTS critical (constraints_value ca len)
    | AltNames critical names => ext_body OID_SAN critical (names_value names)
    | OtherExt critical oid value => ext_body oid critical value
    end).
Definition ext_data_ok (e : ext_data) : Prop :=
  match e with Constraints _ _ (Some n) => 0 <= n < 32768 | OtherExt _ oid _ => oid <> OID_BASIC_CONSTRAINTS /\ oid <> OID_SAN | _ => True end.

Record cert_data := CertData {
  version : option Z; serial : list Z; alg_oid : list Z; alg_params : list Z; issuer_name : list Z; valid_from : rtc_time_t; valid_to : rtc_time_t;
  subject_name : list Z; public_key : key_data; unique_ids : list (Z * list Z); extensions : list ext_data; signature : list Z }.
Definition alg_tlv (c : cert_data) : list Z := tlv DER_SEQ (tlv DER_OID (alg_oid c) ++ alg_params c).
Definition exts_tlv (l : list ext_data) : list Z := match l with [] => [] | _ => tlv 0xa3 (tlv DER_SEQ (concat (ext_tlv <$> l))) end.
(** The two identifiers that were there before extensions were, tagged 0x81 and 0x82. *)
Definition ids_tlv (l : list (Z * list Z)) : list Z := concat ((fun i => tlv i.1 i.2) <$> l).
Definition tbs_tlv (c : cert_data) : list Z := tlv DER_SEQ (
  match version c with Some v => tlv 0xa0 (tlv DER_INT [v]) | None => [] end ++ tlv DER_INT (serial c) ++ alg_tlv c ++ tlv DER_SEQ (issuer_name c) ++
  tlv DER_SEQ (time_tlv (valid_from c) ++ time_tlv (valid_to c)) ++ tlv DER_SEQ (subject_name c) ++ spki_tlv (public_key c) ++ ids_tlv (unique_ids c) ++ exts_tlv (extensions c)).
Definition cert_tlv (c : cert_data) : list Z := tlv DER_SEQ (tbs_tlv c ++ alg_tlv c ++ tlv DER_BITS (0 :: signature c)).
Definition cert_data_ok (c : cert_data) : Prop :=
  moment (valid_from c) /\ moment (valid_to c) /\ key_data_ok (public_key c) /\ Forall ext_data_ok (extensions c) /\ Forall (fun i => i.1 <> 0xa3) (unique_ids c) /\ signature c <> [] /\ zlen (cert_tlv c) < 4294967296.

Section Back.
Context (buf : list Z) (Hlen : zlen buf < 4294967296).
Notation lies := (lies buf).
Notation over := (over buf).
Notation views := (views buf).

(** ** Times *)

Lemma digit_over n v q c l : lies q (c :: l) -> 48 <= c <= 57 -> digits_from buf (S n) v q = digits_from buf n (u32 (v * 10 + (c - 48))) (q + 1).
Proof.
  intros H Hc. cbn [digits_from]. destruct (lies_byte _ _ _ _ H) as [-> _]. cbn [mbind read_bind]. rewrite (proj2 (Z.ltb_ge _ _)), (proj2 (Z.ltb_ge _ _)) by lia. done.
Qed.
Lemma two_over q v l : lies q (two_digits v ++ l) -> 0 <= v < 100 -> digits buf q 2 = Reads v /\ lies (q + 2) l.
Proof.
  intros H Hv. split; [|exact (proj2 (lies_app _ _ _ _ H))]. unfold digits. change (Z.to_nat 2) with 2%nat. cbn [two_digits app] in H.
  erewrite digit_over; [|exact H|dlia]. destruct (lies_byte _ _ _ _ H) as [_ H']. erewrite digit_over; [|exact H'|dlia]. cbn [digits_from]. f_equal. word_lia.
Qed.
Lemma four_over q a b l : lies q (two_digits a ++ two_digits b ++ l) -> 0 <= a < 100 -> 0 <= b < 100 -> digits buf q 4 = Reads (a * 100 + b) /\ lies (q + 4) l.
Proof.
  intros H Ha Hb. pose proof (lies_app _ _ _ _ H) as [_ H2]. split; [|replace (q + 4) with (q + zlen (two_digits a) + zlen (two_digits b)) by (cbn; lia); exact (proj2 (lies_app _ _ _ _ H2))].
  unfold digits. change (Z.to_nat 4) with 4%nat. cbn [two_digits app] in H.
  erewrite digit_over; [|exact H|dlia]. destruct (lies_byte _ _ _ _ H) as [_ H']. erewrite digit_over; [|exact H'|dlia]. destruct (lies_byte _ _ _ _ H') as [_ H''].
  erewrite digit_over; [|exact H''|dlia]. destruct (lies_byte _ _ _ _ H'') as [_ H3]. erewrite digit_over; [|exact H3|dlia]. cbn [digits_from]. f_equal. word_lia.
Qed.
(** What follows the year. *)
Lemma text_over q t : lies q (time_text t) -> moment t ->
  digits buf q 2 = Reads (month t) /\ digits buf (q + 2) 2 = Reads (day t) /\ digits buf (q + 4) 2 = Reads (hour t) /\ digits buf (q + 6) 2 = Reads (minute t) /\
  digits buf (q + 8) 2 = Reads (second t) /\ exists c, byte buf (q + 8) = Reads c /\ 48 <= c <= 57.
Proof.
  intros H (M1 & M2 & M3 & M4 & M5 & M6). unfold time_text in H. destruct (two_over _ _ _ H) as [E1 H1]; [lia|]. destruct (two_over _ _ _ H1) as [E2 H2]; [lia|].
  destruct (two_over _ _ _ H2) as [E3 H3]; [lia|]. destruct (two_over _ _ _ H3) as [E4 H4]; [lia|]. destruct (two_over _ _ _ H4) as [E5 _]; [lia|].
  replace (q + 2 + 2) with (q + 4) in * by lia. replace (q + 4 + 2) with (q + 6) in * by lia. replace (q + 6 + 2) with (q + 8) in * by lia.
  split_and!; try done. exists (48 + second t / 10). split; [|dlia]. by destruct (lies_byte _ _ _ _ H4).
Qed.
Lemma checks_pass t : moment t -> (month t <? 1) || (12 <? month t) || (day t <? 1) || (31 <? day t) = false /\ (23 <? hour t) || (59 <? minute t) || (60 <? second t) = false.
Proof. intros (M1 & M2 & M3 & M4 & M5 & M6). rewrite !orb_false_iff, !Z.ltb_ge. lia. Qed.
Lemma time_over t : moment t -> exists tag c, time_tlv t = tlv tag c /\ forall v, views v c -> parse_time buf tag v = Reads (stamp t).
Proof.
  intros Hm. pose proof Hm as (Y & _). destruct (checks_pass t Hm) as [C1 C2]. unfold time_tlv. destruct ((1950 <=? year t) && (year t <? 2050)) eqn:Ey.
  - exists DER_UTC. eexists. split; [done|]. intros [q n] [Hv Hn]. cbn [fst snd] in *. cbn in Hn. destruct (two_over _ _ _ Hv) as [E Ht]; [dlia|]. destruct (text_over _ t Ht Hm) as (T1 & T2 & T3 & T4 & T5 & c & T6 & T7).
unfold parse_time. change (DER_UTC =? DER_UTC) with true. cbn iota.
    rewrite (proj2 (Z.ltb_ge n _)) by lia. rewrite E. cbn [mbind read_bind]. rewrite (proj2 (Z.ltb_ge n _)) by lia. rewrite T1. cbn [mbind read_bind]. rewrite <- !(Z.add_assoc q). cbn [Z.add Pos.add Pos.succ]. rewrite <- !(Z.add_assoc q) in *. cbn [Z.add Pos.add Pos.succ] in *.
    rewrite T2. cbn [mbind read_bind]. rewrite T3. cbn [mbind read_bind]. rewrite T4. cbn [mbind read_bind]. rewrite (proj2 (Z.ltb_ge n _)) by lia. rewrite T6. cbn [mbind read_bind]. rewrite (proj2 (Z.leb_le 48 c)), (proj2 (Z.leb_le c 57)) by lia. cbn [andb].
    rewrite T5. cbn [mbind read_bind]. rewrite C1, C2. unfold stamp. do 6 f_equal.
    destruct (Z.ltb_spec (year t mod 100) 50); dlia.
  - exists DER_GEN. eexists. split; [done|]. intros [q n] [Hv Hn]. cbn [fst snd] in *. cbn in Hn. destruct (four_over _ _ _ _ Hv) as [E Ht]; [dlia|dlia|]. destruct (text_over _ t Ht Hm) as (T1 & T2 & T3 & T4 & T5 & c & T6 & T7).
    unfold parse_time. change (DER_GEN =? DER_UTC) with false. change (DER_GEN =? DER_GEN) with true. cbn iota.
    rewrite (proj2 (Z.ltb_ge n _)) by lia. rewrite E. cbn [mbind read_bind]. rewrite (proj2 (Z.ltb_ge n _)) by lia. rewrite T1. cbn [mbind read_bind]. rewrite <- !(Z.add_assoc q). cbn [Z.add Pos.add Pos.succ]. rewrite <- !(Z.add_assoc q) in *. cbn [Z.add Pos.add Pos.succ] in *.
    rewrite T2. cbn [mbind read_bind]. rewrite T3. cbn [mbind read_bind]. rewrite T4. cbn [mbind read_bind]. rewrite (proj2 (Z.ltb_ge n _)) by lia. rewrite T6. cbn [mbind read_bind]. rewrite (proj2 (Z.leb_le 48 c)), (proj2 (Z.leb_le c 57)) by lia. cbn [andb].
    rewrite T5. cbn [mbind read_bind]. rewrite C1, C2. unfold stamp. do 6 f_equal. dlia.
Qed.

(** ** Keys *)

Lemma uint_over d l rest : over d (der_uint l ++ rest) -> l <> [] -> l.[0] <> 0 ->
  exists d' v w, der_expect buf d DER_INT = Reads (d', v) /\ over d' rest /\ stripped buf v = Reads w /\ views w l.
Proof.
  intros Ho Hne H0. unfold der_uint in Ho. destruct (expect_over buf Hlen _ _ _ _ Ho) as (d' & v & E & T1 & T2 & _).
  assert (exists n, views v (replicate n 0 ++ l)) as [n Hv] by (destruct (128 <=? l.[0]); [by exists 1%nat|by exists 0%nat]).
  destruct (strip_over buf _ _ _ Hv Hne H0) as (w & Ew & Hw). by exists d', v, w.
Qed.
Lemma rsa_over n e v : key_data_ok (RsaData n e) -> views v (tlv DER_SEQ (der_uint n ++ der_uint e)) -> parse_rsa buf v = Reads (key_read (RsaData n e)).
Proof.
  intros (K1 & K2 & K3 & K4 & K5 & K6 & K7 & K8) Hv. unfold parse_rsa. assert (over (der_init v) (tlv DER_SEQ (der_uint n ++ der_uint e) ++ [])) as Ho by (rewrite app_nil_r; by apply views_over).
  destruct (enter_over buf Hlen _ _ _ _ Ho) as (d' & i & -> & _ & Hi & _). cbn [mbind read_bind].
  destruct (uint_over _ _ _ Hi) as (d1 & v1 & w1 & -> & H1 & Es & Hw1); [by intros ->|done|]. cbn [mbind read_bind]. rewrite <- (app_nil_r (der_uint e)) in H1.
  destruct (uint_over _ _ _ H1) as (d2 & v2 & w2 & -> & _ & Es2 & Hw2); [done|done|]. cbn [mbind read_bind]. rewrite Es. cbn [mbind read_bind]. pose proof Hw1 as [_ L1]. pose proof Hw2 as [_ L2].
  rewrite (proj2 (Z.eqb_neq w1.2 0)), (proj2 (Z.ltb_ge RSA_MAX_BYTES w1.2)), (proj2 (Z.ltb_ge w1.2 128)) by lia. cbn [orb]. rewrite Es2. cbn [mbind read_bind].
  assert (0 < zlen e) by (destruct e; [done|cbn; lia]). rewrite (proj2 (Z.eqb_neq w2.2 0)), (proj2 (Z.ltb_ge 4 w2.2)) by lia. cbn [orb]. rewrite (number_over buf Hlen w2 e Hw2 K3) by lia. cbn [mbind read_bind].
  rewrite K8, (proj2 (Z.ltb_ge (be_val e) 3)) by lia. cbn. rewrite (views_slice _ _ _ Hw1). cbn. by rewrite L1.
Qed.
Lemma ec_over c pt alg v : key_data_ok (EcData c pt) -> over alg (tlv DER_OID (curve_oid c)) -> views v pt -> parse_ec buf alg v = Reads (key_read (EcData c pt)).
Proof.
  intros [K1 K2] Ha Hv. unfold parse_ec. rewrite <- (app_nil_r (tlv _ _)) in Ha. destruct (expect_over buf Hlen _ _ _ _ Ha) as (d' & o & -> & _ & Ho & _). cbn [mbind read_bind].
  rewrite (oid_over buf _ _ OID_P256 Ho). cbn [mbind read_bind]. rewrite (oid_over buf _ _ OID_P384 Ho). pose proof Hv as [_ L]. pose proof (views_slice _ _ _ Hv) as Hs.
  destruct pt as [|b pt]; [destruct c; cbn in K1; lia|]. change ((b :: pt).[0]) with b in K2. subst b. destruct (byte_over buf _ _ _ Hv) as [Hb _].
  destruct c; cbn [curve_oid]; [rewrite bool_decide_true by done|rewrite bool_decide_false, bool_decide_true by done]; cbn [mbind read_bind negb andb]; rewrite L, K1, Z.eqb_refl; cbn [negb]; rewrite Hb; cbn [mbind read_bind]; rewrite Hs; done.
Qed.
Lemma spki_over k v : key_data_ok k -> views v (spki_tlv k) -> parse_spki buf v = Reads (key_read k).
Proof.
  intros Hk Hv. unfold parse_spki. assert (over (der_init v) (spki_tlv k ++ [])) as Ho by (rewrite app_nil_r; by apply views_over). unfold spki_tlv in Ho.
  destruct (enter_over buf Hlen _ _ _ _ Ho) as (d' & i & -> & _ & Hi & _). cbn [mbind read_bind]. destruct k as [n e|c pt].
  - destruct (enter_over buf Hlen _ _ _ _ Hi) as (d1 & a & -> & H1 & Ha & _). cbn [mbind read_bind]. destruct (expect_over buf Hlen _ _ _ _ Ha) as (a' & o & -> & _ & Hoid & _). cbn [mbind read_bind].
    rewrite <- (app_nil_r (tlv DER_BITS _)) in H1. destruct (expect_over buf Hlen _ _ _ _ H1) as (d2 & b & -> & _ & Hb & _). cbn [mbind read_bind]. destruct (byte_over buf _ _ _ Hb) as [Hb0 Hb1]. pose proof Hb as [_ L].
    rewrite (proj2 (Z.ltb_ge b.2 2)) by (rewrite L; unfold tlv; cbn [length]; lia).
    rewrite Hb0. cbn [mbind read_bind]. change (negb (0 =? 0)) with false. cbn iota. rewrite (oid_over buf _ _ OID_RSA Hoid), bool_decide_true by done. cbn [mbind read_bind]. by apply rsa_over.
  - destruct (enter_over buf Hlen _ _ _ _ Hi) as (d1 & a & -> & H1 & Ha & _). cbn [mbind read_bind]. destruct (expect_over buf Hlen _ _ _ _ Ha) as (a' & o & -> & Ha' & Hoid & _). cbn [mbind read_bind].
    rewrite <- (app_nil_r (tlv DER_BITS _)) in H1. destruct (expect_over buf Hlen _ _ _ _ H1) as (d2 & b & -> & _ & Hb & _). cbn [mbind read_bind]. destruct (byte_over buf _ _ _ Hb) as [Hb0 Hb1]. pose proof Hb as [_ L].
    destruct Hk as [K1 K2]. assert (0 < ec_field_bytes c) by (by destruct c). rewrite (proj2 (Z.ltb_ge b.2 2)) by (rewrite L; cbn [length]; lia).
    rewrite Hb0. cbn [mbind read_bind]. change (negb (0 =? 0)) with false. cbn iota. rewrite (oid_over buf _ _ OID_RSA Hoid), bool_decide_false by done. cbn [mbind read_bind].
    rewrite (oid_over buf _ _ OID_EC_KEY Hoid), bool_decide_true by done. cbn [mbind read_bind]. by apply ec_over.
Qed.

(** ** Extensions *)

Notation bounds_t := (option (bool * option Z)).
Notation names_t := (option (list (Z * list Z))).
(** The constraints and the names that count are the last ones. *)
Definition bounds_after (b : bounds_t) (e : ext_data) : bounds_t := match e with Constraints _ ca n => Some (ca, n) | _ => b end.
Definition names_after (a : names_t) (e : ext_data) : names_t := match e with AltNames _ names => Some names | _ => a end.
Definition says (x : exts_t) (b : bounds_t) (a : names_t) : Prop :=
  (has_basic_constraints x, is_ca x, path_len x) = (match b with None => (false, false, -1) | Some (ca, n) => (true, ca, default (-1) n) end) /\
  match a with None => san x = None | Some names => exists v, san x = Some v /\ views v (names_value names) end.

Lemma small_int n : 0 <= n < 32768 -> let l := if n <? 128 then [n] else be_bytes 2 n in bytes l /\ be_val l = n /\ 1 <= zlen l <= 2.
Proof.
  intros Hn. cbn zeta. destruct (Z.ltb_spec n 128).
  - split_and!; [constructor; [unfold is_word; lia|constructor]|unfold be_val; cbn; lia|cbn; lia..].
  - split; [apply be_bytes_bytes|]. split; [rewrite be_val_bytes; apply Z.mod_small; lia|rewrite length_be_bytes; lia].
Qed.
Lemma constraints_over ca n sans v : match n with Some n => 0 <= n < 32768 | None => True end -> views v (constraints_value ca n) -> parse_constraints buf v sans = Reads (Exts true ca (default (-1) n) sans).
Proof.
  intros Hn Hv. unfold parse_constraints. assert (over (der_init v) (constraints_value ca n ++ [])) as Ho by (rewrite app_nil_r; by apply views_over). unfold constraints_value in Ho.
  destruct (enter_over buf Hlen _ _ _ _ Ho) as (d' & i & -> & _ & Hi & _). cbn [mbind read_bind].
  set (rest := match n with None => [] | Some n => tlv DER_INT (if n <? 128 then [n] else be_bytes 2 n) end) in *.
  assert (forall d, over d rest -> (if der_done d then Reads (-1) else o ← attempt (der_expect buf d DER_INT); match o with Some (_, v) => if (v.2 =? 0) || (2 <? v.2) then Reads (-1) else number buf (Z.to_nat v.2) 0 v.1 | None => Reads (-1) end) = Reads (default (-1) n)) as Hrest.
  { intros d Hd. destruct n as [n|]; [|by rewrite (done_over buf d)]. unfold rest in Hd. rewrite <- (app_nil_r (tlv _ _)) in Hd. rewrite (not_done_over buf _ _ _ _ Hd).
    destruct (expect_over buf Hlen _ _ _ _ Hd) as (d1 & w & -> & _ & Hw & _). cbn [attempt mbind read_bind]. destruct (small_int n Hn) as (S1 & S2 & S3). pose proof Hw as [_ L].
    rewrite (proj2 (Z.eqb_neq w.2 0)), (proj2 (Z.ltb_ge 2 w.2)) by lia. cbn [orb]. rewrite (number_over buf Hlen w _ Hw S1) by lia. by rewrite S2. }
  destruct ca.
  - rewrite (not_done_over buf _ _ _ _ Hi). destruct (read_over buf Hlen _ _ _ _ Hi) as (d1 & w & -> & H1 & Hw & _). cbn [mbind read_bind]. change (DER_BOOL =? DER_BOOL) with true. cbn iota.
    destruct (byte_over buf _ _ _ Hw) as [Hb _]. pose proof Hw as [_ ->]. change (zlen [255] =? 1) with true. cbn iota. rewrite Hb. cbn [mbind read_bind]. rewrite (Hrest d1 H1). done.
  - cbn [app] in Hi. pose proof (Hrest i Hi) as Hr. destruct (der_done i) eqn:Ed.
    + cbn [mbind read_bind]. rewrite Ed in *. injection Hr as <-. done.
    + assert (exists m, rest = tlv DER_INT m) as [m Em]. { destruct n as [n|]; [by eexists|]. by rewrite (done_over buf i Hi) in Ed. }
      rewrite Em, <- (app_nil_r (tlv _ _)) in Hi. destruct (read_over buf Hlen _ _ _ _ Hi) as (d1 & w & -> & _). cbn [mbind read_bind]. change (DER_INT =? DER_BOOL) with false. cbn iota. cbn [mbind read_bind]. rewrite Ed. rewrite Hr. done.
Qed.
(** An extension's value, after its name and its mark. *)
Lemma body_over d oid critical value : over d (ext_body oid critical value) -> exists d1 o v d2 d3 tag w, der_expect buf d DER_OID = Reads (d1, o) /\ views o oid /\
  der_read buf d1 = Reads (d2, (tag, w)) /\ der_read buf (if tag =? DER_BOOL then d2 else d1) = Reads (d3, (DER_OCTET, v)) /\ views v value.
Proof.
  intros Hd. unfold ext_body in Hd. destruct (expect_over buf Hlen _ _ _ _ Hd) as (d1 & o & E1 & H1 & Ho & _). rewrite <- (app_nil_r (tlv DER_OCTET value)) in H1. destruct critical.
  - destruct (read_over buf Hlen _ _ _ _ H1) as (d2 & w & E2 & H2 & _ & _). destruct (read_over buf Hlen _ _ _ _ H2) as (d3 & v & E3 & _ & Hv & _). exists d1, o, v, d2, d3, DER_BOOL, w. done.
  - cbn [app] in H1. destruct (read_over buf Hlen _ _ _ _ H1) as (d2 & w & E2 & _ & Hw & _). exists d1, o, w, d2, d2, DER_OCTET, w. done.
Qed.
Lemma ext_over e d i x b a : ext_data_ok e -> over d (ext_tlv e ++ i) -> says x b a ->
  exists d' inner x', der_enter buf d DER_SEQ = Reads (d', inner) /\ over d' i /\ parse_extension buf inner x = Reads x' /\ says x' (bounds_after b e) (names_after a e).
Proof.
  intros He Hd [X1 X2]. unfold ext_tlv in Hd. destruct (enter_over buf Hlen _ _ _ _ Hd) as (d' & inner & E & Hd' & Hi & _). exists d', inner. unfold parse_extension.
  destruct e as [critical ca n|critical names|critical oid value].
  - destruct (body_over _ _ _ _ Hi) as (d1 & o & v & d2 & d3 & tag & w & -> & Ho & E1 & E2 & Hv). cbn [mbind read_bind]. rewrite E1. cbn [mbind read_bind]. rewrite E2. cbn [mbind read_bind]. change (negb (DER_OCTET =? DER_OCTET)) with false. cbn iota.
    rewrite (oid_over buf _ _ OID_BASIC_CONSTRAINTS Ho), bool_decide_true by done. cbn [mbind read_bind]. rewrite (constraints_over ca n (san x) v) by (by destruct n).
    eexists. split; [done|]. split; [done|]. split; [done|]. split; [done|]. exact X2.
  - destruct (body_over _ _ _ _ Hi) as (d1 & o & v & d2 & d3 & tag & w & -> & Ho & E1 & E2 & Hv). cbn [mbind read_bind]. rewrite E1. cbn [mbind read_bind]. rewrite E2. cbn [mbind read_bind]. change (negb (DER_OCTET =? DER_OCTET)) with false. cbn iota.
    rewrite (oid_over buf _ _ OID_BASIC_CONSTRAINTS Ho), bool_decide_false by done. cbn [mbind read_bind]. rewrite (oid_over buf _ _ OID_SAN Ho), bool_decide_true by done. cbn [mbind read_bind].
    eexists. split; [done|]. split; [done|]. split; [done|]. split; [exact X1|]. by exists v.
  - destruct He as [N1 N2]. destruct (body_over _ _ _ _ Hi) as (d1 & o & v & d2 & d3 & tag & w & -> & Ho & E1 & E2 & Hv). cbn [mbind read_bind]. rewrite E1. cbn [mbind read_bind]. rewrite E2. cbn [mbind read_bind]. change (negb (DER_OCTET =? DER_OCTET)) with false. cbn iota.
    rewrite (oid_over buf _ _ OID_BASIC_CONSTRAINTS Ho), bool_decide_false by done. cbn [mbind read_bind]. rewrite (oid_over buf _ _ OID_SAN Ho), bool_decide_false by done. cbn [mbind read_bind].
    exists x. split; [done|]. split; [done|]. split; [done|]. by split.
Qed.
Lemma extensions_over l d x b a fuel : Forall ext_data_ok l -> over d (concat (ext_tlv <$> l)) -> says x b a -> (length l < fuel)%nat ->
  exists x', extensions_from buf fuel d x = Reads x' /\ says x' (foldl bounds_after b l) (foldl names_after a l).
Proof.
  revert d x b a fuel. induction l as [|e l IH]; intros d x b a fuel Hl Hd Hx Hf; (destruct fuel as [|fuel]; [cbn in Hf; lia|]); cbn [extensions_from].
  - cbn in Hd. rewrite (done_over buf d Hd). by exists x.
  - inversion_clear Hl as [|? ? He Hl']. cbn [fmap list_fmap concat] in Hd. rewrite (not_done_over buf d _ _ _ Hd). destruct (ext_over e d _ x b a He Hd Hx) as (d' & inner & x' & -> & Hd' & E & Hx'). cbn [mbind read_bind]. rewrite E. cbn [mbind read_bind].
    apply IH; [done|done|done|cbn in Hf; lia].
Qed.
Lemma steps_over d l : over d l -> Z.of_nat (steps d) = zlen l + 1.
Proof. intros [H E]. unfold steps. lia. Qed.
Definition bounds_of (l : list ext_data) : bounds_t := foldl bounds_after None l.
Definition names_of (l : list ext_data) : names_t := foldl names_after None l.
Lemma trailer_over l d fuel : Forall ext_data_ok l -> over d (exts_tlv l) -> zlen (exts_tlv l) < Z.of_nat fuel ->
  exists x, trailer_from buf fuel d no_exts = Reads x /\ says x (bounds_of l) (names_of l).
Proof.
  intros Hl Hd Hs. assert (says no_exts None None) as H0 by done. unfold exts_tlv in *. destruct fuel as [|fuel]; [lia|]. cbn [trailer_from]. destruct l as [|e l].
  - rewrite (done_over buf d Hd). by exists no_exts.
  - set (es := e :: l) in *. pose proof (tlv_long 0xa3 (tlv DER_SEQ (concat (ext_tlv <$> es)))) as Hlong. destruct fuel as [|fuel]; [lia|]. rewrite <- (app_nil_r (tlv _ _)) in Hd.
    rewrite (not_done_over buf d _ _ _ Hd). destruct (read_over buf Hlen _ _ _ _ Hd) as (d' & v & -> & Hd' & Hv & _). cbn [mbind read_bind]. change (0xa3 =? 0xa3) with true. cbn iota.
    pose proof (views_over _ _ _ Hv) as Hi. rewrite <- (app_nil_r (tlv DER_SEQ _)) in Hi. destruct (enter_over buf Hlen _ _ _ _ Hi) as (d2 & i & -> & _ & Hi2 & _). cbn [mbind read_bind].
    unfold parse_extensions. destruct (extensions_over es i no_exts None None (steps i) Hl Hi2 H0) as (x & -> & Hx).
    { pose proof (steps_over _ _ Hi2) as Hs2. pose proof (concat_long ext_tlv es) as Hc. specialize (Hc ltac:(intros; apply tlv_long)). lia. }
    cbn [mbind read_bind trailer_from]. rewrite (done_over buf d' Hd'). by exists x.
Qed.
Lemma ids_over ids l d fuel : Forall (fun i => i.1 <> 0xa3) ids -> Forall ext_data_ok l -> over d (ids_tlv ids ++ exts_tlv l) -> zlen (ids_tlv ids ++ exts_tlv l) < Z.of_nat fuel ->
  exists x, trailer_from buf fuel d no_exts = Reads x /\ says x (bounds_of l) (names_of l).
Proof.
  intros Hi Hl. revert d fuel. unfold ids_tlv. induction Hi as [|[t c] ids Ht Hi IH]; intros d fuel Hd Hf; [by apply trailer_over|].
  cbn [fmap list_fmap concat fst snd] in *. rewrite <- app_assoc in *. rewrite length_app in Hf. pose proof (tlv_long t c). destruct fuel as [|fuel]; [lia|]. cbn [trailer_from].
  rewrite (not_done_over buf d _ _ _ Hd). destruct (read_over buf Hlen _ _ _ _ Hd) as (d' & v & -> & Hd' & _). cbn [mbind read_bind]. rewrite (proj2 (Z.eqb_neq t 0xa3)) by done. apply IH; [done|lia].
Qed.

(** ** A whole certificate *)

Definition alg_read (oid : list Z) : x509_sig_t :=
  if bool_decide (oid = OID_RSA_SHA256) then X509_SIG_RSA_SHA256 else if bool_decide (oid = OID_RSA_SHA384) then X509_SIG_RSA_SHA384 else
  if bool_decide (oid = OID_RSA_SHA512) then X509_SIG_RSA_SHA512 else if bool_decide (oid = OID_RSA_PSS) then X509_SIG_RSA_PSS else
  if bool_decide (oid = OID_ECDSA_SHA256) then X509_SIG_ECDSA_SHA256 else if bool_decide (oid = OID_ECDSA_SHA384) then X509_SIG_ECDSA_SHA384 else X509_SIG_NONE.
Lemma alg_over v oid : views v oid -> sig_alg_from_oid buf v = Reads (alg_read oid).
Proof.
  intros Hv. unfold sig_alg_from_oid, alg_read. rewrite (oid_over buf _ _ OID_RSA_SHA256 Hv). cbn [mbind read_bind]. destruct (bool_decide _); [done|].
  rewrite (oid_over buf _ _ OID_RSA_SHA384 Hv). cbn [mbind read_bind]. destruct (bool_decide _); [done|]. rewrite (oid_over buf _ _ OID_RSA_SHA512 Hv). cbn [mbind read_bind]. destruct (bool_decide _); [done|].
  rewrite (oid_over buf _ _ OID_RSA_PSS Hv). cbn [mbind read_bind]. destruct (bool_decide _); [done|]. rewrite (oid_over buf _ _ OID_ECDSA_SHA256 Hv). cbn [mbind read_bind]. destruct (bool_decide _); [done|].
  rewrite (oid_over buf _ _ OID_ECDSA_SHA384 Hv). cbn [mbind read_bind]. by destruct (bool_decide _).
Qed.
Lemma tbs_over c d oid : cert_data_ok c -> over d (match version c with Some v => tlv 0xa0 (tlv DER_INT [v]) | None => [] end ++ tlv DER_INT (serial c) ++ alg_tlv c ++ tlv DER_SEQ (issuer_name c) ++
    tlv DER_SEQ (time_tlv (valid_from c) ++ time_tlv (valid_to c)) ++ tlv DER_SEQ (subject_name c) ++ spki_tlv (public_key c) ++ ids_tlv (unique_ids c) ++ exts_tlv (extensions c)) -> views oid (alg_oid c) ->
  exists i s x, parse_tbs buf d oid = Reads (i, s, stamp (valid_from c), stamp (valid_to c), key_read (public_key c), x) /\
    views i (tlv DER_SEQ (issuer_name c)) /\ views s (tlv DER_SEQ (subject_name c)) /\ says x (bounds_of (extensions c)) (names_of (extensions c)).
Proof.
  intros (K1 & K2 & K3 & K4 & K5 & _) Hd Hoid. unfold parse_tbs.
  set (rest := tlv DER_INT (serial c) ++ _) in Hd.
  assert (exists after tag w, der_read buf d = Reads (after, (tag, w)) /\ over (if negb (tag =? 0xa0) then d else after) rest) as (after & tag & w & -> & H0).
  { destruct (version c); destruct (read_over buf Hlen _ _ _ _ Hd) as (a & w & E & Ha & _); [by exists a, 0xa0, w|by exists a, DER_INT, w]. }
  cbn [mbind read_bind]. set (d0 := if negb (tag =? 0xa0) then d else after) in *. unfold rest in H0.
  destruct (expect_over buf Hlen _ _ _ _ H0) as (d1 & ? & -> & H1 & _). cbn [mbind read_bind].
  destruct (enter_over buf Hlen _ _ _ _ H1) as (d2 & al & -> & H2 & Hal & _). cbn [mbind read_bind].
  destruct (expect_over buf Hlen _ _ _ _ Hal) as (? & io & -> & _ & Hio & _). cbn [mbind read_bind].
  pose proof Hio as [_ L1]. pose proof Hoid as [_ L2]. rewrite L1, L2, Z.eqb_refl. rewrite (views_slice _ _ _ Hoid). cbn [mbind read_bind]. rewrite (views_slice _ _ _ Hio). cbn [mbind read_bind]. rewrite bool_decide_true by done. cbn [negb].
  destruct (expect_over buf Hlen _ _ _ _ H2) as (d3 & ? & -> & H3 & _ & Hi). cbn [mbind read_bind].
  destruct (enter_over buf Hlen _ _ _ _ H3) as (d4 & va & -> & H4 & Hva & _). cbn [mbind read_bind].
  destruct (time_over _ K1) as (t1 & c1 & T1 & P1). destruct (time_over _ K2) as (t2 & c2 & T2 & P2). rewrite T1, T2 in Hva. rewrite <- (app_nil_r (tlv t2 c2)) in Hva.
  destruct (read_over buf Hlen _ _ _ _ Hva) as (va1 & v1 & -> & Hva1 & Hv1 & _). cbn [mbind read_bind]. destruct (read_over buf Hlen _ _ _ _ Hva1) as (? & v2 & -> & _ & Hv2 & _). cbn [mbind read_bind].
  rewrite (P1 v1 Hv1). cbn [mbind read_bind]. rewrite (P2 v2 Hv2). cbn [mbind read_bind].
  destruct (expect_over buf Hlen _ _ _ _ H4) as (d5 & ? & -> & H5 & _ & Hs). cbn [mbind read_bind].
  destruct (expect_over buf Hlen _ _ _ _ H5) as (d6 & ? & -> & H6 & _ & Hk). cbn [mbind read_bind].
  rewrite (spki_over (public_key c) _ K3 Hk). cbn [mbind read_bind]. destruct (ids_over _ _ d6 (steps d6) K5 K4 H6) as (xs & -> & Hx); [rewrite (steps_over _ _ H6); lia|]. cbn [mbind read_bind]. eexists _, _, xs. done.
Qed.
Lemma names_over names d host fuel : host <> [] -> over d (concat ((fun n => tlv n.1 n.2) <$> names)) -> (length names < fuel)%nat ->
  names_from buf fuel d host = if existsb (fun n => (n.1 =? 0x82) && one_name_matches n.2 host) names then Reads tt else Refused.
Proof.
  intros Hh. revert d fuel. induction names as [|[t n] names IH]; intros d fuel Hd Hf; (destruct fuel as [|fuel]; [cbn in Hf; lia|]); cbn [names_from existsb].
  - cbn in Hd. by rewrite (done_over buf d Hd).
  - cbn [fmap list_fmap concat fst snd] in Hd. rewrite (not_done_over buf d _ _ _ Hd). destruct (read_over buf Hlen _ _ _ _ Hd) as (d' & v & -> & Hd' & Hv & _). cbn [mbind read_bind fst snd]. cbn [length] in Hf.
    destruct (t =? 0x82); cbn [andb]; [|apply IH; [done|lia]]. rewrite (views_slice _ _ _ Hv). cbn [mbind read_bind]. destruct (one_name_matches n host); [done|]. apply IH; [done|lia].
Qed.
End Back.

(** ** Names *)

(** What a name in a certificate covers: the host of that name, whatever the case of its
    letters, and after an asterisk and a dot, a host with one label before the rest. *)
Inductive covers (name host : list Z) : Prop :=
  | covers_it : lower <$> name = lower <$> host -> covers name host
  | covers_label label rest after : name = 42 :: 46 :: rest -> host = label ++ 46 :: after -> label <> [] -> 46 ∉ label -> lower <$> rest = lower <$> after -> covers name host.
Lemma same_fold_spec a b : same_fold a b = true <-> lower <$> a = lower <$> b.
Proof.
  revert b. induction a as [|x a IH]; intros [|y b]; cbn; try done. rewrite andb_true_iff, Z.eqb_eq, IH. split; [by intros [-> ->]|by intros [= -> ->]].
Qed.
Lemma from_dot_spec host : exists label, host = label ++ from_dot host /\ 46 ∉ label /\ (from_dot host = [] \/ exists after, from_dot host = 46 :: after).
Proof.
  induction host as [|c host (label & E & Hl & Hd)]; [exists []; split_and!; [done|apply not_elem_of_nil|by left]|]. cbn [from_dot]. destruct (Z.eqb_spec c 46) as [->|Hc].
  - exists []. split_and!; [done|apply not_elem_of_nil|right; by eexists].
  - exists (c :: label). split_and!; [cbn; by rewrite <- E|by apply list.not_elem_of_cons|done].
Qed.
Lemma from_dot_label label after : 46 ∉ label -> from_dot (label ++ 46 :: after) = 46 :: after.
Proof. induction label as [|c label IH]; [done|]. intros [H1 H2]%list.not_elem_of_cons. cbn [app from_dot]. rewrite (proj2 (Z.eqb_neq c 46)) by congruence. by apply IH. Qed.
Lemma lower_star x : lower x = 42 -> x = 42.
Proof. unfold lower. destruct (Z.leb_spec 65 x), (Z.leb_spec x 90); cbn; lia. Qed.
Lemma lower_dot x : lower x = 46 -> x = 46.
Proof. unfold lower. destruct (Z.leb_spec 65 x), (Z.leb_spec x 90); cbn; lia. Qed.
Lemma one_name_spec name host : host <> [] -> one_name_matches name host = true <-> covers name host.
Proof.
  intros Hh. unfold one_name_matches. case_bool_decide as E1.
  { subst. split; [done|]. intros [H|]; [|done]. symmetry in H. by apply fmap_nil_inv in H. }
  case_bool_decide as E2.
  - assert (exists rest, name = 42 :: 46 :: rest /\ drop 2 name = rest) as (rest & -> & ->) by (destruct name as [|x [|y rest]]; [done|done|]; cbn in E2; injection E2 as -> ->; by exists rest). clear E1 E2.
    destruct (from_dot_spec host) as (label & E & Hl & Hd). split.
    + destruct Hd as [Hd|[after Hd]]; rewrite Hd; [done|]. rewrite andb_true_iff, negb_true_iff, Z.eqb_neq, same_fold_spec. intros [Hne Hs]. apply (covers_label _ _ label rest after); try done; [by rewrite <- Hd|].
      intros ->. cbn in E. rewrite Hd in E. apply Hne. exact (f_equal (fun l => zlen l) (eq_sym E)).
    + intros Hc. assert (exists label after, host = label ++ 46 :: after /\ label <> [] /\ 46 ∉ label /\ lower <$> rest = lower <$> after) as (la & after & -> & L1 & L2 & L3).
      { destruct Hc as [Hs|la r after [= <-] -> L1 L2 L3]; [|by exists la, after]. destruct host as [|x [|y after]]; [done|done|]. cbn in Hs. injection Hs as S1 S2 S3. symmetry in S1, S2. apply lower_star in S1. apply lower_dot in S2. subst.
        exists [42], after. split_and!; [done|done| |done]. by apply not_elem_of_cons; split; [|apply not_elem_of_nil]. }
      rewrite from_dot_label by done. rewrite (proj2 (Z.eqb_neq _ _)) by (rewrite length_app; destruct la; [done|cbn; lia]). cbn [negb andb]. by apply same_fold_spec.
  - rewrite same_fold_spec. split; [by left|]. intros [|label rest after -> _ _ _ _]; [done|]. by destruct E2.
Qed.

(** C7: Certificates read as they are written. Of the certificates RFC 5280 describes this
    is of those with a key of the kinds the code knows (RSA with a modulus of 128 bytes to
    RSA_MAX_BYTES and an odd exponent from 3 on of four bytes at most, or an uncompressed point
    on P-256 or P-384), a path length below 32768 if there is one, and below 4 GiB: of any
    version, names, dates, signature algorithm, unique identifiers, and extensions in any
    order. When one is encoded as RFC 5280 has it, x509_parse answers with its algorithm if
    it is one of the six it knows and with none if not, the very bytes that are signed, its
    signature, the encodings of its two names, its dates as numbers that compare as the dates
    do, its key and its last constraints; and the hosts it matches are those that one of its
    DNS names covers. *)
Theorem certificates_read_as_written c : cert_data_ok c -> exists x, x509_parse (cert_tlv c) = Reads x /\
  sig_alg x = alg_read (alg_oid c) /\ field tbs (cert_tlv c, x) = Reads (tbs_tlv c) /\ field sig (cert_tlv c, x) = Reads (signature c) /\
  field issuer (cert_tlv c, x) = Reads (tlv DER_SEQ (issuer_name c)) /\ field subject (cert_tlv c, x) = Reads (tlv DER_SEQ (subject_name c)) /\
  not_before x = stamp (valid_from c) /\ not_after x = stamp (valid_to c) /\ key x = key_read (public_key c) /\
  (has_basic_constraints (exts x), is_ca (exts x), path_len (exts x)) = (match bounds_of (extensions c) with None => (false, false, -1) | Some (ca, n) => (true, ca, default (-1) n) end) /\
  forall host, host <> [] -> x509_host_matches (cert_tlv c, x) host = Reads tt <-> exists names name, names_of (extensions c) = Some names /\ (0x82, name) ∈ names /\ covers name host.
Proof.
  intros Hc. pose proof Hc as (_ & _ & _ & _ & _ & Hsig & Hlen). set (buf := cert_tlv c) in *.
  assert (over buf (der_init (0, zlen buf)) (cert_tlv c ++ [])) as Hd by (rewrite app_nil_r; split; [exists [], []; by rewrite app_nil_r|done]). unfold cert_tlv in Hd.
  unfold x509_parse. destruct (enter_over buf Hlen _ _ _ _ Hd) as (? & d0 & -> & _ & H0 & _). cbn [mbind read_bind].
  destruct (enter_over buf Hlen _ _ _ _ H0) as (d1 & tb & -> & H1 & Ht & Hs). cbn [mbind read_bind].
  destruct (enter_over buf Hlen _ _ _ _ H1) as (d2 & al & -> & H2 & Ha & _). cbn [mbind read_bind].
  destruct (expect_over buf Hlen _ _ _ _ Ha) as (? & o & -> & _ & Ho & _). cbn [mbind read_bind]. rewrite (alg_over buf _ _ Ho). cbn [mbind read_bind].
  rewrite <- (app_nil_r (tlv DER_BITS _)) in H2. destruct (expect_over buf Hlen _ _ _ _ H2) as (? & v & -> & _ & Hv & _). cbn [mbind read_bind].
  destruct (byte_over buf _ _ _ Hv) as [Hb Hb1]. pose proof Hv as [_ L]. rewrite (proj2 (Z.ltb_ge v.2 2)) by (rewrite L; destruct (signature c); [done|cbn; lia]). rewrite Hb. cbn [mbind read_bind]. change (negb (0 =? 0)) with false. cbn iota.
  destruct (tbs_over buf Hlen c tb o Hc Ht Ho) as (i & s & xs & -> & Hi & Hsu & X1 & X2). cbn [mbind read_bind]. eexists. split; [done|]. unfold field. cbn [sig_alg tbs sig issuer subject not_before not_after key exts fst snd].
  split; [done|]. split; [by apply views_slice|]. split; [by apply views_slice|]. split; [by apply views_slice|]. split; [by apply views_slice|]. do 3 (split; [done|]). split; [exact X1|].
  intros host Hh. unfold x509_host_matches. rewrite bool_decide_false by done. cbn [exts fst snd]. destruct (names_of (extensions c)) as [names|].
  - destruct X2 as (w & -> & Hw). pose proof Hw as [_ Lw]. pose proof (tlv_long DER_SEQ (concat ((fun n => tlv n.1 n.2) <$> names))) as Hl. unfold names_value in Lw. rewrite (proj2 (Z.eqb_neq w.2 0)) by lia.
    pose proof (views_over _ _ _ Hw) as Hn. rewrite <- (app_nil_r (names_value names)) in Hn. unfold names_value in Hn. destruct (enter_over buf Hlen _ _ _ _ Hn) as (? & dn & -> & _ & Hdn & _). cbn [mbind read_bind].
    rewrite (names_over buf Hlen names dn host _ Hh Hdn).
    + transitivity (existsb (fun n => (n.1 =? 0x82) && one_name_matches n.2 host) names = true); [by destruct (existsb _ _)|]. rewrite existsb_exists. split.
      * intros ([t n] & Hin & Hm). cbn [fst snd] in Hm. apply andb_prop in Hm as [Hm1 Hm]. apply Z.eqb_eq in Hm1 as ->. apply one_name_spec in Hm; [|done]. exists names, n. split_and!; [done|by apply list_elem_of_In|done].
      * intros (? & n & [= <-] & Hin & Hm). exists (0x82, n). split; [by apply list_elem_of_In|]. cbn. by apply one_name_spec.
    + pose proof (steps_over buf _ _ Hdn) as Hst. pose proof (concat_long (fun n => tlv n.1 n.2) names ltac:(intros; apply tlv_long)) as Hcl. lia.
  - rewrite X2. split; [done|]. by intros (? & ? & [=] & _).
Qed.

Definition sample : cert_data := CertData (Some 2) [1] OID_ECDSA_SHA256 [] [] (Rtc.Rtc 2024 1 1 0 0 0 0) (Rtc.Rtc 2050 12 31 23 59 59 0) [] (EcData EC_P256 (4 :: replicate 64 1)) [(0x81, [0; 9])]
  [Constraints true false None; OtherExt true [0x55; 0x1d; 0x1e] []; AltNames false [(0x82, [42; 46; 122])]] [1].
Lemma sample_ok : cert_data_ok sample.
Proof.
  split_and!; try (vm_compute; done); try (vm_compute; discriminate); cbn; try lia. repeat (constructor; [first [done | split; discriminate]|]). constructor.
  repeat constructor. discriminate.
Qed.
Lemma certificates_read_as_written_witness : exists x, x509_parse (cert_tlv sample) = Reads x /\ x509_host_matches (cert_tlv sample, x) [97; 46; 122] = Reads tt.
Proof.
  destruct (certificates_read_as_written sample sample_ok) as (x & E & _ & _ & _ & _ & _ & _ & _ & _ & _ & H). exists x. split; [exact E|]. apply H; [discriminate|].
  exists [(0x82, [42; 46; 122])], [42; 46; 122]. split; [reflexivity|]. split; [by left|]. apply (covers_label _ _ [97] [122] [122]); try reflexivity; [discriminate|]. by intros [[=]|[]%not_elem_of_nil]%list.elem_of_cons.
Defined.
(** A length in more bytes than it needs is read when it is two bytes or more. *)
Example long_length_read : der_read [0x04; 0x82; 0; 1; 5] (Der 0 5) = Reads (Der 5 5, (0x04, (4, 1))).
Proof. reflexivity. Qed.
