(* ===== verification/Certs.v ===== *)
(** What reading a certificate keeps to: whatever its bytes, nothing outside them is read, and
    what comes of it are places inside them, a key of a size the signature checks take, and
    dates and lengths in their ranges. *)
From S2P Require Import Prelude Sha256 Sha512 Rsa Ec Rtc Zone X509 Encoded.

(** What is known of the answer, if there is one, of a function that reads nothing outside. *)
Definition safe {A} (r : read A) (Q : A -> Prop) : Prop :=
  match r with Reads x => Q x | Refused => True | Outside => False end.
(** The same of one that always answers. *)
Definition sure {A} (r : read A) (Q : A -> Prop) : Prop := exists x, r = Reads x /\ Q x.

Lemma safe_bind {A B} (r : read A) (f : A -> read B) P Q : safe r P -> (forall x, P x -> safe (f x) Q) -> safe (r ≫= f) Q.
Proof. destruct r; cbn; auto. Qed.
Lemma safe_mono {A} (r : read A) (P Q : A -> Prop) : safe r P -> (forall x, P x -> Q x) -> safe r Q.
Proof. destruct r; cbn; auto. Qed.
Lemma sure_bind {A B} (r : read A) (f : A -> read B) P Q : sure r P -> (forall x, P x -> sure (f x) Q) -> sure (r ≫= f) Q.
Proof. intros (x & -> & Hx) H. by apply H. Qed.
Lemma sure_safe {A} (r : read A) Q : sure r Q -> safe r Q.
Proof. by intros (x & -> & Hx). Qed.
Lemma sure_attempt {A} (r : read A) Q : safe r Q -> sure (attempt r) (fun o => match o with Some x => r = Reads x /\ Q x | None => r = Refused end).
Proof. destruct r as [x| |]; cbn; intros H; [by exists (Some x)|by exists None|done]. Qed.
Lemma sure_truth r Q : safe r Q -> sure (truth r) (fun b => if b : bool then r = Reads tt else r = Refused).
Proof. unfold truth. destruct r as [[]| |]; cbn; intros H; [by exists true|by exists false|done]. Qed.
Lemma safe_accept b : safe (accept b) (fun _ => b = true).
Proof. by destruct b. Qed.
Lemma sure_reads {A} (x : A) (Q : A -> Prop) : Q x -> sure (Reads x) Q.
Proof. intros H. by exists x. Qed.

(** Past a check that refuses. *)
Ltac guarded E := match goal with |- safe (if ?b then Refused else _) _ => destruct b eqn:E; [done|] end.

(** A certificate's bytes, of which a length is counted in 32 bits. *)
Definition cert_bytes (buf : list Z) : Prop := bytes buf /\ zlen buf < 4294967296.

Section Within.
Context (buf : list Z) (Hbuf : cert_bytes buf).
Notation len := (zlen buf).

Definition inside (v : view) : Prop := 0 <= v.1 /\ 0 <= v.2 /\ v.1 + v.2 <= len.
Definition fits (d : der_t) : Prop := 0 <= p d <= end_ d /\ end_ d <= len.

Lemma byte_ok i : 0 <= i < len -> sure (byte buf i) (fun b => b = buf.[i] /\ is_u8 b).
Proof.
  intros Hi. unfold byte. rewrite (proj2 (Z.leb_le _ _)), (proj2 (Z.ltb_lt _ _)) by lia. cbn. exists buf.[i]. split_and!; [done|done|].
  apply Forall_getz; [done|apply Hbuf].
Qed.
Lemma slice_ok v : inside v -> sure (slice buf v) (fun l => zlen l = v.2 /\ bytes l /\ l = take (Z.to_nat v.2) (drop (Z.to_nat v.1) buf)).
Proof.
  intros (A & B & C). unfold slice. destruct (Z.eqb_spec v.2 0) as [->|]; [by exists []|]. rewrite (proj2 (Z.leb_le _ _)), (proj2 (Z.leb_le _ _)) by lia. cbn.
  eexists. split; [done|]. rewrite length_take, length_drop. split_and!; [lia|apply Forall_take, Forall_drop, Hbuf|done].
Qed.
Lemma number_ok n acc at_ : is_u32 acc -> 0 <= at_ -> at_ + Z.of_nat n <= len -> sure (number buf n acc at_) is_u32.
Proof.
  revert acc at_. induction n as [|n IH]; intros acc at_ Ha H0 H1; [by exists acc|]. cbn [number].
  eapply sure_bind; [apply byte_ok; lia|cbn beta]. intros b [_ Hb]. apply IH; [|lia|lia]. apply is_word_lor; [lia|apply u32_is_word|]. unfold is_word in *. lia.
Qed.
(** A number of one or two bytes, in its range. *)
Lemma number_small n at_ : (n <= 2)%nat -> 0 <= at_ -> at_ + Z.of_nat n <= len -> sure (number buf n 0 at_) (fun x => 0 <= x < 65536).
Proof.
  intros Hn H0 H1. assert (forall acc b, 0 <= acc < 256 -> is_u8 b -> 0 <= u32 (acc .<< 8) .| b < 65536) as Hs.
  { intros acc b Ha Hb. rewrite (Z.shiftl_mul_pow2 _ 8) by lia. rewrite u32_id by (unfold is_word; lia). apply (is_word_lor 16); unfold is_word in *; lia. }
  destruct n as [|[|[|]]]; try lia; cbn [number].
  - by exists 0.
  - eapply sure_bind; [apply byte_ok; lia|cbn beta]. intros b [_ Hb]. exists (u32 (0 .<< 8) .| b). split; [done|]. by apply Hs.
  - eapply sure_bind; [apply byte_ok; lia|cbn beta]. intros b [_ Hb]. eapply sure_bind; [apply byte_ok; lia|cbn beta]. intros c [_ Hc]. eexists. split; [done|]. apply Hs; [|done].
    change (u32 (0 .<< 8)) with 0. rewrite Z.lor_0_l. unfold is_word in Hb. lia.
Qed.

Lemma der_init_fits v : inside v -> fits (der_init v).
Proof. intros (A & B & C). unfold fits, der_init. cbn. lia. Qed.
(** One element: at least two bytes of the reader's, its content the last of them. *)
Definition one_read (d d' : der_t) (v : view) : Prop :=
  fits d' /\ end_ d' = end_ d /\ p d + 2 <= p d' /\ inside v /\ p d + 2 <= v.1 /\ v.1 + v.2 = p d'.
Lemma der_read_ok d : fits d -> safe (der_read buf d) (fun r => one_read d r.1 r.2.2).
Proof.
  intros (A & B). unfold der_read. destruct (Z.ltb_spec (end_ d - p d) 2); [done|].
  eapply safe_bind; [apply sure_safe, byte_ok; lia|cbn beta]. intros tag _. eapply safe_bind; [apply sure_safe, byte_ok; lia|cbn beta]. intros n0 [_ Hn0].
  destruct (n0 =? 0x80); [done|]. destruct Hbuf as [_ Hlen].
  eapply (safe_bind _ _ (fun r => is_u32 r.1 /\ p d + 2 <= r.2 <= end_ d)).
  - destruct (n0 .& 0x80 =? 0); [cbn; unfold is_word in *; lia|]. destruct (Z.ltb_spec 4 (n0 .& 0x7f)); [done|].
    assert (0 <= n0 .& 0x7f) by (apply Z.land_nonneg; lia).
    rewrite u32_id by (unfold is_word; lia). destruct (Z.ltb_spec (end_ d - (p d + 2)) (n0 .& 0x7f)); [done|].
    eapply safe_bind; [apply sure_safe, number_ok; [done|lia|lia]|cbn beta]. intros n Hn. destruct (_ && _); [done|]. cbn. split; [done|lia].
  - intros [n q] [Hn Hq]. cbn [fst snd] in *. rewrite u32_id by (unfold is_word; lia). destruct (Z.ltb_spec (end_ d - q) n); [done|]. unfold is_word in Hn.
    cbn. unfold one_read, fits, inside. cbn. lia.
Qed.
Lemma der_expect_ok d want : fits d -> safe (der_expect buf d want) (fun r => one_read d r.1 r.2).
Proof.
  intros Hd. unfold der_expect. eapply safe_bind; [by apply der_read_ok|cbn beta]. intros [d' [t v]] H. destruct (t =? want); [exact H|done].
Qed.
Lemma der_enter_ok d want : fits d -> safe (der_enter buf d want) (fun r => fits r.1 /\ end_ r.1 = end_ d /\ p d + 2 <= p r.1 /\ fits r.2).
Proof.
  intros Hd. unfold der_enter. eapply safe_bind; [by apply der_expect_ok|cbn beta]. intros [d' v] (A & B & C & D & _). cbn in *. split; [exact A|split; [done|split; [done|by apply der_init_fits]]].
Qed.
Lemma oid_is_ok v want : inside v -> sure (oid_is buf v want) (fun _ => True).
Proof.
  intros Hv. unfold oid_is. destruct (_ =? _); [|by exists false]. eapply sure_bind; [by apply slice_ok|cbn beta]. intros l _. by eexists.
Qed.

Lemma sig_alg_ok v : inside v -> sure (sig_alg_from_oid buf v) (fun _ => True).
Proof.
  intros Hv. unfold sig_alg_from_oid. repeat (eapply sure_bind; [by apply oid_is_ok|]; intros [] _; [by eexists|]). by eexists.
Qed.

(** ** Times *)

Lemma digits_from_ok n v at_ m : 0 <= v < m -> 0 <= at_ -> at_ + Z.of_nat n <= len -> m * 10 ^ Z.of_nat n <= 100000 ->
  safe (digits_from buf n v at_) (fun x => 0 <= x < m * 10 ^ Z.of_nat n).
Proof.
  revert v at_ m. induction n as [|n IH]; intros v at_ m Hv H0 H1 Hm; [cbn; lia|]. cbn [digits_from].
  eapply safe_bind; [apply sure_safe, byte_ok; lia|cbn beta]. intros c [_ Hc]. destruct (Z.ltb_spec c 48); [done|]. destruct (Z.ltb_spec 57 c); [done|]. cbn [orb].
  replace (10 ^ Z.of_nat (S n)) with (10 * 10 ^ Z.of_nat n) in * by (rewrite Nat2Z.inj_succ, Z.pow_succ_r; lia).
  assert (0 < 10 ^ Z.of_nat n) by (apply Z.pow_pos_nonneg; lia).
  rewrite u32_id by (unfold is_word; nia). replace (m * (10 * 10 ^ Z.of_nat n)) with ((m * 10) * 10 ^ Z.of_nat n) by lia. apply IH; lia.
Qed.
Lemma two_digits_ok at_ : 0 <= at_ -> at_ + 2 <= len -> safe (digits buf at_ 2) (fun x => 0 <= x < 100).
Proof. intros H0 H1. unfold digits. apply (digits_from_ok 2 0 at_ 1); cbn; lia. Qed.
Lemma four_digits_ok at_ : 0 <= at_ -> at_ + 4 <= len -> safe (digits buf at_ 4) (fun x => 0 <= x < 10000).
Proof. intros H0 H1. unfold digits. apply (digits_from_ok 4 0 at_ 1); cbn; lia. Qed.

(** A time packed in one number: its year, month, day, hour, minute and second. *)
Definition packed (x : Z) : Prop := exists year mon day hour min sec,
  x = year * 10000000000 + mon * 100000000 + day * 1000000 + hour * 10000 + min * 100 + sec /\
  0 <= year < 10000 /\ 1 <= mon <= 12 /\ 1 <= day <= 31 /\ 0 <= hour <= 23 /\ 0 <= min <= 59 /\ 0 <= sec <= 60.
Lemma parse_time_ok tag v : inside v -> safe (parse_time buf tag v) packed.
Proof.
  destruct v as [q n]. intros (A & B & C). cbn in *. unfold parse_time.
  eapply (safe_bind _ _ (fun r => 0 <= r.1 < 10000 /\ 0 <= r.2 <= 4)).
  { destruct (tag =? DER_UTC).
    - destruct (Z.ltb_spec n 11); [done|]. eapply safe_bind; [apply two_digits_ok; lia|cbn beta]. intros yy Hy. cbn. destruct (yy <? 50); lia.
    - destruct (tag =? DER_GEN); [|done]. destruct (Z.ltb_spec n 13); [done|]. eapply safe_bind; [apply four_digits_ok; lia|cbn beta]. intros y Hy. cbn. lia. }
  intros [year i] [Hy Hi]. cbn [fst snd] in *. destruct (Z.ltb_spec n (i + 8)); [done|].
  eapply safe_bind; [apply two_digits_ok; lia|cbn beta]. intros mon Hmon. eapply safe_bind; [apply two_digits_ok; lia|cbn beta]. intros day Hday.
  eapply safe_bind; [apply two_digits_ok; lia|cbn beta]. intros hour Hhour. eapply safe_bind; [apply two_digits_ok; lia|cbn beta]. intros min Hmin.
  eapply (safe_bind _ _ (fun x => 0 <= x < 100)).
  { destruct (Z.ltb_spec n (i + 8 + 2)); [cbn; lia|]. eapply safe_bind; [apply sure_safe, byte_ok; lia|cbn beta]. intros c _. destruct (_ && _); [apply two_digits_ok; lia|cbn; lia]. }
  intros sec Hsec. guarded E1. guarded E2. cbn. exists year, mon, day, hour, min, sec. lia.
Qed.

(** ** The public key *)

Lemma stripped_ok v : inside v -> sure (stripped buf v) (fun w => inside w /\ w.2 <= v.2 /\ w.1 + w.2 = v.1 + v.2).
Proof.
  destruct v as [q n]. intros (A & B & C). cbn in *. unfold stripped. cbn [fst snd]. rewrite <- (Z2Nat.id n) in C |- * by done. rewrite Nat2Z.id. clear B. generalize dependent q. induction (Z.to_nat n) as [|m IH]; intros q A C.
  - exists (q, 0). unfold inside. cbn. split; [done|lia].
  - cbn [strip_zeros]. eapply sure_bind; [apply byte_ok; lia|cbn beta]. intros b _. destruct (b =? 0).
    + destruct (IH (q + 1)) as (w & E & Hw & H1 & H2); [lia|lia|]. exists w. split; [done|]. split; [done|lia].
    + eexists. split; [done|]. unfold inside. cbn [fst snd]. lia.
Qed.

(** A key the signature checks take: an RSA key of 1024 to 4096 bits with an odd exponent
    of at least 3, or a point of its curve's length, uncompressed. *)
Definition key_ok (k : key_t) : Prop :=
  match k with
  | X509_KEY_RSA k => key_wf k /\ 128 <= n_len k <= RSA_MAX_BYTES /\ 3 <= ke k /\ Z.odd (ke k) = true
  | X509_KEY_EC c pt => bytes pt /\ zlen pt = 1 + 2 * ec_field_bytes c /\ pt.[0] = 4
  end.
Lemma parse_rsa_ok bits : inside bits -> safe (parse_rsa buf bits) key_ok.
Proof.
  intros Hb. unfold parse_rsa. eapply safe_bind; [by apply der_enter_ok, der_init_fits|cbn beta]. intros [? seq] (_ & _ & _ & Hs). cbn in Hs.
  eapply safe_bind; [by apply der_expect_ok|cbn beta]. intros [seq1 n] (H1 & _ & _ & Hn & _). cbn in H1, Hn.
  eapply safe_bind; [by apply der_expect_ok|cbn beta]. intros [seq2 e] (_ & _ & _ & He & _). cbn in He.
  eapply safe_bind; [by apply sure_safe, stripped_ok|cbn beta]. intros n' (Hn' & _). destruct (_ || _) eqn:E1; [done|]. destruct (Z.ltb_spec n'.2 128); [done|].
  eapply safe_bind; [by apply sure_safe, stripped_ok|cbn beta]. intros e' (He' & _). destruct ((e'.2 =? 0) || _) eqn:E2; [done|].
  eapply safe_bind; [apply sure_safe, number_ok; [done|apply He'|destruct He'; lia]|cbn beta]. intros ev Hev. destruct ((ev <? 3) || _) eqn:E3; [done|].
  eapply safe_bind; [by apply sure_safe, slice_ok|cbn beta]. intros nb (Hl & Hbs & _). cbn. unfold RSA_MAX_BYTES in *.
  assert (ev .& 1 = 1) as Hodd by (rewrite land_1 in *; apply orb_false_elim in E3 as [_ ?%Z.eqb_neq]; pose proof (Z.mod_pos_bound ev 2); lia).
  split; [constructor; cbn|split; [cbn; lia|split; [cbn; lia|]]].
  - rewrite length_app, length_replicate. unfold RSA_MAX_BYTES. lia.
  - apply Forall_app. split; [done|]. apply Forall_replicate. done.
  - unfold is_word. lia.
  - done.
  - cbn. rewrite land_1 in Hodd. rewrite Zodd_mod. by rewrite Hodd.
Qed.
Lemma parse_ec_ok alg bits : fits alg -> inside bits -> safe (parse_ec buf alg bits) key_ok.
Proof.
  intros Ha Hb. unfold parse_ec. eapply safe_bind; [by apply der_expect_ok|cbn beta]. intros [? cv] (_ & _ & _ & Hc & _). cbn in Hc.
  eapply safe_bind; [by apply sure_safe, oid_is_ok|cbn beta]. intros p256 _. eapply (safe_bind _ _ (fun _ => True)).
  { destruct p256; [done|]. by apply sure_safe, oid_is_ok. }
  intros p384 _. destruct (_ && _); [done|]. set (c := if p256 then EC_P256 else EC_P384). destruct (Z.eqb_spec bits.2 (1 + 2 * ec_field_bytes c)) as [E|]; [|done]. cbn [negb].
  assert (0 < ec_field_bytes c) by (by destruct c). destruct Hb as (A & B & C).
  eapply safe_bind; [apply sure_safe, byte_ok; lia|cbn beta]. intros b [-> Hb0]. destruct (Z.eqb_spec buf.[bits.1] 4) as [E4|]; [|done]. cbn [negb].
  eapply safe_bind; [apply sure_safe, slice_ok; done|cbn beta]. intros pt (Hl & Hbs & Ept). cbn. split_and!; [done|lia|].
  rewrite Ept, getz_take, getz_drop by lia. by rewrite Z2Nat.id by lia.
Qed.
Lemma parse_spki_ok v : inside v -> safe (parse_spki buf v) key_ok.
Proof.
  intros Hv. unfold parse_spki. eapply safe_bind; [by apply der_enter_ok, der_init_fits|cbn beta]. intros [? spki] (_ & _ & _ & H1). cbn in H1.
  eapply safe_bind; [by apply der_enter_ok|cbn beta]. intros [spki' alg] (H2 & _ & _ & H3). cbn in H2, H3.
  eapply safe_bind; [by apply der_expect_ok|cbn beta]. intros [alg' oid] (H4 & _ & _ & H5 & _). cbn in H4, H5.
  eapply safe_bind; [by apply der_expect_ok|cbn beta]. intros [? bits] (_ & _ & _ & H6 & _). cbn in H6. destruct (Z.ltb_spec bits.2 2); [done|].
  eapply safe_bind; [apply sure_safe, byte_ok; destruct H6; lia|cbn beta]. intros b _. destruct (negb _); [done|].
  assert (inside (bits.1 + 1, bits.2 - 1)) as H7 by (unfold inside in *; cbn; lia).
  eapply safe_bind; [by apply sure_safe, oid_is_ok|cbn beta]. intros [] _; [by apply parse_rsa_ok|].
  eapply safe_bind; [by apply sure_safe, oid_is_ok|cbn beta]. intros [] _; [by apply parse_ec_ok|done].
Qed.

(** ** Extensions *)

Definition exts_ok (e : exts_t) : Prop := -1 <= path_len e < 65536 /\ forall v, san e = Some v -> inside v.
Lemma parse_constraints_ok v sans : inside v -> (forall w, sans = Some w -> inside w) -> safe (parse_constraints buf v sans) exts_ok.
Proof.
  intros Hv Hs. unfold parse_constraints. eapply safe_bind; [by apply der_enter_ok, der_init_fits|cbn beta]. intros [? inner] (_ & _ & _ & Hi). cbn in Hi.
  eapply (safe_bind _ _ (fun r => fits r.1)).
  { destruct (der_done inner); [exact Hi|]. eapply safe_bind; [by apply der_read_ok|cbn beta]. intros [after [t w]] (Ha & _ & _ & Hw & _). cbn in Ha, Hw. destruct (t =? DER_BOOL); [|exact Hi].
    destruct (Z.eqb_spec w.2 1); [|exact Ha]. eapply safe_bind; [apply sure_safe, byte_ok; destruct Hw; lia|cbn beta]. intros b _. exact Ha. }
  intros [inner' ca] Hi'. cbn in Hi'. eapply (safe_bind _ _ (fun x => -1 <= x < 65536)).
  { destruct (der_done inner'); [cbn; lia|]. eapply safe_bind; [apply sure_safe, sure_attempt; by apply der_expect_ok|cbn beta]. intros [[? w]|]; [|cbn; lia]. intros (_ & _ & _ & _ & Hw & _). cbn in Hw.
    destruct (Z.eqb_spec w.2 0); [cbn; lia|]. destruct (Z.ltb_spec 2 w.2); [cbn; lia|]. cbn [orb]. eapply safe_mono; [apply sure_safe, number_small; destruct Hw; lia|]. cbn. lia. }
  intros n Hn. cbn. split; [done|exact Hs].
Qed.
Lemma parse_extension_ok ext out : fits ext -> exts_ok out -> safe (parse_extension buf ext out) exts_ok.
Proof.
  intros He Ho. unfold parse_extension. eapply safe_bind; [by apply der_expect_ok|cbn beta]. intros [ext1 oid] (H1 & _ & _ & Hoid & _). cbn in H1, Hoid.
  eapply safe_bind; [by apply der_read_ok|cbn beta]. intros [after [tag w]] (H2 & _). cbn in H2.
  eapply safe_bind; [apply der_read_ok; by destruct (_ =? _)|cbn beta]. intros [? [tag' v]] (_ & _ & _ & Hv & _). cbn in Hv. destruct (negb _); [done|].
  eapply safe_bind; [by apply sure_safe, oid_is_ok|cbn beta]. intros [] _; [apply parse_constraints_ok; [done|apply Ho]|].
  eapply safe_bind; [by apply sure_safe, oid_is_ok|cbn beta]. intros [] _; [|done]. cbn. split; [apply Ho|]. cbn. by intros w' [= <-].
Qed.
Lemma extensions_from_ok fuel d out : fits d -> exts_ok out -> end_ d - p d < Z.of_nat fuel -> safe (extensions_from buf fuel d out) exts_ok.
Proof.
  revert d out. induction fuel as [|fuel IH]; intros d out Hd Ho Hf; [destruct Hd; lia|]. cbn [extensions_from]. destruct (der_done d); [done|].
  eapply safe_bind; [by apply der_enter_ok|cbn beta]. intros [d' ext] (H1 & H2 & H3 & H4). cbn in H1, H2, H3, H4.
  eapply safe_bind; [by apply parse_extension_ok|cbn beta]. intros out' Ho'. apply IH; [done|done|lia].
Qed.
Lemma steps_enough d : end_ d - p d < Z.of_nat (steps d).
Proof. unfold steps. lia. Qed.
Lemma trailer_from_ok fuel d out : fits d -> exts_ok out -> end_ d - p d < Z.of_nat fuel -> safe (trailer_from buf fuel d out) exts_ok.
Proof.
  revert d out. induction fuel as [|fuel IH]; intros d out Hd Ho Hf; [destruct Hd; lia|]. cbn [trailer_from]. destruct (der_done d); [done|].
  eapply safe_bind; [by apply der_read_ok|cbn beta]. intros [d' [tag v]] (H1 & H2 & H3 & Hv & _). cbn in H1, H2, H3, Hv.
  destruct (tag =? 0xa3); [|apply IH; [done|done|lia]]. eapply safe_bind; [by apply der_enter_ok, der_init_fits|cbn beta]. intros [? ex] (_ & _ & _ & H4). cbn in H4.
  eapply safe_bind; [apply extensions_from_ok; [done|done|apply steps_enough]|cbn beta]. intros out' Ho'. apply IH; [done|done|lia].
Qed.

(** ** A whole certificate *)

Record well_read (x : x509_t) : Prop := {
  wr_tbs : inside (tbs x); wr_sig : inside (sig x); wr_issuer : inside (issuer x); wr_subject : inside (subject x);
  wr_before : packed (not_before x); wr_after : packed (not_after x); wr_key : key_ok (key x); wr_exts : exts_ok (exts x) }.
Lemma from_start_ok d d' : fits d -> p d + 2 <= p d' -> fits d' -> inside (from_start d d').
Proof.
  intros Hd Hp Hd'. destruct Hbuf as [_ Hl]. unfold from_start, inside, fits in *. cbn. rewrite u32_id by (unfold is_word; lia). lia.
Qed.
Lemma parse_tbs_ok d oid : fits d -> inside oid ->
  safe (parse_tbs buf d oid) (fun '(i, s, nb, na, k, e) => inside i /\ inside s /\ packed nb /\ packed na /\ key_ok k /\ exts_ok e).
Proof.
  intros Hd Hoid. unfold parse_tbs. eapply safe_bind; [by apply der_read_ok|cbn beta]. intros [after [tag ?]] (H0 & _). cbn in H0.
  eapply safe_bind; [apply der_expect_ok; by destruct (negb _)|cbn beta]. intros [d1 ?] (H1 & _). cbn in H1.
  eapply safe_bind; [by apply der_enter_ok|cbn beta]. intros [d2 alg] (H2 & _ & _ & Ha). cbn in H2, Ha.
  eapply safe_bind; [by apply der_expect_ok|cbn beta]. intros [? ioid] (_ & _ & _ & Hio & _). cbn in Hio.
  eapply (safe_bind _ _ (fun _ => True)); [destruct (_ =? _); [eapply safe_mono; [by apply sure_safe, slice_ok|done]|done]|]. intros want _.
  eapply (safe_bind _ _ (fun _ => True)); [destruct (_ =? _); [eapply safe_bind; [by apply sure_safe, slice_ok|]; done|done]|cbn beta]. intros same _. destruct (negb same); [done|].
  eapply safe_bind; [by apply der_expect_ok|cbn beta]. intros [d3 v3] (H3 & _ & L3 & _). cbn in H3, L3.
  eapply safe_bind; [by apply der_enter_ok|cbn beta]. intros [d4 val] (H4 & _ & _ & Hval). cbn in H4, Hval.
  eapply safe_bind; [by apply der_read_ok|cbn beta]. intros [val1 [t1 v1]] (H5 & _ & _ & Hv1 & _). cbn in H5, Hv1.
  eapply safe_bind; [by apply der_read_ok|cbn beta]. intros [? [t2 v2]] (_ & _ & _ & Hv2 & _). cbn in Hv2.
  eapply safe_bind; [by apply parse_time_ok|cbn beta]. intros nb Hnb. eapply safe_bind; [by apply parse_time_ok|cbn beta]. intros na Hna.
  eapply safe_bind; [by apply der_expect_ok|cbn beta]. intros [d6 v6] (H6 & _ & L6 & _). cbn in H6, L6.
  eapply safe_bind; [by apply der_expect_ok|cbn beta]. intros [d7 v7] (H7 & _ & L7 & _). cbn in H7, L7.
  eapply safe_bind; [apply parse_spki_ok, from_start_ok; done|cbn beta]. intros k Hk.
  eapply safe_bind; [apply trailer_from_ok; [done| |apply steps_enough]|cbn beta]. { split; [cbn; lia|done]. }
  intros e He. cbn. split_and!; [by apply from_start_ok|by apply from_start_ok|done|done|done|done].
Qed.
Lemma x509_parse_ok : safe (x509_parse buf) well_read.
Proof.
  unfold x509_parse. assert (inside (0, len)) as H0 by (unfold inside; cbn; lia).
  eapply safe_bind; [by apply der_enter_ok, der_init_fits|cbn beta]. intros [? cert] (_ & _ & _ & Hc). cbn in Hc.
  eapply safe_bind; [by apply der_enter_ok|cbn beta]. intros [c1 tbs] (H1 & _ & L1 & Ht). cbn in H1, L1, Ht.
  eapply safe_bind; [by apply der_enter_ok|cbn beta]. intros [c2 alg] (H2 & _ & _ & Ha). cbn in H2, Ha.
  eapply safe_bind; [by apply der_expect_ok|cbn beta]. intros [? oid] (_ & _ & _ & Ho & _). cbn in Ho.
  eapply safe_bind; [by apply sure_safe, sig_alg_ok|cbn beta]. intros a _.
  eapply safe_bind; [by apply der_expect_ok|cbn beta]. intros [? sg] (_ & _ & _ & Hs & _). cbn in Hs. destruct (Z.ltb_spec sg.2 2); [done|].
  eapply safe_bind; [apply sure_safe, byte_ok; destruct Hs; lia|cbn beta]. intros b _. destruct (negb _); [done|].
  eapply safe_bind; [by apply parse_tbs_ok|cbn beta]. intros [[[[[i s] nb] na] k] e] (R1 & R2 & R3 & R4 & R5 & R6).
  cbn. constructor; cbn; try done; [by apply from_start_ok|]. unfold inside in *. cbn. lia.
Qed.

Lemma ecdsa_split_ok v : inside v -> safe (x509_ecdsa_split buf v) (fun r => inside r.1 /\ inside r.2).
Proof.
  intros Hv. unfold x509_ecdsa_split. eapply safe_bind; [by apply der_enter_ok, der_init_fits|cbn beta]. intros [? seq] (_ & _ & _ & H0). cbn in H0.
  eapply safe_bind; [by apply der_expect_ok|cbn beta]. intros [s1 r] (H1 & _ & _ & Hr & _). cbn in H1, Hr.
  eapply safe_bind; [by apply der_expect_ok|cbn beta]. intros [s2 s] (H2 & _ & _ & Hs & _). cbn in H2, Hs. destruct (negb _); [done|].
  eapply safe_bind; [by apply sure_safe, stripped_ok|cbn beta]. intros r' (Hr' & _). eapply safe_bind; [by apply sure_safe, stripped_ok|cbn beta]. intros s' (Hs' & _).
  by destruct (_ && _).
Qed.
Lemma names_from_ok fuel d host : fits d -> end_ d - p d < Z.of_nat fuel -> safe (names_from buf fuel d host) (fun _ => True).
Proof.
  revert d. induction fuel as [|fuel IH]; intros d Hd Hf; [destruct Hd; lia|]. cbn [names_from]. destruct (der_done d); [done|].
  eapply safe_bind; [by apply der_read_ok|cbn beta]. intros [d' [tag v]] (H1 & H2 & H3 & Hv & _). cbn in H1, H2, H3, Hv.
  destruct (tag =? 0x82); [|apply IH; [done|lia]]. eapply safe_bind; [by apply sure_safe, slice_ok|cbn beta]. intros name _.
  destruct (one_name_matches name host); [done|apply IH; [done|lia]].
Qed.
End Within.

(** ** Chains *)

(** A certificate that was read. *)
Definition cert_ok (c : cert) : Prop := cert_bytes c.1 /\ well_read c.1 c.2.
Lemma parsed_ok buf x : cert_bytes buf -> x509_parse buf = Reads x -> cert_ok (buf, x).
Proof. intros Hb E. split; [done|]. pose proof (x509_parse_ok buf Hb) as H. by rewrite E in H. Qed.
Lemma field_ok c f : cert_ok c -> inside c.1 (f c.2) -> sure (field f c) (fun l => zlen l = (f c.2).2 /\ bytes l).
Proof. intros [Hb _] Hf. destruct (slice_ok c.1 Hb _ Hf) as (l & E & H1 & H2 & _). by exists l. Qed.
Lemma hash_for_ok alg l : safe (hash_for alg l) (fun _ => True).
Proof. by destruct alg. Qed.
Lemma accept_ok b : safe (accept b) (fun _ => True).
Proof. by destruct b. Qed.
Lemma signed_by_ok c i : cert_ok c -> safe (x509_signed_by c i) (fun _ => True).
Proof.
  intros Hc. pose proof Hc as [Hb Hw]. unfold x509_signed_by. eapply safe_bind; [apply sure_safe, field_ok; [done|apply Hw]|cbn beta]. intros data _.
  eapply safe_bind; [apply hash_for_ok|cbn beta]. intros h _. eapply safe_bind; [apply sure_safe, field_ok; [done|apply Hw]|cbn beta]. intros s _.
  assert (forall q pt, safe ('(r, t) ← x509_ecdsa_split c.1 (sig c.2); r ← slice c.1 r; t ← slice c.1 t; accept (ec_verify q pt h r t)) (fun _ => True)) as He.
  { intros q pt. eapply safe_bind; [apply ecdsa_split_ok; [done|apply Hw]|cbn beta]. intros [r t] [Hr Ht]. eapply safe_bind; [by apply sure_safe, slice_ok|cbn beta]. intros rb _.
    eapply safe_bind; [by apply sure_safe, slice_ok|cbn beta]. intros tb _. apply accept_ok. }
  destruct (sig_alg c.2), (key i.2); try done; try apply accept_ok; apply He.
Qed.
Lemma host_matches_ok c host : cert_ok c -> safe (x509_host_matches c host) (fun _ => True).
Proof.
  intros [Hb Hw]. unfold x509_host_matches. destruct (bool_decide _); [done|]. destruct (san (exts c.2)) as [v|] eqn:E; [|done]. destruct (v.2 =? 0); [done|].
  eapply safe_bind; [apply der_enter_ok; [done|by apply der_init_fits, (proj2 (wr_exts _ _ Hw))]|cbn beta]. intros [? names] (_ & _ & _ & Hn). cbn in Hn. apply names_from_ok; [done|done|apply steps_enough].
Qed.

(** A store whose entries say where in them their subjects are. *)
Definition root_ok (r : root_t) : Prop := cert_bytes (der r) /\ 0 <= sub_off r /\ 0 <= sub_len r /\ sub_off r + sub_len r <= zlen (der r).
Section Store.
Context (ROOTS : list root_t) (Hroots : Forall root_ok ROOTS) (host : list Z) (now : Z).

(** The store has this certificate for a name. *)
Definition in_store (name root : list Z) : Prop := exists r, r ∈ ROOTS /\ der r = root /\ slice (der r) (sub_off r, sub_len r) = Reads name.
Lemma roots_find_ok name : sure (roots_find ROOTS name) (fun o => match o with Some root => name <> [] /\ in_store name root /\ cert_bytes root | None => True end).
Proof.
  unfold roots_find, in_store. destruct name as [|x name]; [by exists None|]. set (n := x :: name) in *. assert (n <> []) as Hne by done. clearbody n. induction ROOTS as [|r l IH]; [by exists None|].
  inversion_clear Hroots as [|? ? Hr Hl]. assert (sure (roots_in l n) (fun o => match o with Some root => n <> [] /\ (exists r', r' ∈ r :: l /\ der r' = root /\ slice (der r') (sub_off r', sub_len r') = Reads n) /\ cert_bytes root | None => True end)) as Hrest.
  { destruct (IH Hl) as (o & E & Ho). exists o. split; [done|]. destruct o as [root|]; [|done]. destruct Ho as (? & (r' & Hin & ?) & ?). split_and!; [done| |done]. exists r'. split; [by right|done]. }
  cbn [roots_in]. destruct (negb _); [done|]. destruct Hr as (Hb & H0 & H1 & H2).
  destruct (slice_ok (der r) Hb (sub_off r, sub_len r)) as (s & Es & _); [unfold inside; cbn; lia|]. rewrite Es. cbn [mbind read_bind].
  destruct (bool_decide_reflect (s = n)) as [->|]; [|done]. exists (Some (der r)). split; [done|]. split_and!; [done| |done]. exists r. split; [by left|done].
Qed.
Lemma roots_find_for_ok c f : cert_ok c -> inside c.1 (f c.2) -> sure (roots_find_for ROOTS f c) (fun o => match o with Some root => exists name, field f c = Reads name /\ name <> [] /\ in_store name root /\ cert_bytes root | None => True end).
Proof.
  intros Hc Hf. unfold roots_find_for. destruct (field_ok c f Hc Hf) as (name & E & _). rewrite E. cbn [mbind read_bind].
  destruct (roots_find_ok name) as (o & Eo & Ho). exists o. split; [done|]. destruct o; [|done]. by exists name.
Qed.

Definition chain_ok (chain : chain_t) : Prop := forall k c, chain !! k = Some (Some c) -> cert_ok c.
Definition from_der (d : list Z) (o : option cert) : Prop := match o with Some c => c.1 = d /\ x509_parse d = Reads c.2 | None => x509_parse d = Refused end.
Lemma parse_rest_ok ders : Forall cert_bytes ders -> sure (parse_rest ders) (fun chain => Forall2 from_der ders chain).
Proof.
  induction 1 as [|d ders Hd _ IH]; [by apply sure_reads|]. cbn [parse_rest]. eapply sure_bind; [by apply sure_attempt, x509_parse_ok|cbn beta]. intros o Ho.
  eapply sure_bind; [exact IH|cbn beta]. intros rest Hrest. apply sure_reads. constructor; [|done]. destruct o as [x|]; [by destruct Ho|done].
Qed.
Lemma from_der_ok ders chain : Forall cert_bytes ders -> Forall2 from_der ders chain -> chain_ok chain.
Proof.
  intros Hb H k [buf x] Hk. destruct (Forall2_lookup_r _ _ _ _ _ H Hk) as (d & Hd & (E & E')). cbn in *. subst d. apply parsed_ok; [|done]. by apply (Forall_lookup_1 _ _ _ _ Hb Hd).
Qed.

(** A certificate of the chain that was not used, whose subject is the issuer of [top]. *)
Definition parent_of (chain : chain_t) (used : Z) (top : cert) (k : nat) (c : cert) : Prop :=
  chain !! k = Some (Some c) /\ Z.testbit used (Z.of_nat k) = false /\ exists name, field issuer top = Reads name /\ field subject c = Reads name.
Lemma find_parent_ok chain k0 used top : chain_ok chain -> cert_ok top ->
  sure (find_parent chain k0 used top) (fun o => match o with Some (k, c) => (k0 <= k)%nat /\ chain !! (k - k0)%nat = Some (Some c) /\ Z.testbit used (Z.of_nat k) = false /\ exists name, field issuer top = Reads name /\ field subject c = Reads name | None => True end).
Proof.
  intros Hch Ht. revert k0 Hch. induction chain as [|o chain IH]; intros k0 Hch; [by exists None|].
  assert (chain_ok chain) as Hch' by (intros k c; apply (Hch (S k) c)).
  assert (sure (find_parent chain (S k0) used top) (fun o' => match o' with Some (k, c) => (k0 <= k)%nat /\ (o :: chain) !! (k - k0)%nat = Some (Some c) /\ Z.testbit used (Z.of_nat k) = false /\ exists name, field issuer top = Reads name /\ field subject c = Reads name | None => True end)) as Hrest.
  { destruct (IH (S k0) Hch') as (o' & E & Ho). exists o'. split; [done|]. destruct o' as [[k c]|]; [|done]. destruct Ho as (H1 & H2 & H3 & H4). split_and!; [lia| |done|done].
    replace (k - k0)%nat with (S (k - S k0)) by lia. done. }
  cbn [find_parent]. destruct o as [c|]; [|done]. destruct (Z.eqb_spec (used .& (1 .<< Z.of_nat k0)) 0) as [Eu|]; [|done]. cbn [negb]. destruct (negb _); [done|].
  assert (cert_ok c) as Hc by (by apply (Hch 0%nat)). destruct (field_ok c subject Hc) as (s & Es & _); [apply Hc|]. destruct (field_ok top issuer Ht) as (i & Ei & _); [apply Ht|].
  rewrite Es, Ei. cbn [mbind read_bind]. destruct (bool_decide_reflect (s = i)) as [->|]; [|by rewrite Ei in Hrest]. exists (Some (k0, c)). split; [done|]. split_and!; [lia|by rewrite Nat.sub_diag| |by exists i].
  pose proof (land_pow2_test used (Z.of_nat k0) ltac:(lia)) as Hp. rewrite Eu in Hp. by destruct (Z.testbit used (Z.of_nat k0)).
Qed.
Lemma self_signed_ok c : cert_ok c -> sure (self_signed c) (fun _ => True).
Proof.
  intros Hc. unfold self_signed. destruct (_ =? _); [|by exists false]. destruct (field_ok c subject Hc) as (s & -> & _); [apply Hc|]. destruct (field_ok c issuer Hc) as (i & -> & _); [apply Hc|].
  cbn. by eexists.
Qed.

(** ** What an accepted chain is *)

(** A certificate whose dates the clock is within, when there is a clock. *)
Definition in_date (c : cert) : Prop := now = 0 \/ not_before c.2 <= now <= not_after c.2.
(** An authority, with so many others allowed between it and the leaf. *)
Definition authority (depth : Z) (c : cert) : Prop :=
  has_basic_constraints (exts c.2) = true /\ is_ca (exts c.2) = true /\ (path_len (exts c.2) < 0 \/ depth <= path_len (exts c.2)).
(** One certificate vouching for the one under it, [depth] others between that and the leaf. *)
Definition vouches (depth : Z) (child parent : cert) : Prop :=
  authority depth parent /\ in_date parent /\ x509_signed_by child parent = Reads tt /\
  exists name, field issuer child = Reads name /\ field subject parent = Reads name.
Lemma dates_ok_spec c : dates_ok c now = None <-> in_date c.
Proof. unfold dates_ok, in_date. destruct (Z.eqb_spec now 0); [tauto|]. destruct (Z.ltb_spec now (not_before c.2)); [split; [done|lia]|]. destruct (Z.ltb_spec (not_after c.2) now); split; first [done|lia]. Qed.
Lemma may_sign_spec c depth : may_sign c depth = true <-> authority depth c.
Proof.
  unfold may_sign, authority. rewrite !andb_true_iff, negb_true_iff, andb_false_iff, Z.leb_gt, Z.ltb_ge. tauto.
Qed.
(** Certificates each vouched for by the next, the first of them at this depth. *)
Fixpoint vouched (depth : Z) (c : cert) (l : list cert) : Prop :=
  match l with [] => True | parent :: l => vouches depth c parent /\ vouched (depth + 1) parent l end.
Fixpoint top_of (c : cert) (l : list cert) : cert := match l with [] => c | parent :: l => top_of parent l end.
Lemma top_of_snoc c l parent : top_of c (l ++ [parent]) = parent.
Proof. revert c. induction l as [|x l IH]; intros c; [done|apply IH]. Qed.
Lemma top_of_in c l : top_of c l ∈ c :: l.
Proof. revert c. induction l as [|x l IH]; intros c; [by left|right; apply IH]. Qed.
(** A certificate signed with the key of the store's own copy of its issuer. *)
Definition under_anchor (c : cert) : Prop := exists name root anchor,
  field issuer c = Reads name /\ name <> [] /\ in_store name root /\ x509_parse root = Reads anchor /\
  has_basic_constraints (exts anchor) = true /\ is_ca (exts anchor) = true /\ x509_signed_by c (root, anchor) = Reads tt.

Lemma dates_why c why : dates_ok c now = Some why -> why <> X509_OK.
Proof. unfold dates_ok. repeat destruct (_ <? _); destruct (now =? 0); congruence. Qed.

Section Climb.
Context (chain : chain_t) (leaf : cert) (Hchain : chain_ok chain).
(** A certificate the walk comes to from the leaf, each link on the way vouched for. *)
Definition reached (depth : Z) (c : cert) : Prop := exists links,
  vouched 0 leaf links /\ Forall (fun c => Some c ∈ chain) links /\ top_of leaf links = c /\ depth = zlen links.
Lemma vouched_snoc n c l parent top : vouched n c l -> top_of c l = top -> vouches (n + zlen l) top parent -> vouched n c (l ++ [parent]).
Proof.
  revert n c. induction l as [|x l IH]; intros n c Hv Hl Hp; cbn in *.
  - subst. rewrite Z.add_0_r in Hp. done.
  - destruct Hv as [H1 H2]. split; [done|]. apply IH; [done|done|]. replace (n + 1 + zlen l) with (n + Z.of_nat (S (length l))) by lia. done.
Qed.
Lemma reached_parent depth top k parent : reached depth top -> chain !! k = Some (Some parent) -> vouches depth top parent -> reached (depth + 1) parent.
Proof.
  intros (links & Hv & Hf & Hl & ->) Hk Hp. exists (links ++ [parent]). split_and!.
  - by apply (vouched_snoc _ _ _ _ top).
  - apply Forall_app. split; [done|]. constructor; [by apply list_elem_of_lookup_2 in Hk|constructor].
  - apply top_of_snoc.
  - rewrite length_app. cbn. lia.
Qed.
Definition unused_count (used : Z) : Z := cnt (fun k => negb (Z.testbit used k)) (length chain).
Lemma unused_less used k : (k < length chain)%nat -> Z.testbit used (Z.of_nat k) = false -> unused_count (used .| (1 .<< Z.of_nat k)) < unused_count used.
Proof.
  intros Hk Hu. unfold unused_count. rewrite (cnt_update (fun k => negb (Z.testbit used k)) _ _ (Z.of_nat k)).
  - rewrite testbit_set, Z.eqb_refl by lia. rewrite Hu. cbn. lia.
  - lia.
  - intros i Hi Hne. rewrite testbit_set by lia. by rewrite (proj2 (Z.eqb_neq _ _) Hne).
Qed.
(** Where the walk ends: not accepted on its own, or at a certificate the walk came to, or
    at one of which the store has a copy, whose key is to be the issuer of one it came to. *)
Definition ends_at (r : climbed) : Prop :=
  match r with
  | Answer a => a <> X509_OK
  | Top top below => cert_ok top /\
      (forall b, below = Some b -> cert_ok b /\ (exists n, reached n b) /\ exists name, field issuer b = Reads name /\ field subject top = Reads name) /\
      ((exists n, reached n top) \/ exists root, roots_find_for ROOTS subject top = Reads (Some root))
  end.
Lemma climb_ok fuel used top below depth : cert_ok top -> reached depth top -> (forall b, below = Some b -> cert_ok b /\ (exists n, reached n b) /\ exists name, field issuer b = Reads name /\ field subject top = Reads name) ->
  unused_count used < Z.of_nat fuel -> sure (climb ROOTS now fuel chain used top below depth) ends_at.
Proof.
  revert used top below depth. induction fuel as [|fuel IH]; intros used top below depth Ht Hr Hb Hf.
  { pose proof (cnt_bounds (fun k => negb (Z.testbit used k)) (length chain)). unfold unused_count in Hf. lia. }
  cbn [climb]. assert (sure (Reads (Top top below)) ends_at) as Hstop by (apply sure_reads; split_and!; [apply Ht..|done|eauto]).
  eapply sure_bind; [apply roots_find_for_ok; [done|apply Ht]|cbn beta]. intros root _. destruct (bool_decide _); [done|].
  eapply sure_bind; [by apply self_signed_ok|cbn beta]. intros [] _; [done|].
  eapply sure_bind; [by apply find_parent_ok|cbn beta]. intros [[k parent]|]; [|done]. rewrite Nat.sub_0_r. intros (_ & Hk & Hu & name & N1 & N2).
  assert (cert_ok parent) as Hp by (by apply (Hchain k)). destruct (roots_find_for_ok parent subject Hp) as (o & Eo & _); [apply Hp|]. rewrite Eo. cbn [mbind read_bind].
  destruct (bool_decide_reflect (is_Some o)) as [[rt ->]|].
  { apply sure_reads. split; [done|]. split; [|right; by exists rt]. intros b [= <-]. split_and!; [apply Ht..|by exists depth|by exists name]. }
  destruct (may_sign parent depth) eqn:Em; cbn [negb]; [|by apply sure_reads]. destruct (dates_ok parent now) as [why|] eqn:Ed; [apply sure_reads; by apply dates_why in Ed|].
  eapply sure_bind; [by apply (sure_truth _ _ (signed_by_ok _ _ Ht))|cbn beta]. intros [] Hs; [|by apply sure_reads]. cbn [negb].
  assert (vouches depth top parent) as Hv by (split; [by apply may_sign_spec|split; [by apply dates_ok_spec|split; [done|by exists name]]]).
  apply IH; [done|by apply (reached_parent depth top k)| |].
  - intros b [= <-]. split; [done|]. split; [by exists depth|by exists name].
  - pose proof (unused_less used k (lookup_lt_Some _ _ _ Hk) Hu). lia.
Qed.

Lemma under_root_ok c root name : cert_ok c -> cert_bytes root -> field issuer c = Reads name -> name <> [] -> in_store name root ->
  sure (under_root c root) (fun r => r = X509_OK -> under_anchor c).
Proof.
  intros Hc Hr Hi Hn Hs. unfold under_root. eapply sure_bind; [by apply sure_attempt, x509_parse_ok|cbn beta]. intros [anchor|]; [|by intros _; apply sure_reads]. intros [Ea _].
  destruct (has_basic_constraints (exts anchor)) eqn:E1; [|by apply sure_reads]. destruct (is_ca (exts anchor)) eqn:E2; [|by apply sure_reads]. cbn [negb orb].
  eapply sure_bind; [by apply (sure_truth _ _ (signed_by_ok _ _ Hc))|cbn beta]. intros [] Hsig; apply sure_reads; [|done]. intros _. exists name, root, anchor. done.
Qed.
Lemma anchored_ok top below u : ends_at (Top top below) -> sure (anchored ROOTS top below u) (fun r => r = X509_OK -> exists n c, reached n c /\ under_anchor c).
Proof.
  intros (Ht & Hb & Hr). unfold anchored. destruct (roots_find_for_ok top subject Ht) as (o & Eo & Ho); [apply Ht|]. rewrite Eo. cbn [mbind read_bind]. destruct o as [root|].
  - destruct below as [b|]; [|by apply sure_reads]. destruct (Hb b eq_refl) as (Hb1 & [n Hn] & name & E1 & E2). destruct Ho as (name' & E3 & H1 & H2 & H3). rewrite E2 in E3. injection E3 as <-.
    destruct (under_root_ok b root name Hb1 H3 E1 H1 H2) as (r & E & H). exists r. split; [done|]. intros Er. exists n, b. auto.
  - destruct Hr as [[n Hn]|[root E]]; [|congruence]. destruct (roots_find_for_ok top issuer Ht) as (o & Ei & Ho'); [apply Ht|]. rewrite Ei. cbn [mbind read_bind].
    destruct o as [root|]; [|apply sure_reads; by destruct (negb _)]. destruct Ho' as (name & E1 & H1 & H2 & H3).
    destruct (under_root_ok top root name Ht H3 E1 H1 H2) as (r & E & H). exists r. split; [done|]. intros Er. exists n, top. auto.
Qed.
End Climb.

(** Why a chain is accepted: its leaf can be read, is for the host and in date; certificates
    of it, each an authority that may sign at its place, in date, and signing the one before
    it under its name, lead from the leaf to one that an authority of the store signed. *)
Definition trusted (ders : list (list Z)) : Prop := exists d leaf links,
  head ders = Some d /\ x509_parse d = Reads leaf /\ x509_host_matches (d, leaf) host = Reads tt /\ in_date (d, leaf) /\
  vouched 0 (d, leaf) links /\ Forall (fun c => c.1 ∈ ders /\ x509_parse c.1 = Reads c.2) links /\ under_anchor (top_of (d, leaf) links).
Lemma verify_with_ok ders : ders <> [] -> Forall cert_bytes ders -> sure (verify_with ROOTS host now ders) (fun r => r = X509_OK -> trusted ders).
Proof.
  intros Hne Hd. destruct ders as [|d rest]; [done|]. inversion_clear Hd as [|? ? Hd0 Hrest]. cbn [verify_with].
  eapply sure_bind; [by apply sure_attempt, x509_parse_ok|cbn beta]. intros [leaf|]; [|by intros _; apply sure_reads]. intros [El _].
  destruct (parse_rest_ok rest Hrest) as (others & -> & Ho). cbn [mbind read_bind]. set (chain := Some ((d, leaf) : cert) :: others : chain_t).
  pose proof (parsed_ok d leaf Hd0 El) as Hleaf.
  assert (Forall2 from_der (d :: rest) chain) as Hch by (by constructor). pose proof (from_der_ok (d :: rest) chain ltac:(by constructor) Hch) as Hchain.
  eapply sure_bind; [apply (sure_truth _ _ (host_matches_ok _ host Hleaf))|cbn beta]. intros [] Hm; [|by apply sure_reads]. cbn [negb].
  destruct (dates_ok (d, leaf) now) as [why|] eqn:Ed; [apply sure_reads; by apply dates_why in Ed|].
  destruct (climb_ok chain (d, leaf) Hchain (S (length chain)) (1 .| unreadable chain) (d, leaf) None 0) as (r & -> & Hr); [done|by exists []|done| |].
  { pose proof (cnt_bounds (fun k => negb (Z.testbit (1 .| unreadable chain) k)) (length chain)) as H. rewrite Nat2Z.inj_succ. apply Z.lt_succ_r, H. }
  cbn [mbind read_bind]. destruct r as [a|top below]; [by apply sure_reads|].
  destruct (anchored_ok chain (d, leaf) top below (unreadable chain) Hr) as (a & -> & Ha). exists a. split; [done|]. intros Ea. destruct (Ha Ea) as (n & c & (links & Hv & Hf & <- & _) & Hc).
  exists d, leaf, links. split_and!; try done; [by apply dates_ok_spec|]. rewrite list.Forall_forall in Hf |- *. intros x Hx. specialize (Hf x Hx). cbn in Hf. revert Hf. intros [k Hk]%list_elem_of_lookup.
  destruct (Forall2_lookup_r _ _ _ _ _ Hch Hk) as (d' & Hd' & E1 & E2). subst d'. split; [by apply list_elem_of_lookup_2 in Hd'|done].
Qed.

(** ** Chains that are accepted *)

Lemma unreadable_spec chain k : 0 <= k -> Z.testbit (unreadable chain) k = true -> chain !! Z.to_nat k = Some None.
Proof.
  intros Hk. unfold unreadable. cut (forall ks m, (Z.testbit m k = true -> chain !! Z.to_nat k = Some None) ->
    Z.testbit (foldl (fun m k => if chain !! k is Some None then m .| (1 .<< Z.of_nat k) else m) m ks) k = true -> chain !! Z.to_nat k = Some None).
  { intros H. apply H. by rewrite Z.testbit_0_l. }
  induction ks as [|x ks IH]; intros m Hm; [done|]. cbn [foldl]. apply IH. destruct (chain !! x) as [[c|]|] eqn:E; [done| |done].
  rewrite testbit_set by lia. destruct (Z.eqb_spec k (Z.of_nat x)) as [->|]; [by rewrite Nat2Z.id|done].
Qed.
Lemma find_parent_finds chain k0 used top name : chain_ok chain -> cert_ok top -> field issuer top = Reads name ->
  (exists k c, (k0 <= k)%nat /\ chain !! (k - k0)%nat = Some (Some c) /\ Z.testbit used (Z.of_nat k) = false /\ field subject c = Reads name) ->
  exists r, find_parent chain k0 used top = Reads (Some r).
Proof.
  intros Hch Ht Hi. revert k0 Hch. induction chain as [|o chain IH]; intros k0 Hch (k & c & H1 & H2 & H3 & H4); [done|].
  assert (chain_ok chain) as Hch' by (intros j x; apply (Hch (S j) x)).
  assert (k0 <> k -> exists r, find_parent chain (S k0) used top = Reads (Some r)) as Hrest.
  { intros Hne. apply IH; [done|]. exists k, c. split_and!; [lia| |done|done]. replace (k - k0)%nat with (S (k - S k0)) in H2 by lia. done. }
  cbn [find_parent]. destruct (decide (k0 = k)) as [->|Hne].
  - rewrite Nat.sub_diag in H2. injection H2 as ->. pose proof (land_pow2_test used (Z.of_nat k) ltac:(lia)) as Hp. rewrite H3 in Hp. rewrite Hp. cbn [negb].
    assert (cert_ok c) as Hc by (by apply (Hch 0%nat)). destruct (field_ok c subject Hc) as (s1 & E1 & L1 & _); [apply Hc|]. destruct (field_ok top issuer Ht) as (s2 & E2 & L2 & _); [apply Ht|].
    rewrite H4 in E1. rewrite Hi in E2. injection E1 as <-. injection E2 as <-. rewrite <- L1, <- L2, Z.eqb_refl. cbn [negb]. rewrite H4, Hi. cbn. rewrite bool_decide_true by done. by eexists.
  - specialize (Hrest Hne). destruct o as [x|]; [|done]. destruct (negb _); [done|]. destruct (negb _); [done|].
    assert (cert_ok x) as Hx by (by apply (Hch 0%nat)). destruct (field_ok x subject Hx) as (s1 & -> & _); [apply Hx|]. rewrite Hi. cbn. destruct (bool_decide _); [by eexists|done].
Qed.

(** A certificate that is its own end: neither in the store nor self signed. *)
Definition between (c : cert) : Prop := roots_find_for ROOTS subject c = Reads None /\ self_signed c = Reads false.
(** A certificate signed with the store's copy of its issuer, as the store finds it. *)
Definition found_under (c : cert) (name root : list Z) (anchor : x509_t) : Prop :=
  field issuer c = Reads name /\ roots_find ROOTS name = Reads (Some root) /\ x509_parse root = Reads anchor /\
  has_basic_constraints (exts anchor) = true /\ is_ca (exts anchor) = true /\ x509_signed_by c (root, anchor) = Reads tt.
Lemma under_root_accepts c name root anchor : found_under c name root anchor -> under_root c root = Reads X509_OK.
Proof. intros (_ & _ & E & E1 & E2 & Hs). unfold under_root. rewrite E. cbn. rewrite E1, E2. cbn. rewrite Hs. done. Qed.

Section Ascent.
Context (chain : chain_t) (Hchain : chain_ok chain) (name root : list Z) (anchor : x509_t).
(** Every certificate of the chain that has a link's subject is that link. *)
Definition told_apart (links : list cert) : Prop :=
  forall k c x s, chain !! k = Some (Some x) -> c ∈ links -> field subject c = Reads s -> field subject x = Reads s -> x = c.
(** What is marked used was not read, or is one of the certificates walked through. *)
Definition used_by (used : Z) (visited : list cert) : Prop :=
  forall k, 0 <= k -> Z.testbit used k = true -> chain !! Z.to_nat k = Some None \/ exists c, c ∈ visited /\ chain !! Z.to_nat k = Some (Some c).
Lemma climb_up fuel used top below visited links depth : Z.of_nat (length links) < Z.of_nat fuel ->
  cert_ok top -> Forall (fun c => cert_ok c /\ Some c ∈ chain) links -> Forall between (top :: links) -> vouched depth top links -> told_apart links ->
  used_by used visited -> (forall c x, c ∈ visited -> x ∈ links -> c <> x) -> NoDup links -> found_under (top_of top links) name root anchor ->
  exists top' below', climb ROOTS now fuel chain used top below depth = Reads (Top top' below') /\
    (top' = top_of top links \/ below' = Some (top_of top links) /\ roots_find_for ROOTS subject top' = Reads (Some root)).
Proof.
  revert used top below visited links depth. induction fuel as [|fuel IH]; intros used top below visited links depth Hf Ht Hl Hb Hv Ha Hu Hd Hn Hr; [lia|].
  inversion_clear Hb as [|? ? [B1 B2] Hb']. cbn [climb]. rewrite B1. cbn [mbind read_bind]. rewrite bool_decide_false by (intros [? [=]]). rewrite B2. cbn [mbind read_bind].
  destruct (find_parent_ok chain 0 used top Hchain Ht) as (o & Eo & Ho). destruct links as [|parent links].
  - rewrite Eo. cbn [mbind read_bind]. cbn [top_of] in *. destruct o as [[k up]|]; [|by exists top, below; auto]. rewrite Nat.sub_0_r in Ho. destruct Ho as (_ & Hk & _ & n & N1 & N2).
    destruct Hr as (R1 & R2 & _). rewrite R1 in N1. injection N1 as <-. unfold roots_find_for at 1. rewrite N2. cbn [mbind read_bind]. rewrite R2. cbn [mbind read_bind]. rewrite bool_decide_true by done.
    exists up, (Some top). split; [done|]. right. split; [done|]. unfold roots_find_for. rewrite N2. done.
  - inversion_clear Hl as [|? ? [Hp [k0 Hk0]%list_elem_of_lookup] Hl']. destruct Hv as [(A1 & A2 & A3 & s & S1 & S2) Hv']. apply list.NoDup_cons in Hn as [Hn1 Hn2].
    destruct (find_parent_finds chain 0 used top s Hchain Ht S1) as [[k y] E].
    { exists k0, parent. rewrite Nat.sub_0_r. split_and!; [lia|done| |done]. destruct (Z.testbit used (Z.of_nat k0)) eqn:Eu; [|done]. exfalso.
      apply (Hu (Z.of_nat k0)) in Eu; [|lia]. rewrite Nat2Z.id in Eu. destruct Eu as [Eu|(c & Hc & Eu)]; pose proof (eq_trans (eq_sym Hk0) Eu) as Ec; [done|]. injection Ec as <-. apply (Hd parent parent); [done|by left|done]. }
    rewrite E in Eo |- *. injection Eo as <-. cbn [mbind read_bind]. rewrite Nat.sub_0_r in Ho. destruct Ho as (_ & Hk & _ & n & N1 & N2). rewrite S1 in N1. injection N1 as <-.
    assert (y = parent) as -> by (apply (Ha k parent y s); [done|by left|done|done]).
    inversion_clear Hb' as [|? ? [B3 B4] Hb'']. rewrite B3. cbn [mbind read_bind]. rewrite bool_decide_false by (intros [? [=]]).
    rewrite (proj2 (may_sign_spec parent depth) A1). cbn [negb]. rewrite (proj2 (dates_ok_spec parent) A2). unfold truth. rewrite A3. cbn.
    apply (IH _ _ _ (parent :: visited)); try done; [cbn in Hf; lia|by constructor|intros j c z t Hj Hc; apply (Ha j); [done|by right]| |].
    + intros j Hj. rewrite testbit_set by lia. destruct (Z.eqb_spec j (Z.of_nat k)) as [->|]; cbn [orb].
      * intros _. rewrite Nat2Z.id. right. exists parent. split; [by left|done].
      * intros Hju. destruct (Hu j Hj Hju) as [|(c & Hc & ?)]; [by left|right]. exists c. split; [by right|done].
    + intros c z [->|Hc]%list.elem_of_cons Hz; [by intros ->|]. apply Hd; [done|by right].
Qed.
End Ascent.

Lemma verify_with_accepts d rest leaf (links : list cert) name root anchor : Forall cert_bytes (d :: rest) ->
  x509_parse d = Reads leaf -> x509_host_matches (d, leaf) host = Reads tt -> in_date (d, leaf) ->
  Forall (fun c => c.1 ∈ rest /\ x509_parse c.1 = Reads c.2) links -> vouched 0 (d, leaf) links -> found_under (top_of (d, leaf) links) name root anchor ->
  Forall between ((d, leaf) :: links) -> NoDup ((d, leaf) :: links) ->
  (forall e x c s, e ∈ d :: rest -> x509_parse e = Reads x -> c ∈ links -> field subject c = Reads s -> field subject (e, x) = Reads s -> (e, x) = c) ->
  verify_with ROOTS host now (d :: rest) = Reads X509_OK.
Proof.
  intros Hd El Hm Hdate Hl Hv Hr Hb Hn Ha. cbn [verify_with]. rewrite El. cbn [attempt mbind read_bind]. inversion_clear Hd as [|? ? Hd0 Hrest].
  destruct (parse_rest_ok rest Hrest) as (others & -> & Ho). cbn [mbind read_bind]. set (chain := Some ((d, leaf) : cert) :: others : chain_t).
  assert (Forall2 from_der (d :: rest) chain) as Hch by (by constructor). pose proof (from_der_ok (d :: rest) chain ltac:(by constructor) Hch) as Hchain.
  unfold truth at 1. rewrite Hm. cbn [attempt mbind read_bind negb]. rewrite (proj2 (dates_ok_spec (d, leaf)) Hdate).
  assert (cert_ok (d, leaf)) as Hleaf by (by apply parsed_ok). apply list.NoDup_cons in Hn as [Hn1 Hn2].
  assert (Forall (fun c => cert_ok c /\ Some c ∈ chain) links) as Hl'.
  { rewrite list.Forall_forall in Hl |- *. intros [e x] Hc. destruct (Hl _ Hc) as [[k Hk]%list_elem_of_lookup E]. cbn in Hk, E. split.
    - apply parsed_ok; [|done]. by apply (Forall_lookup_1 _ _ _ _ Hrest Hk).
    - destruct (Forall2_lookup_l _ _ _ _ _ Ho Hk) as (o & Hok & Hf). apply list_elem_of_lookup. exists (S k). destruct o as [[e' x']|]; cbn in Hf; [|congruence]. destruct Hf as [-> Hf]. rewrite E in Hf. injection Hf as <-. exact Hok. }
  assert (length links <= length chain)%nat as Hlen.
  { rewrite <- (length_fmap Some links). apply submseteq_length, NoDup_submseteq; [by apply NoDup_fmap_2; [intros ? ? [=]|]|].
    intros o (c & -> & Hc)%list_elem_of_fmap. rewrite list.Forall_forall in Hl'. by apply Hl'. }
  destruct (climb_up chain Hchain name root anchor (S (length chain)) (1 .| unreadable chain) (d, leaf) None [(d, leaf)] links 0) as (top & below & -> & Hend); try done.
  - lia.
  - intros k c x s Hk Hc Es Ex. destruct (Forall2_lookup_r _ _ _ _ _ Hch Hk) as (e & He & Ee & Ep). destruct x as [e' x]. cbn in Ee, Ep. subst e'.
    apply (Ha e x c s); [by apply list_elem_of_lookup_2 in He|done..].
  - intros k Hk. rewrite Z.lor_spec. intros [E|E]%orb_prop; [|left; by apply unreadable_spec]. destruct (decide (k = 0)) as [->|]; [right; exists (d, leaf); split; [by left|done]|].
    exfalso. change 1 with (2 ^ 0) in E. rewrite Z.pow2_bits_false in E by lia. done.
  - intros c x Hc Hx <-. apply list.elem_of_cons in Hc as [->|Hc]; [done|by apply not_elem_of_nil in Hc].
  - cbn [mbind read_bind]. unfold anchored. pose proof Hr as (R1 & R2 & _). destruct Hend as [->|[-> E]].
    + assert (between (top_of (d, leaf) links)) as [-> _] by (rewrite list.Forall_forall in Hb; apply Hb, top_of_in).
      cbn [mbind read_bind]. unfold roots_find_for. rewrite R1. cbn [mbind read_bind]. rewrite R2. cbn [mbind read_bind]. by apply (under_root_accepts _ name root anchor).
    + rewrite E. cbn [mbind read_bind]. by apply (under_root_accepts _ name root anchor).
Qed.
End Store.

(** C6: Reading certificates touches nothing but their bytes, whatever they are. For any
    bytes x509_parse comes to an answer, and when it reads a certificate every part it points
    at lies within it, its dates are packed dates, and its key is an RSA key of 1024 to 4096
    bits with an odd exponent of 3 or more, laid out as the signature check needs it, or a
    point of its curve's length; and for any list of them, any host, time and store, checking
    the chain comes to one of its results. *)
Theorem certificates_read_within_themselves :
  (forall buf, cert_bytes buf -> x509_parse buf = Refused \/ exists x, x509_parse buf = Reads x /\ well_read buf x) /\
  (forall ROOTS host now room ders, Forall root_ok ROOTS -> Forall cert_bytes ders -> exists r, x509_verify_chain ROOTS host now room ders = Reads r).
Proof.
  split.
  - intros buf Hb. pose proof (x509_parse_ok buf Hb) as H. destruct (x509_parse buf) as [x| |]; [right; by exists x|by left|done].
  - intros ROOTS host now room ders Hr Hd. unfold x509_verify_chain. destruct (_ || _) eqn:E; [by eexists|]. destruct room; [|by eexists]. cbn [negb].
    destruct (verify_with_ok ROOTS Hr host now ders) as (r & -> & _); [by intros ->|done|by exists r].
Qed.

(** C5: A chain is accepted only for what it proves: when x509_verify_chain answers that
    all is well, the first certificate can be read, names the host and is in date, and from
    it certificates that were sent lead, each an authority allowed to sign at its place, in
    date and holding the key that signed the one before under its own name, to one that is
    signed with the key of the store's own copy of an authority, found under its name. *)
Theorem accepted_chains_are_anchored ROOTS host now room ders : Forall root_ok ROOTS -> Forall cert_bytes ders ->
  x509_verify_chain ROOTS host now room ders = Reads X509_OK -> zlen ders <= X509_MAX_CHAIN /\ trusted ROOTS host now ders.
Proof.
  intros Hr Hd. unfold x509_verify_chain. destruct (Z.eqb_spec (zlen ders) 0) as [|E]; [done|]. destruct (Z.ltb_spec X509_MAX_CHAIN (zlen ders)) as [|E']; [done|]. destruct room; [|done]. cbn [negb orb].
  destruct (verify_with_ok ROOTS Hr host now ders) as (r & -> & H); [by intros ->|done|]. intros [= ->]. split; [lia|auto].
Qed.

(** C8: A good chain is accepted however it is sent: after the leaf, its links may come
    in any order, any of them more than once, among certificates of other names and ones that
    cannot be read, with or without a copy of the root. What is asked is that the leaf names
    the host and is in date, that each link may sign at its place, is in date and signed the
    one before, that the store's own authority signed the last, that none of them is self
    signed or bears the name of one of the store's, and that no other certificate that can be
    read bears a link's name. *)
Theorem good_chains_are_accepted ROOTS host now d rest leaf (links : list cert) name root anchor : Forall cert_bytes (d :: rest) -> zlen (d :: rest) <= X509_MAX_CHAIN ->
  x509_parse d = Reads leaf -> x509_host_matches (d, leaf) host = Reads tt -> in_date now (d, leaf) ->
  Forall (fun c => c.1 ∈ rest /\ x509_parse c.1 = Reads c.2) links -> vouched now 0 (d, leaf) links -> found_under ROOTS (top_of (d, leaf) links) name root anchor ->
  Forall (between ROOTS) ((d, leaf) :: links) -> NoDup ((d, leaf) :: links) ->
  (forall e x c s, e ∈ d :: rest -> x509_parse e = Reads x -> c ∈ links -> field subject c = Reads s -> field subject (e, x) = Reads s -> (e, x) = c) ->
  x509_verify_chain ROOTS host now true (d :: rest) = Reads X509_OK.
Proof.
  intros Hd Hn. intros. unfold x509_verify_chain. rewrite (proj2 (Z.eqb_neq _ _)) by (cbn; lia). rewrite (proj2 (Z.ltb_ge _ _)) by exact Hn. cbn [orb negb].
  by apply (verify_with_accepts ROOTS host now d rest leaf links name root anchor).
Qed.

(** ** A chain *)

Definition text (s : string) : list Z := (fun c => Z.of_N (Ascii.N_of_ascii c)) <$> String.list_ascii_of_string s.
Definition root_n : list Z := Eval vm_compute in be_bytes 128 0xb754fea583c11c1993db01bdd41da7b1260eb7fd4fc02045e242c9d74e0ae72f1f5a1cb88a660a3d3c30b651968c5c5b0df859c20eff92ccb39359f5a6c69ebf3557b840e1301806840e8ba65316f03fcf6cafb9003be07fd7627878d32e529fa611e7016f1d4775679b2b52ccb3e9f5f4679c67dc4be986d435cbb90e180149.
Definition mid_n : list Z := Eval vm_compute in be_bytes 128 0x9ce563c46092be60a23927b588ebb559b47661ce2b3d8b23fca4b63de589009adbba2cf24ad4c6acef3fb7b57d7235923b099fa97a642431afa20a0a77fed4628973fa533b4aafe2db8bccd9cdf9e6829a41ca0ab898d4646b6237001a2d17e4861bc6c6207d74fef49b6a8b1aeb68a81074b3bc87b6be428241f66b24dea5d9.
(** A leaf for a zone's hosts, an authority above it that may have none below, and a root. *)
Definition leaf_of (sg : list Z) : cert_data := CertData (Some 2) [1] OID_RSA_SHA256 [5; 0] (text "mid") (Rtc.Rtc 2024 1 1 0 0 0 0) (Rtc.Rtc 2026 12 31 23 59 59 0) (text "leaf")
  (EcData EC_P256 (4 :: replicate 64 1)) [] [AltNames false [(0x82, text "*.zelr.org")]] sg.
Definition mid_of (sg : list Z) : cert_data := CertData (Some 2) [2] OID_RSA_SHA256 [5; 0] (text "root") (Rtc.Rtc 2020 1 1 0 0 0 0) (Rtc.Rtc 2050 12 31 23 59 59 0) (text "mid")
  (RsaData mid_n [3]) [] [Constraints true true (Some 0)] sg.
Definition root_of : cert_data := CertData (Some 2) [3] OID_RSA_SHA256 [5; 0] (text "root") (Rtc.Rtc 2020 1 1 0 0 0 0) (Rtc.Rtc 2050 12 31 23 59 59 0) (text "root")
  (RsaData root_n [3]) [] [Constraints true true None] [0].
Definition leaf_sig : list Z := Eval vm_compute in be_bytes 128 0x605366764facf04997671ddc2864c25c2cb89523ab6771c92dda93a16f0985da05326b6ee257834e93abcbef85ff4f3257b1c4ccd85fea40f4dc9532e6e6ebb2b233405b27f5ee556c0a80b3b72f7ca6cc79c32eb313a157531f0659a029b9d0b37e5e7396c9d70c1180a4a8d8f62246ea12d2c53a63aeca4ade5c32073c544d.
Definition mid_sig : list Z := Eval vm_compute in be_bytes 128 0x699178aea762cc236873f133f443673ba7bdce9d61ca644a7d386a8be4e6aed3e45318217c159f68617cebad149ef57b5cad11d6607d5c81fce99de60d7510db942eb90bba3168eaedc4f35be62c2514501d5b6b6ee5d14510f9106e5b6fb7a0a2d22841c5902af19509f3dd2e2170eb33275c07720d38b290603f8f8b2f89fa.
Definition leaf_der : list Z := Eval vm_compute in cert_tlv (leaf_of leaf_sig).
Definition mid_der : list Z := Eval vm_compute in cert_tlv (mid_of mid_sig).
Definition root_der : list Z := Eval vm_compute in cert_tlv root_of.
Definition parsed (l : list Z) : x509_t := match x509_parse l with Reads x => x | _ => X509 (0, 0) X509_SIG_NONE (0, 0) (0, 0) (0, 0) 0 0 (X509_KEY_EC EC_P256 []) no_exts end.
Definition leaf_x : x509_t := Eval vm_compute in parsed leaf_der.
Definition mid_x : x509_t := Eval vm_compute in parsed mid_der.
Definition root_x : x509_t := Eval vm_compute in parsed root_der.
Lemma all_parse : x509_parse leaf_der = Reads leaf_x /\ x509_parse mid_der = Reads mid_x /\ x509_parse root_der = Reads root_x /\ x509_parse [1; 2; 3] = Refused.
Proof. split_and!; vm_compute; reflexivity. Qed.
Lemma names_are : field issuer (leaf_der, leaf_x) = Reads (tlv DER_SEQ (text "mid")) /\ field subject (leaf_der, leaf_x) = Reads (tlv DER_SEQ (text "leaf")) /\
  field subject (mid_der, mid_x) = Reads (tlv DER_SEQ (text "mid")) /\ field issuer (mid_der, mid_x) = Reads (tlv DER_SEQ (text "root")).
Proof. split_and!; vm_compute; reflexivity. Qed.
(** A signature that opens to the padded hash, by what the check is proved to accept. *)
Lemma signed_rsa child issuer k data s : sig_alg child.2 = X509_SIG_RSA_SHA256 -> key issuer.2 = X509_KEY_RSA k -> field tbs child = Reads data -> field sig child = Reads s ->
  key_wf k -> bytes s -> bytes (sha256 data) -> zlen (sha256 data) = 32 -> admissible k s -> 62 <= n_len k -> opened k s = be_val (emsa_pkcs1 SHA256_DER (sha256 data) (n_len k)) -> x509_signed_by child issuer = Reads tt.
Proof.
  intros Ha Hk Hd Hs Hw Hb Hh Hl Had Hn Ho. unfold x509_signed_by. rewrite Hd. cbn [mbind read_bind]. rewrite Ha. cbn [hash_for mbind read_bind]. rewrite Hs. cbn [mbind read_bind]. rewrite Hk.
  unfold accept. rewrite (proj2 (pkcs1_ok k s (sha256 data) Hw Hb Hh)); [done|]. exists SHA256_DER. rewrite Hl. split_and!; [done|done|change (zlen SHA256_DER) with 19; lia|done].
Qed.
Definition key_of (x : x509_t) : rsa_key_t := match key x with X509_KEY_RSA k => k | _ => RsaKey [] 0 0 end.
Lemma key_wf_by k : (zlen (kn k) =? RSA_MAX_BYTES) && forallb (fun b => (0 <=? b) && (b <? 256)) (kn k) && bool_decide (is_u32 (n_len k)) && bool_decide (is_u32 (ke k)) = true -> key_wf k.
Proof. intros [[[H1%Z.eqb_eq H2%bytes_check]%andb_prop H3%bool_decide_eq_true]%andb_prop H4%bool_decide_eq_true]%andb_prop. by constructor. Qed.
Ltac signed c i s := apply (signed_rsa c i (key_of i.2) (tbs_tlv s) (signature s)); [vm_compute; reflexivity|vm_compute; reflexivity|vm_compute; reflexivity|vm_compute; reflexivity|
  apply key_wf_by; vm_compute; reflexivity|apply bytes_check; vm_compute; reflexivity|apply bytes_check; vm_compute; reflexivity|vm_compute; reflexivity|
  apply (bool_decide_eq_true_1 _); vm_compute; reflexivity|vm_compute; discriminate|vm_compute; reflexivity].
Lemma leaf_signed : x509_signed_by (leaf_der, leaf_x) (mid_der, mid_x) = Reads tt.
Proof. signed (leaf_der, leaf_x) (mid_der, mid_x) (leaf_of leaf_sig). Qed.
Lemma mid_signed : x509_signed_by (mid_der, mid_x) (root_der, root_x) = Reads tt.
Proof. signed (mid_der, mid_x) (root_der, root_x) (mid_of mid_sig). Qed.
Definition small_store : list root_t := [Root root_der 70 6].
Notation site := (text "www.zelr.org").
Notation sent := [leaf_der; [1; 2; 3]; mid_der; mid_der].
#[local] Opaque leaf_der mid_der root_der leaf_x mid_x root_x.
Lemma sent_bytes : Forall cert_bytes sent.
Proof. repeat (constructor; [split; [apply bytes_check; vm_compute; reflexivity|vm_compute; reflexivity]|]). constructor. Qed.
Lemma small_store_ok : Forall root_ok small_store.
Proof. constructor; [|constructor]. split; [split; [apply bytes_check; vm_compute; reflexivity|vm_compute; reflexivity]|]. split_and!; vm_compute; discriminate. Qed.
Lemma leaf_good : x509_host_matches (leaf_der, leaf_x) site = Reads tt /\ in_date 20250101000000 (leaf_der, leaf_x).
Proof. split; [vm_compute; reflexivity|]. right. split; vm_compute; discriminate. Qed.
Lemma mid_vouches : vouched 20250101000000 0 (leaf_der, leaf_x) [(mid_der, mid_x)].
Proof.
  split; [|done]. split; [|split; [right; split; vm_compute; discriminate|split; [exact leaf_signed|]]].
  - split; [vm_compute; reflexivity|split; [vm_compute; reflexivity|right; vm_compute; discriminate]].
  - destruct names_are as (N1 & _ & N3 & _). eauto.
Qed.
Lemma mid_found : found_under small_store (mid_der, mid_x) (tlv DER_SEQ (text "root")) root_der root_x.
Proof.
  destruct names_are as (_ & _ & _ & N4). destruct all_parse as (_ & _ & P3 & _). split; [exact N4|]. split; [vm_compute; reflexivity|]. split; [exact P3|]. split; [vm_compute; reflexivity|]. split; [vm_compute; reflexivity|exact mid_signed].
Qed.
Lemma all_between : Forall (between small_store) [(leaf_der, leaf_x); (mid_der, mid_x)].
Proof. repeat (constructor; [split; vm_compute; reflexivity|]). constructor. Qed.
Lemma they_differ : NoDup [(leaf_der, leaf_x); (mid_der, mid_x)].
Proof.
  apply list.NoDup_cons. split; [|apply NoDup_singleton]. intros H%list_elem_of_singleton. apply (f_equal (fun c : cert => zlen c.1)) in H. revert H. vm_compute. discriminate.
Qed.
Lemma told_apart_here e x c s : e ∈ sent -> x509_parse e = Reads x -> c ∈ [(mid_der, mid_x)] -> field subject c = Reads s -> field subject (e, x) = Reads s -> (e, x) = c.
Proof.
  destruct all_parse as (P1 & P2 & _ & P4). destruct names_are as (_ & N2 & N3 & _). intros He Hx ->%list_elem_of_singleton Hc Hs. rewrite N3 in Hc. injection Hc as <-.
  rewrite !list.elem_of_cons in He. destruct He as [->|[->|[->|[->|[]%not_elem_of_nil]]]].
  - rewrite P1 in Hx. injection Hx as <-. rewrite N2 in Hs. exfalso. revert Hs. vm_compute. discriminate.
  - by rewrite P4 in Hx.
  - rewrite P2 in Hx. by injection Hx as <-.
  - rewrite P2 in Hx. by injection Hx as <-.
Qed.
Lemma mid_is_sent : Forall (fun c => c.1 ∈ [[1; 2; 3]; mid_der; mid_der] /\ x509_parse c.1 = Reads c.2) [(mid_der, mid_x)].
Proof. destruct all_parse as (_ & P2 & _). constructor; [|constructor]. split; [right; left|exact P2]. Qed.
Lemma sent_accepted : x509_verify_chain small_store site 20250101000000 true sent = Reads X509_OK.
Proof.
  destruct all_parse as (P1 & _). destruct leaf_good as [L1 L2]. unfold x509_verify_chain. change (zlen sent) with 4. cbn [Z.eqb Z.ltb Z.compare X509_MAX_CHAIN orb negb Pos.compare Pos.compare_cont].
  exact (verify_with_accepts small_store site 20250101000000 leaf_der _ leaf_x [(mid_der, mid_x)] _ root_der root_x sent_bytes P1 L1 L2 mid_is_sent mid_vouches mid_found all_between they_differ told_apart_here).
Qed.

Lemma certificates_read_within_themselves_witness : exists x, x509_parse leaf_der = Reads x /\ well_read leaf_der x.
Proof.
  destruct all_parse as (P1 & _). destruct (proj1 certificates_read_within_themselves leaf_der) as [E|H]; [|rewrite P1 in E; discriminate E|exact H].
  pose proof sent_bytes as Hb. inversion Hb. assumption.
Defined.
Lemma accepted_chains_are_anchored_witness : trusted small_store site 20250101000000 sent.
Proof. exact (proj2 (accepted_chains_are_anchored small_store site 20250101000000 true sent small_store_ok sent_bytes sent_accepted)). Defined.
Lemma good_chains_are_accepted_witness : x509_verify_chain small_store site 20250101000000 true sent = Reads X509_OK.
Proof.
  destruct all_parse as (P1 & _). destruct leaf_good as [L1 L2].
  refine (good_chains_are_accepted small_store site 20250101000000 leaf_der _ leaf_x [(mid_der, mid_x)] _ root_der root_x sent_bytes _ P1 L1 L2 mid_is_sent mid_vouches mid_found all_between they_differ told_apart_here).
  vm_compute. discriminate.
Defined.
