(* ===== verification/Frames.v ===== *)
(** What the frame allocator promises the code that builds address spaces: an
    interface, and the allocator of kernel/pmm.c as its implementation. *)
From S2P Require Import Prelude Pmm.

(** The calls, and the two notions the promises are told in: that the allocator's state
    is sound, and how many hold a frame (frames by their number, address over 4096). *)
Class FrameAllocator (P : Type) := {
  alloc_frame : P -> P * Z;
  free_frame : Z -> P -> P;
  share_frame : Z -> P -> P * bool;
  holders_of : P -> Z -> Z;
  alloc_ok : P -> Prop;
  held : P -> Z -> Z
}.

(** Addresses are whole frames, of memory below 2{^44}. A frame given out was held by
    nobody; sharing and giving back change the count of that frame alone. *)
Class FrameAllocatorLaws (P : Type) `{FrameAllocator P} := {
  held_nonneg p f : alloc_ok p -> 0 <= held p f;
  held_bounds p f : alloc_ok p -> 0 < held p f -> 0 <= f < 2 ^ 32;
  alloc_frame_law p : alloc_ok p ->
    alloc_ok (alloc_frame p).1 /\
    (((alloc_frame p).2 = 0 /\ forall f, held (alloc_frame p).1 f = held p f) \/
     exists i, 0 < i < 2 ^ 32 /\ (alloc_frame p).2 = IDX_ADDR i /\ held p i = 0 /\
       forall f, held (alloc_frame p).1 f = if f =? i then 1 else held p f);
  free_frame_law p f : alloc_ok p -> 0 < f -> 0 < held p f ->
    alloc_ok (free_frame (IDX_ADDR f) p) /\
    forall g, held (free_frame (IDX_ADDR f) p) g = if g =? f then held p f - 1 else held p g;
  share_frame_law p f : alloc_ok p -> 0 < f -> 0 < held p f ->
    alloc_ok (share_frame (IDX_ADDR f) p).1 /\
    forall g, held (share_frame (IDX_ADDR f) p).1 g =
      if (g =? f) && (share_frame (IDX_ADDR f) p).2 then held p f + 1 else held p g;
  holders_law p f : alloc_ok p -> 0 < f -> 0 < held p f -> holders_of p (IDX_ADDR f) = held p f
}.

#[export] Instance pmm_frames : FrameAllocator pmm := {
  alloc_frame := pmm_alloc_frame;
  free_frame := pmm_free_frame;
  share_frame := pmm_share;
  holders_of := pmm_holders;
  alloc_ok := pmm_ok;
  held := hold
}.

#[export] Instance pmm_frames_laws : FrameAllocatorLaws pmm.
Proof.
  split; cbn [alloc_frame free_frame share_frame holders_of alloc_ok held pmm_frames].
  - intros p f Hp. apply hold_nonneg. done.
  - intros p f Hp Hf. apply hold_pos in Hf as [Hf _]. destruct (po_bits p Hp) as [Ht _ _ _]. lia.
  - intros p Hp. destruct (pmm_alloc_spec p Hp) as (A & _ & C). split; [done|].
    destruct C as [(C1 & C2 & _)|(i & Hi & C)]; [by left|right]. exists i.
    destruct (po_bits p Hp) as [Ht _ _ _]. split; [lia|done].
  - intros p f Hp Hf0 Hf. destruct (pmm_free_spec p f Hp Hf0 Hf) as (A & _ & C). done.
  - intros p f Hp Hf0 Hf. destruct (pmm_share_spec p f Hp Hf0 Hf) as (A & _ & _ & D). done.
  - intros p f Hp Hf0 Hf. apply hold_pos in Hf as (Hf & _ & ->). unfold pmm_holders, extra_of.
    rewrite FRAME_IDX_ADDR, (proj2 (Z.eqb_neq _ 0)), (proj2 (Z.leb_gt _ _)) by (unfold IDX_ADDR, PAGE_SIZE; lia).
    by destruct (extra p).
Qed.
