(* ===== verification/Paging.v ===== *)
(** Address spaces (kernel/paging.c): the walk over four levels of tables, mapping,
    unmapping and translating, copying a space for fork with its pages shared until
    written to, the write that separates them, and taking a space apart.

    Physical memory is its 64 bit words, by address; tables and pages lie in it. What
    the processor keeps of the tables (the translation cache) is not modelled. *)
From S2P Require Import Prelude Pmm Frames.

Definition PTE_PRESENT : Z := 0x001.
Definition PTE_RW : Z := 0x002.
Definition PTE_USER : Z := 0x004.
Definition PTE_COW : Z := 0x200.
Definition PTE_BORROWED : Z := 0x400.
Definition PTE_NOCACHE : Z := 0x018.
Definition PTE_WC : Z := 0x080.
Definition PTE_HUGE : Z := 0x080.
Definition PTE_ADDR_MASK : Z := 0x000FFFFFFFFFF000.
Definition ENTRIES : Z := 512.

(** [e & f], as a condition. *)
Definition has (e f : Z) : bool := negb (e .& f =? 0).

Definition index_of (virt level : Z) : Z := (virt .>> (12 + 9 * (level - 1))) .& 0x1FF.

(** A loop whose body can end the function: [false] when it did. *)
Fixpoint all_ok {S} (l : list Z) (body : Z -> S -> S * bool) (s : S) : S * bool :=
  match l with
  | [] => (s, true)
  | i :: l => let (s, ok) := body i s in if ok then all_ok l body s else (s, false)
  end.

Section Paging.
Context {P : Type} `{FrameAllocator P}.

(** Memory, the frame allocator, and the variables of paging.c; [cr3] is the register. *)
Record vm := Vm {
  mem : gmap Z Z; frames : P; kernel_pml4 : Z; cr3 : Z; cow_shared : Z; cow_copies : Z; pat_ready : bool }.

Definition rd (s : vm) (a : Z) : Z := default 0 (mem s !! a).
Definition wr (a v : Z) (s : vm) : vm :=
  Vm (<[a := v]> (mem s)) (frames s) (kernel_pml4 s) (cr3 s) (cow_shared s) (cow_copies s) (pat_ready s).
Definition with_frames (p : P) (s : vm) : vm :=
  Vm (mem s) p (kernel_pml4 s) (cr3 s) (cow_shared s) (cow_copies s) (pat_ready s).
Definition with_counts (a b : Z) (s : vm) : vm :=
  Vm (mem s) (frames s) (kernel_pml4 s) (cr3 s) a b (pat_ready s).

Definition alloc (s : vm) : vm * Z := let (p, frame) := alloc_frame (frames s) in (with_frames p s, frame).
Definition give_back (frame : Z) (s : vm) : vm := with_frames (free_frame frame (frames s)) s.
Definition share (frame : Z) (s : vm) : vm * bool := let (p, took) := share_frame frame (frames s) in (with_frames p s, took).

(** Every word of a page, in order. *)
Definition fill_page (page : Z) (f : vm -> Z -> Z) (s : vm) : vm :=
  for_range 0 ENTRIES (fun k s => wr (page + 8 * k) (f s k) s) s.
Definition zero_page (page : Z) (s : vm) : vm := fill_page page (fun _ _ => 0) s.
Definition copy_page (to from : Z) (s : vm) : vm := fill_page to (fun s k => rd s (from + 8 * k)) s.

(** ** The walk *)

Definition live_pml4 (s : vm) : Z := cr3 s .& PTE_ADDR_MASK.

Definition step (table virt level : Z) (create : bool) (flags : Z) (s : vm) : vm * Z :=
  let at_ := table + 8 * index_of virt level in
  let '(s, there) :=
    if has (rd s at_) PTE_PRESENT then (s, true)
    else if negb create then (s, false)
    else
      let (s, frame) := alloc s in
      if frame =? 0 then (s, false)
      else
        let s := zero_page frame s in
        (wr at_ (frame .| PTE_PRESENT .| PTE_RW) s, true) in
  if negb there then (s, 0) else
  let s := if has flags PTE_USER then wr at_ (rd s at_ .| PTE_USER) s else s in
  if has (rd s at_) PTE_HUGE then (s, 0) else (s, rd s at_ .& PTE_ADDR_MASK).

Definition split_huge (pd i : Z) (s : vm) : vm * bool :=
  let entry := rd s (pd + 8 * i) in
  let base := entry .& PTE_ADDR_MASK in
  let flags := entry .& 0xFFF .& Z.lnot PTE_HUGE in
  let (s, frame) := alloc s in
  if frame =? 0 then (s, false) else
  let s := fill_page frame (fun _ k => u64 (base + k * PAGE_SIZE) .| flags .| PTE_PRESENT) s in
  (wr (pd + 8 * i) (frame .| PTE_PRESENT .| PTE_RW .| (entry .& PTE_USER)) s, true).

Definition table_for (pml4 virt : Z) (create : bool) (flags : Z) (s : vm) : vm * Z :=
  let (s, pdpt) := step pml4 virt 4 create flags s in
  if pdpt =? 0 then (s, 0) else
  let (s, pd) := step pdpt virt 3 create flags s in
  if pd =? 0 then (s, 0) else
  let i := index_of virt 2 in
  let e := rd s (pd + 8 * i) in
  if has e PTE_PRESENT && has e PTE_HUGE then
    if negb create then (s, 0) else
    let (s, ok) := split_huge pd i s in
    if negb ok then (s, 0) else step pd virt 2 create flags s
  else step pd virt 2 create flags s.

Definition map_huge_in (pml4 virt phys flags : Z) (s : vm) : vm * bool :=
  let (s, pdpt) := step pml4 virt 4 true flags s in
  if pdpt =? 0 then (s, false) else
  let (s, pd) := step pdpt virt 3 true flags s in
  if pd =? 0 then (s, false) else
  (wr (pd + 8 * index_of virt 2) ((phys .& PTE_ADDR_MASK) .| (flags .& 0xFFF) .| PTE_PRESENT .| PTE_HUGE) s, true).

Definition resolve (pml4 virt : Z) (s : vm) : Z :=
  let e4 := rd s (pml4 + 8 * index_of virt 4) in
  (* [step], which creates nothing here *)
  if negb (has e4 PTE_PRESENT) || has e4 PTE_HUGE then 0 else
  let pdpt := e4 .& PTE_ADDR_MASK in
  if pdpt =? 0 then 0 else
  let e3 := rd s (pdpt + 8 * index_of virt 3) in
  if negb (has e3 PTE_PRESENT) then 0 else
  if has e3 PTE_HUGE then (e3 .& PTE_ADDR_MASK) .| (virt .& 0x3FFFFFFF) else
  let pd := e3 .& PTE_ADDR_MASK in
  let e2 := rd s (pd + 8 * index_of virt 2) in
  if negb (has e2 PTE_PRESENT) then 0 else
  if has e2 PTE_HUGE then (e2 .& PTE_ADDR_MASK) .| (virt .& 0x1FFFFF) else
  let pt := e2 .& PTE_ADDR_MASK in
  let e := rd s (pt + 8 * index_of virt 1) in
  if negb (has e PTE_PRESENT) then 0 else (e .& PTE_ADDR_MASK) .| (virt .& 0xFFF).

Definition map_in (pml4 virt phys flags : Z) (s : vm) : vm * bool :=
  let (s, pt) := table_for pml4 virt true flags s in
  if pt =? 0 then (s, false) else
  (wr (pt + 8 * index_of virt 1) ((phys .& PTE_ADDR_MASK) .| (flags .& 0xFFF) .| PTE_PRESENT) s, true).
Definition map_page (virt phys flags : Z) (s : vm) : vm * bool := map_in (live_pml4 s) virt phys flags s.
Definition map_page_in (pml4_phys virt phys flags : Z) (s : vm) : vm * bool :=
  if pml4_phys =? 0 then (s, false) else map_in pml4_phys virt phys flags s.

Definition unmap_page_in (pml4_phys virt : Z) (s : vm) : vm :=
  if pml4_phys =? 0 then s else
  let (s, pt) := table_for pml4_phys virt false 0 s in
  if pt =? 0 then s else wr (pt + 8 * index_of virt 1) 0 s.
Definition unmap_page (virt : Z) (s : vm) : vm := unmap_page_in (live_pml4 s) virt s.

Definition virt_to_phys_in (pml4_phys virt : Z) (s : vm) : Z :=
  if pml4_phys =? 0 then 0 else resolve pml4_phys virt s.
Definition virt_to_phys (virt : Z) (s : vm) : Z := virt_to_phys_in (live_pml4 s) virt s.

(** The loop of [virt_is_user_in], from [level] down to 2, then the page's entry. *)
Fixpoint user_walk (level : nat) (table virt : Z) (s : vm) : bool :=
  match level with
  | S (S below as level') =>
      let e := rd s (table + 8 * index_of virt (Z.of_nat level)) in
      if negb (has e PTE_PRESENT) || negb (has e PTE_USER) then false
      else if has e PTE_HUGE then true else user_walk level' (e .& PTE_ADDR_MASK) virt s
  | _ => let pte := rd s (table + 8 * index_of virt 1) in has pte PTE_PRESENT && has pte PTE_USER
  end.
Definition virt_is_user_in (pml4_phys virt : Z) (s : vm) : bool :=
  if pml4_phys =? 0 then false else user_walk 4 pml4_phys virt s.

Definition paging_entry_present (pml4_phys virt : Z) (s : vm) : bool :=
  if pml4_phys =? 0 then false else
  let (s, pt) := table_for pml4_phys virt false 0 s in
  if pt =? 0 then false else has (rd s (pt + 8 * index_of virt 1)) PTE_PRESENT.
Definition paging_entry_writable (pml4_phys virt : Z) (s : vm) : bool :=
  if pml4_phys =? 0 then false else
  let (s, pt) := table_for pml4_phys virt false 0 s in
  if pt =? 0 then false else
  let pte := rd s (pt + 8 * index_of virt 1) in has pte PTE_PRESENT && has pte PTE_RW.

(** ** Spaces *)

Definition paging_new_directory (s : vm) : vm * Z :=
  let (s, frame) := alloc s in
  if frame =? 0 then (s, 0) else
  let s := zero_page frame s in
  let s := for_range 0 ENTRIES (fun i s =>
    let e := rd s (kernel_pml4 s + 8 * i) in if has e PTE_PRESENT then wr (frame + 8 * i) e s else s) s in
  (s, frame).

Fixpoint free_table (level : nat) (table : Z) (s : vm) : vm :=
  match level with
  | O => s
  | S below_level =>
      for_range 0 ENTRIES (fun i s =>
        let e := rd s (table + 8 * i) in
        if negb (has e PTE_PRESENT) then s else
        if has e PTE_HUGE then s else
        let below := e .& PTE_ADDR_MASK in
        match below_level with
        | S _ => give_back below (free_table below_level below s)
        | O => if has e PTE_USER && negb (has e PTE_BORROWED) then give_back below s else s
        end) s
  end.

(** One entry of [copy_table], with the call for the level below. *)
Definition copy_entry (below_level : nat) (copy_below : Z -> Z -> vm -> vm * bool) (dst src i : Z) (s : vm) : vm * bool :=
  let e := rd s (src + 8 * i) in
  if negb (has e PTE_PRESENT) then (wr (dst + 8 * i) 0 s, true) else
  if has e PTE_HUGE then (wr (dst + 8 * i) e s, true) else
  let below := e .& PTE_ADDR_MASK in
  match below_level with
  | S _ =>
      let (s, fresh) := alloc s in
      if fresh =? 0 then (s, false) else
      let s := zero_page fresh s in
      let s := wr (dst + 8 * i) (fresh .| (e .& 0xFFF)) s in
      copy_below fresh below s
  | O =>
      if negb (has e PTE_USER) then (wr (dst + 8 * i) e s, true) else
      if has e PTE_BORROWED then (wr (dst + 8 * i) 0 s, true) else
      let (s, took) := share below s in
      if took then
        let shared := (e .& Z.lnot PTE_RW) .| PTE_COW in
        let s := wr (src + 8 * i) shared (wr (dst + 8 * i) shared s) in
        (with_counts (u64 (cow_shared s + 1)) (cow_copies s) s, true)
      else
        let (s, fresh) := alloc s in
        if fresh =? 0 then (s, false) else
        let s := copy_page fresh below s in
        (wr (dst + 8 * i) (fresh .| (e .& 0xFFF)) s, true)
  end.
Fixpoint copy_table (level : nat) (dst src : Z) (s : vm) : vm * bool :=
  match level with
  | O => (s, true)
  | S below_level => all_ok (seqZ 0 ENTRIES) (copy_entry below_level (copy_table below_level) dst src) s
  end.

(** The address of the entry of a mapped page, 0 for none. *)
Definition entry_for (pml4_phys addr : Z) (s : vm) : Z :=
  let i4 := (addr .>> 39) .& 0x1FF in let i3 := (addr .>> 30) .& 0x1FF in
  let i2 := (addr .>> 21) .& 0x1FF in let i1 := (addr .>> 12) .& 0x1FF in
  let e4 := rd s (pml4_phys + 8 * i4) in
  if negb (has e4 PTE_PRESENT) then 0 else
  let e3 := rd s ((e4 .& PTE_ADDR_MASK) + 8 * i3) in
  if negb (has e3 PTE_PRESENT) || has e3 PTE_HUGE then 0 else
  let e2 := rd s ((e3 .& PTE_ADDR_MASK) + 8 * i2) in
  if negb (has e2 PTE_PRESENT) || has e2 PTE_HUGE then 0 else
  let pte := (e2 .& PTE_ADDR_MASK) + 8 * i1 in
  if negb (has (rd s pte) PTE_PRESENT) then 0 else pte.

Definition paging_resolve_cow (pml4_phys addr : Z) (s : vm) : vm * bool :=
  if pml4_phys =? 0 then (s, false) else
  let page := addr .& Z.lnot (PAGE_SIZE - 1) in
  let pte := entry_for pml4_phys page s in
  if (pte =? 0) || negb (has (rd s pte) PTE_COW) then (s, false) else
  let frame := rd s pte .& PTE_ADDR_MASK in
  if holders_of (frames s) frame <=? 1 then
    (wr pte ((rd s pte .| PTE_RW) .& Z.lnot PTE_COW) s, true)
  else
    let (s, fresh) := alloc s in
    if fresh =? 0 then (s, false) else
    let s := copy_page fresh frame s in
    let s := give_back frame s in
    let s := wr pte (fresh .| (rd s pte .& 0xFFF)) s in
    let s := wr pte (rd s pte .| PTE_RW) s in
    let s := wr pte (rd s pte .& Z.lnot PTE_COW) s in
    (with_counts (cow_shared s) (u64 (cow_copies s + 1)) s, true).

Definition paging_free_directory (pml4_phys : Z) (s : vm) : vm :=
  if (pml4_phys =? 0) || (pml4_phys =? kernel_pml4 s) then s else
  let s := for_range 0 ENTRIES (fun i s =>
    let e := rd s (pml4_phys + 8 * i) in
    let ke := rd s (kernel_pml4 s + 8 * i) in
    if negb (has e PTE_PRESENT) then s else
    if has ke PTE_PRESENT && (e .& PTE_ADDR_MASK =? ke .& PTE_ADDR_MASK) then s else
    let below := e .& PTE_ADDR_MASK in
    give_back below (free_table 3 below s)) s in
  give_back pml4_phys s.

(** One top level entry of the copy; [false] has cleaned up. *)
Definition clone_entry (src fresh i : Z) (s : vm) : vm * bool :=
  let e := rd s (src + 8 * i) in
  let ke := rd s (kernel_pml4 s + 8 * i) in
  if negb (has e PTE_PRESENT) then (s, true) else
  if has ke PTE_PRESENT && (e .& PTE_ADDR_MASK =? ke .& PTE_ADDR_MASK) then (wr (fresh + 8 * i) e s, true) else
  let (s, table) := alloc s in
  if table =? 0 then (paging_free_directory fresh s, false) else
  let s := zero_page table s in
  let (s, ok) := copy_table 3 table (e .& PTE_ADDR_MASK) s in
  if negb ok then (paging_free_directory fresh (give_back table (free_table 3 table s)), false)
  else (wr (fresh + 8 * i) (table .| (e .& 0xFFF)) s, true).
Definition paging_clone_directory (src_phys : Z) (s : vm) : vm * Z :=
  if src_phys =? 0 then (s, 0) else
  let (s, fresh) := paging_new_directory s in
  if fresh =? 0 then (s, 0) else
  let (s, ok) := all_ok (seqZ 0 ENTRIES) (clone_entry src_phys fresh) s in
  (s, if ok then fresh else 0).

(** ** Devices *)

(** The pages of [phys, phys + bytes). *)
Definition device_pages (phys bytes : Z) : list Z :=
  let first := phys .& u64 (Z.lnot 0xFFF) in
  let last := u64 (phys + bytes + PAGE_SIZE - 1) .& u64 (Z.lnot 0xFFF) in
  (fun i => first + i * PAGE_SIZE) <$> seqZ 0 ((last - first) / PAGE_SIZE).
Definition paging_map_device (phys bytes : Z) (s : vm) : vm * Z :=
  let (s, ok) := all_ok (device_pages phys bytes) (fun a s =>
    if virt_to_phys a s =? a then (s, true) else map_page a a (PTE_PRESENT .| PTE_RW .| PTE_NOCACHE) s) s in
  (s, if ok then phys else 0).
Definition paging_map_wc (phys bytes : Z) (s : vm) : vm * Z :=
  if negb (pat_ready s) then paging_map_device phys bytes s else
  let (s, ok) := all_ok (device_pages phys bytes) (fun a s =>
    map_page a a (PTE_PRESENT .| PTE_RW .| PTE_WC) (unmap_page a s)) s in
  (s, if ok then phys else 0).

End Paging.

(** ** Entries *)

(** Flags under an operation with a constant, by computing the constant's part. *)
Ltac is_const t := lazymatch t with Z0 => idtac | Zpos _ => idtac | Zneg _ => idtac | Z.lnot ?u => is_const u end.
Ltac land_consts := repeat match goal with
  | |- context [Z.land ?a ?b] => is_const a; is_const b; let v := eval vm_compute in (Z.land a b) in change (Z.land a b) with v
  end.
Ltac pte := unfold has, PTE_PRESENT, PTE_RW, PTE_USER, PTE_COW, PTE_BORROWED, PTE_HUGE, PTE_ADDR_MASK in *;
  repeat match goal with
  | |- context [Z.land (Z.lor ?a ?b) ?c] => rewrite (Z.land_lor_distr_l a b c)
  | |- context [Z.land (Z.land ?a ?b) ?c] => rewrite <- (Z.land_assoc a b c)
  end; land_consts;
  repeat match goal with
  | |- context [Z.lor ?a 0] => rewrite (Z.lor_0_r a)
  | |- context [Z.land ?a 0] => rewrite (Z.land_0_r a)
  end.

Definition addr_of (e : Z) : Z := e .& PTE_ADDR_MASK.

Lemma addr_of_spec e : is_u64 e -> addr_of e = (e / 4096) mod 2 ^ 40 * 4096.
Proof.
  intros He. unfold addr_of, PTE_ADDR_MASK. change 0x000FFFFFFFFFF000 with (Z.ones 40 .<< 12).
  rewrite <- Z.land_ones by lia. change 4096 with (2 ^ 12). rewrite <- Z.shiftl_mul_pow2, <- Z.shiftr_div_pow2 by lia. bits.
  rewrite Z.land_spec, !Z.shiftl_spec by lia. rewrite Z.land_spec. destruct (Z.ltb_spec n 12).
  - by rewrite !(Z.testbit_neg_r _ (n - 12)), andb_false_r by lia.
  - rewrite Z.shiftr_spec by lia. do 2 f_equal. lia.
Qed.
Lemma addr_of_aligned e : is_u64 e -> addr_of e mod 4096 = 0 /\ 0 <= addr_of e < 2 ^ 52.
Proof. intros He. rewrite addr_of_spec by done. dlia. Qed.

(** An entry put together from a frame and flags. *)
Lemma low_bits_land a x : a mod 4096 = 0 -> 0 <= x < 4096 -> a .& x = 0.
Proof.
  intros Ha Hx. replace a with ((a / 4096) .<< 12) by (rewrite Z.shiftl_mul_pow2 by lia; dlia). bits.
  rewrite Z.land_spec, Z.shiftl_spec, Z.testbit_0_l by lia. destruct (Z.ltb_spec n 12).
  - by rewrite Z.testbit_neg_r by lia.
  - rewrite (is_word_testbit 12 x n); [apply andb_false_r|lia|unfold is_word; lia|lia].
Qed.
Lemma frame_flags a fl : a mod 4096 = 0 -> 0 <= a < 2 ^ 52 -> 0 <= fl < 4096 ->
  addr_of (a .| fl) = a /\ (a .| fl) .& 0xFFF = fl /\ (forall b, 0 <= b < 4096 -> has (a .| fl) b = has fl b) /\ is_u64 (a .| fl).
Proof.
  intros Ha Hb Hfl. assert (is_u64 (a .| fl)) as Hw by (apply is_word_lor; unfold is_word; lia).
  assert (a .| fl = fl + a / 4096 * 4096) as E.
  { pose proof (lor_shiftl_add fl (a / 4096) 12 ltac:(lia) ltac:(unfold is_word; lia)) as H. rewrite Z.shiftl_mul_pow2 in H by lia.
    replace (a / 4096 * 2 ^ 12) with a in H by dlia. rewrite Z.lor_comm, H. dlia. }
  split; [rewrite addr_of_spec by done; rewrite E; dlia|]. split; [|split; [|done]].
  - change 0xFFF with (Z.ones 12). rewrite Z.land_ones, E by lia. dlia.
  - intros b Hb2. unfold has. by rewrite Z.land_lor_distr_l, low_bits_land, Z.lor_0_l.
Qed.

(** ** The tables of all spaces *)

Definition link (e : Z) : option Z := if has e PTE_PRESENT && negb (has e PTE_HUGE) then Some (addr_of e) else None.

(** The page a word lies in, and the part of an address a table of a level is for: the
    whole of it for the top level, its page for level nought. *)
Definition page_of (a : Z) : Z := a / 4096 * 4096.
Definition pfx (virt level : Z) : Z := virt / 2 ^ (12 + 9 * level).

Lemma index_of_range virt level : 0 <= index_of virt level < 512.
Proof. unfold index_of. change 0x1FF with (Z.ones 9). rewrite Z.land_ones by lia. apply Z.mod_pos_bound. lia. Qed.
Lemma pfx_step virt level : 1 <= level -> pfx virt (level - 1) = pfx virt level * 512 + index_of virt level.
Proof.
  intros Hl. unfold pfx, index_of. change 0x1FF with (Z.ones 9). rewrite Z.land_ones, Z.shiftr_div_pow2 by lia.
  replace (12 + 9 * level) with (12 + 9 * (level - 1) + 9) by lia. set (k := 12 + 9 * (level - 1)). assert (0 <= k) by lia.
  rewrite (Z.pow_add_r 2 k 9), <- Z.div_div by lia. change (2 ^ 9) with 512.
  pose proof (Z.div_mod (virt / 2 ^ k) 512 ltac:(lia)). lia.
Qed.
Lemma page_of_entry t i : t mod 4096 = 0 -> 0 <= i < 512 -> page_of (t + 8 * i) = t.
Proof. intros. unfold page_of. dlia. Qed.

Section Tables.
Context {P : Type} `{FrameAllocatorLaws P}.
Implicit Types s : vm (P := P).

Lemma rd_wr s a v b : rd (wr a v s) b = if b =? a then v else rd s b.
Proof.
  unfold rd, wr. cbn [mem]. destruct (Z.eqb_spec b a) as [->|]; [by rewrite lookup_insert_eq|by rewrite lookup_insert_ne].
Qed.

(** Whose table each table is: the root it hangs from, its level, and the addresses it is
    for. A root is its own; a table whose root has no parent yet is one too. *)
Definition owners := Z -> option (Z * Z * Z).

Record tables_ok (own : owners) (s : vm) : Prop := {
  tk_alloc : alloc_ok (frames s);
  tk_words : forall a, is_u64 (rd s a);
  tk_table : forall t r l p, own t = Some (r, l, p) ->
    t mod 4096 = 0 /\ 0 < t < 2 ^ 44 /\ 0 < held (frames s) (t / 4096) /\ 1 <= l <= 4 /\
    exists lr pr, own r = Some (r, lr, pr) /\ l <= lr /\ (l = lr -> t = r);
  tk_link : forall t r l p i c, own t = Some (r, l, p) -> 2 <= l -> 0 <= i < 512 -> link (rd s (t + 8 * i)) = Some c ->
    exists r', own c = Some (r', l - 1, p * 512 + i) /\ (r' = r \/ (l = 4 /\ r' = kernel_pml4 s));
  tk_parent : forall c r l q, own c = Some (r, l, q) -> c <> r ->
    exists t, own t = Some (r, l + 1, q / 512) /\ link (rd s (t + 8 * (q mod 512))) = Some c;
  tk_kernel : own (kernel_pml4 s) = Some (kernel_pml4 s, 4, 0);
  tk_user : has (rd s (kernel_pml4 s + 8 * 1)) PTE_PRESENT = false;
  tk_small : forall t r l p i, own t = Some (r, l, p) -> r <> kernel_pml4 s \/ l = 4 -> 2 <= l -> 0 <= i < 512 ->
    has (rd s (t + 8 * i)) PTE_PRESENT = true -> has (rd s (t + 8 * i)) PTE_HUGE = false
}.

Lemma link_some e c : link e = Some c <-> has e PTE_PRESENT = true /\ has e PTE_HUGE = false /\ addr_of e = c.
Proof. unfold link. destruct (has e PTE_PRESENT), (has e PTE_HUGE); cbn [andb negb]; naive_solver. Qed.
Lemma link_absent e : has e PTE_PRESENT = false -> link e = None.
Proof. unfold link. by intros ->. Qed.

Lemma owner_unique own s t t' r l p : tables_ok own s -> own t = Some (r, l, p) -> own t' = Some (r, l, p) -> t = t'.
Proof.
  intros Hs. remember (Z.to_nat (4 - l)) as n eqn:En. revert t t' l p En. induction n as [|n IH]; intros t t' l p En Ht Ht'.
  all: destruct (tk_table own s Hs t r l p Ht) as (_ & _ & _ & Hl & lr & pr & Hr & Hlr & Htr).
  all: destruct (tk_table own s Hs t' r l p Ht') as (_ & _ & _ & _ & lr' & pr' & Hr' & _ & Htr').
  all: assert (lr' = lr) as -> by congruence.
  all: destruct (tk_table own s Hs r r lr pr Hr) as (_ & _ & _ & Hl4 & _).
  - rewrite Htr, Htr' by lia. done.
  - destruct (Z.eq_dec l lr) as [->|Hne]; [by rewrite Htr, Htr'|].
    assert (t <> r) as H1 by (intros ->; congruence). assert (t' <> r) as H2 by (intros ->; congruence).
    destruct (tk_parent own s Hs _ _ _ _ Ht H1) as (a & Ha & Hla). destruct (tk_parent own s Hs _ _ _ _ Ht' H2) as (b & Hb & Hlb).
    assert (a = b) as -> by (apply (IH a b (l + 1) (p / 512)); [lia|done..]). congruence.
Qed.

(** The tables as the walk sees them depend on memory through the links alone. *)
Lemma tables_same own s s' : tables_ok own s -> alloc_ok (frames s') -> (forall a, is_u64 (rd s' a)) ->
  kernel_pml4 s' = kernel_pml4 s -> (forall t x, own t = Some x -> 0 < held (frames s') (t / 4096)) ->
  (forall t r l p i, own t = Some (r, l, p) -> 2 <= l -> 0 <= i < 512 ->
    link (rd s' (t + 8 * i)) = link (rd s (t + 8 * i)) /\
    has (rd s' (t + 8 * i)) PTE_PRESENT = has (rd s (t + 8 * i)) PTE_PRESENT) ->
  tables_ok own s'.
Proof.
  intros [A1 A2 A3 A4 A5 A6 A7 A8] B1 B2 B3 B4 B5. constructor; [done|done|..].
  - intros t r l p Ht. destruct (A3 t r l p Ht) as (C1 & C2 & _ & C3 & C4). pose proof (B4 t _ Ht). done.
  - intros t r l p i c Ht Hl Hi Hc. rewrite (proj1 (B5 t r l p i Ht Hl Hi)) in Hc.
    rewrite B3. exact (A4 t r l p i c Ht Hl Hi Hc).
  - intros c r l q Hc Hne. destruct (A5 c r l q Hc Hne) as (t & Ht & Hlk). exists t. split; [done|].
    destruct (A3 c r l q Hc) as (_ & _ & _ & Hl & _).
    rewrite (proj1 (B5 t r (l + 1) (q / 512) (q mod 512) Ht ltac:(lia) ltac:(apply Z.mod_pos_bound; lia))). done.
  - rewrite B3. done.
  - rewrite B3. rewrite (proj2 (B5 (kernel_pml4 s) _ 4 0 1 A6 ltac:(lia) ltac:(lia))). done.
  - intros t r l p i Ht Hr Hl Hi. rewrite B3 in Hr. destruct (B5 t r l p i Ht Hl Hi) as [Hlk ->]. intros Hp.
    pose proof (A8 t r l p i Ht Hr Hl Hi Hp) as Hh. assert (link (rd s (t + 8 * i)) = Some (addr_of (rd s (t + 8 * i)))) as E by (by apply link_some).
    rewrite E in Hlk. by apply link_some in Hlk as (_ & ? & _).
Qed.

(** A write outside the upper levels. *)
Lemma tables_wr own s a v : tables_ok own s -> is_u64 v -> (forall t r l p, own t = Some (r, l, p) -> 2 <= l -> page_of a <> t) ->
  tables_ok own (wr a v s).
Proof.
  intros Hs Hv Ha. apply (tables_same own s); [done|by apply Hs|..].
  - intros b. rewrite rd_wr. destruct (b =? a); [done|by apply Hs].
  - done.
  - intros t [[r l] p] Ht. destruct (tk_table own s Hs _ _ _ _ Ht) as (_ & _ & ? & _). done.
  - intros t r l p i Ht Hl Hi. rewrite rd_wr. destruct (Z.eqb_spec (t + 8 * i) a) as [<-|]; [|done]. exfalso.
    destruct (tk_table own s Hs _ _ _ _ Ht) as (Hal & _). apply (Ha t r l p Ht Hl). by apply page_of_entry.
Qed.
(** A write to an upper level that leads where the entry did. *)
Lemma tables_wr_same own s a v : tables_ok own s -> is_u64 v -> link v = link (rd s a) ->
  has v PTE_PRESENT = has (rd s a) PTE_PRESENT -> tables_ok own (wr a v s).
Proof.
  intros Hs Hv Hl Hp. apply (tables_same own s); [done|by apply Hs|..].
  - intros b. rewrite rd_wr. destruct (b =? a); [done|by apply Hs].
  - done.
  - intros t [[r l] p] Ht. destruct (tk_table own s Hs _ _ _ _ Ht) as (_ & _ & ? & _). done.
  - intros t r l p i Ht Hl2 Hi. rewrite rd_wr. destruct (Z.eqb_spec (t + 8 * i) a) as [->|]; done.
Qed.

(** ** Filling a page *)

(** Everything but memory is the same. *)
Definition same_rest (s s' : vm (P := P)) : Prop :=
  frames s' = frames s /\ kernel_pml4 s' = kernel_pml4 s /\ cr3 s' = cr3 s /\ cow_shared s' = cow_shared s /\
  cow_copies s' = cow_copies s /\ pat_ready s' = pat_ready s.

Lemma fill_page_spec page f g s :
  (forall s' k, 0 <= k < 512 -> same_rest s s' -> (forall a, a < page \/ page + 4096 <= a -> rd s' a = rd s a) -> f s' k = g k) ->
  same_rest s (fill_page page f s) /\
  (forall k, 0 <= k < 512 -> rd (fill_page page f s) (page + 8 * k) = g k) /\
  (forall a, a < page \/ page + 4096 <= a -> rd (fill_page page f s) a = rd s a) /\
  ((forall a, is_u64 (rd s a)) -> (forall k, 0 <= k < 512 -> is_u64 (g k)) -> forall a, is_u64 (rd (fill_page page f s) a)).
Proof.
  intros Hf. unfold fill_page.
  pose (I := fun i s' => same_rest s s' /\ (forall a, a < page \/ page + 4096 <= a -> rd s' a = rd s a) /\
    (forall k, 0 <= k < i -> rd s' (page + 8 * k) = g k) /\
    ((forall a, is_u64 (rd s a)) -> (forall k, 0 <= k < 512 -> is_u64 (g k)) -> forall a, is_u64 (rd s' a))).
  assert (I 512 (for_range 0 ENTRIES (fun k s => wr (page + 8 * k) (f s k) s) s)) as (H1 & H2 & H3 & H4); [|done].
  apply (for_range_inv I).
  - unfold ENTRIES. lia.
  - split; [done|]. split; [done|]. split; [intros k Hk; lia|done].
  - unfold ENTRIES. intros i s' Hi (H1 & H2 & H3 & H4). rewrite (Hf s' i Hi H1 H2). split; [exact H1|].
    split; [intros a Ha; rewrite rd_wr, (proj2 (Z.eqb_neq _ _)) by lia; by apply H2|]. split.
    + intros k Hk. rewrite rd_wr. destruct (Z.eqb_spec (page + 8 * k) (page + 8 * i)) as [E|]; [f_equal; lia|]. apply H3. lia.
    + intros Hw Hg a. rewrite rd_wr. destruct (a =? _); [by apply Hg|by apply H4].
Qed.

(** ** A new table *)

Definition owned (own : owners) (c : Z) (x : Z * Z * Z) : owners := fun t => if t =? c then Some x else own t.

Lemma tables_new own s s1 t r l p i c v (own' := owned own c (r, l - 1, p * 512 + i)) :
  tables_ok own s -> own t = Some (r, l, p) -> r <> kernel_pml4 s -> 2 <= l -> 0 <= i < 512 ->
  has (rd s (t + 8 * i)) PTE_PRESENT = false -> own c = None -> c mod 4096 = 0 -> 0 < c < 2 ^ 44 ->
  alloc_ok (frames s1) -> kernel_pml4 s1 = kernel_pml4 s -> 0 < held (frames s1) (c / 4096) ->
  (forall f, 0 < held (frames s) f -> 0 < held (frames s1) f) -> (forall a, is_u64 (rd s1 a)) ->
  (forall a, page_of a <> c -> rd s1 a = rd s a) -> (forall k, 0 <= k < 512 -> rd s1 (c + 8 * k) = 0) ->
  is_u64 v -> link v = Some c ->
  tables_ok own' (wr (t + 8 * i) v s1).
Proof.
  intros Hs Ht Hr Hl Hi Habs Hc Hal Hrange B1 B2 B3 B4 B5 B6 B7 Hv Hlk.
  pose proof Hs as [A1 A2 A3 A4 A5 A6 A7 A8].
  assert (forall t' x, own t' = Some x -> t' <> c) as Hnc by (intros t' x E ->; congruence).
  assert (forall t' x, own t' = Some x -> own' t' = Some x) as Hkeep.
  { intros t' x E. unfold own', owned. by rewrite (proj2 (Z.eqb_neq _ _)) by (by eapply Hnc). }
  assert (own' c = Some (r, l - 1, p * 512 + i)) as Hown by (unfold own', owned; by rewrite Z.eqb_refl).
  assert (forall t' r' l' p' k, own t' = Some (r', l', p') -> 0 <= k < 512 ->
    rd (wr (t + 8 * i) v s1) (t' + 8 * k) = if (t' =? t) && (k =? i) then v else rd s (t' + 8 * k)) as Hrd.
  { intros t' r' l' p' k Ht' Hk. rewrite rd_wr. destruct (A3 _ _ _ _ Ht) as (Ha1 & _), (A3 _ _ _ _ Ht') as (Ha2 & _).
    rewrite B6 by (rewrite page_of_entry by done; by eapply Hnc).
    destruct (Z.eqb_spec (t' + 8 * k) (t + 8 * i)), (Z.eqb_spec t' t), (Z.eqb_spec k i); cbn [andb]; try done; exfalso; dlia. }
  assert (forall t' x, own' t' = Some x -> t' = c /\ x = (r, l - 1, p * 512 + i) \/ own t' = Some x) as Hinv.
  { intros t' x. unfold own', owned. destruct (Z.eqb_spec t' c) as [->|]; [|tauto]. intros [= <-]. by left. }
  assert (forall k, 0 <= k < 512 -> rd (wr (t + 8 * i) v s1) (c + 8 * k) = 0) as Hzero.
  { intros k Hk. rewrite rd_wr. destruct (Z.eqb_spec (c + 8 * k) (t + 8 * i)) as [E|]; [|by apply B7]. exfalso.
    destruct (A3 _ _ _ _ Ht) as (Ha1 & _). apply (Hnc t _ Ht). dlia. }
  constructor.
  - exact B1.
  - intros a. rewrite rd_wr. destruct (a =? _); [done|by apply B5].
  - intros t' r' l' p' [[-> [= -> -> ->]]|E]%Hinv.
    + destruct (A3 _ _ _ _ Ht) as (_ & _ & _ & Hl4 & lr & pr & Hro & Hle & _).
      split; [done|]. split; [done|]. split; [done|]. split; [lia|]. exists lr, pr. split; [by apply Hkeep|]. split; lia.
    + destruct (A3 _ _ _ _ E) as (C1 & C2 & C3 & C4 & lr & pr & C5 & C6 & C7).
      split; [done|]. split; [done|]. split; [by apply B4|]. split; [done|]. exists lr, pr. split; [by apply Hkeep|]. done.
  - intros t' r' l' p' k c' [[-> [= -> -> ->]]|E]%Hinv Hl' Hk.
    + rewrite Hzero by done. done.
    + rewrite (Hrd _ _ _ _ _ E Hk). change (kernel_pml4 (wr (t + 8 * i) v s1)) with (kernel_pml4 s1). rewrite B2.
      destruct (Z.eqb_spec t' t) as [->|]; cbn [andb].
      * rewrite Ht in E. injection E as <- <- <-. destruct (Z.eqb_spec k i) as [->|].
        -- rewrite Hlk. intros [= <-]. exists r. split; [done|by left].
        -- intros Hlk'. destruct (A4 _ _ _ _ _ _ Ht Hl Hk Hlk') as (r' & Hr' & Hor). exists r'. split; [by apply Hkeep|done].
      * intros Hlk'. destruct (A4 _ _ _ _ _ _ E Hl' Hk Hlk') as (r2 & Hr' & Hor). exists r2. split; [by apply Hkeep|done].
  - intros c' r' l' q [[-> [= -> -> ->]]|E]%Hinv Hne.
    + exists t. replace (l - 1 + 1) with l by lia. replace ((p * 512 + i) / 512) with p by dlia.
      replace ((p * 512 + i) mod 512) with i by dlia. split; [by apply Hkeep|]. by rewrite (Hrd _ _ _ _ _ Ht Hi), !Z.eqb_refl.
    + destruct (A5 _ _ _ _ E Hne) as (t0 & Ht0 & Hl0). exists t0. split; [by apply Hkeep|].
      pose proof (Z.mod_pos_bound q 512 ltac:(lia)) as Hq. rewrite (Hrd _ _ _ _ _ Ht0 Hq).
      destruct (Z.eqb_spec t0 t) as [->|]; cbn [andb]; [|done]. destruct (Z.eqb_spec (q mod 512) i) as [Eq|]; [|done].
      rewrite Eq, (link_absent _ Habs) in Hl0. done.
  - change (kernel_pml4 (wr (t + 8 * i) v s1)) with (kernel_pml4 s1). rewrite B2. by apply Hkeep.
  - change (kernel_pml4 (wr (t + 8 * i) v s1)) with (kernel_pml4 s1). rewrite B2, (Hrd _ _ _ _ 1 A6) by lia.
    destruct (Z.eqb_spec (kernel_pml4 s) t) as [E|]; cbn [andb]; [|done]. exfalso. subst t. rewrite A6 in Ht. congruence.
  - change (kernel_pml4 (wr (t + 8 * i) v s1)) with (kernel_pml4 s1). rewrite B2.
    intros t' r' l' p' k [[-> [= -> -> ->]]|E]%Hinv Hr' Hl' Hk.
    + rewrite Hzero by done. done.
    + rewrite (Hrd _ _ _ _ _ E Hk). destruct ((t' =? t) && (k =? i)); [|by eapply A8].
      intros _. by apply link_some in Hlk as (_ & ? & _).
Qed.

(** ** The walk *)

(** What making a walk can do to the rest: tables are added, zero if they hold pages'
    entries, out of frames nobody held; no page's entry and no held page changes. *)
Record extends (own : owners) (s : vm (P := P)) (own' : owners) (s' : vm (P := P)) : Prop := {
  ex_own : forall t x, own t = Some x -> own' t = Some x;
  ex_leaf : forall t r p i, own t = Some (r, 1, p) -> 0 <= i < 512 -> rd s' (t + 8 * i) = rd s (t + 8 * i);
  ex_data : forall a, own (page_of a) = None -> 0 < held (frames s) (a / 4096) -> rd s' a = rd s a;
  ex_new : forall t r l p, own t = None -> own' t = Some (r, l, p) ->
    t mod 4096 = 0 /\ held (frames s) (t / 4096) = 0 /\ held (frames s') (t / 4096) = 1 /\ r <> kernel_pml4 s /\ t <> r /\
    (l = 1 -> forall i, 0 <= i < 512 -> rd s' (t + 8 * i) = 0);
  ex_held : forall f, own (f * 4096) <> None \/ own' (f * 4096) = None -> held (frames s') f = held (frames s) f;
  ex_list : exists l : list Z, forall t, own t = None -> own' t <> None -> t ∈ l;
  ex_rest : kernel_pml4 s' = kernel_pml4 s /\ cr3 s' = cr3 s /\ cow_shared s' = cow_shared s /\ cow_copies s' = cow_copies s /\ pat_ready s' = pat_ready s
}.
Lemma extends_refl own s : extends own s own s.
Proof. constructor; try done; [intros t r l p H1 H2; congruence|]. exists []. intros t H1 H2. done. Qed.
Lemma page_frame a : page_of a = a / 4096 * 4096.
Proof. done. Qed.
Lemma extends_held own s own' s' f : extends own s own' s' -> 0 < held (frames s) f -> held (frames s') f = held (frames s) f.
Proof.
  intros He Hf. destruct (own' (f * 4096)) as [[[r l] p]|] eqn:E; [|apply (ex_held _ _ _ _ He); by right].
  destruct (own (f * 4096)) eqn:E2; [apply (ex_held _ _ _ _ He); left; congruence|].
  destruct (ex_new _ _ _ _ He _ _ _ _ E2 E) as (_ & H1 & _). rewrite Z.div_mul in H1 by lia. lia.
Qed.
Lemma extends_trans own1 s1 own2 s2 own3 s3 : extends own1 s1 own2 s2 -> extends own2 s2 own3 s3 -> extends own1 s1 own3 s3.
Proof.
  intros A B. constructor.
  - intros t x Ht. by apply B, A.
  - intros t r p i Ht Hi. rewrite (ex_leaf _ _ _ _ B t r p i) by (done || by apply A). by apply (ex_leaf _ _ _ _ A t r p).
  - intros a Ha Hh. rewrite (ex_data _ _ _ _ B a), (ex_data _ _ _ _ A a); try done.
    + destruct (own2 (page_of a)) as [[[r l] p]|] eqn:E; [|done]. destruct (ex_new _ _ _ _ A _ _ _ _ Ha E) as (_ & H1 & _).
      unfold page_of in H1. rewrite Z.div_mul in H1 by lia. lia.
    + by rewrite (extends_held _ _ _ _ _ A).
  - intros t r l p Hn Ht. destruct (own2 t) as [[[r2 l2] p2]|] eqn:E.
    + pose proof (ex_own _ _ _ _ B _ _ E) as E'. rewrite Ht in E'. injection E' as <- <- <-.
      destruct (ex_new _ _ _ _ A _ _ _ _ Hn E) as (Ha & H1 & H2 & H3 & H4 & H5). split; [done|]. split; [done|]. split; [|split; [done|]; split; [done|]].
      * by rewrite (extends_held _ _ _ _ _ B) by lia.
      * intros -> i Hi. rewrite (ex_leaf _ _ _ _ B t r p i E Hi). by apply H5.
    + destruct (ex_new _ _ _ _ B _ _ _ _ E Ht) as (Ha & H1 & H2 & H3 & H4 & H5).
      destruct (ex_rest _ _ _ _ A) as (K & _). rewrite K in H3. split; [done|]. split; [|done].
      rewrite <- H1. symmetry. apply (ex_held _ _ _ _ A). right. by replace (t / 4096 * 4096) with t by dlia.
  - intros f Hf. rewrite (ex_held _ _ _ _ B f), (ex_held _ _ _ _ A f); try done.
    + destruct Hf as [Hf|Hf]; [by left|right]. destruct (own2 (f * 4096)) eqn:E; [|done]. apply B in E. congruence.
    + destruct Hf as [Hf|Hf]; [left|by right]. destruct (own1 (f * 4096)) eqn:E; [|done]. apply A in E. congruence.
  - destruct (ex_list _ _ _ _ A) as [l1 L1], (ex_list _ _ _ _ B) as [l2 L2]. exists (l1 ++ l2). intros t Hn Hs.
    apply elem_of_app. destruct (own2 t) as [x|] eqn:E; [left; apply L1; [done|congruence]|right; by apply L2].
  - destruct (ex_rest _ _ _ _ A) as (A1 & A2 & A3 & A4 & A5), (ex_rest _ _ _ _ B) as (B1 & B2 & B3 & B4 & B5). split_and!; congruence.
Qed.

Lemma link_child own s t r l p i c : tables_ok own s -> own t = Some (r, l, p) -> r <> kernel_pml4 s -> 2 <= l -> 0 <= i < 512 ->
  (l = 4 -> i = 1) -> link (rd s (t + 8 * i)) = Some c -> own c = Some (r, l - 1, p * 512 + i).
Proof.
  intros Hs Ht Hr Hl Hi H1 Hlk. destruct (tk_link _ _ Hs _ _ _ _ _ _ Ht Hl Hi Hlk) as (r' & Hc & [->|[-> ->]]); [done|]. exfalso.
  rewrite (H1 eq_refl) in *. pose proof (tk_kernel _ _ Hs) as Hk.
  destruct (tk_table _ _ Hs _ _ _ _ Ht) as (_ & _ & _ & _ & lr & pr & Hro & Hle & Htr).
  assert (c <> kernel_pml4 s) as Hne by (intros ->; rewrite Hk in Hc; injection Hc; lia).
  destruct (tk_parent _ _ Hs _ _ _ _ Hc Hne) as (k & Hko & Hkl). 
  destruct (tk_table _ _ Hs _ _ _ _ Hko) as (_ & _ & _ & _ & lk & pk & Hk2 & _ & Hkk). rewrite Hk in Hk2. injection Hk2 as <- <-.
  rewrite (Hkk eq_refl) in *. replace ((p * 512 + 1) mod 512) with 1 in Hkl by dlia.
  rewrite link_absent in Hkl by apply (tk_user _ _ Hs). done.
Qed.
Lemma child_link own s t r l p i c : tables_ok own s -> own t = Some (r, l, p) -> 2 <= l -> 0 <= i < 512 ->
  own c = Some (r, l - 1, p * 512 + i) -> link (rd s (t + 8 * i)) = Some c.
Proof.
  intros Hs Ht Hl Hi Hc. destruct (tk_table _ _ Hs _ _ _ _ Ht) as (_ & _ & _ & _ & lr & pr & Hro & Hle & Htr).
  assert (c <> r) as Hne by (intros ->; rewrite Hc in Hro; injection Hro as <- <-; lia).
  destruct (tk_parent _ _ Hs _ _ _ _ Hc Hne) as (t' & Ht' & Hlk). replace (l - 1 + 1) with l in Ht' by lia.
  replace ((p * 512 + i) / 512) with p in Ht' by dlia. replace ((p * 512 + i) mod 512) with i in Hlk by dlia.
  by rewrite (owner_unique own s t t' r l p Hs Ht Ht').
Qed.

(** Looking, without creating. *)
Lemma step_look own s t r l virt : tables_ok own s -> own t = Some (r, l, pfx virt l) -> r <> kernel_pml4 s -> 2 <= l ->
  (l = 4 -> index_of virt 4 = 1) ->
  exists c, step t virt l false 0 s = (s, c) /\
    ((c <> 0 /\ own c = Some (r, l - 1, pfx virt (l - 1)) /\ link (rd s (t + 8 * index_of virt l)) = Some c) \/
     (c = 0 /\ has (rd s (t + 8 * index_of virt l)) PTE_PRESENT = false /\ forall c', own c' <> Some (r, l - 1, pfx virt (l - 1)))).
Proof.
  intros Hs Ht Hr Hl H4. pose proof (index_of_range virt l) as Hi. unfold step. set (e := rd s (t + 8 * index_of virt l)).
  rewrite (pfx_step virt l) by lia. change (has 0 PTE_USER) with false. cbv iota.
  destruct (has e PTE_PRESENT) eqn:Ep; cbn [negb].
  - fold e. pose proof (tk_small _ _ Hs _ _ _ _ _ Ht (or_introl Hr) Hl Hi Ep) as Hh. fold e in Hh. rewrite Hh. fold (addr_of e).
    exists (addr_of e). split; [done|]. left.
    assert (link e = Some (addr_of e)) as Hlk by (by apply link_some).
    pose proof (link_child own s t r l _ _ _ Hs Ht Hr Hl Hi ltac:(intros ->; auto) Hlk) as Hc.
    destruct (tk_table _ _ Hs _ _ _ _ Hc) as (_ & Hpos & _). split; [lia|done].
  - exists 0. split; [done|]. right. split; [done|]. split; [done|]. intros c' Hc'.
    pose proof (child_link own s t r l _ _ _ Hs Ht Hl Hi Hc') as Hlk. fold e in Hlk. by rewrite link_absent in Hlk.
Qed.

(** ** Making the walk *)

Lemma rd_with_frames p s a : rd (with_frames p s) a = rd s a.
Proof. done. Qed.

Lemma alloc_spec s : alloc_ok (frames s) -> exists p c, alloc s = (with_frames p s, c) /\ alloc_ok p /\
  ((c = 0 /\ forall f, held p f = held (frames s) f) \/
   (0 < c < 2 ^ 44 /\ c mod 4096 = 0 /\ held (frames s) (c / 4096) = 0 /\
    forall f, held p f = if f =? c / 4096 then 1 else held (frames s) f)).
Proof.
  intros Ha. unfold alloc. destruct (alloc_frame_law (frames s) Ha) as (A & B). destruct (alloc_frame (frames s)) as [p c].
  cbn [fst snd] in *. exists p, c. split; [done|]. split; [done|]. destruct B as [B|(i & Hi & -> & Hz & Hh)]; [by left|right].
  unfold IDX_ADDR, PAGE_SIZE. rewrite Z.div_mul by lia. split; [lia|]. split; [apply Z.mod_mul; lia|done].
Qed.

Lemma not_owned own s c : tables_ok own s -> held (frames s) (c / 4096) = 0 -> own c = None.
Proof.
  intros Hs Hc. destruct (own c) as [[[r l] p]|] eqn:E; [|done]. destruct (tk_table _ _ Hs _ _ _ _ E) as (_ & _ & Hh & _). lia.
Qed.

(** A change of an upper entry that leads where it did. *)
Lemma upper_wr own s t r l p i v : tables_ok own s -> own t = Some (r, l, p) -> 2 <= l -> 0 <= i < 512 -> is_u64 v ->
  link v = link (rd s (t + 8 * i)) -> has v PTE_PRESENT = has (rd s (t + 8 * i)) PTE_PRESENT ->
  tables_ok own (wr (t + 8 * i) v s) /\ extends own s own (wr (t + 8 * i) v s).
Proof.
  intros Hs Ht Hl Hi Hv Hlk Hp. split; [by apply tables_wr_same|].
  destruct (tk_table _ _ Hs _ _ _ _ Ht) as (Hal & _). pose proof (page_of_entry t i Hal Hi) as Hpg. constructor; try done.
  - intros t' r' p' k Ht' Hk. rewrite rd_wr. destruct (Z.eqb_spec (t' + 8 * k) (t + 8 * i)) as [E|]; [|done]. exfalso.
    destruct (tk_table _ _ Hs _ _ _ _ Ht') as (Hal' & _). apply (f_equal page_of) in E.
    rewrite !page_of_entry in E by done. subst t'. rewrite Ht in Ht'. injection Ht'. lia.
  - intros a Ha _. rewrite rd_wr. destruct (Z.eqb_spec a (t + 8 * i)) as [->|]; [|done]. rewrite Hpg in Ha. congruence.
  - intros t' r' l' p' H1 H2. congruence.
  - exists []. intros t' H1 H2. done.
Qed.

Lemma widen_entry e : is_u64 e -> link (e .| PTE_USER) = link e /\ has (e .| PTE_USER) PTE_PRESENT = has e PTE_PRESENT /\
  has (e .| PTE_USER) PTE_HUGE = has e PTE_HUGE /\ addr_of (e .| PTE_USER) = addr_of e /\ is_u64 (e .| PTE_USER).
Proof.
  intros He. assert (has (e .| PTE_USER) PTE_PRESENT = has e PTE_PRESENT) as E1 by (pte; done).
  assert (has (e .| PTE_USER) PTE_HUGE = has e PTE_HUGE) as E2 by (pte; done).
  assert (addr_of (e .| PTE_USER) = addr_of e) as E3 by (unfold addr_of; pte; done).
  unfold link. rewrite E1, E2, E3. split_and!; try done. apply is_word_lor; [lia|done|by vm_compute].
Qed.

(** A frame given out, zeroed and linked where nothing was. *)
Lemma link_new own s t r l p i q c v : tables_ok own s -> own t = Some (r, l, p) -> r <> kernel_pml4 s -> 2 <= l -> 0 <= i < 512 ->
  has (rd s (t + 8 * i)) PTE_PRESENT = false -> alloc_ok q -> 0 < c < 2 ^ 44 -> c mod 4096 = 0 -> held (frames s) (c / 4096) = 0 ->
  (forall f, held q f = if f =? c / 4096 then 1 else held (frames s) f) -> is_u64 v -> link v = Some c ->
  let own' := owned own c (r, l - 1, p * 512 + i) in
  let s' := wr (t + 8 * i) v (zero_page c (with_frames q s)) in
  tables_ok own' s' /\ extends own s own' s'.
Proof.
  intros Hs Ht Hr Hl Hi Ep Hp Hc Hal Hz Hh Hv Hlk. cbv zeta. pose proof (not_owned own s c Hs Hz) as Hno. unfold zero_page.
  destruct (fill_page_spec c (fun _ _ => 0) (fun _ => 0) (with_frames q s) ltac:(done)) as ((F1 & F2 & F3 & F4 & F5 & F6) & Fin & Fout & Fw).
  set (s1 := fill_page c (fun _ _ => 0) (with_frames q s)) in *. clearbody s1. cbn [frames kernel_pml4 cr3 cow_shared cow_copies pat_ready with_frames] in *.
  destruct (tk_table _ _ Hs _ _ _ _ Ht) as (Halt & _). pose proof (page_of_entry t i Halt Hi) as Hpg. set (a := t + 8 * i) in *.
  assert (forall b, page_of b <> c -> rd s1 b = rd s b) as Hout.
  { intros b Hb. rewrite Fout; [done|]. unfold page_of in Hb. dlia. }
  split.
  { apply (tables_new own s s1 t r l); try assumption.
    - by rewrite F1.
    - rewrite F1, Hh, Z.eqb_refl. lia.
    - intros f Hf. rewrite F1, Hh. case_bool; [lia|done].
    - apply Fw; [apply Hs|done]. }
  constructor.
  - intros t' x Hx. unfold owned. destruct (Z.eqb_spec t' c) as [->|]; [congruence|done].
  - intros t' r' p' k Ht' Hk. destruct (tk_table _ _ Hs _ _ _ _ Ht') as (Hal' & _). pose proof (page_of_entry t' k Hal' Hk) as Hpg'.
    rewrite rd_wr. destruct (Z.eqb_spec (t' + 8 * k) a) as [E|]; [rewrite E in Hpg'|apply Hout]; congruence || (exfalso; assert (t' = t) as -> by congruence; rewrite Ht in Ht'; injection Ht'; lia).
  - intros b Hb Hbh. rewrite rd_wr. destruct (Z.eqb_spec b a) as [->|]; [congruence|]. apply Hout. intros Hbc.
    rewrite <- Hbc in Hz. unfold page_of in Hz. rewrite Z.div_mul in Hz by lia. lia.
  - intros t' r' l' p' Hn. unfold owned. destruct (Z.eqb_spec t' c) as [->|]; [|congruence]. intros [= <- <- <-].
    split; [done|]. split; [done|]. split; [change (frames (wr a v s1)) with (frames s1); rewrite F1, Hh, Z.eqb_refl; done|].
    split; [done|]. split; [intros <-|]. 
    { destruct (tk_table _ _ Hs _ _ _ _ Ht) as (_ & _ & _ & _ & lr & pr & Hro & _). congruence. }
    intros _ k Hk. rewrite rd_wr. destruct (Z.eqb_spec (c + 8 * k) a) as [E|]; [|by apply Fin].
    pose proof (page_of_entry c k Hal Hk) as Hpc. rewrite E in Hpc. congruence.
  - intros f Hf. change (frames (wr a v s1)) with (frames s1). rewrite F1, Hh. destruct (Z.eqb_spec f (c / 4096)) as [->|]; [|done].
    exfalso. unfold owned in Hf. replace (c / 4096 * 4096) with c in Hf by dlia. rewrite Z.eqb_refl, Hno in Hf. naive_solver.
  - exists [c]. intros t' Hn. unfold owned. destruct (Z.eqb_spec t' c) as [->|]; [set_solver|done].
  - done.
Qed.

Lemma step_make own s t r l virt flags : tables_ok own s -> own t = Some (r, l, pfx virt l) -> r <> kernel_pml4 s -> 2 <= l ->
  (l = 4 -> index_of virt 4 = 1) ->
  exists own' s' c, step t virt l true flags s = (s', c) /\ tables_ok own' s' /\ extends own s own' s' /\
    (c <> 0 -> own' c = Some (r, l - 1, pfx virt (l - 1))).
Proof.
  intros Hs Ht Hr Hl H4. pose proof (index_of_range virt l) as Hi. unfold step. set (a := t + 8 * index_of virt l).
  rewrite (pfx_step virt l) by lia. set (i := index_of virt l) in *.
  (* the entry is there, after widening or not *)
  assert (forall own1 s1, tables_ok own1 s1 -> extends own s own1 s1 -> has (rd s1 a) PTE_PRESENT = true ->
    exists own' s' c, (let s := if has flags PTE_USER then wr a (rd s1 a .| PTE_USER) s1 else s1 in
      if has (rd s a) PTE_HUGE then (s, 0) else (s, addr_of (rd s a))) = (s', c) /\ tables_ok own' s' /\ extends own s own' s' /\
      (c <> 0 -> own' c = Some (r, l - 1, pfx virt l * 512 + i))) as Hrest.
  { intros own1 s1 Hs1 He1 Hp1. pose proof (ex_own _ _ _ _ He1 _ _ Ht) as Ht1. destruct (ex_rest _ _ _ _ He1) as (Hk1 & _).
    assert (r <> kernel_pml4 s1) as Hr1 by congruence.
    pose proof (tk_small _ _ Hs1 _ _ _ _ _ Ht1 (or_introl Hr1) Hl Hi Hp1) as Hh1. fold a in Hh1.
    assert (link (rd s1 a) = Some (addr_of (rd s1 a))) as Hlk1 by (by apply link_some).
    pose proof (link_child own1 s1 t r l _ _ _ Hs1 Ht1 Hr1 Hl Hi ltac:(intros ->; auto) Hlk1) as Hc1.
    cbv zeta. destruct (has flags PTE_USER).
    - destruct (widen_entry (rd s1 a) (tk_words _ _ Hs1 a)) as (W1 & W2 & W3 & W4 & W5). rewrite rd_wr, Z.eqb_refl, W3, Hh1, W4.
      destruct (upper_wr own1 s1 t r l _ i (rd s1 a .| PTE_USER) Hs1 Ht1 Hl Hi W5 W1 W2) as (U1 & U2).
      eexists own1, _, _. split; [reflexivity|]. split; [exact U1|]. split; [by eapply extends_trans|done].
    - rewrite Hh1. eexists own1, _, _. split; [reflexivity|]. done. }
  destruct (has (rd s a) PTE_PRESENT) eqn:Ep; cbn [negb].
  { apply (Hrest own s Hs (extends_refl own s) Ep). }
  destruct (alloc_spec s (tk_alloc _ _ Hs)) as (p & c & -> & Hp & Hc).
  destruct Hc as [(-> & Hh)|(Hc & Hal & Hz & Hh)].
  { cbn [negb Z.eqb]. eexists own, _, 0. split; [reflexivity|]. split; [|split; [|done]].
    - apply (tables_same own s); try done; [apply Hs|]. intros t' [[r' l'] p'] Ht'.
      change (frames (with_frames p s)) with p. rewrite Hh. by apply (tk_table _ _ Hs) in Ht' as (_ & _ & ? & _).
    - constructor; try done; [intros t' r' l' p' E1 E2; congruence|]. exists []. intros t' E1 E2. done. }
  rewrite (proj2 (Z.eqb_neq c 0)) by lia. cbn [negb].
  replace (c .| PTE_PRESENT .| PTE_RW) with (c .| 3) by (unfold PTE_PRESENT, PTE_RW; by rewrite <- Z.lor_assoc).
  destruct (frame_flags c 3 Hal ltac:(lia) ltac:(lia)) as (E1 & _ & E3 & E4).
  assert (link (c .| 3) = Some c) as Hlk by (apply link_some; rewrite !E3 by (unfold PTE_PRESENT, PTE_HUGE; lia); done).
  destruct (link_new own s t r l _ i p c _ Hs Ht Hr Hl Hi Ep Hp Hc Hal Hz Hh E4 Hlk) as (L1 & L2).
  apply (Hrest _ _ L1 L2). fold a. by rewrite rd_wr, Z.eqb_refl, E3 by (unfold PTE_PRESENT; lia).
Qed.

(** ** The page tables of user space *)

(** User space: the second entry of the top level. *)
Definition user_virt (virt : Z) : Prop := 2 ^ 39 <= virt < 2 ^ 40.
(** A space: the top level table it starts from. *)
Definition space (own : owners) s (r : Z) : Prop := own r = Some (r, 4, 0) /\ r <> kernel_pml4 s.

Lemma user_top virt : user_virt virt -> pfx virt 4 = 0 /\ index_of virt 4 = 1.
Proof.
  unfold user_virt, pfx, index_of. intros Hv. split; [apply Z.div_small; lia|].
  change 0x1FF with (Z.ones 9). rewrite Z.land_ones, Z.shiftr_div_pow2 by lia. change (12 + 9 * (4 - 1)) with 39.
  assert (virt / 2 ^ 39 = 1) as -> by dlia. done.
Qed.

Lemma no_child own s r l p i : tables_ok own s -> own r = Some (r, 4, 0) -> 1 <= l -> l < 4 -> 0 <= i < 512 ->
  (forall c, own c <> Some (r, l + 1, p)) -> forall c, own c <> Some (r, l, p * 512 + i).
Proof.
  intros Hs Hr H1 Hl Hi Hn c Hc. assert (c <> r) as Hne by (intros ->; rewrite Hr in Hc; injection Hc; lia).
  destruct (tk_parent _ _ Hs _ _ _ _ Hc Hne) as (t & Ht & _). apply (Hn t). by replace p with ((p * 512 + i) / 512) by dlia.
Qed.

Lemma table_for_look own s r virt : tables_ok own s -> space own s r -> user_virt virt ->
  exists c, table_for r virt false 0 s = (s, c) /\
    ((c <> 0 /\ own c = Some (r, 1, pfx virt 1)) \/ (c = 0 /\ forall c', own c' <> Some (r, 1, pfx virt 1))).
Proof.
  intros Hs [Hr Hk] Hv. destruct (user_top virt Hv) as [Hp4 Hi4]. unfold table_for.
  pose proof (index_of_range virt 3) as I3. pose proof (index_of_range virt 2) as I2. pose proof (index_of_range virt 4) as I4.
  pose proof (pfx_step virt 4 ltac:(lia)) as P4. pose proof (pfx_step virt 3 ltac:(lia)) as P3. pose proof (pfx_step virt 2 ltac:(lia)) as P2.
  change (4 - 1) with 3 in *. change (3 - 1) with 2 in *. change (2 - 1) with 1 in *.
  destruct (step_look own s r r 4 virt Hs ltac:(by rewrite Hp4) Hk ltac:(lia) ltac:(done)) as (c3 & -> & [(N3 & O3 & _)|(-> & _ & N3)]).
  2: { exists 0. split; [done|]. right. split; [done|]. change (4 - 1) with 3 in N3. rewrite P2.
    apply (no_child own s); try lia; try done. rewrite P3. apply (no_child own s); try lia; done. }
  change (4 - 1) with 3 in O3. rewrite (proj2 (Z.eqb_neq c3 0)) by done.
  destruct (step_look own s c3 r 3 virt Hs O3 Hk ltac:(lia) ltac:(lia)) as (c2 & -> & [(N2 & O2 & _)|(-> & _ & N2)]).
  2: { exists 0. split; [done|]. right. split; [done|]. change (3 - 1) with 2 in N2. rewrite P2. apply (no_child own s); try lia; done. }
  change (3 - 1) with 2 in O2. rewrite (proj2 (Z.eqb_neq c2 0)) by done.
  assert (has (rd s (c2 + 8 * index_of virt 2)) PTE_PRESENT && has (rd s (c2 + 8 * index_of virt 2)) PTE_HUGE = false) as ->.
  { destruct (has _ PTE_PRESENT) eqn:E; [|done]. by rewrite (tk_small _ _ Hs _ _ _ _ _ O2 (or_introl Hk) ltac:(lia) I2 E). }
  destruct (step_look own s c2 r 2 virt Hs O2 Hk ltac:(lia) ltac:(lia)) as (c1 & -> & [(N1 & O1 & _)|(-> & _ & N1)]).
  - exists c1. split; [done|]. by left.
  - exists 0. split; [done|]. by right.
Qed.

Lemma table_for_make own s r virt flags : tables_ok own s -> space own s r -> user_virt virt ->
  exists own' s' c, table_for r virt true flags s = (s', c) /\ tables_ok own' s' /\ extends own s own' s' /\
    (c <> 0 -> own' c = Some (r, 1, pfx virt 1)).
Proof.
  intros Hs [Hr Hk] Hv. destruct (user_top virt Hv) as [Hp4 Hi4]. unfold table_for.
  pose proof (index_of_range virt 2) as I2.
  destruct (step_make own s r r 4 virt flags Hs ltac:(by rewrite Hp4) Hk ltac:(lia) ltac:(done)) as (o3 & s3 & c3 & -> & T3 & X3 & O3).
  change (4 - 1) with 3 in O3. destruct (Z.eqb_spec c3 0) as [|N3]; [by exists o3, s3, 0|]. specialize (O3 N3).
  assert (kernel_pml4 s3 = kernel_pml4 s) as K3 by (by destruct (ex_rest _ _ _ _ X3)).
  destruct (step_make o3 s3 c3 r 3 virt flags T3 O3 ltac:(congruence) ltac:(lia) ltac:(lia)) as (o2 & s2 & c2 & -> & T2 & X2 & O2).
  pose proof (extends_trans _ _ _ _ _ _ X3 X2) as X32.
  change (3 - 1) with 2 in O2. destruct (Z.eqb_spec c2 0) as [|N2]; [by exists o2, s2, 0|]. specialize (O2 N2).
  assert (kernel_pml4 s2 = kernel_pml4 s) as K2 by (by destruct (ex_rest _ _ _ _ X32)).
  assert (has (rd s2 (c2 + 8 * index_of virt 2)) PTE_PRESENT && has (rd s2 (c2 + 8 * index_of virt 2)) PTE_HUGE = false) as ->.
  { destruct (has _ PTE_PRESENT) eqn:E; [|done]. by rewrite (tk_small _ _ T2 _ _ _ _ _ O2 ltac:(left; congruence) ltac:(lia) I2 E). }
  destruct (step_make o2 s2 c2 r 2 virt flags T2 O2 ltac:(congruence) ltac:(lia) ltac:(lia)) as (o1 & s1 & c1 & -> & T1 & X1 & O1).
  exists o1, s1, c1. split; [done|]. split; [done|]. split; [by eapply extends_trans|done].
Qed.

(** The entry of a page, 0 when there is no table for it. *)
Definition page_entry (r virt : Z) s : Z :=
  let (s, pt) := table_for r virt false 0 s in if pt =? 0 then 0 else rd s (pt + 8 * index_of virt 1).

Lemma page_entry_at own s r virt t : tables_ok own s -> space own s r -> user_virt virt -> own t = Some (r, 1, pfx virt 1) ->
  page_entry r virt s = rd s (t + 8 * index_of virt 1).
Proof.
  intros Hs Hr Hv Ht. unfold page_entry. destruct (table_for_look own s r virt Hs Hr Hv) as (c & -> & [(Hn & Hc)|(-> & Hn)]).
  - rewrite (proj2 (Z.eqb_neq c 0)) by done. by rewrite (owner_unique own s c t r 1 _ Hs Hc Ht).
  - by destruct (Hn t).
Qed.
Lemma page_entry_none own s r virt : tables_ok own s -> space own s r -> user_virt virt ->
  (forall t, own t <> Some (r, 1, pfx virt 1)) -> page_entry r virt s = 0.
Proof.
  intros Hs Hr Hv Ht. unfold page_entry. destruct (table_for_look own s r virt Hs Hr Hv) as (c & -> & [(Hn & Hc)|(-> & Hn)]); [|done].
  by destruct (Ht c).
Qed.
(** One or the other. *)
Lemma page_entry_cases own s r virt : tables_ok own s -> space own s r -> user_virt virt ->
  (exists t, own t = Some (r, 1, pfx virt 1)) \/ (forall t, own t <> Some (r, 1, pfx virt 1)).
Proof.
  intros Hs Hr Hv. destruct (table_for_look own s r virt Hs Hr Hv) as (c & _ & [(_ & Hc)|(_ & Hn)]); [left; by exists c|by right].
Qed.

Lemma extends_space own s own' s' r : extends own s own' s' -> space own s r -> space own' s' r.
Proof. intros He [H1 H2]. split; [by apply (ex_own _ _ _ _ He)|]. destruct (ex_rest _ _ _ _ He) as (-> & _). done. Qed.

Lemma extends_entry own s own' s' r virt : tables_ok own s -> tables_ok own' s' -> extends own s own' s' -> space own s r ->
  user_virt virt -> page_entry r virt s' = page_entry r virt s.
Proof.
  intros Hs Hs' He Hr Hv. pose proof (extends_space _ _ _ _ _ He Hr) as Hr'. pose proof (index_of_range virt 1) as Hi.
  destruct (page_entry_cases own s r virt Hs Hr Hv) as [(t & Ht)|Hn].
  - pose proof (ex_own _ _ _ _ He _ _ Ht) as Ht'. rewrite (page_entry_at own' s' r virt t), (page_entry_at own s r virt t) by done.
    by eapply (ex_leaf _ _ _ _ He).
  - rewrite (page_entry_none own s) by done. destruct (page_entry_cases own' s' r virt Hs' Hr' Hv) as [(t & Ht)|Hn'].
    + rewrite (page_entry_at own' s' r virt t) by done. destruct (own t) as [[[r2 l2] p2]|] eqn:E.
      * pose proof (ex_own _ _ _ _ He _ _ E). destruct (Hn t). congruence.
      * destruct (ex_new _ _ _ _ He _ _ _ _ E Ht) as (_ & _ & _ & _ & _ & Hz). by apply Hz.
    + by apply (page_entry_none own' s').
Qed.

(** Writing the entry of a page. *)
Lemma leaf_tables own s t r p i v : tables_ok own s -> own t = Some (r, 1, p) -> 0 <= i < 512 -> is_u64 v ->
  tables_ok own (wr (t + 8 * i) v s).
Proof.
  intros Hs Ht Hi Hv. apply tables_wr; [done|done|]. intros t' r' l' p' Ht' Hl.
  destruct (tk_table _ _ Hs _ _ _ _ Ht) as (Hal & _). rewrite page_of_entry by done. intros ->. rewrite Ht in Ht'. injection Ht'. lia.
Qed.
Lemma leaf_entry own s t r p virt r2 virt2 v : tables_ok own s -> own t = Some (r, 1, p) -> p = pfx virt 1 -> is_u64 v ->
  space own s r2 -> user_virt virt2 ->
  page_entry r2 virt2 (wr (t + 8 * index_of virt 1) v s) =
    if (r2 =? r) && (pfx virt2 0 =? pfx virt 0) then v else page_entry r2 virt2 s.
Proof.
  intros Hs Ht -> Hv Hr2 Hv2. pose proof (index_of_range virt 1) as Hi. pose proof (index_of_range virt2 1) as Hi2.
  pose proof (leaf_tables own s t r _ _ v Hs Ht Hi Hv) as Hs'. change 0 with (1 - 1). rewrite !pfx_step by lia.
  destruct (tk_table _ _ Hs _ _ _ _ Ht) as (Hal & _).
  destruct (page_entry_cases own s r2 virt2 Hs Hr2 Hv2) as [(t2 & Ht2)|Hn].
  - rewrite (page_entry_at own (wr _ v s) r2 virt2 t2), (page_entry_at own s r2 virt2 t2), rd_wr by done.
    destruct (tk_table _ _ Hs _ _ _ _ Ht2) as (Hal2 & _).
    destruct (Z.eqb_spec (t2 + 8 * index_of virt2 1) (t + 8 * index_of virt 1)) as [E|E].
    + pose proof (f_equal page_of E) as E2. rewrite !page_of_entry in E2 by done. subst t2.
      rewrite Ht in Ht2. injection Ht2 as -> Hp. rewrite Z.eqb_refl, (proj2 (Z.eqb_eq _ _)) by lia. done.
    + destruct (Z.eqb_spec r2 r) as [->|]; [|done]. destruct (Z.eqb_spec (pfx virt2 1 * 512 + index_of virt2 1) (pfx virt 1 * 512 + index_of virt 1)); [|done].
      exfalso. assert (pfx virt2 1 = pfx virt 1 /\ index_of virt2 1 = index_of virt 1) as [Ep Ei] by lia.
      rewrite Ep in Ht2. apply E. by rewrite Ei, (owner_unique own s t2 t r 1 _ Hs Ht2 Ht).
  - rewrite (page_entry_none own s), (page_entry_none own (wr _ v s)) by done.
    destruct (Z.eqb_spec r2 r) as [->|]; [|done]. destruct (Z.eqb_spec (pfx virt2 1 * 512 + index_of virt2 1) (pfx virt 1 * 512 + index_of virt 1)); [|done].
    exfalso. assert (pfx virt2 1 = pfx virt 1) as Ep by lia. rewrite Ep in Hn. by destruct (Hn t).
Qed.

(** ** Translating, and finding the entry *)

(** The walk to the last level, read off memory: the table of each level or none. *)
Lemma walk_cases own s r virt : tables_ok own s -> space own s r -> user_virt virt ->
  let e4 := rd s (r + 8 * index_of virt 4) in
  let e3 := rd s (addr_of e4 + 8 * index_of virt 3) in
  let e2 := rd s (addr_of e3 + 8 * index_of virt 2) in
  (has e4 PTE_PRESENT = false /\ page_entry r virt s = 0) \/
  (has e4 PTE_PRESENT = true /\ has e4 PTE_HUGE = false /\ addr_of e4 <> 0 /\
    ((has e3 PTE_PRESENT = false /\ page_entry r virt s = 0) \/
     (has e3 PTE_PRESENT = true /\ has e3 PTE_HUGE = false /\
       ((has e2 PTE_PRESENT = false /\ page_entry r virt s = 0) \/
        (has e2 PTE_PRESENT = true /\ has e2 PTE_HUGE = false /\ own (addr_of e2) = Some (r, 1, pfx virt 1) /\
         page_entry r virt s = rd s (addr_of e2 + 8 * index_of virt 1)))))).
Proof.
  intros Hs [Hr Hk] Hv e4 e3 e2. destruct (user_top virt Hv) as [Hp4 Hi4].
  pose proof (index_of_range virt 3) as I3. pose proof (index_of_range virt 2) as I2. pose proof (index_of_range virt 4) as I4.
  pose proof (pfx_step virt 4 ltac:(lia)) as P4. pose proof (pfx_step virt 3 ltac:(lia)) as P3. pose proof (pfx_step virt 2 ltac:(lia)) as P2.
  change (4 - 1) with 3 in *. change (3 - 1) with 2 in *. change (2 - 1) with 1 in *. rewrite Hp4 in P4.
  destruct (has e4 PTE_PRESENT) eqn:E4.
  2: { left. split; [done|]. apply (page_entry_none own s); [done..|]. rewrite P2. apply (no_child own s); try lia; try done.
    rewrite P3. apply (no_child own s); try lia; try done. intros c Hc. rewrite P4 in Hc.
    pose proof (child_link own s r r 4 0 _ c Hs Hr ltac:(lia) I4 Hc) as Hl. fold e4 in Hl. by rewrite link_absent in Hl. }
  right. split; [done|]. pose proof (tk_small _ _ Hs _ _ _ _ _ Hr (or_introl Hk) ltac:(lia) I4 E4) as H4. fold e4 in H4.
  assert (own (addr_of e4) = Some (r, 3, pfx virt 3)) as O3.
  { rewrite P4. apply (link_child own s r r 4 0 _ _ Hs Hr Hk ltac:(lia) I4 ltac:(done)). by apply link_some. }
  split; [done|]. split; [destruct (tk_table _ _ Hs _ _ _ _ O3) as (_ & ? & _); lia|].
  destruct (has e3 PTE_PRESENT) eqn:E3.
  2: { left. split; [done|]. apply (page_entry_none own s); [done..|]. rewrite P2. apply (no_child own s); try lia; try done.
    intros c Hc. change (1 + 1) with 2 in Hc. rewrite P3 in Hc.
    pose proof (child_link own s _ r 3 _ _ c Hs O3 ltac:(lia) I3 Hc) as Hl. fold e3 in Hl. by rewrite link_absent in Hl. }
  right. split; [done|]. pose proof (tk_small _ _ Hs _ _ _ _ _ O3 (or_introl Hk) ltac:(lia) I3 E3) as H3. fold e3 in H3. split; [done|].
  assert (own (addr_of e3) = Some (r, 2, pfx virt 2)) as O2.
  { rewrite P3. apply (link_child own s _ r 3 _ _ _ Hs O3 Hk ltac:(lia) I3 ltac:(lia)). by apply link_some. }
  destruct (has e2 PTE_PRESENT) eqn:E2.
  2: { left. split; [done|]. apply (page_entry_none own s); [done..|].
    intros c Hc. rewrite P2 in Hc.
    pose proof (child_link own s _ r 2 _ _ c Hs O2 ltac:(lia) I2 Hc) as Hl. fold e2 in Hl. by rewrite link_absent in Hl. }
  right. split; [done|]. pose proof (tk_small _ _ Hs _ _ _ _ _ O2 (or_introl Hk) ltac:(lia) I2 E2) as H2. fold e2 in H2. split; [done|].
  assert (own (addr_of e2) = Some (r, 1, pfx virt 1)) as O1.
  { rewrite P2. apply (link_child own s _ r 2 _ _ _ Hs O2 Hk ltac:(lia) I2 ltac:(lia)). by apply link_some. }
  split; [done|]. by apply (page_entry_at own s).
Qed.

Lemma resolve_entry own s r virt : tables_ok own s -> space own s r -> user_virt virt ->
  resolve r virt s = let e := page_entry r virt s in if has e PTE_PRESENT then addr_of e .| (virt .& 0xFFF) else 0.
Proof.
  intros Hs Hr Hv. cbv zeta. unfold resolve. pose proof (walk_cases own s r virt Hs Hr Hv) as Hw. cbv zeta in Hw.
  unfold addr_of in *. destruct Hw as [(-> & ->)|(-> & -> & Hn & [(-> & ->)|(-> & -> & [(-> & ->)|(-> & -> & _ & <-)])])]; try done;
    cbn [negb orb]; rewrite ?(proj2 (Z.eqb_neq _ 0)) by done; try done.
  by destruct (has (page_entry r virt s) PTE_PRESENT).
Qed.

(** [entry_for] is the address of the entry of a page that is there. *)
Lemma shift_index virt k level : 12 + 9 * (level - 1) = k -> (virt .>> k) .& 0x1FF = index_of virt level.
Proof. by intros <-. Qed.
Lemma entry_for_spec own s r virt : tables_ok own s -> space own s r -> user_virt virt ->
  if has (page_entry r virt s) PTE_PRESENT
  then exists t, own t = Some (r, 1, pfx virt 1) /\ entry_for r virt s = t + 8 * index_of virt 1 /\ entry_for r virt s <> 0
  else entry_for r virt s = 0.
Proof.
  intros Hs Hr Hv. unfold entry_for. rewrite (shift_index virt 39 4), (shift_index virt 30 3), (shift_index virt 21 2), (shift_index virt 12 1) by done.
  pose proof (walk_cases own s r virt Hs Hr Hv) as Hw. cbv zeta in Hw. unfold addr_of in *. cbv zeta.
  destruct Hw as [(-> & ->)|(-> & _ & Hn & [(-> & ->)|(-> & -> & [(-> & ->)|(-> & -> & Ho & <-)])])]; try done; cbn [negb orb].
  destruct (has (page_entry r virt s) PTE_PRESENT); [|done]. cbn [negb]. eexists. split; [exact Ho|]. split; [done|].
  destruct (tk_table _ _ Hs _ _ _ _ Ho) as (_ & ? & _). pose proof (index_of_range virt 1). lia.
Qed.

(** ** Mapping and unmapping *)

Definition pte_of (phys flags : Z) : Z := (phys .& PTE_ADDR_MASK) .| (flags .& 0xFFF) .| PTE_PRESENT.

Lemma pte_of_spec phys flags : is_u64 phys -> is_u64 (pte_of phys flags) /\ addr_of (pte_of phys flags) = addr_of phys /\
  has (pte_of phys flags) PTE_PRESENT = true /\
  (forall b, 0 <= b < 4096 -> has (pte_of phys flags) b = has ((flags .& 0xFFF) .| PTE_PRESENT) b).
Proof.
  intros Hp. unfold pte_of. rewrite <- Z.lor_assoc. fold (addr_of phys). destruct (addr_of_aligned phys Hp) as [Ha Hb].
  assert (0 <= (flags .& 0xFFF) .| PTE_PRESENT < 4096) as Hf.
  { change 0xFFF with (Z.ones 12). rewrite Z.land_ones by lia. pose proof (Z.mod_pos_bound flags (2 ^ 12) ltac:(lia)).
    assert (is_word 12 ((flags mod 2 ^ 12) .| PTE_PRESENT)) as Hw by (apply is_word_lor; unfold is_word, PTE_PRESENT; lia).
    unfold is_word in Hw. lia. }
  destruct (frame_flags (addr_of phys) _ Ha Hb Hf) as (E1 & _ & E3 & E4). split; [done|]. split; [done|]. split; [|exact E3].
  rewrite E3 by (unfold PTE_PRESENT; lia). unfold has, PTE_PRESENT. rewrite Z.land_lor_distr_l. change (1 .& 1) with 1.
  apply negb_true_iff, Z.eqb_neq. intros E. apply (f_equal (fun x => Z.testbit x 0)) in E. rewrite Z.lor_spec in E.
  change (Z.testbit 1 0) with true in E. by rewrite orb_true_r in E.
Qed.

(** A map makes the walk, then writes the page's entry. *)
Lemma map_in_spec own s r virt phys flags : tables_ok own s -> space own s r -> user_virt virt ->
  exists own' s1, tables_ok own' s1 /\ extends own s own' s1 /\
    (map_in r virt phys flags s = (s1, false) \/
     exists t, own' t = Some (r, 1, pfx virt 1) /\
       map_in r virt phys flags s = (wr (t + 8 * index_of virt 1) (pte_of phys flags) s1, true)).
Proof.
  intros Hs Hr Hv. unfold map_in. destruct (table_for_make own s r virt flags Hs Hr Hv) as (own' & s1 & c & -> & Hs1 & He & Hc).
  exists own', s1. split; [done|]. split; [done|]. destruct (Z.eqb_spec c 0) as [|Hn]; [by left|right]. exists c. split; [by apply Hc|done].
Qed.

(** What a map leaves: the tables sound, this page's entry as asked or nothing changed,
    every other page's entry what it was, and every held page's memory. *)
Lemma map_in_effect own s r virt phys flags : tables_ok own s -> space own s r -> user_virt virt -> is_u64 phys ->
  let (s', ok) := map_in r virt phys flags s in
  exists own', tables_ok own' s' /\ (forall t x, own t = Some x -> own' t = Some x) /\ kernel_pml4 s' = kernel_pml4 s /\
    (forall r2 virt2, space own s r2 -> user_virt virt2 -> page_entry r2 virt2 s' =
       if ok && ((r2 =? r) && (pfx virt2 0 =? pfx virt 0)) then pte_of phys flags else page_entry r2 virt2 s) /\
    (forall a, own (page_of a) = None -> 0 < held (frames s) (a / 4096) -> rd s' a = rd s a).
Proof.
  intros Hs Hr Hv Hp. destruct (map_in_spec own s r virt phys flags Hs Hr Hv) as (own' & s1 & Hs1 & He & [->|(t & Ht & ->)]).
  - exists own'. split; [done|]. split; [by apply He|]. split; [by destruct (ex_rest _ _ _ _ He)|]. split.
    + intros r2 virt2 Hr2 Hv2. by apply (extends_entry own s own').
    + by apply He.
  - destruct (pte_of_spec phys flags Hp) as (Hw & _). pose proof (index_of_range virt 1) as Hi.
    exists own'. split; [by eapply leaf_tables|]. split; [by apply He|]. split; [by destruct (ex_rest _ _ _ _ He)|]. split.
    + intros r2 virt2 Hr2 Hv2. pose proof (extends_space _ _ _ _ _ He Hr2) as Hr2'.
      rewrite (leaf_entry own' s1 t r (pfx virt 1) virt r2 virt2) by done. cbn [andb].
      destruct ((r2 =? r) && _); [done|]. by apply (extends_entry own s own').
    + intros a Ha Hh. rewrite rd_wr. destruct (Z.eqb_spec a (t + 8 * index_of virt 1)) as [->|]; [|by apply He].
      destruct (tk_table _ _ Hs1 _ _ _ _ Ht) as (Hal & _). rewrite page_of_entry in Ha by done.
      destruct (ex_new _ _ _ _ He _ _ _ _ Ha Ht) as (_ & Hz & _). unfold page_of in Ha.
      assert ((t + 8 * index_of virt 1) / 4096 = t / 4096) as E by dlia. rewrite E in Hh. lia.
Qed.

Lemma unmap_effect own s r virt : tables_ok own s -> space own s r -> user_virt virt -> r <> 0 ->
  let s' := unmap_page_in r virt s in
  tables_ok own s' /\
  (forall r2 virt2, space own s r2 -> user_virt virt2 -> page_entry r2 virt2 s' =
     if (r2 =? r) && (pfx virt2 0 =? pfx virt 0) then 0 else page_entry r2 virt2 s) /\
  frames s' = frames s.
Proof.
  intros Hs Hr Hv Hn. cbv zeta. unfold unmap_page_in. rewrite (proj2 (Z.eqb_neq r 0)) by done.
  pose proof (index_of_range virt 1) as Hi.
  destruct (table_for_look own s r virt Hs Hr Hv) as (c & -> & [(Hc & Ho)|(-> & Ho)]).
  - rewrite (proj2 (Z.eqb_neq c 0)) by done. split; [by eapply leaf_tables|]. split; [|done]. intros r2 virt2 Hr2 Hv2.
    by apply (leaf_entry own s c r (pfx virt 1)).
  - cbn [Z.eqb]. split; [done|]. split; [|done]. intros r2 virt2 Hr2 Hv2.
    destruct (Z.eqb_spec r2 r) as [->|]; [|done]. destruct (Z.eqb_spec (pfx virt2 0) (pfx virt 0)) as [E|]; [|done]. cbn [andb].
    apply (page_entry_none own s); [done..|]. replace (pfx virt2 1) with (pfx virt 1); [done|].
    change 0 with (1 - 1) in E. rewrite !pfx_step in E by lia. pose proof (index_of_range virt2 1). lia.
Qed.

(** ** A new space *)

Lemma has_zero b : has 0 b = false.
Proof. done. Qed.

(** A frame given out and zeroed. *)
Lemma zeroed s c : alloc_ok (frames s) -> (forall a, is_u64 (rd s a)) -> 
  let s' := zero_page c s in
  same_rest s s' /\ (forall k, 0 <= k < 512 -> rd s' (c + 8 * k) = 0) /\ (forall a, c mod 4096 = 0 -> page_of a <> c -> rd s' a = rd s a) /\
  (forall a, is_u64 (rd s' a)).
Proof.
  intros Ha Hw. cbv zeta. unfold zero_page.
  destruct (fill_page_spec c (fun _ _ => 0) (fun _ => 0) s ltac:(done)) as (F1 & F2 & F3 & F4).
  split; [exact F1|]. split; [exact F2|]. split; [|by apply F4]. intros a Hal Hp. apply F3. unfold page_of in Hp. dlia.
Qed.

(** The kernel's entries written over a table of zeroes. *)
Lemma share_kernel_entries s s1 c : c mod 4096 = 0 -> kernel_pml4 s mod 4096 = 0 -> kernel_pml4 s <> c -> kernel_pml4 s1 = kernel_pml4 s ->
  (forall a, page_of a <> c -> rd s1 a = rd s a) -> (forall k, 0 <= k < 512 -> rd s1 (c + 8 * k) = 0) -> (forall a, is_u64 (rd s1 a)) ->
  let s2 := for_range 0 ENTRIES (fun i s => let e := rd s (kernel_pml4 s + 8 * i) in if has e PTE_PRESENT then wr (c + 8 * i) e s else s) s1 in
  same_rest s1 s2 /\ (forall a, page_of a <> c -> rd s2 a = rd s a) /\ (forall a, is_u64 (rd s2 a)) /\
  (forall k, 0 <= k < 512 -> rd s2 (c + 8 * k) = if has (rd s (kernel_pml4 s + 8 * k)) PTE_PRESENT then rd s (kernel_pml4 s + 8 * k) else 0).
Proof.
  intros Hal HalK HKc HK Fout Fin Fw. set (K := kernel_pml4 s) in *. cbv zeta.
  pose (cell := fun i => let e := rd s (K + 8 * i) in if has e PTE_PRESENT then e else 0).
  pose (I := fun i s' => same_rest s1 s' /\ (forall a, page_of a <> c -> rd s' a = rd s a) /\
    (forall k, 0 <= k < 512 -> rd s' (c + 8 * k) = if k <? i then cell k else 0) /\ (forall a, is_u64 (rd s' a))).
  assert (I 512 (for_range 0 ENTRIES (fun i s => let e := rd s (kernel_pml4 s + 8 * i) in
    if has e PTE_PRESENT then wr (c + 8 * i) e s else s) s1)) as (H1 & H2 & H3 & H4).
  { apply (for_range_inv I); [unfold ENTRIES; lia| |].
    - split; [done|]. split; [done|]. split; [|done]. intros k Hk. rewrite (proj2 (Z.ltb_ge _ _)) by lia. by apply Fin.
    - unfold ENTRIES. intros i s' Hi (G1 & G2 & G3 & G4). cbv zeta. destruct G1 as (G1a & G1b & G1c). rewrite G1b, HK.
      pose proof (G4 (K + 8 * i)) as Gw. rewrite (G2 (K + 8 * i)) in * by (by rewrite page_of_entry). fold (cell i). unfold I.
      assert (cell i = if has (rd s (K + 8 * i)) PTE_PRESENT then rd s (K + 8 * i) else 0) as Hcell by done.
      destruct (has (rd s (K + 8 * i)) PTE_PRESENT) eqn:E.
      + rewrite <- Hcell in *. split; [done|]. split; [|split].
        * intros a Ha. rewrite rd_wr. destruct (Z.eqb_spec a (c + 8 * i)) as [->|]; [|by apply G2]. by rewrite page_of_entry in Ha.
        * intros k Hk. rewrite rd_wr, G3 by done. destruct (Z.eqb_spec (c + 8 * k) (c + 8 * i)) as [Ek|].
          -- assert (k = i) as -> by lia. by rewrite (proj2 (Z.ltb_lt i (i + 1))) by lia.
          -- destruct (Z.ltb_spec k i), (Z.ltb_spec k (i + 1)); try done; lia.
        * intros a. rewrite rd_wr. destruct (a =? _); done.
      + split; [done|]. split; [done|]. split; [|done]. intros k Hk. rewrite G3 by done.
        destruct (Z.ltb_spec k i), (Z.ltb_spec k (i + 1)); try done; try lia. by assert (k = i) as -> by lia. }
  split; [done|]. split; [done|]. split; [done|]. intros k Hk. rewrite H3 by done. by rewrite (proj2 (Z.ltb_lt k 512)) by lia.
Qed.

Lemma new_directory_spec own s : tables_ok own s ->
  exists s' f, paging_new_directory s = (s', f) /\
    ((f = 0 /\ tables_ok own s' /\ extends own s own s') \/
     (own f = None /\ f mod 4096 = 0 /\ 0 < f < 2 ^ 44 /\ held (frames s) (f / 4096) = 0 /\ tables_ok (owned own f (f, 4, 0)) s' /\ f <> kernel_pml4 s' /\
      (forall a, page_of a <> f -> rd s' a = rd s a) /\ (forall g, held (frames s') g = if g =? f / 4096 then 1 else held (frames s) g) /\
      (forall i, 0 <= i < 512 -> rd s' (f + 8 * i) = if has (rd s (kernel_pml4 s + 8 * i)) PTE_PRESENT then rd s (kernel_pml4 s + 8 * i) else 0) /\
      kernel_pml4 s' = kernel_pml4 s /\ cr3 s' = cr3 s)).
Proof.
  intros Hs. unfold paging_new_directory.
  destruct (alloc_spec s (tk_alloc _ _ Hs)) as (p & c & -> & Hp & Hc). destruct Hc as [(-> & Hh)|(Hc & Hal & Hz & Hh)].
  { eexists _, 0. split; [reflexivity|]. left. split; [done|]. split.
    - apply (tables_same own s); try done; [apply Hs|]. intros t' [[r' l'] p'] Ht'.
      change (frames (with_frames p s)) with p. rewrite Hh. by apply (tk_table _ _ Hs) in Ht' as (_ & _ & ? & _).
    - constructor; try done; [intros t' r' l' p' E1 E2; congruence|]. exists []. intros t' E1 E2. done. }
  rewrite (proj2 (Z.eqb_neq c 0)) by lia. pose proof (not_owned own s c Hs Hz) as Hno.
  destruct (zeroed (with_frames p s) c Hp (tk_words _ _ Hs)) as ((F1 & F2 & F3) & Fin & Fout & Fw). pose proof (fun a => Fout a Hal) as Fout2; clear Fout; rename Fout2 into Fout.
  set (s1 := zero_page c (with_frames p s)) in *. clearbody s1. cbn [frames kernel_pml4 cr3 with_frames] in F1, F2, F3.
  pose proof Hs as [A1 A2 A3 A4 A5 A6 A7 A8]. set (K := kernel_pml4 s) in *.
  assert (K <> c) as HcK by congruence. destruct (A3 _ _ _ _ A6) as (HalK & _).
  destruct (share_kernel_entries s s1 c Hal HalK HcK F2) as ((G1 & G2 & G1c & _) & Gout & Gw & Gcell); [|done|done|].
  { intros a Ha. by rewrite Fout. }
  set (s2 := for_range _ _ _ s1) in *. clearbody s2. fold K in Gcell. pose (cell := fun i => let e := rd s (K + 8 * i) in if has e PTE_PRESENT then e else 0).
  change (forall k, 0 <= k < 512 -> rd s2 (c + 8 * k) = cell k) in Gcell.
  eexists s2, c. split; [reflexivity|]. right. rewrite G2, F2. split_and!; try done.
  1-2: lia. 2: { intros g. rewrite G1, F1. apply Hh. } 2: { destruct F3 as [F3 _]. by rewrite G1c, F3. }
  assert (forall t x, own t = Some x -> t <> c) as Hnc by (intros t x E ->; congruence).
  assert (forall t x, own t = Some x -> owned own c (c, 4, 0) t = Some x) as Hkeep.
  { intros t x E. unfold owned. by rewrite (proj2 (Z.eqb_neq _ _)) by (by eapply Hnc). }
  assert (forall t x, owned own c (c, 4, 0) t = Some x -> (t = c /\ x = (c, 4, 0)) \/ own t = Some x) as Hinv.
  { intros t x. unfold owned. destruct (Z.eqb_spec t c) as [->|]; [|tauto]. intros [= <-]. by left. }
  assert (owned own c (c, 4, 0) c = Some (c, 4, 0)) as Hown by (unfold owned; by rewrite Z.eqb_refl).
  assert (forall t r l q i, own t = Some (r, l, q) -> 0 <= i < 512 -> rd s2 (t + 8 * i) = rd s (t + 8 * i)) as Hrd.
  { intros t r l q i Ht Hi. destruct (A3 _ _ _ _ Ht) as (Halt & _). apply Gout. rewrite page_of_entry by done. by eapply Hnc. }
  constructor; rewrite ?G2, ?F2; try done.
  - by rewrite G1, F1.
  - intros t r l q [[-> [= -> -> ->]]|E]%Hinv.
    + split; [done|]. split; [done|]. split; [rewrite G1, F1, Hh, Z.eqb_refl; lia|]. split; [lia|]. exists 4, 0. done.
    + destruct (A3 _ _ _ _ E) as (C1 & C2 & C3 & C4 & lr & pr & C5 & C6 & C7). split; [done|]. split; [done|].
      split; [rewrite G1, F1, Hh; case_bool; [lia|done]|]. split; [done|]. exists lr, pr. split; [by apply Hkeep|done].
  - intros t r l q i d [[-> [= -> -> ->]]|E]%Hinv Hl Hi.
    + rewrite Gcell by done. unfold cell. cbv zeta. destruct (has (rd s (K + 8 * i)) PTE_PRESENT) eqn:Ep; [|by rewrite link_absent]. intros Hlk.
      destruct (A4 _ _ _ _ _ _ A6 ltac:(lia) Hi Hlk) as (r' & Hr' & Hor). exists r'. split; [by apply Hkeep|]. right. split; [done|]. naive_solver.
    + rewrite (Hrd _ _ _ _ _ E Hi). intros Hlk. destruct (A4 _ _ _ _ _ _ E Hl Hi Hlk) as (r' & Hr' & Hor). exists r'. split; [by apply Hkeep|done].
  - intros d r l q [[-> [= -> -> ->]]|E]%Hinv Hne; [done|]. destruct (A5 _ _ _ _ E Hne) as (t & Ht & Hlk). exists t. split; [by apply Hkeep|].
    rewrite (Hrd _ _ _ _ _ Ht) by (apply Z.mod_pos_bound; lia). done.
  - by apply Hkeep.
  - rewrite (Hrd _ _ _ _ _ A6) by lia. done.
  - intros t r l q i [[-> [= -> -> ->]]|E]%Hinv Hor Hl Hi.
    + rewrite Gcell by done. unfold cell. cbv zeta. destruct (has (rd s (K + 8 * i)) PTE_PRESENT) eqn:Ep; [|done]. intros _. apply (A8 _ _ _ _ _ A6); [by right|lia|done|done].
    + rewrite (Hrd _ _ _ _ _ E Hi). by apply (A8 _ _ _ _ _ E).
Qed.
End Tables.

(** ** A small machine *)

(** The machine of [Pmm.small], with two frames given out: the kernel's top level table
    and one space's. *)
Definition two_frames : pmm := fst (pmm_alloc_frame (fst (pmm_alloc_frame small))).
Definition KTOP : Z := Eval vm_compute in snd (pmm_alloc_frame small).
Definition STOP : Z := Eval vm_compute in snd (pmm_alloc_frame (fst (pmm_alloc_frame small))).
Definition fresh_vm : vm (P := pmm) := Vm ∅ two_frames KTOP KTOP 0 0 false.
Definition fresh_own : owners := fun t => if (t =? KTOP) || (t =? STOP) then Some (t, 4, 0) else None.

Lemma two_frames_ok : pmm_ok two_frames.
Proof.
  destruct (pmm_init_spec _ _ _ _ _ small_boot) as (H0 & _). rewrite <- small_eq in H0.
  pose proof (proj1 (pmm_alloc_spec small H0)) as H1. exact (proj1 (pmm_alloc_spec _ H1)).
Qed.
Lemma fresh_vm_ok : tables_ok fresh_own fresh_vm /\ space fresh_own fresh_vm STOP.
Proof.
  assert (forall t x, fresh_own t = Some x -> (t = KTOP \/ t = STOP) /\ x = (t, 4, 0)) as Hinv.
  { intros t x. unfold fresh_own. destruct (Z.eqb_spec t KTOP) as [E1|_]; [|destruct (Z.eqb_spec t STOP) as [E2|_]]; cbn [orb].
    - intros [= <-]. split; [by left|reflexivity].
    - intros [= <-]. split; [by right|reflexivity].
    - discriminate. }
  assert (forall a, rd fresh_vm a = 0) as Hrd by (intros a; reflexivity).
  assert (forall t, t = KTOP \/ t = STOP -> fresh_own t = Some (t, 4, 0)) as Ho.
  { intros t [-> | ->]; unfold fresh_own; by rewrite ?Z.eqb_refl, ?orb_true_r. }
  split; [|split; [apply Ho; by right|discriminate]]. constructor.
  - exact two_frames_ok.
  - intros a. rewrite Hrd. by split.
  - intros t r l p [Ht [= -> -> ->]]%Hinv. split; [destruct Ht as [-> | ->]; reflexivity|].
    split; [destruct Ht as [-> | ->]; split; reflexivity|]. split; [destruct Ht as [-> | ->]; vm_compute; reflexivity|]. split; [lia|].
    exists 4, 0. split; [by apply Ho|done].
  - intros t r l p i c _ _ _. by rewrite Hrd.
  - intros c r l q [_ [= -> -> ->]]%Hinv. done.
  - apply Ho. by left.
  - by rewrite Hrd.
  - intros t r l p i _ _ _ _. by rewrite Hrd.
Qed.

(** ** Properties *)

Lemma phys_offset a virt : a mod 4096 = 0 -> 0 <= a -> a .| (virt .& 0xFFF) = a + virt mod 4096.
Proof.
  intros Ha Hp. change 0xFFF with (Z.ones 12). rewrite Z.land_ones by lia. change (2 ^ 12) with 4096.
  pose proof (Z.mod_pos_bound virt 4096 ltac:(lia)) as Hm.
  pose proof (lor_shiftl_add (virt mod 4096) (a / 4096) 12 ltac:(lia) ltac:(unfold is_word; lia)) as H.
  rewrite Z.shiftl_mul_pow2 in H by lia. replace (a / 4096 * 2 ^ 12) with a in H by dlia. rewrite Z.lor_comm, H. lia.
Qed.
Lemma pfx0 virt : pfx virt 0 = virt / 4096.
Proof. done. Qed.

(** C19: Mapping a user page of a space either fails, with every translation of every
    space as it was, or makes every address of the page translate to the frame asked for at
    the same offset, with every other page of that space and every page of every other
    space as before. The tables stay sound, and no word of a frame in use that is not a
    table changes. Unmapping the page takes its translation away and no other. *)
Theorem mapping_translates (own : owners) (s : vm (P := pmm)) (r virt phys flags : Z)
    (Hs : tables_ok own s) (Hr : space own s r) (Hv : user_virt virt) (Hp : is_u64 phys) :
  let (s', ok) := map_page_in r virt phys flags s in
  (exists own', tables_ok own' s' /\ (forall r2, space own s r2 -> space own' s' r2) /\
     (ok = true -> forall virt2, user_virt virt2 -> virt2 / 4096 = virt / 4096 ->
        virt_to_phys_in r virt2 (unmap_page_in r virt s') = 0)) /\
  (ok = true -> forall virt2, user_virt virt2 -> virt2 / 4096 = virt / 4096 ->
     virt_to_phys_in r virt2 s' = addr_of phys + virt2 mod 4096) /\
  (forall r2 virt2, space own s r2 -> user_virt virt2 -> ok = false \/ r2 <> r \/ virt2 / 4096 <> virt / 4096 ->
     virt_to_phys_in r2 virt2 s' = virt_to_phys_in r2 virt2 s /\
     (r2 <> r \/ virt2 / 4096 <> virt / 4096 -> virt_to_phys_in r2 virt2 (unmap_page_in r virt s') = virt_to_phys_in r2 virt2 s)) /\
  (forall a, own (page_of a) = None -> 0 < hold (frames s) (a / 4096) -> rd s' a = rd s a).
Proof.
  assert (forall r2, space own s r2 -> r2 <> 0) as Hnz.
  { intros r2 [H2 _]. destruct (tk_table _ _ Hs _ _ _ _ H2) as (_ & ? & _). lia. }
  unfold map_page_in. rewrite (proj2 (Z.eqb_neq r 0)) by auto.
  pose proof (map_in_effect own s r virt phys flags Hs Hr Hv Hp) as He. destruct (map_in r virt phys flags s) as [s' ok].
  destruct He as (own' & Hs' & Hkeep & Hk & Hent & Hdata).
  assert (forall r2, space own s r2 -> space own' s' r2) as Hsp.
  { intros r2 [H1 H2]. split; [by apply Hkeep|by rewrite Hk]. }
  destruct (unmap_effect own' s' r virt Hs' (Hsp r Hr) Hv (Hnz r Hr)) as (Hu & Huent & _). cbv zeta in Hu, Huent.
  assert (forall r2 virt2, space own s r2 -> virt_to_phys_in r2 virt2 s = resolve r2 virt2 s /\
    virt_to_phys_in r2 virt2 s' = resolve r2 virt2 s' /\
    virt_to_phys_in r2 virt2 (unmap_page_in r virt s') = resolve r2 virt2 (unmap_page_in r virt s')) as Hvp.
  { intros r2 virt2 H2. unfold virt_to_phys_in. by rewrite (proj2 (Z.eqb_neq r2 0)) by auto. }
  assert (forall r2, space own s r2 -> space own' (unmap_page_in r virt s') r2) as Hspu.
  { intros r2 H2. destruct (Hsp r2 H2) as [H3 H4]. split; [done|]. intros E. apply H4. rewrite E. unfold unmap_page_in.
    destruct (r =? 0); [done|]. destruct (table_for_look own' s' r virt Hs' (Hsp r Hr) Hv) as (c & -> & _). by destruct (c =? 0). }
  split; [|split; [|split]].
  - exists own'. split; [done|]. split; [done|]. intros _ virt2 Hv2 Hpg. destruct (Hvp r virt2 Hr) as (_ & _ & ->).
    rewrite (resolve_entry own') by auto. cbv zeta. rewrite Huent, Z.eqb_refl, !pfx0, Hpg, Z.eqb_refl by auto. done.
  - intros -> virt2 Hv2 Hpg. destruct (Hvp r virt2 Hr) as (_ & -> & _). rewrite (resolve_entry own') by auto. cbv zeta.
    rewrite Hent, Z.eqb_refl, !pfx0, Hpg, Z.eqb_refl by auto. cbn [andb]. destruct (pte_of_spec phys flags Hp) as (_ & -> & -> & _).
    destruct (addr_of_aligned phys Hp) as [Ha1 Ha2]. apply phys_offset; [done|lia].
  - intros r2 virt2 Hr2 Hv2 Hor. destruct (Hvp r2 virt2 Hr2) as (-> & -> & ->).
    rewrite (resolve_entry own' s'), (resolve_entry own s), (resolve_entry own' (unmap_page_in r virt s')) by auto. cbv zeta.
    rewrite Huent, Hent, !pfx0 by auto. split.
    + destruct ok; [|done]. destruct (Z.eqb_spec r2 r), (Z.eqb_spec (virt2 / 4096) (virt / 4096)); cbn [andb]; try done; naive_solver.
    + intros Hne. destruct (Z.eqb_spec r2 r), (Z.eqb_spec (virt2 / 4096) (virt / 4096)); cbn [andb]; try (by rewrite andb_false_r); naive_solver.
  - exact Hdata.
Qed.

Lemma mapping_translates_witness :
  let virt := 2 ^ 39 + 0x5000 in
  let (s', ok) := map_page_in STOP virt 0x234567 (PTE_RW .| PTE_USER) fresh_vm in
  ok = true /\ virt_to_phys_in STOP (virt + 0x123) s' = 0x234123 /\ virt_to_phys_in STOP (virt + 0x1000) s' = 0.
Proof.
  cbv zeta. destruct fresh_vm_ok as [Hs Hr].
  assert (user_virt (2 ^ 39 + 0x5000)) as Hv by (split; [discriminate|reflexivity]).
  assert (user_virt (2 ^ 39 + 0x5000 + 0x123)) as Hv2 by (split; [discriminate|reflexivity]).
  assert (user_virt (2 ^ 39 + 0x5000 + 0x1000)) as Hv3 by (split; [discriminate|reflexivity]).
  assert (snd (map_page_in STOP (2 ^ 39 + 0x5000) 0x234567 (PTE_RW .| PTE_USER) fresh_vm) = true) as Hok by (vm_compute; reflexivity).
  pose proof (mapping_translates fresh_own fresh_vm STOP (2 ^ 39 + 0x5000) 0x234567 (PTE_RW .| PTE_USER) Hs Hr Hv ltac:(split; [discriminate|reflexivity])) as H.
  destruct (map_page_in STOP _ _ _ fresh_vm) as [s' ok]. cbn [snd] in Hok. subst ok. destruct H as (_ & H1 & H2 & _).
  assert ((2 ^ 39 + 0x5000 + 0x1000) / 4096 <> (2 ^ 39 + 0x5000) / 4096) as Hne by (vm_compute; discriminate).
  assert (virt_to_phys_in STOP (2 ^ 39 + 0x5000 + 0x1000) fresh_vm = 0) as H0 by (vm_compute; reflexivity).
  split; [reflexivity|]. split; [exact (H1 eq_refl _ Hv2 eq_refl)|].
  exact (eq_trans (proj1 (H2 STOP _ Hr Hv3 (or_intror (or_intror Hne)))) H0).
Defined.
