(* ===== verification/Fork.v ===== *)
(** Address spaces that share pages until written to (kernel/paging.c with
    kernel/pmm.c): the accounting of frames, the write fault that separates a shared page,
    fork, and the isolation of spaces from one another. The operations are those of
    [Paging]; this file holds their invariant and what they guarantee. *)
From S2P Require Import Prelude Pmm Frames Paging.

(** ** The invariant *)

(** A page a space holds a frame for: what [free_table] gives back and [copy_table] shares. *)
Definition counted (e : Z) : bool :=
  has e PTE_PRESENT && negb (has e PTE_HUGE) && has e PTE_USER && negb (has e PTE_BORROWED).
Definition refers (f e : Z) : bool := counted e && (addr_of e =? f * 4096).

(** ** Flags *)

Lemma has_low e b : 0 <= b < 4096 -> has (e .& 0xFFF) b = has e b.
Proof.
  intros Hb. unfold has. rewrite <- Z.land_assoc. do 2 f_equal. change 0xFFF with (Z.ones 12).
  rewrite (Z.land_comm (Z.ones 12)), Z.land_ones by lia. by rewrite (Z.mod_small b) by lia.
Qed.
(** The entry of a copy: another frame, the same flags. *)
Lemma moved_entry c e : c mod 4096 = 0 -> 0 <= c < 2 ^ 52 ->
  addr_of (c .| (e .& 0xFFF)) = c /\ (forall b, 0 <= b < 4096 -> has (c .| (e .& 0xFFF)) b = has e b) /\ is_u64 (c .| (e .& 0xFFF)).
Proof.
  intros Hal Hc. assert (0 <= e .& 0xFFF < 4096) as Hf.
  { change 0xFFF with (Z.ones 12). rewrite Z.land_ones by lia. apply Z.mod_pos_bound. lia. }
  destruct (frame_flags c _ Hal Hc Hf) as (E1 & _ & E3 & E4). split; [done|]. split; [|done]. intros b Hb. by rewrite E3, has_low.
Qed.

(** Two entries a program may not tell apart but for writing. *)
Definition same_page_flags (v e : Z) : Prop :=
  has v PTE_PRESENT = has e PTE_PRESENT /\ has v PTE_HUGE = has e PTE_HUGE /\ has v PTE_USER = has e PTE_USER /\ has v PTE_BORROWED = has e PTE_BORROWED.
Lemma same_flags_counted v e : same_page_flags v e -> counted v = counted e.
Proof. unfold counted. by intros (-> & -> & -> & ->). Qed.

Lemma land_has_ne x b : has x b = true -> x .& b <> 0.
Proof. unfold has. destruct (Z.eqb_spec (x .& b) 0); done. Qed.
Lemma is_u64_land_l x y : is_u64 x -> is_u64 (x .& y).
Proof. intros Hx. by apply is_word_land_l. Qed.

(** Made writable and no longer shared. *)
Lemma own_entry x : is_u64 x -> let v := (x .| PTE_RW) .& Z.lnot PTE_COW in
  is_u64 v /\ addr_of v = addr_of x /\ same_page_flags v x /\ has v PTE_RW = true /\ has v PTE_COW = false.
Proof.
  intros Hx. cbv zeta. split; [apply is_u64_land_l, is_word_lor; [lia|done|by vm_compute]|]. split; [unfold addr_of; pte; reflexivity|].
  split; [unfold same_page_flags; split_and!; pte; reflexivity|]. split.
  - unfold has. apply negb_true_iff, Z.eqb_neq. unfold PTE_RW, PTE_COW. rewrite <- Z.land_assoc. change (Z.lnot 512 .& 2) with 2.
    intros E. apply (f_equal (fun z => Z.testbit z 1)) in E. rewrite Z.land_spec, Z.lor_spec in E. change (Z.testbit 2 1) with true in E.
    by rewrite orb_true_r in E.
  - unfold has. unfold PTE_COW. rewrite <- Z.land_assoc. change (Z.lnot 512 .& 512) with 0. by rewrite Z.land_0_r.
Qed.
(** Shared: not writable, and marked. *)
Lemma shared_entry x : is_u64 x -> let v := (x .& Z.lnot PTE_RW) .| PTE_COW in
  is_u64 v /\ addr_of v = addr_of x /\ same_page_flags v x /\ has v PTE_RW = false /\ has v PTE_COW = true.
Proof.
  intros Hx. cbv zeta. split; [apply is_word_lor; [lia|by apply is_u64_land_l|by vm_compute]|]. split; [unfold addr_of; pte; reflexivity|].
  split; [unfold same_page_flags; split_and!; pte; reflexivity|]. split.
  - pte. reflexivity.
  - unfold has. apply negb_true_iff, Z.eqb_neq. unfold PTE_COW.
    intros E. apply (f_equal (fun z => Z.testbit z 9)) in E. rewrite Z.land_spec, Z.lor_spec in E. change (Z.testbit 512 9) with true in E.
    by rewrite orb_true_r in E.
Qed.

Section Fork.
Context {P : Type} `{FrameAllocatorLaws P}.
Implicit Types s : vm (P := P).

(** How many entries of one table, and of all of them, refer to a frame. *)
Definition table_refs (s : vm (P := P)) (f t : Z) : Z := cnt (fun i => refers f (rd s (t + 8 * i))) 512.
Definition refs (tabs : list Z) (s : vm (P := P)) (f : Z) : Z := foldr (fun t n => table_refs s f t + n) 0 tabs.
Definition is_table (own : owners) (f : Z) : Z := match own (f * 4096) with Some _ => 1 | None => 0 end.

(** [tabs]: the tables of pages' entries of every space, and of spaces being made. *)
Record spaces_ok (own : owners) (tabs : list Z) (s : vm (P := P)) : Prop := {
  so_tables : tables_ok own s;
  so_nodup : NoDup tabs;
  so_tabs : forall t, t ∈ tabs <-> exists r p, own t = Some (r, 1, p) /\ r <> kernel_pml4 s;
  so_refs : forall f, refs tabs s f + is_table own f <= held (frames s) f;
  so_pages : forall t i, t ∈ tabs -> 0 <= i < 512 -> counted (rd s (t + 8 * i)) = true ->
    own (addr_of (rd s (t + 8 * i))) = None /\ 0 < addr_of (rd s (t + 8 * i));
  so_alone : forall t i t2 i2, t ∈ tabs -> t2 ∈ tabs -> 0 <= i < 512 -> 0 <= i2 < 512 ->
    counted (rd s (t + 8 * i)) = true -> has (rd s (t + 8 * i)) PTE_RW = true -> counted (rd s (t2 + 8 * i2)) = true ->
    addr_of (rd s (t2 + 8 * i2)) = addr_of (rd s (t + 8 * i)) -> t2 = t /\ i2 = i;
  so_cow : forall t i, t ∈ tabs -> 0 <= i < 512 -> has (rd s (t + 8 * i)) PTE_PRESENT = true -> has (rd s (t + 8 * i)) PTE_COW = true ->
    counted (rd s (t + 8 * i)) = true
}.

Lemma table_refs_nonneg s f t : 0 <= table_refs s f t.
Proof. apply cnt_bounds. Qed.
Lemma refs_nonneg tabs s f : 0 <= refs tabs s f.
Proof. unfold refs. induction tabs as [|t tabs IH]; cbn [foldr]; [done|]. pose proof (table_refs_nonneg s f t). lia. Qed.
Lemma refs_app l1 l2 s f : refs (l1 ++ l2) s f = refs l1 s f + refs l2 s f.
Proof. unfold refs. induction l1 as [|t l1 IH]; cbn [foldr app]; [done|]. rewrite IH. lia. Qed.
Lemma refs_perm l1 l2 s f : l1 ≡ₚ l2 -> refs l1 s f = refs l2 s f.
Proof. intros Hp. unfold refs. induction Hp; cbn [foldr] in *; lia. Qed.
Lemma refs_ext tabs s s' f : (forall t i, t ∈ tabs -> 0 <= i < 512 -> rd s' (t + 8 * i) = rd s (t + 8 * i)) -> refs tabs s' f = refs tabs s f.
Proof.
  induction tabs as [|t tabs IH]; intros Ht; [done|]. cbn [refs foldr]. fold (refs tabs s' f) (refs tabs s f).
  rewrite IH by (intros; apply Ht; [by right|done]). f_equal. apply cnt_ext. intros i Hi. rewrite Ht; [done|by left|lia].
Qed.
Lemma refs_zero_table t s f : (forall i, 0 <= i < 512 -> counted (rd s (t + 8 * i)) = false) -> table_refs s f t = 0.
Proof. intros Hz. apply cnt_none. intros i Hi. unfold refers. by rewrite Hz by lia. Qed.

Lemma refs_pos tabs s f t i : t ∈ tabs -> 0 <= i < 512 -> refers f (rd s (t + 8 * i)) = true -> 0 < refs tabs s f.
Proof.
  intros Ht Hi Hr. apply list_elem_of_split in Ht as (l1 & l2 & ->). rewrite refs_app. cbn [refs foldr]. fold (refs l2 s f).
  pose proof (refs_nonneg l1 s f). pose proof (refs_nonneg l2 s f).
  assert (0 < table_refs s f t) by (apply (cnt_pos _ _ i); [lia|done]). lia.
Qed.

Definition b2n (b : bool) : Z := if b then 1 else 0.

(** One entry written. *)
Lemma refs_wr tabs s f t i v : NoDup tabs -> t ∈ tabs -> 0 <= i < 512 -> (forall t', t' ∈ tabs -> t' mod 4096 = 0) ->
  refs tabs (wr (t + 8 * i) v s) f = refs tabs s f - b2n (refers f (rd s (t + 8 * i))) + b2n (refers f v).
Proof.
  intros Hnd Ht Hi Hal. pose proof Ht as Ht0. apply list_elem_of_split in Ht as (l1 & l2 & ->). rewrite !refs_app. cbn [refs foldr].
  fold (refs l2 s f) (refs l2 (wr (t + 8 * i) v s) f).
  assert (forall t' j, t' ∈ l1 \/ t' ∈ l2 -> 0 <= j < 512 -> rd (wr (t + 8 * i) v s) (t' + 8 * j) = rd s (t' + 8 * j)) as Hother.
  { intros t' j Hin Hj. rewrite rd_wr. destruct (Z.eqb_spec (t' + 8 * j) (t + 8 * i)) as [E|]; [|done]. exfalso.
    assert (t' mod 4096 = 0) by (apply Hal; set_solver). assert (t mod 4096 = 0) by (apply Hal; set_solver).
    assert (t' = t) as -> by dlia. apply list.NoDup_app in Hnd as (_ & Hd & Hnd). apply list.NoDup_cons in Hnd as [Hnd _].
    destruct Hin as [Hin|Hin]; [apply (Hd t Hin); by left|done]. }
  rewrite (refs_ext l1 s), (refs_ext l2 s) by (intros; apply Hother; tauto).
  assert (table_refs (wr (t + 8 * i) v s) f t = table_refs s f t - b2n (refers f (rd s (t + 8 * i))) + b2n (refers f v)) as ->; [|lia].
  unfold table_refs. rewrite (cnt_update (fun j => refers f (rd s (t + 8 * j))) _ _ i); [|lia|].
  - rewrite rd_wr, Z.eqb_refl. done.
  - intros j Hj Hne. rewrite rd_wr, (proj2 (Z.eqb_neq _ _)) by lia. done.
Qed.

Lemma is_table_nonneg own f : 0 <= is_table own f.
Proof. unfold is_table. destruct (own _); lia. Qed.

(** A frame a page's entry refers to is held, and no table. *)
Lemma page_held own tabs s t i : spaces_ok own tabs s -> t ∈ tabs -> 0 <= i < 512 -> counted (rd s (t + 8 * i)) = true ->
  let a := addr_of (rd s (t + 8 * i)) in
  0 < held (frames s) (a / 4096) /\ own a = None /\ 0 < a /\ a mod 4096 = 0 /\ a = IDX_ADDR (a / 4096) /\ a < 2 ^ 44.
Proof.
  intros Hs Ht Hi Hc. cbv zeta. set (e := rd s (t + 8 * i)) in *. destruct (so_pages _ _ _ Hs t i Ht Hi Hc) as [Hno Hpos].
  destruct (addr_of_aligned e) as [Hal _]; [apply (so_tables _ _ _ Hs)|].
  assert (0 < held (frames s) (addr_of e / 4096)) as Hh.
  { pose proof (so_refs _ _ _ Hs (addr_of e / 4096)) as Hr. pose proof (refs_pos tabs s (addr_of e / 4096) t i Ht Hi) as Hp.
    unfold refers in Hp. fold e in Hp. rewrite Hc in Hp. cbn [andb] in Hp. rewrite (proj2 (Z.eqb_eq _ _)) in Hp by dlia. specialize (Hp eq_refl).
    pose proof (is_table_nonneg own (addr_of e / 4096)). lia. }
  pose proof (held_bounds (frames s) _ (tk_alloc _ _ (so_tables _ _ _ Hs)) Hh) as Hb.
  split; [done|]. split; [done|]. split; [done|]. split; [done|]. unfold IDX_ADDR, PAGE_SIZE. split; dlia.
Qed.

Lemma tab_aligned own tabs s t : spaces_ok own tabs s -> t ∈ tabs -> t mod 4096 = 0.
Proof. intros Hs (r & p & Ht & _)%(so_tabs _ _ _ Hs). by destruct (tk_table _ _ (so_tables _ _ _ Hs) _ _ _ _ Ht) as (? & _). Qed.

Lemma tab_entry own tabs s t i t' j : spaces_ok own tabs s -> t ∈ tabs -> t' ∈ tabs -> 0 <= i < 512 -> 0 <= j < 512 ->
  (t' + 8 * j =? t + 8 * i) = (t' =? t) && (j =? i).
Proof.
  intros Hs Ht Ht' Hi Hj. pose proof (tab_aligned _ _ _ _ Hs Ht). pose proof (tab_aligned _ _ _ _ Hs Ht').
  destruct (Z.eqb_spec (t' + 8 * j) (t + 8 * i)), (Z.eqb_spec t' t), (Z.eqb_spec j i); cbn [andb]; try done; exfalso; dlia.
Qed.

(** The state with tables as they were, and another allocator. *)
Definition same_tables (own : owners) (s s1 : vm (P := P)) : Prop :=
  kernel_pml4 s1 = kernel_pml4 s /\ alloc_ok (frames s1) /\ (forall a, is_u64 (rd s1 a)) /\
  (forall t x j, own t = Some x -> 0 <= j < 512 -> rd s1 (t + 8 * j) = rd s (t + 8 * j)).
Lemma same_tables_ok own tabs s s1 : spaces_ok own tabs s -> same_tables own s s1 -> (forall t x, own t = Some x -> 0 < held (frames s1) (t / 4096)) ->
  tables_ok own s1.
Proof.
  intros Hs (B1 & B2 & B3 & B4) Hh. apply (tables_same own s); [apply Hs|done|done|done|done|].
  intros t r l p i Ht _ Hi. by rewrite (B4 t _ i Ht Hi).
Qed.
Lemma is_table_at own s t x : tables_ok own s -> own t = Some x -> is_table own (t / 4096) = 1.
Proof.
  intros Hs Ht. unfold is_table. destruct x as [[r l] p]. destruct (tk_table _ _ Hs _ _ _ _ Ht) as (Hal & _).
  replace (t / 4096 * 4096) with t by dlia. by rewrite Ht.
Qed.

(** One page's entry changed, with the allocator's counts moved to match. *)
Lemma spaces_entry own tabs s s1 t i v :
  spaces_ok own tabs s -> t ∈ tabs -> 0 <= i < 512 -> is_u64 v -> same_tables own s s1 ->
  (forall f, refs tabs s f - b2n (refers f (rd s (t + 8 * i))) + b2n (refers f v) + is_table own f <= held (frames s1) f) ->
  (counted v = true -> own (addr_of v) = None /\ 0 < addr_of v) ->
  (has v PTE_PRESENT = true -> has v PTE_COW = true -> counted v = true) ->
  (forall t2 i2, t2 ∈ tabs -> 0 <= i2 < 512 -> (t2, i2) <> (t, i) -> counted v = true -> counted (rd s (t2 + 8 * i2)) = true ->
    addr_of (rd s (t2 + 8 * i2)) = addr_of v -> has v PTE_RW = false /\ has (rd s (t2 + 8 * i2)) PTE_RW = false) ->
  spaces_ok own tabs (wr (t + 8 * i) v s1).
Proof.
  intros Hs Ht Hi Hv Hsame Hrefs Hpg Hcow Hal. pose proof Hs as [A1 A2 A3 A4 A5 A6 A7]. pose proof Hsame as (B1 & B2 & B3 & B4).
  assert (forall t' x, own t' = Some x -> 0 < held (frames s1) (t' / 4096)) as Hheld.
  { intros t' x Ho. specialize (Hrefs (t' / 4096)). rewrite (is_table_at own s t' x A1 Ho) in Hrefs.
    pose proof (refs_nonneg tabs (wr (t + 8 * i) v s) (t' / 4096)) as Hn.
    rewrite refs_wr in Hn; [lia|done|done|done|]. intros t2 Ht2. by apply (tab_aligned own tabs s). }
  pose proof (same_tables_ok own tabs s s1 Hs Hsame Hheld) as Hs1. apply A3 in Ht as Hown. destruct Hown as (r & p & Ho & Hk).
  assert (forall t' j, t' ∈ tabs -> 0 <= j < 512 -> rd s1 (t' + 8 * j) = rd s (t' + 8 * j)) as Hrd.
  { intros t' j Ht' Hj. apply A3 in Ht' as (r' & p' & Ho' & _). by apply (B4 t' _ j Ho'). }
  assert (forall t' j, t' ∈ tabs -> 0 <= j < 512 -> rd (wr (t + 8 * i) v s1) (t' + 8 * j) = if (t' =? t) && (j =? i) then v else rd s (t' + 8 * j)) as Hw.
  { intros t' j Ht' Hj. rewrite rd_wr, (tab_entry own tabs s) by done. destruct (_ && _); [done|by apply Hrd]. }
  constructor.
  - by eapply leaf_tables.
  - done.
  - intros t'. rewrite A3. change (kernel_pml4 (wr (t + 8 * i) v s1)) with (kernel_pml4 s1). by rewrite B1.
  - intros f. rewrite refs_wr; [|done|done|done|intros t2 Ht2; by apply (tab_aligned own tabs s)]. rewrite (refs_ext tabs s s1) by done.
    rewrite Hrd by done. apply Hrefs.
  - intros t' j Ht' Hj. rewrite Hw by done. destruct (_ && _); [done|by apply A5].
  - intros t1 i1 t2 i2 H1 H2 R1 R2. rewrite !Hw by done. destruct (Z.eqb_spec t1 t) as [->|N1]; [destruct (Z.eqb_spec i1 i) as [->|N1]|]; cbn [andb].
    + intros C1 W1. destruct (Z.eqb_spec t2 t) as [->|N2]; [destruct (Z.eqb_spec i2 i) as [->|N2]|]; cbn [andb]; [done|..];
        intros C2 E; destruct (Hal _ i2 H2 R2 ltac:(congruence) C1 C2 E) as [Hf _]; congruence.
    + intros C1 W1. destruct (Z.eqb_spec t2 t) as [->|N2]; [destruct (Z.eqb_spec i2 i) as [->|N2]|]; cbn [andb].
      * intros C2 E. destruct (Hal t i1 H1 R1 ltac:(congruence) C2 C1 ltac:(congruence)) as [_ Hf]. congruence.
      * intros C2 E. by apply (A6 t i1).
      * intros C2 E. by apply (A6 t i1).
    + intros C1 W1. destruct (Z.eqb_spec t2 t) as [->|N2]; [destruct (Z.eqb_spec i2 i) as [->|N2]|]; cbn [andb].
      * intros C2 E. destruct (Hal t1 i1 H1 R1 ltac:(congruence) C2 C1 ltac:(congruence)) as [_ Hf]. congruence.
      * intros C2 E. by apply (A6 t1 i1).
      * intros C2 E. by apply (A6 t1 i1).
  - intros t' j Ht' Hj. rewrite Hw by done. destruct (_ && _); [done|by apply A7].
Qed.

(** ** The write fault *)

Lemma refs_two tabs s f t i t2 i2 : NoDup tabs -> (forall t', t' ∈ tabs -> t' mod 4096 = 0) ->
  t ∈ tabs -> t2 ∈ tabs -> 0 <= i < 512 -> 0 <= i2 < 512 -> (t2, i2) <> (t, i) ->
  refers f (rd s (t + 8 * i)) = true -> refers f (rd s (t2 + 8 * i2)) = true -> 2 <= refs tabs s f.
Proof.
  intros Hnd Hal Ht Ht2 Hi Hi2 Hne H1 H2. pose proof (refs_wr tabs s f t i 0 Hnd Ht Hi Hal) as Hw. rewrite H1 in Hw.
  assert (refers f 0 = false) as E0 by reflexivity. rewrite E0 in Hw. unfold b2n in Hw.
  assert (0 < refs tabs (wr (t + 8 * i) 0 s) f); [|lia]. apply (refs_pos _ _ _ t2 i2); [done|done|].
  rewrite rd_wr. destruct (Z.eqb_spec (t2 + 8 * i2) (t + 8 * i)) as [E|]; [|done]. exfalso. apply Hne.
  pose proof (Hal t Ht). pose proof (Hal t2 Ht2). f_equal; dlia.
Qed.

Lemma wr_wr a v w s : wr a v (wr a w s) = wr a v s.
Proof. unfold wr. cbn [mem frames kernel_pml4 cr3 cow_shared cow_copies pat_ready]. by rewrite insert_insert_eq. Qed.
Lemma three_writes a c s :
  (let s := wr a (c .| (rd s a .& 0xFFF)) s in
   let s := wr a (rd s a .| PTE_RW) s in
   wr a (rd s a .& Z.lnot PTE_COW) s) = wr a ((c .| (rd s a .& 0xFFF) .| PTE_RW) .& Z.lnot PTE_COW) s.
Proof. cbv zeta. by rewrite !rd_wr, !Z.eqb_refl, !wr_wr. Qed.
Lemma spaces_counts own tabs s a b : spaces_ok own tabs s -> spaces_ok own tabs (with_counts a b s).
Proof.
  intros [A1 A2 A3 A4 A5 A6 A7]. constructor; [|exact A2|exact A3| |exact A5|exact A6|exact A7].
  - destruct A1 as [B1 B2 B3 B4 B5 B6 B7 B8]. constructor; assumption.
  - intros f. rewrite (refs_ext tabs s) by (intros; reflexivity). apply A4.
Qed.

(** Another allocator with the frames still accounted for. *)
Lemma spaces_accounts own tabs s p : spaces_ok own tabs s -> alloc_ok p -> (forall f, refs tabs s f + is_table own f <= held p f) ->
  spaces_ok own tabs (with_frames p s).
Proof.
  intros [A1 A2 A3 A4 A5 A6 A7] Hp Hh. constructor; [|exact A2|exact A3| |exact A5|exact A6|exact A7].
  - apply (tables_same own s); [exact A1|exact Hp|apply A1|reflexivity| |intros; split; reflexivity].
    intros t x Ht. change (frames (with_frames p s)) with p. specialize (Hh (t / 4096)). rewrite (is_table_at own s t x A1 Ht) in Hh.
    pose proof (refs_nonneg tabs s (t / 4096)). lia.
  - intros f. rewrite (refs_ext tabs s) by (intros; reflexivity). apply Hh.
Qed.
Lemma spaces_frames own tabs s p : spaces_ok own tabs s -> alloc_ok p -> (forall f, held (frames s) f <= held p f) ->
  spaces_ok own tabs (with_frames p s).
Proof. intros Hs Hp Hh. apply spaces_accounts; [done|done|]. intros f. specialize (Hh f). pose proof (so_refs _ _ _ Hs f). lia. Qed.

(** The table a user page's entry is in. *)
Lemma page_pos own tabs s r virt : spaces_ok own tabs s -> space own s r -> user_virt virt ->
  has (page_entry r virt s) PTE_PRESENT = true ->
  exists t, own t = Some (r, 1, pfx virt 1) /\ t ∈ tabs /\ page_entry r virt s = rd s (t + 8 * index_of virt 1).
Proof.
  intros Hs Hr Hv Hp. pose proof (so_tables _ _ _ Hs) as Ht. destruct (page_entry_cases own s r virt Ht Hr Hv) as [(t & Ho)|Hn].
  - exists t. split; [done|]. split; [|by apply (page_entry_at own s)]. apply (so_tabs _ _ _ Hs). exists r, (pfx virt 1). by destruct Hr.
  - by rewrite (page_entry_none own s r virt Ht Hr Hv Hn) in Hp.
Qed.
Lemma counted_present e : counted e = true -> has e PTE_PRESENT = true.
Proof. unfold counted. by intros [[[? _]%andb_true_iff _]%andb_true_iff _]%andb_true_iff. Qed.

Lemma page_land addr : addr .& Z.lnot (PAGE_SIZE - 1) = page_of addr.
Proof.
  unfold PAGE_SIZE, page_of. change (4096 - 1) with (Z.ones 12). rewrite <- Z.ldiff_land, Z.ldiff_ones_r, Z.shiftl_mul_pow2, Z.shiftr_div_pow2 by lia. done.
Qed.
Lemma page_same addr : user_virt addr -> user_virt (page_of addr) /\ pfx (page_of addr) 1 = pfx addr 1 /\ index_of (page_of addr) 1 = index_of addr 1.
Proof.
  unfold user_virt, page_of. intros Ha. split; [dlia|]. assert (addr / 4096 * 4096 / 4096 = addr / 4096) as E by dlia.
  pose proof (pfx_step (addr / 4096 * 4096) 1 ltac:(lia)) as P1. pose proof (pfx_step addr 1 ltac:(lia)) as P2.
  change (1 - 1) with 0 in *. rewrite !pfx0, E in *. pose proof (index_of_range addr 1). pose proof (index_of_range (addr / 4096 * 4096) 1). lia.
Qed.
Lemma page_entry_page own s r addr : tables_ok own s -> space own s r -> user_virt addr -> page_entry r (page_of addr) s = page_entry r addr s.
Proof.
  intros Hs Hr Hv. destruct (page_same addr Hv) as (Hv2 & Ep & Ei). destruct (page_entry_cases own s r addr Hs Hr Hv) as [(t & Ho)|Hn].
  - rewrite (page_entry_at own s r addr t), (page_entry_at own s r (page_of addr) t), Ei; try done. by rewrite Ep.
  - rewrite (page_entry_none own s r addr), (page_entry_none own s); try done. by rewrite Ep.
Qed.

(** A page copied into a frame just given out: only that frame changes. *)
Lemma copied_page s c a : c mod 4096 = 0 -> a mod 4096 = 0 -> a <> c -> (forall x, is_u64 (rd s x)) ->
  let s' := copy_page c a s in
  same_rest s s' /\ (forall k, 0 <= k < 512 -> rd s' (c + 8 * k) = rd s (a + 8 * k)) /\
  (forall x, page_of x <> c -> rd s' x = rd s x) /\ (forall x, is_u64 (rd s' x)).
Proof.
  intros Hc Ha Hne Hw. cbv zeta. unfold copy_page.
  destruct (fill_page_spec c (fun s k => rd s (a + 8 * k)) (fun k => rd s (a + 8 * k)) s) as (F1 & F2 & F3 & F4).
  { intros s' k Hk _ Hout. apply Hout. dlia. }
  split; [exact F1|]. split; [exact F2|]. split; [|by apply F4]. intros x Hx. apply F3. unfold page_of in Hx. dlia.
Qed.

Lemma owned_entry_page own s t x j : tables_ok own s -> own t = Some x -> 0 <= j < 512 -> page_of (t + 8 * j) = t.
Proof. intros Hs Ht Hj. destruct x as [[r l] p]. destruct (tk_table _ _ Hs _ _ _ _ Ht) as (Hal & _). by apply page_of_entry. Qed.

Lemma refers_false f e : addr_of e <> f * 4096 -> refers f e = false.
Proof. intros Hn. unfold refers. by rewrite (proj2 (Z.eqb_neq _ _) Hn), andb_false_r. Qed.
Lemma refers_counted f e : counted e = true -> addr_of e = f * 4096 -> refers f e = true.
Proof. intros Hc Ha. unfold refers. by rewrite Hc, Ha, Z.eqb_refl. Qed.
Lemma refers_self e : is_u64 e -> counted e = true -> refers (addr_of e / 4096) e = true.
Proof. intros Hw Hc. destruct (addr_of_aligned e Hw). apply refers_counted; [done|dlia]. Qed.

(** What making a page's entry [v] amounts to. *)
Record replaced (own : owners) (s s' : vm (P := P)) (t i v : Z) : Prop := {
  rp_entry : rd s' (t + 8 * i) = v;
  rp_words : forall k, 0 <= k < 512 -> rd s' (addr_of v + 8 * k) = rd s (addr_of (rd s (t + 8 * i)) + 8 * k);
  rp_tables : forall t2 x j, own t2 = Some x -> 0 <= j < 512 -> (t2, j) <> (t, i) -> rd s' (t2 + 8 * j) = rd s (t2 + 8 * j);
  rp_data : forall a, own (page_of a) = None -> 0 < held (frames s) (a / 4096) -> rd s' a = rd s a;
  rp_rest : kernel_pml4 s' = kernel_pml4 s /\ cr3 s' = cr3 s
}.

Lemma rd_with_counts a b s x : rd (with_counts a b s) x = rd s x.
Proof. reflexivity. Qed.
Lemma replaced_counts own s s' t i v a b : replaced own s s' t i v -> replaced own s (with_counts a b s') t i v.
Proof.
  intros [R1 R2 R3 R4 R5]. constructor; [rewrite rd_with_counts; exact R1|..|exact R5].
  - intros k Hk. rewrite rd_with_counts. exact (R2 k Hk).
  - intros t2 x j H1 H2 H3. rewrite rd_with_counts. exact (R3 t2 x j H1 H2 H3).
  - intros x H1 H2. rewrite rd_with_counts. exact (R4 x H1 H2).
Qed.

Lemma cow_alone own tabs s t i : spaces_ok own tabs s -> t ∈ tabs -> 0 <= i < 512 -> counted (rd s (t + 8 * i)) = true ->
  held (frames s) (addr_of (rd s (t + 8 * i)) / 4096) <= 1 ->
  let v := (rd s (t + 8 * i) .| PTE_RW) .& Z.lnot PTE_COW in
  spaces_ok own tabs (wr (t + 8 * i) v s) /\ replaced own s (wr (t + 8 * i) v s) t i v.
Proof.
  intros Hs Ht Hi Hc Hh. cbv zeta. set (e := rd s (t + 8 * i)) in *. pose proof (so_tables _ _ _ Hs) as Htk.
  pose proof (tk_words _ _ Htk (t + 8 * i)) as Hw. fold e in Hw. destruct (own_entry e Hw) as (V1 & V2 & V3 & V4 & V5).
  set (v := (e .| PTE_RW) .& Z.lnot PTE_COW) in *. clearbody v. pose proof (same_flags_counted v e V3) as Vc. rewrite Hc in Vc.
  destruct (page_held own tabs s t i Hs Ht Hi Hc) as (Hf & Hno & Hpos & Hal & _). fold e in Hf, Hno, Hpos, Hal.
  assert (forall f, refers f v = refers f e) as Href by (intros f; unfold refers; by rewrite Vc, Hc, V2).
  apply (so_tabs _ _ _ Hs) in Ht as Ho. destruct Ho as (r & p & Ho & Hk).
  split.
  - apply (spaces_entry own tabs s s); try done.
    + split; [done|]. split; [apply Htk|]. split; [apply Htk|done].
    + intros f. fold e. rewrite Href. pose proof (so_refs _ _ _ Hs f). lia.
    + by rewrite V2.
    + intros t2 i2 Ht2 Hi2 Hne _ C2 E. exfalso. rewrite V2 in E.
      pose proof (refs_two tabs s (addr_of e / 4096) t i t2 i2 (so_nodup _ _ _ Hs)) as H2.
      pose proof (so_refs _ _ _ Hs (addr_of e / 4096)). pose proof (is_table_nonneg own (addr_of e / 4096)).
      assert (2 <= refs tabs s (addr_of e / 4096)); [|lia].
      apply H2; try done; [intros t' Ht'; by apply (tab_aligned own tabs s)|by apply refers_self|]. apply refers_counted; [done|]. rewrite E. dlia.
  - constructor.
    + by rewrite rd_wr, Z.eqb_refl.
    + intros k Hk2. fold e. rewrite V2, rd_wr. destruct (Z.eqb_spec (addr_of e + 8 * k) (t + 8 * i)) as [E|]; [|done]. exfalso.
      apply (f_equal page_of) in E. rewrite page_of_entry, (owned_entry_page own s t _ i Htk Ho) in E by done. congruence.
    + intros t2 x j Ht2 Hj Hne. rewrite rd_wr. destruct (Z.eqb_spec (t2 + 8 * j) (t + 8 * i)) as [E|]; [|done]. exfalso.
      pose proof (f_equal page_of E) as E2. rewrite (owned_entry_page own s t _ i Htk Ho), (owned_entry_page own s t2 _ j Htk Ht2) in E2 by done.
      apply Hne. f_equal; lia.
    + intros a Ha _. rewrite rd_wr. destruct (Z.eqb_spec a (t + 8 * i)) as [->|]; [|done].
      rewrite (owned_entry_page own s t _ i Htk Ho) in Ha by done. congruence.
    + done.
Qed.

(** A counted page moved to a frame just given out, the old one given back or not. *)
Lemma cow_moved own tabs s s1 t i c v p : spaces_ok own tabs s -> t ∈ tabs -> 0 <= i < 512 -> counted (rd s (t + 8 * i)) = true ->
  0 < c < 2 ^ 44 -> c mod 4096 = 0 -> held (frames s) (c / 4096) = 0 -> alloc_ok p ->
  (forall f, held p f = if f =? c / 4096 then 1 else if f =? addr_of (rd s (t + 8 * i)) / 4096 then held (frames s) f - 1 else held (frames s) f) ->
  frames s1 = p -> kernel_pml4 s1 = kernel_pml4 s -> cr3 s1 = cr3 s -> (forall x, is_u64 (rd s1 x)) -> 
  (forall k, 0 <= k < 512 -> rd s1 (c + 8 * k) = rd s (addr_of (rd s (t + 8 * i)) + 8 * k)) ->
  (forall x, page_of x <> c -> rd s1 x = rd s x) ->
  is_u64 v -> addr_of v = c -> counted v = true -> 
  spaces_ok own tabs (wr (t + 8 * i) v s1) /\ replaced own s (wr (t + 8 * i) v s1) t i v.
Proof.
  intros Hs Ht Hi Hc Hcr Hcal Hcz Hp Hheld F1 F2 F3 F4 F5 F6 V1 V2 Vc. set (e := rd s (t + 8 * i)) in *. pose proof (so_tables _ _ _ Hs) as Htk.
  pose proof (tk_words _ _ Htk (t + 8 * i)) as Hw. fold e in Hw.
  destruct (page_held own tabs s t i Hs Ht Hi Hc) as (Hf & Hno & Hpos & Hal & _). fold e in Hf, Hno, Hpos, Hal.
  pose proof (not_owned own s c Htk Hcz) as Hcno.
  assert (addr_of e <> c) as Hec by (intros E; rewrite E in Hf; lia).
  apply (so_tabs _ _ _ Hs) in Ht as Ho. destruct Ho as (r & p0 & Ho & Hk).
  assert (forall t x j, own t = Some x -> 0 <= j < 512 -> rd s1 (t + 8 * j) = rd s (t + 8 * j)) as Hrd.
  { intros t2 x j Ht2 Hj. apply F6. rewrite (owned_entry_page own s t2 x j Htk Ht2 Hj). congruence. }
  split.
  - apply (spaces_entry own tabs s s1); try done.
    + split; [done|]. split; [by rewrite F1|]. split; [done|exact Hrd].
    + intros f. fold e. rewrite F1, Hheld. pose proof (so_refs _ _ _ Hs f) as Hr. pose proof (refs_nonneg tabs s f). pose proof (is_table_nonneg own f).
      destruct (Z.eqb_spec f (c / 4096)) as [->|Hfc].
      * rewrite (refers_false _ e) by dlia. rewrite Hcz in Hr. unfold b2n. destruct (refers _ v); lia.
      * rewrite (refers_false f v) by dlia. destruct (Z.eqb_spec f (addr_of e / 4096)) as [->|Hfe].
        -- rewrite (refers_self e) by done. unfold b2n. lia.
        -- rewrite (refers_false f e) by dlia. unfold b2n. lia.
    + intros _. rewrite V2. split; [done|lia].
    + intros t2 i2 Ht2 Hi2 _ _ C2 E. exfalso. rewrite V2 in E.
      destruct (page_held own tabs s t2 i2 Hs Ht2 Hi2 C2) as (Hh2 & _). rewrite E in Hh2. lia.
  - constructor.
    + by rewrite rd_wr, Z.eqb_refl.
    + intros k Hk2. fold e. rewrite V2, rd_wr. destruct (Z.eqb_spec (c + 8 * k) (t + 8 * i)) as [E|]; [|by apply F5]. exfalso.
      apply (f_equal page_of) in E. rewrite page_of_entry, (owned_entry_page own s t _ i Htk Ho) in E by done. congruence.
    + intros t2 x j Ht2 Hj Hne. rewrite rd_wr. destruct (Z.eqb_spec (t2 + 8 * j) (t + 8 * i)) as [E|]; [|by apply (Hrd t2 x)]. exfalso.
      pose proof (f_equal page_of E) as E2. rewrite (owned_entry_page own s t _ i Htk Ho), (owned_entry_page own s t2 _ j Htk Ht2) in E2 by done.
      apply Hne. f_equal; lia.
    + intros a Ha Hh. rewrite rd_wr. destruct (Z.eqb_spec a (t + 8 * i)) as [->|].
      * rewrite (owned_entry_page own s t _ i Htk Ho) in Ha by done. congruence.
      * apply F6. intros E. unfold page_of in E. assert (a / 4096 = c / 4096) as E2 by dlia. rewrite E2 in Hh. lia.
    + done.
Qed.

(** The write fault. It changes nothing when it fails; when it succeeds the page had an
    entry marked as shared, and has one of its own, with the words it had. *)
Lemma resolve_cow_spec own tabs s r addr : spaces_ok own tabs s -> space own s r -> user_virt addr ->
  exists s' ok, paging_resolve_cow r addr s = (s', ok) /\ spaces_ok own tabs s' /\
    ((ok = false /\ (exists p, s' = with_frames p s) /\ (has (page_entry r addr s) PTE_PRESENT && has (page_entry r addr s) PTE_COW = true -> snd (alloc s) = 0)) \/
     (ok = true /\ exists t v, own t = Some (r, 1, pfx addr 1) /\ t ∈ tabs /\ counted (rd s (t + 8 * index_of addr 1)) = true /\
        counted v = true /\ has v PTE_RW = true /\ replaced own s s' t (index_of addr 1) v)).
Proof.
  intros Hs Hr Hv. pose proof (so_tables _ _ _ Hs) as Htk. destruct Hr as [Hro Hrk].
  destruct (tk_table _ _ Htk _ _ _ _ Hro) as (_ & Hr0 & _). pose proof (conj Hro Hrk) as Hr.
  unfold paging_resolve_cow. rewrite (proj2 (Z.eqb_neq r 0)), page_land by lia.
  destruct (page_same addr Hv) as (Hv2 & Ep & Ei). pose proof (index_of_range addr 1) as Hi.
  pose proof (entry_for_spec own s r (page_of addr) Htk Hr Hv2) as He. rewrite page_entry_page with (own := own) in He by done.
  destruct (has (page_entry r addr s) PTE_PRESENT) eqn:Hpres.
  2: { rewrite He. cbn [Z.eqb orb]. exists s, false. split; [done|]. split; [done|]. left. split; [done|]. split; [exists (frames s); by destruct s|done]. }
  destruct He as (t0 & Ht0 & He & Hn0). destruct (page_pos own tabs s r addr Hs Hr Hv Hpres) as (t & Ho & Ht & Hent).
  rewrite Ep in Ht0. rewrite (owner_unique own s t0 t r 1 _ Htk Ht0 Ho), Ei in He. rewrite He in *. clear t0 Ht0.
  rewrite (proj2 (Z.eqb_neq _ 0)) by done. set (i := index_of addr 1) in *. rewrite Hent in Hpres. set (e := rd s (t + 8 * i)) in *.
  destruct (has e PTE_COW) eqn:Hcow; cbn [negb orb].
  2: { exists s, false. split; [done|]. split; [done|]. left. split; [done|]. split; [exists (frames s); by destruct s|].
    rewrite Hent. fold e. by rewrite Hcow. }
  pose proof (so_cow _ _ _ Hs t i Ht Hi Hpres Hcow) as Hc. fold e in Hc.
  destruct (page_held own tabs s t i Hs Ht Hi Hc) as (Hf & Hno & Hpos & Hal & Hidx & Hmax). fold e in Hf, Hno, Hpos, Hal, Hidx, Hmax.
  fold (addr_of e). pose proof (tk_words _ _ Htk (t + 8 * i)) as Hw. fold e in Hw.
  rewrite Hidx. rewrite holders_law by (first [apply Htk|done|dlia]). rewrite <- Hidx.
  destruct (Z.leb_spec (held (frames s) (addr_of e / 4096)) 1) as [Hone|Hmany].
  { destruct (own_entry e Hw) as (V1 & V2 & V3 & V4 & V5). destruct (cow_alone own tabs s t i Hs Ht Hi Hc Hone) as [W1 W2]. fold e in W1, W2.
    eexists _, true. split; [reflexivity|]. split; [exact W1|]. right. split; [done|]. exists t. eexists. split; [done|]. split; [done|]. split; [done|].
    split; [by rewrite (same_flags_counted _ _ V3)|]. split; [done|exact W2]. }
  destruct (alloc_spec s (tk_alloc _ _ Htk)) as (p & c & -> & Hp & Hc2). destruct Hc2 as [(-> & Hh)|(Hcr & Hcal & Hcz & Hh)].
  { cbn [Z.eqb]. exists (with_frames p s), false. split; [done|]. split; [|left; split; [done|]; split; [by exists p|done]].
    apply spaces_frames; [done|done|]. intros f. rewrite Hh. lia. }
  rewrite (proj2 (Z.eqb_neq c 0)) by lia.
  assert (addr_of e <> c) as Hec by (intros E; rewrite E in Hf; lia).
  destruct (copied_page (with_frames p s) c (addr_of e) Hcal Hal Hec (tk_words _ _ Htk)) as ((F1 & F2 & F3 & _) & F5 & F6 & F7).
  set (s1 := copy_page c (addr_of e) (with_frames p s)) in *. clearbody s1. cbn [frames kernel_pml4 cr3 with_frames] in F1, F2, F3.
  unfold give_back. set (p2 := free_frame (addr_of e) (frames s1)). 
  destruct (free_frame_law p (addr_of e / 4096) Hp) as [Hp2 Hh2]; [dlia| |].
  { rewrite Hh. case_bool; lia. }
  rewrite <- Hidx, <- F1 in Hp2, Hh2. fold p2 in Hp2, Hh2. clearbody p2.
  assert (rd (with_frames p2 s1) (t + 8 * i) = e) as He1.
  { rewrite rd_with_frames, F6; [rewrite rd_with_frames; reflexivity|]. rewrite (owned_entry_page own s t _ i Htk Ho Hi). intros E.
    rewrite E, (not_owned own s c Htk Hcz) in Ho. discriminate. }
  pose proof (three_writes (t + 8 * i) c (with_frames p2 s1)) as H3. cbv zeta in H3 |- *. rewrite H3, He1. clear H3.
  destruct (moved_entry c e Hcal ltac:(lia)) as (M1 & M2 & M3). destruct (own_entry _ M3) as (V1 & V2 & V3 & V4 & V5).
  set (v := (c .| (e .& 0xFFF) .| PTE_RW) .& Z.lnot PTE_COW) in *. clearbody v.
  assert (counted v = true) as Vc.
  { rewrite (same_flags_counted _ _ V3), (same_flags_counted _ e); [done|]. unfold same_page_flags.
    rewrite !M2 by (unfold PTE_PRESENT, PTE_HUGE, PTE_USER, PTE_BORROWED; lia). done. }
  assert (forall f, held p2 f = if f =? c / 4096 then 1 else if f =? addr_of e / 4096 then held (frames s) f - 1 else held (frames s) f) as Hheld.
  { intros f. rewrite Hh2, F1, !Hh. destruct (Z.eqb_spec f (addr_of e / 4096)) as [->|]; [|done].
    rewrite (proj2 (Z.eqb_neq (addr_of e / 4096) (c / 4096))) by dlia. done. }
  assert (addr_of v = c) as Vca by (by rewrite V2).
  assert (forall x, is_u64 (rd (with_frames p2 s1) x)) as G7 by (intros x; rewrite rd_with_frames; apply F7).
  assert (forall k, 0 <= k < 512 -> rd (with_frames p2 s1) (c + 8 * k) = rd s (addr_of e + 8 * k)) as G5
    by (intros k Hk; rewrite rd_with_frames, F5, rd_with_frames by exact Hk; reflexivity).
  assert (forall x, page_of x <> c -> rd (with_frames p2 s1) x = rd s x) as G6
    by (intros x Hx; rewrite rd_with_frames, F6, rd_with_frames by exact Hx; reflexivity).
  destruct (cow_moved own tabs s (with_frames p2 s1) t i c v p2 Hs Ht Hi Hc Hcr Hcal Hcz Hp2 Hheld eq_refl F2 F3 G7 G5 G6 V1 Vca Vc) as [W1 W2].
  eexists _, true. split; [reflexivity|]. split; [apply spaces_counts; exact W1|]. right. split; [done|]. exists t, v.
  do 5 (split; [assumption|]). apply replaced_counts. exact W2.
Qed.

(** ** Making tables *)

(** The tables of pages' entries among those of a list. *)
Definition is_leaf (own : owners) (k t : Z) : bool :=
  match own t with Some (r, l, _) => (l =? 1) && negb (r =? k) | None => false end.
Lemma is_leaf_true own k t : is_leaf own k t = true <-> exists r p, own t = Some (r, 1, p) /\ r <> k.
Proof.
  unfold is_leaf. destruct (own t) as [[[r l] p]|].
  - rewrite andb_true_iff, negb_true_iff, Z.eqb_eq, Z.eqb_neq. split; [intros [-> Hk]; by exists r, p|intros (r' & p' & [= <- -> <-] & Hk); done].
  - split; [done|intros (r & p & ? & _); done].
Qed.

Lemma refs_unheld own tabs s f : spaces_ok own tabs s -> held (frames s) f = 0 -> refs tabs s f = 0.
Proof.
  intros Hs Hf. pose proof (so_refs _ _ _ Hs f). pose proof (refs_nonneg tabs s f). pose proof (is_table_nonneg own f). lia.
Qed.

Lemma extends_spaces own tabs s own' s' : spaces_ok own tabs s -> tables_ok own' s' -> extends own s own' s' ->
  exists tabs', spaces_ok own' tabs' s' /\ (forall t, t ∈ tabs -> t ∈ tabs') /\
    (forall t, t ∈ tabs' -> t ∈ tabs \/ forall i, 0 <= i < 512 -> rd s' (t + 8 * i) = 0).
Proof.
  intros Hs Hs' He. pose proof Hs as [A1 A2 A3 A4 A5 A6 A7]. destruct (ex_rest _ _ _ _ He) as (Hk & _).
  destruct (ex_list _ _ _ _ He) as [l Hl].
  pose (fresh := remove_dups (filter (fun t => is_leaf own' (kernel_pml4 s) t && negb (bool_decide (t ∈ tabs))) l)).
  assert (forall t, t ∈ fresh -> is_leaf own' (kernel_pml4 s) t = true /\ t ∉ tabs) as Hf1.
  { intros t. unfold fresh. rewrite elem_of_remove_dups, list_elem_of_filter. intros [Ht _]. apply Is_true_true, andb_true_iff in Ht as [H1 H2].
    split; [done|]. by apply negb_true_iff, bool_decide_eq_false in H2. }
  assert (forall t, t ∈ tabs -> is_leaf own' (kernel_pml4 s) t = true) as Hold.
  { intros t (r & p & Ho & Hr)%A3. apply is_leaf_true. exists r, p. split; [by apply (ex_own _ _ _ _ He)|done]. }
  assert (forall t r p, own' t = Some (r, 1, p) -> r <> kernel_pml4 s -> own t = None -> t ∈ fresh) as Hf2.
  { intros t r p Ho Hr Hn. unfold fresh. rewrite elem_of_remove_dups, list_elem_of_filter. split; [|apply Hl; [done|congruence]].
    apply Is_true_true, andb_true_iff. split; [apply is_leaf_true; by exists r, p|]. apply negb_true_iff, bool_decide_eq_false.
    intros (r' & p' & Ho' & _)%A3. congruence. }
  assert (forall t, t ∈ fresh -> own t = None) as Hf3.
  { intros t [H1 H2]%Hf1. apply is_leaf_true in H1 as (r & p & Ho & Hr). destruct (own t) as [x|] eqn:E; [|done]. exfalso.
    pose proof (ex_own _ _ _ _ He _ _ E) as Ho'. rewrite Ho in Ho'. injection Ho' as <-. apply H2, A3. by exists r, p. }
  assert (forall t i, t ∈ fresh -> 0 <= i < 512 -> rd s' (t + 8 * i) = 0) as Hz.
  { intros t i Ht Hi. pose proof (Hf3 t Ht) as Hn. apply Hf1 in Ht as [(r & p & Ho & _)%is_leaf_true _].
    destruct (ex_new _ _ _ _ He _ _ _ _ Hn Ho) as (_ & _ & _ & _ & _ & H0z). by apply H0z. }
  assert (forall t i, t ∈ tabs -> 0 <= i < 512 -> rd s' (t + 8 * i) = rd s (t + 8 * i)) as Hsame.
  { intros t i (r & p & Ho & _)%A3 Hi. by apply (ex_leaf _ _ _ _ He t r p). }
  assert (forall f, refs (tabs ++ fresh) s' f = refs tabs s f) as Hrefs.
  { intros f. rewrite refs_app, (refs_ext tabs s s') by done. assert (forall l, (forall t, t ∈ l -> t ∈ fresh) -> refs l s' f = 0) as Hr0.
    { intros l0. induction l0 as [|t l0 IH]; intros Hin; [done|]. cbn [refs foldr]. fold (refs l0 s' f). rewrite IH by set_solver.
      rewrite refs_zero_table; [done|]. intros i Hi. by rewrite Hz by set_solver. }
    rewrite (Hr0 fresh) by done. lia. }
  exists (tabs ++ fresh). split; [|split].
  - constructor.
    + done.
    + apply list.NoDup_app. split; [done|]. split; [intros t Ht Hf; by apply Hf1 in Hf as [_ ?]|apply NoDup_remove_dups].
    + intros t. rewrite elem_of_app, Hk. split.
      * intros [Ht|Ht]; [apply Hold in Ht|apply Hf1 in Ht as [Ht _]]; by apply is_leaf_true.
      * intros (r & p & Ho & Hr). destruct (own t) as [x|] eqn:E; [left|right; by eapply Hf2].
        apply A3. pose proof (ex_own _ _ _ _ He _ _ E) as Ho'. rewrite Ho in Ho'. injection Ho' as <-. by exists r, p.
    + intros f. rewrite Hrefs. destruct (own' (f * 4096)) as [[[r l0] p]|] eqn:E.
      * destruct (own (f * 4096)) eqn:E2.
        -- rewrite (ex_held _ _ _ _ He f) by (left; congruence). specialize (A4 f). unfold is_table in *. by rewrite E, E2 in *.
        -- destruct (ex_new _ _ _ _ He _ _ _ _ E2 E) as (_ & H1 & H2 & _). rewrite Z.div_mul in H1, H2 by lia.
           rewrite (refs_unheld own tabs s f Hs H1), H2. unfold is_table. by rewrite E.
      * rewrite (ex_held _ _ _ _ He f) by (by right). specialize (A4 f). unfold is_table in *. rewrite E.
        destruct (own (f * 4096)) as [x|] eqn:E2; [|lia]. pose proof (ex_own _ _ _ _ He _ _ E2). congruence.
    + intros t i [Ht|Ht]%elem_of_app Hi.
      * rewrite Hsame by done. intros Hc. destruct (page_held own tabs s t i Hs Ht Hi Hc) as (Hh & Hn & Hp & Hal & _). split; [|done].
        destruct (own' (addr_of (rd s (t + 8 * i)))) as [[[r l0] p]|] eqn:E; [|done]. exfalso.
        destruct (ex_new _ _ _ _ He _ _ _ _ Hn E) as (_ & H1 & _). lia.
      * by rewrite Hz.
    + intros t i t2 i2 [Ht|Ht]%elem_of_app [Ht2|Ht2]%elem_of_app Hi Hi2; rewrite ?(Hz t), ?(Hz t2), ?(Hsame t), ?(Hsame t2) by done; try done.
      apply A6; done.
    + intros t i [Ht|Ht]%elem_of_app Hi; [rewrite Hsame by done; by apply A7|by rewrite Hz].
  - intros t Ht. apply elem_of_app. by left.
  - intros t [Ht|Ht]%elem_of_app; [by left|right]. intros i Hi. by apply Hz.
Qed.
End Fork.
