(* ===== verification/Clone.v ===== *)
(** Copying a space and taking one apart (kernel/paging.c): what [copy_table],
    [paging_clone_directory], [free_table] and [paging_free_directory] do to the invariant
    of [Fork]. *)
From S2P Require Import Prelude Pmm Frames Paging Fork.

Lemma all_ok_inv {A} (I : Z -> A -> Prop) (F : A -> Prop) (body : Z -> A -> A * bool) (m : nat) lo s :
  I lo s ->
  (forall i s, lo <= i < lo + Z.of_nat m -> I i s -> let (s', ok) := body i s in if ok then I (i + 1) s' else F s') ->
  let (s', ok) := all_ok (seqZ lo (Z.of_nat m)) body s in if ok then I (lo + Z.of_nat m) s' else F s'.
Proof.
  revert lo s. induction m as [|m IH]; intros lo s H0 Hb.
  - rewrite seqZ_nil by lia. cbn [all_ok]. by rewrite Z.add_0_r.
  - rewrite seqZ_cons by lia. cbn [all_ok]. pose proof (Hb lo s ltac:(lia) H0) as H1. destruct (body lo s) as [s1 ok].
    destruct ok; [|done]. replace (Z.pred (Z.of_nat (S m))) with (Z.of_nat m) by lia.
    replace (lo + Z.of_nat (S m)) with (Z.succ lo + Z.of_nat m) by lia. apply IH; [by replace (Z.succ lo) with (lo + 1) by lia|].
    intros i s2 Hi. apply Hb. lia.
Qed.

Section Clone.
Context {P : Type} `{FrameAllocatorLaws P}.
Implicit Types s : vm (P := P).

(** ** What copying does *)

(** A page's entry, and what sharing leaves of it. *)
Definition kept (e v : Z) : Prop :=
  v = e \/ (counted e = true /\ counted v = true /\ addr_of v = addr_of e /\ (has e PTE_RW || has e PTE_COW = true -> has v PTE_RW || has v PTE_COW = true)).
Lemma kept_trans a b c : kept a b -> kept b c -> kept a c.
Proof.
  intros [->|(A1 & A2 & A3 & A4)] [->|(B1 & B2 & B3 & B4)]; [by left|by right|by right|right].
  split; [done|]. split; [done|]. split; [congruence|auto].
Qed.

(** Entries of the tables a space's pages are in, of a set of pages. *)
Definition leaf_in (own : owners) (r : Z) (Q : Z -> Prop) (t j : Z) : Prop := exists p, own t = Some (r, 1, p) /\ Q (p * 512 + j).

(** A stretch of a copy for the root [T]: new tables are [T]'s, for the pages of [Q], and
    no entry of a table that was there changes outside [X], nor any word of a page held. *)
Record copying (own own' : owners) s s' (T : Z) (Q : Z -> Prop) (X : Z -> Z -> Prop) : Prop := {
  cy_own : forall t x, own t = Some x -> own' t = Some x;
  cy_new : forall t r l p, own t = None -> own' t = Some (r, l, p) -> 
    r = T /\ ~ 0 < held (frames s) (t / 4096) /\ t mod 4096 = 0 /\ (l = 1 -> forall j, 0 <= j < 512 -> Q (p * 512 + j));
  cy_rest : kernel_pml4 s' = kernel_pml4 s /\ cr3 s' = cr3 s;
  cy_tables : forall t x j, own t = Some x -> 0 <= j < 512 -> ~ X t j -> rd s' (t + 8 * j) = rd s (t + 8 * j);
  cy_data : forall a, own (page_of a) = None -> 0 < held (frames s) (a / 4096) -> rd s' a = rd s a;
  cy_held : forall f, 0 < held (frames s) f -> 0 < held (frames s') f;
  cy_kept : forall t r p j, own t = Some (r, 1, p) -> r <> T -> 0 <= j < 512 -> kept (rd s (t + 8 * j)) (rd s' (t + 8 * j))
}.

Lemma copying_trans own1 own2 own3 s1 s2 s3 T Q1 Q2 Q3 X Y Z' : copying own1 own2 s1 s2 T Q1 X -> copying own2 own3 s2 s3 T Q2 Y ->
  (forall q, Q1 q \/ Q2 q -> Q3 q) ->
  (forall t x j, own1 t = Some x -> 0 <= j < 512 -> X t j \/ Y t j -> Z' t j) -> copying own1 own3 s1 s3 T Q3 Z'.
Proof.
  intros A B HQ HZ. constructor.
  - intros t x Ht. by apply B, A.
  - intros t r l p Hn Ht. destruct (own2 t) as [[[r2 l2] p2]|] eqn:E.
    + pose proof (cy_own _ _ _ _ _ _ _ B _ _ E) as E'. rewrite Ht in E'. injection E' as <- <- <-.
      destruct (cy_new _ _ _ _ _ _ _ A _ _ _ _ Hn E) as (-> & Hz & Hal & Hq). do 3 (split; [done|]). intros Hl j Hj. apply HQ. left. by apply Hq.
    + destruct (cy_new _ _ _ _ _ _ _ B _ _ _ _ E Ht) as (-> & Hz & Hal & Hq). split; [done|].
      split; [intros Hp; by apply (cy_held _ _ _ _ _ _ _ A) in Hp|]. split; [done|]. intros Hl j Hj. apply HQ. right. by apply Hq.
  - destruct (cy_rest _ _ _ _ _ _ _ A), (cy_rest _ _ _ _ _ _ _ B). split; congruence.
  - intros t x j Ht Hj Hn. rewrite (cy_tables _ _ _ _ _ _ _ B t x j), (cy_tables _ _ _ _ _ _ _ A t x j); try done.
    + intros Hx. apply Hn. eapply HZ; eauto.
    + by apply A.
    + intros Hx. apply Hn. eapply HZ; eauto.
  - intros a Ha Hh. rewrite (cy_data _ _ _ _ _ _ _ B a), (cy_data _ _ _ _ _ _ _ A a); try done; [|by apply A].
    destruct (own2 (page_of a)) as [[[r l] p]|] eqn:E; [|done]. destruct (cy_new _ _ _ _ _ _ _ A _ _ _ _ Ha E) as (_ & Hz & _ & _).
    unfold page_of in Hz. by rewrite Z.div_mul in Hz by lia.
  - intros f Hf. by apply B, A.
  - intros t r p j Ht Hr Hj. eapply kept_trans; [by eapply A|]. eapply B; [by apply A|done|done].
Qed.
Lemma copying_refl own s T Q X : copying own own s s T Q X.
Proof. constructor; try done; [intros; congruence|by left]. Qed.

(** A page's entry before, the entry its space is left with and the copy's. *)
Definition page_pair (s' : vm (P := P)) (e e1 e2 : Z) : Prop :=
  (counted e = false /\ e1 = e /\ (e2 = e \/ e2 = 0) /\ counted e2 = false) \/
  (counted e = true /\ counted e1 = true /\ counted e2 = true /\ addr_of e1 = addr_of e /\
   (forall k, 0 <= k < 512 -> rd s' (addr_of e2 + 8 * k) = rd s' (addr_of e + 8 * k)) /\
   (has e PTE_RW || has e PTE_COW = true -> has e1 PTE_RW || has e1 PTE_COW = true /\ has e2 PTE_RW || has e2 PTE_COW = true)).
Definition copied_at (own own' : owners) s s' (r T q : Z) : Prop :=
  ((forall t, own t <> Some (r, 1, q / 512)) /\ (forall t, own' t <> Some (T, 1, q / 512))) \/
  exists t t', own t = Some (r, 1, q / 512) /\ own' t' = Some (T, 1, q / 512) /\
    page_pair s' (rd s (t + 8 * (q mod 512))) (rd s' (t + 8 * (q mod 512))) (rd s' (t' + 8 * (q mod 512))).

Lemma copying_wr own own' s s1 T Q X t x i v : tables_ok own s -> copying own own' s s1 T Q X -> own t = Some x -> 0 <= i < 512 -> X t i ->
  (forall r p, x = (r, 1, p) -> r <> T -> kept (rd s (t + 8 * i)) v) ->
  copying own own' s (wr (t + 8 * i) v s1) T Q X.
Proof.
  intros Hs [A1 A2 A3 A4 A5 A6 A7] Ht Hi HX HK. pose proof (owned_entry_page own s t x i Hs Ht Hi) as Hp. constructor; [done|done|done| | |done|].
  - intros t' x' j Ht' Hj Hn. rewrite rd_wr. destruct (Z.eqb_spec (t' + 8 * j) (t + 8 * i)) as [E|]; [|by eapply A4]. exfalso.
    pose proof (owned_entry_page own s t' x' j Hs Ht' Hj) as Hp'. rewrite E, Hp in Hp'. subst t'. assert (j = i) as -> by lia. done.
  - intros a Ha Hh. rewrite rd_wr. destruct (Z.eqb_spec a (t + 8 * i)) as [->|]; [|by apply A5]. congruence.
  - intros t' r p j Ht' Hr Hj. rewrite rd_wr. destruct (Z.eqb_spec (t' + 8 * j) (t + 8 * i)) as [E|]; [|by eapply A7].
    pose proof (owned_entry_page own s t' _ j Hs Ht' Hj) as Hp'. rewrite E, Hp in Hp'. subst t'. assert (j = i) as -> by lia.
    rewrite Ht in Ht'. injection Ht' as ->. by eapply HK.
Qed.
Lemma copying_same own s s1 T Q X : kernel_pml4 s1 = kernel_pml4 s -> cr3 s1 = cr3 s -> (forall f, 0 < held (frames s) f -> 0 < held (frames s1) f) ->
  (forall a, 0 < held (frames s) (a / 4096) -> rd s1 a = rd s a) -> tables_ok own s -> copying own own s s1 T Q X.
Proof.
  intros E1 E2 Hh Hr Hs. assert (forall t x j, own t = Some x -> 0 <= j < 512 -> rd s1 (t + 8 * j) = rd s (t + 8 * j)) as Hrd.
  2: { constructor; [done|intros; congruence|done| |intros a _; apply Hr|done|]; [intros t x j Ht Hj _; by eapply Hrd|]. intros t r p j Ht _ Hj. left. by eapply Hrd. }
  intros t x j Ht Hj. apply Hr. pose proof (owned_entry_page own s t x j Hs Ht Hj) as Hp. destruct x as [[r l] p].
  destruct (tk_table _ _ Hs _ _ _ _ Ht) as (_ & _ & Hpos & _). unfold page_of in Hp. replace ((t + 8 * j) / 4096) with (t / 4096) by dlia. done.
Qed.

(** *** One page *)

Definition entry_at (d src i t j : Z) : Prop := (t = d \/ t = src) /\ j = i.

Lemma spaces_same_tables own tabs s : spaces_ok own tabs s -> same_tables own s s.
Proof. intros Hs. split; [done|]. split; [apply Hs|]. split; [apply Hs|done]. Qed.

(** A copy that refers to nothing. *)
Lemma copy_plain own tabs s T Q d src i v : spaces_ok own tabs s -> d ∈ tabs -> (forall r l p, own d = Some (r, l, p) -> r = T) -> src ∈ tabs -> d <> src -> 0 <= i < 512 ->
  rd s (d + 8 * i) = 0 -> v = 0 \/ v = rd s (src + 8 * i) -> counted v = false ->
  let s' := wr (d + 8 * i) v s in
  spaces_ok own tabs s' /\ copying own own s s' T Q (entry_at d src i) /\ rd s' (src + 8 * i) = rd s (src + 8 * i) /\ rd s' (d + 8 * i) = v.
Proof.
  intros Hs Hd HdT Hsrc Hne Hi Hz Hv Hc. cbv zeta. pose proof (so_tables _ _ _ Hs) as Htk.
  apply (so_tabs _ _ _ Hs) in Hd as Hd'. destruct Hd' as (r & p & Ho & _). apply (so_tabs _ _ _ Hs) in Hsrc as Hs'. destruct Hs' as (r2 & p2 & Ho2 & _).
  assert (is_u64 v) as Hw by (destruct Hv as [-> | ->]; [by vm_compute|apply Htk]).
  assert (forall f, refers f v = false) as Hr by (intros f; unfold refers; by rewrite Hc).
  split; [|split; [|split]].
  - apply (spaces_entry own tabs s s); try done; [by apply (spaces_same_tables own tabs)| |congruence| |congruence].
    + intros f. rewrite Hz, Hr. change (refers f 0) with false. cbn [b2n]. pose proof (so_refs _ _ _ Hs f). lia.
    + destruct Hv as [-> | ->]; [done|]. by apply (so_cow _ _ _ Hs).
  - eapply copying_wr; [done|apply copying_refl|done|done|by split; [left|]|]. intros r' p' [= <- <-] Hn'. by destruct (Hn' (HdT _ _ _ Ho)).
  - rewrite rd_wr, (tab_entry own tabs s) by done. by rewrite (proj2 (Z.eqb_neq src d)) by done.
  - by rewrite rd_wr, Z.eqb_refl.
Qed.

Lemma wr_comm a b v w s : a <> b -> wr a v (wr b w s) = wr b w (wr a v s).
Proof. intros Hn. unfold wr. cbn [mem frames kernel_pml4 cr3 cow_shared cow_copies pat_ready]. by rewrite insert_insert_ne. Qed.

Lemma copying_counts own own' s s1 T Q X a b : copying own own' s s1 T Q X -> copying own own' s (with_counts a b s1) T Q X.
Proof.
  intros [A1 A2 A3 A4 A5 A6 A7]. constructor; [exact A1|exact A2|exact A3| | |exact A6|].
  - intros t x j H1 H2 H3. rewrite rd_with_counts. by eapply A4.
  - intros x H1 H2. rewrite rd_with_counts. by apply A5.
  - intros t r p j H1 H2 H3. rewrite rd_with_counts. by eapply A7.
Qed.

(** A page both will read from one frame. *)
Lemma copy_shared own tabs s T Q d src i q : spaces_ok own tabs s -> d ∈ tabs -> (forall r l p, own d = Some (r, l, p) -> r = T) -> src ∈ tabs -> d <> src -> 0 <= i < 512 ->
  rd s (d + 8 * i) = 0 -> counted (rd s (src + 8 * i)) = true -> alloc_ok q ->
  (forall g, held q g = if g =? addr_of (rd s (src + 8 * i)) / 4096 then held (frames s) g + 1 else held (frames s) g) ->
  let v := (rd s (src + 8 * i) .& Z.lnot PTE_RW) .| PTE_COW in
  let s' := wr (src + 8 * i) v (wr (d + 8 * i) v (with_frames q s)) in
  spaces_ok own tabs s' /\ copying own own s s' T Q (entry_at d src i) /\ page_pair s' (rd s (src + 8 * i)) (rd s' (src + 8 * i)) (rd s' (d + 8 * i)).
Proof.
  intros Hs Hd HdT Hsrc Hne Hi Hz Hc Hq Hheld. cbv zeta. set (e := rd s (src + 8 * i)) in *. pose proof (so_tables _ _ _ Hs) as Htk.
  pose proof (tk_words _ _ Htk (src + 8 * i)) as Hw. fold e in Hw. destruct (shared_entry e Hw) as (V1 & V2 & V3 & V4 & V5).
  set (v := (e .& Z.lnot PTE_RW) .| PTE_COW) in *. clearbody v. pose proof (same_flags_counted v e V3) as Vc. rewrite Hc in Vc.
  destruct (page_held own tabs s src i Hs Hsrc Hi Hc) as (Hf & Hno & Hpos & Hal & _). fold e in Hf, Hno, Hpos, Hal.
  assert (d + 8 * i <> src + 8 * i) as Hne2 by lia.
  apply (so_tabs _ _ _ Hs) in Hd as Hd'. destruct Hd' as (r & p & Ho & _). apply (so_tabs _ _ _ Hs) in Hsrc as Hs'. destruct Hs' as (r2 & p2 & Ho2 & _).
  assert (forall f, refers f v = refers f e) as Href by (intros f; unfold refers; by rewrite Vc, Hc, V2).
  split; [|split].
  - rewrite wr_comm by lia. 
    assert (spaces_ok own tabs (wr (src + 8 * i) v s)) as H1.
    { apply (spaces_entry own tabs s s); try done; [by apply (spaces_same_tables own tabs)|..].
      - intros f. fold e. rewrite Href. pose proof (so_refs _ _ _ Hs f). lia.
      - by rewrite V2.
      - intros t2 i2 Ht2 Hi2 Hn _ C2 E. split; [done|]. destruct (has (rd s (t2 + 8 * i2)) PTE_RW) eqn:ERW; [|done]. exfalso.
        destruct (so_alone _ _ _ Hs t2 i2 src i Ht2 Hsrc Hi2 Hi C2 ERW Hc) as [<- <-]; [|done]. fold e. congruence. }
    assert (forall a, rd (wr (src + 8 * i) v (with_frames q s)) a = rd (wr (src + 8 * i) v s) a) as Hrd by (intros a; by rewrite !rd_wr, rd_with_frames).
    apply (spaces_entry own tabs (wr (src + 8 * i) v s)); try done.
    + split; [done|]. split; [exact Hq|]. split; [|intros; apply Hrd]. intros a. rewrite Hrd. apply H1.
    + intros f. rewrite rd_wr, (proj2 (Z.eqb_neq _ _) Hne2), Hz. change (refers f 0) with false. unfold b2n at 1.
      change (frames (wr (src + 8 * i) v (with_frames q s))) with q. rewrite Hheld. pose proof (so_refs _ _ _ H1 f) as Hr.
      change (frames (wr (src + 8 * i) v s)) with (frames s) in Hr. destruct (Z.eqb_spec f (addr_of e / 4096)) as [->|Hfe].
      * unfold b2n. destruct (refers _ v); lia.
      * rewrite Href, refers_false by dlia. cbn [b2n]. lia.
    + by rewrite V2.
    + intros t2 i2 Ht2 Hi2 Hn _ C2 E. split; [done|]. destruct (has (rd (wr (src + 8 * i) v s) (t2 + 8 * i2)) PTE_RW) eqn:ERW; [|done]. exfalso.
      destruct (so_alone _ _ _ H1 t2 i2 src i Ht2 Hsrc Hi2 Hi C2 ERW) as [<- <-].
      * by rewrite rd_wr, Z.eqb_refl.
      * by rewrite rd_wr, Z.eqb_refl.
      * rewrite rd_wr, Z.eqb_refl in ERW. congruence.
  - eapply copying_wr; [done| |exact Ho2|done|by split; [right|]|intros _ _ _ _; right; fold e; rewrite V5, orb_true_r; done].
    eapply copying_wr; [done| |exact Ho|done|by split; [left|]|intros r' p' [= <- <-] Hn'; by destruct (Hn' (HdT _ _ _ Ho))].
    apply copying_same; try done. intros f Hf2. change (frames (with_frames q s)) with q. rewrite Hheld. case_bool; lia.
  - rewrite !rd_wr, !Z.eqb_refl. rewrite (proj2 (Z.eqb_neq _ _) Hne2). right. rewrite V2, V5, orb_true_r. done.
Qed.

(** A page copied then and there. *)
Lemma copy_fresh own tabs s T Q d src i q c : spaces_ok own tabs s -> d ∈ tabs -> (forall r l p, own d = Some (r, l, p) -> r = T) -> src ∈ tabs -> d <> src -> 0 <= i < 512 ->
  rd s (d + 8 * i) = 0 -> counted (rd s (src + 8 * i)) = true -> alloc_ok q ->
  0 < c < 2 ^ 44 -> c mod 4096 = 0 -> held (frames s) (c / 4096) = 0 ->
  (forall f, held q f = if f =? c / 4096 then 1 else held (frames s) f) ->
  let e := rd s (src + 8 * i) in
  let s' := wr (d + 8 * i) (c .| (e .& 0xFFF)) (copy_page c (addr_of e) (with_frames q s)) in
  spaces_ok own tabs s' /\ copying own own s s' T Q (entry_at d src i) /\ page_pair s' e (rd s' (src + 8 * i)) (rd s' (d + 8 * i)).
Proof.
  intros Hs Hd HdT Hsrc Hne Hi Hz Hc Hq Hcr Hcal Hcz Hheld. cbv zeta. set (e := rd s (src + 8 * i)) in *. pose proof (so_tables _ _ _ Hs) as Htk.
  destruct (page_held own tabs s src i Hs Hsrc Hi Hc) as (Hf & Hno & Hpos & Hal & _). fold e in Hf, Hno, Hpos, Hal.
  pose proof (not_owned own s c Htk Hcz) as Hcno.
  assert (addr_of e <> c) as Hec by (intros E; rewrite E in Hf; lia).
  destruct (Fork.copied_page (with_frames q s) c (addr_of e) Hcal Hal Hec (tk_words _ _ Htk)) as ((F1 & F2 & F3 & _) & F5 & F6 & F7).
  set (s1 := copy_page c (addr_of e) (with_frames q s)) in *. clearbody s1. cbn [frames kernel_pml4 cr3 with_frames] in F1, F2, F3.
  destruct (moved_entry c e Hcal ltac:(lia)) as (M1 & M2 & M3). set (v := c .| (e .& 0xFFF)) in *. clearbody v.
  assert (counted v = true) as Vc.
  { rewrite (same_flags_counted v e); [done|]. unfold same_page_flags. rewrite !M2 by (unfold PTE_PRESENT, PTE_HUGE, PTE_USER, PTE_BORROWED; lia). done. }
  apply (so_tabs _ _ _ Hs) in Hd as Hd'. destruct Hd' as (r & p & Ho & _). apply (so_tabs _ _ _ Hs) in Hsrc as Hs'. destruct Hs' as (r2 & p2 & Ho2 & _).
  assert (forall x, page_of x <> c -> rd s1 x = rd s x) as F6' by (intros x Hx; rewrite F6, rd_with_frames by exact Hx; reflexivity).
  assert (forall t x j, own t = Some x -> 0 <= j < 512 -> rd s1 (t + 8 * j) = rd s (t + 8 * j)) as Hrd.
  { intros t2 x j Ht2 Hj. apply F6'. rewrite (owned_entry_page own s t2 x j Htk Ht2 Hj). congruence. }
  assert (forall k, 0 <= k < 512 -> page_of (addr_of e + 8 * k) = addr_of e) as Hpe by (intros k Hk; by apply page_of_entry).
  split; [|split].
  - apply (spaces_entry own tabs s s1); try done.
    + split; [done|]. split; [by rewrite F1|]. split; [done|exact Hrd].
    + intros f. rewrite Hz, F1, Hheld. change (refers f 0) with false. unfold b2n at 1. pose proof (so_refs _ _ _ Hs f) as Hr.
      pose proof (refs_nonneg tabs s f). pose proof (is_table_nonneg own f).
      destruct (Z.eqb_spec f (c / 4096)) as [->|Hfc].
      * rewrite Hcz in Hr. unfold b2n. destruct (refers _ v); lia.
      * rewrite (refers_false f v) by dlia. unfold b2n. lia.
    + intros _. rewrite M1. split; [done|lia].
    + intros t2 i2 Ht2 Hi2 _ _ C2 E. exfalso. rewrite M1 in E.
      destruct (page_held own tabs s t2 i2 Hs Ht2 Hi2 C2) as (Hh2 & _). rewrite E in Hh2. lia.
  - eapply copying_wr; [done| |exact Ho|done|by split; [left|]|intros r' p' [= <- <-] Hn'; by destruct (Hn' (HdT _ _ _ Ho))]. apply copying_same; [done|done|..|done].
    + intros f Hf2. rewrite F1, Hheld. case_bool; lia.
    + intros a Ha. apply F6'. intros E. unfold page_of in E. assert (a / 4096 = c / 4096) as E2 by dlia. rewrite E2 in Ha. lia.
  - rewrite rd_wr, (proj2 (Z.eqb_neq _ _)), (Hrd src _ i Ho2 Hi) by lia. fold e. right. rewrite (rd_wr _ (d + 8 * i)), Z.eqb_refl.
    do 4 (split; [done|]). split.
    + intros k Hk. rewrite M1, !rd_wr. rewrite !(proj2 (Z.eqb_neq _ _)).
      * rewrite F5, F6', rd_with_frames; [done|rewrite Hpe by done; done|done].
      * intros E. apply (f_equal page_of) in E. rewrite Hpe, (owned_entry_page own s d _ i Htk Ho) in E by done. congruence.
      * intros E. apply (f_equal page_of) in E. rewrite page_of_entry, (owned_entry_page own s d _ i Htk Ho) in E by done. congruence.
    + intros HW. split; [done|]. by rewrite !M2 by (unfold PTE_RW, PTE_COW; lia).
Qed.

Lemma counted_true e : has e PTE_PRESENT = true -> has e PTE_HUGE = false -> has e PTE_USER = true -> has e PTE_BORROWED = false -> counted e = true.
Proof. unfold counted. by intros -> -> -> ->. Qed.

Lemma copy_leaf own tabs s T Q d src i below : spaces_ok own tabs s -> d ∈ tabs -> (forall r l p, own d = Some (r, l, p) -> r = T) -> src ∈ tabs -> d <> src -> 0 <= i < 512 ->
  rd s (d + 8 * i) = 0 ->
  exists s' ok, copy_entry 0 below d src i s = (s', ok) /\ spaces_ok own tabs s' /\ copying own own s s' T Q (entry_at d src i) /\
    (ok = true -> page_pair s' (rd s (src + 8 * i)) (rd s' (src + 8 * i)) (rd s' (d + 8 * i))).
Proof.
  intros Hs Hd HdT Hsrc Hne Hi Hz. unfold copy_entry. set (e := rd s (src + 8 * i)).
  assert (counted e = false -> forall v, v = 0 \/ v = e -> exists s' ok, (wr (d + 8 * i) v s, true) = (s', ok) /\ spaces_ok own tabs s' /\
    copying own own s s' T Q (entry_at d src i) /\ (ok = true -> page_pair s' e (rd s' (src + 8 * i)) (rd s' (d + 8 * i)))) as Hplain.
  { intros Hc v Hv. assert (counted v = false) as Hcv by (by destruct Hv as [-> | ->]).
    destruct (copy_plain own tabs s T Q d src i v Hs Hd HdT Hsrc Hne Hi Hz Hv Hcv) as (A & B & C & D).
    eexists _, _. split; [reflexivity|]. split; [exact A|]. split; [exact B|]. intros _. left. rewrite C, D. destruct Hv; auto. }
  destruct (has e PTE_PRESENT) eqn:E1; cbn [negb]; [|apply Hplain; [by unfold counted; rewrite E1|by left]].
  destruct (has e PTE_HUGE) eqn:E2; [apply Hplain; [by unfold counted; rewrite E1, E2|by right]|].
  destruct (has e PTE_USER) eqn:E3; cbn [negb]; [|apply Hplain; [by unfold counted; rewrite E1, E2, E3|by right]].
  destruct (has e PTE_BORROWED) eqn:E4; [apply Hplain; [by unfold counted; rewrite E1, E2, E3, E4|by left]|].
  pose proof (counted_true e E1 E2 E3 E4) as Hc. clear Hplain. fold (addr_of e).
  destruct (page_held own tabs s src i Hs Hsrc Hi Hc) as (Hf & Hno & Hpos & Hal & Hidx & _). fold e in Hf, Hno, Hpos, Hal, Hidx.
  pose proof (so_tables _ _ _ Hs) as Htk. unfold share. rewrite Hidx.
  destruct (share_frame_law (frames s) (addr_of e / 4096) (tk_alloc _ _ Htk)) as [Hq Hheld]; [dlia|done|].
  destruct (share_frame (IDX_ADDR (addr_of e / 4096)) (frames s)) as [q took]. cbn [fst snd] in Hq, Hheld. rewrite <- Hidx.
  destruct took.
  - assert (forall g, held q g = if g =? addr_of e / 4096 then held (frames s) g + 1 else held (frames s) g) as Hheld2.
    { intros g. rewrite Hheld, andb_true_r. by destruct (Z.eqb_spec g (addr_of e / 4096)) as [->|]. }
    destruct (copy_shared own tabs s T Q d src i q Hs Hd HdT Hsrc Hne Hi Hz Hc Hq Hheld2) as (A & B & C).
    eexists _, true. split; [reflexivity|]. split; [apply spaces_counts; exact A|]. split; [apply copying_counts; exact B|].
    intros _. rewrite !rd_with_counts. exact C.
  - assert (forall g, held q g = held (frames s) g) as Hheld2 by (intros g; by rewrite Hheld, andb_false_r).
    assert (spaces_ok own tabs (with_frames q s)) as Hsq by (apply spaces_frames; [done|done|intros f; rewrite Hheld2; lia]).
    assert (forall q2, (forall f, 0 < held (frames s) f -> 0 < held q2 f) -> copying own own s (with_frames q2 s) T Q (entry_at d src i)) as Hcq
      by (intros q2 Hq2; by apply copying_same).
    destruct (alloc_spec (with_frames q s) Hq) as (p & c & -> & Hp & Hca). change (frames (with_frames q s)) with q in Hca.
    change (with_frames p (with_frames q s)) with (with_frames p s).
    destruct Hca as [(-> & Hh)|(Hcr & Hcal & Hcz & Hh)].
    + cbn [Z.eqb]. exists (with_frames p s), false. split; [done|]. split; [apply spaces_frames; [done|done|intros f; rewrite Hh, Hheld2; lia]|].
      split; [apply Hcq; intros f; by rewrite Hh, Hheld2|done].
    + rewrite (proj2 (Z.eqb_neq c 0)) by lia. rewrite Hheld2 in Hcz.
      destruct (copy_fresh own tabs s T Q d src i p c Hs Hd HdT Hsrc Hne Hi Hz Hc Hp Hcr Hcal Hcz) as (A & B & C).
      { intros f. rewrite Hh. case_bool; [done|apply Hheld2]. }
      eexists _, true. split; [reflexivity|]. split; [exact A|]. split; [exact B|]. intros _. exact C.
Qed.

(** *** A table *)

(** The pages a table of a level is for. *)
Definition under (n : nat) (p q : Z) : Prop := q / 512 ^ Z.of_nat n = p.

Lemma under_step n p q i : 0 <= i < 512 -> under n (p * 512 + i) q -> under (S n) p q.
Proof.
  unfold under. intros Hi Hq. rewrite Nat2Z.inj_succ, Z.pow_succ_r, Z.mul_comm, <- Z.div_div, Hq by lia. dlia.
Qed.
Lemma under_split n p q : under (S n) p q -> under n (p * 512 + (q / 512 ^ Z.of_nat n) mod 512) q.
Proof.
  unfold under. rewrite Nat2Z.inj_succ, Z.pow_succ_r, Z.mul_comm, <- Z.div_div by lia. intros <-. dlia.
Qed.
Lemma under_disjoint n p q i j : under n (p * 512 + i) q -> under n (p * 512 + j) q -> i = j.
Proof. unfold under. lia. Qed.

Lemma ancestor own s r lr pr c p n m : tables_ok own s -> own r = Some (r, lr, pr) -> own c = Some (r, 1 + Z.of_nat m, p) ->
  1 + Z.of_nat m + Z.of_nat n <= lr -> exists a, own a = Some (r, 1 + Z.of_nat m + Z.of_nat n, p / 512 ^ Z.of_nat n).
Proof.
  intros Hs Hr Hc. induction n as [|n IH]; intros Hn.
  - exists c. rewrite Hc. do 2 f_equal; [f_equal; lia|]. change (512 ^ Z.of_nat 0) with 1. by rewrite Z.div_1_r.
  - destruct IH as (a & Ha); [lia|]. assert (a <> r) as Hne by (intros ->; rewrite Hr in Ha; injection Ha; lia).
    destruct (tk_parent _ _ Hs _ _ _ _ Ha Hne) as (t & Ht & _). exists t. rewrite Ht. do 2 f_equal; [f_equal; lia|].
    rewrite Nat2Z.inj_succ, Z.pow_succ_r by lia. rewrite Z.div_div by lia. f_equal. lia.
Qed.

(** A table whose entry is empty has no table of pages below it there. *)
Lemma none_below own s r t n p i q : tables_ok own s -> own t = Some (r, Z.of_nat (S (S n)), p) -> 0 <= i < 512 ->
  has (rd s (t + 8 * i)) PTE_PRESENT = false -> under (S n) (p * 512 + i) q -> forall c, own c <> Some (r, 1, q / 512).
Proof.
  intros Hs Ht Hi Hp Hq c Hc. destruct (tk_table _ _ Hs _ _ _ _ Ht) as (_ & _ & _ & _ & lr & pr & Hr & Hle & _).
  destruct (ancestor own s r lr pr c (q / 512) n 0 Hs Hr Hc ltac:(lia)) as (a & Ha).
  assert (q / 512 / 512 ^ Z.of_nat n = p * 512 + i) as E.
  { unfold under in Hq. rewrite <- Hq, Nat2Z.inj_succ, Z.pow_succ_r, <- Z.div_div by lia. done. }
  rewrite E in Ha. replace (1 + Z.of_nat 0 + Z.of_nat n) with (Z.of_nat (S (S n)) - 1) in Ha by lia.
  pose proof (child_link own s t r _ p i a Hs Ht ltac:(lia) Hi Ha) as Hl. by rewrite link_absent in Hl.
Qed.

(** What was copied before another stretch, and after one. *)
Lemma copied_after own0 own1 own2 s0 s1 s2 r T Q X q : copied_at own1 own2 s1 s2 r T q -> copying own0 own1 s0 s1 T Q X -> r <> T ->
  (forall t, own0 t = Some (r, 1, q / 512) -> ~ X t (q mod 512)) -> copied_at own0 own2 s0 s2 r T q.
Proof.
  intros Hc A Hr HX. pose proof (Z.mod_pos_bound q 512 ltac:(lia)) as Hm. destruct Hc as [[N1 N2]|(t & t' & Ht & Ht' & Hp)].
  - left. split; [|done]. intros t Ht. apply (N1 t). by apply A.
  - right. assert (own0 t = Some (r, 1, q / 512)) as Ht0.
    { destruct (own0 t) as [x|] eqn:E; [pose proof (cy_own _ _ _ _ _ _ _ A _ _ E); congruence|].
      by destruct (cy_new _ _ _ _ _ _ _ A _ _ _ _ E Ht) as (? & _). }
    exists t, t'. split; [done|]. split; [done|]. rewrite <- (cy_tables _ _ _ _ _ _ _ A t _ _ Ht0 Hm (HX t Ht0)). done.
Qed.
Lemma page_words own tabs s t i k : spaces_ok own tabs s -> t ∈ tabs -> 0 <= i < 512 -> counted (rd s (t + 8 * i)) = true -> 0 <= k < 512 ->
  own (page_of (addr_of (rd s (t + 8 * i)) + 8 * k)) = None /\ 0 < held (frames s) ((addr_of (rd s (t + 8 * i)) + 8 * k) / 4096).
Proof.
  intros Hs Ht Hi Hc Hk. destruct (page_held own tabs s t i Hs Ht Hi Hc) as (Hf & Hno & _ & Hal & _).
  rewrite page_of_entry by done. split; [done|]. match goal with |- 0 < held _ ?x => match type of Hf with 0 < held _ ?y => replace x with y by dlia end end. done.
Qed.
Lemma pair_data own tabs s s' t t' j e : spaces_ok own tabs s -> t ∈ tabs -> t' ∈ tabs -> 0 <= j < 512 ->
  page_pair s e (rd s (t + 8 * j)) (rd s (t' + 8 * j)) ->
  (forall a, own (page_of a) = None -> 0 < held (frames s) (a / 4096) -> rd s' a = rd s a) ->
  page_pair s' e (rd s (t + 8 * j)) (rd s (t' + 8 * j)).
Proof.
  intros Hs Ht Ht' Hj [Hp|(C & C1 & C2 & E & W & HW)] Hd; [by left|right]. do 4 (split; [done|]). split; [|done].
  intros k Hk. rewrite <- E. destruct (page_words own tabs s t j k Hs Ht Hj C1 Hk) as [A1 A2].
  destruct (page_words own tabs s t' j k Hs Ht' Hj C2 Hk) as [B1 B2]. rewrite !Hd by done. rewrite E. by apply W.
Qed.
Lemma copied_before own0 own1 own2 tabs1 s0 s1 s2 r T Q X q : copied_at own0 own1 s0 s1 r T q -> copying own1 own2 s1 s2 T Q X ->
  (forall t x, own0 t = Some x -> own1 t = Some x) -> spaces_ok own1 tabs1 s1 -> r <> kernel_pml4 s1 -> T <> kernel_pml4 s1 -> ~ Q q ->
  (forall t, own1 t = Some (r, 1, q / 512) \/ own1 t = Some (T, 1, q / 512) -> ~ X t (q mod 512)) -> copied_at own0 own2 s0 s2 r T q.
Proof.
  intros Hc B H01 Hs1 Hrk HTk HQ HX. pose proof (Z.mod_pos_bound q 512 ltac:(lia)) as Hm. destruct Hc as [[N1 N2]|(t & t' & Ht & Ht' & Hp)].
  - left. split; [done|]. intros t Ht. destruct (own1 t) as [x|] eqn:E; [apply (N2 t); pose proof (cy_own _ _ _ _ _ _ _ B _ _ E); congruence|].
    destruct (cy_new _ _ _ _ _ _ _ B _ _ _ _ E Ht) as (_ & _ & _ & Hq). apply HQ. specialize (Hq eq_refl (q mod 512) Hm).
    by replace (q / 512 * 512 + q mod 512) with q in Hq by dlia.
  - right. exists t, t'. split; [done|]. split; [by apply B|]. pose proof (H01 _ _ Ht) as Ht1.
    assert (t ∈ tabs1) as Hin by (apply (so_tabs _ _ _ Hs1); by exists r, (q / 512)).
    assert (t' ∈ tabs1) as Hin' by (apply (so_tabs _ _ _ Hs1); by exists T, (q / 512)).
    rewrite (cy_tables _ _ _ _ _ _ _ B t _ _ Ht1 Hm) by (apply HX; by left).
    rewrite (cy_tables _ _ _ _ _ _ _ B t' _ _ Ht' Hm) by (apply HX; by right).
    apply (pair_data own1 tabs1); try done. apply B.
Qed.

Lemma copying_new own s q c T l p i d n (own' := owned own c (T, l, p * 512 + i)) v :
  tables_ok own s -> own d = Some (T, l + 1, p) -> 0 <= i < 512 -> l = Z.of_nat (S n) ->
  0 < c < 2 ^ 44 -> c mod 4096 = 0 -> held (frames s) (c / 4096) = 0 -> alloc_ok q ->
  (forall f, held q f = if f =? c / 4096 then 1 else held (frames s) f) ->
  let s' := wr (d + 8 * i) v (zero_page c (with_frames q s)) in
  copying own own' s s' T (under (S n) (p * 512 + i)) (fun t j => t = d /\ j = i) /\ (forall k, 0 <= k < 512 -> rd s' (c + 8 * k) = 0).
Proof.
  intros Hs Hd Hi Hl Hc Hal Hz Hq Hh. cbv zeta. pose proof (not_owned own s c Hs Hz) as Hno.
  destruct (zeroed (with_frames q s) c Hq (tk_words _ _ Hs)) as ((F1 & F2 & F3 & _) & Fin & Fout & _).
  set (s1 := zero_page c (with_frames q s)) in *. clearbody s1. cbn [frames kernel_pml4 cr3 with_frames] in *.
  assert (forall b, page_of b <> c -> rd s1 b = rd s b) as Hout by (intros b Hb; rewrite Fout, rd_with_frames by done; done).
  pose proof (owned_entry_page own s d _ i Hs Hd Hi) as Hpd.
  split.
  - apply (copying_wr own own' s s1 T _ _ d (T, l + 1, p)); [done| |done|done|done|intros r' p' [= <- _ _] Hn'; by destruct Hn'].
    assert (forall t x j, own t = Some x -> 0 <= j < 512 -> rd s1 (t + 8 * j) = rd s (t + 8 * j)) as Hrd.
    { intros t x j Ht Hj. apply Hout. rewrite (owned_entry_page own s t x j Hs Ht Hj). congruence. }
    constructor; [| |done|..].
    + intros t x Ht. unfold own', owned. destruct (Z.eqb_spec t c); congruence.
    + intros t r l' p' Hn. unfold own', owned. destruct (Z.eqb_spec t c) as [->|]; [|congruence]. intros [= <- <- <-].
      split; [done|]. split; [lia|]. split; [done|]. intros Hl1 j Hj. assert (n = 0%nat) as -> by lia. unfold under. change (512 ^ Z.of_nat 1) with 512. dlia.
    + intros t x j Ht Hj _. by eapply Hrd.
    + intros a Ha Hf. apply Hout. intros E. unfold page_of in E. replace (a / 4096) with (c / 4096) in Hf by dlia. lia.
    + intros f Hf. rewrite F1, Hh. case_bool; lia.
    + intros t r' p' j Ht _ Hj. left. by eapply Hrd.
  - intros k Hk. rewrite rd_wr. destruct (Z.eqb_spec (c + 8 * k) (d + 8 * i)) as [E|]; [|by apply Fin].
    apply (f_equal page_of) in E. rewrite page_of_entry, Hpd in E by done. congruence.
Qed.

(** What a call that copies leaves, for the pages of [Q] and the entries of [X]. *)
Definition copy_result (own : owners) s (r T : Z) (Q : Z -> Prop) (X : Z -> Z -> Prop) (result : vm (P := P) * bool) : Prop :=
  exists own' tabs', spaces_ok own' tabs' result.1 /\ copying own own' s result.1 T Q X /\
    (result.2 = true -> forall q, Q q -> copied_at own own' s result.1 r T q).

Definition copies_table (n : nat) : Prop := forall own tabs s r T d src p,
  spaces_ok own tabs s -> own d = Some (T, Z.of_nat n, p) -> own src = Some (r, Z.of_nat n, p) ->
  r <> kernel_pml4 s -> T <> kernel_pml4 s -> r <> T -> (forall i, 0 <= i < 512 -> rd s (d + 8 * i) = 0) ->
  copy_result own s r T (under n p) (fun t j => t = d \/ leaf_in own r (under n p) t j) (copy_table n d src s).
Definition copies_entry (n : nat) : Prop := forall own tabs s r T d src p i,
  spaces_ok own tabs s -> own d = Some (T, Z.of_nat (S n), p) -> own src = Some (r, Z.of_nat (S n), p) ->
  r <> kernel_pml4 s -> T <> kernel_pml4 s -> r <> T -> 0 <= i < 512 -> rd s (d + 8 * i) = 0 ->
  copy_result own s r T (under n (p * 512 + i)) (fun t j => (t = d /\ j = i) \/ leaf_in own r (under n (p * 512 + i)) t j)
    (copy_entry n (copy_table n) d src i s).

Lemma copying_weaken own own' s s' T Q X Y : copying own own' s s' T Q X ->
  (forall t x j, own t = Some x -> 0 <= j < 512 -> X t j -> Y t j) -> copying own own' s s' T Q Y.
Proof.
  intros [A1 A2 A3 A4 A5 A6 A7] HXY. constructor; try done. intros t x j Ht Hj Hn. apply (A4 t x); [done|done|]. intros HX. apply Hn. by apply (HXY t x).
Qed.

Lemma copies_page : copies_entry 0.
Proof.
  intros own tabs s r T d src p i Hs Hd Hsrc Hr HT Hne Hi Hz. change (Z.of_nat 1) with 1 in *.
  assert (d <> src) as Hds by (intros ->; congruence).
  assert (forall r l p, own d = Some (r, l, p) -> r = T) as HdT by (intros; congruence).
  assert (d ∈ tabs) as Hdt by (apply (so_tabs _ _ _ Hs); by exists T, p). assert (src ∈ tabs) as Hst by (apply (so_tabs _ _ _ Hs); by exists r, p).
  destruct (copy_leaf own tabs s T (under 0 (p * 512 + i)) d src i (copy_table 0) Hs Hdt HdT Hst Hds Hi Hz) as (s' & ok & -> & Hs' & Hc & Hp).
  exists own, tabs. cbn [fst snd]. split; [done|]. assert (forall q, under 0 (p * 512 + i) q -> q = p * 512 + i) as Hq0.
  { unfold under. change (512 ^ Z.of_nat 0) with 1. intros q. by rewrite Z.div_1_r. }
  split.
  - eapply copying_weaken; [exact Hc|]. intros t x j Ht Hj [[-> | ->] ->]; [by left|right]. exists p. split; [done|].
    unfold under. change (512 ^ Z.of_nat 0) with 1. by rewrite Z.div_1_r.
  - intros Hok q ->%Hq0. right. replace ((p * 512 + i) / 512) with p by dlia. replace ((p * 512 + i) mod 512) with i by dlia.
    exists src, d. split; [done|]. split; [done|]. by apply Hp.
Qed.

Lemma copies_upper n : (S (S n) <= 3)%nat -> copies_table (S n) -> copies_entry (S n).
Proof.
  intros Hn IH own tabs s r T d src p i Hs Hd Hsrc Hr HT Hne Hi Hz. pose proof (so_tables _ _ _ Hs) as Htk. unfold copy_entry.
  set (e := rd s (src + 8 * i)). destruct (has e PTE_PRESENT) eqn:Ep; cbn [negb].
  2: { destruct (upper_wr own s d T (Z.of_nat (S (S n))) p i 0 Htk Hd ltac:(lia) Hi ltac:(by vm_compute)) as [U1 U2]; [by rewrite Hz..|].
    destruct (extends_spaces own tabs s own _ Hs U1 U2) as (tabs' & Hs' & _). exists own, tabs'. cbn [fst snd].
    split; [done|]. split; [eapply copying_wr; [done|apply copying_refl|done|done|by left|intros r' p' [= <- _ _] Hn'; by destruct Hn']|].
    intros _ q Hq. left. split; [by eapply (none_below own s r src n p i)|].
    eapply (none_below own _ T d n p i); [exact U1|done|done| |done]. by rewrite rd_wr, Z.eqb_refl. }
  assert (has e PTE_HUGE = false) as Eh by exact (tk_small _ _ Htk _ _ _ _ _ Hsrc (or_introl Hr) ltac:(lia) Hi Ep). rewrite Eh. fold (addr_of e).
  assert (link e = Some (addr_of e)) as Hlk by (by apply link_some).
  pose proof (link_child own s src r _ p i _ Htk Hsrc Hr ltac:(lia) Hi ltac:(lia) Hlk) as Hbelow.
  destruct (alloc_spec s (tk_alloc _ _ Htk)) as (q & c & -> & Hq & Hca). destruct Hca as [(-> & Hh)|(Hcr & Hcal & Hcz & Hh)].
  { cbn [Z.eqb]. exists own, tabs. cbn [fst snd]. split; [apply spaces_frames; [done|done|intros f; rewrite Hh; lia]|]. split; [|done].
    apply copying_same; try done. intros f. change (frames (with_frames q s)) with q. by rewrite Hh. }
  rewrite (proj2 (Z.eqb_neq c 0)) by lia. destruct (moved_entry c e Hcal ltac:(lia)) as (M1 & M2 & M3). set (v := c .| (e .& 0xFFF)) in *. clearbody v.
  assert (link v = Some c) as Hv.
  { apply link_some in Hlk as (L1 & L2 & _). apply link_some. rewrite !M2 by (unfold PTE_PRESENT, PTE_HUGE; lia). done. }
  replace (Z.of_nat (S (S n))) with (Z.of_nat (S n) + 1) in * by lia. set (l := Z.of_nat (S n)) in *.
  assert (has (rd s (d + 8 * i)) PTE_PRESENT = false) as Hdz by (by rewrite Hz).
  destruct (link_new own s d T (l + 1) p i q c v Htk Hd HT ltac:(lia) Hi Hdz Hq Hcr Hcal Hcz Hh M3 Hv) as [N1 N2].
  replace (l + 1 - 1) with l in * by lia.
  destruct (copying_new own s q c T l p i d n v Htk Hd Hi eq_refl Hcr Hcal Hcz Hq Hh) as [C1 C2].
  set (own1 := owned own c (T, l, p * 512 + i)) in *. set (s1 := wr (d + 8 * i) v (zero_page c (with_frames q s))) in *. clearbody s1.
  destruct (extends_spaces own tabs s own1 s1 Hs N1 N2) as (tabs1 & Hs1 & _). destruct (cy_rest _ _ _ _ _ _ _ C1) as [K1 _].
  assert (own1 c = Some (T, l, p * 512 + i)) as Oc by (unfold own1, owned; by rewrite Z.eqb_refl).
  destruct (IH own1 tabs1 s1 r T c (addr_of e) (p * 512 + i) Hs1 Oc (cy_own _ _ _ _ _ _ _ C1 _ _ Hbelow) ltac:(congruence) ltac:(congruence) Hne C2) as (own' & tabs' & R1 & R2 & R3).
  exists own', tabs'. split; [exact R1|]. split.
  - eapply copying_trans; [exact C1|exact R2|tauto|]. intros t x j Ht Hj [[-> ->]|[->|(p' & Hp' & Hu)]]; [by left| |].
    + rewrite (not_owned own s c Htk Hcz) in Ht. done.
    + right. exists p'. split; [|done]. pose proof (cy_own _ _ _ _ _ _ _ C1 _ _ Ht). congruence.
  - intros Hok q0 Hq0. eapply copied_after; [by apply R3|exact C1|done|]. intros t Ht [-> _]. rewrite Hd in Ht. injection Ht. lia.
Qed.

Lemma copies_loop n : (S n <= 3)%nat -> copies_entry n -> copies_table (S n).
Proof.
  intros Hn He own tabs s r T d src p Hs Hd Hsrc Hr HT Hne Hz. cbn [copy_table]. unfold ENTRIES.
  pose (Q i q := exists k, 0 <= k < i /\ under n (p * 512 + k) q).
  pose (I i s' := copy_result own s r T (Q i) (fun t j => (t = d /\ j < i) \/ leaf_in own r (Q i) t j) (s', true)).
  pose (F s' := copy_result own s r T (under (S n) p) (fun t j => t = d \/ leaf_in own r (under (S n) p) t j) (s', false)).
  assert (forall i q, i <= 512 -> Q i q -> under (S n) p q) as HQ by (intros i q Hi (k & Hk & Hu); eapply under_step; [|done]; lia).
  assert (d <> src) as Hds by (intros ->; congruence).
  pose proof (all_ok_inv I F (copy_entry n (copy_table n) d src) 512 0 s) as HI. change (Z.of_nat 512) with 512 in HI. change (0 + 512) with 512 in HI.
  destruct (all_ok (seqZ 0 512) (copy_entry n (copy_table n) d src) s) as [s' ok].
  assert (if ok then I 512 s' else F s') as Hres; [apply HI; clear HI|clear HI].
  - exists own, tabs. cbn [fst snd]. split; [done|]. split; [apply copying_refl|]. intros _ q (k & Hk & _). lia.
  - intros i s1 Hi (own1 & tabs1 & R1 & R2 & R3). cbn [fst snd] in *. specialize (R3 eq_refl). destruct (cy_rest _ _ _ _ _ _ _ R2) as [K1 _].
    assert (forall j, i <= j < 512 -> rd s1 (d + 8 * j) = 0) as Hz1.
    { intros j Hj. rewrite (cy_tables _ _ _ _ _ _ _ R2 d _ j Hd); [apply Hz; lia|lia|].
      intros [[_ ?]|(p' & Hp' & _)]; [lia|]. rewrite Hd in Hp'. injection Hp'. intros. congruence. }
    destruct (He own1 tabs1 s1 r T d src p i R1 (cy_own _ _ _ _ _ _ _ R2 _ _ Hd) (cy_own _ _ _ _ _ _ _ R2 _ _ Hsrc) ltac:(congruence) ltac:(congruence)
      Hne ltac:(lia) (Hz1 i ltac:(lia))) as (own2 & tabs2 & S1 & S2 & S3).
    destruct (copy_entry n (copy_table n) d src i s1) as [s2 ok2]. cbn [fst snd] in *.
    assert (forall t x j, own t = Some x -> leaf_in own1 r (under n (p * 512 + i)) t j -> leaf_in own r (under n (p * 512 + i)) t j) as Hold.
    { intros t x j Ht (p' & Hp' & Hu). exists p'. split; [|done]. pose proof (cy_own _ _ _ _ _ _ _ R2 _ _ Ht). congruence. }
    destruct ok2.
    + exists own2, tabs2. cbn [fst snd]. split; [done|]. split.
      * eapply copying_trans; [exact R2|exact S2|..].
        -- intros q [(k & Hk & Hu)|Hu]; [exists k; split; [lia|done]|exists i; split; [lia|done]].
        -- intros t x j Ht Hj [[[-> Hlt]|(p' & Hp' & k & Hk & Hu)]|[[-> ->]|HL]].
           ++ left. split; [done|lia].
           ++ right. exists p'. split; [done|]. exists k. split; [lia|done].
           ++ left. split; [done|lia].
           ++ right. apply (Hold _ _ _ Ht) in HL as (p' & Hp' & Hu). exists p'. split; [done|]. exists i. split; [lia|done].
      * intros _ q (k & Hk & Hu). destruct (Z.eq_dec k i) as [->|Hki].
        -- eapply copied_after; [by apply S3|exact R2|done|]. intros t Ht [[-> _]|(p' & Hp' & k & Hk2 & Hu2)].
           ++ rewrite Hd in Ht. injection Ht. intros. congruence.
           ++ rewrite Ht in Hp'. injection Hp' as <-. replace (q / 512 * 512 + q mod 512) with q in Hu2 by dlia.
              pose proof (under_disjoint n p q i k Hu Hu2). lia.
        -- eapply copied_before; [apply R3; by exists k; split; [lia|]|exact S2|apply R2|exact R1|congruence|congruence|..].
           ++ intros Hu2. apply Hki. by eapply under_disjoint.
           ++ assert (q / 512 * 512 + q mod 512 = q) as Eq by dlia. intros t Ht [[-> Hj]|(p' & Hp' & Hu2)].
              ** destruct Ht as [Ht|Ht]; pose proof (cy_own _ _ _ _ _ _ _ R2 _ _ Hd) as Hd1; rewrite Hd1 in Ht; injection Ht; [congruence|].
                 intros Ep Hl1. assert (n = 0%nat) as -> by lia. unfold under in Hu. change (512 ^ Z.of_nat 0) with 1 in Hu. rewrite Z.div_1_r in Hu. lia.
              ** apply Hki. destruct Ht as [Ht|Ht]; rewrite Ht in Hp'; injection Hp'; [intros <-; rewrite Eq in Hu2; by eapply under_disjoint|congruence].
    + exists own2, tabs2. cbn [fst snd]. split; [done|]. split; [|done]. eapply copying_trans; [exact R2|exact S2|..].
      * intros q [Hq|Hu]; [by apply (HQ i); [lia|]|]. eapply under_step; [|done]. lia.
      * intros t x j Ht Hj [[[-> Hlt]|(p' & Hp' & Hu)]|[[-> ->]|HL]]; [by left| |by left|].
        -- right. exists p'. split; [done|]. by apply (HQ i); [lia|].
        -- right. apply (Hold _ _ _ Ht) in HL as (p' & Hp' & Hu). exists p'. split; [done|]. eapply under_step; [|done]. lia.
  - destruct ok; [|exact Hres]. destruct Hres as (own1 & tabs1 & R1 & R2 & R3). cbn [fst snd] in *. exists own1, tabs1. cbn [fst snd]. split; [done|].
    assert (forall q, under (S n) p q -> Q 512 q) as HQ2.
    { intros q Hu. exists ((q / 512 ^ Z.of_nat n) mod 512). split; [dlia|]. by apply under_split. }
    split; [|intros _ q Hu; by apply R3, HQ2]. eapply copying_trans; [exact R2|apply copying_refl|..].
    + intros q [Hq|Hq]; [by apply (HQ 512)|exact Hq].
    + intros t x j Ht Hj [[[-> _]|(p' & Hp' & Hu)]|HX]; [by left|right; exists p'; split; [done|by apply (HQ 512)]|exact HX].
Qed.

Theorem copies_tables n : (1 <= n <= 3)%nat -> copies_table n.
Proof.
  intros Hn. destruct n as [|n]; [lia|]. induction n as [|n IH]; apply copies_loop; [lia|exact copies_page|lia|].
  apply copies_upper; [lia|]. apply IH. lia.
Qed.

(** ** Taking tables apart *)

Definition total {A} (l : list A) (g : A -> Z) : Z := foldr (fun x n => g x + n) 0 l.
Lemma total_app {A} (l1 l2 : list A) g : total (l1 ++ l2) g = total l1 g + total l2 g.
Proof. unfold total. induction l1 as [|x l1 IH]; cbn [foldr app]; [done|]. rewrite IH. lia. Qed.
Lemma total_cons {A} (x : A) (l : list A) g : total (x :: l) g = g x + total l g.
Proof. reflexivity. Qed.
Lemma total_nonneg {A} (l : list A) g : (forall x, 0 <= g x) -> 0 <= total l g.
Proof. intros Hg. unfold total. induction l as [|x l IH]; cbn [foldr]; [done|]. pose proof (Hg x). lia. Qed.
Lemma total_ext {A} (l : list A) g h : (forall x, x ∈ l -> g x = h x) -> total l g = total l h.
Proof.
  unfold total. induction l as [|x l IH]; cbn [foldr]; intros Hg; [done|]. rewrite IH by (intros; apply Hg; by right). by rewrite Hg by left.
Qed.
Lemma total_plus {A} (l : list A) g h : total l (fun x => g x + h x) = total l g + total l h.
Proof. unfold total. induction l as [|x l IH]; cbn [foldr]; [done|]. rewrite IH. lia. Qed.
Lemma total_omap {A B} (f : A -> option B) (l : list A) g : total (omap f l) g = total l (fun x => match f x with Some y => g y | None => 0 end).
Proof. induction l as [|x l IH]; [done|]. change (omap f (x :: l)) with (match f x with Some y => y :: omap f l | None => omap f l end). destruct (f x) as [y|] eqn:E; unfold total in *; cbn [foldr]; rewrite E, IH; lia. Qed.
Lemma total_pos {A} (l : list A) g x : (forall x, 0 <= g x) -> x ∈ l -> g x <= total l g.
Proof.
  intros Hg Hx. apply list_elem_of_split in Hx as (l1 & l2 & ->). rewrite total_app. cbn [total foldr]. fold (total l2 g).
  pose proof (total_nonneg l1 g Hg). pose proof (total_nonneg l2 g Hg). lia.
Qed.

(** A state that differs by frames given back. *)
Definition releases (s s' : vm (P := P)) (D : Z -> Z) : Prop :=
  exists p, s' = with_frames p s /\ alloc_ok p /\ forall f, held p f = held (frames s) f - D f.

Lemma with_frames_same s : with_frames (frames s) s = s.
Proof. by destruct s. Qed.
Lemma releases_refl s : alloc_ok (frames s) -> releases s s (fun _ => 0).
Proof. intros Ha. exists (frames s). split; [by destruct s|]. split; [done|]. intros f. lia. Qed.
Lemma releases_trans s1 s2 s3 D1 D2 D : releases s1 s2 D1 -> releases s2 s3 D2 -> (forall f, D f = D1 f + D2 f) -> releases s1 s3 D.
Proof.
  intros (p & -> & Hp & H1) (q & -> & Hq & H2) HD. exists q. split; [done|]. split; [done|]. intros f. rewrite H2, HD.
  change (frames (with_frames p s1)) with p. rewrite H1. lia.
Qed.
Lemma releases_ext s s' D D' : releases s s' D -> (forall f, D f = D' f) -> releases s s' D'.
Proof. intros (p & -> & Hp & H1) HD. exists p. split; [done|]. split; [done|]. intros f. by rewrite H1, HD. Qed.

Lemma release_one s c : alloc_ok (frames s) -> c mod 4096 = 0 -> 0 < c -> 0 < held (frames s) (c / 4096) ->
  releases s (give_back c s) (fun f => b2n (c =? f * 4096)).
Proof.
  intros Ha Hal Hc Hh. unfold give_back. assert (c = IDX_ADDR (c / 4096)) as Ec by (unfold IDX_ADDR, PAGE_SIZE; dlia).
  destruct (free_frame_law (frames s) (c / 4096) Ha ltac:(dlia) Hh) as [Hp Hheld]. rewrite <- Ec in Hp, Hheld.
  exists (free_frame c (frames s)). split; [done|]. split; [done|]. intros f. rewrite Hheld. unfold b2n.
  replace (c =? f * 4096) with (f =? c / 4096); [destruct (Z.eqb_spec f (c / 4096)) as [->|]; lia|].
  destruct (Z.eqb_spec f (c / 4096)), (Z.eqb_spec c (f * 4096)); try done; exfalso; dlia.
Qed.

Lemma release_loop (body : Z -> vm (P := P) -> vm (P := P)) (D : Z -> Z -> Z) (L : list Z) s :
  (forall i f, 0 <= D i f) -> alloc_ok (frames s) -> (forall f, total L (fun i => D i f) <= held (frames s) f) ->
  (forall i p, i ∈ L -> alloc_ok p -> (forall f, D i f <= held p f) -> D i 0 = 0 -> releases (with_frames p s) (body i (with_frames p s)) (D i)) ->
  total L (fun i => D i 0) = 0 ->
  releases s (foldl (fun s i => body i s) s L) (fun f => total L (fun i => D i f)).
Proof.
  intros Hnn Hp0 Hle Hb Hz. rewrite <- (with_frames_same s). set (p0 := frames s) in *. clearbody p0. revert p0 Hp0 Hle. induction L as [|i L IH]; intros p0 Hp0 Hle.
  - apply releases_refl. done.
  - cbn [total foldr foldl] in *. fold (total L (fun i => D i 0)) in Hz. pose proof (total_nonneg L (fun i => D i 0) ltac:(intros; apply Hnn)) as Hz1. pose proof (Hnn i 0) as Hz2.
    assert (forall f, D i f <= held p0 f) as Hle0.
    { intros f. specialize (Hle f). fold (total L (fun i => D i f)) in Hle. pose proof (total_nonneg L (fun i => D i f) ltac:(intros; apply Hnn)). lia. }
    pose proof (Hb i p0 ltac:(by left) Hp0 Hle0 ltac:(lia)) as Hr. destruct Hr as (p1 & E & Hp1 & H1). change (frames (with_frames p0 s)) with p0 in H1.
    rewrite E. change (with_frames p1 (with_frames p0 s)) with (with_frames p1 s).
    eapply releases_trans; [|apply (IH ltac:(intros; apply Hb; [by right|done..]) ltac:(lia) p1 Hp1)|].
    + exists p1. split; [done|]. split; [done|exact H1].
    + intros f. rewrite H1. specialize (Hle f). fold (total L (fun i => D i f)) in Hle. lia.
    + intros f. done.
Qed.

(** How often [free_table] gives back each frame. *)
Fixpoint frees (n : nat) (t : Z) (s : vm (P := P)) (f : Z) : Z :=
  match n with
  | O => 0
  | S n' => total (seqZ 0 512) (fun i =>
      match link (rd s (t + 8 * i)) with
      | None => 0
      | Some c => match n' with O => b2n (refers f (rd s (t + 8 * i))) | S _ => frees n' c s f + b2n (c =? f * 4096) end
      end)
  end.
Lemma b2n_nonneg b : 0 <= b2n b.
Proof. by destruct b. Qed.
Lemma frees_nonneg n t s f : 0 <= frees n t s f.
Proof.
  revert t. induction n as [|n IH]; intros t; [done|]. cbn [frees]. apply total_nonneg. intros i. destruct (link _) as [c|]; [|done].
  destruct n; [apply b2n_nonneg|]. pose proof (IH c). pose proof (b2n_nonneg (c =? f * 4096)). lia.
Qed.
Lemma frees_with_frames n t s p f : frees n t (with_frames p s) f = frees n t s f.
Proof.
  revert t. induction n as [|n IH]; intros t; [done|]. cbn [frees]. apply total_ext. intros i _. rewrite rd_with_frames. destruct (link _); [|done].
  destruct n; [done|]. by rewrite IH.
Qed.

Lemma link_none e : link e = None -> has e PTE_PRESENT = false \/ has e PTE_HUGE = true.
Proof. unfold link. destruct (has e PTE_PRESENT), (has e PTE_HUGE); cbn [negb andb]; auto. done. Qed.

Lemma free_table_S n t s : free_table (S n) t s = for_range 0 ENTRIES (fun i s =>
    let e := rd s (t + 8 * i) in
    if negb (has e PTE_PRESENT) then s else
    if has e PTE_HUGE then s else
    match n with
    | S _ => give_back (addr_of e) (free_table n (addr_of e) s)
    | O => if has e PTE_USER && negb (has e PTE_BORROWED) then give_back (addr_of e) s else s
    end) s.
Proof. reflexivity. Qed.
Lemma free_table_releases n t s : (forall a, is_u64 (rd s a)) -> alloc_ok (frames s) ->
  (forall f, frees n t s f <= held (frames s) f) -> frees n t s 0 = 0 ->
  releases s (free_table n t s) (frees n t s).
Proof.
  revert t s. induction n as [|n IH]; intros t s Hw Ha Hle Hz.
  - cbn [free_table frees]. by apply releases_refl.
  - pose (D i f := match link (rd s (t + 8 * i)) with None => 0
      | Some c => match n with O => b2n (refers f (rd s (t + 8 * i))) | S _ => frees n c s f + b2n (c =? f * 4096) end end).
    change (forall f, total (seqZ 0 512) (fun i => D i f) <= held (frames s) f) in Hle.
    change (total (seqZ 0 512) (fun i => D i 0) = 0) in Hz.
    assert (forall i f, 0 <= D i f) as Hnn.
    { intros i f. unfold D. destruct (link _) as [c|]; [|done]. destruct n; [apply b2n_nonneg|]. pose proof (frees_nonneg (S n) c s f). pose proof (b2n_nonneg (c =? f * 4096)). lia. }
    rewrite free_table_S. apply (release_loop _ D (seqZ 0 512) s Hnn Ha Hle); [|exact Hz].
    intros i p _ Hp Hpl Hd0. cbv beta zeta. rewrite !rd_with_frames. set (e := rd s (t + 8 * i)) in *. specialize (Hw (t + 8 * i)) as Hwe. fold e in Hwe.
    destruct (link e) as [c|] eqn:El.
    2: { eapply releases_ext; [|intros f; unfold D; fold e; rewrite El; reflexivity]. apply link_none in El as [->| ->]; cbn [negb]; [by apply releases_refl|].
      destruct (has e PTE_PRESENT); by apply releases_refl. }
    pose proof El as (E1 & E2 & E3)%link_some. rewrite E1, E2. cbn [negb]. rewrite E3.
    destruct (addr_of_aligned e Hwe) as [Hal Hrange]. rewrite E3 in Hal, Hrange.
    assert (forall f, D i f = match n with O => b2n (refers f e) | S _ => frees n c s f + b2n (c =? f * 4096) end) as HD by (intros f; unfold D; fold e; by rewrite El).
    destruct n as [|n'].
    + eapply releases_ext; [|intros f; symmetry; apply HD]. unfold refers, counted. rewrite E1, E2. cbn [negb andb].
      destruct (has e PTE_USER && negb (has e PTE_BORROWED)) eqn:Ec; cbn [andb]; [|by apply releases_refl]. rewrite E3.
      assert (refers (c / 4096) e = true) as Hr.
      { apply refers_counted; [unfold counted; rewrite E1, E2; exact Ec|]. rewrite E3. dlia. }
      rewrite HD in Hd0. pose proof (Hpl (c / 4096)) as Hpc. rewrite HD, Hr in Hpc. cbn [b2n] in Hpc. apply release_one; [done|done| |unfold frames, with_frames; lia].
      destruct (Z.eq_dec c 0) as [->|]; [|lia]. change (0 / 4096) with 0 in Hr. rewrite Hr in Hd0. done.
    + rewrite HD in Hd0. pose proof (frees_nonneg (S n') c s 0) as Hn0. pose proof (b2n_nonneg (c =? 0 * 4096)) as Hn1.
      assert (c <> 0) as Hc0 by (intros ->; rewrite Z.eqb_refl in Hd0; cbn [b2n] in Hd0; lia).
      pose proof (IH c (with_frames p s)) as Hrec. destruct Hrec as (q & Eq & Hq & Hqh).
      * intros a. rewrite rd_with_frames. apply Hw.
      * exact Hp.
      * intros f. rewrite frees_with_frames. specialize (Hpl f). rewrite HD in Hpl. pose proof (b2n_nonneg (c =? f * 4096)).
        change (frames (with_frames p s)) with p. lia.
      * rewrite frees_with_frames. lia.
      * change (frames (with_frames p s)) with p in Hqh. change (with_frames q (with_frames p s)) with (with_frames q s) in Eq. rewrite Eq.
        eapply releases_trans; [exists q; split; [reflexivity|]; split; [done|exact Hqh]| |].
        -- apply release_one; [done|done|lia|]. change (frames (with_frames q s)) with q. rewrite Hqh, frees_with_frames.
           specialize (Hpl (c / 4096)). rewrite HD in Hpl. replace (c / 4096 * 4096) with c in Hpl by dlia. rewrite Z.eqb_refl in Hpl. cbn [b2n] in Hpl. lia.
        -- intros f. rewrite HD, frees_with_frames. done.
Qed.

(** The tables a table leads to by the entries of [keep], and all of them below it. *)
Definition kids (keep : Z -> bool) (t : Z) (s : vm (P := P)) : list Z :=
  omap (fun i => if keep i then link (rd s (t + 8 * i)) else None) (seqZ 0 512).
Fixpoint tree_by (below : Z -> list Z) (n : nat) (t : Z) : list Z :=
  match n with
  | O => []
  | S n' => t :: match n' with O => [] | S _ => concat (map (tree_by below n') (below t)) end
  end.
Definition tree (n : nat) (t : Z) (s : vm (P := P)) : list Z := tree_by (fun t => kids (fun _ => true) t s) n t.
Definition forest (n : nat) (cs : list Z) (s : vm (P := P)) : list Z := concat (map (fun c => tree n c s) cs).

(** The tables of pages among those of a list. *)
Definition leaves (own : owners) (s : vm (P := P)) (l : list Z) : list Z := filter (fun t => is_leaf own (kernel_pml4 s) t) l.
Lemma leaves_app own s l1 l2 : leaves own s (l1 ++ l2) = leaves own s l1 ++ leaves own s l2.
Proof. apply list.filter_app. Qed.

Definition count_of (l : list Z) (f : Z) : Z := total l (fun c => b2n (c =? f * 4096)).

(** What a list of tables of one root at and below level [n] is worth: they are distinct,
    they are for the addresses [Q], and these are the frames given back for them. *)
Record tree_facts (own : owners) s (T : Z) (n : nat) (Q : Z -> Prop) (l : list Z) (D : Z -> Z) : Prop := {
  tf_nodup : NoDup l;
  tf_own : forall c, c ∈ l -> exists m p, own c = Some (T, Z.of_nat m, p) /\ (1 <= m <= n)%nat /\ Q (p / 512 ^ Z.of_nat (n - m));
  tf_frees : forall f, D f = count_of l f + refs (leaves own s l) s f
}.

Lemma kids_elem keep t s c : c ∈ kids keep t s <-> exists i, 0 <= i < 512 /\ keep i = true /\ link (rd s (t + 8 * i)) = Some c.
Proof.
  unfold kids. rewrite list_elem_of_omap. split.
  - intros (i & Hi%elem_of_seqZ & Hl). destruct (keep i) eqn:E; [|done]. exists i. split; [lia|done].
  - intros (i & Hi & Hk & Hl). exists i. split; [apply elem_of_seqZ; lia|]. by rewrite Hk.
Qed.
Lemma kids_nodup own s t T l p keep : tables_ok own s -> own t = Some (T, l, p) -> 2 <= l ->
  (forall i c, 0 <= i < 512 -> keep i = true -> link (rd s (t + 8 * i)) = Some c -> own c = Some (T, l - 1, p * 512 + i)) -> NoDup (kids keep t s).
Proof.
  intros Hs Ht Hl Hc. unfold kids. assert (forall L, NoDup L -> (forall i, i ∈ L -> 0 <= i < 512) ->
    NoDup (omap (fun i => if keep i then link (rd s (t + 8 * i)) else None) L)) as HL.
  2: { apply HL; [apply NoDup_seqZ|]. intros i Hi%elem_of_seqZ. lia. }
  induction L as [|i L IH]; intros Hnd Hin; [constructor|]. apply list.NoDup_cons in Hnd as [Hni Hnd].
  assert (NoDup (omap (fun i => if keep i then link (rd s (t + 8 * i)) else None) L)) as HndL by (apply IH; [done|intros; apply Hin; by right]).
  change (NoDup (match (if keep i then link (rd s (t + 8 * i)) else None) with
    Some y => y :: omap (fun i => if keep i then link (rd s (t + 8 * i)) else None) L | None => omap (fun i => if keep i then link (rd s (t + 8 * i)) else None) L end)).
  destruct (keep i) eqn:Ek; [|done]. destruct (link (rd s (t + 8 * i))) as [c|] eqn:El; [|done]. apply list.NoDup_cons. split; [|done].
  intros (j & Hj & Elj)%list_elem_of_omap. destruct (keep j) eqn:Ekj; [|done].
  pose proof (Hc i c (Hin i ltac:(by left)) Ek El) as O1. pose proof (Hc j c (Hin j ltac:(by right)) Ekj Elj) as O2.
  assert (i = j) as -> by (rewrite O1 in O2; injection O2; lia). done.
Qed.

Lemma total_cnt g n : total (seqZ 0 (Z.of_nat n)) (fun i => b2n (g i)) = cnt g n.
Proof.
  induction n as [|n IH]; [done|]. cbn [cnt]. rewrite <- IH. replace (Z.of_nat (S n)) with (Z.of_nat n + 1) by lia.
  rewrite seqZ_app, total_app by lia. rewrite Z.add_0_l, (seqZ_cons _ 1), (seqZ_nil _ (Z.pred 1)) by lia. cbn [total foldr]. unfold b2n. destruct (g (Z.of_nat n)); lia.
Qed.
Lemma frees_page t s f : frees 1 t s f = table_refs s f t.
Proof.
  cbn [frees]. unfold table_refs. rewrite <- total_cnt. apply total_ext. intros i _. set (e := rd s (t + 8 * i)).
  destruct (link e) as [c|] eqn:E; [done|]. unfold refers, counted. by apply link_none in E as [-> | ->]; rewrite ?andb_false_r.
Qed.
Lemma frees_upper n t s f : frees (S (S n)) t s f = total (kids (fun _ => true) t s) (fun c => frees (S n) c s f + b2n (c =? f * 4096)).
Proof. unfold kids. rewrite total_omap. reflexivity. Qed.

Lemma tree_by_upper below n t : tree_by below (S (S n)) t = t :: concat (map (tree_by below (S n)) (below t)).
Proof. reflexivity. Qed.
Lemma tree_upper n t s : tree (S (S n)) t s = t :: forest (S n) (kids (fun _ => true) t s) s.
Proof. unfold tree, forest. rewrite tree_by_upper. reflexivity. Qed.

Lemma forest_facts own s T n (Q : Z -> Prop) cs : tables_ok own s ->
  (forall t p, own t = Some (T, Z.of_nat n, p) -> tree_facts own s T n (fun q => q = p) (tree n t s) (fun f => frees n t s f + b2n (t =? f * 4096))) ->
  NoDup cs -> (forall c, c ∈ cs -> exists p, own c = Some (T, Z.of_nat n, p) /\ Q p) ->
  tree_facts own s T n Q (forest n cs s) (fun f => total cs (fun c => frees n c s f + b2n (c =? f * 4096))).
Proof.
  intros Hs Ht. induction cs as [|c cs IH]; intros Hnd Hc.
  - constructor; [constructor|intros c Hc2; by apply not_elem_of_nil in Hc2|done].
  - apply list.NoDup_cons in Hnd as [Hni Hnd]. destruct (Hc c ltac:(by left)) as (p & Op & Hq).
    destruct (Ht c p Op) as [A1 A2 A3]. destruct (IH Hnd ltac:(intros; apply Hc; by right)) as [B1 B2 B3].
    change (forest n (c :: cs) s) with (tree n c s ++ forest n cs s). constructor.
    + apply list.NoDup_app. split; [done|]. split; [|done]. intros x Hx Hx2. destruct (A2 x Hx) as (m & p1 & O1 & Hm & Ep).
      unfold forest in Hx2. apply list_elem_of_In, in_concat in Hx2 as (l & (c2 & <- & Hc2%list_elem_of_In)%in_map_iff & Hx2%list_elem_of_In).
      destruct (Hc c2 ltac:(by right)) as (p2 & Op2 & _). destruct (Ht c2 p2 Op2) as [_ C2 _]. destruct (C2 x Hx2) as (m2 & p3 & O2 & _ & Ep2).
      rewrite O1 in O2. injection O2 as Em <-. assert (m2 = m) as -> by lia. rewrite Ep in Ep2. subst p2.
      apply Hni. by rewrite (owner_unique own s c c2 T _ p Hs Op Op2).
    + intros x [Hx|Hx]%elem_of_app; [|by apply B2]. destruct (A2 x Hx) as (m & p1 & O1 & Hm & Ep). exists m, p1. by rewrite Ep.
    + intros f. cbn [total foldr]. fold (total cs (fun c => frees n c s f + b2n (c =? f * 4096))). rewrite B3.
      unfold count_of. rewrite total_app, leaves_app, refs_app, A3. unfold count_of. lia.
Qed.

Lemma tree_facts_of own s T n : tables_ok own s -> T <> kernel_pml4 s -> (1 <= n <= 3)%nat -> forall t p, own t = Some (T, Z.of_nat n, p) ->
  tree_facts own s T n (fun q => q = p) (tree n t s) (fun f => frees n t s f + b2n (t =? f * 4096)).
Proof.
  intros Hs HT. induction n as [|n IH]; intros Hn t p Ht; [lia|]. destruct n as [|n].
  - change (tree 1 t s) with [t]. assert (leaves own s [t] = [t]) as El.
    { assert (is_leaf own (kernel_pml4 s) t = true) as E by (apply is_leaf_true; by exists T, p). unfold leaves. rewrite filter_cons_True; [done|by rewrite E]. }
    constructor.
    + apply NoDup_singleton.
    + intros c ->%list_elem_of_singleton. exists 1%nat, p. split; [done|]. split; [lia|]. change (512 ^ Z.of_nat (1 - 1)) with 1. apply Z.div_1_r.
    + intros f. rewrite El, frees_page. unfold count_of. cbn [total foldr refs]. lia.
  - assert (forall i c, 0 <= i < 512 -> true = true -> link (rd s (t + 8 * i)) = Some c -> own c = Some (T, Z.of_nat (S (S n)) - 1, p * 512 + i)) as Hk.
    { intros i c Hi _ Hl. exact (link_child own s t T _ p i c Hs Ht HT ltac:(lia) Hi ltac:(lia) Hl). }
    pose proof (kids_nodup own s t T _ p (fun _ => true) Hs Ht ltac:(lia) Hk) as Hnd.
    destruct (forest_facts own s T (S n) (fun q => q / 512 = p) (kids (fun _ => true) t s) Hs (IH ltac:(lia)) Hnd) as [A1 A2 A3].
    { intros c (i & Hi & _ & Hl)%kids_elem. exists (p * 512 + i). split; [|dlia]. rewrite (Hk i c Hi eq_refl Hl). replace (Z.of_nat (S (S n)) - 1) with (Z.of_nat (S n)) by lia. reflexivity. }
    rewrite tree_upper. constructor.
    + apply list.NoDup_cons. split; [|done]. intros Hin. destruct (A2 t Hin) as (m & p' & O & Hm & _). rewrite Ht in O. injection O. lia.
    + intros c [->|Hc]%list.elem_of_cons.
      * exists (S (S n)), p. split; [done|]. split; [lia|]. rewrite Nat.sub_diag. change (512 ^ Z.of_nat 0) with 1. apply Z.div_1_r.
      * destruct (A2 c Hc) as (m & p' & O & Hm & E). exists m, p'. split; [done|]. split; [lia|].
        replace (S (S n) - m)%nat with (S (S n - m)) by lia. rewrite Nat2Z.inj_succ, Z.pow_succ_r, Z.mul_comm, <- Z.div_div by lia. done.
    + intros f. rewrite frees_upper, A3. unfold count_of. rewrite total_cons.
      assert (leaves own s (t :: forest (S n) (kids (fun _ => true) t s) s) = leaves own s (forest (S n) (kids (fun _ => true) t s) s)) as ->; [|lia].
      unfold leaves. rewrite filter_cons_False; [done|]. unfold is_leaf. rewrite Ht. rewrite (proj2 (Z.eqb_neq _ 1)) by lia. by intros [].
Qed.

(** A root and all that hangs from it taken away. *)
Definition without (own : owners) (T : Z) : owners := fun t =>
  match own t with Some (r, l, p) => if r =? T then None else Some (r, l, p) | None => None end.
Definition owned_by (own : owners) (T t : Z) : bool := match own t with Some (r, _, _) => r =? T | None => false end.
Definition tabs_without (own : owners) (T : Z) (tabs : list Z) : list Z := filter (fun t => negb (owned_by own T t)) tabs.

Lemma without_some own T t x : without own T t = Some x <-> own t = Some x /\ owned_by own T t = false.
Proof.
  unfold without, owned_by. destruct (own t) as [[[r l] p]|]; [|naive_solver]. destruct (r =? T); naive_solver.
Qed.
Lemma is_table_without own T f : is_table own f = is_table (without own T) f + b2n (owned_by own T (f * 4096)).
Proof. unfold is_table, without, owned_by. destruct (own (f * 4096)) as [[[r l] p]|]; [|done]. by destruct (r =? T). Qed.

Lemma refs_submseteq l1 l2 s f : l1 ⊆+ l2 -> refs l1 s f <= refs l2 s f.
Proof. intros (k & Hk)%submseteq_Permutation. rewrite (refs_perm _ _ s f Hk), refs_app. pose proof (refs_nonneg k s f). lia. Qed.
Lemma count_of_bound l f : NoDup l -> count_of l f <= b2n (bool_decide (f * 4096 ∈ l)).
Proof.
  induction l as [|c l IH]; intros Hnd; [apply b2n_nonneg|]. apply list.NoDup_cons in Hnd as [Hn Hnd]. specialize (IH Hnd).
  unfold count_of in *. rewrite total_cons. destruct (Z.eqb_spec c (f * 4096)) as [->|Hne].
  - rewrite (bool_decide_eq_false_2 _ Hn) in IH. rewrite bool_decide_eq_true_2 by by left. cbn [b2n] in *. lia.
  - cbn [b2n]. destruct (bool_decide (f * 4096 ∈ l)) eqn:E.
    + apply bool_decide_eq_true in E. rewrite bool_decide_eq_true_2 by by right. lia.
    + cbn [b2n] in *. pose proof (b2n_nonneg (bool_decide (f * 4096 ∈ c :: l))). lia.
Qed.

(** The frames given back for some of a root's tables are among those held for it. *)
Lemma owned_counts own tabs s T L f : spaces_ok own tabs s -> T <> kernel_pml4 s -> NoDup L -> (forall c, c ∈ L -> owned_by own T c = true) ->
  count_of L f + refs (leaves own s L) s f + refs (tabs_without own T tabs) s f + is_table (without own T) f <= held (frames s) f.
Proof.
  intros Hs HT Hnd Ho. pose proof (so_refs _ _ _ Hs f) as Hr. rewrite (is_table_without own T) in Hr.
  assert (count_of L f <= b2n (owned_by own T (f * 4096))) as H1.
  { pose proof (count_of_bound L f Hnd) as Hc. case_bool_decide as E; [by rewrite (Ho _ E)|]. pose proof (b2n_nonneg (owned_by own T (f * 4096))). cbn [b2n] in Hc. lia. }
  assert (leaves own s L ++ tabs_without own T tabs ⊆+ tabs) as Hsub.
  { apply NoDup_submseteq.
    - apply list.NoDup_app. split; [by apply list.NoDup_filter|]. split; [|apply list.NoDup_filter, Hs].
      intros x Hx Hx2. apply list_elem_of_filter in Hx as [_ Hx]. apply list_elem_of_filter in Hx2 as [Hx2 _]. rewrite (Ho x Hx) in Hx2. by apply Hx2.
    - intros x [Hx|Hx]%elem_of_app; apply list_elem_of_filter in Hx as [Hx Hin]; [|done].
      apply (so_tabs _ _ _ Hs). apply is_leaf_true. by apply Is_true_true. }
  pose proof (refs_submseteq _ _ s f Hsub) as H2. rewrite refs_app in H2. lia.
Qed.
Lemma refs_frame_zero own tabs s l : spaces_ok own tabs s -> (forall t, t ∈ l -> t ∈ tabs) -> refs l s 0 = 0.
Proof.
  intros Hs. induction l as [|t l IH]; intros Hl; [done|]. cbn [refs foldr]. fold (refs l s 0). rewrite IH by (intros; apply Hl; by right).
  unfold table_refs. rewrite cnt_none; [done|]. intros i Hi. destruct (refers 0 (rd s (t + 8 * i))) eqn:E; [|done].
  unfold refers in E. apply andb_true_iff in E as [Hc Ha%Z.eqb_eq]. destruct (so_pages _ _ _ Hs t i (Hl t ltac:(by left)) ltac:(lia) Hc) as [_ Hp]. lia.
Qed.

Lemma spaces_remove own tabs s s' T L D : spaces_ok own tabs s -> T <> kernel_pml4 s -> NoDup L -> (forall c, c ∈ L -> owned_by own T c = true) ->
  releases s s' D -> (forall f, D f = count_of L f + refs (leaves own s L) s f) ->
  spaces_ok (without own T) (tabs_without own T tabs) s'.
Proof.
  intros Hs HT Hnd Ho (p & -> & Hp & Hh) HD. pose proof Hs as [A1 A2 A3 A4 A5 A6 A7].
  assert (forall f, refs (tabs_without own T tabs) s f + is_table (without own T) f <= held p f) as Hle.
  { intros f. rewrite Hh, HD. pose proof (owned_counts own tabs s T L f Hs HT Hnd Ho). lia. }
  assert (forall t, t ∈ tabs_without own T tabs -> t ∈ tabs) as Hsub by (intros t [_ ?]%list_elem_of_filter; done).
  assert (forall t r l q, without own T t = Some (r, l, q) <-> own t = Some (r, l, q) /\ r <> T) as Hw.
  { intros t r l q. rewrite without_some. unfold owned_by. split; intros [E H2]; rewrite E in *; (split; [done|]); by apply Z.eqb_neq. }
  constructor.
  - destruct A1 as [B1 B2 B3 B4 B5 B6 B7 B8]. constructor; [done|exact B2|..|exact B7|].
    + intros t r l q [Ht Hr]%Hw. destruct (B3 t r l q Ht) as (C1 & C2 & _ & C3 & lr & pr & C4 & C5 & C6). do 2 (split; [done|]). split; [|split; [done|]].
      * specialize (Hle (t / 4096)). pose proof (refs_nonneg (tabs_without own T tabs) s (t / 4096)) as Hn. unfold is_table in Hle.
        replace (t / 4096 * 4096) with t in Hle by dlia. rewrite (proj2 (Hw t r l q) (conj Ht Hr)) in Hle. change (frames (with_frames p s)) with p. lia.
      * exists lr, pr. split; [|done]. by apply Hw.
    + intros t r l q i c [Ht Hr]%Hw Hl Hi Hlk. destruct (B4 t r l q i c Ht Hl Hi Hlk) as (r' & Hc & Hr'). exists r'. split; [|done].
      apply Hw. split; [done|]. destruct Hr' as [->|[_ ->]]; [done|]. intros E. by apply HT.
    + intros c r l q [Hc Hr]%Hw Hne. destruct (B5 c r l q Hc Hne) as (t & Ht & Hlk). exists t. split; [|done]. by apply Hw.
    + change (kernel_pml4 (with_frames p s)) with (kernel_pml4 s). apply Hw. split; [done|]. intros E. by apply HT.
    + intros t r l q i [Ht Hr]%Hw. exact (B8 t r l q i Ht).
  - by apply list.NoDup_filter.
  - intros t. unfold tabs_without. rewrite list_elem_of_filter, A3. split.
    + intros [Hn (r & q & Ht & Hr)]. exists r, q. split; [|done]. apply without_some. split; [done|]. by apply negb_true_iff, Is_true_true.
    + intros (r & q & [Ht Hb]%without_some & Hr). split; [by rewrite Hb|by exists r, q].
  - intros f. change (frames (with_frames p s)) with p. rewrite (refs_ext (tabs_without own T tabs) s (with_frames p s) f) by (intros; reflexivity). apply Hle.
  - intros t i Ht Hi Hc. destruct (A5 t i (Hsub t Ht) Hi Hc) as [Hn Hpos]. split; [|done]. rewrite rd_with_frames. unfold without. by rewrite Hn.
  - intros t i t2 i2 Ht Ht2. exact (A6 t i t2 i2 (Hsub t Ht) (Hsub t2 Ht2)).
  - intros t i Ht. exact (A7 t i (Hsub t Ht)).
Qed.

(** A table with all below it given back, and the frame of the table itself. *)
Lemma free_tree_releases n t s : (1 <= n)%nat -> (forall a, is_u64 (rd s a)) -> alloc_ok (frames s) -> t mod 4096 = 0 -> 0 < t ->
  (forall f, frees n t s f + b2n (t =? f * 4096) <= held (frames s) f) -> frees n t s 0 = 0 ->
  releases s (give_back t (free_table n t s)) (fun f => frees n t s f + b2n (t =? f * 4096)).
Proof.
  intros Hn Hw Ha Hal Ht Hle Hz.
  assert (forall f, frees n t s f <= held (frames s) f) as Hle2 by (intros f; specialize (Hle f); pose proof (b2n_nonneg (t =? f * 4096)); lia).
  destruct (free_table_releases n t s Hw Ha Hle2 Hz) as (p & -> & Hp & Hh).
  eapply releases_trans; [exists p; split; [reflexivity|]; split; [done|exact Hh]| |intros f; reflexivity].
  apply release_one; [done|done|done|]. change (frames (with_frames p s)) with p. rewrite Hh. specialize (Hle (t / 4096)).
  replace (t / 4096 * 4096) with t in Hle by dlia. rewrite Z.eqb_refl in Hle. cbn [b2n] in Hle. lia.
Qed.

Lemma facts_owned own s T n Q L D : tree_facts own s T n Q L D -> forall c, c ∈ L -> owned_by own T c = true.
Proof. intros [_ F _] c Hc. destruct (F c Hc) as (m & p & Ho & _). unfold owned_by. rewrite Ho. apply Z.eqb_refl. Qed.

(** Of the tables of one root none is the frame nought, nor is a page. *)
Lemma owned_zero own tabs s T L : spaces_ok own tabs s -> (forall c, c ∈ L -> owned_by own T c = true) ->
  count_of L 0 + refs (leaves own s L) s 0 = 0.
Proof.
  intros Hs Ho. rewrite (refs_frame_zero own tabs s); [|done|].
  - unfold count_of. rewrite (total_ext _ _ (fun _ => 0)).
    + clear Ho. induction L as [|c L IH]; [done|]. rewrite total_cons. exact IH.
    + intros c Hc. specialize (Ho c Hc). unfold owned_by in Ho. destruct (own c) as [[[r l] p]|] eqn:E; [|done].
      destruct (tk_table _ _ (so_tables _ _ _ Hs) _ _ _ _ E) as (_ & Hp & _). by rewrite (proj2 (Z.eqb_neq c (0 * 4096))) by lia.
  - intros t [Ht _]%list_elem_of_filter. apply (so_tabs _ _ _ Hs), is_leaf_true, Is_true_true. done.
Qed.

(** A copy cut short. *)
Lemma drop_tree own tabs s T p : spaces_ok own tabs s -> own T = Some (T, 3, p) -> T <> kernel_pml4 s ->
  let s' := give_back T (free_table 3 T s) in
  spaces_ok (without own T) (tabs_without own T tabs) s' /\ exists q, s' = with_frames q s.
Proof.
  intros Hs Ho HT. cbv zeta. pose proof (so_tables _ _ _ Hs) as Htk.
  pose proof (tree_facts_of own s T 3 Htk HT ltac:(lia) T p Ho) as Hf. pose proof (facts_owned _ _ _ _ _ _ _ Hf) as Hown. destruct Hf as [F1 _ F3].
  destruct (tk_table _ _ Htk _ _ _ _ Ho) as (Hal & Hpos & _). pose proof (owned_zero own tabs s T _ Hs Hown) as Hz. rewrite <- F3 in Hz.
  assert (releases s (give_back T (free_table 3 T s)) (fun f => frees 3 T s f + b2n (T =? f * 4096))) as Hr.
  { apply free_tree_releases; [lia|apply Htk|apply Htk|done|lia| |].
    - intros f. pose proof (owned_counts own tabs s T _ f Hs HT F1 Hown) as Hc. rewrite <- F3 in Hc.
      pose proof (refs_nonneg (tabs_without own T tabs) s f). pose proof (is_table_nonneg (without own T) f). lia.
    - pose proof (frees_nonneg 3 T s 0). pose proof (b2n_nonneg (T =? 0 * 4096)). lia. }
  split; [by eapply spaces_remove|]. destruct Hr as (q & -> & _). by exists q.
Qed.

(** The entries of a top level table that are not the kernel's. *)
Definition own_entries (r : Z) (s : vm (P := P)) (i : Z) : bool :=
  negb (has (rd s (kernel_pml4 s + 8 * i)) PTE_PRESENT && (addr_of (rd s (r + 8 * i)) =? addr_of (rd s (kernel_pml4 s + 8 * i)))).

Lemma own_entry_child own s r i c : tables_ok own s -> space own s r -> 0 <= i < 512 -> own_entries r s i = true ->
  link (rd s (r + 8 * i)) = Some c -> own c = Some (r, 3, i).
Proof.
  intros Hs [Hr Hk] Hi Hoe Hl. destruct (tk_link _ _ Hs _ _ _ _ _ _ Hr ltac:(lia) Hi Hl) as (r' & Hc & [->|[_ ->]]); [done|]. exfalso.
  pose proof (child_link own s _ _ 4 0 i c Hs (tk_kernel _ _ Hs) ltac:(lia) Hi Hc) as Hlk. apply link_some in Hlk as (K1 & _ & K3).
  apply link_some in Hl as (_ & _ & L3). unfold own_entries in Hoe. by rewrite K1, K3, L3, Z.eqb_refl in Hoe.
Qed.

(** The tables below the top level, all the space's own. *)
Lemma space_facts own s r : tables_ok own s -> space own s r ->
  tree_facts own s r 3 (fun _ => True) (forest 3 (kids (own_entries r s) r s) s)
    (fun f => total (kids (own_entries r s) r s) (fun c => frees 3 c s f + b2n (c =? f * 4096))).
Proof.
  intros Hs Hr. pose proof (fun i c => own_entry_child own s r i c Hs Hr) as Hc. pose proof Hr as [Ho Hk].
  apply forest_facts; [done|by apply tree_facts_of; [..|lia]| |].
  - apply (kids_nodup own s r r 4 0); [done|done|lia|]. intros i c Hi H1 H2. exact (Hc i c Hi H1 H2).
  - intros c (i & Hi & H1 & H2)%kids_elem. exists i. split; [|done]. by apply Hc.
Qed.

(** One top level entry, and the frames given back for it. *)
Definition free_entry (r i : Z) (s : vm (P := P)) : vm (P := P) :=
  let e := rd s (r + 8 * i) in
  let ke := rd s (kernel_pml4 s + 8 * i) in
  if negb (has e PTE_PRESENT) then s else
  if has ke PTE_PRESENT && (addr_of e =? addr_of ke) then s else give_back (addr_of e) (free_table 3 (addr_of e) s).
Definition entry_frees (r : Z) s (i f : Z) : Z :=
  match (if own_entries r s i then link (rd s (r + 8 * i)) else None) with None => 0 | Some c => frees 3 c s f + b2n (c =? f * 4096) end.
Lemma entry_frees_nonneg r s i f : 0 <= entry_frees r s i f.
Proof.
  unfold entry_frees. destruct (own_entries r s i); [|done]. destruct (link _) as [c|]; [|done].
  pose proof (frees_nonneg 3 c s f). pose proof (b2n_nonneg (c =? f * 4096)). lia.
Qed.

Lemma free_entry_releases own s r i p : tables_ok own s -> space own s r -> 0 <= i < 512 -> alloc_ok p ->
  (forall f, entry_frees r s i f <= held p f) -> entry_frees r s i 0 = 0 ->
  releases (with_frames p s) (free_entry r i (with_frames p s)) (entry_frees r s i).
Proof.
  intros Hs Hr Hi Hp Hle Hz. unfold free_entry. rewrite !rd_with_frames. change (kernel_pml4 (with_frames p s)) with (kernel_pml4 s).
  pose proof Hr as [Ho Hk]. pose proof (tk_small _ _ Hs _ _ _ _ _ Ho (or_introl Hk) ltac:(lia) Hi) as Hsmall.
  unfold entry_frees in *. set (e := rd s (r + 8 * i)) in *. destruct (has e PTE_PRESENT) eqn:Ep; cbn [negb].
  2: { eapply releases_ext; [by apply releases_refl|]. intros f. rewrite (link_absent e Ep). by destruct (own_entries r s i). }
  assert (link e = Some (addr_of e)) as Hl by (apply link_some; auto). rewrite Hl in *.
  assert (own_entries r s i = negb (has (rd s (kernel_pml4 s + 8 * i)) PTE_PRESENT && (addr_of e =? addr_of (rd s (kernel_pml4 s + 8 * i))))) as Eoe by reflexivity.
  destruct (has (rd s (kernel_pml4 s + 8 * i)) PTE_PRESENT && (addr_of e =? addr_of (rd s (kernel_pml4 s + 8 * i)))); cbn [negb] in Eoe; rewrite Eoe in *.
  { by apply releases_refl. }
  pose proof (own_entry_child own s r i _ Hs Hr Hi Eoe Hl) as Hc. destruct (tk_table _ _ Hs _ _ _ _ Hc) as (Hal & Hpos & _).
  eapply releases_ext; [apply free_tree_releases|]; [lia|intros a; rewrite rd_with_frames; apply Hs|exact Hp|done|lia|..].
  - intros f. rewrite frees_with_frames. apply Hle.
  - rewrite frees_with_frames. pose proof (frees_nonneg 3 (addr_of e) s 0). pose proof (b2n_nonneg (addr_of e =? 0 * 4096)). lia.
  - intros f. cbv beta. by rewrite frees_with_frames.
Qed.

Lemma free_directory_releases own tabs s r L : spaces_ok own tabs s -> space own s r -> NoDup L -> (forall c, c ∈ L -> owned_by own r c = true) ->
  (forall f, count_of L f + refs (leaves own s L) s f = total (seqZ 0 512) (fun i => entry_frees r s i f) + b2n (r =? f * 4096)) ->
  releases s (paging_free_directory r s) (fun f => total (seqZ 0 512) (fun i => entry_frees r s i f) + b2n (r =? f * 4096)).
Proof.
  intros Hs Hr Hnd Hown Hsum. pose proof (so_tables _ _ _ Hs) as Htk. pose proof Hr as [Ho Hk].
  destruct (tk_table _ _ Htk _ _ _ _ Ho) as (Hal & Hpos & _). unfold paging_free_directory.
  rewrite (proj2 (Z.eqb_neq r 0)), (proj2 (Z.eqb_neq r (kernel_pml4 s))) by (done || lia). cbn [orb].
  assert (forall f, total (seqZ 0 512) (fun i => entry_frees r s i f) + b2n (r =? f * 4096) <= held (frames s) f) as Hle.
  { intros f. rewrite <- Hsum. pose proof (owned_counts own tabs s r _ f Hs Hk Hnd Hown) as Hc.
    pose proof (refs_nonneg (tabs_without own r tabs) s f). pose proof (is_table_nonneg (without own r) f). lia. }
  pose proof (owned_zero own tabs s r _ Hs Hown) as Hz. rewrite Hsum in Hz. pose proof (b2n_nonneg (r =? 0 * 4096)) as Hb0.
  pose proof (total_nonneg (seqZ 0 512) (fun i => entry_frees r s i 0) ltac:(intros; apply entry_frees_nonneg)) as Ht0.
  change (for_range 0 ENTRIES _ s) with (for_range 0 512 (fun i s => free_entry r i s) s). unfold for_range. rewrite Z.sub_0_r.
  assert (releases s (foldl (fun s i => free_entry r i s) s (seqZ 0 512)) (fun f => total (seqZ 0 512) (fun i => entry_frees r s i f))) as Hloop.
  { apply release_loop; [intros; apply entry_frees_nonneg|apply Htk| | |lia].
    - intros f. specialize (Hle f). pose proof (b2n_nonneg (r =? f * 4096)). lia.
    - intros i p Hi%elem_of_seqZ Hp Hpl Hd0. apply (free_entry_releases own); done. }
  destruct Hloop as (q & -> & Hq & Hqh). eapply releases_trans; [exists q; split; [reflexivity|]; split; [done|exact Hqh]| |intros f; reflexivity].
  apply release_one; [done|done|lia|]. change (frames (with_frames q s)) with q. rewrite Hqh. specialize (Hle (r / 4096)).
  replace (r / 4096 * 4096) with r in Hle by dlia. rewrite Z.eqb_refl in Hle. cbn [b2n] in Hle. lia.
Qed.

Lemma count_of_cons c l f : count_of (c :: l) f = b2n (c =? f * 4096) + count_of l f.
Proof. reflexivity. Qed.
Lemma entry_frees_total r s f : total (seqZ 0 512) (fun i => entry_frees r s i f) =
  total (kids (own_entries r s) r s) (fun c => frees 3 c s f + b2n (c =? f * 4096)).
Proof. unfold kids. rewrite total_omap. reflexivity. Qed.

(** A space and all its tables and pages given back: nothing else is touched. *)
Lemma free_directory_spec own tabs s r : spaces_ok own tabs s -> space own s r ->
  let s' := paging_free_directory r s in
  spaces_ok (without own r) (tabs_without own r tabs) s' /\ exists q, s' = with_frames q s.
Proof.
  intros Hs Hr. cbv zeta. pose proof (so_tables _ _ _ Hs) as Htk. pose proof (space_facts own s r Htk Hr) as Hf.
  pose proof (facts_owned _ _ _ _ _ _ _ Hf) as Hown. destruct Hf as [F1 F2 F3]. pose proof Hr as [Ho Hk].
  set (L := forest 3 (kids (own_entries r s) r s) s) in *. clearbody L.
  assert (NoDup (r :: L)) as Hnd.
  { apply list.NoDup_cons. split; [|done]. intros Hin. destruct (F2 r Hin) as (m & p & E & Hm & _). rewrite Ho in E. injection E. lia. }
  assert (forall c, c ∈ r :: L -> owned_by own r c = true) as Hown2.
  { intros c [->|Hc]%list.elem_of_cons; [|by apply Hown]. unfold owned_by. rewrite Ho. apply Z.eqb_refl. }
  assert (leaves own s (r :: L) = leaves own s L) as Elv.
  { unfold leaves. rewrite filter_cons_False; [done|]. unfold is_leaf. rewrite Ho. by intros []. }
  assert (forall f, count_of (r :: L) f + refs (leaves own s (r :: L)) s f = total (seqZ 0 512) (fun i => entry_frees r s i f) + b2n (r =? f * 4096)) as Hsum.
  { intros f. rewrite Elv, count_of_cons, entry_frees_total, F3. lia. }
  pose proof (free_directory_releases own tabs s r _ Hs Hr Hnd Hown2 Hsum) as Hrel.
  split; [by eapply spaces_remove|]. destruct Hrel as (q & -> & _). by exists q.
Qed.
End Clone.
