(* ===== verification/Spaces.v ===== *)
(** Copying a whole space for fork ([paging_clone_directory] of kernel/paging.c), and what
    the operations on spaces guarantee their programs. *)
From S2P Require Import Prelude Pmm Frames Paging Fork Clone.

Section Spaces.
Context {P : Type} `{FrameAllocatorLaws P}.
Implicit Types s : vm (P := P).

(** ** A new root *)

Lemma spaces_root own tabs s s' c l p : spaces_ok own tabs s -> held (frames s) (c / 4096) = 0 -> c mod 4096 = 0 -> 2 <= l ->
  tables_ok (owned own c (c, l, p)) s' -> (forall a, page_of a <> c -> rd s' a = rd s a) ->
  (forall g, held (frames s') g = if g =? c / 4096 then 1 else held (frames s) g) -> kernel_pml4 s' = kernel_pml4 s ->
  spaces_ok (owned own c (c, l, p)) tabs s'.
Proof.
  intros Hs Hz Hal Hl Ht Hrd Hh Hk. pose proof Hs as [A1 A2 A3 A4 A5 A6 A7]. pose proof (not_owned own s c A1 Hz) as Hno.
  assert (forall t i, t ∈ tabs -> 0 <= i < 512 -> rd s' (t + 8 * i) = rd s (t + 8 * i)) as Hrt.
  { intros t i (r & q & Ho & _)%A3 Hi. apply Hrd. rewrite (owned_entry_page own s t _ i A1 Ho Hi). congruence. }
  constructor; [done|done|..].
  - intros t. rewrite A3, Hk. unfold owned. destruct (Z.eqb_spec t c) as [->|]; [|done]. rewrite Hno. split; [by intros (r & q & ? & _)|].
    intros (r & q & [= _ -> _] & _). lia.
  - intros f. rewrite (refs_ext tabs s s' f) by done. rewrite Hh. specialize (A4 f). unfold is_table, owned in *. destruct (Z.eqb_spec f (c / 4096)) as [->|Hn].
    + rewrite (refs_unheld own tabs s _ Hs Hz). destruct (_ =? _); [lia|]. destruct (own _); lia.
    + rewrite (proj2 (Z.eqb_neq (f * 4096) c)) by (intros <-; rewrite Z.div_mul in Hn; lia). lia.
  - intros t i Hin Hi. rewrite Hrt by done. intros Hc. destruct (A5 t i Hin Hi Hc) as [B1 B2]. split; [|done].
    destruct (page_held own tabs s t i Hs Hin Hi Hc) as (B3 & _). unfold owned. destruct (Z.eqb_spec (addr_of (rd s (t + 8 * i))) c) as [E|]; [|done].
    rewrite E in B3. lia.
  - intros t i t2 i2 H1 H2 R1 R2. rewrite !Hrt by done. by apply A6.
  - intros t i Hin Hi. rewrite Hrt by done. by apply A7.
Qed.

Lemma new_root own s q c l p : tables_ok own s -> 0 < c < 2 ^ 44 -> c mod 4096 = 0 -> held (frames s) (c / 4096) = 0 -> alloc_ok q ->
  (forall f, held q f = if f =? c / 4096 then 1 else held (frames s) f) -> 1 <= l <= 4 ->
  let s' := zero_page c (with_frames q s) in
  tables_ok (owned own c (c, l, p)) s' /\ (forall k, 0 <= k < 512 -> rd s' (c + 8 * k) = 0) /\ (forall a, page_of a <> c -> rd s' a = rd s a) /\
  frames s' = q /\ kernel_pml4 s' = kernel_pml4 s /\ cr3 s' = cr3 s.
Proof.
  intros Hs Hc Hal Hz Hq Hh Hl. cbv zeta. pose proof (not_owned own s c Hs Hz) as Hno.
  destruct (zeroed (with_frames q s) c Hq (tk_words _ _ Hs)) as ((F1 & F2 & F3 & _) & Fin & Fout & Fw).
  set (s1 := zero_page c (with_frames q s)) in *. clearbody s1. cbn [frames kernel_pml4 cr3 with_frames] in *.
  assert (forall b, page_of b <> c -> rd s1 b = rd s b) as Hout by (intros b Hb; rewrite Fout, rd_with_frames by done; done).
  assert (forall t x i, own t = Some x -> 0 <= i < 512 -> rd s1 (t + 8 * i) = rd s (t + 8 * i)) as Hrd.
  { intros t x i Ht Hi. apply Hout. rewrite (owned_entry_page own s t x i Hs Ht Hi). congruence. }
  split; [|done]. set (own' := owned own c (c, l, p)).
  assert (forall t x, own t = Some x -> own' t = Some x) as Hkeep.
  { intros t x Ht. unfold own', owned. destruct (Z.eqb_spec t c); congruence. }
  assert (own' c = Some (c, l, p)) as Hc' by (unfold own', owned; by rewrite Z.eqb_refl).
  assert (forall t r l0 p0, own' t = Some (r, l0, p0) -> (t = c /\ r = c /\ l0 = l /\ p0 = p) \/ own t = Some (r, l0, p0)) as Hinv.
  { intros t r l0 p0. unfold own', owned. destruct (Z.eqb_spec t c) as [->|]; [intros [= <- <- <-]; by left|by right]. }
  destruct Hs as [A1 A2 A3 A4 A5 A6 A7 A8]. constructor; rewrite ?F2; [by rewrite F1|done|..].
  - intros t r l0 p0 [(-> & -> & -> & ->)|Ht]%Hinv.
    + split; [done|]. split; [done|]. split; [rewrite F1, Hh, Z.eqb_refl; lia|]. split; [done|]. exists l, p. split; [done|]. split; [lia|done].
    + destruct (A3 _ _ _ _ Ht) as (B1 & B2 & B3 & B4 & lr & pr & B5 & B6 & B7). do 2 (split; [done|]).
      split; [rewrite F1, Hh; case_bool; lia|]. split; [done|]. exists lr, pr. split; [by apply Hkeep|done].
  - intros t r l0 p0 i d [(-> & -> & -> & ->)|Ht]%Hinv Hl0 Hi; [by rewrite Fin|]. rewrite (Hrd t _ i Ht Hi). intros Hlk.
    destruct (A4 _ _ _ _ _ _ Ht Hl0 Hi Hlk) as (r' & Hd & Hr'). exists r'. split; [by apply Hkeep|done].
  - intros d r l0 p0 [(-> & -> & -> & ->)|Ht]%Hinv Hne; [done|]. destruct (A5 _ _ _ _ Ht Hne) as (t & Ho & Hlk). exists t.
    split; [by apply Hkeep|]. rewrite (Hrd t _ _ Ho) by (apply Z.mod_pos_bound; lia). done.
  - by apply Hkeep.
  - rewrite (Hrd _ _ 1 A6) by lia. done.
  - intros t r l0 p0 i [(-> & -> & -> & ->)|Ht]%Hinv Hr Hl0 Hi; [by rewrite Fin|]. rewrite (Hrd t _ i Ht Hi). by eapply A8.
Qed.

(** ** Hanging a copied tree from the new top level table *)

(** The tables of [T] become [F]'s. *)
Definition renamed (own : owners) (T F : Z) : owners := fun t =>
  match own t with Some (r, l, p) => Some (if r =? T then F else r, l, p) | None => None end.

Lemma renamed_some own T F t r l p : renamed own T F t = Some (r, l, p) <->
  (own t = Some (T, l, p) /\ r = F) \/ (own t = Some (r, l, p) /\ r <> T).
Proof.
  unfold renamed. destruct (own t) as [[[r0 l0] p0]|]; [|naive_solver]. destruct (Z.eqb_spec r0 T) as [->|]; naive_solver.
Qed.

Lemma relink_tables own s T F i v : tables_ok own s -> space own s F -> own T = Some (T, 3, i) -> T <> kernel_pml4 s -> 0 <= i < 512 ->
  (forall c, own c <> Some (F, 3, i)) -> is_u64 v -> link v = Some T ->
  tables_ok (renamed own T F) (wr (F + 8 * i) v s).
Proof.
  intros Hs [HF HFk] HT HTk Hi Hnone Hv Hlk. pose proof Hs as [A1 A2 A3 A4 A5 A6 A7 A8]. set (s' := wr (F + 8 * i) v s).
  assert (F <> T) as HFT by (intros ->; congruence).
  assert (renamed own T F F = Some (F, 4, 0)) as HF' by (apply renamed_some; right; done).
  assert (renamed own T F T = Some (F, 3, i)) as HT' by (apply renamed_some; left; done).
  assert (forall t r l p, renamed own T F t = Some (r, l, p) -> exists r0, own t = Some (r0, l, p)) as Hold.
  { intros t r l p [[? _]|[? _]]%renamed_some; eauto. }
  assert (forall t x j, own t = Some x -> 0 <= j < 512 -> t <> F \/ j <> i -> rd s' (t + 8 * j) = rd s (t + 8 * j)) as Hrd.
  { intros t x j Ht Hj Hn. unfold s'. rewrite rd_wr. destruct (Z.eqb_spec (t + 8 * j) (F + 8 * i)) as [E|]; [|done]. exfalso.
    pose proof (owned_entry_page own s t x j Hs Ht Hj) as Hp. rewrite E, (owned_entry_page own s F _ i Hs HF Hi) in Hp. lia. }
  assert (rd s' (F + 8 * i) = v) as Hrv by (unfold s'; by rewrite rd_wr, Z.eqb_refl).
  change (kernel_pml4 s') with (kernel_pml4 s) in *.
  constructor; [exact A1| |..].
  - intros a. unfold s'. rewrite rd_wr. case_bool; [done|apply A2].
  - intros t r l p Ht. destruct (Hold _ _ _ _ Ht) as (r0 & Ht0). destruct (A3 _ _ _ _ Ht0) as (B1 & B2 & B3 & B4 & lr & pr & B5 & B6 & B7).
    do 4 (split; [done|]). apply renamed_some in Ht as [[Ht ->]|[Ht Hr]].
    + assert (T = r0) as <- by congruence. rewrite HT in B5. injection B5 as <- <-. exists 4, 0. split; [done|]. split; [lia|lia].
    + assert (r = r0) as <- by congruence. exists lr, pr. split; [|done]. apply renamed_some. by right.
  - intros t r l p j c Ht Hl Hj. destruct (Z.eq_dec t F) as [->|HtF]; [destruct (Z.eq_dec j i) as [->|Hji]|].
    + rewrite Hrv, Hlk. intros [= <-]. rewrite HF' in Ht. injection Ht as <- <- <-. exists F. rewrite HT'. split; [done|by left].
    + rewrite (Hrd F _ j HF Hj) by (by right). intros Hc. rewrite HF' in Ht. injection Ht as <- <- <-.
      destruct (A4 _ _ _ _ _ _ HF Hl Hj Hc) as (r' & Hc' & Hr'). exists r'. split; [|done]. apply renamed_some. right. split; [done|].
      destruct Hr' as [->|[_ ->]]; [done|]. intros E. by apply HTk.
    + destruct (Hold _ _ _ _ Ht) as (r0 & Ht0). rewrite (Hrd t _ j Ht0 Hj) by (by left). intros Hc.
      destruct (A4 _ _ _ _ _ _ Ht0 Hl Hj Hc) as (r' & Hc' & Hr'). apply renamed_some in Ht as [[Ht ->]|[Ht Hr]].
      * assert (T = r0) as <- by congruence. destruct (A3 _ _ _ _ Ht) as (_ & _ & _ & _ & lr & pr & B5 & B6 & _). rewrite HT in B5. injection B5 as <- <-.
        destruct Hr' as [->|[-> _]]; [|lia]. exists F. split; [apply renamed_some; by left|by left].
      * assert (r = r0) as <- by congruence. exists r'. split; [|done]. apply renamed_some. right. split; [done|].
        destruct Hr' as [->|[_ ->]]; [done|]. intros E. by apply HTk.
  - intros c r l q Hc Hne. apply renamed_some in Hc as [[Hc ->]|[Hc Hr]].
    + destruct (Z.eq_dec c T) as [->|HcT].
      * rewrite HT in Hc. injection Hc as <- <-. exists F. replace (i / 512) with 0 by dlia. replace (i mod 512) with i by dlia. rewrite Hrv. done.
      * destruct (A5 _ _ _ _ Hc HcT) as (t & Ht & Hl). exists t. split; [apply renamed_some; by left|].
        rewrite (Hrd t _ _ Ht); [done|apply Z.mod_pos_bound; lia|left; intros ->; congruence].
    + destruct (A5 _ _ _ _ Hc Hne) as (t & Ht & Hl). exists t. split; [apply renamed_some; by right|].
      rewrite (Hrd t _ _ Ht); [done|apply Z.mod_pos_bound; lia|]. destruct (Z.eq_dec t F) as [->|]; [|by left]. right. intros E.
      rewrite HF in Ht. injection Ht as <- El Eq. apply (Hnone c). rewrite Hc. do 2 f_equal; [f_equal; lia|dlia].
  - apply renamed_some. right. split; [done|]. intros E. by apply HTk.
  - change (kernel_pml4 s') with (kernel_pml4 s). rewrite (Hrd _ _ 1 A6); [done|lia|left; intros E; by apply HFk].
  - intros t r l p j Ht Hr Hl Hj. destruct (Hold _ _ _ _ Ht) as (r0 & Ht0). destruct (Z.eq_dec t F) as [->|HtF]; [destruct (Z.eq_dec j i) as [->|Hji]|].
    + rewrite Hrv. by apply link_some in Hlk as (_ & -> & _).
    + rewrite (Hrd F _ j HF Hj) by (by right). apply (A8 _ _ _ _ _ HF); [by left|lia|done].
    + rewrite (Hrd t _ j Ht0 Hj) by (by left). apply (A8 _ _ _ _ _ Ht0); [|done|done].
      apply renamed_some in Ht as [[Ht ->]|[Ht _]]; [left; congruence|]. assert (r0 = r) as -> by congruence. done.
Qed.

Lemma relink_spaces own tabs s T F i v : spaces_ok own tabs s -> space own s F -> own T = Some (T, 3, i) -> T <> kernel_pml4 s -> 0 <= i < 512 ->
  (forall c, own c <> Some (F, 3, i)) -> is_u64 v -> link v = Some T ->
  spaces_ok (renamed own T F) tabs (wr (F + 8 * i) v s).
Proof.
  intros Hs HF HT HTk Hi Hnone Hv Hlk. pose proof Hs as [A1 A2 A3 A4 A5 A6 A7]. pose proof HF as [HFo HFk].
  assert (forall t j, t ∈ tabs -> 0 <= j < 512 -> rd (wr (F + 8 * i) v s) (t + 8 * j) = rd s (t + 8 * j)) as Hrd.
  { intros t j (r & p & Ht & _)%A3 Hj. rewrite rd_wr. destruct (Z.eqb_spec (t + 8 * j) (F + 8 * i)) as [E|]; [|done]. exfalso.
    pose proof (owned_entry_page own s t _ j A1 Ht Hj) as Hp. rewrite E, (owned_entry_page own s F _ i A1 HFo Hi) in Hp. congruence. }
  assert (forall t, renamed own T F t = None <-> own t = None) as Hnn by (intros t; unfold renamed; by destruct (own t) as [[[r l] p]|]).
  constructor; [by apply relink_tables|done|..].
  - intros t. rewrite A3. change (kernel_pml4 (wr (F + 8 * i) v s)) with (kernel_pml4 s). split.
    + intros (r & p & Ht & Hr). destruct (Z.eq_dec r T) as [->|Hn]; [exists F, p|exists r, p]; (split; [apply renamed_some|done]); [by left|by right].
    + intros (r & p & [[Ht ->]|[Ht Hr]]%renamed_some & Hk); [by exists T, p|by exists r, p].
  - intros f. rewrite (refs_ext tabs s _ f) by done. change (frames (wr (F + 8 * i) v s)) with (frames s). specialize (A4 f).
    assert (is_table (renamed own T F) f = is_table own f) as ->; [|done]. unfold is_table, renamed. by destruct (own (f * 4096)) as [[[r l] p]|].
  - intros t j Ht Hj. rewrite Hrd by done. intros Hc. destruct (A5 t j Ht Hj Hc). split; [by apply Hnn|done].
  - intros t j t2 j2 H1 H2 R1 R2. rewrite !Hrd by done. by apply A6.
  - intros t j Ht Hj. rewrite Hrd by done. by apply A7.
Qed.

Lemma root_owned own s t r l p : tables_ok own s -> own t = Some (r, l, p) -> own r <> None.
Proof. intros Hs Ht. destruct (tk_table _ _ Hs _ _ _ _ Ht) as (_ & _ & _ & _ & lr & pr & E & _). congruence. Qed.

Lemma copying_renamed own own' s s1 T F Q X i v : tables_ok own s -> copying own own' s s1 T Q X -> own T = None -> own F = Some (F, 4, 0) -> 0 <= i < 512 ->
  copying own (renamed own' T F) s (wr (F + 8 * i) v s1) F Q (fun t j => X t j \/ (t = F /\ j = i)).
Proof.
  intros Hs [A1 A2 A3 A4 A5 A6 A7] HT HF Hi. 
  assert (forall t r l p, own t = Some (r, l, p) -> r <> T) as HrT by (intros t r l p Ht ->; by apply (root_owned own s t T l p Hs Ht)).
  pose proof (owned_entry_page own s F _ i Hs HF Hi) as HpF.
  assert (forall t x j, own t = Some x -> 0 <= j < 512 -> t <> F \/ j <> i -> rd (wr (F + 8 * i) v s1) (t + 8 * j) = rd s1 (t + 8 * j)) as Hrd.
  { intros t x j Ht Hj Hn. rewrite rd_wr. destruct (Z.eqb_spec (t + 8 * j) (F + 8 * i)) as [E|]; [|done]. exfalso.
    pose proof (owned_entry_page own s t x j Hs Ht Hj) as Hp. rewrite E, HpF in Hp. lia. }
  constructor.
  - intros t [[r l] p] Ht. apply renamed_some. right. split; [by apply A1|by eapply HrT].
  - intros t r l p Hn [[Ht ->]|[Ht Hr]]%renamed_some; [by destruct (A2 _ _ _ _ Hn Ht) as (_ & ?)|]. by destruct (A2 _ _ _ _ Hn Ht).
  - exact A3.
  - intros t x j Ht Hj Hn. rewrite (Hrd t x j Ht Hj); [apply (A4 t x); tauto|]. destruct (Z.eq_dec t F) as [->|]; [|by left]. right. tauto.
  - intros a Ha Hh. rewrite rd_wr. destruct (Z.eqb_spec a (F + 8 * i)) as [->|]; [congruence|by apply A5].
  - exact A6.
  - intros t r p j Ht Hr Hj. rewrite (Hrd t _ j Ht Hj); [apply (A7 t r p); [done|by eapply HrT|done]|]. left. intros ->. congruence.
Qed.
Lemma copying_root own s q c l p Q X : tables_ok own s -> held (frames s) (c / 4096) = 0 -> c mod 4096 = 0 -> alloc_ok q -> l <> 1 ->
  (forall f, held q f = if f =? c / 4096 then 1 else held (frames s) f) ->
  forall s', frames s' = q -> kernel_pml4 s' = kernel_pml4 s -> cr3 s' = cr3 s -> (forall a, page_of a <> c -> rd s' a = rd s a) ->
  copying own (owned own c (c, l, p)) s s' c Q X.
Proof.
  intros Hs Hz Hal Hq Hl Hh s' F1 F2 F3 Hout. pose proof (not_owned own s c Hs Hz) as Hno.
  assert (forall t x i, own t = Some x -> 0 <= i < 512 -> rd s' (t + 8 * i) = rd s (t + 8 * i)) as Hrd.
  { intros t x i Ht Hi. apply Hout. rewrite (owned_entry_page own s t x i Hs Ht Hi). congruence. }
  constructor; [| |done|..].
  - intros t x Ht. unfold owned. destruct (Z.eqb_spec t c); congruence.
  - intros t r l' p' Hn. unfold owned. destruct (Z.eqb_spec t c) as [->|]; [|congruence]. intros [= <- <- <-]. split; [done|]. split; [lia|done].
  - intros t x j Ht Hj _. by eapply Hrd.
  - intros a Ha Hf. apply Hout. intros E. unfold page_of in E. replace (a / 4096) with (c / 4096) in Hf by dlia. lia.
  - intros f Hf. rewrite F1, Hh. case_bool; lia.
  - intros t r p' j Ht _ Hj. left. by eapply Hrd.
Qed.

(** ** The loop of [paging_clone_directory] *)

Lemma ancestor_top own s r c q i : tables_ok own s -> own r = Some (r, 4, 0) -> own c = Some (r, 1, q / 512) -> under 3 i q -> exists a, own a = Some (r, 3, i).
Proof.
  intros Hs Hr Hc Hq. destruct (ancestor own s r 4 0 c (q / 512) 2 0 Hs Hr Hc ltac:(lia)) as (a & Ha). exists a. rewrite Ha. do 2 f_equal.
  unfold under in Hq. rewrite <- Hq. change (512 ^ Z.of_nat 3) with (512 * 512 ^ Z.of_nat 2). by rewrite <- Z.div_div by lia.
Qed.

Definition under_below (i q : Z) : Prop := exists k, 0 <= k < i /\ under 3 k q.
Definition clone_changes (own : owners) (src F i t j : Z) : Prop := (t = F /\ j < i) \/ leaf_in own src (under_below i) t j.

(** The first [i] entries done, from [own] and [s], where [F] was new. *)
Record cloning (own : owners) s (src F i : Z) (own' : owners) (tabs' : list Z) s' : Prop := {
  cl_spaces : spaces_ok own' tabs' s';
  cl_copying : copying own own' s s' F (under_below i) (clone_changes own src F i);
  cl_none : forall c j, i <= j < 512 -> own' c <> Some (F, 3, j);
  cl_copied : forall q, under_below i q -> copied_at own own' s s' src F q
}.

Lemma cloning_advance own s src F i own1 tabs1 s1 own2 tabs2 s2 : space own s src -> space own s F -> src <> F -> 0 <= i < 512 ->
  cloning own s src F i own1 tabs1 s1 -> spaces_ok own2 tabs2 s2 ->
  copying own1 own2 s1 s2 F (under 3 i) (fun t j => (t = F /\ j = i) \/ leaf_in own1 src (under 3 i) t j) ->
  (forall c j, i < j < 512 -> own2 c <> Some (F, 3, j)) -> (forall q, under 3 i q -> copied_at own1 own2 s1 s2 src F q) ->
  cloning own s src F (i + 1) own2 tabs2 s2.
Proof.
  intros Hsrc HF Hne Hi [C1 C2 C3 C4] Hs2 Hc Hnone Hcop. destruct Hsrc as [Hso Hsk], HF as [HFo HFk]. destruct (cy_rest _ _ _ _ _ _ _ C2) as [K _].
  assert (forall t x j, own t = Some x -> leaf_in own1 src (under 3 i) t j -> leaf_in own src (under 3 i) t j) as Hold.
  { intros t x j Ht (p & Hp & Hu). exists p. split; [|done]. pose proof (cy_own _ _ _ _ _ _ _ C2 _ _ Ht). congruence. }
  assert (forall q k, under 3 i q -> under 3 k q -> k = i) as Hdis by (unfold under; intros q k <- <-; done).
  constructor; [done|..].
  - eapply copying_trans; [exact C2|exact Hc|..].
    + intros q [(k & Hk & Hu)|Hu]; [exists k|exists i]; (split; [lia|done]).
    + intros t x j Ht Hj [[[-> Hlt]|(p & Hp & k & Hk & Hu)]|[[-> ->]|HL]].
      * left. split; [done|lia].
      * right. exists p. split; [done|]. exists k. split; [lia|done].
      * left. split; [done|lia].
      * right. apply (Hold _ _ _ Ht) in HL as (p & Hp & Hu). exists p. split; [done|]. exists i. split; [lia|done].
  - intros c j Hj. apply Hnone. lia.
  - intros q (k & Hk & Hu). assert (q / 512 * 512 + q mod 512 = q) as Eq by dlia. destruct (Z.eq_dec k i) as [->|Hki].
    + eapply copied_after; [by apply Hcop|exact C2|done|]. intros t Ht [[-> _]|(p & Hp & k & Hk2 & Hu2)]; [congruence|].
      rewrite Ht in Hp. injection Hp as <-. rewrite Eq in Hu2. rewrite (Hdis q k Hu Hu2) in Hk2. lia.
    + eapply copied_before; [apply C4; exists k; split; [lia|done]|exact Hc|apply C2|exact C1|congruence|congruence|..].
      * intros Hu2. apply Hki. by apply (Hdis q).
      * pose proof (cy_own _ _ _ _ _ _ _ C2 _ _ HFo) as HF1.
        intros t Ht [[-> Hj]|(p & Hp & Hu2)]; [destruct Ht; congruence|].
        destruct Ht as [Ht|Ht]; rewrite Ht in Hp; injection Hp; [intros <-; rewrite Eq in Hu2; apply Hki; by apply (Hdis q)|congruence].
Qed.

(** An entry that leads nowhere, or where the kernel's does. *)
Lemma cloning_skip own s src F i own1 tabs1 s1 tabs2 s2 : space own s src -> space own s F -> src <> F -> 0 <= i < 512 ->
  cloning own s src F i own1 tabs1 s1 -> spaces_ok own1 tabs2 s2 ->
  copying own1 own1 s1 s2 F (under 3 i) (fun t j => t = F /\ j = i) -> (forall c, own1 c <> Some (src, 3, i)) ->
  cloning own s src F (i + 1) own1 tabs2 s2.
Proof.
  intros Hsrc HF Hne Hi Hcl Hs2 Hc Hnone. pose proof Hcl as [C1 C2 C3 _].
  pose proof (cy_own _ _ _ _ _ _ _ C2 _ _ (proj1 Hsrc)) as Hs1. pose proof (cy_own _ _ _ _ _ _ _ C2 _ _ (proj1 HF)) as HF1.
  apply (cloning_advance own s src F i own1 tabs1 s1); try done.
  - eapply copying_weaken; [exact Hc|]. intros t x j Ht Hj HX. by left.
  - intros c j Hj. apply C3. lia.
  - intros q Hq. left. split; intros t Ht.
    + destruct (ancestor_top own1 s1 src t q i (so_tables _ _ _ C1) Hs1 Ht Hq) as (a & Ha). by apply (Hnone a).
    + destruct (ancestor_top own1 s1 F t q i (so_tables _ _ _ C1) HF1 Ht Hq) as (a & Ha). apply (C3 a i); [lia|done].
Qed.

(** What no fork changes of the tables and pages there were. *)
Record unharmed (own : owners) s s' : Prop := {
  uh_rest : kernel_pml4 s' = kernel_pml4 s /\ cr3 s' = cr3 s;
  uh_data : forall a, own (page_of a) = None -> 0 < held (frames s) (a / 4096) -> rd s' a = rd s a;
  uh_kept : forall t r p j, own t = Some (r, 1, p) -> 0 <= j < 512 -> kept (rd s (t + 8 * j)) (rd s' (t + 8 * j))
}.
Definition gave_up (own : owners) s (F : Z) s' : Prop :=
  exists own' tabs', spaces_ok own' tabs' s' /\ (forall t x, own' t = Some x <-> own t = Some x) /\ unharmed own s s'.

Lemma copying_unharmed own own' s s' T Q X : tables_ok own s -> own T = None -> copying own own' s s' T Q X -> unharmed own s s'.
Proof.
  intros Hs HT [A1 A2 A3 A4 A5 A6 A7]. constructor; [done|done|]. intros t r p j Ht Hj. apply (A7 t r p); [done| |done].
  intros ->. by apply (root_owned own s t T 1 p Hs Ht).
Qed.
(** Two stretches, of which the second may be for another root. *)
Lemma unharmed_trans own own' s s1 s2 T Q X : copying own own' s s1 T Q X -> unharmed own s s1 -> unharmed own' s1 s2 -> unharmed own s s2.
Proof.
  intros C [A1 A2 A3] [B1 B2 B3]. constructor.
  - destruct A1, B1. split; congruence.
  - intros a Ha Hh. rewrite B2, A2; [done..| |by apply C]. destruct (own' (page_of a)) as [[[r l] p]|] eqn:E; [|done].
    destruct (cy_new _ _ _ _ _ _ _ C _ _ _ _ Ha E) as (_ & Hz & _ & _). unfold page_of in Hz. by rewrite Z.div_mul in Hz by lia.
  - intros t r p j Ht Hj. eapply kept_trans; [by eapply A3|]. eapply B3; [by apply C|done].
Qed.
Lemma unharmed_frames own s q : unharmed own s (with_frames q s).
Proof. constructor; [done|done|]. intros t r p j _ _. by left. Qed.
Lemma unharmed_after own s s1 q : unharmed own s s1 -> unharmed own s (with_frames q s1).
Proof. intros [A1 A2 A3]. constructor; [exact A1|exact A2|exact A3]. Qed.

(** [F] and what hangs from it given back, when nothing of before hangs from it. *)
Lemma undo_clone own s F own1 tabs1 s1 : own F = None -> tables_ok own s -> (forall t x, own t = Some x -> own1 t = Some x) ->
  (forall t r l p, own t = None -> own1 t = Some (r, l, p) -> r = F) -> unharmed own s s1 -> spaces_ok own1 tabs1 s1 -> space own1 s1 F -> gave_up own s F (paging_free_directory F s1).
Proof.
  intros HF Htk Hkeep Hnew Hu Hs1 HF1. destruct (free_directory_spec own1 tabs1 s1 F Hs1 HF1) as (A & q & E). cbv zeta in A. rewrite E in *.
  eexists _, _. split; [exact A|]. split; [|by apply unharmed_after]. intros t [[r l] p]. rewrite without_some. unfold owned_by. split.
  - intros [Ht Hn]. rewrite Ht in Hn. apply Z.eqb_neq in Hn. destruct (own t) as [x|] eqn:E1; [pose proof (Hkeep _ _ E1); congruence|]. by destruct (Hnew _ _ _ _ E1 Ht).
  - intros Ht. rewrite (Hkeep _ _ Ht). split; [done|]. apply Z.eqb_neq. intros ->. by apply (root_owned own s t F l p Htk Ht).
Qed.

Lemma copying_frames own s q T Q X : tables_ok own s -> (forall f, held (frames s) f <= held q f) -> copying own own s (with_frames q s) T Q X.
Proof. intros Hs Hh. apply copying_same; try done. intros f Hf. change (frames (with_frames q s)) with q. specialize (Hh f). lia. Qed.

(** The entry's tree copied for a root [T] of its own. *)
Lemma clone_tree own1 tabs1 s1 src i b q c : spaces_ok own1 tabs1 s1 -> src <> kernel_pml4 s1 -> own1 b = Some (src, 3, i) ->
  alloc_ok q -> 0 < c < 2 ^ 44 -> c mod 4096 = 0 -> held (frames s1) (c / 4096) = 0 ->
  (forall f, held q f = if f =? c / 4096 then 1 else held (frames s1) f) ->
  let result := copy_table 3 c b (zero_page c (with_frames q s1)) in
  exists own2 tabs2, spaces_ok own2 tabs2 result.1 /\
    copying own1 own2 s1 result.1 c (under 3 i) (leaf_in own1 src (under 3 i)) /\ own2 c = Some (c, 3, i) /\ c <> kernel_pml4 s1 /\
    (result.2 = true -> forall q, under 3 i q -> copied_at own1 own2 s1 result.1 src c q).
Proof.
  intros Hs Hk Hb Hq Hc Hal Hz Hh. cbv zeta. pose proof (so_tables _ _ _ Hs) as Htk. pose proof (not_owned own1 s1 c Htk Hz) as Hno.
  destruct (new_root own1 s1 q c 3 i Htk Hc Hal Hz Hq Hh ltac:(lia)) as (R1 & R2 & R3 & R4 & R5 & R6).
  set (s2 := zero_page c (with_frames q s1)) in *. clearbody s2.
  assert (spaces_ok (owned own1 c (c, 3, i)) tabs1 s2) as Hs2 by (apply (spaces_root own1 tabs1 s1); try done; rewrite R4; exact Hh).
  pose proof (copying_root own1 s1 q c 3 i (under 3 i) (fun _ _ => False) Htk Hz Hal Hq ltac:(lia) Hh s2 R4 R5 R6 R3) as C1.
  assert (c <> kernel_pml4 s1) as Hck by (intros ->; rewrite (tk_kernel _ _ Htk) in Hno; done).
  assert (owned own1 c (c, 3, i) c = Some (c, 3, i)) as Hoc by (unfold owned; by rewrite Z.eqb_refl).
  assert (src <> c) as Hsc by (intros ->; by apply (root_owned own1 s1 b c 3 i Htk Hb)).
  destruct (copies_tables 3 ltac:(lia) (owned own1 c (c, 3, i)) tabs1 s2 src c c b i Hs2 Hoc (cy_own _ _ _ _ _ _ _ C1 _ _ Hb)
    ltac:(congruence) ltac:(congruence) Hsc R2) as (own2 & tabs2 & S1 & S2 & S3).
  exists own2, tabs2. split; [exact S1|]. split; [|split; [|split; [done|]]].
  - eapply copying_trans; [exact C1|exact S2|tauto|]. intros t x j Ht Hj [[]|[->|(p & Hp & Hu)]]; [congruence|]. exists p. split; [|done].
    pose proof (cy_own _ _ _ _ _ _ _ C1 _ _ Ht). congruence.
  - by apply S2.
  - intros Hok q0 Hq0. eapply copied_after; [by apply S3|exact C1|done|]. intros t Ht [].
Qed.

(** The copied tree linked from the new top level table. *)
Lemma clone_link own s src F i own1 tabs1 s1 own2 tabs2 s2 T v : space own s src -> space own s F -> src <> F -> 0 <= i < 512 ->
  cloning own s src F i own1 tabs1 s1 -> spaces_ok own2 tabs2 s2 -> T <> kernel_pml4 s1 -> own1 T = None ->
  copying own1 own2 s1 s2 T (under 3 i) (leaf_in own1 src (under 3 i)) -> own2 T = Some (T, 3, i) ->
  (forall q, under 3 i q -> copied_at own1 own2 s1 s2 src T q) -> is_u64 v -> link v = Some T ->
  cloning own s src F (i + 1) (renamed own2 T F) tabs2 (wr (F + 8 * i) v s2).
Proof.
  intros Hsrc HF Hne Hi Hcl Hs2 HTk HT C HT2 Hcop Hv Hlk. pose proof Hcl as [C1 C2 C3 _]. pose proof (so_tables _ _ _ C1) as Htk1.
  pose proof (cy_own _ _ _ _ _ _ _ C2 _ _ (proj1 Hsrc)) as Hs1. pose proof (cy_own _ _ _ _ _ _ _ C2 _ _ (proj1 HF)) as HF1.
  destruct (cy_rest _ _ _ _ _ _ _ C) as [K2 _]. destruct (cy_rest _ _ _ _ _ _ _ C2) as [K1 _].
  pose proof (cy_own _ _ _ _ _ _ _ C _ _ HF1) as HF2. destruct HF as [HFo HFk]. destruct Hsrc as [Hso Hsk].
  assert (F <> T) as HFT by congruence. assert (src <> T) as HsT by congruence.
  assert (forall c j, i <= j < 512 -> own2 c <> Some (F, 3, j)) as Hnone.
  { intros c j Hj Hc. destruct (own1 c) as [x|] eqn:E; [apply (C3 c j Hj); pose proof (cy_own _ _ _ _ _ _ _ C _ _ E); congruence|].
    by destruct (cy_new _ _ _ _ _ _ _ C _ _ _ _ E Hc). }
  assert (spaces_ok (renamed own2 T F) tabs2 (wr (F + 8 * i) v s2)) as Hs4.
  { apply relink_spaces; try done; [split; [done|congruence]|congruence|]. intros c. apply Hnone. lia. }
  pose proof (copying_renamed own1 own2 s1 s2 T F _ _ i v Htk1 C HT HF1 Hi) as Hcr.
  apply (cloning_advance own s src F i own1 tabs1 s1); try done.
  - eapply copying_weaken; [exact Hcr|]. intros t x j Ht Hj [HX|HX]; [by right|by left].
  - intros c j Hj [[Hc _]|[Hc _]]%renamed_some; [|by apply (Hnone c j); [lia|]].
    destruct (Z.eq_dec c T) as [->|HcT]; [rewrite HT2 in Hc; injection Hc; lia|].
    destruct (tk_parent _ _ (so_tables _ _ _ Hs2) _ _ _ _ Hc HcT) as (t & Ht & _).
    destruct (tk_table _ _ (so_tables _ _ _ Hs2) _ _ _ _ Ht) as (_ & _ & _ & _ & lr & pr & E & Hle & _). rewrite HT2 in E. injection E. lia.
  - intros q Hq. destruct (Hcop q Hq) as [[N1 N2]|(t & t' & Ht & Ht' & Hp)].
    + left. split; [done|]. intros t [[Ht _]|[Ht _]]%renamed_some; [by apply (N2 t)|].
      destruct (ancestor_top own2 s2 F t q i (so_tables _ _ _ Hs2) HF2 Ht Hq) as (a & Ha). by apply (Hnone a i); [lia|].
    + right. pose proof (Z.mod_pos_bound q 512 ltac:(lia)) as Hm. pose proof (cy_own _ _ _ _ _ _ _ C _ _ Ht) as Ht2.
      assert (forall t x j, own2 t = Some x -> x.1.2 <> 4 -> 0 <= j < 512 -> rd (wr (F + 8 * i) v s2) (t + 8 * j) = rd s2 (t + 8 * j)) as Hrd.
      { intros t0 x j Ht0 Hx Hj. rewrite rd_wr. destruct (Z.eqb_spec (t0 + 8 * j) (F + 8 * i)) as [E|]; [|done]. exfalso.
        pose proof (owned_entry_page own2 s2 t0 x j (so_tables _ _ _ Hs2) Ht0 Hj) as Hp0.
        rewrite E, (owned_entry_page own2 s2 F _ i (so_tables _ _ _ Hs2) HF2 Hi) in Hp0. subst t0. rewrite HF2 in Ht0. injection Ht0 as <-. done. }
      exists t, t'. split; [done|]. split; [apply renamed_some; by left|]. rewrite (Hrd t _ _ Ht2), (Hrd t' _ _ Ht') by done.
      apply (pair_data own2 tabs2 s2); try done.
      * apply (so_tabs _ _ _ Hs2). exists src, (q / 512). split; [done|congruence].
      * apply (so_tabs _ _ _ Hs2). exists T, (q / 512). split; [done|congruence].
      * intros a Ha _. rewrite rd_wr. destruct (Z.eqb_spec a (F + 8 * i)) as [->|]; [|done].
        rewrite (owned_entry_page own2 s2 F _ i (so_tables _ _ _ Hs2) HF2 Hi) in Ha. congruence.
Qed.

(** One entry. *)
Lemma clone_step own0 s0 own s src F i own1 tabs1 s1 : own0 F = None -> tables_ok own0 s0 -> copying own0 own s0 s F (fun _ => True) (fun _ _ => False) ->
  space own s src -> space own s F -> src <> F -> 0 <= i < 512 -> tables_ok own s ->
  (forall j, 0 <= j < 512 -> rd s (F + 8 * j) = if has (rd s (kernel_pml4 s + 8 * j)) PTE_PRESENT then rd s (kernel_pml4 s + 8 * j) else 0) ->
  cloning own s src F i own1 tabs1 s1 ->
  let (s2, ok) := clone_entry src F i s1 in
  if ok then exists own2 tabs2, cloning own s src F (i + 1) own2 tabs2 s2 else gave_up own0 s0 F s2.
Proof.
  intros HF0 Htk0 C0 Hsrc HF Hne Hi Htk Hwords Hcl. pose proof Hcl as [C1 C2 C3 _]. pose proof (so_tables _ _ _ C1) as Htk1.
  pose proof (cy_own _ _ _ _ _ _ _ C2 _ _ (proj1 Hsrc)) as Hs1. pose proof (cy_own _ _ _ _ _ _ _ C2 _ _ (proj1 HF)) as HF1.
  destruct (cy_rest _ _ _ _ _ _ _ C2) as [K1 _]. pose proof Hsrc as [Hso Hsk]. pose proof HF as [HFo HFk].
  assert (src <> kernel_pml4 s1) as Hsk1 by congruence. assert (F <> kernel_pml4 s1) as HFk1 by congruence.
  unfold clone_entry. set (e := rd s1 (src + 8 * i)). set (ke := rd s1 (kernel_pml4 s1 + 8 * i)).
  destruct (has e PTE_PRESENT) eqn:Ep; cbn [negb].
  2: { exists own1, tabs1. apply (cloning_skip own s src F i own1 tabs1 s1); try done; [apply copying_refl|]. intros c Hc.
    pose proof (child_link own1 s1 src src 4 0 i c Htk1 Hs1 ltac:(lia) Hi Hc) as Hl. fold e in Hl. by rewrite (link_absent _ Ep) in Hl. }
  assert (has e PTE_HUGE = false) as Eh by exact (tk_small _ _ Htk1 _ _ _ _ _ Hs1 (or_introl Hsk1) ltac:(lia) Hi Ep).
  assert (link e = Some (addr_of e)) as Hl by (by apply link_some). fold (addr_of e) (addr_of ke).
  destruct (has ke PTE_PRESENT && (addr_of e =? addr_of ke)) eqn:Esk.
  { apply andb_true_iff in Esk as [Ekp Eka%Z.eqb_eq].
    assert (has ke PTE_HUGE = false) as Ekh by exact (tk_small _ _ Htk1 _ _ _ _ _ (tk_kernel _ _ Htk1) (or_intror eq_refl) ltac:(lia) Hi Ekp).
    assert (link ke = Some (addr_of e)) as Hkl by (apply link_some; auto).
    assert (rd s1 (F + 8 * i) = ke) as HFi.
    { rewrite (cy_tables _ _ _ _ _ _ _ C2 F _ i HFo Hi).
      - rewrite Hwords by done. unfold ke. rewrite K1. pose proof (tk_kernel _ _ Htk) as HKo.
        rewrite (cy_tables _ _ _ _ _ _ _ C2 _ _ i HKo Hi) in *; [|intros [[E _]|(p & Hp & _)]; congruence].
        unfold ke in Ekp. rewrite K1, (cy_tables _ _ _ _ _ _ _ C2 _ _ i HKo Hi) in Ekp; [by rewrite Ekp|].
        intros [[E _]|(p & Hp & _)]; congruence.
      - intros [[_ ?]|(p & Hp & _)]; [lia|congruence]. }
    destruct (upper_wr own1 s1 F F 4 0 i e Htk1 HF1 ltac:(lia) Hi (tk_words _ _ Htk1 _)) as [U1 U2]; [by rewrite HFi, Hl, Hkl|by rewrite HFi, Ep, Ekp|].
    destruct (extends_spaces own1 tabs1 s1 own1 _ C1 U1 U2) as (tabs2 & Hs2 & _). exists own1, tabs2.
    apply (cloning_skip own s src F i own1 tabs1 s1); try done.
    - eapply copying_wr; [done|apply copying_refl|done|done|done|intros r p [= <- _ _] Hn; done].
    - intros c Hc. pose proof (child_link own1 s1 src src 4 0 i c Htk1 Hs1 ltac:(lia) Hi Hc) as Hl2. fold e in Hl2. rewrite Hl in Hl2. injection Hl2 as <-.
      destruct (tk_link _ _ Htk1 _ _ _ _ _ _ (tk_kernel _ _ Htk1) ltac:(lia) Hi Hkl) as (r' & Hr' & [E|[_ E]]); congruence. }
  assert (own_entries src s1 i = true) as Hoe by (unfold own_entries; fold e ke; by rewrite Esk).
  pose proof (own_entry_child own1 s1 src i _ Htk1 (conj Hs1 Hsk1) Hi Hoe Hl) as Hb.
  assert (forall t x, own0 t = Some x -> own1 t = Some x) as Hkeep by (intros t x Ht; by apply C2, C0).
  assert (copying own0 own1 s0 s1 F (fun _ => True) (fun _ _ => True)) as C01 by (eapply copying_trans; [exact C0|exact C2|done|done]).
  pose proof (copying_unharmed own0 own1 s0 s1 F _ _ Htk0 HF0 C01) as U01.
  assert (forall t r l p, own0 t = None -> own1 t = Some (r, l, p) -> r = F) as Hnew by (intros t r l p Hn Ht; by destruct (cy_new _ _ _ _ _ _ _ C01 _ _ _ _ Hn Ht)).
  destruct (alloc_spec s1 (tk_alloc _ _ Htk1)) as (q & c & -> & Hq & Hca). destruct Hca as [(-> & Hh)|(Hcr & Hcal & Hcz & Hh)].
  { cbn [Z.eqb]. assert (spaces_ok own1 tabs1 (with_frames q s1)) as Hq1 by (apply spaces_frames; [done|done|intros f; rewrite Hh; lia]).
    exact (undo_clone own0 s0 F own1 tabs1 _ HF0 Htk0 Hkeep Hnew (unharmed_after _ _ _ q U01) Hq1 (conj HF1 HFk1)). }
  rewrite (proj2 (Z.eqb_neq c 0)) by lia. pose proof (not_owned own1 s1 c Htk1 Hcz) as Hcno.
  destruct (clone_tree own1 tabs1 s1 src i (addr_of e) q c C1 Hsk1 Hb Hq Hcr Hcal Hcz Hh) as (own2 & tabs2 & S1 & S2 & S3 & S4 & S5).
  destruct (copy_table 3 c (addr_of e) (zero_page c (with_frames q s1))) as [s2 ok]. cbn [fst snd] in *.
  pose proof (copying_unharmed own1 own2 s1 s2 c _ _ Htk1 Hcno S2) as U12. destruct (cy_rest _ _ _ _ _ _ _ S2) as [K2 _].
  destruct ok; cbn [negb].
  - destruct (moved_entry c e Hcal ltac:(lia)) as (M1 & M2 & M3). eexists _, tabs2.
    apply (clone_link own s src F i own1 tabs1 s1 own2 tabs2 s2 c); try done; [by apply S5|].
    apply link_some. rewrite !M2 by (unfold PTE_PRESENT, PTE_HUGE; lia). done.
  - destruct (drop_tree own2 tabs2 s2 c i S1 S3 ltac:(congruence)) as (D1 & q2 & E2). rewrite E2 in *.
    apply (undo_clone own0 s0 F (without own2 c) (tabs_without own2 c tabs2)); [exact HF0|exact Htk0| | | |exact D1|].
    + intros t x Ht. apply without_some. pose proof (Hkeep t x Ht) as Ht1. split; [by apply S2|]. unfold owned_by. rewrite (cy_own _ _ _ _ _ _ _ S2 _ _ Ht1).
      destruct x as [[r l] p]. apply Z.eqb_neq. intros ->. by apply (root_owned own1 s1 t c l p Htk1 Ht1).
    + intros t r l p Hn [Ht Hbo]%without_some. unfold owned_by in Hbo. rewrite Ht in Hbo. apply Z.eqb_neq in Hbo. destruct (own1 t) as [x|] eqn:E.
      * apply (Hnew t r l p Hn). rewrite (cy_own _ _ _ _ _ _ _ S2 _ _ E) in Ht. congruence.
      * by destruct (cy_new _ _ _ _ _ _ _ S2 _ _ _ _ E Ht).
    + apply unharmed_after. eapply unharmed_trans; [exact C01|exact U01|exact U12].
    + split; [|change (kernel_pml4 (with_frames q2 s2)) with (kernel_pml4 s2); congruence]. apply without_some. split; [by apply S2|].
      unfold owned_by. rewrite (cy_own _ _ _ _ _ _ _ S2 _ _ HF1). apply Z.eqb_neq. intros ->. congruence.
Qed.

(** Fork's copy of a space: there is none, or it has the pages the space has. *)
Lemma clone_directory_spec own tabs s src : spaces_ok own tabs s -> space own s src ->
  let (s', F) := paging_clone_directory src s in
  exists own' tabs', spaces_ok own' tabs' s' /\ (forall t x, own t = Some x -> own' t = Some x) /\ unharmed own s s' /\
    (forall t r l p, own t = None -> own' t = Some (r, l, p) -> F <> 0 /\ r = F) /\
    (F <> 0 -> own F = None /\ space own' s' F /\
      (forall t x, own t = Some x -> x.1.1 <> F) /\
      forall q, 0 <= q < 2 ^ 36 -> copied_at own own' s s' src F q).
Proof.
  intros Hs Hsrc. pose proof (so_tables _ _ _ Hs) as Htk. pose proof Hsrc as [Hso Hsk]. destruct (tk_table _ _ Htk _ _ _ _ Hso) as (_ & Hspos & _).
  unfold paging_clone_directory. rewrite (proj2 (Z.eqb_neq src 0)) by lia.
  destruct (new_directory_spec own s Htk) as (s1 & F & -> & [(-> & T1 & E1)|(Hno & Hal & Hr & Hz & T1 & Hk1 & Hout & Hh & Hw & K1 & R1)]).
  { cbn [Z.eqb]. destruct (extends_spaces own tabs s own s1 Hs T1 E1) as (tabs' & Hs1 & _). exists own, tabs'. split; [done|]. split; [done|]. split; [|split; [intros; congruence|done]].
    constructor; [by destruct (ex_rest _ _ _ _ E1) as (? & ? & _)|by apply E1|]. intros t r p j Ht Hj. left. by apply (ex_leaf _ _ _ _ E1 t r p). }
  rewrite (proj2 (Z.eqb_neq F 0)) by lia. set (own1 := owned own F (F, 4, 0)) in *.
  assert (spaces_ok own1 tabs s1) as Hs1 by (apply (spaces_root own tabs s); try done; lia).
  assert (copying own own1 s s1 F (fun _ => True) (fun _ _ => False)) as C0.
  { apply (copying_root own s (frames s1) F 4 0); try done; apply T1. }
  assert (own1 F = Some (F, 4, 0)) as HF by (unfold own1, owned; by rewrite Z.eqb_refl).
  pose proof (cy_own _ _ _ _ _ _ _ C0 _ _ Hso) as Hso1. assert (src <> F) as HsF by congruence.
  assert (forall j, 0 <= j < 512 -> rd s1 (F + 8 * j) = if has (rd s1 (kernel_pml4 s1 + 8 * j)) PTE_PRESENT then rd s1 (kernel_pml4 s1 + 8 * j) else 0) as Hw1.
  { intros j Hj. rewrite Hw, K1 by done. rewrite (cy_tables _ _ _ _ _ _ _ C0 _ _ j (tk_kernel _ _ Htk) Hj) by auto. done. }
  assert (cloning own1 s1 src F 0 own1 tabs s1) as Hcl0.
  { constructor; [done|apply copying_refl| |intros q (k & Hk & _); lia]. intros c j Hj Hc. unfold own1, owned in Hc. destruct (Z.eqb_spec c F) as [->|].
    - injection Hc. lia.
    - apply (root_owned own s c F 3 j Htk Hc Hno). }
  pose proof (all_ok_inv (fun i s' => exists own' tabs', cloning own1 s1 src F i own' tabs' s') (gave_up own s F) (clone_entry src F) 512 0 s1) as HI.
  change (Z.of_nat 512) with 512 in HI. change (0 + 512) with 512 in HI. unfold ENTRIES.
  destruct (all_ok (seqZ 0 512) (clone_entry src F) s1) as [s2 ok]. cbv zeta.
  assert (if ok then exists own' tabs', cloning own1 s1 src F 512 own' tabs' s2 else gave_up own s F s2) as Hres; [apply HI; clear HI|clear HI].
  - by exists own1, tabs.
  - intros i s3 Hi (own3 & tabs3 & Hcl). apply (clone_step own s own1 s1 src F i own3 tabs3); try done; (split; [done|congruence]).
  - destruct ok.
    + destruct Hres as (own2 & tabs2 & [L1 L2 L3 L4]). destruct (cy_rest _ _ _ _ _ _ _ L2) as [K2 _]. exists own2, tabs2. split; [done|].
      assert (copying own own2 s s2 F (fun _ => True) (fun _ _ => True)) as C by (eapply copying_trans; [exact C0|exact L2|done|done]).
      split; [apply C|]. split; [by eapply copying_unharmed|].
      split; [intros t r l p Hn Ht; split; [lia|]; by destruct (cy_new _ _ _ _ _ _ _ C _ _ _ _ Hn Ht)|]. intros _. split; [done|]. split; [split; [by apply L2|congruence]|].
      split.
      * intros t [[r l] p] Ht. cbn. intros ->. by apply (root_owned own s t F l p Htk Ht).
      * intros q Hq. assert (under_below 512 q) as Hu by (exists (q / 512 ^ 3); split; [dlia|done]).
        eapply copied_after; [by apply L4|exact C0|done|]. intros t Ht [].
    + destruct Hres as (own2 & tabs2 & G1 & G2 & G3). exists own2, tabs2. split; [done|]. split; [intros t x; apply G2|]. split; [done|]. split; [|done].
      intros t r l p Hn Ht. apply G2 in Ht. congruence.
Qed.
End Spaces.
