(* ===== verification/User.v ===== *)
(** The memory of programs (kernel/user.c): the pages they are given, the heap they grow,
    the ranges they ask for and are given when they touch them, and the stack they start
    on. *)
From S2P Require Import Prelude Pmm Frames Paging.

Definition USER_SPACE_BASE : Z := 0x0000008000000000.
Definition USER_STACK_TOP : Z := USER_SPACE_BASE + 0x50000000.
Definition USER_STACK_MAX : Z := 8 * 1024 * 1024.
Definition USER_STACK_PAGES : Z := 16.
Definition USER_ARGV_MAX : Z := 64.
Definition USER_HEAP_BASE : Z := USER_SPACE_BASE + 0x10000000.
Definition USER_HEAP_MAX : Z := USER_SPACE_BASE + 0x38000000.
Definition USER_MMAP_BASE : Z := USER_SPACE_BASE + 0x38000000.
Definition USER_MMAP_MAX : Z := USER_SPACE_BASE + 0x40000000.
Definition USER_CODE_BASE : Z := USER_SPACE_BASE + 0x40000000.
Definition VMA_MAX : Z := 16.
Definition PROT_WRITE : Z := 2.

(** A range a program asked for; free when its base is 0. *)
Record vma_t := Vma { base : Z; len : Z; prot_of : Z }.
Definition no_vma : vma_t := Vma 0 0 0.

(** What a task keeps of its memory. *)
Record task_t := Task {
  dir : Z; brk : Z; brk_base : Z; vma : list vma_t; nvma : Z; zero_lo : Z; zero_hi : Z }.

Definition with_brk (b base : Z) (t : task_t) : task_t := Task (dir t) b base (vma t) (nvma t) (zero_lo t) (zero_hi t).
Definition with_vma (v : list vma_t) (n : Z) (t : task_t) : task_t := Task (dir t) (brk t) (brk_base t) v n (zero_lo t) (zero_hi t).

(** Rounding to pages, in 64 bits. *)
Definition page_down (x : Z) : Z := x .& u64 (Z.lnot (PAGE_SIZE - 1)).
Definition page_up (x : Z) : Z := page_down (u64 (x + PAGE_SIZE - 1)).

(** The pages of [lo, hi). *)
Definition pages_between (lo hi : Z) : list Z := (fun i => lo + i * PAGE_SIZE) <$> seqZ 0 ((hi - lo + PAGE_SIZE - 1) / PAGE_SIZE).

Definition set_vma (i : Z) (v : vma_t) (t : task_t) : task_t := with_vma (setz (vma t) i v) (nvma t) t.
Definition vma_at (t : task_t) (i : Z) : vma_t := getz no_vma (vma t) i.

(** The first index below [nvma] a test holds for. *)
Definition first_vma (test : vma_t -> bool) (t : task_t) : option Z := find (fun i => test (vma_at t i)) (seqZ 0 (nvma t)).

Definition vma_holding (t : task_t) (addr : Z) : option vma_t :=
  vma_at t <$> first_vma (fun v => negb (base v =? 0) && (base v <=? addr) && (addr <? u64 (base v + len v))) t.
Definition vma_clear (t : task_t) (at_ n : Z) : bool :=
  forallb (fun i => let v := vma_at t i in
    (base v =? 0) || negb ((at_ <? u64 (base v + len v)) && (base v <? u64 (at_ + n)))) (seqZ 0 (nvma t)).

(** The lowest place for [n] bytes from [at_] on, a page at a time. *)
Fixpoint first_place (fuel : nat) (at_ n : Z) (t : task_t) : option Z :=
  match fuel with
  | O => None
  | S fuel =>
      if USER_MMAP_MAX <? u64 (at_ + n) then None else
      if vma_clear t at_ n then Some at_ else first_place fuel (u64 (at_ + PAGE_SIZE)) n t
  end.
Definition PLACES : nat := Z.to_nat ((USER_MMAP_MAX - USER_MMAP_BASE) / PAGE_SIZE + 2).

(** The range put down for [n] bytes, and its start; 0 for none. *)
Definition user_mmap (n prot : Z) (t : task_t) : task_t * Z :=
  if (dir t =? 0) || (n =? 0) then (t, 0) else
  let n := page_up n in
  if USER_MMAP_MAX - USER_MMAP_BASE <? n then (t, 0) else
  let '(t, slot) :=
    match first_vma (fun v => base v =? 0) t with
    | Some i => (t, Some i)
    | None => if nvma t <? VMA_MAX then (with_vma (vma t) (nvma t + 1) t, Some (nvma t)) else (t, None)
    end in
  match slot with
  | None => (t, 0)
  | Some slot =>
      match first_place PLACES USER_MMAP_BASE n t with
      | Some at_ => (set_vma slot (Vma at_ n (u32 prot)) t, at_)
      | None => let v := vma_at t slot in (set_vma slot (Vma 0 (len v) (prot_of v)) t, 0)
      end
  end.

Definition user_drop_mappings (t : task_t) : task_t := with_vma (replicate (Z.to_nat VMA_MAX) no_vma) 0 t.

Section User.
Context {P : Type} `{FrameAllocator P}.
Notation vm := (vm (P := P)).

(** A byte of memory, in the word it lies in. *)
Definition rd8 (s : vm) (a : Z) : Z := (rd s (a / 8 * 8) .>> (8 * (a mod 8))) .& 0xFF.
Definition wr8 (a b : Z) (s : vm) : vm :=
  let w := a / 8 * 8 in let k := 8 * (a mod 8) in wr w ((rd s w .& Z.lnot (0xFF .<< k)) .| (b .<< k)) s.
(** [memcpy] into memory of bytes from elsewhere. *)
Fixpoint wr_bytes (a : Z) (l : list Z) (s : vm) : vm :=
  match l with [] => s | b :: l => wr_bytes (a + 1) l (wr8 a b s) end.

(** A fresh, zeroed page at an address of a space; 0 for none. *)
Definition give_page (dir virt flags : Z) (s : vm) : vm * Z :=
  let (s, frame) := alloc s in
  if frame =? 0 then (s, 0) else
  let s := zero_page frame s in
  let (s, ok) := map_page_in dir virt frame flags s in
  if negb ok then (give_back frame s, 0) else (s, frame).
Definition alloc_user_page (dir virt : Z) (s : vm) : vm * Z := give_page dir virt (PTE_PRESENT .| PTE_RW .| PTE_USER) s.

(** The words [argv[argc-1] .. argv[0]] put down from the offset [at_] of the page, and
    where each is; [None] when one does not fit. *)
Fixpoint put_words (words : list (list Z)) (page at_ : Z) (s : vm) : vm * option (Z * list Z) :=
  match words with
  | [] => (s, Some (at_, []))
  | w :: words =>
      match put_words words page at_ s with
      | (s, None) => (s, None)
      | (s, Some (at_, ptrs)) =>
          let n := zlen w + 1 in
          if at_ <? n then (s, None) else
          let at_ := at_ - n in
          (wr_bytes (page + at_) (w ++ [0]) s, Some (at_, (USER_STACK_TOP - (PAGE_SIZE - at_)) :: ptrs))
      end
  end.

(** [argv] as the words it points to, a null pointer among them or for it all being the
    empty word. *)
Definition word_of (argv : option (list (option (list Z)))) (i : Z) : list Z :=
  match argv with Some l => default [] (getz None l i) | None => [] end.

(** The pages of the stack, and the frame of the first. *)
Definition stack_pages (dir : Z) (s : vm) : vm * Z * bool :=
  foldl (fun '(s, top, ok) i =>
    if negb ok then (s, top, ok) else
    let (s, f) := alloc_user_page dir (USER_STACK_TOP - i * PAGE_SIZE) s in
    if f =? 0 then (s, top, false) else (s, if i =? 1 then f else top, true)) (s, 0, true) (seqZ 1 USER_STACK_PAGES).

Definition user_build_stack (dir argc : Z) (argv : option (list (option (list Z)))) (s : vm) : vm * option Z :=
  let '(s, top, ok) := stack_pages dir s in
  if negb ok then (s, None) else
  let argc := if argc <? 0 then 0 else argc in
  if USER_ARGV_MAX <? argc then (s, None) else
  match put_words (word_of argv <$> seqZ 0 argc) top PAGE_SIZE s with
  | (s, None) => (s, None)
  | (s, Some (at_, ptr)) =>
      let need := (argc + 3) * 8 in
      if at_ <? need then (s, None) else
      let at_ := (at_ - need) .& u64 (Z.lnot 15) in
      let block := top + at_ in
      let s := wr block argc s in
      let s := for_range 0 argc (fun i s => wr (block + 8 * (1 + i)) ptr.[i] s) s in
      let s := wr (block + 8 * (1 + argc)) 0 s in
      let s := wr (block + 8 * (2 + argc)) 0 s in
      (s, Some (USER_STACK_TOP - (PAGE_SIZE - at_)))
  end.

Definition load_flat (dir base : Z) (data : list Z) (s : vm) : vm * bool :=
  all_ok (pages_between 0 (zlen data)) (fun done s =>
    let (s, frame) := alloc_user_page dir (u64 (base + done)) s in
    if frame =? 0 then (s, false)
    else (wr_bytes frame (take (Z.to_nat PAGE_SIZE) (drop (Z.to_nat done) data)) s, true)) s.

(** The heap's end moved by [delta], a signed 64 bit number: where it was, 0 on failure. *)
Definition user_sbrk (delta : Z) (t : task_t) (s : vm) : vm * task_t * Z :=
  if dir t =? 0 then (s, t, 0) else
  let t := if brk_base t =? 0 then with_brk USER_HEAP_BASE USER_HEAP_BASE t else t in
  let was := brk t in
  if delta =? 0 then (s, t, was) else
  if delta <? 0 then
    let back := u64 (- delta) in
    (s, with_brk (if u64 (brk t - brk_base t) <? back then brk_base t else brk t - back) (brk_base t) t, was)
  else
  let want := u64 (was + delta) in
  if want <? was then (s, t, 0) else
  if USER_HEAP_MAX <? want then (s, t, 0) else
  let (s, ok) := all_ok (pages_between (page_up was) (page_up want)) (fun va s =>
    let (s, f) := alloc_user_page (dir t) va s in (s, negb (f =? 0))) s in
  if negb ok then (s, t, 0) else (s, with_brk want (brk_base t) t, was).

(** One page of a range given back, when there is one. *)
Definition unmap_one (dir a : Z) (s : vm) : vm :=
  let phys := virt_to_phys_in dir a s in
  if phys =? 0 then s else give_back phys (unmap_page_in dir a s).
Definition user_munmap (at_ n : Z) (t : task_t) (s : vm) : vm * task_t * bool :=
  if (dir t =? 0) || (n =? 0) then (s, t, false) else
  let n := page_up n in
  let at_ := page_down at_ in
  match first_vma (fun v => (base v =? at_) && (len v =? n)) t with
  | None => (s, t, false)
  | Some i =>
      let s := foldl (fun s a => unmap_one (dir t) a s) s (pages_between at_ (u64 (at_ + n))) in
      (s, set_vma i (Vma 0 0 (prot_of (vma_at t i))) t, true)
  end.

(** A page for an address the program reached for, if the address is its own. *)
Definition user_fault_fill (addr err : Z) (t : task_t) (s : vm) : vm * bool :=
  if has err 1 then (s, false) else
  if dir t =? 0 then (s, false) else
  let page := page_down addr in
  if ((addr <? USER_STACK_TOP) && (USER_STACK_TOP - USER_STACK_MAX <=? addr)) || ((zero_lo t <=? addr) && (addr <? zero_hi t)) then
    if negb (virt_to_phys_in (dir t) page s =? 0) then (s, true) else
    let (s, frame) := give_page (dir t) page (PTE_PRESENT .| PTE_RW .| PTE_USER) s in (s, negb (frame =? 0))
  else
  match vma_holding t addr with
  | None => (s, false)
  | Some v =>
      if has err 2 && negb (has (prot_of v) PROT_WRITE) then (s, false) else
      if negb (virt_to_phys_in (dir t) page s =? 0) then (s, true) else
      let flags := PTE_PRESENT .| PTE_USER .| (if has (prot_of v) PROT_WRITE then PTE_RW else 0) in
      let (s, frame) := give_page (dir t) page flags s in (s, negb (frame =? 0))
  end.
End User.
