(* ===== verification/Programs.v ===== *)
(** The memory each program has to itself: the processor's loads and stores with the page
    fault path of kernel/idt.c over the spaces of [Paging], and the calls that make, copy,
    fill and end spaces, as a refinement of programs with private memories. *)
From S2P Require Import Prelude Pmm Frames Paging Fork Clone Spaces User.

Section Programs.
Context {P : Type} `{FrameAllocatorLaws P}.
Notation vm := (vm (P := P)).
Implicit Types s : vm.

(** ** The processor *)

Definition cpu_load (r a : Z) (s : vm) : option Z :=
  let e := page_entry r a s in
  if has e PTE_PRESENT && has e PTE_USER then Some (rd s (virt_to_phys_in r a s)) else None.
Definition cpu_store (r a v : Z) (s : vm) : option vm :=
  let e := page_entry r a s in
  if has e PTE_PRESENT && has e PTE_USER && has e PTE_RW then Some (wr (virt_to_phys_in r a s) v s) else None.

(** The handling of interrupt 14 for a program: [err] has bit 0 for a page that is there,
    bit 1 for a write, bit 2 for user mode. *)
Definition page_fault (a err : Z) (t : task_t) (s : vm) : vm * bool :=
  let (s, ok) := if err .& 3 =? 3 then paging_resolve_cow (dir t) a s else (s, false) in
  if ok then (s, true) else user_fault_fill a err t s.

Definition error_code (r a write : Z) (s : vm) : Z := 4 + write + (if has (page_entry r a s) PTE_PRESENT then 1 else 0).
(** An instruction of the program of a task, restarted once its fault is handled; [None]:
    the program is ended. *)
Definition user_load (t : task_t) (a : Z) (s : vm) : vm * option Z :=
  match cpu_load (dir t) a s with
  | Some w => (s, Some w)
  | None => let (s, ok) := page_fault a (error_code (dir t) a 0 s) t s in (s, if ok then cpu_load (dir t) a s else None)
  end.
Definition user_store (t : task_t) (a v : Z) (s : vm) : vm * bool :=
  match cpu_store (dir t) a v s with
  | Some s => (s, true)
  | None =>
      let (s, ok) := page_fault a (error_code (dir t) a 2 s) t s in
      if ok then match cpu_store (dir t) a v s with Some s => (s, true) | None => (s, false) end else (s, false)
  end.

(** ** What a program sees *)

Definition word_at (a : Z) : Prop := user_virt a /\ a mod 8 = 0.
Definition user_word (r a : Z) (s : vm) : option Z :=
  let e := page_entry r a s in if counted e then Some (rd s (addr_of e + a mod 4096)) else None.
Definition writable (e : Z) : bool := has e PTE_RW || has e PTE_COW.

(** The word [w] at [a], in a page known to be writable when [b]; the space has no page that
    is not its own. *)
Record sees (r a : Z) (w : option Z) (b : bool) (s : vm) : Prop := {
  se_word : user_word r a s = w;
  se_writable : b = true -> counted (page_entry r a s) = true /\ writable (page_entry r a s) = true;
  se_plain : has (page_entry r a s) PTE_PRESENT = true -> counted (page_entry r a s) = true
}.

Lemma word_slot a : a mod 8 = 0 -> exists k, 0 <= k < 512 /\ a mod 4096 = 8 * k.
Proof. intros Ha. exists (a mod 4096 / 8). dlia. Qed.

Lemma entry_counted own tabs s r a : spaces_ok own tabs s -> space own s r -> user_virt a -> counted (page_entry r a s) = true ->
  exists t, own t = Some (r, 1, pfx a 1) /\ t ∈ tabs /\ page_entry r a s = rd s (t + 8 * index_of a 1).
Proof. intros Hs Hr Ha Hc. apply page_pos; try done. by apply counted_present. Qed.

(** What is left when an entry is kept and the pages' words are. *)
Lemma sees_kept own tabs s s' r a w b : spaces_ok own tabs s -> space own s r -> word_at a ->
  kept (page_entry r a s) (page_entry r a s') ->
  (forall x, own (page_of x) = None -> 0 < held (frames s) (x / 4096) -> rd s' x = rd s x) ->
  sees r a w b s -> sees r a w b s'.
Proof.
  intros Hs Hr [Ha Ha8] Hk Hd [S1 S2 S3]. destruct (word_slot a Ha8) as (k & Hk8 & Ek).
  assert (counted (page_entry r a s) = true -> rd s' (addr_of (page_entry r a s) + a mod 4096) = rd s (addr_of (page_entry r a s) + a mod 4096)) as Hw.
  { intros Hc. destruct (entry_counted own tabs s r a Hs Hr Ha Hc) as (t & Ht & Hin & E). rewrite E in *. rewrite Ek.
    destruct (page_words own tabs s t (index_of a 1) k Hs Hin (index_of_range a 1) Hc Hk8). by apply Hd. }
  unfold user_word in S1. destruct Hk as [E|(C & C' & E & HW)].
  - constructor; unfold user_word; rewrite E; [|done|done]. rewrite <- S1. destruct (counted _); [by rewrite Hw|done].
  - constructor; unfold user_word; rewrite C'; [|split; [done|]|done].
    + rewrite E, Hw by done. by rewrite C in S1.
    + apply HW. by apply S2.
Qed.

(** ** The effect of each operation on entries and words *)

(** The tables as they were, and no frame held less. *)
Lemma spaces_same own tabs s s' : spaces_ok own tabs s -> same_tables own s s' -> (forall f, held (frames s) f <= held (frames s') f) -> spaces_ok own tabs s'.
Proof.
  intros Hs Hsame Hh. pose proof Hsame as (B1 & B2 & B3 & B4). pose proof Hs as [A1 A2 A3 A4 A5 A6 A7].
  assert (forall t i, t ∈ tabs -> 0 <= i < 512 -> rd s' (t + 8 * i) = rd s (t + 8 * i)) as Hrt.
  { intros t i (r & p & Ht & _)%A3 Hi. by eapply B4. }
  constructor; [|done|..].
  - apply (same_tables_ok own tabs s s' Hs Hsame). intros t [[r l] p] Ht. destruct (tk_table _ _ A1 _ _ _ _ Ht) as (_ & _ & Hp & _). specialize (Hh (t / 4096)). lia.
  - intros t. rewrite B1. apply A3.
  - intros f. rewrite (refs_ext tabs s s' f) by exact Hrt. specialize (Hh f). specialize (A4 f). lia.
  - intros t i Ht Hi. rewrite Hrt by done. by apply A5.
  - intros t i t2 i2 H1 H2 R1 R2. rewrite !Hrt by done. by apply A6.
  - intros t i Ht Hi. rewrite Hrt by done. by apply A7.
Qed.

(** A free frame zeroed, as a page not yet mapped. *)
Lemma fresh_page own tabs s q c : spaces_ok own tabs s -> alloc_ok q -> 0 < c < 2 ^ 44 -> c mod 4096 = 0 -> held (frames s) (c / 4096) = 0 ->
  (forall f, held q f = if f =? c / 4096 then 1 else held (frames s) f) ->
  let s1 := zero_page c (with_frames q s) in
  spaces_ok own tabs s1 /\ (forall k, 0 <= k < 512 -> rd s1 (c + 8 * k) = 0) /\ (forall x, page_of x <> c -> rd s1 x = rd s x) /\
  frames s1 = q /\ kernel_pml4 s1 = kernel_pml4 s /\ cr3 s1 = cr3 s.
Proof.
  intros Hs Hq Hc Hal Hz Hh. cbv zeta. pose proof (so_tables _ _ _ Hs) as Htk. pose proof (not_owned own s c Htk Hz) as Hno.
  destruct (zeroed (with_frames q s) c Hq (tk_words _ _ Htk)) as ((F1 & F2 & F3 & _) & Fin & Fout & Fw).
  set (s1 := zero_page c (with_frames q s)) in *. clearbody s1. cbn [frames kernel_pml4 cr3 with_frames] in *.
  assert (forall x, page_of x <> c -> rd s1 x = rd s x) as Hout by (intros x Hx; rewrite Fout, rd_with_frames by done; done).
  split; [|done]. apply (spaces_same own tabs s); [done| |].
  - split; [done|]. split; [by rewrite F1|]. split; [done|]. intros t x j Ht Hj. apply Hout. rewrite (owned_entry_page own s t x j Htk Ht Hj). congruence.
  - intros f. rewrite F1, Hh. case_bool; [subst; lia|lia].
Qed.

Lemma refs_none l s f : (forall t i, t ∈ l -> 0 <= i < 512 -> counted (rd s (t + 8 * i)) = true -> addr_of (rd s (t + 8 * i)) <> f * 4096) -> refs l s f = 0.
Proof.
  induction l as [|t l IH]; intros Hl; [done|]. cbn [refs foldr]. fold (refs l s f). rewrite IH by (intros; apply Hl; [by right|done..]).
  unfold table_refs. rewrite cnt_none; [done|]. intros i Hi. unfold refers. destruct (counted (rd s (t + 8 * i))) eqn:E; [|done].
  cbn [andb]. apply Z.eqb_neq. apply Hl; [by left|lia|done].
Qed.

(** Entries depend on the words of tables alone. *)
Lemma page_entry_same own s s' r a : tables_ok own s -> tables_ok own s' -> space own s r -> kernel_pml4 s' = kernel_pml4 s -> user_virt a ->
  (forall t x j, own t = Some x -> 0 <= j < 512 -> rd s' (t + 8 * j) = rd s (t + 8 * j)) -> page_entry r a s' = page_entry r a s.
Proof.
  intros Hs Hs' Hr Hk Ha Hrd. assert (space own s' r) as Hr' by (destruct Hr; split; [done|congruence]).
  destruct (page_entry_cases own s r a Hs Hr Ha) as [(t & Ht)|Hn].
  - rewrite (page_entry_at own s' r a t), (page_entry_at own s r a t) by done. eapply Hrd; [exact Ht|apply index_of_range].
  - by rewrite (page_entry_none own s' r a), (page_entry_none own s r a).
Qed.

(** The page's entry becoming [v], every other entry and every page as before. *)
Definition one_entry (own : owners) s s' (r virt v : Z) : Prop :=
  (forall r2 a, space own s r2 -> user_virt a -> page_entry r2 a s' = if (r2 =? r) && (pfx a 0 =? pfx virt 0) then v else page_entry r2 a s) /\
  (forall x, own (page_of x) = None -> 0 < held (frames s) (x / 4096) -> rd s' x = rd s x).

Lemma give_page_spec own tabs s r virt flags : spaces_ok own tabs s -> space own s r -> user_virt virt -> flags = 7 \/ flags = 5 ->
  exists own' tabs', let (s', c) := give_page r virt flags s in
    spaces_ok own' tabs' s' /\ (forall t x, own t = Some x -> own' t = Some x) /\ kernel_pml4 s' = kernel_pml4 s /\
    ((c = 0 /\ one_entry own s s' r virt (page_entry r virt s)) \/
     (0 < c < 2 ^ 44 /\ c mod 4096 = 0 /\ one_entry own s s' r virt (pte_of c flags) /\ forall k, 0 <= k < 512 -> rd s' (c + 8 * k) = 0)).
Proof.
  intros Hs Hr Hv Hfl. unfold give_page. pose proof (so_tables _ _ _ Hs) as Htk.
  assert (forall s', kernel_pml4 s' = kernel_pml4 s -> (forall r2 a, space own s r2 -> user_virt a -> page_entry r2 a s' = page_entry r2 a s) ->
    (forall x, own (page_of x) = None -> 0 < held (frames s) (x / 4096) -> rd s' x = rd s x) -> one_entry own s s' r virt (page_entry r virt s)) as Hsame.
  { intros s' _ He Hd. split; [|done]. intros r2 a Hr2 Ha. rewrite He by done. destruct (Z.eqb_spec r2 r) as [->|]; [|done].
    destruct (Z.eqb_spec (pfx a 0) (pfx virt 0)) as [E|]; [|done]. cbn [andb]. rewrite !pfx0 in E.
    rewrite <- (page_entry_page own s r a), <- (page_entry_page own s r virt) by done. unfold page_of. by rewrite E. }
  destruct (alloc_spec s (tk_alloc _ _ Htk)) as (q & c & -> & Hq & Hca). destruct Hca as [(-> & Hh)|(Hcr & Hcal & Hcz & Hh)].
  { cbn [Z.eqb]. exists own, tabs. split; [apply spaces_frames; [done|done|intros f; rewrite Hh; lia]|]. split; [done|]. split; [done|]. left. split; [done|].
    apply Hsame; [done| |done]. intros r2 a Hr2 Ha. apply (page_entry_same own); try done.
    apply (so_tables own tabs), spaces_frames; [done|done|intros f; rewrite Hh; lia]. }
  rewrite (proj2 (Z.eqb_neq c 0)) by lia. destruct (fresh_page own tabs s q c Hs Hq Hcr Hcal Hcz Hh) as (Hs1 & Hin & Hout & F1 & F2 & F3).
  set (s1 := zero_page c (with_frames q s)) in *. clearbody s1. pose proof (not_owned own s c Htk Hcz) as Hno.
  assert (space own s1 r) as Hr1 by (destruct Hr; split; [done|congruence]).
  assert (held (frames s1) (c / 4096) = 1) as Hc1 by (rewrite F1, Hh, Z.eqb_refl; done).
  destruct (map_in_spec own s1 r virt c flags (so_tables _ _ _ Hs1) Hr1 Hv) as (own' & s2 & T2 & E2 & Hm).
  destruct (extends_spaces own tabs s1 own' s2 Hs1 T2 E2) as (tabs' & Hs2 & _ & Htabs).
  destruct (ex_rest _ _ _ _ E2) as (K2 & _). pose proof (extends_held own s1 own' s2 (c / 4096) E2 ltac:(lia)) as Hc2. rewrite Hc1 in Hc2.
  assert (own' c = None) as Hno2.
  { destruct (own' c) as [[[r2 l2] p2]|] eqn:E; [|done]. destruct (ex_new _ _ _ _ E2 _ _ _ _ Hno E) as (_ & Hz & _). lia. }
  assert (forall t i, t ∈ tabs' -> 0 <= i < 512 -> counted (rd s2 (t + 8 * i)) = true -> addr_of (rd s2 (t + 8 * i)) <> c) as Hnc.
  { intros t i Ht Hi Hc E. destruct (Htabs t Ht) as [Ht1|Hz]; [|by rewrite Hz in Hc].
    apply (so_tabs _ _ _ Hs1) in Ht1 as Ho. destruct Ho as (r2 & p2 & Ho & _). rewrite (ex_leaf _ _ _ _ E2 t r2 p2 i Ho Hi) in *.
    assert (rd s1 (t + 8 * i) = rd s (t + 8 * i)) as Es by (apply Hout; rewrite (owned_entry_page own s t _ i Htk Ho Hi); congruence). rewrite Es in *.
    destruct (page_held own tabs s t i Hs Ht1 Hi Hc) as (Hp & _). rewrite E in Hp. lia. }
  assert (refs tabs' s2 (c / 4096) = 0) as Hrc by (apply refs_none; intros t i Ht Hi Hc; replace (c / 4096 * 4096) with c by dlia; by apply Hnc).
  assert (is_table own' (c / 4096) = 0) as Htc by (unfold is_table; replace (c / 4096 * 4096) with c by dlia; by rewrite Hno2).
  assert (forall r2 a, space own s r2 -> user_virt a -> page_entry r2 a s2 = page_entry r2 a s) as Hent.
  { intros r2 a Hr2 Ha. assert (space own s1 r2) as Hr21 by (destruct Hr2; split; [done|congruence]). rewrite (extends_entry own s1 own' s2) by (done || apply Hs1).
    apply (page_entry_same own); try done; [apply Hs1|]. intros t x j Ht Hj. apply Hout. rewrite (owned_entry_page own s t x j Htk Ht Hj). congruence. }
  assert (forall x, own (page_of x) = None -> 0 < held (frames s) (x / 4096) -> page_of x <> c) as Hxc.
  { intros x _ Hx E. unfold page_of in E. replace (x / 4096) with (c / 4096) in Hx by dlia. lia. }
  assert (forall x, own (page_of x) = None -> 0 < held (frames s) (x / 4096) -> rd s2 x = rd s x) as Hdata.
  { intros x Hx Hhx. rewrite (ex_data _ _ _ _ E2); [by apply Hout, Hxc|done|]. rewrite F1, Hh. case_bool; lia. }
  exists own', tabs'. destruct Hr as [Hro Hrk]. unfold map_page_in. rewrite (proj2 (Z.eqb_neq r 0)) by (destruct (tk_table _ _ Htk _ _ _ _ Hro) as (_ & ? & _); lia).
  destruct Hm as [->|(t & Ht & ->)]; cbn [negb].
  - unfold give_back. assert (c = IDX_ADDR (c / 4096)) as Ec by (unfold IDX_ADDR, PAGE_SIZE; dlia).
    destruct (free_frame_law (frames s2) (c / 4096) (tk_alloc _ _ T2) ltac:(dlia) ltac:(lia)) as [Hp3 Hh3]. rewrite <- Ec in Hp3, Hh3.
    assert (spaces_ok own' tabs' (with_frames (free_frame c (frames s2)) s2)) as Hs3.
    2: { split; [exact Hs3|]. split; [apply E2|]. split; [change (kernel_pml4 s2 = kernel_pml4 s); congruence|]. left. split; [done|].
      apply Hsame; [change (kernel_pml4 s2 = kernel_pml4 s); congruence| |exact Hdata]. intros r2 a Hr2 Ha. rewrite <- Hent by done.
      apply (page_entry_same own'); try done; [apply Hs3|]. destruct Hr2; split; [by apply E2|congruence]. }
    apply spaces_accounts; [done|done|]. intros f. rewrite Hh3. pose proof (so_refs _ _ _ Hs2 f). destruct (Z.eqb_spec f (c / 4096)) as [->|]; lia.
  - destruct (pte_of_spec c flags ltac:(unfold is_word; lia)) as (Hw & Ha & Hpres & Hfl2). pose proof (index_of_range virt 1) as Hi.
    assert (addr_of c = c) as Eac. { rewrite addr_of_spec by (unfold is_word; lia). dlia. }
    assert (counted (pte_of c flags) = true) as Hcnt.
    { unfold counted. rewrite !Hfl2 by (unfold PTE_PRESENT, PTE_HUGE, PTE_USER, PTE_BORROWED; lia). by destruct Hfl as [-> | ->]. }
    assert (has (pte_of c flags) PTE_COW = false) as Hcow by (rewrite Hfl2 by (unfold PTE_COW; lia); by destruct Hfl as [-> | ->]).
    assert (t ∈ tabs') as Hin' by (apply (so_tabs _ _ _ Hs2); exists r, (pfx virt 1); split; [done|congruence]).
    split; [|split; [apply E2|split; [change (kernel_pml4 s2 = kernel_pml4 s); congruence|right; split; [done|]; split; [done|]; split; [split|]]]].
    + apply (spaces_entry own' tabs' s2 s2); try done; [by apply (spaces_same_tables own' tabs')|..].
      * intros f. pose proof (so_refs _ _ _ Hs2 f). pose proof (b2n_nonneg (refers f (rd s2 (t + 8 * index_of virt 1)))).
        destruct (Z.eqb_spec f (c / 4096)) as [->|Hfc]; [unfold b2n in *; destruct (refers (c / 4096) (pte_of c flags)); lia|].
        rewrite (refers_false f (pte_of c flags)) by (rewrite Ha, Eac; intros E; apply Hfc; rewrite E; symmetry; apply Z.div_mul; lia). cbn [b2n]. lia.
      * intros _. rewrite Ha, Eac. split; [done|lia].
      * intros t2 i2 Ht2 Hi2 _ _ C2 E. rewrite Ha, Eac in E. by destruct (Hnc t2 i2 Ht2 Hi2 C2).
    + intros r2 a Hr2 Ha2. assert (space own s1 r2) as Hr21 by (destruct Hr2; split; [done|congruence]).
      rewrite (leaf_entry own' s2 t r (pfx virt 1) virt r2 a (pte_of c flags)) by (done || by eapply extends_space). by rewrite Hent.
    + intros x Hx Hhx. rewrite rd_wr. destruct (Z.eqb_spec x (t + 8 * index_of virt 1)) as [->|]; [|by apply Hdata]. exfalso.
      rewrite (owned_entry_page own' s2 t _ _ T2 Ht Hi) in Hx. destruct (ex_new _ _ _ _ E2 _ _ _ _ Hx Ht) as (_ & Hz & _).
      destruct (tk_table _ _ T2 _ _ _ _ Ht) as (Halt & _). replace ((t + 8 * index_of virt 1) / 4096) with (t / 4096) in Hhx by dlia.
      rewrite F1, Hh in Hz. destruct (_ =? _); lia.
    + intros k Hk. rewrite rd_wr. destruct (Z.eqb_spec (c + 8 * k) (t + 8 * index_of virt 1)) as [E|].
      * apply (f_equal page_of) in E. rewrite page_of_entry, (owned_entry_page own' s2 t _ _ T2 Ht Hi) in E by done. congruence.
      * rewrite (ex_data _ _ _ _ E2); [by apply Hin|by rewrite page_of_entry|]. replace ((c + 8 * k) / 4096) with (c / 4096) by dlia. lia.
Qed.

Lemma phys_of own tabs s r a : spaces_ok own tabs s -> space own s r -> user_virt a -> 
  virt_to_phys_in r a s = if has (page_entry r a s) PTE_PRESENT then addr_of (page_entry r a s) + a mod 4096 else 0.
Proof.
  intros Hs Hr Ha. pose proof (so_tables _ _ _ Hs) as Htk. unfold virt_to_phys_in. pose proof Hr as [Ho _].
  rewrite (proj2 (Z.eqb_neq r 0)) by (destruct (tk_table _ _ Htk _ _ _ _ Ho) as (_ & ? & _); lia).
  rewrite (resolve_entry own s r a) by done. cbv zeta. destruct (has (page_entry r a s) PTE_PRESENT) eqn:E; [|done].
  destruct (page_pos own tabs s r a Hs Hr Ha E) as (t & _ & _ & ->). destruct (addr_of_aligned (rd s (t + 8 * index_of a 1))) as [A1 A2]; [apply Htk|].
  apply phys_offset; [done|lia].
Qed.

(** The entry written, in a state with another allocator. *)
Lemma one_entry_wr own s p t r virt v : tables_ok own s -> tables_ok own (wr (t + 8 * index_of virt 1) v (with_frames p s)) ->
  own t = Some (r, 1, pfx virt 1) -> is_u64 v ->
  one_entry own s (wr (t + 8 * index_of virt 1) v (with_frames p s)) r virt v.
Proof.
  intros Hs Hs' Ht Hv. split.
  - intros r2 a Hr2 Ha. rewrite <- (leaf_entry own s t r (pfx virt 1) virt r2 a v) by done.
    apply (page_entry_same own); try done. by eapply leaf_tables; [..|apply index_of_range|].
  - intros x Hx _. rewrite rd_wr. destruct (Z.eqb_spec x (t + 8 * index_of virt 1)) as [->|]; [|done].
    rewrite (owned_entry_page own s t _ _ Hs Ht) in Hx by apply index_of_range. congruence.
Qed.

(** A page that is the program's own given back, or nothing where there is none. *)
Lemma unmap_one_spec own tabs s r a : spaces_ok own tabs s -> space own s r -> user_virt a -> a mod 4096 = 0 ->
  (has (page_entry r a s) PTE_PRESENT = true -> counted (page_entry r a s) = true) ->
  let s' := unmap_one r a s in
  spaces_ok own tabs s' /\ kernel_pml4 s' = kernel_pml4 s /\
  exists v, has v PTE_PRESENT = false /\ one_entry own s s' r a v.
Proof.
  intros Hs Hr Ha Hal Hc. cbv zeta. pose proof (so_tables _ _ _ Hs) as Htk. unfold unmap_one. rewrite (phys_of own tabs) by done.
  destruct (has (page_entry r a s) PTE_PRESENT) eqn:Ep.
  2: { cbn [Z.eqb]. split; [done|]. split; [done|]. exists (page_entry r a s). split; [done|]. split; [|done]. intros r2 a2 Hr2 Ha2.
    destruct (Z.eqb_spec r2 r) as [->|]; [|done]. destruct (Z.eqb_spec (pfx a2 0) (pfx a 0)) as [E|]; [|done]. cbn [andb]. rewrite !pfx0 in E.
    rewrite <- (page_entry_page own s r a2), <- (page_entry_page own s r a) by done. unfold page_of. by rewrite E. }
  specialize (Hc eq_refl). destruct (entry_counted own tabs s r a Hs Hr Ha Hc) as (t & Ht & Hin & Ee). rewrite Ee in *. set (i := index_of a 1) in *.
  pose proof (index_of_range a 1) as Hi. fold i in Hi. rewrite Hal, Z.add_0_r.
  destruct (page_held own tabs s t i Hs Hin Hi Hc) as (Hf & Hno & Hpos & Hal2 & Hidx & _). set (e := rd s (t + 8 * i)) in *.
  rewrite (proj2 (Z.eqb_neq (addr_of e) 0)) by lia. unfold unmap_page_in. pose proof Hr as [Ho Hk].
  rewrite (proj2 (Z.eqb_neq r 0)) by (destruct (tk_table _ _ Htk _ _ _ _ Ho) as (_ & ? & _); lia).
  destruct (table_for_look own s r a Htk Hr Ha) as (c & -> & [(Hc0 & Hoc)|(_ & Hn)]); [|by destruct (Hn t)].
  rewrite (owner_unique own s c t r 1 _ Htk Hoc Ht) in *. rewrite (proj2 (Z.eqb_neq t 0)) by done. fold i. unfold give_back.
  change (frames (wr (t + 8 * i) 0 s)) with (frames s). destruct (free_frame_law (frames s) (addr_of e / 4096) (tk_alloc _ _ Htk) ltac:(dlia) Hf) as [Hp Hh].
  rewrite <- Hidx in Hp, Hh. set (p := free_frame (addr_of e) (frames s)) in *. clearbody p.
  change (with_frames p (wr (t + 8 * i) 0 s)) with (wr (t + 8 * i) 0 (with_frames p s)).
  assert (spaces_ok own tabs (wr (t + 8 * i) 0 (with_frames p s))) as Hfin.
  2: { split; [exact Hfin|]. split; [done|]. exists 0. split; [done|]. unfold i. apply (one_entry_wr own); try done. apply Hfin. }
  apply (spaces_entry own tabs s (with_frames p s)); try done.
  - split; [done|]. split; [exact Hp|]. split; [apply Htk|done].
  - intros f. fold e. change (frames (with_frames p s)) with p. change (refers f 0) with false. rewrite Hh. pose proof (so_refs _ _ _ Hs f) as Hrf.
    destruct (Z.eqb_spec f (addr_of e / 4096)) as [->|Hne].
    + rewrite (refers_self e) by (done || apply Htk). cbn [b2n]. lia.
    + rewrite (refers_false f e) by dlia. cbn [b2n]. lia.
Qed.

(** A store to a page of one's own that may be written. *)
Lemma store_spec own tabs s r a v : spaces_ok own tabs s -> space own s r -> word_at a -> is_u64 v ->
  counted (page_entry r a s) = true -> has (page_entry r a s) PTE_RW = true ->
  let s' := wr (addr_of (page_entry r a s) + a mod 4096) v s in
  spaces_ok own tabs s' /\
  (forall r2 a2, space own s r2 -> user_virt a2 -> page_entry r2 a2 s' = page_entry r2 a2 s) /\
  (forall r2 a2, space own s r2 -> word_at a2 -> user_word r2 a2 s' = if (r2 =? r) && (a2 =? a) then Some v else user_word r2 a2 s).
Proof.
  intros Hs Hr [Ha Ha8] Hv Hc Hw. cbv zeta. pose proof (so_tables _ _ _ Hs) as Htk. destruct (word_slot a Ha8) as (k & Hk & Ek).
  destruct (entry_counted own tabs s r a Hs Hr Ha Hc) as (t & Ht & Hin & Ee). pose proof (index_of_range a 1) as Hi.
  set (at_ := addr_of (page_entry r a s) + a mod 4096).
  destruct (page_held own tabs s t (index_of a 1) Hs Hin Hi ltac:(by rewrite <- Ee)) as (_ & Hno & Hpos & Hal & _). rewrite <- Ee in Hno, Hpos, Hal.
  assert (page_of at_ = addr_of (page_entry r a s)) as Hpg by (unfold at_; rewrite Ek; by apply page_of_entry).
  assert (forall t0 x j, own t0 = Some x -> 0 <= j < 512 -> rd (wr at_ v s) (t0 + 8 * j) = rd s (t0 + 8 * j)) as Hrd.
  { intros t0 x j Ht0 Hj. rewrite rd_wr. destruct (Z.eqb_spec (t0 + 8 * j) at_) as [E|]; [|done]. exfalso.
    pose proof (owned_entry_page own s t0 x j Htk Ht0 Hj) as Hp. rewrite E, Hpg in Hp. congruence. }
  assert (spaces_ok own tabs (wr at_ v s)) as Hs'.
  { apply (spaces_same own tabs s); [done| |done]. split; [done|]. split; [apply Htk|]. split; [|exact Hrd].
    intros x. rewrite rd_wr. case_bool; [done|apply Htk]. }
  assert (forall r2 a2, space own s r2 -> user_virt a2 -> page_entry r2 a2 (wr at_ v s) = page_entry r2 a2 s) as Hent.
  { intros r2 a2 Hr2 Ha2. apply (page_entry_same own); try done. apply Hs'. }
  split; [exact Hs'|]. split; [exact Hent|]. intros r2 a2 Hr2 [Ha2 Ha28]. unfold user_word. rewrite Hent by done.
  destruct (counted (page_entry r2 a2 s)) eqn:Hc2.
  2: { destruct (Z.eqb_spec r2 r) as [->|]; [|done]. destruct (Z.eqb_spec a2 a) as [->|]; [|done]. congruence. }
  rewrite rd_wr. destruct (entry_counted own tabs s r2 a2 Hs Hr2 Ha2 Hc2) as (t2 & Ht2 & Hin2 & Ee2). destruct (word_slot a2 Ha28) as (k2 & Hk2 & Ek2).
  destruct (page_held own tabs s t2 (index_of a2 1) Hs Hin2 (index_of_range a2 1) ltac:(by rewrite <- Ee2)) as (_ & _ & _ & Hal2 & _). rewrite <- Ee2 in Hal2.
  destruct (Z.eqb_spec (addr_of (page_entry r2 a2 s) + a2 mod 4096) at_) as [E|E].
  - assert (addr_of (page_entry r2 a2 s) = addr_of (page_entry r a s)) as Eaddr by (unfold at_ in E; dlia).
    destruct (so_alone _ _ _ Hs t (index_of a 1) t2 (index_of a2 1) Hin Hin2 Hi (index_of_range a2 1)) as [Et Ei]; [by rewrite <- Ee..|by rewrite <- Ee2|by rewrite <- Ee, <- Ee2|].
    rewrite Et, Ht in Ht2. injection Ht2 as Er Ep. rewrite Er, Z.eqb_refl. cbn [andb].
    pose proof (pfx_step a 1 ltac:(lia)) as P1. pose proof (pfx_step a2 1 ltac:(lia)) as P2. change (1 - 1) with 0 in *. rewrite !pfx0 in *.
    rewrite (proj2 (Z.eqb_eq a2 a)); [done|]. unfold at_ in E. rewrite Eaddr in E. pose proof (Z.div_mod a 4096). pose proof (Z.div_mod a2 4096). lia.
  - destruct (Z.eqb_spec r2 r) as [->|]; [|done]. destruct (Z.eqb_spec a2 a) as [->|]; [done|done].
Qed.

(** The write fault. *)
Lemma cow_spec own tabs s r a : spaces_ok own tabs s -> space own s r -> user_virt a ->
  let (s', ok) := paging_resolve_cow r a s in
  spaces_ok own tabs s' /\ kernel_pml4 s' = kernel_pml4 s /\
  (forall x, own (page_of x) = None -> 0 < held (frames s) (x / 4096) -> rd s' x = rd s x) /\
  (ok = false -> (forall r2 a2, space own s r2 -> user_virt a2 -> page_entry r2 a2 s' = page_entry r2 a2 s) /\
    (has (page_entry r a s) PTE_PRESENT && has (page_entry r a s) PTE_COW = true -> snd (alloc s) = 0)) /\
  (ok = true -> counted (page_entry r a s) = true /\ exists v, counted v = true /\ has v PTE_RW = true /\
    (forall k, 0 <= k < 512 -> rd s' (addr_of v + 8 * k) = rd s (addr_of (page_entry r a s) + 8 * k)) /\
    forall r2 a2, space own s r2 -> user_virt a2 -> page_entry r2 a2 s' = if (r2 =? r) && (pfx a2 0 =? pfx a 0) then v else page_entry r2 a2 s).
Proof.
  intros Hs Hr Ha. pose proof (so_tables _ _ _ Hs) as Htk.
  destruct (resolve_cow_spec own tabs s r a Hs Hr Ha) as (s' & ok & -> & Hs' & [(-> & (p & ->) & Hf)|(-> & t & v & Ht & Hin & Hc & Hcv & Hw & [R1 R2 R3 R4 R5])]).
  - split; [exact Hs'|]. split; [done|]. split; [done|]. split; [|done]. intros _. split; [|done]. intros r2 a2 Hr2 Ha2. apply (page_entry_same own); try done. apply Hs'.
  - destruct R5 as [K _]. split; [exact Hs'|]. split; [done|]. split; [done|]. split; [done|]. intros _.
    rewrite (page_entry_at own s r a t) by done. split; [done|]. exists v. split; [done|]. split; [done|]. split; [exact R2|].
    intros r2 a2 Hr2 Ha2. assert (space own s' r2) as Hr2' by (destruct Hr2; split; [done|congruence]).
    pose proof (index_of_range a 1) as Hi. pose proof (index_of_range a2 1) as Hi2.
    destruct (page_entry_cases own s r2 a2 Htk Hr2 Ha2) as [(t2 & Ht2)|Hn].
    + rewrite (page_entry_at own s' r2 a2 t2), (page_entry_at own s r2 a2 t2) by (done || apply Hs').
      destruct (Z.eqb_spec r2 r) as [->|Hne]; cbn [andb].
      2: { apply (R3 t2 _ _ Ht2 Hi2). intros [= -> _]. rewrite Ht in Ht2. injection Ht2. congruence. }
      pose proof (pfx_step a 1 ltac:(lia)) as P1. pose proof (pfx_step a2 1 ltac:(lia)) as P2. change (1 - 1) with 0 in *.
      destruct (Z.eqb_spec (pfx a2 0) (pfx a 0)) as [E|E].
      * assert (pfx a2 1 = pfx a 1 /\ index_of a2 1 = index_of a 1) as [Ep Ei] by lia. rewrite Ep in Ht2.
        by rewrite (owner_unique own s t2 t r 1 _ Htk Ht2 Ht), Ei.
      * apply (R3 t2 _ _ Ht2 Hi2). intros [= -> Ei]. rewrite Ht in Ht2. injection Ht2 as Ep. apply E. lia.
    + rewrite (page_entry_none own s' r2 a2), (page_entry_none own s r2 a2) by (done || apply Hs').
      destruct (Z.eqb_spec r2 r) as [->|]; [|done]. destruct (Z.eqb_spec (pfx a2 0) (pfx a 0)) as [E|]; [|done]. exfalso.
      pose proof (pfx_step a 1 ltac:(lia)) as P1. pose proof (pfx_step a2 1 ltac:(lia)) as P2. change (1 - 1) with 0 in *.
      assert (pfx a2 1 = pfx a 1) as Ep by lia. rewrite Ep in Hn. by apply (Hn t).
Qed.

(** ** Programs with memories of their own *)

(** The words of a memory by address, and the addresses known to be in writable pages. *)
Record memory := Memory { words : Z -> option Z; can_write : Z -> bool }.
Definition same_page (a b : Z) : bool := a / 4096 =? b / 4096.
Definition no_memory : memory := Memory (fun _ => None) (fun _ => false).
Definition with_page (a : Z) (w : option Z) (writable : bool) (m : memory) : memory :=
  Memory (fun x => if same_page x a then w else words m x) (fun x => if same_page x a then writable else can_write m x).
Definition put (a v : Z) (m : memory) : memory := Memory (fun x => if x =? a then Some v else words m x) (can_write m).

Inductive call :=
| New | Fork (r : Z) | Exit (r : Z) | Give (r a : Z) (rw : bool) | Unmap (r a : Z)
| Load (t : task_t) (a : Z) | Store (t : task_t) (a v : Z).

Definition is_word_at (a : Z) : bool := (2 ^ 39 <=? a) && (a <? 2 ^ 40) && (a mod 8 =? 0).
(** A call for a space that is alive, and for an address of a word of user space. *)
Definition allowed (M : gmap Z memory) (c : call) : bool :=
  match c with
  | New => true
  | Fork r | Exit r => bool_decide (is_Some (M !! r))
  | Give r a _ | Unmap r a => bool_decide (is_Some (M !! r)) && is_word_at a
  | Load t a | Store t a _ => bool_decide (is_Some (M !! dir t)) && is_word_at a
  end.

(** What a call may do to the memories, by the space they belong to, and give; [full]: no
    frame is free. *)
Inductive spec_call (full : bool) (M : gmap Z memory) : call -> option Z -> gmap Z memory -> Prop :=
| spec_new_none : spec_call full M New None M
| spec_new f : M !! f = None -> spec_call full M New (Some f) (<[f := no_memory]> M)
| spec_refused c : allowed M c = false -> spec_call full M c None M
| spec_fork_none r : spec_call full M (Fork r) None M
| spec_fork r f m : M !! r = Some m -> M !! f = None -> spec_call full M (Fork r) (Some f) (<[f := m]> M)
| spec_exit r : spec_call full M (Exit r) None (delete r M)
| spec_give_none r a rw : spec_call full M (Give r a rw) None M
| spec_give r a rw f m : M !! r = Some m -> spec_call full M (Give r a rw) (Some f) (<[r := with_page a (Some 0) rw m]> M)
| spec_unmap r a m : M !! r = Some m -> spec_call full M (Unmap r a) None (<[r := with_page a None false m]> M)
| spec_load t a m w : M !! dir t = Some m -> words m a = Some w -> spec_call full M (Load t a) (Some w) M
| spec_load_none t a m : M !! dir t = Some m -> words m a = None -> spec_call full M (Load t a) None M
| spec_load_filled t a m b : M !! dir t = Some m -> words m a = None ->
    spec_call full M (Load t a) (Some 0) (<[dir t := with_page a (Some 0) b m]> M)
| spec_store t a v m w : M !! dir t = Some m -> words m a = Some w -> spec_call full M (Store t a v) (Some (u64 v)) (<[dir t := put a (u64 v) m]> M)
| spec_store_none t a v m : M !! dir t = Some m -> (can_write m a = true -> full = true) -> spec_call full M (Store t a v) None M
| spec_store_filled t a v m : M !! dir t = Some m -> words m a = None ->
    spec_call full M (Store t a v) (Some (u64 v)) (<[dir t := put a (u64 v) (with_page a (Some 0) true m)]> M).

(** The machine: its memory and allocator, and the spaces that live. *)
Definition none_if_zero (z : Z) : option Z := if z =? 0 then None else Some z.
Definition in_space (r a : Z) (live : list Z) : bool := bool_decide (r ∈ live) && is_word_at a.
Definition do_call (c : call) (x : vm * list Z) : vm * list Z * option Z :=
  let (s, live) := x in
  match c with
  | New => let (s, f) := paging_new_directory s in (s, if f =? 0 then live else f :: live, none_if_zero f)
  | Fork r =>
      if negb (bool_decide (r ∈ live)) then (s, live, None) else
      let (s, f) := paging_clone_directory r s in (s, if f =? 0 then live else f :: live, none_if_zero f)
  | Exit r => if negb (bool_decide (r ∈ live)) then (s, live, None) else (paging_free_directory r s, filter (fun x => x <> r) live, None)
  | Give r a rw =>
      if negb (in_space r a live) then (s, live, None) else
      let (s, f) := give_page r (page_of a) (PTE_PRESENT .| PTE_USER .| (if rw then PTE_RW else 0)) s in (s, live, none_if_zero f)
  | Unmap r a => if negb (in_space r a live) then (s, live, None) else (unmap_one r (page_of a) s, live, None)
  | Load t a => if negb (in_space (dir t) a live) then (s, live, None) else let (s, w) := user_load t a s in (s, live, w)
  | Store t a v =>
      if negb (in_space (dir t) a live) then (s, live, None) else
      let (s, ok) := user_store t a (u64 v) s in (s, live, if ok then Some (u64 v) else None)
  end.

(** ** The refinement *)

(** Each space has the memory [M] says. *)
Definition models (own : owners) s (M : gmap Z memory) : Prop := forall r m, M !! r = Some m ->
  space own s r /\ forall a, word_at a -> sees r a (words m a) (can_write m a) s.

Lemma is_word_at_spec a : is_word_at a = true <-> word_at a.
Proof. unfold is_word_at, word_at, user_virt. rewrite !andb_true_iff, Z.leb_le, Z.ltb_lt, Z.eqb_eq. tauto. Qed.
Lemma space_keeps own own' s s' r : (forall t x, own t = Some x -> own' t = Some x) -> kernel_pml4 s' = kernel_pml4 s -> space own s r -> space own' s' r.
Proof. intros Ho Hk [H1 H2]. split; [by apply Ho|congruence]. Qed.

Lemma models_kept own own' tabs s s' M : spaces_ok own tabs s -> models own s M -> (forall t x, own t = Some x -> own' t = Some x) ->
  kernel_pml4 s' = kernel_pml4 s ->
  (forall r a, space own s r -> user_virt a -> kept (page_entry r a s) (page_entry r a s')) ->
  (forall x, own (page_of x) = None -> 0 < held (frames s) (x / 4096) -> rd s' x = rd s x) -> models own' s' M.
Proof.
  intros Hs HM Ho Hk He Hd r m Hm. destruct (HM r m Hm) as [Hr Hw]. split; [by eapply space_keeps|]. intros a Ha.
  apply (sees_kept own tabs s); try done; [by apply He; [|apply Ha]|by apply Hw].
Qed.

(** One space's page changed, the others and its other pages as before. *)
Lemma models_one own own' tabs s s' M r m m' a v : spaces_ok own tabs s -> models own s M -> M !! r = Some m ->
  (forall t x, own t = Some x -> own' t = Some x) -> kernel_pml4 s' = kernel_pml4 s -> one_entry own s s' r a v ->
  (forall x, word_at x -> same_page x a = false -> words m' x = words m x /\ can_write m' x = can_write m x) ->
  (forall x, word_at x -> same_page x a = true -> page_entry r x s' = v -> sees r x (words m' x) (can_write m' x) s') ->
  models own' s' (<[r := m']> M).
Proof.
  intros Hs HM Hm Ho Hk [He Hd] Hother Hpage r2 m2 Hm2. assert (exists m0, M !! r2 = Some m0) as (m0 & Hm0).
  { destruct (Z.eq_dec r2 r) as [->|Hn]; [by exists m|]. rewrite lookup_insert_ne in Hm2 by done. by exists m2. }
  destruct (HM r2 m0 Hm0) as [Hr2 Hw]. split; [by eapply space_keeps|]. intros x Hx. pose proof (He r2 x Hr2 (proj1 Hx)) as Hex. rewrite !pfx0 in Hex.
  assert (page_entry r2 x s' = page_entry r2 x s -> sees r2 x (words m0 x) (can_write m0 x) s') as Hsame.
  { intros E. apply (sees_kept own tabs s); try done; [by left|by apply Hw]. }
  destruct (Z.eqb_spec r2 r) as [->|Hn].
  - rewrite lookup_insert_eq in Hm2. injection Hm2 as <-. assert (m0 = m) as -> by congruence. cbn [andb] in Hex. fold (same_page x a) in Hex.
    destruct (same_page x a) eqn:E; [by apply Hpage|]. destruct (Hother x Hx E) as [-> ->]. by apply Hsame.
  - rewrite lookup_insert_ne in Hm2 by done. assert (m2 = m0) as -> by congruence. by apply Hsame.
Qed.

(** A page of zeroes. *)
Lemma give_refines own tabs s M r m a fl (s' : vm) c : spaces_ok own tabs s -> models own s M -> M !! r = Some m -> user_virt a ->
  give_page r (page_of a) fl s = (s', c) -> fl = 7 \/ fl = 5 -> 
  exists own' tabs', spaces_ok own' tabs' s' /\ 
    models own' s' (if c =? 0 then M else <[r := with_page a (Some 0) (has fl PTE_RW) m]> M) /\
    (c <> 0 -> counted (page_entry r a s') = true /\ has (page_entry r a s') PTE_RW = has fl PTE_RW) /\
    (c = 0 -> page_entry r a s' = page_entry r a s).
Proof.
  intros Hs HM Hm Ha Hg Hfl. destruct (HM r m Hm) as [Hr _]. pose proof (so_tables _ _ _ Hs) as Htk. destruct (page_same a Ha) as (Hpa & _ & _).
  assert (page_of a / 4096 = a / 4096) as Epg by (unfold page_of; dlia).
  destruct (give_page_spec own tabs s r (page_of a) fl Hs Hr Hpa Hfl) as (own' & tabs' & Hspec). rewrite Hg in Hspec.
  destruct Hspec as (Hs' & Ho & Hk & [(-> & He)|(Hc & Hal & He & Hz)]); exists own', tabs'; (split; [done|]).
  - cbn [Z.eqb]. split; [|split; [done|intros _; rewrite (proj1 He r a Hr Ha), Z.eqb_refl, !pfx0, Epg, Z.eqb_refl; cbn [andb]; by apply (page_entry_page own)]].
    eapply (models_kept own own' tabs s); try done; [|by apply He]. intros r2 a2 Hr2 Ha2.
    rewrite (proj1 He r2 a2 Hr2 Ha2). destruct (Z.eqb_spec r2 r) as [->|]; [|by left]. rewrite !pfx0, Epg. destruct (Z.eqb_spec (a2 / 4096) (a / 4096)) as [E|]; [|by left].
    left. cbn [andb]. rewrite <- (page_entry_page own s r a2) by done. unfold page_of. by rewrite E.
  - rewrite (proj2 (Z.eqb_neq c 0)) by lia.
    destruct (pte_of_spec c fl ltac:(unfold is_word; lia)) as (Hw & Hae & Hpres & Hfl2).
    assert (addr_of c = c) as Eac. { rewrite addr_of_spec by (unfold is_word; lia). dlia. }
    assert (counted (pte_of c fl) = true) as Hcnt.
    { unfold counted. rewrite !Hfl2 by (unfold PTE_PRESENT, PTE_HUGE, PTE_USER, PTE_BORROWED; lia). by destruct Hfl as [-> | ->]. }
    assert (has (pte_of c fl) PTE_RW = has fl PTE_RW) as HRW by (rewrite Hfl2 by (unfold PTE_RW; lia); by destruct Hfl as [-> | ->]).
    split; [|split; [|intros ->; lia]].
    2: { intros _. rewrite (proj1 He r a Hr Ha), Z.eqb_refl, !pfx0, Epg, Z.eqb_refl. cbn [andb]. done. }
    apply (models_one own own' tabs s s' M r m _ (page_of a) (pte_of c fl)); try done.
    + intros x Hx E. unfold same_page in E. rewrite Epg in E. cbn [with_page words can_write]. unfold same_page. by rewrite E.
    + intros x [Hx Hx8] E Ee. unfold same_page in E. rewrite Epg in E. cbn [with_page words can_write]. unfold same_page. rewrite E. constructor.
      * unfold user_word. rewrite Ee, Hcnt, Hae, Eac. destruct (word_slot x Hx8) as (k & Hk8 & ->). by rewrite Hz.
      * intros Hrw. rewrite Ee. split; [done|]. unfold writable. by rewrite HRW, Hrw.
      * by rewrite Ee.
Qed.

Lemma unmap_refines own tabs s M r m a : spaces_ok own tabs s -> models own s M -> M !! r = Some m -> word_at a ->
  let s' := unmap_one r (page_of a) s in spaces_ok own tabs s' /\ models own s' (<[r := with_page a None false m]> M).
Proof.
  intros Hs HM Hm Ha0. pose proof Ha0 as [Ha _]. cbv zeta. destruct (HM r m Hm) as [Hr Hw]. pose proof (so_tables _ _ _ Hs) as Htk. destruct (page_same a Ha) as (Hpa & _ & _).
  assert (page_of a / 4096 = a / 4096) as Epg by (unfold page_of; dlia).
  destruct (unmap_one_spec own tabs s r (page_of a) Hs Hr Hpa) as (Hs' & Hk & v & Hv & He).
  { unfold page_of. apply Z.mod_mul. lia. }
  { rewrite (page_entry_page own) by done. by apply (se_plain _ _ _ _ _ (Hw a Ha0)). }
  split; [done|]. assert (counted v = false) as Hcv by (unfold counted; by rewrite Hv).
  apply (models_one own own tabs s _ M r m _ (page_of a) v); try done.
  - intros x Hx E. unfold same_page in E. rewrite Epg in E. cbn [with_page words can_write]. unfold same_page. by rewrite E.
  - intros x Hx E Ee. unfold same_page in E. rewrite Epg in E. cbn [with_page words can_write]. unfold same_page. rewrite E.
    constructor; [unfold user_word; by rewrite Ee, Hcv|done|by rewrite Ee, Hv].
Qed.

(** The entries of a space none of whose tables is new. *)
Lemma entry_kept own own' s s' r a : tables_ok own s -> tables_ok own' s' -> space own s r -> user_virt a ->
  (forall t x, own t = Some x -> own' t = Some x) -> kernel_pml4 s' = kernel_pml4 s -> (forall t p, own t = None -> own' t <> Some (r, 1, p)) ->
  (forall t p j, own t = Some (r, 1, p) -> 0 <= j < 512 -> kept (rd s (t + 8 * j)) (rd s' (t + 8 * j))) ->
  kept (page_entry r a s) (page_entry r a s').
Proof.
  intros Hs Hs' Hr Ha Ho Hk Hnew Hkept. pose proof (space_keeps own own' s s' r Ho Hk Hr) as Hr'.
  destruct (page_entry_cases own s r a Hs Hr Ha) as [(t & Ht)|Hn].
  - rewrite (page_entry_at own s r a t), (page_entry_at own' s' r a t) by (done || by apply Ho). eapply Hkept; [exact Ht|apply index_of_range].
  - assert (forall t, own' t <> Some (r, 1, pfx a 1)) as Hn'.
    { intros t Ht. destruct (own t) as [x|] eqn:E; [|by apply (Hnew t (pfx a 1) E)]. apply (Hn t). rewrite (Ho _ _ E) in Ht. congruence. }
    rewrite (page_entry_none own s r a), (page_entry_none own' s' r a) by done. by left.
Qed.

Lemma new_refines own tabs s M (s' : vm) f : spaces_ok own tabs s -> models own s M -> paging_new_directory s = (s', f) ->
  exists own' tabs', spaces_ok own' tabs' s' /\ models own' s' (if f =? 0 then M else <[f := no_memory]> M) /\ (f <> 0 -> M !! f = None).
Proof.
  intros Hs HM E. pose proof (so_tables _ _ _ Hs) as Htk.
  destruct (new_directory_spec own s Htk) as (s1 & F & E1 & [(-> & T1 & X1)|(Hno & Hal & Hr & Hz & T1 & Hk1 & Hout & Hh & Hw & K1 & R1)]);
    rewrite E in E1; injection E1 as -> ->.
  { cbn [Z.eqb]. destruct (extends_spaces own tabs s own s1 Hs T1 X1) as (tabs' & Hs1 & _). exists own, tabs'. split; [done|]. split; [|done].
    destruct (ex_rest _ _ _ _ X1) as (K1 & _). apply (models_kept own own tabs s); try done; [|apply X1].
    intros r a Hr Ha. left. by apply (extends_entry own s own s1). }
  rewrite (proj2 (Z.eqb_neq F 0)) by lia. exists (owned own F (F, 4, 0)), tabs.
  assert (spaces_ok (owned own F (F, 4, 0)) tabs s1) as Hs1 by (apply (spaces_root own tabs s); try done; lia). split; [done|].
  assert (forall t x, own t = Some x -> owned own F (F, 4, 0) t = Some x) as Ho.
  { intros t x Ht. unfold owned. destruct (Z.eqb_spec t F); congruence. }
  assert (forall r t p, own t = None -> owned own F (F, 4, 0) t <> Some (r, 1, p)) as Hnew.
  { intros r t p Hn Ht. unfold owned in Ht. destruct (Z.eqb_spec t F) as [->|]; congruence. }
  assert (M !! F = None) as HMF. { destruct (M !! F) as [m|] eqn:E2; [|done]. destruct (HM F m E2) as [[? _] _]. congruence. }
  split; [|done]. assert (models (owned own F (F, 4, 0)) s1 M) as HM1.
  { apply (models_kept own _ tabs s); try done.
    - intros r a Hr2 Ha. apply (entry_kept own (owned own F (F, 4, 0))); try done; [apply Hnew|]. intros t p j Ht Hj. left. apply Hout.
      rewrite (owned_entry_page own s t _ j Htk Ht Hj). congruence.
    - intros x Hx Hhx. apply Hout. intros Ex. unfold page_of in Ex. replace (x / 4096) with (F / 4096) in Hhx by dlia. lia. }
  intros r m Hm. destruct (Z.eq_dec r F) as [->|Hn].
  - rewrite lookup_insert_eq in Hm. injection Hm as <-. assert (space (owned own F (F, 4, 0)) s1 F) as HF by (split; [unfold owned; by rewrite Z.eqb_refl|done]).
    split; [done|]. intros a [Ha _]. assert (page_entry F a s1 = 0) as E0.
    { apply (page_entry_none (owned own F (F, 4, 0))); [done..|]. intros t Ht. unfold owned in Ht. destruct (Z.eqb_spec t F) as [Et|]; [discriminate Ht|].
      by apply (root_owned own s t F 1 (pfx a 1) Htk Ht). }
    constructor; [unfold user_word; by rewrite E0|done|by rewrite E0].
  - rewrite lookup_insert_ne in Hm by done. by apply HM1.
Qed.

Lemma fork_refines own tabs s M r m (s' : vm) f : spaces_ok own tabs s -> models own s M -> M !! r = Some m -> paging_clone_directory r s = (s', f) ->
  exists own' tabs', spaces_ok own' tabs' s' /\ models own' s' (if f =? 0 then M else <[f := m]> M) /\ (f <> 0 -> M !! f = None).
Proof.
  intros Hs HM Hm E. pose proof (so_tables _ _ _ Hs) as Htk. destruct (HM r m Hm) as [Hr Hw].
  pose proof (clone_directory_spec own tabs s r Hs Hr) as Hc. rewrite E in Hc. destruct Hc as (own' & tabs' & Hs' & Ho & [[K _] Hd Hk] & Hnew & HF).
  exists own', tabs'. split; [done|]. assert (models own' s' M) as HM'.
  { apply (models_kept own own' tabs s); try done. intros r2 a Hr2 Ha. apply (entry_kept own own'); try done; [apply Hs'| |intros t p j Ht Hj; by apply (Hk t r2 p)].
    intros t p Hn Ht. destruct (Hnew t r2 1 p Hn Ht) as [Hf ->]. destruct (HF Hf) as (Hnf & _). destruct Hr2. congruence. }
  destruct (Z.eqb_spec f 0) as [->|Hf]; [done|]. destruct (HF Hf) as (Hno & HsF & _ & Hcop).
  split; [|intros _; destruct (M !! f) as [m2|] eqn:E2; [|done]; destruct (HM f m2 E2) as [[? _] _]; congruence].
  intros r2 m2 Hm2. destruct (Z.eq_dec r2 f) as [->|Hn]; [|rewrite lookup_insert_ne in Hm2 by done; by apply HM'].
  rewrite lookup_insert_eq in Hm2. injection Hm2 as <-. split; [done|]. intros a Ha0. pose proof Ha0 as [Ha Ha8].
  pose proof (space_keeps own own' s s' r Ho K Hr) as Hr'. destruct (Hw a Ha0) as [S1 S2 S3].
  assert (0 <= pfx a 0 < 2 ^ 36) as Hq by (rewrite pfx0; destruct Ha; dlia).
  pose proof (pfx_step a 1 ltac:(lia)) as Hpf. change (1 - 1) with 0 in Hpf. pose proof (index_of_range a 1) as Hi.
  assert (pfx a 0 / 512 = pfx a 1 /\ pfx a 0 mod 512 = index_of a 1) as [Eq1 Eq2] by (rewrite Hpf; split; dlia).
  destruct (Hcop (pfx a 0) Hq) as [[N1 N2]|(t & t' & Ht & Ht' & Hp)]; rewrite ?Eq1, ?Eq2 in *.
  - rewrite (page_entry_none own s) in * by done. assert (page_entry f a s' = 0) as E0 by (apply (page_entry_none own'); try done; apply Hs').
    unfold user_word in S1. rewrite (page_entry_none own s) in S1 by done. constructor; [unfold user_word; by rewrite E0|intros Hb; by destruct (S2 Hb)|by rewrite E0].
  - unfold user_word in S1. rewrite (page_entry_at own s r a t) in * by done.
    pose proof (page_entry_at own' s' f a t' (so_tables _ _ _ Hs') HsF Ha Ht') as Ef. destruct (word_slot a Ha8) as (k & Hk8 & Ek).
    assert (t ∈ tabs) as Hin by (apply (so_tabs _ _ _ Hs); exists r, (pfx a 1); split; [done|apply Hr]).
    destruct Hp as [(C & _ & C3 & C2)|(C & C1 & C2 & C3 & C4 & C5)].
    + rewrite C in *. constructor; [unfold user_word; by rewrite Ef, C2|intros Hb; by destruct (S2 Hb)|]. rewrite Ef. intros Hp2.
      destruct C3 as [C3|C3]; rewrite C3 in *; [|done]. specialize (S3 Hp2). congruence.
    + rewrite C in *. constructor.
      * unfold user_word. rewrite Ef, C2, Ek, C4 by done. rewrite <- S1, Ek. destruct (page_words own tabs s t (index_of a 1) k Hs Hin Hi C Hk8). by rewrite Hd.
      * intros Hb. rewrite Ef. split; [done|]. destruct (S2 Hb) as [_ HW]. by destruct (C5 HW).
      * by rewrite Ef.
Qed.

Lemma step_look_frames t virt l q s : step t virt l false 0 (with_frames q s) = (with_frames q s, snd (step t virt l false 0 s)).
Proof.
  unfold step. rewrite !rd_with_frames. change (has 0 PTE_USER) with false. destruct (has (rd s (t + 8 * index_of virt l)) PTE_PRESENT); cbn [negb]; [|done].
  rewrite rd_with_frames. by destruct (has (rd s (t + 8 * index_of virt l)) PTE_HUGE).
Qed.
Lemma step_look_state t virt l s : step t virt l false 0 s = (s, snd (step t virt l false 0 s)).
Proof.
  unfold step. change (has 0 PTE_USER) with false. destruct (has (rd s (t + 8 * index_of virt l)) PTE_PRESENT); cbn [negb]; [|done].
  by destruct (has (rd s (t + 8 * index_of virt l)) PTE_HUGE).
Qed.
Lemma page_entry_frames r a q s : page_entry r a (with_frames q s) = page_entry r a s.
Proof.
  unfold page_entry, table_for. rewrite step_look_frames. pose proof (step_look_state r a 4 s) as E4.
  destruct (step r a 4 false 0 s) as [s4 c4]. cbn [snd] in *. injection E4 as ->. destruct (c4 =? 0); [done|].
  rewrite step_look_frames. pose proof (step_look_state c4 a 3 s) as E3. destruct (step c4 a 3 false 0 s) as [s3 c3]. cbn [snd] in *. injection E3 as ->.
  destruct (c3 =? 0); [done|]. cbv zeta. rewrite !rd_with_frames, step_look_frames. cbn [negb].
  destruct (has (rd s (c3 + 8 * index_of a 2)) PTE_PRESENT && has (rd s (c3 + 8 * index_of a 2)) PTE_HUGE); [done|].
  pose proof (step_look_state c3 a 2 s) as E2. destruct (step c3 a 2 false 0 s) as [s2 c2]. cbn [snd] in *. injection E2 as ->. by destruct (c2 =? 0).
Qed.

Lemma exit_refines own tabs s M r m : spaces_ok own tabs s -> models own s M -> M !! r = Some m ->
  exists own' tabs', spaces_ok own' tabs' (paging_free_directory r s) /\ models own' (paging_free_directory r s) (delete r M).
Proof.
  intros Hs HM Hm. destruct (HM r m Hm) as [Hr _]. destruct (free_directory_spec own tabs s r Hs Hr) as (A & q & E). cbv zeta in A. rewrite E in *.
  eexists _, _. split; [exact A|]. intros r2 m2 Hm2. apply lookup_delete_Some in Hm2 as [Hne Hm2]. destruct (HM r2 m2 Hm2) as [[Ho Hk] Hw].
  split; [split; [|exact Hk]|].
  - apply without_some. split; [done|]. unfold owned_by. rewrite Ho. by apply Z.eqb_neq.
  - intros a Ha. destruct (Hw a Ha) as [S1 S2 S3]. constructor; unfold user_word in *; rewrite page_entry_frames; done.
Qed.

(** A page for an address where there is none. *)
Lemma fill_refines own tabs s M t m a err (s' : vm) ok : spaces_ok own tabs s -> models own s M -> M !! dir t = Some m -> word_at a ->
  words m a = None -> user_fault_fill a err t s = (s', ok) ->
  exists own' tabs', spaces_ok own' tabs' s' /\
    ((ok = false /\ models own' s' M) \/
     (ok = true /\ exists rw, models own' s' (<[dir t := with_page a (Some 0) rw m]> M) /\ (has err 2 = true -> rw = true) /\
        counted (page_entry (dir t) a s') = true /\ has (page_entry (dir t) a s') PTE_RW = rw)).
Proof.
  intros Hs HM Hm Ha0 Hw0 E. pose proof Ha0 as [Ha Ha8]. destruct (HM _ _ Hm) as [Hr Hw]. destruct (Hw a Ha0) as [S1 S2 S3]. destruct (page_same a Ha) as (Hpa & _ & _).
  pose proof (so_tables _ _ _ Hs) as Htk.
  assert (has (page_entry (dir t) a s) PTE_PRESENT = false) as Habs.
  { destruct (has (page_entry (dir t) a s) PTE_PRESENT) eqn:Ep; [|done]. specialize (S3 eq_refl). unfold user_word in S1. rewrite S3, Hw0 in S1. done. }
  assert (page_down a = page_of a) as Epd.
  { unfold page_down, page_of, PAGE_SIZE. change 4096 with (2 ^ 12). apply mask_down; [lia|]. unfold is_word. destruct Ha. lia. }
  assert (virt_to_phys_in (dir t) (page_of a) s = 0) as Hv.
  { rewrite (phys_of own tabs), (page_entry_page own) by done. by rewrite Habs. }
  assert (forall fl, fl = 7 \/ fl = 5 -> (has err 2 = true -> has fl PTE_RW = true) -> forall s' ok,
    (let (s, frame) := give_page (dir t) (page_of a) fl s in (s, negb (frame =? 0))) = (s', ok) -> exists own' tabs', spaces_ok own' tabs' s' /\
    ((ok = false /\ models own' s' M) \/
     (ok = true /\ exists rw, models own' s' (<[dir t := with_page a (Some 0) rw m]> M) /\ (has err 2 = true -> rw = true) /\
        counted (page_entry (dir t) a s') = true /\ has (page_entry (dir t) a s') PTE_RW = rw))) as Hgive.
  { clear E. intros fl Hfl Herr s2 ok2 E. destruct (give_page (dir t) (page_of a) fl s) as [s3 c] eqn:Eg. injection E as <- <-.
    destruct (give_refines own tabs s M (dir t) m a fl s3 c Hs HM Hm Ha Eg Hfl) as (own' & tabs' & G1 & G2 & G3 & _). exists own', tabs'. split; [done|].
    destruct (Z.eqb_spec c 0) as [->|Hn]; [by left|right]. split; [done|]. exists (has fl PTE_RW). destruct (G3 Hn). done. }
  assert (forall s' ok, (s, false) = (s', ok) -> exists own' tabs', spaces_ok own' tabs' s' /\
    ((ok = false /\ models own' s' M) \/
     (ok = true /\ exists rw, models own' s' (<[dir t := with_page a (Some 0) rw m]> M) /\ (has err 2 = true -> rw = true) /\
        counted (page_entry (dir t) a s') = true /\ has (page_entry (dir t) a s') PTE_RW = rw))) as Hno.
  { intros s2 ok2 [= <- <-]. exists own, tabs. split; [done|]. by left. }
  unfold user_fault_fill in E. rewrite Epd, Hv in E. cbn [negb Z.eqb] in E.
  destruct (has err 1); [by apply Hno|]. destruct (dir t =? 0); [by apply Hno|].
  destruct (((a <? USER_STACK_TOP) && (USER_STACK_TOP - USER_STACK_MAX <=? a)) || ((zero_lo t <=? a) && (a <? zero_hi t))).
  { apply (Hgive 7); [by left|done|exact E]. }
  destruct (vma_holding t a) as [v|]; [|by apply Hno]. destruct (has (prot_of v) PROT_WRITE) eqn:Ew; cbn [negb] in E.
  - rewrite andb_false_r in E. apply (Hgive 7); [by left|done|exact E].
  - rewrite andb_true_r in E. destruct (has err 2) eqn:E2; [by apply Hno|]. apply (Hgive 5); [by right|done|exact E].
Qed.

Lemma store_models own tabs s M r m a v : spaces_ok own tabs s -> models own s M -> M !! r = Some m -> word_at a -> is_u64 v ->
  counted (page_entry r a s) = true -> has (page_entry r a s) PTE_RW = true ->
  exists s', cpu_store r a v s = Some s' /\ spaces_ok own tabs s' /\ models own s' (<[r := put a v m]> M).
Proof.
  intros Hs HM Hm Ha Hv Hc Hw. destruct (HM r m Hm) as [Hr _]. pose proof (counted_present _ Hc) as Hp.
  assert (has (page_entry r a s) PTE_USER = true) as Hu by (unfold counted in Hc; rewrite !andb_true_iff in Hc; tauto).
  unfold cpu_store. rewrite (phys_of own tabs s r a Hs Hr (proj1 Ha)), Hp, Hu, Hw. cbn [andb]. eexists. split; [reflexivity|].
  destruct (store_spec own tabs s r a v Hs Hr Ha Hv Hc Hw) as (A & B & C). split; [exact A|].
  intros r2 m2 Hm2. assert (exists m0, M !! r2 = Some m0) as (m0 & Hm0).
  { destruct (Z.eq_dec r2 r) as [->|Hn]; [by exists m|]. rewrite lookup_insert_ne in Hm2 by done. by exists m2. }
  destruct (HM r2 m0 Hm0) as [Hr2 Hw2]. split; [exact Hr2|]. intros a2 Ha2. destruct (Hw2 a2 Ha2) as [S1 S2 S3].
  specialize (B r2 a2 Hr2 (proj1 Ha2)). specialize (C r2 a2 Hr2 Ha2). rewrite <- B in S2, S3. rewrite S1 in C.
  destruct (Z.eqb_spec r2 r) as [->|Hn].
  - rewrite lookup_insert_eq in Hm2. injection Hm2 as <-. assert (m0 = m) as -> by congruence. cbn [put words can_write]. constructor; [|done|done].
    rewrite C. cbn [andb]. done.
  - rewrite lookup_insert_ne in Hm2 by done. assert (m2 = m0) as -> by congruence. constructor; done.
Qed.

Lemma cow_models own tabs s M r m a (s' : vm) ok : spaces_ok own tabs s -> models own s M -> M !! r = Some m -> user_virt a ->
  paging_resolve_cow r a s = (s', ok) ->
  spaces_ok own tabs s' /\ models own s' M /\
  (ok = true -> counted (page_entry r a s') = true /\ has (page_entry r a s') PTE_RW = true) /\
  (ok = false -> has (page_entry r a s) PTE_PRESENT && has (page_entry r a s) PTE_COW = true -> snd (alloc s) = 0).
Proof.
  intros Hs HM Hm Ha E. destruct (HM r m Hm) as [Hr Hw]. pose proof (cow_spec own tabs s r a Hs Hr Ha) as Hc. rewrite E in Hc.
  destruct Hc as (Hs' & Hk & Hd & Hf & Ht). split; [done|]. destruct ok.
  - destruct (Ht eq_refl) as (Hce & v & Hcv & Hvw & Hv & He). split; [|split; [|done]].
    + rewrite <- (insert_id M r m Hm). apply (models_one own own tabs s s' M r m m a v); try done.
      intros x Hx Esp Ee. pose proof Hx as [Hx1 Hx8]. destruct (Hw x Hx) as [S1 S2 S3].
      assert (page_entry r x s = page_entry r a s) as Exa.
      { rewrite <- (page_entry_page own s r x), <- (page_entry_page own s r a) by (done || apply Hs). unfold page_of. unfold same_page in Esp. by apply Z.eqb_eq in Esp as ->. }
      unfold user_word in S1. rewrite Exa in *. rewrite Hce in S1. constructor; [unfold user_word; rewrite Ee, Hcv|intros _; rewrite Ee; split; [done|]; unfold writable; by rewrite Hvw|by rewrite Ee].
      destruct (word_slot x Hx8) as (k & Hk8 & Ek). rewrite Ek in *. by rewrite Hv.
    + intros _. rewrite He, !Z.eqb_refl by done. done.
  - destruct (Hf eq_refl) as [He Halloc]. split; [|done]. apply (models_kept own own tabs s); try done. intros r2 a2 Hr2 Ha2. left. by apply He.
Qed.

Definition full_of (s : vm) : bool := snd (alloc s) =? 0.
(** A state that models memories a call of the specification leads to. *)
Definition refined (own : owners) s M c (s' : vm) (out : option Z) : Prop :=
  exists own' tabs' M', spaces_ok own' tabs' s' /\ models own' s' M' /\ spec_call (full_of s) M c out M'.

Lemma load_refines own tabs s M t m a : spaces_ok own tabs s -> models own s M -> M !! dir t = Some m -> word_at a ->
  let (s', w) := user_load t a s in refined own s M (Load t a) s' w.
Proof.
  intros Hs HM Hm Ha. destruct (HM _ _ Hm) as [Hr Hw]. destruct (Hw a Ha) as [S1 S2 S3]. unfold user_load.
  assert (forall own1 tabs1 s1 M1 m1, spaces_ok own1 tabs1 s1 -> models own1 s1 M1 -> M1 !! dir t = Some m1 -> counted (page_entry (dir t) a s1) = true -> cpu_load (dir t) a s1 = words m1 a) as Hload.
  { intros own1 tabs1 s1 M1 m1 Hs1 HM1 Hm1 Hc. destruct (HM1 _ _ Hm1) as [Hr1 Hw1]. destruct (Hw1 a Ha) as [T1 _ _]. unfold cpu_load.
    rewrite (phys_of own1 tabs1) by (done || apply Ha). rewrite (counted_present _ Hc). unfold user_word in T1. rewrite Hc in T1.
    assert (has (page_entry (dir t) a s1) PTE_USER = true) as -> by (unfold counted in Hc; rewrite !andb_true_iff in Hc; tauto). done. }
  destruct (counted (page_entry (dir t) a s)) eqn:Hc.
  - rewrite (Hload own tabs s M m) by done. unfold user_word in S1. rewrite Hc in S1. rewrite <- S1. exists own, tabs, M. split; [done|]. split; [done|]. by apply (spec_load _ _ _ _ m).
  - assert (has (page_entry (dir t) a s) PTE_PRESENT = false) as Hp by (destruct (has (page_entry (dir t) a s) PTE_PRESENT); [by specialize (S3 eq_refl)|done]).
    assert (words m a = None) as Hwn by (unfold user_word in S1; by rewrite Hc in S1).
    unfold cpu_load at 1, error_code. rewrite Hp. cbn [andb]. unfold page_fault. change ((4 + 0 + 0) .& 3 =? 3) with false. cbv iota. change (4 + 0 + 0) with 4.
    destruct (user_fault_fill a 4 t s) as [s1 ok] eqn:E. destruct (fill_refines own tabs s M t m a 4 s1 ok Hs HM Hm Ha Hwn E) as (own' & tabs' & Hs' & [(-> & HM')|(-> & rw & HM' & _ & Hc' & _)]).
    + exists own', tabs', M. split; [done|]. split; [done|]. by apply (spec_load_none _ _ _ _ m).
    + rewrite (Hload own' tabs' s1 _ (with_page a (Some 0) rw m) Hs' HM' (lookup_insert_eq _ _ _) Hc'). cbn [with_page words]. unfold same_page. rewrite Z.eqb_refl.
      eexists own', tabs', _. split; [done|]. split; [exact HM'|]. by apply spec_load_filled.
Qed.

Lemma store_refines own tabs s M t m a v : spaces_ok own tabs s -> models own s M -> M !! dir t = Some m -> word_at a ->
  let (s', ok) := user_store t a (u64 v) s in refined own s M (Store t a v) s' (if ok then Some (u64 v) else None).
Proof.
  intros Hs HM Hm Ha. destruct (HM _ _ Hm) as [Hr Hw]. destruct (Hw a Ha) as [S1 S2 S3]. unfold user_store.
  assert (is_u64 (u64 v)) as Hv by apply u64_is_word.
  destruct (counted (page_entry (dir t) a s)) eqn:Hc.
  - assert (exists x, words m a = Some x) as (x & Hx) by (unfold user_word in S1; rewrite Hc in S1; eauto).
    destruct (has (page_entry (dir t) a s) PTE_RW) eqn:HRW.
    { destruct (store_models own tabs s M (dir t) m a (u64 v) Hs HM Hm Ha Hv Hc HRW) as (s' & -> & Hs' & HM').
      eexists own, tabs, _. split; [done|]. split; [exact HM'|]. by apply (spec_store _ _ _ _ _ m x). }
    unfold cpu_store at 1, error_code. rewrite HRW, andb_false_r, (counted_present _ Hc). change (4 + 2 + 1) with 7.
    unfold page_fault. change (7 .& 3 =? 3) with true. cbv iota. destruct (paging_resolve_cow (dir t) a s) as [s1 ok] eqn:E.
    destruct (cow_models own tabs s M (dir t) m a s1 ok Hs HM Hm (proj1 Ha) E) as (Hs1 & HM1 & Hok & Hfail). destruct ok.
    + destruct (Hok eq_refl) as [Hc1 HRW1]. destruct (store_models own tabs s1 M (dir t) m a (u64 v) Hs1 HM1 Hm Ha Hv Hc1 HRW1) as (s' & -> & Hs' & HM').
      eexists own, tabs, _. split; [done|]. split; [exact HM'|]. by apply (spec_store _ _ _ _ _ m x).
    + assert (user_fault_fill a 7 t s1 = (s1, false)) as -> by reflexivity. exists own, tabs, M. split; [done|]. split; [done|].
      apply (spec_store_none _ _ _ _ _ m); [done|]. intros Hb. destruct (S2 Hb) as [_ HW]. unfold writable in HW. rewrite HRW in HW. cbn [orb] in HW.
      apply Z.eqb_eq, Hfail; [done|]. by rewrite (counted_present _ Hc), HW.
  - assert (has (page_entry (dir t) a s) PTE_PRESENT = false) as Hp by (destruct (has (page_entry (dir t) a s) PTE_PRESENT); [by specialize (S3 eq_refl)|done]).
    assert (words m a = None) as Hwn by (unfold user_word in S1; by rewrite Hc in S1).
    unfold cpu_store at 1, error_code. rewrite Hp. cbn [andb]. unfold page_fault. change ((4 + 2 + 0) .& 3 =? 3) with false. cbv iota. change (4 + 2 + 0) with 6.
    destruct (user_fault_fill a 6 t s) as [s1 ok] eqn:E. destruct (fill_refines own tabs s M t m a 6 s1 ok Hs HM Hm Ha Hwn E) as (own' & tabs' & Hs' & [(-> & HM')|(-> & rw & HM' & Hrw & Hc' & HRW')]).
    + exists own', tabs', M. split; [done|]. split; [done|]. apply (spec_store_none _ _ _ _ _ m); [done|]. intros Hb. by destruct (S2 Hb).
    + rewrite (Hrw eq_refl) in *. destruct (store_models own' tabs' s1 _ (dir t) _ a (u64 v) Hs' HM' (lookup_insert_eq _ _ _) Ha Hv Hc' HRW') as (s' & -> & Hs2 & HM2).
      rewrite insert_insert_eq in HM2. eexists own', tabs', _. split; [exact Hs2|]. split; [exact HM2|]. by apply spec_store_filled.
Qed.

(** ** Runs *)

Fixpoint run (cs : list call) (x : vm * list Z) : vm * list Z * list (bool * option Z) :=
  match cs with
  | [] => (x, [])
  | c :: cs =>
      let '(y, out) := do_call c x in
      let '(z, trace) := run cs y in (z, (full_of x.1, out) :: trace)
  end.
Inductive spec_run : gmap Z memory -> list call -> list (bool * option Z) -> gmap Z memory -> Prop :=
| run_nil M : spec_run M [] [] M
| run_cons M full c out M1 cs trace M2 : spec_call full M c out M1 -> spec_run M1 cs trace M2 ->
    spec_run M (c :: cs) ((full, out) :: trace) M2.

Definition implements (own : owners) (tabs : list Z) (x : vm * list Z) (M : gmap Z memory) : Prop :=
  spaces_ok own tabs x.1 /\ models own x.1 M /\ forall r, r ∈ x.2 <-> is_Some (M !! r).

Lemma live_insert (M : gmap Z memory) (live : list Z) f m : (forall r, r ∈ live <-> is_Some (M !! r)) -> forall r, r ∈ f :: live <-> is_Some (<[f := m]> M !! r).
Proof.
  intros Hl r. rewrite list.elem_of_cons, lookup_insert_is_Some', Hl. naive_solver.
Qed.
Lemma spec_call_live full M c out M' : spec_call full M c out M' -> c <> New -> (forall r, c <> Fork r) -> (forall r, c <> Exit r) ->
  forall r, is_Some (M' !! r) <-> is_Some (M !! r).
Proof.
  intros Hc HN HF HE r. destruct Hc; try done; try (by destruct (HF r0)); try (by destruct (HE r0));
    rewrite lookup_insert_is_Some'; (split; [intros [<-|?]; [by eauto|done]|by right]).
Qed.

Lemma call_refines own tabs c x M : implements own tabs x M ->
  let '(y, out) := do_call c x in
  exists own' tabs' M', implements own' tabs' y M' /\ spec_call (full_of x.1) M c out M'.
Proof.
  destruct x as [s live]. intros (Hs & HM & Hl). cbn [fst snd] in *.
  assert (forall r, bool_decide (r ∈ live) = bool_decide (is_Some (M !! r))) as Hb.
  { intros r. apply bool_decide_ext. apply Hl. }
  assert (forall own' tabs' M' s' out, spaces_ok own' tabs' s' -> models own' s' M' -> spec_call (full_of s) M c out M' -> c <> New -> (forall r, c <> Fork r) ->
    (forall r, c <> Exit r) -> exists own' tabs' M', implements own' tabs' (s', live) M' /\ spec_call (full_of s) M c out M') as Hkeep.
  { intros own' tabs' M' s' out A B C N1 N2 N3. exists own', tabs', M'. split; [|done]. split; [done|]. split; [done|]. intros r. cbn [snd].
    rewrite (spec_call_live _ _ _ _ _ C N1 N2 N3). apply Hl. }
  assert (allowed M c = false -> exists own' tabs' M', implements own' tabs' (s, live) M' /\ spec_call (full_of s) M c None M') as Hrefuse.
  { intros Hr. exists own, tabs, M. split; [done|]. by apply spec_refused. }
  unfold do_call, in_space. destruct c as [|r|r|r a rw|r a|t a|t a v]; rewrite ?Hb.
  - destruct (paging_new_directory s) as [s' f] eqn:E. destruct (new_refines own tabs s M s' f Hs HM E) as (own' & tabs' & A & B & C).
    unfold none_if_zero. destruct (Z.eqb_spec f 0) as [->|Hn].
    + exists own', tabs', M. split; [done|apply spec_new_none].
    + exists own', tabs', (<[f := no_memory]> M). split; [|by apply spec_new, C]. split; [done|]. split; [done|]. by apply live_insert.
  - destruct (bool_decide (is_Some (M !! r))) eqn:E; cbn [negb]; [|by apply Hrefuse]. apply bool_decide_eq_true in E as [m Hm].
    destruct (paging_clone_directory r s) as [s' f] eqn:E. destruct (fork_refines own tabs s M r m s' f Hs HM Hm E) as (own' & tabs' & A & B & C).
    unfold none_if_zero. destruct (Z.eqb_spec f 0) as [->|Hn].
    + exists own', tabs', M. split; [done|apply spec_fork_none].
    + exists own', tabs', (<[f := m]> M). split; [|by apply spec_fork; [|apply C]]. split; [done|]. split; [done|]. by apply live_insert.
  - destruct (bool_decide (is_Some (M !! r))) eqn:E; cbn [negb]; [|by apply Hrefuse]. apply bool_decide_eq_true in E as [m Hm].
    destruct (exit_refines own tabs s M r m Hs HM Hm) as (own' & tabs' & A & B). exists own', tabs', (delete r M). split; [|apply spec_exit].
    split; [done|]. split; [done|]. intros r2. cbn [snd]. rewrite list_elem_of_filter, Hl, lookup_delete_is_Some. naive_solver.
  - destruct (bool_decide (is_Some (M !! r)) && is_word_at a) eqn:E; cbn [negb]; [|by apply Hrefuse].
    apply andb_true_iff in E as [E1 Ea%is_word_at_spec]. apply bool_decide_eq_true in E1 as [m Hm].
    destruct (give_page r (page_of a) (PTE_PRESENT .| PTE_USER .| (if rw then PTE_RW else 0)) s) as [s' f] eqn:E.
    assert (PTE_PRESENT .| PTE_USER .| (if rw then PTE_RW else 0) = if rw then 7 else 5) as Efl by (by destruct rw). rewrite Efl in E.
    destruct (give_refines own tabs s M r m a (if rw then 7 else 5) s' f Hs HM Hm (proj1 Ea) E ltac:(destruct rw; auto)) as (own' & tabs' & A & B & _).
    assert (has (if rw then 7 else 5) PTE_RW = rw) as Erw by (by destruct rw). rewrite Erw in B. unfold none_if_zero.
    destruct (Z.eqb_spec f 0) as [->|Hn]; eapply Hkeep; try done; [by apply spec_give_none|by apply spec_give].
  - destruct (bool_decide (is_Some (M !! r)) && is_word_at a) eqn:E; cbn [negb]; [|by apply Hrefuse].
    apply andb_true_iff in E as [E1 Ea%is_word_at_spec]. apply bool_decide_eq_true in E1 as [m Hm].
    destruct (unmap_refines own tabs s M r m a Hs HM Hm Ea) as [A B]. eapply Hkeep; [exact A|exact B| |done..]. by apply spec_unmap.
  - destruct (bool_decide (is_Some (M !! dir t)) && is_word_at a) eqn:E; cbn [negb]; [|by apply Hrefuse].
    apply andb_true_iff in E as [E1 Ea%is_word_at_spec]. apply bool_decide_eq_true in E1 as [m Hm].
    pose proof (load_refines own tabs s M t m a Hs HM Hm Ea) as Hr. destruct (user_load t a s) as [s' w]. destruct Hr as (own' & tabs' & M' & A & B & C).
    by eapply Hkeep.
  - destruct (bool_decide (is_Some (M !! dir t)) && is_word_at a) eqn:E; cbn [negb]; [|by apply Hrefuse].
    apply andb_true_iff in E as [E1 Ea%is_word_at_spec]. apply bool_decide_eq_true in E1 as [m Hm].
    pose proof (store_refines own tabs s M t m a v Hs HM Hm Ea) as Hr. destruct (user_store t a (u64 v) s) as [s' ok]. destruct Hr as (own' & tabs' & M' & A & B & C).
    by eapply Hkeep.
Qed.

Lemma run_refines cs : forall own tabs x M, implements own tabs x M ->
  let '(y, trace) := run cs x in exists own' tabs' M', implements own' tabs' y M' /\ spec_run M cs trace M'.
Proof.
  induction cs as [|c cs IH]; intros own tabs x M Hi; cbn [run].
  - exists own, tabs, M. split; [done|constructor].
  - pose proof (call_refines own tabs c x M Hi) as Hc. destruct (do_call c x) as [y out]. destruct Hc as (own1 & tabs1 & M1 & Hi1 & Hsp).
    specialize (IH own1 tabs1 y M1 Hi1). destruct (run cs y) as [z trace]. destruct IH as (own2 & tabs2 & M2 & Hi2 & Hr).
    exists own2, tabs2, M2. split; [done|]. by econstructor.
Qed.

(** A kernel with no spaces yet. *)
Lemma boot_implements own s : tables_ok own s -> (forall t r l p, own t = Some (r, l, p) -> r = kernel_pml4 s) -> implements own [] (s, []) ∅.
Proof.
  intros Hs Hk. split; [|split; [intros r m Hm; by rewrite lookup_empty in Hm|]].
  - constructor; [done|by apply list.NoDup_nil| | |intros; exfalso; eapply not_elem_of_nil; eassumption..].
    + intros t. split; [intros Ht; by apply not_elem_of_nil in Ht|]. intros (r & p & Ht & Hr). by destruct (Hr (Hk _ _ _ _ Ht)).
    + intros f. cbn [fst refs foldr]. unfold is_table. destruct (own (f * 4096)) as [[[r l] p]|] eqn:E.
      * destruct (tk_table _ _ Hs _ _ _ _ E) as (_ & _ & Hh & _). rewrite Z.div_mul in Hh by lia. cbn [fst]. lia.
      * apply held_nonneg, Hs.
  - intros r. cbn [snd]. rewrite lookup_empty. split; [intros Hr; by apply not_elem_of_nil in Hr|intros [? ?]; done].
Qed.
End Programs.

(** ** The machine of pmm.c and paging.c *)

(** C1: From a kernel with no programs, whatever spaces are made, forked, ended and
    given pages and whatever their programs load and store, in any order, the machine does
    what programs with memories of their own would: a load gives what that program stored
    last or its space was forked with, a fork gives a space with the same words, and no
    program's store, fault, end or page taken away changes a word of another's. A store to
    a page known to be writable fails only when no frame is free. *)
Theorem programs_keep_their_own_memory (own : owners) (s : vm (P := pmm)) (cs : list call)
    (Hs : tables_ok own s) (Hk : forall t r l p, own t = Some (r, l, p) -> r = kernel_pml4 s) :
  let '(s', live, trace) := run cs (s, []) in
  exists M, spec_run ∅ cs trace M /\ (forall r, r ∈ live <-> is_Some (M !! r)) /\
    forall r m a, M !! r = Some m -> word_at a -> user_word r a s' = words m a.
Proof.
  pose proof (run_refines cs own [] (s, []) ∅ (boot_implements own s Hs Hk)) as Hr. destruct (run cs (s, [])) as [[s' live] trace].
  destruct Hr as (own' & tabs' & M & (_ & HM & Hl) & Hrun). exists M. split; [exact Hrun|]. split; [exact Hl|].
  intros r m a Hm Ha. destruct (HM r m Hm) as [_ Hw]. apply (se_word _ _ _ _ _ (Hw a Ha)).
Qed.

Definition one_frame : pmm := pmm_share_init true (fst (pmm_alloc_frame small)).
Definition boot_vm : vm (P := pmm) := Vm ∅ one_frame KTOP KTOP 0 0 false.
Definition boot_own : owners := fun t => if t =? KTOP then Some (KTOP, 4, 0) else None.
Lemma boot_vm_ok : tables_ok boot_own boot_vm.
Proof.
  assert (forall t x, boot_own t = Some x -> t = KTOP /\ x = (KTOP, 4, 0)) as Hinv.
  { intros t x. unfold boot_own. destruct (Z.eqb_spec t KTOP); [by intros [= <-]|done]. }
  assert (forall a, rd boot_vm a = 0) as Hrd by (intros a; reflexivity).
  assert (boot_own KTOP = Some (KTOP, 4, 0)) as Ho by (unfold boot_own; by rewrite Z.eqb_refl).
  constructor.
  - destruct (pmm_init_spec _ _ _ _ _ small_boot) as (H0 & _). rewrite <- small_eq in H0.
    exact (proj1 (pmm_share_init_spec _ true (proj1 (pmm_alloc_spec small H0)))).
  - intros a. rewrite Hrd. by split.
  - intros t r l p [-> [= -> -> ->]]%Hinv. split; [reflexivity|]. split; [split; reflexivity|]. split; [vm_compute; reflexivity|]. split; [lia|]. by exists 4, 0.
  - intros t r l p i c [-> [= -> -> ->]]%Hinv _ _. by rewrite Hrd.
  - intros c r l q [-> [= -> -> ->]]%Hinv Hn. by destruct Hn.
  - exact Ho.
  - by rewrite Hrd.
  - intros t r l p i _ _ _ _. by rewrite Hrd.
Qed.

Definition a_task (r : Z) : task_t := Task r 0 0 (replicate 16 no_vma) 0 0 0.
(** The first word of the page under the top of the stack. *)
Definition a_word : Z := USER_STACK_TOP - 4096.
Definition first_space : Z := Eval vm_compute in default 0 (snd (do_call New (boot_vm, []))).
Definition forked_space : Z := Eval vm_compute in
  default 0 (snd (do_call (Fork first_space) (fst (run [New; Store (a_task first_space) a_word 5] (boot_vm, []))))).

Lemma programs_keep_their_own_memory_witness :
  let cs := [New; Store (a_task first_space) a_word 5; Fork first_space; Store (a_task forked_space) a_word 9;
             Load (a_task first_space) a_word; Load (a_task forked_space) a_word] in
  snd <$> snd (run cs (boot_vm, [])) = [Some first_space; Some 5; Some forked_space; Some 9; Some 5; Some 9] /\
  exists M, spec_run ∅ cs (snd (run cs (boot_vm, []))) M.
Proof.
  cbv zeta. split; [vm_compute; reflexivity|].
  assert (forall t r l p, boot_own t = Some (r, l, p) -> r = kernel_pml4 boot_vm) as Hk.
  { intros t r l p. unfold boot_own. destruct (t =? KTOP); [by intros [= <- _ _]|done]. }
  match goal with |- context [run ?cs _] => pose proof (programs_keep_their_own_memory boot_own boot_vm cs boot_vm_ok Hk) as H; destruct (run cs (boot_vm, [])) as [[s' live] trace] end.
  destruct H as (M & HM & _). by exists M.
Defined.

(** A page a program may only read, in a range it asked for so, becomes one it may write
    after a fork: [copy_table] marks every shared page, and the write fault makes a marked
    page writable without asking whether it ever was. *)
Definition read_only_task (r : Z) : task_t := Task r 0 0 (Vma USER_MMAP_BASE 4096 1 :: replicate 15 no_vma) 1 0 0.
Example read_only_until_fork :
  snd <$> snd (run [New; Load (read_only_task first_space) USER_MMAP_BASE; Store (read_only_task first_space) USER_MMAP_BASE 7;
                    Fork first_space; Store (read_only_task first_space) USER_MMAP_BASE 7] (boot_vm, []))
  = [Some first_space; Some 0; None; Some forked_space; Some 7].
Proof. vm_compute. reflexivity. Qed.
