(* ===== verification/Loading.v ===== *)
(** A space while the kernel fills it for a program that does not run yet: the bytes of its
    pages, as the loader (kernel/elf.c) and the building of the stack (kernel/user.c) change
    them, and the other spaces keeping theirs. *)
From S2P Require Import Prelude Pmm Frames Paging Fork Clone Spaces User Programs.

(** ** Bytes of a word *)

Definition byte_of (w k : Z) : Z := (w .>> (8 * k)) .& 0xFF.
Definition put_byte (w k b : Z) : Z := (w .& Z.lnot (0xFF .<< (8 * k))) .| (b .<< (8 * k)).

Lemma testbit_255 n : 0 <= n -> Z.testbit 0xFF n = (n <? 8).
Proof. intros Hn. change 0xFF with (Z.ones 8). rewrite Z.testbit_ones_nonneg by lia. done. Qed.
Lemma testbit_byte_of w k n : 0 <= k -> 0 <= n -> Z.testbit (byte_of w k) n = (n <? 8) && Z.testbit w (n + 8 * k).
Proof. intros Hk Hn. unfold byte_of. rewrite Z.land_spec, testbit_255, Z.shiftr_spec by lia. apply andb_comm. Qed.
Lemma testbit_put_byte w k b n : 0 <= k -> 0 <= n -> is_u8 b ->
  Z.testbit (put_byte w k b) n = if (8 * k <=? n) && (n <? 8 * k + 8) then Z.testbit b (n - 8 * k) else Z.testbit w n.
Proof.
  intros Hk Hn Hb. unfold put_byte. rewrite Z.lor_spec, Z.land_spec, Z.lnot_spec, !Z.shiftl_spec by lia.
  destruct (Z.leb_spec (8 * k) n); cbn [andb].
  - rewrite testbit_255 by lia. destruct (Z.ltb_spec (n - 8 * k) 8), (Z.ltb_spec n (8 * k + 8)); try lia; cbn [negb].
    + by rewrite andb_false_r.
    + rewrite (is_word_testbit 8 b) by (done || lia). by rewrite andb_true_r, orb_false_r.
  - rewrite !(Z.testbit_neg_r _ (n - 8 * k)) by lia. by rewrite andb_true_r, orb_false_r.
Qed.
Lemma byte_of_put w k b j : 0 <= k -> 0 <= j -> is_u8 b -> byte_of (put_byte w k b) j = if j =? k then b else byte_of w j.
Proof.
  intros Hk Hj Hb. bits. rewrite testbit_byte_of, testbit_put_byte by (done || lia).
  destruct (Z.ltb_spec n 8); cbn [andb].
  - destruct (Z.leb_spec (8 * k) (n + 8 * j)), (Z.ltb_spec (n + 8 * j) (8 * k + 8)), (Z.eqb_spec j k); try lia; cbn [andb].
    + f_equal. lia.
    + rewrite testbit_byte_of by lia. by rewrite (proj2 (Z.ltb_lt n 8)).
    + rewrite testbit_byte_of by lia. by rewrite (proj2 (Z.ltb_lt n 8)).
  - case_bool; [by rewrite (is_word_testbit 8 b)|]. rewrite testbit_byte_of by lia. by rewrite (proj2 (Z.ltb_ge n 8)).
Qed.
Lemma put_byte_word w k b : 0 <= k < 8 -> is_u64 w -> is_u8 b -> is_u64 (put_byte w k b).
Proof.
  intros Hk Hw Hb. apply is_word_bits; [lia|]. split.
  - unfold put_byte. apply Z.lor_nonneg. split; [apply Z.land_nonneg; left; apply Hw|apply Z.shiftl_nonneg, Hb].
  - intros n Hn. rewrite testbit_put_byte by (done || lia). rewrite (proj2 (Z.ltb_ge n (8 * k + 8))) by lia. rewrite andb_false_r. by apply (is_word_testbit 64).
Qed.
Lemma byte_of_word w k : 0 <= k -> is_u8 (byte_of w k).
Proof. intros. unfold byte_of. change 255 with (Z.ones 8). rewrite Z.land_ones by lia. apply u8_is_word. Qed.

Section Loading.
Context {P : Type} `{FrameAllocatorLaws P}.
Notation vm := (vm (P := P)).
Implicit Types s : vm.

Definition user_byte (r x : Z) s : option Z := (fun w => byte_of w (x mod 8)) <$> user_word r (x / 8 * 8) s.

(** The space [r] being filled, with the bytes [B] in its pages, all its own and writable;
    the memories of the other spaces are [M]. *)
Record loading (own : owners) (tabs : list Z) s (M : gmap Z memory) (r : Z) (B : Z -> option Z) : Prop := {
  ld_spaces : spaces_ok own tabs s;
  ld_models : models own s M;
  ld_other : M !! r = None;
  ld_space : space own s r;
  ld_plain : forall a, user_virt a -> has (page_entry r a s) PTE_PRESENT = true ->
    counted (page_entry r a s) = true /\ has (page_entry r a s) PTE_RW = true;
  ld_bytes : forall x, user_virt x -> user_byte r x s = B x
}.
Definition loads s M r B : Prop := exists own tabs, loading own tabs s M r B.

Lemma word_at_base x : user_virt x -> word_at (x / 8 * 8).
Proof. intros Hx. split; [unfold user_virt in *; dlia|dlia]. Qed.
Lemma word_base_page x : x / 8 * 8 / 4096 = x / 4096.
Proof. dlia. Qed.

Lemma base_entry own s r x : tables_ok own s -> space own s r -> user_virt x -> page_entry r (x / 8 * 8) s = page_entry r x s.
Proof.
  intros Hs Hr Hx. rewrite <- (page_entry_page own s r (x / 8 * 8)), <- (page_entry_page own s r x) by (done || apply (word_at_base x Hx)).
  unfold page_of. by rewrite word_base_page.
Qed.

Lemma user_byte_some own tabs s M r B x : loading own tabs s M r B -> user_virt x ->
  has (page_entry r x s) PTE_PRESENT = bool_decide (is_Some (B x)).
Proof.
  intros [Hs _ _ Hr Hp Hb] Hx. rewrite <- Hb by done. unfold user_byte, user_word.
  rewrite (base_entry own) by (done || apply Hs).
  destruct (counted (page_entry r x s)) eqn:E.
  - rewrite (counted_present _ E). symmetry. by apply bool_decide_eq_true.
  - destruct (has (page_entry r x s) PTE_PRESENT) eqn:E2; [destruct (Hp x Hx E2); congruence|]. symmetry. apply bool_decide_eq_false. by intros [? ?].
Qed.

(** The frame a byte is in. *)
Lemma user_phys own tabs s M r B x b : loading own tabs s M r B -> user_virt x -> B x = Some b ->
  virt_to_phys_in r x s = addr_of (page_entry r x s) + x mod 4096 /\ 0 < addr_of (page_entry r x s) /\ addr_of (page_entry r x s) mod 4096 = 0.
Proof.
  intros Hl Hx Hb. pose proof (user_byte_some own tabs s M r B x Hl Hx) as E. rewrite Hb in E. rewrite bool_decide_eq_true_2 in E by done.
  destruct Hl as [Hs _ _ Hr Hp _]. destruct (Hp x Hx E) as [Hc _]. destruct (entry_counted own tabs s r x Hs Hr Hx Hc) as (t & Ht & Hin & Ee).
  destruct (page_held own tabs s t (index_of x 1) Hs Hin (index_of_range x 1) ltac:(by rewrite <- Ee)) as (_ & _ & Hpos & Hal & _). rewrite <- Ee in Hpos, Hal.
  split; [rewrite (phys_of own tabs) by done; by rewrite E|]. split; [lia|done].
Qed.
Lemma user_phys_none own tabs s M r B x : loading own tabs s M r B -> user_virt x -> (virt_to_phys_in r x s =? 0) = negb (bool_decide (is_Some (B x))).
Proof.
  intros Hl Hx. rewrite <- (user_byte_some own tabs s M r B x Hl Hx). destruct (has (page_entry r x s) PTE_PRESENT) eqn:E; cbn [negb].
  - rewrite (user_byte_some own tabs s M r B x Hl Hx) in E. apply bool_decide_eq_true in E as [b Hb].
    destruct (user_phys own tabs s M r B x b Hl Hx Hb) as (-> & Hpos & _). apply Z.eqb_neq. pose proof (Z.mod_pos_bound x 4096). lia.
  - destruct Hl as [Hs _ _ Hr _ _]. rewrite (phys_of own tabs) by done. by rewrite E.
Qed.

Lemma loading_ext own tabs s M r B B' : loading own tabs s M r B -> (forall x, user_virt x -> B' x = B x) -> loading own tabs s M r B'.
Proof. intros [A1 A2 A3 A4 A5 A6] HB. constructor; try done. intros x Hx. rewrite HB by done. by apply A6. Qed.
Lemma loads_ext s M r B B' : loads s M r B -> (forall x, user_virt x -> B' x = B x) -> loads s M r B'.
Proof. intros (own & tabs & Hl) HB. exists own, tabs. by eapply loading_ext. Qed.

(** The other spaces, when an entry of this one changes. *)
Lemma models_others own own' tabs s s' M r a v : spaces_ok own tabs s -> models own s M -> M !! r = None ->
  (forall t x, own t = Some x -> own' t = Some x) -> kernel_pml4 s' = kernel_pml4 s -> one_entry own s s' r a v -> models own' s' M.
Proof.
  intros Hs HM Hr Ho Hk [He Hd] r2 m2 Hm2. destruct (HM r2 m2 Hm2) as [Hr2 Hw]. split; [by eapply space_keeps|]. intros x Hx.
  apply (sees_kept own tabs s); try done; [|by apply Hw]. left. pose proof (He r2 x Hr2 (proj1 Hx)) as E.
  destruct (Z.eqb_spec r2 r) as [->|]; [congruence|done].
Qed.

(** A page of zeroes where there is none. *)
Lemma loading_page s M r B a : loads s M r B -> user_virt a -> a mod 4096 = 0 -> B a = None ->
  let (s', f) := alloc_user_page r a s in
  if f =? 0 then loads s' M r B
  else loads s' M r (fun x => if same_page x a then Some 0 else B x) /\ virt_to_phys_in r a s' = f /\
    (forall x, user_virt x -> same_page x a = false -> virt_to_phys_in r x s' = virt_to_phys_in r x s).
Proof.
  intros (own & tabs & Hl) Ha Hal HB. pose proof Hl as [Hs HM Hrn Hr Hp Hb]. pose proof (so_tables _ _ _ Hs) as Htk. unfold alloc_user_page.
  change (PTE_PRESENT .| PTE_RW .| PTE_USER) with 7. destruct (give_page_spec own tabs s r a 7 Hs Hr Ha ltac:(by left)) as (own' & tabs' & Hg).
  destruct (give_page r a 7 s) as [s' f]. destruct Hg as (Hs' & Ho & Hk & Hg). pose proof (space_keeps own own' s s' r Ho Hk Hr) as Hr'.
  assert (forall x, same_page x a = false -> user_virt x -> forall v, one_entry own s s' r a v -> page_entry r x s' = page_entry r x s) as Hother.
  { intros x Hx Hxu v [He _]. rewrite He by done. rewrite Z.eqb_refl, !pfx0. unfold same_page in Hx. by rewrite Hx. }
  assert (forall x v, user_virt x -> one_entry own s s' r a v -> page_entry r x s' = page_entry r x s -> has (page_entry r x s) PTE_PRESENT = true -> user_byte r x s' = user_byte r x s) as Hsame.
  { intros x v Hx [_ Hd] E Hpr. destruct (Hp x Hx Hpr) as [Hc _]. unfold user_byte, user_word.
    rewrite (base_entry own s), (base_entry own' s'), E, Hc by (done || apply Hs'). destruct (entry_counted own tabs s r x Hs Hr Hx Hc) as (t & Ht & Hin & Ee). rewrite Ee in *.
    destruct (word_slot (x / 8 * 8) ltac:(dlia)) as (k & Hk8 & ->). destruct (page_words own tabs s t (index_of x 1) k Hs Hin (index_of_range x 1) Hc Hk8). by rewrite Hd. }
  assert (forall x v, user_virt x -> one_entry own s s' r a v -> page_entry r x s' = page_entry r x s -> user_byte r x s' = B x) as Hkeep.
  { intros x v Hx He E. rewrite <- Hb by done. destruct (has (page_entry r x s) PTE_PRESENT) eqn:Hpr; [by apply (Hsame x v)|].
    assert (forall s0 (own0 : owners), tables_ok own0 s0 -> space own0 s0 r -> has (page_entry r x s0) PTE_PRESENT = false -> user_byte r x s0 = None) as Hnone.
    { intros s0 own0 Hs0 Hr0 Hn. unfold user_byte, user_word. rewrite (base_entry own0) by done. unfold counted. by rewrite Hn. }
    rewrite (Hnone s' own'), (Hnone s own); (done || apply Hs' || congruence). }
  assert (same_page a a = true) as Haa by apply Z.eqb_refl.
  destruct Hg as [(-> & He)|(Hf & Hfal & He & Hz)].
  - cbn [Z.eqb]. exists own', tabs'. assert (forall x, user_virt x -> page_entry r x s' = page_entry r x s) as Hpe.
    { intros x Hx. rewrite (proj1 He r x Hr Hx), Z.eqb_refl, !pfx0. cbn [andb]. destruct (Z.eqb_spec (x / 4096) (a / 4096)) as [E|]; [|done].
      rewrite <- (page_entry_page own s r x), <- (page_entry_page own s r a) by done. unfold page_of. by rewrite E. }
    constructor; try done.
    + eapply (models_others own own' tabs s s' M r a); done.
    + intros x Hx. rewrite Hpe by done. by apply Hp.
    + intros x Hx. eapply Hkeep; [done|exact He|by apply Hpe].
  - rewrite (proj2 (Z.eqb_neq f 0)) by lia.
    destruct (pte_of_spec f 7 ltac:(unfold is_word; lia)) as (Hw & Hae & Hpres & Hfl2).
    assert (addr_of f = f) as Eac. { rewrite addr_of_spec by (unfold is_word; lia). dlia. }
    assert (counted (pte_of f 7) = true) as Hcnt by (unfold counted; by rewrite !Hfl2 by (unfold PTE_PRESENT, PTE_HUGE, PTE_USER, PTE_BORROWED; lia)).
    assert (has (pte_of f 7) PTE_RW = true) as HRW by (by rewrite Hfl2 by (unfold PTE_RW; lia)).
    assert (forall x, user_virt x -> same_page x a = true -> page_entry r x s' = pte_of f 7) as Hnew.
    { intros x Hx E. unfold same_page in E. by rewrite (proj1 He r x Hr Hx), Z.eqb_refl, !pfx0, E. }
    split; [exists own', tabs'; constructor; try done|].
    + eapply (models_others own own' tabs s s' M r a); done.
    + intros x Hx. destruct (same_page x a) eqn:E; [rewrite (Hnew x) by done; done|]. rewrite (Hother x E Hx (pte_of f 7) He). by apply Hp.
    + intros x Hx. destruct (same_page x a) eqn:E; [|eapply Hkeep; [done|exact He|by eapply Hother]].
      unfold user_byte, user_word. rewrite (base_entry own' s'), (Hnew x), Hcnt, Hae, Eac by (done || apply Hs'). destruct (word_slot (x / 8 * 8) ltac:(dlia)) as (k & Hk8 & ->).
      rewrite Hz by done. cbn [fmap option_fmap option_map]. f_equal. unfold byte_of. by rewrite Z.shiftr_0_l.
    + split; [rewrite (phys_of own' tabs'), (Hnew a), (counted_present _ Hcnt), Hae, Eac, Hal by done; lia|].
      intros x Hx E. by rewrite (phys_of own' tabs'), (phys_of own tabs), (Hother x E Hx (pte_of f 7) He).
Qed.

(** ** Stores *)

Definition same_phys (r : Z) s s' : Prop := forall x, user_virt x -> virt_to_phys_in r x s' = virt_to_phys_in r x s.
Lemma same_phys_trans r s1 s2 s3 : same_phys r s1 s2 -> same_phys r s2 s3 -> same_phys r s1 s3.
Proof. intros A B x Hx. rewrite B by done. by apply A. Qed.

(** Some bytes from [a] on, the rest as it was. *)
Definition at_bytes (a : Z) (l : list Z) (B : Z -> option Z) (x : Z) : option Z :=
  if (a <=? x) && (x <? a + zlen l) then Some l.[x - a] else B x.

Lemma loading_word s M r B a v : loads s M r B -> word_at a -> is_Some (B a) -> is_u64 v ->
  let s' := wr (virt_to_phys_in r a s) v s in
  loads s' M r (fun x => if x / 8 * 8 =? a then Some (byte_of v (x mod 8)) else B x) /\ same_phys r s s'.
Proof.
  intros (own & tabs & Hl) Ha [b Hb] Hv. cbv zeta. destruct (user_phys own tabs s M r B a b Hl (proj1 Ha) Hb) as (-> & _ & _).
  pose proof (user_byte_some own tabs s M r B a Hl (proj1 Ha)) as Hpr. rewrite Hb in Hpr. rewrite bool_decide_eq_true_2 in Hpr by done.
  destruct Hl as [Hs HM Hrn Hr Hp HB]. destruct (Hp a (proj1 Ha) Hpr) as [Hc Hw].
  destruct (store_spec own tabs s r a v Hs Hr Ha Hv Hc Hw) as (A & E & W). set (s' := wr _ _ _) in *.
  assert (kernel_pml4 s' = kernel_pml4 s) as HK by done. clearbody s'. pose proof (space_keeps own own s s' r ltac:(done) HK Hr) as Hr'.
  split.
  - exists own, tabs. constructor; try done.
    + intros r2 m2 Hm2. destruct (HM r2 m2 Hm2) as [Hr2 Hw2]. split; [by eapply space_keeps|]. intros x Hx. destruct (Hw2 x Hx) as [S1 S2 S3]. specialize (E r2 x Hr2 (proj1 Hx)). specialize (W r2 x Hr2 Hx).
      destruct (Z.eqb_spec r2 r) as [->|]; [congruence|]. cbn [andb] in W. constructor; [congruence|by rewrite E|by rewrite E].
    + intros x Hx. rewrite E by done. by apply Hp.
    + intros x Hx. unfold user_byte. rewrite W by (done || by apply word_at_base). rewrite Z.eqb_refl. cbn [andb].
      destruct (_ =? a); [done|]. by apply HB.
  - intros x Hx. rewrite !(phys_of own tabs), E by done. done.
Qed.

Lemma loading_byte s M r B x b : loads s M r B -> user_virt x -> is_Some (B x) -> is_u8 b ->
  let s' := wr8 (virt_to_phys_in r x s) b s in
  loads s' M r (fun y => if y =? x then Some b else B y) /\ same_phys r s s'.
Proof.
  intros Hl Hx Hb Hub. cbv zeta. pose proof Hl as (own & tabs & Hlo). destruct Hb as [b0 Hb]. pose proof (word_at_base x Hx) as Ha.
  pose proof Hlo as [Hs _ _ Hr Hp HB].
  assert (exists w, user_word r (x / 8 * 8) s = Some w /\ rd s (virt_to_phys_in r (x / 8 * 8) s) = w /\ is_u64 w) as (w & Hw & Hrd & Hw64).
  { pose proof (HB x Hx) as E. rewrite Hb in E. unfold user_byte in E. destruct (user_word r (x / 8 * 8) s) as [w|] eqn:Ew; [|done]. exists w. split; [done|].
    unfold user_word in Ew. destruct (counted (page_entry r (x / 8 * 8) s)) eqn:Hc; [|done]. injection Ew as <-.
    rewrite (phys_of own tabs) by (done || apply Ha). rewrite (counted_present _ Hc). split; [done|]. apply (so_tables _ _ _ Hs). }
  assert (is_Some (B (x / 8 * 8))) as Hb8.
  { rewrite <- HB by apply Ha. unfold user_byte. replace (x / 8 * 8 / 8 * 8) with (x / 8 * 8) by dlia. rewrite Hw. by eexists. }
  destruct (user_phys own tabs s M r B x b0 Hlo Hx Hb) as (Ep & Hpos & Hal). destruct Hb8 as [b8 Hb8].
  destruct (user_phys own tabs s M r B _ b8 Hlo (proj1 Ha) Hb8) as (Ep8 & _). rewrite (base_entry own) in Ep8 by (done || apply Hs).
  assert (virt_to_phys_in r x s / 8 * 8 = virt_to_phys_in r (x / 8 * 8) s /\ virt_to_phys_in r x s mod 8 = x mod 8) as [Ea Ek].
  { rewrite Ep, Ep8. set (A := addr_of (page_entry r x s)) in *. clearbody A. split; dlia. }
  unfold wr8. rewrite Ea, Ek, Hrd. fold (put_byte w (x mod 8) b). pose proof (Z.mod_pos_bound x 8 ltac:(lia)) as Hk.
  destruct (loading_word s M r B (x / 8 * 8) (put_byte w (x mod 8) b) Hl Ha ltac:(by eexists) ltac:(by apply put_byte_word)) as [L S].
  split; [|exact S]. eapply loads_ext; [exact L|]. intros y Hy. cbv beta. destruct (Z.eqb_spec (y / 8 * 8) (x / 8 * 8)) as [E|E].
  - rewrite byte_of_put by (done || dlia). destruct (Z.eqb_spec y x) as [->|Hn]; [by rewrite Z.eqb_refl|].
    rewrite (proj2 (Z.eqb_neq (y mod 8) (x mod 8))) by dlia. rewrite <- HB by done. unfold user_byte. by rewrite E, Hw.
  - by rewrite (proj2 (Z.eqb_neq y x)) by dlia.
Qed.

(** A run of bytes inside a page. *)
Lemma loading_bytes l : forall s M r B x, loads s M r B -> user_virt x -> bytes l -> x mod 4096 + zlen l <= 4096 ->
  (forall y, x <= y < x + zlen l -> is_Some (B y)) ->
  let s' := wr_bytes (virt_to_phys_in r x s) l s in loads s' M r (at_bytes x l B) /\ same_phys r s s'.
Proof.
  induction l as [|b l IH]; intros s M r B x Hl Hx Hbs Hpg HB; cbv zeta; cbn [wr_bytes].
  - split; [|done]. eapply loads_ext; [exact Hl|]. intros y Hy. unfold at_bytes. cbn [length]. repeat case_bool; cbn [andb]; (done || lia).
  - rewrite list.Forall_cons in Hbs. destruct Hbs as [Hb Hbs]. cbn [length] in Hpg, HB.
    destruct (loading_byte s M r B x b Hl Hx ltac:(apply HB; lia) Hb) as [L1 S1]. set (s1 := wr8 _ _ _) in *. clearbody s1.
    destruct l as [|b2 l]; [cbn [wr_bytes]; split; [|exact S1]; eapply loads_ext; [exact L1|]; intros y Hy; unfold at_bytes; cbn [length]|].
    { repeat case_bool; cbn [andb]; try (done || lia). subst. by rewrite Z.sub_diag. }
    cbn [length] in Hpg, HB. assert (user_virt (x + 1)) as Hx1 by (unfold user_virt in *; dlia).
    assert (virt_to_phys_in r x s + 1 = virt_to_phys_in r (x + 1) s1) as ->.
    { pose proof Hl as (own & tabs & Hlo). destruct (HB x ltac:(lia)) as [bx Hbx]. destruct (HB (x + 1) ltac:(lia)) as [by_ Hby].
      rewrite (S1 (x + 1)) by done. destruct (user_phys own tabs s M r B _ _ Hlo Hx Hbx) as (-> & _). destruct (user_phys own tabs s M r B _ _ Hlo Hx1 Hby) as (-> & _).
      pose proof Hlo as [Hs _ _ Hr _ _]. assert (page_of (x + 1) = page_of x) as Epg by (unfold page_of; dlia).
      rewrite <- (page_entry_page own s r (x + 1)), <- (page_entry_page own s r x), Epg by (done || apply Hs).
      set (A := addr_of _). clearbody A. dlia. }
    destruct (IH s1 M r _ (x + 1) L1 Hx1 Hbs) as [L2 S2]; [cbn [length]; dlia|intros y Hy; cbn [length] in Hy; rewrite (proj2 (Z.eqb_neq y x)) by lia; apply HB; lia|].
    split; [|by eapply same_phys_trans]. eapply loads_ext; [exact L2|]. intros y Hy. unfold at_bytes. cbn [length].
    repeat case_bool; cbn [andb]; try (done || lia).
    + f_equal. unfold getz. replace (Z.to_nat (y - x)) with (S (Z.to_nat (y - (x + 1)))) by lia. done.
    + subst. by rewrite Z.sub_diag.
Qed.

(** The memory a filled space starts with, and a new space's. *)
Definition mem_of (r : Z) s : memory := Memory (fun a => user_word r a s) (fun a => has (page_entry r a s) PTE_PRESENT).
Lemma loads_models s M r B : loads s M r B -> exists own tabs, spaces_ok own tabs s /\ models own s (<[r := mem_of r s]> M).
Proof.
  intros (own & tabs & [Hs HM Hrn Hr Hp HB]). exists own, tabs. split; [done|]. intros r2 m2 Hm2. destruct (Z.eq_dec r2 r) as [->|Hn].
  - rewrite lookup_insert_eq in Hm2. injection Hm2 as <-. split; [done|]. intros a Ha. constructor; [done| |apply Hp, Ha].
    cbn [mem_of can_write]. intros Hpr. destruct (Hp a (proj1 Ha) Hpr) as [Hc Hw]. split; [done|]. unfold writable. by rewrite Hw.
  - rewrite lookup_insert_ne in Hm2 by done. by apply HM.
Qed.
Lemma loads_new own tabs s M r : spaces_ok own tabs s -> models own s M -> M !! r = Some no_memory -> loads s (delete r M) r (fun _ => None).
Proof.
  intros Hs HM Hm. destruct (HM r _ Hm) as [Hr Hw]. exists own, tabs.
  assert (forall x, user_virt x -> counted (page_entry r x s) = false /\ has (page_entry r x s) PTE_PRESENT = false) as Habs.
  { intros x Hx. pose proof (Hw _ (word_at_base x Hx)) as [S1 _ S3]. cbn [no_memory words] in S1. unfold user_word in S1. rewrite (base_entry own) in S1, S3 by (done || apply Hs).
    destruct (counted (page_entry r x s)); [done|]. split; [done|]. destruct (has (page_entry r x s) PTE_PRESENT); [by specialize (S3 eq_refl)|done]. }
  constructor; try done.
  - intros r2 m2 Hm2. apply lookup_delete_Some in Hm2 as [_ Hm2]. by apply HM.
  - apply lookup_delete_eq.
  - intros a Ha Hpr. destruct (Habs a Ha). congruence.
  - intros x Hx. unfold user_byte, user_word. rewrite (base_entry own) by (done || apply Hs). by destruct (Habs x Hx) as [-> _].
Qed.
End Loading.
