(* ===== verification/Elf.v ===== *)
(** The loader of executables (kernel/elf.c). The image is the bytes of the file; a read
    outside them has no result here, as what lies there is not the file's. *)
From S2P Require Import Prelude Pmm Frames Paging Fork Clone Spaces User Programs Loading.

Definition ET_EXEC : Z := 2.
Definition EM_X86_64 : Z := 62.
Definition PT_LOAD : Z := 1.
Definition USER_LOAD_MIN : Z := USER_SPACE_BASE.
Definition USER_LOAD_MAX : Z := USER_STACK_TOP - USER_STACK_MAX.

Definition ELF_OK : Z := 0.
Definition ELF_ERR_SHORT : Z := -1.
Definition ELF_ERR_MAGIC : Z := -2.
Definition ELF_ERR_CLASS : Z := -3.
Definition ELF_ERR_TYPE : Z := -4.
Definition ELF_ERR_RANGE : Z := -5.
Definition ELF_ERR_OVERFLOW : Z := -6.
Definition ELF_ERR_MEMORY : Z := -7.

(** Little endian fields of the image. *)
Definition field (image : list Z) (off n : Z) : Z := le_val (take (Z.to_nat n) (drop (Z.to_nat off) image)).
Definition within (image : list Z) (off n : Z) : bool := (0 <=? off) && (off + n <=? zlen image).

Record elf64_hdr_t := Hdr { h_type : Z; h_machine : Z; h_entry : Z; h_phoff : Z; h_phentsize : Z; h_phnum : Z }.
Definition HDR_SIZE : Z := 64.
Definition read_hdr (image : list Z) : elf64_hdr_t :=
  Hdr (field image 16 2) (field image 18 2) (field image 24 8) (field image 32 8) (field image 54 2) (field image 56 2).

(** The header, and the identification before it, when the file has them. *)
Definition hdr_at (image : list Z) : option elf64_hdr_t := if within image 0 HDR_SIZE then Some (read_hdr image) else None.

Record elf64_phdr_t := Phdr { p_type : Z; p_offset : Z; p_vaddr : Z; p_filesz : Z; p_memsz : Z }.
Definition PHDR_SIZE : Z := 56.
(** The program header at an offset, which the pointer arithmetic takes modulo 2{^64}. *)
Definition read_phdr (image : list Z) (off : Z) : option elf64_phdr_t :=
  let off := u64 off in
  if within image off PHDR_SIZE then
    Some (Phdr (field image off 4) (field image (off + 8) 8) (field image (off + 16) 8) (field image (off + 32) 8) (field image (off + 40) 8))
  else None.

(** The checks of a segment: [ELF_OK] or the error. *)
Definition check_phdr (size : Z) (p : elf64_phdr_t) : Z :=
  if p_memsz p <? p_filesz p then ELF_ERR_OVERFLOW else
  if u64 (p_offset p + p_filesz p) <? p_offset p then ELF_ERR_OVERFLOW else
  if size <? u64 (p_offset p + p_filesz p) then ELF_ERR_OVERFLOW else
  if p_vaddr p <? USER_LOAD_MIN then ELF_ERR_RANGE else
  if u64 (p_vaddr p + p_memsz p) <? p_vaddr p then ELF_ERR_RANGE else
  if USER_LOAD_MAX <? u64 (p_vaddr p + p_memsz p) then ELF_ERR_RANGE else ELF_OK.

(** The pages of a segment that are mapped, [start, end), and the zero range after it. *)
Definition segment_pages (zero : Z * Z) (p : elf64_phdr_t) : Z * Z * (Z * Z) :=
  let start := page_down (p_vaddr p) in
  let last := page_up (u64 (p_vaddr p + p_memsz p)) in
  let bytes_end := page_up (u64 (p_vaddr p + p_filesz p)) in
  let bytes_end := if bytes_end <? start then start else bytes_end in
  if (zero.2 =? 0) && (bytes_end <? last) then (start, bytes_end, (bytes_end, last)) else (start, last, zero).

Section Elf.
Context {P : Type} `{FrameAllocator P}.
Notation vm := (vm (P := P)).

Definition map_segment (dir start last : Z) (s : vm) : vm * bool :=
  all_ok (pages_between start last) (fun va s =>
    if negb (virt_to_phys_in dir va s =? 0) then (s, true) else
    let (s, frame) := alloc_user_page dir va s in (s, negb (frame =? 0))) s.

(** [n] bytes of the file, which the pointer arithmetic finds modulo 2{^64}. *)
Definition file_bytes (image : list Z) (off n : Z) : option (list Z) :=
  let off := u64 off in
  if within image off n then Some (take (Z.to_nat n) (drop (Z.to_nat off) image)) else None.

(** The file's bytes, a page's at a time, into the pages; [None] when a read leaves the file,
    or the fuel runs out. *)
Fixpoint fill_segment (fuel : nat) (dir : Z) (image : list Z) (p : elf64_phdr_t) (done : Z) (s : vm) : option (vm * bool) :=
  match fuel with
  | O => None
  | S fuel =>
      if negb (done <? p_filesz p) then Some (s, true) else
      let va := p_vaddr p + done in
      let phys := virt_to_phys_in dir va s in
      if phys =? 0 then Some (s, false) else
      let room := PAGE_SIZE - (va .& 0xFFF) in
      let n := Z.min (p_filesz p - done) room in
      match file_bytes image (p_offset p + done) n with
      | None => None
      | Some l => fill_segment fuel dir image p (done + n) (wr_bytes phys l s)
      end
  end.

Definition load_segment (dir : Z) (image : list Z) (p : elf64_phdr_t) (zero : Z * Z) (s : vm) : option (vm * (Z * Z) * Z) :=
  if negb (p_type p =? PT_LOAD) || (p_memsz p =? 0) then Some (s, zero, ELF_OK) else
  let err := check_phdr (zlen image) p in
  if negb (err =? ELF_OK) then Some (s, zero, err) else
  let '(start, last, zero) := segment_pages zero p in
  let (s, ok) := map_segment dir start last s in
  if negb ok then Some (s, zero, ELF_ERR_MEMORY) else
  match fill_segment (Z.to_nat (p_filesz p / PAGE_SIZE + 3)) dir image p 0 s with
  | None => None
  | Some (s, ok) => Some (s, zero, if ok then ELF_OK else ELF_ERR_MEMORY)
  end.

(** The headers from the [i]th on. *)
Fixpoint load_segments (n : nat) (dir : Z) (image : list Z) (h : elf64_hdr_t) (i : Z) (zero : Z * Z) (s : vm) : option (vm * (Z * Z) * Z) :=
  match n with
  | O => Some (s, zero, ELF_OK)
  | S n =>
      match read_phdr image (h_phoff h + i * h_phentsize h) with
      | None => None
      | Some p =>
          match load_segment dir image p zero s with
          | None => None
          | Some (s, zero, rc) => if rc =? ELF_OK then load_segments n dir image h (i + 1) zero s else Some (s, zero, rc)
          end
      end
  end.

Definition check_hdr (image : list Z) (h : elf64_hdr_t) : Z :=
  if negb ((image.[0] =? 0x7F) && (image.[1] =? 69) && (image.[2] =? 76) && (image.[3] =? 70)) then ELF_ERR_MAGIC else
  if negb ((image.[4] =? 2) && (image.[5] =? 1)) then ELF_ERR_CLASS else
  if negb ((h_type h =? ET_EXEC) && (h_machine h =? EM_X86_64)) then ELF_ERR_TYPE else
  if (h_phoff h =? 0) || (h_phentsize h <? PHDR_SIZE) then ELF_ERR_SHORT else
  if zlen image <? u64 (h_phoff h + h_phnum h * h_phentsize h) then ELF_ERR_OVERFLOW else
  if (h_entry h <? USER_LOAD_MIN) || (USER_LOAD_MAX <=? h_entry h) then ELF_ERR_RANGE else ELF_OK.

(** The state, the zero range, the result, and the entry point when that is [ELF_OK]. *)
Definition elf_load (dir : Z) (image : list Z) (s : vm) : option (vm * (Z * Z) * Z * Z) :=
  if zlen image <? HDR_SIZE then Some (s, (0, 0), ELF_ERR_SHORT, 0) else
  match hdr_at image with None => None | Some h =>
  let err := check_hdr image h in
  if negb (err =? ELF_OK) then Some (s, (0, 0), err, 0) else
  match load_segments (Z.to_nat (h_phnum h)) dir image h 0 (0, 0) s with
  | None => None
  | Some (s, zero, rc) => Some (s, zero, rc, if rc =? ELF_OK then h_entry h else 0)
  end end.
End Elf.

(** ** What an image says memory holds *)

Definition is_load (p : elf64_phdr_t) : bool := (p_type p =? PT_LOAD) && negb (p_memsz p =? 0).
Definition in_file (p : elf64_phdr_t) (x : Z) : bool := (p_vaddr p <=? x) && (x <? p_vaddr p + p_filesz p).
Definition in_memory (p : elf64_phdr_t) (x : Z) : bool := (p_vaddr p <=? x) && (x <? p_vaddr p + p_memsz p).
(** The byte the file has for an address: the last segment's that covers it. *)
Definition image_byte (image : list Z) (segs : list elf64_phdr_t) (x : Z) : option Z :=
  foldl (fun b p => if in_file p x then Some image.[p_offset p + (x - p_vaddr p)] else b) None segs.
(** The segments of the first [n] program headers. *)
Definition segments (image : list Z) (h : elf64_hdr_t) (n : Z) : list elf64_phdr_t :=
  filter (fun p => is_load p = true) (omap (fun i => read_phdr image (h_phoff h + i * h_phentsize h)) (seqZ 0 n)).

(** Memory holds the file's bytes, zeroes in the rest of its pages, and every byte of a
    segment that is not in a page is in the zero range. *)
Record image_of (image : list Z) (segs : list elf64_phdr_t) (zero : Z * Z) (B : Z -> option Z) : Prop := {
  im_file : forall x b, user_virt x -> image_byte image segs x = Some b -> B x = Some b;
  im_rest : forall x b, user_virt x -> image_byte image segs x = None -> B x = Some b -> b = 0;
  im_covered : forall p x, p ∈ segs -> in_memory p x = true ->
    USER_LOAD_MIN <= x < USER_LOAD_MAX /\ (is_Some (B x) \/ zero.1 <= x < zero.2);
  im_inside : forall x, user_virt x -> is_Some (B x) -> USER_LOAD_MIN <= x < USER_LOAD_MAX;
  im_zero : zero = (0, 0) \/ (USER_LOAD_MIN <= zero.1 <= zero.2 /\ zero.2 <= USER_LOAD_MAX)
}.

(** The bytes of a memory. *)
Definition memory_byte (m : memory) (x : Z) : option Z := (fun w => byte_of w (x mod 8)) <$> words m (x / 8 * 8).

Section Loaded.
Context {P : Type} `{FrameAllocatorLaws P}.
Notation vm := (vm (P := P)).
Implicit Types s : vm.

Lemma loads_page s M r B x y : loads s M r B -> user_virt x -> user_virt y -> same_page x y = true -> is_Some (B x) -> is_Some (B y).
Proof.
  intros (own & tabs & Hl) Hx Hy E%Z.eqb_eq HB. pose proof Hl as [Hs _ _ Hr _ _].
  apply (bool_decide_eq_true (is_Some (B y))). rewrite <- (user_byte_some own tabs s M r B y Hl Hy).
  rewrite <- (page_entry_page own s r y) by (done || apply Hs). unfold page_of. rewrite <- E. fold (page_of x). rewrite (page_entry_page own) by (done || apply Hs).
  rewrite (user_byte_some own tabs s M r B x Hl Hx). by apply bool_decide_eq_true.
Qed.

(** Pages put where there are none. *)
Definition zeroed (pages : list Z) (B : Z -> option Z) (x : Z) : option Z :=
  if bool_decide (page_of x ∈ pages) then Some (default 0 (B x)) else B x.
Lemma map_pages r pages : forall s M B, loads s M r B -> (forall a, a ∈ pages -> user_virt a /\ a mod 4096 = 0) ->
  let (s', ok) := all_ok pages (fun va s =>
    if negb (virt_to_phys_in r va s =? 0) then (s, true) else
    let (s, frame) := alloc_user_page r va s in (s, negb (frame =? 0))) s in
  if ok then loads s' M r (zeroed pages B)
  else exists B', loads s' M r B' /\ forall x, is_Some (B' x) -> is_Some (B x) \/ page_of x ∈ pages.
Proof.
  induction pages as [|a pages IH]; intros s M B Hl Hin; cbn [all_ok].
  { eapply loads_ext; [exact Hl|]. intros x _. unfold zeroed. by rewrite bool_decide_eq_false_2 by apply not_elem_of_nil. }
  destruct (Hin a ltac:(by left)) as [Ha Hal]. assert (forall a, a ∈ pages -> user_virt a /\ a mod 4096 = 0) as Hin' by (intros ? ?; apply Hin; by right).
  assert (forall x, page_of x = a <-> same_page x a = true) as Hpg by (intros x; unfold same_page, page_of; rewrite Z.eqb_eq; split; intros; dlia).
  assert (forall x, zeroed (a :: pages) B x = zeroed pages (fun x => if same_page x a then Some (default 0 (B x)) else B x) x) as Hz.
  { intros x. unfold zeroed. destruct (same_page x a) eqn:E.
    - rewrite (bool_decide_eq_true_2 (page_of x ∈ a :: pages)) by (apply Hpg in E; rewrite E; left). by destruct (bool_decide _).
    - assert (bool_decide (page_of x ∈ a :: pages) = bool_decide (page_of x ∈ pages)) as ->; [|done]. apply bool_decide_ext. rewrite list.elem_of_cons, Hpg, E. naive_solver. }
  assert (virt_to_phys_in r a s =? 0 = negb (bool_decide (is_Some (B a)))) as -> by (destruct Hl as (own & tabs & Hl); by apply (user_phys_none own tabs s M)).
  rewrite negb_involutive. destruct (bool_decide (is_Some (B a))) eqn:Eb.
  - apply bool_decide_eq_true in Eb. pose proof (IH s M B Hl Hin') as IHs. destruct (all_ok _ _ s) as [s' ok]. destruct ok.
    + eapply loads_ext; [exact IHs|]. intros x Hx. rewrite Hz. unfold zeroed. destruct (same_page x a) eqn:E; [|done].
      assert (is_Some (B x)) as [b ->]; [|by destruct (bool_decide _)]. apply (loads_page s M r B a x); try done. unfold same_page in *. by rewrite Z.eqb_sym.
    + destruct IHs as (B' & L' & HB'). exists B'. split; [done|]. intros x Hx. destruct (HB' x Hx); [by left|right; by right].
  - apply bool_decide_eq_false in Eb. assert (B a = None) as Hna by (destruct (B a); [by destruct Eb|done]).
    pose proof (loading_page s M r B a Hl Ha Hal Hna) as Hp. destruct (alloc_user_page r a s) as [s1 f]. destruct (Z.eqb_spec f 0) as [E0|Hf]; cbn [negb].
    + exists B. split; [done|]. auto.
    + destruct Hp as [Hp _]. pose proof (IH s1 M _ Hp Hin') as IHs. destruct (all_ok _ _ s1) as [s' ok]. destruct ok.
      * eapply loads_ext; [exact IHs|]. intros x Hx. rewrite Hz. unfold zeroed. destruct (same_page x a) eqn:E; [|done].
        assert (B x = None) as ->; [|done]. destruct (B x) as [b|] eqn:E2; [|done]. destruct (loads_page s M r B x a) as [? ?]; [done..|by rewrite E2|congruence].
      * destruct IHs as (B' & L' & HB'). exists B'. split; [done|]. intros x Hx. destruct (HB' x Hx) as [H2|]; [|right; by right].
        destruct (same_page x a) eqn:E; [right; apply Hpg in E; rewrite E; by left|by left].
Qed.

Lemma file_bytes_in image off n : zlen image < 2 ^ 64 -> 0 <= off -> 0 <= n -> off + n <= zlen image ->
  file_bytes image off n = Some (take (Z.to_nat n) (drop (Z.to_nat off) image)).
Proof.
  intros Hl Ho Hn Hi. unfold file_bytes. rewrite u64_id by (unfold is_word; lia). unfold within.
  by rewrite (proj2 (Z.leb_le 0 off)), (proj2 (Z.leb_le _ _)) by lia.
Qed.
(** The file's bytes put into the pages. *)
Lemma fill_bytes r image p fuel : forall s M B done, loads s M r B -> bytes image ->
  0 <= done <= p_filesz p -> 0 <= p_offset p -> zlen image < 2 ^ 64 -> p_offset p + p_filesz p <= zlen image ->
  (forall x, p_vaddr p <= x < p_vaddr p + p_filesz p -> user_virt x /\ is_Some (B x)) ->
  (0 < fuel)%nat -> (done < p_filesz p -> p_filesz p - done + (p_vaddr p + done) mod 4096 <= 4096 * (Z.of_nat fuel - 1)) ->
  exists s', fill_segment fuel r image p done s = Some (s', true) /\
    loads s' M r (fun x => if in_file p x && (p_vaddr p + done <=? x) then Some image.[p_offset p + (x - p_vaddr p)] else B x).
Proof.
  induction fuel as [|fuel IH]; intros s M B n0 Hl Hi Hd Ho H64 Hlen Hpg Hpos Hfuel; [lia|].
  cbn [fill_segment]. destruct (Z.ltb_spec n0 (p_filesz p)) as [Hlt|Hge]; cbn [negb].
  2: { exists s. split; [done|]. eapply loads_ext; [exact Hl|]. intros x Hx. unfold in_file. repeat case_bool; cbn [andb]; (done || lia). }
  set (va := p_vaddr p + n0) in *. destruct (Hpg va ltac:(lia)) as [Hva HBva]. specialize (Hfuel Hlt).
  assert (virt_to_phys_in r va s =? 0 = false) as ->.
  { destruct Hl as (own & tabs & Hlo). rewrite (user_phys_none own tabs s M r B) by done. by rewrite bool_decide_eq_true_2. }
  assert (va .& 0xFFF = va mod 4096) as -> by (change 0xFFF with (Z.ones 12); apply Z.land_ones; lia). unfold PAGE_SIZE.
  pose proof (Z.mod_pos_bound va 4096 ltac:(lia)) as Hm. set (k := Z.min (p_filesz p - n0) (4096 - va mod 4096)). assert (0 < k <= p_filesz p - n0) as Hk by lia.
  rewrite file_bytes_in by lia. set (l := take (Z.to_nat k) (drop (Z.to_nat (p_offset p + n0)) image)). assert (zlen l = k) as Hll by (unfold l; rewrite length_take, length_drop; lia).
  destruct (loading_bytes l s M r B va Hl Hva) as [L S]; [by apply Forall_take, Forall_drop|lia|intros y Hy; apply Hpg; unfold va in *; lia|].
  destruct (IH _ M _ (n0 + k) L Hi ltac:(lia) Ho H64 Hlen) as (s' & Es & L').
  - intros x Hx. destruct (Hpg x Hx) as [H1 H2]. split; [done|]. unfold at_bytes. destruct (_ && _); [by eexists|done].
  - lia.
  - intros C. rewrite Z.add_assoc. fold va. replace k with (4096 - va mod 4096) by lia. replace ((va + (4096 - va mod 4096)) mod 4096) with 0 by dlia. lia.
  - exists s'. split; [exact Es|]. eapply loads_ext; [exact L'|]. intros x Hx. unfold at_bytes, in_file. rewrite Hll.
    repeat case_bool; cbn [andb]; try (done || lia). f_equal. unfold l. rewrite getz_take, getz_drop by lia. f_equal. lia.
Qed.

(** ** Segments *)

Lemma page_down_of x : is_u64 x -> page_down x = page_of x.
Proof. intros Hx. unfold page_down, PAGE_SIZE. change 4096 with (2 ^ 12). by rewrite mask_down. Qed.
Lemma page_up_of x : 0 <= x -> x + 4095 < 2 ^ 64 -> page_up x = page_of (x + 4095).
Proof.
  intros H1 H2. unfold page_up, PAGE_SIZE. replace (x + 4096 - 1) with (x + 4095) by lia.
  rewrite u64_id by (unfold is_word; lia). apply page_down_of. unfold is_word. lia.
Qed.
Lemma elem_of_pages_between lo hi a : lo mod 4096 = 0 -> a ∈ pages_between lo hi <-> lo <= a < hi /\ a mod 4096 = 0.
Proof.
  intros Hlo. unfold pages_between, PAGE_SIZE. rewrite list_elem_of_fmap. split.
  - intros (i & -> & Hi%elem_of_seqZ). split; dlia.
  - intros [Hr Ha]. exists ((a - lo) / 4096). split; [dlia|]. apply elem_of_seqZ. dlia.
Qed.

Definition phdr_words (p : elf64_phdr_t) : Prop :=
  is_u64 (p_offset p) /\ is_u64 (p_vaddr p) /\ is_u64 (p_filesz p) /\ is_u64 (p_memsz p).
Lemma check_phdr_spec size p : phdr_words p -> 0 <= size -> let rc := check_phdr size p in
  -7 <= rc <= 0 /\ (rc = ELF_OK -> p_filesz p <= p_memsz p /\ p_offset p + p_filesz p <= size /\
    USER_LOAD_MIN <= p_vaddr p /\ p_vaddr p + p_memsz p <= USER_LOAD_MAX).
Proof.
  intros (Ho & Hv & Hf & Hm) Hs. cbv zeta. unfold check_phdr, ELF_OK, ELF_ERR_OVERFLOW, ELF_ERR_RANGE. unfold u64, is_word in *.
  repeat case_bool; (split; [lia|]); intros E; try discriminate E. repeat split; try lia; dlia.
Qed.
Lemma segment_pages_spec zero p : USER_LOAD_MIN <= p_vaddr p -> p_vaddr p + p_memsz p <= USER_LOAD_MAX -> 0 <= p_filesz p <= p_memsz p -> 0 < p_memsz p ->
  exists last zero', segment_pages zero p = (page_of (p_vaddr p), last, zero') /\
    USER_LOAD_MIN <= page_of (p_vaddr p) /\ last <= USER_LOAD_MAX /\ last mod 4096 = 0 /\ p_vaddr p + p_filesz p <= last /\
    ((zero' = zero /\ p_vaddr p + p_memsz p <= last) \/
     (zero.2 = 0 /\ zero'.1 = last /\ p_vaddr p + p_memsz p <= zero'.2 /\ last <= zero'.2 <= USER_LOAD_MAX)).
Proof.
  intros H1 H2 H3 H4. unfold USER_LOAD_MIN, USER_LOAD_MAX, USER_STACK_TOP, USER_STACK_MAX, USER_SPACE_BASE in *.
  unfold segment_pages. rewrite page_down_of, !u64_id, !page_up_of by (unfold is_word; lia).
  assert (page_of (p_vaddr p + p_filesz p + 4095) <? page_of (p_vaddr p) = false) as -> by (apply Z.ltb_ge; unfold page_of; dlia).
  destruct ((zero.2 =? 0) && _) eqn:E.
  - apply andb_true_iff in E as [E1%Z.eqb_eq E2%Z.ltb_lt]. eexists _, _. split; [reflexivity|]. cbn [fst snd]. unfold page_of in *. repeat split; try dlia.
  - eexists _, _. split; [reflexivity|]. unfold page_of in *. repeat split; try dlia. left. split; [done|]. dlia.
Qed.

Definition loadable (p : elf64_phdr_t) : list elf64_phdr_t := if is_load p then [p] else [].
Lemma image_byte_snoc image segs p x : image_byte image (segs ++ [p]) x = if in_file p x then Some image.[p_offset p + (x - p_vaddr p)] else image_byte image segs x.
Proof. unfold image_byte. by rewrite foldl_app. Qed.

Lemma load_segment_spec image p segs zero r s M B : loads s M r B -> bytes image -> phdr_words p -> zlen image < 2 ^ 64 -> image_of image segs zero B ->
  exists s' zero' rc B', load_segment r image p zero s = Some (s', zero', rc) /\ loads s' M r B' /\ -7 <= rc <= 0 /\
    (forall x, user_virt x -> is_Some (B' x) -> USER_LOAD_MIN <= x < USER_LOAD_MAX) /\
    (rc = ELF_OK -> image_of image (segs ++ loadable p) zero' B').
Proof.
  intros Hl Hi Hp Hlen Him. unfold load_segment, loadable, is_load. destruct ((p_type p =? PT_LOAD) && negb (p_memsz p =? 0)) eqn:El.
  2: { assert (negb (p_type p =? PT_LOAD) || (p_memsz p =? 0) = true) as ->.
       { apply andb_false_iff in El as [E|E]; rewrite E || apply negb_false_iff in E; rewrite ?E; [done|apply orb_true_r]. }
       exists s, zero, ELF_OK, B. rewrite app_nil_r. split; [done|]. split; [done|]. unfold ELF_OK. split; [lia|]. split; [apply Him|done]. }
  apply andb_true_iff in El as [E1 E2]. rewrite E1. apply negb_true_iff in E2. rewrite E2. cbn [negb orb]. apply Z.eqb_neq in E2.
  destruct (check_phdr_spec (zlen image) p Hp ltac:(lia)) as [Hrc Hok]. destruct (Z.eqb_spec (check_phdr (zlen image) p) ELF_OK) as [Ec|Ec]; cbn [negb].
  2: { exists s, zero, (check_phdr (zlen image) p), B. split; [done|]. split; [done|]. split; [done|]. split; [apply Him|done]. }
  destruct (Hok Ec) as (C1 & C2 & C3 & C4). destruct Hp as (P1 & P2 & P3 & P4). unfold is_word in P1, P3, P4.
  destruct (segment_pages_spec zero p C3 C4 ltac:(lia) ltac:(lia)) as (last & zero' & -> & S1 & S2 & S3 & S4 & S5).
  set (pages := pages_between (page_of (p_vaddr p)) last). assert (page_of (p_vaddr p) mod 4096 = 0) as Hst by (unfold page_of; dlia).
  assert (forall a, a ∈ pages -> user_virt a /\ a mod 4096 = 0) as Hpages.
  { intros a Ha. apply elem_of_pages_between in Ha as [Ha1 Ha2]; [|done]. split; [|done]. unfold user_virt, USER_LOAD_MIN, USER_LOAD_MAX, USER_STACK_TOP, USER_STACK_MAX, USER_SPACE_BASE in *. lia. }
  assert (forall x, page_of x ∈ pages <-> page_of (p_vaddr p) <= x < last) as Hin.
  { intros x. unfold pages. rewrite elem_of_pages_between by done. unfold page_of in *. split; [intros [? ?]|intros ?; split]; dlia. }
  assert (forall x, user_virt x -> is_Some (B x) \/ page_of x ∈ pages -> USER_LOAD_MIN <= x < USER_LOAD_MAX) as Hconf.
  { intros x Hx [Hb|Hb]; [by apply (im_inside _ _ _ _ Him)|]. apply Hin in Hb. lia. }
  pose proof (map_pages r pages s M B Hl Hpages) as Hm. unfold map_segment. fold pages. destruct (all_ok pages _ s) as [s1 ok]. destruct ok; cbn [negb].
  2: { destruct Hm as (B' & L' & HB'). exists s1, zero', ELF_ERR_MEMORY, B'. unfold ELF_ERR_MEMORY, ELF_OK. split; [done|]. split; [done|]. split; [lia|]. split; [|done].
       intros x Hx Hb. by apply Hconf, HB'. }
  destruct (fill_bytes r image p (Z.to_nat (p_filesz p / PAGE_SIZE + 3)) s1 M (zeroed pages B) 0 Hm Hi) as (s2 & -> & L2); [lia..| | | |].
  { intros x Hx. assert (page_of (p_vaddr p) <= x < last) as Hx2 by (unfold page_of in *; dlia). split.
    - unfold user_virt, USER_LOAD_MIN, USER_LOAD_MAX, USER_STACK_TOP, USER_STACK_MAX, USER_SPACE_BASE in *. lia.
    - unfold zeroed. rewrite bool_decide_eq_true_2 by (by apply Hin). by eexists. }
  { unfold PAGE_SIZE. dlia. }
  { intros _. unfold PAGE_SIZE. dlia. }
  set (B' := fun x => if in_file p x then Some image.[p_offset p + (x - p_vaddr p)] else zeroed pages B x).
  exists s2, zero', ELF_OK, B'. split; [reflexivity|]. split.
  { eapply loads_ext; [exact L2|]. intros x Hx. unfold B', in_file. rewrite Z.add_0_r. by destruct (p_vaddr p <=? x); rewrite ?andb_false_r, ?andb_true_r. }
  unfold ELF_OK. split; [lia|]. assert (forall x, B' x = if in_file p x then Some image.[p_offset p + (x - p_vaddr p)] else zeroed pages B x) as HB' by done.
  clearbody B'. assert (forall x, user_virt x -> is_Some (B' x) -> USER_LOAD_MIN <= x < USER_LOAD_MAX) as Hin'.
  { intros x Hx Hb. apply Hconf; [done|]. rewrite HB' in Hb. destruct (in_file p x) eqn:E.
    - right. apply Hin. unfold in_file in E. apply andb_true_iff in E as [?%Z.leb_le ?%Z.ltb_lt]. unfold page_of in *. dlia.
    - unfold zeroed in Hb. case_bool_decide; [by right|by left]. }
  split; [exact Hin'|]. intros _. destruct Him as [I1 I2 I3 I4 I5]. constructor.
  - intros x b Hx. rewrite image_byte_snoc, HB'. destruct (in_file p x); [done|]. intros E. unfold zeroed. rewrite (I1 x b) by done. by case_bool_decide.
  - intros x b Hx. rewrite image_byte_snoc, HB'. destruct (in_file p x); [done|]. intros E. unfold zeroed. destruct (B x) as [b0|] eqn:Eb.
    + pose proof (I2 x b0 Hx E Eb). case_bool_decide; cbn [default from_option]; intros [= <-]; done.
    + case_bool_decide; [|done]. cbn. by intros [= <-].
  - intros q x [Hq|Hq%list_elem_of_singleton]%elem_of_app Hx.
    + destruct (I3 q x Hq Hx) as [Hr Hb]. split; [exact Hr|]. destruct Hb as [Hb|Hb].
      * left. rewrite HB'. destruct (in_file p x); [by eexists|]. unfold zeroed. case_bool_decide; [by eexists|done].
      * right. destruct S5 as [[-> _]|(E0 & _)]; [done|]. exfalso. destruct I5 as [->|[I5 I6]]; cbn [fst snd] in *; unfold USER_LOAD_MIN, USER_SPACE_BASE in *; lia.
    + subst q. unfold in_memory in Hx. apply andb_true_iff in Hx as [Hx1%Z.leb_le Hx2%Z.ltb_lt]. split; [lia|]. destruct (Z.lt_ge_cases x last) as [Hc|Hc].
      * left. rewrite HB'. destruct (in_file p x); [by eexists|]. unfold zeroed. rewrite bool_decide_eq_true_2; [by eexists|]. apply Hin. unfold page_of in *. dlia.
      * right. destruct S5 as [[_ ?]|(_ & E3 & E4 & _)]; lia.
  - exact Hin'.
  - destruct S5 as [[-> _]|(_ & E3 & E4 & E5)]; [done|]. right. rewrite E3. unfold page_of in *. split; [dlia|lia].
Qed.

(** ** The whole image *)

Lemma field_word image off n : bytes image -> 0 <= n <= 8 -> is_u64 (field image off n).
Proof.
  intros Hi Hn. unfold field. set (l := take _ _). assert (bytes l) as Hl by (by apply Forall_take, Forall_drop). pose proof (le_val_bound l Hl) as Hb.
  assert (zlen l <= 8) by (unfold l; rewrite length_take; lia). assert (256 ^ zlen l <= 256 ^ 8) by (apply Z.pow_le_mono_r; lia). unfold is_word. change (2 ^ 64) with (256 ^ 8). lia.
Qed.
Lemma field_nonneg image off n : bytes image -> 0 <= field image off n.
Proof. intros Hi. apply le_val_bound. by apply Forall_take, Forall_drop. Qed.
Lemma read_phdr_spec image off : bytes image -> 0 <= off -> off + PHDR_SIZE <= zlen image -> zlen image < 2 ^ 64 ->
  exists p, read_phdr image off = Some p /\ phdr_words p.
Proof.
  intros Hi H1 H2 H3. unfold read_phdr, PHDR_SIZE in *. rewrite u64_id by (unfold is_word; lia). unfold within.
  rewrite (proj2 (Z.leb_le 0 off)), (proj2 (Z.leb_le (off + 56) (zlen image))) by lia. cbn [andb]. eexists. split; [done|].
  repeat split; apply field_word; (done || lia).
Qed.
Lemma segments_succ image h n p : 0 <= n -> read_phdr image (h_phoff h + n * h_phentsize h) = Some p -> segments image h (n + 1) = segments image h n ++ loadable p.
Proof.
  intros Hn Hp. unfold segments. rewrite seqZ_app by lia. rewrite omap_app, list.filter_app. f_equal. rewrite Z.add_0_l. replace (n + 1 - n) with 1 by lia. rewrite seqZ_cons by lia. rewrite seqZ_nil by lia. cbn. rewrite Hp. cbn. unfold loadable. by destruct (is_load p).
Qed.

Lemma load_segments_spec image r M n : bytes image -> zlen image < 2 ^ 64 -> let h := read_hdr image in
  PHDR_SIZE <= h_phentsize h -> h_phoff h + h_phnum h * h_phentsize h <= zlen image ->
  forall i s B zero, 0 <= i -> i + Z.of_nat n = h_phnum h -> loads s M r B -> image_of image (segments image h i) zero B ->
  exists s' zero' rc B', load_segments n r image h i zero s = Some (s', zero', rc) /\ loads s' M r B' /\ -7 <= rc <= 0 /\
    (forall x, user_virt x -> is_Some (B' x) -> USER_LOAD_MIN <= x < USER_LOAD_MAX) /\
    (rc = ELF_OK -> image_of image (segments image h (h_phnum h)) zero' B').
Proof.
  intros Hi Hlen h Hsz Htab. assert (0 <= h_phoff h) as Hoff by (apply field_nonneg; done). unfold PHDR_SIZE in Hsz.
  induction n as [|n IH]; intros i s B zero Hi0 Hn Hl Him; cbn [load_segments].
  { exists s, zero, ELF_OK, B. unfold ELF_OK. split; [done|]. split; [done|]. split; [lia|]. split; [apply Him|]. intros _. by replace (h_phnum h) with i by lia. }
  destruct (read_phdr_spec image (h_phoff h + i * h_phentsize h) Hi) as (p & Ep & Hp); [nia|unfold PHDR_SIZE; nia|done|]. rewrite Ep.
  destruct (load_segment_spec image p (segments image h i) zero r s M B Hl Hi Hp Hlen Him) as (s1 & zero1 & rc & B1 & -> & L1 & Hrc & Hin & Hok).
  destruct (Z.eqb_spec rc ELF_OK) as [Erc|Erc].
  - apply (IH (i + 1) s1 B1); [lia..|done|]. rewrite (segments_succ image h i p) by done. by apply Hok.
  - exists s1, zero1, rc, B1. done.
Qed.

Lemma check_hdr_spec image : let h := read_hdr image in let rc := check_hdr image h in
  -7 <= rc <= 0 /\ (rc = ELF_OK -> PHDR_SIZE <= h_phentsize h /\ u64 (h_phoff h + h_phnum h * h_phentsize h) <= zlen image /\
    USER_LOAD_MIN <= h_entry h < USER_LOAD_MAX).
Proof.
  cbv zeta. unfold check_hdr, ELF_OK, ELF_ERR_MAGIC, ELF_ERR_CLASS, ELF_ERR_TYPE, ELF_ERR_SHORT, ELF_ERR_OVERFLOW, ELF_ERR_RANGE. cbv zeta.
  destruct (negb _); [split; [lia|done]|]. destruct (negb _); [split; [lia|done]|]. destruct (negb _); [split; [lia|done]|].
  destruct (h_phoff (read_hdr image) =? 0); cbn [orb]; [split; [lia|done]|].
  repeat case_bool; cbn [orb]; (split; [lia|]); intros E; try discriminate E. repeat split; lia.
Qed.

Lemma elf_load_spec r image s M : bytes image -> zlen image < 2 ^ 64 ->
  let h := read_hdr image in h_phoff h + h_phnum h * h_phentsize h < 2 ^ 64 -> loads s M r (fun _ => None) ->
  exists s' zero rc entry B, elf_load r image s = Some (s', zero, rc, entry) /\ loads s' M r B /\ -7 <= rc <= 0 /\
    (forall x, user_virt x -> is_Some (B x) -> USER_LOAD_MIN <= x < USER_LOAD_MAX) /\
    (rc = ELF_OK -> USER_LOAD_MIN <= entry < USER_LOAD_MAX /\ image_of image (segments image h (h_phnum h)) zero B).
Proof.
  intros Hi Hlen h Htab Hl. unfold elf_load. destruct (Z.ltb_spec (zlen image) HDR_SIZE) as [Hsh|Hsh].
  { exists s, (0, 0), ELF_ERR_SHORT, 0, (fun _ => None). unfold ELF_ERR_SHORT. split; [done|]. split; [done|]. split; [lia|]. split; [by intros ? ? [? ?]|done]. }
  unfold hdr_at, within. rewrite (proj2 (Z.leb_le (0 + HDR_SIZE) _)) by lia. cbn [Z.leb andb]. change (0 <=? 0) with true. cbn [andb].
  destruct (check_hdr_spec image) as [Hrc Hok]. fold h in Hrc, Hok |- *. destruct (Z.eqb_spec (check_hdr image h) ELF_OK) as [Ec|Ec]; cbn [negb].
  2: { exists s, (0, 0), (check_hdr image h), 0, (fun _ => None). split; [done|]. split; [done|]. split; [done|]. split; [by intros ? ? [? ?]|done]. }
  fold h. destruct (Hok Ec) as (C1 & C2 & C3). fold h in C1, C2, C3. assert (0 <= h_phoff h /\ 0 <= h_phnum h) as [P1 P2] by (split; by apply field_nonneg).
  unfold PHDR_SIZE in C1. rewrite u64_id in C2 by (unfold is_word; nia).
  destruct (load_segments_spec image r M (Z.to_nat (h_phnum h)) Hi Hlen C1 C2 0 s (fun _ => None) (0, 0)) as (s' & zero & rc & B & E & L & R1 & R2 & R3); [lia|fold h; lia|done| |].
  { change (segments image (read_hdr image) 0) with (@nil elf64_phdr_t). constructor; try done; [|by left]. intros p x Hp. by apply not_elem_of_nil in Hp. }
  fold h in E. rewrite E. exists s', zero, rc, (if rc =? ELF_OK then h_entry h else 0), B. split; [done|]. split; [done|]. split; [done|]. split; [done|].
  intros Erc. rewrite Erc at 1 2. cbn. split; [exact C3|by apply R3].
Qed.
Lemma elf_load_implements (own : owners) (tabs live : list Z) (s : vm) (M : gmap Z memory) (r : Z) (image : list Z)
    (Hs : implements own tabs (s, live) M) (Hr : M !! r = Some no_memory) (Hi : bytes image) (Hlen : zlen image < 2 ^ 64)
    (Htab : h_phoff (read_hdr image) + h_phnum (read_hdr image) * h_phentsize (read_hdr image) < 2 ^ 64) :
  exists s' zero rc entry own' tabs' m,
    elf_load r image s = Some (s', zero, rc, entry) /\ -7 <= rc <= 0 /\
    implements own' tabs' (s', live) (<[r := m]> M) /\
    (forall x, user_virt x -> is_Some (memory_byte m x) -> USER_LOAD_MIN <= x < USER_LOAD_MAX) /\
    (rc = ELF_OK -> USER_LOAD_MIN <= entry < USER_LOAD_MAX /\
      image_of image (segments image (read_hdr image) (h_phnum (read_hdr image))) zero (memory_byte m)).
Proof.
  destruct Hs as (Hs & HM & Hlive). cbn [fst snd] in Hs, HM, Hlive. pose proof (loads_new own tabs s M r Hs HM Hr) as L0.
  destruct (elf_load_spec r image s (delete r M) Hi Hlen Htab L0) as (s' & zero & rc & entry & B & E & L & R1 & R2 & R3).
  assert (forall x, user_virt x -> memory_byte (mem_of r s') x = B x) as HB by (intros x Hx; destruct L as (? & ? & L); exact (ld_bytes _ _ _ _ _ _ L x Hx)).
  destruct (loads_models s' _ r B L) as (own' & tabs' & Hs' & HM'). rewrite insert_delete_eq in HM'.
  exists s', zero, rc, entry, own', tabs', (mem_of r s'). split; [done|]. split; [done|]. split.
  { split; [done|]. split; [done|]. intros r2. cbn [snd]. rewrite Hlive, lookup_insert_is_Some'. split; [by right|intros [<-|?]; [by eexists|done]]. }
  split; [intros x Hx; rewrite HB by done; by apply R2|]. intros Erc. destruct (R3 Erc) as [C [I1 I2 I3 I4 I5]]. split; [done|].
  constructor; try done.
  - intros x b Hx. rewrite HB by done. by apply I1.
  - intros x b Hx. rewrite HB by done. by apply I2.
  - intros p x Hp Hx. destruct (I3 p x Hp Hx) as [Hr2 Hc]. rewrite HB; [done|]. unfold user_virt, USER_LOAD_MIN, USER_LOAD_MAX, USER_STACK_TOP, USER_STACK_MAX, USER_SPACE_BASE in *. lia.
  - intros x Hx. rewrite HB by done. by apply I4.
Qed.
End Loaded.

(** C13: Whatever a file holds, so long as the end its header states for the table of
    program headers is a 64 bit number, loading it into a new space ends, reads nothing
    outside the file, gives one of the codes of elf.h, puts pages between the bottom of user
    space and the room of the stack and nowhere else, and leaves every other program's
    memory as it was. When it says the file is loaded, the entry point is there too, memory
    holds the file's byte at every address a segment has one for (the last segment's where
    they overlap), zeroes in the rest of its pages, and every byte a segment asks for is in
    a page or in the range of zeroes handed out at the first touch. *)
Theorem elf_load_places_the_image (own : owners) (tabs live : list Z) (s : vm (P := pmm)) (M : gmap Z memory) (r : Z) (image : list Z)
    (Hs : implements own tabs (s, live) M) (Hr : M !! r = Some no_memory) (Hi : bytes image) (Hlen : zlen image < 2 ^ 64)
    (Htab : h_phoff (read_hdr image) + h_phnum (read_hdr image) * h_phentsize (read_hdr image) < 2 ^ 64) :
  exists s' zero rc entry own' tabs' m,
    elf_load r image s = Some (s', zero, rc, entry) /\ -7 <= rc <= 0 /\
    implements own' tabs' (s', live) (<[r := m]> M) /\
    (forall x, user_virt x -> is_Some (memory_byte m x) -> USER_LOAD_MIN <= x < USER_LOAD_MAX) /\
    (rc = ELF_OK -> USER_LOAD_MIN <= entry < USER_LOAD_MAX /\
      image_of image (segments image (read_hdr image) (h_phnum (read_hdr image))) zero (memory_byte m)).
Proof. exact (elf_load_implements own tabs live s M r image Hs Hr Hi Hlen Htab). Qed.

(** A file of one segment: three bytes of the file and a page and a half of zeroes. *)
Definition small_elf (phoff : Z) : list Z :=
  [127; 69; 76; 70; 2; 1; 1; 0] ++ le_bytes 8 0 ++ le_bytes 2 ET_EXEC ++ le_bytes 2 EM_X86_64 ++ le_bytes 4 1 ++
  le_bytes 8 (USER_CODE_BASE + 1) ++ le_bytes 8 phoff ++ le_bytes 8 0 ++ le_bytes 4 0 ++ le_bytes 2 HDR_SIZE ++ le_bytes 2 PHDR_SIZE ++ le_bytes 2 1 ++ le_bytes 6 0 ++
  le_bytes 4 PT_LOAD ++ le_bytes 4 5 ++ le_bytes 8 120 ++ le_bytes 8 (USER_CODE_BASE + 1) ++ le_bytes 8 0 ++ le_bytes 8 3 ++ le_bytes 8 6144 ++ le_bytes 8 4096 ++
  [204; 205; 206].
Definition one_space : vm (P := pmm) := fst (fst (do_call New (boot_vm, []))).

Lemma one_space_ready : do_call New (boot_vm, []) = (one_space, [first_space], Some first_space).
Proof. vm_compute. reflexivity. Qed.
Lemma one_space_models : exists own tabs M, implements own tabs (one_space, [first_space]) M /\ M !! first_space = Some no_memory.
Proof.
  assert (forall t r l p, boot_own t = Some (r, l, p) -> r = kernel_pml4 boot_vm) as Hk.
  { intros t r l p. unfold boot_own. destruct (t =? KTOP); [by intros [= <- _ _]|done]. }
  pose proof (call_refines boot_own [] New (boot_vm, []) ∅ (boot_implements boot_own boot_vm boot_vm_ok Hk)) as Hc.
  rewrite one_space_ready in Hc. destruct Hc as (own & tabs & M & Hi & Hsp). exists own, tabs, M. split; [done|]. inversion Hsp; subst. by rewrite lookup_insert_eq.
Qed.
Lemma small_elf_loads :
  let x := elf_load first_space (small_elf HDR_SIZE) one_space in
  (snd <$> x, (fun y => user_byte first_space (USER_CODE_BASE + 2) (fst (fst (fst y)))) <$> x, (fun y => snd (fst (fst y))) <$> x) =
  (Some (USER_CODE_BASE + 1), Some (Some 205), Some (USER_CODE_BASE + 4096, USER_CODE_BASE + 8192)).
Proof. vm_compute. reflexivity. Qed.
Lemma small_elf_ok : (fun y => snd (fst y)) <$> elf_load first_space (small_elf HDR_SIZE) one_space = Some ELF_OK.
Proof. vm_compute. reflexivity. Qed.

Lemma elf_load_places_the_image_witness :
  let image := small_elf HDR_SIZE in
  exists s' zero m, elf_load first_space image one_space = Some (s', zero, ELF_OK, USER_CODE_BASE + 1) /\
    user_byte first_space (USER_CODE_BASE + 2) s' = Some 205 /\ zero = (USER_CODE_BASE + 4096, USER_CODE_BASE + 8192) /\
    image_of image (segments image (read_hdr image) (h_phnum (read_hdr image))) zero (memory_byte m).
Proof.
  cbv zeta. destruct one_space_models as (own & tabs & M & Hi & HM).
  destruct (elf_load_places_the_image own tabs [first_space] one_space M first_space (small_elf HDR_SIZE) Hi HM) as (s' & zero & rc & entry & own' & tabs' & m & El & _ & _ & _ & Hok);
    [apply bytes_check; vm_compute; reflexivity|vm_compute; reflexivity|vm_compute; reflexivity|].
  pose proof small_elf_loads as Hl. pose proof small_elf_ok as Hrc. cbv zeta in Hl. rewrite El in Hl, Hrc. cbn [fmap option_fmap option_map fst snd] in Hl, Hrc.
  injection Hl as H1 H2 H3. injection Hrc as Hrc. exists s', zero, m.
  split; [by rewrite El, Hrc, H1|]. split; [exact H2|]. split; [exact H3|]. exact (proj2 (Hok Hrc)).
Defined.

(** The end of the table of program headers is a sum modulo 2{^64}: a table said to start
    just below 2{^64} passes the check, and its first header is read from before the file. *)
Example table_before_the_file : elf_load first_space (small_elf (2 ^ 64 - 8)) one_space = None.
Proof. vm_compute. reflexivity. Qed.
