(* ===== verification/Stack.v ===== *)
(** A program's start (kernel/user.c): the stack its entry point is reached on, and the
    space it starts in. *)
From S2P Require Import Prelude Pmm Frames Paging Fork Clone Spaces User Programs Loading Elf.

(** ** A start without its task *)

(** What task_create_user is given. *)
Record program := Program { pr_dir : Z; pr_entry : Z; pr_rsp : Z; pr_zero : Z * Z }.

Section Spawn.
Context {P : Type} `{FrameAllocator P}.
Notation vm := (vm (P := P)).

(** [user_spawn_elf_argv] up to the making of the task: its error, or what the task is made
    from. *)
Definition user_spawn_elf_argv (image : list Z) (argc : Z) (argv : option (list (option (list Z)))) (s : vm) : option (vm * (Z + program)) :=
  let (s, dir) := paging_new_directory s in
  if dir =? 0 then Some (s, inl ELF_ERR_MEMORY) else
  match elf_load dir image s with
  | None => None
  | Some (s, zero, rc, entry) =>
      if negb (rc =? ELF_OK) then Some (paging_free_directory dir s, inl rc) else
      match user_build_stack dir argc argv s with
      | (s, None) => Some (paging_free_directory dir s, inl ELF_ERR_MEMORY)
      | (s, Some rsp) => Some (s, inr (Program dir entry rsp zero))
      end
  end.
End Spawn.

(** ** What a program finds *)

Definition word_in (B : Z -> option Z) (a v : Z) : Prop := forall k, 0 <= k < 8 -> B (a + k) = Some (byte_of v k).
Definition bytes_in (B : Z -> option Z) (a : Z) (l : list Z) : Prop := forall k, 0 <= k < zlen l -> B (a + k) = Some l.[k].

(** The block under the stack pointer [sp] (System V's): the count, a pointer to each word,
    and the nulls that end the words and the environment; the words above it, each with
    its NUL. *)
Record starts_with (words : list (list Z)) (sp : Z) (B : Z -> option Z) : Prop := {
  st_sp : USER_STACK_TOP - PAGE_SIZE <= sp /\ sp + 8 * (zlen words + 3) <= USER_STACK_TOP /\ sp mod 16 = 0;
  st_argc : word_in B sp (zlen words);
  st_argv : forall i, 0 <= i < zlen words -> exists p, word_in B (sp + 8 * (1 + i)) p /\
    sp + 8 * (zlen words + 3) <= p /\ p + zlen (getz [] words i) < USER_STACK_TOP /\ bytes_in B p (getz [] words i ++ [0]);
  st_end : word_in B (sp + 8 * (1 + zlen words)) 0;
  st_environ : word_in B (sp + 8 * (2 + zlen words)) 0
}.

Lemma word_in_ext B B' a v : word_in B a v -> (forall x, a <= x < a + 8 -> B' x = B x) -> word_in B' a v.
Proof. intros Hw HB k Hk. rewrite HB by lia. by apply Hw. Qed.
Lemma bytes_in_ext B B' a l : bytes_in B a l -> (forall x, a <= x < a + zlen l -> B' x = B x) -> bytes_in B' a l.
Proof. intros Hw HB k Hk. rewrite HB by lia. by apply Hw. Qed.

(** Room for words with their NULs. *)
Fixpoint words_size (words : list (list Z)) : Z := match words with [] => 0 | w :: words => zlen w + 1 + words_size words end.
Lemma words_size_nonneg words : 0 <= words_size words.
Proof. induction words as [|w words IH]; cbn [words_size]; lia. Qed.

Definition TOP_PAGE : Z := USER_STACK_TOP - PAGE_SIZE.
Definition STACK_LOW : Z := USER_STACK_TOP - USER_STACK_PAGES * PAGE_SIZE.
Ltac stack_lia := unfold user_virt, TOP_PAGE, STACK_LOW, USER_STACK_TOP, USER_STACK_PAGES, PAGE_SIZE, USER_SPACE_BASE in *; lia.

Section Stack.
Context {P : Type} `{FrameAllocatorLaws P}.
Notation vm := (vm (P := P)).
Implicit Types s : vm.

(** The top page there, in the frame [top]. *)
Definition top_page s M r B top : Prop := loads s M r B /\ virt_to_phys_in r TOP_PAGE s = top /\ forall x, TOP_PAGE <= x < USER_STACK_TOP -> is_Some (B x).

Lemma top_phys s M r B top off : top_page s M r B top -> 0 <= off < 4096 -> virt_to_phys_in r (TOP_PAGE + off) s = top + off.
Proof.
  intros ((own & tabs & Hl) & Ht & HB) Ho. assert (user_virt TOP_PAGE /\ user_virt (TOP_PAGE + off)) as [H1 H2] by stack_lia.
  destruct (HB TOP_PAGE ltac:(stack_lia)) as [b1 E1]. destruct (HB (TOP_PAGE + off) ltac:(stack_lia)) as [b2 E2].
  destruct (user_phys own tabs s M r B _ _ Hl H1 E1) as (P1 & _). destruct (user_phys own tabs s M r B _ _ Hl H2 E2) as (P2 & _).
  pose proof Hl as [Hs _ _ Hr _ _]. rewrite <- Ht, P1, P2, <- (page_entry_page own s r (TOP_PAGE + off)), <- (page_entry_page own s r TOP_PAGE) by (done || apply Hs).
  assert (page_of (TOP_PAGE + off) = page_of TOP_PAGE /\ (TOP_PAGE + off) mod 4096 = off /\ TOP_PAGE mod 4096 = 0) as (-> & -> & ->); [|lia].
  unfold page_of, TOP_PAGE, USER_STACK_TOP, PAGE_SIZE, USER_SPACE_BASE. repeat split; dlia.
Qed.

Lemma top_word s M r B top off v : top_page s M r B top -> 0 <= off -> off + 8 <= 4096 -> off mod 8 = 0 -> is_u64 v ->
  exists B', top_page (wr (top + off) v s) M r B' top /\ word_in B' (TOP_PAGE + off) v /\
    forall x, ~ (TOP_PAGE + off <= x < TOP_PAGE + off + 8) -> B' x = B x.
Proof.
  intros Ht H1 H2 Hal Hv. pose proof (top_phys s M r B top off Ht ltac:(lia)) as Hp. destruct Ht as (Hl & Htop & HB).
  assert (word_at (TOP_PAGE + off)) as Ha. { split; [stack_lia|]. unfold TOP_PAGE, USER_STACK_TOP, PAGE_SIZE, USER_SPACE_BASE. dlia. }
  destruct (loading_word s M r B (TOP_PAGE + off) v Hl Ha ltac:(apply HB; stack_lia) Hv) as [L S]. rewrite Hp in L, S.
  eexists. split; [split; [exact L|split; [rewrite S by stack_lia; done|]]|].
  - intros x Hx. cbv beta. destruct (_ =? _); [by eexists|by apply HB].
  - destruct Ha as [_ Ha]. set (A := TOP_PAGE + off) in *. clearbody A. split.
    + intros k Hk. rewrite (proj2 (Z.eqb_eq ((A + k) / 8 * 8) A)) by dlia. do 2 f_equal. dlia.
    + intros x Hx. rewrite (proj2 (Z.eqb_neq (x / 8 * 8) A)) by dlia. done.
Qed.
Lemma top_bytes s M r B top off l : top_page s M r B top -> 0 <= off -> off + zlen l <= 4096 -> 0 < zlen l -> bytes l ->
  exists B', top_page (wr_bytes (top + off) l s) M r B' top /\ bytes_in B' (TOP_PAGE + off) l /\
    forall x, ~ (TOP_PAGE + off <= x < TOP_PAGE + off + zlen l) -> B' x = B x.
Proof.
  intros Ht H1 H2 Hl0 Hb. pose proof (top_phys s M r B top off Ht ltac:(lia)) as Hp. destruct Ht as (Hl & Htop & HB).
  assert ((TOP_PAGE + off) mod 4096 = off) as Hm by (unfold TOP_PAGE, USER_STACK_TOP, PAGE_SIZE, USER_SPACE_BASE; dlia).
  destruct (loading_bytes l s M r B (TOP_PAGE + off) Hl ltac:(stack_lia) Hb) as [L S]; [lia|intros y Hy; apply HB; stack_lia|]. rewrite Hp in L, S.
  eexists. split; [split; [exact L|split; [rewrite S by stack_lia; done|]]|].
  - intros x Hx. unfold at_bytes. destruct (_ && _); [by eexists|by apply HB].
  - split.
    + intros k Hk. unfold at_bytes. repeat case_bool; cbn [andb]; try lia. do 2 f_equal. lia.
    + intros x Hx. unfold at_bytes. repeat case_bool; cbn [andb]; (done || lia).
Qed.

(** The words from the top of the page down. *)
Lemma put_words_spec words : forall s M r B top at_, top_page s M r B top -> Forall bytes words -> 0 <= at_ <= 4096 ->
  let (s', res) := put_words words top at_ s in
  exists B', top_page s' M r B' top /\ (forall x, ~ (TOP_PAGE <= x < TOP_PAGE + at_) -> B' x = B x) /\
  match res with
  | None => at_ < words_size words
  | Some (at', ptrs) => at' = at_ - words_size words /\ 0 <= at' /\ length ptrs = length words /\
      forall i, 0 <= i < zlen words -> TOP_PAGE + at' <= ptrs.[i] /\ ptrs.[i] + zlen (getz [] words i) < TOP_PAGE + at_ /\ bytes_in B' ptrs.[i] (getz [] words i ++ [0])
  end.
Proof.
  induction words as [|w words IH]; intros s M r B top at_ Ht Hw Hat; cbn [put_words words_size].
  { exists B. split; [done|]. split; [done|]. rewrite Z.sub_0_r. split; [done|]. split; [lia|]. split; [done|]. intros i Hi. cbn [length] in Hi. lia. }
  rewrite list.Forall_cons in Hw. destruct Hw as [Hw Hws]. pose proof (IH s M r B top at_ Ht Hws Hat) as H1. destruct (put_words words top at_ s) as [s1 [[at1 ptrs]|]].
  2: { destruct H1 as (B1 & T1 & O1 & H1). exists B1. split; [done|]. split; [done|]. lia. }
  destruct H1 as (B1 & T1 & O1 & -> & Hat1 & Hlen & Hptr). pose proof (words_size_nonneg words) as Hsz.
  destruct (Z.ltb_spec (at_ - words_size words) (zlen w + 1)) as [Hlt|Hge].
  { exists B1. split; [done|]. split; [done|]. lia. }
  set (at2 := at_ - words_size words - (zlen w + 1)). assert (zlen (w ++ [0]) = zlen w + 1) as Hz by (rewrite length_app; cbn [length]; lia).
  destruct (top_bytes s1 M r B1 top at2 (w ++ [0]) T1 ltac:(lia) ltac:(lia) ltac:(lia)) as (B2 & T2 & W2 & O2).
  { apply Forall_app. split; [done|]. by apply list.Forall_singleton. }
  rewrite Hz in O2. exists B2. split; [exact T2|]. split; [intros x Hx; rewrite O2 by lia; apply O1; lia|]. split; [lia|]. split; [lia|].
  split; [cbn [length]; lia|]. intros i Hi. cbn [length] in Hi. destruct (Z.eq_dec i 0) as [->|Hn].
  - change (getz [] (w :: words) 0) with w. set (p0 := USER_STACK_TOP - (PAGE_SIZE - at2)). change ((p0 :: ptrs).[0]) with p0.
    assert (p0 = TOP_PAGE + at2) as -> by stack_lia. split; [lia|]. split; [lia|exact W2].
  - assert (forall (A : Type) (d x : A) l, getz d (x :: l) i = getz d l (i - 1)) as Hg by (intros; unfold getz; replace (Z.to_nat i) with (S (Z.to_nat (i - 1))) by lia; done).
    rewrite !Hg. destruct (Hptr (i - 1) ltac:(lia)) as (G1 & G2 & G3). split; [lia|]. split; [lia|]. eapply bytes_in_ext; [exact G3|]. intros x Hx. apply O2.
    rewrite length_app in Hx. cbn [length] in Hx. lia.
Qed.

(** The pages. *)
Definition with_stack (B : Z -> option Z) (low x : Z) : option Z := if (low <=? x) && (x <? USER_STACK_TOP) then Some 0 else B x.
Lemma stack_pages_spec s M r B : loads s M r B -> (forall x, STACK_LOW <= x < USER_STACK_TOP -> B x = None) ->
  let '(s', top, ok) := stack_pages r s in if ok then top_page s' M r (with_stack B STACK_LOW) top else exists B', loads s' M r B'.
Proof.
  intros Hl HB. unfold stack_pages. match goal with |- context [foldl ?f _ _] => set (F := f) end.
  assert (forall n : nat, Z.of_nat n <= USER_STACK_PAGES -> let '(s', top, ok) := foldl F (s, 0, true) (seqZ 1 (Z.of_nat n)) in
    if ok then loads s' M r (with_stack B (USER_STACK_TOP - Z.of_nat n * PAGE_SIZE)) /\ (1 <= Z.of_nat n -> virt_to_phys_in r TOP_PAGE s' = top) else exists B', loads s' M r B') as Hn.
  { induction n as [|n IH]; intros Hn.
    { cbn. split; [|lia]. eapply loads_ext; [exact Hl|]. intros x Hx. unfold with_stack. repeat case_bool; cbn [andb]; (done || lia). }
    replace (Z.of_nat (S n)) with (Z.of_nat n + 1) by lia. rewrite seqZ_app, foldl_app by lia. assert (forall m, seqZ m 1 = [m]) as Eone by (intros m; rewrite seqZ_cons, seqZ_nil by lia; done). rewrite Eone. cbn [foldl].
    specialize (IH ltac:(lia)). destruct (foldl F (s, 0, true) (seqZ 1 (Z.of_nat n))) as [[s1 top] ok]. unfold F. cbn beta iota. destruct ok; cbn [negb]; [|done].
    destruct IH as [L1 T1]. set (i := 1 + Z.of_nat n). set (a := USER_STACK_TOP - i * PAGE_SIZE).
    assert (user_virt a) as Ha by (unfold a, i; stack_lia). assert (a mod 4096 = 0) as Hal by (unfold a, USER_STACK_TOP, PAGE_SIZE, USER_SPACE_BASE; dlia).
    assert (forall x, same_page x a = true <-> a <= x < a + 4096) as Hsp by (intros x; unfold same_page; rewrite Z.eqb_eq; split; intros; dlia).
    pose proof (loading_page s1 M r _ a L1 Ha Hal) as Hp. destruct (alloc_user_page r a s1) as [s2 f].
    assert (with_stack B (USER_STACK_TOP - Z.of_nat n * PAGE_SIZE) a = None) as Hna.
    { unfold with_stack. rewrite (proj2 (Z.leb_gt _ _)) by (unfold a, i; stack_lia). apply HB. unfold a, i. stack_lia. }
    specialize (Hp Hna). destruct (f =? 0); [by eexists|]. destruct Hp as (L2 & P2 & P3). replace (Z.of_nat n + 1) with i by lia. split.
    - eapply loads_ext; [exact L2|]. intros x Hx. pose proof (Hsp x) as Hspx. unfold with_stack. fold a. destruct (same_page x a).
      + assert (a <= x < a + 4096) as Hr by (by apply Hspx). rewrite (proj2 (Z.leb_le a x)), (proj2 (Z.ltb_lt x USER_STACK_TOP)) by (unfold a, i in *; stack_lia). done.
      + assert (~ (a <= x < a + 4096)) as Hr by (intros Hr; by apply Hspx in Hr). repeat case_bool; cbn [andb]; try done; unfold a, i in *; stack_lia.
    - intros _. destruct (Z.eqb_spec i 1) as [E|E]; [by replace TOP_PAGE with a by (unfold a; rewrite E; stack_lia)|].
      rewrite P3; [apply T1; lia|stack_lia|]. destruct (same_page TOP_PAGE a) eqn:E2; [|done]. apply Hsp in E2. unfold a, i in *. stack_lia. }
  specialize (Hn 16%nat ltac:(unfold USER_STACK_PAGES; lia)). change (Z.of_nat 16) with USER_STACK_PAGES in Hn.
  destruct (foldl F (s, 0, true) (seqZ 1 USER_STACK_PAGES)) as [[s' top] ok]. destruct ok; [|done]. destruct Hn as [L T]. split; [exact L|]. split; [apply T; unfold USER_STACK_PAGES; lia|].
  intros x Hx. unfold with_stack. rewrite (proj2 (Z.leb_le _ x)), (proj2 (Z.ltb_lt x _)) by stack_lia. by eexists.
Qed.

(** The vector of pointers. *)
Lemma put_vector s M r B top off (ptr : list Z) : top_page s M r B top -> 0 <= off -> off mod 8 = 0 -> off + 8 * zlen ptr <= 4096 -> Forall is_u64 ptr ->
  exists B', top_page (for_range 0 (zlen ptr) (fun i s => wr (top + off + 8 * i) ptr.[i] s) s) M r B' top /\
    (forall i, 0 <= i < zlen ptr -> word_in B' (TOP_PAGE + off + 8 * i) ptr.[i]) /\
    forall x, ~ (TOP_PAGE + off <= x < TOP_PAGE + off + 8 * zlen ptr) -> B' x = B x.
Proof.
  intros Ht Ho Hal Hfit Hp.
  pose proof (for_range_inv (fun n s => exists B', top_page s M r B' top /\ (forall i, 0 <= i < n -> word_in B' (TOP_PAGE + off + 8 * i) ptr.[i]) /\
    forall x, ~ (TOP_PAGE + off <= x < TOP_PAGE + off + 8 * n) -> B' x = B x) 0 (zlen ptr) (fun i s => wr (top + off + 8 * i) ptr.[i] s) s) as HI.
  apply HI; [lia| |].
  - exists B. split; [done|]. split; [lia|done].
  - intros n s1 Hn (B1 & T1 & W1 & O1). destruct (top_word s1 M r B1 top (off + 8 * n) ptr.[n] T1 ltac:(lia) ltac:(lia) ltac:(dlia)) as (B2 & T2 & W2 & O2).
    { apply (Forall_getz is_u64); [by split|done]. }
    rewrite !Z.add_assoc in *. exists B2. split; [exact T2|]. split.
    + intros i Hi. destruct (Z.eq_dec i n) as [->|Hne]; [done|]. eapply word_in_ext; [by apply W1; lia|]. intros x Hx. apply O2. lia.
    + intros x Hx. rewrite O2 by lia. apply O1. lia.
Qed.

Definition words_of (argc : Z) (argv : option (list (option (list Z)))) : list (list Z) := word_of argv <$> seqZ 0 (Z.max 0 argc).
Definition block_size (words : list (list Z)) : Z := words_size words + 8 * (zlen words + 3).

Lemma build_stack_spec s M r B argc argv : loads s M r B -> (forall x, STACK_LOW <= x < USER_STACK_TOP -> B x = None) ->
  Forall bytes (words_of argc argv) ->
  exists B', let (s', res) := user_build_stack r argc argv s in loads s' M r B' /\
    match res with
    | None => snd (stack_pages r s) = false \/ USER_ARGV_MAX < argc \/ PAGE_SIZE < block_size (words_of argc argv)
    | Some sp => starts_with (words_of argc argv) sp B' /\ forall x, user_virt x -> x < STACK_LOW -> B' x = B x
    end.
Proof.
  intros Hl HB Hw. unfold user_build_stack. pose proof (stack_pages_spec s M r B Hl HB) as Hp. destruct (stack_pages r s) as [[s1 top] ok]. cbn [snd].
  destruct ok; cbn [negb]; [|destruct Hp as [B' Hp]; exists B'; split; [done|by left]].
  assert ((if argc <? 0 then 0 else argc) = Z.max 0 argc) as -> by (case_bool; lia). fold (words_of argc argv).
  assert (zlen (words_of argc argv) = Z.max 0 argc) as Hn by (unfold words_of; rewrite length_fmap, length_seqZ; lia). rewrite <- Hn. clear HB.
  destruct (Z.ltb_spec USER_ARGV_MAX (zlen (words_of argc argv))) as [Hm|Hm].
  { eexists. split; [apply Hp|]. right. left. unfold USER_ARGV_MAX in *. lia. }
  set (words := words_of argc argv) in *. set (n := zlen words) in *.
  pose proof (put_words_spec words s1 M r _ top PAGE_SIZE Hp Hw ltac:(unfold PAGE_SIZE; lia)) as Hpw. destruct (put_words words top PAGE_SIZE s1) as [s2 [[at_ ptr]|]].
  2: { destruct Hpw as (B2 & T2 & _ & Hs). exists B2. split; [apply T2|]. right. right. unfold block_size. lia. }
  destruct Hpw as (B2 & T2 & O2 & Hat & Hat0 & Hlen & Hptr). destruct (Z.ltb_spec at_ ((n + 3) * 8)) as [Hlt|Hge].
  { exists B2. split; [apply T2|]. right. right. unfold block_size. fold n. lia. }
  assert (0 <= words_size words) by apply words_size_nonneg.
  assert ((at_ - (n + 3) * 8) .& u64 (Z.lnot 15) = (at_ - (n + 3) * 8) / 16 * 16) as ->.
  { change 15 with (2 ^ 4 - 1). rewrite mask_down; [done|lia|]. unfold is_word, PAGE_SIZE in *. lia. }
  set (off := (at_ - (n + 3) * 8) / 16 * 16). assert (0 <= off /\ off + 8 * (n + 3) <= at_ /\ off mod 16 = 0 /\ at_ <= 4096) as (F1 & F2 & F3 & F4) by (unfold off, PAGE_SIZE in *; repeat split; try dlia).
  assert (off mod 8 = 0) as F5 by dlia.
  destruct (top_word s2 M r B2 top off n T2 ltac:(lia) ltac:(lia) F5) as (B3 & T3 & W3 & O3); [unfold is_word, USER_ARGV_MAX in *; lia|].
  destruct (put_vector (wr (top + off) n s2) M r B3 top (off + 8) ptr T3 ltac:(lia) ltac:(dlia) ltac:(lia)) as (B4 & T4 & W4 & O4).
  { apply list.Forall_forall. intros x Hx. apply list_elem_of_lookup in Hx as [j Hj]. pose proof (lookup_lt_Some _ _ _ Hj) as Hlt.
    destruct (Hptr (Z.of_nat j) ltac:(lia)) as (G1 & G2 & _). assert (ptr.[Z.of_nat j] = x) as E. { unfold getz. rewrite Nat2Z.id. by apply nth_lookup_Some. }
    rewrite E in G1, G2. unfold is_word, PAGE_SIZE in *. stack_lia. }
  assert (for_range 0 n (fun i s => wr (top + off + 8 * (1 + i)) ptr.[i] s) (wr (top + off) n s2) =
    for_range 0 (zlen ptr) (fun i s => wr (top + (off + 8) + 8 * i) ptr.[i] s) (wr (top + off) n s2)) as ->.
  { rewrite Hlen. fold n. apply (for_range_rel eq); [|done]. intros i x y _ ->. f_equal. lia. }
  set (s4 := for_range 0 (zlen ptr) _ _) in *. clearbody s4.
  destruct (top_word s4 M r B4 top (off + 8 * (1 + n)) 0 T4 ltac:(lia) ltac:(lia) ltac:(dlia)) as (B5 & T5 & W5 & O5); [by split|].
  replace (top + (off + 8 * (1 + n))) with (top + off + 8 * (1 + n)) in T5 by lia. set (s5 := wr _ 0 s4) in *. clearbody s5.
  destruct (top_word s5 M r B5 top (off + 8 * (2 + n)) 0 T5 ltac:(lia) ltac:(lia) ltac:(dlia)) as (B6 & T6 & W6 & O6); [by split|].
  replace (top + (off + 8 * (2 + n))) with (top + off + 8 * (2 + n)) in T6 by lia. set (s6 := wr _ 0 s5) in *. clearbody s6.
  assert (USER_STACK_TOP - (PAGE_SIZE - off) = TOP_PAGE + off) as -> by stack_lia. rewrite Hlen in *. fold n in W4, O4.
  assert (forall x, x < TOP_PAGE + off \/ TOP_PAGE + at_ <= x -> B6 x = B2 x) as O.
  { intros x Hx. rewrite O6, O5, O4, O3 by lia. done. }
  exists B6. split; [apply T6|]. split.
  - constructor; fold n.
    + fold n. split; [stack_lia|]. split; [stack_lia|]. unfold TOP_PAGE, USER_STACK_TOP, PAGE_SIZE, USER_SPACE_BASE. dlia.
    + eapply word_in_ext; [exact W3|]. intros x Hx. rewrite O6, O5, O4 by lia. done.
    + intros i Hi. exists ptr.[i]. destruct (Hptr i Hi) as (G1 & G2 & G3). replace (TOP_PAGE + off + 8 * (1 + i)) with (TOP_PAGE + (off + 8) + 8 * i) by lia.
      split; [|split; [lia|split; [stack_lia|]]].
      * eapply word_in_ext; [by apply W4|]. intros x Hx. rewrite O6, O5 by lia. done.
      * eapply bytes_in_ext; [exact G3|]. intros x Hx. apply O. lia.
    + replace (TOP_PAGE + off + 8 * (1 + n)) with (TOP_PAGE + (off + 8 * (1 + n))) by lia. eapply word_in_ext; [exact W5|]. intros x Hx. apply O6. lia.
    + by replace (TOP_PAGE + off + 8 * (2 + n)) with (TOP_PAGE + (off + 8 * (2 + n))) by lia.
  - intros x Hx Hlow. rewrite O by stack_lia. rewrite O2 by stack_lia. unfold with_stack. rewrite (proj2 (Z.leb_gt _ _)) by lia. done.
Qed.

(** A space made for a program that does not start, ended again. *)
Lemma implements_end own tabs s live M f m : implements own tabs (s, f :: live) (<[f := m]> M) -> M !! f = None -> f ∉ live ->
  exists own' tabs', implements own' tabs' (paging_free_directory f s, live) M.
Proof.
  intros (Hs & HM & Hl) Hf Hnl. cbn [fst snd] in Hs, HM, Hl. destruct (exit_refines own tabs s _ f m Hs HM (lookup_insert_eq _ _ _)) as (own' & tabs' & A & C).
  rewrite delete_insert_id in C by done. exists own', tabs'. split; [exact A|]. split; [exact C|]. intros r. cbn [snd].
  specialize (Hl r). rewrite list.elem_of_cons, lookup_insert_is_Some' in Hl. split.
  - intros Hr. destruct (proj1 Hl (or_intror Hr)) as [E|]; [congruence|done].
  - intros Hr. destruct (proj2 Hl (or_intror Hr)) as [E|]; [|done]. rewrite E, Hf in Hr. by destruct Hr.
Qed.

Lemma implements_loads s live M f B : loads s M f B -> (forall r, r ∈ live <-> is_Some (M !! r)) ->
  exists own tabs, implements own tabs (s, f :: live) (<[f := mem_of f s]> M) /\ forall x, user_virt x -> memory_byte (mem_of f s) x = B x.
Proof.
  intros Hl Hlive. destruct (loads_models s M f B Hl) as (own & tabs & Hs & HM). exists own, tabs. split.
  - split; [done|]. split; [done|]. cbn [snd]. by apply live_insert.
  - intros x Hx. destruct Hl as (? & ? & L). exact (ld_bytes _ _ _ _ _ _ L x Hx).
Qed.

Lemma image_of_ext image segs zero B B' : image_of image segs zero B -> (forall x, user_virt x -> B' x = B x) -> image_of image segs zero B'.
Proof.
  intros [I1 I2 I3 I4 I5] HB. constructor; [..|done].
  - intros x b Hx. rewrite HB by done. by apply I1.
  - intros x b Hx. rewrite HB by done. by apply I2.
  - intros p x Hp Hx. destruct (I3 p x Hp Hx) as [Hr2 Hc]. rewrite HB; [done|]. unfold user_virt, USER_LOAD_MIN, USER_LOAD_MAX, USER_STACK_TOP, USER_STACK_MAX, USER_SPACE_BASE in *. lia.
  - intros x Hx. rewrite HB by done. by apply I4.
Qed.
Lemma word_in_user B B' a v : word_in B a v -> user_virt a -> user_virt (a + 7) -> (forall x, user_virt x -> B' x = B x) -> word_in B' a v.
Proof. intros Hw H1 H2 HB. eapply word_in_ext; [exact Hw|]. intros x Hx. apply HB. unfold user_virt in *. lia. Qed.
Lemma starts_with_ext words sp B B' : starts_with words sp B -> (forall x, user_virt x -> B' x = B x) -> starts_with words sp B'.
Proof.
  intros [S1 S2 S3 S4 S5] HB. assert (forall k, 0 <= k < zlen words + 3 -> user_virt (sp + 8 * k) /\ user_virt (sp + 8 * k + 7)) as Hu by (intros k Hk; stack_lia).
  constructor; [done|..].
  - apply (word_in_user B); try done; stack_lia.
  - intros i Hi. destruct (S3 i Hi) as (p & W & P1 & P2 & P3). exists p. split; [apply (word_in_user B); try done; stack_lia|]. split; [done|]. split; [done|].
    eapply bytes_in_ext; [exact P3|]. intros x Hx. apply HB. rewrite length_app in Hx. cbn [length] in Hx. stack_lia.
  - apply (word_in_user B); try done; stack_lia.
  - apply (word_in_user B); try done; stack_lia.
Qed.

Lemma spawn_spec own tabs s live M image argc argv : implements own tabs (s, live) M -> bytes image -> zlen image < 2 ^ 64 ->
  h_phoff (read_hdr image) + h_phnum (read_hdr image) * h_phentsize (read_hdr image) < 2 ^ 64 -> Forall bytes (words_of argc argv) ->
  exists s' res own' tabs', user_spawn_elf_argv image argc argv s = Some (s', res) /\
    match res with
    | inl rc => -7 <= rc < 0 /\ implements own' tabs' (s', live) M
    | inr p => exists m, M !! pr_dir p = None /\ implements own' tabs' (s', pr_dir p :: live) (<[pr_dir p := m]> M) /\
        USER_LOAD_MIN <= pr_entry p < USER_LOAD_MAX /\ starts_with (words_of argc argv) (pr_rsp p) (memory_byte m) /\
        image_of image (segments image (read_hdr image) (h_phnum (read_hdr image))) (pr_zero p)
          (fun x => if x <? STACK_LOW then memory_byte m x else None)
    end.
Proof.
  intros (Hs & HM & Hlive) Hi Hlen Htab Hw. cbn [fst snd] in Hs, HM, Hlive. unfold user_spawn_elf_argv.
  destruct (paging_new_directory s) as [s1 f] eqn:E. destruct (new_refines own tabs s M s1 f Hs HM E) as (own1 & tabs1 & A & B & C). revert B.
  destruct (Z.eqb_spec f 0) as [Ef|Hf]; intros B.
  { exists s1, (inl ELF_ERR_MEMORY), own1, tabs1. unfold ELF_ERR_MEMORY. split; [done|]. split; [lia|]. done. }
  assert (M !! f = None) as HMf by (by apply C). pose proof (loads_new own1 tabs1 s1 _ f A B (lookup_insert_eq _ _ _)) as L1. rewrite delete_insert_id in L1 by done.
  assert (f ∉ live) as Hfl. { intros Hin. apply Hlive in Hin. rewrite HMf in Hin. by destruct Hin. }
  assert (forall s2 B2 rc, loads s2 M f B2 -> -7 <= rc < 0 -> exists own' tabs', -7 <= rc < 0 /\ implements own' tabs' (paging_free_directory f s2, live) M) as Hfail.
  { intros s2 B2 rc L2 Hrc. destruct (implements_loads s2 live M f B2 L2 Hlive) as (o & t & Him & _). destruct (implements_end o t s2 live M f _ Him HMf Hfl) as (o' & t' & Him').
    exists o', t'. done. }
  destruct (elf_load_spec f image s1 M Hi Hlen Htab L1) as (s2 & zero & rc & entry & B2 & -> & L2 & R1 & R2 & R3).
  destruct (Z.eqb_spec rc ELF_OK) as [Erc|Erc]; cbn [negb].
  2: { destruct (Hfail s2 B2 rc L2 ltac:(unfold ELF_OK in Erc; lia)) as (o & t & Hf2). exists (paging_free_directory f s2), (inl rc), o, t. done. }
  destruct (R3 Erc) as [Hentry Himg].
  assert (forall x, STACK_LOW <= x < USER_STACK_TOP -> B2 x = None) as Hst.
  { intros x Hx. destruct (B2 x) eqn:E2; [|done]. exfalso. pose proof (R2 x ltac:(stack_lia) ltac:(by rewrite E2)) as HR. unfold USER_LOAD_MAX, USER_STACK_MAX in HR. stack_lia. }
  destruct (build_stack_spec s2 M f B2 argc argv L2 Hst Hw) as (B3 & H3). destruct (user_build_stack f argc argv s2) as [s3 [sp|]].
  2: { destruct H3 as [L3 _]. destruct (Hfail s3 B3 ELF_ERR_MEMORY L3 ltac:(unfold ELF_ERR_MEMORY; lia)) as (o & t & Hf2). exists (paging_free_directory f s3), (inl ELF_ERR_MEMORY), o, t. done. }
  destruct H3 as (L3 & Hstart & Hrest). destruct (implements_loads s3 live M f B3 L3 Hlive) as (o & t & Him & HB).
  exists s3, (inr (Program f entry sp zero)), o, t. split; [done|]. cbn [pr_dir pr_entry pr_rsp pr_zero]. exists (mem_of f s3). split; [done|]. split; [done|]. split; [done|]. split.
  - by apply (starts_with_ext _ _ B3).
  - eapply image_of_ext; [exact Himg|]. intros x Hx. destruct (Z.ltb_spec x STACK_LOW) as [Hlt|Hge]; [by rewrite HB, Hrest|].
    destruct (B2 x) eqn:E2; [|done]. exfalso. pose proof (R2 x Hx ltac:(by rewrite E2)) as HR. unfold USER_LOAD_MAX, USER_STACK_MAX in HR. stack_lia.
Qed.
End Stack.

(** C14: So long as the end that a file's header states for its table of program headers is
    a 64 bit number, starting a program from it leaves the memories of every other program as
    they were, whether it succeeds or not, and either gives an error of elf.h with no space
    left behind, or a new space in which memory below the stack is what the file says, the
    entry point is where programs may lie, and the stack pointer is a multiple of sixteen
    under which the program finds the count of its words, a pointer to each in order, each
    with its bytes and a NUL and in a place of its own above the block, and the two nulls
    that end them and the environment. *)
Theorem programs_start_as_their_files_say (own : owners) (tabs live : list Z) (s : vm (P := pmm)) (M : gmap Z memory) (image : list Z)
    (argc : Z) (argv : option (list (option (list Z))))
    (Hs : implements own tabs (s, live) M) (Hi : bytes image) (Hlen : zlen image < 2 ^ 64)
    (Htab : h_phoff (read_hdr image) + h_phnum (read_hdr image) * h_phentsize (read_hdr image) < 2 ^ 64)
    (Hw : Forall bytes (words_of argc argv)) :
  exists s' res own' tabs', user_spawn_elf_argv image argc argv s = Some (s', res) /\
    match res with
    | inl rc => -7 <= rc < 0 /\ implements own' tabs' (s', live) M
    | inr p => exists m, M !! pr_dir p = None /\ implements own' tabs' (s', pr_dir p :: live) (<[pr_dir p := m]> M) /\
        USER_LOAD_MIN <= pr_entry p < USER_LOAD_MAX /\ starts_with (words_of argc argv) (pr_rsp p) (memory_byte m) /\
        image_of image (segments image (read_hdr image) (h_phnum (read_hdr image))) (pr_zero p)
          (fun x => if x <? STACK_LOW then memory_byte m x else None)
    end.
Proof. exact (spawn_spec own tabs s live M image argc argv Hs Hi Hlen Htab Hw). Qed.

(** Two words, the second a null pointer. *)
Definition some_words : option (list (option (list Z))) := Some [Some [115; 104]; None].
Definition spawned_sp : Z := USER_STACK_TOP - 48.
Lemma small_spawns :
  let x := user_spawn_elf_argv (small_elf HDR_SIZE) 2 some_words boot_vm in
  (snd <$> x, (fun y => (user_word first_space spawned_sp (fst y), user_word first_space (spawned_sp + 8) (fst y))) <$> x) =
  (Some (inr (Program first_space (USER_CODE_BASE + 1) spawned_sp (USER_CODE_BASE + 4096, USER_CODE_BASE + 8192))), Some (Some 2, Some (USER_STACK_TOP - 4))).
Proof. vm_compute. reflexivity. Qed.

Lemma programs_start_as_their_files_say_witness :
  let image := small_elf HDR_SIZE in
  exists s' m, user_spawn_elf_argv image 2 some_words boot_vm =
      Some (s', inr (Program first_space (USER_CODE_BASE + 1) spawned_sp (USER_CODE_BASE + 4096, USER_CODE_BASE + 8192))) /\
    user_word first_space spawned_sp s' = Some 2 /\ starts_with [[115; 104]; []] spawned_sp (memory_byte m).
Proof.
  cbv zeta.
  assert (forall t r l p, boot_own t = Some (r, l, p) -> r = kernel_pml4 boot_vm) as Hk.
  { intros t r l p. unfold boot_own. destruct (t =? KTOP); [by intros [= <- _ _]|done]. }
  destruct (programs_start_as_their_files_say boot_own [] [] boot_vm ∅ (small_elf HDR_SIZE) 2 some_words (boot_implements boot_own boot_vm boot_vm_ok Hk))
    as (s' & res & own' & tabs' & El & Hres);
    [apply bytes_check; vm_compute; reflexivity|vm_compute; reflexivity|vm_compute; reflexivity| |].
  { change (words_of 2 some_words) with [[115; 104]; []]. apply list.Forall_cons_2; [apply bytes_check; reflexivity|]. apply list.Forall_cons_2; [|done]. by apply list.Forall_nil. }
  pose proof small_spawns as Hl. cbv zeta in Hl. rewrite El in Hl. cbn [fmap option_fmap option_map fst snd] in Hl.
  injection Hl as H1 H2 H3. rewrite H1 in El, Hres. destruct Hres as (m & _ & _ & _ & Hst & _). exists s', m.
  split; [exact El|]. split; [exact H2|]. exact Hst.
Defined.
