(* ===== verification/Ranges.v ===== *)
(** The ranges of addresses a program asks for (kernel/user.c), as a map from addresses to
    the protection each was asked for with. *)
From S2P Require Import Prelude Pmm Frames Paging Fork Clone Spaces User Programs Loading Elf.

Definition used (v : vma_t) : bool := negb (base v =? 0).
Definition spans (v : vma_t) (x : Z) : bool := used v && (base v <=? x) && (x <? base v + len v).

(** A range inside the window, or a free entry. *)
Definition range_ok (v : vma_t) : Prop :=
  (base v = 0 /\ len v = 0) \/
  (USER_MMAP_BASE <= base v /\ base v + len v <= USER_MMAP_MAX /\ base v mod 4096 = 0 /\ 0 < len v /\ len v mod 4096 = 0).
Record ranges_ok (t : task_t) : Prop := {
  rg_size : zlen (vma t) = VMA_MAX /\ 0 <= nvma t <= VMA_MAX;
  rg_each : forall i, 0 <= i < VMA_MAX -> range_ok (vma_at t i);
  rg_free : forall i, nvma t <= i < VMA_MAX -> used (vma_at t i) = false;
  rg_apart : forall i j x, 0 <= i < VMA_MAX -> 0 <= j < VMA_MAX -> spans (vma_at t i) x = true -> spans (vma_at t j) x = true -> i = j
}.

(** The protection at an address. *)
Definition prot_at (t : task_t) (x : Z) : option Z := prot_of <$> vma_holding t x.

Ltac range_lia := unfold range_ok, USER_MMAP_BASE, USER_MMAP_MAX, USER_SPACE_BASE, VMA_MAX in *; lia.

Lemma forallb_false {A} (f : A -> bool) l : forallb f l = false -> exists x, x ∈ l /\ f x = false.
Proof.
  induction l as [|x l IH]; cbn [forallb]; [done|]. destruct (f x) eqn:E; cbn [andb]; [|intros _; exists x; split; [by left|done]].
  intros (y & Hy & Ey)%IH. exists y. split; [by right|done].
Qed.
Lemma find_seq (f : Z -> bool) (n : nat) : forall lo, match find f (seqZ lo (Z.of_nat n)) with
  | Some i => lo <= i < lo + Z.of_nat n /\ f i = true /\ forall j, lo <= j < i -> f j = false
  | None => forall j, lo <= j < lo + Z.of_nat n -> f j = false
  end.
Proof.
  induction n as [|n IH]; intros lo; [rewrite seqZ_nil by lia; cbn; lia|]. rewrite seqZ_cons by lia. cbn [find].
  destruct (f lo) eqn:E; [split; [lia|]; split; [done|lia]|]. replace (Z.pred (Z.of_nat (S n))) with (Z.of_nat n) by lia.
  specialize (IH (Z.succ lo)). destruct (find _ _) as [i|].
  - destruct IH as (H1 & H2 & H3). split; [lia|]. split; [done|]. intros j Hj. destruct (Z.eq_dec j lo) as [->|]; [done|]. apply H3. lia.
  - intros j Hj. destruct (Z.eq_dec j lo) as [->|]; [done|]. apply IH. lia.
Qed.
Lemma first_spec test t : match first_vma test t with
  | Some i => 0 <= i < nvma t /\ test (vma_at t i) = true /\ forall j, 0 <= j < i -> test (vma_at t j) = false
  | None => forall j, 0 <= j < nvma t -> test (vma_at t j) = false
  end.
Proof.
  unfold first_vma. destruct (Z.le_gt_cases 0 (nvma t)) as [Hp|Hp].
  - pose proof (find_seq (fun i => test (vma_at t i)) (Z.to_nat (nvma t)) 0) as Hn. by rewrite Z2Nat.id in Hn.
  - rewrite seqZ_nil by lia. cbn. lia.
Qed.
(** The lowest place, with fuel for every page of the window. *)
Lemma first_place_spec t n fuel : forall a0, 0 <= a0 -> a0 mod 4096 = 0 -> 0 < n < 2 ^ 60 -> a0 <= USER_MMAP_MAX + 4096 ->
  USER_MMAP_MAX + 4096 < a0 + 4096 * Z.of_nat fuel ->
  match first_place fuel a0 n t with
  | Some a => a0 <= a /\ a + n <= USER_MMAP_MAX /\ a mod 4096 = 0 /\ vma_clear t a n = true /\ forall b, a0 <= b < a -> b mod 4096 = 0 -> vma_clear t b n = false
  | None => forall b, a0 <= b -> b + n <= USER_MMAP_MAX -> b mod 4096 = 0 -> vma_clear t b n = false
  end.
Proof.
  assert (USER_MMAP_MAX = 2 ^ 39 + 0x40000000) as HM by done.
  induction fuel as [|fuel IH]; intros a0 H0 Hal Hn Hle Hf; cbn [first_place]; [lia|]. rewrite u64_id by (unfold is_word; lia).
  destruct (Z.ltb_spec USER_MMAP_MAX (a0 + n)) as [Hend|Hin]; [lia|]. destruct (vma_clear t a0 n) eqn:E; [split; [lia|]; split; [lia|]; split; [done|]; split; [done|lia]|].
  unfold PAGE_SIZE. rewrite u64_id by (unfold is_word; lia). specialize (IH (a0 + 4096) ltac:(lia) ltac:(dlia) Hn ltac:(lia) ltac:(lia)).
  destruct (first_place fuel (a0 + 4096) n t) as [a|].
  - destruct IH as (I1 & I2 & I3 & I4 & I5). split; [lia|]. split; [done|]. split; [done|]. split; [done|]. intros b Hb Hbm. destruct (Z.eq_dec b a0) as [->|]; [done|]. apply I5; [dlia|done].
  - intros b Hb Hb2 Hbm. destruct (Z.eq_dec b a0) as [->|]; [done|]. apply IH; [dlia|done|done].
Qed.

Lemma holds_spans v x : range_ok v -> negb (base v =? 0) && (base v <=? x) && (x <? u64 (base v + len v)) = spans v x.
Proof. intros Hv. unfold spans, used. destruct (Z.eqb_spec (base v) 0) as [E|E]; [done|]. rewrite u64_id; [done|]. unfold is_word. range_lia. Qed.
Lemma spans_used v x : spans v x = true -> used v = true.
Proof. unfold spans. rewrite !andb_true_iff. tauto. Qed.
Lemma holding_spec t x : ranges_ok t -> match vma_holding t x with
  | Some v => exists i, 0 <= i < VMA_MAX /\ v = vma_at t i /\ spans v x = true
  | None => forall i, 0 <= i < VMA_MAX -> spans (vma_at t i) x = false
  end.
Proof.
  intros [Hs He Hfr _]. unfold vma_holding. match goal with |- context [first_vma ?f t] => pose proof (first_spec f t) as Hf; destruct (first_vma f t) as [i|] end; cbn [fmap option_fmap option_map].
  - destruct Hf as (H1 & H2 & _). rewrite holds_spans in H2 by (apply He; lia). exists i. split; [lia|done].
  - intros i Hi. destruct (Z.lt_ge_cases i (nvma t)) as [Hlt|Hge].
    + rewrite <- (Hf i ltac:(lia)). symmetry. by apply holds_spans, He.
    + destruct (spans (vma_at t i) x) eqn:E; [|done]. apply spans_used in E. rewrite Hfr in E by lia. done.
Qed.
(** The protection at an address is that of the one range that covers it. *)
Lemma prot_at_iff t x i : ranges_ok t -> 0 <= i < VMA_MAX -> spans (vma_at t i) x = true -> prot_at t x = Some (prot_of (vma_at t i)).
Proof.
  intros Ht Hi Hc. unfold prot_at. pose proof (holding_spec t x Ht) as Hh. destruct (vma_holding t x) as [v|].
  - destruct Hh as (j & Hj & -> & Hcj). by rewrite (rg_apart t Ht j i x).
  - specialize (Hh i Hi). congruence.
Qed.
Lemma prot_at_none t x : ranges_ok t -> prot_at t x = None <-> forall i, 0 <= i < VMA_MAX -> spans (vma_at t i) x = false.
Proof.
  intros Ht. unfold prot_at. pose proof (holding_spec t x Ht) as Hh. destruct (vma_holding t x) as [v|]; [|done].
  destruct Hh as (i & Hi & -> & Hc). split; [done|]. intros Hn. specialize (Hn i Hi). congruence.
Qed.

(** Entry [k] becoming [v]. *)
Definition entry_set (k : Z) (v : vma_t) (t t' : task_t) : Prop :=
  zlen (vma t') = VMA_MAX /\ nvma t <= nvma t' <= VMA_MAX /\ 0 <= k < nvma t' /\ vma_at t' k = v /\
  forall i, 0 <= i < VMA_MAX -> i <> k -> vma_at t' i = vma_at t i.
Lemma entry_set_ok k v t t' : ranges_ok t -> entry_set k v t t' -> range_ok v ->
  (forall i x, 0 <= i < VMA_MAX -> i <> k -> spans (vma_at t i) x = true -> spans v x = false) -> ranges_ok t'.
Proof.
  intros [H1 He Hf Ha] (E1 & E2 & E3 & Ek & Eo) Hv Hc. constructor; [split; [done|lia]|..].
  - intros i Hi. destruct (Z.eq_dec i k) as [->|Hn]; [by rewrite Ek|]. rewrite Eo by done. by apply He.
  - intros i Hi. rewrite Eo by lia. apply Hf. lia.
  - intros i j x Hi Hj Hci Hcj. destruct (Z.eq_dec i k) as [->|Hn], (Z.eq_dec j k) as [->|Hn2]; [done|..].
    + rewrite Ek in Hci. rewrite Eo in Hcj by done. rewrite (Hc j x) in Hci by done. done.
    + rewrite Ek in Hcj. rewrite Eo in Hci by done. rewrite (Hc i x) in Hcj by done. done.
    + rewrite Eo in Hci, Hcj by done. by apply (Ha i j x).
Qed.
Lemma entry_set_prot k v t t' x : ranges_ok t -> ranges_ok t' -> entry_set k v t t' ->
  prot_at t' x = if spans v x then Some (prot_of v) else if spans (vma_at t k) x then None else prot_at t x.
Proof.
  intros Ht Ht' (E1 & E2 & E3 & Ek & Eo). assert (0 <= k < VMA_MAX) as Hk by lia. destruct (spans v x) eqn:Ev.
  { rewrite (prot_at_iff t' x k) by (rewrite ?Ek; done). by rewrite Ek. }
  destruct (spans (vma_at t k) x) eqn:Eold.
  - apply prot_at_none; [done|]. intros i Hi. destruct (Z.eq_dec i k) as [->|Hn]; [by rewrite Ek|].
    rewrite Eo by lia. destruct (spans (vma_at t i) x) eqn:Ei; [|done]. destruct Hn. by apply (rg_apart t Ht i k x).
  - destruct (prot_at t x) as [p|] eqn:Ep.
    + unfold prot_at in Ep. pose proof (holding_spec t x Ht) as Hh. destruct (vma_holding t x) as [w|]; [|done]. destruct Hh as (i & Hi & -> & Hc).
      injection Ep as <-. assert (i <> k) as Hn by congruence. rewrite (prot_at_iff t' x i); [by rewrite Eo|done|lia|by rewrite Eo].
    + apply prot_at_none; [done|]. rewrite (prot_at_none t x Ht) in Ep. intros i Hi. destruct (Z.eq_dec i k) as [->|Hn]; [by rewrite Ek|]. rewrite Eo by lia. by apply Ep.
Qed.

Lemma set_vma_entry k v t : ranges_ok t -> 0 <= k < nvma t -> entry_set k v t (set_vma k v t).
Proof.
  intros [[H1 H2] _ _ _] Hk. unfold entry_set, vma_at, set_vma. cbn [vma nvma with_vma]. rewrite length_setz. split; [done|]. split; [lia|]. split; [lia|].
  split; [apply getz_setz_eq; lia|]. intros i Hi Hn. apply getz_setz_ne; lia.
Qed.
Lemma add_vma_entry v t : ranges_ok t -> nvma t < VMA_MAX -> entry_set (nvma t) v t (set_vma (nvma t) v (with_vma (vma t) (nvma t + 1) t)).
Proof.
  intros [[H1 H2] _ _ _] Hk. unfold entry_set, vma_at, set_vma. cbn [vma nvma with_vma]. rewrite length_setz. split; [done|]. split; [lia|]. split; [lia|].
  split; [apply getz_setz_eq; lia|]. intros i Hi Hn. apply getz_setz_ne; lia.
Qed.

(** A place is clear when nothing is asked for in it. *)
Lemma vma_clear_spec t a n : ranges_ok t -> USER_MMAP_BASE <= a -> 0 < n -> a + n <= USER_MMAP_MAX ->
  if vma_clear t a n then forall x, a <= x < a + n -> prot_at t x = None else exists x, a <= x < a + n /\ prot_at t x <> None.
Proof.
  intros Ht Ha Hn Hm. pose proof Ht as [Hs He Hf _]. destruct (vma_clear t a n) eqn:E; unfold vma_clear in E.
  - rewrite forallb_forall in E. intros x Hx. apply prot_at_none; [done|]. intros i Hi. destruct (Z.lt_ge_cases i (nvma t)) as [Hlt|Hge].
    + specialize (E i). rewrite <- list_elem_of_In, elem_of_seqZ in E. specialize (E ltac:(lia)). cbv zeta in E. unfold spans, used.
      destruct (He i Hi) as [[-> _]|Hr]; [done|]. set (v := vma_at t i) in *. rewrite !u64_id in E by (unfold is_word; range_lia).
      destruct (Z.eqb_spec (base v) 0); [done|]. cbn [orb negb andb] in *. repeat case_bool; cbn [andb negb] in *; (done || lia).
    + destruct (spans (vma_at t i) x) eqn:E2; [|done]. apply spans_used in E2. rewrite Hf in E2 by lia. done.
  - assert (exists i, 0 <= i < nvma t /\ used (vma_at t i) = true /\ a < base (vma_at t i) + len (vma_at t i) /\ base (vma_at t i) < a + n) as (i & Hi & Hu & H1 & H2).
    { apply forallb_false in E as (i & Hi%elem_of_seqZ & E). exists i. cbv zeta in E. destruct (He i ltac:(lia)) as [[E0 _]|Hr]; [by rewrite E0 in E|].
      set (v := vma_at t i) in *. rewrite !u64_id in E by (unfold is_word; range_lia). unfold used. destruct (Z.eqb_spec (base v) 0) as [E1|E1]; [done|].
      cbn [orb negb] in *. split; [lia|]. split; [done|]. repeat case_bool; cbn [andb negb] in *; (done || lia). }
    destruct (He i ltac:(lia)) as [[E0 _]|Hr]; [unfold used in Hu; by rewrite E0 in Hu|]. exists (Z.max a (base (vma_at t i))). split; [range_lia|].
    rewrite (prot_at_iff t _ i); [done|done|lia|]. unfold spans. rewrite Hu. cbn [andb]. apply andb_true_iff. split; [apply Z.leb_le|apply Z.ltb_lt]; range_lia.
Qed.

Lemma page_up_spec n : 0 < n -> n <= 2 ^ 64 - 4096 -> let m := page_up n in 0 < m /\ m mod 4096 = 0 /\ n <= m < n + 4096.
Proof. intros H1 H2. cbv zeta. rewrite page_up_of by lia. unfold page_of. dlia. Qed.
Lemma spans_range a n p x : 0 < a -> spans (Vma a n p) x = (a <=? x) && (x <? a + n).
Proof. intros Ha. unfold spans, used. cbn [base len]. rewrite (proj2 (Z.eqb_neq a 0)) by lia. done. Qed.
Lemma spans_free v x : base v = 0 -> spans v x = false.
Proof. unfold spans, used. by intros ->. Qed.

(** What is given: the lowest place that is clear, and nothing else changes. *)
Lemma mmap_spec t n prot : ranges_ok t -> 0 <= n <= 2 ^ 64 - 4096 ->
  let (t', a) := user_mmap n prot t in let m := page_up n in
  ranges_ok t' /\ dir t' = dir t /\
  if a =? 0 then (forall x, prot_at t' x = prot_at t x) /\
    (dir t = 0 \/ n = 0 \/ USER_MMAP_MAX - USER_MMAP_BASE < m \/ (forall i, 0 <= i < VMA_MAX -> used (vma_at t i) = true) \/
     forall b, USER_MMAP_BASE <= b -> b + m <= USER_MMAP_MAX -> b mod 4096 = 0 -> exists x, b <= x < b + m /\ prot_at t x <> None)
  else USER_MMAP_BASE <= a /\ a + m <= USER_MMAP_MAX /\ a mod 4096 = 0 /\ n <= m < n + 4096 /\
    (forall x, a <= x < a + m -> prot_at t x = None) /\
    (forall b, USER_MMAP_BASE <= b < a -> b mod 4096 = 0 -> exists x, b <= x < b + m /\ prot_at t x <> None) /\
    (forall x, prot_at t' x = if (a <=? x) && (x <? a + m) then Some (u32 prot) else prot_at t x).
Proof.
  intros Ht Hn. unfold user_mmap. cbv zeta.
  destruct (Z.eqb_spec (dir t) 0) as [E|Hd]; cbn [orb]; [split; [done|]; split; [done|]; split; [done|by left]|].
  destruct (Z.eqb_spec n 0) as [E|Hn0]; [split; [done|]; split; [done|]; split; [done|by right; left]|].
  destruct (page_up_spec n ltac:(lia) ltac:(lia)) as (M1 & M2 & M3). set (m := page_up n) in *. clearbody m.
  destruct (Z.ltb_spec (USER_MMAP_MAX - USER_MMAP_BASE) m) as [Hbig|Hfit]; [split; [done|]; split; [done|]; split; [done|right; right; by left]|].
  assert (exists ts, (match first_vma (fun v => base v =? 0) t with
    | Some i => (t, Some i) | None => if nvma t <? VMA_MAX then (with_vma (vma t) (nvma t + 1) t, Some (nvma t)) else (t, None) end) = ts /\
    match ts with
    | (t1, Some k) => (forall a p, vma_clear t1 a p = vma_clear t a p) /\ base (vma_at t k) = 0 /\ vma_at t1 k = vma_at t k /\
        dir t1 = dir t /\ forall v, entry_set k v t (set_vma k v t1)
    | (t1, None) => t1 = t /\ forall i, 0 <= i < VMA_MAX -> used (vma_at t i) = true
    end) as ([t1 [k|]] & -> & Hslot).
  { eexists. split; [reflexivity|]. pose proof (first_spec (fun v => base v =? 0) t) as Hf. pose proof Ht as [[H1 H2] He Hfr _].
    destruct (first_vma (fun v => base v =? 0) t) as [k|].
    - destruct Hf as (Hk & Hk0%Z.eqb_eq & _). split; [done|]. split; [done|]. split; [done|]. split; [done|]. intros v. by apply set_vma_entry.
    - destruct (Z.ltb_spec (nvma t) VMA_MAX) as [Hlt|Hge].
      + assert (base (vma_at t (nvma t)) = 0) as Hb. { specialize (Hfr (nvma t) ltac:(lia)). unfold used in Hfr. by apply negb_false_iff, Z.eqb_eq in Hfr. }
        split; [|split; [done|split; [done|split; [done|intros v; by apply add_vma_entry]]]].
        intros a p. unfold vma_clear. cbn [nvma with_vma]. rewrite seqZ_app, forallb_app by lia. assert (forall q, seqZ q 1 = [q]) as -> by (intros q; rewrite seqZ_cons, seqZ_nil by lia; done).
        cbn [forallb]. change (vma_at (with_vma (vma t) (nvma t + 1) t)) with (vma_at t). rewrite Z.add_0_l, Hb. by rewrite !andb_true_r.
      + split; [done|]. intros i Hi. unfold used. by rewrite Hf by lia. }
  2: { destruct Hslot as [-> Hfull]. split; [done|]. split; [done|]. split; [done|]. right; right; right; by left. }
  destruct Hslot as (Hclr & Hk0 & Hkk & Hdir & Hset).
  assert (USER_MMAP_BASE = 2 ^ 39 + 0x38000000 /\ USER_MMAP_MAX = 2 ^ 39 + 0x40000000 /\ Z.of_nat PLACES = 32770) as (C1 & C2 & C3) by done.
  pose proof (first_place_spec t1 m PLACES USER_MMAP_BASE ltac:(lia) ltac:(rewrite C1; reflexivity) ltac:(lia) ltac:(lia) ltac:(lia)) as Hfind.
  clear C3. destruct (first_place PLACES USER_MMAP_BASE m t1) as [a|].
  - destruct Hfind as (A1 & A5 & A2 & A3 & A4). rewrite Hclr in A3.
    pose proof (vma_clear_spec t a m Ht ltac:(lia) ltac:(lia) A5) as Hc. rewrite A3 in Hc. assert (0 < a) as Ha0 by range_lia.
    assert (ranges_ok (set_vma k (Vma a m (u32 prot)) t1)) as Ht'.
    { apply (entry_set_ok k (Vma a m (u32 prot)) t); [exact Ht|apply Hset|right; cbn [base len]; lia|]. intros i x Hi Hik Hci. destruct (spans (Vma a m (u32 prot)) x) eqn:Ec; [|done].
      rewrite spans_range in Ec by done. apply andb_true_iff in Ec as [E1%Z.leb_le E2%Z.ltb_lt]. specialize (Hc x ltac:(lia)). rewrite (prot_at_iff t x i) in Hc by done. done. }
    split; [exact Ht'|]. split; [exact Hdir|]. rewrite (proj2 (Z.eqb_neq a 0)) by lia. split; [lia|]. split; [done|]. split; [done|]. split; [lia|]. split; [done|]. split.
    + intros b Hb Hbm. pose proof (vma_clear_spec t b m Ht ltac:(lia) ltac:(lia) ltac:(lia)) as Hcb. rewrite <- Hclr, A4 in Hcb; [done|lia|done].
    + intros x. rewrite (entry_set_prot k (Vma a m (u32 prot)) t) by done. rewrite spans_range by done. rewrite (spans_free (vma_at t k)) by done. done.
  - assert (entry_set k (Vma 0 (len (vma_at t k)) (prot_of (vma_at t k))) t (set_vma k (Vma 0 (len (vma_at t1 k)) (prot_of (vma_at t1 k))) t1)) as Hes by (rewrite Hkk; apply Hset).
    assert (len (vma_at t k) = 0) as Hlen. { destruct Hes as (_ & ? & ? & _). destruct (rg_each t Ht k ltac:(lia)) as [[_ ?]|?]; [done|range_lia]. }
    assert (ranges_ok (set_vma k (Vma 0 (len (vma_at t1 k)) (prot_of (vma_at t1 k))) t1)) as Ht'.
    { apply (entry_set_ok k (Vma 0 (len (vma_at t k)) (prot_of (vma_at t k))) t); [done|done|left; done|]. intros. by apply spans_free. }
    split; [exact Ht'|]. split; [exact Hdir|]. cbn [Z.eqb]. split.
    + intros x. rewrite (entry_set_prot k _ t _ x Ht Ht' Hes). rewrite !spans_free by done. done.
    + right; right; right; right. intros b Hb1 Hb2 Hbm. pose proof (vma_clear_spec t b m Ht ltac:(lia) ltac:(lia) Hb2) as Hcb. rewrite <- Hclr, Hfind in Hcb; done.
Qed.

(** ** What a refusal comes from *)

Section Asks.
Context {P : Type} `{FrameAllocatorLaws P}.
Notation vm := (vm (P := P)).
Implicit Types s : vm.

(** The allocator after [n] more frames have been asked of it. *)
Definition take_frames (n : nat) (p : P) : P := Nat.iter n (fun p => fst (alloc_frame p)) p.
(** From one state of the allocator to another by asking for [n] frames, all of them given, or
    all but the last. *)
Definition asked (n : nat) (p q : P) (ok : bool) : Prop :=
  q = take_frames n p /\ (ok = false -> exists k, n = S k /\ snd (alloc_frame (take_frames k p)) = 0).

Lemma take_frames_add n m p : take_frames m (take_frames n p) = take_frames (n + m) p.
Proof. unfold take_frames. by rewrite Nat.add_comm, Nat.iter_add. Qed.
Lemma asked_none p : asked 0 p p true.
Proof. done. Qed.
Lemma asked_trans n m p q r ok : asked n p q true -> asked m q r ok -> asked (n + m) p r ok.
Proof.
  intros [-> _] [-> Hr]. split; [apply take_frames_add|]. intros E. destruct (Hr E) as (k & -> & Hk). exists (n + k)%nat.
  split; [lia|]. by rewrite <- take_frames_add.
Qed.
Lemma alloc_asks s : let (s', c) := alloc s in asked 1 (frames s) (frames s') (negb (c =? 0)).
Proof.
  unfold alloc. destruct (alloc_frame (frames s)) as [p c] eqn:E. cbn [frames with_frames]. split; [unfold take_frames; cbn; by rewrite E|].
  intros Hc%negb_false_iff%Z.eqb_eq. exists 0%nat. split; [done|]. cbn. by rewrite E.
Qed.

Lemma frame_nonzero own s t r l p : tables_ok own s -> own t = Some (r, l, p) -> t <> 0.
Proof. intros Hs Ht. destruct (tk_table _ _ Hs _ _ _ _ Ht) as (_ & Hp & _). lia. Qed.

(** A table on the way is there, or one frame is asked for. *)
Lemma step_asks own s t r l virt flags : tables_ok own s -> own t = Some (r, l, pfx virt l) -> r <> kernel_pml4 s -> 2 <= l ->
  (l = 4 -> index_of virt 4 = 1) ->
  let (s', c) := step t virt l true flags s in exists n, (n <= 1)%nat /\ asked n (frames s) (frames s') (negb (c =? 0)).
Proof.
  intros Hs Ht Hr Hl H4. pose proof (index_of_range virt l) as Hi. unfold step. set (a := t + 8 * index_of virt l).
  pose (rest := fun s1 => let s := if has flags PTE_USER then wr a (rd s1 a .| PTE_USER) s1 else s1 in
      if has (rd s a) PTE_HUGE then (s, 0) else (s, addr_of (rd s a))).
  assert (forall s1 n, has (rd s1 a) PTE_HUGE = false -> addr_of (rd s1 a) <> 0 -> is_u64 (rd s1 a) -> (n <= 1)%nat -> asked n (frames s) (frames s1) true ->
    let (s', c) := rest s1 in exists n, (n <= 1)%nat /\ asked n (frames s) (frames s') (negb (c =? 0))) as Hrest.
  { intros s1 n Hh Ha Hw Hn1 Hask. destruct (widen_entry (rd s1 a) Hw) as (_ & _ & W3 & W4 & _). unfold rest.
    cbv zeta. destruct (has flags PTE_USER); [rewrite rd_wr, Z.eqb_refl, W3, Hh, W4|rewrite Hh]; exists n; rewrite (proj2 (Z.eqb_neq _ 0)) by done; done. }
  destruct (has (rd s a) PTE_PRESENT) eqn:Ep; cbn [negb].
  { pose proof (tk_small _ _ Hs _ _ _ _ _ Ht (or_introl Hr) Hl Hi Ep) as Hh. fold a in Hh.
    assert (link (rd s a) = Some (addr_of (rd s a))) as Hlk by (by apply link_some).
    pose proof (link_child own s t r l _ _ _ Hs Ht Hr Hl Hi ltac:(intros ->; auto) Hlk) as Hc.
    apply (Hrest s 0%nat Hh (frame_nonzero _ _ _ _ _ _ Hs Hc) (tk_words _ _ Hs a)); [lia|apply asked_none]. }
  pose proof (alloc_asks s) as Hask. destruct (alloc_spec s (tk_alloc _ _ Hs)) as (p & c & E & Hp & Hc). rewrite E in *.
  destruct Hc as [(-> & _)|(Hc & Hal & _)]; [exists 1%nat; split; [lia|done]|]. rewrite (proj2 (Z.eqb_neq c 0)) in * by lia. cbn [negb] in *.
  replace (c .| PTE_PRESENT .| PTE_RW) with (c .| 3) by (unfold PTE_PRESENT, PTE_RW; by rewrite <- Z.lor_assoc).
  destruct (frame_flags c 3 Hal ltac:(lia) ltac:(lia)) as (E1 & _ & E3 & E4).
  destruct (Paging.zeroed (with_frames p s) c Hp (tk_words _ _ Hs)) as ((Hf & _) & _).
  apply (Hrest (wr a (c .| 3) (zero_page c (with_frames p s))) 1%nat); rewrite ?rd_wr, ?Z.eqb_refl; [rewrite E3 by (unfold PTE_HUGE; lia); done|lia|done|lia|].
  change (frames (wr a _ ?x)) with (frames x). by rewrite Hf.
Qed.

Lemma map_asks own s r virt phys flags : tables_ok own s -> space own s r -> user_virt virt ->
  let (s', ok) := map_page_in r virt phys flags s in exists n, (n <= 3)%nat /\ asked n (frames s) (frames s') ok.
Proof.
  intros Hs [Hr Hk] Hv. destruct (user_top virt Hv) as [Hp4 Hi4]. pose proof (index_of_range virt 2) as I2.
  unfold map_page_in. rewrite (proj2 (Z.eqb_neq r 0)) by (by eapply frame_nonzero). unfold map_in, table_for.
  pose proof (step_asks own s r r 4 virt flags Hs ltac:(by rewrite Hp4) Hk ltac:(lia) ltac:(done)) as A3.
  destruct (step_make own s r r 4 virt flags Hs ltac:(by rewrite Hp4) Hk ltac:(lia) ltac:(done)) as (o3 & s3 & c3 & E & T3 & X3 & O3).
  rewrite E in A3 |- *. clear E. destruct A3 as (n3 & L3 & A3).
  change (4 - 1) with 3 in O3. destruct (Z.eqb_spec c3 0) as [|N3]; [exists n3; split; [lia|done]|]. specialize (O3 N3).
  assert (kernel_pml4 s3 = kernel_pml4 s) as K3 by (by destruct (ex_rest _ _ _ _ X3)).
  pose proof (step_asks o3 s3 c3 r 3 virt flags T3 O3 ltac:(congruence) ltac:(lia) ltac:(lia)) as A2.
  destruct (step_make o3 s3 c3 r 3 virt flags T3 O3 ltac:(congruence) ltac:(lia) ltac:(lia)) as (o2 & s2 & c2 & E & T2 & X2 & O2).
  rewrite E in A2 |- *. clear E. destruct A2 as (n2 & L2 & A2). pose proof (asked_trans _ _ _ _ _ _ A3 A2) as A32.
  change (3 - 1) with 2 in O2. destruct (Z.eqb_spec c2 0) as [|N2]; [exists (n3 + n2)%nat; split; [lia|done]|]. specialize (O2 N2).
  assert (kernel_pml4 s2 = kernel_pml4 s) as K2 by (destruct (ex_rest _ _ _ _ X2); congruence).
  assert (has (rd s2 (c2 + 8 * index_of virt 2)) PTE_PRESENT && has (rd s2 (c2 + 8 * index_of virt 2)) PTE_HUGE = false) as ->.
  { destruct (has _ PTE_PRESENT) eqn:E; [|done]. by rewrite (tk_small _ _ T2 _ _ _ _ _ O2 ltac:(left; congruence) ltac:(lia) I2 E). }
  pose proof (step_asks o2 s2 c2 r 2 virt flags T2 O2 ltac:(congruence) ltac:(lia) ltac:(lia)) as A1.
  destruct (step c2 virt 2 true flags s2) as [s1 c1]. destruct A1 as (n1 & L1 & A1). pose proof (asked_trans _ _ _ _ _ _ A32 A1) as A.
  destruct (Z.eqb_spec c1 0) as [|N1]; exists (n3 + n2 + n1)%nat; (split; [lia|done]).
Qed.

(** A page is refused only when a frame is: the page's own, or one of three for tables. *)
Lemma page_asks own tabs s r virt flags : spaces_ok own tabs s -> space own s r -> user_virt virt ->
  let (s', c) := give_page r virt flags s in
  exists n q, (n <= 4)%nat /\ asked n (frames s) q (negb (c =? 0)) /\ (c <> 0 -> frames s' = q).
Proof.
  intros Hs Hr Hv. unfold give_page. pose proof (so_tables _ _ _ Hs) as Htk. pose proof (alloc_asks s) as A1.
  destruct (alloc_spec s (tk_alloc _ _ Htk)) as (q & c & E & Hq & Hca). rewrite E in *. clear E.
  destruct Hca as [(-> & _)|(Hcr & Hcal & Hcz & Hh)]; [exists 1%nat, q; split; [lia|done]|].
  rewrite (proj2 (Z.eqb_neq c 0)) in * by lia. destruct (fresh_page own tabs s q c Hs Hq Hcr Hcal Hcz Hh) as (Hs1 & Hin & Hout & F1 & F2 & F3).
  pose proof (Paging.zeroed (with_frames q s) c Hq (tk_words _ _ Htk)) as ((Hf & _) & _).
  assert (space own (zero_page c (with_frames q s)) r) as Hr1 by (destruct Hr; split; [done|congruence]).
  pose proof (map_asks own _ r virt c flags (so_tables _ _ _ Hs1) Hr1 Hv) as A2. rewrite Hf in A2.
  destruct (map_page_in r virt c flags _) as [s2 ok]. destruct A2 as (n & Hn & A2). pose proof (asked_trans _ _ _ _ _ _ A1 A2) as A.
  destruct ok; cbn [negb]; exists (1 + n)%nat, (frames s2); (split; [lia|]); [by rewrite (proj2 (Z.eqb_neq c 0)) by lia|done].
Qed.
End Asks.

Section Unmap.
Context {P : Type} `{FrameAllocatorLaws P}.
Notation vm := (vm (P := P)).
Implicit Types s : vm.

(** A memory without some of its pages. *)
Definition without_pages (a n : Z) (m m' : memory) : Prop := forall x, word_at x ->
  words m' x = (if (a <=? x) && (x <? a + n) then None else words m x) /\
  can_write m' x = (if (a <=? x) && (x <? a + n) then false else can_write m x).

Lemma unmap_pages k : forall own tabs sl M r m a, implements own tabs sl M -> M !! r = Some m -> a mod 4096 = 0 ->
  user_virt a -> a + Z.of_nat k * 4096 <= 2 ^ 40 ->
  exists m', implements own tabs (foldl (fun s a => unmap_one r a s) sl.1 ((fun i => a + i * PAGE_SIZE) <$> seqZ 0 (Z.of_nat k)), sl.2) (<[r := m']> M) /\
    without_pages a (Z.of_nat k * 4096) m m'.
Proof.
  induction k as [|k IH]; intros own tabs sl M r m a Hs Hm Hal Ha Hend.
  - exists m. rewrite seqZ_nil by lia. rewrite insert_id by done. destruct sl as [s live]. split; [exact Hs|]. intros x _. repeat case_bool; cbn [andb]; (done || lia).
  - destruct (IH own tabs sl M r m a Hs Hm Hal Ha ltac:(lia)) as (m1 & Hs1 & Hw1).
    replace (Z.of_nat (S k)) with (Z.of_nat k + 1) by lia. rewrite seqZ_app, fmap_app, foldl_app by lia.
    assert (forall q, seqZ q 1 = [q]) as -> by (intros q; rewrite seqZ_cons, seqZ_nil by lia; done). cbn [fmap list_fmap foldl].
    rewrite Z.add_0_l. unfold PAGE_SIZE at 1. set (b := a + Z.of_nat k * 4096) in *. set (s1 := foldl _ _ _) in *. destruct Hs1 as (S1 & S2 & S3). cbn [fst snd] in S1, S2, S3.
    assert (word_at b) as Hb by (unfold word_at, user_virt, b in *; split; [lia|dlia]).
    destruct (unmap_refines own tabs s1 _ r m1 b S1 S2 (lookup_insert_eq _ _ _) Hb) as [T1 T2]. rewrite insert_insert_eq in T2.
    assert (page_of b = b) as Epg by (unfold page_of, b; dlia). rewrite Epg in T1, T2. exists (with_page b None false m1). split.
    + split; [exact T1|]. split; [exact T2|]. intros x. cbn [snd]. rewrite S3, !lookup_insert_is_Some'. done.
    + intros x Hx. destruct (Hw1 x Hx) as [W1 W2]. cbn [with_page words can_write].
      assert (same_page x b = (b <=? x) && (x <? b + 4096)) as ->.
      { unfold same_page. destruct (Z.eqb_spec (x / 4096) (b / 4096)), (Z.leb_spec b x), (Z.ltb_spec x (b + 4096)); cbn [andb]; (done || (exfalso; dlia)). }
      rewrite W1, W2. unfold b. repeat case_bool; cbn [andb]; (done || lia).
Qed.

(** A whole range is taken back, and nothing else changes. *)
Lemma munmap_spec own tabs s live M t m at_ n : implements own tabs (s, live) M -> M !! dir t = Some m -> ranges_ok t -> is_u64 at_ -> 0 <= n <= 2 ^ 64 - 4096 ->
  let '(s', t', ok) := user_munmap at_ n t s in let lo := page_down at_ in
  ranges_ok t' /\ dir t' = dir t /\ exists m', implements own tabs (s', live) (<[dir t := m']> M) /\
  if ok then USER_MMAP_BASE <= lo /\ lo + page_up n <= USER_MMAP_MAX /\ (forall x, lo <= x < lo + page_up n -> prot_at t x <> None) /\
      (forall x, prot_at t' x = if (lo <=? x) && (x <? lo + page_up n) then None else prot_at t x) /\ without_pages lo (page_up n) m m'
  else t' = t /\ m' = m /\ (dir t = 0 \/ n = 0 \/ forall i, 0 <= i < VMA_MAX -> used (vma_at t i) = true -> base (vma_at t i) = lo -> len (vma_at t i) <> page_up n).
Proof.
  intros Hs Hm Ht Hat Hn. unfold user_munmap. cbv zeta. rewrite page_down_of by done.
  assert (forall Q : Prop, Q -> ranges_ok t /\ dir t = dir t /\ exists m', implements own tabs (s, live) (<[dir t := m']> M) /\ t = t /\ m' = m /\ Q) as Hsame.
  { intros Q HQ. split; [done|]. split; [done|]. exists m. rewrite insert_id by done. done. }
  destruct (Z.eqb_spec (dir t) 0) as [E|Hd]; cbn [orb]; [apply Hsame; by left|].
  destruct (Z.eqb_spec n 0) as [E|Hn0]; [apply Hsame; right; by left|].
  destruct (page_up_spec n ltac:(lia) ltac:(lia)) as (M1 & M2 & M3). set (q := page_up n) in *. clearbody q. set (lo := page_of at_) in *.
  pose proof (first_spec (fun v => (base v =? lo) && (len v =? q)) t) as Hf. pose proof Ht as [[H1 H2] He Hfr _].
  destruct (first_vma (fun v => (base v =? lo) && (len v =? q)) t) as [k|].
  2: { apply Hsame. right; right. intros i Hi Hu E1 E2. destruct (Z.lt_ge_cases i (nvma t)) as [Hlt|Hge]; [|by rewrite Hfr in Hu by lia].
       specialize (Hf i ltac:(lia)). rewrite E1, E2, !Z.eqb_refl in Hf. done. }
  destruct Hf as (Hk & [E1%Z.eqb_eq E2%Z.eqb_eq]%andb_true_iff & _). destruct (He k ltac:(lia)) as [[_ ?]|(R1 & R2 & R3 & R4 & R5)]; [lia|]. rewrite E1, E2 in *.
  assert (u64 (lo + q) = lo + q) as -> by (apply u64_id; unfold is_word; range_lia).
  assert (pages_between lo (lo + q) = (fun i => lo + i * PAGE_SIZE) <$> seqZ 0 (Z.of_nat (Z.to_nat (q / 4096)))) as ->.
  { unfold pages_between, PAGE_SIZE. do 2 f_equal. rewrite Z2Nat.id by dlia. dlia. }
  destruct (unmap_pages (Z.to_nat (q / 4096)) own tabs (s, live) M (dir t) m lo Hs Hm R3) as (m' & Hs' & Hw); [unfold user_virt; range_lia|rewrite Z2Nat.id by dlia; replace (q / 4096 * 4096) with q by dlia; range_lia|].
  rewrite Z2Nat.id in Hw by dlia. replace (q / 4096 * 4096) with q in Hw by dlia.
  pose proof (set_vma_entry k (Vma 0 0 (prot_of (vma_at t k))) t Ht ltac:(lia)) as Hes.
  assert (ranges_ok (set_vma k (Vma 0 0 (prot_of (vma_at t k))) t)) as Ht'.
  { apply (entry_set_ok k (Vma 0 0 (prot_of (vma_at t k))) t); [done|done|by left|]. intros. by apply spans_free. }
  assert (forall x, spans (vma_at t k) x = (lo <=? x) && (x <? lo + q)) as Hcov.
  { intros x. unfold spans, used. rewrite E1, E2. rewrite (proj2 (Z.eqb_neq lo 0)) by range_lia. done. }
  split; [exact Ht'|]. split; [done|]. exists m'. split; [exact Hs'|]. split; [done|]. split; [done|]. split; [|split; [|exact Hw]].
  - intros x Hx. rewrite (prot_at_iff t x k); [done|done|lia|]. rewrite Hcov. repeat case_bool; (done || lia).
  - intros x. rewrite (entry_set_prot k _ t _ x Ht Ht' Hes), spans_free by done. rewrite Hcov. done.
Qed.

(** ** The heap *)

Lemma fmap_pages_succ a n : (fun i => a + i * PAGE_SIZE) <$> seqZ (Z.succ 0) n = (fun i => a + 4096 + i * PAGE_SIZE) <$> seqZ 0 n.
Proof. rewrite <- (fmap_add_seqZ 1 0), <- list_fmap_compose. apply list_fmap_ext. intros j y _. cbn [compose]. unfold compose, PAGE_SIZE. lia. Qed.
(** Pages refused for want of a frame, of four at most for each. *)
Lemma pages_ask (k : nat) : forall own tabs s r a, spaces_ok own tabs s -> space own s r -> user_virt a -> a + Z.of_nat k * 4096 <= 2 ^ 40 ->
  let (s', ok) := all_ok ((fun i => a + i * PAGE_SIZE) <$> seqZ 0 (Z.of_nat k)) (fun va s => let (s, f) := alloc_user_page r va s in (s, negb (f =? 0))) s in
  exists n q, (n <= 4 * k)%nat /\ asked n (frames s) q ok.
Proof.
  induction k as [|k IH]; intros own tabs s r a Hs Hr Ha Hend.
  - rewrite seqZ_nil by lia. cbn [fmap list_fmap all_ok]. exists 0%nat, (frames s). split; [lia|apply asked_none].
  - rewrite seqZ_cons by lia. cbn [fmap list_fmap all_ok]. replace (Z.pred (Z.of_nat (S k))) with (Z.of_nat k) by lia. rewrite Z.mul_0_l, Z.add_0_r.
    rewrite (fmap_pages_succ a (Z.of_nat k)). unfold alloc_user_page at 1. change (PTE_PRESENT .| PTE_RW .| PTE_USER) with 7.
    pose proof (page_asks own tabs s r a 7 Hs Hr Ha) as Hp. destruct (give_page_spec own tabs s r a 7 Hs Hr Ha ltac:(by left)) as (own1 & tabs1 & Hg).
    destruct (give_page r a 7 s) as [s1 f]. destruct Hp as (n & q & Hn & Hq & Hf), Hg as (Hs1 & Ho & Hk & _).
    destruct (Z.eqb_spec f 0) as [E|E]; cbn [negb] in *; [exists n, q; split; [lia|done]|].
    destruct k as [|k]; [rewrite seqZ_nil by lia; cbn [fmap list_fmap all_ok]; exists n, q; split; [lia|done]|].
    pose proof (IH own1 tabs1 s1 r (a + 4096) Hs1 (space_keeps own own1 s s1 r Ho Hk Hr) ltac:(unfold user_virt in *; lia) ltac:(lia)) as IHs.
    destruct (all_ok _ _ s1) as [s' ok]. destruct IHs as (n2 & q2 & Hn2 & Hq2). rewrite (Hf E) in Hq2. exists (n + n2)%nat, q2. split; [lia|].
    by eapply asked_trans.
Qed.

Definition brk_ok (t : task_t) : Prop := (brk_base t = 0 /\ brk t = 0) \/ (USER_HEAP_BASE <= brk_base t <= brk t /\ brk t <= USER_HEAP_MAX).
(** Where the heap ends, and where its pages do. *)
Definition break_of (t : task_t) : Z := if brk_base t =? 0 then USER_HEAP_BASE else brk t.

(** A memory with pages of zeroes, [all] of those asked for or the first of them. *)
Definition zero_pages (lo hi : Z) (m m' : memory) : Prop := forall x, word_at x ->
  words m' x = (if (lo <=? x) && (x <? hi) then Some 0 else words m x) /\
  can_write m' x = (if (lo <=? x) && (x <? hi) then true else can_write m x).

Lemma grow_pages k : forall own tabs s live M r m a, implements own tabs (s, live) M -> M !! r = Some m -> a mod 4096 = 0 ->
  user_virt a -> a + Z.of_nat k * 4096 <= 2 ^ 40 ->
  let (s', ok) := all_ok ((fun i => a + i * PAGE_SIZE) <$> seqZ 0 (Z.of_nat k)) (fun va s => let (s, f) := alloc_user_page r va s in (s, negb (f =? 0))) s in
  exists own' tabs' m' n, 0 <= n <= Z.of_nat k /\ (ok = true -> n = Z.of_nat k) /\ implements own' tabs' (s', live) (<[r := m']> M) /\ zero_pages a (a + n * 4096) m m'.
Proof.
  induction k as [|k IH]; intros own tabs s live M r m a Hs Hm Hal Ha Hend.
  - rewrite seqZ_nil by lia. cbn [fmap list_fmap all_ok]. exists own, tabs, m, 0. rewrite insert_id by done. split; [lia|]. split; [lia|]. split; [done|]. intros x _. repeat case_bool; cbn [andb]; (done || lia).
  - rewrite seqZ_cons by lia. cbn [fmap list_fmap all_ok]. replace (Z.pred (Z.of_nat (S k))) with (Z.of_nat k) by lia. rewrite Z.mul_0_l, Z.add_0_r.
    rewrite (fmap_pages_succ a (Z.of_nat k)).
    destruct Hs as (H1 & H2 & H3). cbn [fst snd] in H1, H2, H3. unfold alloc_user_page at 1. change (PTE_PRESENT .| PTE_RW .| PTE_USER) with 7.
    assert (page_of a = a) as Epg by (unfold page_of; dlia). pose proof (give_refines own tabs s M r m a 7) as Hg. rewrite Epg in Hg.
    destruct (give_page r a 7 s) as [s1 f]. destruct (Hg s1 f H1 H2 Hm Ha eq_refl ltac:(by left)) as (own1 & tabs1 & G1 & G2 & _). clear Hg.
    destruct (Z.eqb_spec f 0) as [E|Hf]; cbn [negb].
    + exists own1, tabs1, m, 0. rewrite insert_id by done. split; [lia|]. split; [done|]. split; [done|]. intros x _. repeat case_bool; cbn [andb]; (done || lia).
    + change (has 7 PTE_RW) with true in G2. destruct k as [|k].
      { rewrite seqZ_nil by lia. cbn [fmap list_fmap all_ok]. exists own1, tabs1, (with_page a (Some 0) true m), 1. split; [lia|]. split; [lia|]. split.
        - split; [done|]. split; [done|]. intros x. cbn [snd]. rewrite H3, lookup_insert_is_Some'. split; [by right|intros [<-|?]; [by eexists|done]].
        - intros x _. cbn [with_page words can_write]. unfold same_page. destruct (Z.eqb_spec (x / 4096) (a / 4096)), (Z.leb_spec a x), (Z.ltb_spec x (a + 1 * 4096)); cbn [andb]; (done || (exfalso; dlia)). }
      pose proof (IH own1 tabs1 s1 live (<[r := with_page a (Some 0) true m]> M) r (with_page a (Some 0) true m) (a + 4096)) as IHs.
      destruct (all_ok _ _ s1) as [s' ok]. destruct IHs as (own' & tabs' & m' & n & Hn & Hok & Hi & Hz); [|apply lookup_insert_eq|dlia|unfold user_virt in *; lia|lia|].
      { split; [done|]. split; [done|]. intros x. cbn [snd]. rewrite H3, lookup_insert_is_Some'. split; [by right|intros [<-|?]; [by eexists|done]]. }
      rewrite insert_insert_eq in Hi. exists own', tabs', m', (n + 1). split; [lia|]. split; [intros ->; specialize (Hok eq_refl); lia|]. split; [done|].
      intros x Hx. destruct (Hz x Hx) as [-> ->]. cbn [with_page words can_write]. unfold same_page.
      destruct (Z.eqb_spec (x / 4096) (a / 4096)), (Z.leb_spec a x), (Z.leb_spec (a + 4096) x), (Z.ltb_spec x (a + 4096 + n * 4096)), (Z.ltb_spec x (a + (n + 1) * 4096)); cbn [andb]; (done || (exfalso; dlia)).
Qed.

Lemma sbrk_spec own tabs s live M t m delta : implements own tabs (s, live) M -> M !! dir t = Some m -> dir t <> 0 -> brk_ok t -> - 2 ^ 63 <= delta < 2 ^ 63 ->
  let '(s', t', res) := user_sbrk delta t s in let was := break_of t in let lo := page_up was in
  brk_ok t' /\ dir t' = dir t /\ exists own' tabs' m' hi, implements own' tabs' (s', live) (<[dir t := m']> M) /\ zero_pages lo hi m m' /\
  if res =? 0 then 0 < delta /\ break_of t' = was /\
    ((USER_HEAP_MAX < was + delta /\ s' = s /\ hi = lo) \/
     (was + delta <= USER_HEAP_MAX /\ hi <= page_up (was + delta) /\
      exists k, 4096 * Z.of_nat k < 4 * (page_up (was + delta) - lo) /\ snd (alloc_frame (take_frames k (frames s))) = 0))
  else res = was /\ USER_HEAP_BASE <= was /\ break_of t' = Z.max (if brk_base t =? 0 then USER_HEAP_BASE else brk_base t) (was + delta) /\
       break_of t' <= USER_HEAP_MAX /\ (if 0 <? delta then hi = page_up (was + delta) else hi <= lo).
Proof.
  intros Hs Hm Hd Hb Hdel. unfold user_sbrk. rewrite (proj2 (Z.eqb_neq (dir t) 0)) by done.
  set (t1 := if brk_base t =? 0 then with_brk USER_HEAP_BASE USER_HEAP_BASE t else t).
  assert (brk t1 = break_of t /\ brk_base t1 = (if brk_base t =? 0 then USER_HEAP_BASE else brk_base t) /\ dir t1 = dir t /\ brk_ok t1 /\ break_of t1 = break_of t) as (B1 & B2 & B3 & B4 & B5).
  { unfold t1, break_of. destruct (Z.eqb_spec (brk_base t) 0) as [E|E]; [|by rewrite (proj2 (Z.eqb_neq _ _))]. cbn. split; [done|]. split; [done|]. split; [done|]. split; [|done].
    right. cbn. unfold USER_HEAP_MAX, USER_HEAP_BASE, USER_SPACE_BASE. lia. }
  rewrite <- B2. assert (USER_HEAP_BASE <= brk_base t1 <= brk t1 /\ brk t1 <= USER_HEAP_MAX) as [Hr1 Hr2].
  { destruct B4 as [[E _]|?]; [|done]. rewrite B2 in E. destruct (Z.eqb_spec (brk_base t) 0) as [E2|E2]; [unfold USER_HEAP_BASE, USER_SPACE_BASE in E|]; done. }
  assert (forall b, break_of (with_brk b (brk_base t1) t1) = b) as Hbrk.
  { intros b. unfold break_of. cbn. rewrite (proj2 (Z.eqb_neq (brk_base t1) 0)); [done|]. unfold USER_HEAP_BASE, USER_SPACE_BASE in Hr1. lia. }
  rewrite <- B1. clearbody t1. set (was := brk t1) in *. cbv zeta.
  assert (USER_HEAP_BASE = 2 ^ 39 + 0x10000000 /\ USER_HEAP_MAX = 2 ^ 39 + 0x38000000) as [C1 C2] by done.
  assert (was <> 0) as Hw0 by lia.
  assert (forall hi, hi <= page_up was -> zero_pages (page_up was) hi m m) as Hzero by (intros hi Hhi x _; repeat case_bool; cbn [andb]; (done || lia)).
  destruct (Z.eqb_spec delta 0) as [->|Hd0].
  { split; [done|]. split; [done|]. exists own, tabs, m, (page_up was). rewrite insert_id by done. split; [done|]. split; [apply Hzero; lia|]. rewrite (proj2 (Z.eqb_neq was 0)) by done.
    split; [done|]. split; [lia|]. rewrite B5. cbn [Z.ltb Z.compare]. lia. }
  destruct (Z.ltb_spec delta 0) as [Hneg|Hpos].
  { assert (u64 (- delta) = - delta) as -> by (apply u64_id; unfold is_word; lia). rewrite (u64_id (was - brk_base t1)) by (unfold is_word; lia).
    set (nb := if was - brk_base t1 <? - delta then brk_base t1 else was - - delta). assert (nb = Z.max (brk_base t1) (was + delta)) as Enb by (unfold nb; destruct (Z.ltb_spec (was - brk_base t1) (- delta)); lia). clearbody nb.
    split; [right; cbn; lia|]. split; [done|]. exists own, tabs, m, (page_up was). rewrite insert_id by done. split; [done|]. split; [apply Hzero; lia|].
    rewrite (proj2 (Z.eqb_neq was 0)) by done. rewrite Hbrk, (proj2 (Z.ltb_ge 0 delta)) by lia. split; [done|]. lia. }
  assert (u64 (was + delta) = was + delta) as -> by (apply u64_id; unfold is_word; lia). rewrite (proj2 (Z.ltb_ge (was + delta) was)) by lia.
  destruct (Z.ltb_spec USER_HEAP_MAX (was + delta)) as [Hbig|Hfit].
  { split; [done|]. split; [done|]. exists own, tabs, m, (page_up was). rewrite insert_id by done. split; [done|]. split; [apply Hzero; lia|]. cbn [Z.eqb]. split; [lia|]. split; [congruence|left]. done. }
  rewrite B3. assert (page_up was mod 4096 = 0 /\ page_up (was + delta) mod 4096 = 0 /\ was <= page_up was /\ page_up was <= page_up (was + delta) <= 2 ^ 39 + 0x38000000) as (U1 & U2 & U3 & U4).
  { rewrite !page_up_of by lia. unfold page_of. repeat split; dlia. }
  set (lo := page_up was) in *. set (hi := page_up (was + delta)) in *. clearbody lo hi.
  assert (pages_between lo hi = (fun i => lo + i * PAGE_SIZE) <$> seqZ 0 (Z.of_nat (Z.to_nat ((hi - lo) / 4096)))) as ->.
  { unfold pages_between, PAGE_SIZE. do 2 f_equal. rewrite Z2Nat.id by dlia. dlia. }
  pose proof (grow_pages (Z.to_nat ((hi - lo) / 4096)) own tabs s live M (dir t) m lo Hs Hm U1 ltac:(unfold user_virt; lia)) as Hg.
  assert (exists r0, space own s r0 /\ r0 = dir t) as (r0 & Hr0 & ->) by (destruct Hs as (_ & HM & _); destruct (HM _ _ Hm) as [Hr _]; by eexists).
  pose proof (pages_ask (Z.to_nat ((hi - lo) / 4096)) own tabs s (dir t) lo (proj1 Hs) Hr0 ltac:(unfold user_virt; lia)) as Hk.
  rewrite Z2Nat.id in * by dlia. specialize (Hg ltac:(dlia)). specialize (Hk ltac:(dlia)). destruct (all_ok _ _ s) as [s1 ok]. destruct Hg as (own' & tabs' & m' & n & Hn & Hok & Hi & Hz). destruct ok; cbn [negb].
  - split; [right; cbn; lia|]. split; [done|]. exists own', tabs', m', hi. split; [done|]. rewrite (Hok eq_refl) in Hz. replace (lo + (hi - lo) / 4096 * 4096) with hi in Hz by dlia.
    split; [done|]. rewrite (proj2 (Z.eqb_neq was 0)) by done. rewrite Hbrk, (proj2 (Z.ltb_lt 0 delta)) by lia. split; [done|]. lia.
  - split; [done|]. split; [done|]. exists own', tabs', m', (lo + n * 4096). split; [done|]. split; [done|]. cbn [Z.eqb]. split; [lia|]. split; [congruence|]. right. split; [lia|].
    split; [dlia|]. destruct Hk as (n2 & q & Hn2 & Hq & Hk). destruct (Hk eq_refl) as (k & -> & Hk2). exists k. split; [dlia|done].
Qed.
End Unmap.

(** A task that has asked for nothing. *)
Lemma no_ranges d b bb lo hi : ranges_ok (Task d b bb (replicate 16 no_vma) 0 lo hi).
Proof.
  assert (forall i, 0 <= i < VMA_MAX -> vma_at (Task d b bb (replicate 16 no_vma) 0 lo hi) i = no_vma) as Hv.
  { intros i Hi. unfold vma_at, getz. cbn [vma]. apply nth_lookup_Some. apply lookup_replicate_2. unfold VMA_MAX in Hi. lia. }
  constructor; [done|..].
  - intros i Hi. rewrite Hv by done. by left.
  - intros i Hi. cbn [nvma] in Hi. by rewrite Hv.
  - intros i j x Hi Hj. rewrite !Hv by done. done.
Qed.

(** C15: The ranges of a program never overlap and lie in the window for them. A range
    is given at the lowest place in it that is clear, and refused only when there is none, no
    entry is free or it is larger than the window; what a program gives back is a whole range
    it has, whose pages it loses; every other address keeps its protection and its bytes, as
    do the other programs. Lengths are those that round up to pages in 64 bits. *)
Theorem ranges_given_and_taken (own : owners) (tabs live : list Z) (s : vm (P := pmm)) (M : gmap Z memory) (t : task_t) (m : memory) (n prot at_ : Z)
    (Hs : implements own tabs (s, live) M) (Hm : M !! dir t = Some m) (Ht : ranges_ok t) (Hn : 0 <= n <= 2 ^ 64 - 4096) (Hat : is_u64 at_) :
  (let (t', a) := user_mmap n prot t in let size := page_up n in
   ranges_ok t' /\ dir t' = dir t /\
   if a =? 0 then (forall x, prot_at t' x = prot_at t x) /\
     (dir t = 0 \/ n = 0 \/ USER_MMAP_MAX - USER_MMAP_BASE < size \/ (forall i, 0 <= i < VMA_MAX -> used (vma_at t i) = true) \/
      forall b, USER_MMAP_BASE <= b -> b + size <= USER_MMAP_MAX -> b mod 4096 = 0 -> exists x, b <= x < b + size /\ prot_at t x <> None)
   else USER_MMAP_BASE <= a /\ a + size <= USER_MMAP_MAX /\ a mod 4096 = 0 /\ n <= size < n + 4096 /\
     (forall x, a <= x < a + size -> prot_at t x = None) /\
     (forall b, USER_MMAP_BASE <= b < a -> b mod 4096 = 0 -> exists x, b <= x < b + size /\ prot_at t x <> None) /\
     (forall x, prot_at t' x = if (a <=? x) && (x <? a + size) then Some (u32 prot) else prot_at t x)) /\
  (let '(s', t', ok) := user_munmap at_ n t s in let lo := page_down at_ in let size := page_up n in
   ranges_ok t' /\ dir t' = dir t /\ exists m', implements own tabs (s', live) (<[dir t := m']> M) /\
   if ok then USER_MMAP_BASE <= lo /\ lo + size <= USER_MMAP_MAX /\ (forall x, lo <= x < lo + size -> prot_at t x <> None) /\
     (forall x, prot_at t' x = if (lo <=? x) && (x <? lo + size) then None else prot_at t x) /\ without_pages lo size m m'
   else t' = t /\ m' = m /\ (dir t = 0 \/ n = 0 \/ forall i, 0 <= i < VMA_MAX -> used (vma_at t i) = true -> base (vma_at t i) = lo -> len (vma_at t i) <> size)).
Proof. split; [exact (mmap_spec t n prot Ht Hn)|exact (munmap_spec own tabs s live M t m at_ n Hs Hm Ht Hat Hn)]. Qed.

Definition mapped_task : task_t := fst (user_mmap 5000 3 (a_task first_space)).
Lemma mapped_task_ok : ranges_ok mapped_task.
Proof.
  pose proof (mmap_spec (a_task first_space) 5000 3 (no_ranges _ _ _ _ _) ltac:(lia)) as Hs. unfold mapped_task.
  destruct (user_mmap 5000 3 (a_task first_space)) as [t a]. apply Hs.
Qed.
Lemma ranges_given_and_taken_witness :
  snd (user_mmap 5000 3 mapped_task) = USER_MMAP_BASE + 8192 /\ snd (user_munmap USER_MMAP_BASE 5000 mapped_task one_space) = true /\
  forall x, prot_at (snd (fst (user_munmap USER_MMAP_BASE 5000 mapped_task one_space))) x =
    if (USER_MMAP_BASE <=? x) && (x <? USER_MMAP_BASE + 8192) then None else prot_at mapped_task x.
Proof.
  split; [vm_compute; reflexivity|]. assert (snd (user_munmap USER_MMAP_BASE 5000 mapped_task one_space) = true) as E by (vm_compute; reflexivity). split; [exact E|].
  destruct one_space_models as (own & tabs & M & Hi & HM).
  pose proof (ranges_given_and_taken own tabs [first_space] one_space M mapped_task no_memory 5000 3 USER_MMAP_BASE Hi) as H.
  destruct H as [_ H]; [exact HM|exact mapped_task_ok|lia|split; [discriminate|reflexivity]|].
  destruct (user_munmap USER_MMAP_BASE 5000 mapped_task one_space) as [[s' t'] ok]. cbn [fst snd] in *. rewrite E in H. destruct H as (_ & _ & m' & _ & _ & _ & _ & H & _).
  intros x. rewrite H. reflexivity.
Defined.

(** A length within a page of 2{^64} rounds up to nothing: the program is told it has a range
    where it has none. *)
Example empty_range_given :
  let (t, a) := user_mmap (2 ^ 64 - 1) 3 (a_task first_space) in a = USER_MMAP_BASE /\ vma_holding t a = None.
Proof. vm_compute. done. Qed.

(** C16: Moving the end of a program's heap answers where it was, puts pages of zeroes
    at the addresses newly inside it and changes nothing else of the program's memory or
    another's; the end never leaves the heap's place, moving back past its start stops
    there, and a program is refused only growth, in which case the end stays: growth past the
    limit, which changes nothing, or within it when the frame allocator, asked for at most
    four frames a page, has come to one it cannot give, and then the pages put are some of
    those asked for. *)
Theorem sbrk_moves_the_break (own : owners) (tabs live : list Z) (s : vm (P := pmm)) (M : gmap Z memory) (t : task_t) (m : memory) (delta : Z)
    (Hs : implements own tabs (s, live) M) (Hm : M !! dir t = Some m) (Hd : dir t <> 0) (Hb : brk_ok t) (Hdelta : - 2 ^ 63 <= delta < 2 ^ 63) :
  let '(s', t', res) := user_sbrk delta t s in let was := break_of t in let lo := page_up was in
  brk_ok t' /\ dir t' = dir t /\ exists own' tabs' m' hi, implements own' tabs' (s', live) (<[dir t := m']> M) /\ zero_pages lo hi m m' /\
  if res =? 0 then 0 < delta /\ break_of t' = was /\
    ((USER_HEAP_MAX < was + delta /\ s' = s /\ hi = lo) \/
     (was + delta <= USER_HEAP_MAX /\ hi <= page_up (was + delta) /\
      exists k, 4096 * Z.of_nat k < 4 * (page_up (was + delta) - lo) /\ snd (pmm_alloc_frame (take_frames k (frames s))) = 0))
  else res = was /\ USER_HEAP_BASE <= was /\ break_of t' = Z.max (if brk_base t =? 0 then USER_HEAP_BASE else brk_base t) (was + delta) /\
       break_of t' <= USER_HEAP_MAX /\ (if 0 <? delta then hi = page_up (was + delta) else hi <= lo).
Proof. exact (sbrk_spec own tabs s live M t m delta Hs Hm Hd Hb Hdelta). Qed.

Lemma sbrk_moves_the_break_witness :
  let '(s', t', res) := user_sbrk 5000 (a_task first_space) one_space in
  res = USER_HEAP_BASE /\ break_of t' = USER_HEAP_BASE + 5000 /\ user_word first_space (USER_HEAP_BASE + 4096) s' = Some 0 /\ brk_ok t'.
Proof.
  destruct one_space_models as (own & tabs & M & Hi & HM).
  assert ((fun x => (snd x, break_of (snd (fst x)), user_word first_space (USER_HEAP_BASE + 4096) (fst (fst x)))) (user_sbrk 5000 (a_task first_space) one_space) =
    (USER_HEAP_BASE, USER_HEAP_BASE + 5000, Some 0)) as E by (vm_compute; reflexivity).
  pose proof (sbrk_moves_the_break own tabs [first_space] one_space M (a_task first_space) no_memory 5000 Hi HM) as H.
  specialize (H ltac:(discriminate) (or_introl (conj eq_refl eq_refl)) ltac:(lia)).
  destruct (user_sbrk 5000 (a_task first_space) one_space) as [[s' t'] res]. cbn [fst snd] in E. injection E as -> E1 E2. split; [reflexivity|]. split; [exact E1|]. split; [exact E2|]. apply H.
Defined.

(** Giving memory back keeps its pages, but asking for it again puts new ones over them: what
    the program had there is gone, and the frame it was in is still held when the program and
    its space have ended. *)
Definition grow_twice : vm (P := pmm) * task_t :=
  let t := a_task first_space in
  let '(s, t, _) := user_sbrk 4096 t one_space in
  let (s, _) := user_store t USER_HEAP_BASE 7 s in
  let '(s, t, _) := user_sbrk (-4096) t s in
  let '(s, t, _) := user_sbrk 4096 t s in (s, t).
Example given_back_and_lost :
  let (s, t) := grow_twice in
  snd (user_load t USER_HEAP_BASE s) = Some 0 /\
  snd (user_load t USER_HEAP_BASE (fst (fst (user_sbrk 4096 (a_task first_space) one_space)))) = Some 0 /\
  pmm_free_frames (frames (paging_free_directory first_space s)) = pmm_free_frames (frames boot_vm) - 1.
Proof. vm_compute. done. Qed.
