(* ===== verification/Signal.v ===== *)
(** Signals (kernel/signal.c): what is pending against a task and what is done about it, and
    the frame a handler runs on and returns through. *)
From Stdlib Require Import Sorted.
From S2P Require Import Prelude Pmm Frames Paging Fork Clone Spaces User Programs Loading Elf.

Definition SIGINT : Z := 2.
Definition SIGKILL : Z := 9.
Definition SIGTERM : Z := 15.
Definition SIG_MAX : Z := 32.
Definition SIG_DFL : Z := 0.
Definition SIG_IGN : Z := 1.
Definition FPU_AREA : Z := 512.
Definition REGISTERS : Z := 176.
Definition USER_CODE_SEL : Z := 0x20 .| 3.
Definition USER_DATA_SEL : Z := 0x18 .| 3.

Record registers_t := Regs {
  r15 : Z; r14 : Z; r13 : Z; r12 : Z; r11 : Z; r10 : Z; r9 : Z; r8 : Z;
  rbp : Z; rdi : Z; rsi : Z; rdx : Z; rcx : Z; rbx : Z; rax : Z;
  int_no : Z; err_code : Z; rip : Z; cs : Z; rflags : Z; rsp : Z; ss : Z }.
(** The frame as it lies in memory, and back. *)
Definition frame_words (r : registers_t) : list Z :=
  [r15 r; r14 r; r13 r; r12 r; r11 r; r10 r; r9 r; r8 r; rbp r; rdi r; rsi r; rdx r; rcx r; rbx r; rax r;
   int_no r; err_code r; rip r; cs r; rflags r; rsp r; ss r].
Definition words_frame (w : list Z) : registers_t :=
  Regs w.[0] w.[1] w.[2] w.[3] w.[4] w.[5] w.[6] w.[7] w.[8] w.[9] w.[10] w.[11] w.[12] w.[13] w.[14]
       w.[15] w.[16] w.[17] w.[18] w.[19] w.[20] w.[21].

(** ** Tasks and what is pending against them *)

Inductive task_state := TASK_READY | TASK_RUNNING | TASK_SLEEPING | TASK_BLOCKED | TASK_DEAD.
#[export] Instance task_state_eq_dec : EqDecision task_state.
Proof. solve_decision. Defined.

(** What signals and sleeping know of a task; [addr] is the record's own address, which is
    the channel waited on for its end. *)
Record proc := Proc {
  addr : Z; pid : Z; parent_pid : Z; state : task_state; exit_status : Z; died_at : Z;
  wait_on : Z; wake_at : Z;
  sig_pending : Z; sig_running : Z; sig_handler : list Z; sig_trampoline : Z }.
Definition with_state (st : task_state) (w at_ : Z) (t : proc) : proc :=
  Proc (addr t) (pid t) (parent_pid t) st (exit_status t) (died_at t) w at_ (sig_pending t) (sig_running t) (sig_handler t) (sig_trampoline t).
Definition dead (status now : Z) (t : proc) : proc :=
  Proc (addr t) (pid t) (parent_pid t) TASK_DEAD status now (wait_on t) (wake_at t) (sig_pending t) (sig_running t) (sig_handler t) (sig_trampoline t).
Definition with_signals (p r : Z) (h : list Z) (tr : Z) (t : proc) : proc :=
  Proc (addr t) (pid t) (parent_pid t) (state t) (exit_status t) (died_at t) (wait_on t) (wake_at t) p r h tr.
Definition with_pending (p : Z) (t : proc) : proc := with_signals p (sig_running t) (sig_handler t) (sig_trampoline t) t.

Definition bit (sig : Z) : Z := 1 .<< sig.
Definition set_in (mask sig : Z) : bool := negb (mask .& bit sig =? 0).
Definition without (mask sig : Z) : Z := mask .& u32 (Z.lnot (bit sig)).
Definition is_dead (t : proc) : bool := bool_decide (state t = TASK_DEAD).

(** The one task of the ring with a number changed. *)
Definition on_pid (n : Z) (f : proc -> proc) (ts : list proc) : list proc :=
  (fix go ts := match ts with [] => [] | t :: ts => if pid t =? n then f t :: ts else t :: go ts end) ts.
Definition task_by_pid (n : Z) (ts : list proc) : option proc := find (fun t => pid t =? n) ts.

(** ** Sleeping (kernel/wait.c) *)

(** Everyone asleep on a channel made ready, or the first of them. *)
Definition asleep_on (channel : Z) (t : proc) : bool := bool_decide (state t = TASK_BLOCKED) && (wait_on t =? channel).
Fixpoint wake_tasks (channel : Z) (only_one : bool) (ts : list proc) : list proc :=
  match ts with
  | [] => []
  | t :: ts =>
      if asleep_on channel t then
        let t := with_state TASK_READY 0 0 t in if only_one then t :: ts else t :: wake_tasks channel only_one ts
      else t :: wake_tasks channel only_one ts
  end.
Definition wake (channel : Z) (only_one : bool) (ts : list proc) : list proc :=
  if channel =? 0 then ts else wake_tasks channel only_one ts.
Definition wake_all (channel : Z) (ts : list proc) : list proc := wake channel false ts.

(** ** Ending, sending and choosing *)

Definition signal_end_task (now n status : Z) (ts : list proc) : list proc :=
  match task_by_pid n ts with
  | None => ts
  | Some t => if is_dead t then ts else wake_all (addr t) (on_pid n (dead status now) ts)
  end.

Definition signal_send (n sig : Z) (ts : list proc) : list proc * bool :=
  if (sig <=? 0) || (SIG_MAX <=? sig) then (ts, false) else
  match task_by_pid n ts with
  | None => (ts, false)
  | Some t => if is_dead t then (ts, false) else (on_pid n (fun t => with_pending (sig_pending t .| bit sig) t) ts, true)
  end.

Definition signal_disposition (n sig how trampoline : Z) (ts : list proc) : list proc * bool :=
  if (sig <=? 0) || (SIG_MAX <=? sig) then (ts, false) else
  if sig =? SIGKILL then (ts, false) else
  match task_by_pid n ts with
  | None => (ts, false)
  | Some t =>
      let set tr := (on_pid n (fun t => with_signals (sig_pending t) (sig_running t) (setz (sig_handler t) sig how) tr t) ts, true) in
      if negb (how =? SIG_DFL) && negb (how =? SIG_IGN) then
        if trampoline =? 0 then (ts, false) else
        if (how <? USER_SPACE_BASE) || (trampoline <? USER_SPACE_BASE) then (ts, false) else set trampoline
      else set (sig_trampoline t)
  end.

Definition signal_forget_handlers (n : Z) (ts : list proc) : list proc :=
  on_pid n (fun t => with_signals (sig_pending t) 0 ((fun h => if SIG_IGN <? h then SIG_DFL else h) <$> sig_handler t) 0 t) ts.

Definition signals : list Z := seqZ 1 (SIG_MAX - 1).
(** The pending ones whose default is wanted, and those left pending. *)
Definition live_signals (t : proc) : Z :=
  foldl (fun live i =>
    if negb (set_in (sig_pending t) i) then live else
    if (sig_handler t).[i] =? SIG_IGN then live else
    if negb ((sig_handler t).[i] =? SIG_DFL) then live else live .| bit i) 0 signals.
Definition kept_signals (t : proc) : Z :=
  foldl (fun p i => if (sig_handler t).[i] <=? SIG_IGN then without p i else p) (sig_pending t) signals.
Definition lowest (mask : Z) : Z := default 0 (find (fun i => set_in mask i) signals).

(** The turn of the [i]th task in [signal_take_pending]. *)
Definition take_one (now : Z) (i : nat) (ts : list proc) : list proc :=
  match ts !! i with
  | None => ts
  | Some t =>
      if negb (is_dead t) && negb (sig_pending t =? 0) then
        let ts := alter (with_pending (kept_signals t)) i ts in
        let live := live_signals t in
        if live =? 0 then ts else
        let sig := lowest live in if sig =? 0 then ts else signal_end_task now (pid t) (128 + sig) ts
      else ts
  end.
(** The ring walked from its head, each task as it is when its turn comes. *)
Definition signal_take_pending (now : Z) (ts : list proc) : list proc :=
  foldl (fun ts i => take_one now i ts) ts (seq 0 (Z.to_nat (Z.min 4096 (zlen ts)))).

(** The console reader's running children, or itself. *)
Definition signal_interrupt (console_pid : Z) (ts : list proc) : list proc * Z :=
  if console_pid =? 0 then (ts, 0) else
  let child t := negb (is_dead t) && (parent_pid t =? console_pid) && negb (pid t =? console_pid) in
  let sent := Z.of_nat (length (filter (fun t => child t = true) (take 4096 ts))) in
  if negb (sent =? 0) then
    (((fun t => if child t then with_pending (sig_pending t .| bit SIGINT) t else t) <$> take 4096 ts) ++ drop 4096 ts, sent)
  else let (ts, ok) := signal_send console_pid SIGINT ts in (ts, if ok then 1 else 0).

(** ** A handler *)

(** The memory of the program that is running, as the kernel reaches it: whether a page is
    there for the program, a page given, and words read and written, which give nothing when
    the access faults and the program is ended for it. *)
Class UserMemory (S : Type) := {
  um_there : Z -> S -> bool;
  um_fill : Z -> S -> S * bool;
  um_load : Z -> S -> option Z;
  um_store : Z -> Z -> S -> option S
}.
(** What of it a handler relies on. *)
Class UserMemoryLaws (S : Type) `{UserMemory S} (ok : S -> Prop) : Prop := {
  um_fill_ok : forall a s, ok s -> ok (um_fill a s).1 /\ forall b w, um_load b s = Some w -> um_load b (um_fill a s).1 = Some w;
  um_store_ok : forall a v s s', ok s -> is_u64 v -> um_store a v s = Some s' ->
    ok s' /\ um_load a s' = Some v /\ forall b, b <> a -> um_load b s' = um_load b s
}.

Section Handlers.
Context {S : Type} `{UserMemory S}.

Definition stack_is_there (lo hi : Z) (s : S) : S * bool :=
  all_ok (pages_between (page_down lo) hi) (fun a s =>
    if um_there a s then (s, true) else
    let (s, filled) := um_fill a s in (s, filled && um_there a s)) s.

Fixpoint store_words (a : Z) (l : list Z) (s : S) : option S :=
  match l with
  | [] => Some s
  | w :: l => match um_store a w s with None => None | Some s => store_words (a + 8) l s end
  end.
Fixpoint load_words (a : Z) (n : nat) (s : S) : option (list Z) :=
  match n with
  | O => Some []
  | Datatypes.S n => match um_load a s with None => None | Some w => cons w <$> load_words (a + 8) n s end
  end.

(** What became of the program: it goes on, in its handler or where it was, or it has been
    ended with a status. *)
Inductive fate := GoesOn | Ended (status : Z).

(** The registers, the floating point state (an FXSAVE image as 64 words) and the memory
    after the signals from [sigs] on; [None]: the program ended at a fault. *)
Fixpoint deliver (sigs : list Z) (clean : list Z) (t : proc) (r : registers_t) (fpu : list Z) (s : S) : option (fate * proc * registers_t * list Z * S) :=
  match sigs with
  | [] => Some (GoesOn, t, r, fpu, s)
  | sig :: sigs =>
      if negb (set_in (sig_pending t) sig) then deliver sigs clean t r fpu s else
      let h := (sig_handler t).[sig] in
      if h <=? SIG_IGN then deliver sigs clean t r fpu s else
      if set_in (sig_running t) sig then deliver sigs clean t r fpu s else
      let sp := u64 (rsp r - REGISTERS) .& u64 (Z.lnot 15) in
      if sp <? REGISTERS + FPU_AREA + 16 then deliver sigs clean t r fpu s else
      let fx := sp - FPU_AREA in
      let (s, there) := stack_is_there (fx - 16) (rsp r) s in
      if negb there then Some (Ended (128 + sig), with_pending (without (sig_pending t) sig) t, r, fpu, s) else
      match store_words sp (frame_words r) s with
      | None => None
      | Some s =>
          match store_words fx fpu s with
          | None => None
          | Some s =>
              let back := fx - 8 in
              match um_store back (sig_trampoline t) s with
              | None => None
              | Some s =>
                  Some (GoesOn, with_signals (without (sig_pending t) sig) (sig_running t .| bit sig) (sig_handler t) (sig_trampoline t) t,
                    Regs (r15 r) (r14 r) (r13 r) (r12 r) (r11 r) (r10 r) (r9 r) (r8 r) (rbp r) sig (rsi r) (rdx r) (rcx r) (rbx r) 0
                      (int_no r) (err_code r) h (cs r) (rflags r) back (ss r), clean, s)
              end
          end
      end
  end.
Definition signal_deliver (clean : list Z) (t : proc) (r : registers_t) (fpu : list Z) (s : S) : option (fate * proc * registers_t * list Z * S) :=
  if is_dead t || (sig_pending t =? 0) then Some (GoesOn, t, r, fpu, s) else deliver signals clean t r fpu s.

(** The 32 bits at offset 24 of an image. *)
Definition fpu_sanitize (mxcsr_mask : Z) (img : list Z) : list Z :=
  setz img 3 (u32 (img.[3]) .& mxcsr_mask .| (img.[3] .>> 32 .<< 32)).

Definition signal_return (mxcsr_mask : Z) (t : proc) (r : registers_t) (fpu : list Z) (s : S) : option (bool * proc * registers_t * list Z * S) :=
  let at_ := rsp r in
  if negb (at_ .& 15 =? 0) then Some (false, t, r, fpu, s) else
  let (s, there) := stack_is_there at_ (u64 (at_ + FPU_AREA + REGISTERS)) s in
  if negb there then Some (false, t, r, fpu, s) else
  match load_words (at_ + FPU_AREA) 22 s with
  | None => None
  | Some w =>
      let saved := words_frame w in
      if negb (cs saved .& 3 =? 3) || negb (ss saved .& 3 =? 3) then Some (false, t, r, fpu, s) else
      if rip saved <? USER_SPACE_BASE then Some (false, t, r, fpu, s) else
      match load_words at_ 64 s with
      | None => None
      | Some img =>
          let running := match find (fun i => set_in (sig_running t) i) signals with Some i => without (sig_running t) i | None => sig_running t end in
          Some (true, with_signals (sig_pending t) running (sig_handler t) (sig_trampoline t) t,
            Regs (r15 saved) (r14 saved) (r13 saved) (r12 saved) (r11 saved) (r10 saved) (r9 saved) (r8 saved) (rbp saved) (rdi saved) (rsi saved)
              (rdx saved) (rcx saved) (rbx saved) (rax saved) (int_no r) (err_code r) (rip saved) USER_CODE_SEL
              ((rflags saved .& 0x0CD5) .| 0x202) (rsp saved) USER_DATA_SEL,
            fpu_sanitize mxcsr_mask img, s)
      end
  end.
End Handlers.

(** ** Masks *)

Lemma set_in_testbit m sig : 0 <= sig -> set_in m sig = Z.testbit m sig.
Proof. intros Hs. unfold set_in, bit. rewrite land_pow2_test by done. apply negb_involutive. Qed.
Lemma testbit_without m sig n : 0 <= sig < 32 -> 0 <= n -> Z.testbit (without m sig) n = (n <? 32) && negb (n =? sig) && Z.testbit m n.
Proof.
  intros Hs Hn. unfold without, bit. rewrite Z.land_spec, testbit_u32, Z.lnot_spec, Z.shiftl_spec by lia.
  destruct (Z.ltb_spec n 32); cbn [andb]; [|by rewrite andb_false_r].
  destruct (Z.eqb_spec n sig) as [->|Hne]; [by rewrite Z.sub_diag, andb_false_r|]. cbn [negb andb].
  assert (Z.testbit 1 (n - sig) = false) as ->; [|by rewrite andb_true_r].
  destruct (Z.lt_ge_cases (n - sig) 0); [by apply Z.testbit_neg_r|]. change 1 with (2 ^ 0). rewrite Z.pow2_bits_false; [done|lia].
Qed.
Lemma elem_of_signals i : i ∈ signals <-> 1 <= i < 32.
Proof. unfold signals, SIG_MAX. rewrite elem_of_seqZ. lia. Qed.

(** The folds over the signals, bit by bit. *)
Lemma fold_or_bits (P : Z -> bool) l n : forall m, (forall i, i ∈ l -> 0 <= i) -> 0 <= n ->
  Z.testbit (foldl (fun live i => if P i then live .| bit i else live) m l) n = Z.testbit m n || (bool_decide (n ∈ l) && P n).
Proof.
  induction l as [|i l IH]; intros m Hl Hn; cbn [foldl].
  - rewrite bool_decide_eq_false_2 by apply not_elem_of_nil. by rewrite orb_false_r.
  - rewrite IH; [|intros j Hj; apply Hl; by right|done]. specialize (Hl i ltac:(by left)). destruct (Z.eq_dec n i) as [->|Hne].
    + rewrite (bool_decide_eq_true_2 (i ∈ i :: l)) by left. destruct (P i); cbn [andb]; rewrite ?andb_false_r; [|done].
      unfold bit. rewrite testbit_set, Z.eqb_refl by done. by rewrite orb_true_r.
    + assert (bool_decide (n ∈ i :: l) = bool_decide (n ∈ l)) as -> by (apply bool_decide_ext; rewrite list.elem_of_cons; naive_solver).
      destruct (P i); [|done]. unfold bit. rewrite testbit_set by done. by rewrite (proj2 (Z.eqb_neq n i)).
Qed.
Lemma fold_clear_bits (P : Z -> bool) l n : forall m, (forall i, i ∈ l -> 0 <= i < 32) -> 0 <= n < 32 ->
  Z.testbit (foldl (fun p i => if P i then without p i else p) m l) n = Z.testbit m n && negb (bool_decide (n ∈ l) && P n).
Proof.
  induction l as [|i l IH]; intros m Hl Hn; cbn [foldl].
  - rewrite bool_decide_eq_false_2 by apply not_elem_of_nil. by rewrite andb_true_r.
  - rewrite IH; [|intros j Hj; apply Hl; by right|done]. specialize (Hl i ltac:(by left)). destruct (Z.eq_dec n i) as [->|Hne].
    + rewrite (bool_decide_eq_true_2 (i ∈ i :: l)) by left. destruct (P i); cbn [andb negb]; rewrite ?andb_false_r, ?andb_true_r; [|done].
      rewrite testbit_without, Z.eqb_refl by lia. cbn [negb]. by rewrite andb_false_r.
    + assert (bool_decide (n ∈ i :: l) = bool_decide (n ∈ l)) as -> by (apply bool_decide_ext; rewrite list.elem_of_cons; naive_solver).
      destruct (P i); [|done]. rewrite testbit_without, (proj2 (Z.eqb_neq n i)), (proj2 (Z.ltb_lt n 32)) by lia. done.
Qed.
Lemma live_bits t n : 0 <= n -> Z.testbit (live_signals t) n =
  bool_decide (n ∈ signals) && (Z.testbit (sig_pending t) n && ((sig_handler t).[n] =? SIG_DFL)).
Proof.
  intros Hn. unfold live_signals.
  transitivity (Z.testbit (foldl (fun live i => if Z.testbit (sig_pending t) i && ((sig_handler t).[i] =? SIG_DFL) then live .| bit i else live) 0 signals) n).
  - f_equal. assert (forall l m, (forall i, i ∈ l -> 0 <= i) -> foldl (fun live i =>
      if negb (set_in (sig_pending t) i) then live else if (sig_handler t).[i] =? SIG_IGN then live else
      if negb ((sig_handler t).[i] =? SIG_DFL) then live else live .| bit i) m l =
      foldl (fun live i => if Z.testbit (sig_pending t) i && ((sig_handler t).[i] =? SIG_DFL) then live .| bit i else live) m l) as Hf.
    { induction l as [|i l IH]; intros m Hl; cbn [foldl]; [done|]. rewrite IH by (intros j Hj; apply Hl; by right). f_equal.
      rewrite set_in_testbit by (apply Hl; by left). destruct (Z.testbit (sig_pending t) i); cbn [negb andb]; [|done]. unfold SIG_IGN, SIG_DFL.
      destruct (Z.eqb_spec (sig_handler t).[i] 1) as [->|], (Z.eqb_spec (sig_handler t).[i] 0); done. }
    apply Hf. intros i Hi%elem_of_signals. lia.
  - rewrite fold_or_bits by (done || (intros i Hi%elem_of_signals; lia)). by rewrite Z.testbit_0_l.
Qed.
Lemma kept_bits t n : 1 <= n < 32 -> Z.testbit (kept_signals t) n = Z.testbit (sig_pending t) n && (SIG_IGN <? (sig_handler t).[n]).
Proof.
  intros Hn. unfold kept_signals. rewrite fold_clear_bits by (lia || (intros i Hi%elem_of_signals; lia)).
  rewrite bool_decide_eq_true_2 by (by apply elem_of_signals). cbn [andb]. f_equal. rewrite Z.leb_antisym. by rewrite negb_involutive.
Qed.
Lemma lowest_spec m : (forall n, 0 <= n -> Z.testbit m n = true -> 1 <= n < 32) -> m <> 0 ->
  1 <= lowest m < 32 /\ Z.testbit m (lowest m) = true /\ forall j, 1 <= j < lowest m -> Z.testbit m j = false.
Proof.
  intros Hb Hn. unfold lowest, signals, SIG_MAX.
  assert (forall (k : nat) lo, 1 <= lo -> match find (fun i => set_in m i) (seqZ lo (Z.of_nat k)) with
    | Some i => lo <= i < lo + Z.of_nat k /\ Z.testbit m i = true /\ forall j, lo <= j < i -> Z.testbit m j = false
    | None => forall j, lo <= j < lo + Z.of_nat k -> Z.testbit m j = false end) as Hf.
  { induction k as [|k IH]; intros lo Hlo; [rewrite seqZ_nil by lia; cbn; lia|]. rewrite seqZ_cons by lia. cbn [find]. rewrite set_in_testbit by lia.
    destruct (Z.testbit m lo) eqn:E; [split; [lia|]; split; [done|lia]|]. replace (Z.pred (Z.of_nat (S k))) with (Z.of_nat k) by lia. specialize (IH (Z.succ lo) ltac:(lia)).
    destruct (find _ _) as [i|].
    - destruct IH as (H1 & H2 & H3). split; [lia|]. split; [done|]. intros j Hj. destruct (Z.eq_dec j lo) as [->|]; [done|]. apply H3. lia.
    - intros j Hj. destruct (Z.eq_dec j lo) as [->|]; [done|]. apply IH. lia. }
  specialize (Hf 31%nat 1 ltac:(lia)). change (Z.of_nat 31) with (32 - 1) in Hf. destruct (find _ _) as [i|]; cbn [default from_option id].
  - destruct Hf as (H1 & H2 & H3). split; [lia|]. done.
  - exfalso. apply Hn. apply Z.bits_inj_0. intros n. destruct (Z.lt_ge_cases n 0); [by apply Z.testbit_neg_r|].
    destruct (Z.testbit m n) eqn:E; [|done]. pose proof (Hb n ltac:(lia) E) as Hr. rewrite Hf in E by lia. done.
Qed.

(** ** The walk over the tasks *)

(** What one task's turn does to its own record, and what another's may do to it. *)
Definition woken (t t' : proc) : Prop := t' = t \/ (state t = TASK_BLOCKED /\ t' = with_state TASK_READY 0 0 t).
Lemma wake_tasks_spec c one ts i : exists f, wake_tasks c one ts !! i = f <$> ts !! i /\ forall t, woken t (f t).
Proof.
  revert i. induction ts as [|t ts IH]; intros i; cbn [wake_tasks].
  - exists id. split; [done|]. by left.
  - assert (asleep_on c t = true -> woken t (with_state TASK_READY 0 0 t)) as Hw.
    { unfold asleep_on. rewrite andb_true_iff, bool_decide_eq_true. intros [? _]. by right. }
    destruct (asleep_on c t) eqn:E; [destruct one|].
    + destruct i as [|i]; [|exists id; split; [cbn; by destruct (ts !! i)|by left]].
      exists (fun u => if asleep_on c u then with_state TASK_READY 0 0 u else u). split; [cbn; by rewrite E|].
      intros u. destruct (asleep_on c u) eqn:Eu; [|by left]. unfold asleep_on in Eu. rewrite andb_true_iff, bool_decide_eq_true in Eu. right. tauto.
    + destruct i as [|i]; [|apply IH]. exists (fun u => if asleep_on c u then with_state TASK_READY 0 0 u else u). split; [cbn; by rewrite E|].
      intros u. destruct (asleep_on c u) eqn:Eu; [|by left]. unfold asleep_on in Eu. rewrite andb_true_iff, bool_decide_eq_true in Eu. right. tauto.
    + destruct i as [|i]; [|apply IH]. exists id. split; [done|]. by left.
Qed.
Lemma wake_spec c one ts i : exists f, wake c one ts !! i = f <$> ts !! i /\ forall t, woken t (f t).
Proof. unfold wake. destruct (c =? 0); [|apply wake_tasks_spec]. exists id. split; [by destruct (ts !! i)|]. by left. Qed.
Lemma length_wake c one ts : length (wake c one ts) = length ts.
Proof.
  unfold wake. destruct (c =? 0); [done|]. induction ts as [|t ts IH]; [done|]. cbn [wake_tasks]. destruct (asleep_on c t); [destruct one|]; cbn [length]; (done || by rewrite IH).
Qed.

Definition pids (ts : list proc) : list Z := pid <$> ts.
Lemma on_pid_alter n f ts i t : NoDup (pids ts) -> ts !! i = Some t -> pid t = n -> on_pid n f ts = alter f i ts.
Proof.
  revert i. induction ts as [|u ts IH]; intros i Hn Hi Hp; [done|]. cbn in Hn. apply list.NoDup_cons in Hn as [Hn1 Hn2]. cbn [on_pid].
  destruct i as [|i]; cbn in Hi.
  - injection Hi as ->. by rewrite Hp, Z.eqb_refl.
  - destruct (Z.eqb_spec (pid u) n) as [E|E].
    + exfalso. apply Hn1. rewrite E, <- Hp. apply list_elem_of_fmap. exists t. split; [done|]. by eapply list_elem_of_lookup_2.
    + cbn. f_equal. by apply IH.
Qed.
Lemma on_pid_none n f ts : task_by_pid n ts = None -> on_pid n f ts = ts.
Proof.
  induction ts as [|u ts IH]; [done|]. cbn. destruct (pid u =? n); [done|]. intros Hf. f_equal. by apply IH.
Qed.
Lemma task_by_pid_at n ts t : task_by_pid n ts = Some t -> exists i, ts !! i = Some t /\ pid t = n.
Proof.
  induction ts as [|u ts IH]; [done|]. cbn. destruct (Z.eqb_spec (pid u) n) as [E|E].
  - intros [= ->]. by exists 0%nat.
  - intros (i & Hi & Hp)%IH. by exists (S i).
Qed.
Lemma task_by_pid_index n ts i t : NoDup (pids ts) -> ts !! i = Some t -> pid t = n -> task_by_pid n ts = Some t.
Proof.
  intros Hn Hi Hp. destruct (task_by_pid n ts) as [u|] eqn:E.
  - apply task_by_pid_at in E as (j & Hj & Hu). assert (i = j) as ->; [|congruence]. apply (list.NoDup_lookup (pids ts) i j n Hn); unfold pids; rewrite list_lookup_fmap; [by rewrite Hi; cbn; rewrite Hp|by rewrite Hj; cbn; rewrite Hu].
  - exfalso. revert i Hi. induction ts as [|u ts IH]; intros i Hi; [done|]. cbn in E. destruct (Z.eqb_spec (pid u) n) as [E2|E2]; [done|].
    destruct i as [|i]; cbn in Hi; [congruence|]. apply list.NoDup_cons in Hn as [_ Hn]. by eapply IH.
Qed.

(** The task after its turn. *)
Definition taken (now : Z) (t t' : proc) : Prop :=
  pid t' = pid t /\ sig_handler t' = sig_handler t /\
  if is_dead t || (sig_pending t =? 0) then woken t t'
  else (forall i, 1 <= i < 32 -> set_in (sig_pending t') i = set_in (sig_pending t) i && (SIG_IGN <? (sig_handler t).[i])) /\
    ((exists i, 1 <= i < 32 /\ set_in (sig_pending t) i = true /\ (sig_handler t).[i] = SIG_DFL /\
        (forall j, 1 <= j < i -> set_in (sig_pending t) j = true -> (sig_handler t).[j] <> SIG_DFL) /\
        state t' = TASK_DEAD /\ exit_status t' = 128 + i /\ died_at t' = now) \/
     ((forall i, 1 <= i < 32 -> set_in (sig_pending t) i = true -> (sig_handler t).[i] <> SIG_DFL) /\
        (state t' = state t \/ (state t = TASK_BLOCKED /\ state t' = TASK_READY)) /\ exit_status t' = exit_status t)).

Lemma woken_fields t t' : woken t t' -> pid t' = pid t /\ sig_handler t' = sig_handler t /\ sig_pending t' = sig_pending t /\ exit_status t' = exit_status t /\ died_at t' = died_at t /\
  is_dead t' = is_dead t /\ (state t' = state t \/ (state t = TASK_BLOCKED /\ state t' = TASK_READY)).
Proof.
  intros [->|[Hb ->]]; [by repeat split; try left|]. repeat split; [|by right]. unfold is_dead. cbn. rewrite Hb. done.
Qed.
Lemma woken_trans t1 t2 t3 : woken t1 t2 -> woken t2 t3 -> woken t1 t3.
Proof.
  intros [->|[Hb ->]]; [done|]. intros [->|[Hb2 _]]; [by right|]. done.
Qed.
Lemma taken_woken now t t1 t2 : taken now t t1 -> woken t1 t2 -> taken now t t2.
Proof.
  intros (H1 & H2 & H3) Hw. destruct (woken_fields _ _ Hw) as (W1 & W2 & W3 & W4 & W5 & W6 & W7). unfold taken.
  split; [congruence|]. split; [congruence|]. destruct (is_dead t || (sig_pending t =? 0)); [by eapply woken_trans|].
  destruct H3 as [P Q]. split; [intros i Hi; rewrite W3; by apply P|]. destruct Q as [(i & Q1 & Q2 & Q3 & Q4 & Q5 & Q6 & Q7)|(Q1 & Q2 & Q3)].
  - left. exists i. split; [done|]. split; [done|]. split; [done|]. split; [done|]. split; [|split; congruence].
    destruct W7 as [?|[? _]]; congruence.
  - right. split; [done|]. split; [|congruence]. destruct Q2 as [Q2|[Q2 Q2']], W7 as [W7|[W7 W7']]; rewrite ?Q2, ?Q2' in *; try (by left; congruence); right; split; congruence.
Qed.
Lemma woken_taken now t t1 t2 : woken t t1 -> taken now t1 t2 -> taken now t t2.
Proof.
  intros [->|[Hb ->]]; [done|]. intros (H1 & H2 & H3). unfold taken. split; [done|]. split; [done|].
  assert (is_dead t = false) as Hd by (unfold is_dead; by rewrite Hb). unfold is_dead in H3 at 1. cbn in H3. rewrite Hd. cbn [orb].
  destruct (sig_pending t =? 0).
  - destruct H3 as [->|[Hc _]]; [by right|done].
  - destruct H3 as [P Q]. split; [done|]. destruct Q as [Q|(Q1 & Q2 & Q3)]; [by left|right]. split; [done|]. split; [|done]. destruct Q2 as [Q2|[Q2 _]]; [|done]. right. done.
Qed.

Lemma live_zero t : live_signals t = 0 <-> forall i, 1 <= i < 32 -> set_in (sig_pending t) i = true -> (sig_handler t).[i] <> SIG_DFL.
Proof.
  split.
  - intros Hl i Hi Hp Hd. pose proof (live_bits t i ltac:(lia)) as Hb. rewrite Hl, Z.testbit_0_l, bool_decide_eq_true_2 in Hb by (by apply elem_of_signals).
    rewrite set_in_testbit in Hp by lia. rewrite Hp, Hd in Hb. done.
  - intros Hn. apply Z.bits_inj_0. intros n. destruct (Z.lt_ge_cases n 0); [by apply Z.testbit_neg_r|]. rewrite live_bits by lia.
    destruct (bool_decide_reflect (n ∈ signals)) as [Hi%elem_of_signals|]; [|done]. cbn [andb]. specialize (Hn n Hi). rewrite set_in_testbit in Hn by lia.
    destruct (Z.testbit (sig_pending t) n); [|done]. by apply Z.eqb_neq, Hn.
Qed.
Lemma lowest_live t : live_signals t <> 0 -> let i := lowest (live_signals t) in 1 <= i < 32 /\ set_in (sig_pending t) i = true /\ (sig_handler t).[i] = SIG_DFL /\
  forall j, 1 <= j < i -> set_in (sig_pending t) j = true -> (sig_handler t).[j] <> SIG_DFL.
Proof.
  intros Hl. cbv zeta. destruct (lowest_spec (live_signals t)) as (H1 & H2 & H3); [|done|].
  { intros n Hn E. rewrite live_bits in E by done. apply andb_true_iff in E as [E _]. by apply bool_decide_eq_true, elem_of_signals in E. }
  assert (forall n, 1 <= n < 32 -> Z.testbit (live_signals t) n = Z.testbit (sig_pending t) n && ((sig_handler t).[n] =? SIG_DFL)) as Hb.
  { intros n Hn. rewrite live_bits, bool_decide_eq_true_2 by (lia || by apply elem_of_signals). done. }
  split; [done|]. rewrite Hb in H2 by done. apply andb_true_iff in H2 as [E1 E2%Z.eqb_eq]. rewrite set_in_testbit by lia. split; [done|]. split; [done|].
  intros j Hj Hp Hd. specialize (H3 j Hj). rewrite set_in_testbit in Hp by lia. rewrite Hb, Hp, Hd in H3 by lia. done.
Qed.

Lemma pids_alter f i ts : (forall t, pid (f t) = pid t) -> pids (alter f i ts) = pids ts.
Proof.
  intros Hf. unfold pids. apply list_eq. intros j. rewrite !list_lookup_fmap. destruct (decide (i = j)) as [->|Hn].
  - rewrite list_lookup_alter_eq. destruct (ts !! j); cbn; [by rewrite Hf|done].
  - by rewrite list_lookup_alter_ne.
Qed.
Lemma pids_wake c one ts : pids (wake c one ts) = pids ts.
Proof.
  unfold pids. apply list_eq. intros j. rewrite !list_lookup_fmap. destruct (wake_spec c one ts j) as (f & -> & Hf).
  destruct (ts !! j) as [t|]; [|done]. cbn. by destruct (woken_fields _ _ (Hf t)) as [-> _].
Qed.

Lemma take_one_spec now ts i : NoDup (pids ts) -> pids (take_one now i ts) = pids ts /\ length (take_one now i ts) = length ts /\
  forall j t, ts !! j = Some t -> exists t', take_one now i ts !! j = Some t' /\ if decide (j = i) then taken now t t' else woken t t'.
Proof.
  intros Hn. unfold take_one. destruct (ts !! i) as [t|] eqn:Ei.
  2: { split; [done|]. split; [done|]. intros j t Hj. exists t. split; [done|]. rewrite decide_False by congruence. by left. }
  destruct (negb (is_dead t) && negb (sig_pending t =? 0)) eqn:Ea.
  2: { split; [done|]. split; [done|]. intros j u Hj. exists u. split; [done|]. case_decide as Hji; [|by left]. subst j. assert (u = t) as -> by congruence.
       unfold taken. split; [done|]. split; [done|]. rewrite <- negb_orb in Ea. apply negb_false_iff in Ea. rewrite Ea. by left. }
  rewrite <- negb_orb in Ea. apply negb_true_iff in Ea. pose proof Ea as Ea2. apply orb_false_iff in Ea2 as [Hd _].
  set (ts1 := alter (with_pending (kept_signals t)) i ts).
  assert (pids ts1 = pids ts) as Hp1 by (by apply pids_alter). assert (length ts1 = length ts) as Hl1 by apply length_alter.
  assert (ts1 !! i = Some (with_pending (kept_signals t) t)) as Hi1 by (unfold ts1; by rewrite list_lookup_alter_eq, Ei).
  assert (forall j u, j <> i -> ts !! j = Some u -> ts1 !! j = Some u) as Hj1 by (intros j u Hj Hu; unfold ts1; by rewrite list_lookup_alter_ne).
  assert (forall t', pid t' = pid t -> sig_handler t' = sig_handler t -> sig_pending t' = kept_signals t ->
    ((state t' = TASK_DEAD /\ exit_status t' = 128 + lowest (live_signals t) /\ died_at t' = now /\ live_signals t <> 0) \/
     (live_signals t = 0 /\ state t' = state t /\ exit_status t' = exit_status t)) -> taken now t t') as Htaken.
  { intros t' P1 P2 P3 P4. unfold taken. rewrite Ea. split; [done|]. split; [done|]. split.
    { intros n Hnn. rewrite P3, !set_in_testbit by lia. by apply kept_bits. }
    destruct P4 as [(Q1 & Q2 & Q3 & Q4)|(Q1 & Q2 & Q3)].
    - left. exists (lowest (live_signals t)). destruct (lowest_live t Q4) as (L1 & L2 & L3 & L4). done.
    - right. split; [by apply live_zero|]. split; [by left|done]. }
  destruct (Z.eqb_spec (live_signals t) 0) as [Hl|Hl].
  { split; [done|]. split; [done|]. intros j u Hj. case_decide as Hji.
    - subst j. assert (u = t) as -> by congruence. eexists. split; [exact Hi1|]. apply Htaken; try done. by right.
    - exists u. split; [by apply Hj1|by left]. }
  destruct (lowest_live t Hl) as (L1 & _). rewrite (proj2 (Z.eqb_neq (lowest (live_signals t)) 0)) by lia.
  unfold signal_end_task. rewrite (task_by_pid_index (pid t) ts1 i (with_pending (kept_signals t) t)) by (rewrite ?Hp1; done).
  change (is_dead (with_pending (kept_signals t) t)) with (is_dead t). rewrite Hd.
  rewrite (on_pid_alter (pid t) _ ts1 i (with_pending (kept_signals t) t)) by (rewrite ?Hp1; done).
  set (ts2 := alter (dead (128 + lowest (live_signals t)) now) i ts1). unfold wake_all. rewrite pids_wake, length_wake.
  split; [unfold ts2; rewrite pids_alter by done; done|]. split; [unfold ts2; by rewrite length_alter|].
  intros j u Hj. destruct (wake_spec (addr (with_pending (kept_signals t) t)) false ts2 j) as (f & -> & Hf). case_decide as Hji.
  - subst j. assert (u = t) as -> by congruence. unfold ts2. rewrite list_lookup_alter_eq, Hi1. eexists. split; [done|].
    eapply taken_woken; [|apply Hf]. apply Htaken; try done. left. done.
  - unfold ts2. rewrite list_lookup_alter_ne by done. rewrite (Hj1 j u Hji Hj). eexists. split; [done|]. apply Hf.
Qed.

(** What is pending is acted on. *)
Lemma take_pending_spec now ts : NoDup (pids ts) ->
  let ts' := signal_take_pending now ts in
  pids ts' = pids ts /\ forall j t, ts !! j = Some t -> exists t', ts' !! j = Some t' /\ if Z.of_nat j <? 4096 then taken now t t' else woken t t'.
Proof.
  intros Hn. cbv zeta. unfold signal_take_pending.
  assert (forall k, let ts' := foldl (fun ts i => take_one now i ts) ts (seq 0 k) in
    pids ts' = pids ts /\ length ts' = length ts /\ forall j t, ts !! j = Some t -> exists t', ts' !! j = Some t' /\ if decide (j < k)%nat then taken now t t' else woken t t') as Hk.
  { induction k as [|k (IH1 & IH2 & IH3)]; cbv zeta.
    - cbn. split; [done|]. split; [done|]. intros j t Hj. exists t. split; [done|]. rewrite decide_False by lia. by left.
    - rewrite seq_S, foldl_app. cbn [foldl]. rewrite Nat.add_0_l. set (ts1 := foldl _ ts (seq 0 k)) in *.
      destruct (take_one_spec now ts1 k ltac:(by rewrite IH1)) as (T1 & T2 & T3). split; [congruence|]. split; [congruence|].
      intros j t Hj. destruct (IH3 j t Hj) as (t1 & Hj1 & H1). destruct (T3 j t1 Hj1) as (t2 & Hj2 & H2). exists t2. split; [done|].
      destruct (decide (j = k)) as [->|Hne].
      + rewrite decide_False in H1 by lia. rewrite decide_True by lia. by eapply woken_taken.
      + destruct (decide (j < k)%nat) as [Hlt|Hge]; [rewrite decide_True by lia; by eapply taken_woken|rewrite decide_False by lia; by eapply woken_trans]. }
  destruct (Hk (Z.to_nat (Z.min 4096 (zlen ts)))) as (K1 & K2 & K3). split; [done|]. intros j t Hj. destruct (K3 j t Hj) as (t' & Hj' & Ht'). exists t'. split; [done|].
  pose proof (lookup_lt_Some _ _ _ Hj) as Hlt. destruct (Z.ltb_spec (Z.of_nat j) 4096) as [Hc|Hc]; [rewrite decide_True in Ht' by lia|rewrite decide_False in Ht' by lia]; exact Ht'.
Qed.

(** The handler of KILL stays the default whatever a program asks for. *)
Lemma disposition_keeps_kill n sig how tr ts : Forall (fun t => (sig_handler t).[SIGKILL] = SIG_DFL) ts ->
  Forall (fun t => (sig_handler t).[SIGKILL] = SIG_DFL) (signal_disposition n sig how tr ts).1.
Proof.
  intros Hf. unfold signal_disposition. destruct ((sig <=? 0) || (SIG_MAX <=? sig)) eqn:Er; [done|]. destruct (Z.eqb_spec sig SIGKILL) as [|Hs]; [done|].
  destruct (task_by_pid n ts) as [t|]; [|done]. cbv zeta. apply orb_false_iff in Er as [E1%Z.leb_gt E2%Z.leb_gt].
  assert (forall tr, Forall (fun t => (sig_handler t).[SIGKILL] = SIG_DFL)
    (on_pid n (fun t => with_signals (sig_pending t) (sig_running t) (setz (sig_handler t) sig how) tr t) ts)) as Hset.
  { intros tr2. clear t. induction Hf as [|u ts Hu Hf IH]; [done|]. cbn [on_pid]. destruct (pid u =? n); apply list.Forall_cons_2; try done.
    change ((setz (sig_handler u) sig how).[SIGKILL] = SIG_DFL). rewrite getz_setz_ne; [done|lia|unfold SIGKILL; lia|done]. }
  destruct (negb (how =? SIG_DFL) && negb (how =? SIG_IGN)); [|apply Hset]. destruct (tr =? 0); [done|]. destruct (_ || _); [done|apply Hset].
Qed.

(** ** The frame of a handler *)


Section Frames.
Context {S : Type} `{UserMemoryLaws S ok}.
Implicit Types s : S.

(** Words kept by what is done to the state. *)
Lemma stack_is_there_spec lo hi s : ok s -> let (s', b) := stack_is_there lo hi s in
  ok s' /\ forall a w, um_load a s = Some w -> um_load a s' = Some w.
Proof.
  unfold stack_is_there. generalize (pages_between (User.page_down lo) hi). intros l. revert s. induction l as [|p l IH]; intros s Hs; cbn [all_ok]; [done|].
  destruct (um_there p s); [by apply IH|]. destruct (um_fill_ok p s Hs) as [Hs1 H1]. destruct (um_fill p s) as [s1 b]. cbn [fst] in *.
  destruct (b && um_there p s1); [|done]. specialize (IH s1 Hs1). destruct (all_ok l _ s1) as [s2 b2]. destruct IH as [I1 I2]. split; [done|]. intros a w Ha. by apply I2, H1.
Qed.
Lemma store_words_spec l : forall a s s', ok s -> Forall is_u64 l -> store_words a l s = Some s' ->
  ok s' /\ (forall i, 0 <= i < zlen l -> um_load (a + 8 * i) s' = Some l.[i]) /\
  forall b, (forall i, 0 <= i < zlen l -> b <> a + 8 * i) -> um_load b s' = um_load b s.
Proof.
  induction l as [|w l IH]; intros a s s' Hs Hl Hst; cbn [store_words] in Hst.
  { injection Hst as <-. split; [done|]. split; [cbn [length]; lia|done]. }
  apply list.Forall_cons in Hl as [Hw Hl]. destruct (um_store a w s) as [s1|] eqn:E; [|done]. destruct (um_store_ok a w s s1 Hs Hw E) as (O1 & O2 & O3).
  destruct (IH (a + 8) s1 s' O1 Hl Hst) as (I1 & I2 & I3). split; [done|]. cbn [length]. split.
  - intros i Hi. destruct (Z.eq_dec i 0) as [->|Hn].
    + rewrite Z.mul_0_r, Z.add_0_r, I3; [exact O2|lia].
    + replace (a + 8 * i) with (a + 8 + 8 * (i - 1)) by lia. rewrite I2 by lia. f_equal. unfold getz. replace (Z.to_nat i) with (Datatypes.S (Z.to_nat (i - 1))) by lia. done.
  - intros b Hb. rewrite I3, O3; [done| |].
    + specialize (Hb 0 ltac:(lia)). lia.
    + intros i Hi. specialize (Hb (i + 1) ltac:(lia)). lia.
Qed.

(** Where the frame of a handler lies, for a stack pointer. *)
Definition frame_at (sp : Z) : Z := u64 (sp - REGISTERS) .& u64 (Z.lnot 15).
Lemma frame_at_spec sp : is_u64 sp -> let a := frame_at sp in a mod 16 = 0 /\ 0 <= a < 2 ^ 64 /\ a = u64 (sp - REGISTERS) / 16 * 16.
Proof.
  intros Hs. cbv zeta. unfold frame_at. change 15 with (2 ^ 4 - 1). rewrite mask_down by (lia || apply u64_is_word). change (2 ^ 4) with 16.
  pose proof (u64_is_word (sp - REGISTERS)) as Hu. unfold is_word in Hu. split; [dlia|]. split; [dlia|done].
Qed.

(** A signal whose handler is to be entered: pending, with a handler that is not running, and a
    stack pointer that leaves room for the frame above the bottom of the address space. *)
Definition deliverable (t : proc) (r : registers_t) (sig : Z) : Prop :=
  1 <= sig < 32 /\ set_in (sig_pending t) sig = true /\ SIG_IGN < (sig_handler t).[sig] /\ set_in (sig_running t) sig = false /\
  REGISTERS + FPU_AREA + 16 <= frame_at (rsp r).
(** Whether the stack has the pages for the frame, those it was promised and lacks given it. *)
Definition stack_for_frame (r : registers_t) (s : S) : S * bool := stack_is_there (frame_at (rsp r) - FPU_AREA - 16) (rsp r) s.
(** Of the signals looked at, the first whose handler is to be entered. *)
Definition first_of (sigs : list Z) (t : proc) (r : registers_t) (sig : Z) : Prop :=
  deliverable t r sig /\ forall j, j ∈ sigs -> j < sig -> ~ deliverable t r j.

(** A handler entered: what of the processor and the task is as it must be, and what lies on
    the program's stack. *)
Record entered (clean : list Z) (t : proc) (r : registers_t) (fpu : list Z) (sig : Z) (t' : proc) (r' : registers_t) (fpu' : list Z) (s' : S) : Prop := {
  en_sig : 1 <= sig < 32 /\ set_in (sig_pending t) sig = true /\ SIG_IGN < (sig_handler t).[sig] /\ set_in (sig_running t) sig = false;
  en_task : t' = with_signals (without (sig_pending t) sig) (sig_running t .| bit sig) (sig_handler t) (sig_trampoline t) t;
  en_regs : rip r' = (sig_handler t).[sig] /\ rdi r' = sig /\ cs r' = cs r /\ ss r' = ss r /\ rflags r' = rflags r;
  en_sp : rsp r' = frame_at (rsp r) - FPU_AREA - 8 /\ 704 <= frame_at (rsp r);
  en_fpu : fpu' = clean;
  en_return : um_load (rsp r') s' = Some (sig_trampoline t);
  en_image : forall i, 0 <= i < 64 -> um_load (rsp r' + 8 + 8 * i) s' = Some fpu.[i];
  en_frame : forall i, 0 <= i < 22 -> um_load (rsp r' + 8 + FPU_AREA + 8 * i) s' = Some (frame_words r).[i]
}.

Lemma first_of_cons sig sigs t r i : ~ deliverable t r sig -> first_of sigs t r i -> first_of (sig :: sigs) t r i.
Proof. intros Hn [Hd Hl]. split; [done|]. intros j [->|Hj]%list.elem_of_cons; auto. Qed.
Lemma deliver_spec clean t r fpu sigs : forall s s' f t' r' fpu', ok s -> (forall i, i ∈ sigs -> 1 <= i < 32) -> StronglySorted Z.lt sigs ->
  Forall is_u64 (frame_words r) -> zlen fpu = 64 -> Forall is_u64 fpu -> is_u64 (sig_trampoline t) ->
  deliver sigs clean t r fpu s = Some (f, t', r', fpu', s') -> ok s' /\
  ((f = GoesOn /\ t' = t /\ r' = r /\ fpu' = fpu /\ s' = s /\ forall sig, sig ∈ sigs -> ~ deliverable t r sig) \/
   (exists sig, first_of sigs t r sig /\ (stack_for_frame r s).2 = false /\ f = Ended (128 + sig) /\ r' = r /\ fpu' = fpu /\ s' = (stack_for_frame r s).1) \/
   (f = GoesOn /\ (stack_for_frame r s).2 = true /\ exists sig, first_of sigs t r sig /\ entered clean t r fpu sig t' r' fpu' s')).
Proof.
  induction sigs as [|sig sigs IH]; intros s s' f t' r' fpu' Hs Hin Hso Hr Hlen Hf Htr E; cbn [deliver] in E.
  { injection E as <- <- <- <- <-. split; [done|]. left. split_and!; try done. by intros ? ?%elem_of_nil. }
  assert (forall i, i ∈ sigs -> 1 <= i < 32) as Hin' by (intros i Hi; apply Hin; by right). specialize (Hin sig ltac:(by left)).
  apply StronglySorted_inv in Hso as [Hso Hlow].
  assert (~ deliverable t r sig -> deliver sigs clean t r fpu s = Some (f, t', r', fpu', s') -> ok s' /\
    ((f = GoesOn /\ t' = t /\ r' = r /\ fpu' = fpu /\ s' = s /\ forall i, i ∈ sig :: sigs -> ~ deliverable t r i) \/
     (exists i, first_of (sig :: sigs) t r i /\ (stack_for_frame r s).2 = false /\ f = Ended (128 + i) /\ r' = r /\ fpu' = fpu /\ s' = (stack_for_frame r s).1) \/
     (f = GoesOn /\ (stack_for_frame r s).2 = true /\ exists i, first_of (sig :: sigs) t r i /\ entered clean t r fpu i t' r' fpu' s'))) as Hskip.
  { intros Hn Ed. destruct (IH _ _ _ _ _ _ Hs Hin' Hso Hr Hlen Hf Htr Ed) as [Ho [(? & ? & ? & ? & ? & Hx)|[(i & Hi & Hx)|(? & ? & i & Hi & Hx)]]]; (split; [done|]).
    - left. split_and!; try done. intros j [->|Hj]%list.elem_of_cons; auto.
    - right; left. exists i. split; [by apply first_of_cons|done].
    - right; right. split; [done|]. split; [done|]. exists i. split; [by apply first_of_cons|done]. }
  clear IH. unfold deliverable in Hskip at 1.
  destruct (set_in (sig_pending t) sig) eqn:Ep; cbn [negb] in E; [|apply Hskip in E; [done|naive_solver]].
  destruct (Z.leb_spec (sig_handler t).[sig] SIG_IGN) as [|Hh]; [apply Hskip in E; [done|lia]|].
  destruct (set_in (sig_running t) sig) eqn:Er; [apply Hskip in E; [done|naive_solver]|]. fold (frame_at (rsp r)) in E.
  destruct (Z.ltb_spec (frame_at (rsp r)) (REGISTERS + FPU_AREA + 16)) as [|Hroom]; [apply Hskip in E; [done|lia]|]. clear Hskip.
  assert (first_of (sig :: sigs) t r sig) as Hd.
  { split; [unfold deliverable; split_and!; (done || lia)|]. rewrite Forall_forall in Hlow. intros j [->|Hj%list_elem_of_In]%list.elem_of_cons; [lia|]. specialize (Hlow j Hj). lia. }
  assert (is_u64 (rsp r)) as Hsp by (rewrite list.Forall_forall in Hr; apply Hr; do 20 right; left).
  pose proof (stack_is_there_spec (frame_at (rsp r) - FPU_AREA - 16) (rsp r) s Hs) as Hst. fold (stack_for_frame r s) in E, Hst. destruct (stack_for_frame r s) as [s1 there].
  destruct Hst as [Hs1 _]. cbn [fst snd]. destruct there; cbn [negb] in E.
  2: { injection E as <- <- <- <- <-. split; [done|]. right; left. by exists sig. }
  destruct (frame_at_spec (rsp r) Hsp) as (F1 & F2 & _). set (sp := frame_at (rsp r)) in *. unfold REGISTERS, FPU_AREA in Hroom.
  destruct (store_words sp (frame_words r) s1) as [s2|] eqn:E2; [|done]. destruct (store_words_spec _ _ _ _ Hs1 Hr E2) as (O2 & W2 & K2).
  destruct (store_words (sp - FPU_AREA) fpu s2) as [s3|] eqn:E3; [|done]. destruct (store_words_spec _ _ _ _ O2 Hf E3) as (O3 & W3 & K3).
  destruct (um_store (sp - FPU_AREA - 8) (sig_trampoline t) s3) as [s4|] eqn:E4; [|done]. destruct (um_store_ok _ _ _ _ O3 Htr E4) as (O4 & W4 & K4).
  injection E as <- <- <- <- <-. split; [done|]. right; right. split; [done|]. split; [done|]. exists sig. split; [done|].
  unfold FPU_AREA in *. change (zlen (frame_words r)) with 22 in *. rewrite Hlen in *.
  constructor; try done.
  - intros i Hi. cbn [rsp]. replace (sp - 512 - 8 + 8 + 8 * i) with (sp - 512 + 8 * i) by lia. rewrite K4 by lia. by apply W3.
  - intros i Hi. cbn [rsp]. unfold FPU_AREA. replace (sp - 512 - 8 + 8 + 512 + 8 * i) with (sp + 8 * i) by lia. rewrite K4, K3 by lia. by apply W2.
Qed.
Lemma signals_sorted : StronglySorted Z.lt signals.
Proof. unfold signals, SIG_MAX. apply Sorted_StronglySorted; [intros x y z; lia|]. vm_compute. repeat constructor. Qed.

Lemma signal_deliver_ok clean t r fpu s s' f t' r' fpu' : ok s -> Forall is_u64 (frame_words r) -> zlen fpu = 64 -> Forall is_u64 fpu -> is_u64 (sig_trampoline t) ->
  signal_deliver clean t r fpu s = Some (f, t', r', fpu', s') -> ok s'.
Proof.
  intros Hs Hr Hlen Hf Htr E. unfold signal_deliver in E. destruct (is_dead t || (sig_pending t =? 0)); [by injection E as <- <- <- <- <-|].
  eapply deliver_spec; try done; [by intros i Hi%elem_of_signals|apply signals_sorted].
Qed.

(** What a return from a handler gives is a program's frame, whatever memory holds. *)
Definition user_flags (f : Z) : Prop := Z.testbit f 9 = true /\ Z.testbit f 1 = true /\ forall n, 0 <= n -> Z.testbit f n = true -> n ∈ [0; 1; 2; 4; 6; 7; 9; 10; 11].
Lemma returned_flags f : user_flags ((f .& 0x0CD5) .| 0x202).
Proof.
  split; [by rewrite Z.lor_spec, orb_true_r|]. split; [by rewrite Z.lor_spec, orb_true_r|]. intros n Hn.
  rewrite Z.lor_spec, Z.land_spec. intros Hb. assert (Z.testbit 0xED7 n = true) as Hb2.
  { change 0xED7 with (0x0CD5 .| 0x202). rewrite Z.lor_spec. apply orb_true_iff in Hb as [Hb|Hb]; [apply andb_true_iff in Hb as [_ ->]; done|rewrite Hb; apply orb_true_r]. }
  destruct (Z.lt_ge_cases n 12) as [Hlt|Hge].
  - assert (forallb (fun i => negb (Z.testbit 0xED7 i) || bool_decide (i ∈ [0; 1; 2; 4; 6; 7; 9; 10; 11])) (seqZ 0 12) = true) as Hall
      by (vm_compute; reflexivity).
    rewrite forallb_forall in Hall. specialize (Hall n (proj1 (list_elem_of_In _ _) (proj2 (elem_of_seqZ 0 12 n) ltac:(lia)))).
    rewrite Hb2 in Hall. by apply bool_decide_eq_true in Hall.
  - rewrite (is_word_testbit 12) in Hb2; (done || lia || (unfold is_word; lia)).
Qed.
Lemma return_spec mask t r fpu s b t' r' fpu' s' : ok s -> signal_return mask t r fpu s = Some (b, t', r', fpu', s') ->
  (ok s' /\ forall a w, um_load a s = Some w -> um_load a s' = Some w) /\
  if b then cs r' = USER_CODE_SEL /\ ss r' = USER_DATA_SEL /\ USER_SPACE_BASE <= rip r' /\ user_flags (rflags r') /\ int_no r' = int_no r /\ err_code r' = err_code r /\
    exists img, load_words (rsp r) 64 s' = Some img /\ fpu' = fpu_sanitize mask img
  else t' = t /\ r' = r /\ fpu' = fpu.
Proof.
  intros Hs E. unfold signal_return in E. destruct (negb (rsp r .& 15 =? 0)); [by injection E as <- <- <- <- <-|].
  pose proof (stack_is_there_spec (rsp r) (u64 (rsp r + FPU_AREA + REGISTERS)) s Hs) as Hst. destruct (stack_is_there (rsp r) _ s) as [s1 there].
  destruct there; cbn [negb] in E; [|by injection E as <- <- <- <- <-]. destruct (load_words (rsp r + FPU_AREA) 22 s1) as [w|]; [|done].
  destruct (negb (cs (words_frame w) .& 3 =? 3) || negb (ss (words_frame w) .& 3 =? 3)); [by injection E as <- <- <- <- <-|].
  destruct (Z.ltb_spec (rip (words_frame w)) USER_SPACE_BASE) as [|Hrip]; [by injection E as <- <- <- <- <-|].
  destruct (load_words (rsp r) 64 s1) as [img|] eqn:Ei; [|done]. injection E as <- <- <- <- <-. split; [done|]. cbn [cs ss rip rflags int_no err_code].
  split; [done|]. split; [done|]. split; [done|]. split; [apply returned_flags|]. split; [done|]. split; [done|]. by exists img.
Qed.

(** The frame a return gives back, and the floating point state. *)
Definition given_back (r r2 : registers_t) : registers_t :=
  Regs (r15 r) (r14 r) (r13 r) (r12 r) (r11 r) (r10 r) (r9 r) (r8 r) (rbp r) (rdi r) (rsi r) (rdx r) (rcx r) (rbx r) (rax r)
    (int_no r2) (err_code r2) (rip r) USER_CODE_SEL ((rflags r .& 0x0CD5) .| 0x202) (rsp r) USER_DATA_SEL.
End Frames.

(** ** The memory of programs behind the interface *)

Section Memory.
Context {P : Type} `{FrameAllocatorLaws P}.
Notation vm := (vm (P := P)).

(** A store of the kernel's: a page that is there and shared is made the program's own. *)
Definition kernel_store (dir a v : Z) (s : vm) : option vm :=
  match cpu_store dir a v s with
  | Some s => Some s
  | None =>
      if negb (has (page_entry dir a s) PTE_PRESENT) then None else
      let (s, ok) := paging_resolve_cow dir a s in if ok then cpu_store dir a v s else None
  end.
#[export] Instance vm_memory (t : task_t) : UserMemory (vm * list Z) := {
  um_there a x := virt_is_user_in (dir t) a x.1;
  um_fill a x := if is_word_at a then let (s, ok) := user_fault_fill a 2 t x.1 in ((s, x.2), ok) else (x, false);
  um_load a x := if is_word_at a then cpu_load (dir t) a x.1 else None;
  um_store a v x := if is_word_at a then (fun s => (s, x.2)) <$> kernel_store (dir t) a v x.1 else None
}.
Definition vm_ok (t : task_t) (x : vm * list Z) : Prop := exists own tabs M m, implements own tabs x M /\ M !! dir t = Some m.

Lemma cpu_load_words own tabs (s : vm) M r m a : spaces_ok own tabs s -> models own s M -> M !! r = Some m -> word_at a -> cpu_load r a s = words m a.
Proof.
  intros Hs HM Hm Ha. destruct (HM _ _ Hm) as [Hr Hw]. destruct (Hw a Ha) as [S1 _ S3]. unfold cpu_load. rewrite <- S1. unfold user_word.
  destruct (counted (page_entry r a s)) eqn:Hc.
  - rewrite (phys_of own tabs) by (done || apply Ha). rewrite (counted_present _ Hc). unfold counted in Hc. rewrite !andb_true_iff in Hc. by destruct Hc as [[[_ _] ->] _].
  - destruct (has (page_entry r a s) PTE_PRESENT); [by specialize (S3 eq_refl)|done].
Qed.
Lemma fill_present own tabs (s : vm) M t m a : spaces_ok own tabs s -> models own s M -> M !! dir t = Some m -> word_at a -> is_Some (words m a) ->
  (user_fault_fill a 2 t s).1 = s.
Proof.
  intros Hs HM Hm Ha [w Hw0]. destruct (HM _ _ Hm) as [Hr Hw]. destruct (Hw a Ha) as [S1 _ _]. unfold user_word in S1. destruct (counted (page_entry (dir t) a s)) eqn:Hc; [|congruence].
  destruct (page_same a (proj1 Ha)) as (Hpa & _ & _). assert (User.page_down a = page_of a) as Epd.
  { unfold User.page_down, page_of, PAGE_SIZE. change 4096 with (2 ^ 12). apply mask_down; [lia|]. unfold is_word. destruct Ha as [[? ?] _]. lia. }
  assert (virt_to_phys_in (dir t) (page_of a) s =? 0 = false) as Hv.
  { rewrite (phys_of own tabs), (page_entry_page own) by (done || apply Ha || apply Hs). rewrite (counted_present _ Hc). apply Z.eqb_neq.
    destruct (entry_counted own tabs s (dir t) a Hs Hr (proj1 Ha) Hc) as (tb & Ht & Hin & Ee).
    destruct (page_held own tabs s tb (index_of a 1) Hs Hin (index_of_range a 1) ltac:(by rewrite <- Ee)) as (_ & _ & Hpos & _). rewrite <- Ee in Hpos.
    pose proof (Z.mod_pos_bound (page_of a) 4096 ltac:(lia)). lia. }
  unfold user_fault_fill. rewrite Epd, Hv. cbn [negb]. destruct (has 2 1); [done|]. destruct (dir t =? 0); [done|].
  destruct (_ || _); [done|]. destruct (vma_holding t a); [|done]. destruct (has 2 2 && _); done.
Qed.

#[export] Instance vm_memory_laws (t : task_t) : @UserMemoryLaws (vm * list Z) (vm_memory t) (vm_ok t).
Proof.
  constructor.
  - intros a [s live] (own & tabs & M & m & (Hs & HM & Hl) & Hm). cbn [fst snd] in *. cbn [um_fill um_load vm_memory]. destruct (is_word_at a) eqn:Ea.
    2: { cbn [fst]. split; [by exists own, tabs, M, m|done]. }
    apply is_word_at_spec in Ea. cbn [fst snd]. destruct (words m a) as [w|] eqn:Ew.
    { pose proof (fill_present own tabs s M t m a Hs HM Hm Ea ltac:(by eexists)) as E. destruct (user_fault_fill a 2 t s) as [s1 ok1]. cbn [fst] in *. subst s1. split; [by exists own, tabs, M, m|done]. }
    destruct (user_fault_fill a 2 t s) as [s1 ok1] eqn:E. cbn [fst]. destruct (fill_refines own tabs s M t m a 2 s1 ok1 Hs HM Hm Ea Ew E) as (own' & tabs' & Hs1 & [(-> & HM1)|(-> & rw & HM1 & _)]).
    + split; [exists own', tabs', M, m; done|]. intros b w. destruct (is_word_at b) eqn:Eb; [|done]. apply is_word_at_spec in Eb. cbn [fst].
      by rewrite (cpu_load_words own tabs s M _ m), (cpu_load_words own' tabs' s1 M _ m).
    + split.
      { exists own', tabs', (<[dir t := with_page a (Some 0) rw m]> M), (with_page a (Some 0) rw m). split; [|apply lookup_insert_eq]. split; [done|]. split; [done|]. intros r. cbn [snd]. rewrite Hl, lookup_insert_is_Some'. split; [by right|intros [<-|?]; [by eexists|done]]. }
      intros b w. destruct (is_word_at b) eqn:Eb; [|done]. apply is_word_at_spec in Eb. cbn [fst].
      rewrite (cpu_load_words own tabs s M _ m), (cpu_load_words own' tabs' s1 _ _ (with_page a (Some 0) rw m) b Hs1 HM1 (lookup_insert_eq _ _ _)) by done. cbn [with_page words].
      destruct (same_page b a) eqn:Esp; [|done]. intros Hb. exfalso. destruct (HM _ _ Hm) as [Hr Hw]. destruct (Hw a Ea) as [S1 _ _]. destruct (Hw b Eb) as [T1 _ _].
      unfold user_word in *. assert (page_entry (dir t) b s = page_entry (dir t) a s) as Epe.
      { rewrite <- (page_entry_page own s (dir t) b), <- (page_entry_page own s (dir t) a) by (done || apply Ea || apply Eb || apply Hs). unfold page_of. unfold same_page in Esp. by apply Z.eqb_eq in Esp as ->. }
      rewrite Epe in T1. destruct (counted (page_entry (dir t) a s)); congruence.
  - intros a v [s live] x' (own & tabs & M & m & (Hs & HM & Hl) & Hm) Hv. cbn [fst snd] in *. cbn [um_store um_load vm_memory]. destruct (is_word_at a) eqn:Ea; [|done].
    apply is_word_at_spec in Ea. cbn [fst snd].
    assert (forall s0 s1, spaces_ok own tabs s0 -> models own s0 M -> cpu_store (dir t) a v s0 = Some s1 ->
      vm_ok t (s1, live) /\ cpu_load (dir t) a s1 = Some v /\ forall b, b <> a -> word_at b -> cpu_load (dir t) b s1 = words m b) as Hst.
    { intros s0 s1 Hs0 HM0 E. destruct (HM0 _ _ Hm) as [Hr Hw]. destruct (Hw a Ea) as [_ _ S3]. unfold cpu_store in E.
      destruct (has (page_entry (dir t) a s0) PTE_PRESENT && has (page_entry (dir t) a s0) PTE_USER && has (page_entry (dir t) a s0) PTE_RW) eqn:E2; [|done].
      rewrite !andb_true_iff in E2. destruct E2 as [[E2 E3] E4]. destruct (store_models own tabs s0 M (dir t) m a v Hs0 HM0 Hm Ea Hv (S3 E2) E4) as (s2 & E5 & Hs2 & HM2).
      unfold cpu_store in E5. rewrite E2, E3, E4 in E5. cbn [andb] in E5. assert (s1 = s2) as -> by congruence. split; [|split].
      - exists own, tabs, (<[dir t := put a v m]> M), (put a v m). split; [|apply lookup_insert_eq]. split; [done|]. split; [done|]. intros r. cbn [snd]. rewrite Hl, lookup_insert_is_Some'. split; [by right|intros [<-|?]; [by eexists|done]].
      - rewrite (cpu_load_words own tabs s2 _ _ (put a v m) a Hs2 HM2 (lookup_insert_eq _ _ _)) by done. cbn [put words]. by rewrite Z.eqb_refl.
      - intros b Hb Hwb. rewrite (cpu_load_words own tabs s2 _ _ (put a v m) b Hs2 HM2 (lookup_insert_eq _ _ _)) by done. cbn [put words]. by rewrite (proj2 (Z.eqb_neq b a)). }
    intros E. assert (exists s1, kernel_store (dir t) a v s = Some s1 /\ x' = (s1, live)) as (s1 & E1 & ->).
    { destruct (kernel_store (dir t) a v s) as [s1|]; [|done]. injection E as <-. by exists s1. }
    assert (vm_ok t (s1, live) /\ cpu_load (dir t) a s1 = Some v /\ forall b, b <> a -> word_at b -> cpu_load (dir t) b s1 = words m b) as (A1 & A2 & A3).
    { unfold kernel_store in E1. destruct (cpu_store (dir t) a v s) as [s2|] eqn:E2; [injection E1 as <-; by apply (Hst s)|].
      destruct (negb _); [done|]. destruct (paging_resolve_cow (dir t) a s) as [s2 ok2] eqn:E3. destruct ok2; [|done].
      destruct (cow_models own tabs s M (dir t) m a s2 true Hs HM Hm (proj1 Ea) E3) as (C1 & C2 & _). by apply (Hst s2). }
    split; [exact A1|]. cbn [fst]. split; [exact A2|]. intros b Hb. destruct (is_word_at b) eqn:Eb; [|done]. apply is_word_at_spec in Eb.
    rewrite A3 by done. by rewrite (cpu_load_words own tabs s M _ m).
Qed.
End Memory.

(** ** Properties *)

(** C28: When the tasks are walked for what is pending, each of the first 4096 that is
    alive with signals pending keeps exactly those that have a handler; it is ended, with 128
    and the number of the lowest, if one of the others wants the default, and otherwise only
    ever goes from asleep to ready. Tasks with nothing pending and dead ones are left alone but
    for being woken by an end they waited for. KILL cannot be given a handler or ignored, so a
    task it is pending against ends. *)
Theorem pending_signals_acted_on (now : Z) (ts : list proc) (Hn : NoDup (pids ts)) :
  let ts' := signal_take_pending now ts in
  pids ts' = pids ts /\
  (forall j t, ts !! j = Some t -> exists t', ts' !! j = Some t' /\ if Z.of_nat j <? 4096 then taken now t t' else woken t t') /\
  (forall n sig how tr us, Forall (fun t => (sig_handler t).[SIGKILL] = SIG_DFL) us ->
     Forall (fun t => (sig_handler t).[SIGKILL] = SIG_DFL) (signal_disposition n sig how tr us).1) /\
  (forall j t, Z.of_nat j < 4096 -> ts !! j = Some t -> is_dead t = false -> set_in (sig_pending t) SIGKILL = true -> (sig_handler t).[SIGKILL] = SIG_DFL ->
     exists t', ts' !! j = Some t' /\ state t' = TASK_DEAD).
Proof.
  destruct (take_pending_spec now ts Hn) as [H1 H2]. split; [exact H1|]. split; [exact H2|]. split; [intros; by apply disposition_keeps_kill|].
  intros j t Hj Ht Hd Hk Hh. destruct (H2 j t Ht) as (t' & Ht' & Hc). rewrite (proj2 (Z.ltb_lt _ _) Hj) in Hc. exists t'. split; [done|]. destruct Hc as (_ & _ & Hc).
  rewrite Hd in Hc. cbn [orb] in Hc. destruct (Z.eqb_spec (sig_pending t) 0) as [E|_]; [by rewrite E in Hk|]. destruct Hc as [_ [(i & _ & _ & _ & _ & Hdead & _)|(Hno & _)]]; [done|].
  by destruct (Hno SIGKILL ltac:(unfold SIGKILL; lia) Hk).
Qed.

(** A parent asleep on its child, which has INT and TERM pending and handles TERM. *)
Definition a_parent : proc := Proc 4096 1 0 TASK_BLOCKED 0 0 8192 0 0 0 (replicate 32 0) 0.
Definition a_child : proc := Proc 8192 2 1 TASK_READY 0 0 0 0 (bit SIGINT .| bit SIGTERM) 0 (setz (replicate 32 0) SIGTERM USER_CODE_BASE) USER_CODE_BASE.
Lemma pending_signals_acted_on_witness :
  let ts' := signal_take_pending 7 [a_parent; a_child] in
  (state <$> ts') = [TASK_READY; TASK_DEAD] /\ (exit_status <$> ts') = [0; 130] /\ pids ts' = [1; 2].
Proof.
  cbv zeta. split; [vm_compute; reflexivity|]. split; [vm_compute; reflexivity|].
  destruct (pending_signals_acted_on 7 [a_parent; a_child]) as [H _]; [|rewrite H; reflexivity].
  apply (bool_decide_unpack (NoDup (pids [a_parent; a_child]))). vm_compute. exact I.
Defined.


(** C24: Whatever lies on a program's stack and in its registers, the frame a return from
    a handler that is granted leaves in by has the selectors of ring 3, an address that is not
    below user space, interrupts on and no flag set but those a program may choose; a return
    that is refused leaves the registers, the task's signals and the floating point state as
    they were. Either way, whatever was in the program's memory is still there: at most pages
    of the stack that were missing have been given to it. *)
Theorem return_frames_are_the_programs {S : Type} `{UserMemoryLaws S ok} (mask : Z) (t : proc) (r : registers_t) (fpu : list Z) (s : S)
    (b : bool) (t' : proc) (r' : registers_t) (fpu' : list Z) (s' : S)
    (Hs : ok s) (E : signal_return mask t r fpu s = Some (b, t', r', fpu', s')) :
  (forall a w, um_load a s = Some w -> um_load a s' = Some w) /\
  if b then cs r' = USER_CODE_SEL /\ ss r' = USER_DATA_SEL /\ USER_SPACE_BASE <= rip r' /\ user_flags (rflags r') /\ int_no r' = int_no r /\ err_code r' = err_code r /\
    exists img, load_words (rsp r) 64 s' = Some img /\ fpu' = fpu_sanitize mask img
  else t' = t /\ r' = r /\ fpu' = fpu.
Proof. destruct (return_spec mask t r fpu s b t' r' fpu' s' Hs E) as [[_ Hk] Hb]. by split. Qed.

(** A program interrupted with INT pending, its floating point state and a new one's. *)
Definition a_memory : vm (P := pmm) * list Z := (one_space, [first_space]).
#[local] Notation handling := (vm_memory (P := pmm) (a_task first_space)).
Lemma a_memory_ok : vm_ok (a_task first_space) a_memory.
Proof. destruct one_space_models as (own & tabs & M & Hi & HM). by exists own, tabs, M, no_memory. Qed.
Definition interrupted : registers_t := Regs 15 14 13 12 11 10 9 8 7 6 5 4 3 2 1 32 0 (USER_CODE_BASE + 9) USER_CODE_SEL 0x246 (USER_STACK_TOP - 256) USER_DATA_SEL.
Definition with_handlers (pending : Z) : proc :=
  Proc 8192 2 1 TASK_RUNNING 0 0 0 0 pending 0 (setz (setz (replicate 32 0) SIGINT USER_CODE_BASE) SIGTERM (USER_CODE_BASE + 64)) (USER_CODE_BASE + 128).
Definition some_fpu : list Z := seqZ 100 64.
Definition clean_fpu : list Z := setz (setz (replicate 64 0) 0 0x37F) 3 0x1F80.
#[local] Notation delivered := (@signal_deliver _ handling clean_fpu (with_handlers (bit SIGINT)) interrupted some_fpu a_memory).
Definition handler_frame : registers_t :=
  Regs 15 14 13 12 11 10 9 8 7 SIGINT 5 4 3 2 0 32 0 USER_CODE_BASE USER_CODE_SEL 0x246 (USER_STACK_TOP - 256 - 176 - 512 - 8) USER_DATA_SEL.
Lemma delivered_frame : (fun x => (fst (fst (fst (fst x))), snd (fst (fst x)), sig_running (snd (fst (fst (fst x)))))) <$> delivered = Some (GoesOn, handler_frame, bit SIGINT).
Proof. vm_compute. reflexivity. Qed.
Lemma handler_stack_there : (fun x => snd (@stack_is_there _ handling (rsp handler_frame + 8) (u64 (rsp handler_frame + 8 + FPU_AREA + REGISTERS)) (snd x))) <$> delivered = Some true.
Proof. vm_compute. reflexivity. Qed.
Lemma interrupted_words : Forall is_u64 (frame_words interrupted) /\ Forall is_u64 some_fpu.
Proof.
  assert (forall l, forallb (fun x => (0 <=? x) && (x <? 2 ^ 64)) l = true -> Forall is_u64 l) as Hl.
  { intros l Hf. apply list.Forall_forall. intros x Hx. rewrite forallb_forall in Hf. specialize (Hf x (proj1 (list_elem_of_In _ _) Hx)). unfold is_word. lia. }
  split; apply Hl; vm_compute; reflexivity.
Qed.

Lemma delivered_some : exists t' fpu' s1, delivered = Some (GoesOn, t', handler_frame, fpu', s1) /\ vm_ok (a_task first_space) s1 /\
  snd (@stack_is_there _ handling (rsp handler_frame + 8) (u64 (rsp handler_frame + 8 + FPU_AREA + REGISTERS)) s1) = true.
Proof.
  pose proof delivered_frame as Hf. pose proof handler_stack_there as Hst. destruct delivered as [[[[[f t'] r'] fpu'] s1]|] eqn:E; [|discriminate Hf].
  cbn [fmap option_fmap option_map fst snd] in Hf, Hst. injection Hf as -> -> Hrun. injection Hst as Hst. exists t', fpu', s1. split; [done|]. split; [|exact Hst].
  destruct interrupted_words as [Hw1 Hw2]. assert (is_u64 (sig_trampoline (with_handlers (bit SIGINT)))) as Htr by (split; [discriminate|reflexivity]).
  exact (signal_deliver_ok (H0 := vm_memory_laws (a_task first_space)) clean_fpu (with_handlers (bit SIGINT)) interrupted some_fpu a_memory s1 GoesOn t' handler_frame fpu' a_memory_ok Hw1 eq_refl Hw2 Htr E).
Qed.
Definition asking : registers_t := Regs 0 0 0 0 0 0 0 0 0 0 0 0 0 0 0 128 0 0 USER_CODE_SEL 0x202 (rsp handler_frame + 8) USER_DATA_SEL.


(** The state with one signal delivered, or as it was. *)
Definition after_one : vm (P := pmm) * list Z := default a_memory (snd <$> delivered).
Lemma after_one_return : (fun x => (fst (fst (fst (fst x))), snd (fst (fst x)))) <$> @signal_return _ handling 0xFFFF (with_handlers 0) asking clean_fpu after_one =
  Some (true, given_back interrupted asking).
Proof. vm_compute. reflexivity. Qed.
Lemma after_one_ok : vm_ok (a_task first_space) after_one.
Proof. unfold after_one. destruct delivered_some as (t' & fpu' & s1 & E & Hok & _). rewrite E. exact Hok. Qed.
Lemma return_frames_are_the_programs_witness :
  exists t' fpu' s', @signal_return _ handling 0xFFFF (with_handlers 0) asking clean_fpu after_one = Some (true, t', given_back interrupted asking, fpu', s') /\
    cs (given_back interrupted asking) = USER_CODE_SEL /\ user_flags (rflags (given_back interrupted asking)).
Proof.
  pose proof after_one_return as Hr. destruct (@signal_return _ handling 0xFFFF (with_handlers 0) asking clean_fpu after_one) as [[[[[b t'] r'] fpu'] s']|] eqn:E; [|discriminate Hr].
  cbn [fmap option_fmap option_map fst snd] in Hr. injection Hr as -> ->. exists t', fpu', s'. split; [reflexivity|].
  pose proof (return_frames_are_the_programs (ok := vm_ok (a_task first_space)) (H0 := vm_memory_laws (a_task first_space)) 0xFFFF (with_handlers 0) asking clean_fpu after_one true t' (given_back interrupted asking) fpu' s' after_one_ok E) as (_ & H1 & _ & _ & H2 & _).
  split; [exact H1|exact H2].
Defined.

(** A return marks as finished the lowest signal that has a handler running, whichever handler
    it was that returned: TERM's handler interrupting INT's, its return leaves TERM marked as
    running and INT not, so INT's handler can be entered again on top of itself. *)
Example wrong_handler_finished :
  (fun x => sig_running (snd (fst (fst (fst x))))) <$>
    @signal_return _ handling 0xFFFF (with_signals 0 (bit SIGINT .| bit SIGTERM) (sig_handler (with_handlers 0)) (USER_CODE_BASE + 128) (with_handlers 0)) asking clean_fpu after_one
  = Some (bit SIGTERM).
Proof. vm_compute. reflexivity. Qed.

(** An address no processor can return to passes the check of the frame: there is a lower
    bound for it and no upper one. *)
Definition bad_frame : option (vm (P := pmm) * list Z) := @um_store _ handling (rsp asking + FPU_AREA + 8 * 17) (2 ^ 63) after_one.
Example address_not_canonical :
  (fun x => (fst (fst (fst (fst x))), rip (snd (fst (fst x))))) <$> (default None ((fun s => @signal_return _ handling 0xFFFF (with_handlers 0) asking clean_fpu s) <$> bad_frame))
  = Some (true, 2 ^ 63).
Proof. vm_compute. reflexivity. Qed.

(** Near the top of the address space the end of what is asked about wraps, and no page is
    looked at. *)
Example nothing_looked_at : snd (@stack_is_there _ handling (2 ^ 64 - 688) (u64 (2 ^ 64 - 688 + FPU_AREA + REGISTERS)) a_memory) = true.
Proof. vm_compute. reflexivity. Qed.
