(* ===== verification/Sched.v ===== *)
(** The scheduler (kernel/sched.c) with sleeping and waking (kernel/wait.c) and the calls that
    end tasks (kernel/syscall.c): the ring of tasks, what each processor is running, and the
    switch from one to the next. *)
From S2P Require Import Prelude Pmm Frames Paging User Signal.

Definition SMP_MAX_CPUS : Z := 16.
Definition STACK_SIZE : Z := 32768.
Definition REAP_GRACE : Z := 1000.
Definition GDT_KERNEL_CODE : Z := 0x08.
Definition GDT_KERNEL_DATA : Z := 0x10.
Definition TASK_CWD_MAX : Z := 128.

(** What a task that has never run finds in its floating point registers, as words. *)
Definition fpu_blank : list Z := setz (setz (replicate 64 0) 0 0x037F) 3 (0x1F80 .| (0xFFFF .<< 32)).

(** A task's record: what signals and sleeping know of it, what it keeps of its memory, and
    what the scheduler keeps. [frame] is the interrupt frame at [rsp] on its kernel stack,
    which is the task's alone. *)
Record task := Task {
  p_of : proc; m_of : task_t; krsp : Z; frame : registers_t; stack_base : Z; fpu : list Z; reaped : bool; slices : Z;
  is_user : bool; cwd : list Z; on_cpu : Z; next_of : Z }.
Definition with_proc (p : proc) (t : task) : task :=
  Task p (m_of t) (krsp t) (frame t) (stack_base t) (fpu t) (reaped t) (slices t) (is_user t) (cwd t) (on_cpu t) (next_of t).
Definition with_memory (m : task_t) (t : task) : task :=
  Task (p_of t) m (krsp t) (frame t) (stack_base t) (fpu t) (reaped t) (slices t) (is_user t) (cwd t) (on_cpu t) (next_of t).
Definition with_context (r : Z) (f : registers_t) (x : list Z) (t : task) : task :=
  Task (p_of t) (m_of t) r f (stack_base t) x (reaped t) (slices t) (is_user t) (cwd t) (on_cpu t) (next_of t).
Definition with_reaped (t : task) : task :=
  Task (p_of t) (m_of t) (krsp t) (frame t) (stack_base t) (fpu t) true (slices t) (is_user t) (cwd t) (on_cpu t) (next_of t).
Definition with_cpu (st : task_state) (c slices : Z) (t : task) : task :=
  Task (with_state st (wait_on (p_of t)) (wake_at (p_of t)) (p_of t)) (m_of t) (krsp t) (frame t) (stack_base t) (fpu t) (reaped t) slices (is_user t) (cwd t) c (next_of t).
Definition with_next (n : Z) (t : task) : task :=
  Task (p_of t) (m_of t) (krsp t) (frame t) (stack_base t) (fpu t) (reaped t) (slices t) (is_user t) (cwd t) (on_cpu t) n.
Definition pid_of (t : task) : Z := pid (p_of t).
Definition st (t : task) : task_state := state (p_of t).
Definition with_st (x : task_state) (t : task) : task := with_cpu x (on_cpu t) (slices t) t.

(** A processor: what it is running and its idle task, the floating point registers it
    has live, the space it has loaded, and the stack its next interrupt lands on. *)
Record cpu := Cpu { current_of : Z; idle_of : Z; live : list Z; cr3 : Z; tss : Z }.
#[export] Instance cpu_inhabited : Inhabited cpu := populate (Cpu 0 0 [] 0 0).

(** The records by their address; a record that was given back is not there. *)
Record sched := Sched { tasks : gmap Z task; ring_head : Z; next_pid : Z; started : bool; cpus : list cpu }.
Definition with_tasks (m : gmap Z task) (s : sched) : sched := Sched m (ring_head s) (next_pid s) (started s) (cpus s).
Definition upd (a : Z) (f : task -> task) (s : sched) : sched := with_tasks (alter f a (tasks s)) s.
Definition cpu_at (s : sched) (c : Z) : cpu := cpus s !!! Z.to_nat c.
Definition with_cpus (l : list cpu) (s : sched) : sched := Sched (tasks s) (ring_head s) (next_pid s) (started s) l.
Definition upd_cpu (c : Z) (f : cpu -> cpu) (s : sched) : sched := with_cpus (alter f (Z.to_nat c) (cpus s)) s.
Definition cur (s : sched) (c : Z) : Z := current_of (cpu_at s c).

Definition sched_init (s : sched) : sched := Sched (tasks s) 0 1 false (cpus s).

(** ** The ring *)

Section Walks.
Context (s : sched).

(** The records from one on, until the head comes round again. *)
Fixpoint ring_from (fuel : nat) (p : Z) : option (list Z) :=
  match fuel with
  | O => None
  | S fuel => t ← tasks s !! p; if next_of t =? ring_head s then Some [p] else l ← ring_from fuel (next_of t); Some (p :: l)
  end.
Definition walks : nat := S (size (tasks s)).
Definition ring : option (list Z) := if ring_head s =? 0 then Some [] else ring_from walks (ring_head s).
End Walks.

Definition task_count (s : sched) : option Z := l ← ring s; Some (zlen l).
Definition procs (s : sched) (l : list Z) : option (list proc) := mapM (fun a => p_of <$> tasks s !! a) l.
(** The records of the ring as they are after something was done to what signals and sleeping
    know of them. *)
Definition put_procs (l : list Z) (ps : list proc) (s : sched) : sched :=
  foldl (fun s ap => upd ap.1 (with_proc ap.2) s) s (zip l ps).
Definition on_procs {A} (f : list proc -> list proc * A) (s : sched) : option (sched * A) :=
  l ← ring s; ps ← procs s l; let (ps, x) := f ps in Some (put_procs l ps s, x).
Definition on_procs_ (f : list proc -> list proc) (s : sched) : option sched :=
  fst <$> on_procs (fun ps => (f ps, tt)) s.
Definition look (f : list proc -> option proc) (s : sched) : option (option proc) :=
  l ← ring s; ps ← procs s l; Some (f ps).
Definition by_pid (pid : Z) (s : sched) : option (option proc) := look (task_by_pid pid) s.

Definition task_alive (pid : Z) (s : sched) : option bool := t ← by_pid pid s; Some (match t with Some t => negb (is_dead t) | None => false end).
Definition task_blocked_count (s : sched) : option Z :=
  l ← ring s; ps ← procs s l; Some (zlen (filter (fun p => state p = TASK_BLOCKED) ps)).

(** The last of the ring, whose next is the head. *)
Fixpoint tail_from (fuel : nat) (s : sched) (p : Z) : option Z :=
  match fuel with
  | O => None
  | S fuel => t ← tasks s !! p; if next_of t =? ring_head s then Some p else tail_from fuel s (next_of t)
  end.
(** A new record onto the end of the ring. *)
Definition ring_insert (a : Z) (s : sched) : option sched :=
  if ring_head s =? 0 then
    let s := upd a (with_next a) s in Some (Sched (tasks s) a (next_pid s) (started s) (cpus s))
  else
    p ← tail_from (walks s) s (ring_head s);
    Some (upd p (with_next a) (upd a (with_next (ring_head s)) s)).

(** ** New tasks *)

(** strncpy into the 128 bytes, the last left for the terminator. *)
Definition cwd_copy (from : list Z) : list Z := take (Z.to_nat (TASK_CWD_MAX - 1)) from.
Definition inherit_cwd (parent : option task) : list Z :=
  match parent with Some p => if bool_decide (cwd p = []) then [47] else cwd_copy (cwd p) | None => [47] end.
(** The frame an interrupt return goes back through at the start. *)
Definition start_frame (entry code data sp : Z) : registers_t :=
  Regs 0 0 0 0 0 0 0 0 0 0 0 0 0 0 0 32 0 entry code 0x202 sp data.
Definition new_proc (a pid parent : Z) (handlers : list Z) (trampoline : Z) : proc :=
  Proc a pid parent TASK_READY 0 0 0 0 0 0 handlers trampoline.
Definition no_handlers : list Z := replicate (Z.to_nat SIG_MAX) SIG_DFL.
Definition no_memory (dir zlo zhi : Z) : task_t := User.Task dir 0 0 (replicate (Z.to_nat VMA_MAX) no_vma) 0 zlo zhi.
(** Where the stack starts, and where the frame lies under it. *)
Definition stack_start (stack : Z) : Z := u64 (stack + STACK_SIZE) .& u64 (Z.lnot 0xF).
Definition frame_at (stack : Z) : Z := stack_start stack - REGISTERS.

(** A record in place at the address [kcalloc] answered, with the next number. *)
Definition joined (a : Z) (t : Z -> task) (s : sched) : option (sched * Z) :=
  let pid := next_pid s in
  s ← ring_insert a (Sched (<[a := t pid]> (tasks s)) (ring_head s) (u32 (pid + 1)) (started s) (cpus s));
  Some (s, a).

(** [a] and [stack] are what the heap answered, 0 when it had no room; the address of the
    new record, or 0. [me] is the processor the caller is on. *)
Definition task_create (me a stack entry : Z) (s : sched) : option (sched * Z) :=
  if (a =? 0) || (stack =? 0) then Some (s, 0) else
  joined a (fun pid =>
    Task (new_proc a pid 0 no_handlers 0) (no_memory 0 0 0) (frame_at stack)
      (start_frame entry GDT_KERNEL_CODE GDT_KERNEL_DATA (stack_start stack))
      stack fpu_blank false 0 false (inherit_cwd (tasks s !! cur s me)) (-1) 0) s.

Definition task_create_user (me a stack dir entry stack_top zlo zhi : Z) (s : sched) : option (sched * Z) :=
  if (a =? 0) || (stack =? 0) then Some (s, 0) else
  joined a (fun pid =>
    Task (new_proc a pid 0 no_handlers 0) (no_memory dir zlo zhi) (frame_at stack)
      (start_frame entry USER_CODE_SEL USER_DATA_SEL stack_top)
      stack fpu_blank false 0 true (inherit_cwd (tasks s !! cur s me)) (-1) 0) s.

Definition with_rax (x : Z) (r : registers_t) : registers_t :=
  Regs (r15 r) (r14 r) (r13 r) (r12 r) (r11 r) (r10 r) (r9 r) (r8 r) (rbp r) (rdi r) (rsi r) (rdx r) (rcx r) (rbx r) x
       (int_no r) (err_code r) (rip r) (cs r) (rflags r) (Signal.rsp r) (ss r).

Definition task_fork (me a stack dir : Z) (f : registers_t) (child_rax : Z) (s : sched) : option (sched * Z) :=
  if (a =? 0) || (stack =? 0) then Some (s, 0) else
  match tasks s !! cur s me with
  | Some parent =>
      let regs := live (cpu_at s me) in
      let s := upd (cur s me) (with_context (krsp parent) (frame parent) regs) s in
      joined a (fun pid =>
        Task (new_proc a pid (pid_of parent) (sig_handler (p_of parent)) (sig_trampoline (p_of parent)))
          (User.Task dir (brk (m_of parent)) (brk_base (m_of parent)) (vma (m_of parent)) (nvma (m_of parent)) (zero_lo (m_of parent)) (zero_hi (m_of parent)))
          (frame_at stack) (with_rax child_rax f) stack regs false 0 true (cwd parent) (-1) 0) s
  | None =>
      joined a (fun pid =>
        Task (new_proc a pid 0 no_handlers 0) (no_memory dir 0 0) (frame_at stack) (with_rax child_rax f) stack fpu_blank false 0 true [47] (-1) 0) s
  end.

(** A processor's own stack recognised as its idle task; [None] is the panic for want of a
    record. *)
Definition sched_adopt_ap (c a stack : Z) (s : sched) : option sched :=
  if (SMP_MAX_CPUS <=? c) || negb (idle_of (cpu_at s c) =? 0) then Some s else
  if a =? 0 then None else
  let t := Task (with_state TASK_RUNNING 0 0 (new_proc a (next_pid s) 0 no_handlers 0)) (no_memory 0 0 0) 0 (start_frame 0 0 0 0) stack fpu_blank false 0 false [47] c 0 in
  let s1 := Sched (<[a := t]> (tasks s)) (ring_head s) (u32 (next_pid s + 1)) (started s) (cpus s) in
  let mark := upd_cpu c (fun x => Cpu a a (live x) (cr3 x) (tss x)) in
  if ring_head s =? 0 then
    let s2 := upd a (with_next a) s1 in Some (mark (Sched (tasks s2) a (next_pid s2) (started s2) (cpus s2)))
  else
    h ← tasks s !! ring_head s;
    Some (mark (upd (ring_head s) (with_next a) (upd a (with_next (next_of h)) s1))).

(** The idle task of the boot processor, and the switch turned on; [None] is a panic. *)
Definition sched_start (a stack entry : Z) (s : sched) : option sched :=
  if ring_head s =? 0 then None else
  '(s, i) ← task_create 0 a stack entry s;
  if i =? 0 then None else
  let s := upd_cpu 0 (fun x => Cpu (current_of x) i (live x) (cr3 x) (tss x)) s in
  Some (Sched (tasks s) (ring_head s) (next_pid s) true (cpus s)).

(** ** Choosing *)

Definition is_idle (s : sched) (a : Z) : bool := existsb (fun c => idle_of c =? a) (cpus s).
(** The end of a sleep, and of a wait with a deadline, which leaves the channel set. *)
Definition release (now : Z) (t : task) : task :=
  let p := p_of t in
  if bool_decide (state p = TASK_SLEEPING) && (wake_at p <=? now) then with_proc (with_state TASK_READY (wait_on p) (wake_at p) p) t else
  if bool_decide (state p = TASK_BLOCKED) && negb (wake_at p =? 0) && (wake_at p <=? now) then with_proc (with_state TASK_READY (wait_on p) 0 p) t else t.
Definition wants_to_run (t : task) : bool := bool_decide (st t = TASK_READY) || bool_decide (st t = TASK_RUNNING).
(** Whether a processor may take a task. *)
Definition may_take (s : sched) (me a : Z) (t : task) : bool :=
  wants_to_run t && negb (is_idle s a) && negb ((0 <=? on_cpu t) && negb (on_cpu t =? me)) && negb (negb (me =? 0) && negb (is_user t)).

(** One lap from [p] until [start] comes round again; 0 when nothing wanted the processor. *)
Fixpoint pick_from (fuel : nat) (now me start p : Z) (s : sched) : option (sched * Z) :=
  match fuel with
  | O => None
  | S fuel =>
      t ← tasks s !! p;
      let t := release now t in
      let s := upd p (release now) s in
      if may_take s me p t then Some (s, p) else
      if (next_of t =? 0) || (next_of t =? start) then Some (s, 0) else pick_from fuel now me start (next_of t) s
  end.
(** [work]: whether a piece of work handed to this processor is waiting or under way. *)
Definition pick_next (now me : Z) (work : bool) (from : Z) (s : sched) : option (sched * Z) :=
  start ← (if from =? 0 then Some (ring_head s) else next_of <$> tasks s !! from);
  if start =? 0 then Some (s, 0) else
  let idle := idle_of (cpu_at s me) in
  if negb (me =? 0) && work && negb (idle =? 0) then Some (s, idle) else
  '(s, p) ← pick_from (walks s) now me start start s;
  Some (s, if negb (p =? 0) then p else if negb (idle =? 0) then idle else from).

(** ** The switch *)

Definition can_collect (now me a : Z) (t : task) (s : sched) : bool :=
  if negb (is_dead (p_of t)) || (a =? cur s me) || (a =? ring_head s) then false else
  if 0 <=? on_cpu t then false else
  reaped t || (negb (died_at (p_of t) =? 0) && (u64 (died_at (p_of t) + REAP_GRACE) <? now)).

(** A lap of the ring, taking out what can be collected; with the spaces freed. *)
Fixpoint reap_from (fuel : nat) (now me p : Z) (freed : list Z) (s : sched) : option (sched * list Z) :=
  match fuel with
  | O => Some (s, freed)
  | S fuel =>
      t ← tasks s !! p;
      let n := next_of t in
      '(s, freed, p) ←
        (if n =? p then Some (s, freed, n) else
         u ← tasks s !! n;
         if can_collect now me n u s then
           let s := upd p (with_next (next_of u)) s in
           let freed := if dir (m_of u) =? 0 then freed else freed ++ [dir (m_of u)] in
           Some (with_tasks (delete n (tasks s)) s, freed, p)
         else Some (s, freed, n));
      if p =? ring_head s then Some (s, freed) else reap_from fuel now me p freed s
  end.
Definition reap (now me : Z) (s : sched) : option (sched * list Z) := reap_from 4096 now me (ring_head s) [] s.

(** What the processor goes on from, with the spaces given back; or the panic of a task
    that ran off the end of its stack. *)
Inductive switched := Resumes (s : sched) (sp : Z) (freed : list Z) | Panics.

Section Switch.
Context (kernel_directory : Z).

(** The processor handed to a task: its registers, stack and space. *)
Definition take_over (me a : Z) (s : sched) : option sched :=
  t ← tasks s !! a;
  let s := upd a (with_cpu TASK_RUNNING me (u32 (slices t + 1))) s in
  Some (upd_cpu me (fun x =>
    Cpu a (idle_of x) (fpu t) (if dir (m_of t) =? 0 then kernel_directory else dir (m_of t)) (u64 (stack_base t + STACK_SIZE))) s).

(** The task put down: its frame and registers saved, and the processor let go of. *)
Definition put_down (me sp : Z) (f : registers_t) (s : sched) : sched :=
  upd (cur s me) (fun t =>
    let t := with_context sp f (live (cpu_at s me)) t in
    with_cpu (if bool_decide (st t = TASK_RUNNING) then TASK_READY else st t) (-1) (slices t) t) s.

(** [painted]: whether the word at the bottom of the running task's stack is as it was
    painted. [sp] and [f] are where the interrupt's frame lies and what it holds. *)
Definition scheduler_switch (now me : Z) (work painted : bool) (sp : Z) (f : registers_t) (s : sched) : option switched :=
  if negb (started s) || (ring_head s =? 0) then Some (Resumes s sp []) else
  s ← on_procs_ (signal_take_pending now) s;
  if negb (cur s me =? 0) && negb (bool_decide (is_Some (tasks s !! cur s me))) then None else
  if negb (cur s me =? 0) && negb painted then Some Panics else
  let s := if cur s me =? 0 then s else put_down me sp f s in
  '(s, p) ← pick_next now me work (cur s me) s;
  if p =? 0 then Some (Resumes s sp []) else
  s ← take_over me p s;
  '(s, freed) ← reap now me s;
  t ← tasks s !! p;
  Some (Resumes s (krsp t) freed).
End Switch.

(** ** Sleeping, waiting and ending *)

Definition set_proc (f : proc -> proc) (t : task) : task := with_proc (f (p_of t)) t.

(** What [task_sleep] leaves for the switch that follows it. *)
Definition task_sleep (now hz me ms : Z) (s : sched) : sched :=
  let hz := if hz =? 0 then 100 else hz in
  let t := (ms * hz + 999) / 1000 in
  let t := if negb (ms =? 0) && (t =? 0) then 1 else t in
  upd (cur s me) (set_proc (fun p => with_state TASK_SLEEPING (wait_on p) (u64 (now + t)) p)) s.

(** [wait_on] up to its yield, and from there. *)
Definition wait_begin (now hz me channel timeout_ms : Z) (s : sched) : sched :=
  if (cur s me =? 0) || (channel =? 0) then s else
  upd (cur s me) (set_proc (fun p =>
    with_state TASK_BLOCKED channel (if timeout_ms =? 0 then 0 else u64 (now + u32 (timeout_ms * hz) / 1000 + 1)) p)) s.
Definition wait_end (me : Z) (s : sched) : option (sched * bool) :=
  t ← tasks s !! cur s me;
  Some (upd (cur s me) (set_proc (fun p => with_state (state p) 0 (wake_at p) p)) s, wait_on (p_of t) =? 0).
Definition sched_wake (channel : Z) (only_one : bool) (s : sched) : option sched := on_procs_ (wake channel only_one) s.

(** The end of the running task, up to the yield it does not come back from. *)
Definition task_exit_with (now me status : Z) (s : sched) : option sched :=
  if cur s me =? 0 then Some s else
  sched_wake (cur s me) false (upd (cur s me) (set_proc (dead status now)) s).

(** [task_wait], each time it looks at the task: the answer, or that it sleeps on it. The
    task is found by its number once, and looked at where it was found from there. *)
Inductive wait_answer := Answers (status : Z) | Sleeps (task : Z).
Definition wait_look (now hz me a : Z) (s : sched) : option (sched * wait_answer) :=
  t ← tasks s !! a;
  if is_dead (p_of t) then Some (upd a with_reaped s, Answers (exit_status (p_of t)))
  else Some (wait_begin now hz me a 1000 s, Sleeps a).
Definition task_wait (now hz me pid : Z) (s : sched) : option (sched * wait_answer) :=
  t ← by_pid pid s;
  match t with None => Some (s, Answers (-1)) | Some t => wait_look now hz me (addr t) s end.
Definition task_wait_again (now hz me pid a : Z) (s : sched) : option (sched * wait_answer) :=
  '(s, woken) ← wait_end me s;
  t ← by_pid pid s;
  if negb woken && match t with None => true | _ => false end then Some (s, Answers (-1)) else wait_look now hz me a s.

(** Whether a program may end or signal a task (kernel/syscall.c), and the two calls. *)
Definition may_end (pid : Z) (s : sched) : option bool :=
  t ← by_pid pid s;
  match t with
  | None => Some false
  | Some p => t ← tasks s !! addr p; Some (negb (is_dead p) && is_user t && negb (is_idle s (addr p)))
  end.
Definition answered (r : sched * bool) : sched * Z := (r.1, if r.2 then 0 else -1).
Definition sys_kill (now me n : Z) (s : sched) : option (sched * Z) :=
  if match tasks s !! cur s me with Some t => pid_of t =? n | None => false end then Some (s, -1) else
  ok ← may_end n s;
  if negb ok then Some (s, -1) else s0 ← on_procs_ (signal_end_task now n (-1)) s; Some (s0, 0).
Definition sys_sigsend (n sig : Z) (s : sched) : option (sched * Z) :=
  ok ← may_end n s;
  if negb ok then Some (s, -1) else answered <$> on_procs (signal_send n sig) s.
Definition sys_signal (me sig how trampoline : Z) (s : sched) : option (sched * Z) :=
  match tasks s !! cur s me with
  | None => Some (s, -1)
  | Some t => answered <$> on_procs (signal_disposition (pid_of t) sig how trampoline) s
  end.

(** A task's floating point state as a new program's, the live registers too when it is
    the one running here. *)
Definition task_fpu_reset (me a : Z) (s : sched) : sched :=
  if a =? 0 then s else
  let s := upd a (fun t => with_context (krsp t) (frame t) fpu_blank t) s in
  if a =? cur s me then upd_cpu me (fun x => Cpu (current_of x) (idle_of x) fpu_blank (cr3 x) (tss x)) s else s.
(** [sys_exec] (kernel/syscall.c) from where nothing can fail any more: the running task on
    its new space, with the space it leaves, which is freed. *)
Definition exec_replace (me dir zlo zhi : Z) (s : sched) : option (sched * Z) :=
  t ← tasks s !! cur s me;
  let old := User.dir (m_of t) in
  let s := upd (cur s me) (with_memory (User.Task dir 0 0 (vma (m_of t)) (nvma (m_of t)) zlo zhi)) s in
  let s := upd_cpu me (fun x => Cpu (current_of x) (idle_of x) (live x) dir (tss x)) s in
  s ← on_procs_ (signal_forget_handlers (pid_of t)) s;
  let s := task_fpu_reset me (cur s me) s in
  let s := upd (cur s me) (fun t => with_memory (user_drop_mappings (m_of t)) t) s in
  Some (s, old).
