(* ===== verification/Turns.v ===== *)
(** What the scheduler keeps to, whatever the tasks do: the ring stays a ring, a task runs on
    one processor at most and goes on as it was left, what is given back is run and loaded nowhere,
    and a task that is ready has its turn. *)
From S2P Require Import Prelude Pmm Frames Paging User Signal Sched.

(** ** The ring as a list *)

Fixpoint chain (m : gmap Z task) (l : list Z) (stop : Z) : Prop :=
  match l with
  | [] => True
  | a :: l => (exists t, m !! a = Some t /\ next_of t = hd stop l) /\ chain m l stop
  end.
Record ring_ok (s : sched) (l : list Z) : Prop := {
  ro_nodup : NoDup l;
  ro_all : forall a, a ∈ l <-> is_Some (tasks s !! a);
  ro_head : ring_head s = hd 0 l;
  ro_chain : chain (tasks s) l (ring_head s);
  ro_zero : 0 ∉ l }.

Lemma ring_size s l : ring_ok s l -> size (tasks s) = length l.
Proof.
  intros H. rewrite <- size_dom. rewrite <- (size_list_to_set (C := gset Z) l) by apply H. f_equal. apply set_eq. intros a.
  rewrite elem_of_dom, elem_of_list_to_set. symmetry. apply H.
Qed.
Lemma ring_lookup s l a : ring_ok s l -> a ∈ l -> exists t, tasks s !! a = Some t.
Proof. intros H Ha. by apply H in Ha. Qed.
Lemma ring_member s l a t : ring_ok s l -> tasks s !! a = Some t -> a ∈ l.
Proof. intros H Ha. apply H. by eexists. Qed.
Lemma ring_head_zero s l : ring_ok s l -> ring_head s = 0 <-> l = [].
Proof.
  intros H. rewrite (ro_head _ _ H). destruct l as [|a l]; [done|]. cbn. split; [|done]. intros ->. destruct (ro_zero _ _ H). by left.
Qed.

Lemma links_app m l1 l2 stop : chain m (l1 ++ l2) stop <-> chain m l1 (hd stop l2) /\ chain m l2 stop.
Proof.
  induction l1 as [|a l1 IH]; cbn [app chain]; [tauto|]. rewrite IH. destruct l1 as [|b l1]; cbn; tauto.
Qed.
Lemma chain_ext m m' l stop : (forall a t, a ∈ l -> m !! a = Some t -> exists t', m' !! a = Some t' /\ next_of t' = next_of t) -> chain m l stop -> chain m' l stop.
Proof.
  induction l as [|a l IH]; intros Hm; cbn [chain]; [done|]. intros [(t & Ht & Hn) Hc]. split; [|apply IH; [|done]; intros; eapply Hm; [by right|done]].
  destruct (Hm a t ltac:(by left) Ht) as (t' & Ht' & E). exists t'. split; [done|]. by rewrite E.
Qed.

Lemma ring_from_spec s l p fuel : chain (tasks s) (p :: l) (ring_head s) -> ring_head s ∉ l -> (length l < fuel)%nat -> ring_from s fuel p = Some (p :: l).
Proof.
  revert p fuel. induction l as [|b l IH]; intros p fuel [(t & Ht & Hn) Hc] Hh Hf; (destruct fuel as [|fuel]; [cbn in Hf; lia|]); cbn [ring_from]; rewrite Ht; cbn [mbind option_bind]; cbn in Hn; rewrite Hn.
  - by rewrite Z.eqb_refl.
  - apply list.not_elem_of_cons in Hh as [Hh1 Hh2]. rewrite (proj2 (Z.eqb_neq _ _)) by congruence. rewrite IH; [done|done|done|cbn in Hf; lia].
Qed.
Lemma ring_spec s l : ring_ok s l -> ring s = Some l.
Proof.
  intros H. unfold ring. destruct (Z.eqb_spec (ring_head s) 0) as [E|E].
  - apply (ring_head_zero _ _ H) in E. by subst.
  - destruct l as [|a l]; [by rewrite (ro_head _ _ H) in E|]. pose proof (ro_head _ _ H) as Hh. cbn in Hh.
    rewrite Hh. apply ring_from_spec; [apply H|rewrite Hh; by apply (list.NoDup_cons_1_1 _ _), H|]. unfold walks. rewrite (ring_size _ _ H). cbn. lia.
Qed.
Lemma tail_from_spec s l p a fuel : chain (tasks s) (l ++ [a]) (ring_head s) -> hd a l = p -> ring_head s ∉ tail (l ++ [a]) -> (length l < fuel)%nat -> tail_from fuel s p = Some a.
Proof.
  revert p fuel. induction l as [|b l IH]; intros p fuel Hc <- Hh Hf; (destruct fuel as [|fuel]; [cbn in Hf; lia|]); cbn [app chain tail_from] in *; destruct Hc as [(t & Ht & Hn) Hc]; cbn in *; rewrite Ht; cbn [mbind option_bind]; rewrite Hn.
  - by rewrite Z.eqb_refl.
  - assert (hd (ring_head s) (l ++ [a]) ∈ l ++ [a]) as Hin by (destruct l; by left).
    rewrite (proj2 (Z.eqb_neq _ _)) by (intros E; by rewrite E in Hin).
    apply IH; [done|by destruct l| |lia]. intros Hi. apply Hh. destruct l; [inversion Hi|]. cbn in *. by right.
Qed.

(** A task changed in nothing but its place in the ring. *)
Definition relinked (t t' : task) : Prop := t' = with_next (next_of t') t.
Lemma relinked_refl t : relinked t t.
Proof. by destruct t. Qed.
Lemma relinked_next n t : relinked t (with_next n t).
Proof. by destruct t. Qed.

Lemma upd_lookup s a f b : tasks (upd a f s) !! b = if decide (a = b) then f <$> tasks s !! b else tasks s !! b.
Proof. unfold upd. cbn. destruct (decide (a = b)) as [->|]; [by rewrite lookup_alter_eq|by rewrite lookup_alter_ne]. Qed.
Lemma is_Some_upd s a f b : is_Some (tasks (upd a f s) !! b) <-> is_Some (tasks s !! b).
Proof. rewrite upd_lookup. destruct (decide (a = b)); [apply fmap_is_Some|done]. Qed.
(** Changes that keep each record's place keep the ring. *)
Lemma ring_ext s s' l :
  (forall a t, tasks s !! a = Some t -> exists t', tasks s' !! a = Some t' /\ next_of t' = next_of t) -> (forall a, is_Some (tasks s' !! a) -> is_Some (tasks s !! a)) ->
  ring_head s' = ring_head s -> ring_ok s l -> ring_ok s' l.
Proof.
  intros Hm Hd Hh H. constructor; [apply H| |by rewrite Hh; apply H| |apply H].
  - intros a. rewrite (ro_all _ _ H). split; [intros [t Ht]; destruct (Hm _ _ Ht) as (t' & ? & _); by exists t'|apply Hd].
  - rewrite Hh. apply chain_ext with (tasks s); [|apply H]. intros; eauto.
Qed.

(** A record put into the ring after another. *)
Definition linked_after (q a n : Z) (t : task) (s : sched) : sched :=
  upd q (with_next a) (upd a (with_next n) (with_tasks (<[a := t]> (tasks s)) s)).
Lemma linked_after_lookup q a n t s b : q <> a -> tasks (linked_after q a n t s) !! b =
  if decide (b = a) then Some (with_next n t) else if decide (b = q) then with_next a <$> tasks s !! b else tasks s !! b.
Proof.
  intros Hq. unfold linked_after. rewrite !upd_lookup. cbn [tasks with_tasks]. destruct (decide (b = a)) as [->|].
  - rewrite (decide_False (P := q = a)), decide_True by done. by rewrite lookup_insert_eq.
  - rewrite (decide_False (P := a = b)) by congruence. rewrite lookup_insert_ne by done. destruct (decide (q = b)), (decide (b = q)); congruence.
Qed.
Lemma linked_after_ring s l1 q l2 a t : ring_ok s (l1 ++ q :: l2) -> tasks s !! a = None -> a <> 0 ->
  ring_ok (linked_after q a (hd (ring_head s) l2) t s) (l1 ++ q :: a :: l2).
Proof.
  intros H Ha Hz. assert (a ∉ l1 ++ q :: l2) as Hal by (rewrite (ro_all _ _ H), Ha; by intros [? [=]]).
  assert (q <> a) as Hqa by (intros ->; apply Hal, elem_of_app; right; by left).
  pose proof (linked_after_lookup q a (hd (ring_head s) l2) t s) as Hl.
  assert (l1 ++ q :: a :: l2 ≡ₚ a :: l1 ++ q :: l2) as Hp by solve_Permutation.
  pose proof (ro_nodup _ _ H) as Hnd. constructor.
  - rewrite Hp. by apply list.NoDup_cons.
  - intros b. rewrite Hp, list.elem_of_cons, Hl, (ro_all _ _ H) by done. destruct (decide (b = a)) as [->|]; [split; [by eexists|by left]|].
    destruct (decide (b = q)); rewrite ?fmap_is_Some; (split; [by intros [?|?]|by right]).
  - change (ring_head s = hd 0 (l1 ++ q :: a :: l2)). rewrite (ro_head _ _ H). by destruct l1.
  - change (chain (tasks (linked_after q a (hd (ring_head s) l2) t s)) (l1 ++ q :: a :: l2) (ring_head s)).
    pose proof (ro_chain _ _ H) as Hc. apply links_app in Hc as [Hc1 [(u & Hu & Hn) Hc2]]. apply list.NoDup_app in Hnd as (_ & Hd1 & Hd2). apply list.NoDup_cons in Hd2 as [Hd2 _].
    assert (forall b v, b <> a -> b <> q -> tasks s !! b = Some v -> exists t', tasks (linked_after q a (hd (ring_head s) l2) t s) !! b = Some t' /\ next_of t' = next_of v) as Hk.
    { intros b v Hb1 Hb2 Hv. exists v. split; [|done]. by rewrite Hl, !decide_False. }
    apply links_app. split; [|cbn [chain hd]; split_and!].
    + apply chain_ext with (tasks s); [|done]. intros b v Hb Hv. apply Hk; [|intros ->; apply (Hd1 q Hb); by left|done]. intros ->. apply Hal, elem_of_app. by left.
    + eexists. rewrite Hl, decide_False, decide_True, Hu by done. done.
    + eexists. rewrite Hl, decide_True by done. done.
    + apply chain_ext with (tasks s); [|done]. intros b v Hb Hv. apply Hk; [|by intros ->|done]. intros ->. apply Hal, elem_of_app. right. by right.
  - rewrite Hp, list.elem_of_cons. intros [Hi|Hi]; [congruence|by apply (ro_zero _ _ H)].
Qed.
Lemma linked_after_others q a n t s b u : q <> a -> tasks s !! a = None -> tasks s !! b = Some u ->
  exists u', tasks (linked_after q a n t s) !! b = Some u' /\ relinked u u'.
Proof.
  intros Hq Ha Hb. rewrite linked_after_lookup, decide_False by (done || (intros ->; by rewrite Ha in Hb)).
  destruct (decide (b = q)); rewrite Hb; cbn; eexists; (split; [done|]); auto using relinked_refl, relinked_next.
Qed.

(** The state with a record in its ring that was not there, at [l1] from the head on. *)
Record inserted (s s' : sched) (l : list Z) (a : Z) (t : task) : Prop := {
  in_ring : exists l1 l2, l = l1 ++ l2 /\ (l1 = [] -> l = []) /\ ring_ok s' (l1 ++ a :: l2);
  in_new : exists t', tasks s' !! a = Some t' /\ relinked t t';
  in_old : forall b u, tasks s !! b = Some u -> exists u', tasks s' !! b = Some u' /\ relinked u u' }.

Lemma alone_ring s a t : tasks s = ∅ -> a <> 0 ->
  let s1 := upd a (with_next a) (with_tasks (<[a := t]> (tasks s)) s) in ring_ok (Sched (tasks s1) a (next_pid s1) (started s1) (cpus s1)) [a].
Proof.
  intros Em Hz. cbv zeta. unfold upd. cbn [tasks with_tasks]. rewrite alter_insert_eq, Em.
  constructor; cbn [tasks ring_head hd chain]; [apply list.NoDup_singleton| |done|split; [|done]; eexists; by rewrite lookup_insert_eq|rewrite list_elem_of_singleton; congruence].
  intros b. rewrite list_elem_of_singleton. destruct (decide (a = b)) as [->|Hn]; [rewrite lookup_insert_eq; split; [by eexists|done]|].
  rewrite lookup_insert_ne, lookup_empty by done. split; [congruence|by intros [? [=]]].
Qed.
Lemma ring_none s l : ring_ok s l -> ring_head s = 0 -> l = [] /\ tasks s = ∅.
Proof.
  intros H E. apply (ring_head_zero _ _ H) in E as ->. split; [done|]. apply map_empty. intros b. apply eq_None_not_Some. rewrite <- (ro_all _ _ H). apply not_elem_of_nil.
Qed.

Lemma ring_insert_spec s l a t : ring_ok s l -> tasks s !! a = None -> a <> 0 ->
  exists s', ring_insert a (with_tasks (<[a := t]> (tasks s)) s) = Some s' /\ inserted s s' l a t /\ ring_ok s' (l ++ [a]) /\
    next_pid s' = next_pid s /\ started s' = started s /\ cpus s' = cpus s.
Proof.
  intros H Ha Hz. unfold ring_insert. cbn [ring_head with_tasks]. destruct (Z.eqb_spec (ring_head s) 0) as [E|E].
  - destruct (ring_none _ _ H E) as [-> Em]. pose proof (alone_ring s a t Em Hz) as Hr. eexists. split; [reflexivity|]. split_and!; [|exact Hr|done|done|done].
    constructor; [by exists [], []| |].
    + eexists. split; [|apply (relinked_next a)]. unfold upd. cbn [tasks with_tasks]. by rewrite alter_insert_eq, lookup_insert_eq.
    + intros b u. by rewrite Em, lookup_empty.
  - destruct l as [|p0 l0]; [by rewrite (ro_head _ _ H) in E|]. destruct (exists_last (l := p0 :: l0) ltac:(done)) as (l1 & q & El). rewrite El in *. clear p0 l0 El.
    assert (q <> a) as Hqa by (intros ->; destruct (ring_lookup _ _ a H) as [? Hx]; [apply elem_of_app; right; by left|by rewrite Ha in Hx]).
    rewrite (tail_from_spec _ l1 (ring_head s) q); cbn [ring_head with_tasks mbind option_bind].
    + pose proof (linked_after_ring s l1 q [] a t H Ha Hz) as Hr. cbn [hd] in Hr. eexists. split; [reflexivity|].
      change (upd q (with_next a) _) with (linked_after q a (ring_head s) t s).
      split_and!; [|by rewrite <- app_assoc|done|done|done].
      constructor; [exists (l1 ++ [q]), []; rewrite app_nil_r, <- app_assoc; split_and!; [done|by destruct l1|exact Hr]| |].
      * eexists. split; [|apply (relinked_next (ring_head s))]. by rewrite linked_after_lookup, decide_True.
      * intros b u. by apply linked_after_others.
    + apply chain_ext with (tasks s); [|apply H]. intros b u Hb Hu. exists u. split; [|done]. cbn. rewrite lookup_insert_ne; [done|]. intros ->. by rewrite Ha in Hu.
    + rewrite (ro_head _ _ H). by destruct l1.
    + pose proof (ro_nodup _ _ H) as Hnd. rewrite (ro_head _ _ H). destruct l1; cbn in *; [by apply not_elem_of_nil|by apply list.NoDup_cons_1_1 in Hnd].
    + unfold walks. cbn. rewrite map_size_insert_None by done. rewrite (ring_size _ _ H), length_app. cbn. lia.
Qed.

(** ** What holds of every state *)

Definition numbered (c : Z) : Prop := 0 <= c < SMP_MAX_CPUS.
(** An idle task: always willing, of the kernel, and nobody's business. *)
Definition idle_fit (t : task) : Prop :=
  wants_to_run t = true /\ is_user t = false /\ sig_pending (p_of t) = 0 /\ parent_pid (p_of t) = 0.

Section Turns.
Context (kernel_directory : Z).
Definition wanted (t : task) : Z := if dir (m_of t) =? 0 then kernel_directory else dir (m_of t).

Record wf (s : sched) : Prop := {
  wf_ring : exists l, ring_ok s l;
  wf_addr : forall a t, tasks s !! a = Some t -> addr (p_of t) = a;
  wf_pids : forall a b t u, tasks s !! a = Some t -> tasks s !! b = Some u -> pid_of t = pid_of u -> a = b;
  wf_pid : forall a t, tasks s !! a = Some t -> 0 < pid_of t < next_pid s;
  wf_next : 0 < next_pid s;
  wf_cpus : zlen (cpus s) = SMP_MAX_CPUS;
  wf_current : forall c, numbered c -> cur s c <> 0 -> exists t, tasks s !! cur s c = Some t /\ on_cpu t = c;
  wf_on_cpu : forall a t, tasks s !! a = Some t -> on_cpu t = -1 \/ numbered (on_cpu t) /\ cur s (on_cpu t) = a;
  wf_idle : forall c, numbered c -> idle_of (cpu_at s c) <> 0 ->
    exists t, tasks s !! idle_of (cpu_at s c) = Some t /\ idle_fit t /\ (on_cpu t = -1 \/ on_cpu t = c);
  wf_idles : forall c d, numbered c -> numbered d -> idle_of (cpu_at s c) <> 0 -> idle_of (cpu_at s c) = idle_of (cpu_at s d) -> c = d;
  wf_online : forall c, numbered c -> (c = 0 -> started s = true) -> (c <> 0 -> cur s c <> 0) -> idle_of (cpu_at s c) <> 0;
  wf_boot : started s = false -> cur s 0 = 0 /\ idle_of (cpu_at s 0) = 0;
  wf_kernel : forall a t, tasks s !! a = Some t -> 0 < on_cpu t -> is_user t = true \/ idle_of (cpu_at s (on_cpu t)) = a;
  wf_user : forall a t, tasks s !! a = Some t -> if is_user t then dir (m_of t) <> 0 /\ dir (m_of t) <> kernel_directory else dir (m_of t) = 0;
  wf_dirs : forall a b t u, tasks s !! a = Some t -> tasks s !! b = Some u -> is_user t = true -> dir (m_of t) = dir (m_of u) -> a = b;
  wf_cr3 : forall c t, numbered c -> tasks s !! cur s c = Some t -> cr3 (cpu_at s c) = wanted t }.

(** Changes that leave alone what the above is about. *)
Definition quiet (t t' : task) : Prop :=
  next_of t' = next_of t /\ on_cpu t' = on_cpu t /\ is_user t' = is_user t /\ dir (m_of t') = dir (m_of t) /\ pid_of t' = pid_of t /\ addr (p_of t') = addr (p_of t).
Definition same_cpu (x x' : cpu) : Prop := current_of x' = current_of x /\ idle_of x' = idle_of x /\ cr3 x' = cr3 x.
Record calm (s s' : sched) : Prop := {
  ca_head : ring_head s' = ring_head s; ca_next : next_pid s' = next_pid s; ca_started : started s' = started s;
  ca_len : length (cpus s') = length (cpus s);
  ca_cpus : forall c, numbered c -> same_cpu (cpu_at s c) (cpu_at s' c);
  ca_to : forall a t, tasks s !! a = Some t -> exists t', tasks s' !! a = Some t' /\ quiet t t';
  ca_from : forall a, is_Some (tasks s' !! a) -> is_Some (tasks s !! a) }.
Lemma quiet_refl t : quiet t t.
Proof. done. Qed.
Lemma calm_refl s : calm s s.
Proof. constructor; try done. intros a t Ht. eauto using quiet_refl. Qed.
Lemma quiet_trans t u v : quiet t u -> quiet u v -> quiet t v.
Proof. intros (? & ? & ? & ? & ? & ?) (? & ? & ? & ? & ? & ?). repeat split; congruence. Qed.
Lemma calm_trans s s' s'' : calm s s' -> calm s' s'' -> calm s s''.
Proof.
  intros [H1 H2 H3 H4 H5 H6 H7] [K1 K2 K3 K4 K5 K6 K7]. constructor; try congruence.
  - intros c Hc. destruct (H5 c Hc) as (? & ? & ?), (K5 c Hc) as (? & ? & ?). repeat split; congruence.
  - intros a t Ht. destruct (H6 a t Ht) as (t' & Ht' & Hq). destruct (K6 a t' Ht') as (t'' & Ht'' & Hq'). eauto using quiet_trans.
  - auto.
Qed.
Lemma calm_back s s' a t' : calm s s' -> tasks s' !! a = Some t' -> exists t, tasks s !! a = Some t /\ quiet t t'.
Proof.
  intros Hc Ht. destruct (ca_from _ _ Hc a ltac:(by eexists)) as [t E]. destruct (ca_to _ _ Hc a t E) as (u & Hu & Hq). exists t. split; [done|]. congruence.
Qed.
Lemma calm_upd s a f : (forall t, tasks s !! a = Some t -> quiet t (f t)) -> calm s (upd a f s).
Proof.
  intros Hf. constructor; try done.
  - intros b t Ht. rewrite upd_lookup, Ht. destruct (decide (a = b)) as [->|]; eauto using quiet_refl.
  - intros b. by rewrite is_Some_upd.
Qed.
Lemma ring_calm s s' l : calm s s' -> ring_ok s l -> ring_ok s' l.
Proof.
  intros H. apply ring_ext; [|apply H|apply H]. intros a t Ht. destruct (ca_to _ _ H a t Ht) as (t' & ? & Hq). exists t'. split; [done|apply Hq].
Qed.

(** The state stays well formed when what changes is none of its business and the idle
    tasks stay fit. *)
Lemma wf_calm s s' : wf s -> calm s s' ->
  (forall c t t', numbered c -> tasks s !! idle_of (cpu_at s c) = Some t -> tasks s' !! idle_of (cpu_at s c) = Some t' -> idle_fit t -> idle_fit t') -> wf s'.
Proof.
  intros H Hc Hi.
  assert (forall c, numbered c -> cur s' c = cur s c /\ idle_of (cpu_at s' c) = idle_of (cpu_at s c) /\ cr3 (cpu_at s' c) = cr3 (cpu_at s c)) as Hcpu.
  { intros c Hn. destruct (ca_cpus _ _ Hc c Hn) as (? & ? & ?). done. }
  assert (forall a t', tasks s' !! a = Some t' -> exists t, tasks s !! a = Some t /\ quiet t t') as Hb by (intros; by eapply calm_back).
  constructor.
  - destruct (wf_ring _ H) as [l Hl]. exists l. by apply ring_calm with s.
  - intros a t' (t & Ht & Hq)%Hb. replace (addr (p_of t')) with (addr (p_of t)) by (symmetry; apply Hq). by apply (wf_addr _ H).
  - intros a b t' u' (t & Ht & Hq)%Hb (u & Hu & Hq')%Hb E. apply (wf_pids _ H a b t u Ht Hu). destruct Hq as (_ & _ & _ & _ & <- & _), Hq' as (_ & _ & _ & _ & <- & _). done.
  - intros a t' (t & Ht & Hq)%Hb. rewrite (ca_next _ _ Hc). destruct Hq as (_ & _ & _ & _ & -> & _). by apply (wf_pid _ H a).
  - rewrite (ca_next _ _ Hc). apply H.
  - rewrite (ca_len _ _ Hc). apply H.
  - intros c Hn. destruct (Hcpu c Hn) as (-> & _). intros E. destruct (wf_current _ H c Hn E) as (t & Ht & Ho). destruct (ca_to _ _ Hc _ _ Ht) as (t' & Ht' & Hq). exists t'. split; [done|]. by destruct Hq as (_ & -> & _).
  - intros a t' (t & Ht & Hq)%Hb. destruct Hq as (_ & -> & _). destruct (wf_on_cpu _ H a t Ht) as [|[Hn ?]]; [by left|right]. destruct (Hcpu _ Hn) as (-> & _). done.
  - intros c Hn. destruct (Hcpu c Hn) as (_ & -> & _). intros E. destruct (wf_idle _ H c Hn E) as (t & Ht & Hf & Ho). destruct (ca_to _ _ Hc _ _ Ht) as (t' & Ht' & Hq).
    exists t'. split; [done|]. split; [by apply (Hi c t t')|]. by destruct Hq as (_ & -> & _).
  - intros c d Hn Hd. destruct (Hcpu c Hn) as (_ & -> & _), (Hcpu d Hd) as (_ & -> & _). by apply H.
  - intros c Hn. destruct (Hcpu c Hn) as (-> & -> & _). rewrite (ca_started _ _ Hc). by apply H.
  - rewrite (ca_started _ _ Hc). destruct (Hcpu 0 ltac:(done)) as (-> & -> & _). apply H.
  - intros a t' (t & Ht & Hq)%Hb. destruct Hq as (_ & -> & -> & _). intros Hp. destruct (wf_on_cpu _ H a t Ht) as [E|[Hn _]]; [lia|]. destruct (Hcpu _ Hn) as (_ & -> & _). by apply (wf_kernel _ H a t).
  - intros a t' (t & Ht & Hq)%Hb. destruct Hq as (_ & _ & -> & -> & _). by apply (wf_user _ H a).
  - intros a b t' u' (t & Ht & Hq)%Hb (u & Hu & Hq')%Hb. destruct Hq as (_ & _ & -> & -> & _), Hq' as (_ & _ & _ & -> & _). by apply (wf_dirs _ H).
  - intros c t' Hn. destruct (Hcpu c Hn) as (-> & _ & ->). intros (t & Ht & Hq)%Hb. rewrite (wf_cr3 _ H c t Hn Ht). unfold wanted. by destruct Hq as (_ & _ & _ & -> & _).
Qed.
(** ** What is done to signals and sleeping *)

(** As it was with its time to wake, ended, or woken. *)
Definition stirred (p p' : proc) : Prop :=
  state p' = state p /\ wake_at p' = wake_at p \/ state p' = TASK_DEAD \/ state p = TASK_BLOCKED /\ state p' = TASK_READY.
Ltac stir := solve [done | by left; split | by right; left | by right; right].
Lemma stirred_trans p q r : stirred p q -> stirred q r -> stirred p r.
Proof. unfold stirred. intros [[A A']|[A|[A A']]] [[B B']|[B|[B B']]]; intuition congruence. Qed.
(** Each task keeps its place and number, and is woken or ended if anything; one that is not
    singled out only ever wakes. *)
Definition gentle (hit : proc -> bool) (p p' : proc) : Prop :=
  addr p' = addr p /\ pid p' = pid p /\ parent_pid p' = parent_pid p /\
  stirred p p' /\ (hit p = false -> woken p p').
Lemma gentle_refl hit p : gentle hit p p.
Proof. repeat split; [by left; split|]. intros; by left. Qed.
Lemma woken_kin p p' : woken p p' -> addr p' = addr p /\ pid p' = pid p /\ parent_pid p' = parent_pid p /\ stirred p p'.
Proof. intros [->|[? ->]]; repeat split; [by left; split|by right; right]. Qed.
Lemma woken_gentle hit p p' : woken p p' -> gentle hit p p'.
Proof. intros H. destruct (woken_kin _ _ H) as (? & ? & ? & ?). repeat split; auto. Qed.

Lemma gentle_list hit (ps ps' : list proc) :
  (forall i, exists f, ps' !! i = f <$> ps !! i /\ forall p, gentle hit p (f p)) -> Forall2 (gentle hit) ps ps'.
Proof.
  intros H. apply Forall2_same_length_lookup_2.
  - apply Nat.le_antisymm; apply Nat.nlt_ge; intros Hl.
    + destruct (lookup_lt_is_Some_2 ps (length ps') Hl) as [p Hp]. destruct (H (length ps')) as (f & E & _). rewrite Hp, lookup_ge_None_2 in E; done.
    + destruct (lookup_lt_is_Some_2 ps' (length ps) Hl) as [p Hp]. destruct (H (length ps)) as (f & E & _). rewrite Hp, lookup_ge_None_2 in E; done.
  - intros i p p' Hp Hp'. destruct (H i) as (f & E & Hf). rewrite Hp, Hp' in E. injection E as ->. apply Hf.
Qed.
Lemma gentle_same hit ps : Forall2 (gentle hit) ps ps.
Proof. apply Forall2_same_length_lookup_2; [done|]. intros i p q ? ?. simplify_eq. apply gentle_refl. Qed.
Lemma gentle_impl hit hit' ps qs : (forall p, hit' p = false -> hit p = false) -> Forall2 (gentle hit) ps qs -> Forall2 (gentle hit') ps qs.
Proof. intros Hh H. eapply list.Forall2_impl; [exact H|]. intros p q (? & ? & ? & ? & ?). repeat split; auto. Qed.
Lemma wake_gentle hit ch one ps : Forall2 (gentle hit) ps (wake ch one ps).
Proof. apply gentle_list. intros i. destruct (wake_spec ch one ps i) as (f & -> & Hf). exists f. split; [done|]. intros p. by apply woken_gentle. Qed.
Lemma on_pid_gentle n f ps : (forall p, pid p = n -> addr (f p) = addr p /\ pid (f p) = pid p /\ parent_pid (f p) = parent_pid p /\ stirred p (f p)) ->
  Forall2 (gentle (fun p => pid p =? n)) ps (on_pid n f ps).
Proof.
  intros Hf. induction ps as [|p ps IH]; [constructor|]. change (on_pid n f (p :: ps)) with (if pid p =? n then f p :: ps else p :: on_pid n f ps).
  destruct (Z.eqb_spec (pid p) n) as [E|E].
  - constructor; [|apply gentle_same].
    destruct (Hf p E) as (? & ? & ? & ?). repeat split; [done..|]. by rewrite (proj2 (Z.eqb_eq _ _) E).
  - constructor; [apply gentle_refl|done].
Qed.
Lemma gentle_trans hit hit' ps qs rs : (forall p, hit p = hit' p) -> (forall p p', addr p' = addr p -> pid p' = pid p -> hit' p' = hit' p) ->
  Forall2 (gentle hit) ps qs -> Forall2 (gentle hit') qs rs -> Forall2 (gentle hit) ps rs.
Proof.
  intros Hh Hi H1 H2. eapply list.Forall2_trans; [|exact H1|exact H2]. intros p q r (A1 & A2 & A3 & A5 & A4) (B1 & B2 & B3 & B5 & B4).
  repeat split; [congruence..|by apply stirred_trans with q|]. intros Hp. rewrite Hh in Hp. specialize (A4 ltac:(by rewrite Hh)). specialize (B4 ltac:(by rewrite (Hi p q))).
  destruct A4 as [->|[Hs ->]]; [done|]. destruct B4 as [->|[Hs' ->]]; [by right|done].
Qed.
Lemma end_task_gentle now n x ps : Forall2 (gentle (fun p => pid p =? n)) ps (signal_end_task now n x ps).
Proof.
  unfold signal_end_task. destruct (task_by_pid n ps) as [t|]; [|apply gentle_same]. destruct (is_dead t); [apply gentle_same|].
  apply gentle_trans with (hit' := fun p => pid p =? n) (qs := on_pid n (dead x now) ps); [done|by intros p p' _ ->|apply on_pid_gentle; intros; repeat split; stir|apply wake_gentle].
Qed.
Lemma send_gentle n sig ps : Forall2 (gentle (fun p => pid p =? n)) ps (signal_send n sig ps).1.
Proof.
  unfold signal_send. destruct (_ || _); [apply gentle_same|]. destruct (task_by_pid n ps) as [t|]; [|apply gentle_same]. destruct (is_dead t); [apply gentle_same|]. apply on_pid_gentle; intros; repeat split; stir.
Qed.
Lemma disposition_gentle n sig how tr ps : Forall2 (gentle (fun p => pid p =? n)) ps (signal_disposition n sig how tr ps).1.
Proof.
  unfold signal_disposition. repeat case_match; try apply gentle_same; apply on_pid_gentle; intros; repeat split; stir.
Qed.
Lemma forget_gentle n ps : Forall2 (gentle (fun p => pid p =? n)) ps (signal_forget_handlers n ps).
Proof. apply on_pid_gentle; intros; repeat split; stir. Qed.
Lemma alter_gentle hit (f : proc -> proc) i ps :
  (forall p, ps !! i = Some p -> gentle hit p (f p)) -> Forall2 (gentle hit) ps (alter f i ps).
Proof.
  intros Hf. apply Forall2_same_length_lookup_2; [by rewrite length_alter|]. intros j p q Hp Hq. destruct (decide (i = j)) as [->|Hn].
  - rewrite list_lookup_alter_eq, Hp in Hq. injection Hq as <-. by apply Hf.
  - rewrite list_lookup_alter_ne, Hp in Hq by done. injection Hq as <-. apply gentle_refl.
Qed.
(** Acting on what is pending leaves a task with nothing pending but for waking it. *)
Definition troubled (p : proc) : bool := negb (sig_pending p =? 0).
Lemma take_one_kin now i ps : Forall2 (gentle (fun _ => true)) ps (take_one now i ps).
Proof.
  unfold take_one. destruct (ps !! i) as [p|]; [|apply gentle_same]. destruct (_ && _); [|apply gentle_same].
  assert (Forall2 (gentle (fun _ => true)) ps (alter (with_pending (kept_signals p)) i ps)) as H1 by (apply alter_gentle; intros; repeat split; stir).
  repeat case_match; try done. eapply gentle_trans; [|by intros p0 ? ? ?; instantiate (1 := fun _ => true)|exact H1|]; [done|].
  eapply gentle_impl; [|apply end_task_gentle]. done.
Qed.
Lemma take_pending_gentle now ps : NoDup (pids ps) -> Forall2 (gentle troubled) ps (signal_take_pending now ps).
Proof.
  intros Hn. assert (Forall2 (gentle (fun _ => true)) ps (signal_take_pending now ps)) as Hk.
  { assert (forall ks qs, Forall2 (gentle (fun _ => true)) ps qs -> Forall2 (gentle (fun _ => true)) ps (foldl (fun ts i => take_one now i ts) qs ks)) as H; [|apply H, gentle_same].
    induction ks as [|k ks IH]; intros qs Hq; cbn [foldl]; [done|]. apply IH. eapply gentle_trans; [| |exact Hq|apply take_one_kin]; done. }
  destruct (take_pending_spec now ps Hn) as [_ Hs]. apply Forall2_same_length_lookup_2; [by eapply Forall2_length|].
  intros i p q Hp Hq. destruct (Forall2_lookup_lr _ _ _ _ _ _ Hk Hp Hq) as (? & ? & ? & ? & _). repeat split; [done..|].
  destruct (Hs i p Hp) as (q' & Hq' & Ht). rewrite Hq in Hq'. injection Hq' as <-. unfold troubled. intros E%negb_false_iff.
  destruct (Z.of_nat i <? 4096); [|done]. destruct Ht as (_ & _ & Ht). by rewrite E, orb_true_r in Ht.
Qed.

(** ** Doing it to the ring *)

Lemma procs_spec s l : ring_ok s l -> exists ps, procs s l = Some ps /\ Forall2 (fun a p => exists t, tasks s !! a = Some t /\ p = p_of t) l ps.
Proof.
  intros H. unfold procs. assert (forall k, k ⊆ l -> exists ps, mapM (fun a => p_of <$> tasks s !! a) k = Some ps /\ Forall2 (fun a p => exists t, tasks s !! a = Some t /\ p = p_of t) k ps) as Hk; [|by apply Hk].
  induction k as [|a k IH]; intros Hs; [by exists []|]. destruct IH as (ps & E & Hp); [intros b Hb; apply Hs; by right|].
  destruct (ring_lookup _ _ a H) as [t Ht]; [apply Hs; by left|]. exists (p_of t :: ps). cbn. rewrite Ht. cbn. rewrite E. cbn. split; [done|]. constructor; eauto.
Qed.
(** What [on_procs] does to the state. *)
Definition with_procs (l : list Z) (ps : list proc) (s s' : sched) : Prop :=
  ring_head s' = ring_head s /\ next_pid s' = next_pid s /\ started s' = started s /\ cpus s' = cpus s /\
  (forall i a p, l !! i = Some a -> ps !! i = Some p -> tasks s' !! a = with_proc p <$> tasks s !! a) /\
  (forall a, a ∉ l -> tasks s' !! a = tasks s !! a).
Lemma put_procs_spec l ps s : NoDup l -> length l = length ps -> with_procs l ps s (put_procs l ps s).
Proof.
  unfold put_procs. revert ps s. induction l as [|a l IH]; intros [|p ps] s Hn Hl; cbn [length zip_with foldl] in *; try done.
  apply list.NoDup_cons in Hn as [Ha Hn]. destruct (IH ps (upd a (with_proc p) s) Hn ltac:(lia)) as (H1 & H2 & H3 & H4 & H5 & H6).
  cbn [zip fst snd]. split_and!; [done..| |].
  - intros [|i] b q Hb Hq; cbn in Hb, Hq; simplify_eq.
    + rewrite H6 by done. by rewrite upd_lookup, decide_True.
    + rewrite (H5 i b q) by done. rewrite upd_lookup, decide_False; [done|]. intros ->. apply Ha. by apply list_elem_of_lookup_2 with i.
  - intros b Hb. apply list.not_elem_of_cons in Hb as [Hb1 Hb2]. rewrite H6, upd_lookup, decide_False by done. done.
Qed.

Lemma on_procs_spec {A} (f : list proc -> list proc * A) hit s l : ring_ok s l ->
  (forall ps, procs s l = Some ps -> Forall2 (gentle hit) ps (f ps).1) ->
  exists ps s', procs s l = Some ps /\ on_procs f s = Some (s', (f ps).2) /\ calm s s' /\ cpus s' = cpus s /\
    forall a t t', tasks s !! a = Some t -> tasks s' !! a = Some t' -> exists p', t' = with_proc p' t /\ gentle hit (p_of t) p'.
Proof.
  intros H Hf. destruct (procs_spec s l H) as (ps & Ep & Hp). specialize (Hf ps Ep). exists ps. unfold on_procs. rewrite (ring_spec _ _ H). cbn [mbind option_bind]. rewrite Ep. cbn [mbind option_bind].
  destruct (f ps) as [ps' x] eqn:Ef. cbn [fst snd] in *.
  destruct (put_procs_spec l ps' s) as (H1 & H2 & H3 & H4 & H5 & H6); [apply H|rewrite (Forall2_length Hp); by apply Forall2_length in Hf|].
  assert (forall a t, tasks s !! a = Some t -> exists p', tasks (put_procs l ps' s) !! a = Some (with_proc p' t) /\ gentle hit (p_of t) p') as Hto.
  { intros a t Ht. apply (ring_member _ _ _ _ H) in Ht as Ha. apply list_elem_of_lookup in Ha as [i Hi].
    destruct (Forall2_lookup_l _ _ _ _ _ Hp Hi) as (p & Hpi & u & Hu & ->). rewrite Ht in Hu. injection Hu as <-.
    destruct (Forall2_lookup_l _ _ _ _ _ Hf Hpi) as (p' & Hp' & Hg). exists p'. by rewrite (H5 i a p' Hi Hp'), Ht. }
  exists (put_procs l ps' s). split_and!; [done|done| |done|].
  - constructor; try done; [by rewrite H4|intros c _; unfold cpu_at; by rewrite H4| |].
    + intros a t Ht. destruct (Hto a t Ht) as (p' & E & Hg & Hpd & _). eexists. split; [done|]. repeat split; done.
    + intros a. destruct (decide (a ∈ l)) as [Ha|Ha]; [by rewrite <- (ro_all _ _ H)|by rewrite H6].
  - intros a t t' Ht Ht'. destruct (Hto a t Ht) as (p' & E & Hg). rewrite Ht' in E. injection E as ->. eauto.
Qed.
Lemma on_procs_spec_ f hit s l : ring_ok s l -> (forall ps, procs s l = Some ps -> Forall2 (gentle hit) ps (f ps)) ->
  exists s', on_procs_ f s = Some s' /\ calm s s' /\ cpus s' = cpus s /\
    forall a t t', tasks s !! a = Some t -> tasks s' !! a = Some t' -> exists p', t' = with_proc p' t /\ gentle hit (p_of t) p'.
Proof.
  intros H Hf. destruct (on_procs_spec (fun ps => (f ps, tt)) hit s l H Hf) as (ps & s' & _ & E & Hc & Hcp & Ht). exists s'. unfold on_procs_. by rewrite E.
Qed.

(** The numbers of the ring's tasks are all different. *)
Lemma procs_pids s l ps : wf s -> ring_ok s l -> procs s l = Some ps -> NoDup (pids ps).
Proof.
  intros H Hr E. destruct (procs_spec s l Hr) as (qs & E' & Hp). rewrite E in E'. injection E' as <-.
  apply NoDup_fmap_2_strong; [|].
  - intros p q Hpi Hq Epq. apply list_elem_of_lookup in Hpi as [i Hi], Hq as [j Hj].
    destruct (Forall2_lookup_r _ _ _ _ _ Hp Hi) as (a & Ha & t & Ht & ->), (Forall2_lookup_r _ _ _ _ _ Hp Hj) as (b & Hb & u & Hu & ->).
    rewrite (wf_pids _ H a b t u Ht Hu Epq) in Ht. congruence.
  - apply list.NoDup_alt. intros i j p Hi Hj. destruct (Forall2_lookup_r _ _ _ _ _ Hp Hi) as (a & Ha & t & Ht & ->), (Forall2_lookup_r _ _ _ _ _ Hp Hj) as (b & Hb & u & Hu & E2).
    assert (a = b) as -> by (apply (wf_pids _ H a b t u Ht Hu); unfold pid_of; by rewrite E2). by apply (list.NoDup_lookup l i j b); [apply Hr|..].
Qed.

Lemma idle_fit_gentle t t' p' hit : gentle hit (p_of t) p' -> hit (p_of t) = false -> t' = with_proc p' t -> idle_fit t -> idle_fit t'.
Proof.
  intros (_ & _ & Hpa & _ & Hw) Hh -> (H1 & H2 & H3 & H4). destruct (Hw Hh) as [->|[Hs _]]; [done|]. exfalso. unfold wants_to_run, st in H1. rewrite Hs in H1. done.
Qed.
(** Something done to signals and sleeping that singles out no idle task. *)
Lemma wf_on_procs {A} (f : list proc -> list proc * A) hit s : wf s ->
  (forall l ps, ring_ok s l -> procs s l = Some ps -> Forall2 (gentle hit) ps (f ps).1) ->
  (forall c t, numbered c -> tasks s !! idle_of (cpu_at s c) = Some t -> idle_fit t -> hit (p_of t) = false) ->
  exists s' x, on_procs f s = Some (s', x) /\ wf s' /\ calm s s' /\ cpus s' = cpus s /\
    forall a t t', tasks s !! a = Some t -> tasks s' !! a = Some t' -> exists p', t' = with_proc p' t /\ gentle hit (p_of t) p'.
Proof.
  intros H Hf Hi. destruct (wf_ring _ H) as [l Hl]. destruct (on_procs_spec f hit s l Hl (fun ps => Hf l ps Hl)) as (ps & s' & _ & E & Hc & Hcp & Ht).
  exists s', (f ps).2. split_and!; [done| |done|done|done]. apply wf_calm with s; [done|done|].
  intros c t t' Hn E1 E2 Hfit. destruct (Ht _ _ _ E1 E2) as (p' & -> & Hg). by apply (idle_fit_gentle t _ p' hit Hg (Hi c t Hn E1 Hfit)).
Qed.
Lemma wf_on_procs_ f hit s : wf s ->
  (forall l ps, ring_ok s l -> procs s l = Some ps -> Forall2 (gentle hit) ps (f ps)) ->
  (forall c t, numbered c -> tasks s !! idle_of (cpu_at s c) = Some t -> idle_fit t -> hit (p_of t) = false) ->
  exists s', on_procs_ f s = Some s' /\ wf s' /\ calm s s' /\ cpus s' = cpus s /\
    forall a t t', tasks s !! a = Some t -> tasks s' !! a = Some t' -> exists p', t' = with_proc p' t /\ gentle hit (p_of t) p'.
Proof.
  intros H Hf Hi. destruct (wf_on_procs (fun ps => (f ps, tt)) hit s H Hf Hi) as (s' & x & E & ?). exists s'. unfold on_procs_. by rewrite E.
Qed.
Lemma wf_signals now s : wf s -> exists s', on_procs_ (signal_take_pending now) s = Some s' /\ wf s' /\ calm s s' /\ cpus s' = cpus s /\
  forall a t t', tasks s !! a = Some t -> tasks s' !! a = Some t' -> exists p', t' = with_proc p' t /\ gentle troubled (p_of t) p'.
Proof.
  intros H. apply wf_on_procs_; [done| |].
  - intros l ps Hl E. by apply take_pending_gentle, (procs_pids s l).
  - intros c t _ _ (_ & _ & Hs & _). unfold troubled. by rewrite Hs.
Qed.

(** ** A lap *)

(** The tasks in the order a lap starting after one visits them, that one last. *)
Inductive lap (l : list Z) : Z -> list Z -> Prop :=
  | lap_start : lap l 0 l
  | lap_after l1 q l2 : l = l1 ++ q :: l2 -> lap l q (l2 ++ l1 ++ [q]).
Lemma lap_perm l q vs : lap l q vs -> vs ≡ₚ l.
Proof. intros [|l1 a l2 ->]; [done|]. solve_Permutation. Qed.
Lemma lap_exists s l q : ring_ok s l -> q = 0 \/ q ∈ l -> exists vs, lap l q vs.
Proof. intros H [->|Hq]; [exists l; constructor|]. apply list_elem_of_split in Hq as (l1 & l2 & ->). eexists. by constructor. Qed.
Lemma lap_chain s l q vs : ring_ok s l -> l <> [] -> lap l q vs ->
  chain (tasks s) vs (hd 0 vs) /\ (if q =? 0 then Some (ring_head s) else next_of <$> tasks s !! q) = Some (hd 0 vs).
Proof.
  intros H Hl Hlap. pose proof (ro_chain _ _ H) as Hc. pose proof (ro_head _ _ H) as Hh. destruct Hlap as [|l1 q l2 E].
  - rewrite <- Hh. done.
  - assert (q <> 0) as Hq by (intros ->; apply (ro_zero _ _ H); rewrite E; apply elem_of_app; right; by left).
    rewrite (proj2 (Z.eqb_neq _ _)) by done. rewrite E in Hc, Hh. apply links_app in Hc as [Hc1 [(t & Ht & Hn) Hc2]]. cbn [hd] in Hc1.
    assert (hd (ring_head s) l2 = hd 0 (l2 ++ l1 ++ [q])) as E2 by (rewrite Hh; by destruct l2, l1). rewrite Ht. cbn. rewrite Hn, E2. split; [|done].
    apply links_app. split; [|apply links_app; split; [done|]].
    + rewrite Hh in Hc2. replace (hd (hd 0 (l2 ++ l1 ++ [q])) (l1 ++ [q])) with (hd 0 (l1 ++ q :: l2)) by (by destruct l1). done.
    + cbn. split; [|done]. exists t. by rewrite Hn.
Qed.

Definition takes (now me : Z) (s : sched) (a : Z) : bool :=
  match tasks s !! a with Some t => may_take s me a (release now t) | None => false end.
Definition released (now : Z) (k : list Z) (s : sched) : sched := foldl (fun s a => upd a (release now) s) s k.
Lemma release_next now t : next_of (release now t) = next_of t.
Proof. unfold release. by repeat case_match. Qed.
Lemma takes_upd now me s a b : a <> b -> takes now me (upd a (release now) s) b = takes now me s b.
Proof. intros Hn. unfold takes. by rewrite upd_lookup, decide_False. Qed.

Lemma pick_from_spec now me start p vs s fuel : chain (tasks s) (p :: vs) start -> start ∉ vs -> 0 ∉ vs -> NoDup (p :: vs) -> (length vs < fuel)%nat ->
  exists s' q, pick_from fuel now me start p s = Some (s', q) /\
    ((exists pre post, p :: vs = pre ++ q :: post /\ s' = released now (pre ++ [q]) s /\ takes now me s q = true /\ Forall (fun b => takes now me s b = false) pre) \/
     (q = 0 /\ s' = released now (p :: vs) s /\ Forall (fun b => takes now me s b = false) (p :: vs))).
Proof.
  revert p s fuel. induction vs as [|b vs IH]; intros p s fuel [(t & Ht & Hn) Hc] Hs Hz Hd Hf; (destruct fuel as [|fuel]; [cbn in Hf; lia|]);
    cbn [pick_from]; rewrite Ht; cbn [mbind option_bind]; cbn [hd] in Hn.
  all: assert (takes now me s p = may_take (upd p (release now) s) me p (release now t)) as Et by (unfold takes; by rewrite Ht).
  all: destruct (may_take (upd p (release now) s) me p (release now t)) eqn:Em.
  1,3: eexists _, p; split; [reflexivity|left]; eexists [], _; split_and!; [reflexivity|done|done|done].
  all: rewrite release_next, Hn.
  - rewrite Z.eqb_refl, orb_true_r. eexists _, 0. split; [reflexivity|right]. split_and!; [done|done|]. by constructor.
  - apply list.not_elem_of_cons in Hs as [Hs1 Hs2], Hz as [Hz1 Hz2]. apply list.NoDup_cons in Hd as [Hd1 Hd2].
    rewrite (proj2 (Z.eqb_neq b 0)), (proj2 (Z.eqb_neq b start)) by congruence. cbn [orb].
    destruct (IH b (upd p (release now) s) fuel) as (s' & q & -> & Hq); [|done|done|done|cbn in Hf; lia|].
    + apply chain_ext with (tasks s); [|done]. intros a u Ha Hu. exists u. split; [|done]. rewrite upd_lookup, decide_False; [done|]. by intros ->.
    + assert (forall k, p ∉ k -> Forall (fun b => takes now me (upd p (release now) s) b = false) k -> Forall (fun b => takes now me s b = false) k) as Hk.
      { intros k Hpk Hfa. apply list.Forall_forall. intros x Hx. rewrite list.Forall_forall in Hfa. rewrite <- (takes_upd now me s p); [by apply Hfa|]. by intros ->. }
      eexists _, q. split; [reflexivity|]. destruct Hq as [(pre & post & E & -> & Htq & Hpre)|(-> & -> & Hall)]; [left|right].
      * exists (p :: pre), post. rewrite E in *. split_and!; [done|done| |].
        -- rewrite takes_upd in Htq; [done|]. intros ->. apply Hd1, elem_of_app. right. by left.
        -- constructor; [done|]. apply Hk; [|done]. intros Hi. apply Hd1, elem_of_app. by left.
      * split_and!; [done|done|]. constructor; [done|]. by apply Hk.
Qed.

Lemma release_quiet now t : quiet t (release now t).
Proof. unfold release. by repeat case_match. Qed.
Lemma release_idem now t : release now (release now t) = release now t.
Proof.
  assert (forall t, state (p_of t) = TASK_READY -> release now t = t) as Hr by (intros u Hu; unfold release; by rewrite Hu, !bool_decide_false).
  unfold release at 2 3. destruct (bool_decide (state (p_of t) = TASK_SLEEPING) && (wake_at (p_of t) <=? now)) eqn:E1; [by apply Hr|].
  destruct (bool_decide (state (p_of t) = TASK_BLOCKED) && negb (wake_at (p_of t) =? 0) && (wake_at (p_of t) <=? now)) eqn:E2; [by apply Hr|].
  unfold release. by rewrite E1, E2.
Qed.
Lemma released_lookup now k s a : tasks (released now k s) !! a = if decide (a ∈ k) then release now <$> tasks s !! a else tasks s !! a.
Proof.
  unfold released. revert s. induction k as [|b k IH]; intros s; cbn [foldl]; [by rewrite decide_False by apply not_elem_of_nil|].
  rewrite IH, upd_lookup. destruct (decide (b = a)) as [->|Hn].
  - rewrite (decide_True (P := a ∈ a :: k)) by by left. destruct (decide (a ∈ k)); [|done]. destruct (tasks s !! a); cbn; [by rewrite release_idem|done].
  - destruct (decide (a ∈ k)), (decide (a ∈ b :: k)) as [Hi|Hi]; try done; [destruct Hi; by right|]. apply list.elem_of_cons in Hi as [->|]; done.
Qed.
Lemma released_frame now k s : ring_head (released now k s) = ring_head s /\ next_pid (released now k s) = next_pid s /\ started (released now k s) = started s /\ cpus (released now k s) = cpus s.
Proof. unfold released. revert s. induction k as [|b k IH]; intros s; cbn [foldl]; [done|]. by destruct (IH (upd b (release now) s)) as (-> & -> & -> & ->). Qed.
Lemma released_calm now k s : calm s (released now k s).
Proof.
  destruct (released_frame now k s) as (H1 & H2 & H3 & H4). constructor; try done; [by rewrite H4|intros c _; unfold cpu_at; by rewrite H4| |].
  - intros a t Ht. rewrite released_lookup, Ht. destruct (decide (a ∈ k)); eexists; (split; [done|]); auto using quiet_refl, release_quiet.
  - intros a. rewrite released_lookup. destruct (decide (a ∈ k)); by rewrite ?fmap_is_Some.
Qed.

(** Which task a processor takes: its idle task while it has work of its own, or else the first
    of a lap that it may take, or else its idle task, or else the one it had. *)
Inductive choice (now me : Z) (work : bool) (from : Z) (s : sched) (vs : list Z) : sched -> Z -> Prop :=
  | ch_work : me <> 0 -> work = true -> idle_of (cpu_at s me) <> 0 -> choice now me work from s vs s (idle_of (cpu_at s me))
  | ch_first q pre post : (me <> 0 -> work = true -> idle_of (cpu_at s me) = 0) -> vs = pre ++ q :: post -> takes now me s q = true ->
      Forall (fun b => takes now me s b = false) pre -> choice now me work from s vs (released now (pre ++ [q]) s) q
  | ch_none : (me <> 0 -> work = true -> idle_of (cpu_at s me) = 0) -> Forall (fun b => takes now me s b = false) vs ->
      choice now me work from s vs (released now vs s) (if idle_of (cpu_at s me) =? 0 then from else idle_of (cpu_at s me)).

Lemma pick_next_spec now me work from s l vs : ring_ok s l -> l <> [] -> lap l from vs ->
  exists s' q, pick_next now me work from s = Some (s', q) /\ choice now me work from s vs s' q.
Proof.
  intros H Hl Hlap. destruct (lap_chain _ _ _ _ H Hl Hlap) as [Hc Es]. pose proof (lap_perm _ _ _ Hlap) as Hp.
  unfold pick_next. rewrite Es. cbn [mbind option_bind]. destruct vs as [|v vs]; [apply Permutation_nil in Hp; by rewrite Hp in Hl|]. cbn [hd] in *.
  assert (NoDup (v :: vs)) as Hd by (rewrite Hp; apply H). assert (0 ∉ v :: vs) as Hz by (rewrite Hp; apply H).
  apply list.not_elem_of_cons in Hz as [Hz1 Hz2]. rewrite (proj2 (Z.eqb_neq _ _)) by done.
  destruct (negb (me =? 0) && work && negb (idle_of (cpu_at s me) =? 0)) eqn:Ew.
  - rewrite !andb_true_iff, !negb_true_iff, !Z.eqb_neq in Ew. destruct Ew as [[? ?] ?]. eexists _, _. split; [reflexivity|]. by constructor.
  - assert (me <> 0 -> work = true -> idle_of (cpu_at s me) = 0) as Hw.
    { intros Hm ->. rewrite (proj2 (Z.eqb_neq me 0) Hm) in Ew. cbn in Ew. by apply negb_false_iff, Z.eqb_eq in Ew. }
    destruct (pick_from_spec now me v v vs s (walks s)) as (s' & q & -> & Hq); [done|by apply list.NoDup_cons in Hd as [? _]|done|done|unfold walks; rewrite (ring_size _ _ H), <- (Permutation_length Hp); cbn; lia|].
    cbn [mbind option_bind]. eexists _, _. split; [reflexivity|]. destruct Hq as [(pre & post & E & -> & Ht & Hf)|(-> & -> & Hf)].
    + assert (q <> 0) as Hq by (intros ->; apply Hz2; assert (0 ∈ v :: vs) as Hi by (rewrite E; apply elem_of_app; right; by left); apply list.elem_of_cons in Hi as [?|?]; [congruence|done]).
      rewrite (proj2 (Z.eqb_neq _ _)) by done. cbn [negb]. by apply ch_first with post.
    + rewrite Z.eqb_refl. cbn [negb]. pose proof (ch_none now me work from s (v :: vs) Hw Hf) as Hn. by destruct (idle_of (cpu_at s me) =? 0).
Qed.

(** ** Taking out what has finished *)

Definition unlinked (p n m : Z) (s : sched) : sched := with_tasks (delete n (tasks (upd p (with_next m) s))) (upd p (with_next m) s).
Lemma unlinked_lookup p n m s b : tasks (unlinked p n m s) !! b = if decide (b = n) then None else if decide (b = p) then with_next m <$> tasks s !! b else tasks s !! b.
Proof.
  unfold unlinked. cbn [tasks with_tasks]. destruct (decide (b = n)) as [->|]; [by rewrite lookup_delete_eq|]. rewrite lookup_delete_ne by done.
  change (tasks (upd p (with_next m) s) !! b = if decide (b = p) then with_next m <$> tasks s !! b else tasks s !! b). rewrite upd_lookup. destruct (decide (p = b)), (decide (b = p)); congruence.
Qed.
Lemma unlinked_ring s l1 p n l2 u : ring_ok s (l1 ++ p :: n :: l2) -> tasks s !! n = Some u -> ring_ok (unlinked p n (next_of u) s) (l1 ++ p :: l2).
Proof.
  intros H Hu. assert (l1 ++ p :: n :: l2 ≡ₚ n :: l1 ++ p :: l2) as Hp by solve_Permutation.
  assert (NoDup (n :: l1 ++ p :: l2)) as Hnd by (rewrite <- Hp; apply H). apply list.NoDup_cons in Hnd as [Hn Hnd].
  assert (p <> n) as Hpn by (intros ->; apply Hn, elem_of_app; right; by left).
  pose proof (unlinked_lookup p n (next_of u) s) as Hl.
  assert (forall a, a ∈ l1 ++ p :: l2 <-> a <> n /\ is_Some (tasks s !! a)) as Hall.
  { intros a. rewrite <- (ro_all _ _ H), Hp, list.elem_of_cons. split; [intros Ha; split; [by intros ->|by right]|by intros [? [?|?]]]. }
  constructor; [done| | | |].
  - intros a. rewrite Hall, Hl. destruct (decide (a = n)) as [->|]; [split; [by intros []|by intros [? [=]]]|]. destruct (decide (a = p)); rewrite ?fmap_is_Some; (split; [by intros []|done]).
  - change (ring_head s = hd 0 (l1 ++ p :: l2)). rewrite (ro_head _ _ H). by destruct l1.
  - change (chain (tasks (unlinked p n (next_of u) s)) (l1 ++ p :: l2) (ring_head s)).
    pose proof (ro_chain _ _ H) as Hc. apply links_app in Hc as [Hc1 [(t & Ht & Htn) [(u' & Hu' & Hun) Hc2]]]. rewrite Hu in Hu'. injection Hu' as <-.
    apply list.NoDup_app in Hnd as (_ & Hd1 & Hd2). apply list.NoDup_cons in Hd2 as [Hd2 _].
    assert (forall b v, b <> n -> b <> p -> tasks s !! b = Some v -> exists t', tasks (unlinked p n (next_of u) s) !! b = Some t' /\ next_of t' = next_of v) as Hk.
    { intros b v Hb1 Hb2 Hv. exists v. split; [|done]. by rewrite Hl, !decide_False. }
    apply links_app. split; [|cbn [chain]; split].
    + apply chain_ext with (tasks s); [|done]. intros b v Hb Hv. apply Hk; [intros ->; apply Hn, elem_of_app; by left|intros ->; apply (Hd1 p Hb); by left|done].
    + eexists. rewrite Hl, decide_False, decide_True, Ht by done. split; [done|]. cbn. by rewrite Hun.
    + apply chain_ext with (tasks s); [|done]. intros b v Hb Hv. apply Hk; [intros ->; apply Hn, elem_of_app; right; by right|by intros ->|done].
  - intros Hi. apply (ro_zero _ _ H). rewrite Hp. by right.
Qed.

(** A ring with some of what had finished taken out of it. *)
Record swept (me : Z) (s : sched) (l : list Z) (s' : sched) (l' : list Z) (freed : list Z) : Prop := {
  sw_ring : ring_ok s' l';
  sw_sub : l' `sublist_of` l;
  sw_frame : ring_head s' = ring_head s /\ next_pid s' = next_pid s /\ started s' = started s /\ cpus s' = cpus s;
  sw_kept : forall a u, a ∈ l' -> tasks s !! a = Some u -> exists u', tasks s' !! a = Some u' /\ relinked u u';
  sw_gone : forall a u, a ∉ l' -> tasks s !! a = Some u -> is_dead (p_of u) = true /\ on_cpu u < 0 /\ a <> cur s me /\ a <> ring_head s;
  sw_freed : forall d, d ∈ freed <-> d <> 0 /\ exists a u, a ∉ l' /\ tasks s !! a = Some u /\ dir (m_of u) = d }.
Lemma relinked_trans t u v : relinked t u -> relinked u v -> relinked t v.
Proof. unfold relinked. intros -> ->. by destruct t. Qed.
Lemma swept_nothing me s l : ring_ok s l -> swept me s l s l [].
Proof.
  intros H. constructor; try done.
  - intros a u _ Hu. eauto using relinked_refl.
  - intros a u Ha Hu. destruct Ha. by apply (ring_member _ _ _ _ H Hu).
  - intros d. split; [intros Hi; by apply not_elem_of_nil in Hi|]. intros (_ & a & u & Ha & Hu & _). destruct Ha. by apply (ring_member _ _ _ _ H Hu).
Qed.
Lemma swept_one now me s l1 p n l2 u : ring_ok s (l1 ++ p :: n :: l2) -> tasks s !! n = Some u -> can_collect now me n u s = true ->
  swept me s (l1 ++ p :: n :: l2) (unlinked p n (next_of u) s) (l1 ++ p :: l2) (if dir (m_of u) =? 0 then [] else [dir (m_of u)]).
Proof.
  intros H Hu Hcc. assert (l1 ++ p :: n :: l2 ≡ₚ n :: l1 ++ p :: l2) as Hp by solve_Permutation.
  assert (n ∉ l1 ++ p :: l2) as Hn by (assert (NoDup (n :: l1 ++ p :: l2)) as Hnd by (rewrite <- Hp; apply H); by apply list.NoDup_cons in Hnd as [? _]).
  assert (forall a v, a ∉ l1 ++ p :: l2 -> tasks s !! a = Some v -> a = n) as Hgone.
  { intros a v Ha Hv. apply (ring_member _ _ _ _ H) in Hv. rewrite Hp, list.elem_of_cons in Hv. by destruct Hv. }
  constructor.
  - by apply unlinked_ring.
  - apply sublist_app; [done|]. apply sublist_skip. by apply sublist_cons.
  - done.
  - intros a v Ha Hv. rewrite unlinked_lookup, decide_False by (by intros ->). destruct (decide (a = p)); rewrite Hv; cbn; eexists; (split; [done|]); auto using relinked_refl, relinked_next.
  - intros a v Ha Hv. pose proof (Hgone a v Ha Hv) as ->. rewrite Hu in Hv. injection Hv as <-. unfold can_collect in Hcc.
    destruct (is_dead (p_of u)); [|done]. cbn [negb orb] in Hcc. destruct (Z.eqb_spec n (cur s me)); [done|]. destruct (Z.eqb_spec n (ring_head s)); [done|]. cbn [orb] in Hcc.
    destruct (Z.leb_spec 0 (on_cpu u)); [done|]. done.
  - intros d. destruct (Z.eqb_spec (dir (m_of u)) 0) as [E|E].
    + split; [intros Hi; by apply not_elem_of_nil in Hi|]. intros (Hd & a & v & Ha & Hv & Hdv). pose proof (Hgone a v Ha Hv) as ->. rewrite Hu in Hv. injection Hv as <-. congruence.
    + rewrite list_elem_of_singleton. split; [intros ->; split; [done|]; by exists n, u|]. intros (Hd & a & v & Ha & Hv & Hdv). pose proof (Hgone a v Ha Hv) as ->. rewrite Hu in Hv. injection Hv as <-. congruence.
Qed.
Lemma swept_trans me s l s1 l1 f1 s2 l2 f2 : ring_ok s l -> swept me s l s1 l1 f1 -> swept me s1 l1 s2 l2 f2 -> swept me s l s2 l2 (f1 ++ f2).
Proof.
  intros H A B. destruct (sw_frame _ _ _ _ _ _ A) as (A1 & A2 & A3 & A4), (sw_frame _ _ _ _ _ _ B) as (B1 & B2 & B3 & B4).
  assert (l2 ⊆ l1) as Hsub by (intros a Ha; eapply elem_of_sublist; [exact Ha|apply B]).
  assert (cur s1 me = cur s me) as Hcur by (unfold cur, cpu_at; by rewrite A4).
  assert (forall a u, tasks s !! a = Some u -> a ∈ l1 -> exists u1, tasks s1 !! a = Some u1 /\ relinked u u1) as Hk by (intros; by apply A).
  constructor; [apply B|etrans; [apply B|apply A]|by rewrite B1, B2, B3, B4| | |].
  - intros a u Ha Hu. destruct (Hk a u Hu (Hsub _ Ha)) as (u1 & Hu1 & R1). destruct (sw_kept _ _ _ _ _ _ B a u1 Ha Hu1) as (u2 & Hu2 & R2). eauto using relinked_trans.
  - intros a u Ha Hu. destruct (decide (a ∈ l1)) as [Hi|Hi]; [|by apply A].
    destruct (Hk a u Hu Hi) as (u1 & Hu1 & R1). destruct (sw_gone _ _ _ _ _ _ B a u1 Ha Hu1) as (G1 & G2 & G3 & G4). rewrite R1 in G1, G2. rewrite Hcur in G3. rewrite A1 in G4. done.
  - intros d. rewrite elem_of_app, (sw_freed _ _ _ _ _ _ A), (sw_freed _ _ _ _ _ _ B). split.
    + intros [(Hd & a & u & Ha & Hu & E)|(Hd & a & u1 & Ha & Hu1 & E)]; (split; [done|]).
      * exists a, u. split; [intros Hi; by apply Ha, Hsub|done].
      * apply (ring_member _ _ _ _ (sw_ring _ _ _ _ _ _ A)) in Hu1 as Hi. assert (a ∈ l) as Hil by (eapply elem_of_sublist; [exact Hi|apply A]).
        destruct (ring_lookup _ _ _ H Hil) as [u Hu]. destruct (Hk a u Hu Hi) as (u1' & Hu1' & R). rewrite Hu1 in Hu1'. injection Hu1' as <-. exists a, u. split_and!; [done|done|]. rewrite R in E. done.
    + intros (Hd & a & u & Ha & Hu & E). destruct (decide (a ∈ l1)) as [Hi|Hi]; [right|left; split; [done|]; by exists a, u].
      split; [done|]. destruct (Hk a u Hu Hi) as (u1 & Hu1 & R). exists a, u1. split_and!; [done|done|]. by rewrite R.
Qed.

Lemma reap_from_spec now me s l p freed fuel : ring_ok s l -> p ∈ l ->
  exists s' l' fr, reap_from fuel now me p freed s = Some (s', freed ++ fr) /\ swept me s l s' l' fr.
Proof.
  revert s l p freed. induction fuel as [|fuel IH]; intros s l p freed H Hp; cbn [reap_from].
  - exists s, l, []. rewrite app_nil_r. split; [done|by apply swept_nothing].
  - destruct (ring_lookup _ _ _ H Hp) as [t Ht]. rewrite Ht. cbn [mbind option_bind].
    assert (forall q, q ∈ l -> exists s' l' fr, (if q =? ring_head s then Some (s, freed) else reap_from fuel now me q freed s) = Some (s', freed ++ fr) /\ swept me s l s' l' fr) as Hgo.
    { intros q Hq. destruct (q =? ring_head s); [|by apply IH]. exists s, l, []. rewrite app_nil_r. split; [done|by apply swept_nothing]. }
    destruct (Z.eqb_spec (next_of t) p) as [E|E]; cbn [mbind option_bind]; [rewrite E; by apply Hgo|].
    apply list_elem_of_split in Hp as (l1 & l2 & El). pose proof (ro_chain _ _ H) as Hc. rewrite El in Hc. apply links_app in Hc as [_ [(t' & Ht' & Hn) Hc]].
    rewrite Ht in Ht'. injection Ht' as <-. destruct l2 as [|n l2]; cbn [hd] in Hn; rewrite Hn in *.
    + assert (ring_head s ∈ l) as Hh by (rewrite (ro_head _ _ H), El; destruct l1; by left). destruct (ring_lookup _ _ _ H Hh) as [u Hu]. rewrite Hu. cbn [mbind option_bind].
      assert (can_collect now me (ring_head s) u s = false) as -> by (unfold can_collect; by rewrite Z.eqb_refl, orb_true_r). cbn [mbind option_bind]. by apply Hgo.
    + assert (n ∈ l) as Hnl by (rewrite El; apply elem_of_app; right; right; by left). destruct (ring_lookup _ _ _ H Hnl) as [u Hu]. rewrite Hu. cbn [mbind option_bind].
      destruct (can_collect now me n u s) eqn:Ec; cbn [mbind option_bind]; [|by apply Hgo]. subst l.
      pose proof (swept_one now me s l1 p n l2 u H Hu Ec) as Hs. fold (unlinked p n (next_of u) s).
      set (fr := if dir (m_of u) =? 0 then freed else freed ++ [dir (m_of u)]).
      assert (fr = freed ++ (if dir (m_of u) =? 0 then [] else [dir (m_of u)])) as Efr by (unfold fr; destruct (_ =? 0); [by rewrite app_nil_r|done]).
      change (ring_head (unlinked p n (next_of u) s)) with (ring_head s).
      destruct (p =? ring_head s); [exists (unlinked p n (next_of u) s), (l1 ++ p :: l2); eexists; split; [by rewrite Efr|done]|].
      destruct (IH (unlinked p n (next_of u) s) (l1 ++ p :: l2) p fr) as (s' & l' & fr' & -> & Hs'); [by apply unlinked_ring|apply elem_of_app; right; by left|].
      exists s', l'. eexists. rewrite Efr, <- app_assoc. split; [done|]. by eapply swept_trans.
Qed.

Lemma wf_swept me s l s' l' fr : wf s -> numbered me -> ring_ok s l -> swept me s l s' l' fr -> wf s'.
Proof.
  intros H Hme Hl A. destruct (sw_frame _ _ _ _ _ _ A) as (A1 & A2 & A3 & A4).
  assert (forall a t', tasks s' !! a = Some t' -> exists t, tasks s !! a = Some t /\ relinked t t' /\ a ∈ l') as Hb.
  { intros a t' Ht'. apply (ring_member _ _ _ _ (sw_ring _ _ _ _ _ _ A)) in Ht' as Hi. assert (a ∈ l) as Hil by (eapply elem_of_sublist; [exact Hi|apply A]).
    destruct (ring_lookup _ _ _ Hl Hil) as [t Ht]. destruct (sw_kept _ _ _ _ _ _ A a t Hi Ht) as (u & Hu & R). exists t. rewrite Ht' in Hu. by injection Hu as <-. }
  assert (forall a t, tasks s !! a = Some t -> 0 <= on_cpu t \/ is_dead (p_of t) = false -> exists t', tasks s' !! a = Some t' /\ relinked t t') as Hf.
  { intros a t Ht Hk. destruct (decide (a ∈ l')) as [Hi|Hi]; [by apply A|]. destruct (sw_gone _ _ _ _ _ _ A a t Hi Ht) as (G1 & G2 & _). destruct Hk; [lia|congruence]. }
  assert (forall c, cpu_at s' c = cpu_at s c) as Hcp by (intros c; unfold cpu_at; by rewrite A4).
  assert (forall c, cur s' c = cur s c) as Hcu by (intros c; unfold cur; by rewrite Hcp).
  constructor.
  - exists l'. apply A.
  - intros a t' (t & Ht & R & _)%Hb. rewrite R. exact (wf_addr _ H a t Ht).
  - intros a b t' u' (t & Ht & R & _)%Hb (u & Hu & R' & _)%Hb E. rewrite R, R' in E. by apply (wf_pids _ H a b t u Ht Hu).
  - intros a t' (t & Ht & R & _)%Hb. rewrite R, A2. exact (wf_pid _ H a t Ht).
  - rewrite A2. apply H.
  - rewrite A4. apply H.
  - intros c Hn. rewrite Hcu. intros E. destruct (wf_current _ H c Hn E) as (t & Ht & Ho). destruct (Hf _ t Ht) as (t' & Ht' & R); [left; unfold numbered in Hn; lia|]. exists t'. split; [done|]. by rewrite R.
  - intros a t' (t & Ht & R & _)%Hb. rewrite R, Hcu. exact (wf_on_cpu _ H a t Ht).
  - intros c Hn. rewrite Hcp. intros E. destruct (wf_idle _ H c Hn E) as (t & Ht & Hfit & Ho). destruct (Hf _ t Ht) as (t' & Ht' & R).
    { right. destruct Hfit as (Hw & _). unfold wants_to_run, st in Hw. unfold is_dead. destruct (state (p_of t)); done. }
    exists t'. split; [done|]. by rewrite R.
  - intros c d Hn Hd. rewrite !Hcp. by apply H.
  - intros c Hn. rewrite A3, Hcu, Hcp. by apply H.
  - rewrite A3, Hcu, Hcp. apply H.
  - intros a t' (t & Ht & R & _)%Hb. rewrite R, Hcp. exact (wf_kernel _ H a t Ht).
  - intros a t' (t & Ht & R & _)%Hb. rewrite R. exact (wf_user _ H a t Ht).
  - intros a b t' u' (t & Ht & R & _)%Hb (u & Hu & R' & _)%Hb. rewrite R, R'. exact (wf_dirs _ H a b t u Ht Hu).
  - intros c t' Hn. rewrite Hcu, Hcp. intros (t & Ht & R & _)%Hb. rewrite R. exact (wf_cr3 _ H c t Hn Ht).
Qed.

(** ** Handing a processor over *)

Definition moved (t t' : task) : Prop :=
  is_user t' = is_user t /\ dir (m_of t') = dir (m_of t) /\ pid_of t' = pid_of t /\ addr (p_of t') = addr (p_of t).
(** Processor [me] goes from the task it had to [q]. *)
Record handed (me q : Z) (s s' : sched) : Prop := {
  ha_ring : exists l, ring_ok s' l;
  ha_next : next_pid s' = next_pid s; ha_started : started s' = started s; ha_len : length (cpus s') = length (cpus s);
  ha_others : forall c, numbered c -> c <> me -> same_cpu (cpu_at s c) (cpu_at s' c);
  ha_me : cur s' me = q /\ idle_of (cpu_at s' me) = idle_of (cpu_at s me) /\ forall t, tasks s' !! q = Some t -> cr3 (cpu_at s' me) = wanted t;
  ha_to : forall a t, tasks s !! a = Some t -> exists t', tasks s' !! a = Some t' /\ moved t t' /\ on_cpu t' = (if decide (a = q) then me else if decide (a = cur s me) then -1 else on_cpu t);
  ha_from : forall a, is_Some (tasks s' !! a) -> is_Some (tasks s !! a) }.

Lemma wf_handed me q t s s' : wf s -> handed me q s s' -> numbered me -> q <> 0 -> (me = 0 -> started s = true) ->
  tasks s !! q = Some t -> on_cpu t = -1 \/ on_cpu t = me ->
  idle_of (cpu_at s me) = q \/ (forall c, numbered c -> idle_of (cpu_at s c) <> q) /\ (me = 0 \/ is_user t = true) ->
  idle_of (cpu_at s me) <> 0 ->
  (forall c u u', numbered c -> tasks s !! idle_of (cpu_at s c) = Some u -> tasks s' !! idle_of (cpu_at s c) = Some u' -> idle_fit u -> idle_fit u') -> wf s'.
Proof.
  intros H A Hme Hq Hst Ht Hto Hok Him Hfit. destruct (ha_me _ _ _ _ A) as (M1 & M2 & M3).
  assert (forall a t', tasks s' !! a = Some t' -> exists t, tasks s !! a = Some t /\ moved t t' /\ on_cpu t' = (if decide (a = q) then me else if decide (a = cur s me) then -1 else on_cpu t)) as Hb.
  { intros a t' Ht'. destruct (ha_from _ _ _ _ A a ltac:(by eexists)) as [u Hu]. exists u. split; [done|]. destruct (ha_to _ _ _ _ A a u Hu) as (u' & Hu' & R). congruence. }
  assert (forall c, numbered c -> c <> me -> cur s' c = cur s c /\ idle_of (cpu_at s' c) = idle_of (cpu_at s c) /\ cr3 (cpu_at s' c) = cr3 (cpu_at s c)) as Hoth.
  { intros c Hn Hc. destruct (ha_others _ _ _ _ A c Hn Hc) as (? & ? & ?). done. }
  assert (forall c, numbered c -> idle_of (cpu_at s' c) = idle_of (cpu_at s c)) as Hidl by (intros c Hn; destruct (decide (c = me)) as [->|]; [done|by apply Hoth]).
  (* a task another processor has is neither the old nor the new one of this *)
  assert (forall c u, numbered c -> c <> me -> cur s c <> 0 -> tasks s !! cur s c = Some u -> on_cpu u = c -> cur s c <> q /\ cur s c <> cur s me) as Hdis.
  { intros c u Hn Hc Hz Hu Ho. split; [intros E; rewrite E in Hu; rewrite Ht in Hu; injection Hu as <-; unfold numbered in Hn; lia|].
    intros E. destruct (wf_current _ H me Hme ltac:(by rewrite <- E)) as (v & Hv & Hov). rewrite <- E, Hu in Hv. injection Hv as <-. congruence. }
  constructor.
  - apply A.
  - intros a t' (u & Hu & (_ & _ & _ & ->) & _)%Hb. by apply (wf_addr _ H).
  - intros a b t' u' (u & Hu & (_ & _ & E1 & _) & _)%Hb (v & Hv & (_ & _ & E2 & _) & _)%Hb E. apply (wf_pids _ H a b u v Hu Hv). congruence.
  - intros a t' (u & Hu & (_ & _ & -> & _) & _)%Hb. rewrite (ha_next _ _ _ _ A). by apply (wf_pid _ H a).
  - rewrite (ha_next _ _ _ _ A). apply H.
  - rewrite (ha_len _ _ _ _ A). apply H.
  - intros c Hn. destruct (decide (c = me)) as [->|Hc].
    + rewrite M1. intros _. destruct (ha_to _ _ _ _ A q t Ht) as (t' & Ht' & _ & Ho). rewrite decide_True in Ho by done. eauto.
    + destruct (Hoth c Hn Hc) as (-> & _). intros E. destruct (wf_current _ H c Hn E) as (u & Hu & Ho). destruct (Hdis c u Hn Hc E Hu Ho) as [N1 N2].
      destruct (ha_to _ _ _ _ A _ u Hu) as (u' & Hu' & _ & Ho'). rewrite !decide_False in Ho' by done. exists u'. split; [done|congruence].
  - intros a t' (u & Hu & _ & ->)%Hb. destruct (decide (a = q)) as [->|N1]; [by right|]. destruct (decide (a = cur s me)) as [->|N2]; [by left|].
    destruct (wf_on_cpu _ H a u Hu) as [|[Hn E]]; [by left|right]. split; [done|]. destruct (decide (on_cpu u = me)) as [Ec|Ec]; [congruence|]. by destruct (Hoth _ Hn Ec) as (-> & _).
  - intros c Hn. rewrite (Hidl c Hn). intros E. destruct (wf_idle _ H c Hn E) as (u & Hu & Hf & Ho). destruct (ha_to _ _ _ _ A _ u Hu) as (u' & Hu' & _ & Ho').
    exists u'. split_and!; [done|by apply (Hfit c u u')|]. rewrite Ho'. destruct (decide (idle_of (cpu_at s c) = q)) as [E2|N1].
    + right. destruct Hok as [E3|[Hno _]]; [|by destruct (Hno c Hn)]. by apply (wf_idles _ H me c Hme Hn Him); congruence.
    + destruct (decide (idle_of (cpu_at s c) = cur s me)); [by left|done].
  - intros c d Hn Hd. rewrite (Hidl c Hn), (Hidl d Hd). by apply H.
  - intros c Hn. rewrite (Hidl c Hn), (ha_started _ _ _ _ A). destruct (decide (c = me)) as [->|Hc]; [done|]. destruct (Hoth c Hn Hc) as (-> & _). by apply H.
  - rewrite (ha_started _ _ _ _ A). intros E. destruct (decide (0 = me)) as [<-|Hc]; [rewrite Hst in E; done|]. destruct (Hoth 0 ltac:(done) Hc) as (-> & -> & _). by apply (wf_boot _ H).
  - intros a t' (u & Hu & (-> & _) & ->)%Hb Hp. destruct (decide (a = q)) as [->|N1].
    + rewrite (Hidl me Hme). rewrite Ht in Hu. injection Hu as <-. destruct Hok as [?|[_ [?|?]]]; [by right|lia|by left].
    + destruct (decide (a = cur s me)); [lia|]. destruct (wf_on_cpu _ H a u Hu) as [|[Hn _]]; [lia|]. rewrite (Hidl _ Hn). by apply (wf_kernel _ H).
  - intros a t' (u & Hu & (-> & -> & _) & _)%Hb. by apply (wf_user _ H a).
  - intros a b t' u' (u & Hu & (-> & -> & _) & _)%Hb (v & Hv & (_ & -> & _) & _)%Hb. by apply (wf_dirs _ H).
  - intros c t' Hn. destruct (decide (c = me)) as [->|Hc]; [rewrite M1; by apply M3|]. destruct (Hoth c Hn Hc) as (-> & _ & ->).
    intros (u & Hu & (_ & Hd & _) & _)%Hb. rewrite (wf_cr3 _ H c u Hn Hu). unfold wanted. by rewrite Hd.
Qed.

(** ** A switch *)

Definition context (t : task) : Z * registers_t * list Z := (krsp t, frame t, fpu t).
(** Ready, on no processor, and not an idle task. *)
Definition waiting (s : sched) (a : Z) : Prop :=
  exists t, tasks s !! a = Some t /\ st t = TASK_READY /\ on_cpu t = -1 /\ is_idle s a = false.

Lemma is_idle_spec s a : zlen (cpus s) = SMP_MAX_CPUS -> is_idle s a = true <-> exists c, numbered c /\ idle_of (cpu_at s c) = a.
Proof.
  intros Hl. unfold is_idle. rewrite existsb_exists. split.
  - intros (x & Hx & E%Z.eqb_eq). apply list_elem_of_In, list_elem_of_lookup in Hx as [i Hi]. exists (Z.of_nat i). apply lookup_lt_Some in Hi as Hlt. unfold numbered. split; [lia|].
    unfold cpu_at. rewrite Nat2Z.id. by rewrite (list_lookup_total_correct _ _ _ Hi).
  - intros (c & Hc & E). exists (cpu_at s c). split; [|by apply Z.eqb_eq]. apply list_elem_of_In. unfold cpu_at. apply list_elem_of_lookup_total_2. unfold numbered in Hc. lia.
Qed.
Lemma calm_idle s s' a : zlen (cpus s) = SMP_MAX_CPUS -> calm s s' -> is_idle s' a = is_idle s a.
Proof.
  intros Hl H. apply eq_true_iff_eq. rewrite !is_idle_spec by (done || by rewrite (ca_len _ _ H)).
  split; intros (c & Hc & E); exists c; (split; [done|]); destruct (ca_cpus _ _ H c Hc) as (_ & E' & _); congruence.
Qed.

(** The state when a task has been put down: what it had when it was last seen running. *)
Definition rested (me : Z) (sp : Z) (f : registers_t) (s s' : sched) : Prop :=
  (forall c, cpu_at s' c = cpu_at s c) /\ ring_head s' = ring_head s /\ next_pid s' = next_pid s /\ started s' = started s /\ length (cpus s') = length (cpus s) /\
  (forall a, is_Some (tasks s' !! a) <-> is_Some (tasks s !! a)) /\
  forall a t, tasks s !! a = Some t -> exists t', tasks s' !! a = Some t' /\ moved t t' /\ next_of t' = next_of t /\ slices t' = slices t /\
    (if decide (a = cur s me) then on_cpu t' = -1 /\ context t' = (sp, f, live (cpu_at s me)) /\ p_of t' = (if bool_decide (st t = TASK_RUNNING) then with_state TASK_READY (wait_on (p_of t)) (wake_at (p_of t)) (p_of t) else p_of t)
     else t' = t).
Lemma put_down_spec me sp f s : wf s -> rested me sp f s (if cur s me =? 0 then s else put_down me sp f s).
Proof.
  intros H. destruct (Z.eqb_spec (cur s me) 0) as [E|E].
  - split_and!; try done. intros a t Ht. exists t. split_and!; [done..|]. rewrite decide_False; [done|]. intros ->. destruct (wf_ring _ H) as [l Hl]. apply (ro_zero _ _ Hl). rewrite <- E. by apply (ring_member _ _ _ _ Hl Ht).
  - split_and!; try done; [intros a; unfold put_down; by rewrite is_Some_upd|]. intros a t Ht. unfold put_down. rewrite upd_lookup. destruct (decide (cur s me = a)) as [<-|Hn].
    + rewrite Ht. cbn. eexists. split; [reflexivity|]. rewrite decide_True by done. split_and!; [|done|done|done|done|]; [destruct t as [[]]; by destruct (bool_decide _)|].
      destruct t as [[]]. unfold st. cbn. by destruct (bool_decide _).
    + exists t. split_and!; [done..|]. by rewrite decide_False.
Qed.
Lemma cpu_at_upd c f s d : numbered c -> numbered d -> zlen (cpus s) = SMP_MAX_CPUS -> cpu_at (upd_cpu c f s) d = if decide (c = d) then f (cpu_at s d) else cpu_at s d.
Proof.
  intros Hc Hd Hl. unfold cpu_at, upd_cpu. cbn [cpus with_cpus]. unfold numbered in *. destruct (decide (c = d)) as [->|Hn].
  - rewrite list_lookup_total_alter, decide_True; [done|lia].
  - rewrite list_lookup_total_alter, decide_False; [done|lia].
Qed.

(** What a switch did: [l] is the ring before and [vs] its tasks in the order of the lap. *)
Record turned (now me : Z) (sp : Z) (f : registers_t) (s : sched) (l vs : list Z) (s' : sched) (sp' : Z) (freed : list Z) : Prop := {
  tu_ring : exists l', ring_ok s' l' /\ l' `sublist_of` l;
  tu_frame : next_pid s' = next_pid s /\ started s' = started s /\ length (cpus s') = length (cpus s);
  tu_others : forall c, numbered c -> c <> me -> cpu_at s' c = cpu_at s c;
  tu_idle : idle_of (cpu_at s' me) = idle_of (cpu_at s me);
  tu_task : exists t', tasks s' !! cur s' me = Some t' /\ sp' = krsp t' /\ live (cpu_at s' me) = fpu t' /\ st t' = TASK_RUNNING;
  tu_context : forall a t', tasks s' !! a = Some t' -> exists t, tasks s !! a = Some t /\ moved t t' /\
    context t' = (if decide (a = cur s me) then (sp, f, live (cpu_at s me)) else context t);
  tu_willing : cur s' me = idle_of (cpu_at s me) \/ exists t, tasks s !! cur s' me = Some t /\ st t <> TASK_DEAD /\ (st t = TASK_SLEEPING -> wake_at (p_of t) <= now);
  tu_gone : forall a t, tasks s !! a = Some t -> tasks s' !! a = None -> forall c, numbered c -> cur s' c <> a;
  tu_freed : forall d, d ∈ freed -> d <> 0 /\ exists a t, tasks s !! a = Some t /\ dir (m_of t) = d /\ tasks s' !! a = None;
  tu_turn : me = 0 -> forall a, waiting s a -> waiting s' a -> cur s' me = a \/ exists pre post, vs = pre ++ cur s' me :: post /\ a ∈ post }.

Section Stages.
Context (now me : Z) (work : bool) (sp : Z) (f : registers_t) (s s1 s2 s3 : sched) (l vs : list Z) (q : Z).
Context (H : wf s) (Hme : numbered me) (Hst : started s = true) (Hon : me <> 0 -> cur s me <> 0) (Hl : ring_ok s l) (Hlap : lap l (cur s me) vs).
Context (H1 : wf s1) (C1 : calm s s1) (P1 : cpus s1 = cpus s) (G1 : forall a t t', tasks s !! a = Some t -> tasks s1 !! a = Some t' -> exists p', t' = with_proc p' t /\ gentle troubled (p_of t) p').
Context (R : rested me sp f s1 s2) (Hch : choice now me work (cur s me) s2 vs s3 q).

Lemma stage_cpus c : numbered c -> cur s1 c = cur s c /\ idle_of (cpu_at s1 c) = idle_of (cpu_at s c).
Proof. intros Hc. destruct (ca_cpus _ _ C1 c Hc) as (? & ? & _). done. Qed.
Lemma stage_idle : idle_of (cpu_at s me) <> 0.
Proof. apply (wf_online _ H me Hme); auto. Qed.
Lemma stage_calm : calm s2 s3.
Proof. destruct Hch; auto using calm_refl, released_calm. Qed.
Lemma stage_is_idle a : is_idle s2 a = is_idle s a.
Proof.
  destruct R as (Rc & _ & _ & _ & Rl & _). apply eq_true_iff_eq. pose proof (wf_cpus _ H) as Hcl. rewrite !is_idle_spec by (done || rewrite Rl, (ca_len _ _ C1); done).
  split; intros (c & Hc & E); exists c; (split; [done|]); rewrite Rc in *; destruct (stage_cpus c Hc); congruence.
Qed.
(** What is known of each task once one is put down. *)
Lemma stage_task a t : tasks s !! a = Some t -> exists t2, tasks s2 !! a = Some t2 /\ moved t t2 /\ next_of t2 = next_of t /\
  on_cpu t2 = (if decide (a = cur s me) then -1 else on_cpu t) /\ context t2 = (if decide (a = cur s me) then (sp, f, live (cpu_at s1 me)) else context t) /\
  (a <> cur s me -> stirred (p_of t) (p_of t2)) /\ (st t = TASK_DEAD -> st t2 = TASK_DEAD) /\ (st t = TASK_SLEEPING -> st t2 = TASK_DEAD \/ st t2 = TASK_SLEEPING /\ wake_at (p_of t2) = wake_at (p_of t)) /\
  (idle_fit t -> idle_fit t2).
Proof.
  intros Ht. destruct (ca_to _ _ C1 a t Ht) as (t1 & Ht1 & Q). destruct (G1 a t t1 Ht Ht1) as (p1 & -> & (Ga & Gp & Gpp & Gs & Gw)).
  destruct R as (Rc & _ & _ & _ & _ & _ & Rt). destruct (Rt a _ Ht1) as (t2 & Ht2 & Rm & Rn & _ & Rx). exists t2. split; [done|].
  destruct (stage_cpus me Hme) as [Ecur _]. rewrite Ecur in Rx. destruct Q as (Q1 & Q2 & Q3 & Q4 & Q5 & Q6). destruct Rm as (M1 & M2 & M3 & M4).
  assert (idle_fit t -> idle_fit (with_proc p1 t)) as Hfit.
  { intros Hf. assert (troubled (p_of t) = false) as Htr by (unfold troubled; destruct Hf as (_ & _ & -> & _); done). by apply (idle_fit_gentle t _ p1 troubled). }
  assert (moved t t2) as Hmv by (split_and!; congruence). split; [done|]. split; [by rewrite Rn|].
  assert (st t = TASK_DEAD -> st (with_proc p1 t) = TASK_DEAD) as Hdead by (unfold st; cbn; intros Hd; destruct Gs as [[E _]|[?|[E _]]]; congruence).
  assert (st t = TASK_SLEEPING -> st (with_proc p1 t) = TASK_DEAD \/ st (with_proc p1 t) = TASK_SLEEPING /\ wake_at (p_of (with_proc p1 t)) = wake_at (p_of t)) as Hsl.
  { unfold st. cbn. intros Hd. destruct Gs as [[E ?]|[?|[E _]]]; [right; split; congruence|by left|congruence]. }
  destruct (decide (a = cur s me)) as [E|Hn].
  - destruct Rx as (R1 & R2 & R3). split_and!; [done|done|done| | |].
    + intros Hd. apply Hdead in Hd. unfold st in *. rewrite R3, Hd. done.
    + intros Hd. unfold st in *. rewrite R3. destruct (Hsl Hd) as [Ed|[Ed ?]]; rewrite Ed; cbn; auto.
    + intros Hf. apply Hfit in Hf. destruct Hf as (F1 & F2 & F3 & F4). unfold idle_fit, wants_to_run, st in *. rewrite R3. destruct (bool_decide (state (p_of (with_proc p1 t)) = TASK_RUNNING)) eqn:Er; cbn in *; rewrite M1, ?Er; done.
  - subst t2. split_and!; auto.
Qed.

Lemma stage_released a t2 : tasks s2 !! a = Some t2 -> exists t3, tasks s3 !! a = Some t3 /\ (t3 = t2 \/ t3 = release now t2).
Proof.
  intros Ht. destruct Hch as [| |]; [by eauto| |]; rewrite released_lookup, Ht; (destruct (decide _); cbn; eauto).
Qed.
Lemma stage_back a : is_Some (tasks s2 !! a) -> exists t, tasks s !! a = Some t.
Proof. destruct R as (_ & _ & _ & _ & _ & Rs & _). rewrite Rs. intros Ha. by apply (ca_from _ _ C1) in Ha. Qed.
Lemma release_dead t : st t = TASK_DEAD -> release now t = t.
Proof. unfold st, release. intros ->. done. Qed.
Lemma wants_release t : wants_to_run (release now t) = true -> st t <> TASK_DEAD /\ (st t = TASK_SLEEPING -> wake_at (p_of t) <= now).
Proof.
  intros Hw. split; [intros E; rewrite release_dead in Hw by done; unfold wants_to_run in Hw; by rewrite E in Hw|].
  intros E. destruct (Z.leb_spec (wake_at (p_of t)) now); [done|]. exfalso. unfold release in Hw. unfold st in E. rewrite E in Hw.
  rewrite bool_decide_true, bool_decide_false in Hw by done. rewrite (proj2 (Z.leb_gt _ _)) in Hw by done. cbn in Hw. unfold wants_to_run, st in Hw. by rewrite E in Hw.
Qed.

(** What is known of the task that is chosen. *)
Lemma stage_chosen : exists t, tasks s !! q = Some t /\ q <> 0 /\ (on_cpu t = -1 \/ on_cpu t = me) /\
  (idle_of (cpu_at s me) = q \/ (forall c, numbered c -> idle_of (cpu_at s c) <> q) /\ (me = 0 \/ is_user t = true)) /\
  (q = idle_of (cpu_at s me) \/ st t <> TASK_DEAD /\ (st t = TASK_SLEEPING -> wake_at (p_of t) <= now)).
Proof.
  destruct R as (Rc & _). assert (idle_of (cpu_at s2 me) = idle_of (cpu_at s me)) as Ei by (rewrite Rc; by apply stage_cpus).
  destruct (wf_idle _ H me Hme stage_idle) as (ti & Hti & _ & Hoi).
  destruct Hch as [_ _ _|q pre post _ _ Ht _|_ _].
  - rewrite Ei. exists ti. split_and!; [done|apply stage_idle|done|by left|by left].
  - unfold takes in Ht. destruct (tasks s2 !! q) as [t2|] eqn:E2; [|done]. destruct (stage_back q ltac:(by eexists)) as [t Ht0].
    destruct (stage_task q t Ht0) as (t2' & E2' & (M1 & _) & _ & Ho & _ & _ & Hd & Hs & _). rewrite E2 in E2'. injection E2' as <-.
    unfold may_take in Ht. rewrite !andb_true_iff, !negb_true_iff, !andb_false_iff, !negb_false_iff in Ht. destruct Ht as (((Hw & Hni) & Hcpu) & Hus).
    destruct (release_quiet now t2) as (_ & Q2 & Q3 & _). rewrite Q2 in Hcpu. rewrite Q3, M1 in Hus. rewrite stage_is_idle in Hni.
    assert (q <> 0) as Hq0 by (intros ->; by apply (ro_zero _ _ Hl), (ring_member _ _ _ _ Hl Ht0)).
    exists t. split_and!; [done|done| | |].
    + destruct (decide (q = cur s me)) as [->|Hn]; [right; destruct (wf_current _ H me Hme Hq0) as (u & Hu & <-); congruence|].
      rewrite Ho in Hcpu. destruct (wf_on_cpu _ H q t Ht0) as [|[Hnn _]]; [by left|]. right. destruct Hcpu as [E|E]; [apply Z.leb_gt in E; unfold numbered in Hnn; lia|by apply Z.eqb_eq].
    + right. split; [|destruct Hus as [E|E]; [left; by apply Z.eqb_eq|by right]]. intros c Hc E. assert (is_idle s q = true) as Hi by (apply is_idle_spec; [apply H|eauto]). congruence.
    + right. destruct (wants_release t2 Hw) as [W1 W2]. split; [intros E; by apply W1, Hd|]. intros E. destruct (Hs E) as [E'|[E' <-]]; [done|by apply W2].
  - rewrite Ei, (proj2 (Z.eqb_neq _ _)) by apply stage_idle. exists ti. split_and!; [done|apply stage_idle|done|by left|by left].
Qed.

Lemma stage_rings : ring_ok s1 l /\ ring_ok s2 l /\ ring_ok s3 l.
Proof.
  assert (ring_ok s1 l) as L1 by (by apply ring_calm with s). destruct R as (_ & Rh & _ & _ & _ & Rs & Rt).
  assert (ring_ok s2 l) as L2.
  { apply ring_ext with s1; [|intros a; by rewrite Rs|done|done]. intros a t Ht. destruct (Rt a t Ht) as (t' & ? & _ & ? & _). eauto. }
  split_and!; [done|done|]. apply ring_calm with s2; [apply stage_calm|done].
Qed.
(** Up to the handing over: each task as it was, but for the one put down. *)
Lemma stage_kept a t : tasks s !! a = Some t -> exists t3, tasks s3 !! a = Some t3 /\ moved t t3 /\ next_of t3 = next_of t /\
  on_cpu t3 = (if decide (a = cur s me) then -1 else on_cpu t) /\ context t3 = (if decide (a = cur s me) then (sp, f, live (cpu_at s1 me)) else context t) /\ (idle_fit t -> idle_fit t3).
Proof.
  intros Ht. destruct (stage_task a t Ht) as (t2 & Ht2 & (M1 & M2 & M3 & M4) & Hn & Ho & Hx & _ & _ & _ & Hf). destruct (stage_released a t2 Ht2) as (t3 & Ht3 & Hr). exists t3. split; [done|].
  destruct Hr as [->| ->]; [done|]. destruct (release_quiet now t2) as (Q1 & Q2 & Q3 & Q4 & Q5 & Q6). split_and!; try congruence.
  - split_and!; congruence.
  - rewrite <- Hx. unfold release. by repeat case_match.
  - intros Hfit. apply Hf in Hfit. destruct Hfit as (W & F2 & F3 & F4). assert (release now t2 = t2) as ->; [|done].
    unfold wants_to_run, st in W. unfold release. destruct (state (p_of t2)); done.
Qed.

Definition taken_over (t3 : task) : sched :=
  upd_cpu me (fun x => Cpu q (idle_of x) (fpu t3) (wanted t3) (u64 (stack_base t3 + STACK_SIZE))) (upd q (with_cpu TASK_RUNNING me (u32 (slices t3 + 1))) s3).
Lemma stage_len : zlen (cpus s3) = SMP_MAX_CPUS.
Proof. destruct R as (_ & _ & _ & _ & Rl & _). rewrite (ca_len _ _ stage_calm), Rl, (ca_len _ _ C1). apply H. Qed.
Lemma taken_over_cpu t3 c : numbered c -> cpu_at (taken_over t3) c = if decide (me = c) then Cpu q (idle_of (cpu_at s3 c)) (fpu t3) (wanted t3) (u64 (stack_base t3 + STACK_SIZE)) else cpu_at s3 c.
Proof. intros Hc. unfold taken_over. rewrite cpu_at_upd; [done|done|done|exact stage_len]. Qed.
Lemma taken_over_task t3 a : tasks (taken_over t3) !! a = if decide (q = a) then with_cpu TASK_RUNNING me (u32 (slices t3 + 1)) <$> tasks s3 !! a else tasks s3 !! a.
Proof. apply upd_lookup. Qed.
Lemma stage_ring t3 : ring_ok (taken_over t3) l.
Proof.
  destruct stage_rings as (_ & _ & L3). apply ring_ext with s3; [| |done|done].
  - intros a u Hu. rewrite taken_over_task, Hu. destruct (decide (q = a)); cbn; eauto.
  - intros a. rewrite taken_over_task. destruct (decide (q = a)); by rewrite ?fmap_is_Some.
Qed.
Lemma stage_handed t3 : tasks s3 !! q = Some t3 -> handed me q s (taken_over t3).
Proof.
  intros Ht3. destruct R as (Rc & _ & Rn & Rs & Rl & Rd & _). pose proof stage_calm as C3. constructor.
  - exists l. apply stage_ring.
  - change (next_pid s3 = next_pid s). rewrite (ca_next _ _ C3), Rn. apply C1.
  - change (started s3 = started s). rewrite (ca_started _ _ C3), Rs. apply C1.
  - unfold taken_over. cbn. rewrite length_alter, (ca_len _ _ C3), Rl. apply C1.
  - intros c Hc Hn. rewrite taken_over_cpu, decide_False by (done || congruence). destruct (ca_cpus _ _ C3 c Hc) as (A1 & A2 & A3), (ca_cpus _ _ C1 c Hc) as (B1 & B2 & B3). rewrite Rc in A1, A2, A3.
    split_and!; congruence.
  - unfold cur. rewrite taken_over_cpu, decide_True by done. cbn [current_of idle_of cr3]. split_and!; [done| |].
    + destruct (ca_cpus _ _ C3 me Hme) as (_ & A2 & _), (ca_cpus _ _ C1 me Hme) as (_ & B2 & _). rewrite Rc in A2. congruence.
    + intros t. rewrite taken_over_task, decide_True, Ht3 by done. cbn. by intros [= <-].
  - intros a t Ht. destruct (stage_kept a t Ht) as (u & Hu & Hm & _ & Ho & _). rewrite taken_over_task. destruct (decide (q = a)) as [->|Hn].
    + rewrite Hu. cbn. eexists. split; [done|]. rewrite (decide_True (P := a = a)) by done. done.
    + exists u. rewrite (decide_False (P := a = q)) by congruence. done.
  - intros a Ha. assert (is_Some (tasks s3 !! a)) as Ha3 by (rewrite taken_over_task in Ha; destruct (decide (q = a)); by rewrite ?fmap_is_Some in Ha).
    apply (ca_from _ _ C3) in Ha3. rewrite Rd in Ha3. by apply (ca_from _ _ C1).
Qed.
Lemma stage_wf t3 : tasks s3 !! q = Some t3 -> wf (taken_over t3).
Proof.
  intros Ht3. destruct stage_chosen as (t & Ht & Hq & Ho & Hok & _). apply (wf_handed me q t s); [done|by apply stage_handed|done|done|done|done|done|done|exact stage_idle|].
  intros c u u' Hc Hu Hu' Hf. destruct (stage_kept _ u Hu) as (u3 & Hu3 & _ & _ & _ & _ & Hf3). specialize (Hf3 Hf). rewrite taken_over_task in Hu'.
  destruct (decide (q = idle_of (cpu_at s c))); [|congruence]. rewrite Hu3 in Hu'. injection Hu' as <-. destruct Hf3 as (_ & F). split; [done|exact F].
Qed.

Section Swept.
Context (t3 : task) (s5 : sched) (l' fr : list Z) (Ht3 : tasks s3 !! q = Some t3) (Hsw : swept me (taken_over t3) l s5 l' fr).

Lemma swept_cpus c : cpu_at s5 c = cpu_at (taken_over t3) c.
Proof. unfold cpu_at. by destruct (sw_frame _ _ _ _ _ _ Hsw) as (_ & _ & _ & ->). Qed.
Lemma swept_wf : wf s5.
Proof. apply (wf_swept me (taken_over t3) l s5 l' fr); [by apply stage_wf|done|apply stage_ring|done]. Qed.
(** A task that is still there after the switch. *)
Lemma swept_task a t5 : tasks s5 !! a = Some t5 -> exists t t3', tasks s !! a = Some t /\ tasks s3 !! a = Some t3' /\ relinked (if decide (q = a) then with_cpu TASK_RUNNING me (u32 (slices t3 + 1)) t3' else t3') t5.
Proof.
  intros Ht5. pose proof (sw_ring _ _ _ _ _ _ Hsw) as L5. apply (ring_member _ _ _ _ L5) in Ht5 as Ha. assert (a ∈ l) as Hal by (eapply elem_of_sublist; [exact Ha|apply Hsw]).
  destruct (ring_lookup _ _ _ Hl Hal) as [t Ht]. destruct (stage_kept a t Ht) as (u & Hu & _). exists t, u. split_and!; [done|done|].
  destruct (sw_kept _ _ _ _ _ _ Hsw a (if decide (q = a) then with_cpu TASK_RUNNING me (u32 (slices t3 + 1)) u else u) Ha) as (v & Hv & Rv); [rewrite taken_over_task, Hu; by destruct (decide (q = a))|].
  rewrite Ht5 in Hv. by injection Hv as <-.
Qed.
Lemma swept_chosen : exists t5, tasks s5 !! q = Some t5 /\ relinked (with_cpu TASK_RUNNING me (u32 (slices t3 + 1)) t3) t5.
Proof.
  assert (tasks (taken_over t3) !! q = Some (with_cpu TASK_RUNNING me (u32 (slices t3 + 1)) t3)) as E by (by rewrite taken_over_task, decide_True, Ht3).
  destruct (decide (q ∈ l')) as [Hi|Hi]; [by apply Hsw|]. destruct (sw_gone _ _ _ _ _ _ Hsw q _ Hi E) as (_ & G & _). cbn in G. unfold numbered in Hme. lia.
Qed.
Lemma swept_willing a : me = 0 -> waiting s a -> waiting s5 a -> q <> a -> takes now me s2 a = true.
Proof.
  intros E0 (t & Ht & Hs & Ho & Hi) (t5 & Ht5 & Hs5 & _) Hqa.
  assert (a <> cur s me) as Hn.
  { intros ->. assert (cur s me <> 0) as Hz by (intros E; rewrite E in Ht; by apply (ro_zero _ _ Hl), (ring_member _ _ _ _ Hl Ht)).
    destruct (wf_current _ H me Hme Hz) as (u & Hu & Hou). rewrite Ht in Hu. injection Hu as <-. unfold numbered in Hme. lia. }
  destruct (stage_task a t Ht) as (t2 & Ht2 & _ & _ & Ho2 & _ & Hst2 & _). rewrite decide_False in Ho2 by done. specialize (Hst2 Hn).
  assert (st t2 = TASK_READY) as E2.
  { destruct Hst2 as [[E _]|[E|[E _]]]; [unfold st in *; congruence| |unfold st in Hs; congruence]. exfalso.
    destruct (swept_task a t5 Ht5) as (t' & t3' & _ & Ht3' & Rv). rewrite decide_False in Rv by done. destruct (stage_released a t2 Ht2) as (t3'' & Ht3'' & Hr).
    rewrite Ht3' in Ht3''. injection Ht3'' as <-. assert (t3' = t2) as -> by (destruct Hr as [->| ->]; [done|by apply release_dead]). rewrite Rv in Hs5. unfold st in Hs5. cbn in Hs5. congruence. }
  unfold takes. rewrite Ht2. assert (release now t2 = t2) as -> by (unfold st in E2; unfold release; by rewrite E2).
  unfold may_take, wants_to_run. by rewrite E2, stage_is_idle, Hi, Ho2, Ho, E0.
Qed.

Lemma stage_live c : cpu_at s3 c = cpu_at s c.
Proof.
  destruct R as (Rc & _). transitivity (cpu_at s2 c); [|rewrite Rc; unfold cpu_at; by rewrite P1].
  destruct Hch; [done| |]; unfold cpu_at; by destruct (released_frame now (pre ++ [q0]) s2) as (_ & _ & _ & ->) || by destruct (released_frame now vs s2) as (_ & _ & _ & ->).
Qed.
Lemma stage_turned : exists t5, tasks s5 !! q = Some t5 /\ turned now me sp f s l vs s5 (krsp t5) fr.
Proof.
  destruct swept_chosen as (t5 & Ht5 & R5). exists t5. split; [done|]. destruct stage_chosen as (t & Ht & Hq & _ & _ & Hwill).
  destruct (sw_frame _ _ _ _ _ _ Hsw) as (F1 & F2 & F3 & F4). pose proof (stage_handed t3 Ht3) as Hh.
  assert (cur s5 me = q) as Ecur by (unfold cur; rewrite swept_cpus; apply (ha_me _ _ _ _ Hh)).
  constructor.
  - exists l'. split; apply Hsw.
  - rewrite F2, F3, F4. split_and!; [apply (ha_next _ _ _ _ Hh)|apply (ha_started _ _ _ _ Hh)|apply (ha_len _ _ _ _ Hh)].
  - intros c Hc Hn. rewrite swept_cpus, taken_over_cpu, decide_False by (done || congruence). apply stage_live.
  - rewrite swept_cpus. apply (ha_me _ _ _ _ Hh).
  - rewrite Ecur. exists t5. split_and!; [done|done| |by rewrite R5]. rewrite swept_cpus, taken_over_cpu, decide_True by done. by rewrite R5.
  - intros a u Hu. destruct (swept_task a u Hu) as (v & v3 & Hv & Hv3 & Rv). destruct (stage_kept a v Hv) as (v3' & Hv3' & (M1 & M2 & M3 & M4) & _ & _ & Hx & _).
    rewrite Hv3 in Hv3'. injection Hv3' as <-. exists v. split; [done|]. assert (live (cpu_at s1 me) = live (cpu_at s me)) as El by (unfold cpu_at; by rewrite P1). rewrite El in Hx.
    destruct (decide (q = a)); rewrite Rv; (split; [done|exact Hx]).
  - rewrite Ecur. destruct Hwill; [by left|right; eauto].
  - intros a u Hu Hnone c Hc E. assert (a <> 0) as Hz by (intros ->; by apply (ro_zero _ _ Hl), (ring_member _ _ _ _ Hl Hu)).
    destruct (wf_current _ swept_wf c Hc) as (v & Hv & _); [by rewrite E|congruence].
  - intros d Hd. apply (sw_freed _ _ _ _ _ _ Hsw) in Hd as (Hd & a & u & Ha & Hu & Ed). split; [done|].
    destruct (ha_from _ _ _ _ Hh a ltac:(by eexists)) as [v Hv]. destruct (ha_to _ _ _ _ Hh a v Hv) as (u' & Hu' & (_ & M2 & _) & _). rewrite Hu in Hu'. injection Hu' as <-.
    exists a, v. split_and!; [done|congruence|]. apply eq_None_not_Some. intros [w Hw]. by apply Ha, (ring_member _ _ _ _ (sw_ring _ _ _ _ _ _ Hsw) Hw).
  - rewrite Ecur. intros E0 a Hw Hw5. destruct (decide (q = a)) as [->|Hqa]; [by left|right]. pose proof (swept_willing a E0 Hw Hw5 Hqa) as Hta.
    assert (a ∈ vs) as Hav by (rewrite (lap_perm _ _ _ Hlap); destruct Hw as (v & Hv & _); by apply (ring_member _ _ _ _ Hl Hv)).
    destruct Hch as [Hm|q0 pre post _ -> _ Hpre|_ Hnone]; [done| |rewrite list.Forall_forall in Hnone; rewrite (Hnone a Hav) in Hta; done].
    exists pre, post. split; [done|]. apply elem_of_app in Hav as [Hav|Hav]; [rewrite list.Forall_forall in Hpre; by rewrite (Hpre a Hav) in Hta|]. by apply list.elem_of_cons in Hav as [?|?].
Qed.
End Swept.
End Stages.

Lemma switch_spec now me work sp f s l vs : wf s -> numbered me -> started s = true -> (me <> 0 -> cur s me <> 0) -> ring_ok s l -> l <> [] -> lap l (cur s me) vs ->
  exists s' sp' freed, scheduler_switch kernel_directory now me work true sp f s = Some (Resumes s' sp' freed) /\ wf s' /\ turned now me sp f s l vs s' sp' freed.
Proof.
  intros H Hme Hst Hon Hl Hne Hlap. unfold scheduler_switch. rewrite Hst, (proj2 (Z.eqb_neq (ring_head s) 0)) by (rewrite (ring_head_zero _ _ Hl); done). cbn [negb orb].
  destruct (wf_signals now s H) as (s1 & -> & H1 & C1 & P1 & G1). cbn [mbind option_bind].
  assert (cur s1 me = cur s me) as Ecur by (unfold cur, cpu_at; by rewrite P1).
  assert (negb (cur s1 me =? 0) && negb (bool_decide (is_Some (tasks s1 !! cur s1 me))) = false) as ->.
  { destruct (Z.eqb_spec (cur s1 me) 0) as [|Hc]; [done|]. destruct (wf_current _ H1 me Hme Hc) as (t & -> & _). by rewrite bool_decide_true. }
  rewrite andb_false_r. pose proof (put_down_spec me sp f s1 H1) as R. set (s2 := if cur s1 me =? 0 then s1 else put_down me sp f s1) in *.
  assert (ring_ok s1 l) as L1 by (by apply ring_calm with s). assert (cur s2 me = cur s me) as Ecur2 by (rewrite <- Ecur; unfold cur; by destruct R as (-> & _)).
  assert (ring_ok s2 l) as L2.
  { pose proof R as (_ & Rh & _ & _ & _ & Rs & Rt). apply ring_ext with s1; [|intros a; by rewrite Rs|done|done]. intros a t Ht. destruct (Rt a t Ht) as (t' & ? & _ & ? & _). eauto. }
  rewrite Ecur2. destruct (pick_next_spec now me work (cur s me) s2 l vs L2 Hne Hlap) as (s3 & q & -> & Hch). cbn [mbind option_bind].
  destruct (stage_chosen now me work sp f s s1 s2 s3 l vs q H Hme Hst Hon Hl Hlap C1 G1 R Hch) as (t & Ht & Hq & _).
  rewrite (proj2 (Z.eqb_neq q 0)) by done.
  destruct (stage_kept now me work sp f s s1 s2 s3 vs q Hme C1 G1 R Hch q t Ht) as (t3 & Ht3 & _). unfold take_over. rewrite Ht3. cbn [mbind option_bind].
  change (upd_cpu me _ _) with (taken_over me s3 q t3).
  pose proof (stage_ring now me work sp f s s1 s2 s3 l vs q Hl C1 R Hch t3) as L4.
  destruct (reap_from_spec now me (taken_over me s3 q t3) l (ring_head (taken_over me s3 q t3)) [] 4096 L4) as (s5 & l' & fr & E & Hsw).
  { rewrite (ro_head _ _ L4). destruct l; [done|by left]. }
  unfold reap. rewrite E. cbn [mbind option_bind app].
  destruct (stage_turned now me work sp f s s1 s2 s3 l vs q H Hme Hst Hon Hl Hlap C1 P1 G1 R Hch t3 s5 l' fr Ht3 Hsw) as (t5 & -> & Htu). cbn [mbind option_bind].
  eexists _, _, _. split_and!; [reflexivity| |exact Htu].
  by apply (swept_wf now me work sp f s s1 s2 s3 l vs q H Hme Hst Hon Hl Hlap C1 G1 R Hch t3 s5 l' fr Ht3 Hsw).
Qed.

(** ** New tasks *)

Definition unused (s : sched) (a : Z) : Prop := a <> 0 /\ tasks s !! a = None.
Definition new_dir (s : sched) (d : Z) : Prop := d <> 0 /\ d <> kernel_directory /\ forall a t, tasks s !! a = Some t -> dir (m_of t) <> d.

(** One more task, on no processor or as the idle task of one that has just come up. *)
Lemma wf_grown s s' l a t (m : option Z) : wf s -> ring_ok s l -> unused s a -> inserted s s' l a t ->
  addr (p_of t) = a -> pid_of t = next_pid s -> next_pid s' = next_pid s + 1 -> started s' = started s -> length (cpus s') = length (cpus s) ->
  (if is_user t then new_dir s (dir (m_of t)) else dir (m_of t) = 0) -> on_cpu t = default (-1) m ->
  match m with Some c => numbered c /\ c <> 0 /\ cur s c = 0 /\ idle_of (cpu_at s c) = 0 /\ cr3 (cpu_at s c) = kernel_directory /\ idle_fit t | None => True end ->
  (forall c, numbered c -> cur s' c = (if decide (m = Some c) then a else cur s c) /\ idle_of (cpu_at s' c) = (if decide (m = Some c) then a else idle_of (cpu_at s c)) /\ cr3 (cpu_at s' c) = cr3 (cpu_at s c)) -> wf s'.
Proof.
  intros H Hl [Hz Ha] I Hadr Hpid Hnp Hst Hlen Hdir Hon Hm Hcpu. destruct (in_new _ _ _ _ _ I) as (ta & Hta & Ra).
  assert (forall b u', tasks s' !! b = Some u' -> b = a /\ relinked t u' \/ b <> a /\ exists u, tasks s !! b = Some u /\ relinked u u') as Hb.
  { intros b u' Hu'. destruct (decide (b = a)) as [->|Hn]; [left; split; [done|congruence]|right; split; [done|]].
    destruct (in_ring _ _ _ _ _ I) as (l1 & l2 & El & _ & L'). apply (ring_member _ _ _ _ L') in Hu' as Hi.
    assert (b ∈ l) as Hbl by (rewrite El; rewrite !elem_of_app, ?list.elem_of_cons in *; naive_solver).
    destruct (ring_lookup _ _ _ Hl Hbl) as [u Hu]. destruct (in_old _ _ _ _ _ I b u Hu) as (v & Hv & R). exists u. split; [done|]. congruence. }
  assert (forall b u, tasks s !! b = Some u -> b <> a) as Hna by (intros b u Hu ->; by rewrite Ha in Hu).
  assert (forall b u, tasks s !! b = Some u -> exists u', tasks s' !! b = Some u' /\ relinked u u') as Hold by apply I.
  constructor.
  - destruct (in_ring _ _ _ _ _ I) as (l1 & l2 & _ & _ & L'). eauto.
  - intros b u' [[-> Ru]|(_ & u & Hu & Ru)]%Hb; rewrite Ru; [done|]. exact (wf_addr _ H b u Hu).
  - intros b d u' v' [[-> Ru]|(_ & u & Hu & Ru)]%Hb [[-> Rv]|(_ & v & Hv & Rv)]%Hb; rewrite Ru, Rv; change (pid_of (with_next ?n ?x)) with (pid_of x); intros E; [done| | |by apply (wf_pids _ H b d u v)].
    + pose proof (wf_pid _ H d v Hv). lia.
    + pose proof (wf_pid _ H b u Hu). lia.
  - intros b u' [[-> Ru]|(_ & u & Hu & Ru)]%Hb; rewrite Ru, Hnp; change (pid_of (with_next ?n ?x)) with (pid_of x).
    + pose proof (wf_next _ H). lia.
    + pose proof (wf_pid _ H b u Hu). lia.
  - rewrite Hnp. pose proof (wf_next _ H). lia.
  - rewrite Hlen. apply H.
  - intros c Hc. destruct (Hcpu c Hc) as (-> & _). destruct (decide (m = Some c)) as [->|Hn].
    + intros _. exists ta. split; [done|]. by rewrite Ra.
    + intros E. destruct (wf_current _ H c Hc E) as (u & Hu & Ho). destruct (Hold _ u Hu) as (u' & Hu' & R). exists u'. split; [done|]. by rewrite R.
  - intros b u' [[-> Ru]|(_ & u & Hu & Ru)]%Hb; rewrite Ru; cbn [on_cpu with_next].
    + rewrite Hon. destruct m as [c|]; [|by left]. destruct Hm as (Hc & _). right. split; [done|]. cbn. destruct (Hcpu c Hc) as (-> & _). by rewrite decide_True.
    + destruct (wf_on_cpu _ H b u Hu) as [|[Hc E]]; [by left|right]. split; [done|]. destruct (Hcpu _ Hc) as (-> & _). rewrite decide_False; [done|]. intros ->.
      destruct Hm as (_ & _ & E0 & _). rewrite E0 in E. subst b. apply (ro_zero _ _ Hl). by apply (ring_member _ _ _ _ Hl Hu).
  - intros c Hc. destruct (Hcpu c Hc) as (_ & -> & _). destruct (decide (m = Some c)) as [->|Hn].
    + intros _. exists ta. destruct Hm as (_ & _ & _ & _ & _ & Hf). rewrite Ra. split_and!; [by rewrite <- Ra|exact Hf|right; exact Hon].
    + intros E. destruct (wf_idle _ H c Hc E) as (u & Hu & Hf & Ho). destruct (Hold _ u Hu) as (u' & Hu' & R). exists u'. rewrite R. split_and!; [by rewrite <- R|exact Hf|exact Ho].
  - intros c d Hc Hd. destruct (Hcpu c Hc) as (_ & -> & _), (Hcpu d Hd) as (_ & -> & _).
    assert (forall e, numbered e -> idle_of (cpu_at s e) = a -> False) as Hno.
    { intros e He E. destruct (wf_idle _ H e He ltac:(by rewrite E)) as (u & Hu & _). rewrite E in Hu. by apply Hna in Hu. }
    destruct (decide (m = Some c)) as [E1|E1], (decide (m = Some d)) as [E2|E2]; [congruence| | |by apply (wf_idles _ H)].
    + intros _ E. by destruct (Hno d Hd).
    + intros _ E. by destruct (Hno c Hc).
  - intros c Hc. destruct (Hcpu c Hc) as (-> & -> & _). rewrite Hst. destruct (decide (m = Some c)); [done|by apply (wf_online _ H)].
  - rewrite Hst. destruct (Hcpu 0 ltac:(done)) as (-> & -> & _). assert (m <> Some 0) by (intros ->; by destruct Hm as (_ & ? & _)). rewrite !decide_False by done. apply (wf_boot _ H).
  - intros b u' [[-> Ru]|(_ & u & Hu & Ru)]%Hb; rewrite Ru; cbn [on_cpu is_user with_next]; intros Hp.
    + rewrite Hon in *. destruct m as [c|]; [|cbn in Hp; lia]. right. cbn. destruct Hm as (Hc & _). destruct (Hcpu c Hc) as (_ & -> & _). by rewrite decide_True.
    + destruct (wf_kernel _ H b u Hu Hp) as [|E]; [by left|right]. destruct (wf_on_cpu _ H b u Hu) as [|[Hc _]]; [lia|]. destruct (Hcpu _ Hc) as (_ & -> & _).
      rewrite decide_False; [done|]. intros ->. destruct Hm as (_ & _ & _ & E0 & _). rewrite E0 in E. subst b. apply (ro_zero _ _ Hl). by apply (ring_member _ _ _ _ Hl Hu).
  - intros b u' [[-> Ru]|(_ & u & Hu & Ru)]%Hb; rewrite Ru; cbn [is_user m_of with_next]; [|exact (wf_user _ H b u Hu)].
    destruct (is_user t); [by destruct Hdir as (? & ? & _)|done].
  - intros b d u' v' [[-> Ru]|(_ & u & Hu & Ru)]%Hb [[-> Rv]|(_ & v & Hv & Rv)]%Hb; rewrite Ru, Rv; cbn [is_user m_of with_next]; intros Hus E; [done| | |by apply (wf_dirs _ H b d u v)].
    + rewrite Hus in Hdir. destruct Hdir as (_ & _ & Hd). by destruct (Hd d v Hv).
    + destruct (is_user t) eqn:Et; [destruct Hdir as (_ & _ & Hd); by destruct (Hd b u Hu)|]. pose proof (wf_user _ H b u Hu) as Hx. rewrite Hus in Hx. destruct Hx. congruence.
  - intros c u' Hc. destruct (Hcpu c Hc) as (-> & _ & ->). destruct (decide (m = Some c)) as [->|Hn].
    + destruct Hm as (_ & _ & _ & _ & -> & _ & Hus & _). rewrite Hta. intros [= <-]. rewrite Ra. rewrite Hus in Hdir. unfold wanted. cbn. by rewrite Hdir.
    + intros [[E Ru]|(_ & u & Hu & Ru)]%Hb; [|rewrite Ru; exact (wf_cr3 _ H c u Hc Hu)].
      destruct (wf_current _ H c Hc ltac:(by rewrite E)) as (v & Hv & _). rewrite E in Hv. by apply Hna in Hv.
Qed.

Definition room_for_number (s : sched) : Prop := next_pid s + 1 < 4294967296.
Lemma joined_spec s l a tf : wf s -> ring_ok s l -> unused s a -> room_for_number s ->
  exists s', joined a tf s = Some (s', a) /\ inserted s s' l a (tf (next_pid s)) /\ next_pid s' = next_pid s + 1 /\ started s' = started s /\ cpus s' = cpus s.
Proof.
  intros H Hl [Hz Ha] Hr. unfold joined. set (s0 := Sched (tasks s) (ring_head s) (u32 (next_pid s + 1)) (started s) (cpus s)).
  assert (ring_ok s0 l) as L0 by (by apply ring_ext with s; [eauto|auto|..]).
  destruct (ring_insert_spec s0 l a (tf (next_pid s)) L0 Ha Hz) as (s' & E & I & _ & F1 & F2 & F3).
  change (Sched (<[a := tf (next_pid s)]> (tasks s)) _ _ _ _) with (with_tasks (<[a := tf (next_pid s)]> (tasks s0)) s0). rewrite E. cbn [mbind option_bind].
  exists s'. split_and!; [done|by destruct I; constructor| |done|done]. rewrite F1. unfold s0. cbn. apply u32_id. pose proof (wf_next _ H). unfold room_for_number in Hr. unfold is_word. lia.
Qed.
(** A call that starts a task: a well formed state with the task in it when the heap had
    room, and no change when it had not. *)
Lemma wf_joined s a tf : wf s -> unused s a -> room_for_number s -> (forall p, addr (p_of (tf p)) = a /\ pid_of (tf p) = p /\ on_cpu (tf p) = -1 /\ if is_user (tf p) then new_dir s (dir (m_of (tf p))) else dir (m_of (tf p)) = 0) ->
  exists s', joined a tf s = Some (s', a) /\ wf s' /\ next_pid s' = next_pid s + 1 /\ started s' = started s /\ cpus s' = cpus s /\
    exists t', tasks s' !! a = Some t' /\ relinked (tf (next_pid s)) t'.
Proof.
  intros H Hu Hr Ht. destruct (wf_ring _ H) as [l Hl]. destruct (joined_spec s l a tf H Hl Hu Hr) as (s' & E & I & F1 & F2 & F3). destruct (Ht (next_pid s)) as (T1 & T2 & T3 & T4).
  exists s'. split_and!; [done| |done|done|done|by apply I]. apply (wf_grown s s' l a (tf (next_pid s)) None); try done; [by rewrite F3|]. intros c _. unfold cur, cpu_at. by rewrite F3.
Qed.
Lemma wf_create s me a stack entry : wf s -> unused s a -> room_for_number s -> exists s' r, task_create me a stack entry s = Some (s', r) /\ wf s'.
Proof.
  intros H Hu Hr. unfold task_create. destruct (_ || _); [by eauto|].
  destruct (wf_joined s a (fun pid => Task (new_proc a pid 0 no_handlers 0) (no_memory 0 0 0) (frame_at stack) (start_frame entry GDT_KERNEL_CODE GDT_KERNEL_DATA (stack_start stack)) stack fpu_blank false 0 false (inherit_cwd (tasks s !! cur s me)) (-1) 0) H Hu Hr) as (s' & -> & Hw & _); [done|eauto].
Qed.
Lemma wf_create_user s me a stack d entry top zlo zhi : wf s -> unused s a -> room_for_number s -> new_dir s d -> exists s' r, task_create_user me a stack d entry top zlo zhi s = Some (s', r) /\ wf s'.
Proof.
  intros H Hu Hr Hd. unfold task_create_user. destruct (_ || _); [by eauto|].
  destruct (wf_joined s a (fun pid => Task (new_proc a pid 0 no_handlers 0) (no_memory d zlo zhi) (frame_at stack) (start_frame entry USER_CODE_SEL USER_DATA_SEL top) stack fpu_blank false 0 true (inherit_cwd (tasks s !! cur s me)) (-1) 0) H Hu Hr) as (s' & -> & Hw & _); [done|eauto].
Qed.
(** The calling task's record with something of its own changed. *)
Lemma wf_own s a f : wf s -> (forall t, tasks s !! a = Some t -> quiet t (f t)) -> (forall t, tasks s !! a = Some t -> idle_fit t -> (exists c, numbered c /\ idle_of (cpu_at s c) = a) -> idle_fit (f t)) -> wf (upd a f s).
Proof.
  intros H Hq Hf. apply wf_calm with s; [done|by apply calm_upd|]. intros c t t' Hc Ht Ht' Hfit. rewrite upd_lookup in Ht'. destruct (decide (a = idle_of (cpu_at s c))) as [->|]; [|congruence].
  rewrite Ht in Ht'. injection Ht' as <-. apply Hf; eauto.
Qed.
Lemma fork_spec s me a stack d f rax parent : wf s -> unused s a -> room_for_number s -> new_dir s d -> stack <> 0 -> tasks s !! cur s me = Some parent ->
  exists s', task_fork me a stack d f rax s = Some (s', a) /\ wf s' /\ exists t', tasks s' !! a = Some t' /\ context t' = (frame_at stack, with_rax rax f, live (cpu_at s me)).
Proof.
  intros H [Ha Hu] Hr (D1 & D2 & D3) Hs Ep. unfold task_fork. rewrite (proj2 (Z.eqb_neq a 0) Ha), (proj2 (Z.eqb_neq stack 0) Hs), Ep. cbn [orb].
  set (s1 := upd (cur s me) (with_context (krsp parent) (frame parent) (live (cpu_at s me))) s).
  assert (wf s1) as W1 by (apply wf_own; [done|done|intros t _ Hf _; exact Hf]).
  assert (cur s me <> a) as Hn by congruence.
  destruct (wf_joined s1 a (fun pid => Task (new_proc a pid (pid_of parent) (sig_handler (p_of parent)) (sig_trampoline (p_of parent)))
    (User.Task d (brk (m_of parent)) (brk_base (m_of parent)) (vma (m_of parent)) (nvma (m_of parent)) (zero_lo (m_of parent)) (zero_hi (m_of parent)))
    (frame_at stack) (with_rax rax f) stack (live (cpu_at s me)) false 0 true (cwd parent) (-1) 0) W1) as (s' & -> & Hw & _ & _ & _ & t' & Ht' & R); [| done| |].
  - split; [done|]. unfold s1. by rewrite upd_lookup, decide_False.
  - intros p. split_and!; [done|done|done|]. cbn. split_and!; [done|done|]. intros b t Hb. unfold s1 in Hb. rewrite upd_lookup in Hb.
    destruct (decide (cur s me = b)) as [<-|]; [|by apply (D3 b)]. rewrite Ep in Hb. injection Hb as <-. exact (D3 _ parent Ep).
  - exists s'. split_and!; [done|done|]. exists t'. split; [done|]. by rewrite R.
Qed.
Lemma wf_fork s me a stack d f rax : wf s -> unused s a -> room_for_number s -> new_dir s d ->
  exists s' r, task_fork me a stack d f rax s = Some (s', r) /\ wf s'.
Proof.
  intros H Hu Hr Hd. destruct (decide (stack = 0)) as [->|Hs]; [unfold task_fork; rewrite orb_true_r; by eauto|].
  destruct (tasks s !! cur s me) as [parent|] eqn:Ep; [destruct (fork_spec s me a stack d f rax parent H Hu Hr Hd Hs Ep) as (s' & E & Hw & _); eauto|].
  unfold task_fork. destruct (_ || _); [by eauto|]. rewrite Ep.
  destruct (wf_joined s a (fun pid => Task (new_proc a pid 0 no_handlers 0) (no_memory d 0 0) (frame_at stack) (with_rax rax f) stack fpu_blank false 0 true [47] (-1) 0) H Hu Hr) as (s' & -> & Hw & _); [done|eauto].
Qed.

Lemma wf_adopt s c a stack : wf s -> unused s a -> room_for_number s -> numbered c -> c <> 0 -> cur s c = 0 -> cr3 (cpu_at s c) = kernel_directory ->
  exists s', sched_adopt_ap c a stack s = Some s' /\ wf s' /\ (s' = s \/ exists l t, ring_ok s l /\ inserted s s' l a t) /\ cur s' 0 = cur s 0.
Proof.
  intros H Hu Hr Hc Hc0 Hcur Hcr. unfold sched_adopt_ap. rewrite (proj2 (Z.leb_gt _ _)) by apply Hc. cbn [orb].
  destruct (Z.eqb_spec (idle_of (cpu_at s c)) 0) as [Hi|Hi]; cbn [negb]; [|eauto 6]. destruct Hu as [Hz Ha]. rewrite (proj2 (Z.eqb_neq a 0)) by done.
  set (t := Task (with_state TASK_RUNNING 0 0 (new_proc a (next_pid s) 0 no_handlers 0)) (no_memory 0 0 0) 0 (start_frame 0 0 0 0) stack fpu_blank false 0 false [47] c 0).
  destruct (wf_ring _ H) as [l Hl]. pose proof (wf_next _ H) as Hnx. assert (u32 (next_pid s + 1) = next_pid s + 1) as Eu by (apply u32_id; unfold room_for_number in Hr; unfold is_word; lia).
  set (mark := upd_cpu c (fun x => Cpu a a (live x) (cr3 x) (tss x))).
  assert (forall s2, inserted s s2 l a t -> next_pid s2 = next_pid s + 1 -> started s2 = started s -> cpus s2 = cpus s ->
    wf (mark s2) /\ (mark s2 = s \/ exists l t, ring_ok s l /\ inserted s (mark s2) l a t) /\ cur (mark s2) 0 = cur s 0) as Hgo.
  { intros s2 I F1 F2 F3. assert (zlen (cpus s2) = SMP_MAX_CPUS) as Hlen by (rewrite F3; apply H).
    assert (inserted s (mark s2) l a t) as I' by (destruct I as [(l1 & l2 & ? & ? & L2) I2 I3]; constructor; [exists l1, l2; split_and!; [done|done|by destruct L2; constructor]|done|done]).
    split; [|split; [right; by exists l, t|unfold cur, mark; rewrite cpu_at_upd, decide_False by done; unfold cpu_at; by rewrite F3]].
    apply (wf_grown s (mark s2) l a t (Some c)); try done; [unfold mark; cbn; rewrite length_alter; by rewrite F3|].
    intros d Hd. unfold cur, mark. rewrite cpu_at_upd by done. assert (cpu_at s2 d = cpu_at s d) as -> by (unfold cpu_at; by rewrite F3).
    destruct (decide (c = d)) as [->|Hn]; [by rewrite !decide_True|]. rewrite !decide_False by congruence. done. }
  destruct (Z.eqb_spec (ring_head s) 0) as [E|E].
  - destruct (ring_none _ _ Hl E) as [-> Em]. eexists. split; [reflexivity|]. apply Hgo; [|by cbn|done|done]. constructor.
    + exists [], []. split_and!; [done|done|]. pose proof (alone_ring s a t Em Hz) as L'. by destruct L'; constructor.
    + eexists. split; [|apply (relinked_next a)]. unfold upd. cbn. by rewrite alter_insert_eq, lookup_insert_eq.
    + intros b u. by rewrite Em, lookup_empty.
  - destruct l as [|h l]; [by rewrite (ro_head _ _ Hl) in E|]. pose proof (ro_head _ _ Hl) as Eh. cbn in Eh. destruct (ro_chain _ _ Hl) as [(th & Hth & Hn) _].
    rewrite Eh, Hth. cbn [mbind option_bind]. eexists. split; [reflexivity|]. rewrite Hn, <- Eh.
    assert (h <> a) as Hha by (intros ->; by rewrite Ha in Hth).
    change (upd (ring_head s) (with_next a) _) with (Sched (tasks (linked_after (ring_head s) a (hd (ring_head s) l) t s)) (ring_head s) (u32 (next_pid s + 1)) (started s) (cpus s)).
    apply Hgo; [|by cbn|done|done]. constructor; cbn [tasks].
    + exists [h], l. split_and!; [done|done|]. pose proof (linked_after_ring s [] h l a t Hl Ha Hz) as L'. rewrite <- Eh in L' at 1. by destruct L'; constructor.
    + eexists. split; [|apply (relinked_next (hd (ring_head s) l))]. by rewrite linked_after_lookup, decide_True by congruence.
    + intros b u. apply linked_after_others; [congruence|done].
Qed.

Lemma wf_start s a stack entry : wf s -> unused s a -> room_for_number s -> stack <> 0 -> started s = false -> ring_head s <> 0 ->
  exists s', sched_start a stack entry s = Some s' /\ wf s' /\ (exists l t, ring_ok s l /\ inserted s s' l a t) /\ cur s' 0 = cur s 0.
Proof.
  intros H Hu Hr Hs Hst Hh. unfold sched_start. rewrite (proj2 (Z.eqb_neq _ _)) by done. unfold task_create. destruct Hu as [Hz Ha].
  rewrite (proj2 (Z.eqb_neq a 0)), (proj2 (Z.eqb_neq stack 0)) by done. cbn [orb].
  set (tf := fun pid => Task (new_proc a pid 0 no_handlers 0) (no_memory 0 0 0) (frame_at stack) (start_frame entry GDT_KERNEL_CODE GDT_KERNEL_DATA (stack_start stack)) stack fpu_blank false 0 false (inherit_cwd (tasks s !! cur s 0)) (-1) 0).
  destruct (wf_ring _ H) as [l0 Hl0]. destruct (joined_spec s l0 a tf H Hl0 (conj Hz Ha) Hr) as (s0 & E0 & I0 & _).
  destruct (wf_joined s a tf H (conj Hz Ha) Hr) as (s' & E' & Hw & F1 & F2 & F3 & t' & Ht' & Rt); [done|]. rewrite E' in E0. injection E0 as <-. rewrite E'. cbn [mbind option_bind]. rewrite (proj2 (Z.eqb_neq a 0)) by done.
  eexists. split; [reflexivity|]. destruct (wf_boot _ H Hst) as [B1 B2].
  set (s2 := upd_cpu 0 (fun x => Cpu (current_of x) a (live x) (cr3 x) (tss x)) s').
  assert (forall c, numbered c -> cpu_at s2 c = if decide (0 = c) then Cpu (current_of (cpu_at s' c)) a (live (cpu_at s' c)) (cr3 (cpu_at s' c)) (tss (cpu_at s' c)) else cpu_at s' c) as Hcp by (intros; apply cpu_at_upd; [done|done|apply Hw]).
  assert (forall c, cpu_at s' c = cpu_at s c) as Hcs by (intros c; unfold cpu_at; by rewrite F3).
  assert (forall c, numbered c -> cur s2 c = cur s' c) as Hcu by (intros c Hc; unfold cur; rewrite Hcp by done; by destruct (decide (0 = c))).
  assert (forall e, numbered e -> idle_of (cpu_at s' e) <> a) as Hno.
  { intros e He E. rewrite Hcs in E. destruct (wf_idle _ H e He ltac:(by rewrite E)) as (u & Hue & _). rewrite E in Hue. congruence. }
  split; [|split; [exists l0, (tf (next_pid s)); split; [done|destruct I0 as [(l1 & l2 & ? & ? & L2) I2 I3]; constructor; [exists l1, l2; split_and!; [done|done|by destruct L2; constructor]|done|done]]|change (cur s2 0 = cur s 0); rewrite Hcu by done; unfold cur; by rewrite Hcs]].
  change (wf (Sched (tasks s2) (ring_head s2) (next_pid s2) true (cpus s2))).
  constructor; cbn [tasks started next_pid ring_head].
  - destruct (wf_ring _ Hw) as [l Hl]. exists l. by destruct Hl; constructor.
  - exact (wf_addr _ Hw).
  - exact (wf_pids _ Hw).
  - exact (wf_pid _ Hw).
  - exact (wf_next _ Hw).
  - unfold s2. cbn. rewrite length_alter. apply (wf_cpus _ Hw).
  - intros c Hc. change (cur s2 c <> 0 -> exists t, tasks s' !! cur s2 c = Some t /\ on_cpu t = c). rewrite Hcu by done. by apply (wf_current _ Hw).
  - intros b u Hb. destruct (wf_on_cpu _ Hw b u Hb) as [|[Hc E]]; [by left|right]. split; [done|]. change (cur s2 (on_cpu u) = b). by rewrite Hcu.
  - intros c Hc. change (idle_of (cpu_at s2 c) <> 0 -> exists t, tasks s' !! idle_of (cpu_at s2 c) = Some t /\ idle_fit t /\ (on_cpu t = -1 \/ on_cpu t = c)). rewrite Hcp by done.
    destruct (decide (0 = c)) as [<-|]; cbn; [|by apply (wf_idle _ Hw)]. intros _. exists t'. rewrite Rt. split_and!; [by rewrite <- Rt|done|by left].
  - intros c d Hc Hd. change (idle_of (cpu_at s2 c) <> 0 -> idle_of (cpu_at s2 c) = idle_of (cpu_at s2 d) -> c = d). rewrite !Hcp by done.
    destruct (decide (0 = c)) as [<-|], (decide (0 = d)) as [<-|]; cbn; [done| | |by apply (wf_idles _ Hw)]; intros _ E; [by destruct (Hno d Hd)|by destruct (Hno c Hc)].
  - intros c Hc. change ((c = 0 -> true = true) -> (c <> 0 -> cur s2 c <> 0) -> idle_of (cpu_at s2 c) <> 0). rewrite Hcu, Hcp by done. destruct (decide (0 = c)) as [<-|Hn]; cbn; [done|].
    intros _. apply (wf_online _ Hw c Hc). congruence.
  - done.
  - intros b u Hb Hp. destruct (wf_kernel _ Hw b u Hb Hp) as [|E]; [by left|right]. change (idle_of (cpu_at s2 (on_cpu u)) = b). destruct (wf_on_cpu _ Hw b u Hb) as [|[Hc _]]; [lia|].
    rewrite Hcp, decide_False by (done || lia). done.
  - exact (wf_user _ Hw).
  - exact (wf_dirs _ Hw).
  - intros c u Hc. change (tasks s' !! cur s2 c = Some u -> cr3 (cpu_at s2 c) = wanted u). rewrite Hcu, Hcp by done. intros Hu'. rewrite <- (wf_cr3 _ Hw c u Hc Hu'). by destruct (decide (0 = c)).
Qed.

(** ** The calls tasks make *)

(** A processor's task that makes calls: its idle task makes none. *)
Definition calls (s : sched) (c : Z) : Prop := numbered c /\ cur s c <> 0 /\ cur s c <> idle_of (cpu_at s c).
Lemma calls_task s c : wf s -> calls s c -> exists t, tasks s !! cur s c = Some t /\ on_cpu t = c /\ forall d, numbered d -> idle_of (cpu_at s d) <> cur s c.
Proof.
  intros H (Hc & Hn & Hi). destruct (wf_current _ H c Hc Hn) as (t & Ht & Ho). exists t. split_and!; [done|done|]. intros d Hd E.
  destruct (wf_idle _ H d Hd ltac:(by rewrite E)) as (u & Hu & _ & Hou). rewrite E, Ht in Hu. injection Hu as <-.
  destruct Hou as [Hou|Hou]; [unfold numbered in Hc; lia|]. rewrite Ho in Hou. subst d. by rewrite E in Hi.
Qed.
Lemma wf_called s c f : wf s -> calls s c -> (forall t, tasks s !! cur s c = Some t -> quiet t (f t)) -> wf (upd (cur s c) f s).
Proof.
  intros H Hc Hq. destruct (calls_task s c H Hc) as (t & Ht & _ & Hi). apply wf_own; [done|done|]. intros u Hu _ (d & Hd & E). by destruct (Hi d Hd).
Qed.
Lemma calls_upd s c a f : calls s c -> calls (upd a f s) c.
Proof. done. Qed.

Lemma by_pid_spec n s : wf s -> exists r, by_pid n s = Some r /\ match r with Some p => exists t, tasks s !! addr p = Some t /\ p = p_of t /\ pid_of t = n | None => True end.
Proof.
  intros H. destruct (wf_ring _ H) as [l Hl]. destruct (procs_spec s l Hl) as (ps & Ep & Hp). unfold by_pid, look. rewrite (ring_spec _ _ Hl). cbn [mbind option_bind]. rewrite Ep. cbn [mbind option_bind].
  eexists. split; [reflexivity|]. destruct (task_by_pid n ps) as [p|] eqn:E; [|done]. apply find_some in E as [Hi En%Z.eqb_eq]. apply list_elem_of_In, list_elem_of_lookup in Hi as [i Hi].
  destruct (Forall2_lookup_r _ _ _ _ _ Hp Hi) as (a & _ & t & Ht & ->). exists t. by rewrite (wf_addr _ H a t Ht).
Qed.
Lemma wf_wake ch one s : wf s -> exists s', sched_wake ch one s = Some s' /\ wf s'.
Proof.
  intros H. destruct (wf_on_procs_ (wake ch one) (fun _ => false) s H) as (s' & E & Hw & _); [intros; apply wake_gentle|done|eauto].
Qed.
Lemma wf_exit now c x s : wf s -> calls s c -> exists s', task_exit_with now c x s = Some s' /\ wf s'.
Proof.
  intros H Hc. unfold task_exit_with. destruct (cur s c =? 0); [eauto|]. apply wf_wake, wf_called; done.
Qed.
Lemma wf_wait_begin now hz c ch ms s : wf s -> calls s c -> wf (wait_begin now hz c ch ms s).
Proof. intros H Hc. unfold wait_begin. destruct (_ || _); [done|]. by apply wf_called. Qed.
Lemma wf_wait_end c s : wf s -> calls s c -> exists s' r, wait_end c s = Some (s', r) /\ wf s'.
Proof. intros H Hc. unfold wait_end. destruct (calls_task s c H Hc) as (t & -> & _). cbn. eexists _, _. split; [done|]. by apply wf_called. Qed.
Lemma wf_wait_look now hz c a s : wf s -> calls s c -> is_Some (tasks s !! a) -> exists s' r, wait_look now hz c a s = Some (s', r) /\ wf s'.
Proof.
  intros H Hc [t Ht]. unfold wait_look. rewrite Ht. cbn. destruct (is_dead _); eexists _, _; (split; [done|]); [|by apply wf_wait_begin].
  apply wf_own; [done|done|]. by intros.
Qed.
Lemma wf_wait now hz c n s : wf s -> calls s c -> exists s' r, task_wait now hz c n s = Some (s', r) /\ wf s'.
Proof.
  intros H Hc. unfold task_wait. destruct (by_pid_spec n s H) as (r & -> & Hr). cbn. destruct r as [p|]; [|eauto]. destruct Hr as (t & Ht & _). apply wf_wait_look; [done|done|eauto].
Qed.
Lemma wf_wait_again now hz c n a s : wf s -> calls s c ->
  match task_wait_again now hz c n a s with Some (s', _) => wf s' | None => tasks s !! a = None end.
Proof.
  intros H Hc. unfold task_wait_again. destruct (wf_wait_end c s H Hc) as (s1 & w & E & H1). rewrite E. cbn. destruct (by_pid_spec n s1 H1) as (o & -> & _). cbn.
  assert (calls s1 c /\ forall b, tasks s1 !! b = None -> tasks s !! b = None) as [Hc1 Hb].
  { unfold wait_end in E. destruct (tasks s !! cur s c) as [t|] eqn:Et; [|done]. cbn in E. injection E as <- _. split; [done|]. intros b. rewrite upd_lookup. destruct (decide _); [by intros ?%fmap_None|done]. }
  destruct (negb w && _); [done|]. destruct (tasks s1 !! a) as [t|] eqn:Et; [|unfold wait_look; rewrite Et; by apply Hb].
  by destruct (wf_wait_look now hz c a s1 H1 Hc1 ltac:(by eexists)) as (s2 & r2 & -> & H2).
Qed.
(** Only a program that is no idle task is ended or signalled by another. *)
Lemma may_end_spec n s : wf s -> exists ok, may_end n s = Some ok /\ (ok = true -> forall c t, numbered c -> tasks s !! idle_of (cpu_at s c) = Some t -> idle_fit t -> (pid (p_of t) =? n) = false).
Proof.
  intros H. unfold may_end. destruct (by_pid_spec n s H) as (r & -> & Hr). cbn. destruct r as [p|]; [|by eexists]. destruct Hr as (t & Ht & -> & En). rewrite Ht. cbn. eexists. split; [done|].
  rewrite !andb_true_iff. intros [[_ Hus] _] c u _ Hu (_ & Hf & _). apply Z.eqb_neq. intros E. rewrite <- En in E. pose proof (wf_pids _ H _ _ u t Hu Ht E) as Ea. rewrite Ea, Ht in Hu. injection Hu as <-. congruence.
Qed.
Lemma wf_kill now c n s : wf s -> exists s' r, sys_kill now c n s = Some (s', r) /\ wf s'.
Proof.
  intros H. unfold sys_kill. destruct (match tasks s !! cur s c with Some _ => _ | None => _ end); [eauto|]. destruct (may_end_spec n s H) as (ok & -> & Hok). cbn. destruct ok; cbn; [|eauto].
  destruct (wf_on_procs_ (signal_end_task now n (-1)) (fun p => pid p =? n) s H) as (s' & -> & Hw & _); [intros; apply end_task_gentle|by apply Hok|]. cbn. eauto.
Qed.
Lemma wf_sigsend n sig s : wf s -> exists s' r, sys_sigsend n sig s = Some (s', r) /\ wf s'.
Proof.
  intros H. unfold sys_sigsend. destruct (may_end_spec n s H) as (ok & -> & Hok). cbn. destruct ok; cbn; [|eauto].
  destruct (wf_on_procs (signal_send n sig) (fun p => pid p =? n) s H) as (s' & x & -> & Hw & _); [intros; apply send_gentle|by apply Hok|]. cbn. unfold answered. eauto.
Qed.
Lemma calls_pid s c t : wf s -> calls s c -> tasks s !! cur s c = Some t ->
  forall d u, numbered d -> tasks s !! idle_of (cpu_at s d) = Some u -> idle_fit u -> (pid (p_of u) =? pid_of t) = false.
Proof.
  intros H Hc Ht d u Hd Hu _. destruct (calls_task s c H Hc) as (_ & _ & _ & Hi). apply Z.eqb_neq. intros E. apply (Hi d Hd). by apply (wf_pids _ H _ _ u t).
Qed.
Lemma wf_signal c sig how tr s : wf s -> calls s c -> exists s' r, sys_signal c sig how tr s = Some (s', r) /\ wf s'.
Proof.
  intros H Hc. unfold sys_signal. destruct (tasks s !! cur s c) as [t|] eqn:E; [|eauto].
  destruct (wf_on_procs (signal_disposition (pid_of t) sig how tr) (fun p => pid p =? pid_of t) s H) as (s' & x & -> & Hw & _); [intros; apply disposition_gentle|by apply (calls_pid s c)|]. cbn. unfold answered. eauto.
Qed.
Lemma interrupt_gentle n ps : Forall2 (gentle (fun p => negb (n =? 0) && ((parent_pid p =? n) || (pid p =? n)))) ps (signal_interrupt n ps).1.
Proof.
  unfold signal_interrupt. destruct (Z.eqb_spec n 0) as [->|Hn]; [apply gentle_same|]. cbn [negb andb].
  set (child := fun t => negb (is_dead t) && (parent_pid t =? n) && negb (pid t =? n)).
  destruct (negb _) eqn:E; cbn [fst].
  - rewrite <- (take_drop 4096 ps) at 1. apply Forall2_app; [|apply gentle_same]. apply list.Forall2_fmap_r. apply Forall2_same_length_lookup_2; [done|].
    intros i p q Hp Hq. rewrite Hp in Hq. injection Hq as <-.
    assert (gentle (fun p => (parent_pid p =? n) || (pid p =? n)) p (if child p then with_pending (sig_pending p .| bit SIGINT) p else p)) as Hg; [|exact Hg].
    destruct (child p) eqn:Ec; [|apply gentle_refl]. repeat split; [stir|]. intros Hh. exfalso.
    unfold child in Ec. rewrite !andb_true_iff in Ec. destruct Ec as [[_ Ec] _]. by rewrite Ec in Hh.
  - destruct (signal_send n SIGINT ps) as [ps' ok] eqn:Es. cbn [fst]. replace ps' with (signal_send n SIGINT ps).1 by (by rewrite Es).
    eapply gentle_impl; [|apply send_gentle]. intros p. cbn. rewrite orb_false_iff. tauto.
Qed.
(** Programs read the console, never an idle task. *)
Lemma wf_interrupt n s : wf s -> (forall a t, tasks s !! a = Some t -> pid_of t = n -> is_idle s a = false) -> exists s' r, on_procs (signal_interrupt n) s = Some (s', r) /\ wf s'.
Proof.
  intros H Hn. destruct (wf_on_procs (signal_interrupt n) (fun p => negb (n =? 0) && ((parent_pid p =? n) || (pid p =? n))) s H) as (s' & x & E & Hw & _); [intros; apply interrupt_gentle| |eauto].
  intros c t Hc Ht (_ & _ & _ & Hp). rewrite Hp. destruct (Z.eqb_spec n 0) as [|Hz]; [done|]. rewrite (proj2 (Z.eqb_neq 0 n)) by congruence. cbn [negb andb orb]. apply Z.eqb_neq. intros E.
  pose proof (Hn _ t Ht E) as Hx. assert (is_idle s (idle_of (cpu_at s c)) = true) as Hy by (apply is_idle_spec; [apply (wf_cpus _ H)|eauto]). congruence.
Qed.

(** A program replaced by another in the same task. *)
Lemma wf_new_space s c t d m' regs : wf s -> calls s c -> tasks s !! cur s c = Some t -> is_user t = true -> new_dir s d -> dir m' = d ->
  wf (upd_cpu c (fun x => Cpu (current_of x) (idle_of x) (regs x) d (tss x)) (upd (cur s c) (with_memory m') s)).
Proof.
  intros H Hc Ht Hus (D1 & D2 & D3) Hm. destruct (calls_task s c H Hc) as (t' & Ht' & Ho & Hi). rewrite Ht in Ht'. injection Ht' as <-. destruct Hc as (Hc & Hn & _).
  set (s1 := upd (cur s c) (with_memory m') s). set (s' := upd_cpu c _ s1).
  assert (forall e, numbered e -> cur s' e = cur s e /\ idle_of (cpu_at s' e) = idle_of (cpu_at s e) /\ cr3 (cpu_at s' e) = if decide (c = e) then d else cr3 (cpu_at s e)) as Hcp.
  { intros e He. unfold cur, s'. rewrite cpu_at_upd by (done || apply (wf_cpus _ H)). destruct (decide (c = e)); done. }
  assert (forall b u', tasks s' !! b = Some u' -> exists u, tasks s !! b = Some u /\ u' = if decide (cur s c = b) then with_memory m' u else u) as Hb.
  { intros b u' Hb. change (tasks s1 !! b = Some u') in Hb. unfold s1 in Hb. rewrite upd_lookup in Hb. destruct (decide (cur s c = b)); [|eauto]. destruct (tasks s !! b) as [u|]; [|done]. injection Hb as <-. eauto. }
  assert (forall b u, tasks s !! b = Some u -> tasks s' !! b = Some (if decide (cur s c = b) then with_memory m' u else u)) as Hf.
  { intros b u Hu. change (tasks s1 !! b = Some (if decide (cur s c = b) then with_memory m' u else u)). unfold s1. rewrite upd_lookup, Hu. by destruct (decide (cur s c = b)). }
  constructor.
  - destruct (wf_ring _ H) as [l Hl]. exists l. apply ring_ext with s; [|intros b; unfold s', s1; change (is_Some (tasks (upd (cur s c) (with_memory m') s) !! b) -> is_Some (tasks s !! b)); by rewrite is_Some_upd|done|done].
    intros b u Hu. apply Hf in Hu. eexists. split; [done|]. by destruct (decide (cur s c = b)).
  - intros b u' (u & Hu & ->)%Hb. pose proof (wf_addr _ H b u Hu). by destruct (decide (cur s c = b)).
  - intros b e u' v' (u & Hu & ->)%Hb (v & Hv & ->)%Hb E. apply (wf_pids _ H b e u v Hu Hv). by destruct (decide (cur s c = b)), (decide (cur s c = e)).
  - intros b u' (u & Hu & ->)%Hb. pose proof (wf_pid _ H b u Hu). by destruct (decide (cur s c = b)).
  - exact (wf_next _ H).
  - unfold s'. cbn. rewrite length_alter. exact (wf_cpus _ H).
  - intros e He. destruct (Hcp e He) as (-> & _). intros E. destruct (wf_current _ H e He E) as (u & Hu & Hou). apply Hf in Hu. eexists. split; [done|]. by destruct (decide _).
  - intros b u' (u & Hu & ->)%Hb. assert (on_cpu (if decide (cur s c = b) then with_memory m' u else u) = on_cpu u) as -> by (by destruct (decide _)).
    destruct (wf_on_cpu _ H b u Hu) as [|[He E]]; [by left|right]. destruct (Hcp _ He) as (-> & _). done.
  - intros e He. destruct (Hcp e He) as (_ & -> & _). intros E. destruct (wf_idle _ H e He E) as (u & Hu & Hfit & Hou). pose proof (Hf _ u Hu) as Hu'. rewrite decide_False in Hu' by (intros E2; by apply (Hi e He)). eauto.
  - intros e e' He He'. destruct (Hcp e He) as (_ & -> & _), (Hcp e' He') as (_ & -> & _). by apply (wf_idles _ H).
  - intros e He. destruct (Hcp e He) as (-> & -> & _). by apply (wf_online _ H).
  - destruct (Hcp 0 ltac:(done)) as (-> & -> & _). exact (wf_boot _ H).
  - intros b u' (u & Hu & ->)%Hb. assert (on_cpu (if decide (cur s c = b) then with_memory m' u else u) = on_cpu u /\ is_user (if decide (cur s c = b) then with_memory m' u else u) = is_user u) as [-> ->] by (by destruct (decide _)).
    intros Hp. destruct (wf_on_cpu _ H b u Hu) as [|[He _]]; [lia|]. destruct (Hcp _ He) as (_ & -> & _). by apply (wf_kernel _ H).
  - intros b u' (u & Hu & ->)%Hb. destruct (decide (cur s c = b)) as [E|]; [|exact (wf_user _ H b u Hu)]. rewrite <- E, Ht in Hu. injection Hu as <-. cbn. by rewrite Hus, Hm.
  - intros b e u' v' (u & Hu & ->)%Hb (v & Hv & ->)%Hb. destruct (decide (cur s c = b)) as [E|], (decide (cur s c = e)) as [E'|]; cbn; [congruence| | |by apply (wf_dirs _ H)].
    + rewrite Hm. intros _ Ed. by destruct (D3 e v Hv).
    + rewrite Hm. intros _ Ed. by destruct (D3 b u Hu).
  - intros e u' He. destruct (Hcp e He) as (-> & _ & ->). intros (u & Hu & ->)%Hb. destruct (decide (c = e)) as [<-|Hce].
    + rewrite decide_True by done. unfold wanted. cbn. rewrite Hm. by rewrite (proj2 (Z.eqb_neq _ _)).
    + rewrite decide_False; [by apply (wf_cr3 _ H)|]. intros E. destruct (wf_current _ H e He ltac:(by rewrite <- E)) as (v & Hv & Hov). rewrite <- E, Ht in Hv. injection Hv as <-. congruence.
Qed.
Lemma wf_fpu_reset s c a : wf s -> numbered c -> wf (task_fpu_reset c a s).
Proof.
  intros H Hc. unfold task_fpu_reset. destruct (a =? 0); [done|]. set (s1 := upd a _ s). assert (wf s1) as H1 by (apply wf_own; [done|done|intros t _ Hf _; exact Hf]).
  destruct (a =? cur s1 c); [|done]. apply wf_calm with s1; [done| |intros d t t' _ Ht Ht' Hf; change (tasks s1 !! idle_of (cpu_at s1 d) = Some t') in Ht'; congruence].
  constructor; try done; [cbn; by rewrite length_alter| |intros b t Ht; exists t; done].
  intros d Hd. rewrite cpu_at_upd by (done || apply (wf_cpus _ H1)). destruct (decide (c = d)); done.
Qed.
Lemma wf_exec s c t d zlo zhi : wf s -> calls s c -> tasks s !! cur s c = Some t -> is_user t = true -> new_dir s d ->
  exists s', exec_replace c d zlo zhi s = Some (s', dir (m_of t)) /\ wf s'.
Proof.
  intros H Hc Ht Hus Hd. unfold exec_replace. rewrite Ht. cbn [mbind option_bind].
  set (m' := User.Task d 0 0 (vma (m_of t)) (nvma (m_of t)) zlo zhi).
  pose proof (wf_new_space s c t d m' live H Hc Ht Hus Hd eq_refl) as H2. set (s2 := upd_cpu c _ (upd (cur s c) (with_memory m') s)) in *.
  destruct Hc as (Hc & Hn & Hi). assert (cur s2 c = cur s c /\ idle_of (cpu_at s2 c) = idle_of (cpu_at s c)) as [E1 E2].
  { unfold cur, s2. rewrite cpu_at_upd, decide_True by (done || apply (wf_cpus _ H)). done. }
  assert (calls s2 c) as Hc2 by (unfold calls; by rewrite E1, E2).
  assert (tasks s2 !! cur s2 c = Some (with_memory m' t)) as Ht2 by (rewrite E1; change (tasks (upd (cur s c) (with_memory m') s) !! cur s c = Some (with_memory m' t)); by rewrite upd_lookup, decide_True, Ht).
  destruct (wf_on_procs_ (signal_forget_handlers (pid_of t)) (fun p => pid p =? pid_of t) s2 H2) as (s3 & -> & H3 & C3 & P3 & _); [intros; apply forget_gentle|by apply (calls_pid s2 c (with_memory m' t))|].
  cbn [mbind option_bind]. eexists. split; [reflexivity|].
  assert (cur s3 c = cur s2 c /\ idle_of (cpu_at s3 c) = idle_of (cpu_at s2 c)) as [E3 E4] by (unfold cur, cpu_at; by rewrite P3).
  pose proof (wf_fpu_reset s3 c (cur s3 c) H3 Hc) as H4. set (s4 := task_fpu_reset c (cur s3 c) s3) in *.
  assert (cur s4 c = cur s3 c /\ idle_of (cpu_at s4 c) = idle_of (cpu_at s3 c)) as [E5 E6].
  { unfold s4, task_fpu_reset. destruct (cur s3 c =? 0); [done|]. destruct (cur s3 c =? cur (upd _ _ _) c); [|done]. unfold cur at 1. rewrite cpu_at_upd, decide_True by (done || apply (wf_cpus _ H3)). done. }
  apply wf_called; [done|unfold calls; by rewrite E5, E6, E3, E4|done].
Qed.

(** ** Everything that happens *)

Inductive event := Switched (c : Z) | Created | Looked (c a : Z) | Happened.
Definition switched_to (r : option switched) : option sched := match r with Some (Resumes s _ _) => Some s | _ => None end.
(** A step: a switch on some processor, a task started, a call of a running task, or what
    a running program does to its registers and its own record. What a call leaves is
    [None] where its model has no result, of whatever call: it looked at a record that is
    not there, or the processor stopped. A task that waits looks again at the record it
    found at first ([Looked]), any record here, be it there still or not. *)
Inductive step (s : sched) : event -> option sched -> Prop :=
  | st_switch c now work sp f o : numbered c -> started s = true -> (c <> 0 -> cur s c <> 0) -> ring_head s <> 0 ->
      switched_to (scheduler_switch kernel_directory now c work true sp f s) = o -> step s (Switched c) o
  | st_create c a stack entry o : unused s a -> room_for_number s -> fst <$> task_create c a stack entry s = o -> step s Created o
  | st_create_user c a stack d entry top zlo zhi o : unused s a -> room_for_number s -> new_dir s d ->
      fst <$> task_create_user c a stack d entry top zlo zhi s = o -> step s Created o
  | st_fork c a stack d f rax o : calls s c -> unused s a -> room_for_number s -> new_dir s d -> fst <$> task_fork c a stack d f rax s = o -> step s Created o
  | st_adopt c a stack o : unused s a -> room_for_number s -> numbered c -> c <> 0 -> cur s c = 0 -> cr3 (cpu_at s c) = kernel_directory ->
      sched_adopt_ap c a stack s = o -> step s Created o
  | st_start a stack entry o : unused s a -> room_for_number s -> stack <> 0 -> started s = false -> ring_head s <> 0 -> sched_start a stack entry s = o -> step s Created o
  | st_runs c regs : numbered c -> step s Happened (Some (upd_cpu c (fun x => Cpu (current_of x) (idle_of x) regs (cr3 x) (tss x)) s))
  | st_own c f : calls s c -> (forall t, tasks s !! cur s c = Some t -> quiet t (f t) /\ context (f t) = context t /\ st (f t) = st t) -> step s Happened (Some (upd (cur s c) f s))
  | st_sleep c now hz ms : calls s c -> step s Happened (Some (task_sleep now hz c ms s))
  | st_block c now hz ch ms : calls s c -> step s Happened (Some (wait_begin now hz c ch ms s))
  | st_unblock c o : calls s c -> fst <$> wait_end c s = o -> step s Happened o
  | st_wake ch one o : sched_wake ch one s = o -> step s Happened o
  | st_exit c now x o : calls s c -> task_exit_with now c x s = o -> step s Happened o
  | st_wait c now hz n o : calls s c -> fst <$> task_wait now hz c n s = o -> step s Happened o
  | st_wait_again c now hz n a o : calls s c -> fst <$> task_wait_again now hz c n a s = o -> step s (Looked c a) o
  | st_kill c now n o : calls s c -> fst <$> sys_kill now c n s = o -> step s Happened o
  | st_sigsend n sig o : fst <$> sys_sigsend n sig s = o -> step s Happened o
  | st_signal c sig how tr o : calls s c -> fst <$> sys_signal c sig how tr s = o -> step s Happened o
  | st_interrupt n o : (forall a t, tasks s !! a = Some t -> pid_of t = n -> is_idle s a = false) -> fst <$> on_procs (signal_interrupt n) s = o -> step s Happened o
  | st_exec c t d zlo zhi o : calls s c -> tasks s !! cur s c = Some t -> is_user t = true -> new_dir s d -> fst <$> exec_replace c d zlo zhi s = o -> step s Happened o.
(** A step taken apart, with the result of the call where it has one. *)
Ltac stepped Hs :=
  inversion Hs; subst; clear Hs;
  repeat match goal with
    | E : fst <$> ?x = Some _ |- _ => let y := fresh "r" in destruct x as [[? y]|] eqn:?; cbn in E; [injection E as E; subst|discriminate E]
    | E : switched_to ?x = Some _ |- _ => destruct x as [[? ? ?|]|] eqn:?; cbn in E; [injection E as E; subst|discriminate E..]
    end.

Lemma ring_nonempty s l : ring_ok s l -> ring_head s <> 0 -> l <> [].
Proof. intros Hl Hh ->. by apply Hh, (ring_head_zero _ _ Hl). Qed.
Lemma cur_in_ring s l c : wf s -> ring_ok s l -> numbered c -> cur s c = 0 \/ cur s c ∈ l.
Proof.
  intros H Hl Hc. destruct (decide (cur s c = 0)) as [|Hn]; [by left|right]. destruct (wf_current _ H c Hc Hn) as (t & Ht & _). by apply (ring_member _ _ _ _ Hl Ht).
Qed.
(** Every call has a result that is well formed, but a look at a record that is not there. *)
Lemma step_result s e o : wf s -> step s e o -> match o with Some s' => wf s' | None => exists c a, e = Looked c a /\ tasks s !! a = None end.
Proof.
  intros H Hs. inversion Hs; subst; clear Hs; cbn.
  - destruct (wf_ring _ H) as [l Hl]. destruct (lap_exists s l (cur s c) Hl (cur_in_ring s l c H Hl ltac:(done))) as [vs Hlap].
    by destruct (switch_spec now c work sp f s l vs H) as (s2 & sp2 & fr & -> & Hw & _); [done|done|done|done|by apply ring_nonempty with s|done|].
  - by destruct (wf_create s c a stack entry H) as (s2 & r2 & -> & Hw).
  - by destruct (wf_create_user s c a stack d entry top zlo zhi H) as (s2 & r2 & -> & Hw).
  - by destruct (wf_fork s c a stack d f rax H) as (s2 & r2 & -> & Hw).
  - by destruct (wf_adopt s c a stack H) as (s2 & -> & Hw & _).
  - by destruct (wf_start s a stack entry H) as (s2 & -> & Hw & _).
  - apply wf_calm with s; [done| |intros d t t' _ Ht Ht' Hf; change (tasks s !! idle_of (cpu_at s d) = Some t') in Ht'; congruence].
    constructor; try done; [cbn; by rewrite length_alter| |intros b t Ht; exists t; done]. intros d Hd. rewrite cpu_at_upd by (done || apply (wf_cpus _ H)). by destruct (decide (c = d)).
  - match goal with Hf : forall t, _ -> quiet t _ /\ _ |- _ => apply wf_called; [done|done|]; intros t Ht; by destruct (Hf t Ht) end.
  - by apply wf_called.
  - by apply wf_wait_begin.
  - by destruct (wf_wait_end c s H) as (s2 & r2 & -> & Hw).
  - by destruct (wf_wake ch one s H) as (s2 & -> & Hw).
  - by destruct (wf_exit now c x s H) as (s2 & -> & Hw).
  - by destruct (wf_wait now hz c n s H) as (s2 & r2 & -> & Hw).
  - pose proof (wf_wait_again now hz c n a s H) as X. destruct (task_wait_again _ _ _ _ _ s) as [[s2 r2]|]; cbn; [by apply X|]. exists c, a. split; [done|by apply X].
  - by destruct (wf_kill now c n s H) as (s2 & r2 & -> & Hw).
  - by destruct (wf_sigsend n sig s H) as (s2 & r2 & -> & Hw).
  - by destruct (wf_signal c sig how tr s H) as (s2 & r2 & -> & Hw).
  - by destruct (wf_interrupt n s H) as (s2 & r2 & -> & Hw).
  - by destruct (wf_exec s c t d zlo zhi H) as (s2 & -> & Hw).
Qed.
Lemma wf_step s e s' : wf s -> step s e (Some s') -> wf s'.
Proof. intros H. by apply (step_result s e (Some s')). Qed.

(** ** What a step that is no switch leaves alone *)

(** The ring, what the processors run, and what the tasks on none of them go on from. *)
Record settled (s s' : sched) : Prop := {
  se_ring : forall l, ring_ok s l -> ring_ok s' l;
  se_cur : forall c, numbered c -> cur s' c = cur s c;
  se_len : length (cpus s') = length (cpus s);
  se_context : forall a t, (forall c, numbered c -> cur s c <> a) -> tasks s !! a = Some t -> exists t', tasks s' !! a = Some t' /\ context t' = context t }.
Lemma settled_refl s : settled s s.
Proof. constructor; eauto. Qed.
Lemma settled_trans s s' s'' : settled s s' -> settled s' s'' -> settled s s''.
Proof.
  intros A B. constructor.
  - intros l Hl. by apply B, A.
  - intros c Hc. rewrite (se_cur _ _ B), (se_cur _ _ A) by done. done.
  - rewrite (se_len _ _ B). apply A.
  - intros a t Hc Ht. destruct (se_context _ _ A a t Hc Ht) as (t1 & Ht1 & E1). destruct (se_context _ _ B a t1) as (t2 & Ht2 & E2); [intros c Hn; rewrite (se_cur _ _ A) by done; by apply Hc|done|].
    exists t2. split; [done|congruence].
Qed.
Lemma settled_upd s a f : (forall t, next_of (f t) = next_of t) -> (exists c, numbered c /\ cur s c = a) \/ (forall t, context (f t) = context t) -> settled s (upd a f s).
Proof.
  intros Hn Hx. constructor; try done.
  - intros l. apply ring_ext; [|intros b; by rewrite is_Some_upd|done]. intros b t Hb. rewrite upd_lookup, Hb. destruct (decide (a = b)); cbn; eauto.
  - intros b t Hb Ht. rewrite upd_lookup, Ht. destruct (decide (a = b)) as [->|]; cbn; [|eauto]. eexists. split; [done|]. destruct Hx as [(c & Hc & E)|Hx]; [by destruct (Hb c Hc)|done].
Qed.
Lemma settled_cpu s c f : zlen (cpus s) = SMP_MAX_CPUS -> numbered c -> (forall x, current_of (f x) = current_of x) -> settled s (upd_cpu c f s).
Proof.
  intros Hl Hc Hf. constructor; [intros l Hr; by destruct Hr; constructor| |cbn; by rewrite length_alter|eauto].
  intros d Hd. unfold cur. rewrite cpu_at_upd by done. by destruct (decide (c = d)).
Qed.
Lemma settled_put l ps s : settled s (put_procs l ps s).
Proof.
  unfold put_procs. revert ps s. induction l as [|a l IH]; intros [|p ps] s; cbn [zip zip_with foldl]; try apply settled_refl.
  eapply settled_trans; [|apply IH]. apply settled_upd; [done|by right].
Qed.
Lemma settled_procs {A} (f : list proc -> list proc * A) s s' x : on_procs f s = Some (s', x) -> settled s s'.
Proof.
  unfold on_procs. destruct (ring s) as [l|]; cbn; [|done]. destruct (procs s l) as [ps|]; cbn; [|done]. destruct (f ps) as [ps' y]. intros [= <- _]. apply settled_put.
Qed.
Lemma settled_procs_ f s s' : on_procs_ f s = Some s' -> settled s s'.
Proof. unfold on_procs_. destruct (on_procs _ s) as [[s1 x]|] eqn:E; cbn; [|done]. intros [= <-]. by eapply settled_procs. Qed.
Lemma settled_called s c f : calls s c -> (forall t, next_of (f t) = next_of t) -> settled s (upd (cur s c) f s).
Proof. intros (Hc & _) Hn. apply settled_upd; [done|]. left. by exists c. Qed.
Lemma settled_wait_begin now hz c ch ms s : calls s c -> settled s (wait_begin now hz c ch ms s).
Proof. intros Hc. unfold wait_begin. destruct (_ || _); [apply settled_refl|by apply settled_called]. Qed.
Lemma settled_wait_end c s s' r : calls s c -> wait_end c s = Some (s', r) -> settled s s' /\ calls s' c.
Proof. intros Hc. unfold wait_end. destruct (tasks s !! cur s c); cbn; [|done]. intros [= <- _]. split; [by apply settled_called|done]. Qed.
Lemma settled_wait_look now hz c a s s' r : calls s c -> wait_look now hz c a s = Some (s', r) -> settled s s'.
Proof.
  intros Hc. unfold wait_look. destruct (tasks s !! a); cbn; [|done]. destruct (is_dead _); intros [= <- _]; [|by apply settled_wait_begin]. apply settled_upd; [done|by right].
Qed.
Lemma settled_fpu_reset s c : zlen (cpus s) = SMP_MAX_CPUS -> numbered c -> settled s (task_fpu_reset c (cur s c) s).
Proof.
  intros Hl Hc. unfold task_fpu_reset. destruct (cur s c =? 0); [apply settled_refl|]. set (s1 := upd _ _ s). assert (settled s s1) as H1 by (apply settled_upd; [done|left; by exists c]).
  destruct (_ =? _); [|done]. eapply settled_trans; [exact H1|]. by apply settled_cpu.
Qed.
Lemma settled_exec c d zlo zhi s s' old : zlen (cpus s) = SMP_MAX_CPUS -> calls s c -> exec_replace c d zlo zhi s = Some (s', old) -> settled s s'.
Proof.
  intros Hl Hc. pose proof Hc as (Hn & _). unfold exec_replace. destruct (tasks s !! cur s c) as [t|]; cbn [mbind option_bind]; [|done].
  set (s1 := upd (cur s c) _ s). assert (settled s s1) as H1 by (by apply settled_called). set (s2 := upd_cpu c _ s1). assert (settled s1 s2) as H2 by (by apply settled_cpu).
  destruct (on_procs_ _ s2) as [s3|] eqn:E3; cbn [mbind option_bind]; [|done]. apply settled_procs_ in E3 as H3. intros [= <- _].
  assert (zlen (cpus s3) = SMP_MAX_CPUS) as Hl3 by (rewrite (se_len _ _ H3), (se_len _ _ H2); done).
  pose proof (settled_fpu_reset s3 c Hl3 Hn) as H4. eapply settled_trans; [exact H1|]. eapply settled_trans; [exact H2|]. eapply settled_trans; [exact H3|]. eapply settled_trans; [exact H4|].
  apply settled_upd; [done|left; by exists c].
Qed.
Lemma happened_settled s e s' : wf s -> step s e (Some s') -> (e = Happened \/ exists c a, e = Looked c a) -> settled s s'.
Proof.
  intros H Hs He. stepped Hs; try by destruct He as [?|(? & ? & ?)].
  - by apply settled_cpu; [apply (wf_cpus _ H)|..].
  - match goal with Hc : calls s ?c, Hf : forall t, _ -> quiet t _ /\ _ |- _ => pose proof (calls_task s c H Hc) as (t & Ht & _); destruct (Hf t Ht) as ((Hq & _) & _) end.
    constructor; try done.
    + intros l. apply ring_ext; [|intros b; by rewrite is_Some_upd|done]. intros b u Hb. rewrite upd_lookup, Hb. destruct (decide (cur s c = b)) as [<-|]; cbn; [|eauto]. rewrite Ht in Hb. injection Hb as <-. eauto.
    + intros b u Hb Hu. rewrite upd_lookup, decide_False; [eauto|]. apply Hb. match goal with Hc : calls _ _ |- _ => by destruct Hc end.
  - by apply settled_called.
  - by apply settled_wait_begin.
  - by eapply settled_wait_end.
  - unfold sched_wake in *. by eapply settled_procs_.
  - unfold task_exit_with, sched_wake in *. destruct (cur s c =? 0); [by simplify_eq; apply settled_refl|]. eapply settled_trans; [|by eapply settled_procs_]. by apply settled_called.
  - unfold task_wait in *. destruct (by_pid n s) as [[p|]|]; cbn in *; [by eapply settled_wait_look|simplify_eq; apply settled_refl|done].
  - unfold task_wait_again in *. destruct (wait_end c s) as [[s1 w]|] eqn:E; cbn in *; [|done]. destruct (settled_wait_end c s s1 w ltac:(done) E) as [A1 A2]. destruct (by_pid n s1); cbn in *; [|done].
    destruct (negb w && _); [by simplify_eq|]. eapply settled_trans; [exact A1|]. by eapply settled_wait_look.
  - unfold sys_kill in *. destruct (match tasks s !! cur s c with Some _ => _ | None => _ end); [simplify_eq; apply settled_refl|]. destruct (may_end n s) as [[]|]; cbn in *; [|simplify_eq; apply settled_refl|done].
    destruct (on_procs_ _ s) eqn:E; cbn in *; [|done]. simplify_eq. by eapply settled_procs_.
  - unfold sys_sigsend in *. destruct (may_end n s) as [[]|]; cbn in *; [|simplify_eq; apply settled_refl|done]. destruct (on_procs _ s) as [[]|] eqn:E; cbn in *; [|done]. unfold answered in *. simplify_eq. by eapply settled_procs.
  - unfold sys_signal in *. destruct (tasks s !! cur s c); [|simplify_eq; apply settled_refl]. destruct (on_procs _ s) as [[]|] eqn:E; cbn in *; [|done]. unfold answered in *. simplify_eq. by eapply settled_procs.
  - by eapply settled_procs.
  - by eapply settled_exec; [apply (wf_cpus _ H)|..].
Qed.

(** A task started: one more place in the ring, and what the others go on from as it was. *)
Definition grown (s s' : sched) : Prop :=
  cur s' 0 = cur s 0 /\
  (forall l, ring_ok s l -> ring_ok s' l \/ exists l1 a l2, l = l1 ++ l2 /\ ring_ok s' (l1 ++ a :: l2)) /\
  forall a t, (forall c, numbered c -> cur s c <> a) -> tasks s !! a = Some t -> exists t', tasks s' !! a = Some t' /\ context t' = context t.
Lemma grown_settled s s' : settled s s' -> grown s s'.
Proof. intros H. split_and!; [by apply H|intros l Hl; left; by apply H|apply H]. Qed.
Lemma grown_trans s s1 s' : settled s s1 -> grown s1 s' -> grown s s'.
Proof.
  intros A (B1 & B2 & B3). split_and!; [rewrite B1; by apply A|intros l Hl; by apply B2, A|]. intros a t Hc Ht.
  destruct (se_context _ _ A a t Hc Ht) as (t1 & Ht1 & E1). destruct (B3 a t1) as (t2 & Ht2 & E2); [intros c Hn; rewrite (se_cur _ _ A) by done; by apply Hc|done|]. exists t2. split; [done|congruence].
Qed.
Lemma grown_inserted s s' l a t : ring_ok s l -> inserted s s' l a t -> cur s' 0 = cur s 0 -> grown s s'.
Proof.
  intros Hl I Hc. split_and!; [done| |].
  - intros k Hk. right. destruct (in_ring _ _ _ _ _ I) as (l1 & l2 & El & _ & L'). apply ring_spec in Hk, Hl. rewrite Hl in Hk. injection Hk as <-. by exists l1, a, l2.
  - intros b u _ Hu. destruct (in_old _ _ _ _ _ I b u Hu) as (u' & Hu' & R). exists u'. split; [done|]. by rewrite R.
Qed.
Lemma grown_joined s a tf s' r : wf s -> unused s a -> room_for_number s -> joined a tf s = Some (s', r) -> grown s s'.
Proof.
  intros H Hu Hr E. destruct (wf_ring _ H) as [l Hl]. destruct (joined_spec s l a tf H Hl Hu Hr) as (s2 & E2 & I & _ & _ & F). rewrite E in E2. injection E2 as <- _.
  apply (grown_inserted s s' l a (tf (next_pid s)) Hl I). unfold cur, cpu_at. by rewrite F.
Qed.
Lemma created_grown s s' : wf s -> step s Created (Some s') -> grown s s'.
Proof.
  intros H Hs. stepped Hs.
  - unfold task_create in *. destruct (_ || _); [simplify_eq; by apply grown_settled, settled_refl|]. by eapply grown_joined.
  - unfold task_create_user in *. destruct (_ || _); [simplify_eq; by apply grown_settled, settled_refl|]. by eapply grown_joined.
  - unfold task_fork in *. destruct (_ || _); [simplify_eq; by apply grown_settled, settled_refl|]. destruct (tasks s !! cur s c) as [p|] eqn:Ep; [|by eapply grown_joined].
    set (s1 := upd (cur s c) _ s) in *. assert (settled s s1) as S1 by (by apply settled_called). eapply grown_trans; [exact S1|]. eapply grown_joined; [|split| |done].
    + apply wf_called; done.
    + by destruct H1.
    + destruct H1 as [_ Ha]. unfold s1. rewrite upd_lookup. destruct (decide (cur s c = a)); [congruence|done].
    + done.
  - destruct (wf_adopt s c a stack H) as (s2 & E & _ & [->|(l & t & Hl & I)] & Hc); [done..| |]; simplify_eq; [by apply grown_settled, settled_refl|by apply (grown_inserted _ _ l a t)].
  - destruct (decide (ring_head s = 0)) as [Eh|Hh]; [unfold sched_start in *; rewrite Eh in *; done|].
    destruct (wf_start s a stack entry H) as (s2 & E & _ & (l & t & Hl & I) & Hc); [done..|]. simplify_eq. by apply (grown_inserted _ _ l a t).
Qed.

(** ** Waiting for a turn *)

Lemma nodup_split (l1 l2 k1 k2 : list Z) a : NoDup (l1 ++ a :: l2) -> l1 ++ a :: l2 = k1 ++ a :: k2 -> l1 = k1 /\ l2 = k2.
Proof.
  revert k1. induction l1 as [|x l1 IH]; intros [|y k1] Hn E; cbn [app] in *; [by injection E as ->|injection E as E1 E2..].
  - apply list.NoDup_cons in Hn as [Hn _]. destruct Hn. rewrite E2. apply elem_of_app. right. by left.
  - subst x. apply list.NoDup_cons in Hn as [Hn _]. destruct Hn. apply elem_of_app. right. by left.
  - subst x. apply list.NoDup_cons in Hn as [_ Hn]. by destruct (IH _ Hn E2) as [-> ->].
Qed.
Lemma sub_split (vs v1 v2 : list Z) a : NoDup (v1 ++ a :: v2) -> vs `sublist_of` v1 ++ a :: v2 -> a ∈ vs -> exists w1 w2, vs = w1 ++ a :: w2 /\ w1 `sublist_of` v1 /\ w2 `sublist_of` v2.
Proof.
  intros Hn Hs Ha. apply sublist_app_r in Hs as (w1 & k & -> & H1 & H2). apply list.NoDup_app in Hn as (_ & Hd & Hn). apply list.NoDup_cons in Hn as [Hn _].
  apply sublist_cons_r in H2 as [H2|(w2 & -> & H2)]; [|by exists w1, w2]. exfalso. apply elem_of_app in Ha as [Ha|Ha].
  - eapply elem_of_sublist in Ha; [|exact H1]. apply (Hd a Ha). by left.
  - eapply elem_of_sublist in Ha; [|exact H2]. done.
Qed.
Lemma lap_unique l q vs vs' : NoDup l -> 0 ∉ l -> lap l q vs -> lap l q vs' -> vs = vs'.
Proof.
  intros Hn Hz H1 H2. inversion H1 as [|l1 q1 l2 E1]; inversion H2 as [|k1 q2 k2 E2]; subst; try done; try by destruct Hz; apply elem_of_app; right; left.
  destruct (nodup_split _ _ _ _ _ Hn E2) as [-> ->]. done.
Qed.
Lemma lap_again l p vs pre q post : lap l p vs -> vs = pre ++ q :: post -> lap l q (post ++ pre ++ [q]).
Proof.
  assert (forall k1 k2 ws, l = k1 ++ q :: k2 -> ws = k2 ++ k1 ++ [q] -> lap l q ws) as Hgo by (intros k1 k2 ws E ->; by constructor).
  intros [|l1 x l2 El] E; [by constructor|]. apply app_eq_app in E as (k & [[E1 E2]|[E1 E2]]).
  - destruct k as [|y k]; cbn [app] in E2; [rewrite app_nil_r in E1; destruct l1 as [|y l1]; cbn [app] in E2|]; injection E2 as E3 E4.
    + apply (Hgo [] l2); [by rewrite El, E3|by rewrite E4, E1].
    + apply (Hgo [] (l1 ++ x :: l2)); [by rewrite El, E3|by rewrite E4, E1, <- !app_assoc].
    + apply (Hgo (l1 ++ x :: pre) k); [by rewrite El, E1, E3, <- app_assoc|by rewrite E4, <- !app_assoc].
  - apply app_eq_app in E2 as (j & [[F1 F2]|[F1 F2]]).
    + destruct j as [|y j]; cbn [app] in F2; injection F2 as E3 E4.
      * rewrite app_nil_r in F1. apply (Hgo k l2); [by rewrite El, F1, E3|by rewrite E4, E1, <- app_assoc].
      * apply (Hgo k (j ++ x :: l2)); [by rewrite El, F1, E3, <- app_assoc|by rewrite E4, E1, <- !app_assoc].
    + destruct j as [|y j]; cbn [app] in F2; [|by destruct j]. injection F2 as E3 E4. rewrite app_nil_r in F1. apply (Hgo l1 l2); [by rewrite El, E3|by rewrite <- E4, E1, F1, <- app_assoc].
Qed.
Lemma lap_sub l l' q vs : NoDup l -> 0 ∉ l -> l' `sublist_of` l -> lap l q vs -> q = 0 \/ q ∈ l' -> exists vs', lap l' q vs' /\ vs' `sublist_of` vs.
Proof.
  intros Hn Hz Hs Hl Hq. destruct Hl as [|l1 q l2 ->]; [exists l'; split; [constructor|done]|].
  destruct Hq as [->|Hq]; [destruct Hz; apply elem_of_app; right; by left|]. destruct (sub_split l' l1 l2 q Hn Hs Hq) as (w1 & w2 & -> & A & B).
  eexists. split; [by constructor|]. by repeat apply sublist_app.
Qed.

(** [a] is the [n]th after the one the boot processor is running. *)
Definition behind (s : sched) (a : Z) (n : nat) : Prop :=
  exists l vs v1 v2, ring_ok s l /\ lap l (cur s 0) vs /\ vs = v1 ++ a :: v2 /\ length v1 = n.
Lemma behind_exists s a : wf s -> waiting s a -> exists n, behind s a n /\ (n < size (tasks s))%nat.
Proof.
  intros H (t & Ht & _). destruct (wf_ring _ H) as [l Hl]. destruct (lap_exists s l (cur s 0) Hl (cur_in_ring s l 0 H Hl ltac:(done))) as [vs Hlap].
  assert (a ∈ vs) as Ha by (rewrite (lap_perm _ _ _ Hlap); by apply (ring_member _ _ _ _ Hl Ht)). apply list_elem_of_split in Ha as (v1 & v2 & Ev).
  exists (length v1). split; [by exists l, vs, v1, v2|]. rewrite (ring_size _ _ Hl), <- (Permutation_length (lap_perm _ _ _ Hlap)), Ev, length_app. cbn. lia.
Qed.
(** Fewer tasks in the ring, and the boot processor's the same: no further behind. *)
Lemma behind_fewer s s' a n l l' : wf s' -> ring_ok s l -> ring_ok s' l' -> l' `sublist_of` l -> cur s' 0 = cur s 0 -> waiting s' a -> behind s a n -> exists n', behind s' a n' /\ (n' <= n)%nat.
Proof.
  intros H' Hl Hl' Hs Hc (t & Ht & _) (k & vs & v1 & v2 & Hk & Hlap & -> & <-). apply ring_spec in Hk as Ek. rewrite (ring_spec _ _ Hl) in Ek. injection Ek as <-.
  destruct (lap_sub l l' (cur s 0) _ (ro_nodup _ _ Hl) (ro_zero _ _ Hl) Hs Hlap) as (vs' & Hlap' & Hsub); [rewrite <- Hc; by apply cur_in_ring|].
  assert (a ∈ vs') as Ha by (rewrite (lap_perm _ _ _ Hlap'); by apply (ring_member _ _ _ _ Hl' Ht)).
  destruct (sub_split vs' v1 v2 a) as (w1 & w2 & -> & A & _); [rewrite (lap_perm _ _ _ Hlap); apply Hl|done|done|].
  exists (length w1). split; [|by apply sublist_length]. exists l', (w1 ++ a :: w2), w1, w2. rewrite Hc. done.
Qed.
(** One more task in the ring: one place further behind at most. *)
Lemma behind_more s s' a n l l1 b l2 : wf s' -> ring_ok s l -> l = l1 ++ l2 -> ring_ok s' (l1 ++ b :: l2) -> cur s' 0 = cur s 0 -> waiting s a -> waiting s' a -> behind s a n -> exists n', behind s' a n' /\ (n' <= S n)%nat.
Proof.
  intros H' Hl El Hl' Hc (t0 & Ht0 & _) (t & Ht & _) (k & vs & v1 & v2 & Hk & Hlap & Ev & <-). apply ring_spec in Hk as Ek. rewrite (ring_spec _ _ Hl) in Ek. injection Ek as <-.
  destruct (lap_exists s' _ (cur s 0) Hl') as [vs' Hlap']; [rewrite <- Hc; by apply cur_in_ring|].
  assert (l `sublist_of` l1 ++ b :: l2) as Hs by (rewrite El; apply sublist_app; [done|by apply sublist_cons]).
  assert (cur s 0 = 0 \/ cur s 0 ∈ l) as Hin.
  { inversion Hlap as [|k1 q k2 E]; [by left|right]. rewrite E. apply elem_of_app. right. by left. }
  destruct (lap_sub _ l (cur s 0) vs' (ro_nodup _ _ Hl') (ro_zero _ _ Hl') Hs Hlap' Hin) as (vs2 & Hlap2 & Hsub).
  rewrite (lap_unique l (cur s 0) vs2 vs (ro_nodup _ _ Hl) (ro_zero _ _ Hl) Hlap2 Hlap) in Hsub. clear vs2 Hlap2.
  assert (NoDup vs') as Hn' by (rewrite (lap_perm _ _ _ Hlap'); apply Hl').
  assert (a ∈ vs') as Ha by (rewrite (lap_perm _ _ _ Hlap'); by apply (ring_member _ _ _ _ Hl' Ht)). apply list_elem_of_split in Ha as (w1 & w2 & ->).
  destruct (sub_split vs w1 w2 a Hn' Hsub) as (u1 & u2 & Eu & A & B); [rewrite Ev; apply elem_of_app; right; by left|].
  assert (NoDup vs) as Hn by (rewrite (lap_perm _ _ _ Hlap); apply Hl). rewrite Ev in Eu, Hn. destruct (nodup_split _ _ _ _ _ Hn Eu) as [<- <-].
  exists (length w1). split; [exists (l1 ++ b :: l2), (w1 ++ a :: w2), w1, w2; by rewrite Hc|].
  pose proof (Permutation_length (lap_perm _ _ _ Hlap)) as P1. pose proof (Permutation_length (lap_perm _ _ _ Hlap')) as P2. rewrite Ev, El in P1. rewrite !length_app in *. cbn in *. apply sublist_length in B. lia.
Qed.

Lemma switched_effect s c s' : wf s -> step s (Switched c) (Some s') -> exists now work sp f sp' freed l vs,
  scheduler_switch kernel_directory now c work true sp f s = Some (Resumes s' sp' freed) /\ ring_ok s l /\ lap l (cur s c) vs /\ numbered c /\ turned now c sp f s l vs s' sp' freed.
Proof.
  intros H Hs. stepped Hs. destruct (wf_ring _ H) as [l Hl]. destruct (lap_exists s l (cur s c) Hl (cur_in_ring s l c H Hl ltac:(done))) as [vs Hlap].
  destruct (switch_spec now c work sp f s l vs H) as (s2 & sp2 & fr & E & _ & T); [done|done|done|done|by apply ring_nonempty with s|done|].
  exists now, work, sp, f, sp2, fr, l, vs. replace s' with s2 by congruence. done.
Qed.
(** A switch of the boot processor that does not come to a waiting task comes nearer to it,
    one of another processor at least no further away. *)
Lemma behind_switch s c s' a n : wf s -> step s (Switched c) (Some s') -> waiting s a -> waiting s' a -> behind s a n ->
  exists n', behind s' a n' /\ if decide (c = 0) then (n' < n)%nat else (n' <= n)%nat.
Proof.
  intros H Hs Hw Hw' Hb. pose proof (wf_step _ _ _ H Hs) as H'. destruct (switched_effect s c s' H Hs) as (now & work & sp & f & sp' & freed & l & vs & _ & Hl & Hlap & Hc & T).
  destruct (tu_ring _ _ _ _ _ _ _ _ _ _ T) as (l' & Hl' & Hsub). destruct (decide (c = 0)) as [->|Hn].
  - destruct Hb as (k & vs' & v1 & v2 & Hk & Hlap' & Ev & <-). apply ring_spec in Hk as Ek. rewrite (ring_spec _ _ Hl) in Ek. injection Ek as <-.
    pose proof (lap_unique l (cur s 0) _ _ (ro_nodup _ _ Hl) (ro_zero _ _ Hl) Hlap' Hlap) as ->.
    assert (NoDup vs) as Hnd by (rewrite (lap_perm _ _ _ Hlap); apply Hl).
    destruct (tu_task _ _ _ _ _ _ _ _ _ _ T) as (t' & Ht' & _ & _ & Hrun). destruct Hw' as (t & Ht & Hst & Hw').
    destruct (tu_turn _ _ _ _ _ _ _ _ _ _ T eq_refl a Hw) as [E|(pre & post & Evs & Hp)]; [by exists t|rewrite E in Ht'; congruence|].
    apply list_elem_of_split in Hp as (p1 & p2 & ->).
    assert (v1 = pre ++ cur s' 0 :: p1) as ->.
    { rewrite Ev in Hnd. destruct (nodup_split v1 v2 (pre ++ cur s' 0 :: p1) p2 a Hnd) as [-> _]; [|done]. rewrite <- Ev, Evs, <- app_assoc. done. }
    assert (lap l (cur s' 0) (p1 ++ a :: p2 ++ pre ++ [cur s' 0])) as Hlap2 by (pose proof (lap_again _ _ _ _ _ _ Hlap Evs) as X; by rewrite <- app_assoc in X).
    assert (cur s' 0 ∈ l') as Hq by (by apply (ring_member _ _ _ _ Hl' Ht')).
    destruct (lap_sub l l' (cur s' 0) _ (ro_nodup _ _ Hl) (ro_zero _ _ Hl) Hsub Hlap2 (or_intror Hq)) as (ws & Hws & Hwsub).
    destruct (sub_split ws p1 (p2 ++ pre ++ [cur s' 0]) a) as (w1 & w2 & -> & A & _); [rewrite (lap_perm _ _ _ Hlap2); apply Hl|done|rewrite (lap_perm _ _ _ Hws); by apply (ring_member _ _ _ _ Hl' Ht)|].
    exists (length w1). split; [by exists l', (w1 ++ a :: w2), w1, w2|]. apply sublist_length in A. rewrite length_app. cbn. lia.
  - apply (behind_fewer s s' a n l l'); try done. unfold cur. by rewrite (tu_others _ _ _ _ _ _ _ _ _ _ T).
Qed.

Definition boot : sched := Sched ∅ 0 1 false (replicate (Z.to_nat SMP_MAX_CPUS) (Cpu 0 0 [] kernel_directory 0)).
Lemma boot_cpu c : numbered c -> cpu_at boot c = Cpu 0 0 [] kernel_directory 0.
Proof. intros Hc. unfold cpu_at, boot. cbn [cpus]. apply lookup_total_replicate_2. unfold numbered in Hc. lia. Qed.
Lemma wf_booted : wf boot.
Proof.
  assert (forall a, tasks boot !! a = None) as Hno by (intros a; apply lookup_empty).
  constructor; unfold cur; try (intros a t Hx; rewrite Hno in Hx; done); try (intros a b t u Hx; rewrite Hno in Hx; done).
  - exists []. constructor; [constructor| |done|done|apply not_elem_of_nil]. intros a. rewrite Hno. split; [by intros ?%not_elem_of_nil|by intros [? [=]]].
  - done.
  - done.
  - intros c Hc. by rewrite boot_cpu.
  - intros c Hc. by rewrite boot_cpu.
  - intros c d Hc. by rewrite boot_cpu.
  - intros c Hc. rewrite boot_cpu by done. cbn. intros A B. destruct (decide (c = 0)) as [E|E]; [by apply A in E|by apply B in E].
  - by rewrite boot_cpu.
  - intros c t Hc Hx. by rewrite Hno in Hx.
Qed.

Inductive runs : sched -> list event -> sched -> Prop :=
  | runs_nil s : runs s [] s
  | runs_cons s e s1 es s' : step s e (Some s1) -> runs s1 es s' -> runs s (e :: es) s'.
Lemma wf_runs s es s' : wf s -> runs s es s' -> wf s'.
Proof. intros H Hr. induction Hr; eauto using wf_step. Qed.

(** Runs through which a task is there and ready but never comes to run. *)
Inductive kept_waiting (a : Z) : sched -> list event -> sched -> Prop :=
  | kw_nil s : waiting s a -> kept_waiting a s [] s
  | kw_cons s e s1 es s' : waiting s a -> step s e (Some s1) -> kept_waiting a s1 es s' -> kept_waiting a s (e :: es) s'.
Definition is_boot_switch (e : event) : bool := match e with Switched c => c =? 0 | _ => false end.
Definition is_creation (e : event) : bool := match e with Created => true | _ => false end.
Definition boot_switches (es : list event) : nat := length (filter (fun e => is_boot_switch e = true) es).
Definition creations (es : list event) : nat := length (filter (fun e => is_creation e = true) es).
Ltac counted := rewrite ?(decide_True (P := true = true)), ?(decide_False (P := false = true)) by done; cbn [length]; lia.
Lemma kept_waiting_bound a s es s' n : wf s -> behind s a n -> kept_waiting a s es s' -> (boot_switches es <= n + creations es)%nat.
Proof.
  intros H Hb Hk. revert n H Hb. induction Hk as [s Hw|s e s1 es s' Hw Hs Hk IH]; intros n H Hb; [unfold boot_switches; cbn; lia|].
  pose proof (wf_step _ _ _ H Hs) as H1. assert (waiting s1 a) as Hw1 by (by inversion Hk). unfold boot_switches, creations in *. rewrite !filter_cons.
  assert (settled s s1 -> exists n', behind s1 a n' /\ (n' <= n)%nat) as Hleft.
  { intros S1. destruct (wf_ring _ H) as [l Hl]. apply (behind_fewer s s1 a n l l); [done|done|by apply S1|done|by apply S1|done|done]. }
  destruct e as [c| |c b|].
  - destruct (behind_switch s c s1 a n H Hs Hw Hw1 Hb) as (n' & Hb' & Hn'). specialize (IH n' H1 Hb'). cbn [is_boot_switch is_creation].
    destruct (Z.eqb_spec c 0); [rewrite decide_True in Hn' by done|rewrite decide_False in Hn' by done]; counted.
  - cbn [is_boot_switch is_creation]. destruct (created_grown s s1 H Hs) as (Hc & Hr & _). destruct (wf_ring _ H) as [l Hl].
    destruct (Hr l Hl) as [Hl1|(l1 & b & l2 & El & Hl1)].
    + destruct (behind_fewer s s1 a n l l) as (n' & Hb' & Hn'); [done..|]. specialize (IH n' H1 Hb'). counted.
    + destruct (behind_more s s1 a n l l1 b l2) as (n' & Hb' & Hn'); [done..|]. specialize (IH n' H1 Hb'). counted.
  - cbn [is_boot_switch is_creation]. pose proof (happened_settled s _ s1 H Hs ltac:(eauto)) as S1. destruct (Hleft S1) as (n' & Hb' & Hn'). specialize (IH n' H1 Hb'). counted.
  - cbn [is_boot_switch is_creation]. pose proof (happened_settled s _ s1 H Hs ltac:(eauto)) as S1. destruct (Hleft S1) as (n' & Hb' & Hn'). specialize (IH n' H1 Hb'). counted.
Qed.

(** ** What the scheduler promises *)

(** Once it has begun, a processor that is up always finds something to run. *)
Lemma switch_goes_on s c now work sp f : wf s -> numbered c -> started s = true -> (c <> 0 -> cur s c <> 0) ->
  exists s' sp' freed l vs, scheduler_switch kernel_directory now c work true sp f s = Some (Resumes s' sp' freed) /\ wf s' /\ ring_ok s l /\ lap l (cur s c) vs /\ turned now c sp f s l vs s' sp' freed.
Proof.
  intros H Hc Hst Hon. destruct (wf_ring _ H) as [l Hl]. destruct (lap_exists s l (cur s c) Hl (cur_in_ring s l c H Hl Hc)) as [vs Hlap].
  destruct (wf_idle _ H c Hc) as (t & Ht & _); [by apply (wf_online _ H)|]. assert (l <> []) as Hne by (intros ->; apply (ring_member _ _ _ _ Hl) in Ht; by apply not_elem_of_nil in Ht).
  destruct (switch_spec now c work sp f s l vs H Hc Hst Hon Hl Hne Hlap) as (s' & sp' & fr & E & Hw & T). by exists s', sp', fr, l, vs.
Qed.
Lemma switch_frees s s' d a t : wf s -> wf s' -> (forall b u', tasks s' !! b = Some u' -> exists u, tasks s !! b = Some u /\ moved u u') ->
  d <> 0 -> tasks s !! a = Some t -> dir (m_of t) = d -> tasks s' !! a = None ->
  d <> kernel_directory /\ (forall b u, tasks s' !! b = Some u -> dir (m_of u) <> d) /\ forall e, numbered e -> cur s' e <> 0 -> cr3 (cpu_at s' e) <> d.
Proof.
  intros H H' Hm Hd Ht Ed Hno. assert (is_user t = true) as Hus by (pose proof (wf_user _ H a t Ht) as X; destruct (is_user t); [done|congruence]).
  assert (d <> kernel_directory) as Hk by (pose proof (wf_user _ H a t Ht) as X; rewrite Hus in X; destruct X; congruence).
  assert (forall b u, tasks s' !! b = Some u -> dir (m_of u) <> d) as Hb.
  { intros b u Hu E. destruct (Hm b u Hu) as (v & Hv & (_ & M2 & _)). rewrite M2 in E. assert (a = b) as <- by (apply (wf_dirs _ H a b t v Ht Hv Hus); congruence). congruence. }
  split_and!; [done|done|]. intros e He Hn. destruct (wf_current _ H' e He Hn) as (u & Hu & _). rewrite (wf_cr3 _ H' e u He Hu). unfold wanted. destruct (_ =? 0); [congruence|by apply Hb with (cur s' e)].
Qed.

(** C9: No task is on two processors, each processor runs a task that is there and has
    its space loaded, and none but the boot processor runs a task of the kernel, its own idle
    task apart. A switch always finds a task to go on with, which is the idle task or one that
    is neither dead nor asleep before its time; a record it gives back is one no processor is
    running, and a space one that no task has and no processor has loaded. Every call made
    in such a state has a result, but for one: a task that waits for another looks again at
    the record it found, and that may have been given back. All this holds whatever calls
    tasks make, on however many processors, up to the first such look at a record given back,
    and of tasks that end or are ended while a processor is still running them. *)
Theorem no_task_is_run_twice es s : runs boot es s ->
  (forall c d, numbered c -> numbered d -> cur s c <> 0 -> cur s c = cur s d -> c = d) /\
  (forall c, numbered c -> cur s c <> 0 -> exists t, tasks s !! cur s c = Some t /\ on_cpu t = c /\ cr3 (cpu_at s c) = wanted t /\
     (c = 0 \/ is_user t = true \/ cur s c = idle_of (cpu_at s c))) /\
  (forall c now work sp f, numbered c -> started s = true -> (c <> 0 -> cur s c <> 0) ->
     exists s' sp' freed, scheduler_switch kernel_directory now c work true sp f s = Some (Resumes s' sp' freed) /\
       (cur s' c = idle_of (cpu_at s c) \/ exists t, tasks s !! cur s' c = Some t /\ st t <> TASK_DEAD /\ (st t = TASK_SLEEPING -> wake_at (p_of t) <= now)) /\
       (forall a, is_Some (tasks s !! a) -> tasks s' !! a = None -> forall e, numbered e -> cur s' e <> a) /\
       (forall d, d ∈ freed -> d <> kernel_directory /\ (forall a t, tasks s' !! a = Some t -> dir (m_of t) <> d) /\ forall e, numbered e -> cur s' e <> 0 -> cr3 (cpu_at s' e) <> d)) /\
  (forall e, step s e None -> exists c a, e = Looked c a /\ tasks s !! a = None).
Proof.
  intros Hr. pose proof (wf_runs _ _ _ wf_booted Hr) as H. split_and!; [| | |intros e; exact (step_result s e None H)].
  - intros c d Hc Hd Hn E. destruct (wf_current _ H c Hc Hn) as (t & Ht & <-). destruct (wf_current _ H d Hd ltac:(by rewrite <- E)) as (u & Hu & <-). rewrite E, Hu in Ht. by injection Ht as <-.
  - intros c Hc Hn. destruct (wf_current _ H c Hc Hn) as (t & Ht & Ho). exists t. split_and!; [done|done|by apply (wf_cr3 _ H)|]. destruct (decide (c = 0)); [by left|right].
    destruct (wf_kernel _ H _ t Ht) as [|E]; [unfold numbered in Hc; lia|by left|right]. by rewrite Ho in E.
  - intros c now work sp f Hc Hst Hon. destruct (switch_goes_on s c now work sp f H Hc Hst Hon) as (s' & sp' & fr & l & vs & E & H' & Hl & Hlap & T). exists s', sp', fr. split_and!; [done|apply T| |].
    + intros a [t Ht] Hno. by apply (tu_gone _ _ _ _ _ _ _ _ _ _ T a t).
    + intros d Hd. apply (tu_freed _ _ _ _ _ _ _ _ _ _ T) in Hd as (Hd & a & t & Ht & Ed & Hno). apply (switch_frees s s' d a t); try done.
      intros b u' Hu'. destruct (tu_context _ _ _ _ _ _ _ _ _ _ T b u' Hu') as (u & Hu & Hm & _). eauto.
Qed.

(** C10: Every task has its turn: one that is ready, on no processor and stays so runs
    before the boot processor has switched as many times as there are tasks in the ring, one
    more for each started meanwhile, whatever the tasks and the other processors do. *)
Theorem ready_tasks_get_their_turn es0 s a es s' : runs boot es0 s -> kept_waiting a s es s' ->
  (boot_switches es < size (tasks s) + creations es)%nat.
Proof.
  intros Hr Hk. pose proof (wf_runs _ _ _ wf_booted Hr) as H. destruct (behind_exists s a H) as (n & Hb & Hn); [by inversion Hk|].
  pose proof (kept_waiting_bound a s es s' n H Hb Hk). lia.
Qed.

(** Runs through which a task is there and on no processor. *)
Definition off (s : sched) (a : Z) : Prop := is_Some (tasks s !! a) /\ forall c, numbered c -> cur s c <> a.
Inductive set_aside (a : Z) : sched -> list event -> sched -> Prop :=
  | sa_nil s : off s a -> set_aside a s [] s
  | sa_cons s e s1 es s' : off s a -> step s e (Some s1) -> set_aside a s1 es s' -> set_aside a s (e :: es) s'.
Lemma set_aside_context a s es s' t : wf s -> set_aside a s es s' -> tasks s !! a = Some t ->
  wf s' /\ exists t', tasks s' !! a = Some t' /\ context t' = context t /\ forall c, numbered c -> cur s' c <> a.
Proof.
  intros H Hsa. revert t H. induction Hsa as [s [_ Ho]|s e s1 es s' [_ Ho] Hs Hsa IH]; intros t H Ht; [eauto|].
  pose proof (wf_step _ _ _ H Hs) as H1.
  assert (exists t1, tasks s1 !! a = Some t1 /\ context t1 = context t) as (t1 & Ht1 & E1).
  { destruct e as [c| |c b|].
    - destruct (switched_effect s c s1 H Hs) as (now & work & sp & f & sp' & fr & l & vs & _ & _ & _ & Hc & T).
      assert (is_Some (tasks s1 !! a)) as [t1 Ht1] by (inversion Hsa as [? [? _]|? ? ? ? ? [? _]]; done).
      destruct (tu_context _ _ _ _ _ _ _ _ _ _ T a t1 Ht1) as (u & Hu & _ & Ex). rewrite Ht in Hu. injection Hu as <-. rewrite decide_False in Ex by (intros ->; by apply (Ho c)). eauto.
    - destruct (created_grown s s1 H Hs) as (_ & _ & Hx). by apply Hx.
    - by apply (se_context _ _ (happened_settled s _ s1 H Hs ltac:(eauto))).
    - by apply (se_context _ _ (happened_settled s _ s1 H Hs ltac:(eauto))). }
  destruct (IH t1 H1 Ht1) as (H' & t' & Ht' & E' & Ho'). split; [done|]. exists t'. split_and!; [done|congruence|done].
Qed.

(** What a processor finds when it comes back from a switch. *)
Lemma switch_resumes s c now work sp f s' sp' fr : wf s -> numbered c -> started s = true -> (c <> 0 -> cur s c <> 0) ->
  scheduler_switch kernel_directory now c work true sp f s = Some (Resumes s' sp' fr) ->
  wf s' /\ exists t' t, tasks s' !! cur s' c = Some t' /\ sp' = krsp t' /\ live (cpu_at s' c) = fpu t' /\ cr3 (cpu_at s' c) = wanted t' /\ tasks s !! cur s' c = Some t /\
    context t' = (if decide (cur s' c = cur s c) then (sp, f, live (cpu_at s c)) else context t).
Proof.
  intros H Hc Hst Hon E. destruct (switch_goes_on s c now work sp f H Hc Hst Hon) as (s1 & sp1 & fr1 & l & vs & E' & H' & _ & _ & T). rewrite E in E'. injection E' as <- <- <-.
  split; [done|]. destruct (tu_task _ _ _ _ _ _ _ _ _ _ T) as (t' & Ht' & E1 & E2 & _). destruct (tu_context _ _ _ _ _ _ _ _ _ _ T _ t' Ht') as (t & Ht & _ & Ex).
  exists t', t. split_and!; try done. by apply (wf_cr3 _ H').
Qed.
Lemma taken_up_again a s es s' d now work sp f s3 sp3 fr t : wf s -> tasks s !! a = Some t -> set_aside a s es s' -> numbered d -> (d <> 0 -> cur s' d <> 0) -> started s' = true ->
  scheduler_switch kernel_directory now d work true sp f s' = Some (Resumes s3 sp3 fr) -> cur s3 d = a ->
  sp3 = krsp t /\ live (cpu_at s3 d) = fpu t /\ exists t', tasks s3 !! a = Some t' /\ krsp t' = krsp t /\ frame t' = frame t /\ cr3 (cpu_at s3 d) = wanted t'.
Proof.
  intros H Ht Hsa Hd Hon Hst E Ea. destruct (set_aside_context a s es s' t H Hsa Ht) as (H' & t' & Ht' & Ec & Ho).
  destruct (switch_resumes s' d now work sp f s3 sp3 fr H' Hd Hst Hon E) as (_ & u & v & Hu & -> & -> & Ecr & Hv & Ex). rewrite Ea in *.
  rewrite decide_False in Ex by (intros ->; by apply (Ho d)). rewrite Ht' in Hv. injection Hv as <-. rewrite Ec in Ex. unfold context in Ex. injection Ex as E1 E2 E3. eauto 10.
Qed.

(** C11: A task goes on as it was: when a processor takes up one that was put down, at
    once or after anything else has happened, on the same processor or another, it resumes at
    the frame it was put down with, with the floating point registers it had then and its own
    space loaded; and a forked task starts at its parent's frame, but for the answer, with
    the registers its parent had. *)
Theorem tasks_go_on_as_they_were es0 s c : runs boot es0 s -> numbered c -> started s = true -> cur s c <> 0 ->
  (forall now work sp f s1 sp1 fr1, scheduler_switch kernel_directory now c work true sp f s = Some (Resumes s1 sp1 fr1) ->
    let goes_on s' c' sp' := sp' = sp /\ live (cpu_at s' c') = live (cpu_at s c) /\
      exists t, tasks s' !! cur s c = Some t /\ krsp t = sp /\ frame t = f /\ cr3 (cpu_at s' c') = wanted t in
    (cur s1 c = cur s c -> goes_on s1 c sp1) /\
    (forall es s2 d now' work' sp' f' s3 sp3 fr3, set_aside (cur s c) s1 es s2 -> numbered d -> (d <> 0 -> cur s2 d <> 0) -> started s2 = true ->
      scheduler_switch kernel_directory now' d work' true sp' f' s2 = Some (Resumes s3 sp3 fr3) -> cur s3 d = cur s c -> goes_on s3 d sp3)) /\
  (forall a stack d f rax, unused s a -> room_for_number s -> new_dir s d -> stack <> 0 -> exists s1, task_fork c a stack d f rax s = Some (s1, a) /\
    forall es s2 e now work sp' f' s3 sp3 fr3, set_aside a s1 es s2 -> numbered e -> (e <> 0 -> cur s2 e <> 0) -> started s2 = true ->
      scheduler_switch kernel_directory now e work true sp' f' s2 = Some (Resumes s3 sp3 fr3) -> cur s3 e = a ->
      sp3 = frame_at stack /\ live (cpu_at s3 e) = live (cpu_at s c) /\ exists t, tasks s3 !! a = Some t /\ frame t = with_rax rax f).
Proof.
  intros Hr Hc Hst Hn. pose proof (wf_runs _ _ _ wf_booted Hr) as H. split.
  - intros now work sp f s1 sp1 fr1 E goes_on. destruct (switch_goes_on s c now work sp f H Hc Hst (fun _ => Hn)) as (s1' & sp1' & fr1' & l & vs & E' & H1 & _ & _ & T). rewrite E in E'. injection E' as <- <- <-.
    split.
    + intros Ea. destruct (switch_resumes s c now work sp f s1 sp1 fr1 H Hc Hst (fun _ => Hn) E) as (_ & u & v & Hu & Y1 & Y2 & Ecr & _ & Ex). rewrite Ea in *. rewrite decide_True in Ex by done.
      unfold context in Ex. injection Ex as E1 E2 E3. split_and!; [congruence..|]. exists u. split_and!; congruence.
    + intros es s2 d now' work' sp' f' s3 sp3 fr3 Hsa Hd Hon Hst2 E3 Ea.
      assert (is_Some (tasks s1 !! cur s c)) as [t1 Ht1] by (inversion Hsa as [? [? _]|? ? ? ? ? [? _]]; done).
      destruct (tu_context _ _ _ _ _ _ _ _ _ _ T _ t1 Ht1) as (u & _ & _ & Ex). rewrite decide_True in Ex by done. unfold context in Ex. injection Ex as X1 X2 X3.
      destruct (taken_up_again _ _ _ _ _ _ _ _ _ _ _ _ t1 H1 Ht1 Hsa Hd Hon Hst2 E3 Ea) as (Y1 & Y2 & t & Y3 & Y4 & Y5 & Y6). unfold goes_on. split_and!; [congruence..|]. exists t. split_and!; congruence.
  - intros a stack d f rax Hu Hroom Hnd Hs. destruct (wf_current _ H c Hc Hn) as (parent & Hp & _).
    destruct (fork_spec s c a stack d f rax parent H Hu Hroom Hnd Hs Hp) as (s1 & E & H1 & t1 & Ht1 & Ex). unfold context in Ex. injection Ex as X1 X2 X3. exists s1. split; [done|].
    intros es s2 e now work sp' f' s3 sp3 fr3 Hsa He Hon Hst2 E3 Ea.
    destruct (taken_up_again _ _ _ _ _ _ _ _ _ _ _ _ t1 H1 Ht1 Hsa He Hon Hst2 E3 Ea) as (Y1 & Y2 & t & Y3 & _ & Y4 & _). split_and!; [congruence..|]. exists t. split; congruence.
Qed.
End Turns.

(** ** A small run *)

#[local] Notation K := 0x100000.
#[local] Notation rs := (start_frame 0 0 0 0).
Definition after {A} (r : option (sched * A)) : sched := match r with Some (s, _) => s | None => boot K end.
Definition resumed (r : option switched) : sched := match r with Some (Resumes s _ _) => s | _ => boot K end.
(** The boot task at 0x1000, the idle task at 0x2000, and programs at 0x3000, 0x4000, 0x5000. *)
Definition booted : sched := default (boot K) (sched_start 0x2000 0x20000 0x8888 (after (task_create 0 0x1000 0x10000 0x9999 (boot K)))).
Definition with_program (i : Z) (s : sched) : sched := after (task_create_user 0 (i * 4096) (i * 0x10000) (i * 0x200000) 0x400000 0x7FFF0000 0x400000 0x410000 s).
Definition three : sched := with_program 5 (with_program 4 (with_program 3 booted)).
Definition turn (s : sched) : sched := resumed (scheduler_switch K 10 0 false true (0x10000 + cur s 0) rs s).

Lemma new_dir_at s d : forallb (fun at' => negb (dir (m_of at'.2) =? d)) (map_to_list (tasks s)) = true -> d <> 0 -> d <> K -> new_dir K s d.
Proof.
  intros H D1 D2. split_and!; [done|done|]. intros a t Ha E. rewrite forallb_forall in H.
  specialize (H (a, t) ltac:(apply list_elem_of_In; by apply elem_of_map_to_list)). cbn in H. rewrite E, Z.eqb_refl in H. done.
Qed.
Ltac evaluated := match goal with |- unused _ _ => split; [discriminate|vm_compute; reflexivity] | |- _ <> _ => vm_compute; discriminate | _ => vm_compute; first [reflexivity | exact I] end.
Lemma booted_runs : runs K (boot K) [Created; Created] booted.
Proof.
  eapply runs_cons; [apply (st_create K (boot K) 0 0x1000 0x10000 0x9999 (Some (after (task_create 0 0x1000 0x10000 0x9999 (boot K))))); [evaluated|evaluated|evaluated]|].
  eapply runs_cons; [|apply runs_nil]. apply (st_start K _ 0x2000 0x20000 0x8888); [evaluated|evaluated|done|evaluated|evaluated|evaluated].
Qed.
Lemma runs_app k s es s1 es' s' : runs k s es s1 -> runs k s1 es' s' -> runs k s (es ++ es') s'.
Proof. intros H H'. induction H; [done|]. eapply runs_cons; eauto. Qed.
Lemma program_step i s : unused s (i * 4096) -> room_for_number s -> new_dir K s (i * 0x200000) ->
  match task_create_user 0 (i * 4096) (i * 0x10000) (i * 0x200000) 0x400000 0x7FFF0000 0x400000 0x410000 s with Some _ => True | None => False end -> step K s Created (Some (with_program i s)).
Proof. intros A B C D. unfold with_program. destruct (task_create_user _ _ _ _ _ _ _ _ _) as [[s1 r]|] eqn:E; [|done]. apply (st_create_user K s 0 (i * 4096) (i * 0x10000) (i * 0x200000) 0x400000 0x7FFF0000 0x400000 0x410000); [done..|by rewrite E]. Qed.
Lemma three_runs : runs K (boot K) [Created; Created; Created; Created; Created] three.
Proof.
  unfold three. apply (runs_app K _ _ _ [_; _; _] _ booted_runs).
  eapply runs_cons; [apply (program_step 3 booted); [evaluated|evaluated|apply new_dir_at; evaluated|evaluated]|].
  eapply runs_cons; [apply (program_step 4 (with_program 3 booted)); [evaluated|evaluated|apply new_dir_at; evaluated|evaluated]|].
  eapply runs_cons; [apply (program_step 5 (with_program 4 (with_program 3 booted))); [evaluated|evaluated|apply new_dir_at; evaluated|evaluated]|]. apply runs_nil.
Qed.
Lemma turn_step s : started s = true -> ring_head s <> 0 ->
  match scheduler_switch K 10 0 false true (0x10000 + cur s 0) rs s with Some (Resumes _ _ _) => True | _ => False end -> step K s (Switched 0) (Some (turn s)).
Proof.
  intros A B C. unfold turn. destruct (scheduler_switch _ _ _ _ _ _ _ _) as [[s1 sp fr|]|] eqn:E; try done. apply (st_switch K s 0 10 false (0x10000 + cur s 0) rs); [done..|by rewrite E].
Qed.
Lemma two_turns : runs K three [Switched 0; Switched 0] (turn (turn three)).
Proof. eapply runs_cons; [apply turn_step; evaluated|]. eapply runs_cons; [apply turn_step; evaluated|apply runs_nil]. Qed.
Definition running : sched := turn (turn three).
Lemma running_runs : runs K (boot K) [Created; Created; Created; Created; Created; Switched 0; Switched 0] running.
Proof. exact (runs_app K _ [_; _; _; _; _] _ _ _ three_runs two_turns). Qed.
Lemma running_is : cur running 0 = 0x3000 /\ started running = true.
Proof. by split; vm_compute. Qed.
Lemma switch_turn s : match scheduler_switch K 10 0 false true (0x10000 + cur s 0) rs s with Some (Resumes _ _ _) => True | _ => False end ->
  exists sp fr, scheduler_switch K 10 0 false true (0x10000 + cur s 0) rs s = Some (Resumes (turn s) sp fr).
Proof. unfold turn. destruct (scheduler_switch _ _ _ _ _ _ _ _) as [[s1 sp fr|]|]; try done. eauto. Qed.
Lemma exit_step s : calls s 0 -> match task_exit_with 10 0 7 s with Some _ => True | None => False end -> step K s Happened (Some (default (boot K) (task_exit_with 10 0 7 s))).
Proof. intros A B. destruct (task_exit_with 10 0 7 s) as [s1|] eqn:E; [|done]. apply (st_exit K s 0 10 7); [done|by rewrite E]. Qed.
Lemma wait_step s : calls s 0 -> match task_wait 10 100 0 5 s with Some _ => True | None => False end -> step K s Happened (Some (after (task_wait 10 100 0 5 s))).
Proof. intros A B. unfold after. destruct (task_wait 10 100 0 5 s) as [[s1 r]|] eqn:E; [|done]. apply (st_wait K s 0 10 100 5); [done|by rewrite E]. Qed.
Lemma wait_again_step s : calls s 0 -> match task_wait_again 10 100 0 5 0x5000 s with Some _ => True | None => False end -> step K s (Looked 0 0x5000) (Some (after (task_wait_again 10 100 0 5 0x5000 s))).
Proof. intros A B. unfold after. destruct (task_wait_again 10 100 0 5 0x5000 s) as [[s1 r]|] eqn:E; [|done]. apply (st_wait_again K s 0 10 100 5 0x5000); [done|by rewrite E]. Qed.
(** The programs 3 and 4 wait for 5, which ends; 3 has its answer, and the record is given
    back before 4 comes to look: a run to a step without a result. *)
Definition waiting_for_it : sched := turn (after (task_wait 10 100 0 5 (turn (after (task_wait 10 100 0 5 running))))).
Definition one_answered : sched := after (task_wait_again 10 100 0 5 0x5000 (turn (turn (default (boot K) (task_exit_with 10 0 7 waiting_for_it))))).
Ltac calling := split; [by split; vm_compute|split; vm_compute; discriminate].
Lemma two_wait : runs K running [Happened; Switched 0; Happened; Switched 0] waiting_for_it.
Proof.
  unfold waiting_for_it. eapply runs_cons; [apply wait_step; [calling|evaluated]|]. eapply runs_cons; [apply turn_step; evaluated|].
  eapply runs_cons; [apply wait_step; [calling|evaluated]|]. eapply runs_cons; [apply turn_step; evaluated|apply runs_nil].
Qed.
Lemma one_is_answered : runs K waiting_for_it [Happened; Switched 0; Switched 0; Looked 0 0x5000] one_answered.
Proof.
  unfold one_answered. eapply runs_cons; [apply exit_step; [calling|evaluated]|]. eapply runs_cons; [apply turn_step; evaluated|].
  eapply runs_cons; [apply turn_step; evaluated|]. eapply runs_cons; [apply wait_again_step; [calling|evaluated]|apply runs_nil].
Qed.
Example second_waiter_looks_at_a_freed_record : exists es, runs K (boot K) es (turn one_answered) /\ step K (turn one_answered) (Looked 0 0x5000) None.
Proof.
  eexists. split; [|apply (st_wait_again K _ 0 10 100 5 0x5000); [calling|evaluated]]. eapply runs_app; [exact running_runs|]. eapply runs_app; [exact two_wait|]. eapply runs_app; [exact one_is_answered|].
  eapply runs_cons; [apply turn_step; evaluated|apply runs_nil].
Qed.
#[local] Opaque turn three running.
Lemma no_task_is_run_twice_witness : exists t, tasks running !! cur running 0 = Some t /\ on_cpu t = 0 /\ cr3 (cpu_at running 0) = wanted K t /\
  (0 = 0 \/ is_user t = true \/ cur running 0 = idle_of (cpu_at running 0)).
Proof.
  destruct running_is as [R _]. pose proof (proj1 (proj2 (no_task_is_run_twice K _ _ running_runs)) 0) as H.
  apply H; [split; [apply Z.le_refl|reflexivity]|rewrite R; discriminate].
Defined.

Lemma waits s a : (if tasks s !! a is Some t then bool_decide (st t = TASK_READY) && (on_cpu t =? -1) && negb (is_idle s a) else false) = true -> waiting s a.
Proof. intros H. unfold waiting. destruct (tasks s !! a) as [t|]; [|done]. apply andb_prop in H as [[H1%bool_decide_eq_true H2%Z.eqb_eq]%andb_prop H3%negb_true_iff]. eauto. Qed.
Lemma last_waits : kept_waiting K 0x5000 three [Switched 0; Switched 0] (turn (turn three)).
Proof.
  eapply kw_cons; [apply waits; evaluated|apply turn_step; evaluated|]. eapply kw_cons; [apply waits; evaluated|apply turn_step; evaluated|].
  apply kw_nil, waits. evaluated.
Qed.
Lemma ready_tasks_get_their_turn_witness : kept_waiting K 0x5000 three [Switched 0; Switched 0] (turn (turn three)) /\
  (boot_switches [Switched 0; Switched 0] < size (tasks three) + creations [Switched 0; Switched 0])%nat.
Proof. split; [exact last_waits|]. exact (ready_tasks_get_their_turn K _ _ _ _ _ three_runs last_waits). Defined.

Lemma sits s a : is_Some (tasks s !! a) -> forallb (fun c => negb (current_of c =? a)) (cpus s) = true -> length (cpus s) = 16%nat -> off s a.
Proof.
  intros H Hf Hl. split; [done|]. intros c Hc E. rewrite forallb_forall in Hf. specialize (Hf (cpu_at s c)). unfold cur in E. rewrite E, Z.eqb_refl in Hf.
  assert (false = true); [|done]. apply Hf, list_elem_of_In. unfold cpu_at. apply list_elem_of_lookup_total_2. unfold numbered, SMP_MAX_CPUS in Hc. lia.
Qed.
Lemma first_sits : set_aside K 0x3000 (turn running) [Switched 0; Switched 0] (turn (turn (turn running))).
Proof.
  eapply sa_cons; [apply sits; vm_compute; eauto|apply turn_step; evaluated|]. eapply sa_cons; [apply sits; vm_compute; eauto|apply turn_step; evaluated|].
  apply sa_nil, sits; vm_compute; eauto.
Qed.
Lemma put_down_then_taken_up : exists sp1 fr1 sp3 fr3, scheduler_switch K 10 0 false true 0x13000 rs running = Some (Resumes (turn running) sp1 fr1) /\
  scheduler_switch K 10 0 false true (0x10000 + cur (turn (turn (turn running))) 0) rs (turn (turn (turn running))) = Some (Resumes (turn (turn (turn (turn running)))) sp3 fr3) /\
  started (turn (turn (turn running))) = true /\ cur (turn (turn (turn (turn running)))) 0 = 0x3000.
Proof.
  destruct (switch_turn running) as (sp1 & fr1 & E1); [evaluated|]. destruct (switch_turn (turn (turn (turn running)))) as (sp3 & fr3 & E3); [evaluated|].
  exists sp1, fr1, sp3, fr3. destruct running_is as [R _]. rewrite R in E1. split_and!; [exact E1|exact E3|evaluated|evaluated].
Qed.
Lemma tasks_go_on_as_they_were_witness : exists sp3 fr3, scheduler_switch K 10 0 false true (0x10000 + cur (turn (turn (turn running))) 0) rs (turn (turn (turn running))) = Some (Resumes (turn (turn (turn (turn running)))) sp3 fr3) /\ sp3 = 0x13000.
Proof.
  destruct put_down_then_taken_up as (sp1 & fr1 & sp3 & fr3 & E1 & E3 & Hs & Hc). exists sp3, fr3. split; [exact E3|]. destruct running_is as [R S].
  pose proof first_sits as Hf. rewrite <- R in Hf. rewrite <- R in Hc.
  assert (cur running 0 <> 0) as Hn by (rewrite R; discriminate).
  exact (proj1 (proj2 (proj1 (tasks_go_on_as_they_were K _ _ 0 running_runs (conj (Z.le_refl 0) eq_refl) S Hn) _ _ _ _ _ _ _ E1) _ _ 0 _ _ _ _ _ _ _ Hf (conj (Z.le_refl 0) eq_refl) (fun h => match h eq_refl with end) Hs E3 Hc)).
Defined.
