(* ===== verification/Tcp.v ===== *)
(** The connections of kernel/tcp.c: their two halves, the segments they put on the wire and
    take from it, and the calls. The timer, the IP layer and what arrives when the card is
    polled are parameters. *)
From S2P Require Import Prelude.

(** ** Data *)

Definition TH_FIN := 0x01.
Definition TH_SYN := 0x02.
Definition TH_RST := 0x04.
Definition TH_PSH := 0x08.
Definition TH_ACK := 0x10.
Definition RTO_MIN_MS := 400.
Definition RTO_MAX_MS := 4000.
Definition MAX_RETRIES := 6.
Definition RXCAP := 65536.
Definition TCP_HELD := 8.
Definition TCP_MSS := 1460.
Definition TCP_MAX := 6.
(** sizeof(tcp_t), and the arrays a segment is built and kept in. *)
Definition HEADER := 20.
Definition SEGMENT := 1500.
Definition RT_DATA := 1400.

Inductive tstate := T_CLOSED | T_SYNSENT | T_OPEN | T_CLOSING | T_DONE.
#[export] Instance tstate_eq_dec : EqDecision tstate.
Proof. solve_decision. Defined.

(** The sending half of a connection, with the one segment in flight. *)
Record sender := Snd {
  snd_nxt : Z; snd_una : Z; rt_data : list Z; rt_len : Z; rt_seq : Z; rt_flags : Z;
  rt_pending : bool; rt_sent_at : Z; rt_timeout_ms : Z; rt_tries : Z }.
(** The receiving half. [held] is the entries of held_lo and held_hi in use; [rxbuf] is
    empty until the buffer has been allocated. *)
Record receiver := Rcv {
  rcv_nxt : Z; got_fin : bool; rxbuf : list Z; rxlen : Z;
  held : list (Z * Z); fin_held : bool; fin_at : Z }.
Record tcpc := Conn {
  used : bool; state : tstate; peer_ip : Z; peer_port : Z; local_port : Z;
  c_snd : sender; c_rcv : receiver; quiet : bool; owner : Z }.
(** What a connection shares with the rest: the totals, how often the timer was read, the IP
    layer asked and the card polled, and the segments that went out, with their address. *)
Record world := World {
  rst_seen : Z; ooo_seen : Z; rt_total : Z; clock : Z; sends : Z; polls : Z;
  wire : list (Z * list Z) }.
Record tcp := Tcp { conns : list tcpc; next_port : Z; w_of : world }.

(** A segment that arrived, past its header. *)
Record seg := Seg { g_seq : Z; g_ack : Z; g_flags : Z; g_data : list Z }.

Definition with_used (c : tcpc) (u : bool) : tcpc :=
  Conn u (state c) (peer_ip c) (peer_port c) (local_port c) (c_snd c) (c_rcv c) (quiet c) (owner c).
Definition with_state (c : tcpc) (s : tstate) : tcpc :=
  Conn (used c) s (peer_ip c) (peer_port c) (local_port c) (c_snd c) (c_rcv c) (quiet c) (owner c).
Definition with_snd (c : tcpc) (s : sender) : tcpc :=
  Conn (used c) (state c) (peer_ip c) (peer_port c) (local_port c) s (c_rcv c) (quiet c) (owner c).
Definition with_rcv (c : tcpc) (r : receiver) : tcpc :=
  Conn (used c) (state c) (peer_ip c) (peer_port c) (local_port c) (c_snd c) r (quiet c) (owner c).
Definition with_owner (c : tcpc) (pid : Z) : tcpc :=
  Conn (used c) (state c) (peer_ip c) (peer_port c) (local_port c) (c_snd c) (c_rcv c) (quiet c) pid.
Definition with_pending (s : sender) (b : bool) : sender :=
  Snd (snd_nxt s) (snd_una s) (rt_data s) (rt_len s) (rt_seq s) (rt_flags s) b (rt_sent_at s) (rt_timeout_ms s) (rt_tries s).
Definition with_nxt (s : sender) (n : Z) : sender :=
  Snd n (snd_una s) (rt_data s) (rt_len s) (rt_seq s) (rt_flags s) (rt_pending s) (rt_sent_at s) (rt_timeout_ms s) (rt_tries s).
Definition with_una (s : sender) (n : Z) : sender :=
  Snd (snd_nxt s) n (rt_data s) (rt_len s) (rt_seq s) (rt_flags s) (rt_pending s) (rt_sent_at s) (rt_timeout_ms s) (rt_tries s).
Definition with_held (r : receiver) (l : list (Z * Z)) : receiver :=
  Rcv (rcv_nxt r) (got_fin r) (rxbuf r) (rxlen r) l (fin_held r) (fin_at r).

Definition saw_rst (w : world) : world :=
  World (u32 (rst_seen w + 1)) (ooo_seen w) (rt_total w) (clock w) (sends w) (polls w) (wire w).
Definition saw_ooo (w : world) : world :=
  World (rst_seen w) (u32 (ooo_seen w + 1)) (rt_total w) (clock w) (sends w) (polls w) (wire w).
Definition resent (w : world) : world :=
  World (rst_seen w) (ooo_seen w) (u32 (rt_total w + 1)) (clock w) (sends w) (polls w) (wire w).

Definition has (flags bit : Z) : bool := negb (flags .& bit =? 0).
(** [(i32)(a - b)], how sequence numbers are compared. *)
Definition sdiff (a b : Z) : Z := i32 (a - b).

(** ** The receive buffer and what is held past a hole *)

Definition window_now (r : receiver) : Z :=
  let free := u32 (RXCAP - rxlen r) in u16 (if 65535 <? free then 65535 else free).

Definition held_reach (r : receiver) : Z :=
  foldl (fun far '(_, hi) => if far <? u32 (hi - rcv_nxt r) then u32 (hi - rcv_nxt r) else far) 0 (held r).

(** The last entry moves into [i]. *)
Definition unhold (l : list (Z * Z)) (i : nat) : list (Z * Z) :=
  let n := pred (length l) in take n (<[i := getz (0, 0) l (Z.of_nat n)]> l).

(** Each round drops an entry or passes one. *)
Fixpoint hold_merge (fuel : nat) (i : nat) (l : list (Z * Z)) (lo hi : Z) : list (Z * Z) * Z * Z :=
  match fuel with
  | O => (l, lo, hi)
  | S fuel =>
      match l !! i with
      | None => (l, lo, hi)
      | Some (a, b) =>
          if (sdiff lo b <=? 0) && (sdiff a hi <=? 0) then
            hold_merge fuel i (unhold l i) (if sdiff a lo <? 0 then a else lo) (if 0 <? sdiff b hi then b else hi)
          else hold_merge fuel (S i) l lo hi
      end
  end.
Definition hold (r : receiver) (lo hi : Z) : receiver :=
  let '(l, lo, hi) := hold_merge (S (length (held r))) 0 (held r) lo hi in
  with_held r (if zlen l <? TCP_HELD then l ++ [(lo, hi)] else l).

(** Each round passes an entry or drops one and starts over. *)
Fixpoint absorb_loop (fuel : nat) (i : nat) (r : receiver) : receiver :=
  match fuel with
  | O => r
  | S fuel =>
      match held r !! i with
      | None => r
      | Some (lo, hi) =>
          if 0 <? sdiff lo (rcv_nxt r) then absorb_loop fuel (S i) r else
          let more := if 0 <? sdiff hi (rcv_nxt r) then u32 (hi - rcv_nxt r) else 0 in
          absorb_loop fuel 0
            (Rcv (u32 (rcv_nxt r + more)) (got_fin r) (rxbuf r) (u32 (rxlen r + more)) (unhold (held r) i)
               (fin_held r) (fin_at r))
      end
  end.
Definition absorb (r : receiver) : receiver :=
  let n := length (held r) in absorb_loop (S n * S n) 0 r.

(** The part of [take] that runs with interrupts off. *)
Definition store (r : receiver) (off : Z) (data : list Z) : receiver :=
  let room := u32 (RXCAP - rxlen r) in
  if off <? room then
    let n := if zlen data <? room - off then zlen data else room - off in
    let b := splice (rxbuf r) (Z.to_nat (rxlen r + off)) (take (Z.to_nat n) data) in
    if off =? 0 then
      absorb (Rcv (u32 (rcv_nxt r + n)) (got_fin r) b (u32 (rxlen r + n)) (held r) (fin_held r) (fin_at r))
    else
      let lo := u32 (rcv_nxt r + off) in
      hold (Rcv (rcv_nxt r) (got_fin r) b (rxlen r) (held r) (fin_held r) (fin_at r)) lo (u32 (lo + n))
  else r.

(** The part of [tcp_recv] that runs with interrupts off: what is handed over. *)
Definition hand_over (r : receiver) (cap : Z) : list Z * receiver :=
  let n := if rxlen r <? cap then rxlen r else cap in
  if n =? 0 then ([], r) else
  let end_ := u32 (rxlen r + held_reach r) in
  let out := take (Z.to_nat n) (rxbuf r) in
  let b := if n <? end_ then splice (rxbuf r) 0 (take (Z.to_nat (end_ - n)) (drop (Z.to_nat n) (rxbuf r))) else rxbuf r in
  (out, Rcv (rcv_nxt r) (got_fin r) b (rxlen r - n) (held r) (fin_held r) (fin_at r)).

(** ** Segments *)

Fixpoint sum16 (l : list Z) : Z :=
  match l with
  | [] => 0
  | [a] => a .<< 8
  | a :: b :: l => ((a .<< 8) .| b) + sum16 l
  end.
(** [while (sum >> 16) sum = (sum & 0xFFFF) + (sum >> 16)]: four rounds, of which a sum of
    32 bits needs two. *)
Fixpoint fold16 (fuel : nat) (sum : Z) : Z :=
  match fuel with
  | O => sum
  | S fuel => if sum .>> 16 =? 0 then sum else fold16 fuel ((sum .& 0xFFFF) + (sum .>> 16))
  end.
Definition tcp_checksum (src dst : Z) (seg : list Z) : Z :=
  let ph := be_bytes 4 src ++ be_bytes 4 dst ++ [0; 6] ++ be_bytes 2 (zlen seg) in
  u16 (Z.lnot (fold16 4 (u32 (sum16 ph + sum16 seg))) .& 0xFFFF).

(** The segment [emit] builds, with [csum] in its checksum. *)
Definition segment (c : tcpc) (seq flags : Z) (opts data : list Z) (csum : Z) : list Z :=
  be_bytes 2 (local_port c) ++ be_bytes 2 (peer_port c) ++ be_bytes 4 seq ++ be_bytes 4 (rcv_nxt (c_rcv c)) ++
  [u8 ((5 + zlen opts / 4) .<< 4); flags] ++ be_bytes 2 (window_now (c_rcv c)) ++ be_bytes 2 csum ++ [0; 0] ++ opts ++ data.

(** The data [tcp_input] takes a segment for, when its length adds up. *)
Definition parse (p : list Z) : option seg :=
  let hlen := (p.[12] .>> 4) * 4 in
  if (hlen <? HEADER) || (zlen p <? hlen) then None else
  Some (Seg (be_val (take 4 (drop 4 p))) (be_val (take 4 (drop 8 p))) p.[13] (drop (Z.to_nat hlen) p)).

Section Stack.
(** The [n]th reading of the timer, its rate, this machine's address, whether the IP layer
    takes the [n]th segment it is handed, and the segments (with where they are from) that
    the [n]th poll of the card delivers. *)
Variable ticks : Z -> Z.
Variable timer_hz : Z.
Variable net_ip : Z.
Variable ip_ok : Z -> bool.
Variable arrivals : Z -> list (Z * list Z).

Definition timer_ticks (w : world) : Z * world :=
  (ticks (clock w), World (rst_seen w) (ooo_seen w) (rt_total w) (clock w + 1) (sends w) (polls w) (wire w)).
Definition np_ip_send (w : world) (dst : Z) (seg : list Z) : bool * world :=
  let ok := ip_ok (sends w) in
  (ok, World (rst_seen w) (ooo_seen w) (rt_total w) (clock w) (sends w + 1) (polls w)
         (if ok then wire w ++ [(dst, seg)] else wire w)).

Definition emit (c : tcpc) (w : world) (seq flags : Z) (data : list Z) : bool * world :=
  if quiet c then (true, w) else
  let opts := if has flags TH_SYN then [2; 4; u8 (TCP_MSS .>> 8); u8 TCP_MSS] else [] in
  if SEGMENT <? HEADER + zlen opts + zlen data then (false, w) else
  let csum := tcp_checksum net_ip (peer_ip c) (segment c seq flags opts data 0) in
  np_ip_send w (peer_ip c) (segment c seq flags opts data csum).

Definition send_reliable (c : tcpc) (w : world) (seq flags : Z) (data : list Z) : bool * tcpc * world :=
  if RT_DATA <? zlen data then (false, c, w) else
  let s := c_snd c in
  let (now, w) := timer_ticks w in
  let c := with_snd c (Snd (snd_nxt s) (snd_una s) (splice (rt_data s) 0 data) (zlen data) seq flags true now RTO_MIN_MS 0) in
  let (ok, w) := emit c w seq flags data in
  (ok, c, w).

Definition send_ack (c : tcpc) (w : world) : world := snd (emit c w (snd_nxt (c_snd c)) TH_ACK []).

Definition pump_one (c : tcpc) (w : world) : tcpc * world :=
  let s := c_snd c in
  if negb (rt_pending s) || bool_decide (state c = T_CLOSED) then (c, w) else
  let (now, w) := timer_ticks w in
  let elapsed_ms := u32 (u64 (u64 (now - rt_sent_at s) * 1000) / timer_hz) in
  if elapsed_ms <? rt_timeout_ms s then (c, w) else
  if MAX_RETRIES <=? rt_tries s then (with_snd (with_state c T_DONE) (with_pending s false), w) else
  let t := u32 (rt_timeout_ms s * 2) in
  let t := if RTO_MAX_MS <? t then RTO_MAX_MS else t in
  let (now, w) := timer_ticks (resent w) in
  let c := with_snd c (Snd (snd_nxt s) (snd_una s) (rt_data s) (rt_len s) (rt_seq s) (rt_flags s) true now t (rt_tries s + 1)) in
  (c, snd (emit c w (rt_seq s) (rt_flags s) (take (Z.to_nat (rt_len s)) (rt_data s)))).

Definition ack_arrived (s : sender) (ack : Z) : sender :=
  let s := if 0 <? sdiff ack (snd_una s) then with_una s ack else s in
  if rt_pending s then
    let covers := u32 (rt_seq s + rt_len s) in
    let covers := if has (rt_flags s) (TH_SYN .| TH_FIN) then u32 (covers + 1) else covers in
    if 0 <=? sdiff ack covers then with_pending s false else s
  else s.

(** [take]. *)
Definition tcp_take (c : tcpc) (w : world) (seq : Z) (data : list Z) : tcpc * world :=
  let off := sdiff seq (rcv_nxt (c_rcv c)) in
  if (off <? 0) && (zlen data <=? u32 (- off)) then (c, send_ack c (saw_ooo w)) else
  let data := if off <? 0 then drop (Z.to_nat (- off)) data else data in
  let off := if off <? 0 then 0 else off in
  let c := with_rcv c (store (c_rcv c) off data) in
  let w := if off =? 0 then w else saw_ooo w in
  (c, send_ack c w).

Definition fin_arrived (c : tcpc) (w : world) : tcpc * world :=
  let r := c_rcv c in
  let c := with_rcv c (Rcv (u32 (rcv_nxt r + 1)) true (rxbuf r) (rxlen r) (held r) false (fin_at r)) in
  let w := send_ack c w in
  if bool_decide (state c = T_OPEN) then
    let ours := snd_nxt (c_snd c) in
    let c := with_state (with_snd c (with_nxt (c_snd c) (u32 (ours + 1)))) T_CLOSING in
    let '(_, c, w) := send_reliable c w ours (TH_FIN .| TH_ACK) [] in (c, w)
  else (with_state c T_DONE, w).

(** A FIN is remembered, and counts once every byte before it is here. *)
Definition fin_noted (r : receiver) (g : seg) : receiver :=
  if has (g_flags g) TH_FIN && negb (got_fin r) then
    let at_ := u32 (g_seq g + zlen (g_data g)) in
    if (0 <=? sdiff at_ (rcv_nxt r)) && (u32 (at_ - rcv_nxt r) <=? RXCAP)
    then Rcv (rcv_nxt r) (got_fin r) (rxbuf r) (rxlen r) (held r) true at_ else r
  else r.

(** What [tcp_input] does with a segment once the connection it is for is known. *)
Definition segment_arrived (c : tcpc) (w : world) (g : seg) : tcpc * world :=
  if has (g_flags g) TH_RST then (with_snd (with_state c T_DONE) (with_pending (c_snd c) false), saw_rst w) else
  if bool_decide (state c = T_SYNSENT) then
    if g_flags g .& (TH_SYN .| TH_ACK) =? TH_SYN .| TH_ACK then
      let r := c_rcv c in
      let c := with_rcv c (Rcv (u32 (g_seq g + 1)) (got_fin r) (rxbuf r) (rxlen r) (held r) (fin_held r) (fin_at r)) in
      let c := with_snd c (with_pending (with_una (with_nxt (c_snd c) (g_ack g)) (g_ack g)) false) in
      let c := with_state c T_OPEN in
      (c, send_ack c w)
    else (c, w)
  else
    let c := if has (g_flags g) TH_ACK then with_snd c (ack_arrived (c_snd c) (g_ack g)) else c in
    let (c, w) := if g_data g is [] then (c, w) else tcp_take c w (g_seq g) (g_data g) in
    let c := with_rcv c (fin_noted (c_rcv c) g) in
    let r := c_rcv c in
    if fin_held r && negb (got_fin r) && (fin_at r =? rcv_nxt r) then fin_arrived c w else (c, w).

(** ** The connections *)

Definition wants (src dport sport : Z) (c : tcpc) : bool :=
  used c && negb (bool_decide (state c = T_CLOSED)) && (local_port c =? dport) &&
  (peer_ip c =? src) && (peer_port c =? sport).
Fixpoint demux_from (src dport sport : Z) (l : list tcpc) (i : nat) : option (nat * tcpc) :=
  match l with
  | [] => None
  | c :: l => if wants src dport sport c then Some (i, c) else demux_from src dport sport l (S i)
  end.
Definition demux (s : tcp) (src dport sport : Z) : option (nat * tcpc) := demux_from src dport sport (conns s) 0.

Definition put (s : tcp) (h : nat) (c : tcpc) (w : world) : tcp := Tcp (<[h := c]> (conns s)) (next_port s) w.

Definition tcp_input (s : tcp) (src : Z) (p : list Z) : tcp :=
  if zlen p <? HEADER then s else
  match demux s src (be_val (take 2 (drop 2 p))) (be_val (take 2 p)) with
  | None => s
  | Some (h, c) =>
      match parse p with
      | None => s
      | Some g => let (c, w) := segment_arrived c (w_of s) g in put s h c w
      end
  end.

Definition net_poll (s : tcp) : tcp :=
  let w := w_of s in
  foldl (fun s '(src, p) => tcp_input s src p)
    (Tcp (conns s) (next_port s)
       (World (rst_seen w) (ooo_seen w) (rt_total w) (clock w) (sends w) (polls w + 1) (wire w)))
    (arrivals (polls w)).

(** Every slot in use, in order. *)
Fixpoint pump_all (l : list tcpc) (w : world) : list tcpc * world :=
  match l with
  | [] => ([], w)
  | c :: l =>
      let (c, w) := if used c then pump_one c w else (c, w) in
      let (l, w) := pump_all l w in (c :: l, w)
  end.
Definition tcp_pump (s : tcp) : tcp := let (l, w) := pump_all (conns s) (w_of s) in Tcp l (next_port s) w.

Definition slot (s : tcp) (h : Z) : option tcpc :=
  if (h <? 0) || (TCP_MAX <=? h) then None else
  match conns s !! Z.to_nat h with Some c => if used c then Some c else None | None => None end.

Definition now (s : tcp) : Z * tcp := let (t, w) := timer_ticks (w_of s) in (t, Tcp (conns s) (next_port s) w).
Definition at_slot (s : tcp) (h : nat) (p : tcpc -> bool) : bool := if conns s !! h is Some c then p c else false.

(** The loop the calls wait in: as long as the connection is [busy] and the time is not over,
    the card is polled and what is due sent again. [stop] is the test for leaving it early. *)
Fixpoint wait_while (fuel : nat) (busy stop : tcpc -> bool) (deadline : Z) (h : nat) (s : tcp) : option tcp :=
  match fuel with
  | O => None
  | S fuel =>
      if at_slot s h busy then
        let (t, s) := now s in
        if t <? deadline then
          let s := tcp_pump (net_poll s) in
          if at_slot s h stop then Some s else wait_while fuel busy stop deadline h s
        else Some s
      else Some s
  end.

(** The index of the slot taken. [alloc] is the buffer [kmalloc] gives, [pid] the task's. *)
Fixpoint free_slot (l : list tcpc) (i : nat) : option nat :=
  match l with [] => None | c :: l => if used c then free_slot l (S i) else Some i end.
Definition take_slot (s : tcp) (alloc : option (list Z)) (pid : Z) : option nat * tcp :=
  match free_slot (conns s) 0 with
  | None => (None, s)
  | Some h =>
      match conns s !! h with
      | None => (None, s)
      | Some c =>
          let r := c_rcv c in
          match (if rxbuf r is [] then alloc else Some (rxbuf r)) with
          | None => (None, s)
          | Some b =>
              let r := Rcv (rcv_nxt r) (got_fin r) b (rxlen r) (held r) (fin_held r) (fin_at r) in
              (Some h, put s h (with_owner (with_rcv (with_used c true) r) pid) (w_of s))
          end
      end
  end.

Definition port_taken (l : list tcpc) (h : nat) (want : Z) : bool :=
  existsb (fun '(i, c) => used c && negb (Nat.eqb i h) && (local_port c =? want) && negb (bool_decide (state c = T_CLOSED)))
    (imap pair l).
Fixpoint pick_port (guard : nat) (l : list tcpc) (h : nat) (next : Z) : option Z * Z :=
  match guard with
  | O => (None, next)
  | S guard =>
      let next := if (next <? 45000) || (61000 <=? next) then 45000 else next in
      let want := next in
      let next := u16 (next + 1) in
      if port_taken l h want then pick_port guard l h next else (Some want, next)
  end.

(** The connection [tcp_open] fills in, before the SYN; [iss] is its first sequence number. *)
Definition fresh_conn (c : tcpc) (ip port lport iss : Z) : tcpc :=
  let s := c_snd c in let r := c_rcv c in
  Conn (used c) T_SYNSENT ip port lport
    (Snd (u32 (iss + 1)) iss (rt_data s) (rt_len s) (rt_seq s) (rt_flags s) false (rt_sent_at s) (rt_timeout_ms s) (rt_tries s))
    (Rcv 0 false (rxbuf r) 0 [] false (fin_at r)) false (owner c).

Definition deadline_ms (s : tcp) (timeout_ms : Z) : Z * tcp :=
  let (t, s) := now s in (u64 (t + u32 (timeout_ms * timer_hz) / 1000), s).
Definition lost (s : tcp) (h : nat) : tcp :=
  match conns s !! h with Some c => put s h (with_used (with_state c T_CLOSED) false) (w_of s) | None => s end.

Definition tcp_open (fuel : nat) (s : tcp) (alloc : option (list Z)) (pid ip port timeout_ms : Z) : option (Z * tcp) :=
  let s := if next_port s =? 0 then let (t, s) := now s in Tcp (conns s) (u16 (45000 + (t .& 0x0FFF))) (w_of s) else s in
  match take_slot s alloc pid with
  | (None, s) => Some (-1, s)
  | (Some h, s) =>
      match conns s !! h with
      | None => None
      | Some c =>
          let (got, next) := pick_port 65536 (conns s) h (next_port s) in
          let s := Tcp (conns s) next (w_of s) in
          let (t, s) := now s in
          let iss := (0x5A4C5200 .^ u32 (t * 2654435761)) .^ u32 (Z.of_nat h * 0x9E3779B9) in
          let c := fresh_conn c ip port (default (local_port c) got) iss in
          let '(ok, c, w) := send_reliable c (w_of s) iss TH_SYN [] in
          let s := put s h c w in
          if negb ok then Some (-1, lost s h) else
          let (deadline, s) := deadline_ms s timeout_ms in
          s ← wait_while fuel (fun c => bool_decide (state c = T_SYNSENT)) (fun _ => false) deadline h s;
          if at_slot s h (fun c => bool_decide (state c = T_OPEN)) then Some (Z.of_nat h, s) else Some (-1, lost s h)
      end
  end.

(** [tcp_send] up to its loop. *)
Definition send_start (c : tcpc) (w : world) (data : list Z) : bool * tcpc * world :=
  let seq := snd_nxt (c_snd c) in
  let c := with_snd c (with_nxt (c_snd c) (u32 (seq + zlen data))) in
  let '(ok, c, w) := send_reliable c w seq (TH_PSH .| TH_ACK) data in
  if ok then (true, c, w) else (false, with_snd c (with_nxt (c_snd c) seq), w).

Definition tcp_send (fuel : nat) (s : tcp) (h : Z) (data : list Z) : option (bool * tcp) :=
  match slot s h with
  | None => Some (false, s)
  | Some c =>
      let h := Z.to_nat h in
      if negb (bool_decide (state c = T_OPEN)) then Some (false, s) else
      let '(ok, c, w) := send_start c (w_of s) data in
      let s := put s h c w in
      if negb ok then Some (false, s) else
      let (t, s) := now s in
      let deadline := u64 (t + u32 (timer_hz * 8)) in
      s ← wait_while fuel (fun c => rt_pending (c_snd c) && bool_decide (state c = T_OPEN)) (fun _ => false) deadline h s;
      Some (at_slot s h (fun c => negb (rt_pending (c_snd c))), s)
  end.

(** What [tcp_recv] does once it has stopped waiting. *)
Definition recv_now (c : tcpc) (w : world) (cap : Z) : list Z * tcpc * world :=
  let (out, r) := hand_over (c_rcv c) cap in
  let c := with_rcv c r in
  (out, c, if out is [] then w else if bool_decide (state c = T_OPEN) then send_ack c w else w).

Definition over (c : tcpc) : bool :=
  got_fin (c_rcv c) || bool_decide (state c = T_DONE) || bool_decide (state c = T_CLOSED).

Definition tcp_recv (fuel : nat) (s : tcp) (h cap timeout_ms : Z) : option (list Z * tcp) :=
  match slot s h with
  | None => Some ([], s)
  | Some _ =>
      let h := Z.to_nat h in
      let (deadline, s) := deadline_ms s timeout_ms in
      s ← wait_while fuel (fun c => rxlen (c_rcv c) =? 0) over deadline h (net_poll s);
      match conns s !! h with
      | None => None
      | Some c => let '(out, c, w) := recv_now c (w_of s) cap in Some (out, put s h c w)
      end
  end.

Definition tcp_ended (s : tcp) (h : Z) : bool :=
  match slot s h with None => true | Some c => (rxlen (c_rcv c) =? 0) && over c end.

(** The sending of the FIN. *)
Definition close_start (c : tcpc) (w : world) : tcpc * world :=
  let seq := snd_nxt (c_snd c) in
  let c := with_state (with_snd c (with_nxt (c_snd c) (u32 (seq + 1)))) T_CLOSING in
  let '(_, c, w) := send_reliable c w seq (TH_FIN .| TH_ACK) [] in (c, w).
(** A slot given back. *)
Definition let_go (c : tcpc) : tcpc :=
  let r := c_rcv c in
  with_used (with_rcv (with_snd (with_state c T_CLOSED) (with_pending (c_snd c) false))
    (Rcv (rcv_nxt r) (got_fin r) (rxbuf r) 0 [] (fin_held r) (fin_at r))) false.

Definition tcp_close (fuel : nat) (s : tcp) (h : Z) : option tcp :=
  match slot s h with
  | None => Some s
  | Some c =>
      let h := Z.to_nat h in
      s ← (if bool_decide (state c = T_OPEN) then
             let (c, w) := close_start c (w_of s) in
             let (t, s) := now (put s h c w) in
             wait_while fuel (fun c => bool_decide (state c = T_CLOSING)) (fun _ => false) (u64 (t + u32 (timer_hz * 2))) h s
           else Some s);
      match conns s !! h with None => None | Some c => Some (put s h (let_go c) (w_of s)) end
  end.

Definition tcp_abandon (s : tcp) (pid : Z) : tcp :=
  if pid =? 0 then s else
  Tcp ((fun c => if used c && (owner c =? pid) then let_go c else c) <$> conns s) (next_port s) (w_of s).
Definition tcp_give_to (s : tcp) (h pid : Z) : tcp :=
  match slot s h with None => s | Some c => put s (Z.to_nat h) (with_owner c pid) (w_of s) end.
Definition tcp_open_count (s : tcp) : Z := zlen (filter (fun c => used c && bool_decide (state c = T_OPEN)) (conns s)).
Definition tcp_connected (s : tcp) (h : Z) : bool := if slot s h is Some c then bool_decide (state c = T_OPEN) else false.
End Stack.

(** ** Sequence numbers *)

Lemma sdiff_spec base a b : - 2147483648 <= a - b < 2147483648 -> sdiff (u32 (base + a)) (u32 (base + b)) = a - b.
Proof. intros. unfold sdiff, i32, u32. dlia. Qed.
Lemma udiff_spec base a b : 0 <= a - b < 4294967296 -> u32 (u32 (base + a) - u32 (base + b)) = a - b.
Proof. intros. unfold u32. dlia. Qed.
Lemma seq_add base a n : u32 (u32 (base + a) + n) = u32 (base + (a + n)).
Proof. unfold u32. rewrite Zplus_mod_idemp_l. f_equal. lia. Qed.

(** ** The receive buffer holds the stream *)

Section Receive.
(** The bytes the peer sends over the life of the connection, and the sequence number of the
    first of them. *)
Context (S : list Z) (base : Z).
Notation seqno p := (u32 (base + p)).

(** A stretch [lo, hi) past [got], of which the buffer holds the bytes in their places when
    [rd] bytes have been read. *)
Definition stretch (got rd : Z) (buf : list Z) (e : Z * Z) : Prop :=
  exists a b, e = (seqno a, seqno b) /\ got < a < b /\ b <= zlen S /\ b <= rd + RXCAP /\
    forall x, a <= x < b -> buf.[x - rd] = S.[x].

(** Of the stream, [got] bytes have come without a hole and [rd] of them have been read. *)
Record rcv_ok (got rd : Z) (r : receiver) : Prop := {
  ro_range : 0 <= rd <= got /\ got <= zlen S;
  ro_len : rxlen r = got - rd /\ got - rd <= RXCAP;
  ro_buf : zlen (rxbuf r) = RXCAP;
  ro_nxt : rcv_nxt r = seqno (got + if got_fin r then 1 else 0);
  ro_ready : forall x, rd <= x < got -> (rxbuf r).[x - rd] = S.[x];
  ro_held : Forall (stretch got rd (rxbuf r)) (held r);
  ro_slots : zlen (held r) <= TCP_HELD;
  ro_fin : got_fin r = true -> got = zlen S;
  ro_fin_at : fin_held r = true -> got_fin r = false /\ fin_at r = seqno (zlen S) /\ zlen S - got < 4294967296 }.

Lemma unhold_Forall (P : Z * Z -> Prop) l i : Forall P l -> Forall P (unhold l i).
Proof.
  intros H. unfold unhold. destruct l as [|e l _] using rev_ind; [by destruct i; constructor|].
  apply Forall_app in H as [H1 H2]. apply Forall_take, Forall_insert; [by apply Forall_app|].
  rewrite length_app, Nat.add_1_r. cbn [pred]. rewrite getz_app by lia.
  rewrite (proj2 (Z.ltb_ge _ _)), Z.sub_diag by lia. by inversion H2.
Qed.
Lemma length_unhold l i : length (unhold l i) = pred (length l).
Proof. unfold unhold. rewrite length_take, length_insert. lia. Qed.
(** Before [i] nothing changes. *)
Lemma unhold_take l i j : (j <= i)%nat -> (i < length l)%nat -> take j (unhold l i) = take j l.
Proof.
  intros Hj Hi. unfold unhold. rewrite take_take, Nat.min_l by lia. by rewrite take_insert_ge by lia.
Qed.

Lemma stretch_join got rd buf lo hi a b :
  stretch got rd buf (lo, hi) -> stretch got rd buf (a, b) ->
  sdiff lo b <= 0 -> sdiff a hi <= 0 -> 0 <= rd <= got ->
  stretch got rd buf (if sdiff a lo <? 0 then a else lo, if 0 <? sdiff b hi then b else hi).
Proof.
  intros (l & h & E & Hl & Hh & Hw & Hc) (a' & b' & E' & Ha & Hb & Hw' & Hc') H1 H2 Hrd.
  simplify_eq. unfold RXCAP in *. rewrite !sdiff_spec in * by lia.
  exists (if a' - l <? 0 then a' else l), (if 0 <? b' - h then b' else h).
  split; [by destruct (a' - l <? 0), (0 <? b' - h)|].
  split; [repeat case_bool; lia|]. split; [case_bool; lia|]. split; [case_bool; unfold RXCAP; lia|].
  intros x Hx. destruct (decide (l <= x < h)); [by apply Hc|]. apply Hc'. repeat case_bool; lia.
Qed.

Lemma hold_merge_ok got rd buf fuel i l lo hi :
  0 <= rd <= got -> Forall (stretch got rd buf) l -> stretch got rd buf (lo, hi) ->
  let '(l', lo', hi') := hold_merge fuel i l lo hi in
  Forall (stretch got rd buf) l' /\ stretch got rd buf (lo', hi') /\ (length l' <= length l)%nat.
Proof.
  intros Hrd. revert i l lo hi. induction fuel as [|fuel IH]; intros i l lo hi Hl He; cbn [hold_merge]; [done|].
  destruct (l !! i) as [[a b]|] eqn:E; [|done].
  pose proof (Forall_lookup_1 _ _ _ _ Hl E) as Hab.
  destruct ((sdiff lo b <=? 0) && (sdiff a hi <=? 0)) eqn:Ej; [|by apply IH].
  apply andb_true_iff in Ej as [E1%Z.leb_le E2%Z.leb_le].
  pose proof (IH i (unhold l i) _ _ (unhold_Forall _ _ i Hl) (stretch_join _ _ _ _ _ _ _ He Hab E1 E2 Hrd)) as H.
  destruct hold_merge as [[l' lo'] hi']. rewrite length_unhold in H. destruct H as (?&?&?). split_and!; [done..|lia].
Qed.

Lemma hold_ok got rd r lo hi :
  rcv_ok got rd r -> stretch got rd (rxbuf r) (lo, hi) -> rcv_ok got rd (hold r lo hi).
Proof.
  intros [Hr Hl Hb Hn Hrdy Hh Hs Hf Hfa] He. unfold hold.
  pose proof (hold_merge_ok got rd (rxbuf r) (Datatypes.S (length (held r))) 0 (held r) lo hi ltac:(lia) Hh He) as H.
  destruct hold_merge as [[l' lo'] hi']. destruct H as (H1 & H2 & H3).
  split; cbn [with_held rxlen rxbuf rcv_nxt got_fin held fin_held fin_at]; try done.
  - case_bool; [|done]. apply Forall_app. split; [done|by apply Forall_singleton].
  - case_bool; [rewrite length_app; cbn [length]|]; lia.
Qed.

(** What absorbing needs: the stream up to [got], and stretches that may begin before it. *)
Record reached (old got rd : Z) (r : receiver) : Prop := {
  re_range : 0 <= rd <= old /\ old <= got <= zlen S;
  re_len : rxlen r = got - rd /\ got - rd <= RXCAP;
  re_buf : zlen (rxbuf r) = RXCAP;
  re_nxt : rcv_nxt r = seqno got;
  re_ready : forall x, rd <= x < got -> (rxbuf r).[x - rd] = S.[x];
  re_held : Forall (stretch old rd (rxbuf r)) (held r);
  re_slots : zlen (held r) <= TCP_HELD;
  re_fin : got_fin r = false;
  re_fin_at : fin_held r = true -> fin_at r = seqno (zlen S) /\ zlen S - old < 4294967296 }.

Lemma stretch_raise old got rd buf e :
  0 <= rd <= old -> old <= got <= rd + RXCAP -> stretch old rd buf e -> 0 < sdiff e.1 (seqno got) -> stretch got rd buf e.
Proof.
  intros Hrd Hg (a & b & -> & Ha & Hb & Hw & Hc) H. cbn [fst] in H. unfold RXCAP in *.
  rewrite sdiff_spec in H by lia. exists a, b. split_and!; try done; unfold RXCAP; lia.
Qed.

Lemma reached_ok old got rd r :
  reached old got rd r -> Forall (fun e => 0 < sdiff e.1 (rcv_nxt r)) (held r) -> rcv_ok got rd r.
Proof.
  intros [Hr Hl Hb Hn Hrdy Hh Hs Hf Hfa] H. split; try done; [lia|by rewrite Hf, Z.add_0_r| | |].
  - apply Forall_forall. intros e He. rewrite Forall_forall in H, Hh. apply stretch_raise with old; [lia|lia|by apply Hh|].
    rewrite <- Hn. by apply H.
  - rewrite Hf. done.
  - intros Hh'. destruct (Hfa Hh'). split_and!; [done|done|lia].
Qed.

Lemma absorb_step old got rd r i lo hi :
  reached old got rd r -> held r !! i = Some (lo, hi) -> sdiff lo (rcv_nxt r) <= 0 ->
  exists got', got <= got' /\
  let more := if 0 <? sdiff hi (rcv_nxt r) then u32 (hi - rcv_nxt r) else 0 in
  reached old got' rd (Rcv (u32 (rcv_nxt r + more)) (got_fin r) (rxbuf r) (u32 (rxlen r + more)) (unhold (held r) i) (fin_held r) (fin_at r)).
Proof.
  intros [Hr Hl Hb Hn Hrdy Hh Hs Hf Hfa] E Hlo.
  destruct (Forall_lookup_1 _ _ _ _ Hh E) as (a & b & Eab & Ha & Hb' & Hw & Hc). simplify_eq.
  unfold RXCAP in *. rewrite Hn in *. rewrite sdiff_spec in * by lia.
  exists (Z.max got b). split; [lia|].
  assert ((if 0 <? b - got then u32 (seqno b - seqno got) else 0) = Z.max got b - got) as Hm.
  { case_bool; [rewrite udiff_spec by lia; lia|lia]. }
  cbv zeta. rewrite Hm. split; cbn [rxlen rxbuf rcv_nxt got_fin held fin_held fin_at]; try done.
  - lia.
  - destruct Hl as [-> ?]. unfold RXCAP. rewrite u32_id by (unfold is_word; lia). lia.
  - rewrite seq_add. do 2 f_equal. lia.
  - intros x Hx. destruct (decide (x < got)); [apply Hrdy; lia|]. apply Hc. lia.
  - by apply unhold_Forall.
  - rewrite length_unhold. lia.
Qed.

Lemma absorb_loop_ok old got rd fuel i r :
  reached old got rd r -> Forall (fun e => 0 < sdiff e.1 (rcv_nxt r)) (take i (held r)) ->
  (i <= length (held r))%nat -> (length (held r) - i + 1 + length (held r) * length (held r) <= fuel)%nat ->
  exists got', got <= got' /\ rcv_ok got' rd (absorb_loop fuel i r).
Proof.
  revert got i r. induction fuel as [|fuel IH]; intros got i r Hr Hi Hil Hf; [lia|]. cbn [absorb_loop].
  destruct (held r !! i) as [[lo hi]|] eqn:E.
  - pose proof (lookup_lt_Some _ _ _ E) as Hlt.
    destruct (Z.ltb_spec 0 (sdiff lo (rcv_nxt r))).
    + apply IH; [done| |lia|lia]. rewrite (take_S_r _ _ _ E). apply Forall_app. split; [done|by apply Forall_singleton].
    + destruct (absorb_step _ _ _ _ _ _ _ Hr E ltac:(lia)) as (got' & Hg & Hr'). cbv zeta in Hr'.
      destruct (IH _ 0%nat _ Hr') as (got'' & ? & ?); cbn [held]; rewrite ?length_unhold.
      * rewrite take_0. constructor.
      * lia.
      * nia.
      * exists got''. split; [lia|done].
  - exists got. split; [lia|]. apply reached_ok with old; [done|].
    apply lookup_ge_None in E. by rewrite take_ge in Hi by done.
Qed.

Lemma absorb_ok old got rd r : reached old got rd r -> exists got', got <= got' /\ rcv_ok got' rd (absorb r).
Proof. intros H. apply absorb_loop_ok with old; [done|constructor|lia|lia]. Qed.

(** The bytes of the stream from [pos] on. *)
Definition carries (pos : Z) (data : list Z) : Prop :=
  0 <= pos /\ pos + zlen data <= zlen S /\ data = take (length data) (drop (Z.to_nat pos) S).

Lemma carries_getz pos data i : carries pos data -> 0 <= i < zlen data -> data.[i] = S.[pos + i].
Proof.
  intros (H1 & H2 & ->) Hi. rewrite length_take, length_drop in Hi.
  rewrite getz_take, getz_drop by lia. f_equal. lia.
Qed.
Lemma carries_drop pos data n : carries pos data -> 0 <= n <= zlen data -> carries (pos + n) (drop (Z.to_nat n) data).
Proof.
  intros Hc Hn. pose proof Hc as (H1 & H2 & H3). unfold carries. rewrite length_drop. split_and!; [lia|lia|].
  apply (list_eq_getz 0); [rewrite length_take, !length_drop; lia|].
  intros i Hi. rewrite length_drop in Hi. rewrite getz_drop, getz_take, getz_drop by lia.
  rewrite (carries_getz _ _ _ Hc) by lia. f_equal. lia.
Qed.

Lemma store_ok got rd r off data :
  rcv_ok got rd r -> got_fin r = false -> 0 <= off -> data <> [] -> carries (got + off) data ->
  exists got', got <= got' /\ rcv_ok got' rd (store r off data).
Proof.
  intros Hr Hnf Hoff Hd Hc. pose proof Hr as [Hrg Hl Hb Hn Hrdy Hh Hs Hf Hfa]. unfold store.
  destruct Hl as [Hl Hcap]. rewrite Hl. unfold RXCAP in *. rewrite u32_id by (unfold is_word; lia).
  rewrite Hnf, Z.add_0_r in Hn.
  destruct (Z.ltb_spec off (65536 - (got - rd))); [|by exists got].
  assert (0 < zlen data) by (destruct data; [done|cbn; lia]).
  set (n := if zlen data <? 65536 - (got - rd) - off then zlen data else 65536 - (got - rd) - off).
  assert (0 < n <= zlen data /\ n <= 65536 - (got - rd) - off) as Hnb by (subst n; case_bool; lia).
  set (b := splice (rxbuf r) (Z.to_nat (got - rd + off)) (take (Z.to_nat n) data)).
  assert (zlen b = 65536) as Hbl.
  { subst b. rewrite length_splice; [done|]. rewrite length_take. lia. }
  assert (forall x, 0 <= x -> b.[x] = if (got - rd + off <=? x) && (x <? got - rd + off + n) then S.[x + rd] else (rxbuf r).[x]) as Hbx.
  { intros x Hx. subst b. rewrite getz_splice by (rewrite ?length_take; lia). rewrite length_take, Nat.min_l by lia.
    rewrite !Z2Nat.id by lia. destruct ((got - rd + off <=? x) && (x <? got - rd + off + n)) eqn:E; [|done].
    apply andb_true_iff in E as [E1%Z.leb_le E2%Z.ltb_lt]. rewrite getz_take by lia.
    rewrite (carries_getz _ _ _ Hc) by lia. f_equal. lia. }
  assert (forall a b', a < b' -> got < a -> (forall x, a <= x < b' -> (rxbuf r).[x - rd] = S.[x]) ->
          forall x, a <= x < b' -> b.[x - rd] = S.[x]) as Hkeep.
  { intros a b' _ ? Hk x Hx. rewrite Hbx by lia. destruct (_ && _); [f_equal; lia|by apply Hk]. }
  assert (Forall (stretch got rd b) (held r)) as Hh'.
  { eapply Forall_impl; [|exact Hh]. intros e (a & b' & He & Ha & Hb' & Hw & Hk). exists a, b'.
    split_and!; try done; try lia. apply (Hkeep a b'); [lia|lia|done]. }
  destruct Hc as (Hc1 & Hc2 & _).
  destruct (Z.eqb_spec off 0) as [->|].
  - destruct (absorb_ok got (got + n) rd
      (Rcv (u32 (rcv_nxt r + n)) (got_fin r) b (u32 (got - rd + n)) (held r) (fin_held r) (fin_at r))) as (g' & Hg' & H').
    + split; cbn [rxlen rxbuf rcv_nxt got_fin held fin_held fin_at]; try done.
      * lia.
      * unfold RXCAP. rewrite u32_id by (unfold is_word; lia). lia.
      * by rewrite Hn, seq_add.
      * intros x Hx. rewrite Hbx by lia. destruct (_ && _) eqn:E; [f_equal; lia|]. apply Hrdy.
        apply andb_false_iff in E. rewrite Z.leb_gt, Z.ltb_ge in E. lia.
      * intros Hx. destruct (Hfa Hx) as (_ & ? & ?). done.
    + exists g'. split; [lia|done].
  - exists got. split; [lia|]. apply hold_ok.
    + split; cbn [rxlen rxbuf rcv_nxt got_fin held fin_held fin_at]; try done.
      * by rewrite Hnf, Z.add_0_r.
      * intros x Hx. rewrite Hbx by lia. rewrite (proj2 (Z.leb_gt _ _)) by lia. cbn [andb]. by apply Hrdy.
    + cbn [rxbuf]. rewrite Hn, !seq_add. exists (got + off), (got + off + n). unfold RXCAP.
      split_and!; try lia; [done|]. intros x Hx. rewrite Hbx by lia. rewrite (proj2 (Z.leb_le _ _)), (proj2 (Z.ltb_lt _ _)) by lia.
      cbn [andb]. f_equal. lia.
Qed.

Lemma absorb_fin fuel i r : got_fin (absorb_loop fuel i r) = got_fin r.
Proof.
  revert i r. induction fuel as [|fuel IH]; intros i r; cbn [absorb_loop]; [done|].
  destruct (held r !! i) as [[lo hi]|]; [|done]. destruct (0 <? _); by rewrite IH.
Qed.
Lemma store_fin r off data : got_fin (store r off data) = got_fin r.
Proof.
  unfold store, absorb, hold. destruct (off <? _); [|done]. destruct (off =? 0); [by rewrite absorb_fin|].
  by destruct hold_merge as [[??]?].
Qed.

Lemma held_reach_from (n : Z) (l : list (Z * Z)) far e :
  e ∈ l \/ u32 (e.2 - n) <= far ->
  u32 (e.2 - n) <= foldl (fun far '(_, hi) => if far <? u32 (hi - n) then u32 (hi - n) else far) far l.
Proof.
  revert far. induction l as [|[lo hi] l IH]; intros far He; cbn [foldl].
  - destruct He as [He|He]; [by apply elem_of_nil in He|done].
  - apply IH. destruct He as [[->|He]%list.elem_of_cons|He]; cbn [snd] in *; [right; case_bool; lia|by left|right; case_bool; lia].
Qed.
Lemma held_reach_bound (n m : Z) (l : list (Z * Z)) far :
  Forall (fun e => u32 (e.2 - n) <= m) l -> 0 <= far <= m ->
  0 <= foldl (fun far '(_, hi) => if far <? u32 (hi - n) then u32 (hi - n) else far) far l <= m.
Proof.
  intros H. revert far. induction H as [|[lo hi] l He _ IH]; intros far Hf; cbn [foldl]; [done|].
  apply IH. cbn [snd] in He. case_bool; lia.
Qed.

Lemma hand_over_ok got rd r cap :
  rcv_ok got rd r -> 0 <= cap ->
  let '(out, r') := hand_over r cap in
  carries rd out /\ zlen out = Z.min (got - rd) cap /\ rcv_ok got (rd + zlen out) r' /\
  rcv_nxt r' = rcv_nxt r /\ got_fin r' = got_fin r /\ rxlen r' = rxlen r - zlen out.
Proof.
  intros Hr Hcap. pose proof Hr as [Hrg [Hl Hlc] Hb Hn Hrdy Hh Hs Hf Hfa]. unfold hand_over. rewrite Hl.
  assert ((if got - rd <? cap then got - rd else cap) = Z.min (got - rd) cap) as -> by (case_bool; lia).
  set (n := Z.min (got - rd) cap).
  destruct (Z.eqb_spec n 0) as [E|E].
  { rewrite E. cbn [length]. change (Z.of_nat 0) with 0. rewrite Z.add_0_r, Z.sub_0_r. split_and!; try done. unfold carries. cbn [length].
    split_and!; [lia|lia|by rewrite take_0]. }
  assert (0 < n <= got - rd) as Hnb by lia. unfold RXCAP in *.
  assert (zlen (take (Z.to_nat n) (rxbuf r)) = n) as Hout by (rewrite length_take; lia).
  assert (Forall (fun e => u32 (e.2 - rcv_nxt r) <= rd + 65536 - got) (held r)) as Hbd.
  { eapply Forall_impl; [|exact Hh]. intros e (a & b & -> & Ha & Hb' & Hw & _). cbn [snd]. rewrite Hn.
    destruct (got_fin r); [rewrite (Hf eq_refl) in *; lia|]. rewrite Z.add_0_r. unfold RXCAP in *. rewrite udiff_spec by lia. lia. }
  pose proof (held_reach_bound (rcv_nxt r) (rd + 65536 - got) (held r) 0 Hbd ltac:(lia)) as Hreach.
  fold (held_reach r) in Hreach. rewrite u32_id by (unfold is_word; lia).
  set (end_ := got - rd + held_reach r) in *.
  set (b := if n <? end_ then _ else rxbuf r).
  assert (zlen b = 65536) as Hbl.
  { subst b. case_bool; [|done]. rewrite length_splice; [done|]. rewrite length_take, length_drop. lia. }
  assert (forall x, 0 <= x < end_ - n -> b.[x] = (rxbuf r).[x + n]) as Hbx.
  { intros x Hx. subst b. rewrite (proj2 (Z.ltb_lt n end_)) by lia.
    rewrite getz_splice by (rewrite ?length_take, ?length_drop; lia). rewrite length_take, length_drop, Nat.min_l by lia.
    change (Z.of_nat 0) with 0. rewrite (proj2 (Z.leb_le 0 x)), (proj2 (Z.ltb_lt x _)) by lia. cbn [andb].
    rewrite Z.sub_0_r, getz_take, getz_drop by lia. f_equal. lia. }
  rewrite Hout. split_and!; try done.
  - unfold carries. rewrite Hout. split_and!; [lia|lia|]. apply (list_eq_getz 0); [rewrite !length_take, length_drop; lia|].
    intros i Hi. rewrite Hout in Hi. rewrite !getz_take, getz_drop by (rewrite ?length_take; lia).
    specialize (Hrdy (rd + i) ltac:(lia)). replace (rd + i - rd) with i in Hrdy by lia. rewrite Hrdy, Z2Nat.id by lia. f_equal. lia.
  - split; cbn [rxlen rxbuf rcv_nxt got_fin held fin_held fin_at]; try done.
    + lia.
    + unfold RXCAP. lia.
    + intros x Hx. rewrite Hbx by lia. rewrite <- Hrdy by lia. f_equal. lia.
    + apply Forall_forall. intros e He. rewrite Forall_forall in Hh. destruct (Hh e He) as (a & b' & -> & Ha & Hb' & Hw & Hk).
      exists a, b'. unfold RXCAP in *. split_and!; try lia; [done|].
      pose proof (held_reach_from (rcv_nxt r) (held r) 0 _ (or_introl (proj2 (list_elem_of_In _ _) He))) as Hre. fold (held_reach r) in Hre. cbn [snd] in Hre.
      rewrite Hn in Hre. destruct (got_fin r); [rewrite (Hf eq_refl) in *; lia|]. rewrite Z.add_0_r, udiff_spec in Hre by lia.
      intros x Hx. rewrite Hbx by (subst end_; lia). rewrite <- Hk by lia. f_equal. lia.
Qed.
End Receive.
