(* ===== verification/Link.v ===== *)
(** A connection of kernel/tcp.c and the peer at its other end, over a network that loses,
    repeats and reorders segments: what each side can rely on. *)
From S2P Require Import Prelude Tcp.

(** ** Segments on the wire *)

Lemma be_bytes2 x : exists a b, be_bytes 2 x = [a; b].
Proof. by do 2 eexists. Qed.
Lemma be_bytes4 x : exists a b c d, be_bytes 4 x = [a; b; c; d].
Proof. by do 4 eexists. Qed.

Lemma parse_segment c seq flags opts data csum :
  zlen opts = 0 \/ zlen opts = 4 ->
  parse (segment c seq flags opts data csum) = Some (Seg (u32 seq) (u32 (rcv_nxt (c_rcv c))) flags data).
Proof.
  intros Ho. unfold segment, parse.
  pose proof (be_val_bytes 4 seq) as Hs. pose proof (be_val_bytes 4 (rcv_nxt (c_rcv c))) as Ha.
  destruct (be_bytes2 (local_port c)) as (a1 & a2 & ->), (be_bytes2 (peer_port c)) as (b1 & b2 & ->).
  destruct (be_bytes2 (window_now (c_rcv c))) as (w1 & w2 & ->), (be_bytes2 csum) as (k1 & k2 & ->).
  destruct (be_bytes4 seq) as (s1 & s2 & s3 & s4 & Es), (be_bytes4 (rcv_nxt (c_rcv c))) as (r1 & r2 & r3 & r4 & Er).
  rewrite Es in *. rewrite Er in *. cbn [app]. change (256 ^ Z.of_nat 4) with 4294967296 in *. fold (u32 seq) (u32 (rcv_nxt (c_rcv c))) in *.
  change (getz 0 _ 12) with (u8 ((5 + zlen opts / 4) .<< 4)). change (getz 0 _ 13) with flags.
  cbn [drop take]. rewrite Hs, Ha. cbn [length]. rewrite length_app.
  destruct Ho as [Ho|Ho]; rewrite Ho.
  - destruct opts; [|done]. change (u8 ((5 + 0 / 4) .<< 4) .>> 4 * 4) with 20. cbn [app]. change (20 <? HEADER) with false. cbn [orb].
    rewrite (proj2 (Z.ltb_ge _ _)) by (cbn [length]; lia). done.
  - change (u8 ((5 + 4 / 4) .<< 4) .>> 4 * 4) with 24. change (24 <? HEADER) with false. cbn [orb]. do 4 (destruct opts as [|? opts]; [done|]). destruct opts; [|cbn [length] in Ho; lia].
    rewrite (proj2 (Z.ltb_ge _ _)) by (cbn [length]; lia). done.
Qed.

(** ** The connection, its peer and the network *)

Section Link.
Context (ticks : Z -> Z) (timer_hz net_ip : Z) (ip_ok : Z -> bool).
(** The bytes the peer sends, and the sequence numbers its bytes and this end's start at. *)
Context (S : list Z) (rbase sbase : Z).

Notation emit := (emit net_ip ip_ok).
Notation send_ack := (send_ack net_ip ip_ok).
Notation send_reliable := (send_reliable ticks net_ip ip_ok).
Notation segment_arrived := (segment_arrived ticks net_ip ip_ok).
Notation pump_one := (pump_one ticks timer_hz net_ip ip_ok).
Notation recv_now := (recv_now net_ip ip_ok).
Notation send_start := (send_start ticks net_ip ip_ok).
Notation close_start := (close_start ticks net_ip ip_ok).

(** What the reader has been handed, what has been given to send, what the peer has taken of
    it, whether the peer has taken the end of it, and how much had been given when first the IP
    layer refused a segment of [tcp_send]. *)
Record link := Link {
  l_conn : tcpc; l_world : world; l_read : list Z; l_given : list Z; l_taken : list Z; l_end : bool; l_refused : option Z }.

Definition is_open (c : tcpc) : bool := bool_decide (state c = T_OPEN).

(** The position in the stream up to which the connection has acknowledged, a place for the
    end counted, and that of what the peer has. *)
Definition kept (l : link) : Z :=
  zlen (l_read l) + rxlen (c_rcv (l_conn l)) + if got_fin (c_rcv (l_conn l)) then 1 else 0.
Definition reach (l : link) : Z := zlen (l_taken l) + if l_end l then 1 else 0.

(** A message between the connection's own pair of ports. *)
Definition addressed (c : tcpc) (m : Z * list Z) : Prop :=
  m.1 = peer_ip c /\ take 4 m.2 = be_bytes 2 (local_port c) ++ be_bytes 2 (peer_port c).

(** A segment of the peer's with the bytes of its stream at [pos], however late or often it
    comes: it ends where the stream does if it says so, it acknowledges no more than the peer
    has, and it is not two gigabytes out of date. *)
Record from_peer (l : link) (pos : Z) (g : seg) : Prop := {
  fp_seq : g_seq g = u32 (rbase + pos);
  fp_data : carries S pos (g_data g);
  fp_recent : - 2147483648 < pos - kept l /\ pos + zlen (g_data g) - kept l < 2147483647;
  fp_fin : has (g_flags g) TH_FIN = true -> pos + zlen (g_data g) = zlen S;
  fp_ack : has (g_flags g) TH_ACK = true -> exists a, 0 <= a <= reach l /\ g_ack g = u32 (sbase + a) }.

(** The peer takes what a segment has past what it took before, in order, and the end when it
    has all before it. *)
Definition peer_takes (l : link) (g : seg) : link :=
  if l_end l then l else
  let off := sdiff (u32 (sbase + zlen (l_taken l))) (g_seq g) in
  if (0 <=? off) && (off <=? zlen (g_data g)) then
    Link (l_conn l) (l_world l) (l_read l) (l_given l) (l_taken l ++ drop (Z.to_nat off) (g_data g)) (has (g_flags g) TH_FIN) (l_refused l)
  else l.

(** [tcp_send] answers false at once to more than a segment's worth, and to what the IP layer
    does not take; in the second case the segment is left to be sent again all the same. *)
Definition given (l : link) (ok : bool) (data : list Z) : list Z := if ok then l_given l ++ data else l_given l.
Definition refused (l : link) (ok : bool) (data : list Z) : option Z :=
  if ok || (RT_DATA <? zlen data) then l_refused l else Some (default (zlen (l_given l)) (l_refused l)).

(** Sending is limited to two gigabytes for the connection, past which sequence numbers come
    round to those of segments that may still be under way. *)
Inductive step (l : link) : link -> Prop :=
  | step_arrives pos g c w :
      from_peer l pos g -> segment_arrived (l_conn l) (l_world l) g = (c, w) ->
      step l (Link c w (l_read l) (l_given l) (l_taken l) (l_end l) (l_refused l))
  | step_peer_takes m g :
      m ∈ wire (l_world l) -> addressed (l_conn l) m -> parse m.2 = Some g -> step l (peer_takes l g)
  | step_pump c w :
      pump_one (l_conn l) (l_world l) = (c, w) -> step l (Link c w (l_read l) (l_given l) (l_taken l) (l_end l) (l_refused l))
  | step_recv cap out c w :
      0 <= cap -> recv_now (l_conn l) (l_world l) cap = (out, c, w) ->
      step l (Link c w (l_read l ++ out) (l_given l) (l_taken l) (l_end l) (l_refused l))
  | step_send data ok c w :
      state (l_conn l) = T_OPEN -> zlen (l_given l) + zlen data < 2147483647 ->
      send_start (l_conn l) (l_world l) data = (ok, c, w) ->
      step l (Link c w (l_read l) (given l ok data) (l_taken l) (l_end l) (refused l ok data))
  | step_close c w :
      state (l_conn l) = T_OPEN -> close_start (l_conn l) (l_world l) = (c, w) ->
      step l (Link c w (l_read l) (l_given l) (l_taken l) (l_end l) (l_refused l))
  | step_others w extra :
      wire w = wire (l_world l) ++ extra -> Forall (fun m => ~ addressed (l_conn l) m) extra ->
      step l (Link (l_conn l) w (l_read l) (l_given l) (l_taken l) (l_end l) (l_refused l)).

(** ** The invariant *)

(** Bytes at a position of a stream of which the first [q] are what was given. *)
Definition meets (T : list Z) (q p : Z) (data : list Z) : Prop :=
  0 <= p /\ p + zlen data < 2147483647 /\
  forall i, 0 <= i < zlen data -> p + i < q -> getz 0 data i = getz 0 T (p + i).
(** What is sent, or has been taken, at a position is what was given there: all of it while no
    send has been refused, and what was given before the first that was. *)
Definition holds_at (l : link) (p : Z) (data : list Z) : Prop :=
  match l_refused l with None => carries (l_given l) p data | Some q => meets (l_given l) q p data end.

(** A segment with part of what was given to send. *)
Definition sends_part (l : link) (p : Z) (seq flags : Z) (data : list Z) : Prop :=
  seq = u32 (sbase + p) /\ holds_at l p data /\
  (l_refused l = None -> has flags TH_FIN = true -> p + zlen data = zlen (l_given l) /\ is_open (l_conn l) = false).
Definition part_sent (l : link) (g : seg) : Prop :=
  (g_data g = [] /\ has (g_flags g) TH_FIN = false) \/ exists p, sends_part l p (g_seq g) (g_flags g) (g_data g).
Definition acks_kept (l : link) (g : seg) : Prop :=
  has (g_flags g) TH_ACK = true -> exists a, 0 <= a <= kept l /\ g_ack g = u32 (rbase + a).
Definition wire_ok (l : link) : Prop :=
  Forall (fun m => addressed (l_conn l) m -> forall g, parse m.2 = Some g -> part_sent l g /\ acks_kept l g) (wire (l_world l)).

Definition slot_ok (l : link) : Prop :=
  let s := c_snd (l_conn l) in
  has (rt_flags s) TH_SYN = false /\
  exists p, sends_part l p (rt_seq s) (rt_flags s) (take (Z.to_nat (rt_len s)) (rt_data s)) /\
    (l_refused l = None -> is_open (l_conn l) = true -> p + rt_len s = zlen (l_given l)).

(** What does not speak of the segment in flight. *)
Record link_base (l : link) : Prop := {
  lk_state : state (l_conn l) <> T_CLOSED /\ state (l_conn l) <> T_SYNSENT;
  lk_rcv : exists got, rcv_ok S rbase got (zlen (l_read l)) (c_rcv (l_conn l));
  lk_read : carries S 0 (l_read l);
  lk_given : zlen (l_given l) < 2147483647;
  lk_refused : forall q, l_refused l = Some q -> q <= zlen (l_given l);
  lk_taken : holds_at l 0 (l_taken l);
  lk_end : l_refused l = None -> l_end l = true -> zlen (l_taken l) = zlen (l_given l) /\ is_open (l_conn l) = false;
  lk_nxt : is_open (l_conn l) = true -> snd_nxt (c_snd (l_conn l)) = u32 (sbase + zlen (l_given l));
  lk_una : exists u, snd_una (c_snd (l_conn l)) = u32 (sbase + u) /\ 0 <= u <= reach l;
  lk_len : zlen (rt_data (c_snd (l_conn l))) = RT_DATA /\ 0 <= rt_len (c_snd (l_conn l)) <= RT_DATA;
  lk_wire : wire_ok l }.
(** The segment in flight is the last of what was given to send, and what is not in flight has
    been taken. *)
Definition settled (l : link) : Prop :=
  if rt_pending (c_snd (l_conn l)) then slot_ok l
  else l_refused l = None -> is_open (l_conn l) = true -> zlen (l_taken l) = zlen (l_given l).
Definition link_ok (l : link) : Prop := link_base l /\ settled l.

Definition upd (l : link) (c : tcpc) (w : world) : link := Link c w (l_read l) (l_given l) (l_taken l) (l_end l) (l_refused l).

Lemma carries_app T X p data : carries T p data -> carries (T ++ X) p data.
Proof.
  intros (H1 & H2 & H3). split; [done|]. rewrite length_app. split; [lia|].
  rewrite drop_app_le by lia. rewrite take_app_le by (rewrite length_drop; lia). done.
Qed.

Lemma holds_range l p data : zlen (l_given l) < 2147483647 -> holds_at l p data -> 0 <= p /\ p + zlen data < 2147483647.
Proof. unfold holds_at. destruct (l_refused l); [intros _ (? & ? & _); done|intros ? (? & ? & _); lia]. Qed.
Lemma carries_meets T p data : zlen T < 2147483647 -> carries T p data -> meets T (zlen T) p data.
Proof.
  intros Hl (H1 & H2 & H3). split_and!; [done|lia|]. intros i Hi _. rewrite H3, getz_take, getz_drop by lia. f_equal. lia.
Qed.
(** What was sent stays right as more is given, and when a send is refused. *)
Lemma holds_grow l ok data p d c w :
  zlen (l_given l) < 2147483647 -> (forall q, l_refused l = Some q -> q <= zlen (l_given l)) -> holds_at l p d ->
  holds_at (Link c w (l_read l) (given l ok data) (l_taken l) (l_end l) (refused l ok data)) p d.
Proof.
  unfold holds_at, refused, given. cbn [l_refused l_given]. intros Hg Hq H. destruct ok; cbn [orb].
  - destruct (l_refused l) as [q|]; [|by apply carries_app]. destruct H as (H1 & H2 & H3). split_and!; [done|done|].
    intros i Hi Hx. specialize (Hq q eq_refl). rewrite getz_app by lia. rewrite (proj2 (Z.ltb_lt _ _)) by lia. by apply H3.
  - destruct (RT_DATA <? zlen data); [done|]. destruct (l_refused l) as [q|]; cbn [default]; [done|]. by apply carries_meets.
Qed.
(** The peer goes on from where it is. *)
Lemma holds_extend l p d :
  holds_at l 0 (l_taken l) -> holds_at l p d -> 0 <= zlen (l_taken l) - p <= zlen d ->
  holds_at l 0 (l_taken l ++ drop (Z.to_nat (zlen (l_taken l) - p)) d).
Proof.
  unfold holds_at. destruct (l_refused l) as [q|].
  - intros (_ & Ht1 & Ht2) (Hp & Hd1 & Hd2) Ho. split_and!; [done|rewrite length_app, length_drop; lia|].
    intros i Hi Hq. rewrite length_app, length_drop in Hi. rewrite getz_app by lia. case_bool; [apply Ht2; lia|].
    rewrite getz_drop, Hd2 by lia. f_equal. lia.
  - intros (Ht1 & Ht2 & Ht3) Hc Ho. pose proof (carries_drop _ _ _ _ Hc Ho) as (Hc1 & Hc2 & Hc3).
    replace (p + (zlen (l_taken l) - p)) with (zlen (l_taken l)) in * by lia. unfold carries. rewrite length_app. split_and!; [done|lia|].
    rewrite drop_0 in *. rewrite Ht3 at 1. rewrite Hc3 at 1. by rewrite Nat2Z.id, take_take_drop.
Qed.

(** What [rcv_ok] says of the connection's own numbers. *)
Lemma rcv_kept l : link_base l -> exists got, rcv_ok S rbase got (zlen (l_read l)) (c_rcv (l_conn l)) /\
  kept l = got + (if got_fin (c_rcv (l_conn l)) then 1 else 0) /\ rcv_nxt (c_rcv (l_conn l)) = u32 (rbase + kept l) /\ 0 <= kept l.
Proof.
  intros Hl. destruct (lk_rcv l Hl) as [got Hr]. exists got.
  assert (kept l = got + (if got_fin (c_rcv (l_conn l)) then 1 else 0)) as Hk.
  { unfold kept. rewrite (proj1 (ro_len _ _ _ _ _ Hr)). lia. }
  split_and!; [done|done|by rewrite Hk, (ro_nxt _ _ _ _ _ Hr)|].
  pose proof (ro_range _ _ _ _ _ Hr). rewrite Hk. destruct (got_fin _); lia.
Qed.

Lemma wire_ok_ext l m :
  wire_ok l -> (addressed (l_conn l) m -> forall g, parse m.2 = Some g -> part_sent l g /\ acks_kept l g) ->
  Forall (fun m => addressed (l_conn l) m -> forall g, parse m.2 = Some g -> part_sent l g /\ acks_kept l g) (wire (l_world l) ++ [m]).
Proof. intros H Hm. apply Forall_app. split; [done|by apply Forall_singleton]. Qed.

(** Putting a segment on the wire. *)
Lemma emit_ok l seq flags data :
  link_base l -> (data = [] /\ has flags TH_FIN = false) \/ (exists p, sends_part l p seq flags data) ->
  link_base (upd l (l_conn l) (emit (l_conn l) (l_world l) seq flags data).2).
Proof.
  intros Hl Hp. assert (wire_ok (upd l (l_conn l) (emit (l_conn l) (l_world l) seq flags data).2)) as Hw.
  { unfold wire_ok, upd. cbn [l_world l_conn]. unfold emit. destruct (quiet (l_conn l)); [apply Hl|].
    destruct (SEGMENT <? _); [apply Hl|]. unfold np_ip_send. cbn [snd wire].
    destruct (ip_ok _); [|apply Hl]. apply (wire_ok_ext l); [apply Hl|]. cbn [snd]. intros _ g Hg.
    rewrite parse_segment in Hg by (destruct (has flags TH_SYN); [by right|by left]). injection Hg as <-.
    destruct (rcv_kept l Hl) as (got & Hr & Hk & Hn & Hk0). split.
    - destruct Hp as [Hp|(p & Hs & Hp)]; [by left|]. right. exists p. split; [|done]. cbn [g_seq]. rewrite Hs. unfold u32. by rewrite Zmod_mod.
    - intros _. exists (kept l). split; [lia|]. cbn [g_ack]. rewrite Hn. unfold u32. by rewrite Zmod_mod. }
  by destruct Hl.
Qed.
Lemma send_ack_ok l : link_ok l -> link_ok (upd l (l_conn l) (send_ack (l_conn l) (l_world l))).
Proof. intros [Hl Hs]. split; [|done]. apply emit_ok; [done|]. by left. Qed.

Lemma world_ok l w : link_ok l -> wire w = wire (l_world l) -> link_ok (upd l (l_conn l) w).
Proof.
  intros [Hl Hs] Hw. split; [|done]. assert (wire_ok (upd l (l_conn l) w)) by (unfold wire_ok, upd; cbn [l_world]; rewrite Hw; apply Hl).
  by destruct Hl.
Qed.

(** The receiving half moves on. *)
Lemma rcv_ok_link l r :
  link_ok l -> (exists got, rcv_ok S rbase got (zlen (l_read l)) r) -> kept l <= kept (upd l (with_rcv (l_conn l) r) (l_world l)) ->
  link_ok (upd l (with_rcv (l_conn l) r) (l_world l)).
Proof.
  intros [Hl Hs] Hr Hk. split; [|done].
  assert (wire_ok (upd l (with_rcv (l_conn l) r) (l_world l))).
  { eapply Forall_impl; [|apply (lk_wire l Hl)]. intros m Hm Ha g Hg. destruct (Hm Ha g Hg) as [H1 H2]. split; [done|].
    intros Hf. destruct (H2 Hf) as (a & ? & ?). exists a. split; [lia|done]. }
  by destruct Hl.
Qed.

(** The connection stops being open. *)
Lemma stopped_ok l st :
  link_ok l -> st <> T_OPEN -> st <> T_CLOSED -> st <> T_SYNSENT -> link_ok (upd l (with_state (l_conn l) st) (l_world l)).
Proof.
  intros [Hl Hs] H1 H2 H3. assert (is_open (with_state (l_conn l) st) = false) as Ho by (by apply bool_decide_eq_false).
  assert (forall p seq flags data, sends_part l p seq flags data -> sends_part (upd l (with_state (l_conn l) st) (l_world l)) p seq flags data) as Hp.
  { intros p seq flags data (? & ? & Hf). split_and!; [done|done|]. intros Hn Hx. split; [by apply Hf|done]. }
  split.
  - assert (wire_ok (upd l (with_state (l_conn l) st) (l_world l))).
    { eapply Forall_impl; [|apply (lk_wire l Hl)]. intros m Hm Ha g Hg. destruct (Hm Ha g Hg) as [[H|[p H]] ?].
      - split; [by left|done].
      - split; [right; exists p; by apply Hp|done]. }
    destruct Hl. split; try done.
    + cbn [l_end l_taken l_given l_conn upd l_refused]. intros Hn He. split; [by apply lk_end0|done].
    + cbn [l_conn upd]. rewrite Ho. done.
  - unfold settled in *. cbn [l_conn upd c_snd with_state] in *. destruct (rt_pending _); [|rewrite Ho; done].
    destruct Hs as (Hs & p & Hx & _). split; [done|]. exists p. split; [by apply Hp|]. cbn [l_conn upd]. rewrite Ho. done.
Qed.

(** The end of what is sent comes after all that was given. *)
Lemma end_sent l c w : link_base l -> is_open (l_conn l) = true -> is_open c = false ->
  sends_part (upd l c w) (zlen (l_given l)) (snd_nxt (c_snd (l_conn l))) (TH_FIN .| TH_ACK) [].
Proof.
  intros Hl Ho Hc. split; [by apply (lk_nxt l Hl)|]. pose proof (lk_given l Hl) as Hg. split.
  - unfold holds_at, upd. cbn [l_refused l_given]. destruct (l_refused l) as [q|]; split; [lia| |lia|].
    + cbn [length]. split; [lia|]. intros i Hi. lia.
    + cbn [length]. split; [lia|]. by rewrite take_0.
  - intros _ _. cbn [length upd l_given l_conn]. split; [lia|done].
Qed.

(** A new segment in flight. *)
Lemma send_reliable_ok l p seq flags data :
  link_base l -> sends_part l p seq flags data -> has flags TH_SYN = false -> zlen data <= RT_DATA ->
  (l_refused l = None -> is_open (l_conn l) = true -> p + zlen data = zlen (l_given l)) ->
  let '(_, c, w) := send_reliable (l_conn l) (l_world l) seq flags data in link_ok (upd l c w).
Proof.
  intros Hl Hp Hsyn Hd Ho. unfold send_reliable. rewrite (proj2 (Z.ltb_ge _ _)) by done.
  unfold timer_ticks. set (s := Snd _ _ _ _ _ _ _ _ _ _). set (w := World _ _ _ _ _ _ _).
  assert (link_base (upd l (with_snd (l_conn l) s) w)) as Hb.
  { destruct Hl. split; try done. split; [|subst s; cbn [upd l_conn with_snd c_snd rt_len]; lia].
    subst s. cbn [upd l_conn with_snd c_snd rt_data]. rewrite length_splice; [by apply lk_len0|]. destruct lk_len0. lia. }
  pose proof (emit_ok _ seq flags data Hb (or_intror (ex_intro _ p Hp))) as He. cbn [upd l_conn l_world] in He.
  destruct (emit (with_snd (l_conn l) s) w seq flags data) as [ok w']. split; [done|].
  unfold settled, slot_ok. subst s. cbn [upd l_conn with_snd c_snd rt_pending rt_flags rt_seq rt_len rt_data]. split; [done|].
  exists p. split; [|done]. rewrite Nat2Z.id. unfold splice. by rewrite take_0, app_nil_l, take_app_length.
Qed.

(** ** The steps keep it *)

Lemma has_lor flags a b : has flags (a .| b) = has flags a || has flags b.
Proof.
  unfold has. rewrite Z.land_lor_distr_r, <- negb_andb. f_equal. apply eq_true_iff_eq.
  rewrite andb_true_iff, !Z.eqb_eq. apply Z.lor_eq_0_iff.
Qed.

Lemma ack_ok l a :
  link_ok l -> 0 <= a <= reach l ->
  link_ok (upd l (with_snd (l_conn l) (ack_arrived (c_snd (l_conn l)) (u32 (sbase + a)))) (l_world l)).
Proof.
  intros [Hl Hs] Ha. destruct (lk_una l Hl) as (u & Hu & Hur).
  pose proof (lk_given l Hl) as Hg. unfold ack_arrived.
  set (s1 := if 0 <? sdiff (u32 (sbase + a)) (snd_una (c_snd (l_conn l))) then _ else _).
  assert (rt_pending s1 = rt_pending (c_snd (l_conn l)) /\ rt_seq s1 = rt_seq (c_snd (l_conn l)) /\ rt_len s1 = rt_len (c_snd (l_conn l)) /\
    rt_flags s1 = rt_flags (c_snd (l_conn l)) /\ rt_data s1 = rt_data (c_snd (l_conn l)) /\ snd_nxt s1 = snd_nxt (c_snd (l_conn l))) as (E1 & E2 & E3 & E4 & E5 & E6)
    by (subst s1; by destruct (0 <? _)).
  assert (exists u, snd_una s1 = u32 (sbase + u) /\ 0 <= u <= reach l) as Hu1.
  { subst s1. case_bool; [exists a|exists u]; done. }
  assert (link_ok (upd l (with_snd (l_conn l) s1) (l_world l))) as [Hb1 Hs1].
  { split.
    - destruct Hl. split; try done; cbn [upd l_conn with_snd c_snd]; rewrite ?E3, ?E5, ?E6; done.
    - unfold settled, slot_ok in *. cbn [upd l_conn with_snd c_snd] in *. rewrite E1, E2, E3, E4, E5. done. }
  rewrite E1, E2, E3, E4. destruct (rt_pending (c_snd (l_conn l))) eqn:Ep; [|by split].
  case_bool; [|by split]. split; [by destruct Hb1|].
  unfold settled in *. cbn [upd l_conn with_snd c_snd with_pending rt_pending l_taken l_given] in *.
  change (l_refused l = None -> is_open (l_conn l) = true -> zlen (l_taken l) = zlen (l_given l)). intros Hnr Ho.
  rewrite Ep in Hs. destruct Hs as (Hsyn & p & (Hseq & Hc & Hfin) & Hlast). specialize (Hlast Hnr Ho).
  pose proof (lk_taken l Hl) as Htk. unfold holds_at in Hc, Htk. rewrite Hnr in Hc, Htk. destruct Htk as (_ & Htk & _).
  assert (has (rt_flags (c_snd (l_conn l))) TH_FIN = false) as Hnf.
  { destruct (has _ TH_FIN) eqn:E; [|done]. destruct (Hfin Hnr eq_refl) as [_ Hx]. by rewrite Ho in Hx. }
  unfold reach in Ha. destruct (l_end l) eqn:Ee; [destruct (lk_end l Hl Hnr Ee) as [_ Hx]; by rewrite Ho in Hx|].
  rewrite has_lor, Hsyn, Hnf in H. cbn [orb] in H. rewrite Hseq, seq_add, Hlast, sdiff_spec in H by (destruct Hc; lia). lia.
Qed.

Lemma take_ok l pos data :
  link_ok l -> data <> [] -> carries S pos data ->
  - 2147483648 < pos - kept l /\ pos + zlen data - kept l < 2147483647 ->
  let '(c, w) := tcp_take net_ip ip_ok (l_conn l) (l_world l) (u32 (rbase + pos)) data in
  link_ok (upd l c w) /\ kept l <= kept (upd l c w) /\ is_open c = is_open (l_conn l) /\ got_fin (c_rcv c) = got_fin (c_rcv (l_conn l)).
Proof.
  intros Hl Hd Hc Hrec. destruct (rcv_kept l (proj1 Hl)) as (got & Hr & Hk & Hn & Hk0).
  assert (0 < zlen data) by (destruct data; [done|cbn; lia]).
  unfold tcp_take. rewrite Hn, sdiff_spec by lia.
  destruct ((pos - kept l <? 0) && (zlen data <=? u32 (- (pos - kept l)))) eqn:E.
  { split; [|split_and!; done]. apply (send_ack_ok (upd l (l_conn l) (saw_ooo (l_world l)))), world_ok; done. }
  set (data' := if pos - kept l <? 0 then _ else data). set (off := if pos - kept l <? 0 then 0 else pos - kept l).
  assert (got_fin (c_rcv (l_conn l)) = false) as Hnf.
  { destruct (got_fin (c_rcv (l_conn l))) eqn:Ef; [|done]. exfalso. destruct Hc as (? & ? & _).
    rewrite (ro_fin _ _ _ _ _ Hr Ef) in *. rewrite (proj2 (Z.ltb_lt _ _)) in E by lia. cbn [andb] in E.
    rewrite u32_id in E by (unfold is_word; lia). apply Z.leb_gt in E. lia. }
  rewrite Hnf, Z.add_0_r in Hk. rewrite Hk in *.
  assert (data' <> [] /\ 0 <= off /\ carries S (got + off) data') as (Hd' & Hoff & Hc').
  { subst data' off. rewrite Hk. destruct (Z.ltb_spec (pos - got) 0); [|split_and!; [done|lia|by replace (got + (pos - got)) with pos by lia]].
    cbn [andb] in E. rewrite u32_id in E by (unfold is_word; lia). apply Z.leb_gt in E. split_and!; [|lia|].
    - intros Hx. apply (f_equal length) in Hx. rewrite length_drop in Hx. cbn [length] in Hx. lia.
    - rewrite Z.add_0_r. replace got with (pos + - (pos - got)) at 1 by lia. apply carries_drop; [done|lia]. }
  destruct (store_ok _ _ _ _ _ _ _ Hr Hnf Hoff Hd' Hc') as (got' & Hg' & Hr').
  assert (got_fin (store (c_rcv (l_conn l)) off data') = false) as Hnf'.
  { by rewrite store_fin. }
  assert (kept (upd l (with_rcv (l_conn l) (store (c_rcv (l_conn l)) off data')) (l_world l)) = got') as Hk'.
  { unfold kept. cbn [upd l_conn l_read with_rcv c_rcv]. rewrite Hnf', (proj1 (ro_len _ _ _ _ _ Hr')). lia. }
  assert (link_ok (upd l (with_rcv (l_conn l) (store (c_rcv (l_conn l)) off data')) (l_world l))) as Hl'.
  { apply rcv_ok_link; [done|by exists got'|]. rewrite Hk', Hk. lia. }
  pose proof (world_ok _ (if off =? 0 then l_world l else saw_ooo (l_world l)) Hl' ltac:(by destruct (off =? 0))) as Hw.
  split; [exact (send_ack_ok _ Hw)|]. split; [|split; [done|apply store_fin]].
  unfold kept in *. cbn [upd l_conn l_read with_rcv c_rcv] in *. lia.
Qed.

Lemma fin_noted_ok l pos g :
  link_ok l -> g_seq g = u32 (rbase + pos) -> pos + zlen (g_data g) - kept l < 2147483647 ->
  (has (g_flags g) TH_FIN = true -> pos + zlen (g_data g) = zlen S) ->
  link_ok (upd l (with_rcv (l_conn l) (fin_noted (c_rcv (l_conn l)) g)) (l_world l)).
Proof.
  intros Hl Hseq Hrec Hfin. destruct (rcv_kept l (proj1 Hl)) as (got & Hr & Hk & Hn & Hk0).
  unfold fin_noted. destruct (has (g_flags g) TH_FIN && negb (got_fin (c_rcv (l_conn l)))) eqn:E; [|by destruct l as [[]]].
  apply andb_true_iff in E as [Ef Hnf%negb_true_iff]. rewrite Hnf, Z.add_0_r in Hk. specialize (Hfin Ef).
  destruct ((0 <=? _) && _) eqn:Ew; [|by destruct l as [[]]]. apply rcv_ok_link; [done| |done].
  exists got. pose proof (ro_range _ _ _ _ _ Hr).
  destruct Hr. split; try done. cbn [fin_held got_fin fin_at]. intros _. split; [done|].
  split; [by rewrite Hseq, seq_add, Hfin|lia].
Qed.

Lemma fin_arrived_ok l :
  link_ok l -> fin_held (c_rcv (l_conn l)) = true -> fin_at (c_rcv (l_conn l)) = rcv_nxt (c_rcv (l_conn l)) ->
  let '(c, w) := fin_arrived ticks net_ip ip_ok (l_conn l) (l_world l) in link_ok (upd l c w).
Proof.
  intros Hl Hf Hat. destruct (rcv_kept l (proj1 Hl)) as (got & Hr & Hk & Hn & Hk0).
  destruct (ro_fin_at _ _ _ _ _ Hr Hf) as (Hnf & Hfa & Hs4). rewrite Hnf, Z.add_0_r in Hk.
  pose proof (ro_range _ _ _ _ _ Hr) as Hrg.
  assert (got = zlen S) as Hgot by (rewrite Hat, Hn, Hk in Hfa; unfold u32 in Hfa; dlia).
  unfold fin_arrived. set (c1 := with_rcv (l_conn l) _).
  assert (link_ok (upd l c1 (l_world l))) as Hl1.
  { subst c1. apply rcv_ok_link; [done| |unfold kept; cbn [upd l_conn with_rcv c_rcv rxlen got_fin l_read]; rewrite Hnf; lia].
    exists got. destruct Hr. split; try done. cbn [rcv_nxt got_fin]. rewrite Hn, Hk. unfold u32. rewrite Zplus_mod_idemp_l. f_equal. lia. }
  pose proof (send_ack_ok _ Hl1) as Hl2. cbn [upd l_conn l_world] in Hl2. set (w1 := send_ack c1 (l_world l)) in *.
  case_bool_decide as Ho.
  - assert (is_open (l_conn l) = true) as Ho' by by apply bool_decide_eq_true.
    set (c2 := with_state _ T_CLOSING).
    assert (link_base (upd l c2 w1)) as Hb.
    { pose proof (stopped_ok _ T_CLOSING Hl2 ltac:(done) ltac:(done) ltac:(done)) as [Hb _]. destruct Hb. by split. }
    pose proof (send_reliable_ok _ (zlen (l_given l)) (snd_nxt (c_snd c1)) (TH_FIN .| TH_ACK) [] Hb) as H.
    cbn [upd l_conn l_world l_given] in H. destruct (send_reliable c2 w1 _ _ _) as [[ok c3] w3]. apply H; [|done|done|done].
    by apply end_sent; [apply Hl|..].
  - apply (stopped_ok _ T_DONE Hl2); done.
Qed.

Lemma arrives_ok l pos g :
  link_ok l -> from_peer l pos g ->
  let '(c, w) := segment_arrived (l_conn l) (l_world l) g in link_ok (upd l c w).
Proof.
  intros Hl Hg. unfold segment_arrived. destruct (has (g_flags g) TH_RST).
  { pose proof (stopped_ok _ T_DONE Hl ltac:(done) ltac:(done) ltac:(done)) as [Hb _].
    assert (link_ok (upd l (with_snd (with_state (l_conn l) T_DONE) (with_pending (c_snd (l_conn l)) false)) (l_world l))) as Hr
      by (split; [by destruct Hb|done]).
    by apply (world_ok _ (saw_rst (l_world l)) Hr). }
  rewrite bool_decide_eq_false_2 by apply (lk_state l (proj1 Hl)).
  set (c1 := if has (g_flags g) TH_ACK then _ else l_conn l).
  assert (link_ok (upd l c1 (l_world l)) /\ c_rcv c1 = c_rcv (l_conn l)) as [Hl1 Hc1].
  { subst c1. destruct (has _ TH_ACK) eqn:E; [|by destruct l]. split; [|done].
    destruct (fp_ack _ _ _ Hg E) as (a & Ha & ->). by apply ack_ok. }
  assert (kept (upd l c1 (l_world l)) = kept l) as Hk1 by (unfold kept; cbn [upd l_conn l_read]; by rewrite Hc1).
  destruct Hg as [Hseq Hc Hrec Hfin Hack].
  destruct (match g_data g with [] => _ | _ => _ end) as [c2 w2] eqn:E2.
  assert (link_ok (upd l c2 w2) /\ kept l <= kept (upd l c2 w2) /\ got_fin (c_rcv c2) = got_fin (c_rcv (l_conn l))) as (Hl2 & Hk2 & Hf2).
  { destruct (g_data g) as [|b data] eqn:Ed; [injection E2 as <- <-; by rewrite Hk1, Hc1|].
    pose proof (take_ok _ pos (b :: data) Hl1 ltac:(done) Hc ltac:(by rewrite Hk1)) as H. cbn [upd l_conn l_world] in H.
    rewrite <- Hseq, E2 in H. destruct H as (? & ? & _ & ?). rewrite Hk1, Hc1 in *. done. }
  assert (link_ok (upd l (with_rcv c2 (fin_noted (c_rcv c2) g)) w2)) as Hl3.
  { pose proof (fin_noted_ok _ pos g Hl2) as H. cbn [upd l_conn l_world] in H. apply H; [done|lia|done]. }
  destruct (fin_held _ && _ && _) eqn:E3; [|done].
  apply andb_true_iff in E3 as [[E3 _]%andb_true_iff E4%Z.eqb_eq].
  exact (fin_arrived_ok _ Hl3 E3 E4).
Qed.

Lemma peer_takes_ok l m g :
  link_ok l -> m ∈ wire (l_world l) -> addressed (l_conn l) m -> parse m.2 = Some g -> link_ok (peer_takes l g).
Proof.
  intros [Hl Hs] Hm Ha Hg. pose proof (lk_wire l Hl) as Hw. unfold wire_ok in Hw. rewrite Forall_forall in Hw.
  destruct (Hw m (proj1 (list_elem_of_In _ _) Hm) Ha g Hg) as [Hp _]. unfold peer_takes. destruct (l_end l) eqn:Ee; [done|].
  pose proof (lk_taken l Hl) as Ht. pose proof (lk_given l Hl) as Hgv. pose proof (holds_range _ _ _ Hgv Ht) as [_ Htl].
  destruct ((0 <=? _) && _) eqn:E; [|done]. apply andb_true_iff in E as [E1%Z.leb_le E2%Z.leb_le].
  set (n := drop _ (g_data g)).
  assert (holds_at l 0 (l_taken l ++ n) /\
    (l_refused l = None -> has (g_flags g) TH_FIN = true -> zlen (l_taken l ++ n) = zlen (l_given l) /\ is_open (l_conn l) = false)) as [Hc Hf].
  { destruct Hp as [[Hd Hnf]|(p & Hseq & Hc & Hf)].
    - subst n. rewrite Hd, drop_nil, app_nil_r. split; [done|]. by rewrite Hnf.
    - pose proof (holds_range _ _ _ Hgv Hc) as Hpr. subst n. rewrite Hseq, sdiff_spec in * by lia. replace (0 + zlen (l_taken l) - p) with (zlen (l_taken l) - p) in * by lia.
      split; [by apply holds_extend|]. intros Hn Hx. destruct (Hf Hn Hx) as [Hx1 Hx2]. split; [|done]. rewrite length_app, length_drop. lia. }
  assert (reach l <= zlen (l_taken l ++ n) + (if has (g_flags g) TH_FIN then 1 else 0)) as Hre.
  { unfold reach. rewrite Ee, length_app. destruct (has _ _); lia. }
  split.
  - destruct Hl. split; try done. cbn [l_conn]. destruct lk_una0 as (u & Hu & Hr). exists u. split; [done|].
    unfold reach at 1. cbn [l_taken l_end]. lia.
  - unfold settled in *. cbn [l_conn l_taken l_given l_refused]. destruct (rt_pending _); [done|].
    intros Hn Ho. specialize (Hs Hn Ho). unfold holds_at in Hc. rewrite Hn in Hc. destruct Hc as (_ & Hc & _). rewrite length_app in *. lia.
Qed.

Lemma pump_ok l : link_ok l -> let '(c, w) := pump_one (l_conn l) (l_world l) in link_ok (upd l c w).
Proof.
  intros Hl. unfold pump_one. destruct (rt_pending (c_snd (l_conn l))) eqn:Ep; [|by destruct l].
  rewrite bool_decide_eq_false_2 by apply (lk_state l (proj1 Hl)). cbn [negb orb]. unfold timer_ticks.
  set (w := World _ _ _ _ _ _ _). pose proof (world_ok l w Hl ltac:(done)) as Hw.
  destruct (_ <? rt_timeout_ms _); [done|]. destruct (MAX_RETRIES <=? _).
  { pose proof (stopped_ok _ T_DONE Hw ltac:(done) ltac:(done) ltac:(done)) as [Hb _]. split; [by destruct Hb|done]. }
  destruct Hl as [Hl Hs]. unfold settled in Hs. rewrite Ep in Hs. destruct Hs as (Hsyn & p & Hp & Ho).
  set (s := Snd _ _ _ _ _ _ _ _ _ _). set (w2 := World _ _ _ _ _ _ _).
  assert (link_base (upd l (with_snd (l_conn l) s) w2)) as Hb by (destruct Hl; by split).
  split; [apply (emit_ok _ _ _ _ Hb); right; by exists p|]. split; [done|]. by exists p.
Qed.

Lemma recv_ok l cap :
  link_ok l -> 0 <= cap -> let '(out, c, w) := recv_now (l_conn l) (l_world l) cap in
  link_ok (Link c w (l_read l ++ out) (l_given l) (l_taken l) (l_end l) (l_refused l)).
Proof.
  intros [Hl Hs] Hcap. destruct (lk_rcv l Hl) as [got Hr]. unfold recv_now.
  pose proof (hand_over_ok _ _ _ _ _ cap Hr Hcap) as H. destruct (hand_over _ cap) as [out r].
  destruct H as (Hc & Hlen & Hr' & Hn & Hf & Hx). set (l' := Link (with_rcv (l_conn l) r) (l_world l) (l_read l ++ out) (l_given l) (l_taken l) (l_end l) (l_refused l)).
  assert (kept l' = kept l) as Hk. { unfold kept, l'. cbn [l_read l_conn with_rcv c_rcv]. rewrite length_app, Hx, Hf. lia. }
  assert (link_ok l') as Hl'.
  { split; [|done].
    assert (carries S 0 (l_read l ++ out)) as Hrd.
    { destruct (lk_read l Hl) as (_ & H2 & H3), Hc as (_ & Hc2 & Hc3). unfold carries. rewrite length_app. split_and!; [done|lia|].
      rewrite drop_0 in *. rewrite H3 at 1. rewrite Hc3 at 1. by rewrite Nat2Z.id, take_take_drop. }
    assert (wire_ok l').
    { eapply Forall_impl; [|apply (lk_wire l Hl)]. intros m Hm Ha g Hg. destruct (Hm Ha g Hg) as [H1 H2]. split; [done|].
      intros Hfl. rewrite Hk. by apply H2. }
    destruct Hl. split; try done. exists got. subst l'. cbn [l_read l_conn with_rcv c_rcv]. by rewrite length_app, Nat2Z.inj_add. }
  destruct out; [done|]. case_bool_decide; [|done]. exact (send_ack_ok _ Hl').
Qed.

(** Where the next segment will start plays no part in sending this one. *)
Lemma send_reliable_nxt c w seq flags data n :
  let '(ok, c', w') := send_reliable c w seq flags data in
  send_reliable (with_snd c (with_nxt (c_snd c) n)) w seq flags data = (ok, with_snd c' (with_nxt (c_snd c') n), w').
Proof.
  unfold Tcp.send_reliable. destruct (RT_DATA <? _); [done|]. unfold timer_ticks, Tcp.emit, segment.
  cbn [with_snd c_snd c_rcv with_nxt snd_una rt_data snd_nxt quiet peer_ip peer_port local_port].
  destruct (quiet c); [done|]. destruct (SEGMENT <? _); [done|]. by destruct (np_ip_send _ _ _ _) as [ok w'].
Qed.

Lemma refused_none l ok data : refused l ok data = None -> l_refused l = None /\ (ok = false -> RT_DATA < zlen data).
Proof. unfold refused. destruct ok; cbn [orb]; [done|]. destruct (Z.ltb_spec RT_DATA (zlen data)); done. Qed.
Lemma refused_some l ok data q :
  (forall q, l_refused l = Some q -> q <= zlen (l_given l)) -> refused l ok data = Some q -> q <= zlen (l_given l).
Proof.
  intros Hq. unfold refused. destruct (ok || _); [apply Hq|]. intros [= <-]. destruct (l_refused l) as [q'|] eqn:E; cbn [default]; [by apply Hq|lia].
Qed.

(** What was right before a send is after it, answered true or false. *)
Lemma grown_ok l c ok data :
  link_base l -> is_open (l_conn l) = true -> zlen (l_given l) + zlen data < 2147483647 ->
  c = with_snd (l_conn l) (with_nxt (c_snd (l_conn l)) (u32 (sbase + zlen (given l ok data)))) ->
  link_base (Link c (l_world l) (l_read l) (given l ok data) (l_taken l) (l_end l) (refused l ok data)).
Proof.
  intros Hl Ho Hlen ->. set (l1 := Link _ _ _ _ _ _ _). pose proof (lk_given l Hl) as Hg. pose proof (lk_refused l Hl) as Hq.
  assert (zlen (l_given l) <= zlen (given l ok data) < 2147483647) as Hgr by (unfold given; destruct ok; rewrite ?length_app; lia).
  assert (forall p d, holds_at l p d -> holds_at l1 p d) as Hh by (intros p d; by apply holds_grow).
  assert (wire_ok l1).
  { eapply Forall_impl; [|apply (lk_wire l Hl)]. intros m Hm Ha g Hg'. destruct (Hm Ha g Hg') as [[H1|(p & Hx & Hc & Hf)] H2]; (split; [|done]); [by left|].
    right. exists p. split_and!; [done|by apply Hh|]. intros Hn Hfin. apply refused_none in Hn as [Hn _]. destruct (Hf Hn Hfin) as [_ Hz]. by rewrite Ho in Hz. }
  pose proof (Hh _ _ (lk_taken l Hl)). destruct Hl. split; try done.
  - cbn [l1 l_given]. lia.
  - intros q Hx. pose proof (refused_some _ _ _ _ Hq Hx). cbn [l1 l_given]. lia.
  - intros Hn He. apply refused_none in Hn as [Hn _]. destruct (lk_end0 Hn He) as [_ Hx]. by rewrite Ho in Hx.
Qed.

Lemma send_ok l data :
  link_ok l -> state (l_conn l) = T_OPEN -> zlen (l_given l) + zlen data < 2147483647 ->
  let '(ok, c, w) := send_start (l_conn l) (l_world l) data in
  link_ok (Link c w (l_read l) (given l ok data) (l_taken l) (l_end l) (refused l ok data)).
Proof.
  intros [Hl Hs] Hop Hlen. assert (is_open (l_conn l) = true) as Ho by by apply bool_decide_eq_true.
  pose proof (lk_nxt l Hl Ho) as Hn. unfold send_start. destruct (Z.ltb_spec RT_DATA (zlen data)) as [Hbig|Hd].
  { unfold send_reliable, refused. rewrite !(proj2 (Z.ltb_lt _ _)) by done. by destruct l as [[?????[]]]. }
  set (n := u32 (_ + zlen data)).
  assert (forall ok, let '(_, c, w) := send_reliable (with_snd (l_conn l) (with_nxt (c_snd (l_conn l)) (u32 (sbase + zlen (given l ok data))))) (l_world l)
      (snd_nxt (c_snd (l_conn l))) (TH_PSH .| TH_ACK) data in
    link_ok (Link c w (l_read l) (given l ok data) (l_taken l) (l_end l) (refused l ok data))) as H.
  { intros ok. pose proof (grown_ok l _ ok data Hl Ho Hlen eq_refl) as Hb.
    pose proof (send_reliable_ok _ (zlen (l_given l)) (snd_nxt (c_snd (l_conn l))) (TH_PSH .| TH_ACK) data Hb) as H.
    cbn [l_conn l_world l_given l_refused] in H. destruct (send_reliable _ _ _ _ _) as [[ok' c2] w2]. apply H; [|done|done|].
    - split; [done|]. split; [|done]. pose proof (lk_refused l Hl) as Hq. unfold holds_at. cbn [l_refused l_given].
      destruct (refused l ok data) as [q|] eqn:Er; [split_and!; [lia|lia|]; intros i Hi; pose proof (refused_some _ _ _ _ Hq Er); lia|].
      apply refused_none in Er as [_ Er]. destruct ok; [|specialize (Er eq_refl); lia]. unfold given, carries.
      rewrite length_app, Nat2Z.id, drop_app_length. split_and!; [lia|lia|]. by rewrite firstn_all.
    - intros Hr _. apply refused_none in Hr as [_ Hr]. unfold given. destruct ok; [rewrite length_app; lia|specialize (Hr eq_refl); lia]. }
  pose proof (send_reliable_nxt (l_conn l) (l_world l) (snd_nxt (c_snd (l_conn l))) (TH_PSH .| TH_ACK) data) as Hx.
  destruct (send_reliable (l_conn l) (l_world l) _ _ data) as [[ok c'] w']. rewrite (Hx n).
  specialize (H ok). rewrite Hx in H. destruct ok.
  - replace n with (u32 (sbase + zlen (given l true data))); [done|]. subst n. unfold given. rewrite length_app, Hn, seq_add. do 2 f_equal. lia.
  - unfold given at 1 in H. by rewrite Hn.
Qed.

Lemma close_ok l :
  link_ok l -> state (l_conn l) = T_OPEN ->
  let '(c, w) := close_start (l_conn l) (l_world l) in link_ok (upd l c w).
Proof.
  intros Hl Hop. assert (is_open (l_conn l) = true) as Ho by by apply bool_decide_eq_true.
  unfold close_start. set (c1 := with_state _ T_CLOSING).
  assert (link_base (upd l c1 (l_world l))) as Hb.
  { pose proof (stopped_ok _ T_CLOSING Hl ltac:(done) ltac:(done) ltac:(done)) as [Hb _]. destruct Hb. by split. }
  pose proof (send_reliable_ok _ (zlen (l_given l)) (snd_nxt (c_snd (l_conn l))) (TH_FIN .| TH_ACK) [] Hb) as H.
  cbn [upd l_conn l_world l_given] in H. destruct (send_reliable c1 _ _ _ _) as [[ok c3] w3]. apply H; [|done|done|done].
  by apply end_sent; [apply Hl|..].
Qed.

Lemma others_ok l w extra :
  link_ok l -> wire w = wire (l_world l) ++ extra -> Forall (fun m => ~ addressed (l_conn l) m) extra ->
  link_ok (upd l (l_conn l) w).
Proof.
  intros [Hl Hs] Hw He. split; [|done]. assert (wire_ok (upd l (l_conn l) w)).
  { unfold wire_ok. cbn [upd l_conn l_world]. rewrite Hw. apply Forall_app. split; [apply (lk_wire l Hl)|].
    eapply Forall_impl; [|exact He]. intros m Hm Ha. by destruct Hm. }
  by destruct Hl.
Qed.

Lemma move_ok l l' : link_ok l -> step l l' -> link_ok l'.
Proof.
  intros Hl Hst. destruct Hst as [pos g c w Hg E|m g Hm Ha Hg|c w E|cap out c w Hc E|data ok c w Ho Hlen E|c w Ho E|w extra Hw He].
  - pose proof (arrives_ok l pos g Hl Hg) as H. by rewrite E in H.
  - by apply peer_takes_ok with m.
  - pose proof (pump_ok l Hl) as H. by rewrite E in H.
  - pose proof (recv_ok l cap Hl Hc) as H. by rewrite E in H.
  - pose proof (send_ok l data Hl Ho Hlen) as H. by rewrite E in H.
  - pose proof (close_ok l Hl Ho) as H. by rewrite E in H.
  - by apply others_ok with extra.
Qed.

Lemma steps_ok l l' : link_ok l -> rtc step l l' -> link_ok l'.
Proof. intros Hl H. induction H; [done|]. eauto using move_ok. Qed.

(** ** How a connection begins *)

(** What [tcp_open] is waiting in: nothing has come, and of this connection only its SYN, which
    acknowledges nothing, may be under way. *)
Record opening (c : tcpc) (w : world) : Prop := {
  op_state : state c = T_SYNSENT;
  op_empty : rxlen (c_rcv c) = 0 /\ held (c_rcv c) = [] /\ got_fin (c_rcv c) = false /\ fin_held (c_rcv c) = false;
  op_buf : zlen (rxbuf (c_rcv c)) = RXCAP;
  op_len : zlen (rt_data (c_snd c)) = RT_DATA /\ 0 <= rt_len (c_snd c) <= RT_DATA;
  op_wire : Forall (fun m => addressed c m -> forall g, parse m.2 = Some g -> g_data g = [] /\ g_flags g = TH_SYN) (wire w) }.

(** The peer's answer to the SYN, which settles where both streams start. *)
Definition answer (g : seg) : Prop :=
  has (g_flags g) TH_RST = false /\ has (g_flags g) TH_SYN = true /\ has (g_flags g) TH_ACK = true /\
  u32 rbase = u32 (g_seq g + 1) /\ u32 sbase = g_ack g.

Lemma both_set f a b : f .& (a .| b) = a .| b <-> f .& a = a /\ f .& b = b.
Proof.
  split.
  - intros H. split; bits; apply (f_equal (fun x => Z.testbit x n)) in H; rewrite !Z.land_spec, ?Z.lor_spec in *;
      destruct (Z.testbit f n), (Z.testbit a n), (Z.testbit b n); done.
  - intros [Ha Hb]. by rewrite Z.land_lor_distr_r, Ha, Hb.
Qed.
Lemma has_bit f b : 0 <= b -> has f (2 ^ b) = true -> f .& 2 ^ b = 2 ^ b.
Proof.
  intros Hb H. unfold has in H. pose proof (land_pow2_test f b Hb) as Ht. rewrite Z.shiftl_1_l in Ht. rewrite Ht, negb_involutive in H.
  bits. rewrite Z.land_spec, Z.pow2_bits_eqb by done. destruct (Z.eqb_spec b n) as [->|]; [by rewrite H|apply andb_false_r].
Qed.

Lemma opened_ok c w g c' w' :
  opening c w -> answer g -> segment_arrived c w g = (c', w') -> link_ok (Link c' w' [] [] [] false None).
Proof.
  intros [Hst (Hx & Hh & Hgf & Hfh) Hb Hlen Hw] (Hrst & Hsyn & Hack & Hr & Hs) E. unfold segment_arrived in E.
  rewrite Hrst, bool_decide_eq_true_2 in E by done.
  rewrite (proj2 (Z.eqb_eq _ _)) in E by (apply both_set; split; [by apply (has_bit _ 1)|by apply (has_bit _ 4)]).
  cbv zeta in E. set (c1 := with_state _ T_OPEN) in E. injection E as <- <-.
  apply (send_ack_ok (Link c1 w [] [] [] false None)). split; [|done]. subst c1.
  split; cbn [l_conn l_read l_given l_taken l_end l_world l_refused with_state with_snd with_rcv c_snd c_rcv state]; try done.
  - exists 0. split; cbn [rcv_nxt got_fin rxbuf rxlen held fin_held fin_at length]; rewrite ?Hx, ?Hh, ?Hgf, ?Hfh; try done; [lia|by rewrite Z.add_0_r, Hr|lia].
  - split; [lia|]. cbn [length]. split; [lia|done].
  - cbn [with_pending with_una with_nxt snd_nxt length]. intros _. by rewrite Z.add_0_r, Hs.
  - exists 0. cbn [with_pending with_una with_nxt snd_una]. by rewrite Z.add_0_r, Hs.
  - eapply Forall_impl; [|exact Hw]. intros m Hm Ha g' Hg'. destruct (Hm Ha g' Hg') as [Hd Hf].
    split; [left; by rewrite Hf|]. unfold acks_kept. by rewrite Hf.
Qed.

(** ** What the two ends can rely on *)

(** C2: However the network loses, repeats and reorders the segments of a peer, whatever
    is sent, closed, read and sent again meanwhile: what has been handed to the reader followed
    by what is ready for it is the peer's stream from its first byte, none missing and none
    twice; the connection acknowledges exactly that and nothing it ever sent acknowledges more;
    the end is reported only when the whole stream is there; and the buffer is not overrun. *)
Theorem stream_arrives_whole c w g c0 w0 l :
  opening c w -> answer g -> segment_arrived c w g = (c0, w0) ->
  rtc step (Link c0 w0 [] [] [] false None) l ->
  let r := c_rcv (l_conn l) in
  let got := zlen (l_read l) + rxlen r in
  0 <= rxlen r <= zlen (rxbuf r) /\ got <= zlen S /\
  l_read l ++ take (Z.to_nat (rxlen r)) (rxbuf r) = take (Z.to_nat got) S /\
  rcv_nxt r = u32 (rbase + got + if got_fin r then 1 else 0) /\
  (got_fin r = true -> l_read l ++ take (Z.to_nat (rxlen r)) (rxbuf r) = S) /\
  (forall m g, m ∈ wire (l_world l) -> addressed (l_conn l) m -> parse m.2 = Some g -> has (g_flags g) TH_ACK = true ->
     exists a, 0 <= a <= got + (if got_fin r then 1 else 0) /\ g_ack g = u32 (rbase + a)).
Proof.
  intros Hc Hg E Hst. destruct (steps_ok _ _ (opened_ok _ _ _ _ _ Hc Hg E) Hst) as [Hl _]. cbv zeta.
  destruct (lk_rcv l Hl) as [got Hr]. destruct (ro_len _ _ _ _ _ Hr) as [Hlen Hcap]. pose proof (ro_range _ _ _ _ _ Hr) as Hrg.
  pose proof (ro_buf _ _ _ _ _ Hr) as Hb. replace (zlen (l_read l) + rxlen (c_rcv (l_conn l))) with got by lia.
  assert (l_read l ++ take (Z.to_nat (rxlen (c_rcv (l_conn l)))) (rxbuf (c_rcv (l_conn l))) = take (Z.to_nat got) S) as Hall.
  { destruct (lk_read l Hl) as (_ & _ & Hrd). rewrite drop_0 in Hrd.
    apply (list_eq_getz 0); [rewrite length_app, !length_take; lia|]. intros i Hi. rewrite length_app, length_take in Hi.
    rewrite getz_take, getz_app by lia. case_bool; [rewrite Hrd, getz_take by lia; done|].
    rewrite getz_take by lia. apply (ro_ready _ _ _ _ _ Hr). lia. }
  split; [lia|]. split; [lia|]. split; [done|]. split; [rewrite <- Z.add_assoc; apply (ro_nxt _ _ _ _ _ Hr)|]. split.
  - intros Hf. rewrite Hall, (ro_fin _ _ _ _ _ Hr Hf), Nat2Z.id. apply firstn_all.
  - intros m g' Hm Ha Hg' Hack. pose proof (lk_wire l Hl) as Hw. unfold wire_ok in Hw. rewrite Forall_forall in Hw.
    destruct (Hw m (proj1 (list_elem_of_In _ _) Hm) Ha g' Hg') as [_ Hk]. destruct (Hk Hack) as (a & Hka & Ea). exists a. split; [|done].
    unfold kept in Hka. rewrite Hlen in Hka. lia.
Qed.

(** C4: However the network loses, repeats and reorders segments, whatever comes and is
    read meanwhile and whichever segments the IP layer refuses, over a connection's first two
    gigabytes. So long as no [tcp_send] has had its segment refused when first handed over: what
    the peer takes is what was given to send, from its first byte, in order, none missing and
    none twice; the end it takes is the end of that; and while the connection is open and waits
    for no acknowledgement the peer has all of it, so a [tcp_send] that answers true on a
    connection still open has delivered its bytes. Once one has been refused, this is left: of
    the bytes given before it, the peer takes none that is not the one given at its place. *)
Theorem sends_are_taken_in_order c w g c0 w0 l :
  opening c w -> answer g -> segment_arrived c w g = (c0, w0) ->
  rtc step (Link c0 w0 [] [] [] false None) l ->
  match l_refused l with
  | None =>
      l_taken l = take (length (l_taken l)) (l_given l) /\
      (l_end l = true -> l_taken l = l_given l /\ state (l_conn l) <> T_OPEN) /\
      (state (l_conn l) = T_OPEN -> rt_pending (c_snd (l_conn l)) = false -> l_taken l = l_given l)
  | Some q =>
      q <= zlen (l_given l) /\ take (Z.to_nat q) (l_taken l) = take (length (l_taken l)) (take (Z.to_nat q) (l_given l))
  end.
Proof.
  intros Hc Hg E Hst. destruct (steps_ok _ _ (opened_ok _ _ _ _ _ Hc Hg E) Hst) as [Hl Hs].
  pose proof (lk_taken l Hl) as Ht. unfold holds_at in Ht. destruct (l_refused l) as [q|] eqn:Er.
  { pose proof (lk_refused l Hl q Er) as Hq. split; [done|]. destruct Ht as (_ & Hlen & Ht).
    apply (list_eq_getz 0); [rewrite !length_take; lia|]. intros i Hi. rewrite length_take in Hi.
    rewrite !getz_take by lia. apply Ht; lia. }
  destruct Ht as (_ & Hle & Htk). rewrite drop_0 in Htk.
  assert (zlen (l_taken l) = zlen (l_given l) -> l_taken l = l_given l) as Hall.
  { intros He. rewrite Htk. replace (length (l_taken l)) with (length (l_given l)) by lia. apply firstn_all. }
  split; [done|]. split.
  - intros He. destruct (lk_end l Hl Er He) as [H1 H2]. split; [by apply Hall|]. by apply bool_decide_eq_false in H2.
  - intros Ho Hp. unfold settled in Hs. rewrite Hp in Hs. apply Hall, Hs; [done|]. by apply bool_decide_eq_true.
Qed.
End Link.

(** ** A conversation *)

Notation ticks := (fun n : Z => n).
Notation yes := (fun _ : Z => true).

Definition first_conn : tcpc :=
  fresh_conn (Conn true T_CLOSED 0 0 0 (Snd 0 0 (replicate (Z.to_nat RT_DATA) 0) 0 0 0 false 0 0 0)
                (Rcv 0 false (replicate (Z.to_nat RXCAP) 0) 0 [] false 0) false 1) 0x0A000002 80 45001 999.
Definition first_world : world := World 0 0 0 0 0 0 [].
Definition syn_ack : seg := Seg 4999 1000 (TH_SYN .| TH_ACK) [].
(** The page, its second half first. *)
Definition page : list Z := [104; 105; 33; 10].
Definition second_half : seg := Seg 5002 1003 (TH_ACK .| TH_FIN) [33; 10].
Definition first_half : seg := Seg 5000 1003 TH_ACK [104; 105].

(** An IP layer that takes two segments and no more. *)
Notation two := (fun n : Z => n <? 2).
Notation arrive := (segment_arrived ticks 0x0A00000F yes).
Definition on_arrival (l : link) (g : seg) : link :=
  upd l (arrive (l_conn l) (l_world l) g).1 (arrive (l_conn l) (l_world l) g).2.
Definition on_send (ip_ok : Z -> bool) (l : link) (data : list Z) : link :=
  let r := send_start ticks 0x0A00000F ip_ok (l_conn l) (l_world l) data in
  Link r.1.2 r.2 (l_read l) (given l r.1.1 data) (l_taken l) (l_end l) (refused l r.1.1 data).

Definition opened : link := Link (arrive first_conn first_world syn_ack).1 (arrive first_conn first_world syn_ack).2 [] [] [] false None.
Definition asked : link := on_send yes opened [71; 69; 84].
Definition request : Z * list Z := getz (0, []) (wire (l_world asked)) 1.
Definition heard : link := peer_takes 1000 asked (default syn_ack (parse request.2)).
Definition half : link := on_arrival heard second_half.
Definition full : link := on_arrival half first_half.

(** More of the request, which the IP layer refuses. *)
Definition asked_twice : link := on_send two heard [33; 33].

Example conversation :
  l_taken heard = [71; 69; 84] /\ rxlen (c_rcv (l_conn half)) = 0 /\ held (c_rcv (l_conn half)) = [(5002, 5004)] /\
  (hand_over (c_rcv (l_conn full)) 3).1 = [104; 105; 33] /\
  rcv_nxt (c_rcv (l_conn full)) = 5005 /\ got_fin (c_rcv (l_conn full)) = true.
Proof. vm_compute. repeat (split; [reflexivity|]). reflexivity. Qed.

Lemma first_opening : opening first_conn first_world.
Proof. split; [done|by vm_compute|by vm_compute|by vm_compute|constructor]. Qed.
Lemma syn_ack_answers : answer 5000 1000 syn_ack.
Proof. by vm_compute. Qed.
Lemma arrive_pair c w g : arrive c w g = ((arrive c w g).1, (arrive c w g).2).
Proof. by destruct arrive. Qed.

Notation walking ip_ok := (step ticks 100 0x0A00000F ip_ok page 5000 1000).
Notation walk := (walking yes).
Lemma walk_arrival l pos g : from_peer page 5000 1000 l pos g -> walk l (on_arrival l g).
Proof. intros H. exact (step_arrives _ _ _ _ _ _ _ l pos g _ _ H (arrive_pair _ _ _)). Qed.
Lemma walk_send ip_ok l data :
  state (l_conn l) = T_OPEN -> zlen (l_given l) + zlen data < 2147483647 -> walking ip_ok l (on_send ip_ok l data).
Proof. intros Ho Hl. apply (step_send _ _ _ _ _ _ _ l data _ _ _ Ho Hl). by destruct (send_start _ _ _ _ _ _) as [[??]?]. Qed.

Lemma asks : walk opened asked.
Proof. apply walk_send; vm_compute; reflexivity. Qed.
Lemma hears ip_ok : walking ip_ok asked heard.
Proof.
  apply (step_peer_takes _ _ _ _ _ _ _ asked request).
  - apply list_elem_of_In. vm_compute. right. by left.
  - by vm_compute.
  - by vm_compute.
Qed.
(** What two IP layers make of a segment is the same while they take the same. *)
Lemma sent_alike ip1 ip2 c w data : ip1 (sends w) = ip2 (sends w) ->
  send_start ticks 0x0A00000F ip1 c w data = send_start ticks 0x0A00000F ip2 c w data.
Proof. intros E. unfold send_start, send_reliable, timer_ticks, emit, np_ip_send. cbn [sends]. by rewrite E. Qed.
Lemma opened_alike ip1 ip2 : ip1 0 = ip2 0 ->
  segment_arrived ticks 0x0A00000F ip1 first_conn first_world syn_ack = segment_arrived ticks 0x0A00000F ip2 first_conn first_world syn_ack.
Proof.
  intros E. unfold segment_arrived. change (has (g_flags syn_ack) TH_RST) with false. rewrite bool_decide_eq_true_2 by done.
  cbv iota. destruct (_ =? _); [|done]. cbv zeta. unfold send_ack, emit, np_ip_send. change (sends first_world) with 0. by rewrite E.
Qed.
Lemma refused_walk : rtc (walking two) opened asked_twice.
Proof.
  assert (asked = on_send two opened [71; 69; 84]) as E.
  { unfold asked, on_send. rewrite (sent_alike yes two); [done|]. by vm_compute. }
  apply rtc_l with asked; [|apply rtc_l with heard; [apply hears|apply rtc_once]].
  - rewrite E. apply walk_send; vm_compute; reflexivity.
  - change asked_twice with (on_send two heard [33; 33]). apply walk_send; vm_compute; reflexivity.
Qed.
Lemma second_half_kept : kept heard = 0.
Proof. vm_compute. reflexivity. Qed.
Lemma first_half_kept : kept half = 0.
Proof. vm_compute. reflexivity. Qed.
Lemma halves : walk heard half.
Proof.
  apply (walk_arrival heard 2). split; [reflexivity|vm_compute; repeat split; discriminate|rewrite second_half_kept; vm_compute; by split|intros _; reflexivity|].
  intros _. exists 3. split; [vm_compute; split; discriminate|reflexivity].
Qed.
Lemma fulls : walk half full.
Proof.
  apply (walk_arrival half 0). split; [reflexivity|vm_compute; repeat split; discriminate|rewrite first_half_kept; vm_compute; by split|intros H; discriminate H|].
  intros _. exists 3. split; [vm_compute; split; discriminate|reflexivity].
Qed.
Lemma whole_walk : rtc walk opened full.
Proof.
  eapply rtc_l; [exact asks|]. eapply rtc_l; [apply hears|]. eapply rtc_l; [exact halves|]. eapply rtc_l; [exact fulls|]. constructor.
Qed.
Lemma full_got_fin : got_fin (c_rcv (l_conn full)) = true.
Proof. by vm_compute. Qed.
Lemma full_acked : rt_pending (c_snd (l_conn heard)) = true /\ l_end full = false.
Proof. by vm_compute. Qed.

Lemma stream_arrives_whole_witness :
  l_read full ++ take (Z.to_nat (rxlen (c_rcv (l_conn full)))) (rxbuf (c_rcv (l_conn full))) = page.
Proof.
  destruct (stream_arrives_whole ticks 100 0x0A00000F yes page 5000 1000 first_conn first_world syn_ack _ _ full
    first_opening syn_ack_answers (arrive_pair _ _ _) whole_walk) as (_ & _ & _ & _ & H & _).
  apply H, full_got_fin.
Defined.
Lemma asked_twice_refused : l_refused asked_twice = Some 3 /\ l_given asked_twice = [71; 69; 84] /\ l_taken asked_twice = [71; 69; 84].
Proof. by vm_compute. Qed.
Lemma sends_are_taken_in_order_witness :
  l_taken full = take (length (l_taken full)) (l_given full) /\
  take 3 (l_taken asked_twice) = take (length (l_taken asked_twice)) (take 3 (l_given asked_twice)).
Proof.
  split.
  - exact (proj1 (sends_are_taken_in_order ticks 100 0x0A00000F yes page 5000 1000 first_conn first_world syn_ack _ _ full
      first_opening syn_ack_answers (arrive_pair _ _ _) whole_walk)).
  - pose proof (sends_are_taken_in_order ticks 100 0x0A00000F two page 5000 1000 first_conn first_world syn_ack _ _ asked_twice
      first_opening syn_ack_answers (eq_trans (opened_alike two yes eq_refl) (arrive_pair _ _ _)) refused_walk) as H.
    rewrite (proj1 asked_twice_refused) in H. exact (proj2 H).
Defined.
