(* ===== verification/Sockets.v ===== *)
(** The table of connections of kernel/tcp.c and the calls on it: which connection a segment
    is for, the port a new one is given, and that every call comes back. *)
From S2P Require Import Prelude Tcp.

(** A connection segments may reach. *)
Definition live (c : tcpc) : bool := used c && negb (bool_decide (state c = T_CLOSED)).

(** What everything but opening does to a connection: it keeps its port, and does not come to
    life. *)
Record narrows (c c' : tcpc) : Prop := {
  nw_port : local_port c' = local_port c;
  nw_live : live c' = true -> live c = true;
  nw_idle : (used c = false -> state c = T_CLOSED) -> used c' = false -> state c' = T_CLOSED }.
Notation narrower := (Forall2 narrows).

#[export] Instance narrows_preorder : PreOrder narrows.
Proof.
  split; [done|]. intros a b c [H1 H2 H3] [H4 H5 H6]. split; [by rewrite H4|auto|auto].
Qed.

(** The two tables of connections agree but for the one at [h]. *)
Lemma narrower_put l h c c' : l !! h = Some c -> narrows c c' -> narrower l (<[h := c']> l).
Proof.
  intros E H. rewrite <- (list_insert_id l h c E) at 1. apply Forall2_insert; [reflexivity|done].
Qed.

Lemma demux_from_spec src dport sport l i h c :
  demux_from src dport sport l i = Some (h, c) ->
  (i <= h)%nat /\ l !! (h - i)%nat = Some c /\ wants src dport sport c = true.
Proof.
  revert i. induction l as [|c0 l IH]; intros i E; cbn [demux_from] in E; [done|].
  destruct (wants src dport sport c0) eqn:Ew.
  - injection E as <- <-. by rewrite Nat.sub_diag.
  - apply IH in E as (Hi & E & Hw). split; [lia|]. split; [|done].
    replace (h - i)%nat with (S (h - S i)) by lia. done.
Qed.
Lemma demux_from_none src dport sport l i :
  demux_from src dport sport l i = None -> Forall (fun c => wants src dport sport c = false) l.
Proof.
  revert i. induction l as [|c0 l IH]; intros i E; cbn [demux_from] in E; [done|].
  destruct (wants src dport sport c0) eqn:Ew; [done|]. constructor; [done|by apply IH with (S i)].
Qed.

Lemma wants_live src dport sport c : wants src dport sport c = true -> live c = true /\ local_port c = dport.
Proof. unfold wants, live. rewrite !andb_true_iff. intros [[[[? ?] ?%Z.eqb_eq] _] _]. done. Qed.

(** ** The port of a new connection *)

Definition candidate (next : Z) : Z := if (next <? 45000) || (61000 <=? next) then 45000 else next.
Lemma candidate_range next : 45000 <= candidate next < 61000.
Proof. unfold candidate. destruct ((_ <? _) || _) eqn:E; [lia|]. apply orb_false_iff in E as [?%Z.ltb_ge ?%Z.leb_gt]. lia. Qed.

Lemma port_taken_spec l h p :
  port_taken l h p = true <-> exists i c, i <> h /\ l !! i = Some c /\ live c = true /\ local_port c = p.
Proof.
  unfold port_taken, live. rewrite existsb_exists. split.
  - intros ([i c] & Hin & H). apply list_elem_of_In, elem_of_lookup_imap in Hin as (j & c' & [= -> ->] & E).
    apply andb_true_iff in H as [[[Hu Hj%negb_true_iff%Nat.eqb_neq]%andb_true_iff Hp%Z.eqb_eq]%andb_true_iff Hs].
    exists j, c'. by rewrite Hu, Hs.
  - intros (i & c & Hi & E & [Hu Hs]%andb_true_iff & Hp). exists (i, c). split; [apply list_elem_of_In, elem_of_lookup_imap; by exists i, c|].
    by rewrite Hu, Hs, (proj2 (Nat.eqb_neq _ _) Hi), (proj2 (Z.eqb_eq _ _) Hp).
Qed.

(** The ports tried in turn. *)
Fixpoint tried (guard : nat) (next : Z) : list Z :=
  match guard with O => [] | S guard => candidate next :: tried guard (u16 (candidate next + 1)) end.
Lemma tried_spec guard next i :
  (i < guard)%nat -> tried guard next !! i = Some (45000 + (candidate next - 45000 + Z.of_nat i) mod 16000).
Proof.
  revert next i. induction guard as [|guard IH]; intros next i Hi; [lia|]. cbn [tried]. pose proof (candidate_range next).
  destruct i as [|i].
  - cbn [lookup list_lookup]. f_equal. rewrite Z.mod_small by lia. lia.
  - cbn [lookup list_lookup]. rewrite IH by lia. f_equal. f_equal.
    assert (candidate (u16 (candidate next + 1)) - 45000 = (candidate next - 45000 + 1) mod 16000) as ->.
    { rewrite u16_id by (unfold is_word; lia). unfold candidate at 1. destruct (decide (candidate next = 60999)) as [->|].
      - done.
      - rewrite (proj2 (Z.ltb_ge _ _)), (proj2 (Z.leb_gt _ _)) by lia. cbn [orb]. rewrite Z.mod_small; lia. }
    rewrite Zplus_mod_idemp_l. f_equal. lia.
Qed.
Lemma tried_NoDup guard next : Z.of_nat guard <= 16000 -> NoDup (tried guard next).
Proof.
  intros Hg. apply NoDup_alt. intros i j x Hi Hj.
  assert (forall k, tried guard next !! k = Some x -> (k < guard)%nat) as Hlen.
  { intros k Hk. apply lookup_lt_Some in Hk. assert (forall g n, length (tried g n) = g) as Hl by (induction g; cbn; auto). by rewrite Hl in Hk. }
  pose proof (Hlen _ Hi). pose proof (Hlen _ Hj). rewrite tried_spec in Hi, Hj by done. simplify_eq.
  pose proof (candidate_range next). dlia.
Qed.

(** The first of the ports tried that is free, whatever the table holds. *)
Lemma pick_port_none guard l h next next' :
  pick_port guard l h next = (None, next') -> Forall (fun p => port_taken l h p = true) (tried guard next).
Proof.
  revert next. induction guard as [|guard IH]; intros next E; cbn [pick_port tried] in *; [constructor|].
  fold (candidate next) in E. destruct (port_taken l h (candidate next)) eqn:Et; [|done]. constructor; [done|by apply IH].
Qed.
Lemma pick_port_some guard l h next p next' :
  pick_port guard l h next = (Some p, next') -> 45000 <= p < 61000 /\ port_taken l h p = false.
Proof.
  revert next. induction guard as [|guard IH]; intros next E; cbn [pick_port] in *; [done|].
  fold (candidate next) in E. destruct (port_taken l h (candidate next)) eqn:Et; [by apply IH in E|].
  injection E as <- _. split; [apply candidate_range|done].
Qed.
Lemma pick_port_finds guard l h next :
  (length l < guard)%nat -> zlen l < 16000 -> exists p, (pick_port guard l h next).1 = Some p /\ 45000 <= p < 61000 /\ port_taken l h p = false.
Proof.
  intros Hg Hl. destruct (pick_port guard l h next) as [[p|] next'] eqn:E; [exists p; split; [done|by apply pick_port_some in E]|].
  exfalso. apply pick_port_none in E.
  assert (exists guard', guard = (S (length l) + guard')%nat) as [guard' ->] by (exists (guard - S (length l))%nat; lia).
  assert (forall a b n, take a (tried (a + b) n) = tried a n) as Ht by (induction a; intros; cbn [tried take Nat.add]; f_equal; auto).
  apply (Forall_take _ (S (length l))) in E. rewrite Ht in E.
  assert (tried (S (length l)) next ⊆ local_port <$> l) as Hsub.
  { intros p Hp. rewrite Forall_forall in E. apply list_elem_of_In in Hp. apply E in Hp. apply port_taken_spec in Hp as (i & c & _ & Ei & _ & <-).
    apply list_elem_of_fmap. exists c. split; [done|]. by apply list_elem_of_lookup_2 with i. }
  pose proof (submseteq_length _ _ (NoDup_submseteq _ _ (tried_NoDup (S (length l)) next ltac:(lia)) Hsub)) as Hle.
  rewrite length_fmap in Hle. assert (forall g n, length (tried g n) = g) as Hlen by (induction g; cbn; auto). rewrite Hlen in Hle. lia.
Qed.

(** ** What the operations do to the table *)

Section Calls.
Context (ticks : Z -> Z) (timer_hz net_ip : Z) (ip_ok : Z -> bool) (arrivals : Z -> list (Z * list Z)).

Notation emit := (emit net_ip ip_ok).
Notation send_ack := (send_ack net_ip ip_ok).
Notation send_reliable := (send_reliable ticks net_ip ip_ok).
Notation segment_arrived := (segment_arrived ticks net_ip ip_ok).
Notation pump_one := (pump_one ticks timer_hz net_ip ip_ok).
Notation tcp_input := (tcp_input ticks net_ip ip_ok).
Notation tcp_pump := (tcp_pump ticks timer_hz net_ip ip_ok).
Notation net_poll := (net_poll ticks net_ip ip_ok arrivals).
Notation wait_while := (wait_while ticks timer_hz net_ip ip_ok arrivals).
Notation tcp_open := (tcp_open ticks timer_hz net_ip ip_ok arrivals).
Notation tcp_send := (tcp_send ticks timer_hz net_ip ip_ok arrivals).
Notation tcp_recv := (tcp_recv ticks timer_hz net_ip ip_ok arrivals).
Notation tcp_close := (tcp_close ticks timer_hz net_ip ip_ok arrivals).

(** A connection keeps its slot and port, and the timer is only ever read further. *)
Definition keeps (c : tcpc) (w : world) (r : tcpc * world) : Prop :=
  used r.1 = used c /\ local_port r.1 = local_port c /\ clock w <= clock r.2.

#[local] Ltac kept := unfold keeps; cbn; split_and!; (done || lia).
Lemma emit_clock c w seq flags data : clock (emit c w seq flags data).2 = clock w.
Proof. unfold emit. destruct (quiet c); [done|]. by destruct (SEGMENT <? _). Qed.
Lemma send_ack_clock c w : clock (send_ack c w) = clock w.
Proof. apply emit_clock. Qed.
Lemma send_reliable_keeps c w seq flags data :
  keeps c w ((send_reliable c w seq flags data).1.2, (send_reliable c w seq flags data).2).
Proof.
  unfold keeps, send_reliable. destruct (RT_DATA <? _); [kept|]. unfold timer_ticks.
  match goal with |- context [emit ?c ?w ?s ?f ?d] => pose proof (emit_clock c w s f d) as H; destruct (emit c w s f d) end.
  cbn [fst snd clock] in *. kept.
Qed.
Lemma take_keeps c w seq data : keeps c w (tcp_take net_ip ip_ok c w seq data).
Proof.
  unfold keeps, tcp_take. destruct (_ && _); cbn [fst snd]; rewrite send_ack_clock; [kept|].
  by destruct (_ =? 0).
Qed.
Lemma fin_arrived_keeps c w : keeps c w (fin_arrived ticks net_ip ip_ok c w).
Proof.
  unfold fin_arrived. case_bool_decide; [|unfold keeps; cbn [fst snd]; rewrite send_ack_clock; kept].
  match goal with |- context [send_reliable ?c ?w ?s ?f ?d] => pose proof (send_reliable_keeps c w s f d) as Hk; destruct (send_reliable c w s f d) as [[??]?] end.
  unfold keeps in *. cbn [fst snd] in *. rewrite send_ack_clock in Hk. cbn in Hk. exact Hk.
Qed.
Lemma segment_arrived_keeps c w g : keeps c w (segment_arrived c w g).
Proof.
  unfold segment_arrived. destruct (has _ TH_RST); [done|]. case_bool_decide.
  - destruct (_ =? _); [|done]. unfold keeps. cbn [fst snd]. by rewrite send_ack_clock.
  - set (c1 := if has (g_flags g) TH_ACK then _ else c).
    assert (keeps c w (c1, w)) as H1 by (subst c1; by destruct (has _ TH_ACK)).
    destruct (match g_data g with [] => _ | _ => _ end) as [c2 w2] eqn:E2.
    assert (keeps c w (c2, w2)) as H2.
    { destruct (g_data g); [by injection E2 as <- <-|]. pose proof (take_keeps c1 w (g_seq g) (z :: l)) as H2. rewrite E2 in H2.
      unfold keeps in *. cbn [fst snd] in *. destruct H1 as (? & ? & ?), H2 as (? & ? & ?). split_and!; [congruence|congruence|lia]. }
    destruct (_ && _); [|exact H2]. pose proof (fin_arrived_keeps (with_rcv c2 (fin_noted (c_rcv c2) g)) w2) as H3.
    unfold keeps in *. cbn [fst snd] in *. cbn in H3. destruct H2 as (? & ? & ?), H3 as (? & ? & ?). split_and!; [congruence|congruence|lia].
Qed.
Lemma pump_one_keeps c w : keeps c w (pump_one c w) /\ (state c = T_CLOSED -> (pump_one c w).1 = c).
Proof.
  unfold pump_one. destruct (negb _ || _) eqn:E; [done|]. apply orb_false_iff in E as [_ E%bool_decide_eq_false]. split; [|done].
  unfold timer_ticks. destruct (_ <? _); [kept|]. destruct (MAX_RETRIES <=? _); [kept|].
  unfold keeps. cbn [fst snd]. rewrite emit_clock. kept.
Qed.

Lemma keeps_narrows c w r : keeps c w r -> live c = true -> narrows c r.1.
Proof.
  intros (Hu & Hp & _) Hl. split; [done|done|]. intros _ H. rewrite Hu in H. unfold live in Hl. rewrite H in Hl. done.
Qed.

(** The table narrows, and time goes on. *)
Definition follows (s s' : tcp) : Prop := narrower (conns s) (conns s') /\ clock (w_of s) <= clock (w_of s').
#[local] Instance follows_preorder : PreOrder follows.
Proof.
  split; [intros s; split; [reflexivity|lia]|]. intros a b c [H1 H2] [H3 H4]. split; [by etrans|lia].
Qed.

Lemma put_follows s h c c' w :
  conns s !! h = Some c -> narrows c c' -> clock (w_of s) <= clock w -> follows s (put s h c' w).
Proof. intros E Hn Hw. split; [by apply narrower_put with c|done]. Qed.

Lemma input_follows s src p : follows s (tcp_input s src p).
Proof.
  unfold tcp_input. destruct (zlen p <? HEADER); [reflexivity|].
  destruct (demux s src _ _) as [[h c]|] eqn:E; [|reflexivity]. destruct (parse p) as [g|]; [|reflexivity].
  apply demux_from_spec in E as (_ & E & Hw). rewrite Nat.sub_0_r in E. apply wants_live in Hw as [Hl _].
  pose proof (segment_arrived_keeps c (w_of s) g) as Hk. destruct (segment_arrived c (w_of s) g) as [c' w'].
  apply put_follows with c; [done|exact (keeps_narrows _ _ _ Hk Hl)|apply Hk].
Qed.
Lemma inputs_follow l s : follows s (foldl (fun s '(src, p) => tcp_input s src p) s l).
Proof.
  revert s. induction l as [|[src p] l IH]; intros s; cbn [foldl]; [reflexivity|]. etrans; [apply input_follows|apply IH].
Qed.
Lemma poll_follows s : follows s (net_poll s).
Proof. unfold net_poll. etrans; [|apply inputs_follow]. split; [reflexivity|cbn; lia]. Qed.
Lemma pump_follows s : follows s (tcp_pump s).
Proof.
  unfold tcp_pump. assert (forall l w, let '(l', w') := pump_all ticks timer_hz net_ip ip_ok l w in narrower l l' /\ clock w <= clock w') as H.
  { induction l as [|c l IH]; intros w; cbn [pump_all]; [split; [constructor|lia]|].
    pose proof (pump_one_keeps c w) as [Hk Hc]. destruct (used c) eqn:Eu.
    - destruct (pump_one c w) as [c' w']. specialize (IH w'). destruct (pump_all _ _ _ _ l w') as [l' w'']. destruct IH as [H1 H2].
      split; [|destruct Hk as (_ & _ & Hk); cbn [snd] in Hk; lia]. constructor; [|done].
      destruct (decide (state c = T_CLOSED)) as [Hs|Hs]; [by rewrite <- (Hc Hs) at 1|].
      apply (keeps_narrows _ _ _ Hk). unfold live. by rewrite Eu, bool_decide_eq_false_2.
    - specialize (IH w). destruct (pump_all _ _ _ _ l w) as [l' w'']. destruct IH as [H1 H2]. split; [constructor; [reflexivity|done]|done]. }
  specialize (H (conns s) (w_of s)). by destruct pump_all.
Qed.
Lemma now_follows s : follows s (now ticks s).2 /\ clock (w_of (now ticks s).2) = clock (w_of s) + 1.
Proof. split; [|done]. split; [reflexivity|cbn; lia]. Qed.

Lemma wait_follows fuel busy stop deadline h s s' : wait_while fuel busy stop deadline h s = Some s' -> follows s s'.
Proof.
  revert s. induction fuel as [|fuel IH]; intros s E; cbn [Tcp.wait_while] in E; [done|].
  destruct (at_slot s h busy); [|by injection E as <-]. pose proof (now_follows s) as [Hn _].
  destruct (now ticks s) as [t s1]. cbn [snd] in Hn. destruct (t <? deadline); [|by injection E as <-].
  assert (follows s (tcp_pump (net_poll s1))) as Hp by (etrans; [exact Hn|]; etrans; [apply poll_follows|apply pump_follows]).
  destruct (at_slot _ h stop); [by injection E as <-|]. etrans; [exact Hp|by apply IH].
Qed.

(** The loop ends once the timer has passed the deadline for good. *)
Lemma wait_ends busy stop deadline h n fuel s :
  (forall m, n <= m -> deadline <= ticks m) -> Z.max 0 (n - clock (w_of s)) < Z.of_nat fuel ->
  exists s', wait_while fuel busy stop deadline h s = Some s'.
Proof.
  intros Hn. revert s. induction fuel as [|fuel IH]; intros s Hf; cbn [Tcp.wait_while].
  - lia.
  - destruct (at_slot s h busy); [|by eexists]. pose proof (now_follows s) as [_ Hc]. unfold now, timer_ticks in *. cbn [snd w_of clock] in Hc.
    destruct (Z.ltb_spec (ticks (clock (w_of s))) deadline); [|by eexists].
    set (s1 := Tcp _ _ _). destruct (at_slot _ h stop); [by eexists|]. apply IH.
    pose proof (poll_follows s1) as [_ H1]. pose proof (pump_follows (net_poll s1)) as [_ H2]. subst s1. cbn [w_of clock] in *.
    destruct (decide (n <= clock (w_of s))) as [Hle|]; [specialize (Hn _ Hle)|]; lia.
Qed.

(** ** The calls *)

Lemma slot_spec s h c : slot s h = Some c -> 0 <= h < TCP_MAX /\ conns s !! Z.to_nat h = Some c /\ used c = true.
Proof.
  unfold slot. destruct ((h <? 0) || (TCP_MAX <=? h)) eqn:E; [done|]. apply orb_false_iff in E as [?%Z.ltb_ge ?%Z.leb_gt].
  destruct (conns s !! Z.to_nat h) as [c0|]; [|done]. destruct (used c0) eqn:Eu; [|done]. intros [= ->]. done.
Qed.
Lemma deadline_follows s t : follows s (deadline_ms ticks timer_hz s t).2.
Proof. split; [reflexivity|cbn; lia]. Qed.

Lemma send_start_keeps c w data : keeps c w ((send_start ticks net_ip ip_ok c w data).1.2, (send_start ticks net_ip ip_ok c w data).2).
Proof.
  unfold send_start. match goal with |- context [send_reliable ?c ?w ?s ?f ?d] => pose proof (send_reliable_keeps c w s f d) as H; destruct (send_reliable c w s f d) as [[[]?]?] end; exact H.
Qed.
Lemma close_start_keeps c w : keeps c w (close_start ticks net_ip ip_ok c w).
Proof.
  unfold close_start. match goal with |- context [send_reliable ?c ?w ?s ?f ?d] => pose proof (send_reliable_keeps c w s f d) as H; destruct (send_reliable c w s f d) as [[??]?] end. exact H.
Qed.
Lemma recv_now_clock c w cap : clock (recv_now net_ip ip_ok c w cap).2 = clock w.
Proof.
  unfold recv_now. destruct (hand_over _ cap) as [out r]. cbn [snd]. destruct out; [done|]. case_bool_decide; [apply send_ack_clock|done].
Qed.
Lemma recv_now_narrows c w cap : narrows c (recv_now net_ip ip_ok c w cap).1.2.
Proof. unfold recv_now. by destruct (hand_over _ cap). Qed.
Lemma let_go_narrows c : narrows c (let_go c).
Proof. split; [done| |done]. unfold live. cbn. done. Qed.
Lemma lost_follows s h : follows s (lost s h).
Proof.
  unfold lost. destruct (conns s !! h) as [c|] eqn:E; [|reflexivity]. apply put_follows with c; [done| |lia]. split; [done| |done].
  unfold live. cbn. done.
Qed.

Lemma send_follows fuel s h data b s' : tcp_send fuel s h data = Some (b, s') -> follows s s'.
Proof.
  unfold Tcp.tcp_send. destruct (slot s h) as [c|] eqn:E; [|by intros [= _ <-]]. apply slot_spec in E as (_ & E & Hu).
  case_bool_decide as Ho; cbn [negb]; [|by intros [= _ <-]].
  pose proof (send_start_keeps c (w_of s) data) as Hk. destruct (send_start _ _ _ _ _ _) as [[ok c'] w'].
  assert (follows s (put s (Z.to_nat h) c' w')) as Hp.
  { apply put_follows with c; [done| |apply Hk]. apply (keeps_narrows _ _ _ Hk). unfold live. by rewrite Hu, Ho. }
  destruct ok; cbn [negb]; [|by intros [= _ <-]]. pose proof (now_follows (put s (Z.to_nat h) c' w')) as [Hn _].
  destruct (now ticks _) as [t s1]. destruct (wait_while _ _ _ _ _ _) as [s2|] eqn:Ew; [|done]. intros [= _ <-].
  etrans; [exact Hp|]. etrans; [exact Hn|]. by apply wait_follows in Ew.
Qed.
Lemma recv_follows fuel s h cap t out s' : tcp_recv fuel s h cap t = Some (out, s') -> follows s s'.
Proof.
  unfold Tcp.tcp_recv. destruct (slot s h) as [c|]; [|by intros [= _ <-]].
  pose proof (deadline_follows s t) as Hd. destruct (deadline_ms _ _ _ _) as [d s1]. cbn [snd] in Hd.
  destruct (wait_while _ _ _ _ _ _) as [s2|] eqn:Ew; [|done]. apply wait_follows in Ew. cbn [mbind option_bind].
  destruct (conns s2 !! Z.to_nat h) as [c2|] eqn:E; [|done].
  pose proof (recv_now_clock c2 (w_of s2) cap) as Hc. pose proof (recv_now_narrows c2 (w_of s2) cap) as Hn.
  destruct (recv_now _ _ _ _ _) as [[out' c3] w3]. intros [= _ <-].
  etrans; [exact Hd|]. etrans; [apply poll_follows|]. etrans; [exact Ew|]. apply put_follows with c2; [done|done|cbn in Hc; lia].
Qed.
Lemma close_follows fuel s h s' : tcp_close fuel s h = Some s' -> follows s s'.
Proof.
  unfold Tcp.tcp_close. destruct (slot s h) as [c|] eqn:E; [|by intros [= <-]]. apply slot_spec in E as (_ & E & Hu).
  destruct (if bool_decide (state c = T_OPEN) then _ else _) as [s1|] eqn:E1; [|done]. cbn [mbind option_bind].
  assert (follows s s1) as H1.
  { case_bool_decide as Ho; [|by injection E1 as <-]. pose proof (close_start_keeps c (w_of s)) as Hk.
    destruct (close_start _ _ _ _ _) as [c' w'].
    pose proof (now_follows (put s (Z.to_nat h) c' w')) as [Hn _]. destruct (now ticks _) as [t s2]. apply wait_follows in E1.
    etrans; [|etrans; [exact Hn|exact E1]]. apply put_follows with c; [done| |apply Hk].
    apply (keeps_narrows _ _ _ Hk). unfold live. by rewrite Hu, Ho. }
  destruct (conns s1 !! Z.to_nat h) as [c1|] eqn:Ec; [|done]. intros [= <-]. etrans; [exact H1|].
  apply put_follows with c1; [done|apply let_go_narrows|lia].
Qed.
Lemma abandon_follows s pid : follows s (tcp_abandon s pid).
Proof.
  unfold tcp_abandon. destruct (pid =? 0); [reflexivity|]. split; [|cbn; lia]. cbn [conns].
  induction (conns s) as [|c l IH]; cbn [fmap list_fmap]; constructor; [|done]. destruct (_ && _); [apply let_go_narrows|reflexivity].
Qed.
Lemma give_follows s h pid : follows s (tcp_give_to s h pid).
Proof.
  unfold tcp_give_to. destruct (slot s h) as [c|] eqn:E; [|reflexivity]. apply slot_spec in E as (_ & E & _).
  by apply put_follows with c; [| |lia].
Qed.

(** ** The ports *)

Record table_ok (s : tcp) : Prop := {
  tb_len : length (conns s) = 6%nat;
  tb_idle : forall i c, conns s !! i = Some c -> used c = false -> state c = T_CLOSED;
  tb_apart : forall i j c c', i <> j -> conns s !! i = Some c -> conns s !! j = Some c' ->
    live c = true -> live c' = true -> local_port c <> local_port c' }.

Lemma follows_table s s' : follows s s' -> table_ok s -> table_ok s'.
Proof.
  intros [Hf _] [Hl Hi Ha]. split.
  - by rewrite <- (Forall2_length Hf).
  - intros i c' Hc' Hu. destruct (Forall2_lookup_r _ _ _ _ _ Hf Hc') as (c & Hc & [Hp Hlv Hid]). apply Hid; [by apply Hi with i|done].
  - intros i j c c' Hij Hc Hc' Hlc Hlc'.
    destruct (Forall2_lookup_r _ _ _ _ _ Hf Hc) as (d & Hd & [Hp Hlv _]), (Forall2_lookup_r _ _ _ _ _ Hf Hc') as (d' & Hd' & [Hp' Hlv' _]).
    rewrite Hp, Hp'. apply (Ha i j); auto.
Qed.

Lemma take_slot_spec s alloc pid h s' :
  table_ok s -> take_slot s alloc pid = (Some h, s') ->
  exists c, conns s' = <[h := c]> (conns s) /\ (h < 6)%nat /\ used c = true /\ state c = T_CLOSED /\ w_of s' = w_of s /\ next_port s' = next_port s.
Proof.
  intros [Hl Hi _]. unfold take_slot. destruct (free_slot (conns s) 0) as [k|] eqn:Ef; [|done].
  assert (forall l i k, free_slot l i = Some k -> (i <= k)%nat /\ exists c, l !! (k - i)%nat = Some c /\ used c = false) as Hfree.
  { induction l as [|c l IH]; intros i k' E; cbn [free_slot] in E; [done|]. destruct (used c) eqn:Eu.
    - apply IH in E as (? & c' & E & ?). split; [lia|]. exists c'. by replace (k' - i)%nat with (S (k' - S i)) by lia.
    - injection E as <-. split; [lia|]. exists c. by rewrite Nat.sub_diag. }
  apply Hfree in Ef as (_ & c & Ec & Hu). rewrite Nat.sub_0_r in Ec. rewrite Ec.
  destruct (match rxbuf (c_rcv c) with [] => _ | _ => _ end) as [b|]; [|done]. intros [= <- <-].
  exists (with_owner (with_rcv (with_used c true) (Rcv (rcv_nxt (c_rcv c)) (got_fin (c_rcv c)) b (rxlen (c_rcv c)) (held (c_rcv c)) (fin_held (c_rcv c)) (fin_at (c_rcv c)))) pid).
  apply lookup_lt_Some in Ec as Hlt. split_and!; try done; [lia|]. exact (Hi k c Ec Hu).
Qed.
Lemma take_slot_none s alloc pid s' : take_slot s alloc pid = (None, s') -> s' = s.
Proof.
  unfold take_slot. destruct (free_slot _ _) as [h|]; [|by intros [= <-]]. destruct (conns s !! h) as [c|]; [|by intros [= <-]].
  destruct (match rxbuf (c_rcv c) with [] => _ | _ => _ end); [done|by intros [= <-]].
Qed.

Lemma take_slot_there s alloc pid h s' : take_slot s alloc pid = (Some h, s') -> is_Some (conns s' !! h).
Proof.
  unfold take_slot. destruct (free_slot _ _) as [k|]; [|done]. destruct (conns s !! k) as [c|] eqn:E; [|done].
  destruct (match rxbuf (c_rcv c) with [] => _ | _ => _ end); [|done]. intros [= <- <-]. cbn [put conns].
  apply lookup_lt_Some in E. rewrite list_lookup_insert_eq by done. by eexists.
Qed.

(** Adding a connection whose port no other has. *)
Lemma table_put s h c0 c w :
  table_ok s -> conns s !! h = Some c0 -> used c = true -> port_taken (conns s) h (local_port c) = false -> table_ok (put s h c w).
Proof.
  intros [Hl Hi Ha] E Hu Hp. pose proof (lookup_lt_Some _ _ _ E) as Hlt.
  assert (forall i d, i <> h -> conns s !! i = Some d -> live d = true -> local_port d <> local_port c) as Hfresh.
  { intros i d Hih Hd Hld Hx. rewrite (proj2 (port_taken_spec (conns s) h (local_port c))) in Hp; [done|]. by exists i, d. }
  split; cbn [put conns].
  - by rewrite length_insert.
  - intros i d. destruct (decide (i = h)) as [->|].
    + rewrite list_lookup_insert_eq by done. intros [= <-]. by rewrite Hu.
    + rewrite list_lookup_insert_ne by done. apply Hi.
  - intros i j d d' Hij. destruct (decide (i = h)) as [->|], (decide (j = h)) as [->|]; rewrite ?list_lookup_insert_eq by done; rewrite ?list_lookup_insert_ne by done.
    + done.
    + intros [= <-] Hd _ Hld Hx. by apply (Hfresh j d').
    + intros Hd [= <-] Hld _. by apply (Hfresh i d).
    + by apply Ha.
Qed.
Lemma port_taken_insert l h c p : port_taken (<[h := c]> l) h p = port_taken l h p.
Proof.
  apply eq_true_iff_eq. rewrite !port_taken_spec. split; intros (i & d & Hi & E & ?); exists i, d; (split; [done|]).
  - by rewrite list_lookup_insert_ne in E by done.
  - by rewrite list_lookup_insert_ne by done.
Qed.

Lemma open_spec fuel s alloc pid ip port t r s' :
  table_ok s -> tcp_open fuel s alloc pid ip port t = Some (r, s') ->
  table_ok s' /\ (0 <= r -> exists c, conns s' !! Z.to_nat r = Some c /\ live c = true /\ 45000 <= local_port c < 61000).
Proof.
  intros Hs. unfold Tcp.tcp_open. set (s0 := if next_port s =? 0 then _ else s).
  assert (table_ok s0) as H0 by (subst s0; destruct (next_port s =? 0); [by destruct Hs|done]). clearbody s0.
  destruct (take_slot s0 alloc pid) as [[h|] s1] eqn:Et; [|intros [= <- <-]; apply take_slot_none in Et as ->; split; [done|lia]].
  destruct (take_slot_spec _ _ _ _ _ H0 Et) as (c & Hc & Hh & Hu & Hst & Hw & Hnp).
  assert (conns s1 !! h = Some c) as E1 by (rewrite Hc; apply list_lookup_insert_eq; by rewrite (tb_len _ H0)). rewrite E1.
  assert (table_ok s1) as H1.
  { destruct H0 as [Hl Hi Ha]. split.
    - by rewrite Hc, length_insert.
    - intros i d. rewrite Hc. destruct (decide (i = h)) as [->|]; [rewrite list_lookup_insert_eq by lia; intros [= <-]; by rewrite Hu|].
      rewrite list_lookup_insert_ne by done. apply Hi.
    - assert (live c = false) as Hlv by (unfold live; by rewrite Hst, Hu).
      intros i j d d' Hij. rewrite Hc. destruct (decide (i = h)) as [->|], (decide (j = h)) as [->|]; rewrite ?list_lookup_insert_eq by lia; rewrite ?list_lookup_insert_ne by done; try congruence.
      by apply Ha. }
  destruct (pick_port_finds 65536 (conns s1) h (next_port s1)) as (p & Hp & Hpr & Hpt); [rewrite (tb_len _ H1); apply Nat.ltb_lt; vm_compute; reflexivity|rewrite (tb_len _ H1); lia|].
  destruct (pick_port 65536 (conns s1) h (next_port s1)) as [got next]. cbn [fst] in Hp. subst got. cbn [default from_option].
  destruct (now ticks (Tcp (conns s1) next (w_of s1))) as [t0 s2] eqn:En. assert (conns s2 = conns s1) as E2 by by injection En as _ <-.
  set (iss := _ .^ _). match goal with |- context [send_reliable ?c ?w ?s ?f ?d] => pose proof (send_reliable_keeps c w s f d) as Hk; destruct (send_reliable c w s f d) as [[ok c'] w'] end.
  destruct Hk as (Hk1 & Hk2 & _). cbn [fst snd fresh_conn used local_port] in Hk1, Hk2. unfold id in Hk2. rewrite Hu in Hk1.
  assert (table_ok (put s2 h c' w')) as H3.
  { apply table_put with c; [|by rewrite E2|done|by rewrite E2, Hk2]. destruct H1 as [? ? ?]. split; by rewrite E2. }
  destruct ok; cbn [negb]; [|intros [= <- <-]; split; [|intros; lia]; by apply (follows_table _ _ (lost_follows (put s2 h c' w') h))].
  pose proof (deadline_follows (put s2 h c' w') t) as Hd. destruct (deadline_ms _ _ _ _) as [dl s3]. cbn [snd] in Hd.
  destruct (wait_while _ _ _ _ _ _) as [s4|] eqn:Ew; [|done]. apply wait_follows in Ew. cbn [mbind option_bind].
  assert (follows (put s2 h c' w') s4) as Hf by (etrans; [exact Hd|exact Ew]). pose proof (follows_table _ _ Hf H3) as H4.
  destruct (at_slot s4 h _) eqn:Eo; intros [= <- <-]; [|split; [|intros; lia]; by apply (follows_table _ _ (lost_follows s4 h))].
  split; [done|]. intros _. rewrite Nat2Z.id. unfold at_slot in Eo. destruct (conns s4 !! h) as [c4|] eqn:E4; [|done].
  apply bool_decide_eq_true in Eo. exists c4. split; [done|].
  destruct Hf as [Hn _]. destruct (Forall2_lookup_r _ _ _ _ _ Hn E4) as (d & Hdl & [Hpd _ Hid]). cbn [put conns] in Hdl.
  rewrite list_lookup_insert_eq in Hdl by (rewrite E2, (tb_len _ H1); lia). injection Hdl as <-. split; [|rewrite Hpd, Hk2; lia].
  unfold live. rewrite Eo. destruct (used c4) eqn:E; [done|]. specialize (Hid ltac:(by rewrite Hk1) eq_refl). congruence.
Qed.

(** A call, or a segment that arrives, or the timer's turn. *)
Inductive call (s : tcp) : tcp -> Prop :=
  | call_input src p : call s (tcp_input s src p)
  | call_pump : call s (tcp_pump s)
  | call_open fuel alloc pid ip port t r s' : tcp_open fuel s alloc pid ip port t = Some (r, s') -> call s s'
  | call_send fuel h data b s' : tcp_send fuel s h data = Some (b, s') -> call s s'
  | call_recv fuel h cap t out s' : tcp_recv fuel s h cap t = Some (out, s') -> call s s'
  | call_close fuel h s' : tcp_close fuel s h = Some s' -> call s s'
  | call_abandon pid : call s (tcp_abandon s pid)
  | call_give h pid : call s (tcp_give_to s h pid).

Lemma call_table s s' : call s s' -> table_ok s -> table_ok s'.
Proof.
  intros Hc Hs. destruct Hc as [src p| |fuel alloc pid ip port t r s' E|fuel h data b s' E|fuel h cap t out s' E|fuel h s' E|pid|h pid].
  - by apply (follows_table s); [apply input_follows|].
  - by apply (follows_table s); [apply pump_follows|].
  - by apply open_spec in E as [? _].
  - by apply (follows_table s); [apply send_follows in E|].
  - by apply (follows_table s); [apply recv_follows in E|].
  - by apply (follows_table s); [apply close_follows in E|].
  - by apply (follows_table s); [apply abandon_follows|].
  - by apply (follows_table s); [apply give_follows|].
Qed.

(** At the start no slot is in use. *)
Definition idle (s : tcp) : Prop :=
  length (conns s) = 6%nat /\ Forall (fun c => used c = false /\ state c = T_CLOSED) (conns s).
Lemma idle_table s : idle s -> table_ok s.
Proof.
  intros [Hl Hf]. rewrite Forall_forall in Hf. split; [done| |].
  - intros i c E _. apply Hf, list_elem_of_In. by apply list_elem_of_lookup_2 with i.
  - intros i j c c' _ E _ Hlv. destruct (Hf c) as [Hu _]; [apply list_elem_of_In; by apply list_elem_of_lookup_2 with i|].
    unfold live in Hlv. by rewrite Hu in Hlv.
Qed.
Lemma calls_table s s' : rtc call s s' -> table_ok s -> table_ok s'.
Proof. induction 1; eauto using call_table. Qed.

(** C18: Whatever calls are made, one after another, and whatever arrives, between them
    and while they wait: no two live connections have one port, so a segment changes no
    connection but the one whose peer and port it carries, and reaches that one whenever there
    is one; and opening gives a port of the range for it that no other live connection has. *)
Theorem segments_reach_their_connection s0 s :
  idle s0 -> rtc call s0 s ->
  (forall i j c c', i <> j -> conns s !! i = Some c -> conns s !! j = Some c' -> live c = true -> live c' = true ->
     local_port c <> local_port c') /\
  (forall src p h c, conns s !! h = Some c -> wants src (be_val (take 2 (drop 2 p))) (be_val (take 2 p)) c = false ->
     conns (tcp_input s src p) !! h = Some c) /\
  (forall src p g h c, conns s !! h = Some c -> wants src (be_val (take 2 (drop 2 p))) (be_val (take 2 p)) c = true ->
     HEADER <= zlen p -> parse p = Some g ->
     conns (tcp_input s src p) = <[h := (segment_arrived c (w_of s) g).1]> (conns s)) /\
  (forall fuel alloc pid ip port t r s', tcp_open fuel s alloc pid ip port t = Some (r, s') -> 0 <= r ->
     exists c, conns s' !! Z.to_nat r = Some c /\ live c = true /\ 45000 <= local_port c < 61000 /\
       forall i c', i <> Z.to_nat r -> conns s' !! i = Some c' -> live c' = true -> local_port c' <> local_port c).
Proof.
  intros H0 Hst. pose proof (calls_table _ _ Hst (idle_table _ H0)) as Hs. split_and!.
  - intros i j c c' Hn Ei Ej Hl Hl'. by apply (tb_apart _ Hs i j).
  - intros src p h c E Hw. unfold Tcp.tcp_input. destruct (zlen p <? HEADER); [done|].
    destruct (demux s src _ _) as [[k d]|] eqn:Ed; [|done]. destruct (parse p) as [g|]; [|done].
    apply demux_from_spec in Ed as (_ & Ed & Hwd). rewrite Nat.sub_0_r in Ed.
    destruct (segment_arrived d (w_of s) g) as [d' w']. cbn [put conns].
    rewrite list_lookup_insert_ne; [done|]. intros ->. rewrite E in Ed. injection Ed as <-. congruence.
  - intros src p g h c E Hw Hlen Hg. unfold Tcp.tcp_input. rewrite (proj2 (Z.ltb_ge _ _)) by done.
    destruct (demux s src _ _) as [[k d]|] eqn:Ed.
    + apply demux_from_spec in Ed as (_ & Ed & Hwd). rewrite Nat.sub_0_r in Ed. rewrite Hg.
      assert (k = h) as ->.
      { destruct (decide (k = h)) as [|Hn]; [done|]. apply wants_live in Hw as [Hl Hp], Hwd as [Hl' Hp'].
        destruct (tb_apart _ Hs k h d c Hn Ed E Hl' Hl). by rewrite Hp, Hp'. }
      rewrite E in Ed. injection Ed as <-. by destruct (segment_arrived c (w_of s) g).
    + apply demux_from_none in Ed. rewrite Forall_forall in Ed. rewrite Ed in Hw; [done|]. apply list_elem_of_In. by apply list_elem_of_lookup_2 with h.
  - intros fuel alloc pid ip port t r s' E Hr. destruct (open_spec _ _ _ _ _ _ _ _ _ Hs E) as [Hs' Hc].
    destruct (Hc Hr) as (c & Ec & Hl & Hp). exists c. split_and!; [done|done|lia|lia|].
    intros i c' Hi Ec' Hl'. by apply (tb_apart _ Hs' i (Z.to_nat r)).
Qed.

(** ** Every call comes back *)

(** C40: Whatever arrives or does not, opening, sending, receiving and closing all come
    back once the timer has gone on for long enough. *)
Theorem calls_come_back s :
  length (conns s) = 6%nat -> (forall t, exists n, forall m, n <= m -> t <= ticks m) ->
  (forall alloc pid ip port t, exists fuel r, tcp_open fuel s alloc pid ip port t = Some r) /\
  (forall h data, exists fuel r, tcp_send fuel s h data = Some r) /\
  (forall h cap t, exists fuel r, tcp_recv fuel s h cap t = Some r) /\
  (forall h, exists fuel r, tcp_close fuel s h = Some r).
Proof.
  intros Hlen Ht.
  assert (forall busy stop deadline h s, exists fuel s', wait_while fuel busy stop deadline h s = Some s') as Hw.
  { intros busy stop deadline h s0. destruct (Ht deadline) as [n Hn]. exists (S (Z.to_nat (n - clock (w_of s0)))). apply wait_ends with n; [done|lia]. }
  split_and!.
  - intros alloc pid ip port t. unfold Tcp.tcp_open. set (s0 := if next_port s =? 0 then _ else s). clearbody s0.
    destruct (take_slot s0 alloc pid) as [[h|] s1] eqn:Et; [|by exists 0%nat, (-1, s1)].
    destruct (conns s1 !! h) as [c|] eqn:Ec; [|exfalso; destruct (take_slot_there _ _ _ _ _ Et) as [? Hx]; congruence].
    destruct (pick_port 65536 (conns s1) h (next_port s1)) as [got next]. destruct (now ticks _) as [t0 s2].
    destruct (send_reliable _ _ _ _ _) as [[ok c'] w']. destruct ok; cbn [negb]; [|by exists 0%nat; eexists].
    destruct (deadline_ms _ _ _ _) as [dl s3].
    destruct (Hw (fun c => bool_decide (state c = T_SYNSENT)) (fun _ => false) dl h s3) as (fuel & s4 & E). exists fuel. rewrite E.
    cbn [mbind option_bind]. destruct (at_slot s4 h _); by eexists.
  - intros h data. unfold Tcp.tcp_send. destruct (slot s h) as [c|]; [|by exists 0%nat; eexists].
    destruct (negb _); [by exists 0%nat; eexists|]. destruct (send_start _ _ _ _ _ _) as [[ok c'] w']. destruct ok; cbn [negb]; [|by exists 0%nat; eexists].
    destruct (now ticks _) as [t0 s2].
    destruct (Hw (fun c => rt_pending (c_snd c) && bool_decide (state c = T_OPEN)) (fun _ => false) (u64 (t0 + u32 (timer_hz * 8))) (Z.to_nat h) s2) as (fuel & s4 & E).
    exists fuel. rewrite E. by eexists.
  - intros h cap t. unfold Tcp.tcp_recv. destruct (slot s h) as [c|] eqn:Es; [|by exists 0%nat; eexists].
    apply slot_spec in Es as (Hh & Es & _). pose proof (deadline_follows s t) as Hd. destruct (deadline_ms _ _ _ _) as [dl s3]. cbn [snd] in Hd.
    destruct (Hw (fun c => rxlen (c_rcv c) =? 0) over dl (Z.to_nat h) (net_poll s3)) as (fuel & s4 & E). exists fuel. rewrite E.
    cbn [mbind option_bind]. apply wait_follows in E.
    assert (follows s s4) as [Hf _] by (etrans; [exact Hd|]; etrans; [apply poll_follows|exact E]).
    destruct (Forall2_lookup_l _ _ _ _ _ Hf Es) as (c4 & -> & _). destruct (recv_now _ _ _ _ _) as [[??]?]. by eexists.
  - intros h. unfold Tcp.tcp_close. destruct (slot s h) as [c|] eqn:Es; [|by exists 0%nat; eexists].
    apply slot_spec in Es as (Hh & Es & Hu). case_bool_decide as Ho.
    + pose proof (close_start_keeps c (w_of s)) as Hk. destruct (close_start _ _ _ _ _) as [c' w'].
      pose proof (now_follows (put s (Z.to_nat h) c' w')) as [Hn _]. destruct (now ticks _) as [t0 s2]. cbn [snd] in Hn.
      destruct (Hw (fun c => bool_decide (state c = T_CLOSING)) (fun _ => false) (u64 (t0 + u32 (timer_hz * 2))) (Z.to_nat h) s2) as (fuel & s4 & E). exists fuel. rewrite E.
      cbn [mbind option_bind]. apply wait_follows in E.
      assert (follows s s4) as [Hf _].
      { etrans; [|etrans; [exact Hn|exact E]]. apply put_follows with c; [done| |apply Hk]. apply (keeps_narrows _ _ _ Hk). unfold live. by rewrite Hu, Ho. }
      destruct (Forall2_lookup_l _ _ _ _ _ Hf Es) as (c4 & -> & _). by eexists.
    + exists 0%nat. cbn [mbind option_bind]. rewrite Es. by eexists.
Qed.
End Calls.

(** ** Runs *)

Notation secs := (fun n : Z => n).
Notation yes := (fun _ : Z => true).
Notation here := 0x0A00000F.
Notation there := 0x0A000002.

Definition no_sender : sender := Snd 0 0 (replicate (Z.to_nat RT_DATA) 0) 0 0 0 false 0 0 0.
Definition no_conn : tcpc := Conn false T_CLOSED 0 0 0 no_sender (Rcv 0 false [] 0 [] false 0) false 0.
Definition no_world : world := World 0 0 0 0 0 0 [].
Definition no_table : tcp := Tcp (replicate 6 no_conn) 0 no_world.
(** The peer, as far as its segments go, and what it sends. *)
Definition far_end (port : Z) : tcpc := Conn true T_OPEN here port 80 no_sender (Rcv 100 false [] 0 [] false 0) false 0.
Definition from_far (port seq flags : Z) (data : list Z) : Z * list Z := (there, segment (far_end port) seq flags [] data 0).
Definition buffer : list Z := replicate (Z.to_nat RXCAP) 0.
Definition syn_ack_first (n : Z) : list (Z * list Z) := if n =? 0 then [from_far 45000 4999 (TH_SYN .| TH_ACK) []] else [].

(** A connection that is open, the first of the table. *)
Definition open_conn : tcpc :=
  Conn true T_OPEN there 80 45000 (Snd 100 100 (replicate (Z.to_nat RT_DATA) 0) 0 0 0 false 0 0 0) (Rcv 500 false buffer 0 [] false 0) false 1.
Definition one_open : tcp := Tcp (open_conn :: replicate 5 no_conn) 45001 no_world.
(** Where in the stream, and with what, each segment went out. *)
Definition went_out (s : tcp) : list (Z * list Z) :=
  omap (fun m => (fun g => (g_seq g, g_data g)) <$> parse m.2) (wire (w_of s)).
Definition after {A} (r : option (A * tcp)) : tcp := if r is Some (_, s) then s else no_table.

Lemma first_open :
  exists s, tcp_open secs 100 here yes syn_ack_first 3 no_table (Some buffer) 7 there 80 1000 = Some (0, s).
Proof.
  assert (fst <$> tcp_open secs 100 here yes syn_ack_first 3 no_table (Some buffer) 7 there 80 1000 = Some 0) as H by (vm_compute; reflexivity).
  destruct (tcp_open _ _ _ _ _ _ _ _ _ _ _ _) as [[r s]|]; [|discriminate H]. cbn in H. injection H as ->. by exists s.
Qed.
Lemma no_table_idle : idle no_table.
Proof. split; [reflexivity|]. repeat constructor. Qed.

(** Two connections opened one after the other, and a segment for the second. *)
Definition two_answers (n : Z) : list (Z * list Z) :=
  [from_far 45000 4999 (TH_SYN .| TH_ACK) []; from_far 45001 6999 (TH_SYN .| TH_ACK) []].
Notation open_to_far := (fun s => tcp_open secs 100 here yes two_answers 3 s (Some buffer) 7 there 80 1000).
Definition second_open : tcp := after (open_to_far (after (open_to_far no_table))).
Definition for_the_second : Z * list Z := from_far 45001 7000 TH_ACK [104; 105].
Lemma two_opens : rtc (call secs 100 here yes two_answers) no_table second_open.
Proof.
  assert (forall s, match open_to_far s with Some _ => True | None => False end -> call secs 100 here yes two_answers s (after (open_to_far s))) as H.
  { intros s Hs. destruct (open_to_far s) as [[r s']|] eqn:E; [|done]. exact (call_open _ _ _ _ _ s 3 (Some buffer) 7 there 80 1000 r s' E). }
  apply rtc_l with (after (open_to_far no_table)); [apply H; vm_compute; exact I|]. apply rtc_once. apply H. vm_compute. exact I.
Qed.
Lemma second_ports :
  match conns second_open with
  | c0 :: c1 :: _ => live c0 = true /\ live c1 = true /\ wants there 45001 80 c0 = false /\ wants there 45001 80 c1 = true
  | _ => False
  end.
Proof. vm_compute. repeat split. Qed.
Lemma second_segment : parse for_the_second.2 = Some (Seg 7000 100 TH_ACK [104; 105]) /\ HEADER <= zlen for_the_second.2 /\
  be_val (take 2 (drop 2 for_the_second.2)) = 45001 /\ be_val (take 2 for_the_second.2) = 80 /\ for_the_second.1 = there.
Proof. vm_compute. repeat split. discriminate. Qed.
#[local] Opaque second_open for_the_second.

Lemma segments_reach_their_connection_witness : exists c0 c1, conns second_open !! 0%nat = Some c0 /\ conns second_open !! 1%nat = Some c1 /\
  local_port c0 <> local_port c1 /\
  conns (tcp_input secs here yes second_open for_the_second.1 for_the_second.2) !! 0%nat = Some c0 /\
  conns (tcp_input secs here yes second_open for_the_second.1 for_the_second.2) =
    <[1%nat := (segment_arrived secs here yes c1 (w_of second_open) (Seg 7000 100 TH_ACK [104; 105])).1]> (conns second_open).
Proof.
  destruct (segments_reach_their_connection secs 100 here yes two_answers no_table second_open no_table_idle two_opens) as (H1 & H2 & H3 & _).
  destruct second_segment as (Eg & Hh & Ed & Es & Ea). pose proof second_ports as Hp.
  destruct (conns second_open) as [|c0 [|c1 l]] eqn:E; [destruct Hp|destruct Hp|]. destruct Hp as (L0 & L1 & W0 & W1).
  rewrite <- Ed, <- Es, <- Ea in W0, W1. exists c0, c1.
  split; [reflexivity|]. split; [reflexivity|]. split; [exact (H1 0%nat 1%nat c0 c1 ltac:(discriminate) eq_refl eq_refl L0 L1)|].
  split; [exact (H2 _ _ 0%nat c0 eq_refl W0)|exact (H3 _ _ _ 1%nat c1 eq_refl W1 Hh Eg)].
Defined.

Lemma calls_come_back_witness : exists fuel r, tcp_send secs 100 here yes (fun _ => []) fuel one_open 0 [1; 2; 3] = Some r.
Proof.
  apply (proj1 (proj2 (calls_come_back secs 100 here yes (fun _ => []) one_open eq_refl
    (fun t => ex_intro _ t (fun m H => H))))).
Defined.

(** A reset that comes while [tcp_send] waits is answered with true. *)
Example reset_is_answered_true :
  fst <$> tcp_send secs 100 here yes (fun n => [from_far 45000 500 TH_RST []]) 5 one_open 0 [1; 2; 3] = Some true.
Proof. vm_compute. reflexivity. Qed.

(** A send that is given up on leaves its bytes in flight, the next one takes their place, and
    they are never sent again: all that goes out after the first second is the later bytes. *)
Notation slow := (fun n : Z => 1000 * n).
Example bytes_given_up_on_are_lost :
  let silent := fun _ : Z => [] in
  let s1 := after (tcp_send slow 100 here yes silent 5 one_open 0 [1; 2; 3]) in
  let s2 := after (tcp_send slow 100 here yes silent 5 s1 0 [4; 5; 6]) in
  fst <$> tcp_send slow 100 here yes silent 5 one_open 0 [1; 2; 3] = Some false /\
  went_out (tcp_pump slow 100 here yes s2) = [(100, [1; 2; 3]); (103, [4; 5; 6]); (103, [4; 5; 6])].
Proof. vm_compute. split; reflexivity. Qed.

(** The end of the peer's stream takes the place of bytes in flight, which are then lost. *)
Example end_replaces_bytes :
  let '(ok, c, w) := send_start secs here yes open_conn no_world [1; 2; 3] in
  let (c, w) := segment_arrived secs here yes c w (Seg 500 100 (TH_ACK .| TH_FIN) []) in
  (rt_pending (c_snd c), rt_seq (c_snd c), rt_len (c_snd c), snd_una (c_snd c)) = (true, 103, 0, 100).
Proof. vm_compute. reflexivity. Qed.

(** An answer to the SYN that acknowledges something else opens the connection. *)
Example answer_to_something_else :
  let '(_, c, w) := send_reliable secs here yes (fresh_conn open_conn there 80 45000 999) no_world 999 TH_SYN [] in
  let (c, w) := segment_arrived secs here yes c w (Seg 4999 7 (TH_SYN .| TH_ACK) []) in
  (state c, snd_nxt (c_snd c)) = (T_OPEN, 7).
Proof. vm_compute. reflexivity. Qed.

(** A segment whose checksum is wrong is taken. *)
Example wrong_checksum_taken :
  let m := from_far 45000 500 TH_ACK [1; 2; 3] in
  tcp_checksum there here m.2 <> 0 /\
  (rxlen (c_rcv (getz no_conn (conns (tcp_input secs here yes one_open m.1 m.2)) 0))) = 3.
Proof. vm_compute. split; [discriminate|reflexivity]. Qed.

(** A segment the IP layer does not take is answered with false, and sent later all the same;
    what is given next goes out under the same numbers. *)
Example refused_and_sent :
  let first_refused := fun n : Z => negb (n =? 0) in
  let silent := fun _ : Z => [] in
  let s1 := after (tcp_send slow 100 here first_refused silent 5 one_open 0 [1; 2; 3]) in
  let s2 := tcp_pump slow 100 here first_refused s1 in
  let s3 := after (tcp_send slow 100 here first_refused silent 5 s2 0 [4; 5; 6]) in
  fst <$> tcp_send slow 100 here first_refused silent 5 one_open 0 [1; 2; 3] = Some false /\
  went_out s3 = [(100, [1; 2; 3]); (100, [4; 5; 6])].
Proof. vm_compute. split; reflexivity. Qed.
