(* ===== verification/Path.v ===== *)
(** Paths (kernel/vfs.c): what [vfs_resolve] makes of what a caller typed, the volume a path is
    on, and the paths that are generated. A string is the characters before its terminator. *)
From S2P Require Import Prelude.

(** ** The code *)

Definition VFS_PATH_MAX := 128.
Definition VFS_NAME_MAX := 64.
(** The size of [work], and of [starts]. *)
Definition WORK := 256%nat.
Definition DEPTH := 32.

Notation slash := 47.
Definition dot : list Z := [46].
Definition dots : list Z := [46; 46].

(** What [work] holds: the caller's path, after the working directory when it is relative. *)
Definition joined (cwd in_ : list Z) : list Z :=
  let start :=
    if bool_decide (head in_ = Some slash) then []
    else let base := take (WORK - 2) cwd in if bool_decide (head (rev base) = Some slash) then base else base ++ [slash] in
  start ++ take (WORK - 1 - length start) in_.

Fixpoint skip_slashes (p : list Z) : list Z :=
  match p with [] => [] | c :: p' => if c =? slash then skip_slashes p' else p end.
(** The characters before the next slash, and what is from it on. *)
Fixpoint next_part (p : list Z) : list Z * list Z :=
  match p with
  | [] => ([], [])
  | c :: p' => if c =? slash then ([], p) else let (part, rest) := next_part p' in (c :: part, rest)
  end.

(** [out] is what is before [len], [starts] its entries in use, the last one first. *)
Fixpoint walk (fuel : nat) (cap : Z) (p : list Z) (starts : list Z) (out : list Z) : option (list Z) :=
  match fuel with
  | O => None
  | S fuel =>
      let p := skip_slashes p in
      if bool_decide (p = []) then Some out else
      let (part, p) := next_part p in
      let part := take (Z.to_nat (VFS_NAME_MAX - 1)) part in
      if bool_decide (part = dot) then walk fuel cap p starts out else
      if bool_decide (part = dots) then
        match starts with
        | [] => walk fuel cap p starts out
        | start :: starts => walk fuel cap p starts (take (Z.to_nat (if start <? 1 then 1 else start)) out)
        end
      else
      if DEPTH <=? zlen starts then None else
      let len := zlen out in
      if (1 <? len) && (cap <=? len + 1) then None else
      let out := if 1 <? len then out ++ [slash] else out in
      let start := zlen out - (if 1 <? zlen out then 1 else 0) in
      if cap <=? zlen out + zlen part then None else
      walk fuel cap p (start :: starts) (out ++ part)
  end.

(** [None] for a null path. What is in the buffer when the answer is false is not used. *)
Definition vfs_resolve (cwd : list Z) (in_ : option (list Z)) (cap : Z) : option (list Z) :=
  match in_ with
  | None => None
  | Some in_ =>
      if cap <? 2 then None else
      let work := joined cwd in_ in walk (S (length work)) cap work [] [slash]
  end.

(** Whether a path is [top] or below it. *)
Definition under (top abs : list Z) : bool :=
  bool_decide (take (length top) abs = top) &&
  (bool_decide (abs !! length top = None) || bool_decide (abs !! length top = Some slash)).
Definition sys : list Z := [47; 115; 121; 115].
Definition bin : list Z := [47; 98; 105; 110].
Definition usb : list Z := [47; 117; 115; 98].

Definition sysfs_owns (abs : list Z) : bool := under sys abs.
Definition vfs_generated (abs : list Z) : bool := sysfs_owns abs || under bin abs.
Definition on_usb (abs : list Z) : bool := under usb abs.
(** The volume a path is on (the stick's, or the disk's) and what it is called there. *)
Definition route (abs : list Z) : bool * list Z :=
  if on_usb abs then (true, if bool_decide (drop 4 abs = []) then [slash] else drop 4 abs) else (false, abs).

(** ** What a path means *)

Fixpoint split (p : list Z) : list (list Z) :=
  match p with
  | [] => [[]]
  | c :: p => if c =? slash then [] :: split p else match split p with w :: ws => (c :: w) :: ws | [] => [[c]] end
  end.
(** The names in a path, and what is left of one after the cut to a name's room. *)
Definition components (p : list Z) : list (list Z) := filter (fun w => w <> []) (split p).
Definition cut_name (w : list Z) : list Z := take (Z.to_nat (VFS_NAME_MAX - 1)) w.
Notation names p := (cut_name <$> components p).
(** What a caller means by a path: the whole of it, after the working directory when it is
    relative. *)
Definition typed (cwd i : list Z) : list Z :=
  if bool_decide (head i = Some slash) then i
  else (if bool_decide (head (rev cwd) = Some slash) then cwd else cwd ++ [slash]) ++ i.

(** The absolute path of a place: the names on the way to it, the last one first. *)
Fixpoint abs_path (place : list (list Z)) : list Z :=
  match place with
  | [] => [slash]
  | [c] => slash :: c
  | c :: place => abs_path place ++ slash :: c
  end.

(** Going where the names say, as long as places are not too deep or too far. *)
Fixpoint go (cap : Z) (cs : list (list Z)) (place : list (list Z)) : option (list (list Z)) :=
  match cs with
  | [] => Some place
  | c :: cs =>
      if bool_decide (c = dot) then go cap cs place else
      if bool_decide (c = dots) then go cap cs (tail place) else
      if (DEPTH <=? zlen place) || (cap <=? zlen (abs_path (c :: place))) then None else go cap cs (c :: place)
  end.

Definition ok_name (c : list Z) : Prop :=
  c <> [] /\ slash ∉ c /\ c <> dot /\ c <> dots /\ zlen c < VFS_NAME_MAX.
(** A path as [vfs_resolve] makes them. *)
Definition clean (cap : Z) (place : list (list Z)) : Prop :=
  Forall ok_name place /\ zlen place <= DEPTH /\ zlen (abs_path place) < cap.

(** ** The walk goes where the names say *)

Lemma split_cons p : exists w ws, split p = w :: ws.
Proof. induction p as [|c p (w & ws & IH)]; cbn [split]; [by do 2 eexists|]. rewrite IH. destruct (c =? slash); by do 2 eexists. Qed.

Lemma components_slash p : components (slash :: p) = components p.
Proof. done. Qed.
Lemma components_skip p : components (skip_slashes p) = components p.
Proof.
  induction p as [|c p IH]; [done|]. cbn [skip_slashes]. destruct (Z.eqb_spec c slash) as [->|]; [by rewrite components_slash|done].
Qed.
Lemma skip_head p c p' : skip_slashes p = c :: p' -> c <> slash.
Proof. induction p as [|a p IH]; cbn [skip_slashes]; [done|]. destruct (Z.eqb_spec a slash); [done|]. by intros [= <- _]. Qed.
Lemma length_skip p : (length (skip_slashes p) <= length p)%nat.
Proof. induction p as [|a p IH]; cbn [skip_slashes length]; [lia|]. destruct (a =? slash); cbn [length]; lia. Qed.

Lemma split_part p : split p = (next_part p).1 :: match (next_part p).2 with [] => [] | _ :: rest => split rest end.
Proof.
  induction p as [|c p IH]; [done|]. cbn [split next_part]. destruct (Z.eqb_spec c slash) as [->|]; [done|].
  rewrite IH. destruct (next_part p) as [part rest]. cbn [fst snd]. done.
Qed.
Lemma part_rest p : (length (next_part p).2 <= length p)%nat /\ (forall c p', (next_part p).2 = c :: p' -> c = slash).
Proof.
  induction p as [|c p [IH1 IH2]]; cbn [next_part]; [done|]. destruct (Z.eqb_spec c slash) as [->|]; cbn [snd length].
  - split; [lia|]. by intros c p' [= <- _].
  - destruct (next_part p) as [part rest]. cbn [snd length] in *. split; [lia|done].
Qed.
Lemma components_part c p :
  c <> slash -> components (c :: p) = (next_part (c :: p)).1 :: components (next_part (c :: p)).2 /\
  (next_part (c :: p)).1 <> [] /\ (length (next_part (c :: p)).2 <= length p)%nat.
Proof.
  intros Hc. unfold components at 1. rewrite split_part. pose proof (part_rest (c :: p)) as [Hl Hs].
  assert ((next_part (c :: p)).1 <> [] /\ (length (next_part (c :: p)).2 <= length p)%nat) as [Hn Hl'].
  { cbn [next_part]. rewrite (proj2 (Z.eqb_neq _ _)) by done. pose proof (part_rest p) as [? _]. by destruct (next_part p). }
  split; [|done]. rewrite filter_cons_True by done. f_equal.
  destruct (next_part (c :: p)).2 as [|s rest] eqn:E; [done|]. by rewrite (Hs s rest eq_refl).
Qed.

(** Where each name of a place starts in its path. *)
Fixpoint offsets (place : list (list Z)) : list Z :=
  match place with [] => [] | _ :: place => zlen (abs_path place) :: offsets place end.
Lemma length_offsets place : length (offsets place) = length place.
Proof. induction place; cbn [offsets length]; auto. Qed.

Lemma abs_path_cons c place : abs_path (c :: place) = (if bool_decide (place = []) then [] else abs_path place) ++ slash :: c.
Proof. by destruct place. Qed.
Lemma abs_path_slash place : exists rest, abs_path place = slash :: rest.
Proof.
  induction place as [|c place [rest IH]]; [by eexists|]. rewrite abs_path_cons. case_bool_decide; [by eexists|]. rewrite IH. by eexists.
Qed.
Lemma abs_path_long c place : c <> [] -> 1 < zlen (abs_path (c :: place)).
Proof. intros Hc. rewrite abs_path_cons, length_app. destruct c; [done|]. cbn [length]. lia. Qed.

Lemma place_pop c place : Forall (fun c => c <> []) (c :: place) ->
  take (Z.to_nat (if zlen (abs_path place) <? 1 then 1 else zlen (abs_path place))) (abs_path (c :: place)) = abs_path place.
Proof.
  intros Hp. destruct (abs_path_slash place) as [rest E]. rewrite (proj2 (Z.ltb_ge _ _)) by (rewrite E; cbn [length]; lia).
  rewrite Nat2Z.id, abs_path_cons. case_bool_decide as Hb; [|apply take_app_length]. by subst place.
Qed.

Lemma walk_goes fuel cap p place :
  (length p < fuel)%nat -> Forall (fun c => c <> []) place ->
  walk fuel cap p (offsets place) (abs_path place) = abs_path <$> go cap (names p) place.
Proof.
  revert p place. induction fuel as [|fuel IH]; intros p place Hf Hp; [lia|]. cbn [walk]. rewrite <- components_skip.
  pose proof (length_skip p) as Hl. destruct (skip_slashes p) as [|c p'] eqn:Es; [done|]. cbn [length] in Hl.
  rewrite bool_decide_eq_false_2 by done.
  destruct (components_part c p' (skip_head _ _ _ Es)) as (Hc & Hne & Hr). destruct (next_part (c :: p')) as [part rest]. cbn [fst snd] in *.
  rewrite Hc. cbn [fmap list_fmap go]. change (take (Z.to_nat (VFS_NAME_MAX - 1)) part) with (cut_name part). set (n := cut_name part).
  assert (n <> []) as Hn by (subst n; by destruct part).
  destruct (bool_decide (n = dot)); [apply IH; [lia|done]|]. destruct (bool_decide (n = dots)).
  { destruct place as [|c0 place]; [apply IH; [lia|done]|]. cbn [offsets tail]. rewrite place_pop by done. apply IH; [lia|by inversion Hp]. }
  rewrite length_offsets. destruct (DEPTH <=? zlen place); cbn [orb]; [done|].
  pose proof (IH rest (n :: place) ltac:(lia) ltac:(by constructor)) as IHn. cbn [offsets] in IHn. rewrite abs_path_cons in IHn.
  rewrite abs_path_cons. destruct place as [|c0 place].
  - cbn [abs_path length app] in *. change (1 <? Z.of_nat 1) with false. cbn [andb]. rewrite bool_decide_eq_true_2 in * by done. cbn [app length] in *.
    replace (Z.of_nat (S (length n))) with (Z.of_nat 1 + zlen n) by lia. destruct (cap <=? _); [done|exact IHn].
  - rewrite bool_decide_eq_false_2 in * by done. pose proof (abs_path_long c0 place ltac:(by inversion Hp)) as Hlong.
    set (out := abs_path (c0 :: place)) in *. rewrite !(proj2 (Z.ltb_lt 1 (zlen out))) by done. cbn [andb].
    rewrite !length_app. cbn [length]. rewrite <- app_assoc. cbn [app].
    rewrite (proj2 (Z.ltb_lt 1 _)) by lia. replace (Z.of_nat (length out + 1) - 1) with (zlen out) by lia.
    destruct (Z.leb_spec cap (zlen out + 1)).
    + by rewrite (proj2 (Z.leb_le _ _)) by lia.
    + replace (Z.of_nat (length out + 1) + zlen n) with (Z.of_nat (length out + S (length n))) by lia.
      destruct (cap <=? _); [done|exact IHn].
Qed.

(** ** What the names of a path are *)

Lemma split_app p q : split (p ++ slash :: q) = split p ++ split q.
Proof.
  induction p as [|c p IH]; cbn [app split]; [done|]. rewrite IH. destruct (c =? slash); [done|].
  by destruct (split_cons p) as (w & ws & ->).
Qed.
Lemma components_app p q : components (p ++ slash :: q) = components p ++ components q.
Proof. unfold components. by rewrite split_app, list.filter_app. Qed.
Lemma split_plain c : slash ∉ c -> split c = [c].
Proof.
  induction c as [|a c IH]; intros Hc; cbn [split]; [done|]. apply list.not_elem_of_cons in Hc as [Ha Hc].
  rewrite (proj2 (Z.eqb_neq _ _)) by congruence. by rewrite IH.
Qed.
Lemma split_no_slash p : Forall (fun c => slash ∉ c) (split p).
Proof.
  induction p as [|a p IH]; cbn [split]; [repeat constructor; by intros ?%elem_of_nil|].
  destruct (Z.eqb_spec a slash); [constructor; [by intros ?%elem_of_nil|done]|].
  destruct (split_cons p) as (w & ws & E). rewrite E in *. inversion IH; subst. constructor; [|done].
  apply list.not_elem_of_cons. split; [congruence|done].
Qed.
Lemma names_spec p : Forall (fun c => c <> [] /\ slash ∉ c /\ zlen c < VFS_NAME_MAX) (names p).
Proof.
  unfold components, cut_name, VFS_NAME_MAX. apply Forall_forall. intros c Hc%list_elem_of_In.
  apply list_elem_of_fmap in Hc as (w & -> & Hw). apply list_elem_of_filter in Hw as [Hw1 Hw2].
  pose proof (split_no_slash p) as Hs. rewrite Forall_forall in Hs. apply list_elem_of_In in Hw2. split; [by destruct w|]. split.
  - intros Hx. apply (Hs w Hw2). apply elem_of_take in Hx as (i & Hi & _). by apply list_elem_of_lookup_2 with i.
  - rewrite length_take. lia.
Qed.

Lemma components_path place : Forall ok_name place -> components (abs_path place) = rev place.
Proof.
  induction 1 as [|c place (Hn & Hs & _) Hp IH]; [done|].
  assert (components c = [c]) as Hc. { unfold components. rewrite split_plain by done. by rewrite filter_cons_True. }
  rewrite abs_path_cons, components_app, Hc. cbn [rev]. case_bool_decide; [by subst place|]. by rewrite IH.
Qed.
Lemma cut_short l : Forall (fun w => zlen w < VFS_NAME_MAX) l -> cut_name <$> l = l.
Proof.
  intros Hl. rewrite <- (list_fmap_id l) at 2. apply Forall_fmap_ext_1. eapply Forall_impl; [|exact Hl].
  intros c Hc. unfold cut_name, VFS_NAME_MAX, id in *. apply take_ge. lia.
Qed.
Lemma names_path place : Forall ok_name place -> names (abs_path place) = rev place.
Proof.
  intros Hp. rewrite components_path by done. apply cut_short, Forall_rev. eapply Forall_impl; [|exact Hp]. by intros c (_ & _ & _ & _ & Hl).
Qed.
Lemma abs_path_inj a b : Forall ok_name a -> Forall ok_name b -> abs_path a = abs_path b -> a = b.
Proof.
  intros Ha Hb E. apply (f_equal components) in E. rewrite !components_path in E by done.
  by rewrite <- (rev_involutive a), E, rev_involutive.
Qed.

Lemma abs_path_grows c place : zlen (abs_path place) <= zlen (abs_path (c :: place)).
Proof. rewrite abs_path_cons, length_app. case_bool_decide; [subst place; cbn [abs_path length]; lia|]. cbn [length]. lia. Qed.
Lemma clean_tail cap c place : clean cap (c :: place) -> clean cap place.
Proof.
  intros (Hn & Hl & Hp). pose proof (abs_path_grows c place). cbn [length] in Hl. split; [by inversion Hn|]. split; lia.
Qed.

Lemma go_clean cap cs place place' :
  Forall (fun c => c <> [] /\ slash ∉ c /\ zlen c < VFS_NAME_MAX) cs -> clean cap place ->
  go cap cs place = Some place' -> clean cap place'.
Proof.
  intros Hc. revert place. induction Hc as [|c cs (Hn & Hs & Hl) _ IH]; intros place Hp E; cbn [go] in E; [by injection E as <-|].
  case_bool_decide; [by apply IH in E|]. case_bool_decide.
  { apply IH in E; [done|]. destruct place; [done|]. by apply clean_tail in Hp. }
  destruct (_ || _) eqn:Eb; [done|]. apply orb_false_iff in Eb as [E1%Z.leb_gt E2%Z.leb_gt]. apply IH in E; [done|].
  destruct Hp as (Hp1 & Hp2 & Hp3). split; [by constructor|]. cbn [length]. split; [lia|done].
Qed.
Lemma go_app cap a b place : go cap (a ++ b) place = go cap a place ≫= go cap b.
Proof.
  revert place. induction a as [|c a IH]; intros place; cbn [app go]; [done|]. case_bool_decide; [done|]. case_bool_decide; [done|].
  by destruct (_ || _).
Qed.
Lemma go_clean_path cap place : clean cap place -> go cap (rev place) [] = Some place.
Proof.
  induction place as [|c place IH]; intros Hp; [done|]. cbn [rev]. rewrite go_app, IH by by apply clean_tail in Hp.
  destruct Hp as (Hn & Hl & Hp). inversion Hn as [|? ? (? & ? & ? & ? & ?)]; subst. cbn [mbind option_bind go].
  rewrite !bool_decide_eq_false_2 by done. cbn [length] in Hl. rewrite (proj2 (Z.leb_gt _ _)), (proj2 (Z.leb_gt _ _)) by lia. done.
Qed.

(** A relative path is the working directory's names and then its own. *)
Lemma typed_components cwd i :
  components (typed cwd i) = if bool_decide (head i = Some slash) then components i else components cwd ++ components i.
Proof.
  unfold typed. case_bool_decide; [done|]. case_bool_decide as Hh.
  - destruct cwd as [|c cwd _] using rev_ind; [done|]. rewrite rev_app_distr in Hh. cbn in Hh. injection Hh as ->.
    rewrite <- app_assoc. cbn [app]. rewrite !components_app. change (components []) with (@nil (list Z)). by rewrite app_nil_r.
  - rewrite <- app_assoc. cbn [app]. apply components_app.
Qed.
(** The room there is for it. *)
Lemma joined_typed cwd i : zlen cwd < VFS_PATH_MAX -> joined cwd i = take 255 (typed cwd i).
Proof.
  unfold VFS_PATH_MAX. intros Hl. unfold joined, typed, WORK. case_bool_decide; [done|]. rewrite (take_ge cwd) by lia.
  set (base := if bool_decide _ then cwd else _). assert (length base <= 255)%nat by (subst base; case_bool_decide; rewrite ?length_app; cbn [length]; lia).
  rewrite take_app. by rewrite (take_ge base) by lia.
Qed.

Lemma joined_abs cwd p : head p = Some slash -> zlen p < 256 -> joined cwd p = p.
Proof. intros Hh Hl. unfold joined, WORK. rewrite bool_decide_eq_true_2 by done. cbn [length app]. apply take_ge. lia. Qed.

Lemma resolve_spec cwd i cap : 2 <= cap -> vfs_resolve cwd (Some i) cap = abs_path <$> go cap (names (joined cwd i)) [].
Proof. intros Hc. unfold vfs_resolve. rewrite (proj2 (Z.ltb_ge _ _)) by done. apply (walk_goes _ _ _ []); [lia|constructor]. Qed.

Lemma resolve_clean cwd i cap p :
  vfs_resolve cwd (Some i) cap = Some p -> exists place, p = abs_path place /\ clean cap place.
Proof.
  intros E. assert (2 <= cap) as Hc. { unfold vfs_resolve in E. case_bool; [done|lia]. }
  rewrite resolve_spec in E by done. destruct (go cap _ []) as [place|] eqn:Eg; [|done]. injection E as <-. exists place. split; [done|].
  apply go_clean in Eg; [done|apply names_spec|]. split; [constructor|]. cbn [abs_path length]. unfold DEPTH. split; lia.
Qed.
Lemma resolve_path cwd cap place : 2 <= cap <= 256 -> clean cap place -> vfs_resolve cwd (Some (abs_path place)) cap = Some (abs_path place).
Proof.
  intros Hc Hp. rewrite resolve_spec by lia. destruct (abs_path_slash place) as [rest E].
  rewrite joined_abs; [|by rewrite E|destruct Hp as (_ & _ & ?); lia]. rewrite names_path by apply Hp. by rewrite go_clean_path.
Qed.

(** C20: A path is where its names lead: from the root, or for a relative path from the
    working directory, over each name that is not the place itself or the one above, and it is
    refused exactly when the way is deeper than 32 names or does not fit. The names are those
    in the first 255 characters of the working directory and the path together, and of each
    the first 63 characters, so all of it for a path of that length with names of that length.
    What is answered is absolute and clean, fits, is answered for itself again from anywhere,
    and is the same for two paths only when they lead to one place. *)
Theorem paths_resolve_to_one_name cwd cwd' i j cap :
  2 <= cap <= 256 -> zlen cwd < VFS_PATH_MAX -> zlen cwd' < VFS_PATH_MAX ->
  let place_of (cwd i : list Z) := go cap (cut_name <$> components (take 255 (typed cwd i))) [] in
  vfs_resolve cwd (Some i) cap = abs_path <$> place_of cwd i /\
  (zlen (typed cwd i) <= 255 -> Forall (fun w => zlen w < VFS_NAME_MAX) (components (typed cwd i)) ->
     place_of cwd i = go cap (if bool_decide (head i = Some slash) then components i else components cwd ++ components i) []) /\
  (forall p, vfs_resolve cwd (Some i) cap = Some p ->
     (exists place, p = abs_path place /\ clean cap place) /\ forall cwd', vfs_resolve cwd' (Some p) cap = Some p) /\
  (is_Some (place_of cwd i) -> vfs_resolve cwd (Some i) cap = vfs_resolve cwd' (Some j) cap -> place_of cwd i = place_of cwd' j).
Proof.
  intros Hc Hi Hj. cbv beta zeta. rewrite <- !joined_typed by done. split; [apply resolve_spec; lia|]. split; [|split].
  - intros Hl Hn. rewrite joined_typed, take_ge by (done || lia). by rewrite cut_short, typed_components.
  - intros p E. apply resolve_clean in E as (place & -> & Hp). split; [by exists place|]. intros. by apply resolve_path.
  - intros [a Ha] E. rewrite !resolve_spec, Ha in E by lia. destruct (go cap (names (joined cwd' j)) []) as [b|] eqn:Eb; [|done].
    rewrite Ha. f_equal. injection E as E.
    assert (clean cap []) as H0 by (split; [constructor|]; cbn [abs_path length]; unfold DEPTH; lia).
    apply abs_path_inj; [by apply (go_clean _ _ _ _ (names_spec _) H0 Ha)|by apply (go_clean _ _ _ _ (names_spec _) H0 Eb)|done].
Qed.
Lemma paths_resolve_to_one_name_witness :
  vfs_resolve [47; 97] (Some [46; 46; 47; 98; 47; 46; 47; 47; 99]) VFS_PATH_MAX = Some [47; 98; 47; 99] /\
  vfs_resolve [47; 97] (Some [98]) VFS_PATH_MAX = abs_path <$> go VFS_PATH_MAX [[97]; [98]] [].
Proof.
  split.
  - rewrite (proj1 (paths_resolve_to_one_name [47; 97] [] [46; 46; 47; 98; 47; 46; 47; 47; 99] [] VFS_PATH_MAX
      ltac:(by vm_compute) ltac:(by vm_compute) ltac:(by vm_compute))).
    reflexivity.
  - destruct (paths_resolve_to_one_name [47; 97] [] [98] [] VFS_PATH_MAX ltac:(by vm_compute) ltac:(by vm_compute) ltac:(by vm_compute)) as (H1 & H2 & _).
    rewrite H1, H2; [reflexivity|discriminate|repeat constructor].
Defined.

(** A name of more than 63 characters is cut, so two names may come to one. *)
Example long_names_meet :
  vfs_resolve [47] (Some (replicate 63 97 ++ [98])) VFS_PATH_MAX = vfs_resolve [47] (Some (replicate 63 97 ++ [99])) VFS_PATH_MAX /\
  is_Some (vfs_resolve [47] (Some (replicate 63 97 ++ [98])) VFS_PATH_MAX).
Proof. vm_compute. split; [reflexivity|by eexists]. Qed.
(** A path of more than 255 characters is cut, and what is left may be another place: here the
    directory that the file named at the end is in. *)
Example long_path_is_another :
  vfs_resolve [47] (Some ([47; 97; 47] ++ concat (replicate 126 [46; 47]) ++ [98])) VFS_PATH_MAX = Some [47; 97].
Proof. vm_compute. reflexivity. Qed.
