(* ===== verification/Ramfs.v ===== *)
(** The files kept in memory (kernel/fs.c), and their listing (ram_list of kernel/vfs.c), as a
    map from paths to files. A name is the characters before its terminator. *)
From S2P Require Import Prelude.

(** ** The code *)

Definition FS_MAX_FILES := 64%nat.
Definition FS_NAME_MAX := 128.

(** [data] has [cap] bytes. *)
Record file_t := File { name : list Z; data : list Z; size : Z; cap : Z; used : bool; is_dir : bool }.
Definition no_file : file_t := File [] [] 0 0 false false.
(** [files], and how often [kmalloc] was asked. *)
Record ramfs := Ramfs { files : list file_t; asked : Z }.

Definition fs_init (s : ramfs) : ramfs := Ramfs (replicate FS_MAX_FILES no_file) (asked s).

Fixpoint find_from (path : list Z) (l : list file_t) (i : nat) : option nat :=
  match l with [] => None | f :: l => if used f && bool_decide (name f = path) then Some i else find_from path l (S i) end.
Definition fs_find (s : ramfs) (path : list Z) : option nat := find_from path (files s) 0.
Fixpoint first_free (l : list file_t) (i : nat) : option nat :=
  match l with [] => None | f :: l => if used f then first_free l (S i) else Some i end.

Definition put (s : ramfs) (i : nat) (f : file_t) : ramfs := Ramfs (<[i := f]> (files s)) (asked s).
Definition fs_create (s : ramfs) (path : list Z) : option nat * ramfs :=
  match fs_find s path with
  | Some i => (Some i, s)
  | None =>
      match first_free (files s) 0 with
      | Some i => (Some i, put s i (File (take (Z.to_nat (FS_NAME_MAX - 1)) path) [] 0 0 true false))
      | None => (None, s)
      end
  end.

(** [while (cap < need) cap *= 2]: 32 rounds, of which a loop that ends needs 26. *)
Fixpoint double (fuel : nat) (cap need : Z) : option Z :=
  match fuel with O => None | S fuel => if cap <? need then double fuel (u32 (cap * 2)) need else Some cap end.

Section Memory.
(** The block the [n]th call of [kmalloc] gives for a size: what is in it. *)
Variable kmalloc : Z -> Z -> option (list Z).

(** Whether there is room now, and the file. [None]: the loop does not end. *)
Definition ensure (s : ramfs) (f : file_t) (need : Z) : option (bool * file_t * ramfs) :=
  if need <=? cap f then Some (true, f, s) else
  c ← double 32 (if cap f =? 0 then 64 else cap f) need;
  let s := Ramfs (files s) (asked s + 1) in
  match kmalloc (asked s - 1) c with
  | None => Some (false, f, s)
  | Some nd => Some (true, File (name f) (splice nd 0 (take (Z.to_nat (size f)) (data f))) (size f) c (used f) (is_dir f), s)
  end.

Definition fs_write (s : ramfs) (path buf : list Z) : option (bool * ramfs) :=
  let (i, s) := fs_create s path in
  match i ≫= fun i => (fun f => (i, f)) <$> files s !! i with
  | None => Some (false, s)
  | Some (i, f) =>
      if is_dir f then Some (false, s) else
      r ← ensure s f (if zlen buf =? 0 then 1 else zlen buf);
      let '(ok, f, s) := r in
      if ok : bool then Some (true, put s i (File (name f) (splice (data f) 0 buf) (zlen buf) (cap f) (used f) (is_dir f))) else Some (false, s)
  end.

Definition fs_append (s : ramfs) (path buf : list Z) : option (bool * ramfs) :=
  let (i, s) := fs_create s path in
  match i ≫= fun i => (fun f => (i, f)) <$> files s !! i with
  | None => Some (false, s)
  | Some (i, f) =>
      if is_dir f then Some (false, s) else
      r ← ensure s f (u32 (size f + zlen buf));
      let '(ok, f, s) := r in
      if ok : bool
      then Some (true, put s i (File (name f) (splice (data f) (Z.to_nat (size f)) buf) (u32 (size f + zlen buf)) (cap f) (used f) (is_dir f)))
      else Some (false, s)
  end.
End Memory.

Definition fs_mkdir (s : ramfs) (path : list Z) : bool * ramfs :=
  if fs_find s path is Some _ then (false, s) else
  let (i, s) := fs_create s path in
  match i ≫= fun i => (fun f => (i, f)) <$> files s !! i with
  | None => (false, s)
  | Some (i, f) => (true, put s i (File (name f) (data f) (size f) (cap f) (used f) true))
  end.

Definition fs_delete (s : ramfs) (path : list Z) : bool * ramfs :=
  match fs_find s path with None => (false, s) | Some i => (true, put s i no_file) end.

Definition in_use (s : ramfs) : list file_t := filter (fun f => used f) (files s).
Definition fs_count (s : ramfs) : Z := zlen (in_use s).
Definition fs_at (s : ramfs) (i : Z) : option file_t := in_use s !! Z.to_nat i.
Definition fs_bytes_used (s : ramfs) : Z := foldl (fun n f => u32 (n + size f)) 0 (in_use s).

(** What of a name is below a directory, if it is directly in it. *)
Definition inside (dir : list Z) (n : list Z) : option (list Z) :=
  if bool_decide (take (length dir) n = dir) then
    let rest := drop (length dir) n in
    let below :=
      if (length dir =? 1)%nat then Some rest else match rest with 47 :: rest => Some rest | _ => None end in
    match below with
    | Some rest => if bool_decide (rest = []) || bool_decide (47 ∈ rest) then None else Some rest
    | None => None
    end
  else None.
(** The name, cut to what the caller's array takes, the size, and whether it is a directory. *)
Definition ram_list (s : ramfs) (dir : list Z) (index : Z) : option (list Z * Z * bool) :=
  omap (fun f => (fun rest => (take 63 rest, size f, is_dir f)) <$> inside dir (name f)) (in_use s) !! Z.to_nat index.

(** ** A map from paths to files *)

(** What is at a path: whether it is a directory, and the bytes. *)
Definition view (f : file_t) : bool * list Z := (is_dir f, take (Z.to_nat (size f)) (data f)).
Definition at_path (s : ramfs) (path : list Z) : option (bool * list Z) :=
  (fun i => view (getz no_file (files s) (Z.of_nat i))) <$> fs_find s path.

Record file_ok (f : file_t) : Prop := {
  fo_cap : zlen (data f) = cap f;
  fo_size : 0 <= size f <= cap f;
  fo_pow : cap f = 0 \/ exists k, 6 <= k < 32 /\ cap f = 2 ^ k }.
(** No two files in use have one name. *)
Record fs_ok (s : ramfs) : Prop := {
  fs_len : length (files s) = FS_MAX_FILES;
  fs_files : Forall file_ok (files s);
  fs_names : forall i j f g, files s !! i = Some f -> files s !! j = Some g -> used f = true -> used g = true -> name f = name g -> i = j }.

Lemma find_from_spec path l i k :
  find_from path l i = Some k -> (i <= k)%nat /\ exists f, l !! (k - i)%nat = Some f /\ used f = true /\ name f = path.
Proof.
  revert i. induction l as [|f l IH]; intros i E; cbn [find_from] in E; [done|].
  destruct (used f && bool_decide (name f = path)) eqn:Ef.
  - injection E as <-. apply andb_true_iff in Ef as [Hu Hn%bool_decide_eq_true]. split; [lia|]. exists f. by rewrite Nat.sub_diag.
  - apply IH in E as (Hi & g & Hg & ?). split; [lia|]. exists g. by replace (k - i)%nat with (S (k - S i)) by lia.
Qed.
Lemma find_from_none path l i : find_from path l i = None -> forall f, f ∈ l -> used f = true -> name f <> path.
Proof.
  revert i. induction l as [|f l IH]; intros i E g Hg Hu; [by apply elem_of_nil in Hg|]. cbn [find_from] in E.
  destruct (used f && bool_decide (name f = path)) eqn:Ef; [done|]. apply list.elem_of_cons in Hg as [->|Hg]; [|by apply (IH _ E)].
  rewrite Hu in Ef. cbn [andb] in Ef. by apply bool_decide_eq_false in Ef.
Qed.

Lemma fs_find_spec s path i : fs_find s path = Some i -> exists f, files s !! i = Some f /\ used f = true /\ name f = path.
Proof. intros (_ & f & Hf & ?)%find_from_spec. rewrite Nat.sub_0_r in Hf. by exists f. Qed.
Lemma fs_find_unique s path i f : fs_ok s -> files s !! i = Some f -> used f = true -> name f = path -> fs_find s path = Some i.
Proof.
  intros Hs Hf Hu Hn. destruct (fs_find s path) as [j|] eqn:E.
  - apply fs_find_spec in E as (g & Hg & Hug & Hng). f_equal. apply (fs_names s Hs j i g f); [done..|congruence].
  - exfalso. eapply (find_from_none _ _ _ E); [by eapply list_elem_of_lookup_2|done|done].
Qed.
Lemma at_path_found s path i f : fs_find s path = Some i -> files s !! i = Some f -> at_path s path = Some (view f).
Proof.
  intros E Hf. unfold at_path. rewrite E. cbn [fmap option_fmap option_map]. f_equal. f_equal. unfold getz.
  rewrite Nat2Z.id. by apply nth_lookup_Some.
Qed.
Lemma at_path_none s path : fs_find s path = None -> at_path s path = None.
Proof. intros E. unfold at_path. by rewrite E. Qed.

(** Changing the file in a slot without giving it a name another has. *)
Lemma put_ok s i f g :
  fs_ok s -> files s !! i = Some f -> file_ok g ->
  (used g = true -> forall j h, j <> i -> files s !! j = Some h -> used h = true -> name h <> name g) -> fs_ok (put s i g).
Proof.
  intros [Hl Hf Hn] Ei Hg Hfresh. pose proof (lookup_lt_Some _ _ _ Ei) as Hlt. split; cbn [put files].
  - by rewrite length_insert.
  - by apply Forall_insert.
  - intros a b x y. destruct (decide (a = i)) as [->|], (decide (b = i)) as [->|]; rewrite ?list_lookup_insert_eq by done; rewrite ?list_lookup_insert_ne by done.
    + done.
    + intros [= <-] Hy Hu Hu' E. by destruct (Hfresh Hu b y).
    + intros Hx [= <-] Hu Hu' E. by destruct (Hfresh Hu' a x).
    + by apply Hn.
Qed.

(** What is where after a slot has changed: at [path], what is there now; elsewhere what was
    there, so long as what was in the slot was free or at [path] too. *)
Lemma put_at s i f g path q :
  fs_ok s -> fs_ok (put s i g) -> files s !! i = Some f -> (used f = true -> name f = path) -> (used g = true -> name g = path) ->
  at_path (put s i g) q = if bool_decide (q = path) then if used g then Some (view g) else at_path (put s i g) q else at_path s q.
Proof.
  intros Hs Hs' Ei Hfn Hgn. pose proof (lookup_lt_Some _ _ _ Ei) as Hlt. case_bool_decide as Hq.
  - subst q. destruct (used g) eqn:Hu; [|done]. assert (files (put s i g) !! i = Some g) as Eg by by apply list_lookup_insert_eq.
    apply (at_path_found _ _ i); [|done]. apply fs_find_unique with g; auto.
  - destruct (fs_find s q) as [j|] eqn:E.
    + destruct (fs_find_spec _ _ _ E) as (h & Hh & Hu & Hn). assert (j <> i) as Hji by (intros ->; simplify_eq; auto).
      rewrite (at_path_found s q j h) by done. apply (at_path_found _ _ j); [|by cbn; rewrite list_lookup_insert_ne].
      apply fs_find_unique with h; [done| |done|done]. cbn. by rewrite list_lookup_insert_ne.
    + rewrite (at_path_none s q) by done. apply at_path_none. destruct (fs_find (put s i g) q) as [j|] eqn:E'; [|done].
      destruct (fs_find_spec _ _ _ E') as (h & Hh & Hu & Hn). destruct (decide (j = i)) as [->|].
      * cbn in Hh. rewrite list_lookup_insert_eq in Hh by done. injection Hh as ->. by rewrite Hgn in Hn.
      * cbn in Hh. rewrite list_lookup_insert_ne in Hh by done. exfalso. eapply (find_from_none _ _ _ E); [by eapply list_elem_of_lookup_2|done|done].
Qed.

(** ** What each operation does to the map *)

(** Only what is at [path] may differ. *)
Definition elsewhere (s s' : ramfs) (path : list Z) : Prop := forall q, q <> path -> at_path s' q = at_path s q.

Lemma file_ok_no_file : file_ok no_file.
Proof. split; cbn; [done|lia|by left]. Qed.

Lemma first_free_spec l i k : first_free l i = Some k -> (i <= k)%nat /\ exists f, l !! (k - i)%nat = Some f /\ used f = false.
Proof.
  revert i. induction l as [|f l IH]; intros i E; cbn [first_free] in E; [done|]. destruct (used f) eqn:Eu.
  - apply IH in E as (? & g & E & ?). split; [lia|]. exists g. by replace (k - i)%nat with (S (k - S i)) by lia.
  - injection E as <-. split; [lia|]. exists f. by rewrite Nat.sub_diag.
Qed.
Lemma first_free_none l i : first_free l i = None -> filter (fun f => used f) l = l.
Proof.
  revert i. induction l as [|f l IH]; intros i E; cbn [first_free] in E; [done|]. destruct (used f) eqn:Eu; [|done].
  rewrite filter_cons_True by by rewrite Eu. f_equal. by apply IH with (S i).
Qed.

(** A slot of the file of that path, made if there was none. *)
Lemma create_spec s path : fs_ok s -> zlen path < FS_NAME_MAX ->
  match fs_create s path with
  | (Some i, s') =>
      fs_ok s' /\ elsewhere s s' path /\ at_path s' path = Some (default (false, []) (at_path s path)) /\
      exists f, files s' !! i = Some f /\ used f = true /\ name f = path /\ view f = default (false, []) (at_path s path)
  | (None, s') => s' = s /\ at_path s path = None /\ fs_count s = Z.of_nat FS_MAX_FILES
  end.
Proof.
  intros Hs Hp. unfold fs_create. destruct (fs_find s path) as [i|] eqn:E.
  - destruct (fs_find_spec _ _ _ E) as (f & Hf & Hu & Hn). rewrite (at_path_found _ _ _ _ E Hf). split_and!; [done|done|done|].
    exists f. by rewrite ?Hu, ?Hn.
  - rewrite (at_path_none _ _ E). destruct (first_free (files s) 0) as [i|] eqn:Ef.
    + apply first_free_spec in Ef as (_ & f & Hf & Hu). rewrite Nat.sub_0_r in Hf.
      rewrite take_ge by (unfold FS_NAME_MAX in *; lia). set (g := File path [] 0 0 true false).
      assert (fs_ok (put s i g)) as Hs'.
      { apply put_ok with f; [done|done|split; cbn; [done|lia|by left]|]. intros _ j h Hj Hh Hu' Hn.
        eapply (find_from_none _ _ _ E); [by eapply list_elem_of_lookup_2|done|done]. }
      pose proof (fun q => put_at s i f g path q Hs Hs' Hf) as Hat. split; [done|].
      split; [intros q Hq; rewrite Hat by (done || congruence); by rewrite bool_decide_eq_false_2|].
      split; [rewrite Hat by (done || congruence); by rewrite bool_decide_eq_true_2|].
      exists g. split_and!; try done. cbn. apply list_lookup_insert_eq. by eapply lookup_lt_Some.
    + split_and!; [done|done|]. unfold fs_count, in_use. rewrite (first_free_none _ _ Ef). by rewrite (fs_len _ Hs).
Qed.

Lemma double_spec fuel k need :
  6 <= k < 32 -> need <= 2147483648 -> (32 - k < Z.of_nat fuel) ->
  exists c j, double fuel (2 ^ k) need = Some c /\ need <= c /\ 2 ^ k <= c /\ c = 2 ^ j /\ 6 <= j < 32.
Proof.
  revert k. induction fuel as [|fuel IH]; intros k Hk Hn Hf; [lia|]. cbn [double]. case_bool; [|by exists (2 ^ k), k].
  assert (k < 31). { destruct (decide (k = 31)) as [->|]; [|lia]. change (2 ^ 31) with 2147483648 in *. lia. }
  replace (u32 (2 ^ k * 2)) with (2 ^ (k + 1)).
  - destruct (IH (k + 1)) as (c & j & ? & ? & ? & ?); [lia|lia|lia|]. exists c, j. rewrite Z.pow_add_r in * by lia. split_and!; done || lia.
  - rewrite Z.pow_add_r by lia. symmetry. apply u32_id. split; [lia|]. change (2 ^ 1) with 2.
    assert (2 ^ k <= 2 ^ 30) by (apply Z.pow_le_mono_r; lia). change (2 ^ 30) with 1073741824 in *. change (2 ^ 32) with 4294967296. lia.
Qed.
(** Past two gigabytes the doubling wraps to nothing and never ends. *)
Lemma double_never fuel cap need : (cap = 0 \/ exists k, 6 <= k < 32 /\ cap = 2 ^ k) -> 2147483648 < need -> double fuel cap need = None.
Proof.
  revert cap. induction fuel as [|fuel IH]; intros cap Hc Hn; [done|]. cbn [double].
  assert (cap <= 2147483648) as Hle.
  { destruct Hc as [->|(k & Hk & ->)]; [lia|]. change 2147483648 with (2 ^ 31). apply Z.pow_le_mono_r; lia. }
  rewrite (proj2 (Z.ltb_lt _ _)) by lia. apply IH; [|done]. destruct Hc as [->|(k & Hk & ->)]; [by left|].
  destruct (decide (k = 31)) as [->|]; [by left|]. right. exists (k + 1). split; [lia|].
  rewrite Z.pow_add_r by lia. apply u32_id. split; [lia|]. change (2 ^ 1) with 2.
  assert (2 ^ k <= 2 ^ 30) by (apply Z.pow_le_mono_r; lia). change (2 ^ 30) with 1073741824 in *. change (2 ^ 32) with 4294967296. lia.
Qed.

Section Spec.
Context (kmalloc : Z -> Z -> option (list Z)) (Hkm : forall n c l, kmalloc n c = Some l -> zlen l = c).

Lemma ensure_spec s f need :
  file_ok f -> need <= 2147483648 ->
  exists ok g s', ensure kmalloc s f need = Some (ok, g, s') /\ files s' = files s /\
    (if ok : bool then file_ok g /\ view g = view f /\ name g = name f /\ used g = used f /\ size g = size f /\ need <= cap g else exists n c, kmalloc n c = None).
Proof.
  intros [Hc Hs Hp] Hn. unfold ensure. case_bool; [by exists true, f, s|].
  assert (exists k, 6 <= k < 32 /\ (if cap f =? 0 then 64 else cap f) = 2 ^ k) as (k & Hk & ->).
  { destruct Hp as [->|(k & Hk & ->)]; [by exists 6|]. exists k. split; [done|]. rewrite (proj2 (Z.eqb_neq _ _)); [done|].
    apply Z.pow_nonzero; lia. }
  destruct (double_spec 32 k need Hk Hn ltac:(lia)) as (c & j & -> & Hnc & _ & Hcj & Hj). cbn [mbind option_bind].
  destruct (kmalloc _ c) as [nd|] eqn:Ek; [|by do 3 eexists; split; [done|]; split; [done|]; do 2 eexists].
  apply Hkm in Ek. do 3 eexists. split; [done|]. split; [done|].
  assert (length (splice nd 0 (take (Z.to_nat (size f)) (data f))) = length nd) as Hl.
  { apply length_splice. rewrite length_take. lia. }
  split_and!; try done; cbn [data size cap].
  - split; cbn; [lia|lia|]. right. by exists j.
  - unfold view. cbn. f_equal. unfold splice. rewrite take_0, app_nil_l. rewrite take_app_length'; [done|]. rewrite length_take. lia.
Qed.

Lemma put_view s i f g path :
  fs_ok s -> files s !! i = Some f -> used f = true -> name f = path -> file_ok g -> used g = true -> name g = path ->
  fs_ok (put s i g) /\ elsewhere s (put s i g) path /\ at_path (put s i g) path = Some (view g).
Proof.
  intros Hs Ei Hu Hn Hg Hug Hng. assert (fs_ok (put s i g)) as Hs'.
  { apply put_ok with f; [done|done|done|]. intros _ j h Hj Hh Huh Hx. apply Hj, (fs_names s Hs j i h f); [done..|congruence]. }
  pose proof (fun q => put_at s i f g path q Hs Hs' Ei) as Hat.
  split; [done|]. split.
  - intros q Hq. rewrite Hat by done. by rewrite bool_decide_eq_false_2.
  - rewrite Hat by done. by rewrite bool_decide_eq_true_2, Hug.
Qed.

Lemma same_files s s' : files s' = files s -> (fs_ok s -> fs_ok s') /\ (forall q, at_path s' q = at_path s q).
Proof. destruct s, s'. cbn. intros ->. split; [|done]. intros [? ? ?]. by split. Qed.
Lemma elsewhere_trans a b c path : elsewhere a b path -> elsewhere b c path -> elsewhere a c path.
Proof. intros H1 H2 q Hq. by rewrite H2, H1. Qed.

Lemma slot_bind s i f : files s !! i = Some f -> (Some i ≫= fun i => (fun f => (i, f)) <$> files s !! i) = Some (i, f).
Proof. intros H. cbn. by rewrite H. Qed.

(** Storing a file's new bytes, [buf] from [at_] on, once there is room for them. *)
Lemma stored s i f path at_ buf len :
  fs_ok s -> files s !! i = Some f -> used f = true -> name f = path -> file_ok f ->
  0 <= at_ <= size f -> len = at_ + zlen buf -> len <= cap f ->
  let g := File (name f) (splice (data f) (Z.to_nat at_) buf) len (cap f) (used f) (is_dir f) in
  fs_ok (put s i g) /\ elsewhere s (put s i g) path /\ at_path (put s i g) path = Some (is_dir f, take (Z.to_nat at_) (view f).2 ++ buf).
Proof.
  intros Hs Ei Hu Hn [Hc Hsz Hp] Hat Hlen Hcap. cbv zeta. set (g := File _ _ _ _ _ _).
  assert (length (splice (data f) (Z.to_nat at_) buf) = length (data f)) as Hl by (apply length_splice; lia).
  assert (file_ok g) as Hg by (split; subst g; cbn [data size cap]; [lia|lia|done]).
  destruct (put_view s i f g path Hs Ei Hu Hn Hg Hu Hn) as (? & ? & Hv). split_and!; [done|done|]. rewrite Hv. f_equal.
  unfold view. subst g. cbn [is_dir size data snd]. f_equal. rewrite take_take, Nat.min_l by lia.
  replace (Z.to_nat len) with (Z.to_nat at_ + length buf)%nat by lia. apply take_splice. lia.
Qed.

(** The bytes replaced or added to in a slot, when there is memory for them. *)
Definition changed (whole : bool) (s : ramfs) (i : nat) (f : file_t) (buf : list Z) (need : Z) : option (bool * ramfs) :=
  r ← ensure kmalloc s f need;
  let '(ok, f, s) := r in
  let at_ := if whole then 0 else size f in
  if ok : bool
  then Some (true, put s i (File (name f) (splice (data f) (Z.to_nat at_) buf) (if whole then zlen buf else u32 (size f + zlen buf)) (cap f) (used f) (is_dir f)))
  else Some (false, s).

Lemma changed_spec whole s i f path buf need :
  fs_ok s -> files s !! i = Some f -> used f = true -> name f = path -> is_dir f = false ->
  let keep := if whole : bool then [] else (view f).2 in
  zlen keep + zlen buf <= need -> need <= 2147483648 ->
  exists ok s', changed whole s i f buf need = Some (ok, s') /\ fs_ok s' /\ elsewhere s s' path /\
    if ok : bool then at_path s' path = Some (false, keep ++ buf) else at_path s' path = at_path s path /\ exists n c, kmalloc n c = None.
Proof.
  intros Hs Hf Hu Hn Hd keep Hlen Hneed. pose proof (Forall_lookup_1 _ _ _ _ (fs_files _ Hs) Hf) as Hfo.
  assert (zlen (view f).2 = size f) as Hsz by (cbn; rewrite length_take; destruct Hfo; lia).
  destruct (ensure_spec s f need Hfo Hneed) as (ok & g & s2 & He & Hf2 & Hg). unfold changed. rewrite He. cbn [mbind option_bind].
  destruct (same_files s s2 Hf2) as [Hk2 Hat2]. specialize (Hk2 Hs). destruct ok; [|exists false, s2; split_and!; try done; by intros q _].
  destruct Hg as (Hgo & Hgv & Hgn & Hgu & Hgs & Hgc).
  destruct (put_view s2 i f g path) as (Hs3 & He3 & _); [done|by rewrite Hf2|done|done|done|congruence|congruence|].
  assert ((if whole then zlen buf else u32 (size g + zlen buf)) = (if whole then 0 else size g) + zlen buf) as ->.
  { subst keep. destruct whole; [done|]. apply u32_id. unfold is_word. lia. }
  destruct (stored (put s2 i g) i g path (if whole then 0 else size g) buf ((if whole then 0 else size g) + zlen buf)) as (Hs4 & He4 & Hat4);
    [done|cbn; apply list_lookup_insert_eq; rewrite Hf2; by eapply lookup_lt_Some|congruence|congruence|done|destruct Hgo, whole; lia|done
    |subst keep; destruct whole; cbn [length] in *; lia|].
  unfold put in Hs4, He4, Hat4. cbn [files asked] in Hs4, He4, Hat4. rewrite list_insert_insert_eq in Hs4, He4, Hat4.
  do 2 eexists. split; [reflexivity|]. split; [exact Hs4|]. split.
  - apply elsewhere_trans with s2; [by intros q _|]. eapply elsewhere_trans; [exact He3|exact He4].
  - etrans; [exact Hat4|]. rewrite Hgv. f_equal. f_equal; [pose proof (f_equal fst Hgv) as Hx; cbn in Hx; congruence|].
    subst keep. f_equal. destruct whole; [done|]. rewrite Hgs, <- Hsz, Nat2Z.id. apply firstn_all.
Qed.

(** What replacing ([whole]) and appending make of what was at a path; and when they fail. *)
Definition write_or_append (whole : bool) := if whole then fs_write kmalloc else fs_append kmalloc.
Lemma change_spec whole s path buf :
  fs_ok s -> zlen path < FS_NAME_MAX ->
  let old := default (false, []) (at_path s path) in
  let keep := if whole : bool then [] else old.2 in
  zlen keep + zlen buf <= 2147483648 ->
  exists ok s', write_or_append whole s path buf = Some (ok, s') /\ fs_ok s' /\ elsewhere s s' path /\
    if ok : bool then old.1 = false /\ at_path s' path = Some (false, keep ++ buf)
    else (at_path s' path = at_path s path \/ at_path s' path = Some old) /\
      (old.1 = true \/ (at_path s path = None /\ fs_count s = Z.of_nat FS_MAX_FILES) \/ exists n c, kmalloc n c = None).
Proof.
  intros Hs Hp old keep Hlen. pose proof (create_spec s path Hs Hp) as Hc.
  assert (forall i s1 f, fs_create s path = (Some i, s1) -> files s1 !! i = Some f ->
    write_or_append whole s path buf = if is_dir f then Some (false, s1) else
      changed whole s1 i f buf (if whole then if zlen buf =? 0 then 1 else zlen buf else u32 (size f + zlen buf))) as Hdef.
  { intros i s1 f E Hf. unfold write_or_append, fs_write, fs_append. by destruct whole; rewrite E, (slot_bind _ _ _ Hf). }
  destruct (fs_create s path) as [[i|] s1] eqn:Ec.
  - destruct Hc as (Hs1 & He1 & Hat1 & f & Hf & Hu & Hn & Hv). fold old in Hat1, Hv. rewrite (Hdef _ _ _ eq_refl Hf).
    assert (is_dir f = old.1) as Hdir by by rewrite <- Hv.
    destruct (is_dir f) eqn:Ed; [exists false, s1; split_and!; [done|done|done|by right|by left]|].
    assert (size f = zlen old.2) as Hsz.
    { rewrite <- Hv. pose proof (Forall_lookup_1 _ _ _ _ (fs_files _ Hs1) Hf) as [? ? _]. cbn. rewrite length_take. lia. }
    destruct (changed_spec whole s1 i f path buf (if whole then if zlen buf =? 0 then 1 else zlen buf else u32 (size f + zlen buf)))
      as (ok & s2 & -> & Hs2 & He2 & Hok); [done|done|done|done|done| | |].
    + rewrite Hv. subst keep. destruct whole; [cbn [length] in *; case_bool; lia|]. rewrite u32_id by (unfold is_word; lia). lia.
    + subst keep. destruct whole; [cbn [length] in *; case_bool; lia|]. rewrite u32_id by (unfold is_word; lia). lia.
    + exists ok, s2. split; [done|]. split; [done|]. split; [by apply elsewhere_trans with s1|]. rewrite Hv in Hok. destruct ok; [done|].
      destruct Hok as [Hok1 Hok2]. split; [right; by rewrite Hok1|]. right. by right.
  - destruct Hc as (-> & Hno & Hfull). exists false, s. split; [|split_and!; [done|done|by left|by right; left]].
    unfold write_or_append, fs_write, fs_append. by destruct whole; rewrite Ec.
Qed.
End Spec.

Lemma mkdir_spec s path : fs_ok s -> zlen path < FS_NAME_MAX ->
  let '(ok, s') := fs_mkdir s path in
  fs_ok s' /\ elsewhere s s' path /\ asked s' = asked s /\
  if ok : bool then at_path s path = None /\ at_path s' path = Some (true, [])
  else s' = s /\ (is_Some (at_path s path) \/ fs_count s = Z.of_nat FS_MAX_FILES).
Proof.
  intros Hs Hp. unfold fs_mkdir. destruct (fs_find s path) as [i|] eqn:E.
  { split_and!; try done. left. unfold at_path. rewrite E. by eexists. }
  pose proof (create_spec s path Hs Hp) as Hc. pose proof (at_path_none _ _ E) as Hno. unfold fs_create in *. rewrite E in *.
  destruct (first_free (files s) 0) as [i|].
  - destruct Hc as (Hs1 & He1 & Hat1 & f & Hf & Hu & Hn & Hv). rewrite (slot_bind _ _ _ Hf). rewrite Hno in Hv. cbn [default] in Hv.
    pose proof (Forall_lookup_1 _ _ _ _ (fs_files _ Hs1) Hf) as [Hc Hsz Hpw].
    destruct (put_view _ i f (File (name f) (data f) (size f) (cap f) (used f) true) path Hs1 Hf Hu Hn ltac:(by split) Hu Hn) as (Hs2 & He2 & Hat2).
    split; [done|]. split; [by eapply elsewhere_trans|]. split; [done|]. split; [done|]. rewrite Hat2. unfold view in *. cbn [is_dir size data] in *.
    injection Hv as _ Hv. by rewrite Hv.
  - cbn [mbind option_bind]. split_and!; try done. right. by destruct Hc as (_ & _ & ?).
Qed.
Lemma delete_spec s path : fs_ok s ->
  let '(ok, s') := fs_delete s path in
  fs_ok s' /\ elsewhere s s' path /\ asked s' = asked s /\ at_path s' path = None /\ (ok = true <-> is_Some (at_path s path)) /\ (ok = false -> s' = s).
Proof.
  intros Hs. unfold fs_delete. destruct (fs_find s path) as [i|] eqn:E.
  - destruct (fs_find_spec _ _ _ E) as (f & Hf & Hu & Hn).
    assert (fs_ok (put s i no_file)) as Hs' by (apply put_ok with f; [done|done|apply file_ok_no_file|done]).
    split; [done|]. split; [intros q Hq; rewrite (put_at s i f no_file path q) by done; by rewrite bool_decide_eq_false_2|].
    split; [done|]. split; [|split; [|done]].
    + apply at_path_none. destruct (fs_find (put s i no_file) path) as [j|] eqn:E'; [|done]. exfalso.
      destruct (fs_find_spec _ _ _ E') as (g & Hg & Hug & Hng). cbn in Hg. pose proof (lookup_lt_Some _ _ _ Hf).
      destruct (decide (j = i)) as [->|Hj]; [rewrite list_lookup_insert_eq in Hg by done; by injection Hg as <-|].
      rewrite list_lookup_insert_ne in Hg by done. apply Hj, (fs_names s Hs j i g f); [done..|congruence].
    + rewrite (at_path_found _ _ _ _ E Hf). split; [by eexists|done].
  - rewrite (at_path_none _ _ E). split_and!; try done.
Qed.
