(* ===== verification/Vfs.v ===== *)
(** The files a program sees (kernel/vfs.c): one namespace over the generated tree, the disk's
    volume, the stick's, and the files kept in memory on a machine without a disk. *)
From S2P Require Import Prelude Path Ramfs.

(** ** A volume *)

(** What the file system on a volume offers (kernel/fat.h): nothing is assumed of it. *)
Class VolumeOps (V : Type) := {
  fat_mounted : V -> bool;
  fat_list : V -> list Z -> Z -> option (option (list Z * Z * bool));
  fat_stat : V -> list Z -> option (Z * bool);
  fat_read_file : V -> list Z -> Z -> option (list Z);
  fat_write_file : V -> list Z -> list Z -> bool * V;
  fat_delete_file : V -> list Z -> bool * V;
  fat_mkdir : V -> list Z -> bool * V;
  fat_rmdir : V -> list Z -> bool * V;
  fat_rename : V -> list Z -> list Z -> bool * V }.

Section Vfs.
Context {V : Type} `{VolumeOps V}.
(** The memory, and the generated tree. *)
Variable kmalloc : Z -> Z -> option (list Z).
Variable sysfs_list : list Z -> Z -> option (option (list Z * Z * bool)).
Variable sysfs_stat : list Z -> option (Z * bool).
Variable sysfs_read : list Z -> Z -> option (list Z).

Record vfs := Vfs { ram : ramfs; disk : V; stick : V; changes : Z; cwd : list Z }.

Definition with_ram (s : vfs) (r : ramfs) : vfs := Vfs r (disk s) (stick s) (changes s) (cwd s).
Definition volume (s : vfs) (u : bool) : V := if u then stick s else disk s.
Definition with_volume (s : vfs) (u : bool) (v : V) : vfs :=
  if u then Vfs (ram s) (disk s) v (changes s) (cwd s) else Vfs (ram s) v (stick s) (changes s) (cwd s).
Definition changing (s : vfs) : vfs := Vfs (ram s) (disk s) (stick s) (u32 (changes s + 1)) (cwd s).

Definition resolve (s : vfs) (path : list Z) : option (list Z) := vfs_resolve (cwd s) (Some path) VFS_PATH_MAX.
Definition at_root (abs : list Z) : bool := bool_decide (abs = [47]).

(** -1, nothing, or an entry. *)
Definition vfs_list (s : vfs) (path : list Z) (index : Z) : option (option (list Z * Z * bool)) :=
  match resolve s path with
  | None => None
  | Some abs =>
      if vfs_generated abs then sysfs_list abs index else
      let tops := if fat_mounted (stick s) then [drop 1 bin; drop 1 sys; drop 1 usb] else [drop 1 bin; drop 1 sys] in
      match (if at_root abs then tops !! Z.to_nat index else None) with
      | Some top => Some (Some (top, 0, true))
      | None =>
          let index := if at_root abs then index - zlen tops else index in
          let (u, on) := route abs in
          if fat_mounted (volume s u) then fat_list (volume s u) on index else
          if on_usb abs then None else Some (ram_list (ram s) abs index)
      end
  end.
(** [while (vfs_list(path, n, 0, 0, 0) == 1) n++]. *)
Fixpoint count_from (fuel : nat) (s : vfs) (path : list Z) (n : Z) : option Z :=
  match fuel with
  | O => None
  | S fuel => if vfs_list s path n is Some (Some _) then count_from fuel s path (n + 1) else Some n
  end.
Definition vfs_count (fuel : nat) (s : vfs) (path : list Z) : option Z := count_from fuel s path 0.

Definition vfs_stat (s : vfs) (path : list Z) : option (Z * bool) :=
  abs ← resolve s path;
  if at_root abs then Some (0, true) else
  if vfs_generated abs then sysfs_stat abs else
  let (u, on) := route abs in
  if fat_mounted (volume s u) then fat_stat (volume s u) on else
  if on_usb abs then None else
  i ← fs_find (ram s) abs;
  let f := getz no_file (files (ram s)) (Z.of_nat i) in Some (size f, is_dir f).

Definition vfs_read (s : vfs) (path : list Z) (cap : Z) : option (list Z) :=
  abs ← resolve s path;
  if vfs_generated abs then sysfs_read abs cap else
  let (u, on) := route abs in
  if fat_mounted (volume s u) then fat_read_file (volume s u) on cap else
  if on_usb abs then None else
  i ← fs_find (ram s) abs;
  let f := getz no_file (files (ram s)) (Z.of_nat i) in
  if is_dir f then None else Some (take (Z.to_nat (if size f <? cap then size f else cap)) (data f)).

(** The operations on one path that change something: what is done on a volume, and in memory. *)
Definition change (s : vfs) (abs : list Z) (on_volume : V -> list Z -> bool * V) (in_memory : ramfs -> option (bool * ramfs)) : option (bool * vfs) :=
  let s := changing s in
  let (u, on) := route abs in
  if fat_mounted (volume s u) then let (r, v) := on_volume (volume s u) on in Some (r, with_volume s u v) else
  if on_usb abs then Some (false, s) else
  r ← in_memory (ram s); Some (r.1, with_ram s r.2).

Definition vfs_write (s : vfs) (path buf : list Z) : option (bool * vfs) :=
  match resolve s path with
  | None => Some (false, s)
  | Some abs =>
      if vfs_generated abs then Some (false, s) else
      change s abs (fun v on => fat_write_file v on buf) (fun r => fs_write kmalloc r abs buf)
  end.

Definition vfs_append (s : vfs) (path buf : list Z) : option (bool * vfs) :=
  match vfs_stat s path with
  | None => vfs_write s path buf
  | Some (_, true) => Some (false, s)
  | Some (size, false) =>
      let total := u32 (size + zlen buf) in
      let n := asked (ram s) in
      let s := with_ram s (Ramfs (files (ram s)) (n + 1)) in
      match kmalloc n total with
      | None => Some (false, s)
      | Some joined =>
          match vfs_read s path size with
          | None => Some (false, s)
          | Some got => vfs_write s path (splice (splice joined 0 got) (Z.to_nat size) buf)
          end
      end
  end.

Definition vfs_delete (s : vfs) (path : list Z) : option (bool * vfs) :=
  match resolve s path with
  | None => Some (false, s)
  | Some abs =>
      if vfs_generated abs then Some (false, s) else
      change s abs fat_delete_file (fun r => Some (fs_delete r abs))
  end.

Definition vfs_mkdir (s : vfs) (path : list Z) : option (bool * vfs) :=
  match resolve s path with
  | None => Some (false, s)
  | Some abs =>
      if at_root abs then Some (false, s) else
      if vfs_generated abs then Some (false, s) else
      change s abs fat_mkdir (fun r => Some (fs_mkdir r abs))
  end.

Definition vfs_rmdir (fuel : nat) (s : vfs) (path : list Z) : option (bool * vfs) :=
  match resolve s path with
  | None => Some (false, s)
  | Some abs =>
      if at_root abs then Some (false, s) else
      if vfs_generated abs then Some (false, s) else
      n ← vfs_count fuel s abs;
      if 0 <? n then Some (false, s) else
      change s abs fat_rmdir (fun r => Some (fs_delete r abs))
  end.

(** What is mounted is asked of the volume chosen last, that of [to]. *)
Definition vfs_rename (s : vfs) (from to : list Z) : bool * vfs :=
  match resolve s from, resolve s to with
  | Some a, Some b =>
      if vfs_generated a || vfs_generated b then (false, s) else
      let s := changing s in
      let (u, on_a) := route a in let (v, on_b) := route b in
      if Bool.eqb u v && fat_mounted (volume s v) then
        let (r, w) := fat_rename (volume s v) on_a on_b in (r, with_volume s v w)
      else (false, s)
  | _, _ => (false, s)
  end.

Definition vfs_chdir (s : vfs) (path : list Z) : bool * vfs :=
  match resolve s path with
  | None => (false, s)
  | Some abs =>
      if at_root abs || (if vfs_stat s abs is Some (_, true) then true else false) then
        (true, Vfs (ram s) (disk s) (stick s) (changes s) (take (Z.to_nat (VFS_PATH_MAX - 1)) abs))
      else (false, s)
  end.

Definition vfs_volume_missing (s : vfs) (abs : list Z) : bool := on_usb abs && negb (fat_mounted (stick s)).

(** ** What an operation can touch *)

(** An operation that changes something, and the path it is on. *)
Inductive op := Write (path buf : list Z) | Append (path buf : list Z) | Delete (path : list Z) | Mkdir (path : list Z) | Rmdir (path : list Z).
Definition op_path (o : op) : list Z :=
  match o with Write p _ | Append p _ | Delete p | Mkdir p | Rmdir p => p end.
Definition run (fuel : nat) (s : vfs) (o : op) : option (bool * vfs) :=
  match o with
  | Write p b => vfs_write s p b
  | Append p b => vfs_append s p b
  | Delete p => vfs_delete s p
  | Mkdir p => vfs_mkdir s p
  | Rmdir p => vfs_rmdir fuel s p
  end.

(** What of the state the place [abs] is in: everything else is left alone. *)
Record confined (s s' : vfs) (abs : list Z) (ok : bool) : Prop := {
  cf_cwd : cwd s' = cwd s;
  cf_generated : vfs_generated abs = true -> ok = false /\ stick s' = stick s /\ disk s' = disk s /\ files (ram s') = files (ram s);
  cf_stick : on_usb abs = false -> stick s' = stick s;
  cf_disk : on_usb abs = true -> disk s' = disk s /\ files (ram s') = files (ram s);
  cf_mounted : fat_mounted (disk s) = true -> files (ram s') = files (ram s);
  cf_missing : vfs_volume_missing s abs = true -> ok = false /\ stick s' = stick s }.

Lemma confined_refused s abs : confined s s abs false.
Proof. by split. Qed.

#[local] Ltac confine :=
  split; unfold vfs_volume_missing; cbn; repeat match goal with E : _ = _ :> bool |- _ => rewrite E end; done.

Lemma change_confined s abs on_volume in_memory r :
  vfs_generated abs = false -> change s abs on_volume in_memory = Some r -> confined s r.2 abs r.1.
Proof.
  intros Hg. unfold change, route, vfs_volume_missing. destruct (on_usb abs) eqn:Eu; cbn [volume changing stick disk].
  - destruct (fat_mounted (stick s)) eqn:Em.
    + destruct (on_volume _ _) as [ok v]. intros [= <-]. confine.
    + intros [= <-]. confine.
  - destruct (fat_mounted (disk s)) eqn:Em.
    + destruct (on_volume _ _) as [ok v]. intros [= <-]. confine.
    + destruct (in_memory _) as [[ok m]|]; [|done]. cbn [mbind option_bind]. intros [= <-]. confine.
Qed.
Lemma write_confined s path buf abs r :
  resolve s path = Some abs -> vfs_write s path buf = Some r -> confined s r.2 abs r.1.
Proof.
  unfold vfs_write. intros ->. destruct (vfs_generated abs) eqn:Eg; [intros [= <-]; apply confined_refused|]. by apply change_confined.
Qed.
Lemma same_confined s s1 s' abs ok :
  ram s1 = Ramfs (files (ram s)) (asked (ram s1)) -> disk s1 = disk s -> stick s1 = stick s -> cwd s1 = cwd s ->
  confined s1 s' abs ok -> confined s s' abs ok.
Proof.
  intros Hr Hd Hs Hc [H1 H2 H3 H4 H5 H6]. unfold vfs_volume_missing in *. rewrite Hr, ?Hd, ?Hs, ?Hc in *. cbn [files] in *. by split.
Qed.

(** C25: An operation touches one thing at most: one on a path of the stick only the stick,
    one on any other path not the stick, and the files in memory only on a machine without a
    disk; one on a generated path, or on the stick when there is none, is refused and touches
    nothing; and renaming between the disk and the stick is refused and touches neither. *)
Theorem operations_touch_one_volume fuel s :
  (forall o abs ok s', resolve s (op_path o) = Some abs -> run fuel s o = Some (ok, s') -> confined s s' abs ok) /\
  (forall o ok s', resolve s (op_path o) = None -> run fuel s o = Some (ok, s') -> ok = false /\ s' = s) /\
  (forall from to a b, resolve s from = Some a -> resolve s to = Some b ->
     confined s (vfs_rename s from to).2 b (vfs_rename s from to).1 /\
     (on_usb a <> on_usb b \/ vfs_generated a = true -> (vfs_rename s from to).1 = false /\
        ram (vfs_rename s from to).2 = ram s /\ disk (vfs_rename s from to).2 = disk s /\ stick (vfs_rename s from to).2 = stick s)).
Proof.
  split_and!.
  - intros o abs ok s' Hr E. destruct o as [path buf|path buf|path|path|path]; cbn [run op_path] in *.
    + exact (write_confined _ _ _ _ _ Hr E).
    + unfold vfs_append in E. destruct (vfs_stat s path) as [[size []]|]; [injection E as <- <-; apply confined_refused| |exact (write_confined _ _ _ _ _ Hr E)].
      set (s1 := with_ram s _) in E.
      assert (forall r, (ok, s') = r -> r = (false, s1) -> confined s s' abs ok) as Hsame.
      { intros r <- [= -> ->]. by apply (same_confined s s1). }
      destruct (kmalloc _ _) as [joined|]; [|injection E as <- <-; by eapply Hsame].
      destruct (vfs_read s1 path size) as [got|]; [|injection E as <- <-; by eapply Hsame].
      apply (same_confined s s1); try done. exact (write_confined s1 _ _ _ _ Hr E).
    + unfold vfs_delete in E. rewrite Hr in E. destruct (vfs_generated abs) eqn:Eg; [injection E as <- <-; apply confined_refused|].
      exact (change_confined _ _ _ _ _ Eg E).
    + unfold vfs_mkdir in E. rewrite Hr in E. destruct (at_root abs); [injection E as <- <-; apply confined_refused|].
      destruct (vfs_generated abs) eqn:Eg; [injection E as <- <-; apply confined_refused|]. exact (change_confined _ _ _ _ _ Eg E).
    + unfold vfs_rmdir in E. rewrite Hr in E. destruct (at_root abs); [injection E as <- <-; apply confined_refused|].
      destruct (vfs_generated abs) eqn:Eg; [injection E as <- <-; apply confined_refused|].
      destruct (vfs_count fuel s abs) as [n|]; [|done]. cbn [mbind option_bind] in E.
      destruct (0 <? n); [injection E as <- <-; apply confined_refused|]. exact (change_confined _ _ _ _ _ Eg E).
  - intros o ok s' Hr E. destruct o as [path buf|path buf|path|path|path]; cbn [run op_path] in *.
    2: unfold vfs_append, vfs_stat in E; rewrite Hr in E; cbn [mbind option_bind] in E.
    all: unfold vfs_write, vfs_delete, vfs_mkdir, vfs_rmdir in E; rewrite Hr in E; by injection E as <- <-.
  - intros from to a b Ha Hb. unfold vfs_rename. rewrite Ha, Hb. unfold route.
    destruct (vfs_generated a) eqn:Ega, (vfs_generated b) eqn:Egb; cbn [orb]; try (split; [apply confined_refused|done]).
    destruct (on_usb a) eqn:Eua, (on_usb b) eqn:Eub; cbn [Bool.eqb andb volume changing stick disk]; unfold vfs_volume_missing.
    + destruct (fat_mounted (stick s)) eqn:Em; [destruct (fat_rename _ _ _) as [r w]|]; (split; [|by intros [?|?]]);
        confine.
    + split; [|done]. confine.
    + split; [|done]. confine.
    + destruct (fat_mounted (disk s)) eqn:Em; [destruct (fat_rename _ _ _) as [r w]|]; (split; [|by intros [?|?]]);
        confine.
Qed.

(** ** A machine without a disk *)

Section Diskless.
Context (Hkm : forall n c l, kmalloc n c = Some l -> zlen l = c).

(** A path of such a machine that leads to a place the files in memory answer for. *)
Record in_memory (s : vfs) (path abs : list Z) : Prop := {
  im_disk : fat_mounted (disk s) = false;
  im_files : fs_ok (ram s);
  im_resolve : resolve s path = Some abs;
  im_plain : vfs_generated abs = false /\ on_usb abs = false }.

Lemma in_memory_name s path abs : in_memory s path abs -> zlen abs < FS_NAME_MAX.
Proof. intros [_ _ Hr _]. apply resolve_clean in Hr as (place & -> & _ & _ & Hl). exact Hl. Qed.
Lemma in_memory_route s path abs : in_memory s path abs -> route abs = (false, abs).
Proof. intros [_ _ _ [_ Hu]]. unfold route. by rewrite Hu. Qed.

Lemma found_view s abs : fs_ok (ram s) -> (i ← fs_find (ram s) abs; Some (getz no_file (files (ram s)) (Z.of_nat i))) = None /\ at_path (ram s) abs = None \/
  exists f, (i ← fs_find (ram s) abs; Some (getz no_file (files (ram s)) (Z.of_nat i))) = Some f /\ at_path (ram s) abs = Some (view f) /\ zlen (view f).2 = size f.
Proof.
  intros Hs. destruct (fs_find (ram s) abs) as [i|] eqn:E; [|left; split; [done|by apply at_path_none]].
  right. destruct (fs_find_spec _ _ _ E) as (f & Hf & _). exists f. pose proof (at_path_found _ _ _ _ E Hf) as Hat.
  assert (getz no_file (files (ram s)) (Z.of_nat i) = f) as Hg by (unfold getz; rewrite Nat2Z.id; by apply nth_lookup_Some).
  cbn [mbind option_bind]. rewrite Hg. split_and!; [done|done|]. pose proof (Forall_lookup_1 _ _ _ _ (fs_files _ Hs) Hf) as [? ? _].
  cbn. rewrite length_take. lia.
Qed.

Lemma read_memory s path abs n :
  in_memory s path abs -> 0 <= n ->
  vfs_read s path n = match at_path (ram s) abs with Some (false, b) => Some (take (Z.to_nat n) b) | _ => None end.
Proof.
  intros Hi Hn. unfold vfs_read. rewrite (im_resolve _ _ _ Hi). cbn [mbind option_bind]. rewrite (proj1 (im_plain _ _ _ Hi)), (in_memory_route _ _ _ Hi).
  cbn [volume]. rewrite (im_disk _ _ _ Hi), (proj2 (im_plain _ _ _ Hi)).
  destruct (found_view s abs (im_files _ _ _ Hi)) as [[E ->]|(f & E & -> & Hl)]; cbn [mbind option_bind] in E;
    (destruct (fs_find (ram s) abs) as [i|]; [|done]); [done|]. injection E as E. cbn [mbind option_bind]. cbv zeta. rewrite E. unfold view in *. cbn [snd] in Hl.
  destruct (is_dir f); [done|]. f_equal. rewrite take_take. f_equal. rewrite length_take in Hl. case_bool; lia.
Qed.
Lemma stat_memory s path abs :
  in_memory s path abs -> abs <> [47] -> vfs_stat s path = (fun v => (zlen v.2, v.1)) <$> at_path (ram s) abs.
Proof.
  intros Hi Hr. unfold vfs_stat. rewrite (im_resolve _ _ _ Hi). cbn [mbind option_bind]. unfold at_root. rewrite bool_decide_eq_false_2 by done.
  rewrite (proj1 (im_plain _ _ _ Hi)), (in_memory_route _ _ _ Hi). cbn [volume]. rewrite (im_disk _ _ _ Hi), (proj2 (im_plain _ _ _ Hi)).
  destruct (found_view s abs (im_files _ _ _ Hi)) as [[E ->]|(f & E & -> & Hl)]; cbn [mbind option_bind] in E;
    (destruct (fs_find (ram s) abs) as [i|]; [|done]); [done|]. injection E as E. cbn [mbind option_bind fmap option_fmap option_map]. cbv zeta. rewrite E. cbn [fst]. by rewrite Hl.
Qed.
Lemma change_memory s path abs on_volume on_memory :
  in_memory s path abs -> change s abs on_volume on_memory = (fun r => (r.1, with_ram (changing s) r.2)) <$> on_memory (ram s).
Proof.
  intros Hi. unfold change. rewrite (in_memory_route _ _ _ Hi). cbn [volume changing disk]. rewrite (im_disk _ _ _ Hi), (proj2 (im_plain _ _ _ Hi)).
  change (ram (changing s)) with (ram s). destruct (on_memory (ram s)); reflexivity.
Qed.

(** What a write of [keep ++ buf] over [old] leaves. *)
Definition outcome (s s' : vfs) (abs : list Z) (ok : bool) (new : list Z) : Prop :=
  fs_ok (ram s') /\ elsewhere (ram s) (ram s') abs /\
  if ok then default (false, []) (at_path (ram s) abs) = (false, (default (false, []) (at_path (ram s) abs)).2) /\ at_path (ram s') abs = Some (false, new)
  else at_path (ram s') abs = at_path (ram s) abs \/ at_path (ram s') abs = Some (default (false, []) (at_path (ram s) abs)).

Lemma write_memory s path abs buf :
  in_memory s path abs -> zlen buf <= 2147483648 ->
  exists ok s', vfs_write s path buf = Some (ok, s') /\ outcome s s' abs ok buf.
Proof.
  intros Hi Hl. unfold vfs_write. rewrite (im_resolve _ _ _ Hi), (proj1 (im_plain _ _ _ Hi)), (change_memory _ _ _ _ _ Hi).
  destruct (change_spec kmalloc Hkm true (ram s) abs buf (im_files _ _ _ Hi) (in_memory_name _ _ _ Hi)) as (ok & m & E & Hm & He & Hok); [cbn; lia|].
  cbn [write_or_append] in E. rewrite E. cbn [fmap option_fmap option_map]. do 2 eexists. split; [done|]. split; [done|]. split; [done|].
  cbn [fst snd]. destruct ok; [|by destruct Hok]. destruct Hok as [Hd Hok]. split; [|done]. by destruct (default _ _) as [? ?]; cbn in Hd; subst.
Qed.
Lemma append_memory s path abs buf :
  in_memory s path abs -> abs <> [47] ->
  let old := (default (false, []) (at_path (ram s) abs)).2 in
  zlen old + zlen buf <= 2147483648 ->
  exists ok s', vfs_append s path buf = Some (ok, s') /\ outcome s s' abs ok (old ++ buf).
Proof.
  intros Hi Hroot. cbv zeta. unfold vfs_append. rewrite (stat_memory _ _ _ Hi Hroot).
  destruct (at_path (ram s) abs) as [[d b]|] eqn:E; cbn [fmap option_fmap option_map fst snd default from_option id]; intros Hl;
    [|apply write_memory; [done|exact Hl]].
  destruct d; [exists false, s; split; [done|]; split; [apply Hi|]; split; [by intros q _|]; by left|].
  set (s1 := with_ram s _). pose proof (same_files (ram s) (ram s1) eq_refl) as [Hf1 Hat1].
  assert (in_memory s1 path abs) as Hi1 by (destruct Hi as [? ? ? ?]; split; auto).
  assert (forall s2, s2 = s1 -> outcome s s2 abs false (b ++ buf)) as Hrefuse.
  { intros s2 ->. split; [by apply Hi1|]. split; [by intros q _|]. left. by rewrite Hat1. }
  rewrite u32_id by (unfold is_word; lia).
  destruct (kmalloc _ _) as [joined|] eqn:Ek; [|exists false, s1; split; [done|by apply Hrefuse]]. apply Hkm in Ek.
  rewrite (read_memory _ _ _ _ Hi1) by lia. rewrite Hat1, E, Nat2Z.id, firstn_all.
  assert (splice (splice joined 0 b) (length b) buf = b ++ buf) as ->.
  { pose proof (length_splice joined b 0 ltac:(lia)) as Hj. apply (list_eq_getz 0); [rewrite length_splice, length_app; lia|].
    intros i Hr. rewrite length_splice in Hr by lia. rewrite getz_splice, getz_splice, getz_app by lia. change (Z.of_nat 0) with 0.
    destruct (Z.ltb_spec i (zlen b)).
    - rewrite (proj2 (Z.leb_gt _ _)), (proj2 (Z.leb_le 0 i)) by lia. cbn [andb]. rewrite (proj2 (Z.ltb_lt _ _)) by lia. f_equal. lia.
    - rewrite (proj2 (Z.leb_le _ _)), (proj2 (Z.ltb_lt _ _)) by lia. done. }
  destruct (write_memory s1 path abs (b ++ buf) Hi1) as (ok & s2 & Ew & Hm & He & Hok); [rewrite length_app; lia|].
  exists ok, s2. split; [done|]. split; [done|]. split; [intros q Hq; by rewrite He, Hat1|]. rewrite !Hat1, E in Hok. by rewrite E.
Qed.

(** C26: On a machine without a disk the files in memory are a map from places to what is
    there, whatever the paths are spelled like: reading and asking after a path answer from the
    map; writing, appending, deleting and making a directory change it at their place and
    nowhere else, to what was asked for when they answer true, for files of up to 2 GiB. *)
Theorem files_in_memory_are_a_map s path abs :
  in_memory s path abs ->
  (forall n, 0 <= n -> vfs_read s path n = match at_path (ram s) abs with Some (false, b) => Some (take (Z.to_nat n) b) | _ => None end) /\
  (abs <> [47] -> vfs_stat s path = (fun v => (zlen v.2, v.1)) <$> at_path (ram s) abs) /\
  (forall buf, zlen buf <= 2147483648 -> exists ok s', vfs_write s path buf = Some (ok, s') /\ outcome s s' abs ok buf) /\
  (forall buf, abs <> [47] -> zlen (default (false, []) (at_path (ram s) abs)).2 + zlen buf <= 2147483648 ->
     exists ok s', vfs_append s path buf = Some (ok, s') /\ outcome s s' abs ok ((default (false, []) (at_path (ram s) abs)).2 ++ buf)) /\
  (exists ok s', vfs_delete s path = Some (ok, s') /\ fs_ok (ram s') /\ elsewhere (ram s) (ram s') abs /\
     at_path (ram s') abs = None /\ (ok = true <-> is_Some (at_path (ram s) abs))) /\
  (abs <> [47] -> exists ok s', vfs_mkdir s path = Some (ok, s') /\ fs_ok (ram s') /\ elsewhere (ram s) (ram s') abs /\
     if ok : bool then at_path (ram s) abs = None /\ at_path (ram s') abs = Some (true, [])
     else ram s' = ram s /\ (is_Some (at_path (ram s) abs) \/ fs_count (ram s) = Z.of_nat FS_MAX_FILES)).
Proof.
  intros Hi. split; [by intros; apply read_memory|]. split; [by apply stat_memory|]. split; [by intros; apply write_memory|].
  split; [by intros; apply append_memory|]. split.
  - unfold vfs_delete. rewrite (im_resolve _ _ _ Hi), (proj1 (im_plain _ _ _ Hi)), (change_memory _ _ _ _ _ Hi).
    pose proof (delete_spec (ram s) abs (im_files _ _ _ Hi)) as Hd. destruct (fs_delete (ram s) abs) as [ok m].
    destruct Hd as (? & ? & _ & ? & ? & _). by exists ok, (with_ram (changing s) m).
  - intros Hroot. unfold vfs_mkdir, at_root. rewrite (im_resolve _ _ _ Hi), bool_decide_eq_false_2 by done.
    rewrite (proj1 (im_plain _ _ _ Hi)), (change_memory _ _ _ _ _ Hi).
    pose proof (mkdir_spec (ram s) abs (im_files _ _ _ Hi) (in_memory_name _ _ _ Hi)) as Hd. destruct (fs_mkdir (ram s) abs) as [ok m].
    destruct Hd as (? & ? & _ & ?). by exists ok, (with_ram (changing s) m).
Qed.
End Diskless.
End Vfs.

(** ** A run *)

(** A volume that is never there, and memory enough. *)
#[local] Instance absent : VolumeOps unit := {
  fat_mounted _ := false; fat_list _ _ _ := None; fat_stat _ _ := None; fat_read_file _ _ _ := None;
  fat_write_file v _ _ := (false, v); fat_delete_file v _ := (false, v); fat_mkdir v _ := (false, v);
  fat_rmdir v _ := (false, v); fat_rename v _ _ := (false, v) }.
Notation memory := (fun _ c : Z => if c <? 0 then None else Some (replicate (Z.to_nat c) 0)).
Definition empty_machine : vfs (V := unit) := Vfs (fs_init (Ramfs [] 0)) tt tt 0 [47].
(** "a/../f", "/f" and "/usb/f". *)
Definition f_path : list Z := [97; 47; 46; 46; 47; 102].
Definition f_abs : list Z := [47; 102].
Definition usb_f : list Z := usb ++ f_abs.

Lemma empty_in_memory : in_memory empty_machine f_path f_abs.
Proof.
  split; [reflexivity| |vm_compute; reflexivity|vm_compute; by split]. split; [reflexivity|apply Forall_replicate, file_ok_no_file|].
  intros i j f g Hf _ Hu. apply (lookup_replicate FS_MAX_FILES no_file) in Hf as [-> _]. done.
Qed.
Lemma files_in_memory_are_a_map_witness :
  exists s', vfs_write memory empty_machine f_path [1; 2; 3] = Some (true, s') /\ at_path (ram s') f_abs = Some (false, [1; 2; 3]).
Proof.
  destruct (files_in_memory_are_a_map memory (fun _ => None) (fun _ _ => None)
    ltac:(intros n c l Hx; cbv beta in Hx; destruct (Z.ltb_spec c 0); [discriminate Hx|injection Hx as <-; rewrite length_replicate; lia]) empty_machine f_path f_abs empty_in_memory) as (_ & _ & H & _).
  destruct (H [1; 2; 3] ltac:(by vm_compute)) as (ok & s' & E & _ & _ & Hok). exists s'.
  assert (fst <$> vfs_write memory empty_machine f_path [1; 2; 3] = Some true) as Et by (vm_compute; reflexivity).
  rewrite E in Et. cbn in Et. injection Et as ->. split; [exact E|apply Hok].
Defined.
Lemma operations_touch_one_volume_witness : confined empty_machine (changing empty_machine) usb_f false.
Proof.
  apply (proj1 (operations_touch_one_volume memory (fun _ _ => None) (fun _ => None) (fun _ _ => None) 0 empty_machine)
    (Write usb_f [1]) usb_f false (changing empty_machine)); vm_compute; reflexivity.
Defined.

(** Without a disk, removing a directory by name removes a file, and deleting by name a
    directory that is not empty. *)
Example memory_does_not_look :
  let silent := fun _ _ => None in
  let s := default (false, empty_machine) (vfs_write memory empty_machine f_path [1]) in
  let t := (vfs_mkdir s.2 [47; 100]) in
  let u := default (false, empty_machine) (vfs_write memory (default (false, empty_machine) t).2 [47; 100; 47; 102] [2]) in
  fst <$> vfs_rmdir silent 9 s.2 f_path = Some true /\ fst <$> vfs_delete u.2 [47; 100] = Some true /\ fst <$> vfs_rmdir silent 9 u.2 [47; 100] = Some false.
Proof. vm_compute. repeat split; reflexivity. Qed.
